(* ===== verification/_CoqProject ===== *)
-Q . S2P
Prelude.v
Control.v
BehaviorQueue.v
TaskQueue.v
Interfaces.v
Alarm.v
AlarmManager.v
Arbiter.v
SafetyCheck.v
RTSchedule.v
RTStateMachine.v
RTExecutive.v
RTDataStore.v
RTSeqlock.v
EventQueue.v
EventBus.v
EventPolicies.v
RingQueue.v
HAStateMachine.v
Failover.v
Expiration.v
DataStore.v
StoreCallbacks.v
EventAdapter.v
ActionExecutor.v
Condition.v
Sequence.v
TaskExecution.v
TaskScheduling.v
Shuttle.v
BagIndex.v
BagReader.v
AsyncWriter.v
Retention.v
BagWriter.v
BagReplay.v
BagLogger.v
Ieee754.v
Rounding.v
Pdo.v
EtherCATMaster.v
EtherCATCycle.v
Text.v
Config.v
YamlConfig.v
Tracing.v
Fieldbus.v
PerfMonitor.v
ExecutivePerf.v
Affinity.v
Metrics.v
RTMetrics.v
Calendar.v
Checkpoint.v
ProcessMonitor.v
HealthServer.v
NonRT.v
AtomicMetrics.v
Accessors.v
HotKeys.v
StructLog.v
Systemd.v
MetricsHttp.v
Serializer.v
BuiltinActions.v
AlarmLoad.v
Shutdown.v
ScheduleTools.v
