(* ===== verification/Prelude.v ===== *)
(** * A verification library for MXRC

    MXRC (src/src) is a robot controller: a real-time process that runs periodic
    actions and drives the fieldbus, and a non-real-time process in which a behaviour arbiter, an alarm
    manager, tasks and sequences, an event bus, a data store and a bag logger
    decide what the robot does and record it; the pallet shuttle is an
    application on top.  This library models the C++ code of those parts as
    executable definitions and proves what makes them correct, or, where the
    code does not do what it means to, what it does instead.  Paths below are
    relative to src/src/core unless they start with robot/.

    ** Reading the models

    A class is a [Record] of its members; a method is a [Definition] from the
    old state (last argument) to the result and the new state.  Exceptions are
    [result], calls that may never return or end the process are [outcome] or
    [option].  Integers are [Z], wrapped explicitly to 32 or 64 bits ([u32],
    [u64], [i32]) where the code can overflow; clock readings are arguments.  A
    map is a [gmap], a vector a list, a file the list of its bytes.  Code outside
    the repository (TBB queues, the JSON library, [std::priority_queue], the
    fieldbus driver, the tasks and actions of an application) is a class, with a
    second class of laws where a proof needs them; every such class has an
    instance, used by the witnesses.  Where a public call holds a lock for its
    whole body it is one step; where threads can interleave inside a call the
    accesses are steps of a schedule (RingQueue, RTSeqlock, EventQueue, EventBus,
    ActionExecutor, TaskExecution, TaskScheduling, AsyncWriter, BagReplay,
    ProcessMonitor, NonRT, AtomicMetrics, Systemd, BuiltinActions).  A run is a fold over a
    list of operations, and invariants are proved for every list.

    ** The files

    - [Prelude] (this file): machine integers, rounded double products, results,
      list functions, little-endian bytes, tactics, hints and shared lemmas.
    - [Interfaces]: what components use of the data store and the event bus
      ([IDataStore], [IEventBus]).
    - [Control]: control/dto: priorities, control modes and their transition
      table, behaviour requests; [ITask].
    - [BehaviorQueue]: control/impl/BehaviorPriorityQueue; the five TBB queues
      implement one stable priority queue.
    - [TaskQueue]: control/impl/TaskQueue; five vectors and an id map implement
      one ordered list with unique ids.
    - [Alarm], [AlarmManager]: alarm/; alarm records and configuration, then
      raise, acknowledge, resolve, reset, recurrence tracking, escalation, the
      bounded history and the statistics.
    - [Arbiter]: control/impl/BehaviorArbiter: the whole tick, preemption, mode
      changes with their audit trail, pause, resume and cancel, against the
      interfaces of the queue, the tasks, the data store and the alarm manager;
      [AlarmManager] discharges the last one.
    - [SafetyCheck]: robot/pallet_shuttle/sequences/SafetyCheckSequence: the six
      checks in IEEE 754 arithmetic and the alarms they raise, composed with
      [AlarmManager] and [Arbiter].
    - [RTSchedule], [RTStateMachine], [RTExecutive]: rt/util/ScheduleCalculator,
      rt/RTStateMachine, rt/RTExecutive: minor and major cycles, the process
      states, action registration, the cyclic loop and heartbeat supervision.
    - [ScheduleTools]: tools/validate_schedule.cpp: what an accepted configuration
      of the executive has.
    - [RTDataStore], [RTSeqlock]: rt/RTDataStore: the byte-level store with its
      setters and getters, then its sequence lock, one memory access at a time.
    - [EventQueue]: event/core/PriorityQueue and PrioritizedEvent: admission by
      priority, expiry, coalescing.
    - [EventBus]: event/core/EventBus and SubscriptionManager, filters and
      statistics: publishers, subscribers and the dispatch thread interleaved.
    - [EventPolicies]: event/adapters/ThrottlingPolicy, CoalescingPolicy and
      event/priority/BackpressurePolicy.
    - [RingQueue]: event/util/LockFreeQueue and MPSCLockFreeQueue.
    - [HAStateMachine]: ha/HAStateMachine and ha/RecoveryPolicy.
    - [Failover]: ha/FailoverManager: restart budgets.
    - [Expiration]: datastore/managers/ExpirationManager: time to live and LRU.
    - [DataStore]: datastore/DataStore, MapNotifier and the log, metrics and
      access managers; save and load.
    - [StoreCallbacks]: observers of [DataStore] whose callbacks call the store.
    - [EventAdapter]: event/adapters/DataStoreEventAdapter between [DataStore] and
      the bus.
    - [ActionExecutor]: action/core/ActionExecutor: asynchronous actions,
      cancellation and timeouts.
    - [Condition]: action/util/ExecutionContext and
      sequence/core/ConditionEvaluator.
    - [Sequence]: sequence/core/SequenceEngine, RetryHandler and
      action/core/ActionFactory.
    - [Shutdown]: the destructors of these two and the waits between retries: when
      destruction returns, what it cancels, and when it cannot end.
    - [TaskExecution]: task/core/TaskExecutor and task/dto.
    - [TaskScheduling]: task/core/PeriodicScheduler, TriggerManager, TaskMonitor
      and TaskRegistry, a module each.
    - [Shuttle]: robot/pallet_shuttle/actions, sequences/PalletTransportSequence
      and tasks/PalletTransportTask.
    - [BagIndex]: logging/util/Indexer, dto/BagFooter.h and dto/IndexEntry.h: the
      bytes of the index and the footer, the search by time, the CRC.
    - [BagReader]: logging/dto/BagMessage.h and core/BagReader: messages as lines
      of JSON text, opening, reading, filtering and seeking.
    - [AsyncWriter]: logging/core/AsyncWriter: the queue and the writer thread.
    - [Retention]: rotation and retention policies, logging/util/RetentionManager
      and what it uses of util/FileUtils.
    - [BagWriter]: logging/core/SimpleBagWriter on top of the last four.
    - [BagReplay]: logging/core/BagReplayer on top of [BagReader].
    - [BagLogger]: logging/core/DataStoreBagLogger on top of [BagWriter].
    - [Ieee754]: floats and doubles as bit patterns: comparison, conversions,
      rounded arithmetic.
    - [Rounding]: that arithmetic on integers which doubles hold exactly.
    - [Pdo]: ethercat/dto, util/PDOHelper.h, impl/SensorDataManager and
      impl/MotorCommandManager: the process image, its readers and writers, the
      validation of motor commands.
    - [EtherCATMaster]: ethercat/core/EtherCATMaster and EtherCATDomain, with the
      IgH library as the class [Ecrt].
    - [EtherCATCycle]: ethercat/adapters/RTEtherCATCycle, which moves data between
      [RTDataStore], [Pdo] and the master and reports errors to [RTStateMachine].
    - [Text]: characters, hexadecimal numbers, splitting and trimming of strings.
    - [Config]: config/ConfigLoader on JSON documents.
    - [YamlConfig]: ethercat/util/YAMLConfigParser, with yaml-cpp as the class
      [Yaml].
    - [Fieldbus]: fieldbus/: the driver interface as a class with laws, MockDriver and
      EtherCATDriver as its instances, FieldbusFactory.
    - [Tracing]: tracing/: span contexts and their W3C headers, spans and tracers,
      RTCycleTracer and EventBusTracer.
    - [PerfMonitor]: rt/perf/PerfMonitor: latencies, percentiles, deadlines.
    - [ExecutivePerf]: [RTExecutive] with its [PerfMonitor]: exact periods once the
      monitor is configured, undefined behaviour when it is not.
    - [Affinity]: rt/perf/CPUAffinityManager and NUMABinding, with the operating
      system as the class [Kernel].
    - [Metrics]: monitoring/MetricsCollector: counters, gauges, histograms and
      their Prometheus text.
    - [RTMetrics]: rt/RTMetrics, a client of [Metrics].
    - [Calendar]: the library's calendar times and their ISO 8601 text.
    - [Checkpoint]: ha/StateCheckpoint on a map of files.
    - [ProcessMonitor]: ha/ProcessMonitor and ha/HealthCheck.h on top of [Failover].
    - [HealthServer]: ha/HealthCheckServer, a client of the [IHealthCheck] class.
    - [NonRT]: rt/ipc/SharedMemory and nonrt/NonRTExecutive: the shared memory of
      the two processes and the executive without deadlines.
    - [AtomicMetrics]: monitoring/metrics: counters that threads update without a
      lock.
    - [Accessors]: datastore/impl and datastore/core/VersionedData: typed
      registers on top of [DataStore].
    - [HotKeys]: datastore/hotkey: the list of hot keys and their cache.
    - [StructLog]: monitoring/StructuredLogger, with spdlog as the class [Spdlog].
    - [Systemd]: systemd/ here and beside core: notifications, the watchdog timer,
      service properties, the journal.
    - [MetricsHttp]: monitoring/MetricsServer, a client of [Metrics].
    - [Serializer]: logging/util/Serializer: values of the data store as JSON.
    - [BuiltinActions]: action/impl and the registries of actions and sequences.
    - [AlarmLoad]: the file of the alarm configuration ([Alarm] has the table).

    ** What the theorems show

    - Refinements and equivalences: [BehaviorQueue], [TaskQueue], [Expiration], the
      metrics collector, the accessors of the data store and the single-producer
      ring answer every sequence of calls (for the ring: every interleaving) as a
      simple list or table does; racing updates leave the exact minimum and maximum; the
      interleaved setter of [RTSeqlock] has the effect of the setter of
      [RTDataStore]; throttling accepts what a reference with full memory accepts;
      the table-driven CRC is the shift register's.
    - Safety: a critical alarm puts the arbiter in FAULT within one tick and
      leaves no task pending, and a pressed emergency stop raises one; modes only
      change along the transition table and each change is recorded; recovery from
      FAULT passes through STANDBY; heartbeat loss enters SAFE_MODE; a validated
      read of the sequence lock is never torn; the HA state machine stays inside
      its table; while the clock is not set back, no window counts more automatic
      restarts than its budget (those asked for directly are added), and the
      process monitor asks for one only after the failures in a row have reached
      the threshold; the bus loses and duplicates nothing under any clock, and
      delivers in publication order while the system clock is not set back; a
      stopped periodic task is silent; the gripper never
      picks twice nor places nothing; no drive target outside its limits is ever
      in the process image, a disabled drive gets the control word 0, too many
      EtherCAT errors end in SAFE_MODE, and in either build the master transmits
      only once activated; the process without deadlines touches the shared memory
      only while it is mapped, if no stop falls into the start of [run]; the
      watchdog timer never has two threads.
    - Functional correctness: preemption, idle ticks, schedule computation, the
      exact periods of the cyclic executive with a configured monitor, alarm recurrence and escalation,
      event admission and delivery order, isolation of failing subscribers, set,
      get and cleaning of the data store, results and events of actions, sequences
      (each of their counted steps is a task the executor ran) and tasks, the verdict of the safety check, seeking and replaying a bag,
      retention, the statistics of measured cycles, exported metrics, the limits of
      hot keys, log lines and what they carry, the loaded alarm table.
    - Round trips: recovery policies, the data store's saved state, the typed
      setters and getters, the text of conditions, the index of a bag, trace contexts
      sent in headers, checkpoints, serialized values, the properties systemctl
      prints, and a whole recording: what is appended under any interleaving is
      what is read back.
    - Progress: the bus, the periodic scheduler, the process monitor, the writer
      thread, the replay, the watchdog timer and the built-in actions end after a
      stated number of their own steps.
    - Deviations: theorems that show what the code does where it differs from
      its documentation or its evident intent (lost requests of the arbiter, the
      escalation event, lcm overflow, torn reads on the retry path of the
      sequence lock, the unwritten slot of the multi-producer queue, stale
      coalesced events, recoveries that cannot escalate, retries that cannot
      succeed, sequence tasks without steps, a lost wake-up of the bag writer,
      rotated and stopped bags that cannot be read, a hot-key cache that never
      hits, an executive that records into an unconfigured monitor, behaviours
      that cannot be cancelled and are preempted, events reordered and restart
      windows exceeded by a clock set back, direct restarts beyond the limit, an
      observer that deadlocks on its own key, a truncated checkpoint that evicts
      a good one, a stop that unmaps memory under a starting thread, a watchdog timer that concurrent calls bring down, and others).

    ** Bounds and fuel

    Counters wrap at their width; theorems that need no wrap-around say so with
    a bound on the number of calls (2^64; 2^32 for the restart counters of
    [Failover]; 2^53 for the cycles of [ExecutivePerf], whose means are doubles).  The Euclidean loop of [RTSchedule]
    has fuel 65, which [gcd_loop_total] shows to be enough for 32 bits.  The pop
    loop of [EventQueue] has the length of the queue as fuel and removes one
    event per round.  The registration loop of [RTExecutive] has the number of
    slots as fuel, enough for positive periods; for period 0 no fuel is.  The
    retry loop of [Sequence] has the number of allowed retries as fuel.  The
    motion loop of [Shuttle] has its eleven rounds.  The binary search of
    [BagIndex] has the length of the index and halves its range; the loops of
    [BagReader] have two more than the bytes of the file and consume at least one
    ([reader_fuel_enough]).  [drain] of [EventBus], [steps_left] of [AsyncWriter]
    and the turns of [BagReplay] are numbers of steps that the theorems show to be
    enough.

    ** What is not modelled

    The public calls of the arbiter are made one at a time: [BehaviorArbiter]
    lets other threads call it during a tick, and what such overlaps add is left
    out.  In [NonRT] a second [run] beside threads that were never joined is not
    followed further.  Callbacks that call the store are in [StoreCallbacks] only;
    elsewhere an observer acts on state outside the store.  Logging output, sockets and sleeping; weak memory effects (the interleavings
    are sequentially consistent).  The payload bits of a NaN that a conversion or
    product gives are those of the quiet NaN, which the language leaves open.
    The main functions, the set-up of the loggers and the signal handlers only
    put the parts together.  The pallet shuttle's state, accessors and controller
    are not part of the build and use types and functions that do not exist, so
    they have no behaviour to model; logging/backward.hpp is a vendored library;
    event/core/EventPriority.h is not included by any file;
    tools/schedule_generator.cpp prints what [RTSchedule] computes.  Of the file
    utilities what [Retention] does not call is left out. *)

From stdpp Require Export base tactics list gmap strings relations sorting.
From Stdlib Require Export ZArith Lia.

#[global] Open Scope Z_scope.

(** ** Notations *)

Declare Scope mxrc_scope.
Delimit Scope mxrc_scope with mxrc.

(** [m.[k]] is the C++ expression [m.find(k) != m.end()]. *)
Notation "m .[ k ]" := (bool_decide (is_Some (m !! k)))
  (at level 1, left associativity, format "m .[ k ]") : mxrc_scope.
#[global] Open Scope mxrc_scope.

(** ** Machine integers

    A [w]-bit unsigned integer is a [Z] in [0 .. 2^w - 1]; every arithmetic
    operation of the sources that can overflow is wrapped explicitly. *)

Definition wrap (w : Z) (x : Z) : Z := x mod 2 ^ w.
Definition u32 (x : Z) : Z := wrap 32 x.
Definition u64 (x : Z) : Z := wrap 64 x.
Definition i32 (x : Z) : Z := wrap 32 (x + 2 ^ 31) - 2 ^ 31.
Definition in_u32 (x : Z) : Prop := 0 <= x < 2 ^ 32.
Definition in_u64 (x : Z) : Prop := 0 <= x < 2 ^ 64.

(** ** IEEE-754 double products truncated to an integer

    [static_cast<size_t>(c * d)] for an integer [c < 2^53] (exactly
    representable) and a double [d = m / 2^53]: the exact product [c * m]
    (in units of [2^-53]) is rounded to 53 significant bits, to nearest with
    ties to even, and then truncated. *)

Definition round53 (x : Z) : Z :=
  let e := Z.log2 x - 52 in
  if e <=? 0 then x
  else
    let q := Z.shiftr x e in
    let r := x - Z.shiftl q e in
    let half := 2 ^ (e - 1) in
    let q' := if (half <? r) || ((r =? half) && Z.odd q) then q + 1 else q in
    Z.shiftl q' e.

Definition double_mul_floor (c m : Z) : Z := Z.shiftr (round53 (c * m)) 53.

(** The doubles nearest to 0.8 and 0.9, in units of [2^-53]. *)
Definition double_0_8 : Z := 7205759403792794.
Definition double_0_9 : Z := 8106479329266893.

(** ** Outcomes of code that may throw *)

Inductive result (E A : Type) : Type :=
| Ok (a : A)
| Throw (e : E).
Arguments Ok {E A} _.
Arguments Throw {E A} _.

(** ** Generic list functions the components share *)

(** [erase_first p l] removes the first element that satisfies [p]
    ([find_if] followed by [erase]); [None] when there is none. *)
Fixpoint erase_first {A} (p : A -> bool) (l : list A) : option (list A) :=
  match l with
  | [] => None
  | x :: l' => if p x then Some l' else (x ::.) <$> erase_first p l'
  end.

(** [count p l] is the number of elements that satisfy [p]. *)
Definition count {A} (p : A -> bool) (l : list A) : nat :=
  length (filter (λ x, p x = true) l).

(** [lastn n l] is the suffix of [l] of length at most [n]. *)
Definition lastn {A} (n : nat) (l : list A) : list A := drop (length l - n) l.

(** Divisibility on [Z] is decided by a remainder. *)
#[export] Instance Z_divide_decision (a b : Z) : Decision (a | b).
Proof.
  refine (cast_if (decide (b mod a = 0 /\ (a = 0 -> b = 0)))).
  - abstract (destruct (decide (a = 0)) as [->|Ha]; [exists 0; naive_solver|];
      apply Z.mod_divide; [done|naive_solver]).
  - abstract (intros H; match goal with H : ~ _ |- _ => apply H end; split;
      [destruct (decide (a = 0)) as [->|]; [by destruct H as [z ->]; rewrite Z.mul_0_r|by apply Z.mod_divide]
      |intros ->; by apply Z.divide_0_l]).
Defined.

(** ** Tactics and hints *)

Create HintDb mxrc.
Create Rewrite HintDb mxrc.

(** Case analysis on every [match]/[if] of the goal, closing trivial cases. *)
Ltac branch := repeat (case_match; simplify_eq/=); try done.

(** Unfold the record updates of a state and close by computation. *)
Ltac by_compute := vm_compute; reflexivity.

(** Booleans to propositions, for [Z], [nat] and [bool] connectives. *)
Ltac to_prop := repeat match goal with
  | H : (_ && _)%bool = true |- _ => apply andb_true_iff in H as [? ?]
  | H : (_ && _)%bool = false |- _ => apply andb_false_iff in H
  | H : (_ || _)%bool = true |- _ => apply orb_true_iff in H
  | H : (_ || _)%bool = false |- _ => apply orb_false_iff in H as [? ?]
  | H : negb _ = true |- _ => apply negb_true_iff in H
  | H : negb _ = false |- _ => apply negb_false_iff in H
  | H : (_ <? _) = true |- _ => apply Z.ltb_lt in H
  | H : (_ <? _) = false |- _ => apply Z.ltb_ge in H
  | H : (_ <=? _) = true |- _ => apply Z.leb_le in H
  | H : (_ <=? _) = false |- _ => apply Z.leb_gt in H
  | H : (_ =? _) = true |- _ => apply Z.eqb_eq in H
  | H : (_ =? _) = false |- _ => apply Z.eqb_neq in H
  | H : bool_decide _ = true |- _ => apply bool_decide_eq_true in H
  | H : bool_decide _ = false |- _ => apply bool_decide_eq_false in H
  end.

(** ** Lemmas on machine integers *)

Lemma wrap_small w x : 0 <= x < 2 ^ w -> wrap w x = x.
Proof. intros. apply Z.mod_small. lia. Qed.

Lemma wrap_bounds w x : 0 <= w -> 0 <= wrap w x < 2 ^ w.
Proof. intros. apply Z.mod_pos_bound. lia. Qed.

Lemma u32_small x : in_u32 x -> u32 x = x.
Proof. apply wrap_small. Qed.

Lemma u64_small x : in_u64 x -> u64 x = x.
Proof. apply wrap_small. Qed.

Lemma u32_bounds x : in_u32 (u32 x).
Proof. apply wrap_bounds. lia. Qed.

Lemma u64_bounds x : in_u64 (u64 x).
Proof. apply wrap_bounds. lia. Qed.

#[export] Hint Resolve u32_bounds u64_bounds : mxrc.

(** ** Lemmas on the rounded double product *)

Lemma round53_error x :
  0 < x -> 2 * Z.abs (round53 x - x) <= 2 ^ Z.max 0 (Z.log2 x - 52).
Proof.
  intros Hx. unfold round53. set (e := Z.log2 x - 52).
  destruct (Z.leb_spec e 0) as [He|He].
  { replace (x - x) with 0 by lia. simpl. pose proof (Z.pow_nonneg 2 (Z.max 0 e)). lia. }
  rewrite Z.max_r by lia.
  rewrite Z.shiftr_div_pow2, !Z.shiftl_mul_pow2 by lia.
  assert (Hp : 2 ^ e = 2 * 2 ^ (e - 1)).
  { rewrite <- Z.pow_succ_r by lia. f_equal. lia. }
  pose proof (Z.pow_pos_nonneg 2 (e - 1) ltac:(lia) ltac:(lia)) as Hpos.
  pose proof (Z.div_mod x (2 ^ e) ltac:(lia)) as Hdm.
  pose proof (Z.mod_pos_bound x (2 ^ e) ltac:(lia)) as Hmb.
  set (h := 2 ^ (e - 1)) in *. rewrite Hp in *. set (q := x / (2 * h)) in *.
  destruct ((h <? x - q * (2 * h)) || ((x - q * (2 * h) =? h) && Z.odd q)) eqn:Hr; lia.
Qed.

Lemma round53_lower x y :
  0 < x -> y <= x -> (2 ^ Z.max 0 (Z.log2 x - 52) | y) -> y <= round53 x.
Proof.
  intros Hx Hy [k Hk]. unfold round53. set (e := Z.log2 x - 52) in *.
  destruct (Z.leb_spec e 0) as [He|He]; [done|].
  rewrite Z.max_r in Hk by lia.
  rewrite Z.shiftr_div_pow2, !Z.shiftl_mul_pow2 by lia.
  pose proof (Z.pow_pos_nonneg 2 e ltac:(lia) ltac:(lia)) as Hpos.
  assert (k <= x / 2 ^ e) by (apply Z.div_le_lower_bound; lia).
  case_match; nia.
Qed.

Lemma double_mul_floor_spec c m num den :
  0 <= c < 2 ^ 48 -> 0 < m < 2 ^ 53 -> 0 < num -> 0 < den <= 10 ->
  0 <= m * den - num * 2 ^ 53 <= 2 ->
  double_mul_floor c m = c * num / den.
Proof.
  intros Hc Hm Hnum Hden Herr. unfold double_mul_floor.
  destruct (decide (c = 0)) as [->|Hc0]; [by rewrite Z.mul_0_l|].
  rewrite Z.shiftr_div_pow2 by lia.
  pose proof (round53_error (c * m) ltac:(nia)) as Hr.
  pose proof (Z.div_mod (c * num) den ltac:(lia)) as Hdm.
  pose proof (Z.mod_pos_bound (c * num) den ltac:(lia)) as Hmb.
  set (k := c * num / den) in *. set (r := (c * num) mod den) in *.
  assert (Hlog : Z.max 0 (Z.log2 (c * m) - 52) <= 48).
  { assert (Z.log2 (c * m) < 101); [|lia]. apply Z.log2_lt_pow2; [nia|].
    change (2 ^ 101) with (2 ^ 48 * 2 ^ 53). apply Z.mul_lt_mono_nonneg; lia. }
  pose proof (Z.pow_le_mono_r 2 _ _ ltac:(lia) Hlog) as Hpow.
  assert (Hlow : k * 2 ^ 53 <= round53 (c * m)).
  { apply round53_lower; [nia|nia|]. apply Z.divide_mul_r.
    exists (2 ^ (53 - Z.max 0 (Z.log2 (c * m) - 52))).
    rewrite <- Z.pow_add_r by lia. f_equal. lia. }
  assert (Hup : round53 (c * m) < (k + 1) * 2 ^ 53) by nia.
  symmetry. apply Z.div_unique with (round53 (c * m) - k * 2 ^ 53); lia.
Qed.

Lemma double_0_8_floor c : 0 <= c < 2 ^ 48 -> double_mul_floor c double_0_8 = c * 4 / 5.
Proof. intros. apply double_mul_floor_spec; unfold double_0_8; lia. Qed.

Lemma double_0_9_floor c : 0 <= c < 2 ^ 48 -> double_mul_floor c double_0_9 = c * 9 / 10.
Proof. intros. apply double_mul_floor_spec; unfold double_0_9; lia. Qed.

(** ** Stable selection of a least element

    [extract_min lt l] removes the first element of [l] that no element of [l]
    precedes in the strict order [lt]: the reference definition of the
    priority queues. *)

Fixpoint extract_min {A} (lt : A -> A -> bool) (l : list A) : option (A * list A) :=
  match l with
  | [] => None
  | x :: l' =>
    match extract_min lt l' with
    | None => Some (x, l')
    | Some (m, rest) => if lt m x then Some (m, x :: rest) else Some (x, l')
    end
  end.

Lemma extract_min_None {A} (lt : A -> A -> bool) l : extract_min lt l = None <-> l = [].
Proof. destruct l as [|x l]; simpl; [done|]. destruct (extract_min lt l) as [[m r]|]; [destruct (lt m x)|]; by split. Qed.

Section extract_min.
Context {A : Type} (lt : A -> A -> bool).
Context (lt_irrefl : forall x, lt x x = false).
Context (lt_trans : forall x y z, lt x y = true -> lt y z = true -> lt x z = true).
Context (lt_total : forall x y z, lt x y = true -> lt x z = true \/ lt z y = true).

(** The selected element splits the list; everything before it is strictly
    greater and nothing after it is smaller. *)
Lemma extract_min_split l m rest :
  extract_min lt l = Some (m, rest) ->
  exists l1 l2, l = l1 ++ m :: l2 /\ rest = l1 ++ l2 /\
    Forall (λ x, lt m x = true) l1 /\ Forall (λ x, lt x m = false) l2.
Proof.
  revert m rest. induction l as [|x l IH]; intros m rest; simpl; [done|].
  destruct (extract_min lt l) as [[m' rest']|] eqn:E.
  - destruct (IH m' rest' eq_refl) as (l1 & l2 & -> & -> & H1 & H2).
    destruct (lt m' x) eqn:Hlt; intros ?; simplify_eq.
    + exists (x :: l1), l2. by split_and!; try constructor.
    + exists [], (l1 ++ m' :: l2). split_and!; [done..|].
      assert (Hm : forall y, lt y m' = false -> lt y m = false).
      { intros y Hy. destruct (lt y m) eqn:Hym; [|done].
        destruct (lt_total y m m' Hym); congruence. }
      apply Forall_app; split.
      * eapply Forall_impl; [exact H1|]. intros y Hy. simpl in Hy.
        destruct (lt y m) eqn:Hym; [|done].
        by rewrite (lt_trans _ _ _ Hy Hym) in Hlt.
      * constructor; [by apply Hm|]. eapply Forall_impl; [exact H2|]. auto.
  - intros ?; simplify_eq. apply extract_min_None in E as ->.
    exists [], []. by split_and!; try constructor.
Qed.

Lemma extract_min_perm l m rest :
  extract_min lt l = Some (m, rest) -> l ≡ₚ m :: rest.
Proof.
  intros (l1 & l2 & -> & -> & _)%extract_min_split. by rewrite Permutation_middle.
Qed.

Lemma extract_min_least l m rest :
  extract_min lt l = Some (m, rest) -> Forall (λ x, lt x m = false) rest.
Proof.
  intros (l1 & l2 & -> & -> & H1 & H2)%extract_min_split.
  apply Forall_app; split; [|done]. eapply Forall_impl; [exact H1|]. intros x Hx. simpl in Hx.
  destruct (lt x m) eqn:Hxm; [|done]. by rewrite <- (lt_irrefl m), (lt_trans _ _ _ Hx Hxm).
Qed.
End extract_min.

(** ** Lemmas on [erase_first] *)

Lemma erase_first_None {A} (p : A -> bool) l :
  erase_first p l = None <-> Forall (λ x, p x = false) l.
Proof.
  induction l as [|x l IH]; simpl; [done|]. rewrite Forall_cons.
  destruct (p x); [by split; [|intros [? _]]|].
  destruct (erase_first p l); simpl; split; try done.
  - intros [_ H]. by apply IH in H.
  - intros _. split; [done|]. by apply IH.
Qed.

Lemma erase_first_app_l {A} (p : A -> bool) l1 l2 l1' :
  erase_first p l1 = Some l1' -> erase_first p (l1 ++ l2) = Some (l1' ++ l2).
Proof.
  revert l1'. induction l1 as [|x l1 IH]; simpl; [done|]; intros l1' H.
  destruct (p x); [by simplify_eq|]. destruct (erase_first p l1); [|done]. simplify_eq/=.
  by rewrite (IH _ eq_refl).
Qed.

Lemma erase_first_app_r {A} (p : A -> bool) l1 l2 :
  erase_first p l1 = None -> erase_first p (l1 ++ l2) = (l1 ++.) <$> erase_first p l2.
Proof.
  induction l1 as [|x l1 IH]; simpl; [by destruct (erase_first p l2)|]. intros H.
  destruct (p x); [done|]. destruct (erase_first p l1); [done|]. rewrite IH by done.
  by destruct (erase_first p l2).
Qed.

Lemma erase_first_map {A B} (f : A -> B) (p : B -> bool) l :
  erase_first p (map f l) = map f <$> erase_first (p ∘ f) l.
Proof.
  induction l as [|x l IH]; simpl; [done|]. unfold compose in *. destruct (p (f x)); [done|].
  rewrite IH. by destruct (erase_first _ l).
Qed.

Lemma erase_first_split {A} (p : A -> bool) l l' :
  erase_first p l = Some l' ->
  exists l1 x l2, l = l1 ++ x :: l2 /\ l' = l1 ++ l2 /\ p x = true /\ Forall (λ y, p y = false) l1.
Proof.
  revert l'. induction l as [|x l IH]; simpl; [done|]; intros l' H.
  destruct (p x) eqn:Hp; simplify_eq.
  - by exists [], x, l'.
  - destruct (erase_first p l) as [l''|]; simplify_eq/=.
    destruct (IH _ eq_refl) as (l1 & y & l2 & -> & -> & ? & ?).
    exists (x :: l1), y, l2. by split_and!; try constructor.
Qed.

(** ** Sizes of filtered maps *)

Section filter_size.
Context {K A : Type} `{!EqDecision K} `{!Countable K} (P : A -> bool).
Implicit Types m : gmap K A.

Definition live_size m : nat := size (filter (λ kv, P (snd kv) = true) m).

Lemma live_size_insert_le i x m :
  (live_size (<[i := x]> m) <= live_size m + (if P x then 1 else 0))%nat.
Proof.
  unfold live_size. destruct (P x) eqn:Hx.
  - rewrite map_filter_insert_True by done. rewrite map_size_insert. case_match; simpl; lia.
  - rewrite map_filter_insert_False by (simpl; congruence).
    rewrite map_filter_delete, map_size_delete. case_match; simpl; lia.
Qed.

Lemma live_size_update_same i x y m :
  m !! i = Some x -> P x = P y -> live_size (<[i := y]> m) = live_size m.
Proof.
  intros Hi Hxy. unfold live_size. destruct (P y) eqn:Hy.
  - rewrite map_filter_insert_True by done. rewrite map_size_insert_Some; [done|].
    exists x. by apply map_lookup_filter_Some.
  - rewrite map_filter_insert_False, map_filter_delete by (simpl; congruence).
    rewrite delete_id; [done|]. apply map_lookup_filter_None. right.
    intros z Hz. simplify_eq/=. congruence.
Qed.

Lemma live_size_kill i x y m :
  m !! i = Some x -> P x = true -> P y = false -> S (live_size (<[i := y]> m)) = live_size m.
Proof.
  intros Hi Hx Hy. unfold live_size. rewrite map_filter_insert_False by (simpl; congruence).
  rewrite map_filter_delete, map_size_delete_Some.
  - assert (size (filter (λ kv, P (snd kv) = true) m) <> 0%nat); [|lia].
    apply map_size_ne_0_lookup. exists i. exists x. by apply map_lookup_filter_Some.
  - exists x. by apply map_lookup_filter_Some.
Qed.

Lemma live_size_pos i x m : m !! i = Some x -> P x = true -> (0 < live_size m)%nat.
Proof.
  intros Hi Hx. unfold live_size.
  assert (size (filter (λ kv, P (snd kv) = true) m) <> 0%nat); [|lia].
  apply map_size_ne_0_lookup. exists i. exists x. by apply map_lookup_filter_Some.
Qed.

Lemma live_size_none m : (forall i x, m !! i = Some x -> P x = false) -> live_size m = 0%nat.
Proof.
  intros H. unfold live_size. apply map_size_empty_iff, map_eq. intros i.
  rewrite lookup_empty. apply map_lookup_filter_None. right. intros x Hi. simpl.
  by rewrite (H i x Hi).
Qed.
End filter_size.

(** ** Bounded logs: dropping the oldest entry keeps the last [n] entries *)

Lemma lastn_length {A} n (l : list A) : length (lastn n l) = Nat.min n (length l).
Proof. unfold lastn. rewrite length_drop. lia. Qed.

Lemma lastn_lastn {A} n m (l : list A) : lastn n (lastn m l) = lastn (Nat.min n m) l.
Proof.
  unfold lastn. rewrite drop_drop, length_drop. f_equal. lia.
Qed.

Lemma lastn_snoc {A} n (l : list A) x :
  (0 < n)%nat ->
  lastn n (l ++ [x]) =
    let h := lastn n l ++ [x] in if (n <? length h)%nat then tail h else h.
Proof.
  intros Hn. simpl. rewrite length_app, lastn_length. simpl.
  unfold lastn. rewrite length_app. simpl.
  destruct (Nat.ltb_spec n (Nat.min n (length l) + 1)) as [H|H].
  - replace (length l + 1 - n)%nat with (S (length l - n)) by lia.
    rewrite drop_app_le by lia.
    assert (length (drop (length l - n) l) = n) as Hlen by (rewrite length_drop; lia).
    rewrite <- (drop_drop l 1 (length l - n)) || replace (S (length l - n)) with (length l - n + 1)%nat by lia.
    all: try rewrite <- drop_drop.
    destruct (drop (length l - n) l); simpl in *; [lia|done].
  - replace (length l + 1 - n)%nat with 0%nat by lia.
    by replace (length l - n)%nat with 0%nat by lia.
Qed.

Lemma u32_succ x : u32 (u32 x + 1) = u32 (x + 1).
Proof. unfold u32, wrap. by rewrite Zplus_mod_idemp_l. Qed.

(** ** Positions in a list that has grown at its end *)

Lemma snoc_split {A} (l l1 l2 : list A) x y :
  l ++ [x] = l1 ++ y :: l2 ->
  (l2 = [] /\ l1 = l /\ y = x) \/ (exists l2', l2 = l2' ++ [x] /\ l = l1 ++ y :: l2').
Proof.
  destruct l2 as [|z l2 _] using rev_ind; intros H.
  - left. by apply app_inj_tail in H as [-> ->].
  - right. rewrite app_comm_cons, app_assoc in H. apply app_inj_tail in H as [-> ->]. eauto.
Qed.

(** ** The order in which a [std::map] with string keys is traversed *)

Definition key_le {A} (a b : string * A) : Prop := String.leb (fst a) (fst b) = true.

#[export] Instance key_le_dec {A} (a b : string * A) : Decision (key_le a b).
Proof. unfold key_le. apply _. Defined.

Definition key_order {A} (m : gmap string A) : list (string * A) := merge_sort key_le (map_to_list m).

Lemma key_order_perm {A} (m : gmap string A) : key_order m ≡ₚ map_to_list m.
Proof. apply merge_sort_Permutation. Qed.

Lemma elem_of_key_order {A} (m : gmap string A) k x : (k, x) ∈ key_order m <-> m !! k = Some x.
Proof. rewrite key_order_perm. apply elem_of_map_to_list. Qed.

(** What every step of a fold keeps, the fold keeps. *)
Lemma foldl_invariant {A B} (P : A -> Prop) (f : A -> B -> A) (l : list B) (a : A) :
  P a -> (forall a b, P a -> P (f a b)) -> P (foldl f a l).
Proof. intros Ha Hf. revert a Ha. induction l as [|b l IH]; intros a Ha; [done|]. by apply IH, Hf. Qed.

(** Filtering by a boolean. *)
Lemma filter_bool_cons {A} (f : A -> bool) (a : A) (l : list A) :
  filter (λ x, f x = true) (a :: l) = if f a then a :: filter (λ x, f x = true) l else filter (λ x, f x = true) l.
Proof. rewrite filter_cons. by destruct (f a). Qed.

Lemma filter_bool_ext {A} (f g : A -> bool) (l : list A) :
  (forall x, x ∈ l -> f x = g x) -> filter (λ x, f x = true) l = filter (λ x, g x = true) l.
Proof.
  induction l as [|a l IH]; intros H; [done|]. rewrite !filter_bool_cons, (H a), IH by set_solver. done.
Qed.

(** ** Little-endian bytes *)

Fixpoint le_bytes (n : nat) (v : Z) : list Z :=
  match n with
  | O => []
  | S n => v mod 256 :: le_bytes n (v / 256)
  end.

Fixpoint le_val (bs : list Z) : Z :=
  match bs with
  | [] => 0
  | b :: bs => b + 256 * le_val bs
  end.

Lemma le_bytes_length n v : length (le_bytes n v) = n.
Proof. revert v. induction n; intros; simpl; auto. Qed.

Lemma le_val_bytes n v : le_val (le_bytes n v) = v mod 2 ^ (8 * Z.of_nat n).
Proof.
  revert v. induction n as [|n IH]; intros v; simpl.
  { by rewrite Z.mod_1_r. }
  rewrite IH. replace (8 * Z.of_nat (S n)) with (8 + 8 * Z.of_nat n) by lia.
  rewrite Z.pow_add_r by lia. change (2 ^ 8) with 256.
  rewrite Z.rem_mul_r by (lia || (apply Z.pow_pos_nonneg; lia)). lia.
Qed.

(** ** Counting and summing lists *)

Lemma count_app {A} (f : A -> bool) l k : count f (l ++ k) = (count f l + count f k)%nat.
Proof. unfold count. by rewrite filter_app, length_app. Qed.

Lemma count_one {A} (f : A -> bool) x : count f [x] = if f x then 1%nat else 0%nat.
Proof. unfold count. cbn. by destruct (f x). Qed.

Lemma count_cons {A} (f : A -> bool) x l : count f (x :: l) = ((if f x then 1 else 0) + count f l)%nat.
Proof. change (x :: l) with ([x] ++ l). by rewrite count_app, count_one. Qed.

Lemma count_le {A} (f : A -> bool) l : (count f l <= length l)%nat.
Proof. apply length_filter. Qed.

Definition zsum (l : list Z) : Z := foldr Z.add 0 l.

Lemma zsum_app l k : zsum (l ++ k) = zsum l + zsum k.
Proof. unfold zsum. induction l as [|x l IH]; cbn in *; lia. Qed.

Lemma zsum_nonneg l : Forall (λ x, 0 <= x) l -> 0 <= zsum l.
Proof. unfold zsum. induction 1; cbn in *; lia. Qed.

Lemma zsum_insert (l : list Z) i x y : l !! i = Some x -> zsum (<[i := y]> l) = zsum l - x + y.
Proof.
  unfold zsum. revert i. induction l as [|z l IH]; intros [|i] Hi; [done..| |].
  - injection Hi as ->. cbn. lia.
  - specialize (IH i Hi). change (<[S i := y]> (z :: l)) with (z :: <[i := y]> l). cbn [foldr]. lia.
Qed.

Lemma zsum_lookup_le (l : list Z) i x : Forall (λ x, 0 <= x) l -> l !! i = Some x -> x <= zsum l.
Proof.
  intros Hl Hi. pose proof (zsum_insert l i x 0 Hi).
  assert (0 <= zsum (<[i := 0]> l)); [|lia]. apply zsum_nonneg. by apply Forall_insert.
Qed.
