(* ===== verification/Control.v ===== *)
(** * Data of the control layer

    The enumerations and records of [src/core/control/dto] (Priority,
    ControlMode, BehaviorRequest), the task interface of
    [src/core/task/interfaces/ITask.h] as a class, and the facts about mode
    transitions that do not depend on the arbiter. *)

From S2P Require Import Prelude.

(** ** Priority (dto/Priority.h)

    A C++ [enum class : uint8_t] can hold any byte, so the values 5..255 that
    the [default:] branches handle are the constructor [PriorityRaw]. *)

Inductive Priority :=
| EMERGENCY_STOP
| SAFETY_ISSUE
| URGENT_TASK
| NORMAL_TASK
| MAINTENANCE
| PriorityRaw (v : Z).

#[export] Instance Priority_eq_dec : EqDecision Priority.
Proof. solve_decision. Defined.

(** The underlying value, which the C++ comparison operators use. *)
Definition prio_val (p : Priority) : Z :=
  match p with
  | EMERGENCY_STOP => 0
  | SAFETY_ISSUE => 1
  | URGENT_TASK => 2
  | NORMAL_TASK => 3
  | MAINTENANCE => 4
  | PriorityRaw v => v
  end.

Definition prio_known (p : Priority) : bool :=
  match p with PriorityRaw _ => false | _ => true end.

Definition Priority_toString (p : Priority) : string :=
  match p with
  | EMERGENCY_STOP => "EMERGENCY_STOP"
  | SAFETY_ISSUE => "SAFETY_ISSUE"
  | URGENT_TASK => "URGENT_TASK"
  | NORMAL_TASK => "NORMAL_TASK"
  | MAINTENANCE => "MAINTENANCE"
  | PriorityRaw _ => "UNKNOWN"
  end.

Definition canPreempt (p : Priority) : bool := prio_val p <=? prio_val URGENT_TASK.

(** ** ControlMode (dto/ControlMode.h) *)

Inductive ControlMode :=
| BOOT
| INIT
| STANDBY
| MANUAL
| READY
| AUTO
| FAULT
| MAINT
| CHARGING
| ControlModeRaw (v : Z).

#[export] Instance ControlMode_eq_dec : EqDecision ControlMode.
Proof. solve_decision. Defined.

Definition mode_val (m : ControlMode) : Z :=
  match m with
  | BOOT => 0 | INIT => 1 | STANDBY => 2 | MANUAL => 3 | READY => 4
  | AUTO => 5 | FAULT => 6 | MAINT => 7 | CHARGING => 8
  | ControlModeRaw v => v
  end.

Definition ControlMode_toString (m : ControlMode) : string :=
  match m with
  | BOOT => "BOOT" | INIT => "INIT" | STANDBY => "STANDBY" | MANUAL => "MANUAL"
  | READY => "READY" | AUTO => "AUTO" | FAULT => "FAULT" | MAINT => "MAINT"
  | CHARGING => "CHARGING"
  | ControlModeRaw _ => "UNKNOWN"
  end.

Definition isValidTransition (from to : ControlMode) : bool :=
  if bool_decide (to = FAULT) then true
  else match from with
  | BOOT => bool_decide (to = INIT)
  | INIT => bool_decide (to = STANDBY)
  | STANDBY => bool_decide (to = MANUAL) || bool_decide (to = READY)
               || bool_decide (to = AUTO) || bool_decide (to = MAINT)
  | MANUAL => bool_decide (to = STANDBY)
  | READY => bool_decide (to = AUTO) || bool_decide (to = STANDBY)
  | AUTO => bool_decide (to = READY) || bool_decide (to = STANDBY)
            || bool_decide (to = CHARGING)
  | FAULT => bool_decide (to = STANDBY)
  | MAINT => bool_decide (to = STANDBY)
  | CHARGING => bool_decide (to = STANDBY) || bool_decide (to = AUTO)
  | ControlModeRaw _ => false
  end.

(** One permitted mode change, as a relation, for sequences of changes. *)
Definition mode_step (from to : ControlMode) : Prop := isValidTransition from to = true.

(** ** Tasks (task/interfaces/ITask.h)

    A task is a shared object: [T] is the type of [shared_ptr<ITask>] values
    and [W] the state of all task objects.  [getId] is a [const] accessor of
    an immutable identifier.  The arbiter and the task queue are proved
    against this interface. *)

Inductive TaskStatus :=
| TS_IDLE | TS_RUNNING | TS_COMPLETED | TS_FAILED | TS_CANCELLED | TS_PAUSED | TS_SCHEDULED.

#[export] Instance TaskStatus_eq_dec : EqDecision TaskStatus.
Proof. solve_decision. Defined.

Class TaskId (T : Type) := getId : T -> string.

Class ITask (T W : Type) := {
  task_id :: TaskId T;
  task_start : T -> W -> W;
  task_stop : T -> W -> W;
  task_pause : T -> W -> W;
  task_resume : T -> W -> W;
  getStatus : T -> W -> TaskStatus
}.

(** ** BehaviorRequest (dto/BehaviorRequest.h); times in nanoseconds. *)

Record BehaviorRequest (T : Type) := mkBehaviorRequest {
  behavior_id : string;
  priority : Priority;
  task : T;
  timestamp : Z;
  requester_id : string;
  cancellable : bool;
  timeout : Z
}.
Arguments mkBehaviorRequest {T}.
Arguments behavior_id {T} _.
Arguments priority {T} _.
Arguments task {T} _.
Arguments timestamp {T} _.
Arguments requester_id {T} _.
Arguments cancellable {T} _.
Arguments timeout {T} _.

(** The convenience constructor: [cancellable] and [timeout] keep their defaults. *)
Definition newBehaviorRequest {T} (now : Z) (id : string) (prio : Priority) (t : T)
    (req : string) : BehaviorRequest T :=
  mkBehaviorRequest id prio t now req true 0.

(** [duration_cast<milliseconds>] truncates toward zero. *)
Definition getElapsedMs {T} (now : Z) (r : BehaviorRequest T) : Z :=
  Z.quot (now - timestamp r) 1000000.

Definition isTimedOut {T} (now : Z) (r : BehaviorRequest T) : bool :=
  if timeout r =? 0 then false else timeout r <=? getElapsedMs now r.

(** ** Facts about modes *)

Lemma mode_step_fault m : mode_step m FAULT.
Proof. done. Qed.

Lemma mode_step_from_fault m : mode_step FAULT m -> m = FAULT \/ m = STANDBY.
Proof. unfold mode_step, isValidTransition. repeat case_bool_decide; naive_solver. Qed.

#[export] Hint Resolve mode_step_fault : mxrc.

(** The modes in which the robot is operated: reaching one of them from
    [FAULT] needs a transition out of [STANDBY]. *)
Definition operating (m : ControlMode) : bool :=
  match m with MANUAL | READY | AUTO | MAINT | CHARGING => true | _ => false end.

(** Recovery from a fault always passes through STANDBY: every sequence of
    permitted mode changes from FAULT to an operating mode visits STANDBY
    strictly before it ends. *)
Theorem fault_recovery_visits_standby n m :
  nsteps mode_step n FAULT m -> operating m = true ->
  exists k1 k2, n = (k1 + S k2)%nat /\ nsteps mode_step k1 FAULT STANDBY /\
    nsteps mode_step (S k2) STANDBY m.
Proof.
  revert m. induction n as [|n IH]; intros m Hn Hop; inversion Hn as [|? ? y ? Hs Hr]; subst;
    [done|].
  apply mode_step_from_fault in Hs as [-> | ->].
  - destruct (IH m Hr Hop) as (k1 & k2 & -> & H1 & H2).
    exists (S k1), k2. split_and!; [lia| |done]. econstructor; [apply mode_step_fault|done].
  - destruct n as [|n]; [inversion Hr; subst; done|].
    exists 1%nat, n. split_and!; [lia| |done]. by apply nsteps_once.
Qed.

Lemma fault_recovery_visits_standby_witness :
  exists k1 k2, 2%nat = (k1 + S k2)%nat /\ nsteps mode_step k1 FAULT STANDBY /\
    nsteps mode_step (S k2) STANDBY AUTO.
Proof.
  apply (fault_recovery_visits_standby 2 AUTO); [|reflexivity].
  apply (nsteps_l mode_step 1 FAULT STANDBY AUTO); [reflexivity|].
  apply nsteps_once. reflexivity.
Defined.
