(* ===== verification/BehaviorQueue.v ===== *)
(** * BehaviorPriorityQueue (src/core/control/impl/BehaviorPriorityQueue.{h,cpp})

    Five [tbb::concurrent_queue]s, one per priority.  TBB is not part of the
    sources: its queue is the class [ConcurrentQueue] with the documented FIFO
    laws [ConcurrentQueueLaws], and the component is proved against that
    interface to implement a stable priority queue. *)

From S2P Require Import Prelude Control.

(** ** The interface of tbb::concurrent_queue *)

Class ConcurrentQueue (Q A : Type) := {
  cq_new : Q;
  cq_push : A -> Q -> Q;
  cq_try_pop : Q -> option (A * Q);
  cq_empty : Q -> bool;
  cq_unsafe_size : Q -> Z;
  cq_clear : Q -> Q;
  cq_view : Q -> list A
}.

(** Documented behaviour, in terms of the abstract contents [cq_view]: pushes
    append, [try_pop] takes the oldest element and fails only when empty. *)
Class ConcurrentQueueLaws (Q A : Type) `{!ConcurrentQueue Q A} : Prop := {
  view_new : cq_view (Q := Q) cq_new = [];
  view_push a (q : Q) : cq_view (cq_push a q) = cq_view q ++ [a];
  view_try_pop (q : Q) :
    match cq_try_pop q with
    | None => cq_view q = []
    | Some (a, q') => cq_view q = a :: cq_view q'
    end;
  view_empty (q : Q) : cq_empty q = bool_decide (cq_view q = []);
  view_size (q : Q) : cq_unsafe_size q = Z.of_nat (length (cq_view q));
  view_clear (q : Q) : cq_view (cq_clear q) = []
}.

(** ** The component *)

Record BehaviorPriorityQueue (Q : Type) := mkBPQ {
  emergency_stop_ : Q;
  safety_issue_ : Q;
  urgent_task_ : Q;
  normal_task_ : Q;
  maintenance_ : Q
}.
Arguments mkBPQ {Q}.
Arguments emergency_stop_ {Q} _.
Arguments safety_issue_ {Q} _.
Arguments urgent_task_ {Q} _.
Arguments normal_task_ {Q} _.
Arguments maintenance_ {Q} _.

Section BehaviorPriorityQueue.
Context {T Q : Type} `{!ConcurrentQueue Q (BehaviorRequest T)}.
Implicit Types (q : BehaviorPriorityQueue Q) (r : BehaviorRequest T).

Definition bpq_new : BehaviorPriorityQueue Q := mkBPQ cq_new cq_new cq_new cq_new cq_new.

Definition bpq_push r q : bool * BehaviorPriorityQueue Q :=
  let '(mkBPQ e s u n m) := q in
  match priority r with
  | EMERGENCY_STOP => (true, mkBPQ (cq_push r e) s u n m)
  | SAFETY_ISSUE => (true, mkBPQ e (cq_push r s) u n m)
  | URGENT_TASK => (true, mkBPQ e s (cq_push r u) n m)
  | NORMAL_TASK => (true, mkBPQ e s u (cq_push r n) m)
  | MAINTENANCE => (true, mkBPQ e s u n (cq_push r m))
  | PriorityRaw _ => (false, q)
  end.

Definition tryPop (q : Q) : option (BehaviorRequest T * Q) := cq_try_pop q.

Definition bpq_pop q : option (BehaviorRequest T) * BehaviorPriorityQueue Q :=
  let '(mkBPQ e s u n m) := q in
  match tryPop e with Some (r, e') => (Some r, mkBPQ e' s u n m) | None =>
  match tryPop s with Some (r, s') => (Some r, mkBPQ e s' u n m) | None =>
  match tryPop u with Some (r, u') => (Some r, mkBPQ e s u' n m) | None =>
  match tryPop n with Some (r, n') => (Some r, mkBPQ e s u n' m) | None =>
  match tryPop m with Some (r, m') => (Some r, mkBPQ e s u n m') | None =>
  (None, q) end end end end end.

Definition bpq_isEmpty q : bool :=
  cq_empty (emergency_stop_ q) && cq_empty (safety_issue_ q) && cq_empty (urgent_task_ q)
  && cq_empty (normal_task_ q) && cq_empty (maintenance_ q).

Definition bpq_size q : Z :=
  u64 (cq_unsafe_size (emergency_stop_ q) + cq_unsafe_size (safety_issue_ q)
       + cq_unsafe_size (urgent_task_ q) + cq_unsafe_size (normal_task_ q)
       + cq_unsafe_size (maintenance_ q)).

Definition bpq_clear q : BehaviorPriorityQueue Q :=
  mkBPQ (cq_clear (emergency_stop_ q)) (cq_clear (safety_issue_ q))
        (cq_clear (urgent_task_ q)) (cq_clear (normal_task_ q)) (cq_clear (maintenance_ q)).

Definition bpq_sizeOf (p : Priority) q : Z :=
  match p with
  | EMERGENCY_STOP => cq_unsafe_size (emergency_stop_ q)
  | SAFETY_ISSUE => cq_unsafe_size (safety_issue_ q)
  | URGENT_TASK => cq_unsafe_size (urgent_task_ q)
  | NORMAL_TASK => cq_unsafe_size (normal_task_ q)
  | MAINTENANCE => cq_unsafe_size (maintenance_ q)
  | PriorityRaw _ => 0
  end.

(** ** Operations as a command language, and the reference machine *)

Inductive BPQOp :=
| OpPush (r : BehaviorRequest T)
| OpPop
| OpIsEmpty
| OpSize
| OpSizeOf (p : Priority)
| OpClear.

Inductive BPQOut :=
| OutBool (b : bool)
| OutRequest (r : option (BehaviorRequest T))
| OutNum (n : Z)
| OutUnit.

Definition bpq_exec (o : BPQOp) q : BPQOut * BehaviorPriorityQueue Q :=
  match o with
  | OpPush r => let '(b, q') := bpq_push r q in (OutBool b, q')
  | OpPop => let '(x, q') := bpq_pop q in (OutRequest x, q')
  | OpIsEmpty => (OutBool (bpq_isEmpty q), q)
  | OpSize => (OutNum (bpq_size q), q)
  | OpSizeOf p => (OutNum (bpq_sizeOf p q), q)
  | OpClear => (OutUnit, bpq_clear q)
  end.

Fixpoint bpq_run (os : list BPQOp) q : list BPQOut * BehaviorPriorityQueue Q :=
  match os with
  | [] => ([], q)
  | o :: os => let '(x, q) := bpq_exec o q in let '(xs, q) := bpq_run os q in (x :: xs, q)
  end.

(** The reference: all pending requests in arrival order; a pop removes the
    first request of the least priority value. *)
Definition request_lt (r1 r2 : BehaviorRequest T) : bool :=
  prio_val (priority r1) <? prio_val (priority r2).

Definition ref_exec (o : BPQOp) (l : list (BehaviorRequest T)) : BPQOut * list (BehaviorRequest T) :=
  match o with
  | OpPush r => if prio_known (priority r) then (OutBool true, l ++ [r]) else (OutBool false, l)
  | OpPop => match extract_min request_lt l with
             | None => (OutRequest None, l)
             | Some (r, l') => (OutRequest (Some r), l')
             end
  | OpIsEmpty => (OutBool (bool_decide (l = [])), l)
  | OpSize => (OutNum (u64 (Z.of_nat (length l))), l)
  | OpSizeOf p => (OutNum (Z.of_nat (length (filter (λ r, priority r = p) l))), l)
  | OpClear => (OutUnit, [])
  end.

Fixpoint ref_run (os : list BPQOp) (l : list (BehaviorRequest T)) :
    list BPQOut * list (BehaviorRequest T) :=
  match os with
  | [] => ([], l)
  | o :: os => let '(x, l) := ref_exec o l in let '(xs, l) := ref_run os l in (x :: xs, l)
  end.

(** ** The simulation *)

Context `{!ConcurrentQueueLaws Q (BehaviorRequest T)}.

Definition of_prio (p : Priority) (l : list (BehaviorRequest T)) : list (BehaviorRequest T) :=
  filter (λ r, priority r = p) l.

(** Each queue holds the pending requests of its priority, in arrival order. *)
Record bpq_rel (q : BehaviorPriorityQueue Q) (l : list (BehaviorRequest T)) : Prop := {
  rel_e : cq_view (emergency_stop_ q) = of_prio EMERGENCY_STOP l;
  rel_s : cq_view (safety_issue_ q) = of_prio SAFETY_ISSUE l;
  rel_u : cq_view (urgent_task_ q) = of_prio URGENT_TASK l;
  rel_n : cq_view (normal_task_ q) = of_prio NORMAL_TASK l;
  rel_m : cq_view (maintenance_ q) = of_prio MAINTENANCE l;
  rel_known : Forall (λ r, prio_known (priority r) = true) l
}.

Lemma of_prio_app p l1 l2 : of_prio p (l1 ++ l2) = of_prio p l1 ++ of_prio p l2.
Proof. apply filter_app. Qed.

Lemma of_prio_one p r : of_prio p [r] = if decide (priority r = p) then [r] else [].
Proof. unfold of_prio. by rewrite filter_cons, filter_nil. Qed.

Lemma of_prio_nil_lt p l : Forall (λ r, priority r <> p) l -> of_prio p l = [].
Proof.
  induction 1 as [|r l Hr _ IH]; [done|]. unfold of_prio in *. by rewrite filter_cons_False.
Qed.

Lemma tryPop_nil (q : Q) : cq_view q = [] -> tryPop q = None.
Proof. intros H. pose proof (view_try_pop q) as Hv. unfold tryPop. repeat case_match; congruence. Qed.

Lemma tryPop_cons (q : Q) r l :
  cq_view q = r :: l -> exists q' : Q, tryPop q = Some (r, q') /\ cq_view q' = l.
Proof.
  intros H. pose proof (view_try_pop q) as Hv. unfold tryPop. repeat case_match; [|congruence].
  simplify_eq. rewrite H in Hv. simplify_eq. eauto.
Qed.

Lemma request_lt_split l r l' :
  extract_min request_lt l = Some (r, l') ->
  exists l1 l2, l = l1 ++ r :: l2 /\ l' = l1 ++ l2 /\
    Forall (λ x, request_lt r x = true) l1 /\ Forall (λ x, request_lt x r = false) l2.
Proof.
  apply extract_min_split; unfold request_lt; intros; to_prop; rewrite ?Z.ltb_lt; try lia.
Qed.

(** What the reference pop does to each priority class. *)
Lemma ref_pop_classes l r l' :
  extract_min request_lt l = Some (r, l') ->
  of_prio (priority r) l = r :: of_prio (priority r) l' /\
  (forall p, p <> priority r -> of_prio p l = of_prio p l') /\
  (forall p, prio_val p < prio_val (priority r) -> of_prio p l = []).
Proof.
  intros (l1 & l2 & -> & -> & H1 & H2)%request_lt_split.
  assert (Hnil : forall p, prio_val p <= prio_val (priority r) -> of_prio p l1 = []).
  { intros p Hp. apply of_prio_nil_lt. eapply Forall_impl; [exact H1|].
    unfold request_lt. intros x Hx <-. simpl in Hx. to_prop. lia. }
  split_and!.
  - rewrite cons_middle, !of_prio_app, of_prio_one, decide_True, Hnil by (done || lia). done.
  - intros p Hp. by rewrite cons_middle, !of_prio_app, of_prio_one, decide_False by done.
  - intros p Hp.
    rewrite cons_middle, !of_prio_app, of_prio_one, decide_False, Hnil by (congruence || lia || (intros <-; lia)).
    apply of_prio_nil_lt. eapply Forall_impl; [exact H2|].
    unfold request_lt. intros x Hx <-. simpl in Hx. to_prop. lia.
Qed.

Lemma bpq_rel_new : bpq_rel bpq_new [].
Proof. constructor; simpl; rewrite ?view_new; done. Qed.

Lemma bpq_rel_push r q l :
  bpq_rel q l ->
  fst (bpq_push r q) = prio_known (priority r) /\
  bpq_rel (snd (bpq_push r q)) (if prio_known (priority r) then l ++ [r] else l).
Proof.
  intros [He Hs Hu Hn Hm Hk]. destruct q as [e s u n m]; simpl in *.
  destruct (priority r) eqn:Hp; simpl; (split; [done|]);
    constructor; simpl; rewrite ?view_push, ?of_prio_app, ?of_prio_one, ?Hp; simpl;
    rewrite ?app_nil_r; try congruence; try done;
    (apply Forall_app; split; [done|]); repeat constructor; by rewrite Hp.
Qed.

Lemma bpq_rel_pop_None q l :
  bpq_rel q l -> l = [] -> bpq_pop q = (None, q).
Proof.
  intros [He Hs Hu Hn Hm Hk] ->. destruct q as [e s u n m]; simpl in *.
  by rewrite !tryPop_nil by done.
Qed.

Lemma bpq_rel_pop_Some q l r l' :
  bpq_rel q l -> extract_min request_lt l = Some (r, l') ->
  exists q', bpq_pop q = (Some r, q') /\ bpq_rel q' l'.
Proof.
  intros [He Hs Hu Hn Hm Hk] Hex. destruct (ref_pop_classes l r l' Hex) as (Heq & Hne & Hlt).
  assert (Hl' : Forall (λ r, prio_known (priority r) = true) l').
  { apply request_lt_split in Hex as (l1 & l2 & -> & -> & _).
    apply Forall_app in Hk as [? Hk]. inversion Hk; subst. by apply Forall_app. }
  assert (Hr : prio_known (priority r) = true).
  { apply request_lt_split in Hex as (l1 & l2 & -> & -> & _).
    apply Forall_app in Hk as [? Hk]. by inversion Hk; subst. }
  destruct q as [e s u n m]; simpl in *.
  destruct (priority r) eqn:Hp; try done; clear Hr;
  repeat match goal with
  | H : cq_view _ = of_prio ?p l |- _ =>
      first [ rewrite (Hlt p) in H by (simpl; lia)
            | rewrite Heq in H; apply tryPop_cons in H as (qq & Hpop & Hview)
            | rewrite (Hne p) in H by congruence ]
  end;
  rewrite ?(tryPop_nil e), ?(tryPop_nil s), ?(tryPop_nil u), ?(tryPop_nil n) by done;
  rewrite Hpop; eexists; (split; [reflexivity|]); constructor; simpl; try done.
  all: try (rewrite <- Hne; [|congruence]; rewrite Hlt by (simpl; lia); done).
Qed.

Lemma known_classes_length l :
  Forall (λ r, prio_known (priority r) = true) l ->
  length l = (length (of_prio EMERGENCY_STOP l) + length (of_prio SAFETY_ISSUE l)
    + length (of_prio URGENT_TASK l) + length (of_prio NORMAL_TASK l)
    + length (of_prio MAINTENANCE l))%nat.
Proof.
  unfold of_prio. induction 1 as [|r l Hr _ IH]; [done|].
  rewrite !filter_cons. destruct (priority r) eqn:Hp; try done; simpl; lia.
Qed.

Lemma of_prio_raw v l : Forall (λ r, prio_known (priority r) = true) l -> of_prio (PriorityRaw v) l = [].
Proof.
  intros H. apply of_prio_nil_lt. eapply Forall_impl; [exact H|]. intros r Hr Heq. simpl in Hr. by rewrite Heq in Hr.
Qed.

Lemma bpq_rel_empty q l : bpq_rel q l -> bpq_isEmpty q = bool_decide (l = []).
Proof.
  intros [He Hs Hu Hn Hm Hk]. unfold bpq_isEmpty.
  rewrite !view_empty, He, Hs, Hu, Hn, Hm.
  pose proof (known_classes_length l Hk) as Hlen.
  destruct l as [|r l]; [done|]. rewrite (bool_decide_false (r :: l = [])) by done.
  repeat case_bool_decide; try done. exfalso.
  repeat match goal with H : of_prio _ _ = [] |- _ => rewrite H in Hlen end. done.
Qed.

(** Every operation is simulated by the reference operation. *)
Lemma bpq_exec_sim o q l :
  bpq_rel q l ->
  fst (bpq_exec o q) = fst (ref_exec o l) /\ bpq_rel (snd (bpq_exec o q)) (snd (ref_exec o l)).
Proof.
  intros Hrel. destruct o as [r| | | |p|]; simpl.
  - pose proof (bpq_rel_push r q l Hrel) as [Hf Hs].
    destruct (bpq_push r q) as [b q']. simpl in *. subst b. by case_match.
  - destruct (extract_min request_lt l) as [[r l']|] eqn:Hex.
    + destruct (bpq_rel_pop_Some q l r l' Hrel Hex) as (q' & -> & Hrel'). done.
    + apply extract_min_None in Hex as ->. by rewrite (bpq_rel_pop_None q []).
  - by rewrite (bpq_rel_empty q l Hrel).
  - split; [|done]. destruct Hrel as [He Hs Hu Hn Hm Hk]. unfold bpq_size.
    rewrite !view_size, He, Hs, Hu, Hn, Hm, (known_classes_length l Hk). do 2 f_equal. lia.
  - split; [|done]. destruct Hrel as [He Hs Hu Hn Hm Hk].
    destruct p; simpl; rewrite ?view_size, ?He, ?Hs, ?Hu, ?Hn, ?Hm; try done.
    pose proof (of_prio_raw v l Hk) as Hraw. unfold of_prio in Hraw. by rewrite Hraw.
  - split; [done|]. constructor; simpl; by rewrite ?view_clear.
Qed.

Lemma bpq_run_sim os q l :
  bpq_rel q l ->
  fst (bpq_run os q) = fst (ref_run os l) /\ bpq_rel (snd (bpq_run os q)) (snd (ref_run os l)).
Proof.
  revert q l. induction os as [|o os IH]; intros q l Hrel; [done|]. simpl.
  destruct (bpq_exec_sim o q l Hrel) as [Hf Hs].
  destruct (bpq_exec o q) as [x q'], (ref_exec o l) as [y l']; simpl in *. subst y.
  destruct (IH q' l' Hs) as [Hf' Hs'].
  destruct (bpq_run os q'), (ref_run os l'); simpl in *. by subst.
Qed.

(** C27: the five queues implement one stable priority queue.  Any sequence of
    push, pop, isEmpty, size, sizeOf and clear calls on a new
    BehaviorPriorityQueue returns exactly what a single list of pending
    requests returns whose pop takes the oldest request of the most urgent
    priority; pushes with an unknown priority are refused. *)
Theorem behavior_queue_refines_stable_priority_queue os :
  fst (bpq_run os bpq_new) = fst (ref_run os []).
Proof. apply bpq_run_sim, bpq_rel_new. Qed.
End BehaviorPriorityQueue.

(** ** A concrete queue, for executing the component *)

Section ListQueue.
Context {A : Type}.

#[export] Instance list_queue : ConcurrentQueue (list A) A := {
  cq_new := [];
  cq_push a q := q ++ [a];
  cq_try_pop q := match q with [] => None | a :: q' => Some (a, q') end;
  cq_empty q := match q with [] => true | _ => false end;
  cq_unsafe_size q := Z.of_nat (length q);
  cq_clear _ := [];
  cq_view q := q
}.

#[export] Instance list_queue_laws : ConcurrentQueueLaws (list A) A.
Proof. constructor; try done; by intros []. Defined.
End ListQueue.

(** A low-priority request, an urgent one and an emergency stop leave in order
    of urgency. *)
Lemma behavior_queue_refines_stable_priority_queue_witness :
  let r id p := newBehaviorRequest 0 id p tt "" in
  let os := [OpPush (r "a" NORMAL_TASK); OpPush (r "b" URGENT_TASK); OpPush (r "c" NORMAL_TASK);
             OpPush (r "d" EMERGENCY_STOP); OpPush (r "e" (PriorityRaw 9));
             OpPop; OpPop; OpPop; OpSize; OpPop; OpPop] in
  fst (bpq_run (Q := list (BehaviorRequest unit)) os bpq_new) = fst (ref_run os []) /\
  fst (ref_run os []) =
    [OutBool true; OutBool true; OutBool true; OutBool true; OutBool false;
     OutRequest (Some (r "d" EMERGENCY_STOP)); OutRequest (Some (r "b" URGENT_TASK));
     OutRequest (Some (r "a" NORMAL_TASK)); OutNum 1; OutRequest (Some (r "c" NORMAL_TASK));
     OutRequest None].
Proof.
  split; [|by_compute].
  apply (behavior_queue_refines_stable_priority_queue (Q := list (BehaviorRequest unit))).
Defined.
