(* ===== verification/TaskQueue.v ===== *)
(** * TaskQueue (src/core/control/impl/TaskQueue.{h,cpp})

    Five vectors of tasks and the map from task id to priority that [remove]
    uses.  The component is shown to behave as one list of tasks ordered by
    priority class, with unique ids: the map never disagrees with the vectors. *)

From S2P Require Import Prelude Control.

Record TaskQueue (T : Type) := mkTaskQueue {
  tq_emergency_stop_ : list T;
  tq_safety_issue_ : list T;
  tq_urgent_task_ : list T;
  tq_normal_task_ : list T;
  tq_maintenance_ : list T;
  task_priority_map_ : gmap string Priority
}.
Arguments mkTaskQueue {T}.
Arguments tq_emergency_stop_ {T} _.
Arguments tq_safety_issue_ {T} _.
Arguments tq_urgent_task_ {T} _.
Arguments tq_normal_task_ {T} _.
Arguments tq_maintenance_ {T} _.
Arguments task_priority_map_ {T} _.

Section TaskQueue.
Context {T : Type} `{!TaskId T}.
Implicit Types (q : TaskQueue T) (t : T) (ts : list T).

Definition has_id (id : string) t : bool := bool_decide (getId t = id).

(** *** The nested struct PriorityQueue *)

Definition pq_push t ts : list T := ts ++ [t].

Definition pq_pop ts : option (T * list T) :=
  match ts with [] => None | t :: ts' => Some (t, ts') end.

Definition pq_remove (id : string) ts : bool * list T :=
  match erase_first (has_id id) ts with
  | Some ts' => (true, ts')
  | None => (false, ts)
  end.

Definition pq_empty ts : bool := match ts with [] => true | _ => false end.

(** *** getQueue returns a reference: a getter and the matching update. *)

Definition getQueue (p : Priority) q : list T :=
  match p with
  | EMERGENCY_STOP => tq_emergency_stop_ q
  | SAFETY_ISSUE => tq_safety_issue_ q
  | URGENT_TASK => tq_urgent_task_ q
  | NORMAL_TASK => tq_normal_task_ q
  | MAINTENANCE => tq_maintenance_ q
  | PriorityRaw _ => tq_normal_task_ q
  end.

Definition setQueue (p : Priority) ts q : TaskQueue T :=
  let '(mkTaskQueue e s u n m tm) := q in
  match p with
  | EMERGENCY_STOP => mkTaskQueue ts s u n m tm
  | SAFETY_ISSUE => mkTaskQueue e ts u n m tm
  | URGENT_TASK => mkTaskQueue e s ts n m tm
  | NORMAL_TASK => mkTaskQueue e s u ts m tm
  | MAINTENANCE => mkTaskQueue e s u n ts tm
  | PriorityRaw _ => mkTaskQueue e s u ts m tm
  end.

Definition setMap (tm : gmap string Priority) q : TaskQueue T :=
  mkTaskQueue (tq_emergency_stop_ q) (tq_safety_issue_ q) (tq_urgent_task_ q)
    (tq_normal_task_ q) (tq_maintenance_ q) tm.

Definition tq_new : TaskQueue T := mkTaskQueue [] [] [] [] [] ∅.

Definition enqueue t (p : Priority) q : bool * TaskQueue T :=
  let task_id := getId t in
  if (task_priority_map_ q).[task_id] then (false, q)
  else
    let q := setQueue p (pq_push t (getQueue p q)) q in
    (true, setMap (<[task_id := p]> (task_priority_map_ q)) q).

Definition dequeue q : option T * TaskQueue T :=
  let '(mkTaskQueue e s u n m tm) := q in
  match pq_pop e with Some (t, e') => (Some t, mkTaskQueue e' s u n m (delete (getId t) tm)) | None =>
  match pq_pop s with Some (t, s') => (Some t, mkTaskQueue e s' u n m (delete (getId t) tm)) | None =>
  match pq_pop u with Some (t, u') => (Some t, mkTaskQueue e s u' n m (delete (getId t) tm)) | None =>
  match pq_pop n with Some (t, n') => (Some t, mkTaskQueue e s u n' m (delete (getId t) tm)) | None =>
  match pq_pop m with Some (t, m') => (Some t, mkTaskQueue e s u n m' (delete (getId t) tm)) | None =>
  (None, q) end end end end end.

Definition tq_isEmpty q : bool :=
  pq_empty (tq_emergency_stop_ q) && pq_empty (tq_safety_issue_ q)
  && pq_empty (tq_urgent_task_ q) && pq_empty (tq_normal_task_ q) && pq_empty (tq_maintenance_ q).

Definition tq_size q : Z :=
  u64 (Z.of_nat (length (tq_emergency_stop_ q)) + Z.of_nat (length (tq_safety_issue_ q))
       + Z.of_nat (length (tq_urgent_task_ q)) + Z.of_nat (length (tq_normal_task_ q))
       + Z.of_nat (length (tq_maintenance_ q))).

Definition tq_clear q : TaskQueue T := mkTaskQueue [] [] [] [] [] ∅.

Definition tq_remove (id : string) q : bool * TaskQueue T :=
  match task_priority_map_ q !! id with
  | None => (false, q)
  | Some p =>
    let '(removed, ts) := pq_remove id (getQueue p q) in
    let q := setQueue p ts q in
    if removed then (true, setMap (delete id (task_priority_map_ q)) q) else (false, q)
  end.

Definition getAllTasks q : list T :=
  tq_emergency_stop_ q ++ tq_safety_issue_ q ++ tq_urgent_task_ q
  ++ tq_normal_task_ q ++ tq_maintenance_ q.

Definition peek q : option T :=
  if negb (pq_empty (tq_emergency_stop_ q)) then head (tq_emergency_stop_ q)
  else if negb (pq_empty (tq_safety_issue_ q)) then head (tq_safety_issue_ q)
  else if negb (pq_empty (tq_urgent_task_ q)) then head (tq_urgent_task_ q)
  else if negb (pq_empty (tq_normal_task_ q)) then head (tq_normal_task_ q)
  else if negb (pq_empty (tq_maintenance_ q)) then head (tq_maintenance_ q)
  else None.

(** *** Calls and answers *)

Inductive TQOp :=
| TEnqueue (t : T) (p : Priority)
| TDequeue
| TIsEmpty
| TSize
| TClear
| TRemove (id : string)
| TAll
| TPeek.

Inductive TQOut :=
| TBool (b : bool)
| TTask (t : option T)
| TTasks (ts : list T)
| TNum (n : Z)
| TUnit.

Definition tq_exec (o : TQOp) q : TQOut * TaskQueue T :=
  match o with
  | TEnqueue t p => let '(b, q) := enqueue t p q in (TBool b, q)
  | TDequeue => let '(t, q) := dequeue q in (TTask t, q)
  | TIsEmpty => (TBool (tq_isEmpty q), q)
  | TSize => (TNum (tq_size q), q)
  | TClear => (TUnit, tq_clear q)
  | TRemove id => let '(b, q) := tq_remove id q in (TBool b, q)
  | TAll => (TTasks (getAllTasks q), q)
  | TPeek => (TTask (peek q), q)
  end.

Fixpoint tq_run (os : list TQOp) q : list TQOut * TaskQueue T :=
  match os with
  | [] => ([], q)
  | o :: os => let '(x, q) := tq_exec o q in let '(xs, q) := tq_run os q in (x :: xs, q)
  end.

(** *** The reference: one list of (class, task) pairs, ordered by class *)

(** An unknown priority is filed with the normal tasks. *)
Definition prio_class (p : Priority) : Z :=
  match p with PriorityRaw _ => prio_val NORMAL_TASK | _ => prio_val p end.

Fixpoint insert_stable (x : Z * T) (l : list (Z * T)) : list (Z * T) :=
  match l with
  | [] => [x]
  | y :: l' => if fst y <=? fst x then y :: insert_stable x l' else x :: l
  end.

Definition refq_exec (o : TQOp) (l : list (Z * T)) : TQOut * list (Z * T) :=
  match o with
  | TEnqueue t p =>
    if bool_decide (getId t ∈ map (getId ∘ snd) l) then (TBool false, l)
    else (TBool true, insert_stable (prio_class p, t) l)
  | TDequeue => match l with [] => (TTask None, []) | x :: l' => (TTask (Some (snd x)), l') end
  | TIsEmpty => (TBool (bool_decide (l = [])), l)
  | TSize => (TNum (u64 (Z.of_nat (length l))), l)
  | TClear => (TUnit, [])
  | TRemove id => match erase_first (has_id id ∘ snd) l with
                  | None => (TBool false, l)
                  | Some l' => (TBool true, l')
                  end
  | TAll => (TTasks (map snd l), l)
  | TPeek => (TTask (snd <$> head l), l)
  end.

Fixpoint refq_run (os : list TQOp) (l : list (Z * T)) : list TQOut * list (Z * T) :=
  match os with
  | [] => ([], l)
  | o :: os => let '(x, l) := refq_exec o l in let '(xs, l) := refq_run os l in (x :: xs, l)
  end.

(** *** Abstraction and invariant *)

Definition tagged (c : Z) ts : list (Z * T) := map (pair c) ts.

Definition tq_abs q : list (Z * T) :=
  tagged 0 (tq_emergency_stop_ q) ++ tagged 1 (tq_safety_issue_ q) ++ tagged 2 (tq_urgent_task_ q)
  ++ tagged 3 (tq_normal_task_ q) ++ tagged 4 (tq_maintenance_ q).

Record tq_inv q : Prop := {
  inv_nodup : NoDup (map getId (getAllTasks q));
  inv_map : forall id, is_Some (task_priority_map_ q !! id) <-> id ∈ map getId (getAllTasks q);
  inv_class : forall id p, task_priority_map_ q !! id = Some p -> id ∈ map getId (getQueue p q)
}.

(** *** Structure of the abstraction *)

Lemma abs_all q : map snd (tq_abs q) = getAllTasks q.
Proof.
  unfold tq_abs, tagged, getAllTasks. rewrite !map_app, !map_map. simpl. by rewrite !map_id.
Qed.

Lemma setQueue_get p q : setQueue p (getQueue p q) q = q.
Proof. by destruct q, p. Qed.

Lemma setQueue_map p ts q : task_priority_map_ (setQueue p ts q) = task_priority_map_ q.
Proof. by destruct q, p. Qed.

Lemma getQueue_setMap p tm q : getQueue p (setMap tm q) = getQueue p q.
Proof. by destruct q, p. Qed.

Lemma abs_setMap tm q : tq_abs (setMap tm q) = tq_abs q.
Proof. done. Qed.

Lemma getQueue_setQueue p p' ts q :
  getQueue p (setQueue p' ts q) = if decide (prio_class p = prio_class p') then ts else getQueue p q.
Proof. by destruct q, p, p'. Qed.

(** Each priority class is one contiguous block of the abstraction. *)
Lemma abs_focus p q :
  exists pre post, (forall ts, tq_abs (setQueue p ts q) = pre ++ tagged (prio_class p) ts ++ post) /\
    Forall (λ x, fst x <= prio_class p) pre /\ Forall (λ x, prio_class p < fst x) post.
Proof.
  assert (Htag : forall (P : Z -> Prop) c ts, P c -> Forall (λ x, P (fst x)) (tagged c ts)).
  { intros P c ts Hc. apply Forall_map, Forall_true. done. }
  destruct q as [e s u n m tm].
  pose (blocks := fun k : nat => match k with
    | 0%nat => ([], tagged 1 s ++ tagged 2 u ++ tagged 3 n ++ tagged 4 m)
    | 1%nat => (tagged 0 e, tagged 2 u ++ tagged 3 n ++ tagged 4 m)
    | 2%nat => (tagged 0 e ++ tagged 1 s, tagged 3 n ++ tagged 4 m)
    | 3%nat => (tagged 0 e ++ tagged 1 s ++ tagged 2 u, tagged 4 m)
    | _ => (tagged 0 e ++ tagged 1 s ++ tagged 2 u ++ tagged 3 n, [])
    end).
  exists (fst (blocks (Z.to_nat (prio_class p)))), (snd (blocks (Z.to_nat (prio_class p)))).
  destruct p; simpl; (split_and!;
    [ intros ts; unfold tq_abs; simpl; by rewrite <- ?app_assoc, ?app_nil_r
    | rewrite ?Forall_app; split_and?; try done; first [ apply (Htag (λ c, c <= _)); done ]
    | rewrite ?Forall_app; split_and?; try done; first [ apply (Htag (λ c, _ < c)); done ] ]).
Qed.

Lemma insert_stable_block c t pre ts post :
  Forall (λ x, fst x <= c) pre -> Forall (λ x, c < fst x) post ->
  insert_stable (c, t) (pre ++ tagged c ts ++ post) = pre ++ tagged c (ts ++ [t]) ++ post.
Proof.
  intros Hpre Hpost. rewrite app_assoc.
  assert (H : Forall (λ x, fst x <= c) (pre ++ tagged c ts)).
  { apply Forall_app; split; [done|]. apply Forall_map, Forall_true. simpl; lia. }
  unfold tagged at 2. rewrite map_app, <- (app_assoc (map (pair c) ts)), app_assoc. simpl.
  fold (tagged c ts). induction H as [|x l Hx _ IH]; simpl.
  - destruct Hpost as [|y post Hy _]; simpl; [done|]. by rewrite (proj2 (Z.leb_gt _ _)).
  - rewrite (proj2 (Z.leb_le _ _)) by done. by rewrite IH.
Qed.

Lemma all_focus p q :
  exists pre post, forall ts, getAllTasks (setQueue p ts q) = pre ++ ts ++ post.
Proof.
  destruct (abs_focus p q) as (pre & post & H & _).
  exists (map snd pre), (map snd post). intros ts. rewrite <- abs_all, H, !map_app.
  unfold tagged. by rewrite map_map, map_id.
Qed.

(** *** The invariant *)

Lemma tq_inv_new : tq_inv tq_new.
Proof.
  constructor; simpl; [constructor| |done].
  intros id. rewrite lookup_empty. split; [intros [? ?]|intros ?%elem_of_nil]; done.
Qed.

Lemma tq_inv_enqueue t p q :
  tq_inv q -> task_priority_map_ q !! getId t = None ->
  tq_inv (setMap (<[getId t := p]> (task_priority_map_ q)) (setQueue p (getQueue p q ++ [t]) q)).
Proof.
  intros [Hnd Hmap Hcls] Hnone.
  destruct (all_focus p q) as (pre & post & Hall).
  assert (Hq : getAllTasks q = pre ++ getQueue p q ++ post) by (by rewrite <- Hall, setQueue_get).
  assert (Hperm : map getId (getAllTasks (setQueue p (getQueue p q ++ [t]) q))
                  ≡ₚ getId t :: map getId (getAllTasks q)).
  { rewrite Hall, Hq, !map_app. simpl. solve_Permutation. }
  assert (Hfresh : getId t ∉ map getId (getAllTasks q)).
  { rewrite <- Hmap, Hnone. by intros [? ?]. }
  constructor; simpl.
  - change (NoDup (map getId (getAllTasks (setQueue p (getQueue p q ++ [t]) q)))).
    rewrite Hperm. by constructor.
  - intros id.
    change (getAllTasks (setMap _ ?x)) with (getAllTasks x). rewrite Hperm, elem_of_cons, <- Hmap.
    destruct (decide (id = getId t)) as [->|Hne].
    + rewrite lookup_insert_eq. split; [by left|done].
    + rewrite lookup_insert_ne by done. split; [by right|by intros [?|?]].
  - intros id p'. rewrite getQueue_setMap, getQueue_setQueue.
    destruct (decide (id = getId t)) as [->|Hne].
    + rewrite lookup_insert_eq. intros [= ->]. rewrite decide_True by done.
      rewrite map_app. apply elem_of_app. right. by apply list_elem_of_singleton.
    + rewrite lookup_insert_ne by done. intros H%Hcls. case_decide as Hc; [|done].
      assert (getQueue p' q = getQueue p q) as Heq.
      { rewrite <- (setQueue_get p q) at 1. by rewrite getQueue_setQueue, decide_True. }
      rewrite map_app, <- Heq. apply elem_of_app. by left.
Qed.

(** Taking one task out of its vector and its id out of the map. *)
Lemma tq_inv_take t p l1 l2 q :
  tq_inv q -> getQueue p q = l1 ++ t :: l2 ->
  tq_inv (setMap (delete (getId t) (task_priority_map_ q)) (setQueue p (l1 ++ l2) q)).
Proof.
  intros [Hnd Hmap Hcls] Hget.
  destruct (all_focus p q) as (pre & post & Hall).
  assert (Hq : getAllTasks q = pre ++ (l1 ++ t :: l2) ++ post)
    by (by rewrite <- Hget, <- Hall, setQueue_get).
  assert (Hperm : map getId (getAllTasks q)
                  ≡ₚ getId t :: map getId (getAllTasks (setQueue p (l1 ++ l2) q))).
  { rewrite Hall, Hq, !map_app. simpl. solve_Permutation. }
  assert (Hnd' := Hnd). rewrite Hperm in Hnd'. apply NoDup_cons in Hnd' as [Hfresh Hnd'].
  constructor; simpl.
  - done.
  - intros id. change (getAllTasks (setMap _ ?x)) with (getAllTasks x).
    specialize (Hmap id). rewrite Hperm, elem_of_cons in Hmap.
    destruct (decide (id = getId t)) as [->|Hne].
    + rewrite lookup_delete_eq. split; [by intros [? ?]|done].
    + rewrite lookup_delete_ne by done. rewrite Hmap. split; [by intros [?|?]|by right].
  - intros id p'. rewrite getQueue_setMap, getQueue_setQueue.
    destruct (decide (id = getId t)) as [->|Hne]; [by rewrite lookup_delete_eq|].
    rewrite lookup_delete_ne by done. intros H%Hcls. case_decide as Hc; [|done].
    assert (getQueue p' q = l1 ++ t :: l2) as Heq.
    { rewrite <- Hget, <- (setQueue_get p q) at 1. by rewrite getQueue_setQueue, decide_True. }
    rewrite Heq in H. rewrite map_app in *. simpl in H.
    apply elem_of_app in H as [H|H%elem_of_cons]; apply elem_of_app; [by left|].
    destruct H; [done|by right].
Qed.

Lemma dequeue_step q :
  dequeue q = (None, q) /\ tq_abs q = [] \/
  exists p t ts, getQueue p q = t :: ts /\
    dequeue q = (Some t, setMap (delete (getId t) (task_priority_map_ q)) (setQueue p ts q)) /\
    exists c l, tq_abs q = (c, t) :: l /\ tq_abs (setQueue p ts q) = l.
Proof.
  destruct q as [[|t e] [|t' s] [|t'' u] [|t3 n] [|t4 m] tm]; simpl; try (by left); right;
    first [ exists EMERGENCY_STOP, t, e; by eauto 10 | exists SAFETY_ISSUE, t', s; by eauto 10
          | exists URGENT_TASK, t'', u; by eauto 10 | exists NORMAL_TASK, t3, n; by eauto 10
          | exists MAINTENANCE, t4, m; by eauto 10 ].
Qed.

Lemma abs_ids q : map (getId ∘ snd) (tq_abs q) = map getId (getAllTasks q).
Proof. by rewrite <- abs_all, map_map. Qed.

(** *** Each operation agrees with the reference *)

Definition agrees {O : Type} (x : O * TaskQueue T) (y : O * list (Z * T)) : Prop :=
  fst x = fst y /\ tq_inv (snd x) /\ tq_abs (snd x) = snd y.

Lemma enqueue_agrees t p q :
  tq_inv q -> agrees (tq_exec (TEnqueue t p) q) (refq_exec (TEnqueue t p) (tq_abs q)).
Proof.
  intros Hinv. unfold agrees, tq_exec, refq_exec, enqueue. rewrite abs_ids.
  rewrite (bool_decide_ext (is_Some _) (getId t ∈ map getId (getAllTasks q)))
    by apply (inv_map q Hinv).
  case_bool_decide as Hin; [done|]. split; [done|]. simpl. rewrite setQueue_map.
  split.
  - apply tq_inv_enqueue; [done|]. apply eq_None_not_Some. by rewrite (inv_map q Hinv).
  - rewrite abs_setMap. destruct (abs_focus p q) as (pre & post & H & Hpre & Hpost).
    rewrite H. rewrite <- (setQueue_get p q) at 2. rewrite H.
    symmetry. by apply insert_stable_block.
Qed.

Lemma dequeue_agrees q : tq_inv q -> agrees (tq_exec TDequeue q) (refq_exec TDequeue (tq_abs q)).
Proof.
  intros Hinv. unfold agrees; simpl.
  destruct (dequeue_step q) as [[-> Habs]|(p & t & ts & Hget & -> & c & l & Hl & Hset)].
  - by rewrite Habs.
  - rewrite Hl. split_and!; [done| |done]. by apply (tq_inv_take t p [] ts).
Qed.

Lemma remove_agrees id q :
  tq_inv q -> agrees (tq_exec (TRemove id) q) (refq_exec (TRemove id) (tq_abs q)).
Proof.
  intros Hinv. unfold agrees, tq_exec, refq_exec, tq_remove.
  destruct (task_priority_map_ q !! id) as [p|] eqn:Hm.
  - destruct (abs_focus p q) as (pre & post & H & _).
    pose proof (inv_class q Hinv id p Hm) as Hin.
    unfold pq_remove. destruct (erase_first (has_id id) (getQueue p q)) as [ts|] eqn:Her.
    + pose proof (erase_first_split _ _ _ Her) as (l1 & t & l2 & Hget & -> & Hid & _).
      unfold has_id in Hid. apply bool_decide_eq_true in Hid.
      assert (Habs : tq_abs q = pre ++ tagged (prio_class p) (l1 ++ t :: l2) ++ post)
        by (by rewrite <- Hget, <- H, setQueue_get).
      assert (Hpre : erase_first (has_id id ∘ snd) pre = None).
      { apply erase_first_None, Forall_forall. intros [c t'] Hin'. unfold has_id; simpl.
        apply bool_decide_eq_false. intros Heq.
        pose proof (inv_nodup q Hinv) as Hnd. rewrite <- abs_ids, Habs, map_app in Hnd.
        apply NoDup_app in Hnd as (_ & Hnd & _). apply (Hnd id).
        - apply list_elem_of_fmap. by exists (c, t').
        - rewrite map_app. apply elem_of_app. left. apply list_elem_of_fmap.
          exists (prio_class p, t). split; [done|]. apply list_elem_of_fmap. exists t.
          split; [done|]. apply elem_of_app. right. by left. }
      rewrite Habs, (erase_first_app_r _ _ _ Hpre).
      rewrite (erase_first_app_l _ _ post (tagged (prio_class p) (l1 ++ l2))).
      2:{ unfold tagged. rewrite erase_first_map. rewrite <- Hget.
          change ((has_id id ∘ snd) ∘ pair (prio_class p)) with (has_id id). by rewrite Her. }
      simpl. rewrite setQueue_map. split_and!; [done| |by rewrite abs_setMap, H].
      rewrite <- Hid. by apply tq_inv_take.
    + exfalso. apply erase_first_None in Her. apply list_elem_of_fmap in Hin as (t & -> & Hin).
      rewrite Forall_forall in Her. specialize (Her t Hin). unfold has_id in Her.
      by rewrite bool_decide_true in Her.
  - assert (Her : erase_first (has_id id ∘ snd) (tq_abs q) = None).
    { apply erase_first_None, Forall_forall. intros [c t] Hin. unfold has_id; simpl.
      apply bool_decide_eq_false. intros Heq.
      assert (is_Some (task_priority_map_ q !! id)) as [? ?]; [|congruence].
      apply (inv_map q Hinv). rewrite <- abs_ids. apply list_elem_of_fmap. by exists (c, t). }
    by rewrite Her.
Qed.

Lemma tq_exec_agrees o q : tq_inv q -> agrees (tq_exec o q) (refq_exec o (tq_abs q)).
Proof.
  intros Hinv. destruct o.
  - by apply enqueue_agrees.
  - by apply dequeue_agrees.
  - split; [|done]. simpl. f_equal. by destruct q as [[] [] [] [] [] tm].
  - split; [|done]. simpl. f_equal. unfold tq_size, tq_abs, tagged.
    rewrite !length_app, !length_map. f_equal. lia.
  - split_and!; [done|apply tq_inv_new|done].
  - by apply remove_agrees.
  - split; [|done]. simpl. by rewrite abs_all.
  - split; [|done]. simpl. f_equal. by destruct q as [[] [] [] [] [] tm].
Qed.

Lemma tq_run_agrees os q : tq_inv q -> agrees (tq_run os q) (refq_run os (tq_abs q)).
Proof.
  revert q. induction os as [|o os IH]; intros q Hinv; [done|]. simpl.
  destruct (tq_exec_agrees o q Hinv) as (Hf & Hi & Ha).
  destruct (tq_exec o q) as [x q'], (refq_exec o (tq_abs q)) as [y l]; simpl in *. subst y l.
  destruct (IH q' Hi) as (Hf' & Hi' & Ha').
  destruct (tq_run os q'), (refq_run os (tq_abs q')); simpl in *. by subst.
Qed.

(** The five vectors and the id map behave as one list of tasks ordered by
    priority class and, inside a class, by arrival.  Any sequence of calls on
    a new TaskQueue answers as that list does: a task is accepted exactly when
    its id is not queued, dequeue and peek give the head, remove takes out the
    task with the given id and fails only when there is none. *)
Theorem task_queue_refines_ordered_list os :
  fst (tq_run os tq_new) = fst (refq_run os []).
Proof. apply (tq_run_agrees os tq_new tq_inv_new). Qed.

(** After any sequence of calls the map holds exactly the ids of the queued
    tasks, each under the priority whose vector stores it, and no id is queued
    twice. *)
Theorem task_queue_map_consistent os :
  let q := snd (tq_run os tq_new) in
  NoDup (map getId (getAllTasks q)) /\
  (forall id, is_Some (task_priority_map_ q !! id) <-> id ∈ map getId (getAllTasks q)) /\
  (forall id p, task_priority_map_ q !! id = Some p -> id ∈ map getId (getQueue p q)).
Proof. destruct (tq_run_agrees os tq_new tq_inv_new) as (_ & [] & _). done. Qed.
End TaskQueue.
