(* ===== verification/Interfaces.v ===== *)
(** * Interfaces between components

    What a component uses of the DataStore and of the event bus, as classes:
    the clients are proved for every implementation. *)

From S2P Require Import Prelude.

(** ** DataStore (src/core/datastore/DataStore.h)

    [DataStore::set<T>] stores a value of any type under a key and throws when
    the key already holds another type. [any_value] has one constructor per
    instantiation of [T] that the clients use; [any_field] is the [std::any] of
    the entries of a [std::map<std::string, std::any>]. *)

Inductive DataType :=
| RobotMode | InterfaceData | Config | Para | AlarmData | Event | MissionState | TaskState.

Inductive any_field :=
| FieldInt (v : Z)
| FieldUInt32 (v : Z)
| FieldTime (v : Z)
| FieldString (v : string).

Inductive any_value :=
| AnyInt (v : Z)
| AnyString (v : string)
| AnyMap (v : list (string * any_field)).

(** [ds_set key value type] gives the new store and whether the call threw. *)
Class IDataStore (D : Type) := ds_set : string -> any_value -> DataType -> D -> D * bool.

(** Several calls of one [try] block: the first throw skips the rest. *)
Fixpoint ds_set_all {D} `{!IDataStore D} (l : list (string * any_value * DataType)) (d : D) : D :=
  match l with
  | [] => d
  | (k, v, t) :: l =>
    let '(d, threw) := ds_set k v t d in if threw : bool then d else ds_set_all l d
  end.

(** ** IEventBus (src/core/event/interfaces/IEventBus.h)

    [publish] for events of type [E] on a bus in state [B]; the clients ignore
    its result and catch what it throws. *)
Class IEventBus (E B : Type) := eb_publish : E -> B -> B.

(** ** Recording implementations, for running the clients *)

Section Recording.
#[export] Instance recording_store : IDataStore (list (string * any_value * DataType)) :=
  fun k v t d => (d ++ [(k, v, t)], false).
#[export] Instance recording_bus {E} : IEventBus E (list E) := fun e b => b ++ [e].
End Recording.
