(* ===== verification/Alarm.v ===== *)
(** * Alarms and their configuration

    [src/core/alarm/dto] (AlarmSeverity, AlarmState, AlarmDto),
    [impl/Alarm.cpp] and [impl/AlarmConfiguration.cpp].  The configuration is the
    table; [AlarmLoad] reads it from a file. *)

From Stdlib Require Import Ascii.
From stdpp Require Import pretty.
From S2P Require Import Prelude.

(** ** AlarmSeverity *)

Inductive AlarmSeverity := CRITICAL | WARNING | INFO.

#[export] Instance AlarmSeverity_eq_dec : EqDecision AlarmSeverity.
Proof. solve_decision. Defined.

(** The underlying value: a smaller value is a more severe alarm. *)
Definition sev_val (s : AlarmSeverity) : Z :=
  match s with CRITICAL => 0 | WARNING => 1 | INFO => 2 end.

Definition AlarmSeverity_toString (s : AlarmSeverity) : string :=
  match s with CRITICAL => "CRITICAL" | WARNING => "WARNING" | INFO => "INFO" end.

Definition AlarmSeverity_fromString (str : string) : AlarmSeverity :=
  if String.eqb str "CRITICAL" then CRITICAL
  else if String.eqb str "WARNING" then WARNING
  else if String.eqb str "INFO" then INFO
  else INFO.

Definition requiresImmediateAction (s : AlarmSeverity) : bool := bool_decide (s = CRITICAL).

(** ** AlarmDto; times are nanoseconds since the epoch of the system clock. *)

Inductive AlarmState := ACTIVE | ACKNOWLEDGED | RESOLVED.

#[export] Instance AlarmState_eq_dec : EqDecision AlarmState.
Proof. solve_decision. Defined.

Record AlarmDto := mkAlarmDto {
  alarm_id : string;
  alarm_code : string;
  alarm_name : string;
  severity : AlarmSeverity;
  state : AlarmState;
  alarm_timestamp : Z;
  details : option string;
  source : string;
  recurrence_count : Z;
  last_recurrence : option Z;
  acknowledged_time : option Z;
  acknowledged_by : option string;
  resolved_time : option Z
}.

Definition AlarmState_toString (s : AlarmState) : string :=
  match s with ACTIVE => "ACTIVE" | ACKNOWLEDGED => "ACKNOWLEDGED" | RESOLVED => "RESOLVED" end.

(** [alarm_code + "_" + std::to_string(ms)]. *)
Definition make_alarm_id (code : string) (ts : Z) : string :=
  (code +:+ "_" +:+ pretty (Z.quot ts 1000000))%string.

Definition newAlarmDto (now : Z) (code name : string) (sev : AlarmSeverity) (src : string) : AlarmDto :=
  {| alarm_id := make_alarm_id code now; alarm_code := code; alarm_name := name;
     severity := sev; state := ACTIVE; alarm_timestamp := now; details := None; source := src;
     recurrence_count := 0; last_recurrence := None; acknowledged_time := None;
     acknowledged_by := None; resolved_time := None |}.

Definition alarmElapsedMs (now : Z) (a : AlarmDto) : Z := Z.quot (now - alarm_timestamp a) 1000000.
Definition isActive (a : AlarmDto) : bool := bool_decide (state a = ACTIVE).
Definition isResolved (a : AlarmDto) : bool := bool_decide (state a = RESOLVED).

(** ** Alarm (impl/Alarm.cpp): the methods update the wrapped dto. *)

Definition setDetails (d : string) (a : AlarmDto) : AlarmDto :=
  let '(mkAlarmDto i c n sv st ts _ src rc lr at_ ab rt) := a in
  mkAlarmDto i c n sv st ts (Some d) src rc lr at_ ab rt.

Definition acknowledge (now : Z) (by_ : string) (a : AlarmDto) : AlarmDto :=
  let '(mkAlarmDto i c n sv st ts d src rc lr at_ ab rt) := a in
  if bool_decide (st = ACTIVE)
  then mkAlarmDto i c n sv ACKNOWLEDGED ts d src rc lr (Some now) (Some by_) rt
  else a.

Definition resolve (now : Z) (a : AlarmDto) : AlarmDto :=
  let '(mkAlarmDto i c n sv st ts d src rc lr at_ ab rt) := a in
  if bool_decide (st <> RESOLVED)
  then mkAlarmDto i c n sv RESOLVED ts d src rc lr at_ ab (Some now)
  else a.

Definition recordRecurrence (now : Z) (a : AlarmDto) : AlarmDto :=
  let '(mkAlarmDto i c n sv st ts d src rc lr at_ ab rt) := a in
  mkAlarmDto i c n sv st ts d src (u32 (rc + 1)) (Some now) at_ ab rt.

Definition setRecurrenceCount (count : Z) (a : AlarmDto) : AlarmDto :=
  let '(mkAlarmDto i c n sv st ts d src rc lr at_ ab rt) := a in
  mkAlarmDto i c n sv st ts d src count lr at_ ab rt.

Definition escalateSeverity (new_severity : AlarmSeverity) (a : AlarmDto) : AlarmDto :=
  let '(mkAlarmDto i c n sv st ts d src rc lr at_ ab rt) := a in
  if sev_val sv <? sev_val new_severity
  then mkAlarmDto i c n new_severity st ts d src rc lr at_ ab rt
  else a.

(** ** AlarmConfiguration *)

Record AlarmConfig := mkAlarmConfig {
  cfg_code : string;
  cfg_name : string;
  cfg_severity : AlarmSeverity;
  cfg_description : string;
  cfg_recommended_action : option string;
  recurrence_window : Z;
  recurrence_threshold : Z;
  auto_reset : bool
}.

Abbreviation AlarmConfiguration := (gmap string AlarmConfig).

Definition parseSeverity (severity_str : string) : AlarmSeverity :=
  if String.eqb severity_str "CRITICAL" then CRITICAL
  else if String.eqb severity_str "WARNING" then WARNING
  else if String.eqb severity_str "INFO" then INFO
  else INFO.

Definition addConfig (c : AlarmConfig) (cs : AlarmConfiguration) : AlarmConfiguration :=
  <[cfg_code c := c]> cs.

Definition getAlarmConfig (code : string) (cs : AlarmConfiguration) : option AlarmConfig := cs !! code.

Definition hasAlarmConfig (code : string) (cs : AlarmConfiguration) : bool := cs.[code].

Definition getAllConfigs (cs : AlarmConfiguration) : list AlarmConfig := (map_to_list cs).*2.

Definition shouldEscalateSeverity (code : string) (recurrence : Z) (cs : AlarmConfiguration) :
    AlarmSeverity :=
  match getAlarmConfig code cs with
  | None => INFO
  | Some config =>
    if recurrence_threshold config <=? recurrence then
      match cfg_severity config with
      | INFO => WARNING
      | WARNING => CRITICAL
      | CRITICAL => CRITICAL
      end
    else cfg_severity config
  end.

(** [std::isdigit] on the characters of a code, in the "C" locale. *)
Definition isdigit (c : ascii) : bool :=
  let n := Z.of_nat (Ascii.nat_of_ascii c) in (48 <=? n) && (n <=? 57).

Definition code_format_ok (code : string) : bool :=
  match code with
  | String c0 (String c1 (String c2 (String c3 EmptyString))) =>
    (Ascii.eqb c0 "E"%char || Ascii.eqb c0 "W"%char || Ascii.eqb c0 "I"%char)
    && isdigit c1 && isdigit c2 && isdigit c3
  | _ => false
  end.

Definition validate (cs : AlarmConfiguration) : bool :=
  negb (bool_decide (cs = ∅)) &&
  forallb (λ kv, code_format_ok (fst kv) && negb (String.eqb (cfg_name (snd kv)) ""))
    (map_to_list cs).

(** ** Facts *)

Lemma severity_never_less_severe code n cs c :
  getAlarmConfig code cs = Some c ->
  sev_val (shouldEscalateSeverity code n cs) <= sev_val (cfg_severity c).
Proof.
  intros Hc. unfold shouldEscalateSeverity. rewrite Hc.
  case_match; [|done]. destruct (cfg_severity c); simpl; lia.
Qed.

Lemma acknowledge_state now by_ a :
  state (acknowledge now by_ a) = if bool_decide (state a = ACTIVE) then ACKNOWLEDGED else state a.
Proof. destruct a as [? ? ? ? st]. simpl. by destruct st. Qed.

Lemma acknowledge_severity now by_ a : severity (acknowledge now by_ a) = severity a.
Proof. destruct a as [? ? ? ? st]. simpl. by destruct st. Qed.

Lemma resolve_state now a : state (resolve now a) = RESOLVED.
Proof. destruct a as [? ? ? ? st]. simpl. by destruct st. Qed.

Lemma resolve_severity now a : severity (resolve now a) = severity a.
Proof. destruct a as [? ? ? ? st]. simpl. by destruct st. Qed.
