(* ===== verification/AlarmManager.v ===== *)
(** * AlarmManager (src/core/alarm/impl/AlarmManager.{h,cpp})

    Every call takes the readings of the system clock it makes as arguments.
    The DataStore and the event bus are used through their interfaces. *)

From S2P Require Import Prelude Interfaces Alarm.

(** Events of dto/AlarmEvents.h; the base-class timestamp is not kept. *)
Inductive AlarmEvent :=
| AlarmRaisedEvent (alarmId alarmType : string) (sev : AlarmSeverity) (message src : string)
| AlarmClearedEvent (alarmId alarmType clearedBy : string)
| AlarmEscalatedEvent (alarmId alarmType : string) (oldSeverity newSeverity : AlarmSeverity)
    (occurrenceCount : Z).

Record AlarmStats := mkAlarmStats {
  total_raised : Z;
  active_count : Z;
  resolved_count : Z;
  critical_count : Z;
  warning_count : Z;
  info_count : Z
}.

Record AlarmManager (D B : Type) := mkAlarmManager {
  data_store_ : option D;
  event_bus_ : option B;
  alarms_ : gmap string AlarmDto;
  last_occurrence_ : gmap string Z;
  recurrence_count_ : gmap string Z;
  alarm_history_ : list AlarmDto;
  stats_ : AlarmStats
}.
Arguments mkAlarmManager {D B}.
Arguments data_store_ {D B} _.
Arguments event_bus_ {D B} _.
Arguments alarms_ {D B} _.
Arguments last_occurrence_ {D B} _.
Arguments recurrence_count_ {D B} _.
Arguments alarm_history_ {D B} _.
Arguments stats_ {D B} _.

Definition MAX_HISTORY_SIZE : nat := 1000.

Section AlarmManager.
Context {D B : Type} `{!IDataStore D} `{!IEventBus AlarmEvent B}.
Implicit Types (s : AlarmManager D B) (cs : AlarmConfiguration).

Definition newAlarmManager (ds : option D) (eb : option B) : AlarmManager D B :=
  mkAlarmManager ds eb ∅ ∅ ∅ [] (mkAlarmStats 0 0 0 0 0 0).

(** *** Field updates *)

Definition set_data_store (ds : option D) s :=
  mkAlarmManager ds (event_bus_ s) (alarms_ s) (last_occurrence_ s) (recurrence_count_ s)
    (alarm_history_ s) (stats_ s).
Definition set_event_bus (eb : option B) s :=
  mkAlarmManager (data_store_ s) eb (alarms_ s) (last_occurrence_ s) (recurrence_count_ s)
    (alarm_history_ s) (stats_ s).
Definition set_alarms (m : gmap string AlarmDto) s :=
  mkAlarmManager (data_store_ s) (event_bus_ s) m (last_occurrence_ s) (recurrence_count_ s)
    (alarm_history_ s) (stats_ s).
Definition set_recurrence (lo rc : gmap string Z) s :=
  mkAlarmManager (data_store_ s) (event_bus_ s) (alarms_ s) lo rc (alarm_history_ s) (stats_ s).
Definition set_history (h : list AlarmDto) s :=
  mkAlarmManager (data_store_ s) (event_bus_ s) (alarms_ s) (last_occurrence_ s)
    (recurrence_count_ s) h (stats_ s).
Definition set_stats (st : AlarmStats) s :=
  mkAlarmManager (data_store_ s) (event_bus_ s) (alarms_ s) (last_occurrence_ s)
    (recurrence_count_ s) (alarm_history_ s) st.

(** *** Private helpers *)

(** [operator[]] of the map inserts 0 for a missing code. *)
Definition checkRecurrence (now : Z) (code : string) cs s : Z * AlarmManager D B :=
  let counts := recurrence_count_ s in
  let counts :=
    match last_occurrence_ s !! code with
    | Some last =>
      match getAlarmConfig code cs with
      | Some config =>
        let elapsed := Z.quot (now - last) 1000000000 in
        if elapsed <=? recurrence_window config
        then <[code := u32 (default 0 (counts !! code) + 1)]> counts
        else <[code := 1]> counts
      | None => counts
      end
    | None => <[code := 1]> counts
    end in
  let n := default 0 (counts !! code) in
  (n, set_recurrence (<[code := now]> (last_occurrence_ s)) (<[code := n]> counts) s).

Definition checkEscalation (code : string) (recurrence : Z) cs : AlarmSeverity :=
  shouldEscalateSeverity code recurrence cs.

Definition optional_field (k : string) (v : option any_field) : list (string * any_field) :=
  match v with Some x => [(k, x)] | None => [] end.

Definition to_time_t (ts : Z) : any_field := FieldTime (Z.quot ts 1000000000).

(** The [std::map] of the stored alarm; its keys are distinct. *)
Definition alarm_data (a : AlarmDto) : list (string * any_field) :=
  [("alarm_id", FieldString (alarm_id a)); ("alarm_code", FieldString (alarm_code a));
   ("alarm_name", FieldString (alarm_name a)); ("severity", FieldInt (sev_val (severity a)));
   ("state", FieldInt (match state a with ACTIVE => 0 | ACKNOWLEDGED => 1 | RESOLVED => 2 end));
   ("details", FieldString (default "" (details a))); ("source", FieldString (source a));
   ("timestamp", to_time_t (alarm_timestamp a));
   ("recurrence_count", FieldUInt32 (recurrence_count a))]
  ++ optional_field "acknowledged_by" (FieldString <$> acknowledged_by a)
  ++ optional_field "acknowledged_time" (to_time_t <$> acknowledged_time a)
  ++ optional_field "resolved_time" (to_time_t <$> resolved_time a).

Definition active_count_entry s : string * any_value * DataType :=
  ("alarm/active_count", AnyInt (i32 (active_count (stats_ s))), AlarmData).

Definition storeToDataStore (a : AlarmDto) s : AlarmManager D B :=
  match data_store_ s with
  | None => s
  | Some ds =>
    set_data_store (Some (ds_set_all
      [(("alarm/" +:+ alarm_id a)%string, AnyMap (alarm_data a), AlarmData);
       active_count_entry s] ds)) s
  end.

Definition publish (e : AlarmEvent) s : AlarmManager D B :=
  match event_bus_ s with
  | None => s
  | Some eb => set_event_bus (Some (eb_publish e eb)) s
  end.

Definition publishEvent (a : AlarmDto) s : AlarmManager D B :=
  publish (AlarmRaisedEvent (alarm_id a) (alarm_code a) (severity a) (alarm_name a) (source a)) s.

Definition publishClearEvent (id type : string) s : AlarmManager D B :=
  publish (AlarmClearedEvent id type "system") s.

Definition publishEscalateEvent (a : AlarmDto) (old : AlarmSeverity) s : AlarmManager D B :=
  publish (AlarmEscalatedEvent (alarm_id a) (alarm_code a) old (severity a) (i32 (recurrence_count a))) s.

(** [push_back], then drop the oldest entry when the limit is exceeded. *)
Definition push_history (a : AlarmDto) s : AlarmManager D B :=
  let h := alarm_history_ s ++ [a] in
  set_history (if (MAX_HISTORY_SIZE <? length h)%nat then tail h else h) s.

Definition sev_count (sv : AlarmSeverity) (st : AlarmStats) : Z :=
  match sv with
  | CRITICAL => critical_count st
  | WARNING => warning_count st
  | INFO => info_count st
  end.

Definition add_sev (sv : AlarmSeverity) (d : Z) (st : AlarmStats) : AlarmStats :=
  let '(mkAlarmStats t a r c w i) := st in
  match sv with
  | CRITICAL => mkAlarmStats t a r (u64 (c + d)) w i
  | WARNING => mkAlarmStats t a r c (u64 (w + d)) i
  | INFO => mkAlarmStats t a r c w (u64 (i + d))
  end.

Definition count_raise (sv : AlarmSeverity) (st : AlarmStats) : AlarmStats :=
  let '(mkAlarmStats t a r c w i) := st in
  add_sev sv 1 (mkAlarmStats (u64 (t + 1)) (u64 (a + 1)) r c w i).

Definition count_resolve (sv : AlarmSeverity) (st : AlarmStats) : AlarmStats :=
  let '(mkAlarmStats t a r c w i) := st in
  add_sev sv (-1) (mkAlarmStats t (u64 (a - 1)) (u64 (r + 1)) c w i).

(** *** Public operations *)

(** [now1] is read by [checkRecurrence], [now2] by the constructor of the alarm. *)
Definition raiseAlarm (now1 now2 : Z) (code src : string) (det : option string) cs s :
    option AlarmDto * AlarmManager D B :=
  match getAlarmConfig code cs with
  | None => (None, s)
  | Some config =>
    let '(recurrence, s) := checkRecurrence now1 code cs s in
    let base_severity := cfg_severity config in
    let sev := checkEscalation code recurrence cs in
    let alarm := newAlarmDto now2 code (cfg_name config) sev src in
    let alarm := match det with Some d => setDetails d alarm | None => alarm end in
    let alarm := setRecurrenceCount recurrence alarm in
    let s := set_alarms (<[alarm_id alarm := alarm]> (alarms_ s)) s in
    let s := set_stats (count_raise sev (stats_ s)) s in
    let s := push_history alarm s in
    let s := storeToDataStore alarm s in
    let s := if (sev_val base_severity <? sev_val sev) && (1 <? recurrence)
             then publishEscalateEvent alarm base_severity s
             else publishEvent alarm s in
    (Some alarm, s)
  end.

Definition getAlarm (id : string) s : option AlarmDto := alarms_ s !! id.

(** [std::sort] by severity; the order of equally severe alarms is unspecified. *)
Definition sev_le (a b : AlarmDto) : Prop := sev_val (severity a) <= sev_val (severity b).

#[export] Instance sev_le_dec a b : Decision (sev_le a b).
Proof. unfold sev_le. apply _. Defined.

Definition getActiveAlarms s : list AlarmDto :=
  merge_sort sev_le (filter (λ a, isActive a = true) (map_to_list (alarms_ s)).*2).

Definition getActiveAlarmsBySeverity (sv : AlarmSeverity) s : list AlarmDto :=
  filter (λ a, isActive a = true /\ severity a = sv) (map_to_list (alarms_ s)).*2.

Definition newest_first (a b : AlarmDto) : Prop := alarm_timestamp b <= alarm_timestamp a.

#[export] Instance newest_first_dec a b : Decision (newest_first a b).
Proof. unfold newest_first. apply _. Defined.

#[export] Instance newest_first_total : Total newest_first.
Proof. intros a b. unfold newest_first. lia. Qed.

Definition getAlarmHistory (limit : nat) s : list AlarmDto :=
  merge_sort newest_first (rev (lastn limit (alarm_history_ s))).

Definition acknowledgeAlarm (now : Z) (id by_ : string) s : bool * AlarmManager D B :=
  match alarms_ s !! id with
  | None => (false, s)
  | Some a => (true, set_alarms (<[id := acknowledge now by_ a]> (alarms_ s)) s)
  end.

Definition resolveAlarm (now : Z) (id : string) s : bool * AlarmManager D B :=
  match alarms_ s !! id with
  | None => (false, s)
  | Some a =>
    if negb (isActive a) then (false, s)
    else
      let a := resolve now a in
      let s := set_alarms (<[id := a]> (alarms_ s)) s in
      let s := set_stats (count_resolve (severity a) (stats_ s)) s in
      let s := push_history a s in
      let s := match data_store_ s with
               | None => s
               | Some ds => set_data_store (Some (ds_set_all [active_count_entry s] ds)) s
               end in
      (true, publishClearEvent id (alarm_code a) s)
  end.

(** Each alarm reads the clock in its own turn: [now id]. *)
Definition resetAllAlarms (now : string -> Z) s : Z * AlarmManager D B :=
  let n := Z.of_nat (size (filter (λ kv, isActive (snd kv) = true) (alarms_ s))) in
  let s := set_alarms
    (map_imap (λ id a, Some (if isActive a then resolve (now id) a else a)) (alarms_ s)) s in
  let '(mkAlarmStats t _ r _ _ _) := stats_ s in
  (n, set_stats (mkAlarmStats t 0 (u64 (r + n)) 0 0 0) s).

Definition hasCriticalAlarm s : bool := 0 <? critical_count (stats_ s).

Definition getStatistics s : AlarmStats := stats_ s.

(** *** Runs *)

Inductive AlarmOp :=
| Raise (now1 now2 : Z) (code src : string) (det : option string)
| Acknowledge (now : Z) (id by_ : string)
| Resolve (now : Z) (id : string)
| ResetAll (now : string -> Z).

Definition alarm_exec cs (o : AlarmOp) s : AlarmManager D B :=
  match o with
  | Raise now1 now2 code src det => snd (raiseAlarm now1 now2 code src det cs s)
  | Acknowledge now id by_ => snd (acknowledgeAlarm now id by_ s)
  | Resolve now id => snd (resolveAlarm now id s)
  | ResetAll now => snd (resetAllAlarms now s)
  end.

Definition alarm_run cs (os : list AlarmOp) s : AlarmManager D B :=
  foldl (λ s o, alarm_exec cs o s) s os.

Definition is_reset (o : AlarmOp) : bool := match o with ResetAll _ => true | _ => false end.

(** *** What each operation does to the table and to the counters *)

Lemma push_history_alarms a s : alarms_ (push_history a s) = alarms_ s.
Proof. done. Qed.
Lemma push_history_stats a s : stats_ (push_history a s) = stats_ s.
Proof. done. Qed.
Lemma storeToDataStore_alarms a s : alarms_ (storeToDataStore a s) = alarms_ s.
Proof. unfold storeToDataStore. by case_match. Qed.
Lemma storeToDataStore_stats a s : stats_ (storeToDataStore a s) = stats_ s.
Proof. unfold storeToDataStore. by case_match. Qed.
Lemma storeToDataStore_bus a s : event_bus_ (storeToDataStore a s) = event_bus_ s.
Proof. unfold storeToDataStore. by case_match. Qed.
Lemma storeToDataStore_history a s : alarm_history_ (storeToDataStore a s) = alarm_history_ s.
Proof. unfold storeToDataStore. by case_match. Qed.
Lemma publish_alarms e s : alarms_ (publish e s) = alarms_ s.
Proof. unfold publish. by case_match. Qed.
Lemma publish_stats e s : stats_ (publish e s) = stats_ s.
Proof. unfold publish. by case_match. Qed.
Lemma publish_history e s : alarm_history_ (publish e s) = alarm_history_ s.
Proof. unfold publish. by case_match. Qed.

#[local] Hint Rewrite push_history_alarms push_history_stats storeToDataStore_alarms
  storeToDataStore_stats storeToDataStore_bus storeToDataStore_history
  publish_alarms publish_stats publish_history : mxrc.

Ltac effects := unfold publishEvent, publishClearEvent, publishEscalateEvent;
  repeat (progress (autorewrite with mxrc; simpl)).

(** Raising an alarm: one active entry and one counted severity; the event is
    the ordinary one because the severity never has a larger value than its
    configured base. *)
Lemma raiseAlarm_effect now1 now2 code src det cs s c :
  getAlarmConfig code cs = Some c ->
  exists a s1, raiseAlarm now1 now2 code src det cs s = (Some a, publishEvent a s1) /\
    recurrence_count a = fst (checkRecurrence now1 code cs s) /\
    severity a = shouldEscalateSeverity code (fst (checkRecurrence now1 code cs s)) cs /\
    state a = ACTIVE /\ alarm_id a = make_alarm_id code now2 /\ alarm_code a = code /\
    alarms_ s1 = <[alarm_id a := a]> (alarms_ s) /\
    stats_ s1 = count_raise (severity a) (stats_ s) /\
    alarm_history_ s1 = alarm_history_ (push_history a s) /\
    recurrence_count_ s1 = recurrence_count_ (snd (checkRecurrence now1 code cs s)) /\
    last_occurrence_ s1 = last_occurrence_ (snd (checkRecurrence now1 code cs s)) /\
    event_bus_ s1 = event_bus_ s.
Proof.
  intros Hc. unfold raiseAlarm. rewrite Hc.
  destruct (checkRecurrence now1 code cs s) as [n s'] eqn:Hrec.
  assert (Hs' : alarms_ s' = alarms_ s /\ stats_ s' = stats_ s /\
                alarm_history_ s' = alarm_history_ s /\ event_bus_ s' = event_bus_ s).
  { unfold checkRecurrence in Hrec. by simplify_eq/=. }
  destruct Hs' as (Ha & Hst & Hh & Hb).
  pose proof (severity_never_less_severe code n cs c Hc) as Hsev.
  unfold checkEscalation. rewrite (proj2 (Z.ltb_ge _ _)) by done. rewrite andb_false_l.
  eexists _, _. split; [reflexivity|].
  split_and!; destruct det; effects; try done; rewrite ?Ha, ?Hst; try done.
  all: try (by rewrite Hh).
  all: unfold storeToDataStore; by case_match.
Qed.

Lemma resolveAlarm_effect now id s a :
  alarms_ s !! id = Some a -> isActive a = true ->
  fst (resolveAlarm now id s) = true /\
  alarms_ (snd (resolveAlarm now id s)) = <[id := resolve now a]> (alarms_ s) /\
  stats_ (snd (resolveAlarm now id s)) = count_resolve (severity a) (stats_ s).
Proof.
  intros Hid Hact. unfold resolveAlarm. rewrite Hid, Hact. simpl.
  split; [done|]. case_match; effects; by rewrite resolve_severity.
Qed.

Lemma sev_count_raise sv sv' st :
  sev_count sv (count_raise sv' st) =
    if bool_decide (sv = sv') then u64 (sev_count sv st + 1) else sev_count sv st.
Proof. destruct st. by destruct sv, sv'. Qed.

Lemma sev_count_resolve sv sv' st :
  sev_count sv (count_resolve sv' st) =
    if bool_decide (sv = sv') then u64 (sev_count sv st - 1) else sev_count sv st.
Proof. destruct st. by destruct sv, sv'. Qed.

(** *** Counters never under-count

    For a set of live alarm states that contains ACTIVE and not RESOLVED, the
    counter of every severity is at least the number of live alarms of that
    severity, and at most the number of calls made. *)

Section counting.
Context (live : AlarmState -> bool) (live_active : live ACTIVE = true)
  (live_resolved : live RESOLVED = false).

Definition live_sev (sv : AlarmSeverity) (a : AlarmDto) : bool :=
  live (state a) && bool_decide (severity a = sv).

Definition counts_ok (n : Z) s : Prop :=
  forall sv, Z.of_nat (live_size (live_sev sv) (alarms_ s)) <= sev_count sv (stats_ s) <= n.

Lemma counts_new ds eb : counts_ok 0 (newAlarmManager ds eb).
Proof. intros sv. rewrite live_size_none by done. by destruct sv. Qed.

Lemma counts_mono n n' s : n <= n' -> counts_ok n s -> counts_ok n' s.
Proof. intros Hn H sv. specialize (H sv). lia. Qed.

Lemma counts_raise n now1 now2 code src det cs s :
  0 <= n < 2 ^ 64 - 1 -> counts_ok n s ->
  counts_ok (n + 1) (snd (raiseAlarm now1 now2 code src det cs s)).
Proof using live_active.
  intros Hn H. destruct (getAlarmConfig code cs) as [c|] eqn:Hc.
  2:{ unfold raiseAlarm. rewrite Hc. apply (counts_mono n); [lia|done]. }
  destruct (raiseAlarm_effect now1 now2 code src det cs s c Hc)
    as (a & s1 & -> & _ & _ & Hst & _ & _ & Ha & Hstats & _).
  intros sv. specialize (H sv). simpl. effects. rewrite Ha, Hstats, sev_count_raise.
  pose proof (live_size_insert_le (live_sev sv) (alarm_id a) a (alarms_ s)) as Hle.
  unfold live_sev at 3 in Hle. rewrite Hst, live_active in Hle. simpl in Hle.
  destruct (decide (sv = severity a)) as [Hsv|Hsv].
  - rewrite (bool_decide_true (severity a = sv)) in Hle by done. rewrite bool_decide_true by done.
    rewrite u64_small by (unfold in_u64; lia). lia.
  - rewrite (bool_decide_false (severity a = sv)) in Hle by congruence.
    rewrite bool_decide_false by done. lia.
Qed.

Lemma counts_resolve n now id s :
  0 <= n < 2 ^ 64 -> counts_ok n s -> counts_ok n (snd (resolveAlarm now id s)).
Proof using live_active live_resolved.
  intros Hn H. destruct (alarms_ s !! id) as [a|] eqn:Hid.
  2:{ unfold resolveAlarm. by rewrite Hid. }
  destruct (isActive a) eqn:Hact.
  2:{ unfold resolveAlarm. by rewrite Hid, Hact. }
  destruct (resolveAlarm_effect now id s a Hid Hact) as (_ & Ha & Hst).
  intros sv. specialize (H sv). rewrite Ha, Hst, sev_count_resolve.
  unfold isActive in Hact. apply bool_decide_eq_true in Hact.
  assert (Hdead : live_sev sv (resolve now a) = false).
  { unfold live_sev. by rewrite resolve_state, live_resolved. }
  case_bool_decide as Hsv.
  - assert (Hlive : live_sev sv a = true).
    { unfold live_sev. rewrite Hact, live_active. simpl. by apply bool_decide_eq_true. }
    pose proof (live_size_kill (live_sev sv) id a _ _ Hid Hlive Hdead).
    rewrite u64_small by (unfold in_u64; lia). lia.
  - rewrite (live_size_update_same (live_sev sv) id a); [done|done|].
    rewrite Hdead. unfold live_sev. rewrite (bool_decide_false (severity a = sv)) by congruence.
    apply andb_false_r.
Qed.

Lemma counts_acknowledge n now id by_ s :
  counts_ok n s -> counts_ok n (snd (acknowledgeAlarm now id by_ s)).
Proof using live_active.
  intros H sv. specialize (H sv). unfold acknowledgeAlarm.
  destruct (alarms_ s !! id) as [a|] eqn:Hid; simpl; [|done].
  assert (Z.of_nat (live_size (live_sev sv) (<[id := acknowledge now by_ a]> (alarms_ s)))
          <= Z.of_nat (live_size (live_sev sv) (alarms_ s))); [|lia].
  destruct (live_sev sv (acknowledge now by_ a)) eqn:Hl.
  - rewrite (live_size_update_same _ id a); [done|done|]. rewrite Hl.
    unfold live_sev in *. rewrite acknowledge_state, acknowledge_severity in Hl.
    apply andb_true_iff in Hl as [Hl ->]. rewrite andb_true_r.
    case_bool_decide as Hst; [by rewrite Hst, live_active|done].
  - pose proof (live_size_insert_le (live_sev sv) id (acknowledge now by_ a) (alarms_ s)) as Hle.
    rewrite Hl in Hle. lia.
Qed.

Lemma counts_reset n now s :
  live ACKNOWLEDGED = false -> 0 <= n -> counts_ok n s -> counts_ok n (snd (resetAllAlarms now s)).
Proof using live_active live_resolved.
  intros Hack Hn H sv. unfold resetAllAlarms. destruct (stats_ _) eqn:Hst. simpl.
  rewrite live_size_none; [by destruct sv|].
  intros i x Hi. rewrite map_lookup_imap in Hi.
  destruct (alarms_ s !! i) as [a|]; simplify_eq/=.
  unfold live_sev. case_match eqn:Hact; [by rewrite resolve_state, live_resolved|].
  unfold isActive in Hact. apply bool_decide_eq_false in Hact.
  destruct (state a); [done| |]; by rewrite ?Hack, ?live_resolved.
Qed.

Lemma counts_run cs os n s :
  live ACKNOWLEDGED = false \/ forallb (negb ∘ is_reset) os = true ->
  0 <= n -> n + Z.of_nat (length os) < 2 ^ 64 -> counts_ok n s ->
  counts_ok (n + Z.of_nat (length os)) (alarm_run cs os s).
Proof using live_active live_resolved.
  revert n s. induction os as [|o os IH]; intros n s Hr Hn Hlen H.
  { by rewrite Z.add_0_r. }
  cbn [length] in *. rewrite Nat2Z.inj_succ in *. replace (n + Z.succ _) with (n + 1 + Z.of_nat (length os)) by lia.
  unfold alarm_run; simpl. apply IH; [|lia..|].
  { destruct Hr as [|Hr]; [by left|right]. simpl in Hr. by apply andb_true_iff in Hr as [_ ?]. }
  destruct o; simpl.
  - apply counts_raise; [lia|done].
  - by apply (counts_mono n); [lia|]; apply counts_acknowledge.
  - apply (counts_mono n); [lia|]; apply counts_resolve; [lia|done].
  - apply (counts_mono n); [lia|]; apply counts_reset; [|lia|done].
    by destruct Hr as [|Hr].
Qed.
End counting.

Lemma active_critical_reported cs os ds eb id a :
  Z.of_nat (length os) < 2 ^ 64 ->
  getAlarm id (alarm_run cs os (newAlarmManager ds eb)) = Some a ->
  state a = ACTIVE -> severity a = CRITICAL ->
  hasCriticalAlarm (alarm_run cs os (newAlarmManager ds eb)) = true.
Proof.
  intros Hlen Hid Hst Hsv. pose (live := fun st => bool_decide (st = ACTIVE)).
  pose proof (counts_run live eq_refl eq_refl cs os 0 (newAlarmManager ds eb)
    (or_introl eq_refl) ltac:(lia) ltac:(lia) (counts_new live ds eb) CRITICAL) as [H _].
  unfold getAlarm in Hid.
  pose proof (live_size_pos (live_sev live CRITICAL) id a _ Hid) as Hpos.
  unfold live_sev, live in Hpos. rewrite Hst, Hsv in Hpos. specialize (Hpos eq_refl).
  unfold hasCriticalAlarm. apply Z.ltb_lt. simpl in H. unfold live_sev, live in H. lia.
Qed.

(** An active critical alarm is never overlooked.  After any sequence of
    raise, acknowledge, resolve and reset calls (fewer than 2^64), if some
    alarm is ACTIVE and CRITICAL then hasCriticalAlarm reports it, although it
    only looks at a counter. *)
Theorem active_critical_alarm_is_reported cs os ds eb id a :
  Z.of_nat (length os) < 2 ^ 64 ->
  getAlarm id (alarm_run cs os (newAlarmManager ds eb)) = Some a ->
  state a = ACTIVE -> severity a = CRITICAL ->
  hasCriticalAlarm (alarm_run cs os (newAlarmManager ds eb)) = true.
Proof. apply active_critical_reported. Qed.

(** Acknowledging an alarm removes the way to resolve it.  In a run
    without resetAllAlarms, an acknowledged critical alarm keeps
    hasCriticalAlarm true, and resolveAlarm refuses it and changes nothing. *)
Theorem acknowledged_critical_alarm_latches cs os ds eb id a now :
  Z.of_nat (length os) < 2 ^ 64 -> forallb (negb ∘ is_reset) os = true ->
  let s := alarm_run cs os (newAlarmManager ds eb) in
  getAlarm id s = Some a -> state a = ACKNOWLEDGED -> severity a = CRITICAL ->
  hasCriticalAlarm s = true /\ resolveAlarm now id s = (false, s).
Proof.
  intros Hlen Hnr s Hid Hst Hsv. pose (live := fun st => bool_decide (st <> RESOLVED)).
  pose proof (counts_run live eq_refl eq_refl cs os 0 (newAlarmManager ds eb)
    (or_intror Hnr) ltac:(lia) ltac:(lia) (counts_new live ds eb) CRITICAL) as [H _].
  unfold getAlarm in Hid.
  pose proof (live_size_pos (live_sev live CRITICAL) id a _ Hid) as Hpos.
  unfold live_sev, live in Hpos. rewrite Hst, Hsv in Hpos. specialize (Hpos eq_refl).
  split.
  - unfold hasCriticalAlarm. apply Z.ltb_lt. simpl in H. unfold live_sev, live in H. subst s. lia.
  - unfold resolveAlarm. rewrite Hid. unfold isActive. by rewrite Hst.
Qed.

(** Raising a known alarm always publishes the ordinary AlarmRaisedEvent
    of the returned alarm and nothing else, also when the recurrence escalated
    its severity; an unknown code publishes nothing and changes nothing. The
    test [severity > base_severity] that selects AlarmEscalatedEvent compares
    values of which the more severe is the smaller one. *)
Theorem escalation_event_never_published now1 now2 code src det cs s :
  match raiseAlarm now1 now2 code src det cs s with
  | (None, s') => getAlarmConfig code cs = None /\ s' = s
  | (Some a, s') =>
    event_bus_ s' = eb_publish (AlarmRaisedEvent (alarm_id a) (alarm_code a) (severity a)
                                  (alarm_name a) (source a)) <$> event_bus_ s
  end.
Proof.
  destruct (getAlarmConfig code cs) as [c|] eqn:Hc.
  - destruct (raiseAlarm_effect now1 now2 code src det cs s c Hc)
      as (a & s1 & -> & _ & _ & _ & _ & _ & _ & _ & _ & _ & _ & Hb).
    rewrite <- Hb. unfold publishEvent, publish. by destruct (event_bus_ s1) eqn:E; simpl; rewrite ?E.
  - unfold raiseAlarm. by rewrite Hc.
Qed.

(** *** Recurrence

    The times at which a code was raised, latest first, and the length of the
    burst that ends with the latest of them: the raises no further apart than
    the window. *)

Definition raise_time (code : string) (o : AlarmOp) : option Z :=
  match o with
  | Raise now1 _ c _ _ => if String.eqb c code then Some now1 else None
  | _ => None
  end.

Definition raise_times (code : string) (os : list AlarmOp) : list Z :=
  rev (omap (raise_time code) os).

Fixpoint burst_length (window : Z) (ts : list Z) : Z :=
  match ts with
  | [] => 0
  | t :: rest =>
    match rest with
    | [] => 1
    | t' :: _ => if Z.quot (t - t') 1000000000 <=? window then burst_length window rest + 1 else 1
    end
  end.

Definition recurrence_ok (code : string) (window : Z) (ts : list Z) s : Prop :=
  last_occurrence_ s !! code = head ts /\
  (ts <> [] -> recurrence_count_ s !! code = Some (u32 (burst_length window ts))).

Lemma checkRecurrence_other now code code' cs s :
  code <> code' ->
  last_occurrence_ (snd (checkRecurrence now code' cs s)) !! code = last_occurrence_ s !! code /\
  recurrence_count_ (snd (checkRecurrence now code' cs s)) !! code = recurrence_count_ s !! code.
Proof.
  intros Hne. unfold checkRecurrence. simpl. split; [by rewrite lookup_insert_ne|].
  rewrite lookup_insert_ne by done. repeat case_match; by rewrite ?lookup_insert_ne.
Qed.

Lemma checkRecurrence_burst now code cs c ts s :
  getAlarmConfig code cs = Some c -> recurrence_ok code (recurrence_window c) ts s ->
  fst (checkRecurrence now code cs s) = u32 (burst_length (recurrence_window c) (now :: ts)) /\
  recurrence_ok code (recurrence_window c) (now :: ts) (snd (checkRecurrence now code cs s)).
Proof.
  intros Hc [Hl Hn].
  assert (H : fst (checkRecurrence now code cs s) =
    u32 (burst_length (recurrence_window c) (now :: ts))).
  { unfold checkRecurrence. rewrite Hl. simpl. destruct ts as [|t ts]; simpl.
    { by rewrite lookup_insert_eq. }
    rewrite Hc, (Hn ltac:(done)). case_match; rewrite lookup_insert_eq; simpl; [|done].
    apply u32_succ. }
  split; [done|]. split; [simpl; by rewrite lookup_insert_eq|].
  intros _. rewrite <- H. simpl. by rewrite lookup_insert_eq.
Qed.

Lemma exec_keeps_recurrence cs o s code :
  raise_time code o = None ->
  last_occurrence_ (alarm_exec cs o s) !! code = last_occurrence_ s !! code /\
  recurrence_count_ (alarm_exec cs o s) !! code = recurrence_count_ s !! code.
Proof.
  destruct o as [now1 now2 c src det|now id by_|now id|now]; simpl.
  - destruct (String.eqb_spec c code) as [->|Hne]; [done|]. intros _.
    destruct (getAlarmConfig c cs) as [cf|] eqn:Hc.
    2:{ unfold raiseAlarm. by rewrite Hc. }
    destruct (raiseAlarm_effect now1 now2 c src det cs s cf Hc)
      as (a & s1 & -> & _ & _ & _ & _ & _ & _ & _ & _ & Hr & Ho & _).
    destruct (checkRecurrence_other now1 code c cs s) as [Hl Hk]; [done|].
    simpl. unfold publishEvent, publish. case_match; simpl; by rewrite Hr, Ho.
  - unfold acknowledgeAlarm. by case_match.
  - intros _. unfold resolveAlarm, publishClearEvent, publish. repeat (case_match; simpl; try done).
  - intros _. unfold resetAllAlarms. by destruct (stats_ _).
Qed.

Lemma run_recurrence cs os ds eb code c :
  getAlarmConfig code cs = Some c ->
  recurrence_ok code (recurrence_window c) (raise_times code os)
    (alarm_run cs os (newAlarmManager ds eb)).
Proof.
  intros Hc. induction os as [|o os IH] using rev_ind; [done|].
  unfold alarm_run, raise_times in *. rewrite foldl_app, omap_app, rev_app_distr. simpl.
  set (s := foldl _ _ os) in *.
  destruct (raise_time code o) as [t|] eqn:Ht; simpl.
  - destruct o as [now1 now2 c' src det| | |]; try done. simpl in Ht.
    destruct (String.eqb_spec c' code) as [->|]; [|done]. simplify_eq.
    destruct (raiseAlarm_effect t now2 code src det cs s c Hc)
      as (a & s1 & Hr & _ & _ & _ & _ & _ & _ & _ & _ & Hk & Ho & _).
    destruct (checkRecurrence_burst t code cs c _ s Hc IH) as [_ [Hb1 Hb2]].
    cbn [alarm_exec]. rewrite Hr. unfold recurrence_ok, publishEvent, publish.
    simpl snd. case_match; simpl last_occurrence_; simpl recurrence_count_; by rewrite Hk, Ho.
  - destruct (exec_keeps_recurrence cs o s code Ht) as [H1 H2].
    unfold recurrence_ok. by rewrite H1, H2.
Qed.

(** Recurrence tracking and severity escalation.  After any sequence of
    calls, raising a configured code returns an ACTIVE alarm whose recurrence
    count (32 bits) is the length of the burst that the raise extends, that is
    the number of latest raises of this code with no gap above the configured
    window, and whose severity is the configured one, raised by one level
    exactly when the count has reached the threshold. *)
Theorem recurrence_escalates_severity cs os ds eb code c now1 now2 src det :
  getAlarmConfig code cs = Some c ->
  let n := u32 (burst_length (recurrence_window c) (now1 :: raise_times code os)) in
  exists a, fst (raiseAlarm now1 now2 code src det cs (alarm_run cs os (newAlarmManager ds eb)))
              = Some a /\
    state a = ACTIVE /\ recurrence_count a = n /\
    severity a = if recurrence_threshold c <=? n
                 then match cfg_severity c with INFO => WARNING | _ => CRITICAL end
                 else cfg_severity c.
Proof.
  intros Hc n. pose proof (run_recurrence cs os ds eb code c Hc) as Hrun.
  set (s := alarm_run cs os _) in *.
  destruct (checkRecurrence_burst now1 code cs c _ s Hc Hrun) as [Hn _].
  destruct (raiseAlarm_effect now1 now2 code src det cs s c Hc)
    as (a & s1 & -> & Hrec & Hsev & Hst & _).
  exists a. fold n in Hn. rewrite Hn in Hrec, Hsev. split_and!; [done..|].
  rewrite Hsev. unfold shouldEscalateSeverity. rewrite Hc. case_match; [|done].
  by destruct (cfg_severity c).
Qed.

(** *** History *)

(** The record an operation adds to the history: the raised alarm, or the
    alarm as resolved. *)
Definition history_entry cs (o : AlarmOp) s : option AlarmDto :=
  match o with
  | Raise now1 now2 code src det => fst (raiseAlarm now1 now2 code src det cs s)
  | Resolve now id =>
    match alarms_ s !! id with
    | Some a => if isActive a then Some (resolve now a) else None
    | None => None
    end
  | _ => None
  end.

Fixpoint alarm_log cs (os : list AlarmOp) s : list AlarmDto :=
  match os with
  | [] => []
  | o :: os =>
    option_list (history_entry cs o s) ++ alarm_log cs os (alarm_exec cs o s)
  end.

Lemma exec_history cs o s :
  alarm_history_ (alarm_exec cs o s) =
    match history_entry cs o s with
    | Some a => alarm_history_ (push_history a s)
    | None => alarm_history_ s
    end.
Proof.
  destruct o as [now1 now2 c src det|now id by_|now id|now]; simpl.
  - destruct (getAlarmConfig c cs) as [cf|] eqn:Hc.
    2:{ unfold raiseAlarm. by rewrite Hc. }
    destruct (raiseAlarm_effect now1 now2 c src det cs s cf Hc)
      as (a & s1 & -> & _ & _ & _ & _ & _ & _ & _ & Hh & _).
    simpl. effects. by rewrite Hh.
  - unfold acknowledgeAlarm. by case_match.
  - unfold resolveAlarm. case_match; [|done]. case_match eqn:Ha; simpl; effects.
    + by apply negb_true_iff in Ha as ->.
    + apply negb_false_iff in Ha as ->. simpl. by case_match.
  - unfold resetAllAlarms. by destruct (stats_ _).
Qed.

Lemma run_history cs os log s :
  alarm_history_ s = lastn MAX_HISTORY_SIZE log ->
  alarm_history_ (alarm_run cs os s) = lastn MAX_HISTORY_SIZE (log ++ alarm_log cs os s).
Proof.
  revert log s. induction os as [|o os IH]; intros log s H; cbn [alarm_log].
  { by rewrite app_nil_r. }
  rewrite app_assoc. unfold alarm_run. cbn [foldl]. apply IH. rewrite exec_history.
  destruct (history_entry cs o s) as [a|]; simpl; [|by rewrite app_nil_r].
  rewrite lastn_snoc by (unfold MAX_HISTORY_SIZE; lia). by rewrite H.
Qed.

(** The bounded history holds exactly the 1000 latest records, in order:
    after any run the history is the suffix of length at most 1000 of the log
    of all raised and resolved alarms, and getAlarmHistory(limit) returns the
    latest min(limit, 1000) of them, sorted from the newest timestamp. *)
Theorem history_keeps_latest_records cs os ds eb limit :
  let s := alarm_run cs os (newAlarmManager ds eb) in
  let log := alarm_log cs os (newAlarmManager ds eb) in
  alarm_history_ s = lastn MAX_HISTORY_SIZE log /\
  getAlarmHistory limit s ≡ₚ lastn (Nat.min limit MAX_HISTORY_SIZE) log /\
  Sorted newest_first (getAlarmHistory limit s).
Proof.
  intros s log. assert (H : alarm_history_ s = lastn MAX_HISTORY_SIZE log).
  { apply (run_history cs os [] (newAlarmManager ds eb)). done. }
  split; [done|]. unfold getAlarmHistory. split.
  - rewrite merge_sort_Permutation, <- Permutation_rev, H. by rewrite lastn_lastn.
  - apply Sorted_merge_sort, _.
Qed.
End AlarmManager.

(** ** Example runs *)

Module AlarmExamples.

Definition store := list (string * any_value * DataType).

Definition motor_config : AlarmConfig :=
  mkAlarmConfig "E001" "Motor overcurrent" WARNING "" None 60 2 false.
Definition config : AlarmConfiguration := addConfig motor_config ∅.

Definition sec : Z := 1000000000.
Definition raise_at (t : Z) : AlarmOp := Raise (t * sec) (t * sec) "E001" "motor" None.

Definition fresh : AlarmManager store (list AlarmEvent) := newAlarmManager (Some []) (Some []).

(** The second raise, 10 s after the first, is CRITICAL. *)
Definition two_raises : list AlarmOp := [raise_at 5; raise_at 15].
Definition second_id : string := make_alarm_id "E001" (15 * sec).

Definition acknowledged : list AlarmOp := two_raises ++ [Acknowledge (20 * sec) second_id "operator"].

End AlarmExamples.
Import AlarmExamples.

Lemma active_critical_alarm_is_reported_witness :
  hasCriticalAlarm (alarm_run config two_raises fresh) = true.
Proof.
  destruct (getAlarm second_id (alarm_run config two_raises fresh)) as [a|] eqn:E;
    [|vm_compute in E; discriminate].
  apply (active_critical_alarm_is_reported config two_raises (Some []) (Some []) second_id a);
    [reflexivity|exact E|..]; vm_compute in E; injection E as <-; reflexivity.
Defined.

Lemma acknowledged_critical_alarm_latches_witness :
  let s := alarm_run config acknowledged fresh in
  hasCriticalAlarm s = true /\ resolveAlarm (30 * sec) second_id s = (false, s).
Proof.
  destruct (getAlarm second_id (alarm_run config acknowledged fresh)) as [a|] eqn:E;
    [|vm_compute in E; discriminate].
  apply (acknowledged_critical_alarm_latches config acknowledged (Some []) (Some []) second_id a);
    [reflexivity|reflexivity|exact E|..]; vm_compute in E; injection E as <-; reflexivity.
Defined.

Lemma recurrence_escalates_severity_witness :
  exists a, fst (raiseAlarm (70 * sec) (70 * sec) "E001" "motor" None config
                  (alarm_run config two_raises fresh)) = Some a /\
    state a = ACTIVE /\ recurrence_count a = 3 /\ severity a = CRITICAL.
Proof.
  apply (recurrence_escalates_severity config two_raises (Some []) (Some []) "E001" motor_config).
  reflexivity.
Defined.
