(* ===== verification/Arbiter.v ===== *)
(** * BehaviorArbiter (src/core/control/impl/BehaviorArbiter.{h,cpp})

    The arbiter is written against four interfaces: the TBB queue of
    [BehaviorQueue], the tasks ([ITask]), the DataStore ([IDataStore]) and the
    alarm manager ([IAlarmManager]).  All calls into task objects act on the
    state [tasks_] of type [W] that the arbiter's record carries.  Public calls are
    made one after the other: calls of [requestBehavior] that overlap a [tick] on
    another thread are not modelled. *)

From S2P Require Import Prelude Control BehaviorQueue Interfaces Alarm AlarmManager.

(** ** What the arbiter uses of IAlarmManager *)

Class IAlarmManager (A : Type) := {
  has_critical_alarm : A -> bool;
  active_alarms_by_severity : AlarmSeverity -> A -> list AlarmDto
}.

#[export] Instance AlarmManager_view {D B} : IAlarmManager (AlarmManager D B) := {
  has_critical_alarm := hasCriticalAlarm;
  active_alarms_by_severity := getActiveAlarmsBySeverity
}.

(** ** State *)

Record ArbiterStats := mkArbiterStats {
  total_requests : Z;
  preemptions : Z;
  mode_transitions : Z;
  timeouts : Z
}.

Record BehaviorArbiter (Q T W D : Type) := mkArbiter {
  arb_data_store_ : option D;
  current_mode_ : ControlMode;
  pending_safe_mode_ : bool;
  pending_behaviors_ : BehaviorPriorityQueue Q;
  current_behavior_ : option (BehaviorRequest T);
  suspended_behaviors_ : gmap string (BehaviorRequest T);
  arb_stats_ : ArbiterStats;
  paused_ : bool;
  tasks_ : W
}.
Arguments mkArbiter {Q T W D}.
Arguments arb_data_store_ {Q T W D} _.
Arguments current_mode_ {Q T W D} _.
Arguments pending_safe_mode_ {Q T W D} _.
Arguments pending_behaviors_ {Q T W D} _.
Arguments current_behavior_ {Q T W D} _.
Arguments suspended_behaviors_ {Q T W D} _.
Arguments arb_stats_ {Q T W D} _.
Arguments paused_ {Q T W D} _.
Arguments tasks_ {Q T W D} _.

(** [stopCurrentTask]'s method argument, "cancel" or "pause". *)
Inductive StopMethod := Cancel | Pause.

Section BehaviorArbiter.
Context {Q T W D A : Type} `{!ConcurrentQueue Q (BehaviorRequest T)} `{!ITask T W}
  `{!IDataStore D} `{!IAlarmManager A}.
Implicit Types (s : BehaviorArbiter Q T W D) (r b : BehaviorRequest T) (am : A).

Definition newBehaviorArbiter (ds : option D) (w : W) : BehaviorArbiter Q T W D :=
  mkArbiter ds STANDBY false bpq_new None ∅ (mkArbiterStats 0 0 0 0) false w.

(** *** Field updates *)

Definition set_mode (ds : option D) (m : ControlMode) (st : ArbiterStats) s :=
  mkArbiter ds m (pending_safe_mode_ s) (pending_behaviors_ s) (current_behavior_ s)
    (suspended_behaviors_ s) st (paused_ s) (tasks_ s).
Definition set_safe_mode (x : bool) s :=
  mkArbiter (arb_data_store_ s) (current_mode_ s) x (pending_behaviors_ s) (current_behavior_ s)
    (suspended_behaviors_ s) (arb_stats_ s) (paused_ s) (tasks_ s).
Definition set_pending (q : BehaviorPriorityQueue Q) s :=
  mkArbiter (arb_data_store_ s) (current_mode_ s) (pending_safe_mode_ s) q (current_behavior_ s)
    (suspended_behaviors_ s) (arb_stats_ s) (paused_ s) (tasks_ s).
Definition set_current (x : option (BehaviorRequest T)) s :=
  mkArbiter (arb_data_store_ s) (current_mode_ s) (pending_safe_mode_ s) (pending_behaviors_ s) x
    (suspended_behaviors_ s) (arb_stats_ s) (paused_ s) (tasks_ s).
Definition set_suspended (m : gmap string (BehaviorRequest T)) s :=
  mkArbiter (arb_data_store_ s) (current_mode_ s) (pending_safe_mode_ s) (pending_behaviors_ s)
    (current_behavior_ s) m (arb_stats_ s) (paused_ s) (tasks_ s).
Definition set_arb_stats (st : ArbiterStats) s :=
  mkArbiter (arb_data_store_ s) (current_mode_ s) (pending_safe_mode_ s) (pending_behaviors_ s)
    (current_behavior_ s) (suspended_behaviors_ s) st (paused_ s) (tasks_ s).
Definition set_paused (x : bool) s :=
  mkArbiter (arb_data_store_ s) (current_mode_ s) (pending_safe_mode_ s) (pending_behaviors_ s)
    (current_behavior_ s) (suspended_behaviors_ s) (arb_stats_ s) x (tasks_ s).
Definition set_tasks (w : W) s :=
  mkArbiter (arb_data_store_ s) (current_mode_ s) (pending_safe_mode_ s) (pending_behaviors_ s)
    (current_behavior_ s) (suspended_behaviors_ s) (arb_stats_ s) (paused_ s) w.

Definition count_request (st : ArbiterStats) :=
  mkArbiterStats (u64 (total_requests st + 1)) (preemptions st) (mode_transitions st) (timeouts st).
Definition count_preemption (st : ArbiterStats) :=
  mkArbiterStats (total_requests st) (u64 (preemptions st + 1)) (mode_transitions st) (timeouts st).
Definition count_transition (st : ArbiterStats) :=
  mkArbiterStats (total_requests st) (preemptions st) (u64 (mode_transitions st + 1)) (timeouts st).

(** *** Operations *)

Definition requestBehavior r s : bool * BehaviorArbiter Q T W D :=
  let s := set_arb_stats (count_request (arb_stats_ s)) s in
  let '(ok, q) := bpq_push r (pending_behaviors_ s) in
  (ok, set_pending q s).

Definition getCurrentMode s : ControlMode := current_mode_ s.

Definition getCurrentTaskId s : string :=
  match current_behavior_ s with Some b => getId (task b) | None => "" end.

Definition getPendingBehaviorCount s : Z := bpq_size (pending_behaviors_ s).

Definition stopCurrentTask (method : StopMethod) s : BehaviorArbiter Q T W D :=
  match current_behavior_ s with
  | None => s
  | Some b =>
    match method with
    | Cancel => set_tasks (task_stop (task b) (tasks_ s)) s
    | Pause => set_tasks (task_pause (task b) (tasks_ s)) s
    end
  end.

Definition startTask b s : BehaviorArbiter Q T W D :=
  let s := set_current (Some b) s in
  set_tasks (task_start (task b) (tasks_ s)) s.

Definition clearPendingBehaviors s : BehaviorArbiter Q T W D :=
  set_suspended ∅ (set_pending (bpq_clear (pending_behaviors_ s)) s).

(** The three values a mode change writes; [n] is the new transition count. *)
Definition transition_entries (from to : ControlMode) (n : Z) : list (string * any_value * DataType) :=
  [("control/current_mode", AnyInt (mode_val to), RobotMode);
   ("control/mode_transition_history",
     AnyString (ControlMode_toString from +:+ " -> " +:+ ControlMode_toString to), Event);
   ("control/mode_transitions_count", AnyInt (i32 n), RobotMode)].

Definition transitionTo (newMode : ControlMode) s : bool * BehaviorArbiter Q T W D :=
  let current := current_mode_ s in
  if negb (isValidTransition current newMode) then (false, s)
  else
    let s :=
      if bool_decide (newMode = FAULT) then
        let s := match current_behavior_ s with
                 | Some _ => stopCurrentTask Cancel s
                 | None => s
                 end in
        clearPendingBehaviors s
      else s in
    let st := count_transition (arb_stats_ s) in
    let ds := ds_set_all (transition_entries current newMode (mode_transitions st))
                <$> arb_data_store_ s in
    (true, set_mode ds newMode st s).

Definition cancelBehavior (id : string) s : bool * BehaviorArbiter Q T W D :=
  let suspended_case :=
    if (suspended_behaviors_ s).[id]
    then (true, set_suspended (delete id (suspended_behaviors_ s)) s)
    else (false, s) in
  match current_behavior_ s with
  | Some b =>
    if String.eqb (behavior_id b) id then
      if negb (cancellable b) then (false, s)
      else (true, set_current None (stopCurrentTask Cancel s))
    else suspended_case
  | None => suspended_case
  end.

Definition pause s : bool * BehaviorArbiter Q T W D :=
  if paused_ s then (false, s)
  else
    let s := set_paused true s in
    (true, match current_behavior_ s with Some _ => stopCurrentTask Pause s | None => s end).

Definition resume s : bool * BehaviorArbiter Q T W D :=
  if negb (paused_ s) then (false, s)
  else
    let s := set_paused false s in
    (true, match current_behavior_ s with
           | Some b => set_tasks (task_resume (task b) (tasks_ s)) s
           | None => s
           end).

Definition selectNextBehavior s : option (BehaviorRequest T) * BehaviorArbiter Q T W D :=
  let '(r, q) := bpq_pop (pending_behaviors_ s) in (r, set_pending q s).

Definition shouldPreempt r s : bool :=
  match current_behavior_ s with
  | None => false
  | Some b =>
    if prio_val (priority r) <? prio_val (priority b) then canPreempt (priority r) else false
  end.

(** Pause the current task and keep it in [suspended_behaviors_]. *)
Definition suspend_current b s : BehaviorArbiter Q T W D :=
  let s := stopCurrentTask Pause s in
  set_current None (set_suspended (<[behavior_id b := b]> (suspended_behaviors_ s)) s).

Definition handlePreemption r s : BehaviorArbiter Q T W D :=
  match current_behavior_ s with
  | None => s
  | Some b =>
    let s := set_arb_stats (count_preemption (arb_stats_ s)) s in
    let s :=
      if bool_decide (priority r = EMERGENCY_STOP) then
        let s := set_current None (stopCurrentTask Cancel s) in
        snd (transitionTo FAULT s)
      else if bool_decide (priority r = SAFETY_ISSUE) then suspend_current b s
      else if bool_decide (priority r = URGENT_TASK) then
        if prio_val NORMAL_TASK <=? prio_val (priority b) then suspend_current b s else s
      else s in
    startTask r s
  end.

Definition checkCriticalAlarms am s : BehaviorArbiter Q T W D :=
  if has_critical_alarm am then
    if bool_decide (current_mode_ s <> FAULT) then snd (transitionTo FAULT s) else s
  else s.

Definition checkWarningAlarms am s : BehaviorArbiter Q T W D :=
  match active_alarms_by_severity WARNING am with
  | [] => s
  | _ :: _ =>
    let current := current_mode_ s in
    if bool_decide (current <> MAINT) && bool_decide (current <> FAULT)
       && negb (pending_safe_mode_ s) then
      match current_behavior_ s with
      | Some _ => set_safe_mode true s
      | None => snd (transitionTo MAINT s)
      end
    else s
  end.

(** The body is a TODO. *)
Definition removeTimedOutBehaviors s : BehaviorArbiter Q T W D := s.

Definition finished (st : TaskStatus) : bool :=
  bool_decide (st = TS_COMPLETED) || bool_decide (st = TS_FAILED) || bool_decide (st = TS_CANCELLED).

(** Step 6 of [tick]. *)
Definition start_next s : BehaviorArbiter Q T W D :=
  let '(next, s) := selectNextBehavior s in
  match next with Some r => startTask r s | None => s end.

(** Steps 3 to 6 of [tick]. *)
Definition tick_behaviors s : BehaviorArbiter Q T W D :=
  if paused_ s then s
  else
    let s := removeTimedOutBehaviors s in
    match current_behavior_ s with
    | Some b =>
      if finished (getStatus (task b) (tasks_ s)) then
        let s := set_current None s in
        if pending_safe_mode_ s
        then set_safe_mode false (snd (transitionTo MAINT s))
        else start_next s
      else
        let '(next, s) := selectNextBehavior s in
        match next with
        | Some r => if shouldPreempt r s then handlePreemption r s else s
        | None => s
        end
    | None => start_next s
    end.

Definition tick am s : BehaviorArbiter Q T W D :=
  let s := checkCriticalAlarms am s in
  let s := checkWarningAlarms am s in
  tick_behaviors s.

(** *** Runs *)

Inductive ArbiterOp :=
| RequestBehavior (r : BehaviorRequest T)
| Tick (am : A)
| TransitionTo (m : ControlMode)
| ClearPending
| CancelBehavior (id : string)
| PauseOp
| ResumeOp.

Definition arb_exec (o : ArbiterOp) s : BehaviorArbiter Q T W D :=
  match o with
  | RequestBehavior r => snd (requestBehavior r s)
  | Tick am => tick am s
  | TransitionTo m => snd (transitionTo m s)
  | ClearPending => clearPendingBehaviors s
  | CancelBehavior id => snd (cancelBehavior id s)
  | PauseOp => snd (pause s)
  | ResumeOp => snd (resume s)
  end.

Definition arb_run (os : list ArbiterOp) s : BehaviorArbiter Q T W D :=
  foldl (λ s o, arb_exec o s) s os.

(** *** Modes only move along permitted transitions

    [enter_mode] is what one accepted transition does to the mode, its counter
    and the DataStore. *)

Abbreviation mode_trace := (ControlMode * Z * option D)%type.

Definition trace_of s : mode_trace :=
  (current_mode_ s, mode_transitions (arb_stats_ s), arb_data_store_ s).

Definition enter_mode (t : mode_trace) (m : ControlMode) : mode_trace :=
  let '(cur, n, ds) := t in
  (m, u64 (n + 1), ds_set_all (transition_entries cur m (u64 (n + 1))) <$> ds).

Fixpoint mode_path (from : ControlMode) (ms : list ControlMode) : Prop :=
  match ms with
  | [] => True
  | m :: ms => mode_step from m /\ mode_path m ms
  end.

Definition moves s s' : Prop :=
  exists ms, mode_path (current_mode_ s) ms /\ trace_of s' = foldl enter_mode (trace_of s) ms.

Lemma foldl_enter_mode ms t :
  fst (fst (foldl enter_mode t ms)) = default (fst (fst t)) (last ms) /\
  (snd (fst t) = u64 (snd (fst t)) ->
   snd (fst (foldl enter_mode t ms)) = u64 (snd (fst t) + Z.of_nat (length ms))).
Proof.
  revert t. induction ms as [|m ms IH]; intros [[cur n] ds].
  { split; [done|]. intros H. by rewrite Z.add_0_r. }
  destruct (IH (enter_mode (cur, n, ds) m)) as [H1 H2]. cbn [foldl]. split.
  - rewrite H1, last_cons. by destruct (last ms).
  - intros _. rewrite H2 by (symmetry; apply u64_small, u64_bounds). cbn [enter_mode fst snd length].
    unfold u64, wrap. rewrite Zplus_mod_idemp_l. f_equal. lia.
Qed.

Lemma mode_path_app from ms1 ms2 :
  mode_path from (ms1 ++ ms2) <-> mode_path from ms1 /\ mode_path (default from (last ms1)) ms2.
Proof.
  revert from. induction ms1 as [|m ms1 IH]; intros from; [by simpl; split; [|intros [_ ?]]|].
  simpl app. cbn [mode_path]. rewrite IH, last_cons. destruct (last ms1); simpl; tauto.
Qed.

#[local] Instance moves_preorder : PreOrder moves.
Proof.
  split.
  - intros s. by exists [].
  - intros s1 s2 s3 (ms1 & Hp1 & H1) (ms2 & Hp2 & H2). exists (ms1 ++ ms2). split.
    + apply mode_path_app. split; [done|].
      destruct (foldl_enter_mode ms1 (trace_of s1)) as [Hm _]. rewrite <- H1 in Hm.
      simpl in Hm. by rewrite <- Hm.
    + by rewrite foldl_app, <- H1, H2.
Qed.

Lemma moves_same s s' : trace_of s' = trace_of s -> moves s s'.
Proof. intros H. exists []. by rewrite H. Qed.

Lemma stop_trace m s : trace_of (stopCurrentTask m s) = trace_of s.
Proof. unfold stopCurrentTask. by repeat case_match. Qed.

Lemma moves_transition m s : moves s (snd (transitionTo m s)).
Proof.
  unfold transitionTo. destruct (isValidTransition (current_mode_ s) m) eqn:Hv; simpl; [|done].
  exists [m]. split; [by split|]. unfold trace_of. simpl.
  case_match; [|done]. simpl.
  destruct (current_behavior_ s) eqn:E; [|done]. pose proof (stop_trace Cancel s) as Hs.
  unfold trace_of in Hs. injection Hs as _ H2 H3. by rewrite H2, H3.
Qed.

Lemma moves_select s : moves s (snd (selectNextBehavior s)).
Proof. apply moves_same. unfold selectNextBehavior. by destruct (bpq_pop _). Qed.

Lemma moves_start_next s : moves s (start_next s).
Proof.
  unfold start_next. destruct (selectNextBehavior s) as [[r|] s'] eqn:E;
  pose proof (moves_select s) as H; rewrite E in H; done.
Qed.

Lemma moves_preemption r s : moves s (handlePreemption r s).
Proof.
  unfold handlePreemption. destruct (current_behavior_ s) as [b|] eqn:E; [|done].
  case_bool_decide.
  - set (s1 := set_current None _). transitivity s1.
    { apply moves_same. subst s1. unfold trace_of, stopCurrentTask. simpl. by rewrite E. }
    transitivity (snd (transitionTo FAULT s1)); [apply moves_transition|by apply moves_same].
  - repeat case_match; apply moves_same; try done;
      unfold suspend_current, stopCurrentTask, trace_of; simpl; by rewrite E.
Qed.

Lemma moves_tick am s : moves s (tick am s).
Proof.
  unfold tick. transitivity (checkCriticalAlarms am s).
  { unfold checkCriticalAlarms. repeat case_match; [apply moves_transition|done|done]. }
  set (s1 := checkCriticalAlarms am s). transitivity (checkWarningAlarms am s1).
  { unfold checkWarningAlarms. repeat case_match; try done; [by apply moves_same|apply moves_transition]. }
  set (s2 := checkWarningAlarms am s1). unfold tick_behaviors, removeTimedOutBehaviors.
  case_match; [done|]. cbv zeta. destruct (current_behavior_ s2); [|apply moves_start_next].
  case_match.
  - transitivity (set_current None s2); [by apply moves_same|].
    case_match; [|apply moves_start_next].
    transitivity (snd (transitionTo MAINT (set_current None s2)));
      [apply moves_transition|by apply moves_same].
  - destruct (selectNextBehavior s2) as [[r|] s3] eqn:E;
      pose proof (moves_select s2) as Hsel; rewrite E in Hsel; [|done].
    case_match; [|done]. etrans; [exact Hsel|apply moves_preemption].
Qed.

Lemma moves_exec o s : moves s (arb_exec o s).
Proof.
  destruct o as [r|am|m| |id| |]; simpl.
  - apply moves_same. unfold requestBehavior. by destruct (bpq_push _ _).
  - apply moves_tick.
  - apply moves_transition.
  - by apply moves_same.
  - apply moves_same. unfold cancelBehavior. repeat case_match; try done. apply stop_trace.
  - apply moves_same. unfold pause. repeat case_match; try done. apply (stop_trace Pause (set_paused true s)).
  - apply moves_same. unfold resume. by repeat case_match.
Qed.

(** C5: the mode of the robot only ever changes along permitted transitions,
    and the audit trail is complete.  For every sequence of public calls on a
    new arbiter there is a list of modes that is a path of valid transitions
    from STANDBY, ends in the current mode, has mode_transitions (64 bits) as
    its length, and whose entries were written to the DataStore one by one, each
    with its transition text and its counter. *)
Theorem arbiter_mode_path_and_audit_trail os ds w :
  exists ms, mode_path STANDBY ms /\
    let s := arb_run os (newBehaviorArbiter ds w) in
    getCurrentMode s = default STANDBY (last ms) /\
    mode_transitions (arb_stats_ s) = u64 (Z.of_nat (length ms)) /\
    trace_of s = foldl enter_mode (STANDBY, 0, ds) ms.
Proof.
  assert (H : forall s, moves s (arb_run os s)).
  { unfold arb_run. induction os as [|o os IH]; intros s; [done|]. simpl.
    etrans; [apply moves_exec|apply IH]. }
  destruct (H (newBehaviorArbiter ds w)) as (ms & Hp & Ht). exists ms. split; [done|].
  destruct (foldl_enter_mode ms (STANDBY, 0, ds)) as [Hm Hn].
  unfold trace_of in Ht at 2. simpl in Ht. rewrite <- Ht in Hm, Hn. simpl. by split_and!; [|apply Hn|].
Qed.

(** *** Critical alarms *)

Context `{!ConcurrentQueueLaws Q (BehaviorRequest T)}.

Lemma transition_fault s :
  let s' := snd (transitionTo FAULT s) in
  fst (transitionTo FAULT s) = true /\ current_mode_ s' = FAULT /\
  bpq_rel (pending_behaviors_ s') [] /\ suspended_behaviors_ s' = ∅ /\
  current_behavior_ s' = current_behavior_ s /\ paused_ s' = paused_ s /\
  pending_safe_mode_ s' = pending_safe_mode_ s /\
  tasks_ s' = match current_behavior_ s with
              | Some b => task_stop (task b) (tasks_ s)
              | None => tasks_ s
              end.
Proof.
  pose proof (mode_step_fault (current_mode_ s)) as Hv. unfold mode_step in Hv.
  unfold transitionTo. rewrite Hv.
  simpl. unfold stopCurrentTask. destruct (current_behavior_ s) eqn:E; simpl;
    (split_and!; try done; constructor; simpl; by rewrite ?view_clear).
Qed.

Lemma transition_maint_from_fault s :
  current_mode_ s = FAULT -> transitionTo MAINT s = (false, s).
Proof. intros H. unfold transitionTo. by rewrite H. Qed.

Lemma select_nil s :
  bpq_rel (pending_behaviors_ s) [] -> selectNextBehavior s = (None, s).
Proof.
  intros H. unfold selectNextBehavior. rewrite (bpq_rel_pop_None _ [] H) by done. by destruct s.
Qed.

Lemma start_next_nil s : bpq_rel (pending_behaviors_ s) [] -> start_next s = s.
Proof. intros H. unfold start_next. by rewrite select_nil. Qed.

Lemma warning_in_fault am s : current_mode_ s = FAULT -> checkWarningAlarms am s = s.
Proof.
  intros H. unfold checkWarningAlarms. rewrite H. by destruct (active_alarms_by_severity WARNING am).
Qed.

Lemma critical_tick am s :
  has_critical_alarm am = true -> current_mode_ s <> FAULT ->
  let s' := tick am s in
  current_mode_ s' = FAULT /\ bpq_isEmpty (pending_behaviors_ s') = true /\
  suspended_behaviors_ s' = ∅ /\
  tasks_ s' = match current_behavior_ s with
              | Some b => task_stop (task b) (tasks_ s)
              | None => tasks_ s
              end.
Proof.
  intros Hc Hm. simpl. unfold tick, checkCriticalAlarms. rewrite Hc, bool_decide_true by done.
  destruct (transition_fault s) as (_ & Hf & Hq & Hs & Hb & Hp & Hps & Ht).
  set (s1 := snd (transitionTo FAULT s)) in *. clearbody s1.
  rewrite warning_in_fault by done. unfold tick_behaviors, removeTimedOutBehaviors.
  assert (Hgoal : forall s2, current_mode_ s2 = FAULT -> pending_behaviors_ s2 = pending_behaviors_ s1 ->
    suspended_behaviors_ s2 = ∅ -> tasks_ s2 = tasks_ s1 ->
    current_mode_ s2 = FAULT /\ bpq_isEmpty (pending_behaviors_ s2) = true /\
    suspended_behaviors_ s2 = ∅ /\ tasks_ s2 = match current_behavior_ s with
      | Some b => task_stop (task b) (tasks_ s) | None => tasks_ s end).
  { intros s2 -> -> -> ->. by rewrite (bpq_rel_empty _ [] Hq). }
  destruct (paused_ s1); [by apply Hgoal|]. cbv zeta.
  destruct (current_behavior_ s1); [|by rewrite start_next_nil; [apply Hgoal|]].
  destruct (finished _); [|by rewrite select_nil; [apply Hgoal|]].
  destruct (pending_safe_mode_ _); [|by rewrite start_next_nil; [apply Hgoal|]].
  rewrite (transition_maint_from_fault (set_current None s1) Hf). by apply Hgoal.
Qed.

Lemma fault_of_critical am s :
  has_critical_alarm am = true -> current_mode_ s <> FAULT -> current_mode_ (tick am s) = FAULT.
Proof. intros Hc Hm. by destruct (critical_tick am s Hc Hm). Qed.

(** C1: a critical alarm stops the robot within one tick.  If the alarm manager
    reports a critical alarm while the mode is not FAULT, the tick ends in
    FAULT with no pending and no suspended behaviour; the only task call it
    makes is stop() on the current task, and no task is started. *)
Theorem critical_alarm_forces_fault am s :
  has_critical_alarm am = true -> current_mode_ s <> FAULT ->
  let s' := tick am s in
  current_mode_ s' = FAULT /\ bpq_isEmpty (pending_behaviors_ s') = true /\
  suspended_behaviors_ s' = ∅ /\
  tasks_ s' = match current_behavior_ s with
              | Some b => task_stop (task b) (tasks_ s)
              | None => tasks_ s
              end.
Proof. apply critical_tick. Qed.

Lemma tick_keeps_fault am s : current_mode_ s = FAULT -> current_mode_ (tick am s) = FAULT.
Proof.
  intros H. unfold tick.
  assert (Hc : checkCriticalAlarms am s = s).
  { unfold checkCriticalAlarms. by rewrite H; case_match. }
  rewrite Hc, warning_in_fault by done. unfold tick_behaviors, start_next, selectNextBehavior.
  repeat (case_match; simplify_eq/=; try done).
  - rewrite transition_maint_from_fault; done.
  - unfold handlePreemption. simpl. repeat (case_match; simplify_eq/=; try done).
    all: unfold suspend_current, stopCurrentTask; simpl; repeat case_match; done.
Qed.

(** *** Ticks of a running and of an idle arbiter *)

(** The alarm checks of [tick] change nothing: no critical alarm or already in
    FAULT; no warning, or one that has been acted upon. *)
Definition alarms_quiet am s : bool :=
  (bool_decide (current_mode_ s = FAULT) || negb (has_critical_alarm am)) &&
  (bool_decide (active_alarms_by_severity WARNING am = []) || bool_decide (current_mode_ s = FAULT)
   || bool_decide (current_mode_ s = MAINT) || pending_safe_mode_ s).

Lemma tick_quiet am s : alarms_quiet am s = true -> tick am s = tick_behaviors s.
Proof.
  unfold alarms_quiet, tick. intros [Hc Hw]%andb_true_iff.
  assert (H1 : checkCriticalAlarms am s = s).
  { unfold checkCriticalAlarms. destruct (has_critical_alarm am); [|done].
    apply orb_true_iff in Hc as [Hc|Hc]; [|done]. apply bool_decide_eq_true in Hc.
    by rewrite bool_decide_false by (intros Hn; by apply Hn). }
  rewrite H1. f_equal. unfold checkWarningAlarms.
  destruct (active_alarms_by_severity WARNING am); [done|]. simpl in Hw.
  destruct (pending_safe_mode_ s); [by rewrite andb_false_r|]. rewrite orb_false_r in Hw.
  apply orb_true_iff in Hw as [Hw|Hw]; apply bool_decide_eq_true in Hw; by rewrite Hw.
Qed.

Lemma tick_running am s b r q :
  alarms_quiet am s = true -> paused_ s = false -> current_behavior_ s = Some b ->
  finished (getStatus (task b) (tasks_ s)) = false ->
  bpq_pop (pending_behaviors_ s) = (Some r, q) ->
  tick am s = if shouldPreempt r s then handlePreemption r (set_pending q s) else set_pending q s.
Proof.
  intros Hq Hp Hc Hf Hpop. rewrite tick_quiet by done. unfold tick_behaviors, removeTimedOutBehaviors.
  rewrite Hp, Hc. cbv zeta. rewrite Hf. unfold selectNextBehavior. by rewrite Hpop.
Qed.

(** The tick in which a request preempts, whatever [cancellable] says. *)
Lemma preemption_tick am s b r q :
  alarms_quiet am s = true -> paused_ s = false -> current_behavior_ s = Some b ->
  finished (getStatus (task b) (tasks_ s)) = false ->
  bpq_pop (pending_behaviors_ s) = (Some r, q) -> prio_known (priority r) = true ->
  prio_val (priority r) < prio_val (priority b) -> prio_val (priority r) <= 2 ->
  let s' := tick am s in
  current_behavior_ s' = Some r /\
  preemptions (arb_stats_ s') = u64 (preemptions (arb_stats_ s) + 1) /\
  if bool_decide (priority r = EMERGENCY_STOP) then
    current_mode_ s' = FAULT /\ bpq_isEmpty (pending_behaviors_ s') = true /\
    suspended_behaviors_ s' = ∅ /\
    tasks_ s' = task_start (task r) (task_stop (task b) (tasks_ s))
  else
    current_mode_ s' = current_mode_ s /\ pending_behaviors_ s' = q /\
    suspended_behaviors_ s' = <[behavior_id b := b]> (suspended_behaviors_ s) /\
    tasks_ s' = task_start (task r) (task_pause (task b) (tasks_ s)).
Proof.
  intros Hq Hp Hc Hf Hpop Hk Hlt Hle. simpl. rewrite (tick_running am s b r q) by done.
  assert (Hpre : shouldPreempt r s = true).
  { unfold shouldPreempt. rewrite Hc, (proj2 (Z.ltb_lt _ _) Hlt). by apply Z.leb_le. }
  rewrite Hpre. unfold handlePreemption, suspend_current, stopCurrentTask. simpl. rewrite Hc.
  case_bool_decide as He.
  - unfold transitionTo. simpl. split_and!; try done.
    unfold bpq_isEmpty. simpl. by rewrite !view_empty, !view_clear.
  - destruct (priority r) eqn:Hpr; try done; simpl in Hlt, Hle; try lia; simpl.
    by rewrite (proj2 (Z.leb_le _ _)) by lia.
Qed.

(** C6: preemption.  While a cancellable behaviour runs, no alarm asks for a mode
    change and the arbiter is not paused, a pending request of higher urgency
    that may preempt (priorities 0 to 2) takes over in one tick.  An emergency
    stop cancels the running task, enters FAULT, drops every pending and
    suspended behaviour and starts the emergency behaviour; a safety issue or an
    urgent task pauses the running task, keeps it in the suspended map under
    its id, and starts the new one; nothing else of the queue is lost. *)
Theorem urgent_request_preempts am s b r q :
  cancellable b = true ->
  alarms_quiet am s = true -> paused_ s = false -> current_behavior_ s = Some b ->
  finished (getStatus (task b) (tasks_ s)) = false ->
  bpq_pop (pending_behaviors_ s) = (Some r, q) -> prio_known (priority r) = true ->
  prio_val (priority r) < prio_val (priority b) -> prio_val (priority r) <= 2 ->
  let s' := tick am s in
  current_behavior_ s' = Some r /\
  preemptions (arb_stats_ s') = u64 (preemptions (arb_stats_ s) + 1) /\
  if bool_decide (priority r = EMERGENCY_STOP) then
    current_mode_ s' = FAULT /\ bpq_isEmpty (pending_behaviors_ s') = true /\
    suspended_behaviors_ s' = ∅ /\
    tasks_ s' = task_start (task r) (task_stop (task b) (tasks_ s))
  else
    current_mode_ s' = current_mode_ s /\ pending_behaviors_ s' = q /\
    suspended_behaviors_ s' = <[behavior_id b := b]> (suspended_behaviors_ s) /\
    tasks_ s' = task_start (task r) (task_pause (task b) (tasks_ s)).
Proof. intros _. apply preemption_tick. Qed.

(** A behaviour that is not cancellable is documented to run to its end; tick
    preempts it like any other: it stops or pauses its task and starts the new
    one. *)
Theorem non_cancellable_behavior_is_preempted am s b r q :
  cancellable b = false ->
  alarms_quiet am s = true -> paused_ s = false -> current_behavior_ s = Some b ->
  finished (getStatus (task b) (tasks_ s)) = false ->
  bpq_pop (pending_behaviors_ s) = (Some r, q) -> prio_known (priority r) = true ->
  prio_val (priority r) < prio_val (priority b) -> prio_val (priority r) <= 2 ->
  current_behavior_ (tick am s) = Some r /\
  tasks_ (tick am s) =
    task_start (task r) ((if bool_decide (priority r = EMERGENCY_STOP) then task_stop else task_pause) (task b) (tasks_ s)).
Proof.
  intros _ Hq Hp Hc Hf Hpop Hk Hlt Hle.
  destruct (preemption_tick am s b r q Hq Hp Hc Hf Hpop Hk Hlt Hle) as (H1 & _ & H2). split; [exact H1|].
  destruct (bool_decide (priority r = EMERGENCY_STOP)); apply H2.
Qed.

(** A tick loses the request it does not act on.  While a task runs, tick
    removes the most urgent pending request from the queue to compare it; when
    it may not preempt, the request is neither started nor put back: the new
    state is the old one with that request gone. *)
Theorem tick_drops_request_that_cannot_preempt am s b r q :
  alarms_quiet am s = true -> paused_ s = false -> current_behavior_ s = Some b ->
  finished (getStatus (task b) (tasks_ s)) = false ->
  bpq_pop (pending_behaviors_ s) = (Some r, q) ->
  prio_val (priority b) <= prio_val (priority r) \/ 2 < prio_val (priority r) ->
  tick am s = set_pending q s.
Proof.
  intros Hq Hp Hc Hf Hpop Hno. rewrite (tick_running am s b r q) by done.
  assert (Hpre : shouldPreempt r s = false).
  { unfold shouldPreempt, canPreempt. rewrite Hc. simpl.
    destruct (Z.ltb_spec (prio_val (priority r)) (prio_val (priority b))); [|done].
    apply Z.leb_gt. lia. }
  by rewrite Hpre.
Qed.

(** An idle arbiter starts what the queue hands out.  With no current
    behaviour, or with one whose task has completed, failed or was cancelled and
    no MAINT change pending, an unpaused tick makes the popped request current
    and starts its task, and changes no mode, suspended behaviour or statistic;
    this holds in every mode, FAULT included. *)
Theorem idle_tick_starts_next am s r q :
  alarms_quiet am s = true -> paused_ s = false ->
  match current_behavior_ s with
  | None => True
  | Some b => finished (getStatus (task b) (tasks_ s)) = true /\ pending_safe_mode_ s = false
  end ->
  bpq_pop (pending_behaviors_ s) = (Some r, q) ->
  tick am s = set_tasks (task_start (task r) (tasks_ s)) (set_current (Some r) (set_pending q s)).
Proof.
  intros Hq Hp Hc Hpop. rewrite tick_quiet by done.
  unfold tick_behaviors, removeTimedOutBehaviors, start_next, selectNextBehavior.
  rewrite Hp. cbv zeta. destruct (current_behavior_ s) as [b|].
  - destruct Hc as [Hf Hs]. rewrite Hf. simpl. by rewrite Hs, Hpop.
  - by rewrite Hpop.
Qed.

(** *** Which task calls the arbiter makes *)

Section task_calls.
Context (P : W -> Prop) (P_start : forall t w, P w -> P (task_start t w))
  (P_stop : forall t w, P w -> P (task_stop t w)) (P_pause : forall t w, P w -> P (task_pause t w)).

Lemma stop_calls m s : P (tasks_ s) -> P (tasks_ (stopCurrentTask m s)).
Proof using P_stop P_pause. intros H. unfold stopCurrentTask. repeat case_match; simpl; auto. Qed.

Lemma transition_calls m s : P (tasks_ s) -> P (tasks_ (snd (transitionTo m s))).
Proof using P_stop P_pause.
  intros H. unfold transitionTo. repeat (case_match; simpl; try done). by apply stop_calls.
Qed.

Lemma start_calls b s : P (tasks_ s) -> P (tasks_ (startTask b s)).
Proof using P_start. apply P_start. Qed.

Lemma start_next_calls s : P (tasks_ s) -> P (tasks_ (start_next s)).
Proof using P_start.
  intros H. unfold start_next, selectNextBehavior. repeat (case_match; simplify_eq/=; auto).
Qed.

Lemma suspend_calls b s : P (tasks_ s) -> P (tasks_ (suspend_current b s)).
Proof using P_stop P_pause. intros H. unfold suspend_current. simpl. by apply stop_calls. Qed.

Lemma preemption_calls r s : P (tasks_ s) -> P (tasks_ (handlePreemption r s)).
Proof using P_start P_stop P_pause.
  intros H. unfold handlePreemption. destruct (current_behavior_ s); [|done].
  apply start_calls. repeat case_match; try done; try by apply suspend_calls.
  apply transition_calls. by apply (stop_calls Cancel (set_arb_stats _ s)).
Qed.

Lemma tick_calls am s : P (tasks_ s) -> P (tasks_ (tick am s)).
Proof using P_start P_stop P_pause.
  intros H. unfold tick.
  assert (H1 : P (tasks_ (checkCriticalAlarms am s))).
  { unfold checkCriticalAlarms. repeat case_match; [by apply transition_calls|done..]. }
  set (s1 := checkCriticalAlarms am s) in *. clearbody s1.
  assert (H2 : P (tasks_ (checkWarningAlarms am s1))).
  { unfold checkWarningAlarms. repeat case_match; try done. by apply transition_calls. }
  set (s2 := checkWarningAlarms am s1) in *. clearbody s2.
  unfold tick_behaviors, removeTimedOutBehaviors, selectNextBehavior. cbv zeta.
  destruct (paused_ s2); [done|]. destruct (current_behavior_ s2); [|by apply start_next_calls].
  destruct (finished _).
  - case_match; [by apply (transition_calls MAINT (set_current None s2))|by apply start_next_calls].
  - destruct (bpq_pop _) as [[r|] q]; [|done]. case_match; [|done]. by apply preemption_calls.
Qed.

Lemma exec_calls o s : o <> ResumeOp -> P (tasks_ s) -> P (tasks_ (arb_exec o s)).
Proof using P_start P_stop P_pause.
  destruct o as [r|am|m| |id| |]; intros Ho H; simpl; try done.
  - unfold requestBehavior. by destruct (bpq_push _ _).
  - by apply tick_calls.
  - by apply transition_calls.
  - unfold cancelBehavior. repeat case_match; try done. simpl. by apply stop_calls.
  - unfold pause. repeat case_match; try done. by apply (stop_calls Pause (set_paused true s)).
Qed.

Lemma run_calls os s :
  Forall (λ o, o <> ResumeOp) os -> P (tasks_ s) -> P (tasks_ (arb_run os s)).
Proof using P_start P_stop P_pause.
  intros Hos. revert s. induction Hos as [|o os Ho _ IH]; intros s H; [done|].
  apply IH. by apply exec_calls.
Qed.
End task_calls.
End BehaviorArbiter.

(** ** Recorded task calls

    Tasks are identified by their id; the state of all tasks is the log of the
    calls made on them, and the status of a task is any function [st] of that
    log. *)

Inductive TaskCall :=
| CallStart (id : string)
| CallStop (id : string)
| CallPause (id : string)
| CallResume (id : string).

#[export] Instance TaskCall_eq_dec : EqDecision TaskCall.
Proof. solve_decision. Defined.

Definition recorded_tasks (st : string -> list TaskCall -> TaskStatus) :
    ITask string (list TaskCall) := {|
  task_id := fun id => id;
  task_start id w := w ++ [CallStart id];
  task_stop id w := w ++ [CallStop id];
  task_pause id w := w ++ [CallPause id];
  task_resume id w := w ++ [CallResume id];
  getStatus := st
|}.

Definition is_resume (c : TaskCall) : bool := match c with CallResume _ => true | _ => false end.

Section RecordedTasks.
Context {Q D A : Type} `{!ConcurrentQueue Q (BehaviorRequest string)} `{!IDataStore D}
  `{!IAlarmManager A} (st : string -> list TaskCall -> TaskStatus).
#[local] Existing Instance recorded_tasks.
#[local] Instance the_tasks : ITask string (list TaskCall) := recorded_tasks st.

(** A preempted task is never resumed by the arbiter.  Whatever the tasks
    report, a run of any public calls other than resume() makes no resume()
    call on any task: no tick brings a suspended behaviour back, although
    Priority.h promises that an urgent task's completion resumes it. *)
Theorem suspended_tasks_never_resumed (os : list (ArbiterOp (T := string) (A := A))) (ds : option D) :
  Forall (λ o, o <> ResumeOp) os ->
  forallb (negb ∘ is_resume)
    (tasks_ (arb_run os (newBehaviorArbiter (Q := Q) (T := string) ds []))) = true.
Proof.
  intros Hos. apply (run_calls (λ w, forallb (negb ∘ is_resume) w = true)); try done;
    intros t w Hw; simpl; by rewrite forallb_app, Hw.
Qed.
End RecordedTasks.

(** ** The arbiter on top of the AlarmManager *)

Section EndToEnd.
Context {Q T W D D' B : Type} `{!ConcurrentQueue Q (BehaviorRequest T)}
  `{!ConcurrentQueueLaws Q (BehaviorRequest T)} `{!ITask T W}
  `{!IDataStore D} `{!IDataStore D'} `{!IEventBus AlarmEvent B}.

(** An active critical alarm in the AlarmManager puts the robot in FAULT.
    After any alarm traffic (fewer than 2^64 calls) that leaves some alarm
    ACTIVE and CRITICAL, one tick of the arbiter, from any state, ends in
    FAULT. *)
Theorem active_critical_alarm_means_fault cs os (ds : option D') (eb : option B) id a
    (s : BehaviorArbiter Q T W D) :
  Z.of_nat (length os) < 2 ^ 64 ->
  let am := alarm_run cs os (newAlarmManager ds eb) in
  getAlarm id am = Some a -> state a = ACTIVE -> severity a = CRITICAL ->
  getCurrentMode (tick am s) = FAULT.
Proof.
  intros Hlen am Hid Hst Hsv. unfold getCurrentMode.
  destruct (decide (current_mode_ s = FAULT)) as [Hf|Hf]; [by apply tick_keeps_fault|].
  apply fault_of_critical; [|done]. simpl. by apply (active_critical_reported cs os ds eb id a).
Qed.
End EndToEnd.

(** ** Example runs *)

Module ArbiterExamples.

Definition status_of (id : string) (w : list TaskCall) : TaskStatus :=
  if bool_decide (CallStop id ∈ w) then TS_CANCELLED else TS_RUNNING.
#[export] Instance tasks : ITask string (list TaskCall) := recorded_tasks status_of.

(** An alarm manager with fixed answers. *)
Record fixed_alarms := mkFixed { fixed_critical : bool; fixed_warnings : list AlarmDto }.
#[export] Instance fixed_alarms_view : IAlarmManager fixed_alarms := {
  has_critical_alarm := fixed_critical;
  active_alarms_by_severity sv am := match sv with WARNING => fixed_warnings am | _ => [] end
}.
Definition calm : fixed_alarms := mkFixed false [].

Definition arbiter :=
  BehaviorArbiter (list (BehaviorRequest string)) string (list TaskCall)
    (list (string * any_value * DataType)).

Definition request (id : string) (p : Priority) : BehaviorRequest string :=
  newBehaviorRequest 0 id p (("task_" +:+ id)%string) "operator".

Definition fresh : arbiter := newBehaviorArbiter (Some []) [].

(** "a" runs, "b" and "c" are pending. *)
Definition running : arbiter :=
  arb_run [TransitionTo AUTO; RequestBehavior (request "a" NORMAL_TASK); Tick calm;
           RequestBehavior (request "b" NORMAL_TASK); RequestBehavior (request "c" MAINTENANCE)] fresh.

Definition with_emergency : arbiter := snd (requestBehavior (request "e" EMERGENCY_STOP) running).

End ArbiterExamples.
Import ArbiterExamples.

Lemma critical_alarm_forces_fault_witness :
  let s' := tick (mkFixed true []) running in
  current_mode_ s' = FAULT /\ bpq_isEmpty (pending_behaviors_ s') = true /\
  suspended_behaviors_ s' = ∅ /\ tasks_ s' = [CallStart "task_a"; CallStop "task_a"].
Proof.
  destruct (critical_alarm_forces_fault (mkFixed true []) running) as (H1 & H2 & H3 & H4);
    [reflexivity|vm_compute; discriminate|].
  split_and!; [exact H1|exact H2|exact H3|]. rewrite H4. by_compute.
Defined.

Lemma urgent_request_preempts_witness :
  let s' := tick calm with_emergency in
  current_behavior_ s' = Some (request "e" EMERGENCY_STOP) /\ preemptions (arb_stats_ s') = 1 /\
  current_mode_ s' = FAULT /\ bpq_isEmpty (pending_behaviors_ s') = true /\
  suspended_behaviors_ s' = ∅ /\
  tasks_ s' = [CallStart "task_a"; CallStop "task_a"; CallStart "task_e"].
Proof.
  destruct (urgent_request_preempts calm with_emergency (request "a" NORMAL_TASK)
    (request "e" EMERGENCY_STOP) (pending_behaviors_ running)) as (H1 & H2 & H3 & H4 & H5 & H6);
    [reflexivity|by_compute..|reflexivity|vm_compute; discriminate|].
  split_and!; [exact H1|rewrite H2; by_compute|exact H3|exact H4|exact H5|].
  rewrite H6. by_compute.
Defined.

(** "b" was accepted and is gone after one tick, without having been started. *)
Lemma tick_drops_request_that_cannot_preempt_witness :
  tick calm running
    = set_pending (mkBPQ [] [] [] [] [request "c" MAINTENANCE]) running /\
  getCurrentTaskId (tick calm running) = "task_a".
Proof.
  split; [|by_compute].
  apply (tick_drops_request_that_cannot_preempt calm running (request "a" NORMAL_TASK)
    (request "b" NORMAL_TASK) (mkBPQ [] [] [] [] [request "c" MAINTENANCE]));
    [by_compute..|left; vm_compute; discriminate].
Defined.

(** In FAULT, with the critical alarm still raised, a new request is started. *)
Lemma idle_tick_starts_next_witness :
  let s := snd (requestBehavior (request "n" NORMAL_TASK)
                  (snd (transitionTo FAULT fresh))) in
  tick (mkFixed true []) s
    = set_tasks [CallStart "task_n"] (set_current (Some (request "n" NORMAL_TASK))
        (set_pending bpq_new s)).
Proof.
  intros s. assert (Ht : tasks_ s = []) by by_compute.
  rewrite (idle_tick_starts_next (mkFixed true []) s (request "n" NORMAL_TASK) bpq_new), Ht;
    [reflexivity|by_compute..|exact I|by_compute].
Defined.

(** An urgent task suspends "a" and finishes; "a" is not resumed by later ticks. *)
Lemma suspended_tasks_never_resumed_witness :
  let os := [RequestBehavior (request "a" NORMAL_TASK); Tick calm;
             RequestBehavior (request "u" URGENT_TASK); Tick calm;
             CancelBehavior "u"; Tick calm; Tick calm] in
  forallb (negb ∘ is_resume) (tasks_ (arb_run os fresh)) = true /\
  suspended_behaviors_ (arb_run os fresh) = {["a" := request "a" NORMAL_TASK]} /\
  tasks_ (arb_run os fresh) =
    [CallStart "task_a"; CallPause "task_a"; CallStart "task_u"; CallStop "task_u"].
Proof.
  split; [|split; by_compute].
  apply (suspended_tasks_never_resumed (Q := list (BehaviorRequest string)) status_of).
  repeat constructor; discriminate.
Defined.

Lemma active_critical_alarm_means_fault_witness :
  getCurrentMode (tick (alarm_run AlarmExamples.config AlarmExamples.two_raises AlarmExamples.fresh)
                    running) = FAULT.
Proof.
  destruct (getAlarm AlarmExamples.second_id
    (alarm_run AlarmExamples.config AlarmExamples.two_raises AlarmExamples.fresh)) as [a|] eqn:E;
    [|vm_compute in E; discriminate].
  apply (active_critical_alarm_means_fault AlarmExamples.config AlarmExamples.two_raises
    (Some []) (Some []) AlarmExamples.second_id a running);
    [reflexivity|exact E|..]; vm_compute in E; injection E as <-; reflexivity.
Defined.
