(* ===== verification/SafetyCheck.v ===== *)
(** * The periodic safety check
      (src/robot/pallet_shuttle/sequences/SafetyCheckSequence)

    Six checks of the shuttle, run in order; a failing one raises an alarm.  The
    alarms go to the modelled AlarmManager, so that the path from the emergency
    stop input to the FAULT mode of the arbiter is one theorem.  The state
    accessor and the fieldbus driver are interfaces; doubles are the binary64
    numbers of the standard library's [SpecFloat]; the texts that fmt builds from
    numbers are a parameter. *)

From Stdlib Require Import SpecFloat.
From S2P Require Import Prelude Interfaces Control BehaviorQueue Alarm AlarmManager Arbiter.
#[local] Open Scope Z_scope.

(** ** Doubles *)

Definition double := spec_float.
Definition of_int (n : Z) : double := binary_normalize 53 1024 n 0 false.
Definition ddiv (x y : double) : double := SFdiv 53 1024 x y.
Definition dmul (x y : double) : double := SFmul 53 1024 x y.
Definition dlt (x y : double) : bool := SFltb x y.
Definition dge (x y : double) : bool := SFleb y x.
(** The literal [n / d], correctly rounded. *)
Definition literal (n d : Z) : double := ddiv (of_int n) (of_int d).

Definition MAINTENANCE_DISTANCE_KM : double := of_int 50.
Definition MAINTENANCE_TASK_COUNT : Z := 500.
Definition LOW_BATTERY_WARNING : double := literal 20 100.
Definition CRITICAL_BATTERY_LEVEL : double := literal 10 100.

(** ** Interfaces *)

(** What the checks read of the state accessor. *)
Class StateAccessor (X : Type) := {
  getBatteryLevel : X -> double;
  getTotalDistance : X -> double;
  getCompletedTaskCount : X -> Z
}.

Inductive FieldbusValue := FbBool (b : bool) | FbString (s : string) | FbOther.

(** [read] throws, returns false, or fills in a value. *)
Class FieldbusDriver (Y : Type) := {
  fb_read : string -> Y -> result string (option FieldbusValue);
  fb_isConnected : Y -> bool
}.

Class Formats := {
  fmt_battery : string -> double -> string;
  fmt_maintenance : string -> double -> Z -> string
}.

Inductive SafetyStatus := SC_IDLE | SC_RUNNING | SC_COMPLETED | SC_ERROR | SC_PAUSED | SC_CANCELLED.

#[export] Instance SafetyStatus_eq_dec : EqDecision SafetyStatus.
Proof. solve_decision. Defined.

Record SafetyCheckResult := mkCheck {
  ck_name : string;
  ck_passed : bool;
  ck_details : string;
  ck_value : double;
  ck_threshold : double
}.

(** [progress_] is the number of checks done, of six. *)
Record SafetyCheckSequence := mkSafety {
  sc_id : string;
  sc_status : SafetyStatus;
  sc_progress : nat;
  check_results_ : list SafetyCheckResult
}.
Implicit Types q : SafetyCheckSequence.

Definition newSafetyCheck (id : string) : SafetyCheckSequence := mkSafety id SC_IDLE 0 [].

Definition set_sc_status (st : SafetyStatus) q : SafetyCheckSequence :=
  mkSafety (sc_id q) st (sc_progress q) (check_results_ q).

Definition sc_pause q : SafetyCheckSequence :=
  if bool_decide (sc_status q = SC_RUNNING) then set_sc_status SC_PAUSED q else q.
Definition sc_resume q : SafetyCheckSequence :=
  if bool_decide (sc_status q = SC_PAUSED) then set_sc_status SC_RUNNING q else q.
Definition sc_cancel q : SafetyCheckSequence := set_sc_status SC_CANCELLED q.

Definition hasFailedChecks q : bool := existsb (λ r, negb (ck_passed r)) (check_results_ q).
Definition hasCriticalFailures q : bool :=
  existsb (λ r, negb (ck_passed r) && String.eqb (ck_name r) "Emergency Stop") (check_results_ q).

Section SafetyCheck.
Context {X Y D B : Type} `{!StateAccessor X} `{!FieldbusDriver Y} `{!IDataStore D} `{!IEventBus AlarmEvent B}
  {fmt : Formats} (cs : AlarmConfiguration) (clk : string -> Z * Z).

(** [clk code]: the two clock readings of [raiseAlarm] for that code, which is
    raised at most once per run. *)
Definition raise (code det : string) (am : AlarmManager D B) : AlarmManager D B :=
  snd (raiseAlarm (clk code).1 (clk code).2 code "SafetyCheck" (Some det) cs am).

Definition zero : double := of_int 0.
Definition flag (b : bool) : double := if b then of_int 1 else of_int 0.
Definition bad_cast : string := "bad any_cast".

Abbreviation Checked := (SafetyCheckResult * AlarmManager D B)%type.

Definition checkBatteryLevel (x : X) (am : AlarmManager D B) : Checked :=
  let battery := getBatteryLevel x in
  let percent := dmul battery (of_int 100) in
  let name := "Battery Level" in
  if dlt battery CRITICAL_BATTERY_LEVEL then
    let det := fmt_battery "Battery critically low" percent in
    (mkCheck name false det battery LOW_BATTERY_WARNING, raise "E002" det am)
  else if dlt battery LOW_BATTERY_WARNING then
    let det := fmt_battery "Battery low" percent in
    (mkCheck name false det battery LOW_BATTERY_WARNING, raise "W001" det am)
  else (mkCheck name true (fmt_battery "Battery OK" percent) battery LOW_BATTERY_WARNING, am).

Definition checkSensorDiagnostics (y : Y) (am : AlarmManager D B) : Checked :=
  let name := "Sensor Diagnostics" in
  match fb_read "sensor/diagnostic/all_ok" y with
  | Throw e => (mkCheck name false ("Sensor check error: " +:+ e)%string zero zero, am)
  | Ok None => (mkCheck name false "Failed to read sensor status" zero zero, am)
  | Ok (Some (FbBool ok)) =>
    if ok then (mkCheck name true "All sensors operational" (flag true) zero, am)
    else (mkCheck name false "Sensor fault detected" (flag false) zero, raise "W002" "Sensor diagnostic failure" am)
  | Ok (Some _) => (mkCheck name false ("Sensor check error: " +:+ bad_cast)%string zero zero, am)
  end.

Definition checkMotorStatus (y : Y) (am : AlarmManager D B) : Checked :=
  let name := "Motor Status" in
  match fb_read "motor/diagnostic/status" y with
  | Throw e => (mkCheck name false ("Motor check error: " +:+ e)%string zero zero, am)
  | Ok None => (mkCheck name false "Failed to read motor status" zero zero, am)
  | Ok (Some (FbString st)) =>
    let passed := String.eqb st "OK" in
    (mkCheck name passed ("Motor status: " +:+ st)%string zero zero,
     if passed then am else raise "W003" "Motor fault detected" am)
  | Ok (Some _) => (mkCheck name false ("Motor check error: " +:+ bad_cast)%string zero zero, am)
  end.

Definition checkEmergencyStop (y : Y) (am : AlarmManager D B) : Checked :=
  let name := "Emergency Stop" in
  match fb_read "sensor/safety/emergency_stop" y with
  | Throw e => (mkCheck name false ("E-stop check error: " +:+ e)%string zero zero, am)
  | Ok None => (mkCheck name false "Failed to read emergency stop status" zero zero, am)
  | Ok (Some (FbBool active)) =>
    if active
    then (mkCheck name false "Emergency stop is ACTIVE" (flag true) zero, raise "E001" "Emergency stop activated" am)
    else (mkCheck name true "Emergency stop OK" (flag false) zero, am)
  | Ok (Some _) => (mkCheck name false ("E-stop check error: " +:+ bad_cast)%string zero zero, am)
  end.

Definition checkMaintenanceSchedule (x : X) (am : AlarmManager D B) : Checked :=
  let name := "Maintenance Schedule" in
  let total := ddiv (getTotalDistance x) (of_int 1000) in
  let tasks := getCompletedTaskCount x in
  let distance_due := dge total MAINTENANCE_DISTANCE_KM in
  let tasks_due := MAINTENANCE_TASK_COUNT <=? tasks in
  if distance_due || tasks_due then
    let det := fmt_maintenance "Maintenance due" total tasks in
    (mkCheck name false det (if distance_due then total else of_int tasks)
       (if distance_due then MAINTENANCE_DISTANCE_KM else of_int MAINTENANCE_TASK_COUNT), raise "I001" det am)
  else (mkCheck name true (fmt_maintenance "Next maintenance" total tasks) zero zero, am).

Definition checkCommunicationStatus (y : Y) (am : AlarmManager D B) : Checked :=
  let name := "Communication Status" in
  if fb_isConnected y then (mkCheck name true "Communication OK" (flag true) zero, am)
  else (mkCheck name false "Fieldbus communication lost" (flag false) zero, raise "W004" "Communication failure" am).

(** One check: its result and the progress. *)
Definition run_check (f : AlarmManager D B -> Checked) (s : SafetyCheckSequence * AlarmManager D B) :
    SafetyCheckSequence * AlarmManager D B :=
  let '(q, am) := s in
  let '(r, am) := f am in
  (mkSafety (sc_id q) (sc_status q) (S (sc_progress q)) (check_results_ q ++ [r]), am).

Definition checks (x : X) (y : Y) : list (AlarmManager D B -> Checked) :=
  [checkBatteryLevel x; checkSensorDiagnostics y; checkMotorStatus y; checkEmergencyStop y;
   checkMaintenanceSchedule x; checkCommunicationStatus y].

(** The status and the text of the result, the sequence and the alarms. *)
Definition execute (x : X) (y : Y) q (am : AlarmManager D B) :
    SafetyStatus * string * SafetyCheckSequence * AlarmManager D B :=
  let '(q, am) := foldl (λ s f, run_check f s) (mkSafety (sc_id q) SC_RUNNING 0 [], am) (checks x y) in
  if hasCriticalFailures q then (SC_ERROR, "Critical safety check failures", set_sc_status SC_ERROR q, am)
  else if hasFailedChecks q then (SC_COMPLETED, "Completed with warnings", set_sc_status SC_COMPLETED q, am)
  else (SC_COMPLETED, "All safety checks passed", set_sc_status SC_COMPLETED q, am).

(** ** What a run reports *)

(** The verdict of each check, from its inputs alone. *)
Definition healthy (x : X) (y : Y) : list (string * bool) :=
  [("Battery Level", negb (dlt (getBatteryLevel x) CRITICAL_BATTERY_LEVEL) && negb (dlt (getBatteryLevel x) LOW_BATTERY_WARNING));
   ("Sensor Diagnostics", match fb_read "sensor/diagnostic/all_ok" y with Ok (Some (FbBool b)) => b | _ => false end);
   ("Motor Status", match fb_read "motor/diagnostic/status" y with Ok (Some (FbString s)) => String.eqb s "OK" | _ => false end);
   ("Emergency Stop", match fb_read "sensor/safety/emergency_stop" y with Ok (Some (FbBool b)) => negb b | _ => false end);
   ("Maintenance Schedule", negb (dge (ddiv (getTotalDistance x) (of_int 1000)) MAINTENANCE_DISTANCE_KM) &&
      negb (MAINTENANCE_TASK_COUNT <=? getCompletedTaskCount x));
   ("Communication Status", fb_isConnected y)].

Definition verdict (r : SafetyCheckResult) : string * bool := (ck_name r, ck_passed r).

Lemma check_verdicts x y i f am :
  checks x y !! i = Some f -> Some (verdict (f am).1) = healthy x y !! i.
Proof.
  unfold checks, healthy. intros Hi.
  destruct i as [|[|[|[|[|[|i]]]]]]; [injection Hi as <-..|done]; cbn [lookup list_lookup].
  - unfold checkBatteryLevel. by destruct (dlt _ CRITICAL_BATTERY_LEVEL), (dlt _ LOW_BATTERY_WARNING).
  - unfold checkSensorDiagnostics. by destruct (fb_read _ y) as [[[[]| |]|]|].
  - unfold checkMotorStatus. by destruct (fb_read _ y) as [[[| |]|]|].
  - unfold checkEmergencyStop. by destruct (fb_read _ y) as [[[[]| |]|]|].
  - unfold checkMaintenanceSchedule. by destruct (dge _ _), (_ <=? _).
  - unfold checkCommunicationStatus. by destruct (fb_isConnected y).
Qed.

Lemma run_checks_results (fs : list (AlarmManager D B -> Checked)) q am :
  let s := foldl (λ s f, run_check f s) (q, am) fs in
  sc_id s.1 = sc_id q /\ sc_progress s.1 = (sc_progress q + length fs)%nat /\
  exists rs, check_results_ s.1 = check_results_ q ++ rs /\ length rs = length fs /\
    forall i f, fs !! i = Some f -> exists am', (rs !! i) = Some (f am').1.
Proof.
  revert q am. induction fs as [|f fs IH]; intros q am; simpl.
  { split; [done|]. split; [lia|]. exists []. by rewrite app_nil_r. }
  destruct (f am) as [r am'] eqn:Ef. simpl.
  destruct (IH (mkSafety (sc_id q) (sc_status q) (S (sc_progress q)) (check_results_ q ++ [r])) am')
    as (H1 & H2 & rs & H3 & H4 & H5). simpl in *.
  split; [done|]. split; [lia|]. exists (r :: rs). rewrite H3, <- app_assoc. simpl. split; [done|]. split; [lia|].
  intros [|i] g Hg; simpl in *; [|by apply H5]. injection Hg as <-. exists am. by rewrite Ef.
Qed.

(** The results of a run, as verdicts. *)
Lemma execute_verdicts x y q am :
  let '(st, _, q', _) := execute x y q am in
  map verdict (check_results_ q') = healthy x y /\ sc_status q' = st /\ sc_progress q' = 6%nat /\ sc_id q' = sc_id q /\
  st = (if hasCriticalFailures q' then SC_ERROR else SC_COMPLETED).
Proof.
  unfold execute. set (q0 := mkSafety (sc_id q) SC_RUNNING 0 []).
  destruct (run_checks_results (checks x y) q0 am) as (H1 & H2 & rs & H3 & H4 & H5).
  destruct (foldl _ (q0, am) (checks x y)) as [q1 am1]. cbn [fst snd] in *.
  assert (Hv : map verdict (check_results_ q1) = healthy x y).
  { rewrite H3. simpl. apply list_eq. intros i. rewrite list_lookup_fmap.
    destruct (checks x y !! i) as [f|] eqn:Hf.
    - destruct (H5 i f Hf) as [am' ->]. simpl. by apply check_verdicts.
    - apply lookup_ge_None in Hf. rewrite !lookup_ge_None_2; [done|done|lia]. }
  destruct (hasCriticalFailures q1) eqn:Hc; [|destruct (hasFailedChecks q1)]; simpl;
    (split; [done|]); (split; [done|]); (split; [done|]); (split; [done|]); unfold hasCriticalFailures in *; simpl; by rewrite Hc.
Qed.

Lemma critical_verdicts q :
  hasCriticalFailures q = existsb (λ v, negb v.2 && String.eqb v.1 "Emergency Stop") (map verdict (check_results_ q)).
Proof. unfold hasCriticalFailures. induction (check_results_ q) as [|r l IH]; simpl; [done|]. by rewrite IH. Qed.

Lemma failed_verdicts q : hasFailedChecks q = negb (forallb snd (map verdict (check_results_ q))).
Proof.
  unfold hasFailedChecks. induction (check_results_ q) as [|r l IH]; simpl; [done|].
  rewrite IH. by destruct (ck_passed r), (forallb _ _).
Qed.

(** A run makes the six checks, each result says exactly whether the inputs
    of that check are healthy, and the sequence ends in ERROR exactly when the
    emergency stop is active or cannot be read; every other failure only shows as
    a warning. *)
Theorem safety_check_verdict x y q am :
  let '(st, text, q', am') := execute x y q am in
  map verdict (check_results_ q') = healthy x y /\ sc_status q' = st /\ sc_progress q' = 6%nat /\
  (st = SC_ERROR <-> fb_read "sensor/safety/emergency_stop" y <> Ok (Some (FbBool false))) /\
  (text = "All safety checks passed" <-> forallb snd (healthy x y) = true).
Proof.
  pose proof (execute_verdicts x y q am) as H. destruct (execute x y q am) as [[[st text] q'] am'] eqn:E.
  destruct H as (Hv & Hs & Hp & _ & Hst). split; [done|]. split; [done|]. split; [done|].
  assert (Hcrit : hasCriticalFailures q' = negb (match fb_read "sensor/safety/emergency_stop" y with
                    Ok (Some (FbBool b)) => negb b | _ => false end)).
  { rewrite critical_verdicts, Hv. unfold healthy. simpl. rewrite !andb_false_r. simpl.
    by rewrite andb_true_r, !orb_false_r. }
  assert (Hfail : hasFailedChecks q' = negb (forallb snd (healthy x y))) by by rewrite failed_verdicts, Hv.
  split.
  - rewrite Hst, Hcrit. destruct (fb_read _ y) as [[[[]| |]|]|]; simpl; split; intros; try done; congruence.
  - unfold execute in E. destruct (foldl _ _ _) as [q1 am1].
    assert (Hq : check_results_ q1 = check_results_ q')
      by (destruct (hasCriticalFailures q1), (hasFailedChecks q1); by injection E as <- <- <- <-).
    assert (Hq1 : hasCriticalFailures q1 = hasCriticalFailures q') by (unfold hasCriticalFailures; by rewrite Hq).
    assert (Hq2 : hasFailedChecks q1 = hasFailedChecks q') by (unfold hasFailedChecks; by rewrite Hq).
    rewrite Hq1, Hq2, Hfail in E.
    assert (Himp : forallb snd (healthy x y) = true -> hasCriticalFailures q' = false).
    { rewrite Hcrit. unfold healthy. simpl. intros Hall. repeat (apply andb_prop in Hall as [? Hall]).
      by apply negb_false_iff. }
    destruct (forallb snd (healthy x y)); simpl in E.
    + rewrite Himp in E by done. by injection E as <- <- <- <-.
    + destruct (hasCriticalFailures q'); injection E as <- <- <- <-; done.
Qed.

(** ** From the emergency stop to FAULT *)

(** A check raises at most one alarm. *)
Definition raises_at_most_one (f : AlarmManager D B -> Checked) : Prop :=
  forall am, (f am).2 = am \/ exists code det, (f am).2 = raise code det am.

Lemma checks_raise x y : Forall raises_at_most_one (checks x y).
Proof.
  unfold checks, raises_at_most_one. repeat first [apply Forall_nil_2 | apply Forall_cons_2]; intros am.
  - unfold checkBatteryLevel. destruct (dlt _ _); [|destruct (dlt _ _)]; simpl; eauto.
  - unfold checkSensorDiagnostics. destruct (fb_read _ y) as [[[[]| |]|]|]; simpl; eauto.
  - unfold checkMotorStatus. destruct (fb_read _ y) as [[[|s|]|]|]; simpl; eauto. destruct (String.eqb s _); eauto.
  - unfold checkEmergencyStop. destruct (fb_read _ y) as [[[[]| |]|]|]; simpl; eauto.
  - unfold checkMaintenanceSchedule. destruct (_ || _); simpl; eauto.
  - unfold checkCommunicationStatus. destruct (fb_isConnected y); simpl; eauto.
Qed.

Definition after (fs : list (AlarmManager D B -> Checked)) (am : AlarmManager D B) : AlarmManager D B :=
  foldl (λ am f, (f am).2) am fs.

Lemma run_checks_alarms fs q am : (foldl (λ s f, run_check f s) (q, am) fs).2 = after fs am.
Proof.
  revert q am. induction fs as [|f fs IH]; intros q am; [done|]. unfold after. simpl.
  destruct (f am) as [r am']. apply IH.
Qed.

Lemma execute_alarms x y q am : (execute x y q am).2 = after (checks x y) am.
Proof.
  unfold execute. pose proof (run_checks_alarms (checks x y) (mkSafety (sc_id q) SC_RUNNING 0 []) am) as H.
  destruct (foldl _ _ _) as [q1 am1]. simpl in H. subst am1.
  by destruct (hasCriticalFailures q1), (hasFailedChecks q1).
Qed.

(** The checks are traffic of the alarm manager like any other. *)
Lemma after_is_traffic fs am :
  Forall raises_at_most_one fs -> exists os, after fs am = alarm_run cs os am /\ (length os <= length fs)%nat.
Proof.
  intros Hfs. revert am. induction Hfs as [|f fs Hf _ IH]; intros am; [by exists []|]. simpl.
  destruct (IH (f am).2) as (os & -> & Hlen). destruct (Hf am) as [->|(code & det & ->)].
  - exists os. split; [done|lia].
  - exists (Raise (clk code).1 (clk code).2 code "SafetyCheck" (Some det) :: os). split; [done|simpl; lia].
Qed.

Lemma raise_other code det am id :
  (forall t, id <> make_alarm_id code t) -> getAlarm id (raise code det am) = getAlarm id am.
Proof.
  intros Hid. unfold raise, getAlarm. destruct (getAlarmConfig code cs) as [c|] eqn:Hc.
  2:{ unfold raiseAlarm. by rewrite Hc. }
  destruct (raiseAlarm_effect (clk code).1 (clk code).2 code "SafetyCheck" (Some det) cs am c Hc)
    as (a & s1 & -> & _ & _ & _ & Ha & _ & Hal & _). simpl. unfold publishEvent. rewrite publish_alarms, Hal.
  apply lookup_insert_ne. intros E. by apply (Hid (clk code).2); rewrite <- E, Ha.
Qed.

Lemma raise_critical code det am c :
  getAlarmConfig code cs = Some c -> cfg_severity c = CRITICAL ->
  exists a, getAlarm (make_alarm_id code (clk code).2) (raise code det am) = Some a /\
    state a = ACTIVE /\ severity a = CRITICAL.
Proof.
  intros Hc Hs. unfold raise, getAlarm.
  destruct (raiseAlarm_effect (clk code).1 (clk code).2 code "SafetyCheck" (Some det) cs am c Hc)
    as (a & s1 & -> & _ & Hsev & Hst & Ha & _ & Hal & _). exists a. simpl. unfold publishEvent.
  rewrite publish_alarms, Hal, <- Ha, lookup_insert_eq. split; [done|]. split; [done|].
  rewrite Hsev. unfold shouldEscalateSeverity. rewrite Hc, Hs. by destruct (_ <=? _).
Qed.

Lemma stop_alarm_id t t' :
  make_alarm_id "E001" t <> make_alarm_id "I001" t' /\ make_alarm_id "E001" t <> make_alarm_id "W004" t'.
Proof. by split. Qed.
End SafetyCheck.

Section EmergencyStop.
Context {X Y Q T W D D' B : Type} `{!StateAccessor X} `{!FieldbusDriver Y} `{!ConcurrentQueue Q (BehaviorRequest T)}
  `{!ConcurrentQueueLaws Q (BehaviorRequest T)} `{!ITask T W} `{!IDataStore D} `{!IDataStore D'}
  `{!IEventBus AlarmEvent B} {fmt : Formats}.

(** C7: An active emergency stop puts the robot in FAULT.  After any alarm
    traffic (fewer than 2^64 - 6 calls), a safety check that reads the emergency
    stop input as active ends in ERROR, and the next tick of the arbiter, from any
    state, ends in FAULT, if the configuration says that E001 is critical. *)
Theorem emergency_stop_reaches_fault cs clk (x : X) (y : Y) q os (ds : option D') (eb : option B) c
    (s : BehaviorArbiter Q T W D) :
  Z.of_nat (length os) + 6 < 2 ^ 64 ->
  fb_read "sensor/safety/emergency_stop" y = Ok (Some (FbBool true)) ->
  getAlarmConfig "E001" cs = Some c -> cfg_severity c = CRITICAL ->
  let '(st, _, _, am) := execute cs clk x y q (alarm_run cs os (newAlarmManager ds eb)) in
  st = SC_ERROR /\ getCurrentMode (tick am s) = FAULT.
Proof.
  intros Hlen Hstop Hc Hsev. set (am0 := alarm_run cs os (newAlarmManager ds eb)).
  pose proof (execute_verdicts cs clk x y q am0) as Hv. pose proof (execute_alarms cs clk x y q am0) as Ham.
  destruct (execute cs clk x y q am0) as [[[st text] q'] am] eqn:E. cbn [snd] in Ham. destruct Hv as (Hv & _ & _ & _ & Hst).
  split.
  { rewrite Hst, critical_verdicts, Hv. unfold healthy. rewrite Hstop. simpl. by rewrite ?andb_false_r. }
  assert (Ha : exists a, getAlarm (make_alarm_id "E001" (clk "E001").2) am = Some a /\ state a = ACTIVE /\ severity a = CRITICAL).
  { subst am. unfold after, checks. cbn [foldl]. unfold checkEmergencyStop at 1. rewrite Hstop. cbn [fst snd].
    match goal with |- context [raise cs clk "E001" ?d ?m] => destruct (raise_critical cs clk "E001" d m c Hc Hsev) as (a & Hid & Ha) end.
    exists a. split; [|done]. rewrite <- Hid. unfold checkCommunicationStatus, checkMaintenanceSchedule.
    destruct (fb_isConnected y); destruct (_ || _); cbn [fst snd];
      rewrite ?(raise_other _ _ "W004"), ?(raise_other _ _ "I001"); try done; intros t; by apply stop_alarm_id. }
  destruct Ha as (a & Hid & Hact & Hcrit). unfold getCurrentMode.
  destruct (decide (current_mode_ s = FAULT)) as [Hf|Hf]; [by apply tick_keeps_fault|].
  apply fault_of_critical; [|done]. simpl.
  destruct (after_is_traffic cs clk (checks cs clk x y) am0 (checks_raise cs clk x y)) as (os' & Hos & Hl).
  rewrite <- Ham in Hos. unfold am0, alarm_run in Hos. rewrite <- foldl_app in Hos.
  rewrite Hos in Hid |- *. eapply (active_critical_reported cs (os ++ os') ds eb); [|exact Hid|done|done].
  rewrite length_app. simpl in Hl. lia.
Qed.
End EmergencyStop.

(** ** Example *)

Module SafetyExamples.
#[export] Instance texts : Formats := {| fmt_battery s _ := s; fmt_maintenance s _ _ := s |}.
#[export] Instance full_battery : StateAccessor unit := {|
  getBatteryLevel _ := of_int 1; getTotalDistance _ := of_int 0; getCompletedTaskCount _ := 3
|}.
(** The driver's inputs are a function. *)
#[export] Instance inputs : FieldbusDriver (string -> option FieldbusValue) := {|
  fb_read k f := Ok (f k); fb_isConnected _ := true
|}.
Definition stopped : string -> option FieldbusValue := λ k,
  if bool_decide (k = "motor/diagnostic/status") then Some (FbString "OK") else Some (FbBool true).
Definition estop : AlarmConfig := mkAlarmConfig "E001" "Emergency stop" CRITICAL "" None 60 3 false.
Definition configs : AlarmConfiguration := addConfig estop ∅.
End SafetyExamples.
Import SafetyExamples ArbiterExamples.

Lemma emergency_stop_reaches_fault_witness :
  let '(st, _, _, am) := execute (D := list (string * any_value * DataType)) (B := list AlarmEvent)
    configs (λ _, (0, 0)) tt stopped (newSafetyCheck "check")
    (alarm_run configs [] (newAlarmManager (Some []) (Some []))) in
  st = SC_ERROR /\ getCurrentMode (tick am ArbiterExamples.running) = FAULT.
Proof.
  apply (emergency_stop_reaches_fault configs (λ _, (0, 0)) tt stopped (newSafetyCheck "check") [] (Some []) (Some []) estop);
    [reflexivity|vm_compute; reflexivity|vm_compute; reflexivity|reflexivity].
Defined.

(** The thresholds are exclusive: exactly 10% is low but not critically low, and
    exactly 20% is healthy. *)
Example battery_thresholds :
  dlt (literal 10 100) CRITICAL_BATTERY_LEVEL = false /\ dlt (literal 10 100) LOW_BATTERY_WARNING = true /\
  dlt (literal 9 100) CRITICAL_BATTERY_LEVEL = true /\ dlt (literal 20 100) LOW_BATTERY_WARNING = false.
Proof. vm_compute. by repeat split. Qed.
