(* ===== verification/RTSchedule.v ===== *)
(** * ScheduleCalculator (src/core/rt/util/ScheduleCalculator.cpp)

    Minor cycle (gcd) and major cycle (lcm) of a list of periods, in 32-bit
    unsigned arithmetic.  The Euclidean loop has fuel 65: two iterations at
    least halve a 32-bit [b], and [gcd_loop_total] shows that it always ends. *)

From S2P Require Import Prelude.

Definition MAX_MAJOR_CYCLE_MS : Z := 1000.

(** [while (b != 0) { temp = b; b = a % b; a = temp; } return a;] *)
Fixpoint gcd_loop (fuel : nat) (a b : Z) : option Z :=
  match fuel with
  | O => None
  | S fuel => if b =? 0 then Some a else gcd_loop fuel b (a mod b)
  end.

Definition gcd (a b : Z) : Z := default 0 (gcd_loop 65 a b).

Definition lcm (a b : Z) : Z :=
  if (a =? 0) || (b =? 0) then 0 else u32 (a / gcd a b * b).

Record ScheduleParams := mkScheduleParams {
  minor_cycle_ms : Z;
  major_cycle_ms : Z;
  num_slots : Z
}.

(** The lcm loop, which throws as soon as the limit is exceeded. *)
Fixpoint major_loop (major : Z) (ps : list Z) : result string Z :=
  match ps with
  | [] => Ok major
  | p :: ps =>
    let major := lcm major p in
    if MAX_MAJOR_CYCLE_MS <? major
    then Throw "Major cycle exceeds maximum allowed value"
    else major_loop major ps
  end.

Definition calculate (periods_ms : list Z) : result string ScheduleParams :=
  match periods_ms with
  | [] => Throw "Period list cannot be empty"
  | p0 :: rest =>
    if existsb (Z.eqb 0) periods_ms then Throw "Period cannot be zero"
    else
      let minor := foldl gcd p0 rest in
      match major_loop p0 rest with
      | Throw e => Throw e
      | Ok major => Ok (mkScheduleParams minor major (major / minor))
      end
  end.

(** ** The loop computes the greatest common divisor *)

Lemma gcd_loop_total n a b :
  0 <= a -> 0 <= b < 2 ^ Z.of_nat n -> gcd_loop (2 * n + 1) a b = Some (Z.gcd a b).
Proof.
  revert a b. induction n as [|n IH]; intros a b Ha Hb.
  { replace b with 0 by (simpl in Hb; lia). simpl. f_equal. rewrite Z.gcd_0_r. lia. }
  rewrite Nat2Z.inj_succ, Z.pow_succ_r in Hb by lia.
  replace (2 * S n + 1)%nat with (S (S (2 * n + 1))) by lia. cbn [gcd_loop].
  destruct (Z.eqb_spec b 0) as [->|Hb0]; [f_equal; rewrite Z.gcd_0_r; lia|].
  pose proof (Z.mod_pos_bound a b ltac:(lia)) as Hr.
  destruct (Z.eqb_spec (a mod b) 0) as [Hr0|Hr0].
  { f_equal. rewrite Z.gcd_comm, <- Z.gcd_mod, Hr0, Z.gcd_0_l by lia. lia. }
  assert (Hq : 1 <= b / (a mod b)) by (apply Z.div_le_lower_bound; lia).
  pose proof (Z.div_mod b (a mod b) ltac:(lia)) as Hdm.
  pose proof (Z.mod_pos_bound b (a mod b) ltac:(lia)) as Hr'.
  rewrite IH by nia. f_equal. rewrite (Z.gcd_comm (a mod b)), Z.gcd_mod by lia.
  by rewrite Z.gcd_mod, Z.gcd_comm by lia.
Qed.

Lemma gcd_correct a b : in_u32 a -> in_u32 b -> gcd a b = Z.gcd a b.
Proof.
  unfold in_u32. intros Ha Hb. unfold gcd. by rewrite (gcd_loop_total 32) by (simpl; lia).
Qed.

Lemma lcm_correct a b :
  0 < a -> 0 < b -> a * b < 2 ^ 32 -> lcm a b = Z.lcm a b.
Proof.
  intros Ha Hb Hab. unfold lcm.
  rewrite (proj2 (Z.eqb_neq a 0)), (proj2 (Z.eqb_neq b 0)) by lia. simpl.
  rewrite gcd_correct by (unfold in_u32; nia).
  pose proof (Z.gcd_nonneg a b) as Hg0.
  assert (Hg : Z.gcd a b <> 0) by (rewrite Z.gcd_eq_0; lia).
  destruct (Z.gcd_divide_l a b) as [x Hx]. set (g := Z.gcd a b) in *.
  assert (Hdiv : a / g = x) by (rewrite Hx, Z.div_mul; lia).
  assert (0 < x) by nia. rewrite u32_small by (unfold in_u32; rewrite Hdiv; nia).
  destruct (Z.gcd_divide_r a b) as [y Hy]. fold g in Hy.
  assert (Hdivb : b / g = y) by (rewrite Hy, Z.div_mul; lia).
  unfold Z.lcm. fold g. rewrite Hdiv, Hdivb. clearbody g. subst a b. rewrite Z.abs_eq by nia. ring.
Qed.

(** ** The reference: gcd and lcm of the list *)

Definition list_gcd (ps : list Z) : Z := foldr Z.gcd 0 ps.
Definition list_lcm (ps : list Z) : Z := foldr Z.lcm 1 ps.

(** No product formed by [lcm] overflows: the running lcm is the first period
    or at most the limit. *)
Definition products_fit (ps : list Z) : bool :=
  match ps with
  | [] => true
  | p0 :: rest => forallb (λ p, Z.max p0 MAX_MAJOR_CYCLE_MS * p <? 2 ^ 32) rest
  end.

Lemma list_lcm_pos ps : Forall (λ p, 0 < p) ps -> 0 < list_lcm ps.
Proof.
  induction 1 as [|p ps Hp _ IH]; simpl; [lia|].
  pose proof (Z.lcm_nonneg p (list_lcm ps)).
  assert (Z.lcm p (list_lcm ps) <> 0); [|unfold list_lcm in *; simpl; lia].
  rewrite Z.lcm_eq_0. lia.
Qed.

Lemma lcm_ge_l a b : 0 < a -> 0 < b -> a <= Z.lcm a b.
Proof.
  intros Ha Hb. apply Z.divide_pos_le; [|apply Z.divide_lcm_l].
  pose proof (Z.lcm_nonneg a b). assert (Z.lcm a b <> 0); [|lia]. rewrite Z.lcm_eq_0. lia.
Qed.

Lemma major_loop_spec m ps lim :
  0 < m <= lim -> MAX_MAJOR_CYCLE_MS <= lim -> Forall (λ p, 0 < p) ps ->
  forallb (λ p, lim * p <? 2 ^ 32) ps = true ->
  major_loop m ps =
    if negb (bool_decide (ps = [])) && (MAX_MAJOR_CYCLE_MS <? Z.lcm m (list_lcm ps))
    then Throw "Major cycle exceeds maximum allowed value"
    else Ok (Z.lcm m (list_lcm ps)).
Proof.
  intros Hm Hlim Hps. revert m Hm. induction Hps as [|p ps Hp Hps IH]; intros m Hm Hfit.
  { simpl. by rewrite Z.lcm_1_r, Z.abs_eq by lia. }
  simpl in Hfit. to_prop. pose proof (list_lcm_pos ps Hps) as Hpos.
  cbn [major_loop]. rewrite lcm_correct by nia.
  cbn [list_lcm foldr]. fold (list_lcm ps). rewrite Z.lcm_assoc.
  pose proof (lcm_ge_l m p ltac:(lia) ltac:(lia)) as Hge.
  pose proof (lcm_ge_l (Z.lcm m p) (list_lcm ps) ltac:(lia) ltac:(lia)) as Hge'.
  rewrite (bool_decide_false (p :: ps = [])) by done. simpl negb. rewrite andb_true_l.
  destruct (Z.ltb_spec MAX_MAJOR_CYCLE_MS (Z.lcm m p)) as [Hgt|Hle].
  - by rewrite (proj2 (Z.ltb_lt _ _)) by lia.
  - rewrite IH by (done || lia). case_bool_decide as Hnil; [|done]. subst ps. simpl.
    rewrite Z.lcm_1_r, Z.abs_eq by lia. by rewrite (proj2 (Z.ltb_ge _ _)) by lia.
Qed.

Lemma minor_spec p0 ps :
  in_u32 p0 -> Forall in_u32 ps -> foldl gcd p0 ps = Z.gcd p0 (list_gcd ps).
Proof.
  intros Hp0 Hps. revert p0 Hp0. induction Hps as [|p ps Hp Hps IH]; intros p0 Hp0; simpl.
  { unfold in_u32 in Hp0. rewrite Z.gcd_0_r. lia. }
  rewrite gcd_correct by done. fold (list_gcd ps). rewrite IH, Z.gcd_assoc; [done|].
  unfold in_u32 in *. pose proof (Z.gcd_nonneg p0 p).
  destruct (Z.eq_dec p0 0) as [->|]; [rewrite Z.gcd_0_l; lia|].
  pose proof (Z.divide_pos_le (Z.gcd p0 p) p0 ltac:(lia) (Z.gcd_divide_l p0 p)). lia.
Qed.

Lemma no_zero_period ps : Forall (λ p, 0 < p) ps -> existsb (Z.eqb 0) ps = false.
Proof.
  induction 1 as [|p ps Hp _ IH]; [done|]. cbn [existsb]. rewrite IH, orb_false_r.
  apply Z.eqb_neq. lia.
Qed.

Lemma calculate_spec p0 rest :
  0 < p0 -> Forall (λ p, 0 < p) rest -> Forall in_u32 (p0 :: rest) ->
  products_fit (p0 :: rest) = true ->
  calculate (p0 :: rest) =
    let minor := list_gcd (p0 :: rest) in let major := list_lcm (p0 :: rest) in
    if negb (bool_decide (rest = [])) && (MAX_MAJOR_CYCLE_MS <? major)
    then Throw "Major cycle exceeds maximum allowed value"
    else Ok (mkScheduleParams minor major (major / minor)).
Proof.
  intros Hp0 Hrest Hu Hfit. apply Forall_cons in Hu as [Hu0 Hu].
  unfold calculate. rewrite no_zero_period by (by constructor).
  rewrite (major_loop_spec p0 rest (Z.max p0 MAX_MAJOR_CYCLE_MS)) by (done || lia).
  rewrite minor_spec by done. unfold list_gcd, list_lcm. cbn [foldr]. by destruct (negb _ && _).
Qed.

(** ** What the schedule guarantees *)

Lemma list_gcd_divides ps p : p ∈ ps -> (list_gcd ps | p).
Proof.
  induction 1 as [p ps|p q ps Hin IH]; simpl; [apply Z.gcd_divide_l|].
  etransitivity; [apply Z.gcd_divide_r|exact IH].
Qed.

Lemma list_lcm_multiple ps p : p ∈ ps -> (p | list_lcm ps).
Proof.
  induction 1 as [p ps|p q ps Hin IH]; simpl; [apply Z.divide_lcm_l|].
  etransitivity; [exact IH|apply Z.divide_lcm_r].
Qed.

Lemma list_gcd_greatest ps d : Forall (λ p, (d | p)) ps -> (d | list_gcd ps).
Proof. induction 1; simpl; [apply Z.divide_0_r|by apply Z.gcd_greatest]. Qed.

Lemma list_lcm_least ps m : Forall (λ p, (p | m)) ps -> (list_lcm ps | m).
Proof. induction 1; simpl; [apply Z.divide_1_l|by apply Z.lcm_least]. Qed.

(** What a caller of [calculate] relies on. *)
Record schedule_ok (ps : list Z) (sp : ScheduleParams) : Prop := {
  ok_minor_pos : 0 < minor_cycle_ms sp;
  ok_major_pos : 0 < major_cycle_ms sp;
  ok_slots : major_cycle_ms sp = num_slots sp * minor_cycle_ms sp;
  ok_slots_bound : num_slots sp <= 1000;
  ok_minor : forall p, p ∈ ps -> (minor_cycle_ms sp | p);
  ok_major : forall p, p ∈ ps -> (p | major_cycle_ms sp);
  ok_greatest : forall d, (forall p, p ∈ ps -> (d | p)) -> (d | minor_cycle_ms sp);
  ok_least : forall m, (forall p, p ∈ ps -> (p | m)) -> (major_cycle_ms sp | m)
}.

Lemma calculate_ok ps sp :
  Forall (λ p, 0 < p) ps -> Forall in_u32 ps -> products_fit ps = true ->
  calculate ps = Ok sp -> schedule_ok ps sp.
Proof.
  destruct ps as [|p0 rest]; [done|]. intros Hpos Hu Hfit.
  pose proof Hpos as [Hp0 Hrest]%Forall_cons. rewrite calculate_spec by done. cbv zeta.
  case_match; [done|]. intros [= <-].
  assert (Hin : p0 ∈ p0 :: rest) by constructor.
  pose proof (list_lcm_pos _ Hpos) as Hl.
  pose proof (list_gcd_divides _ _ Hin) as Hg. pose proof (list_lcm_multiple _ _ Hin) as Hm.
  assert (Hg0 : 0 < list_gcd (p0 :: rest)).
  { pose proof (Z.gcd_nonneg p0 (list_gcd rest)) as H0. fold (list_gcd (p0 :: rest)) in H0.
    destruct (Z.eq_dec (list_gcd (p0 :: rest)) 0) as [E|]; [|unfold list_gcd in *; cbn [foldr] in *; lia].
    rewrite E in Hg. apply Z.divide_0_l in Hg. lia. }
  assert (Hd : (list_gcd (p0 :: rest) | list_lcm (p0 :: rest))) by (by etransitivity).
  constructor; cbn [minor_cycle_ms major_cycle_ms num_slots]; try done.
  - change (list_lcm (p0 :: rest) =
      list_lcm (p0 :: rest) / list_gcd (p0 :: rest) * list_gcd (p0 :: rest)).
    destruct Hd as [k Hk]. by rewrite Hk, Z.div_mul by lia.
  - change (list_lcm (p0 :: rest) / list_gcd (p0 :: rest) <= 1000).
    match goal with H : negb _ && _ = false |- _ =>
      apply andb_false_iff in H as [Hone|Hlim] end.
    + apply negb_false_iff, bool_decide_eq_true in Hone as ->. unfold list_lcm, list_gcd.
      cbn [foldr]. rewrite Z.lcm_1_r, Z.gcd_0_r, Z.div_same by lia. lia.
    + unfold MAX_MAJOR_CYCLE_MS in Hlim. apply Z.ltb_ge in Hlim.
      apply Z.div_le_upper_bound; nia.
  - apply list_gcd_divides.
  - apply list_lcm_multiple.
  - intros d Hall. apply (list_gcd_greatest (p0 :: rest)), Forall_forall. exact Hall.
  - intros m Hall. apply (list_lcm_least (p0 :: rest)), Forall_forall. exact Hall.
Qed.

(** The schedule calculator is correct.  For positive 32-bit periods whose
    products fit in 32 bits (all periods up to 65535 ms, for instance),
    calculate throws exactly when there are several periods and their least
    common multiple exceeds 1000 ms; otherwise the minor cycle is the greatest
    common divisor of the periods, the major cycle their least common multiple,
    and the slots partition the major cycle. *)
Theorem calculate_gives_gcd_and_lcm p0 rest :
  0 < p0 -> Forall (λ p, 0 < p) rest -> Forall in_u32 (p0 :: rest) ->
  products_fit (p0 :: rest) = true ->
  if negb (bool_decide (rest = [])) && (1000 <? list_lcm (p0 :: rest))
  then calculate (p0 :: rest) = Throw "Major cycle exceeds maximum allowed value"
  else exists sp, calculate (p0 :: rest) = Ok sp /\ schedule_ok (p0 :: rest) sp.
Proof.
  intros Hp0 Hrest Hu Hfit. pose proof (calculate_spec p0 rest Hp0 Hrest Hu Hfit) as H.
  cbv zeta in H. unfold MAX_MAJOR_CYCLE_MS in H. destruct (negb _ && _); [done|].
  eexists. split; [exact H|]. by apply calculate_ok; [constructor|..].
Qed.

Lemma calculate_gives_gcd_and_lcm_witness :
  exists sp, calculate [10; 20; 50] = Ok sp /\ schedule_ok [10; 20; 50] sp.
Proof.
  apply (calculate_gives_gcd_and_lcm 10 [20; 50]);
    [lia|repeat constructor..|reflexivity]; unfold in_u32; lia.
Defined.

(** The guard against long major cycles can be defeated by 32-bit overflow.
    For the periods 9 ms and 2863311531 ms, whose least common multiple is
    8589934593 ms, lcm wraps around to 1 and calculate returns a schedule with
    a 3 ms minor cycle, a 1 ms major cycle and no slot at all. *)
Theorem lcm_overflow_accepts_invalid_schedule :
  list_lcm [9; 2863311531] = 8589934593 /\
  calculate [9; 2863311531] = Ok (mkScheduleParams 3 1 0).
Proof. split; by_compute. Qed.
