(* ===== verification/RTStateMachine.v ===== *)
(** * RTStateMachine (src/core/rt/RTStateMachine.{h,cpp})

    The states and events of the real-time process.  The callback acts on a
    state [W] that belongs to whoever registered it. *)

From S2P Require Import Prelude.

Inductive RTState :=
| RT_INIT | RT_READY | RT_RUNNING | RT_PAUSED | RT_SAFE_MODE | RT_ERROR | RT_SHUTDOWN.

Inductive RTEvent :=
| EV_START | EV_PAUSE | EV_RESUME | EV_STOP | EV_ERROR_OCCUR
| EV_SAFE_MODE_ENTER | EV_SAFE_MODE_EXIT | EV_RESET.

#[export] Instance RTState_eq_dec : EqDecision RTState.
Proof. solve_decision. Defined.
#[export] Instance RTEvent_eq_dec : EqDecision RTEvent.
Proof. solve_decision. Defined.

Definition stateToString (s : RTState) : string :=
  match s with
  | RT_INIT => "INIT" | RT_READY => "READY" | RT_RUNNING => "RUNNING" | RT_PAUSED => "PAUSED"
  | RT_SAFE_MODE => "SAFE_MODE" | RT_ERROR => "ERROR" | RT_SHUTDOWN => "SHUTDOWN"
  end.

Definition eventToString (e : RTEvent) : string :=
  match e with
  | EV_START => "START" | EV_PAUSE => "PAUSE" | EV_RESUME => "RESUME" | EV_STOP => "STOP"
  | EV_ERROR_OCCUR => "ERROR_OCCUR" | EV_SAFE_MODE_ENTER => "SAFE_MODE_ENTER"
  | EV_SAFE_MODE_EXIT => "SAFE_MODE_EXIT" | EV_RESET => "RESET"
  end.

(** The [switch] of [handleEvent]. *)
Definition next_state (s : RTState) (e : RTEvent) : RTState :=
  match s, e with
  | RT_INIT, EV_START => RT_READY
  | RT_INIT, EV_ERROR_OCCUR => RT_ERROR
  | RT_READY, EV_START => RT_RUNNING
  | RT_READY, EV_ERROR_OCCUR => RT_ERROR
  | RT_READY, EV_STOP => RT_SHUTDOWN
  | RT_RUNNING, EV_PAUSE => RT_PAUSED
  | RT_RUNNING, EV_STOP => RT_SHUTDOWN
  | RT_RUNNING, EV_ERROR_OCCUR => RT_ERROR
  | RT_RUNNING, EV_SAFE_MODE_ENTER => RT_SAFE_MODE
  | RT_PAUSED, EV_RESUME => RT_RUNNING
  | RT_PAUSED, EV_STOP => RT_SHUTDOWN
  | RT_PAUSED, EV_ERROR_OCCUR => RT_ERROR
  | RT_SAFE_MODE, EV_SAFE_MODE_EXIT => RT_RUNNING
  | RT_SAFE_MODE, EV_STOP => RT_SHUTDOWN
  | RT_SAFE_MODE, EV_ERROR_OCCUR => RT_ERROR
  | RT_ERROR, EV_RESET => RT_INIT
  | RT_ERROR, EV_STOP => RT_SHUTDOWN
  | s, _ => s
  end.

Record RTStateMachine (W : Type) := mkRTStateMachine {
  current_state_ : RTState;
  transition_callback_ : option (RTState -> RTState -> RTEvent -> W -> W)
}.
Arguments mkRTStateMachine {W}.
Arguments current_state_ {W} _.
Arguments transition_callback_ {W} _.

Section RTStateMachine.
Context {W : Type}.
Implicit Types (sm : RTStateMachine W) (w : W).

Definition newRTStateMachine : RTStateMachine W := mkRTStateMachine RT_INIT None.

Definition setTransitionCallback (cb : RTState -> RTState -> RTEvent -> W -> W) sm :=
  mkRTStateMachine (current_state_ sm) (Some cb).

(** [transitionTo]: the callback sees the new state. *)
Definition rt_transitionTo (new_state : RTState) (ev : RTEvent) sm w : RTStateMachine W * W :=
  let old_state := current_state_ sm in
  let sm := mkRTStateMachine new_state (transition_callback_ sm) in
  (sm, match transition_callback_ sm with
       | Some cb => cb old_state new_state ev w
       | None => w
       end).

(** 0 on success, -1 when the event is not accepted. *)
Definition handleEvent (ev : RTEvent) sm w : Z * (RTStateMachine W * W) :=
  let next := next_state (current_state_ sm) ev in
  if bool_decide (next = current_state_ sm) then (-1, (sm, w))
  else (0, rt_transitionTo next ev sm w).

Fixpoint handleEvents (evs : list RTEvent) sm w : RTStateMachine W * W :=
  match evs with
  | [] => (sm, w)
  | ev :: evs => let '(sm, w) := snd (handleEvent ev sm w) in handleEvents evs sm w
  end.

Lemma handleEvent_state ev sm w :
  current_state_ (fst (snd (handleEvent ev sm w))) = next_state (current_state_ sm) ev.
Proof. unfold handleEvent. case_bool_decide as H; [by rewrite H|done]. Qed.

Lemma handleEvents_state evs sm w :
  current_state_ (fst (handleEvents evs sm w)) = foldl next_state (current_state_ sm) evs.
Proof.
  revert sm w. induction evs as [|ev evs IH]; intros sm w; [done|]. simpl.
  rewrite <- (handleEvent_state ev sm w). destruct (snd (handleEvent ev sm w)). apply IH.
Qed.
End RTStateMachine.

(** The events that still have to occur, in order, before RUNNING. *)
Definition path_to_running (s : RTState) : list RTEvent :=
  match s with
  | RT_ERROR => [EV_RESET; EV_START; EV_START]
  | RT_INIT => [EV_START; EV_START]
  | RT_READY => [EV_START]
  | _ => []
  end.

Lemma running_needs_path s evs :
  foldl next_state s evs = RT_RUNNING ->
  s <> RT_SHUTDOWN /\ path_to_running s `sublist_of` evs.
Proof.
  revert s. induction evs as [|ev evs IH]; intros s; simpl.
  { intros ->. split; [done|constructor]. }
  intros [Hn Hs]%IH. split; [by intros ->; destruct ev|].
  destruct s, ev; simpl in Hs |- *; try done; try (by apply sublist_nil_l);
    try (by apply sublist_skip); try (by apply sublist_cons).
  all: apply sublist_cons; etrans; [|exact Hs]; repeat constructor.
Qed.

(** After an error the real-time process runs again only through a reset
    and two starts: in any sequence of events that takes a state machine from
    ERROR to RUNNING, RESET, START and START occur in this order. *)
Theorem error_recovery_needs_reset_and_restart {W} (evs : list RTEvent) (sm : RTStateMachine W) w :
  current_state_ sm = RT_ERROR ->
  current_state_ (fst (handleEvents evs sm w)) = RT_RUNNING ->
  [EV_RESET; EV_START; EV_START] `sublist_of` evs.
Proof.
  intros Hs. rewrite handleEvents_state, Hs. intros H. by apply running_needs_path in H as [_ H].
Qed.

Lemma error_recovery_needs_reset_and_restart_witness :
  [EV_RESET; EV_START; EV_START] `sublist_of`
    [EV_START; EV_RESET; EV_PAUSE; EV_START; EV_RESUME; EV_START].
Proof.
  apply (error_recovery_needs_reset_and_restart _ (mkRTStateMachine (W := unit) RT_ERROR None) tt);
    reflexivity.
Defined.

(** The transitions reported to the callback form a path. *)
Fixpoint transition_chain (from : RTState) (log : list (RTState * RTState * RTEvent)) (to : RTState) : Prop :=
  match log with
  | [] => from = to
  | (a, b, ev) :: log =>
    a = from /\ a <> b /\ next_state a ev = b /\ transition_chain b log to
  end.

Definition recording_callback (from to : RTState) (ev : RTEvent) (log : list (RTState * RTState * RTEvent)) :=
  log ++ [(from, to, ev)].

Lemma transition_chain_snoc from log a b ev :
  transition_chain from log a -> a <> b -> next_state a ev = b ->
  transition_chain from (log ++ [(a, b, ev)]) b.
Proof.
  revert from. induction log as [|[[x y] e] log IH]; intros from; simpl; [by intros ->|].
  intros (-> & ? & ? & ?) ? ?. auto.
Qed.

Lemma handleEvents_chain s0 evs sm log :
  transition_callback_ sm = Some recording_callback -> transition_chain s0 log (current_state_ sm) ->
  let '(sm', log') := handleEvents evs sm log in transition_chain s0 log' (current_state_ sm').
Proof.
  revert sm log. induction evs as [|ev evs IH]; intros sm log Hcb Hch; simpl; [done|].
  unfold handleEvent. case_bool_decide as Heq; simpl; [by apply IH|]. rewrite Hcb. apply IH; [done|].
  simpl. apply transition_chain_snoc; [done|congruence|done].
Qed.

(** The transition callback reports the complete history.  For every
    sequence of events, the transitions it receives form a path from INIT to
    the current state, in which every step changes the state and is the one
    the event prescribes; rejected events report nothing. *)
Theorem transition_callback_reports_path evs :
  let sm := setTransitionCallback recording_callback newRTStateMachine in
  let '(sm', log) := handleEvents evs sm [] in
  transition_chain RT_INIT log (current_state_ sm').
Proof. by apply handleEvents_chain. Qed.
