(* ===== verification/RTExecutive.v ===== *)
(** * RTExecutive (src/core/rt/RTExecutive.{h,cpp})

    The cyclic executive: slots, action registration, the body of the run loop,
    heartbeat supervision and initialization hooks.  The performance monitor
    and the metrics are used through the interfaces [IPerf] and [IPerfMetrics],
    whose calls may be undefined, and a cycle with them ([ExecutivePerf] puts
    the monitor of [PerfMonitor] there); the callbacks of the actions act on an
    outside state [W].  The scheduling, affinity and sleeping system calls of
    [run] change nothing of this state and are left out; what [run] reads from
    the clocks and from shared memory in one cycle is a [CycleInput]. *)

From S2P Require Import Prelude Interfaces RTSchedule RTStateMachine.

Record RTContext := mkRTContext {
  ctx_current_slot : Z;
  ctx_cycle_count : Z;
  ctx_timestamp_ns : Z
}.

(** Events of event/dto/RTEvents.h. *)
Inductive RTBusEvent :=
| RTStateChangedEvent (from to trigger : string)
| RTSafeModeEnteredEvent (timeout_ms : Z) (reason : string)
| RTSafeModeExitedEvent (downtime_ms : Z).

(** The heartbeats of [SharedMemoryData]. *)
Record Heartbeats := mkHeartbeats { rt_heartbeat_ns : Z; nonrt_heartbeat_ns : Z }.

Definition HEARTBEAT_TIMEOUT_NS : Z := 500000000.

(** PerfMonitor [P] and RTMetrics [M] as the loop uses them, with the readings
    of the clock the monitor makes; [metrics_update] stands for the updates made
    every 1000 cycles from [getStats].  [None]: the call is undefined or does
    not return. *)
Class IPerf (P : Type) := {
  new_perf : P;
  startCycle : Z -> P -> P;
  endCycle : Z -> P -> option P;
  didMissDeadline : P -> bool
}.
Class IPerfMetrics (P M : Type) := {
  metrics_update : P -> M -> option M;
  incrementPerfDeadlineMisses : M -> M
}.

Record ActionSlot (W : Type) := mkActionSlot {
  action_name : string;
  period_ms : Z;
  callback : option (RTContext -> W -> RTContext * W);
  guard : option (RTState -> bool);
  next_slot : Z
}.
Arguments mkActionSlot {W}.
Arguments action_name {W} _.
Arguments period_ms {W} _.
Arguments callback {W} _.
Arguments guard {W} _.
Arguments next_slot {W} _.

(** A hook acts on the outside state and may throw an exception. *)
Record InitHook (W : Type) := mkInitHook {
  hook_name : string;
  hook : W -> W * option string
}.
Arguments mkInitHook {W}.
Arguments hook_name {W} _.
Arguments hook {W} _.

Record RTExecutive (W B P M : Type) := mkRTExecutive {
  minor_cycle_ms_ : Z;
  major_cycle_ms_ : Z;
  num_slots_ : Z;
  running_ : bool;
  current_slot_ : Z;
  cycle_count_ : Z;
  context_ : RTContext;
  state_machine_ : RTStateMachine (option B);
  shared_memory_ : option Heartbeats;
  heartbeat_monitoring_enabled_ : bool;
  last_heartbeat_check_ns_ : Z;
  safe_mode_enter_time_ns_ : Z;
  rt_event_bus_ : option B;
  schedule_ : list (list (ActionSlot W));
  init_hooks_ : list (InitHook W);
  perf_monitor_ : P;
  rt_metrics_ : option M;
  world_ : W
}.
Arguments mkRTExecutive {W B P M}.
Arguments minor_cycle_ms_ {W B P M} _.
Arguments major_cycle_ms_ {W B P M} _.
Arguments num_slots_ {W B P M} _.
Arguments running_ {W B P M} _.
Arguments current_slot_ {W B P M} _.
Arguments cycle_count_ {W B P M} _.
Arguments context_ {W B P M} _.
Arguments state_machine_ {W B P M} _.
Arguments shared_memory_ {W B P M} _.
Arguments heartbeat_monitoring_enabled_ {W B P M} _.
Arguments last_heartbeat_check_ns_ {W B P M} _.
Arguments safe_mode_enter_time_ns_ {W B P M} _.
Arguments rt_event_bus_ {W B P M} _.
Arguments schedule_ {W B P M} _.
Arguments init_hooks_ {W B P M} _.
Arguments perf_monitor_ {W B P M} _.
Arguments rt_metrics_ {W B P M} _.
Arguments world_ {W B P M} _.

Section RTExecutive.
Context {W B P M : Type} `{!IEventBus RTBusEvent B} `{!IPerf P} `{!IPerfMetrics P M}.
Implicit Types (e : RTExecutive W B P M).

(** *** Field updates *)

Definition set_loop (ru : bool) (slot count : Z) e :=
  mkRTExecutive (minor_cycle_ms_ e) (major_cycle_ms_ e) (num_slots_ e) ru slot count (context_ e)
    (state_machine_ e) (shared_memory_ e) (heartbeat_monitoring_enabled_ e)
    (last_heartbeat_check_ns_ e) (safe_mode_enter_time_ns_ e) (rt_event_bus_ e) (schedule_ e)
    (init_hooks_ e) (perf_monitor_ e) (rt_metrics_ e) (world_ e).
Definition set_context (c : RTContext) (w : W) e :=
  mkRTExecutive (minor_cycle_ms_ e) (major_cycle_ms_ e) (num_slots_ e) (running_ e)
    (current_slot_ e) (cycle_count_ e) c (state_machine_ e) (shared_memory_ e)
    (heartbeat_monitoring_enabled_ e) (last_heartbeat_check_ns_ e) (safe_mode_enter_time_ns_ e)
    (rt_event_bus_ e) (schedule_ e) (init_hooks_ e) (perf_monitor_ e) (rt_metrics_ e) w.
Definition set_machine (sm : RTStateMachine (option B)) (eb : option B) e :=
  mkRTExecutive (minor_cycle_ms_ e) (major_cycle_ms_ e) (num_slots_ e) (running_ e)
    (current_slot_ e) (cycle_count_ e) (context_ e) sm (shared_memory_ e)
    (heartbeat_monitoring_enabled_ e) (last_heartbeat_check_ns_ e) (safe_mode_enter_time_ns_ e)
    eb (schedule_ e) (init_hooks_ e) (perf_monitor_ e) (rt_metrics_ e) (world_ e).
Definition set_heartbeat (shm : option Heartbeats) (en : bool) (last safe : Z) e :=
  mkRTExecutive (minor_cycle_ms_ e) (major_cycle_ms_ e) (num_slots_ e) (running_ e)
    (current_slot_ e) (cycle_count_ e) (context_ e) (state_machine_ e) shm en last safe
    (rt_event_bus_ e) (schedule_ e) (init_hooks_ e) (perf_monitor_ e) (rt_metrics_ e) (world_ e).
Definition set_schedule (sch : list (list (ActionSlot W))) e :=
  mkRTExecutive (minor_cycle_ms_ e) (major_cycle_ms_ e) (num_slots_ e) (running_ e)
    (current_slot_ e) (cycle_count_ e) (context_ e) (state_machine_ e) (shared_memory_ e)
    (heartbeat_monitoring_enabled_ e) (last_heartbeat_check_ns_ e) (safe_mode_enter_time_ns_ e)
    (rt_event_bus_ e) sch (init_hooks_ e) (perf_monitor_ e) (rt_metrics_ e) (world_ e).
Definition set_perf (hooks : list (InitHook W)) (p : P) (m : option M) e :=
  mkRTExecutive (minor_cycle_ms_ e) (major_cycle_ms_ e) (num_slots_ e) (running_ e)
    (current_slot_ e) (cycle_count_ e) (context_ e) (state_machine_ e) (shared_memory_ e)
    (heartbeat_monitoring_enabled_ e) (last_heartbeat_check_ns_ e) (safe_mode_enter_time_ns_ e)
    (rt_event_bus_ e) (schedule_ e) hooks p m (world_ e).

Definition set_safe_enter (t : Z) e :=
  set_heartbeat (shared_memory_ e) (heartbeat_monitoring_enabled_ e) (last_heartbeat_check_ns_ e) t e.
Definition set_shm (shm : option Heartbeats) e :=
  set_heartbeat shm (heartbeat_monitoring_enabled_ e) (last_heartbeat_check_ns_ e)
    (safe_mode_enter_time_ns_ e) e.

(** *** State machine and events *)

Definition getState e : RTState := current_state_ (state_machine_ e).

(** [state_machine_->handleEvent(ev)]: its callback publishes on the bus. *)
Definition machine_event (ev : RTEvent) e : RTExecutive W B P M :=
  let '(sm, eb) := snd (RTStateMachine.handleEvent ev (state_machine_ e) (rt_event_bus_ e)) in
  set_machine sm eb e.

(** [if (event_bus_) event_bus_->publish(...)]. *)
Definition rt_publish (ev : RTBusEvent) e : RTExecutive W B P M :=
  set_machine (state_machine_ e) (eb_publish ev <$> rt_event_bus_ e) e.

Definition state_changed (from to : RTState) (ev : RTEvent) (eb : option B) : option B :=
  eb_publish (RTStateChangedEvent (stateToString from) (stateToString to) (eventToString ev)) <$> eb.

(** *** Construction; [minor] = 0 divides by zero in the code. *)

Definition newRTExecutive (minor major : Z) (eb : option B) (w : W) : RTExecutive W B P M :=
  let slots := major / minor in
  let sm := newRTStateMachine in
  let sm := match eb with Some _ => setTransitionCallback state_changed sm | None => sm end in
  let e := mkRTExecutive minor major slots false 0 0 (mkRTContext 0 0 0) sm None false 0 0 eb
             (replicate (Z.to_nat slots) []) [] new_perf None w in
  machine_event EV_START e.

Definition createFromPeriods (periods : list Z) (eb : option B) (w : W) :
    option (RTExecutive W B P M) :=
  match calculate periods with
  | Ok params => Some (newRTExecutive (minor_cycle_ms params) (major_cycle_ms params) eb w)
  | Throw _ => None
  end.

(** *** Action registration

    [for (slot = 0; slot < num_slots_; slot += slot_interval) push_back]; the
    loop gets as much fuel as there are slots, [None] when that is not enough. *)
Fixpoint register_loop (fuel : nat) (slot interval slots : Z) (a : ActionSlot W)
    (sch : list (list (ActionSlot W))) : option (list (list (ActionSlot W))) :=
  if slot <? slots then
    match fuel with
    | O => None
    | S fuel =>
      register_loop fuel (u32 (slot + interval)) interval slots a
        (alter (λ l, l ++ [a]) (Z.to_nat slot) sch)
    end
  else Some sch.

Definition registerAction (name : string) (period : Z)
    (cb : option (RTContext -> W -> RTContext * W)) (gd : option (RTState -> bool)) e :
    option (Z * RTExecutive W B P M) :=
  if negb (period mod minor_cycle_ms_ e =? 0) then Some (-1, e)
  else
    let slot_interval := period / minor_cycle_ms_ e in
    let a := mkActionSlot name period cb gd slot_interval in
    match register_loop (Z.to_nat (num_slots_ e)) 0 slot_interval (num_slots_ e) a (schedule_ e) with
    | Some sch => Some (0, set_schedule sch e)
    | None => None
    end.

(** *** The run loop *)

Definition execute_action (e : RTExecutive W B P M) (a : ActionSlot W) : RTExecutive W B P M :=
  let run :=
    match callback a with
    | Some cb => let '(c, w) := cb (context_ e) (world_ e) in set_context c w e
    | None => e
    end in
  match guard a with
  | Some g => if negb (g (getState e)) then e else run
  | None => run
  end.

Definition executeSlot (slot : Z) e : RTExecutive W B P M :=
  foldl execute_action e (default [] (schedule_ e !! Z.to_nat slot)).

(** [now] is the clock reading and [nonrt] the heartbeat loaded after it. *)
Definition checkHeartbeat (now nonrt : Z) e : RTExecutive W B P M :=
  match heartbeat_monitoring_enabled_ e, shared_memory_ e with
  | true, Some shm =>
    let time_since_last_hb := u64 (now - nonrt) in
    let e :=
      if HEARTBEAT_TIMEOUT_NS <? time_since_last_hb then
        if bool_decide (getState e = RT_RUNNING) then
          let e := set_safe_enter now e in
          let e := rt_publish (RTSafeModeEnteredEvent (time_since_last_hb / 1000000)
                                 "Non-RT heartbeat timeout") e in
          machine_event EV_SAFE_MODE_ENTER e
        else e
      else
        if bool_decide (getState e = RT_SAFE_MODE) then
          let e := if 0 <? safe_mode_enter_time_ns_ e
                   then rt_publish (RTSafeModeExitedEvent
                          (u64 (now - safe_mode_enter_time_ns_ e) / 1000000)) e
                   else e in
          let e := machine_event EV_SAFE_MODE_EXIT e in
          set_safe_enter 0 e
        else e in
    set_shm (Some (mkHeartbeats now nonrt)) e
  | _, _ => e
  end.

Definition stop e : RTExecutive W B P M :=
  if running_ e then
    let e := set_loop false (current_slot_ e) (cycle_count_ e) e in
    if bool_decide (getState e = RT_RUNNING) || bool_decide (getState e = RT_PAUSED)
    then machine_event EV_STOP e else e
  else e.

Definition setSharedMemory (shm : Heartbeats) (now : Z) e : RTExecutive W B P M :=
  set_heartbeat (Some shm) (heartbeat_monitoring_enabled_ e) now (safe_mode_enter_time_ns_ e) e.

Definition enableHeartbeatMonitoring (en : bool) e : RTExecutive W B P M :=
  set_heartbeat (shared_memory_ e) en (last_heartbeat_check_ns_ e) (safe_mode_enter_time_ns_ e) e.

(** What one cycle reads, and whether [stop] is called while it waits. *)
Record CycleInput := mkCycleInput {
  in_perf_start : Z;
  in_now : Z;
  in_nonrt_heartbeat : Z;
  in_perf_end : Z;
  in_stop : bool
}.

(** [getPerfMonitor()] hands out the monitor, and its client may change it. *)
Definition with_perf_monitor (f : P -> P) e : RTExecutive W B P M :=
  set_perf (init_hooks_ e) (f (perf_monitor_ e)) (rt_metrics_ e) e.

(** [configurePerfMonitor] only logs the path it is given. *)
Definition configurePerfMonitor (config_path : string) e : bool * RTExecutive W B P M := (true, e).

Definition perf_end (now : Z) e : option (RTExecutive W B P M) :=
  p ← endCycle now (perf_monitor_ e);
  m ← match rt_metrics_ e with
      | Some m => if cycle_count_ e mod 1000 =? 0 then Some <$> metrics_update p m else Some (Some m)
      | None => Some None
      end;
  let m := if didMissDeadline p then incrementPerfDeadlineMisses (P := P) <$> m else m in
  Some (set_perf (init_hooks_ e) p m e).

(** The part of [run] before the loop; [cycle_start_ns] is a clock reading. *)
Definition run_start e : RTExecutive W B P M :=
  let e := if bool_decide (getState e = RT_READY) then machine_event EV_START e else e in
  set_loop true 0 0 e.

(** One iteration of the loop of [run]. *)
Definition run_cycle (inp : CycleInput) (cycle_start_ns : Z) e : option (Z * RTExecutive W B P M) :=
  let cycle_duration_ns := minor_cycle_ms_ e * 1000000 in
  let e := with_perf_monitor (startCycle (in_perf_start inp)) e in
  let e := set_context (mkRTContext (current_slot_ e) (cycle_count_ e) cycle_start_ns) (world_ e) e in
  let e := checkHeartbeat (in_now inp) (in_nonrt_heartbeat inp) e in
  let e := executeSlot (current_slot_ e) e in
  e ← perf_end (in_perf_end inp) e;
  let e := set_loop (running_ e) (u32 (current_slot_ e + 1) mod num_slots_ e)
             (u64 (cycle_count_ e + 1)) e in
  let e := if in_stop inp then stop e else e in
  Some (u64 (cycle_start_ns + cycle_duration_ns), e).

Fixpoint run_loop (inps : list CycleInput) (cycle_start_ns : Z) e : option (Z * RTExecutive W B P M) :=
  match inps with
  | [] => Some (cycle_start_ns, e)
  | inp :: inps =>
    if running_ e then '(t, e) ← run_cycle inp cycle_start_ns e; run_loop inps t e
    else Some (cycle_start_ns, e)
  end.

(** *** Hooks and setters *)

Definition registerInitializationHook (h : InitHook W) e : RTExecutive W B P M :=
  set_perf (init_hooks_ e ++ [h]) (perf_monitor_ e) (rt_metrics_ e) e.

(** The first hook that throws ends the loop; the exception is rethrown. *)
Fixpoint run_hooks (hs : list (InitHook W)) (w : W) : W * option string :=
  match hs with
  | [] => (w, None)
  | h :: hs =>
    let '(w, err) := hook h w in
    match err with None => run_hooks hs w | Some _ => (w, err) end
  end.

Definition executeInitializationHooks e : option string * RTExecutive W B P M :=
  let '(w, err) := run_hooks (init_hooks_ e) (world_ e) in
  (err, set_context (context_ e) w e).

Definition setRTMetrics (m : M) e : RTExecutive W B P M :=
  set_perf (init_hooks_ e) (perf_monitor_ e) (Some m) e.

(** *** Registration fills exactly the slots of the period *)

Lemma register_loop_spec fuel slot interval slots a sch :
  0 < interval -> slots + interval <= 2 ^ 32 -> 0 <= slot -> (interval | slot) ->
  slots - slot <= Z.of_nat fuel ->
  exists sch', register_loop fuel slot interval slots a sch = Some sch' /\
    length sch' = length sch /\
    forall k, Z.of_nat k < slots ->
      sch' !! k = (if bool_decide (slot <= Z.of_nat k) && bool_decide ((interval | Z.of_nat k))
                   then (λ l, l ++ [a]) else id) <$> sch !! k.
Proof.
  intros Hi Hfit. revert slot sch. induction fuel as [|fuel IH]; intros slot sch Hs Hd Hf; simpl.
  all: destruct (Z.ltb_spec slot slots) as [Hlt|Hge]; [|exists sch; split_and!; [done..|];
    intros k Hk; rewrite bool_decide_false by lia; simpl; by destruct (sch !! k)].
  { lia. }
  rewrite u32_small by (unfold in_u32; lia).
  destruct (IH (slot + interval) (alter (λ l, l ++ [a]) (Z.to_nat slot) sch))
    as (sch' & -> & Hlen & Hk); [lia|by apply Z.divide_add_r|lia|].
  exists sch'. split_and!; [done|by rewrite Hlen, length_alter|]. intros k Hks. rewrite Hk by done.
  destruct (decide (Z.of_nat k = slot)) as [Hkeq|Hkne].
  - subst slot. rewrite Nat2Z.id, list_lookup_alter_eq.
    rewrite (bool_decide_false (_ + _ <= _)), (bool_decide_true (Z.of_nat k <= _)),
      (bool_decide_true (interval | _)) by (done || lia). simpl.
    rewrite option_fmap_id. by destruct (sch !! k).
  - rewrite list_lookup_alter_ne by lia.
    case_bool_decide as H1; [by rewrite (bool_decide_true (slot <= _)) by lia|]. simpl.
    destruct (bool_decide (slot <= Z.of_nat k) && bool_decide (interval | Z.of_nat k)) eqn:E; [|done].
    exfalso. to_prop. destruct Hd as [x ->].
    match goal with H : (interval | Z.of_nat k) |- _ => destruct H as [y Hy] end.
    rewrite Hy in *. assert (x < y) by nia. nia.
Qed.

(** What registration needs of the executive: the slots are the ones of the
    table, and sums of a slot and an interval do not overflow. *)
Record exec_ok (slot_actions : nat -> list (ActionSlot W)) e : Prop := {
  ok_minor_pos : 0 < minor_cycle_ms_ e;
  ok_num : 0 <= num_slots_ e <= 2 ^ 31;
  ok_len : Z.of_nat (length (schedule_ e)) = num_slots_ e;
  ok_slot : forall k, Z.of_nat k < num_slots_ e -> schedule_ e !! k = Some (slot_actions k)
}.

Lemma registerAction_ok sa name period cb gd e :
  exec_ok sa e -> 0 < period -> period / minor_cycle_ms_ e <= 2 ^ 31 -> (minor_cycle_ms_ e | period) ->
  exists sch, registerAction name period cb gd e = Some (0, set_schedule sch e) /\
    exec_ok (λ k, sa k ++
      (if bool_decide ((period | Z.of_nat k * minor_cycle_ms_ e))
       then [mkActionSlot name period cb gd (period / minor_cycle_ms_ e)] else []))
      (set_schedule sch e).
Proof.
  intros [Hm Hn Hl Hs] Hp Hpi [i Hi]. unfold registerAction.
  assert (Hmod : period mod minor_cycle_ms_ e = 0) by (rewrite Hi; apply Z.mod_mul; lia).
  assert (Hdiv : period / minor_cycle_ms_ e = i) by (rewrite Hi, Z.div_mul; lia).
  assert (0 < i) by nia. rewrite Hdiv in Hpi. rewrite Hmod. cbn [Z.eqb negb]. cbv zeta. rewrite Hdiv.
  destruct (register_loop_spec (Z.to_nat (num_slots_ e)) 0 i (num_slots_ e)
    (mkActionSlot name period cb gd i) (schedule_ e)) as (sch & -> & Hlen & Hk); try lia.
  { apply Z.divide_0_r. }
  exists sch. split; [done|]. constructor; simpl; try done.
  { by rewrite Hlen. }
  intros k Hks. rewrite (Hk k Hks), (Hs k Hks), bool_decide_true by lia. simpl.
  assert (Hiff : (i | Z.of_nat k) <-> (period | Z.of_nat k * minor_cycle_ms_ e)).
  { rewrite Hi. split; [by intros; apply Z.mul_divide_mono_r|].
    intros H'. apply (Z.mul_divide_cancel_r _ _ (minor_cycle_ms_ e)); [lia|done]. }
  rewrite (bool_decide_ext _ _ Hiff). case_match; simpl; by rewrite ?app_nil_r.
Qed.

(** Registering an action with period 0 never returns.  The check only asks
    for a multiple of the minor cycle, the slot interval is 0, and whatever
    number of iterations is allowed, the registration loop has not ended. *)
Theorem zero_period_registration_diverges fuel name cb gd e :
  0 < minor_cycle_ms_ e -> 0 < num_slots_ e ->
  0 mod minor_cycle_ms_ e = 0 /\
  register_loop fuel 0 (0 / minor_cycle_ms_ e) (num_slots_ e)
    (mkActionSlot name 0 cb gd (0 / minor_cycle_ms_ e)) (schedule_ e) = None.
Proof.
  intros Hm Hn. rewrite Z.mod_0_l, Z.div_0_l by lia. split; [done|].
  generalize (schedule_ e). induction fuel as [|fuel IH]; intros sch; simpl;
    rewrite (proj2 (Z.ltb_lt _ _)) by lia; [done|apply IH].
Qed.

(** *** The loop keeps its time base *)

Lemma machine_event_frame ev e :
  minor_cycle_ms_ (machine_event ev e) = minor_cycle_ms_ e /\
  num_slots_ (machine_event ev e) = num_slots_ e /\
  schedule_ (machine_event ev e) = schedule_ e /\
  current_slot_ (machine_event ev e) = current_slot_ e /\
  cycle_count_ (machine_event ev e) = cycle_count_ e /\
  running_ (machine_event ev e) = running_ e /\
  context_ (machine_event ev e) = context_ e /\ world_ (machine_event ev e) = world_ e.
Proof. unfold machine_event. by destruct (snd _) as [sm eb]. Qed.

(** The fields the loop counters depend on. *)
Definition loop_frame e :=
  (minor_cycle_ms_ e, num_slots_ e, schedule_ e, current_slot_ e, cycle_count_ e, running_ e).

Lemma machine_event_loop ev e : loop_frame (machine_event ev e) = loop_frame e.
Proof. unfold machine_event. by destruct (snd _) as [sm eb]. Qed.

Lemma checkHeartbeat_loop now nonrt e : loop_frame (checkHeartbeat now nonrt e) = loop_frame e.
Proof.
  unfold checkHeartbeat.
  repeat (case_match; try done);
  match goal with |- loop_frame (set_shm _ (set_safe_enter _ (machine_event ?ev ?x))) = _ =>
    exact (machine_event_loop ev x)
  | |- loop_frame (set_shm _ (machine_event ?ev ?x)) = _ => exact (machine_event_loop ev x) end.
Qed.

Lemma executeSlot_loop slot e : loop_frame (executeSlot slot e) = loop_frame e.
Proof.
  unfold executeSlot. generalize (default [] (schedule_ e !! Z.to_nat slot)). intros l.
  revert e. induction l as [|a l IH]; intros e; [done|]. simpl. rewrite IH.
  unfold execute_action. repeat (case_match; simplify_eq/=; try done).
Qed.

(** Only the monitor and the metrics change. *)
Lemma perf_end_frame now e e' :
  perf_end now e = Some e' -> e' = set_perf (init_hooks_ e) (perf_monitor_ e') (rt_metrics_ e') e.
Proof.
  unfold perf_end. intros H. apply bind_Some in H as (p & _ & H). apply bind_Some in H as (m & _ & H).
  by injection H as <-.
Qed.

Lemma run_cycle_loop inp t e t' e' :
  in_stop inp = false -> run_cycle inp t e = Some (t', e') ->
  t' = u64 (t + minor_cycle_ms_ e * 1000000) /\
  loop_frame e' =
    (minor_cycle_ms_ e, num_slots_ e, schedule_ e, u32 (current_slot_ e + 1) mod num_slots_ e,
     u64 (cycle_count_ e + 1), running_ e).
Proof.
  intros Hst. unfold run_cycle. rewrite Hst. cbv zeta.
  set (e1 := set_context _ _ _). pose proof (checkHeartbeat_loop (in_now inp) (in_nonrt_heartbeat inp) e1) as H1.
  set (e2 := checkHeartbeat _ _ e1) in *. pose proof (executeSlot_loop (current_slot_ e2) e2) as H2.
  rewrite H1 in H2. set (e3 := executeSlot _ e2) in *. clearbody e3. clear H1.
  intros (e4 & ->%perf_end_frame & H)%bind_Some. injection H as <- <-. split; [done|].
  unfold loop_frame in *. simpl in H2. injection H2 as Ha Hb Hc Hd He Hf. simpl. by rewrite Ha, Hb, Hc, Hd, He, Hf.
Qed.

Definition no_stop (inps : list CycleInput) : bool := forallb (negb ∘ in_stop) inps.

Lemma run_loop_app inps1 inps2 t e :
  running_ e = true -> no_stop inps1 = true ->
  run_loop (inps1 ++ inps2) t e = '(t', e') ← run_loop inps1 t e; run_loop inps2 t' e'.
Proof.
  revert t e. induction inps1 as [|inp inps1 IH]; intros t e Hr Hns; [done|].
  cbn [app run_loop]. rewrite Hr. simpl in Hns. to_prop.
  destruct (run_cycle inp t e) as [[t' e']|] eqn:Hrun; [|done]. cbn [mbind option_bind]. apply IH; [|done].
  apply run_cycle_loop in Hrun as [_ H1]; [|done]. unfold loop_frame in H1. injection H1. congruence.
Qed.

(** State of the loop after [n] undisturbed cycles from [run_start]. *)
Definition at_cycle (n : nat) (t0 t : Z) e0 e : Prop :=
  t = u64 (t0 + Z.of_nat n * (minor_cycle_ms_ e0 * 1000000)) /\
  loop_frame e = (minor_cycle_ms_ e0, num_slots_ e0, schedule_ e0,
                  Z.of_nat n mod num_slots_ e0, u64 (Z.of_nat n), true).

(** The last cycle of a run. *)
Lemma run_loop_snoc inps inp t0 e0 t e :
  running_ e0 = true -> no_stop (inps ++ [inp]) = true -> run_loop (inps ++ [inp]) t0 e0 = Some (t, e) ->
  no_stop inps = true /\ in_stop inp = false /\
  exists t1 e1, run_loop inps t0 e0 = Some (t1, e1) /\
    (running_ e1 = true -> run_cycle inp t1 e1 = Some (t, e)).
Proof.
  intros Hr Hns. unfold no_stop in Hns. rewrite forallb_app in Hns. apply andb_true_iff in Hns as [Hns Hi].
  simpl in Hi. to_prop. rewrite run_loop_app by done. intros ([t1 e1] & H1 & H2)%bind_Some.
  split_and!; [done..|]. exists t1, e1. split; [done|]. intros Hr1. cbn [run_loop] in H2. rewrite Hr1 in H2.
  by apply bind_Some in H2 as ([t2 e2] & -> & [= <- <-]).
Qed.

Lemma run_loop_at_cycle inps t0 e0 t e :
  in_u64 t0 -> 0 < num_slots_ e0 < 2 ^ 32 -> no_stop inps = true ->
  running_ e0 = true -> current_slot_ e0 = 0 -> cycle_count_ e0 = 0 ->
  run_loop inps t0 e0 = Some (t, e) -> at_cycle (length inps) t0 t e0 e.
Proof.
  intros Ht Hn Hns Hr Hc Hcc. revert t e Hns. induction inps as [|inp inps IH] using rev_ind; intros t e Hns.
  { intros [= <- <-]. split; [by rewrite Z.add_0_r, u64_small|]. unfold loop_frame. by rewrite Hr, Hc, Hcc, Z.mod_0_l by lia. }
  intros (Hns1 & Hi & t1 & e1 & H1 & Hcyc)%run_loop_snoc; [|done..].
  destruct (IH t1 e1 Hns1 H1) as [-> Hf]. unfold loop_frame in Hf. injection Hf as Ha Hb Hcs Hd He Hrn.
  apply run_cycle_loop in Hcyc as [H2 H3]; [|done..]. rewrite length_app.
  unfold at_cycle. rewrite Nat2Z.inj_add. change (Z.of_nat (length [inp])) with 1. split.
  - rewrite H2, Ha. unfold u64, wrap. rewrite Zplus_mod_idemp_l. f_equal. lia.
  - rewrite H3, Ha, Hb, Hcs, Hd, He, Hrn.
    pose proof (Z.mod_pos_bound (Z.of_nat (length inps)) (num_slots_ e0) ltac:(lia)).
    rewrite u32_small by (unfold in_u32; lia). rewrite Zplus_mod_idemp_l.
    unfold u64, wrap. by rewrite Zplus_mod_idemp_l.
Qed.

(** *** The loop is defined as long as the monitor is *)

(** The calls of the monitor in the cycles [inps], the first of which is cycle
    [count]. *)
Fixpoint perf_defined (count : Z) (inps : list CycleInput) (p : P) : Prop :=
  match inps with
  | [] => True
  | inp :: inps =>
    exists p', endCycle (in_perf_end inp) (startCycle (in_perf_start inp) p) = Some p' /\
      (count mod 1000 = 0 -> forall m : M, is_Some (metrics_update p' m)) /\
      perf_defined (u64 (count + 1)) inps p'
  end.

Definition perf_frame e := (perf_monitor_ e, cycle_count_ e, running_ e).

Lemma checkHeartbeat_perf now nonrt e : perf_frame (checkHeartbeat now nonrt e) = perf_frame e.
Proof.
  assert (Hme : forall ev e, perf_frame (machine_event ev e) = perf_frame e).
  { intros ev e0. unfold machine_event. by destruct (snd _) as [sm eb]. }
  unfold checkHeartbeat. repeat (case_match; try done);
  match goal with |- context [machine_event ?ev ?x] => exact (Hme ev x) end.
Qed.

Lemma executeSlot_perf slot e : perf_frame (executeSlot slot e) = perf_frame e.
Proof.
  unfold executeSlot. generalize (default [] (schedule_ e !! Z.to_nat slot)). intros l.
  revert e. induction l as [|a l IH]; intros e; [done|]. simpl. rewrite IH.
  unfold execute_action. repeat (case_match; simplify_eq/=; try done).
Qed.

Lemma run_loop_defined inps t e :
  no_stop inps = true -> perf_defined (cycle_count_ e) inps (perf_monitor_ e) -> is_Some (run_loop inps t e).
Proof.
  revert t e. induction inps as [|inp inps IH]; intros t e Hns Hp; [by eexists|].
  simpl in Hns. to_prop. cbn [run_loop]. destruct (running_ e) eqn:Hrun; [|by eexists].
  destruct Hp as (p' & He & Hm & Hp).
  unfold run_cycle. cbv zeta. set (e1 := set_context _ _ _).
  pose proof (checkHeartbeat_perf (in_now inp) (in_nonrt_heartbeat inp) e1) as H1.
  set (e2 := checkHeartbeat _ _ e1) in *. pose proof (executeSlot_perf (current_slot_ e2) e2) as H2.
  rewrite H1 in H2. set (e3 := executeSlot _ e2) in *. clearbody e3. clear H1 e2.
  unfold perf_frame in H2. subst e1. simpl in H2. injection H2 as Hpm Hcc Hru.
  unfold perf_end. rewrite Hpm, He. cbn [mbind option_bind].
  assert (exists m, match rt_metrics_ e3 with
      | Some m => if cycle_count_ e3 mod 1000 =? 0 then Some <$> metrics_update p' m else Some (Some m)
      | None => Some None
      end = Some m) as [m ->].
  { destruct (rt_metrics_ e3) as [m|]; [|by eexists]. rewrite Hcc.
    destruct (Z.eqb_spec (cycle_count_ e mod 1000) 0) as [Hz|]; [|by eexists].
    destruct (Hm Hz m) as [m' ->]. by eexists. }
  cbn [mbind option_bind]. rewrite H. apply IH; [done|]. simpl. by rewrite Hcc.
Qed.

(** What a cycle leaves alone besides the loop counters. *)
Lemma checkHeartbeat_world now nonrt e :
  context_ (checkHeartbeat now nonrt e) = context_ e /\ world_ (checkHeartbeat now nonrt e) = world_ e.
Proof.
  unfold checkHeartbeat.
  repeat (case_match; try done);
  match goal with |- context [machine_event ?ev ?x] =>
    destruct (machine_event_frame ev x) as (_ & _ & _ & _ & _ & _ & Hc & Hw); done end.
Qed.

(** *** Heartbeat supervision *)

Definition supervised e : bool :=
  heartbeat_monitoring_enabled_ e && bool_decide (is_Some (shared_memory_ e)).

Lemma machine_event_state ev e :
  getState (machine_event ev e) = next_state (getState e) ev.
Proof.
  unfold getState, machine_event.
  pose proof (RTStateMachine.handleEvent_state ev (state_machine_ e) (rt_event_bus_ e)) as H.
  by destruct (snd (RTStateMachine.handleEvent _ _ _)) as [sm eb].
Qed.

Lemma checkHeartbeat_state now nonrt e :
  supervised e = true ->
  getState (checkHeartbeat now nonrt e) =
    if HEARTBEAT_TIMEOUT_NS <? u64 (now - nonrt)
    then (if bool_decide (getState e = RT_RUNNING) then RT_SAFE_MODE else getState e)
    else (if bool_decide (getState e = RT_SAFE_MODE) then RT_RUNNING else getState e).
Proof.
  unfold supervised, checkHeartbeat. intros [-> Hs]%andb_true_iff.
  apply bool_decide_eq_true in Hs as [shm ->]. cbv zeta.
  assert (Hshm : forall x e', getState (set_shm x e') = getState e') by done.
  assert (Hse : forall x e', getState (set_safe_enter x e') = getState e') by done.
  assert (Hpub : forall x e', getState (rt_publish x e') = getState e') by done.
  rewrite Hshm. case_match; case_bool_decide as Hst; rewrite ?Hse, ?machine_event_state, ?Hpub; try done.
  - by rewrite Hse, Hst.
  - case_match; by rewrite ?Hpub, Hst.
Qed.

(** C8: heartbeat supervision.  With monitoring enabled and a heartbeat that is
    not newer than the clock reading, a RUNNING process enters SAFE_MODE exactly
    when the heartbeat is older than 500 ms, a process in SAFE_MODE returns to
    RUNNING exactly when it is not, every other state is left alone, and the
    process publishes its own heartbeat. *)
Theorem heartbeat_supervision now nonrt e :
  supervised e = true -> 0 <= nonrt <= now -> now < 2 ^ 64 ->
  getState (checkHeartbeat now nonrt e) =
    (if 500000000 <? now - nonrt
     then (if bool_decide (getState e = RT_RUNNING) then RT_SAFE_MODE else getState e)
     else (if bool_decide (getState e = RT_SAFE_MODE) then RT_RUNNING else getState e)) /\
  rt_heartbeat_ns <$> shared_memory_ (checkHeartbeat now nonrt e) = Some now.
Proof.
  intros Hs Hhb Hnow. split.
  - rewrite checkHeartbeat_state by done. by rewrite u64_small by (unfold in_u64; lia).
  - unfold supervised in Hs. to_prop. unfold checkHeartbeat.
    destruct (heartbeat_monitoring_enabled_ e); [|done]. by destruct (shared_memory_ e) as [shm|]; [|destruct H0].
Qed.

(** A heartbeat that arrives during the check is taken for a lost one.  The
    clock is read before the heartbeat is loaded; when the Non-RT process
    stores a newer value in between, the unsigned subtraction wraps around and
    a RUNNING process enters SAFE_MODE although the heartbeat is alive. *)
Theorem fresh_heartbeat_race_enters_safe_mode now nonrt e :
  supervised e = true -> getState e = RT_RUNNING ->
  0 <= now < nonrt -> nonrt < 2 ^ 64 - 500000001 ->
  getState (checkHeartbeat now nonrt e) = RT_SAFE_MODE.
Proof.
  intros Hs Hr Hlt Hb. rewrite checkHeartbeat_state, Hr by done.
  assert (Hw : u64 (now - nonrt) = now - nonrt + 2 ^ 64).
  { unfold u64, wrap. rewrite <- (Z_mod_plus_full (now - nonrt) 1 (2 ^ 64)). apply Z.mod_small. lia. }
  rewrite Hw. unfold HEARTBEAT_TIMEOUT_NS. by rewrite (proj2 (Z.ltb_lt _ _)) by lia.
Qed.

(** Stop() shuts the state machine down only from RUNNING and PAUSED.  A
    process stopped in SAFE_MODE leaves the loop but stays in SAFE_MODE,
    although the state machine accepts STOP there. *)
Theorem stop_ends_loop_and_maybe_shuts_down e :
  running_ (stop e) = false /\
  (running_ e = true ->
   getState (stop e) = match getState e with
                       | RT_RUNNING | RT_PAUSED => RT_SHUTDOWN
                       | st => st
                       end) /\
  next_state RT_SAFE_MODE EV_STOP = RT_SHUTDOWN.
Proof.
  unfold stop. destruct (running_ e) eqn:Hr; [|by split_and!].
  set (e' := set_loop false _ _ e). assert (Hs : getState e' = getState e) by done.
  rewrite Hs. split_and!; [| |done].
  - case_match; [|done]. by destruct (machine_event_frame EV_STOP e') as (_ & _ & _ & _ & _ & -> & _).
  - intros _. destruct (getState e) eqn:E; simpl; rewrite ?machine_event_state, ?Hs; done.
Qed.
End RTExecutive.

(** ** Timed execution of the registered actions

    Actions whose callback logs its name with the cycle count and the
    timestamp of the context. *)

Definition log_entry : Type := string * Z * Z.

Definition log_callback (name : string) (c : RTContext) (w : list log_entry) :
    RTContext * list log_entry :=
  (c, w ++ [(name, ctx_cycle_count c, ctx_timestamp_ns c)]).

Section Periodic.
Context {B P M : Type} `{!IEventBus RTBusEvent B} `{!IPerf P} `{!IPerfMetrics P M}.
Abbreviation executive := (RTExecutive (list log_entry) B P M).
Implicit Types (e : executive).

Fixpoint register_all (acts : list (string * Z)) e : option executive :=
  match acts with
  | [] => Some e
  | (name, period) :: acts =>
    match registerAction name period (Some (log_callback name)) None e with
    | Some (_, e) => register_all acts e
    | None => None
    end
  end.

Definition logging_slot (minor : Z) (a : string * Z) : ActionSlot (list log_entry) :=
  mkActionSlot (fst a) (snd a) (Some (log_callback (fst a))) None (snd a / minor).

(** The actions due at time [k * minor]. *)
Definition due (minor : Z) (acts : list (string * Z)) (k : Z) : list (string * Z) :=
  filter (λ a, (snd a | k * minor)) acts.

Definition expected_log (n : nat) (t0 minor : Z) (acts : list (string * Z)) : list log_entry :=
  concat (map (λ c, map (λ a, (fst a, u64 (Z.of_nat c),
                               u64 (t0 + Z.of_nat c * (minor * 1000000))))
                        (due minor acts (Z.of_nat c))) (seq 0 n)).

Lemma expected_log_S n t0 minor acts :
  expected_log (S n) t0 minor acts =
    expected_log n t0 minor acts ++
    map (λ a, (fst a, u64 (Z.of_nat n), u64 (t0 + Z.of_nat n * (minor * 1000000))))
      (due minor acts (Z.of_nat n)).
Proof.
  unfold expected_log. rewrite seq_S, map_app, concat_app. simpl. by rewrite app_nil_r.
Qed.

Lemma due_app minor l1 l2 k : due minor (l1 ++ l2) k = due minor l1 k ++ due minor l2 k.
Proof. apply filter_app. Qed.

Lemma register_all_ok minor done_ acts e :
  minor_cycle_ms_ e = minor ->
  exec_ok (λ k, map (logging_slot minor) (due minor done_ (Z.of_nat k))) e ->
  Forall (λ a, 0 < snd a /\ snd a / minor <= 2 ^ 31 /\ (minor | snd a)) acts ->
  exists sch, register_all acts e = Some (set_schedule sch e) /\
    exec_ok (λ k, map (logging_slot minor) (due minor (done_ ++ acts) (Z.of_nat k)))
      (set_schedule sch e).
Proof.
  intros Hmin Hok Hacts. revert done_ e Hmin Hok.
  induction Hacts as [|[name period] acts [Hp [Hi Hd]] _ IH]; intros done_ e Hmin Hok.
  { exists (schedule_ e). rewrite app_nil_r. split; [by destruct e|]. by destruct e. }
  simpl in *. rewrite <- Hmin in Hi, Hd.
  destruct (registerAction_ok _ name period (Some (log_callback name)) None e Hok Hp Hi Hd)
    as (sch & -> & Hok').
  destruct (IH (done_ ++ [(name, period)]) (set_schedule sch e) Hmin) as (sch' & -> & Hok'').
  { destruct Hok' as [H1 H2 H3 H4]. constructor; try done. intros k Hk. rewrite (H4 k Hk). f_equal.
    rewrite due_app, map_app, <- Hmin. f_equal. unfold due. rewrite filter_cons, filter_nil. simpl.
    case_bool_decide as Hk'; [by rewrite decide_True|by rewrite decide_False]. }
  exists sch'. split; [done|]. by rewrite <- app_assoc in Hok''.
Qed.

Lemma execute_logging minor l e :
  let e' := foldl execute_action e (map (logging_slot minor) l) in
  context_ e' = context_ e /\
  world_ e' = world_ e ++
    map (λ a, (fst a, ctx_cycle_count (context_ e), ctx_timestamp_ns (context_ e))) l.
Proof.
  revert e. induction l as [|a l IH]; intros e; simpl; [by rewrite app_nil_r|].
  destruct (IH (execute_action e (logging_slot minor a))) as [H1 H2].
  rewrite H1, H2. split; [done|]. simpl. by rewrite <- app_assoc.
Qed.

Lemma run_cycle_world minor l inp t e t' e' :
  in_stop inp = false -> schedule_ e !! Z.to_nat (current_slot_ e) = Some (map (logging_slot minor) l) ->
  run_cycle inp t e = Some (t', e') ->
  world_ e' = world_ e ++ map (λ a, (fst a, cycle_count_ e, t)) l.
Proof.
  intros Hst Hsl. unfold run_cycle. rewrite Hst. cbv zeta.
  set (e1 := set_context _ _ _).
  pose proof (checkHeartbeat_loop (in_now inp) (in_nonrt_heartbeat inp) e1) as H1.
  pose proof (checkHeartbeat_world (in_now inp) (in_nonrt_heartbeat inp) e1) as [Hc Hw].
  set (e2 := checkHeartbeat _ _ e1) in *. clearbody e2.
  unfold loop_frame in H1. injection H1 as _ _ Hs Hcs _ _.
  intros (e4 & ->%perf_end_frame & H)%bind_Some. injection H as _ <-. simpl.
  unfold executeSlot. rewrite Hs, Hcs. subst e1. simpl in *. rewrite Hsl. simpl.
  destruct (execute_logging minor l e2) as [_ ->]. by rewrite Hc, Hw.
Qed.

Lemma due_periodic minor slots acts c :
  0 < minor -> 0 < slots -> Forall (λ a, (snd a | slots * minor)) acts ->
  due minor acts (c mod slots) = due minor acts c.
Proof.
  intros Hm Hs Hacts. unfold due. induction Hacts as [|a acts Ha _ IH]; [done|].
  rewrite !filter_cons, IH. assert (Hiff : (snd a | c mod slots * minor) <-> (snd a | c * minor)).
  2:{ by destruct (decide (snd a | c mod slots * minor)) as [H|H];
        [rewrite decide_True by (by apply Hiff)|rewrite decide_False by (by rewrite <- Hiff)]. }
  rewrite (Z.div_mod c slots) at 2 by lia.
  replace ((slots * (c / slots) + c mod slots) * minor)
    with (c / slots * (slots * minor) + c mod slots * minor) by ring.
  split; intros H.
  - apply Z.divide_add_r; [by apply Z.divide_mul_r|done].
  - apply (Z.divide_add_cancel_r _ (c / slots * (slots * minor))); [by apply Z.divide_mul_r|done].
Qed.

Lemma run_loop_world minor acts inps t0 e0 t e :
  exec_ok (λ k, map (logging_slot minor) (due minor acts (Z.of_nat k))) e0 ->
  minor_cycle_ms_ e0 = minor -> Forall (λ a, (snd a | num_slots_ e0 * minor)) acts ->
  in_u64 t0 -> 0 < num_slots_ e0 -> no_stop inps = true ->
  running_ e0 = true -> current_slot_ e0 = 0 -> cycle_count_ e0 = 0 -> world_ e0 = [] ->
  run_loop inps t0 e0 = Some (t, e) ->
  world_ e = expected_log (length inps) t0 minor acts.
Proof.
  intros [Hm Hn Hl Hs] Hmin Hacts Ht Hpos Hns Hr Hc Hcc Hw. revert t e Hns.
  induction inps as [|inp inps IH] using rev_ind; intros t e Hns; [by intros [= <- <-]|].
  intros (Hns1 & Hi & t1 & e1 & H1 & Hcyc)%run_loop_snoc; [|done..].
  destruct (run_loop_at_cycle inps t0 e0 t1 e1 Ht ltac:(lia) Hns1 Hr Hc Hcc H1) as [-> Hf].
  unfold loop_frame in Hf. injection Hf as Ha Hb Hsch Hsl Hcy Hrn.
  rewrite length_app. simpl length. rewrite Nat.add_1_r, expected_log_S, <- (IH _ _ Hns1 H1).
  pose proof (Z.mod_pos_bound (Z.of_nat (length inps)) (num_slots_ e0) ltac:(lia)) as Hmb.
  rewrite (run_cycle_world minor (due minor acts (Z.of_nat (length inps))) _ _ _ _ _ Hi) with (2 := Hcyc Hrn).
  - by rewrite Hcy, Hmin.
  - rewrite Hsch, Hsl, Hs by lia. f_equal. rewrite Z2Nat.id by lia. f_equal.
    apply due_periodic; lia || done.
Qed.

Lemma newRTExecutive_ok minor major (eb : option B) :
  0 < minor -> 0 <= major / minor <= 2 ^ 31 ->
  let e : executive := newRTExecutive minor major eb [] in
  minor_cycle_ms_ e = minor /\ num_slots_ e = major / minor /\ world_ e = [] /\
  perf_monitor_ e = new_perf /\ exec_ok (λ k, map (logging_slot minor) (due minor [] (Z.of_nat k))) e.
Proof.
  intros Hm Hn. unfold newRTExecutive. cbv zeta. set (e0 := mkRTExecutive _ _ _ _ _ _ _ _ _ _ _ _ _ _ _ _ _ _).
  destruct (machine_event_frame EV_START e0) as (H1 & H2 & H3 & _ & _ & _ & _ & H4).
  rewrite H1, H2, H4. split_and!; try done.
  { unfold machine_event. by destruct (snd _) as [sm eb']. }
  constructor; rewrite ?H1, ?H2, ?H3; try done; simpl.
  - rewrite length_replicate. lia.
  - intros k Hk. apply lookup_replicate. split; [done|]. lia.
Qed.

Lemma run_start_frame e :
  minor_cycle_ms_ (run_start e) = minor_cycle_ms_ e /\ num_slots_ (run_start e) = num_slots_ e /\
  schedule_ (run_start e) = schedule_ e /\ world_ (run_start e) = world_ e /\
  running_ (run_start e) = true /\ current_slot_ (run_start e) = 0 /\ cycle_count_ (run_start e) = 0 /\
  perf_monitor_ (run_start e) = perf_monitor_ e.
Proof.
  unfold run_start. case_match; [|done].
  destruct (machine_event_frame EV_START e) as (H1 & H2 & H3 & _ & _ & _ & _ & H4).
  split_and!; try done. unfold machine_event. by destruct (snd _) as [sm eb'].
Qed.

(** The cyclic executive runs every action exactly on its period and without
    drift, as long as its monitor is defined: the executive is created from valid
    periods, actions are registered whose periods are among them, and the client
    changes the monitor by [f] before the run. *)
Lemma periodic_run ps sp (eb : option B) (f : P -> P) acts inps t0 :
  Forall (λ q, 0 < q) ps -> Forall in_u32 ps -> products_fit ps = true ->
  calculate ps = Ok sp -> Forall (λ a, snd a ∈ ps) acts -> in_u64 t0 -> no_stop inps = true ->
  perf_defined (M := M) 0 inps (f new_perf) ->
  exists e0 e e' : executive, createFromPeriods ps eb [] = Some e0 /\ register_all acts e0 = Some e /\
    (exists t, run_loop inps t0 (run_start (with_perf_monitor f e)) = Some (t, e')) /\
    world_ e' = expected_log (length inps) t0 (minor_cycle_ms sp) acts.
Proof.
  intros Hpos Hu Hfit Hcalc Hacts Ht Hns Hperf.
  destruct (calculate_ok ps sp Hpos Hu Hfit Hcalc) as [Hmin Hmaj Hsl Hb Hd1 Hd2 _ _].
  set (minor := minor_cycle_ms sp) in *. set (major := major_cycle_ms sp) in *.
  assert (Hdiv : major / minor = num_slots sp) by (rewrite Hsl, Z.div_mul; lia).
  assert (Hns0 : 0 < num_slots sp) by nia.
  destruct (newRTExecutive_ok minor major eb) as (Hm & Hn & Hw & Hpm & Hok); [done|lia|].
  unfold createFromPeriods. rewrite Hcalc. fold minor major.
  set (e0 := newRTExecutive minor major eb []) in *. clearbody e0.
  destruct (register_all_ok minor [] acts e0 Hm Hok) as (sch & Hreg & Hok').
  { apply Forall_forall. intros a Ha. pose proof (proj1 (Forall_forall _ _) Hacts a Ha) as Hin.
    pose proof (proj1 (Forall_forall _ _) Hpos _ Hin) as Hp. simpl in Hin, Hp. split_and!; [done| |by apply Hd1].
    transitivity (major / minor); [|lia]. apply Z.div_le_mono; [lia|].
    apply Z.divide_pos_le; [done|by apply Hd2]. }
  set (e := with_perf_monitor f (set_schedule sch e0)).
  destruct (run_start_frame e) as (R1 & R2 & R3 & R4 & R5 & R6 & R7 & R8).
  destruct (run_loop_defined inps t0 (run_start e)) as [[t e'] Hrun]; [done|by rewrite R7, R8; simpl; rewrite Hpm|].
  exists e0, (set_schedule sch e0), e'. split_and!; [done..|by exists t|].
  eapply run_loop_world; [..|exact Hrun]; try done.
  - destruct Hok' as [K1 K2 K3 K4]. constructor; rewrite ?R1, ?R2, ?R3; done.
  - by rewrite R1.
  - rewrite R2. simpl. rewrite Hn, Hdiv, <- Hsl. eapply Forall_impl; [exact Hacts|]. intros a Ha. by apply Hd2.
  - rewrite R2. simpl. lia.
  - by rewrite R4.
Qed.
End Periodic.

(** ** Example runs *)

Module ExecutiveExamples.

#[export] Instance no_perf : IPerf unit := {
  new_perf := tt; startCycle _ p := p; endCycle _ p := Some p; didMissDeadline _ := false
}.

Definition executive := RTExecutive (list log_entry) (list RTBusEvent) unit unit.

Definition ms : Z := 1000000.

(** A supervised executive in RUNNING. *)
Definition running : executive :=
  enableHeartbeatMonitoring true
    (setSharedMemory (mkHeartbeats 0 0) 0 (run_start (newRTExecutive 10 100 (Some []) []))).

End ExecutiveExamples.
Import ExecutiveExamples.

Lemma zero_period_registration_diverges_witness :
  0 mod 10 = 0 /\ register_loop 7 0 0 10 (mkActionSlot "zero" 0 None None 0) (schedule_ running) = None.
Proof.
  apply (zero_period_registration_diverges 7 "zero" None None running); reflexivity.
Defined.

(** 600 ms without a heartbeat. *)
Lemma heartbeat_supervision_witness :
  getState (checkHeartbeat (700 * ms) (100 * ms) running) = RT_SAFE_MODE /\
  rt_heartbeat_ns <$> shared_memory_ (checkHeartbeat (700 * ms) (100 * ms) running) = Some (700 * ms).
Proof.
  apply (heartbeat_supervision (700 * ms) (100 * ms) running);
    [reflexivity|unfold ms; lia|reflexivity].
Defined.

(** A heartbeat one nanosecond newer than the clock reading. *)
Lemma fresh_heartbeat_race_enters_safe_mode_witness :
  getState (checkHeartbeat (700 * ms) (700 * ms + 1) running) = RT_SAFE_MODE.
Proof.
  apply (fresh_heartbeat_race_enters_safe_mode (700 * ms) (700 * ms + 1) running);
    [reflexivity|reflexivity|unfold ms; lia|reflexivity].
Defined.

Lemma stop_ends_loop_and_maybe_shuts_down_witness :
  getState (stop (checkHeartbeat (700 * ms) (100 * ms) running)) = RT_SAFE_MODE.
Proof.
  destruct (stop_ends_loop_and_maybe_shuts_down (checkHeartbeat (700 * ms) (100 * ms) running))
    as (_ & H & _).
  rewrite H; [by_compute|by_compute].
Defined.
