(* ===== verification/RTDataStore.v ===== *)
(** * RTDataStore (src/core/rt/RTDataStore.{h,cpp})

    The fixed-size store of the real-time process.  The union [DataValue] is
    32 bytes of memory, little-endian; floats and doubles are their bit
    patterns.  The first part models the calls one at a time, the second the
    sequence lock between one writer and one reader at the level of single
    memory accesses. *)

From S2P Require Import Prelude.

(** ** Bytes *)

(** Writing an object at the start of the union. *)
Definition overwrite (bs mem : list Z) : list Z := bs ++ drop (length bs) mem.

Lemma take_overwrite n bs mem : length bs = n -> take n (overwrite bs mem) = bs.
Proof. intros <-. unfold overwrite. apply take_app_length. Qed.

(** ** Entries *)

Inductive RTDataType := DT_NONE | DT_INT32 | DT_FLOAT | DT_DOUBLE | DT_UINT64 | DT_STRING.

#[export] Instance RTDataType_eq_dec : EqDecision RTDataType.
Proof. solve_decision. Defined.

Record DataEntry := mkEntry {
  value : list Z;
  type : RTDataType;
  entry_timestamp_ns : Z;
  seq : Z
}.

Definition newEntry : DataEntry := mkEntry (replicate 32 0) DT_NONE 0 0.

Definition MAX_KEYS : nat := 512.

Abbreviation RTDataStore := (list DataEntry).

Definition newRTDataStore : RTDataStore := replicate MAX_KEYS newEntry.

Definition isValidKey (key : nat) : bool := (key <? MAX_KEYS)%nat.

(** ** The setters, without interference *)

(** [seq] is incremented before and after the write. *)
Definition write_entry (bs : list Z) (ty : RTDataType) (now : Z) (e : DataEntry) : DataEntry :=
  mkEntry (overwrite bs (value e)) ty now (u64 (u64 (seq e + 1) + 1)).

Definition set_entry (key : nat) (bs : list Z) (ty : RTDataType) (now : Z) (s : RTDataStore) :
    Z * RTDataStore :=
  if negb (isValidKey key) then (-1, s) else (0, alter (write_entry bs ty now) key s).

Definition setInt32 (key : nat) (v now : Z) := set_entry key (le_bytes 4 (u32 v)) DT_INT32 now.
Definition setFloat (key : nat) (bits now : Z) := set_entry key (le_bytes 4 bits) DT_FLOAT now.
Definition setDouble (key : nat) (bits now : Z) := set_entry key (le_bytes 8 bits) DT_DOUBLE now.
Definition setUint64 (key : nat) (v now : Z) := set_entry key (le_bytes 8 v) DT_UINT64 now.

(** [value] is the [len] bytes at the pointer, [None] a null pointer. *)
Definition setString (key : nat) (str : option (list Z)) (now : Z) (s : RTDataStore) :
    Z * RTDataStore :=
  match str with
  | None => (-1, s)
  | Some bs => set_entry key (take 31 bs ++ [0]) DT_STRING now s
  end.

(** ** The getters, without interference

    With an even [seq] the loop ends after one iteration.  With an odd one
    [continue] jumps to the test [seq1 != seq2] while [seq2] is still
    uninitialised: undefined behaviour, the result [Undefined]. *)

Inductive GetResult (A : Type) :=
| Got (x : A)
| GetError
| Undefined.
Arguments Got {A} _.
Arguments GetError {A}.
Arguments Undefined {A}.

Definition get_entry {A} (key : nat) (ty : RTDataType) (decode : list Z -> A) (s : RTDataStore) :
    GetResult A :=
  if negb (isValidKey key) then GetError
  else
    match s !! key with
    | None => GetError
    | Some e =>
      if Z.odd (seq e) then Undefined
      else if bool_decide (type e = ty) then Got (decode (value e)) else GetError
    end.

Definition getInt32 (key : nat) := get_entry key DT_INT32 (λ m, i32 (le_val (take 4 m))).
Definition getFloat (key : nat) := get_entry key DT_FLOAT (λ m, le_val (take 4 m)).
Definition getDouble (key : nat) := get_entry key DT_DOUBLE (λ m, le_val (take 8 m)).
Definition getUint64 (key : nat) := get_entry key DT_UINT64 (λ m, le_val (take 8 m)).

(** The bytes stored in [out_buffer]; [buffer_size] is its size. *)
Definition getString (key buffer_size : nat) (s : RTDataStore) : GetResult (list Z) :=
  if (buffer_size =? 0)%nat then GetError
  else
    let copy_len := if (buffer_size <? 32)%nat then (buffer_size - 1)%nat else 31%nat in
    get_entry key DT_STRING (λ m, take copy_len (take 32 m) ++ [0]) s.

Definition incrementSeq (key : nat) (s : RTDataStore) : Z * RTDataStore :=
  if negb (isValidKey key) then (0, s)
  else (default 0 (seq <$> s !! key),
        alter (λ e, mkEntry (value e) (type e) (entry_timestamp_ns e) (u64 (seq e + 1))) key s).

Definition getSeq (key : nat) (s : RTDataStore) : Z :=
  if negb (isValidKey key) then 0 else default 0 (seq <$> s !! key).

Definition isFresh (now : Z) (key : nat) (max_age_ns : Z) (s : RTDataStore) : bool :=
  if negb (isValidKey key) then false
  else
    match s !! key with
    | None => false
    | Some e => if bool_decide (type e = DT_NONE) then false
                else u64 (now - entry_timestamp_ns e) <=? max_age_ns
    end.

Definition getTimestamp (key : nat) (s : RTDataStore) : Z :=
  if negb (isValidKey key) then 0 else default 0 (entry_timestamp_ns <$> s !! key).

(** ** Values of all types *)

Inductive RTValue :=
| VInt32 (v : Z)
| VFloat (bits : Z)
| VDouble (bits : Z)
| VUint64 (v : Z)
| VString (bs : list Z).

Definition set_value (key : nat) (v : RTValue) (now : Z) : RTDataStore -> Z * RTDataStore :=
  match v with
  | VInt32 x => setInt32 key x now
  | VFloat x => setFloat key x now
  | VDouble x => setDouble key x now
  | VUint64 x => setUint64 key x now
  | VString bs => setString key (Some bs) now
  end.

(** The C string in a buffer: the bytes before the first zero. *)
Fixpoint c_string (bs : list Z) : list Z :=
  match bs with
  | [] => []
  | b :: bs => if b =? 0 then [] else b :: c_string bs
  end.

(** Reading with the getter of the type of [v]. *)
Definition get_like (v : RTValue) (key : nat) (s : RTDataStore) : GetResult RTValue :=
  let wrap {A} (f : A -> RTValue) (r : GetResult A) : GetResult RTValue :=
    match r with Got x => Got (f x) | GetError => GetError | Undefined => Undefined end in
  match v with
  | VInt32 _ => wrap VInt32 (getInt32 key s)
  | VFloat _ => wrap VFloat (getFloat key s)
  | VDouble _ => wrap VDouble (getDouble key s)
  | VUint64 _ => wrap VUint64 (getUint64 key s)
  | VString _ => wrap (VString ∘ c_string) (getString key 32 s)
  end.

Definition in_range (v : RTValue) : Prop :=
  match v with
  | VInt32 x => - 2 ^ 31 <= x < 2 ^ 31
  | VFloat x => in_u32 x
  | VDouble x | VUint64 x => in_u64 x
  | VString bs => Forall (λ b, 0 < b < 256) bs
  end.

(** What the store keeps of a value: strings are cut at 31 bytes. *)
Definition stored (v : RTValue) : RTValue :=
  match v with VString bs => VString (take 31 bs) | v => v end.

(** ** Well-formed stores *)

Definition entry_ok (e : DataEntry) : Prop := length (value e) = 32%nat /\ 0 <= seq e < 2 ^ 64 /\ Z.odd (seq e) = false.

Definition store_ok (s : RTDataStore) : Prop := length s = MAX_KEYS /\ Forall entry_ok s.

Lemma new_store_ok : store_ok newRTDataStore.
Proof.
  split; [apply length_replicate|]. apply Forall_replicate. by repeat split.
Qed.

Lemma u64_odd x : Z.odd (u64 x) = Z.odd x.
Proof.
  unfold u64, wrap. rewrite !Zodd_mod. f_equal.
  apply Z.mod_mod_divide. exists (2 ^ 63). lia.
Qed.

Lemma write_entry_ok bs ty now e :
  (length bs <= 32)%nat -> entry_ok e -> entry_ok (write_entry bs ty now e).
Proof.
  intros Hl (Hv & Hs & Ho). unfold write_entry, entry_ok. simpl. split_and!.
  - unfold overwrite. rewrite length_app, length_drop. lia.
  - apply u64_bounds.
  - apply u64_bounds.
  - rewrite !u64_odd, Z.odd_add, u64_odd, Z.odd_add, Ho. done.
Qed.

Lemma set_entry_ok key bs ty now s :
  store_ok s -> (length bs <= 32)%nat -> isValidKey key = true ->
  exists e s', s !! key = Some e /\ set_entry key bs ty now s = (0, s') /\ store_ok s' /\
    s' !! key = Some (write_entry bs ty now e) /\ forall k, k <> key -> s' !! k = s !! k.
Proof.
  intros [Hlen Hall] Hbs Hk. unfold set_entry. rewrite Hk. simpl.
  apply Nat.ltb_lt in Hk. destruct (lookup_lt_is_Some_2 s key) as [e He]; [lia|].
  assert (Hok : store_ok (alter (write_entry bs ty now) key s)).
  { split; [by rewrite length_alter|]. apply Forall_alter; [done|].
    intros x Hx Hok. by apply write_entry_ok. }
  exists e. eexists. split; [done|]. split; [reflexivity|]. split; [exact Hok|]. split.
  - by rewrite list_lookup_alter_eq, He.
  - intros k Hne. by rewrite list_lookup_alter_ne.
Qed.

(** A string cut at [n] bytes and terminated is the cut string. *)
Lemma c_string_cut n bs rest :
  Forall (λ b, 0 < b < 256) bs -> c_string (take n (take n bs ++ [0] ++ rest) ++ [0]) = take n bs.
Proof.
  revert bs. induction n as [|n IH]; intros bs Hbs; [done|].
  destruct Hbs as [|b bs Hb Hbs]; [done|]. simpl. rewrite (proj2 (Z.eqb_neq _ _)) by lia.
  f_equal. by apply IH.
Qed.

Definition tag (v : RTValue) : RTDataType :=
  match v with
  | VInt32 _ => DT_INT32 | VFloat _ => DT_FLOAT | VDouble _ => DT_DOUBLE | VUint64 _ => DT_UINT64
  | VString _ => DT_STRING
  end.

Definition value_bytes (v : RTValue) : list Z :=
  match v with
  | VInt32 x => le_bytes 4 (u32 x)
  | VFloat x => le_bytes 4 x
  | VDouble x | VUint64 x => le_bytes 8 x
  | VString bs => take 31 bs ++ [0]
  end.

Lemma set_value_eq key v now s : set_value key v now s = set_entry key (value_bytes v) (tag v) now s.
Proof. by destruct v. Qed.

Lemma value_bytes_length v : (length (value_bytes v) <= 32)%nat.
Proof.
  destruct v; simpl; try lia. rewrite length_app, length_take. cbn [length]. lia.
Qed.

Lemma i32_u32 x : - 2 ^ 31 <= x < 2 ^ 31 -> i32 (u32 x) = x.
Proof.
  intros H. unfold i32, u32, wrap. rewrite Zplus_mod_idemp_l.
  rewrite (Z.mod_small (x + 2 ^ 31)) by lia. lia.
Qed.

(** Decoding what was written at the start of any 32-byte memory. *)
Lemma get_like_written v key s e mem now :
  isValidKey key = true -> in_range v -> s !! key = Some e -> Z.odd (seq e) = false ->
  e = mkEntry (overwrite (value_bytes v) mem) (tag v) now (seq e) ->
  get_like v key s = Got (stored v).
Proof.
  intros Hk Hr He Hodd Heq.
  destruct v as [x|x|x|x|bs]; simpl in Hr |- *;
    unfold getInt32, getFloat, getDouble, getUint64, getString, get_entry;
    rewrite Hk; cbn [Nat.eqb negb Nat.ltb Nat.leb]; rewrite He, Hodd, Heq; cbn [type value tag];
    rewrite bool_decide_true by done.
  - cbn [value_bytes]. rewrite take_overwrite by apply le_bytes_length. rewrite le_val_bytes.
    change (2 ^ (8 * Z.of_nat 4)) with (2 ^ 32). fold (wrap 32 (u32 x)). fold (u32 (u32 x)).
    rewrite (u32_small (u32 x)) by apply u32_bounds. by rewrite i32_u32.
  - cbn [value_bytes]. rewrite take_overwrite by apply le_bytes_length. rewrite le_val_bytes.
    by rewrite Z.mod_small by (unfold in_u32 in Hr; simpl; lia).
  - cbn [value_bytes]. rewrite take_overwrite by apply le_bytes_length. rewrite le_val_bytes.
    by rewrite Z.mod_small by (unfold in_u64 in Hr; simpl; lia).
  - cbn [value_bytes]. rewrite take_overwrite by apply le_bytes_length. rewrite le_val_bytes.
    by rewrite Z.mod_small by (unfold in_u64 in Hr; simpl; lia).
  - unfold compose. cbn [value_bytes stored]. do 2 f_equal. unfold overwrite.
    rewrite take_take, <- app_assoc. by apply (c_string_cut 31).
Qed.

Lemma get_like_other v v' key s e :
  isValidKey key = true -> s !! key = Some e -> Z.odd (seq e) = false -> type e = tag v ->
  tag v' <> tag v -> get_like v' key s = GetError.
Proof.
  intros Hk He Hodd Ht Hne.
  destruct v'; simpl in *; unfold getInt32, getFloat, getDouble, getUint64, getString, get_entry;
    rewrite Hk; cbn [Nat.eqb negb Nat.ltb Nat.leb]; rewrite He, Hodd, Ht, bool_decide_false by congruence;
    done.
Qed.

(** A value written with a setter is read back by the getter of its type.
    In a well-formed store and for a valid key, every in-range value of the five
    types is returned exactly (strings cut at 31 bytes), the getters of other
    types report an error, every other key keeps its entry, and the store stays
    well-formed; an invalid key is refused and changes nothing. *)
Theorem set_get_roundtrip key v now s :
  store_ok s -> in_range v ->
  let '(rc, s') := set_value key v now s in
  if isValidKey key then
    rc = 0 /\ store_ok s' /\ get_like v key s' = Got (stored v) /\
    (forall v', tag v' <> tag v -> get_like v' key s' = GetError) /\
    forall k, k <> key -> s' !! k = s !! k
  else rc = -1 /\ s' = s.
Proof.
  intros Hok Hr. rewrite set_value_eq. destruct (isValidKey key) eqn:Hk.
  - destruct (set_entry_ok key (value_bytes v) (tag v) now s Hok (value_bytes_length v) Hk)
      as (e & s' & He & -> & Hok' & He' & Hother).
    assert (Hodd : Z.odd (seq (write_entry (value_bytes v) (tag v) now e)) = false).
    { destruct Hok as [_ Hall]. rewrite Forall_lookup in Hall.
      apply (write_entry_ok (value_bytes v) (tag v) now e); [apply value_bytes_length|by eapply Hall]. }
    split; [done|]. split; [done|]. split; [|split; [|done]].
    + by eapply get_like_written.
    + intros v' Hne. by eapply (get_like_other v v').
  - unfold set_entry. by rewrite Hk.
Qed.

(** IncrementSeq breaks the sequence lock of its key.  After one call on a
    well-formed store the sequence number is odd, and after any further
    sequence of writes to the key the getters of all types read an
    uninitialised variable: [seq2] in the loop test reached by [continue]. *)
Theorem incrementSeq_breaks_readers key s ws v :
  store_ok s -> isValidKey key = true ->
  let s1 := snd (incrementSeq key s) in
  let s2 := foldl (λ s w, snd (set_value key (fst w) (snd w) s)) s1 ws in
  get_like v key s2 = Undefined.
Proof.
  intros [Hlen Hall] Hk. cbv zeta.
  assert (Hgen : forall ws s1 e1, s1 !! key = Some e1 -> Z.odd (seq e1) = true ->
    exists e2, foldl (λ s w, snd (set_value key (fst w) (snd w) s)) s1 ws !! key = Some e2 /\
      Z.odd (seq e2) = true).
  { clear s Hlen Hall ws. intros ws. induction ws as [|[w now] ws IH]; intros s1 e1 He Ho; simpl; [eauto|].
    rewrite set_value_eq. unfold set_entry. rewrite Hk. simpl.
    eapply IH; [by rewrite list_lookup_alter_eq, He|]. simpl.
    by rewrite u64_odd, Z.odd_add, u64_odd, Z.odd_add, Ho. }
  pose proof Hk as Hlt. apply Nat.ltb_lt in Hlt.
  destruct (lookup_lt_is_Some_2 s key) as [e He]; [lia|].
  destruct (Hgen ws (snd (incrementSeq key s))
    (mkEntry (value e) (type e) (entry_timestamp_ns e) (u64 (seq e + 1)))) as (e2 & He2 & Ho2).
  { unfold incrementSeq. rewrite Hk. simpl. by rewrite list_lookup_alter_eq, He. }
  { simpl. rewrite Forall_lookup in Hall. destruct (Hall _ _ He) as (_ & _ & Ho).
    by rewrite u64_odd, Z.odd_add, Ho. }
  destruct v; simpl; unfold getInt32, getFloat, getDouble, getUint64, getString, get_entry;
    rewrite Hk; cbn [Nat.eqb negb Nat.ltb Nat.leb]; by rewrite He2, Ho2.
Qed.

Lemma set_get_roundtrip_witness :
  let '(rc, s') := set_value 3 (VInt32 (-42)) 5 newRTDataStore in
  rc = 0 /\ store_ok s' /\ get_like (VInt32 0) 3 s' = Got (VInt32 (-42)) /\
  (forall v', tag v' <> DT_INT32 -> get_like v' 3 s' = GetError) /\
  forall k, k <> 3%nat -> s' !! k = newRTDataStore !! k.
Proof.
  apply (set_get_roundtrip 3 (VInt32 (-42)) 5 newRTDataStore); [apply new_store_ok|simpl; lia].
Defined.

Lemma incrementSeq_breaks_readers_witness :
  get_like (VUint64 0) 7 (snd (set_value 7 (VUint64 1) 9 (snd (incrementSeq 7 newRTDataStore))))
    = Undefined.
Proof.
  apply (incrementSeq_breaks_readers 7 newRTDataStore [(VUint64 1, 9)] (VUint64 0));
    [apply new_store_ok|reflexivity].
Defined.
