(* ===== verification/RTSeqlock.v ===== *)
(** * The sequence lock of RTDataStore (src/core/rt/RTDataStore.cpp)

    One writer (a setter) and one reader (a getter) of the same entry,
    interleaved at single memory accesses under sequential consistency.  An
    entry is a list of cells: the bytes of the value, the type and the time
    stamp.  A setter is a job, the list of the cells it writes between its two
    increments of [seq]; a getter reads the cells [reads] between its two loads
    of [seq].  [hist] is ghost state: the contents of the cells after each
    completed write. *)

From S2P Require Import Prelude RTDataStore.

Inductive WriterPc :=
| WIdle
| WWriting (job : list (nat * Z)).

(** [seq2] and the temporaries keep their values across iterations; before the
    first one they are uninitialised. *)
Inductive ReaderPc :=
| RLoop (seq2 : Z) (temps : list Z)
| RReading (seq1 seq2 : Z) (todo : list nat) (temps : list Z)
| RExit (validated : bool) (temps : list Z).

Record Seqlock := mkSeqlock {
  cells : list Z;
  lock_seq : Z;
  hist : list (list Z);
  writer : WriterPc;
  reader : ReaderPc
}.

Definition cell (m : list Z) (i : nat) : Z := nth i m 0.

Inductive LockTurn :=
| WriterTurn (job : list (nat * Z))
| ReaderTurn.

Section Seqlock.
Context (reads : list nat).

Definition set_writer (c : list Z) (n : Z) (h : list (list Z)) (w : WriterPc) (s : Seqlock) :=
  mkSeqlock c n h w (reader s).

(** The next access of the setter; an idle writer starts [job]. *)
Definition writer_step (job : list (nat * Z)) (s : Seqlock) : Seqlock :=
  match writer s with
  | WIdle => set_writer (cells s) (u64 (lock_seq s + 1)) (hist s) (WWriting job) s
  | WWriting ((i, v) :: job') => set_writer (<[i := v]> (cells s)) (lock_seq s) (hist s) (WWriting job') s
  | WWriting [] => set_writer (cells s) (u64 (lock_seq s + 1)) (hist s ++ [cells s]) WIdle s
  end.

Definition reader_next (s : Seqlock) : ReaderPc :=
  match reader s with
  | RLoop seq2 temps =>
    let seq1 := lock_seq s in
    if Z.odd seq1 then
      (* continue: on to the loop test *)
      if negb (seq1 =? seq2) then RLoop seq2 temps else RExit false temps
    else RReading seq1 seq2 reads []
  | RReading seq1 seq2 (i :: todo) temps => RReading seq1 seq2 todo (temps ++ [cell (cells s) i])
  | RReading seq1 _ [] temps =>
    let seq2 := lock_seq s in
    if negb (seq1 =? seq2) then RLoop seq2 temps else RExit true temps
  | RExit b temps => RExit b temps
  end.

Definition lock_turn (t : LockTurn) (s : Seqlock) : Seqlock :=
  match t with
  | WriterTurn job => writer_step job s
  | ReaderTurn => mkSeqlock (cells s) (lock_seq s) (hist s) (writer s) (reader_next s)
  end.

Definition lock_run (ts : list LockTurn) (s : Seqlock) : Seqlock := foldl (λ s t, lock_turn t s) s ts.

(** An entry at rest with contents [c]; [seq2] and [temps] are indeterminate. *)
Definition new_lock (c : list Z) (seq2 : Z) (temps : list Z) : Seqlock :=
  mkSeqlock c 0 [c] WIdle (RLoop seq2 temps).

(** ** Invariant *)

Definition writes (s : Seqlock) : Z := Z.of_nat (length (hist s)) - 1.

Definition writer_ok (s : Seqlock) : Prop :=
  match writer s with
  | WIdle => lock_seq s = 2 * writes s /\ last (hist s) = Some (cells s)
  | WWriting _ => lock_seq s = 2 * writes s + 1
  end.

(** While no write has started since [seq1] was loaded, the temporaries are the
    cells as they are now. *)
Definition reader_ok (s : Seqlock) : Prop :=
  match reader s with
  | RLoop _ _ => True
  | RReading seq1 _ todo temps =>
    seq1 <= lock_seq s /\ Z.odd seq1 = false /\
    (seq1 = lock_seq s -> exists read, reads = read ++ todo /\ temps = map (cell (cells s)) read)
  | RExit validated temps =>
    validated = true -> exists snap, snap ∈ hist s /\ temps = map (cell snap) reads
  end.

Record lock_ok (n : Z) (s : Seqlock) : Prop := {
  l_hist : hist s <> [];
  l_seq : 0 <= lock_seq s <= n;
  l_writer : writer_ok s;
  l_reader : reader_ok s
}.

Lemma lock_ok_mono n n' s : n <= n' -> lock_ok n s -> lock_ok n' s.
Proof. intros Hn [H1 H2 H3 H4]. constructor; try done; lia. Qed.

(** A step that only advances [seq] keeps the reader's claim vacuously. *)
Lemma reader_ok_advance s s' :
  reader_ok s -> reader s' = reader s -> lock_seq s < lock_seq s' ->
  (forall snap, snap ∈ hist s -> snap ∈ hist s') -> reader_ok s'.
Proof.
  unfold reader_ok. intros H -> Hlt Hh. destruct (reader s) as [|seq1 seq2 todo temps|[] temps]; try done.
  - destruct H as (H1 & H2 & _). split_and!; [lia|done|lia].
  - intros _. destruct (H eq_refl) as (snap & ? & ?). eauto.
Qed.

Lemma writer_step_ok n job s :
  n < 2 ^ 64 - 1 -> lock_ok n s -> lock_ok (n + 1) (writer_step job s).
Proof.
  intros Hn [Hh Hs Hw Hr]. unfold writer_step, writer_ok in *.
  assert (Hu : u64 (lock_seq s + 1) = lock_seq s + 1) by (apply u64_small; unfold in_u64; lia).
  destruct (writer s) as [|[|[i v] job']] eqn:Ew.
  - destruct Hw as [Hw Hl]. constructor; simpl; rewrite ?Hu; try done; try lia.
    + unfold writer_ok. simpl. rewrite ?Hu. unfold writes in *. simpl. lia.
    + eapply reader_ok_advance; [exact Hr|done|simpl; rewrite ?Hu; lia|done].
  - constructor; simpl; rewrite ?Hu; try lia.
    + by destruct (hist s).
    + unfold writer_ok, writes in *. simpl. rewrite ?Hu, length_app, last_snoc. simpl. split; [lia|done].
    + eapply reader_ok_advance; [exact Hr|done|simpl; rewrite ?Hu; lia|]. simpl.
      intros snap Hin. apply elem_of_app. by left.
  - constructor; simpl; try done; try lia.
    unfold reader_ok in *. simpl. destruct (reader s) as [|seq1 seq2 todo temps|]; try done.
    destruct Hr as (H1 & H2 & _). split_and!; [done|done|]. intros ->. exfalso.
    rewrite Hw, Z.odd_add, Z.odd_mul in H2. done.
Qed.

Lemma reader_step_ok n s :
  lock_ok n s -> lock_ok n (lock_turn ReaderTurn s).
Proof.
  intros [Hh Hs Hw Hr]. constructor; simpl; try done.
  unfold reader_ok in *. simpl. unfold reader_next.
  destruct (reader s) as [seq2 temps|seq1 seq2 [|i todo] temps|b temps] eqn:Er; [| | |done].
  - destruct (Z.odd (lock_seq s)) eqn:Ho.
    + by destruct (negb _).
    + split_and!; [lia|done|]. intros _. exists []. by rewrite app_nil_l.
  - destruct (Z.eqb_spec seq1 (lock_seq s)) as [Heq|Hne]; simpl; [|done]. intros _.
    destruct Hr as (_ & Ho & H). destruct (H Heq) as (read & Hread & ->). rewrite app_nil_r in Hread.
    subst read. exists (cells s). split; [|done]. unfold writer_ok in Hw. destruct (writer s) as [|job].
    + destruct Hw as [_ Hl]. by apply last_Some_elem_of.
    + rewrite Heq, Hw, Z.odd_add, Z.odd_mul in Ho. done.
  - destruct Hr as (H1 & H2 & H3). split_and!; [done..|]. intros Heq.
    destruct (H3 Heq) as (read & -> & ->). exists (read ++ [i]).
    by rewrite <- app_assoc, map_app.
Qed.

Lemma lock_run_ok ts n s :
  0 <= n -> n + Z.of_nat (length ts) < 2 ^ 64 -> lock_ok n s ->
  lock_ok (n + Z.of_nat (length ts)) (lock_run ts s).
Proof.
  revert n s. induction ts as [|t ts IH]; intros n s Hn Hlen Hok.
  { by rewrite Z.add_0_r. }
  cbn [length] in *. rewrite Nat2Z.inj_succ in *.
  replace (n + Z.succ _) with (n + 1 + Z.of_nat (length ts)) by lia.
  unfold lock_run. cbn [foldl]. apply IH; [lia..|]. destruct t.
  - apply writer_step_ok; [lia|done].
  - apply (lock_ok_mono n); [lia|]. by apply reader_step_ok.
Qed.

(** C21: a validated read is never torn.  Under every interleaving of a writer
    and a reader (fewer than 2^64 memory accesses), when the getter leaves its
    loop because both loads of [seq] in one iteration agree, the values it
    returns are the contents of the entry after some completed write, never a
    mixture of two. *)
Theorem validated_read_is_a_snapshot ts c seq2 junk temps :
  Z.of_nat (length ts) < 2 ^ 64 ->
  let s := lock_run ts (new_lock c seq2 junk) in
  reader s = RExit true temps ->
  exists snap, snap ∈ hist s /\ temps = map (cell snap) reads.
Proof.
  intros Hlen s Hr.
  destruct (lock_run_ok ts 0 (new_lock c seq2 junk)) as [_ _ _ H]; [lia..| |].
  { constructor; simpl; try done; lia. }
  fold s in H. unfold reader_ok in H. rewrite Hr in H. by apply H.
Qed.
End Seqlock.

(** ** The retry path *)

(** The retry path returns torn values.  A reader that overlaps a write of
    two cells loads an odd [seq] as [seq2], starts over, loads the same odd
    number as [seq1], and [continue] takes it to the loop test, which now finds
    both equal: the getter returns the first cell as it was before the write
    and the second as it is after it, which is neither contents of the entry. *)
Theorem retry_path_returns_torn_value a b a' b' seq2 junk :
  a <> a' -> b <> b' ->
  let ts := [ReaderTurn; ReaderTurn;                         (* seq1 = 0, reads cell 0 *)
             WriterTurn [(0, a'); (1, b')]; WriterTurn []; WriterTurn [];  (* seq = 1, both cells *)
             ReaderTurn; ReaderTurn;                         (* reads cell 1, seq2 = 1 *)
             ReaderTurn]%nat in                              (* seq1 = 1: continue *)
  let s := lock_run [0; 1]%nat ts (new_lock [a; b] seq2 junk) in
  reader s = RExit false [a; b'] /\ ([a; b'] ∉ hist s) /\
  ([a; b'] ∉ hist (lock_run [0; 1]%nat [WriterTurn []] s)).
Proof.
  intros Ha Hb ts s. split_and!; [done|simpl; set_unfold; naive_solver..].
Qed.

(** ** The getters and setters as jobs

    Cells 0 to 31 are the union, 32 the type and 33 the time stamp. *)

Definition type_val (t : RTDataType) : Z :=
  match t with
  | DT_NONE => 0 | DT_INT32 => 1 | DT_FLOAT => 2 | DT_DOUBLE => 3 | DT_UINT64 => 4 | DT_STRING => 5
  end.

Definition entry_cells (e : DataEntry) : list Z := value e ++ [type_val (type e); entry_timestamp_ns e].

Definition byte_writes (k : nat) (bs : list Z) : list (nat * Z) := zip (List.seq k (length bs)) bs.

Definition set_job (bs : list Z) (ty : RTDataType) (now : Z) : list (nat * Z) :=
  byte_writes 0 bs ++ [(32%nat, type_val ty); (33%nat, now)].

(** The getters read the type, then the bytes of their object. *)
Definition get_reads (n : nat) : list nat := 32%nat :: List.seq 0 n.

Definition apply_job (job : list (nat * Z)) (m : list Z) : list Z :=
  foldl (λ m w, <[fst w := snd w]> m) m job.

Lemma writer_runs_job job s :
  writer s = WWriting job ->
  lock_run [] (replicate (length job) (WriterTurn [])) s =
    mkSeqlock (apply_job job (cells s)) (lock_seq s) (hist s) (WWriting []) (reader s).
Proof.
  revert s. induction job as [|[i v] job IH]; intros s Hw; cbn [length replicate].
  { unfold lock_run, apply_job. simpl. destruct s. simpl in Hw. by subst. }
  unfold lock_run. cbn [foldl]. fold (lock_run [] (replicate (length job) (WriterTurn []))).
  unfold lock_run in IH. rewrite IH.
  - unfold lock_turn, writer_step. by rewrite Hw.
  - unfold lock_turn, writer_step. by rewrite Hw.
Qed.

Lemma apply_byte_writes k bs m :
  (k + length bs <= length m)%nat ->
  apply_job (byte_writes k bs) m = take k m ++ bs ++ drop (k + length bs) m.
Proof.
  revert k m. induction bs as [|b bs IH]; intros k m Hl; simpl in *.
  { unfold apply_job. simpl. by rewrite Nat.add_0_r, take_drop. }
  change (apply_job (byte_writes (S k) bs) (<[k := b]> m) = take k m ++ b :: bs ++ drop (k + S (length bs)) m).
  rewrite IH by (rewrite length_insert; lia).
  rewrite drop_insert_lt by lia. replace (k + S (length bs))%nat with (S k + length bs)%nat by lia.
  rewrite (take_S_r _ _ b) by (apply list_lookup_insert_eq; lia).
  rewrite take_insert_ge by lia. by rewrite <- app_assoc.
Qed.

(** The interleaved setter writes what the store's setter writes.  Run
    without interference from a resting entry, the memory accesses of a setter
    leave exactly the cells of [write_entry], with the sequence number advanced
    by two and back at rest. *)
Theorem setter_job_refines_write_entry bs ty now e h r :
  length (value e) = 32%nat -> (length bs <= 32)%nat -> 0 <= seq e < 2 ^ 64 ->
  let job := set_job bs ty now in
  let s := mkSeqlock (entry_cells e) (seq e) h WIdle r in
  let s' := lock_run [] (WriterTurn job :: replicate (length job) (WriterTurn []) ++ [WriterTurn []]) s in
  cells s' = entry_cells (write_entry bs ty now e) /\
  lock_seq s' = seq (write_entry bs ty now e) /\ writer s' = WIdle /\ reader s' = r.
Proof.
  intros Hv Hb Hs job s. unfold lock_run at 1. cbn [foldl]. rewrite foldl_app.
  fold (lock_run [] (replicate (length job) (WriterTurn [])) (lock_turn [] (WriterTurn job) s)).
  rewrite (writer_runs_job job) by done. cbn. split_and!; [|done..].
  unfold job, set_job, apply_job. rewrite foldl_app.
  fold (apply_job (byte_writes 0 bs) (entry_cells e)). unfold entry_cells at 1.
  rewrite apply_byte_writes by (rewrite length_app; simpl; lia).
  cbn [foldl fst snd take app]. rewrite drop_app_le by lia. simpl Nat.add.
  unfold entry_cells, write_entry, overwrite. cbn [value type entry_timestamp_ns].
  rewrite take_0, app_nil_l, app_assoc. set (v := bs ++ drop (length bs) (value e)).
  assert (Hlen : length v = 32%nat) by (subst v; rewrite length_app, length_drop; lia).
  rewrite (insert_app_r_alt v _ 32), (insert_app_r_alt v _ 33) by lia.
  by rewrite Hlen.
Qed.

(** ** Example runs *)

Lemma validated_read_is_a_snapshot_witness :
  let ts := [WriterTurn [(0%nat, 7); (1%nat, 8)]; WriterTurn []; WriterTurn []; WriterTurn [];
             ReaderTurn; ReaderTurn; ReaderTurn; ReaderTurn] in
  let s := lock_run [0; 1]%nat ts (new_lock [1; 2] 99 []) in
  exists snap, snap ∈ hist s /\ [7; 8] = map (cell snap) [0; 1]%nat.
Proof.
  apply (validated_read_is_a_snapshot [0; 1]%nat
    [WriterTurn [(0%nat, 7); (1%nat, 8)]; WriterTurn []; WriterTurn []; WriterTurn [];
     ReaderTurn; ReaderTurn; ReaderTurn; ReaderTurn] [1; 2] 99 [] [7; 8]); reflexivity.
Defined.

Lemma retry_path_returns_torn_value_witness :
  let ts := [ReaderTurn; ReaderTurn; WriterTurn [(0%nat, 3); (1%nat, 4)]; WriterTurn []; WriterTurn [];
             ReaderTurn; ReaderTurn; ReaderTurn] in
  let s := lock_run [0; 1]%nat ts (new_lock [1; 2] 99 []) in
  reader s = RExit false [1; 4] /\ ([1; 4] ∉ hist s) /\
  ([1; 4] ∉ hist (lock_run [0; 1]%nat [WriterTurn []] s)).
Proof. apply (retry_path_returns_torn_value 1 2 3 4 99 []); lia. Defined.

Lemma setter_job_refines_write_entry_witness :
  let job := set_job (le_bytes 4 42) DT_INT32 5 in
  let s := mkSeqlock (entry_cells newEntry) 0 [] WIdle (RLoop 0 []) in
  let s' := lock_run [] (WriterTurn job :: replicate (length job) (WriterTurn []) ++ [WriterTurn []]) s in
  cells s' = entry_cells (write_entry (le_bytes 4 42) DT_INT32 5 newEntry) /\
  lock_seq s' = 2 /\ writer s' = WIdle /\ reader s' = RLoop 0 [].
Proof.
  apply (setter_job_refines_write_entry (le_bytes 4 42) DT_INT32 5 newEntry [] (RLoop 0 []));
    [reflexivity|simpl; lia|simpl; lia].
Defined.
