(* ===== verification/EventQueue.v ===== *)
(** * PriorityQueue of the event bus (src/core/event/core/PriorityQueue.{h,cpp},
      PrioritizedEvent.h)

    [std::priority_queue] does not say which of several equivalent elements is
    on top, so the queue is a collection [list Event] with an operation
    [heap_pop] of the class [Heap], known only to return a maximal element;
    everything is proved for every such operation.  A [push] is the three steps
    that other threads can observe separately: the unlocked backpressure check,
    the locked insertion, and the unlocked update of the size. *)

From S2P Require Import Prelude.

Inductive EventPriority := EP_CRITICAL | EP_HIGH | EP_NORMAL | EP_LOW.

#[export] Instance EventPriority_eq_dec : EqDecision EventPriority.
Proof. solve_decision. Defined.

Definition ep_val (p : EventPriority) : Z :=
  match p with EP_CRITICAL => 0 | EP_HIGH => 1 | EP_NORMAL => 2 | EP_LOW => 3 end.

Definition priorityToString (p : EventPriority) : string :=
  match p with
  | EP_CRITICAL => "CRITICAL" | EP_HIGH => "HIGH" | EP_NORMAL => "NORMAL" | EP_LOW => "LOW"
  end.

Record PrioritizedEvent (A : Type) := mkEvent {
  ev_type : string;
  ev_priority : EventPriority;
  payload : A;
  timestamp_ns : Z;
  sequence_num : Z;
  ttl : option Z;
  coalescing_key : option string
}.
Arguments mkEvent {A}.
Arguments ev_type {A} _.
Arguments ev_priority {A} _.
Arguments payload {A} _.
Arguments timestamp_ns {A} _.
Arguments sequence_num {A} _.
Arguments ttl {A} _.
Arguments coalescing_key {A} _.

Record PriorityQueueMetrics := mkMetrics {
  critical_events_pushed : Z;
  high_events_pushed : Z;
  normal_events_pushed : Z;
  low_events_pushed : Z;
  critical_events_dropped : Z;
  high_events_dropped : Z;
  normal_events_dropped : Z;
  low_events_dropped : Z;
  events_popped : Z;
  events_expired : Z;
  events_coalesced : Z;
  current_size : Z;
  peak_size : Z
}.

Definition zero_metrics : PriorityQueueMetrics := mkMetrics 0 0 0 0 0 0 0 0 0 0 0 0 0.

Record PriorityQueue (A : Type) := mkPriorityQueue {
  capacity_ : Z;
  drop_threshold_80_ : Z;
  drop_threshold_90_ : Z;
  queue_ : list (PrioritizedEvent A);
  size_ : Z;
  coalescing_latest_seq_ : gmap string Z;
  metrics_ : PriorityQueueMetrics
}.
Arguments mkPriorityQueue {A}.
Arguments capacity_ {A} _.
Arguments drop_threshold_80_ {A} _.
Arguments drop_threshold_90_ {A} _.
Arguments queue_ {A} _.
Arguments size_ {A} _.
Arguments coalescing_latest_seq_ {A} _.
Arguments metrics_ {A} _.

Section Events.
Context {A : Type}.
Implicit Types (e : PrioritizedEvent A).

(** The subtraction is made in [uint64_t]; [now] is the clock in ns. *)
Definition isExpired (now : Z) e : bool :=
  match ttl e with
  | None => false
  | Some t => u64 t <? u64 (now - timestamp_ns e) / 1000000
  end.

(** [operator<], reversed for the max-heap: [event_lt a b] when [b] is served
    before [a]. *)
Definition event_lt (a b : PrioritizedEvent A) : bool :=
  if negb (ep_val (ev_priority a) =? ep_val (ev_priority b))
  then ep_val (ev_priority b) <? ep_val (ev_priority a)
  else if negb (timestamp_ns a =? timestamp_ns b)
  then timestamp_ns b <? timestamp_ns a
  else sequence_num b <? sequence_num a.

Definition makePrioritizedEvent (now : Z) (type : string) (p : EventPriority) (x : A) (seq : Z) :=
  mkEvent type p x (u64 now) seq None None.
End Events.

(** ** The heap *)

Class Heap (A : Type) :=
  heap_pop : list (PrioritizedEvent A) -> option (PrioritizedEvent A * list (PrioritizedEvent A)).

Class HeapLaws (A : Type) `{!Heap A} : Prop := {
  heap_pop_None l : heap_pop l = None -> l = [];
  heap_pop_Some l e l' : heap_pop l = Some (e, l') ->
    l ≡ₚ e :: l' /\ Forall (λ x, event_lt e x = false) l'
}.

Section PriorityQueue.
Context {A : Type} `{!Heap A}.
Implicit Types (e : PrioritizedEvent A) (s : PriorityQueue A).

Definition newPriorityQueue (capacity : Z) : PriorityQueue A :=
  mkPriorityQueue capacity (double_mul_floor capacity double_0_8)
    (double_mul_floor capacity double_0_9) [] 0 ∅ zero_metrics.

(** *** Field updates *)

Definition set_queue (q : list (PrioritizedEvent A)) (seqs : gmap string Z) s :=
  mkPriorityQueue (capacity_ s) (drop_threshold_80_ s) (drop_threshold_90_ s) q (size_ s) seqs
    (metrics_ s).
Definition set_size (n : Z) s :=
  mkPriorityQueue (capacity_ s) (drop_threshold_80_ s) (drop_threshold_90_ s) (queue_ s) n
    (coalescing_latest_seq_ s) (metrics_ s).
Definition set_metrics (m : PriorityQueueMetrics) s :=
  mkPriorityQueue (capacity_ s) (drop_threshold_80_ s) (drop_threshold_90_ s) (queue_ s) (size_ s)
    (coalescing_latest_seq_ s) m.

Definition count_popped (m : PriorityQueueMetrics) :=
  let '(mkMetrics a b c d e f g h po ex co cu pe) := m in
  mkMetrics a b c d e f g h (u64 (po + 1)) ex co cu pe.
Definition count_expired (m : PriorityQueueMetrics) :=
  let '(mkMetrics a b c d e f g h po ex co cu pe) := m in
  mkMetrics a b c d e f g h po (u64 (ex + 1)) co cu pe.
Definition count_coalesced (m : PriorityQueueMetrics) :=
  let '(mkMetrics a b c d e f g h po ex co cu pe) := m in
  mkMetrics a b c d e f g h po ex (u64 (co + 1)) cu pe.
Definition set_current_size (n : Z) (m : PriorityQueueMetrics) :=
  let '(mkMetrics a b c d e f g h po ex co _ pe) := m in
  mkMetrics a b c d e f g h po ex co n pe.
Definition raise_peak (n : Z) (m : PriorityQueueMetrics) :=
  let '(mkMetrics a b c d e f g h po ex co cu pe) := m in
  mkMetrics a b c d e f g h po ex co cu (if pe <? n then n else pe).

Definition updatePushMetrics (p : EventPriority) (dropped : bool) (m : PriorityQueueMetrics) :=
  let '(mkMetrics a b c d e f g h po ex co cu pe) := m in
  match dropped, p with
  | true, EP_CRITICAL => mkMetrics a b c d (u64 (e + 1)) f g h po ex co cu pe
  | true, EP_HIGH => mkMetrics a b c d e (u64 (f + 1)) g h po ex co cu pe
  | true, EP_NORMAL => mkMetrics a b c d e f (u64 (g + 1)) h po ex co cu pe
  | true, EP_LOW => mkMetrics a b c d e f g (u64 (h + 1)) po ex co cu pe
  | false, EP_CRITICAL => mkMetrics (u64 (a + 1)) b c d e f g h po ex co cu pe
  | false, EP_HIGH => mkMetrics a (u64 (b + 1)) c d e f g h po ex co cu pe
  | false, EP_NORMAL => mkMetrics a b (u64 (c + 1)) d e f g h po ex co cu pe
  | false, EP_LOW => mkMetrics a b c (u64 (d + 1)) e f g h po ex co cu pe
  end.

(** *** Operations *)

Definition shouldDrop (p : EventPriority) s : bool :=
  let current_size := size_ s in
  if bool_decide (p = EP_CRITICAL) then false
  else if current_size <? drop_threshold_80_ s then false
  else if current_size <? drop_threshold_90_ s then bool_decide (p = EP_LOW)
  else if current_size <? capacity_ s then bool_decide (p = EP_LOW) || bool_decide (p = EP_NORMAL)
  else bool_decide (p = EP_LOW) || bool_decide (p = EP_NORMAL) || bool_decide (p = EP_HIGH).

(** The locked part of [push]. *)
Definition push_insert e s : PriorityQueue A :=
  match coalescing_key e with
  | None => set_queue (queue_ s ++ [e]) (coalescing_latest_seq_ s) s
  | Some key =>
    let s := if (coalescing_latest_seq_ s).[key]
             then set_metrics (count_coalesced (metrics_ s)) s else s in
    set_queue (queue_ s ++ [e]) (<[key := sequence_num e]> (coalescing_latest_seq_ s)) s
  end.

(** The part of [push] after the lock is released. *)
Definition push_count e s : PriorityQueue A :=
  let new_size := u64 (size_ s + 1) in
  let s := set_size new_size s in
  let m := raise_peak new_size (set_current_size new_size (metrics_ s)) in
  set_metrics (updatePushMetrics (ev_priority e) false m) s.

Definition push e s : bool * PriorityQueue A :=
  if shouldDrop (ev_priority e) s
  then (false, set_metrics (updatePushMetrics (ev_priority e) true (metrics_ s)) s)
  else (true, push_count e (push_insert e s)).

(** Take the top event off the queue and count it out. *)
Definition take_top (rest : list (PrioritizedEvent A)) s : PriorityQueue A :=
  let s := set_queue rest (coalescing_latest_seq_ s) s in
  let new_size := u64 (size_ s - 1) in
  set_metrics (set_current_size new_size (metrics_ s)) (set_size new_size s).

Definition superseded e s : bool :=
  match coalescing_key e with
  | None => false
  | Some key =>
    match coalescing_latest_seq_ s !! key with
    | Some seq => negb (seq =? sequence_num e)
    | None => false
    end
  end.

Definition deliver e s : PriorityQueue A :=
  let s := match coalescing_key e with
           | None => s
           | Some key => set_queue (queue_ s) (delete key (coalescing_latest_seq_ s)) s
           end in
  set_metrics (count_popped (metrics_ s)) s.

(** The loop of [pop]; [clock i] is the reading of the [i]-th iteration.  Each
    iteration removes an event, so the length of the queue is enough fuel. *)
Fixpoint pop_loop (fuel : nat) (clock : nat -> Z) s : option (PrioritizedEvent A) * PriorityQueue A :=
  match fuel with
  | O => (None, s)
  | S fuel =>
    match heap_pop (queue_ s) with
    | None => (None, s)
    | Some (e, rest) =>
      let s := take_top rest s in
      if isExpired (clock O) e
      then pop_loop fuel (clock ∘ S) (set_metrics (count_expired (metrics_ s)) s)
      else if superseded e s then pop_loop fuel (clock ∘ S) s
      else (Some e, deliver e s)
    end
  end.

Definition pop (clock : nat -> Z) s : option (PrioritizedEvent A) * PriorityQueue A :=
  pop_loop (length (queue_ s)) clock s.

Definition size s : Z := size_ s.
Definition empty s : bool := size s =? 0.
Definition resetMetrics s : PriorityQueue A := set_metrics zero_metrics s.

(** *** Runs, with the fate of every event *)

Inductive PQOp :=
| PushOp (e : PrioritizedEvent A)
| PopOp (clock : nat -> Z)
| ResetMetricsOp.

Record Ledger := mkLedger {
  accepted : list (PrioritizedEvent A);
  delivered : list (PrioritizedEvent A);
  discarded : list (PrioritizedEvent A)
}.

(** The events a [pop] throws away before its result. *)
Fixpoint pop_discards (fuel : nat) (clock : nat -> Z) s : list (PrioritizedEvent A) :=
  match fuel with
  | O => []
  | S fuel =>
    match heap_pop (queue_ s) with
    | None => []
    | Some (e, rest) =>
      let s := take_top rest s in
      if isExpired (clock O) e
      then e :: pop_discards fuel (clock ∘ S) (set_metrics (count_expired (metrics_ s)) s)
      else if superseded e s then e :: pop_discards fuel (clock ∘ S) s
      else []
    end
  end.

Definition pq_exec (o : PQOp) (x : Ledger * PriorityQueue A) : Ledger * PriorityQueue A :=
  let '(l, s) := x in
  match o with
  | PushOp e =>
    let '(ok, s') := push e s in
    (mkLedger (accepted l ++ if ok : bool then [e] else []) (delivered l) (discarded l), s')
  | PopOp clock =>
    let '(r, s') := pop clock s in
    (mkLedger (accepted l) (delivered l ++ option_list r)
       (discarded l ++ pop_discards (length (queue_ s)) clock s), s')
  | ResetMetricsOp => (l, resetMetrics s)
  end.

Definition pq_run (os : list PQOp) (x : Ledger * PriorityQueue A) : Ledger * PriorityQueue A :=
  foldl (λ x o, pq_exec o x) x os.

(** *** Every event is accounted for *)

Context `{!HeapLaws A}.

Record pq_ok (l : Ledger) s : Prop := {
  ok_events : accepted l ≡ₚ delivered l ++ discarded l ++ queue_ s;
  ok_size : size_ s = Z.of_nat (length (queue_ s))
}.

Lemma deliver_queue e s :
  queue_ (deliver e s) = queue_ s /\ size_ (deliver e s) = size_ s.
Proof. unfold deliver. by case_match. Qed.

Lemma take_top_size e rest s :
  queue_ s ≡ₚ e :: rest -> size_ s = Z.of_nat (length (queue_ s)) -> size_ s < 2 ^ 64 ->
  size_ (take_top rest s) = Z.of_nat (length rest).
Proof.
  intros Hp Hs Hb. apply Permutation_length in Hp. simpl in *. rewrite Hp in Hs.
  rewrite Hs in *. rewrite u64_small; unfold in_u64; lia.
Qed.

(** One [pop] with any fuel: what leaves the queue is what is discarded and
    then, possibly, delivered. *)
Lemma pop_loop_ok fuel clock s :
  size_ s = Z.of_nat (length (queue_ s)) -> size_ s < 2 ^ 64 ->
  let '(r, s') := pop_loop fuel clock s in
  queue_ s ≡ₚ pop_discards fuel clock s ++ option_list r ++ queue_ s' /\
  size_ s' = Z.of_nat (length (queue_ s')).
Proof using HeapLaws0.
  revert clock s. induction fuel as [|fuel IH]; intros clock s Hs Hb; simpl; [done|].
  destruct (heap_pop (queue_ s)) as [[e rest]|] eqn:Hpop; [|done].
  apply heap_pop_Some in Hpop as [Hp _].
  pose proof (take_top_size e rest s Hp Hs Hb) as Hsz.
  assert (Hb' : size_ (take_top rest s) < 2 ^ 64).
  { rewrite Hsz. apply Permutation_length in Hp. simpl in Hp. lia. }
  destruct (isExpired (clock 0%nat) e).
  { specialize (IH (clock ∘ S) (set_metrics (count_expired (metrics_ (take_top rest s))) (take_top rest s)) Hsz Hb').
    destruct (pop_loop _ _ _) as [r s']. destruct IH as [IH ?]. split; [|done]. rewrite Hp. simpl.
    by rewrite <- IH. }
  destruct (superseded e (take_top rest s)).
  { specialize (IH (clock ∘ S) (take_top rest s) Hsz Hb').
    destruct (pop_loop _ _ _) as [r s']. destruct IH as [IH ?]. split; [|done]. rewrite Hp. simpl.
    by rewrite <- IH. }
  destruct (deliver_queue e (take_top rest s)) as [Hq Hz]. by rewrite Hq, Hz.
Qed.

Lemma push_insert_queue e s :
  queue_ (push_insert e s) = queue_ s ++ [e] /\ size_ (push_insert e s) = size_ s.
Proof. unfold push_insert. by repeat case_match. Qed.

Lemma pq_exec_ok n o l s :
  pq_ok l s -> Z.of_nat (length (accepted l)) <= n < 2 ^ 64 - 1 ->
  let '(l', s') := pq_exec o (l, s) in
  pq_ok l' s' /\ Z.of_nat (length (accepted l')) <= n + 1.
Proof using HeapLaws0.
  intros [He Hs] Hn.
  assert (Hb : Z.of_nat (length (queue_ s)) <= n).
  { apply Permutation_length in He. rewrite !length_app in He. lia. }
  destruct o as [e|clock|]; simpl; [| |split; [by constructor|lia]].
  - unfold push. destruct (shouldDrop _ s).
    { simpl. rewrite app_nil_r. split; [by constructor|lia]. }
    destruct (push_insert_queue e s) as [Hq Hz]. simpl. rewrite length_app. simpl. split; [|lia].
    constructor; simpl.
    + by rewrite Hq, He, !app_assoc.
    + rewrite Hq, Hz, Hs, length_app. simpl. rewrite u64_small; unfold in_u64; lia.
  - pose proof (pop_loop_ok (length (queue_ s)) clock s Hs ltac:(lia)) as Hpop.
    unfold pop. destruct (pop_loop _ clock s) as [r s']. destruct Hpop as [Hp Hz].
    simpl. set (d := pop_discards _ clock s) in *. clearbody d. split; [|lia]. constructor; simpl; [|done].
    rewrite He, Hp. rewrite <- !app_assoc. apply Permutation_app_head.
    rewrite (app_assoc (discarded l)), Permutation_app_swap_app, <- !app_assoc. done.
Qed.

Lemma pq_run_ok os n l s :
  pq_ok l s -> Z.of_nat (length (accepted l)) <= n -> n + Z.of_nat (length os) < 2 ^ 64 ->
  pq_ok (fst (pq_run os (l, s))) (snd (pq_run os (l, s))).
Proof using HeapLaws0.
  revert n l s. induction os as [|o os IH]; intros n l s Hok Hn Hlen; [done|].
  cbn [length] in Hlen. unfold pq_run. cbn [foldl]. fold (pq_run os (pq_exec o (l, s))).
  pose proof (pq_exec_ok n o l s Hok ltac:(lia)) as H. destruct (pq_exec o (l, s)) as [l' s'].
  destruct H as [H1 H2]. apply (IH (n + 1)); [done..|lia].
Qed.

(** C3: no event is lost or duplicated.  After any sequence of fewer than 2^64
    calls on a new queue, the accepted events are, as a multiset, exactly the
    delivered ones, the ones pop discarded as expired or superseded, and the
    ones still queued; and size() is the number of queued events. *)
Theorem queue_accounts_for_every_event os capacity :
  Z.of_nat (length os) < 2 ^ 64 ->
  let '(l, s) := pq_run os (mkLedger [] [] [], newPriorityQueue capacity) in
  accepted l ≡ₚ delivered l ++ discarded l ++ queue_ s /\
  size s = Z.of_nat (length (queue_ s)).
Proof.
  intros Hlen. pose proof (pq_run_ok os 0 (mkLedger [] [] []) (newPriorityQueue capacity)) as H.
  destruct (pq_run os _) as [l s]. by destruct H as [? ?]; [constructor|done|lia|].
Qed.

(** *** Backpressure *)

Definition pq_config s := (capacity_ s, drop_threshold_80_ s, drop_threshold_90_ s).

Lemma pop_loop_config fuel clock s : pq_config (snd (pop_loop fuel clock s)) = pq_config s.
Proof.
  revert clock s. induction fuel as [|fuel IH]; intros clock s; simpl; [done|].
  destruct (heap_pop (queue_ s)) as [[e rest]|]; [|done].
  destruct (isExpired (clock 0%nat) e); [by rewrite IH|].
  destruct (superseded e _); [by rewrite IH|]. unfold deliver. by case_match.
Qed.

Lemma pq_run_config os x : pq_config (snd (pq_run os x)) = pq_config (snd x).
Proof.
  revert x. induction os as [|o os IH]; intros [l s]; [done|].
  unfold pq_run. cbn [foldl]. fold (pq_run os (pq_exec o (l, s))). rewrite IH.
  destruct o as [e|clock|]; simpl; [| |done].
  - unfold push. destruct (shouldDrop _ s); [done|]. unfold push_insert. by repeat case_match.
  - unfold pop. pose proof (pop_loop_config (length (queue_ s)) clock s) as H.
    by destruct (pop_loop _ clock s).
Qed.

(** Backpressure by priority.  In every reachable state of a queue of
    capacity c (below 2^48) holding n events, a CRITICAL event is always
    accepted, a HIGH one exactly when n < c, a NORMAL one exactly when
    n < 90% of c and a LOW one exactly when n < 80% of c, the percentages
    truncated to integers; the thresholds are computed in doubles by the code. *)
Theorem backpressure_admits_by_priority os c e :
  Z.of_nat (length os) < 2 ^ 64 -> 0 <= c < 2 ^ 48 ->
  let s := snd (pq_run os (mkLedger [] [] [], newPriorityQueue c)) in
  let n := Z.of_nat (length (queue_ s)) in
  fst (push e s) = match ev_priority e with
                   | EP_CRITICAL => true
                   | EP_HIGH => n <? c
                   | EP_NORMAL => n <? c * 9 / 10
                   | EP_LOW => n <? c * 4 / 5
                   end.
Proof.
  intros Hlen Hc s n.
  assert (Hsz : size_ s = n).
  { destruct (pq_run_ok os 0 (mkLedger [] [] []) (newPriorityQueue c)) as [_ H];
      [by constructor|done|lia|exact H]. }
  pose proof (pq_run_config os (mkLedger [] [] [], newPriorityQueue c)) as Hcfg.
  fold s in Hcfg. unfold pq_config in Hcfg. simpl in Hcfg.
  rewrite double_0_8_floor, double_0_9_floor in Hcfg by done. injection Hcfg as H1 H2 H3.
  unfold push, shouldDrop. rewrite Hsz, H1, H2, H3.
  assert (c * 4 / 5 <= c * 9 / 10 <= c).
  { split; [apply Z.div_le_lower_bound|apply Z.div_le_upper_bound]; try lia.
    pose proof (Z.div_mod (c * 4) 5 ltac:(lia)). pose proof (Z.mod_pos_bound (c * 4) 5 ltac:(lia)). lia. }
  destruct (ev_priority e); simpl;
    repeat match goal with |- context [?a <? ?b] => destruct (Z.ltb_spec a b); simpl end;
    done || lia.
Qed.

(** *** Pop *)

Lemma pop_loop_result fuel clock s :
  (length (queue_ s) <= fuel)%nat ->
  match pop_loop fuel clock s with
  | (None, s') => queue_ s' = []
  | (Some e, s') => Forall (λ x, event_lt e x = false) (queue_ s') /\
                    exists i, isExpired (clock i) e = false
  end.
Proof using HeapLaws0.
  revert clock s. induction fuel as [|fuel IH]; intros clock s Hf; simpl.
  { by destruct (queue_ s); [|simpl in Hf; lia]. }
  destruct (heap_pop (queue_ s)) as [[e rest]|] eqn:Hpop; [|by apply heap_pop_None].
  apply heap_pop_Some in Hpop as [Hp Hmin]. apply Permutation_length in Hp. simpl in Hp.
  assert (Hdrop : forall s', queue_ s' = rest ->
    match pop_loop fuel (clock ∘ S) s' with
    | (None, s') => queue_ s' = []
    | (Some e, s') => Forall (λ x, event_lt e x = false) (queue_ s') /\
                      exists i, isExpired (clock i) e = false
    end).
  { intros s' Hs'. specialize (IH (clock ∘ S) s' ltac:(rewrite Hs'; lia)).
    destruct (pop_loop fuel (clock ∘ S) s') as [[x|] s'']; [|done].
    destruct IH as [? [i Hi]]. split; [done|]. by exists (S i). }
  destruct (isExpired (clock 0%nat) e) eqn:Hexp; [by apply Hdrop|].
  destruct (superseded e _); [by apply Hdrop|].
  destruct (deliver_queue e (take_top rest s)) as [Hq _]. rewrite Hq. split; [done|]. by exists 0%nat.
Qed.

(** Pop delivers in order and never gives up early.  It returns an event
    only if the event was not expired and no event left in the queue is to be
    served before it (priority, then age, then sequence number); it returns
    nothing only when the queue has been emptied. *)
Theorem pop_delivers_most_urgent_live_event clock s :
  match pop clock s with
  | (None, s') => queue_ s' = []
  | (Some e, s') => Forall (λ x, event_lt e x = false) (queue_ s') /\
                    exists i, isExpired (clock i) e = false
  end.
Proof. by apply pop_loop_result. Qed.

(** *** Coalescing across priorities *)

Lemma heap_pop_two (a b : PrioritizedEvent A) :
  event_lt a b = true -> heap_pop [a; b] = Some (b, [a]).
Proof using HeapLaws0.
  intros Hlt. destruct (heap_pop [a; b]) as [[x rest]|] eqn:E; [|by apply heap_pop_None in E].
  apply heap_pop_Some in E as [Hp Hmin].
  assert (Hlen : length rest = 1%nat) by (apply Permutation_length in Hp; simpl in Hp; lia).
  destruct rest as [|y [|? ?]]; try done.
  apply Permutation_length_2_inv in Hp as [Heq|Heq]; simplify_eq; [|done].
  inversion Hmin; subst. congruence.
Qed.

Lemma heap_pop_one (a : PrioritizedEvent A) : heap_pop [a] = Some (a, []).
Proof using HeapLaws0.
  destruct (heap_pop [a]) as [[x rest]|] eqn:E; [|by apply heap_pop_None in E].
  apply heap_pop_Some in E as [Hp _].
  assert (rest = []) as -> by (apply Permutation_length in Hp; destruct rest; [done|simpl in Hp; lia]).
  apply Permutation_singleton_inj in Hp. by subst.
Qed.

Lemma shouldDrop_below_80 p s : size_ s < drop_threshold_80_ s -> shouldDrop p s = false.
Proof.
  intros H. unfold shouldDrop. case_bool_decide; [done|]. by rewrite (proj2 (Z.ltb_lt _ _)) by done.
Qed.

Lemma push_accepted e s :
  shouldDrop (ev_priority e) s = false ->
  let s' := snd (push e s) in
  push e s = (true, s') /\ queue_ s' = queue_ s ++ [e] /\ size_ s' = u64 (size_ s + 1) /\
  coalescing_latest_seq_ s' =
    match coalescing_key e with
    | Some key => <[key := sequence_num e]> (coalescing_latest_seq_ s)
    | None => coalescing_latest_seq_ s
    end /\
  events_coalesced (metrics_ s') =
    match coalescing_key e with
    | Some key => if (coalescing_latest_seq_ s).[key] then u64 (events_coalesced (metrics_ s) + 1)
                  else events_coalesced (metrics_ s)
    | None => events_coalesced (metrics_ s)
    end /\
  drop_threshold_80_ s' = drop_threshold_80_ s.
Proof.
  intros Hd. unfold push. rewrite Hd. simpl. unfold push_insert.
  destruct (coalescing_key e) as [key|]; [case_match|]; simpl; split_and!; try done;
    destruct (metrics_ s); by destruct (ev_priority e).
Qed.

Lemma pop_top clock s e rest :
  heap_pop (queue_ s) = Some (e, rest) -> isExpired (clock 0%nat) e = false ->
  superseded e s = false -> pop clock s = (Some e, deliver e (take_top rest s)).
Proof using HeapLaws0.
  intros Hp He Hs. unfold pop. destruct (length (queue_ s)) eqn:Hl.
  - apply heap_pop_Some in Hp as [Hp _]. apply Permutation_length in Hp. simpl in Hp. lia.
  - simpl. rewrite Hp, He. unfold superseded in *. simpl. by rewrite Hs.
Qed.

(** A superseded event can be delivered after the event that replaced it.
    Two live events with the same coalescing key are pushed, and the newer one
    is more urgent: pop delivers the newer one, forgets the key, and the next
    pop delivers the older one, which coalescing was to skip. *)
Theorem coalescing_delivers_stale_event key (old new : PrioritizedEvent A) c clock :
  coalescing_key old = Some key -> coalescing_key new = Some key ->
  sequence_num old <> sequence_num new -> event_lt old new = true ->
  5 <= c < 2 ^ 48 ->
  (forall i, isExpired (clock i) old = false /\ isExpired (clock i) new = false) ->
  let s := snd (push new (snd (push old (newPriorityQueue c)))) in
  fst (pop clock s) = Some new /\ fst (pop clock (snd (pop clock s))) = Some old /\
  events_coalesced (metrics_ s) = 1.
Proof.
  intros Ho Hn Hseq Hlt Hc Hexp. destruct (Hexp 0%nat) as [Heo Hen].
  assert (H80 : 4 <= drop_threshold_80_ (newPriorityQueue c)).
  { simpl. rewrite double_0_8_floor by lia. apply Z.div_le_lower_bound; lia. }
  set (s0 := newPriorityQueue c) in *.
  assert (H0 : queue_ s0 = [] /\ size_ s0 = 0 /\ coalescing_latest_seq_ s0 = ∅ /\
               events_coalesced (metrics_ s0) = 0) by done.
  clearbody s0. destruct H0 as (Q0 & Z0 & L0 & M0).
  destruct (push_accepted old s0) as (E1 & Q1 & Z1 & L1 & M1 & T1);
    [apply shouldDrop_below_80; lia|].
  rewrite E1. set (s1 := snd (push old s0)) in *. cbn [snd]. clearbody s1.
  rewrite Ho, Q0, Z0, L0, M0 in *.
  destruct (push_accepted new s1) as (E2 & Q2 & Z2 & L2 & M2 & T2);
    [apply shouldDrop_below_80; rewrite Z1, T1; vm_compute u64; lia|].
  rewrite E2. set (s2 := snd (push new s1)) in *. cbn [snd]. clearbody s2.
  rewrite Hn, Q1, L1, M1 in *. rewrite lookup_empty in M2.
  rewrite (bool_decide_false (is_Some None)) in M2 by (by intros [? ?]).
  rewrite lookup_insert_eq, bool_decide_true in M2 by eauto. 
  assert (Hp1 : pop clock s2 = (Some new, deliver new (take_top [old] s2))).
  { apply pop_top; [by rewrite Q2; apply heap_pop_two|done|].
    unfold superseded. by rewrite Hn, L2, lookup_insert_eq, Z.eqb_refl. }
  rewrite Hp1. split_and!; [done| |exact M2]. cbn [snd]. unfold deliver. rewrite Hn.
  rewrite (pop_top clock _ old []); [done|apply heap_pop_one|done|].
  unfold superseded. rewrite Ho. simpl. by rewrite lookup_delete_eq.
Qed.

(** *** The size is published after the event *)

(** A pop between the two halves of a push makes the queue look full.  One
    thread has inserted an event into the empty queue and not yet counted it;
    another pops it: the size wraps around to 2^64 - 1, and a third thread's
    push of a HIGH, NORMAL or LOW event into the now empty queue is dropped. *)
Theorem size_underflow_drops_events (e e' : PrioritizedEvent A) c clock :
  0 <= c < 2 ^ 48 -> coalescing_key e = None -> isExpired (clock 0%nat) e = false ->
  ev_priority e' <> EP_CRITICAL ->
  let s := snd (pop clock (push_insert e (newPriorityQueue c))) in
  queue_ s = [] /\ size s = 2 ^ 64 - 1 /\ fst (push e' s) = false.
Proof.
  intros Hc Hk Hexp Hp.
  assert (H80 : drop_threshold_80_ (newPriorityQueue c) <= c).
  { simpl. rewrite double_0_8_floor by done. apply Z.div_le_upper_bound; lia. }
  assert (H90 : drop_threshold_90_ (newPriorityQueue c) <= c).
  { simpl. rewrite double_0_9_floor by done. apply Z.div_le_upper_bound; lia. }
  set (s0 := newPriorityQueue c) in *.
  assert (H0 : queue_ s0 = [] /\ size_ s0 = 0 /\ capacity_ s0 = c) by done.
  clearbody s0. destruct H0 as (Q0 & Z0 & C0).
  assert (Hi : push_insert e s0 = set_queue [e] (coalescing_latest_seq_ s0) s0).
  { unfold push_insert. by rewrite Hk, Q0. }
  rewrite Hi, (pop_top clock _ e []); [|apply heap_pop_one|done|unfold superseded; by rewrite Hk].
  unfold deliver. rewrite Hk. cbn [snd]. split; [done|].
  assert (Hs : u64 (size_ s0 - 1) = 2 ^ 64 - 1) by (by rewrite Z0). split; [exact Hs|].
  unfold push, shouldDrop. simpl. rewrite Hs, bool_decide_false, C0 by done.
  rewrite !(proj2 (Z.ltb_ge _ _)) by lia. by destruct (ev_priority e').
Qed.
End PriorityQueue.

(** ** A concrete heap: the first of the most urgent events *)

Section ListHeap.
Context {A : Type}.

#[export] Instance list_heap : Heap A := extract_min (λ a b, event_lt b a).

#[export] Instance list_heap_laws : HeapLaws A.
Proof.
  assert (Hirr : forall x : PrioritizedEvent A, event_lt x x = false).
  { intros x. unfold event_lt. rewrite !Z.eqb_refl. simpl. apply Z.ltb_irrefl. }
  assert (Htr : forall x y z : PrioritizedEvent A,
    event_lt y x = true -> event_lt z y = true -> event_lt z x = true).
  { unfold event_lt. intros x y z.
    repeat match goal with |- context [?a =? ?b] => destruct (Z.eqb_spec a b); simpl end;
      rewrite ?Z.ltb_lt; lia. }
  assert (Htot : forall x y z : PrioritizedEvent A,
    event_lt y x = true -> event_lt z x = true \/ event_lt y z = true).
  { unfold event_lt. intros x y z.
    repeat match goal with |- context [?a =? ?b] => destruct (Z.eqb_spec a b); simpl end;
      rewrite ?Z.ltb_lt; lia. }
  split.
  - intros l. apply extract_min_None.
  - intros l e l' H. split.
    + eapply (extract_min_perm (λ a b, event_lt b a)); eauto.
    + eapply (extract_min_least (λ a b, event_lt b a)); eauto.
Defined.
End ListHeap.

(** ** Example runs *)

Module EventExamples.
Definition ev (p : EventPriority) (t seq : Z) (key : option string) : PrioritizedEvent unit :=
  mkEvent "sensor" p tt t seq None key.
Definition clock : nat -> Z := fun _ => 1000.
End EventExamples.
Import EventExamples.

Lemma queue_accounts_for_every_event_witness :
  let os := [PushOp (ev EP_LOW 1 1 None); PushOp (ev EP_CRITICAL 2 2 None); PopOp clock] in
  let '(l, s) := pq_run os (mkLedger [] [] [], newPriorityQueue 10) in
  accepted l ≡ₚ delivered l ++ discarded l ++ queue_ s /\ size s = Z.of_nat (length (queue_ s)).
Proof. apply (queue_accounts_for_every_event _ 10). reflexivity. Defined.

(** Four LOW events fill a queue of capacity 5 to 80%: the next LOW one is
    refused. *)
Lemma backpressure_admits_by_priority_witness :
  let os := map (λ i, PushOp (ev EP_LOW i i None)) [1; 2; 3; 4] in
  let s := snd (pq_run os (mkLedger [] [] [], newPriorityQueue 5)) in
  fst (push (ev EP_LOW 9 9 None) s) = false.
Proof.
  intros os s.
  etransitivity; [apply (backpressure_admits_by_priority os 5 (ev EP_LOW 9 9 None));
                  [reflexivity|lia]|by_compute].
Defined.

Lemma coalescing_delivers_stale_event_witness :
  let s := snd (push (ev EP_HIGH 2 2 (Some "k")) (snd (push (ev EP_LOW 1 1 (Some "k"))
             (newPriorityQueue 16)))) in
  fst (pop clock s) = Some (ev EP_HIGH 2 2 (Some "k")) /\
  fst (pop clock (snd (pop clock s))) = Some (ev EP_LOW 1 1 (Some "k")) /\
  events_coalesced (metrics_ s) = 1.
Proof.
  apply (coalescing_delivers_stale_event "k" (ev EP_LOW 1 1 (Some "k")) (ev EP_HIGH 2 2 (Some "k")) 16 clock);
    [reflexivity|reflexivity|discriminate|reflexivity|lia|done].
Defined.

Lemma size_underflow_drops_events_witness :
  let s := snd (pop clock (push_insert (ev EP_NORMAL 1 1 None) (newPriorityQueue 4096))) in
  queue_ s = [] /\ size s = 2 ^ 64 - 1 /\ fst (push (ev EP_HIGH 2 2 None) s) = false.
Proof.
  apply (size_underflow_drops_events (ev EP_NORMAL 1 1 None) (ev EP_HIGH 2 2 None) 4096 clock);
    [lia|reflexivity|reflexivity|discriminate].
Defined.

(** The NORMAL event comes out before the older LOW one. *)
Lemma pop_delivers_most_urgent_live_event_witness :
  let s := snd (push (ev EP_NORMAL 2 2 None) (snd (push (ev EP_LOW 1 1 None) (newPriorityQueue 16)))) in
  fst (pop clock s) = Some (ev EP_NORMAL 2 2 None) /\
  Forall (λ x, event_lt (ev EP_NORMAL 2 2 None) x = false) (queue_ (snd (pop clock s))).
Proof.
  intros s. pose proof (pop_delivers_most_urgent_live_event clock s) as H.
  assert (Hp : fst (pop clock s) = Some (ev EP_NORMAL 2 2 None)) by by_compute.
  split; [exact Hp|]. destruct (pop clock s) as [r s']. simpl in Hp. subst r. apply H.
Defined.
