(* ===== verification/EventBus.v ===== *)
(** * The event bus (src/core/event/core/EventBus.{h,cpp}, SubscriptionManager.h,
      util/EventStats.h, util/EventFilter.h, dto/EventType.h, dto/EventBase.h)

    Publishers on any thread put events into the priority queue of [EventQueue];
    one dispatch thread takes them out and calls the subscribers.  The calls
    that hold no lock for their whole body are divided into the accesses that
    other threads can observe ([exec]): a publisher reads the clock, draws a
    sequence number, takes the publish mutex, checks for backpressure, inserts
    and counts; the dispatch thread pops, calls one subscriber at a time, and
    drains the queue when the bus stops.  [log] is a ghost history of the
    publish calls begun, the insertions and the pops.

    Filters, callbacks and observers are code of the clients: functions on a
    world [W] that may throw.  A callback that calls back into the bus appears
    in a run as the steps of one more publisher next to the dispatch thread's. *)

From stdpp Require Import pretty.
From Stdlib Require Import Ascii.
From S2P Require Import Prelude EventQueue.
#[local] Open Scope Z_scope.

(** ** Events *)

Inductive EventType :=
| ACTION_STARTED | ACTION_COMPLETED | ACTION_FAILED | ACTION_CANCELLED | ACTION_TIMEOUT
| SEQUENCE_STARTED | SEQUENCE_STEP_STARTED | SEQUENCE_STEP_COMPLETED | SEQUENCE_COMPLETED
| SEQUENCE_FAILED | SEQUENCE_CANCELLED | SEQUENCE_PAUSED | SEQUENCE_RESUMED
| SEQUENCE_PROGRESS_UPDATED
| TASK_STARTED | TASK_COMPLETED | TASK_FAILED | TASK_CANCELLED | TASK_SCHEDULED
| TASK_PROGRESS_UPDATED
| DATASTORE_VALUE_CHANGED | DATASTORE_VALUE_REMOVED
| RT_STATE_CHANGED | RT_SAFE_MODE_ENTERED | RT_SAFE_MODE_EXITED
| ALARM_RAISED | ALARM_CLEARED | ALARM_ESCALATED | ALARM_ACKNOWLEDGED
| UNKNOWN.

#[export] Instance EventType_eq_dec : EqDecision EventType.
Proof. solve_decision. Defined.

Definition eventTypeToString (t : EventType) : string :=
  match t with
  | ACTION_STARTED => "ACTION_STARTED"
  | ACTION_COMPLETED => "ACTION_COMPLETED"
  | ACTION_FAILED => "ACTION_FAILED"
  | ACTION_CANCELLED => "ACTION_CANCELLED"
  | ACTION_TIMEOUT => "ACTION_TIMEOUT"
  | SEQUENCE_STARTED => "SEQUENCE_STARTED"
  | SEQUENCE_STEP_STARTED => "SEQUENCE_STEP_STARTED"
  | SEQUENCE_STEP_COMPLETED => "SEQUENCE_STEP_COMPLETED"
  | SEQUENCE_COMPLETED => "SEQUENCE_COMPLETED"
  | SEQUENCE_FAILED => "SEQUENCE_FAILED"
  | SEQUENCE_CANCELLED => "SEQUENCE_CANCELLED"
  | SEQUENCE_PAUSED => "SEQUENCE_PAUSED"
  | SEQUENCE_RESUMED => "SEQUENCE_RESUMED"
  | SEQUENCE_PROGRESS_UPDATED => "SEQUENCE_PROGRESS_UPDATED"
  | TASK_STARTED => "TASK_STARTED"
  | TASK_COMPLETED => "TASK_COMPLETED"
  | TASK_FAILED => "TASK_FAILED"
  | TASK_CANCELLED => "TASK_CANCELLED"
  | TASK_SCHEDULED => "TASK_SCHEDULED"
  | TASK_PROGRESS_UPDATED => "TASK_PROGRESS_UPDATED"
  | DATASTORE_VALUE_CHANGED => "DATASTORE_VALUE_CHANGED"
  | DATASTORE_VALUE_REMOVED => "DATASTORE_VALUE_REMOVED"
  | RT_STATE_CHANGED => "RT_STATE_CHANGED"
  | RT_SAFE_MODE_ENTERED => "RT_SAFE_MODE_ENTERED"
  | RT_SAFE_MODE_EXITED => "RT_SAFE_MODE_EXITED"
  | ALARM_RAISED => "ALARM_RAISED"
  | ALARM_CLEARED => "ALARM_CLEARED"
  | ALARM_ESCALATED => "ALARM_ESCALATED"
  | ALARM_ACKNOWLEDGED => "ALARM_ACKNOWLEDGED"
  | UNKNOWN => "UNKNOWN"
  end.

(** [EventBase], with what a subclass adds in [details]. *)
Record IEvent (X : Type) := mkIEvent {
  getEventId : string;
  getType : EventType;
  getTimestamp : Z;
  getTargetId : string;
  details : X
}.
Arguments mkIEvent {X}.
Arguments getEventId {X} _.
Arguments getType {X} _.
Arguments getTimestamp {X} _.
Arguments getTargetId {X} _.
Arguments details {X} _.

Definition getTypeName {X} (e : IEvent X) : string := eventTypeToString (getType e).

(** [std::variant<int, double, std::string, std::shared_ptr<IEvent>>] *)
Inductive Payload (X : Type) :=
| PInt (v : Z)
| PDouble (bits : Z)
| PString (v : string)
| PEvent (e : option (IEvent X)).
Arguments PInt {X} _.
Arguments PDouble {X} _.
Arguments PString {X} _.
Arguments PEvent {X} _.

(** ** Filters *)

Module Filters.
Section Filters.
Context {X : Type}.
Definition EventFilter := option (IEvent X) -> bool.

Definition byType (type : EventType) : EventFilter := λ event,
  match event with Some e => bool_decide (getType e = type) | None => false end.
Definition byTargetId (targetId : string) : EventFilter := λ event,
  match event with Some e => bool_decide (getTargetId e = targetId) | None => false end.
Definition byTypeAndTarget (type : EventType) (targetId : string) : EventFilter := λ event,
  match event with
  | Some e => bool_decide (getType e = type) && bool_decide (getTargetId e = targetId)
  | None => false
  end.
Definition all : EventFilter := λ event, bool_decide (is_Some event).
Definition andFilter (filter1 filter2 : EventFilter) : EventFilter := λ event,
  filter1 event && filter2 event.
Definition orFilter (filter1 filter2 : EventFilter) : EventFilter := λ event,
  filter1 event || filter2 event.
End Filters.
End Filters.

(** ** Statistics *)

Record EventStats := mkStats {
  publishedEvents : Z;
  processedEvents : Z;
  droppedEvents : Z;
  failedCallbacks : Z;
  activeSubscriptions : Z
}.

Definition zero_stats : EventStats := mkStats 0 0 0 0 0.
Definition add_published (s : EventStats) :=
  mkStats (u64 (publishedEvents s + 1)) (processedEvents s) (droppedEvents s) (failedCallbacks s)
    (activeSubscriptions s).
Definition add_processed (s : EventStats) :=
  mkStats (publishedEvents s) (u64 (processedEvents s + 1)) (droppedEvents s) (failedCallbacks s)
    (activeSubscriptions s).
Definition add_dropped (s : EventStats) :=
  mkStats (publishedEvents s) (processedEvents s) (u64 (droppedEvents s + 1)) (failedCallbacks s)
    (activeSubscriptions s).
Definition add_failed (s : EventStats) :=
  mkStats (publishedEvents s) (processedEvents s) (droppedEvents s) (u64 (failedCallbacks s + 1))
    (activeSubscriptions s).
Definition add_active (d : Z) (s : EventStats) :=
  mkStats (publishedEvents s) (processedEvents s) (droppedEvents s) (failedCallbacks s)
    (u64 (activeSubscriptions s + d)).

(** ** Subscriptions *)

(** A subscription refers to its filter and callback by handles [F] and [C],
    which [call_filter] and [call_callback] run; the filter [None] is the one
    [subscribe] puts in place of a null filter. *)
Record Subscription (F C : Type) := mkSub {
  sub_id : string;
  sub_filter : option F;
  sub_callback : C
}.
Arguments mkSub {F C}.
Arguments sub_id {F C} _.
Arguments sub_filter {F C} _.
Arguments sub_callback {F C} _.

Definition hex_digit (n : Z) : string :=
  default "" (["0"; "1"; "2"; "3"; "4"; "5"; "6"; "7"; "8"; "9"; "a"; "b"; "c"; "d"; "e"; "f"]
              !! Z.to_nat n).

(** The text of one ID; [dis] are the eight digits drawn from 0..15. *)
Definition subscription_id (counter : Z) (dis : list Z) : string :=
  "sub_" +:+ pretty counter +:+ "_" +:+ String.concat "" (map hex_digit dis).

(** The client code the bus calls.  Each call gives the new world and whether
    it threw; a filter also its answer. *)
Inductive Notice (E : Type) :=
| BeforePublish (e : E)
| AfterPublish (e : E) (success : bool)
| BeforeDispatch (e : E)
| AfterDispatch (e : E) (subscriber_count : Z).
Arguments BeforePublish {E} _.
Arguments AfterPublish {E} _ _.
Arguments BeforeDispatch {E} _.
Arguments AfterDispatch {E} _ _.

Class Clients (X F C V W : Type) := {
  call_filter : F -> IEvent X -> W -> W * option bool;
  call_callback : C -> IEvent X -> W -> W * bool;
  call_observer : V -> Notice (IEvent X) -> W -> W * bool
}.

(** The order in which the hash table of the subscriptions is traversed: every
    entry once. *)
Class HashOrder (F C : Type) :=
  hash_order : gmap string (Subscription F C) -> list (Subscription F C).
Class HashOrderLaws (F C : Type) `{!HashOrder F C} : Prop :=
  hash_order_perm m : hash_order m ≡ₚ (map_to_list m).*2.

(** [system_clock::now()] in ns, by number of readings. *)
Class Clock := system_clock : nat -> Z.

(** Nobody sets the clock back, and its nanoseconds fit in 64 bits.  The standard
    promises neither. *)
Definition clock_steady `{!Clock} : Prop :=
  (forall i j, (i <= j)%nat -> 0 <= system_clock i <= system_clock j) /\
  forall i, system_clock i < 2 ^ 64.

(** ** The bus *)

(** A publisher thread, by the last thing it has done. *)
Inductive Publisher (X : Type) :=
| PBegun (call : nat) (e : IEvent X)
| PStamped (call : nat) (e : IEvent X) (ts : Z)
| PReady (call : nat) (e : IEvent X) (p : PrioritizedEvent (Payload X))
| PChecked (call : nat) (e : IEvent X) (p : PrioritizedEvent (Payload X)) (drop : bool)
| PInserted (call : nat) (e : IEvent X) (p : PrioritizedEvent (Payload X)).
Arguments PBegun {X} _ _.
Arguments PStamped {X} _ _ _.
Arguments PReady {X} _ _ _.
Arguments PChecked {X} _ _ _ _.
Arguments PInserted {X} _ _ _.

(** The dispatch thread: at the top of the main or of the draining loop, inside
    [dispatchToSubscribers] with the subscriptions still to call, or returned. *)
Inductive Dispatcher (X F C : Type) :=
| DTop (draining : bool)
| DCalling (draining : bool) (e : IEvent X) (rest : list (Subscription F C)) (subscriber_count : Z)
| DReturned.
Arguments DTop {X F C} _.
Arguments DCalling {X F C} _ _ _ _.
Arguments DReturned {X F C}.

Inductive Entry (X : Type) :=
| LBegin (call : nat)
| LInsert (call : nat) (p : PrioritizedEvent (Payload X))
| LPop (p : PrioritizedEvent (Payload X)).
Arguments LBegin {X} _.
Arguments LInsert {X} _ _.
Arguments LPop {X} _.

Record EventBus (X F C V W : Type) := mkBus {
  eventQueue_ : PriorityQueue (Payload X);
  publishMutex_ : option nat;
  subscriptions_ : gmap string (Subscription F C);
  id_counter : Z;
  stats_ : EventStats;
  dispatchThread_ : option (Dispatcher X F C);
  running_ : bool;
  sequenceCounter_ : Z;
  observers_ : list V;
  world : W;
  publishers : gmap nat (Publisher X);
  clock_reads : nat;
  calls : nat;
  log : list (Entry X);
  terminated : bool
}.
Arguments mkBus {X F C V W}.
Arguments eventQueue_ {X F C V W} _.
Arguments publishMutex_ {X F C V W} _.
Arguments subscriptions_ {X F C V W} _.
Arguments id_counter {X F C V W} _.
Arguments stats_ {X F C V W} _.
Arguments dispatchThread_ {X F C V W} _.
Arguments running_ {X F C V W} _.
Arguments sequenceCounter_ {X F C V W} _.
Arguments observers_ {X F C V W} _.
Arguments world {X F C V W} _.
Arguments publishers {X F C V W} _.
Arguments clock_reads {X F C V W} _.
Arguments calls {X F C V W} _.
Arguments log {X F C V W} _.
Arguments terminated {X F C V W} _.

(** The counter can be read back from an ID, so IDs are distinct. *)

Fixpoint string_all (P : ascii -> bool) (s : string) : bool :=
  match s with
  | EmptyString => true
  | String c s => P c && string_all P s
  end.

Lemma append_inj_sep c s1 s2 r1 r2 :
  string_all (λ x, negb (bool_decide (x = c))) s1 = true ->
  string_all (λ x, negb (bool_decide (x = c))) s2 = true ->
  s1 +:+ String c r1 = s2 +:+ String c r2 -> s1 = s2.
Proof.
  assert (Hc : forall (a : ascii) x y, String a x +:+ y = String a (x +:+ y)) by done.
  revert s2. induction s1 as [|a s1 IH]; intros [|a' s2] H1 H2 H; [done|..]; simpl in H1, H2; to_prop.
  - rewrite Hc in H. by injection H as <- _.
  - rewrite Hc in H. by injection H as -> _.
  - rewrite !Hc in H. injection H as -> H. f_equal. by apply IH.
Qed.

Lemma pretty_N_go_all P x s :
  (forall n, P (pretty_N_char n) = true) -> string_all P s = true -> string_all P (pretty_N_go x s) = true.
Proof.
  intros HP. revert s. induction (N.lt_wf_0 x) as [x _ IH]; intros s Hs.
  assert (x = 0 \/ 0 < x)%N as [->|Hx] by lia; [by rewrite pretty_N_go_0|].
  rewrite pretty_N_go_step by done. apply IH; [by apply N.div_lt|]. simpl. by rewrite HP.
Qed.

Lemma pretty_counter_sep n : 0 <= n ->
  string_all (λ x, negb (bool_decide (x = "_"%char))) (pretty n) = true.
Proof.
  intros Hn. destruct n as [|p|p]; [done| |lia]. change (pretty (Z.pos p)) with (pretty_N_go (N.pos p) "").
  apply pretty_N_go_all; [|done]. intros m. unfold pretty_N_char. by repeat case_match.
Qed.

Lemma subscription_id_inj c c' dis dis' :
  0 <= c -> 0 <= c' -> subscription_id c dis = subscription_id c' dis' -> c = c'.
Proof.
  intros Hc Hc' H. unfold subscription_id in H. apply (inj (String.append "sub_")) in H.
  apply append_inj_sep in H; [by apply (inj pretty)|by apply pretty_counter_sep..].
Qed.

Section EventBus.
Context {X F C V W : Type} `{!Clients X F C V W} `{!HashOrder F C} {clk : Clock}
  `{!Heap (Payload X)} `{!EqDecision V}.
Abbreviation Bus := (EventBus X F C V W).
Abbreviation Queued := (PrioritizedEvent (Payload X)).
Implicit Types (b : Bus) (e : IEvent X) (p : Queued).

Definition newEventBus (queueCapacity : Z) (counter : Z) (w : W) : Bus :=
  mkBus (newPriorityQueue queueCapacity) None ∅ counter zero_stats None false 0 [] w ∅ 0%nat 0%nat [] false.

(** *** Field updates *)

Definition upd_queue (q : PriorityQueue (Payload X)) b : Bus :=
  let '(mkBus _ m su id st d r sq o w p c n l t) := b in mkBus q m su id st d r sq o w p c n l t.
Definition upd_mutex (m : option nat) b : Bus :=
  let '(mkBus q _ su id st d r sq o w p c n l t) := b in mkBus q m su id st d r sq o w p c n l t.
Definition upd_subs (su : gmap string (Subscription F C)) (id : Z) b : Bus :=
  let '(mkBus q m _ _ st d r sq o w p c n l t) := b in mkBus q m su id st d r sq o w p c n l t.
Definition upd_stats (f : EventStats -> EventStats) b : Bus :=
  let '(mkBus q m su id st d r sq o w p c n l t) := b in mkBus q m su id (f st) d r sq o w p c n l t.
Definition upd_thread (d : option (Dispatcher X F C)) b : Bus :=
  let '(mkBus q m su id st _ r sq o w p c n l t) := b in mkBus q m su id st d r sq o w p c n l t.
Definition upd_running (r : bool) b : Bus :=
  let '(mkBus q m su id st d _ sq o w p c n l t) := b in mkBus q m su id st d r sq o w p c n l t.
Definition upd_sequence (sq : Z) b : Bus :=
  let '(mkBus q m su id st d r _ o w p c n l t) := b in mkBus q m su id st d r sq o w p c n l t.
Definition upd_observers (o : list V) b : Bus :=
  let '(mkBus q m su id st d r sq _ w p c n l t) := b in mkBus q m su id st d r sq o w p c n l t.
Definition upd_world (w : W) b : Bus :=
  let '(mkBus q m su id st d r sq o _ p c n l t) := b in mkBus q m su id st d r sq o w p c n l t.
Definition upd_publishers (p : gmap nat (Publisher X)) b : Bus :=
  let '(mkBus q m su id st d r sq o w _ c n l t) := b in mkBus q m su id st d r sq o w p c n l t.
Definition count_read b : Bus :=
  let '(mkBus q m su id st d r sq o w p c n l t) := b in mkBus q m su id st d r sq o w p (S c) n l t.
Definition count_call b : Bus :=
  let '(mkBus q m su id st d r sq o w p c n l t) := b in mkBus q m su id st d r sq o w p c (S n) l t.
Definition record (x : Entry X) b : Bus :=
  let '(mkBus q m su id st d r sq o w p c n l t) := b in
  mkBus q m su id st d r sq o w p c n (l ++ [x]) t.
Definition std_terminate b : Bus :=
  let '(mkBus q m su id st d r sq o w p c n l _) := b in mkBus q m su id st d r sq o w p c n l true.

(** *** Observers *)

(** [notifyBeforePublish] and its three sisters: every observer is called; what
    one throws is logged. *)
Definition notify (n : Notice (IEvent X)) (os : list V) (w : W) : W :=
  foldl (λ w o, fst (call_observer o n w)) w os.

Definition notifyBeforePublish e b : Bus :=
  upd_world (notify (BeforePublish e) (observers_ b) (world b)) b.
Definition notifyAfterPublish e (success : bool) b : Bus :=
  upd_world (notify (AfterPublish e success) (observers_ b) (world b)) b.
Definition notifyBeforeDispatch e b : Bus :=
  upd_world (notify (BeforeDispatch e) (observers_ b) (world b)) b.
Definition notifyAfterDispatch e (subscriber_count : Z) b : Bus :=
  upd_world (notify (AfterDispatch e subscriber_count) (observers_ b) (world b)) b.

Definition registerObserver (observer : option V) b : Bus :=
  match observer with
  | None => b
  | Some o => upd_observers (observers_ b ++ [o]) b
  end.

Definition unregisterObserver (observer : option V) b : Bus :=
  match observer with
  | None => b
  | Some o => match erase_first (λ x, bool_decide (x = o)) (observers_ b) with
              | Some os => upd_observers os b
              | None => b
              end
  end.

(** *** Subscriptions *)

(** [emplace] keeps an entry that is already there; the counter of the IDs is
    shared by all the buses of the process. *)
Definition addSubscription (dis : list Z) (filter : option F) (callback : C) b : string * Bus :=
  let id := subscription_id (id_counter b) dis in
  let subs := if (subscriptions_ b).[id] then subscriptions_ b
              else <[id := mkSub id filter callback]> (subscriptions_ b) in
  (id, upd_subs subs (u64 (id_counter b + 1)) b).

Definition removeSubscription (id : string) b : bool * Bus :=
  ((subscriptions_ b).[id], upd_subs (delete id (subscriptions_ b)) (id_counter b) b).

Definition getAllSubscriptions b : list (Subscription F C) := hash_order (subscriptions_ b).
Definition getSubscriptionCount b : Z := Z.of_nat (base.size (subscriptions_ b)).

Definition subscribe (dis : list Z) (filter : option F) (callback : option C) b : string * Bus :=
  match callback with
  | None => ("", b)
  | Some callback =>
    let '(subId, b) := addSubscription dis filter callback b in
    (subId, upd_stats (add_active 1) b)
  end.

Definition unsubscribe (subscriptionId : string) b : bool * Bus :=
  let '(success, b) := removeSubscription subscriptionId b in
  (success, if success : bool then upd_stats (add_active (-1)) b else b).

Definition resetStats b : Bus := upd_stats (λ _, zero_stats) b.

(** *** Dispatching *)

Definition run_filter (f : option F) e (w : W) : W * option bool :=
  match f with
  | None => (w, Some true)
  | Some f => call_filter f e w
  end.

(** One iteration of the loop of [dispatchToSubscribers]. *)
Definition call_subscriber e (sub : Subscription F C) (x : Z * Bus) : Z * Bus :=
  let '(n, b) := x in
  let '(w, accepts) := run_filter (sub_filter sub) e (world b) in
  let b := upd_world w b in
  match accepts with
  | None => (n, upd_stats add_failed b)
  | Some false => (n, b)
  | Some true =>
    let '(w, threw) := call_callback (sub_callback sub) e (world b) in
    let b := upd_world w b in
    if threw : bool then (n, upd_stats add_failed b)
    else (n + 1, upd_stats add_processed b)
  end.

Definition dispatchToSubscribers (event : option (IEvent X)) b : Bus :=
  match event with
  | None => b
  | Some e =>
    let b := notifyBeforeDispatch e b in
    let '(n, b) := foldl (λ x sub, call_subscriber e sub x) (0, b) (getAllSubscriptions b) in
    notifyAfterDispatch e n b
  end.

(** The readings of the clock that a [pop] would make. *)
Definition pop_event b : option Queued * Bus :=
  let '(r, q) := pop (λ i, system_clock (clock_reads b + i)%nat) (eventQueue_ b) in
  (r, upd_queue q b).

(** [std::get] throws when the variant holds something else, and the loop goes
    on. *)
Definition payload_event p : option (IEvent X) :=
  match payload p with PEvent e => e | _ => None end.

(** The loop after the bus has been stopped; each round takes an event out, so
    the length of the queue is enough fuel. *)
Fixpoint drain (fuel : nat) b : Bus :=
  match fuel with
  | 0%nat => b
  | S fuel =>
    match pop_event b with
    | (None, b) => b
    | (Some p, b) => drain fuel (dispatchToSubscribers (payload_event p) (record (LPop p) b))
    end
  end.

(** *** Publishing *)

Definition to_queued (ts seq : Z) e : Queued :=
  mkEvent (getTypeName e) EP_NORMAL (PEvent (Some e)) ts seq None None.

(** [publish] without interference by other threads. *)
Definition publish (event : option (IEvent X)) b : bool * Bus :=
  match event with
  | None => (false, b)
  | Some e =>
    let call := calls b in
    let b := notifyBeforePublish e (record (LBegin call) (count_call b)) in
    let ts := u64 (system_clock (clock_reads b)) in
    let b := count_read b in
    let prioritized := to_queued ts (sequenceCounter_ b) e in
    let b := upd_sequence (u64 (sequenceCounter_ b + 1)) b in
    let '(success, q) := push prioritized (eventQueue_ b) in
    let b := upd_queue q b in
    let b := if success : bool
             then upd_stats add_published (record (LInsert call prioritized) b)
             else upd_stats add_dropped b in
    (success, notifyAfterPublish e success b)
  end.

(** *** Steps of the threads

    [exec] gives nothing when the step is not enabled. *)

Inductive Step :=
| Begin (t : nat) (event : IEvent X)
| ReadClock (t : nat)
| DrawNumber (t : nat)
| LockAndCheck (t : nat)
| Insert (t : nat)
| Count (t : nat)
| Drop (t : nat)
| Subscribe (dis : list Z) (filter : option F) (callback : option C)
| Unsubscribe (id : string)
| RegisterObserver (observer : option V)
| UnregisterObserver (observer : option V)
| ResetStats
| Start
| Stop
| Join
| Dispatch.

(** The exchange of [running_] and the creation of the thread are one step. *)
Definition start b : Bus :=
  if running_ b then b
  else match dispatchThread_ b with
       | None => upd_thread (Some (DTop false)) (upd_running true b)
       (* assigning to a joinable std::thread *)
       | Some _ => std_terminate (upd_running true b)
       end.

(** [stop] up to the join. *)
Definition stop b : Bus := upd_running false b.

Definition join b : option Bus :=
  match dispatchThread_ b with
  | Some DReturned => Some (upd_thread None b)
  | _ => None
  end.

(** A step of the dispatch thread. *)
Definition dispatch_step b : option Bus :=
  match dispatchThread_ b with
  | Some (DTop draining) =>
    if negb draining && negb (running_ b) then Some (upd_thread (Some (DTop true)) b)
    else
      match pop_event b with
      | (None, b) => Some (if draining : bool then upd_thread (Some DReturned) b else b)
      | (Some p, b) =>
        let b := record (LPop p) b in
        match payload_event p with
        | None => Some b
        | Some e =>
          let b := notifyBeforeDispatch e b in
          Some (upd_thread (Some (DCalling draining e (getAllSubscriptions b) 0)) b)
        end
      end
  | Some (DCalling draining e rest n) =>
    match rest with
    | [] => Some (upd_thread (Some (DTop draining)) (notifyAfterDispatch e n b))
    | sub :: rest =>
      let '(n, b) := call_subscriber e sub (n, b) in
      Some (upd_thread (Some (DCalling draining e rest n)) b)
    end
  | _ => None
  end.

Definition set_publisher (t : nat) (s : Publisher X) b : Bus :=
  upd_publishers (<[t := s]> (publishers b)) b.

(** The end of [publish]: observers, unlock, return. *)
Definition finish_publish (t : nat) e (success : bool) b : Bus :=
  upd_publishers (delete t (publishers b)) (upd_mutex None (notifyAfterPublish e success b)).

(** The steps of [publish]: the call begins and tells the observers. *)
Definition begin_publish (t : nat) e b : option Bus :=
  match publishers b !! t with
  | Some _ => None
  | None => Some (set_publisher t (PBegun (calls b) e)
              (notifyBeforePublish e (record (LBegin (calls b)) (count_call b))))
  end.

(** It reads the clock. *)
Definition read_clock (t : nat) b : option Bus :=
  match publishers b !! t with
  | Some (PBegun call e) =>
    Some (set_publisher t (PStamped call e (u64 (system_clock (clock_reads b)))) (count_read b))
  | _ => None
  end.

(** It draws a sequence number. *)
Definition draw_number (t : nat) b : option Bus :=
  match publishers b !! t with
  | Some (PStamped call e ts) =>
    Some (set_publisher t (PReady call e (to_queued ts (sequenceCounter_ b) e))
            (upd_sequence (u64 (sequenceCounter_ b + 1)) b))
  | _ => None
  end.

(** It takes the mutex, and [push] checks for backpressure. *)
Definition lock_and_check (t : nat) b : option Bus :=
  match publishers b !! t, publishMutex_ b with
  | Some (PReady call e p), None =>
    Some (set_publisher t (PChecked call e p (shouldDrop (ev_priority p) (eventQueue_ b)))
            (upd_mutex (Some t) b))
  | _, _ => None
  end.

(** [push] inserts the event. *)
Definition insert_event (t : nat) b : option Bus :=
  match publishers b !! t with
  | Some (PChecked call e p false) =>
    Some (set_publisher t (PInserted call e p)
            (record (LInsert call p) (upd_queue (push_insert p (eventQueue_ b)) b)))
  | _ => None
  end.

(** It is counted and [publish] returns true. *)
Definition count_event (t : nat) b : option Bus :=
  match publishers b !! t with
  | Some (PInserted call e p) =>
    Some (finish_publish t e true
            (upd_stats add_published (upd_queue (push_count p (eventQueue_ b)) b)))
  | _ => None
  end.

(** Or it is dropped and [publish] returns false. *)
Definition drop_event (t : nat) b : option Bus :=
  match publishers b !! t with
  | Some (PChecked call e p true) =>
    Some (finish_publish t e false (upd_stats add_dropped (upd_queue
      (set_metrics (updatePushMetrics (ev_priority p) true (metrics_ (eventQueue_ b)))
         (eventQueue_ b)) b)))
  | _ => None
  end.

Definition exec (s : Step) b : option Bus :=
  if terminated b then None else
  match s with
  | Begin t e => begin_publish t e b
  | ReadClock t => read_clock t b
  | DrawNumber t => draw_number t b
  | LockAndCheck t => lock_and_check t b
  | Insert t => insert_event t b
  | Count t => count_event t b
  | Drop t => drop_event t b
  | Subscribe dis filter callback => Some (snd (subscribe dis filter callback b))
  | Unsubscribe id => Some (snd (unsubscribe id b))
  | RegisterObserver o => Some (registerObserver o b)
  | UnregisterObserver o => Some (unregisterObserver o b)
  | ResetStats => Some (resetStats b)
  | Start => Some (start b)
  | Stop => Some (stop b)
  | Join => join b
  | Dispatch => dispatch_step b
  end.

Fixpoint run (ss : list Step) b : option Bus :=
  match ss with
  | [] => Some b
  | s :: ss => exec s b ≫= run ss
  end.

(** *** Publication order *)

Definition inserted (l : list (Entry X)) : list Queued :=
  omap (λ x, match x with LInsert _ p => Some p | _ => None end) l.
Definition popped (l : list (Entry X)) : list Queued :=
  omap (λ x, match x with LPop p => Some p | _ => None end) l.

(** [p] was in the queue before the publish call [c] began. *)
Definition precedes (l : list (Entry X)) p (c : nat) : Prop :=
  exists l1 l2, l = l1 ++ LBegin c :: l2 /\ p ∈ inserted l1.

Lemma inserted_snoc l x :
  inserted (l ++ [x]) = inserted l ++ match x with LInsert _ p => [p] | _ => [] end.
Proof. unfold inserted. rewrite omap_app. by destruct x. Qed.

Lemma popped_snoc l x :
  popped (l ++ [x]) = popped l ++ match x with LPop p => [p] | _ => [] end.
Proof. unfold popped. rewrite omap_app. by destruct x. Qed.

Lemma elem_of_inserted l p : p ∈ inserted l <-> exists c, LInsert c p ∈ l.
Proof.
  unfold inserted. rewrite list_elem_of_omap. split.
  - intros (x & Hx & ?). destruct x; simplify_eq. eauto.
  - intros [c Hc]. by exists (LInsert c p).
Qed.

Lemma elem_of_popped l p : p ∈ popped l <-> LPop p ∈ l.
Proof.
  unfold popped. rewrite list_elem_of_omap. split.
  - intros (x & Hx & ?). destruct x; by simplify_eq.
  - intros Hc. by exists (LPop p).
Qed.

Lemma precedes_inserted l p c : precedes l p c -> p ∈ inserted l.
Proof. intros (l1 & l2 & -> & H). unfold inserted in *. rewrite omap_app. set_solver. Qed.

Lemma precedes_snoc l x p c :
  precedes (l ++ [x]) p c -> precedes l p c \/ x = LBegin c /\ p ∈ inserted l.
Proof.
  intros (l1 & l2 & [(-> & -> & ->)|(l2' & -> & ->)]%snoc_split & Hp); [by right|].
  left. by exists l1, l2'.
Qed.

(** An event the bus builds, before the next sequence number and, while the clock
    is steady, not after its next reading. *)
Definition stamped (r : nat) (s : Z) p : Prop :=
  ev_priority p = EP_NORMAL /\ ttl p = None /\ coalescing_key p = None /\
  (clock_steady -> timestamp_ns p <= system_clock r) /\ sequence_num p < s.

(** It is to be served after everything inserted before its call began. *)
Definition in_order (l : list (Entry X)) (r : nat) (s : Z) (c : nat) p : Prop :=
  stamped r s p /\
  forall p', precedes l p' c ->
    (clock_steady -> timestamp_ns p' <= timestamp_ns p) /\ sequence_num p' < sequence_num p.

Definition pub_call (s : Publisher X) : nat :=
  match s with
  | PBegun c _ | PStamped c _ _ | PReady c _ _ | PChecked c _ _ _ | PInserted c _ _ => c
  end.

Definition pub_ok (l : list (Entry X)) (r : nat) (s : Z) (x : Publisher X) : Prop :=
  match x with
  | PBegun _ _ => True
  | PStamped c _ ts =>
    clock_steady -> ts <= system_clock r /\ forall p', precedes l p' c -> timestamp_ns p' <= ts
  | PReady c _ p | PChecked c _ p _ | PInserted c _ p => in_order l r s c p
  end.

(** The invariant: [q] is the queue, [l] the history, [ps] the publishers, [k]
    the number of calls, [r] of clock readings, [s] of sequence numbers. *)
Record order_ok (n : Z) (q : list Queued) (l : list (Entry X)) (ps : gmap nat (Publisher X))
    (k r : nat) (s : Z) : Prop := {
  oo_seq : 0 <= s <= n;
  oo_events : inserted l ≡ₚ popped l ++ q;
  oo_log c p : LInsert c p ∈ l -> (c < k)%nat /\ in_order l r s c p;
  oo_pubs t x : ps !! t = Some x -> (pub_call x < k)%nat /\ pub_ok l r s x;
  oo_fifo : clock_steady -> forall l1 l2 p2 c2 p1, l = l1 ++ LPop p2 :: l2 -> LInsert c2 p2 ∈ l1 -> precedes l1 p1 c2 ->
    LPop p1 ∈ l1
}.

Definition bus_ok (n : Z) b : Prop :=
  order_ok n (queue_ (eventQueue_ b)) (log b) (publishers b) (calls b) (clock_reads b)
    (sequenceCounter_ b).

Context {heap_laws : HeapLaws (Payload X)}.

Lemma in_order_mono l l' r r' s s' c p :
  in_order l r s c p -> (forall p', precedes l' p' c -> precedes l p' c) -> (r <= r')%nat -> s <= s' ->
  in_order l' r' s' c p.
Proof.
  intros [(? & ? & ? & Ht & ?) Ho] Hl Hr Hs. split; [|by eauto].
  repeat split; try done; [|lia]. intros Hc. pose proof (proj1 Hc r r' Hr). specialize (Ht Hc). lia.
Qed.

Lemma pub_ok_mono l l' r r' s s' x :
  pub_ok l r s x -> (forall p', precedes l' p' (pub_call x) -> precedes l p' (pub_call x)) ->
  (r <= r')%nat -> s <= s' -> pub_ok l' r' s' x.
Proof.
  intros Hx Hl Hr Hs. destruct x; simpl in *; eauto using in_order_mono.
  intros Hc. pose proof (proj1 Hc r r' Hr). destruct (Hx Hc). split; [lia|eauto].
Qed.

Lemma order_ok_weaken n q l ps k r s : order_ok n q l ps k r s -> order_ok (n + 1) q l ps k r s.
Proof. intros []. constructor; try done. lia. Qed.

(** Only a pop can break the order of deliveries. *)
Lemma fifo_snoc l x :
  (forall l1 l2 p2 c2 p1, l = l1 ++ LPop p2 :: l2 -> LInsert c2 p2 ∈ l1 -> precedes l1 p1 c2 ->
     LPop p1 ∈ l1) ->
  (forall p2 c2 p1, x = LPop p2 -> LInsert c2 p2 ∈ l -> precedes l p1 c2 -> LPop p1 ∈ l) ->
  forall l1 l2 p2 c2 p1, l ++ [x] = l1 ++ LPop p2 :: l2 -> LInsert c2 p2 ∈ l1 -> precedes l1 p1 c2 ->
    LPop p1 ∈ l1.
Proof.
  intros Hl Hx l1 l2 p2 c2 p1 [(-> & -> & ?)|(l2' & -> & ->)]%snoc_split ? ?; eauto.
Qed.

Lemma order_begin n q l ps k r s t e :
  order_ok n q l ps k r s ->
  order_ok (n + 1) q (l ++ [LBegin k]) (<[t := PBegun k e]> ps) (S k) r s.
Proof.
  intros [Hs He Hl Hp Hf].
  assert (Hpre : forall c, (c < k)%nat -> forall p, precedes (l ++ [LBegin k]) p c -> precedes l p c).
  { intros c Hc p [?|[? _]]%precedes_snoc; [done|simplify_eq; lia]. }
  constructor; [lia| | | |].
  - rewrite inserted_snoc, popped_snoc, !app_nil_r. done.
  - intros c p [Hc|?%list_elem_of_singleton]%elem_of_app; [|done].
    destruct (Hl c p Hc) as [? Ho]. split; [lia|]. eauto using in_order_mono, Z.le_refl.
  - intros t' x Hx. apply lookup_insert_Some in Hx as [[_ <-]|[_ Hx]]; [simpl; split; [lia|done]|].
    destruct (Hp _ _ Hx). split; [lia|]. eauto using pub_ok_mono, Z.le_refl.
  - intros Hck. apply fifo_snoc; [by apply Hf|]. by intros.
Qed.

Lemma order_read_clock n q l ps k r s t c e :
  order_ok n q l ps k r s -> ps !! t = Some (PBegun c e) ->
  order_ok (n + 1) q l (<[t := PStamped c e (u64 (system_clock r))]> ps) k (S r) s.
Proof.
  intros [Hs He Hl Hp Hf] Ht. constructor; [lia|done| | |done].
  - intros c' p Hc. destruct (Hl c' p Hc) as [? Ho]. split; [lia|].
    eapply in_order_mono; [exact Ho|done|lia|lia].
  - intros t' x Hx. apply lookup_insert_Some in Hx as [[_ <-]|[_ Hx]].
    + split; [apply (Hp t _ Ht)|]. intros Hck. pose proof (proj1 Hck r r (le_n r)). pose proof (proj2 Hck r).
      pose proof (proj1 Hck r (S r) ltac:(lia)). rewrite u64_small by (unfold in_u64; lia). split; [lia|].
      intros p [c1 Hc1]%precedes_inserted%elem_of_inserted.
      destruct (Hl c1 p Hc1) as [_ [(_ & _ & _ & Hts & _) _]]. by apply Hts.
    + destruct (Hp _ _ Hx) as [? Ho]. split; [lia|]. eapply pub_ok_mono; [exact Ho|done|lia|lia].
Qed.

Lemma order_draw n q l ps k r s t c e ts :
  n < 2 ^ 64 - 1 ->
  order_ok n q l ps k r s -> ps !! t = Some (PStamped c e ts) ->
  order_ok (n + 1) q l (<[t := PReady c e (to_queued ts s e)]> ps) k r (u64 (s + 1)).
Proof.
  intros Hn [Hs He Hl Hp Hf] Ht. rewrite u64_small by (unfold in_u64; lia).
  constructor; [lia|done| | |done].
  - intros c' p Hc. destruct (Hl c' p Hc) as [? Ho]. split; [lia|].
    eapply in_order_mono; [exact Ho|done|lia|lia].
  - intros t' x Hx. apply lookup_insert_Some in Hx as [[_ <-]|[_ Hx]].
    + destruct (Hp t _ Ht) as [? Hts]. simpl in Hts. split; [done|].
      split; [repeat split; simpl; [by intros Hck; apply Hts|lia]|]. intros p Hpp. split; [intros Hck; by apply Hts|].
      apply precedes_inserted, elem_of_inserted in Hpp as [c1 Hc1].
      by destruct (Hl c1 p Hc1) as [_ [(_ & _ & _ & _ & ?) _]].
    + destruct (Hp _ _ Hx) as [? Ho]. split; [lia|]. eapply pub_ok_mono; [exact Ho|done|lia|lia].
Qed.

(** A publisher moves on with the same event. *)
Lemma order_publisher n q l ps k r s t x x' :
  order_ok n q l ps k r s -> ps !! t = Some x ->
  (pub_ok l r s x -> pub_ok l r s x') -> pub_call x' = pub_call x ->
  order_ok n q l (<[t := x']> ps) k r s.
Proof.
  intros [Hs He Hl Hp Hf] Ht Hx Hc. constructor; try done.
  intros t' y [[_ <-]|[_ Hy]]%lookup_insert_Some; [|by eauto].
  destruct (Hp _ _ Ht). rewrite Hc. auto.
Qed.

Lemma order_return n q l ps k r s t :
  order_ok n q l ps k r s -> order_ok n q l (delete t ps) k r s.
Proof. intros [Hs He Hl Hp Hf]. constructor; try done. intros t' x [_ Hx]%lookup_delete_Some. eauto. Qed.

Lemma order_insert n q l ps k r s t c e p d :
  order_ok n q l ps k r s -> ps !! t = Some (PChecked c e p d) ->
  order_ok n (q ++ [p]) (l ++ [LInsert c p]) ps k r s.
Proof.
  intros [Hs He Hl Hp Hf] Ht.
  assert (Hpre : forall c' p', precedes (l ++ [LInsert c p]) p' c' -> precedes l p' c').
  { by intros c' p' [?|[? _]]%precedes_snoc. }
  constructor; [done| | | |].
  - rewrite inserted_snoc, popped_snoc, app_nil_r, He. by rewrite <- app_assoc.
  - intros c' p' [Hc|Hc%list_elem_of_singleton]%elem_of_app.
    + destruct (Hl c' p' Hc) as [? Ho]. eauto using in_order_mono, Z.le_refl.
    + simplify_eq. destruct (Hp t _ Ht) as [? Ho]. eauto using in_order_mono, Z.le_refl.
  - intros t' x Hx. destruct (Hp _ _ Hx). eauto using pub_ok_mono, Z.le_refl.
  - intros Hck. apply fifo_snoc; [by apply Hf|]. by intros.
Qed.

Lemma in_order_served_after l r s c p p' :
  clock_steady -> in_order l r s c p -> precedes l p' c -> ev_priority p' = EP_NORMAL -> event_lt p p' = true.
Proof.
  intros Hck [(Hn & _) Ho] Hp Hn'. destruct (Ho p' Hp) as [Hts ?]. specialize (Hts Hck). unfold event_lt.
  rewrite Hn, Hn'. simpl. destruct (Z.eqb_spec (timestamp_ns p) (timestamp_ns p')); simpl;
    apply Z.ltb_lt; lia.
Qed.

Lemma order_pop n q rest l ps k r s p :
  order_ok n q l ps k r s -> q ≡ₚ p :: rest -> Forall (λ x, event_lt p x = false) rest ->
  order_ok n rest (l ++ [LPop p]) ps k r s.
Proof.
  intros [Hs He Hl Hp Hf] Hq Hmin.
  assert (Hpre : forall c' p', precedes (l ++ [LPop p]) p' c' -> precedes l p' c').
  { by intros c' p' [?|[? _]]%precedes_snoc. }
  constructor; [done| | | |].
  - rewrite inserted_snoc, popped_snoc, app_nil_r, He, Hq. by rewrite <- app_assoc.
  - intros c' p' [Hc|Hc%list_elem_of_singleton]%elem_of_app; [|done].
    destruct (Hl c' p' Hc) as [? Ho]. eauto using in_order_mono, Z.le_refl.
  - intros t' x Hx. destruct (Hp _ _ Hx). eauto using pub_ok_mono, Z.le_refl.
  - intros Hck. apply fifo_snoc; [by apply Hf|]. intros p2 c2 p1 [= <-] Hins Hpr.
    pose proof (precedes_inserted _ _ _ Hpr) as Hp1.
    destruct (proj1 (elem_of_inserted l p1) Hp1) as [c1 Hc1].
    destruct (Hl _ _ Hc1) as [_ [(Hn1 & _) _]]. destruct (Hl _ _ Hins) as [_ Ho].
    pose proof (in_order_served_after _ _ _ _ _ _ Hck Ho Hpr Hn1) as Hlt.
    rewrite He, Hq in Hp1. apply elem_of_app in Hp1 as [?|[->|Hin]%elem_of_cons].
    + by apply elem_of_popped.
    + exfalso. destruct Ho as [_ Ho]. destruct (Ho _ Hpr). lia.
    + rewrite Forall_forall in Hmin. by rewrite (Hmin _ Hin) in Hlt.
Qed.

(** What the order depends on; most steps leave it alone. *)
Definition order_view b :=
  (queue_ (eventQueue_ b), log b, publishers b, calls b, clock_reads b, sequenceCounter_ b).

Lemma bus_ok_view n b b' : order_view b' = order_view b -> bus_ok n b -> bus_ok n b'.
Proof. unfold order_view, bus_ok. intros [= -> -> -> -> -> ->]. done. Qed.

Lemma call_subscriber_view e sub n b : order_view (snd (call_subscriber e sub (n, b))) = order_view b.
Proof. unfold call_subscriber. destruct b. by repeat (case_match; simpl; simplify_eq). Qed.

Lemma subscribe_view dis f c b : order_view (snd (subscribe dis f c b)) = order_view b.
Proof. destruct c, b; done. Qed.

Lemma unsubscribe_view id b : order_view (snd (unsubscribe id b)) = order_view b.
Proof. unfold unsubscribe, removeSubscription. destruct b. simpl. by case_match. Qed.

Lemma observers_view o b :
  order_view (registerObserver o b) = order_view b /\ order_view (unregisterObserver o b) = order_view b.
Proof. destruct o, b; split; try done; simpl; by case_match. Qed.

Lemma start_view b : order_view (start b) = order_view b.
Proof. unfold start. destruct b as [????? [?|] []]; done. Qed.

Lemma bus_ok_plain n b p :
  bus_ok n b -> p ∈ queue_ (eventQueue_ b) -> ttl p = None /\ coalescing_key p = None.
Proof.
  intros Hb Hp. assert (Hi : p ∈ inserted (log b)).
  { rewrite (oo_events _ _ _ _ _ _ _ Hb). set_solver. }
  apply elem_of_inserted in Hi as [c Hc].
  by destruct (oo_log _ _ _ _ _ _ _ Hb c p Hc) as [_ [(_ & ? & ? & _) _]].
Qed.

(** The events of the bus never expire and are never coalesced, so a pop gives
    the top of the queue. *)
Lemma pop_event_top n b :
  bus_ok n b ->
  match pop_event b with
  | (None, b') => queue_ (eventQueue_ b) = [] /\ b' = b
  | (Some p, b') => exists rest,
    queue_ (eventQueue_ b) ≡ₚ p :: rest /\ Forall (λ x, event_lt p x = false) rest /\
    exists q, b' = upd_queue q b /\ queue_ q = rest
  end.
Proof using heap_laws.
  intros Hb. unfold pop_event. set (clock := λ i, _).
  destruct (heap_pop (queue_ (eventQueue_ b))) as [[p rest]|] eqn:Hpop.
  - destruct (heap_pop_Some _ _ _ Hpop) as [Hq Hmin].
    destruct (bus_ok_plain n b p Hb) as [Ht Hk]; [rewrite Hq; set_solver|].
    rewrite (pop_top clock _ p rest Hpop);
      [|unfold isExpired; by rewrite Ht|unfold superseded; by rewrite Hk].
    exists rest. split_and!; [done|done|]. eexists. split; [done|]. by rewrite (proj1 (deliver_queue _ _)).
  - assert (Hnil : queue_ (eventQueue_ b) = []) by (by apply heap_pop_None).
    assert (Hp : pop clock (eventQueue_ b) = (None, eventQueue_ b)) by (unfold pop; by rewrite Hnil).
    rewrite Hp. split; [done|]. by destruct b.
Qed.

Lemma dispatch_step_ok n b b' : bus_ok n b -> dispatch_step b = Some b' -> bus_ok n b'.
Proof using heap_laws.
  intros Hb. unfold dispatch_step.
  destruct (dispatchThread_ b) as [[draining|draining e [|sub rest] m|]|]; try done.
  - destruct (negb draining && negb (running_ b)).
    { intros [= <-]. apply (bus_ok_view n b); [by destruct b|done]. }
    pose proof (pop_event_top n b Hb) as Hpop. destruct (pop_event b) as [[p|] b1].
    + destruct Hpop as (rest & Hq & Hmin & q & -> & Hrest).
      pose proof (order_pop _ _ _ _ _ _ _ _ _ Hb Hq Hmin) as Hb'. rewrite <- Hrest in Hb'.
      intros H. assert (order_view b' = order_view (record (LPop p) (upd_queue q b))) as Hv.
      { destruct b. destruct (payload_event p); by simplify_eq. }
      eapply bus_ok_view; [exact Hv|]. by destruct b.
    + destruct Hpop as [_ ->]. intros [= <-]. apply (bus_ok_view n b); [by destruct b, draining|done].
  - intros [= <-]. apply (bus_ok_view n b); [by destruct b|done].
  - pose proof (call_subscriber_view e sub m b) as Hv.
    destruct (call_subscriber e sub (m, b)) as [m' b1]. intros [= <-].
    apply (bus_ok_view n b); [|done]. rewrite <- Hv. by destruct b1.
Qed.

Lemma join_view b b' : join b = Some b' -> order_view b' = order_view b.
Proof. unfold join. destruct b as [????? [[]|]]; simpl; intros; by simplify_eq. Qed.

Lemma exec_ok n s b b' :
  n < 2 ^ 64 - 1 -> bus_ok n b -> exec s b = Some b' -> bus_ok (n + 1) b'.
Proof using heap_laws.
  intros Hn Hb. pose proof (order_ok_weaken _ _ _ _ _ _ _ Hb : bus_ok (n + 1) b) as Hb1.
  unfold exec, begin_publish, read_clock, draw_number, lock_and_check, insert_event, count_event, drop_event. destruct (terminated b); [done|].
  destruct s as [t e|t|t|t|t|t|t|dis f c|id|o|o| | | | |];
    try (destruct (publishers b !! t) as [x|] eqn:Ht; try done; try (destruct x; try done)).
  - intros [= <-]. pose proof (order_begin _ _ _ _ _ _ _ t e Hb). by destruct b.
  - intros [= <-]. pose proof (order_read_clock _ _ _ _ _ _ _ _ _ _ Hb Ht). by destruct b.
  - intros [= <-]. pose proof (order_draw _ _ _ _ _ _ _ _ _ _ _ Hn Hb Ht). by destruct b.
  - destruct (publishMutex_ b); [done|]. intros [= <-].
    pose proof (order_publisher _ _ _ _ _ _ _ _ _
      (PChecked call e p (shouldDrop (ev_priority p) (eventQueue_ b))) Hb1 Ht ltac:(done) eq_refl).
    by destruct b.
  - destruct drop; [done|]. intros [= <-].
    pose proof (order_insert _ _ _ _ _ _ _ _ _ _ _ _ Hb1 Ht) as H1.
    rewrite <- (proj1 (push_insert_queue p (eventQueue_ b))) in H1.
    pose proof (order_publisher _ _ _ _ _ _ _ _ _ (PInserted call e p) H1 Ht ltac:(done) eq_refl).
    by destruct b.
  - intros [= <-]. pose proof (order_return _ _ _ _ _ _ _ t Hb1). by destruct b.
  - destruct drop; [|done]. intros [= <-]. pose proof (order_return _ _ _ _ _ _ _ t Hb1). by destruct b.
  - intros [= <-]. by apply (bus_ok_view _ b); [apply subscribe_view|].
  - intros [= <-]. by apply (bus_ok_view _ b); [apply unsubscribe_view|].
  - intros [= <-]. by apply (bus_ok_view _ b); [apply observers_view|].
  - intros [= <-]. by apply (bus_ok_view _ b); [apply observers_view|].
  - intros [= <-]. apply (bus_ok_view _ b); [by destruct b|done].
  - intros [= <-]. by apply (bus_ok_view _ b); [apply start_view|].
  - intros [= <-]. apply (bus_ok_view _ b); [by destruct b|done].
  - intros H. by apply (bus_ok_view _ b); [apply join_view|].
  - by apply dispatch_step_ok.
Qed.

Lemma run_ok ss n b b' :
  bus_ok n b -> n + Z.of_nat (length ss) < 2 ^ 64 -> run ss b = Some b' ->
  bus_ok (n + Z.of_nat (length ss)) b'.
Proof using heap_laws.
  revert n b. induction ss as [|s ss IH]; intros n b Hb Hn.
  - intros [= <-]. simpl. by rewrite Z.add_0_r.
  - cbn [run mbind option_bind length] in *. destruct (exec s b) as [b1|] eqn:He; [|done].
    intros Hr. replace (n + Z.of_nat (S (length ss))) with (n + 1 + Z.of_nat (length ss)) by lia.
      apply (IH _ b1); [|lia|done]. eapply exec_ok; [|done..]. lia.
Qed.

Lemma new_bus_ok c counter w : bus_ok 0 (newEventBus c counter w).
Proof.
  constructor; simpl; try done.
  - intros c' p ?%elem_of_nil. done.
  - intros _ l1 l2 p2 c2 p1 H. by destruct l1.
Qed.

(** C12: the bus delivers in publication order.  In every interleaving of
    publishers, subscribers and the dispatch thread (fewer than 2^64 steps), no
    accepted event is lost or taken twice; and while the system clock is not
    set back, when the dispatch thread takes an event, every event that was in
    the queue before the publish call of that one began has been taken before.
    In particular the events of one publisher are then delivered in the order
    in which it published them. *)
Theorem bus_delivers_in_publication_order ss c counter w b :
  Z.of_nat (length ss) < 2 ^ 64 -> run ss (newEventBus c counter w) = Some b ->
  inserted (log b) ≡ₚ popped (log b) ++ queue_ (eventQueue_ b) /\
  (clock_steady ->
   forall l1 l2 p2 c2 p1, log b = l1 ++ LPop p2 :: l2 -> LInsert c2 p2 ∈ l1 -> precedes l1 p1 c2 ->
     LPop p1 ∈ l1).
Proof.
  intros Hn Hr. pose proof (run_ok ss 0 _ _ (new_bus_ok c counter w) Hn Hr) as [].
  split; [done|]. eauto.
Qed.

(** *** Subscriptions are counted *)

Record subs_ok (n : Z) b : Prop := {
  so_counter : 0 <= id_counter b <= n;
  so_ids id sub : subscriptions_ b !! id = Some sub ->
    exists c dis, 0 <= c < id_counter b /\ id = subscription_id c dis;
  so_count : activeSubscriptions (stats_ b) = getSubscriptionCount b;
  so_size : getSubscriptionCount b <= n
}.

Definition subs_view b := (subscriptions_ b, id_counter b, activeSubscriptions (stats_ b)).

Lemma subs_ok_view n b b' : subs_view b' = subs_view b -> subs_ok n b -> subs_ok n b'.
Proof.
  unfold subs_view. intros [= H1 H2 H3] [Hc Hi Hn Hs].
  unfold getSubscriptionCount in *. constructor; unfold getSubscriptionCount; rewrite ?H1, ?H2, ?H3; done.
Qed.

Lemma subs_ok_fresh n b dis : subs_ok n b -> subscriptions_ b !! subscription_id (id_counter b) dis = None.
Proof.
  intros [Hc Hi _ _]. destruct (subscriptions_ b !! _) as [sub|] eqn:E; [|done]. exfalso.
  destruct (Hi _ _ E) as (c & dis' & Hc' & Heq). apply subscription_id_inj in Heq; lia.
Qed.

Lemma subscribe_fresh n b dis f cb :
  subs_ok n b ->
  let id := subscription_id (id_counter b) dis in
  subscribe dis f (Some cb) b =
    (id, upd_stats (add_active 1)
           (upd_subs (<[id := mkSub id f cb]> (subscriptions_ b)) (u64 (id_counter b + 1)) b)).
Proof.
  intros Hb id. pose proof (subs_ok_fresh n b dis Hb) as Hfresh. fold id in Hfresh.
  unfold subscribe, addSubscription. fold id. rewrite Hfresh, bool_decide_false; [done|by intros [? ?]].
Qed.

Lemma subscribe_subs_ok n b dis f cb :
  n < 2 ^ 64 - 1 -> subs_ok n b -> subs_ok (n + 1) (snd (subscribe dis f cb b)).
Proof.
  intros Hn Hb. destruct cb as [cb|]; [|destruct Hb; simpl; constructor; [lia|done..|lia]].
  rewrite (subscribe_fresh n) by done. pose proof (subs_ok_fresh n b dis Hb) as Hfresh.
  destruct Hb as [Hc Hi Hs Hz].
  assert (Hsz : getSubscriptionCount (upd_subs (<[subscription_id (id_counter b) dis :=
    mkSub (subscription_id (id_counter b) dis) f cb]> (subscriptions_ b)) (u64 (id_counter b + 1)) b)
    = getSubscriptionCount b + 1).
  { unfold getSubscriptionCount. destruct b. simpl in *. rewrite map_size_insert_None by done. lia. }
  unfold getSubscriptionCount in *. destruct b; simpl in *.
  rewrite u64_small in * by (unfold in_u64; lia).
  constructor; unfold getSubscriptionCount; simpl; rewrite ?Hsz; [lia| | |lia].
  - intros id sub' [[<- _]|[_ (c & dis' & ? & ?)%Hi]]%lookup_insert_Some.
    + eexists _, _. split; [|done]. lia.
    + exists c, dis'. split; [lia|done].
  - rewrite Hs, u64_small; [done|]. unfold in_u64. lia.
Qed.

Lemma unsubscribe_subs_ok n b id :
  n < 2 ^ 64 - 1 -> subs_ok n b -> subs_ok (n + 1) (snd (unsubscribe id b)).
Proof.
  intros Hn [Hc Hi Hs Hz]. unfold unsubscribe, removeSubscription.
  unfold getSubscriptionCount in *. destruct b as [? ? subs]; simpl in *.
  assert (Hids : forall id' sub, delete id subs !! id' = Some sub ->
    exists c dis, 0 <= c < id_counter0 /\ id' = subscription_id c dis)
    by (intros ?? [_ ?]%lookup_delete_Some; eauto).
  case_bool_decide as Hid; constructor; unfold getSubscriptionCount; simpl; try done; try lia.
  - rewrite map_size_delete_Some by done.
    assert (base.size subs <> 0%nat) by (apply map_size_ne_0_lookup; eauto).
    rewrite Hs, u64_small; [lia|]. unfold in_u64. lia.
  - rewrite map_size_delete_Some by done. lia.
  - rewrite delete_id; [done|]. by apply eq_None_not_Some.
  - rewrite delete_id; [lia|]. by apply eq_None_not_Some.
Qed.

Lemma call_subscriber_subs_view e sub n b : subs_view (snd (call_subscriber e sub (n, b))) = subs_view b.
Proof. unfold call_subscriber. destruct b. by repeat (case_match; simpl; simplify_eq). Qed.

Lemma dispatch_step_subs_view b b' : dispatch_step b = Some b' -> subs_view b' = subs_view b.
Proof.
  unfold dispatch_step. destruct (dispatchThread_ b) as [[draining|draining e [|sub rest] m|]|]; try done.
  - destruct (negb draining && negb (running_ b)); [intros [= <-]; by destruct b|].
    unfold pop_event. destruct (pop _ _) as [[p|] q].
    + intros H. destruct b. destruct (payload_event p); by simplify_eq.
    + intros [= <-]. by destruct b, draining.
  - intros [= <-]. by destruct b.
  - pose proof (call_subscriber_subs_view e sub m b) as Hv.
    destruct (call_subscriber e sub (m, b)) as [m' b1]. intros [= <-]. rewrite <- Hv. by destruct b1.
Qed.

(** Every other step leaves the subscriptions and their number alone. *)
Lemma exec_subs_view s b b' :
  exec s b = Some b' ->
  match s with
  | Subscribe _ _ _ | Unsubscribe _ | ResetStats => True
  | _ => subs_view b' = subs_view b
  end.
Proof.
  unfold exec, begin_publish, read_clock, draw_number, lock_and_check, insert_event, count_event, drop_event. destruct (terminated b); [done|]. destruct s as [t e|t|t|t|t|t|t|dis f c|id|o|o| | | | |];
    try done;
    try (destruct (publishers b !! t) as [x|]; try done; try (destruct x; try done);
         try (destruct (publishMutex_ b); try done); try (destruct drop; try done);
         intros [= <-]; by destruct b).
  - intros [= <-]. by destruct o, b.
  - intros [= <-]. destruct o, b; simpl; [|done]. by case_match.
  - intros [= <-]. unfold start. by destruct b as [????? [?|] []].
  - intros [= <-]. by destruct b.
  - unfold join. destruct b as [????? [[]|]]; simpl; intros; by simplify_eq.
  - apply dispatch_step_subs_view.
Qed.

Lemma run_subs_ok ss n b b' :
  subs_ok n b -> n + Z.of_nat (length ss) < 2 ^ 64 -> ResetStats ∉ ss -> run ss b = Some b' ->
  subs_ok (n + Z.of_nat (length ss)) b'.
Proof.
  revert n b. induction ss as [|s ss IH]; intros n b Hb Hn Hrs.
  - intros [= <-]. simpl. by rewrite Z.add_0_r.
  - apply not_elem_of_cons in Hrs as [Hs Hrs].
    cbn [run mbind option_bind length] in *. destruct (exec s b) as [b1|] eqn:He; [|done].
    intros Hr. replace (n + Z.of_nat (S (length ss))) with (n + 1 + Z.of_nat (length ss)) by lia.
      apply (IH _ b1); [|lia|done|done].
      assert (Hw : subs_ok (n + 1) b) by (destruct Hb; constructor; [lia|done..|lia]).
      pose proof (exec_subs_view _ _ _ He) as Hv.
      unfold exec, begin_publish, read_clock, draw_number, lock_and_check, insert_event, count_event, drop_event in He. destruct (terminated b); [done|].
      destruct s; try (by eapply subs_ok_view); try done; injection He as <-.
      * apply subscribe_subs_ok; [lia|done].
      * apply unsubscribe_subs_ok; [lia|done].
Qed.

(** Subscriptions have distinct IDs and are counted.  In every run without a
    reset of the statistics, activeSubscriptions is the number of entries; a
    further subscription gets an ID that is not in use and is added under it,
    and unsubscribing with that ID succeeds and gives back the former table. *)
Theorem subscriptions_are_counted ss c counter w b dis f cb :
  0 <= counter -> counter + Z.of_nat (length ss) < 2 ^ 64 -> ResetStats ∉ ss ->
  run ss (newEventBus c counter w) = Some b ->
  activeSubscriptions (stats_ b) = getSubscriptionCount b /\
  let '(id, b') := subscribe dis f (Some cb) b in
  subscriptions_ b !! id = None /\
  subscriptions_ b' = <[id := mkSub id f cb]> (subscriptions_ b) /\
  fst (unsubscribe id b') = true /\ subscriptions_ (snd (unsubscribe id b')) = subscriptions_ b.
Proof.
  intros Hc Hn Hrs Hr.
  assert (H0 : subs_ok counter (newEventBus c counter w)) by (constructor; simpl; [lia|done|done|done]).
  pose proof (run_subs_ok ss counter _ _ H0 Hn Hrs Hr) as Hb. split; [apply Hb|].
  pose proof (subs_ok_fresh _ b dis Hb) as Hfresh. rewrite (subscribe_fresh _ b dis f cb Hb).
  set (id := subscription_id (id_counter b) dis) in *. clearbody id.
  unfold unsubscribe, removeSubscription. destruct b; simpl in *.
  rewrite lookup_insert_eq, bool_decide_true by eauto. simpl. by rewrite delete_insert_id.
Qed.

(** Resetting the statistics forgets the subscriptions that are still there:
    cancelling one of them wraps their number around to 2^64 - 1. *)
Theorem reset_stats_underflows c counter w dis f cb :
  let '(id, b) := subscribe dis f (Some cb) (newEventBus c counter w) in
  let '(ok, b') := unsubscribe id (resetStats b) in
  ok = true /\ getSubscriptionCount b' = 0 /\ activeSubscriptions (stats_ b') = 2 ^ 64 - 1.
Proof.
  unfold subscribe, addSubscription. cbn [newEventBus id_counter subscriptions_].
  set (id := subscription_id counter dis). clearbody id.
  rewrite lookup_empty, bool_decide_false by (by intros [? ?]).
  unfold unsubscribe, removeSubscription. simpl.
  rewrite lookup_insert_eq, bool_decide_true by eauto. simpl.
  split_and!; [done| |done]. unfold getSubscriptionCount. simpl. rewrite delete_insert_id by done. done.
Qed.

(** *** The steps of one publisher make up [publish] *)

Definition publish_script (t : nat) e (success : bool) : list Step :=
  [Begin t e; ReadClock t; DrawNumber t; LockAndCheck t] ++
  if success then [Insert t; Count t] else [Drop t].

(** A publisher that is not interrupted has the effect of [publish]. *)
Theorem publisher_steps_refine_publish t e b :
  terminated b = false -> publishers b !! t = None -> publishMutex_ b = None ->
  run (publish_script t e (fst (publish (Some e) b))) b = Some (snd (publish (Some e) b)).
Proof.
  destruct b as [q m su id st d r sq o w ps c n l te]. simpl. intros -> Ht ->.
  unfold push. set (p := to_queued _ _ _).
  destruct (shouldDrop (ev_priority p) q) eqn:Hd; unfold publish_script; simpl; unfold exec, begin_publish, read_clock, draw_number, lock_and_check, insert_event, count_event, drop_event; simpl;
    rewrite Ht; simpl; rewrite !lookup_insert_eq; simpl; rewrite !lookup_insert_eq; simpl;
    fold p; rewrite !lookup_insert_eq; simpl;
    fold p; change EP_NORMAL with (ev_priority p); rewrite Hd, !lookup_insert_eq; simpl;
    rewrite ?lookup_insert_eq; unfold finish_publish, set_publisher; simpl;
    rewrite !insert_insert_eq, delete_insert_id by done; done.
Qed.

(** *** Shutting down *)

Lemma run_app ss ss' b : run (ss ++ ss') b = run ss b ≫= run ss'.
Proof.
  revert b. induction ss as [|s ss IH]; intros b; [done|]. simpl. destruct (exec s b); [apply IH|done].
Qed.

Lemma run_dispatch_S k b :
  run (replicate (S k) Dispatch) b = exec Dispatch b ≫= run (replicate k Dispatch).
Proof. done. Qed.

Lemma call_subscriber_thread d e sub n b :
  call_subscriber e sub (n, upd_thread d b) =
  (fst (call_subscriber e sub (n, b)), upd_thread d (snd (call_subscriber e sub (n, b)))).
Proof. unfold call_subscriber. destruct b. simpl. by repeat (case_match; simpl; simplify_eq). Qed.

Lemma call_subscriber_terminated e sub n b : terminated (snd (call_subscriber e sub (n, b))) = terminated b.
Proof. unfold call_subscriber. destruct b. by repeat (case_match; simpl; simplify_eq). Qed.

Lemma call_all_view e subs n b :
  order_view (snd (foldl (λ x sub, call_subscriber e sub x) (n, b) subs)) = order_view b /\
  terminated (snd (foldl (λ x sub, call_subscriber e sub x) (n, b) subs)) = terminated b.
Proof.
  revert n b. induction subs as [|sub subs IH]; intros n b; [done|]. cbn [foldl].
  rewrite <- (call_subscriber_view e sub n b), <- (call_subscriber_terminated e sub n b).
  destruct (call_subscriber e sub (n, b)). apply IH.
Qed.

Lemma call_all_running e subs n b :
  running_ (snd (foldl (λ x sub, call_subscriber e sub x) (n, b) subs)) = running_ b.
Proof.
  revert n b. induction subs as [|sub subs IH]; intros n b; [done|]. cbn [foldl].
  transitivity (running_ (snd (call_subscriber e sub (n, b)))).
  - destruct (call_subscriber e sub (n, b)). apply IH.
  - unfold call_subscriber. destruct b. by repeat (case_match; simpl; simplify_eq).
Qed.

Lemma dispatch_view event b :
  order_view (dispatchToSubscribers event b) = order_view b /\
  terminated (dispatchToSubscribers event b) = terminated b.
Proof.
  destruct event as [e|]; [|done]. unfold dispatchToSubscribers.
  pose proof (call_all_view e (getAllSubscriptions (notifyBeforeDispatch e b)) 0
    (notifyBeforeDispatch e b)) as [H1 H2].
  destruct (foldl _ _ _) as [n b']. simpl in H1, H2. destruct b, b'. done.
Qed.

Lemma exec_calling d e sub rest n b :
  terminated b = false ->
  exec Dispatch (upd_thread (Some (DCalling d e (sub :: rest) n)) b) =
  Some (upd_thread (Some (DCalling d e rest (fst (call_subscriber e sub (n, b)))))
          (snd (call_subscriber e sub (n, b)))).
Proof.
  pose proof (call_subscriber_thread (Some (DCalling d e (sub :: rest) n)) e sub n b) as Hc.
  intros Ht. unfold exec, begin_publish, read_clock, draw_number, lock_and_check, insert_event, count_event, drop_event, dispatch_step. destruct (call_subscriber e sub (n, b)) as [n' b'].
  destruct b, b'. cbn [terminated dispatchThread_ upd_thread fst snd] in *. subst. by rewrite Hc.
Qed.

(** The rest of a dispatch, step by step. *)
Lemma calling_run d e rest n b :
  terminated b = false ->
  run (replicate (S (length rest)) Dispatch) (upd_thread (Some (DCalling d e rest n)) b) =
  Some (upd_thread (Some (DTop d))
    (let '(n, b) := foldl (λ x sub, call_subscriber e sub x) (n, b) rest in notifyAfterDispatch e n b)).
Proof.
  revert n b. induction rest as [|sub rest IH]; intros n b Ht.
  - destruct b; simpl in *; by subst.
  - cbn [length]. rewrite run_dispatch_S, exec_calling by done. cbn [mbind option_bind foldl].
    pose proof (call_subscriber_terminated e sub n b) as Ht'.
    destruct (call_subscriber e sub (n, b)) as [n' b']. apply IH. simpl in Ht'. congruence.
Qed.

Lemma pop_event_thread d b :
  pop_event (upd_thread d b) = (fst (pop_event b), upd_thread d (snd (pop_event b))).
Proof. unfold pop_event. destruct b. simpl. by destruct (pop _ _). Qed.

(** The draining loop, alone, empties the queue: every round takes one event. *)
Lemma drain_ok n fuel b :
  bus_ok n b -> length (queue_ (eventQueue_ b)) = fuel ->
  let b' := drain fuel b in
  bus_ok n b' /\ queue_ (eventQueue_ b') = [] /\ inserted (log b') = inserted (log b).
Proof using heap_laws.
  revert b. induction fuel as [|fuel IH]; intros b Hb Hl; simpl.
  { split_and!; [done|by apply nil_length_inv|done]. }
  pose proof (pop_event_top n b Hb) as Hpop. destruct (pop_event b) as [[p|] b1].
  - destruct Hpop as (rest & Hq & Hmin & q & -> & Hrest).
    pose proof (order_pop _ _ _ _ _ _ _ _ _ Hb Hq Hmin) as Hb'. rewrite <- Hrest in Hb'.
    set (b1 := record (LPop p) (upd_queue q b)).
    destruct (dispatch_view (payload_event p) b1) as [Hv _].
    assert (Hb1 : bus_ok n b1) by (by destruct b).
    pose proof (bus_ok_view _ _ _ Hv Hb1) as Hb2.
    injection Hv as Hvq Hvl _ _ _ _.
    destruct (IH (dispatchToSubscribers (payload_event p) b1)) as (H1 & H2 & H3); [done| |].
    + rewrite Hvq. apply Permutation_length in Hq. simpl in Hq.
      replace (queue_ (eventQueue_ b1)) with rest by (by destruct b). lia.
    + split_and!; [done..|]. rewrite H3, Hvl.
      replace (log b1) with (log b ++ [LPop p]) by (by destruct b). by rewrite inserted_snoc, app_nil_r.
  - destruct Hpop as [Hnil ->]. done.
Qed.

Lemma drain_terminated fuel b : terminated (drain fuel b) = terminated b.
Proof.
  revert b. induction fuel as [|fuel IH]; intros b; [done|]. cbn [drain].
  unfold pop_event. destruct (pop _ _) as [[p|] q]; [|by destruct b].
  rewrite IH, (proj2 (dispatch_view _ _)). by destruct b.
Qed.

(** The dispatch thread at the top of the draining loop runs [drain] and
    returns. *)
Lemma drain_run n fuel b :
  bus_ok n b -> terminated b = false -> length (queue_ (eventQueue_ b)) = fuel ->
  exists k, run (replicate k Dispatch) (upd_thread (Some (DTop true)) b) =
            Some (upd_thread (Some DReturned) (drain fuel b)).
Proof using heap_laws.
  assert (Htop : forall b, terminated b = false ->
    exec Dispatch (upd_thread (Some (DTop true)) b) =
    match pop_event b with
    | (None, b) => Some (upd_thread (Some DReturned) b)
    | (Some p, b) =>
      let b := record (LPop p) b in
      match payload_event p with
      | None => Some (upd_thread (Some (DTop true)) b)
      | Some e =>
        let b := notifyBeforeDispatch e b in
        Some (upd_thread (Some (DCalling true e (getAllSubscriptions b) 0)) b)
      end
    end).
  { intros x Hx. unfold exec, begin_publish, read_clock, draw_number, lock_and_check, insert_event, count_event, drop_event, dispatch_step. rewrite pop_event_thread.
    destruct (pop_event x) as [[p|] y] eqn:E; destruct x, y; simpl in *; subst; [|done].
    by destruct (payload_event p). }
  revert b. induction fuel as [|fuel IH]; intros b Hb Ht Hl.
  { exists 1%nat. simpl. rewrite Htop by done. pose proof (pop_event_top n b Hb) as Hpop.
    destruct (pop_event b) as [[p|] b1]; simpl; [|by destruct Hpop as [_ ->]].
    destruct Hpop as (rest & Hq & _). apply Permutation_length in Hq. simpl in Hq. lia. }
  cbn [drain]. pose proof (Htop b Ht) as Hstep.
  pose proof (pop_event_top n b Hb) as Hpop. destruct (pop_event b) as [[p|] b1].
  2:{ exists 1%nat. cbn [replicate run]. by rewrite Hstep. }
  destruct Hpop as (rest & Hq & Hmin & q & -> & Hrest).
  pose proof (order_pop _ _ _ _ _ _ _ _ _ Hb Hq Hmin) as Hb'. rewrite <- Hrest in Hb'.
  cbv zeta in Hstep. set (b1 := record (LPop p) (upd_queue q b)) in *.
  assert (Hb1 : bus_ok n b1 /\ queue_ (eventQueue_ b1) = rest /\ terminated b1 = false)
    by (by destruct b; simpl in *; subst).
  clearbody b1. destruct Hb1 as (Hb1 & Hq1 & Ht1).
  destruct (dispatch_view (payload_event p) b1) as [Hv Hvt].
  destruct (IH (dispatchToSubscribers (payload_event p) b1)) as [k Hk];
    [by eapply bus_ok_view|congruence| |].
  { injection Hv as Hvq _ _ _ _ _. rewrite Hvq, Hq1. apply Permutation_length in Hq. simpl in Hq. lia. }
  destruct (payload_event p) as [e|].
  - pose proof (calling_run true e (getAllSubscriptions (notifyBeforeDispatch e b1)) 0
      (notifyBeforeDispatch e b1) ltac:(by destruct b1)) as Hc.
    exists (S (S (length (getAllSubscriptions (notifyBeforeDispatch e b1))) + k))%nat.
    rewrite run_dispatch_S, Hstep. cbn [mbind option_bind].
    rewrite replicate_add, run_app, Hc. exact Hk.
  - exists (S k). rewrite run_dispatch_S, Hstep. exact Hk.
Qed.

(** The dispatch thread, alone from [b] on, returns with an empty queue. *)
Definition shuts_down b : Prop :=
  exists k b', run (replicate k Dispatch) b = Some b' /\
    dispatchThread_ b' = Some DReturned /\ queue_ (eventQueue_ b') = [] /\
    inserted (log b') = inserted (log b) /\ inserted (log b') ≡ₚ popped (log b') /\
    exec Join b' = Some (upd_thread None b').

Lemma exec_join b : terminated b = false -> dispatchThread_ b = Some DReturned -> exec Join b = Some (upd_thread None b).
Proof. intros Ht Hd. unfold exec, begin_publish, read_clock, draw_number, lock_and_check, insert_event, count_event, drop_event, join. by rewrite Ht, Hd. Qed.

Lemma shuts_down_after k b b1 :
  run (replicate k Dispatch) b = Some b1 -> inserted (log b1) = inserted (log b) ->
  shuts_down b1 -> shuts_down b.
Proof.
  intros Hk Hi (k' & b' & Hr & Hd & Hq & Hl & Hp & Hj). exists (k + k')%nat, b'.
  rewrite replicate_add, run_app, Hk. split_and!; try done. congruence.
Qed.

Lemma top_shuts_down n draining b :
  bus_ok n b -> terminated b = false -> running_ b = false ->
  shuts_down (upd_thread (Some (DTop draining)) b).
Proof using heap_laws.
  intros Hb Ht Hrun.
  assert (Hdrain : shuts_down (upd_thread (Some (DTop true)) b)).
  { destruct (drain_run n _ b Hb Ht eq_refl) as [k Hk].
    destruct (drain_ok n _ b Hb eq_refl) as (Hd1 & Hd2 & Hd3).
    eexists k, _. split; [exact Hk|]. pose proof (oo_events _ _ _ _ _ _ _ Hd1) as He.
    rewrite Hd2, app_nil_r in He.
    replace (log (upd_thread _ b)) with (log b) by (by destruct b).
    pose proof (drain_terminated (length (queue_ (eventQueue_ b))) b) as Hdt. rewrite Ht in Hdt.
    rewrite exec_join by (by destruct (drain _ b)). destruct (drain _ b). done. }
  destruct draining; [done|].
  apply (shuts_down_after 1 _ (upd_thread (Some (DTop true)) b)); [|by destruct b|done].
  destruct b; simpl in *; by subst.
Qed.

(** C13: stopping the bus loses nothing and ends.  In every state of a run, in
    which publishers may have gone on after the stop, such that the bus has been
    stopped and the dispatch thread is anywhere in its loops: once the other
    threads are silent, the dispatch thread finishes the event it is at,
    delivers everything that is still queued, and returns; then every event that
    was accepted has been delivered, and the join of [stop] returns. *)
Theorem shutdown_delivers_everything ss c counter w b d :
  Z.of_nat (length ss) < 2 ^ 64 -> run ss (newEventBus c counter w) = Some b ->
  terminated b = false -> running_ b = false -> dispatchThread_ b = Some d -> d <> DReturned ->
  exists k b', run (replicate k Dispatch) b = Some b' /\
    dispatchThread_ b' = Some DReturned /\ queue_ (eventQueue_ b') = [] /\
    inserted (log b') = inserted (log b) /\ inserted (log b') ≡ₚ popped (log b') /\
    exec Join b' = Some (upd_thread None b').
Proof.
  intros Hn Hr Ht Hrun Hd Hret.
  pose proof (run_ok ss 0 _ _ (new_bus_ok c counter w) Hn Hr) as Hb. set (n := 0 + _) in Hb. clearbody n.
  change (shuts_down b).
  replace b with (upd_thread (Some d) b) by (destruct b; simpl in *; by subst).
  destruct d as [draining|draining e rest m|]; [by eapply top_shuts_down| |done].
  pose proof (calling_run draining e rest m b Ht) as Hc.
  pose proof (call_all_view e rest m b) as [Hv1 Hv2]. pose proof (call_all_running e rest m b) as Hv3.
  destruct (foldl _ (m, b) rest) as [m' b1]. cbn [snd] in *.
  eapply shuts_down_after; [exact Hc| |eapply (top_shuts_down n)].
  - injection Hv1 as _ Hl _ _ _ _. destruct b, b1. simpl in *. by subst.
  - apply (bus_ok_view n b); [|done]. rewrite <- Hv1. by destruct b1.
  - rewrite <- Ht, <- Hv2. by destruct b1.
  - rewrite <- Hrun, <- Hv3. by destruct b1.
Qed.

(** *** Failing subscribers *)

Inductive CallOutcome := Skipped | Delivered | Failed.

#[export] Instance CallOutcome_eq_dec : EqDecision CallOutcome.
Proof. solve_decision. Defined.

(** What one subscription does with an event. *)
Definition outcome_of e (sub : Subscription F C) (w : W) : CallOutcome * W :=
  match run_filter (sub_filter sub) e w with
  | (w, None) => (Failed, w)
  | (w, Some false) => (Skipped, w)
  | (w, Some true) =>
    let '(w, threw) := call_callback (sub_callback sub) e w in
    (if threw : bool then Failed else Delivered, w)
  end.

Fixpoint outcomes e (subs : list (Subscription F C)) (w : W) : list CallOutcome * W :=
  match subs with
  | [] => ([], w)
  | sub :: subs =>
    let '(o, w) := outcome_of e sub w in
    let '(os, w) := outcomes e subs w in (o :: os, w)
  end.

Definition tally (o : CallOutcome) (os : list CallOutcome) : Z :=
  Z.of_nat (count (λ x, bool_decide (x = o)) os).

Definition add_tallies (os : list CallOutcome) (s : EventStats) : EventStats :=
  mkStats (publishedEvents s) (u64 (processedEvents s + tally Delivered os)) (droppedEvents s)
    (u64 (failedCallbacks s + tally Failed os)) (activeSubscriptions s).

Definition add_outcome (o : CallOutcome) : EventStats -> EventStats :=
  match o with Skipped => id | Delivered => add_processed | Failed => add_failed end.

Lemma tally_cons o x os : tally o (x :: os) = (if bool_decide (x = o) then 1 else 0) + tally o os.
Proof.
  unfold tally, count. rewrite filter_cons.
  destruct (bool_decide (x = o)) eqn:E; case_decide; simpl; try congruence; lia.
Qed.

Lemma u64_add_u64 x y : u64 (u64 x + y) = u64 (x + y).
Proof. unfold u64, wrap. by rewrite Zplus_mod_idemp_l. Qed.

Lemma add_tallies_cons o os st :
  in_u64 (processedEvents st) -> in_u64 (failedCallbacks st) ->
  add_tallies os (add_outcome o st) = add_tallies (o :: os) st /\
  in_u64 (processedEvents (add_outcome o st)) /\ in_u64 (failedCallbacks (add_outcome o st)).
Proof.
  intros Hp Hf. unfold add_tallies. rewrite !tally_cons.
  destruct o; simpl; rewrite ?u64_add_u64, ?Z.add_assoc, ?Z.add_0_r; auto using u64_bounds.
Qed.

Lemma call_subscriber_outcome e sub n b :
  let '(o, w) := outcome_of e sub (world b) in
  call_subscriber e sub (n, b) =
    (n + (if bool_decide (o = Delivered) then 1 else 0), upd_world w (upd_stats (add_outcome o) b)).
Proof.
  unfold call_subscriber, outcome_of. destruct b as [? ? ? ? st]; cbn [world upd_world].
  destruct (run_filter _ e _) as [w [[]|]]; cbn [upd_world upd_stats];
    [destruct (call_callback (sub_callback sub) e w) as [w' []]|..]; simpl; by rewrite ?Z.add_0_r.
Qed.

Lemma call_all_outcomes e subs n b :
  in_u64 (processedEvents (stats_ b)) -> in_u64 (failedCallbacks (stats_ b)) ->
  let '(os, w) := outcomes e subs (world b) in
  foldl (λ x sub, call_subscriber e sub x) (n, b) subs =
    (n + tally Delivered os, upd_world w (upd_stats (add_tallies os) b)) /\ length os = length subs.
Proof.
  revert n b. induction subs as [|sub subs IH]; intros n b Hp Hf.
  - split; [|done]. change (tally Delivered []) with 0. rewrite Z.add_0_r. simpl. f_equal.
    destruct b as [? ? ? ? [] ]; simpl in *. unfold add_tallies. simpl.
    change (tally _ []) with 0. rewrite !Z.add_0_r, !u64_small; done.
  - cbn [foldl outcomes]. pose proof (call_subscriber_outcome e sub n b) as Hc.
    destruct (outcome_of e sub (world b)) as [o w]. rewrite Hc.
    specialize (IH (n + if bool_decide (o = Delivered) then 1 else 0)
      (upd_world w (upd_stats (add_outcome o) b))).
    destruct b as [? ? ? ? st]. cbn [upd_world upd_stats world stats_] in *.
    destruct (outcomes e subs w) as [os w'].
    destruct (add_tallies_cons o os st Hp Hf) as (Ht & Hp' & Hf').
    destruct (IH Hp' Hf') as [-> Hlen]. rewrite Ht, tally_cons. simpl. split; [|lia]. f_equal. lia.
Qed.

Context {hash_laws : HashOrderLaws F C}.

(** C14: one subscriber cannot keep an event from the others.  A dispatch calls
    each of the current subscriptions exactly once, whatever the others do; the
    observers are told the number of callbacks that returned, and the numbers of
    those that returned and of those that threw are added to the statistics. *)
Theorem dispatch_isolates_failures e b :
  in_u64 (processedEvents (stats_ b)) -> in_u64 (failedCallbacks (stats_ b)) ->
  let subs := hash_order (subscriptions_ b) in
  let '(os, w) := outcomes e subs (notify (BeforeDispatch e) (observers_ b) (world b)) in
  subs ≡ₚ (map_to_list (subscriptions_ b)).*2 /\ length os = length subs /\
  dispatchToSubscribers (Some e) b =
    upd_world (notify (AfterDispatch e (tally Delivered os)) (observers_ b) w)
      (upd_stats (add_tallies os) b).
Proof using hash_laws.
  intros Hp Hf subs.
  pose proof (call_all_outcomes e subs 0 (notifyBeforeDispatch e b)) as Hc.
  unfold dispatchToSubscribers, getAllSubscriptions.
  replace (subscriptions_ (notifyBeforeDispatch e b)) with (subscriptions_ b) by (by destruct b).
  fold subs. replace (world (notifyBeforeDispatch e b))
    with (notify (BeforeDispatch e) (observers_ b) (world b)) in Hc by (by destruct b).
  destruct (outcomes e subs _) as [os w]. destruct Hc as [-> Hlen]; [by destruct b..|].
  split_and!; [apply hash_order_perm|done|]. by destruct b.
Qed.

(** *** Restarting *)

(** Starting the bus again before the stop has joined its thread ends the
    process: [start] assigns to a thread that is still joinable. *)
Theorem restart_before_join_terminates c counter w :
  terminated <$> run [Start; Stop; Start] (newEventBus c counter w) = Some true.
Proof. done. Qed.
End EventBus.

(** ** Example runs *)

Module BusExamples.
(** Filters and callbacks are numbers: an odd filter throws, callback [n] adds
    the target to the world under its number unless it is 0, which throws. *)
#[export] Instance clients : Clients unit nat nat unit (list (nat * string)) := {
  call_filter f e w := (w, if Nat.odd f then None else Some true);
  call_callback c e w := match c with 0%nat => (w, true) | _ => (w ++ [(c, getTargetId e)], false) end;
  call_observer _ _ w := (w, false)
}.
#[export] Instance order : HashOrder nat nat := λ m, (map_to_list m).*2.
#[export] Instance order_laws : HashOrderLaws nat nat.
Proof. by intros m. Defined.
#[export] Instance clock : Clock := λ i, Z.min (Z.of_nat i) (2 ^ 64 - 1).
Lemma example_clock_steady : clock_steady.
Proof. split; unfold system_clock, clock; lia. Qed.

Definition ev (target : string) : IEvent unit := mkIEvent "evt_1" TASK_STARTED 0 target tt.
Definition new : EventBus unit nat nat unit (list (nat * string)) := newEventBus 16 0 [].
Definition script : list (@Step unit nat nat unit) :=
  [Subscribe [1; 2; 3; 4; 5; 6; 7; 8] None (Some 0%nat); Subscribe [] None (Some 7%nat); Start] ++
  publish_script 1 (ev "a") true ++ [Begin 2 (ev "c"); ReadClock 2] ++
  publish_script 1 (ev "b") true ++ [DrawNumber 2; LockAndCheck 2; Insert 2; Dispatch; Stop].
Definition taken (b : EventBus unit nat nat unit (list (nat * string))) : list string :=
  omap (λ p, getTargetId <$> payload_event p) (popped (log b)).
End BusExamples.
Import BusExamples.

(** Thread 2 reads the clock before thread 1 publishes "b" and inserts "c" after
    it: "c" is served first, and "a", which was queued before, ahead of both. *)
Lemma bus_delivers_in_publication_order_witness :
  exists b, run (script ++ [Count 2%nat] ++ replicate 12 Dispatch) new = Some b /\
    taken b = ["a"; "c"; "b"] /\ inserted (log b) ≡ₚ popped (log b) ++ queue_ (eventQueue_ b) /\
    forall l1 l2 p2 c2 p1, log b = l1 ++ LPop p2 :: l2 -> LInsert c2 p2 ∈ l1 -> precedes l1 p1 c2 ->
      LPop p1 ∈ l1.
Proof.
  eexists. split; [vm_compute; reflexivity|]. split; [reflexivity|].
  destruct (bus_delivers_in_publication_order (script ++ [Count 2%nat] ++ replicate 12 Dispatch) 16 0 [] _
    ltac:(reflexivity) ltac:(vm_compute; reflexivity)) as [H1 H2].
  split; [exact H1|exact (H2 example_clock_steady)].
Defined.

(** One publisher, and a clock that is set back between its two events: the second
    is delivered first. *)
Definition set_back_clock : Clock := λ i, match i with 0%nat => 100 | _ => 50 end.

Theorem clock_set_back_reorders :
  taken <$> run (clk := set_back_clock)
    ([Start] ++ publish_script 1 (ev "first") true ++ publish_script 1 (ev "second") true ++ [Stop] ++
     replicate 6 Dispatch) new = Some ["second"; "first"].
Proof. vm_compute. reflexivity. Qed.

Lemma shutdown_delivers_everything_witness :
  exists b, run script new = Some b /\ taken b = ["a"] /\
  exists k b', run (replicate k Dispatch) b = Some b' /\
    dispatchThread_ b' = Some DReturned /\ queue_ (eventQueue_ b') = [] /\
    inserted (log b') = inserted (log b) /\ inserted (log b') ≡ₚ popped (log b') /\
    exec Join b' = Some (upd_thread None b').
Proof.
  eexists. split; [vm_compute; reflexivity|]. split; [reflexivity|].
  eapply (shutdown_delivers_everything script 16 0 []);
    [reflexivity|vm_compute; reflexivity|reflexivity|reflexivity|reflexivity|discriminate].
Defined.

Lemma subscriptions_are_counted_witness :
  let ss := [Subscribe [] None (Some 0%nat); Subscribe [] None (Some 7%nat); Start] in
  exists b, run ss new = Some b /\ activeSubscriptions (stats_ b) = 2 /\
  activeSubscriptions (stats_ b) = getSubscriptionCount b /\
  let '(id, b') := subscribe [9; 10; 11; 12; 13; 14; 15; 0] None (Some 5%nat) b in
  id = "sub_2_9abcdef0" /\ subscriptions_ b !! id = None.
Proof.
  intros ss. destruct (run ss new) as [b|] eqn:E; [|discriminate (eq_trans (eq_sym E) eq_refl)].
  assert (Hb : activeSubscriptions (stats_ b) = 2 /\ id_counter b = 2)
    by (injection E as <-; split; reflexivity).
  exists b. split; [done|]. split; [apply Hb|].
  destruct (subscriptions_are_counted ss 16 0 [] b [9; 10; 11; 12; 13; 14; 15; 0] None 5%nat) as [H1 H2];
    [lia|reflexivity|repeat (apply not_elem_of_cons; split; [discriminate|]); apply not_elem_of_nil|done|].
  split; [exact H1|]. cbn [subscribe addSubscription] in *. destruct H2 as [H2 _].
  split; [|exact H2]. by rewrite (proj2 Hb).
Defined.

(** The subscriber called first throws, the other gets the event. *)
Lemma dispatch_isolates_failures_witness :
  let b := snd (subscribe [] None (Some 0%nat) (snd (subscribe [] None (Some 7%nat) new))) in
  let '(os, w) := outcomes (ev "a") (hash_order (subscriptions_ b)) [] in
  os = [Failed; Delivered] /\ w = [(7%nat, "a")] /\
  dispatchToSubscribers (Some (ev "a")) b = upd_world w (upd_stats (add_tallies os) b).
Proof.
  intros b. pose proof (dispatch_isolates_failures (ev "a") b) as H.
  change (notify (BeforeDispatch (ev "a")) (observers_ b) (world b)) with ([] : list (nat * string)) in H.
  assert (E : outcomes (ev "a") (hash_order (subscriptions_ b)) [] = ([Failed; Delivered], [(7%nat, "a")]))
    by (vm_compute; reflexivity).
  cbv zeta in H. rewrite E in H |- *.
  destruct H as (_ & _ & H); [split; [discriminate|reflexivity]..|]. split_and!; [reflexivity..|exact H].
Defined.
