(* ===== verification/EventPolicies.v ===== *)
(** * Policies in front of the event bus (src/core/event/adapters/ThrottlingPolicy,
      CoalescingPolicy, src/core/event/priority/BackpressurePolicy.h,
      src/core/event/core/EventPriority.h)

    Throttling is compared with a definition that looks at the whole history of
    calls; coalescing is shown to keep the order and the newest event of every
    type.  Each call holds the policy's mutex, so a call is one step; [now] is
    the reading of the clock in milliseconds. *)

From S2P Require Import Prelude EventQueue.

(** ** ThrottlingPolicy *)

Module Throttling.

Record ThrottlingPolicy := mkThrottling {
  throttle_interval_ms_ : Z;
  last_sent_time_ : gmap string Z
}.

Definition newThrottlingPolicy (throttle_interval_ms : Z) : ThrottlingPolicy :=
  mkThrottling throttle_interval_ms ∅.

Definition set_sent (m : gmap string Z) (p : ThrottlingPolicy) : ThrottlingPolicy :=
  mkThrottling (throttle_interval_ms_ p) m.

Definition shouldSend (now : Z) (event_type : string) (p : ThrottlingPolicy) : bool * ThrottlingPolicy :=
  match last_sent_time_ p !! event_type with
  | None => (true, set_sent (<[event_type := now]> (last_sent_time_ p)) p)
  | Some last =>
    let time_since_last := u64 (now - last) in
    if throttle_interval_ms_ p <=? time_since_last
    then (true, set_sent (<[event_type := now]> (last_sent_time_ p)) p)
    else (false, p)
  end.

Definition reset (p : ThrottlingPolicy) : ThrottlingPolicy := set_sent ∅ p.
Definition resetEventType (event_type : string) (p : ThrottlingPolicy) : ThrottlingPolicy :=
  set_sent (delete event_type (last_sent_time_ p)) p.

Inductive Op :=
| Send (event_type : string) (now : Z)
| Reset
| ResetType (event_type : string).

(** The decisions of a policy on a sequence of calls. *)
Fixpoint decisions (os : list Op) (p : ThrottlingPolicy) : list bool :=
  match os with
  | [] => []
  | Send t now :: os => let '(ok, p) := shouldSend now t p in ok :: decisions os p
  | Reset :: os => decisions os (reset p)
  | ResetType t :: os => decisions os (resetEventType t p)
  end.

(** The reference: [sent] is every event sent since the last reset of its type;
    an event may be sent when none of its type was sent within the interval. *)
Definition may_send (interval : Z) (sent : list (string * Z)) (t : string) (now : Z) : bool :=
  forallb (λ '(t', n), negb (bool_decide (t' = t)) || (interval <=? now - n)) sent.

Fixpoint reference (interval : Z) (os : list Op) (sent : list (string * Z)) : list bool :=
  match os with
  | [] => []
  | Send t now :: os =>
    let ok := may_send interval sent t now in
    ok :: reference interval os (if ok then (t, now) :: sent else sent)
  | Reset :: os => reference interval os []
  | ResetType t :: os => reference interval os (filter (λ x, fst x <> t) sent)
  end.

Definition times (os : list Op) : list Z :=
  omap (λ o, match o with Send _ now => Some now | _ => None end) os.

(** The table holds the latest time of each type. *)
Definition agrees (now : Z) (sent : list (string * Z)) (m : gmap string Z) : Prop :=
  forall t, match m !! t with
            | None => forall n, (t, n) ∉ sent
            | Some last => (t, last) ∈ sent /\ 0 <= last <= now /\ forall n, (t, n) ∈ sent -> n <= last
            end.

Lemma agrees_empty now : agrees now [] ∅.
Proof. intros t. rewrite lookup_empty. intros n. apply not_elem_of_nil. Qed.

Lemma agrees_later now now' sent m : agrees now sent m -> now <= now' -> agrees now' sent m.
Proof.
  intros Ha Hn t. specialize (Ha t). destruct (m !! t); [|done]. naive_solver lia.
Qed.

Lemma agrees_send now sent m t :
  agrees now sent m -> 0 <= now -> agrees now ((t, now) :: sent) (<[t := now]> m).
Proof.
  intros Ha Hn t'. specialize (Ha t'). destruct (decide (t' = t)) as [->|Hne].
  - rewrite lookup_insert_eq. split; [set_solver|]. split; [lia|].
    intros n [[= ->]|Hin]%elem_of_cons; [lia|]. destruct (m !! t).
    + destruct Ha as (_ & ? & Hl). specialize (Hl n Hin). lia.
    + by destruct (Ha n).
  - rewrite lookup_insert_ne by done. destruct (m !! t').
    + destruct Ha as (? & ? & Hl). split; [set_solver|]. split; [done|].
      intros n' [?|?]%elem_of_cons; [congruence|auto].
    + intros n [?|?]%elem_of_cons; [congruence|]. by eapply Ha.
Qed.

Lemma agrees_reset now sent m t :
  agrees now sent m -> agrees now (filter (λ x, fst x <> t) sent) (delete t m).
Proof.
  intros Ha t'. specialize (Ha t'). destruct (decide (t' = t)) as [->|Hne].
  - rewrite lookup_delete_eq. intros n [? _]%list_elem_of_filter. done.
  - rewrite lookup_delete_ne by done. destruct (m !! t').
    + destruct Ha as (? & ? & Hl). split; [by apply list_elem_of_filter|]. split; [done|].
      intros n [_ ?]%list_elem_of_filter. auto.
    + intros n [_ ?]%list_elem_of_filter. by eapply Ha.
Qed.

Lemma shouldSend_may_send now sent t p :
  agrees now sent (last_sent_time_ p) -> 0 <= now < 2 ^ 64 ->
  let ok := may_send (throttle_interval_ms_ p) sent t now in
  shouldSend now t p = (ok, if ok then set_sent (<[t := now]> (last_sent_time_ p)) p else p).
Proof.
  intros Ha Hn ok. specialize (Ha t). unfold shouldSend.
  assert (Hok : ok = match last_sent_time_ p !! t with
                     | None => true
                     | Some last => throttle_interval_ms_ p <=? now - last
                     end).
  { unfold ok, may_send. destruct (last_sent_time_ p !! t) as [last|].
    - destruct Ha as (Hin & _ & Hmax). apply eq_bool_prop_intro. rewrite forallb_True, Forall_forall.
      split.
      + intros H. specialize (H _ Hin). simpl in H. by rewrite bool_decide_true in H.
      + intros H [t' n] Hx. destruct (decide (t' = t)) as [->|Hne].
        * specialize (Hmax n Hx). rewrite bool_decide_true by done. simpl.
          apply Is_true_true in H. to_prop. apply Is_true_true, Z.leb_le. lia.
        * by rewrite bool_decide_false.
    - apply eq_bool_prop_intro. rewrite forallb_True, Forall_forall. split; [done|].
      intros _ [t' n] Hx. destruct (decide (t' = t)) as [->|Hne]; [by destruct (Ha n)|].
      by rewrite bool_decide_false. }
  rewrite Hok. destruct (last_sent_time_ p !! t) as [last|]; [|done].
  destruct Ha as (_ & ? & _). rewrite u64_small by (unfold in_u64; lia). by case_match.
Qed.

(** C28: throttling as documented.  With a clock that does not go back, the
    policy sends an event exactly when no event of its type was sent in the last
    interval since the last reset of the type: two sends of one type are at
    least an interval apart, and no event is held back without need. *)
Theorem throttling_matches_reference interval os :
  StronglySorted Z.le (times os) -> Forall (λ t, 0 <= t < 2 ^ 64) (times os) ->
  decisions os (newThrottlingPolicy interval) = reference interval os [].
Proof.
  enough (H : forall now sent p, agrees now sent (last_sent_time_ p) -> throttle_interval_ms_ p = interval ->
    Forall (Z.le now) (times os) -> StronglySorted Z.le (times os) ->
    Forall (λ t, 0 <= t < 2 ^ 64) (times os) -> decisions os p = reference interval os sent).
  { intros Hs Hb. apply (H 0 []); [|done| |done|done].
    - apply agrees_empty.
    - eapply Forall_impl; [exact Hb|]. simpl. lia. }
  induction os as [|[t n| |t] os IH]; intros now sent p Ha Hi Hn Hs Hb; [done|..]; simpl in *.
  - apply Forall_cons in Hn as [Hn Hn']. apply StronglySorted_inv in Hs as [Hs Hall].
    apply Forall_cons in Hb as [Hb Hb']. pose proof (agrees_later _ n _ _ Ha Hn) as Ha'.
    rewrite (shouldSend_may_send n sent t p Ha' Hb), Hi. f_equal.
    destruct (may_send interval sent t n); apply (IH n); try done. by apply agrees_send; [|lia].
  - apply (IH now); try done. apply agrees_empty.
  - apply (IH now); try done. by apply agrees_reset.
Qed.

Lemma throttling_matches_reference_witness :
  let os := [Send "temp" 0; Send "temp" 99; Send "pos" 99; Send "temp" 100; ResetType "temp"; Send "temp" 101] in
  decisions os (newThrottlingPolicy 100) = [true; false; true; true; true] /\
  decisions os (newThrottlingPolicy 100) = reference 100 os [].
Proof.
  split; [reflexivity|]. apply throttling_matches_reference; repeat constructor; lia.
Defined.
End Throttling.

(** ** CoalescingPolicy *)

Module Coalescing.

Record CoalescingPolicy (A : Type) := mkCoalescing {
  coalesce_window_ms_ : Z;
  pending_events_ : gmap string (PrioritizedEvent A * Z)
}.
Arguments mkCoalescing {A}.
Arguments coalesce_window_ms_ {A} _.
Arguments pending_events_ {A} _.

(** The order in which the hash table of pending events is traversed. *)
Class PendingOrder (A : Type) :=
  pending_order : gmap string (PrioritizedEvent A * Z) -> list (string * (PrioritizedEvent A * Z)).
Class PendingOrderLaws (A : Type) `{!PendingOrder A} : Prop :=
  pending_order_perm m : pending_order m ≡ₚ map_to_list m.

Section Coalescing.
Context {A : Type} `{!PendingOrder A}.
Abbreviation Event := (PrioritizedEvent A).
Implicit Types (e : Event) (p : CoalescingPolicy A).

Definition newCoalescingPolicy (coalesce_window_ms : Z) : CoalescingPolicy A :=
  mkCoalescing coalesce_window_ms ∅.

Definition set_pending (m : gmap string (Event * Z)) p : CoalescingPolicy A :=
  mkCoalescing (coalesce_window_ms_ p) m.

Definition coalesce (now : Z) e p : option Event * CoalescingPolicy A :=
  match pending_events_ p !! ev_type e with
  | Some (old, timestamp_ms) =>
    let time_since_pending := u64 (now - timestamp_ms) in
    if coalesce_window_ms_ p <=? time_since_pending
    then (Some old, set_pending (<[ev_type e := (e, now)]> (pending_events_ p)) p)
    else (None, set_pending (<[ev_type e := (e, timestamp_ms)]> (pending_events_ p)) p)
  | None => (None, set_pending (<[ev_type e := (e, now)]> (pending_events_ p)) p)
  end.

Definition flush p : list Event * CoalescingPolicy A :=
  ((λ x, fst (snd x)) <$> pending_order (pending_events_ p), set_pending ∅ p).

Definition flushEventType (event_type : string) p : option Event * CoalescingPolicy A :=
  match pending_events_ p !! event_type with
  | Some (e, _) => (Some e, set_pending (delete event_type (pending_events_ p)) p)
  | None => (None, p)
  end.

Definition getPendingCount p : nat := base.size (pending_events_ p).

Inductive Op :=
| Coalesce (e : Event) (now : Z)
| Flush
| FlushType (event_type : string).

Definition exec (o : Op) p : list Event * CoalescingPolicy A :=
  match o with
  | Coalesce e now => let '(r, p) := coalesce now e p in (option_list r, p)
  | Flush => flush p
  | FlushType t => let '(r, p) := flushEventType t p in (option_list r, p)
  end.

(** Everything that comes out of a sequence of calls, in order. *)
Fixpoint outputs (os : list Op) p : list Event * CoalescingPolicy A :=
  match os with
  | [] => ([], p)
  | o :: os => let '(r, p) := exec o p in let '(rs, p) := outputs os p in (r ++ rs, p)
  end.

Definition inputs (os : list Op) : list Event :=
  omap (λ o, match o with Coalesce e _ => Some e | _ => None end) os.

Definition of_type (t : string) (l : list Event) : list Event := filter (λ e, ev_type e = t) l.

(** What a policy still holds of a type. *)
Definition held (t : string) p : list Event := option_list (fst <$> pending_events_ p !! t).

Definition keyed p : Prop :=
  forall t e n, pending_events_ p !! t = Some (e, n) -> ev_type e = t.

Context `{!PendingOrderLaws A}.

Lemma of_type_flush t p : keyed p -> of_type t (fst (flush p)) = held t p.
Proof using PendingOrderLaws0.
  intros Hk. unfold flush, of_type, held. simpl.
  assert (Hp : filter (λ e, ev_type e = t) ((λ x, fst (snd x)) <$> map_to_list (pending_events_ p))
               ≡ₚ option_list (fst <$> pending_events_ p !! t)).
  { destruct p as [w m]. unfold keyed in Hk. simpl in *. induction m as [|k [e n] m Hm IH] using map_ind; [done|].
    rewrite map_to_list_insert by done. simpl. rewrite filter_cons.
    assert (Hke : ev_type e = k) by (by apply (Hk k e n), lookup_insert_eq).
    specialize (IH ltac:(intros t' e' n' H; apply (Hk t' e' n'); rewrite lookup_insert_ne; [done|congruence])).
    case_decide as Hd.
    - subst. rewrite lookup_insert_eq. rewrite Hm in IH. constructor. exact IH.
    - rewrite lookup_insert_ne by congruence. exact IH. }
  rewrite <- (pending_order_perm (pending_events_ p)) in Hp.
  destruct (pending_events_ p !! t) as [[e n]|]; simpl in *.
  - by apply Permutation_singleton_r in Hp.
  - by apply Permutation_nil_r in Hp.
Qed.

(** [l'] keeps the order and the last element of [l]. *)
Definition condenses (l' l : list Event) : Prop := l' `sublist_of` l /\ last l' = last l.

Lemma condenses_refl l : condenses l l.
Proof. done. Qed.

Lemma condenses_app l1 l1' l2 l2' r :
  condenses (r ++ l1') l1 -> condenses l2' (l1' ++ l2) -> condenses (r ++ l2') (l1 ++ l2).
Proof.
  intros [S1 L1] [S2 L2]. split.
  - transitivity (r ++ l1' ++ l2); [by apply sublist_app|]. rewrite app_assoc. by apply sublist_app.
  - rewrite last_app, L2, !last_app. rewrite last_app in L1. destruct (last l2); [done|].
    by destruct (last l1').
Qed.

Lemma held_insert t e n p :
  held t (set_pending (<[ev_type e := (e, n)]> (pending_events_ p)) p) =
  if bool_decide (ev_type e = t) then [e] else held t p.
Proof.
  unfold held. simpl. case_bool_decide as H; [by rewrite <- H, lookup_insert_eq|].
  by rewrite lookup_insert_ne.
Qed.

Lemma of_type_one t e : of_type t [e] = if bool_decide (ev_type e = t) then [e] else [].
Proof. unfold of_type. rewrite filter_cons. case_bool_decide; by case_decide. Qed.

Lemma keyed_insert e n p : keyed p -> keyed (set_pending (<[ev_type e := (e, n)]> (pending_events_ p)) p).
Proof.
  intros Hk t e' n'. simpl. intros [[? ?]|[_ ?]]%lookup_insert_Some; [congruence|by eapply Hk].
Qed.

Lemma exec_condenses t o p :
  keyed p ->
  keyed (snd (exec o p)) /\
  condenses (of_type t (fst (exec o p)) ++ held t (snd (exec o p))) (held t p ++ of_type t (inputs [o])).
Proof using PendingOrderLaws0.
  intros Hk. destruct o as [e now| |t']; simpl.
  - unfold coalesce. destruct (pending_events_ p !! ev_type e) as [[old ts]|] eqn:E.
    + pose proof (Hk _ _ _ E) as Hold.
      destruct (coalesce_window_ms_ p <=? u64 (now - ts)); simpl; (split; [by apply keyed_insert|]);
        rewrite held_insert, !of_type_one, ?Hold;
        (case_bool_decide as Ht; [subst t; unfold held; rewrite E|rewrite app_nil_r; apply condenses_refl]).
      * apply condenses_refl.
      * split; [apply sublist_cons; reflexivity|done].
    + simpl. split; [by apply keyed_insert|]. rewrite held_insert, of_type_one.
      case_bool_decide as Ht; [subst t; unfold held; rewrite E|rewrite app_nil_r]; apply condenses_refl.
  - split; [done|].
    pose proof (of_type_flush t p Hk) as Hf. simpl in Hf. rewrite Hf, !app_nil_r. apply condenses_refl.
  - unfold flushEventType. destruct (pending_events_ p !! t') as [[e n]|] eqn:E; simpl.
    + split; [intros ???; simpl; intros [_ ?]%lookup_delete_Some; by eapply Hk|].
      rewrite of_type_one, (Hk _ _ _ E), app_nil_r. unfold held. simpl.
      case_bool_decide as Ht; [subst; rewrite lookup_delete_eq, E|rewrite lookup_delete_ne by done];
        apply condenses_refl.
    + split; [done|]. rewrite app_nil_r. apply condenses_refl.
Qed.

Lemma outputs_condense t os p :
  keyed p ->
  condenses (of_type t (fst (outputs os p)) ++ held t (snd (outputs os p)))
            (held t p ++ of_type t (inputs os)).
Proof using PendingOrderLaws0.
  revert p. induction os as [|o os IH]; intros p Hk.
  { rewrite app_nil_r. apply condenses_refl. }
  destruct (exec_condenses t o p Hk) as [Hk' Hc].
  assert (Hin : inputs (o :: os) = inputs [o] ++ inputs os) by apply (omap_app _ [o] os).
  assert (Happ : forall l1 l2, of_type t (l1 ++ l2) = of_type t l1 ++ of_type t l2) by apply filter_app.
  rewrite Hin, Happ, (app_assoc (held t p)). cbn [outputs]. destruct (exec o p) as [r p'].
  specialize (IH p' Hk'). destruct (outputs os p') as [rs p'']. cbn [fst snd] in *.
  rewrite Happ, <- app_assoc. by eapply condenses_app.
Qed.

(** Coalescing keeps the order and the newest event.  For every type, after
    any sequence of calls, the events that came out followed by the one still
    pending are a subsequence of the events that went in, and end with the last
    one that went in: an event is only ever dropped for a newer one of its type,
    none is duplicated, and a flush brings out the newest. *)
Theorem coalescing_keeps_order_and_newest t os window :
  let '(outs, p) := outputs os (newCoalescingPolicy window) in
  (of_type t outs ++ held t p) `sublist_of` of_type t (inputs os) /\
  last (of_type t outs ++ held t p) = last (of_type t (inputs os)).
Proof.
  pose proof (outputs_condense t os (newCoalescingPolicy window) ltac:(done)) as H.
  by destruct (outputs os _).
Qed.
End Coalescing.

(** ** Example *)

#[export] Instance list_order {A} : PendingOrder A := map_to_list.
#[export] Instance list_order_laws {A} : PendingOrderLaws A.
Proof. intros m. reflexivity. Defined.

Definition ev (t : string) (n : Z) : PrioritizedEvent unit := mkEvent t EP_NORMAL tt n n None None.

(** The second "temp" replaces the first; the third comes after the window and
    pushes it out; the flush brings the rest. *)
Lemma coalescing_keeps_order_and_newest_witness :
  let os := [Coalesce (ev "temp" 1) 0; Coalesce (ev "temp" 2) 50; Coalesce (ev "pos" 3) 60;
             Coalesce (ev "temp" 4) 100; Flush] in
  of_type "temp" (fst (outputs os (newCoalescingPolicy 100))) = [ev "temp" 2; ev "temp" 4] /\
  let '(outs, p) := outputs os (newCoalescingPolicy 100) in
  last (of_type "temp" outs ++ held "temp" p) = last (of_type "temp" (inputs os)).
Proof.
  intros os. split; [reflexivity|].
  pose proof (coalescing_keeps_order_and_newest "temp" os 100) as H.
  destruct (outputs os (newCoalescingPolicy 100)). apply H.
Defined.
End Coalescing.

(** ** Backpressure thresholds *)

Module Backpressure.

Inductive BackpressurePolicy := DROP_OLDEST | DROP_NEWEST | BLOCK.

Definition toString (policy : BackpressurePolicy) : string :=
  match policy with
  | DROP_OLDEST => "DROP_OLDEST"
  | DROP_NEWEST => "DROP_NEWEST"
  | BLOCK => "BLOCK"
  end.

(** The thresholds are doubles, given in units of [2^-53] (each of the values
    in use is a multiple of it). *)
Record BackpressureThresholds := mkThresholds {
  low_priority_threshold : Z;
  normal_priority_threshold : Z;
  high_priority_threshold : Z
}.

Definition one : Z := 2 ^ 53.

Definition isValid (t : BackpressureThresholds) : bool :=
  ((0 <=? low_priority_threshold t) && (low_priority_threshold t <=? one)) &&
  ((0 <=? normal_priority_threshold t) && (normal_priority_threshold t <=? one)) &&
  ((0 <=? high_priority_threshold t) && (high_priority_threshold t <=? one)) &&
  (low_priority_threshold t <? normal_priority_threshold t) &&
  (normal_priority_threshold t <=? high_priority_threshold t).

Definition getDefaultThresholds : BackpressureThresholds :=
  mkThresholds double_0_8 double_0_9 one.

(** The queue's own thresholds are the default ones applied to its capacity:
    the configuration record and [PriorityQueue] agree. *)
Lemma default_thresholds_are_the_queues {A} (c : Z) :
  isValid getDefaultThresholds = true /\
  drop_threshold_80_ (newPriorityQueue (A := A) c) =
    double_mul_floor c (low_priority_threshold getDefaultThresholds) /\
  drop_threshold_90_ (newPriorityQueue (A := A) c) =
    double_mul_floor c (normal_priority_threshold getDefaultThresholds).
Proof. done. Qed.
End Backpressure.
