(* ===== verification/RingQueue.v ===== *)
(** * Lock-free ring queues (src/core/event/util/LockFreeQueue.h,
      MPSCLockFreeQueue.h)

    Both queues share a ring buffer with a write and a read position.  Threads
    interleave at the level of single loads, stores and compare-exchanges of
    the shared variables (sequentially consistent); a schedule says which
    thread moves next.  The single-producer queue is shown to be a FIFO under
    every schedule; the multi-producer queue publishes a slot before it has
    written it. *)

From S2P Require Import Prelude.

(** ** The shared ring *)

Record Ring (T : Type) := mkRing {
  buffer_ : list T;
  writePos_ : nat;
  readPos_ : nat;
  ring_capacity_ : nat
}.
Arguments mkRing {T}.
Arguments buffer_ {T} _.
Arguments writePos_ {T} _.
Arguments readPos_ {T} _.
Arguments ring_capacity_ {T} _.

Section Ring.
Context {T : Type}.
Implicit Types (q : Ring T) (l : list T).

(** [buffer_(capacity)] holds value-initialised elements. *)
Definition new_ring (dflt : T) (capacity : nat) : Ring T := mkRing (replicate capacity dflt) 0 0 capacity.

Definition next_pos q (p : nat) : nat := ((p + 1) mod ring_capacity_ q)%nat.

Definition store_slot (p : nat) (x : T) q :=
  mkRing (<[p := x]> (buffer_ q)) (writePos_ q) (readPos_ q) (ring_capacity_ q).
Definition store_write (p : nat) q := mkRing (buffer_ q) p (readPos_ q) (ring_capacity_ q).
Definition store_read (p : nat) q := mkRing (buffer_ q) (writePos_ q) p (ring_capacity_ q).

Definition ring_size q : nat :=
  if (readPos_ q <=? writePos_ q)%nat then (writePos_ q - readPos_ q)%nat
  else (ring_capacity_ q - readPos_ q + writePos_ q)%nat.

Definition ring_empty q : bool := (readPos_ q =? writePos_ q)%nat.

(** *** The contents of the ring *)

(** Position of the [i]-th element; the two segments of a wrapped ring. *)
Definition slot_of q (i : nat) : nat := ((readPos_ q + i) mod ring_capacity_ q)%nat.

Record holds q l : Prop := {
  h_cap : (0 < ring_capacity_ q)%nat;
  h_len : length (buffer_ q) = ring_capacity_ q;
  h_read : (readPos_ q < ring_capacity_ q)%nat;
  h_write : writePos_ q = ((readPos_ q + length l) mod ring_capacity_ q)%nat;
  h_fit : (length l < ring_capacity_ q)%nat;
  h_slots : forall i x, l !! i = Some x -> buffer_ q !! slot_of q i = Some x
}.

Lemma mod_add_le a b c :
  (a < c)%nat -> (b < c)%nat -> ((a + b) mod c = if a + b <? c then a + b else a + b - c)%nat.
Proof.
  intros Ha Hb. destruct (Nat.ltb_spec (a + b) c); [by apply Nat.mod_small|].
  symmetry. apply (Nat.mod_unique (a + b) c 1); lia.
Qed.

Lemma slot_of_inj q i j :
  (i < ring_capacity_ q)%nat -> (j < ring_capacity_ q)%nat -> (readPos_ q < ring_capacity_ q)%nat ->
  slot_of q i = slot_of q j -> i = j.
Proof.
  intros Hi Hj Hr. unfold slot_of. rewrite !mod_add_le by done.
  repeat case_match; to_prop; rewrite ?Nat.ltb_lt, ?Nat.ltb_ge in *; lia.
Qed.

Lemma holds_new dflt cap : (0 < cap)%nat -> holds (new_ring dflt cap) [].
Proof.
  intros Hc. constructor; simpl; try done.
  - apply length_replicate.
  - by rewrite Nat.mod_small.
Qed.

Lemma holds_write_lt q l : holds q l -> (writePos_ q < ring_capacity_ q)%nat.
Proof. intros [Hc _ _ -> _ _]. apply Nat.mod_upper_bound. lia. Qed.

(** Writing the slot at the write position does not disturb the contents. *)
Lemma holds_store_slot q l x : holds q l -> holds (store_slot (writePos_ q) x q) l.
Proof.
  intros [Hc Hl Hr Hw Hf Hs]. constructor; simpl; try done.
  { by rewrite length_insert. }
  intros i y Hi. rewrite list_lookup_insert_ne; [by apply Hs|].
  pose proof (lookup_lt_Some _ _ _ Hi) as Hlt. rewrite Hw. fold (slot_of q (length l)).
  intros Heq. unfold slot_of in *. simpl in Heq.
  apply (slot_of_inj q (length l) i) in Heq; [lia|lia|lia|done].
Qed.

(** Publishing a written slot appends its element. *)
Lemma holds_store_write q l x :
  holds q l -> (length l < ring_capacity_ q - 1)%nat -> buffer_ q !! writePos_ q = Some x ->
  holds (store_write (next_pos q (writePos_ q)) q) (l ++ [x]).
Proof.
  intros [Hc Hl Hr Hw Hf Hs] Hfit Hx. constructor; simpl; try done.
  - unfold next_pos. rewrite Hw, length_app. simpl.
    rewrite Nat.Div0.add_mod_idemp_l. f_equal. lia.
  - rewrite length_app. simpl. lia.
  - intros i y [Hi|[Hi Hy]]%lookup_app_Some; [by apply Hs|].
    destruct (i - length l)%nat eqn:E; simplify_eq/=.
    replace i with (length l) by lia. unfold slot_of. simpl. by rewrite <- Hw.
Qed.

(** Moving the read position drops the head. *)
Lemma holds_store_read q l x :
  holds q (x :: l) -> holds (store_read (next_pos q (readPos_ q)) q) l.
Proof.
  intros [Hc Hl Hr Hw Hf Hs]. simpl in *. constructor; simpl; try done.
  - apply Nat.mod_upper_bound. lia.
  - unfold next_pos. rewrite Hw, Nat.Div0.add_mod_idemp_l. f_equal. lia.
  - lia.
  - intros i y Hi. specialize (Hs (S i) y Hi). rewrite <- Hs. f_equal.
    unfold slot_of, next_pos. simpl. rewrite Nat.Div0.add_mod_idemp_l. f_equal. lia.
Qed.

Lemma holds_head q l x : holds q (x :: l) -> buffer_ q !! readPos_ q = Some x.
Proof.
  intros [Hc Hl Hr Hw Hf Hs]. specialize (Hs 0%nat x eq_refl). unfold slot_of in Hs.
  rewrite Nat.add_0_r, Nat.mod_small in Hs by done. done.
Qed.

Lemma holds_full q l :
  holds q l -> next_pos q (writePos_ q) = readPos_ q <-> length l = (ring_capacity_ q - 1)%nat.
Proof.
  intros [Hc Hl Hr Hw Hf Hs]. unfold next_pos. rewrite Hw, Nat.Div0.add_mod_idemp_l, <- Nat.add_assoc.
  destruct (decide (length l + 1 = ring_capacity_ q)%nat) as [E|E].
  - rewrite E. replace (readPos_ q + ring_capacity_ q)%nat with (readPos_ q + 1 * ring_capacity_ q)%nat by lia.
    rewrite Nat.Div0.mod_add, Nat.mod_small by done. lia.
  - rewrite mod_add_le by lia. case_match; rewrite ?Nat.ltb_lt, ?Nat.ltb_ge in *; lia.
Qed.

Lemma holds_empty q l : holds q l -> readPos_ q = writePos_ q <-> l = [].
Proof.
  intros [Hc Hl Hr Hw Hf Hs]. rewrite Hw, mod_add_le by done. destruct l as [|x l]; simpl in *.
  - rewrite Nat.add_0_r. case_match; rewrite ?Nat.ltb_lt, ?Nat.ltb_ge in *; [done|lia].
  - case_match; rewrite ?Nat.ltb_lt, ?Nat.ltb_ge in *; (split; [lia|done]).
Qed.

Lemma holds_size q l : holds q l -> ring_size q = length l.
Proof.
  intros [Hc Hl Hr Hw Hf Hs]. unfold ring_size. rewrite Hw, mod_add_le by done.
  repeat case_match; rewrite ?Nat.ltb_lt, ?Nat.ltb_ge, ?Nat.leb_le, ?Nat.leb_gt in *; lia.
Qed.

(** ** The abstract queue: what the observable results may be *)

Inductive QueueEvent :=
| Pushed (x : T)
| PushFull (x : T)
| Popped (x : T)
| PopEmpty.

(** A FIFO that holds at most [cap - 1] elements. *)
Inductive fifo_step (cap : nat) : list T -> QueueEvent -> list T -> Prop :=
| fifo_push l x : (length l < cap - 1)%nat -> fifo_step cap l (Pushed x) (l ++ [x])
| fifo_full l x : length l = (cap - 1)%nat -> fifo_step cap l (PushFull x) l
| fifo_pop l x : fifo_step cap (x :: l) (Popped x) l
| fifo_empty : fifo_step cap [] PopEmpty [].

Inductive fifo_trace (cap : nat) (l0 : list T) : list QueueEvent -> list T -> Prop :=
| trace_nil : fifo_trace cap l0 [] l0
| trace_snoc evs l ev l' :
  fifo_trace cap l0 evs l -> fifo_step cap l ev l' -> fifo_trace cap l0 (evs ++ [ev]) l'.

Lemma fifo_trace_app cap l0 evs l evs' l' :
  fifo_trace cap l0 evs l -> fifo_trace cap l evs' l' -> fifo_trace cap l0 (evs ++ evs') l'.
Proof.
  intros H1 H2. induction H2 as [|evs' l1 ev l2 H2 IH Hs]; [by rewrite app_nil_r|].
  rewrite app_assoc. by econstructor.
Qed.

Definition pushed_items (evs : list QueueEvent) : list T :=
  omap (λ ev, match ev with Pushed x => Some x | _ => None end) evs.
Definition popped_items (evs : list QueueEvent) : list T :=
  omap (λ ev, match ev with Popped x => Some x | _ => None end) evs.

(** In a FIFO trace the popped items are the first pushed ones, in order. *)
Lemma fifo_trace_order cap evs l :
  fifo_trace cap [] evs l -> pushed_items evs = popped_items evs ++ l.
Proof.
  induction 1 as [|evs l ev l' _ IH Hs]; [done|].
  unfold pushed_items, popped_items in *. rewrite !omap_app.
  rewrite IH. inversion Hs; subst; simpl; rewrite ?app_nil_r; try done; by rewrite <- app_assoc.
Qed.

(** ** SPSCLockFreeQueue: one producer and one consumer thread

    Each constructor is the point before one access to a shared variable. *)

Inductive ProducerPc :=
| PIdle
| PLoaded (x : T) (currentWrite : nat)       (* before readPos_.load *)
| PChecked (x : T) (currentWrite : nat)      (* before buffer_[currentWrite] = item *)
| PWritten (x : T) (currentWrite : nat).     (* before writePos_.store *)

Inductive ConsumerPc :=
| CIdle
| CLoaded (currentRead : nat)                (* before writePos_.load *)
| CChecked (currentRead : nat)               (* before item = buffer_[currentRead] *)
| CRead (x : T) (currentRead : nat).         (* before readPos_.store *)

(** The next access of [tryPush]; an idle producer starts pushing [x]. *)
Definition producer_step (x : T) (pc : ProducerPc) q : ProducerPc * Ring T * list QueueEvent :=
  match pc with
  | PIdle => (PLoaded x (writePos_ q), q, [])
  | PLoaded y w => if (next_pos q w =? readPos_ q)%nat then (PIdle, q, [PushFull y])
                   else (PChecked y w, q, [])
  | PChecked y w => (PWritten y w, store_slot w y q, [])
  | PWritten y w => (PIdle, store_write (next_pos q w) q, [Pushed y])
  end.

(** The next access of [tryPop]; reading outside the buffer does not occur. *)
Definition consumer_step (pc : ConsumerPc) q : ConsumerPc * Ring T * list QueueEvent :=
  match pc with
  | CIdle => (CLoaded (readPos_ q), q, [])
  | CLoaded r => if (r =? writePos_ q)%nat then (CIdle, q, [PopEmpty]) else (CChecked r, q, [])
  | CChecked r => match buffer_ q !! r with
                  | Some x => (CRead x r, q, [])
                  | None => (CChecked r, q, [])
                  end
  | CRead x r => (CIdle, store_read (next_pos q r) q, [Popped x])
  end.

Record SPSC := mkSPSC { producer : ProducerPc; consumer : ConsumerPc; ring : Ring T }.

Inductive Turn :=
| ProducerTurn (x : T)
| ConsumerTurn.

Definition spsc_turn (t : Turn) (s : SPSC) : SPSC * list QueueEvent :=
  match t with
  | ProducerTurn x =>
    let '(pc, q, evs) := producer_step x (producer s) (ring s) in
    (mkSPSC pc (consumer s) q, evs)
  | ConsumerTurn =>
    let '(pc, q, evs) := consumer_step (consumer s) (ring s) in
    (mkSPSC (producer s) pc q, evs)
  end.

Fixpoint spsc_run (ts : list Turn) (s : SPSC) : SPSC * list QueueEvent :=
  match ts with
  | [] => (s, [])
  | t :: ts =>
    let '(s, evs) := spsc_turn t s in let '(s, evs') := spsc_run ts s in (s, evs ++ evs')
  end.

Definition newSPSC (dflt : T) (capacity : nat) : SPSC := mkSPSC PIdle CIdle (new_ring dflt capacity).

(** *** The simulation invariant *)

Definition producer_ok (pc : ProducerPc) q l : Prop :=
  match pc with
  | PIdle => True
  | PLoaded _ w => w = writePos_ q
  | PChecked _ w => w = writePos_ q /\ (length l < ring_capacity_ q - 1)%nat
  | PWritten x w => w = writePos_ q /\ (length l < ring_capacity_ q - 1)%nat /\
                    buffer_ q !! w = Some x
  end.

Definition consumer_ok (pc : ConsumerPc) q l : Prop :=
  match pc with
  | CIdle => True
  | CLoaded r => r = readPos_ q
  | CChecked r => r = readPos_ q /\ l <> []
  | CRead x r => r = readPos_ q /\ head l = Some x
  end.

Record spsc_ok (cap : nat) (s : SPSC) l : Prop := {
  s_cap : ring_capacity_ (ring s) = cap;
  s_holds : holds (ring s) l;
  s_producer : producer_ok (producer s) (ring s) l;
  s_consumer : consumer_ok (consumer s) (ring s) l
}.

Lemma producer_sim cap x s l :
  spsc_ok cap s l ->
  let '(pc, q, evs) := producer_step x (producer s) (ring s) in
  exists l', fifo_trace cap l evs l' /\ spsc_ok cap (mkSPSC pc (consumer s) q) l'.
Proof.
  intros [Hcap Hh Hp Hc]. destruct s as [ppc cpc q]. simpl in *.
  destruct ppc as [|y w|y w|y w]; simpl in *.
  - exists l. split; [constructor|by constructor].
  - subst w. destruct (Nat.eqb_spec (next_pos q (writePos_ q)) (readPos_ q)) as [E|E];
      rewrite (holds_full q l Hh) in E.
    + exists l. split; [|by constructor]. apply (trace_snoc cap l [] l); constructor. by rewrite E, Hcap.
    + exists l. split; [constructor|]. constructor; try done. simpl. split; [done|].
      destruct Hh. lia.
  - destruct Hp as [-> Hlt]. exists l. split; [constructor|]. constructor; simpl; try done.
    + by apply holds_store_slot.
    + split_and!; [done..|]. apply list_lookup_insert_eq.
      rewrite (h_len q l Hh). by apply (holds_write_lt q l).
  - destruct Hp as (-> & Hlt & Hx). exists (l ++ [y]). split.
    + apply (trace_snoc cap l [] l); [constructor|]. constructor. by rewrite <- Hcap.
    + constructor; simpl; try done.
      * by apply holds_store_write.
      * destruct cpc as [| | |v r]; simpl in *; try done.
        -- destruct Hc as [-> Hne]. split; [done|]. by destruct l.
        -- destruct Hc as [-> Hhd]. split; [done|]. by destruct l.
Qed.

Lemma consumer_sim cap s l :
  spsc_ok cap s l ->
  let '(pc, q, evs) := consumer_step (consumer s) (ring s) in
  exists l', fifo_trace cap l evs l' /\ spsc_ok cap (mkSPSC (producer s) pc q) l'.
Proof.
  intros [Hcap Hh Hp Hc]. destruct s as [ppc cpc q]. simpl in *.
  destruct cpc as [|r|r|v r]; simpl in *.
  - exists l. split; [constructor|by constructor].
  - subst r. destruct (Nat.eqb_spec (readPos_ q) (writePos_ q)) as [E|E];
      rewrite (holds_empty q l Hh) in E.
    + subst l. exists []. split; [|by constructor]. apply (trace_snoc cap [] [] []); constructor.
    + exists l. split; [constructor|]. by constructor.
  - destruct Hc as [-> Hne]. destruct l as [|v l]; [done|]. rewrite (holds_head q l v Hh).
    exists (v :: l). split; [constructor|]. by constructor.
  - destruct Hc as [-> Hhd]. destruct l as [|x l]; [done|]. injection Hhd as ->. exists l. split.
    + apply (trace_snoc cap (v :: l) [] (v :: l)); constructor.
    + constructor; simpl; try done.
      * exact (holds_store_read q l v Hh).
      * destruct ppc; simpl in *; try done; naive_solver lia.
Qed.

Lemma spsc_run_sim cap ts s l :
  spsc_ok cap s l ->
  exists l', fifo_trace cap l (snd (spsc_run ts s)) l' /\ spsc_ok cap (fst (spsc_run ts s)) l'.
Proof.
  revert s l. induction ts as [|t ts IH]; intros s l Hok; simpl.
  { exists l. split; [constructor|done]. }
  assert (Ht : exists l', fifo_trace cap l (snd (spsc_turn t s)) l' /\ spsc_ok cap (fst (spsc_turn t s)) l').
  { destruct t as [x|]; simpl.
    - pose proof (producer_sim cap x s l Hok) as H. by destruct (producer_step _ _ _) as [[pc q] evs].
    - pose proof (consumer_sim cap s l Hok) as H. by destruct (consumer_step _ _) as [[pc q] evs]. }
  destruct (spsc_turn t s) as [s' evs]. destruct Ht as (l1 & Ht & Hok').
  destruct (IH s' l1 Hok') as (l2 & H2 & Hok2). destruct (spsc_run ts s') as [s'' evs'].
  exists l2. split; [|done]. by eapply fifo_trace_app.
Qed.

(** C4: the single-producer queue is a bounded FIFO under every interleaving of
    the producer's and the consumer's memory accesses.  What the calls return
    is a trace of a FIFO of capacity - 1 elements: items are popped in the
    order they were pushed, none is lost, duplicated or invented, a push fails
    only when the queue is full and a pop only when it is empty; and size() of
    the ring is the number of items pushed and not yet popped. *)
Theorem spsc_queue_is_fifo dflt cap ts :
  (0 < cap)%nat ->
  let '(s, evs) := spsc_run ts (newSPSC dflt cap) in
  exists l, fifo_trace cap [] evs l /\ pushed_items evs = popped_items evs ++ l /\
    ring_size (ring s) = length l.
Proof.
  intros Hc. destruct (spsc_run_sim cap ts (newSPSC dflt cap) []) as (l & Ht & Hok).
  { constructor; try done. by apply holds_new. }
  destruct (spsc_run ts _) as [s evs]. exists l. split_and!; [done| |].
  - by eapply fifo_trace_order.
  - apply holds_size, (s_holds _ _ _ Hok).
Qed.

(** ** MPSCLockFreeQueue: any number of producers, one consumer *)

Inductive MProducerPc :=
| MIdle
| MStart (x : T)                             (* before writePos_.load *)
| MLoaded (x : T) (currentWrite : nat)       (* before readPos_.load *)
| MChecked (x : T) (currentWrite : nat)      (* before compare_exchange_strong *)
| MReserved (x : T) (currentWrite : nat).    (* before buffer_[currentWrite] = item *)

Definition mproducer_step (x : T) (pc : MProducerPc) q : MProducerPc * Ring T * list QueueEvent :=
  match pc with
  | MIdle => (MStart x, q, [])
  | MStart y => (MLoaded y (writePos_ q), q, [])
  | MLoaded y w => if (next_pos q w =? readPos_ q)%nat then (MIdle, q, [PushFull y])
                   else (MChecked y w, q, [])
  | MChecked y w => if (writePos_ q =? w)%nat then (MReserved y w, store_write (next_pos q w) q, [])
                    else (MStart y, q, [])
  | MReserved y w => (MIdle, store_slot w y q, [Pushed y])
  end.

Record MPSC := mkMPSC { producers : list MProducerPc; mconsumer : ConsumerPc; mring : Ring T }.

Inductive MTurn :=
| MProducerTurn (i : nat) (x : T)
| MConsumerTurn.

Definition mpsc_turn (t : MTurn) (s : MPSC) : MPSC * list QueueEvent :=
  match t with
  | MProducerTurn i x =>
    match producers s !! i with
    | None => (s, [])
    | Some pc =>
      let '(pc, q, evs) := mproducer_step x pc (mring s) in
      (mkMPSC (<[i := pc]> (producers s)) (mconsumer s) q, evs)
    end
  | MConsumerTurn =>
    let '(pc, q, evs) := consumer_step (mconsumer s) (mring s) in
    (mkMPSC (producers s) pc q, evs)
  end.

Fixpoint mpsc_run (ts : list MTurn) (s : MPSC) : MPSC * list QueueEvent :=
  match ts with
  | [] => (s, [])
  | t :: ts =>
    let '(s, evs) := mpsc_turn t s in let '(s, evs') := mpsc_run ts s in (s, evs ++ evs')
  end.

Definition newMPSC (dflt : T) (capacity n : nat) : MPSC :=
  mkMPSC (replicate n MIdle) CIdle (new_ring dflt capacity).

(** A whole pop without interruption. *)
Definition pop_call : list MTurn := replicate 4 MConsumerTurn.

(** The multi-producer queue can hand out an item nobody pushed.  A producer
    reserves its slot by advancing the write position before it stores the
    item: when the consumer runs in between, pop succeeds and returns the
    initial content of the slot, and the item written afterwards lies outside
    the queue and is lost, although both calls report success. *)
Theorem mpsc_pop_reads_unwritten_slot (dflt x : T) cap n :
  (2 <= cap)%nat -> (1 <= n)%nat ->
  let ts := replicate 4 (MProducerTurn 0 x) ++ pop_call ++ [MProducerTurn 0 x] in
  let '(s, evs) := mpsc_run ts (newMPSC dflt cap n) in
  evs = [Popped dflt; Pushed x] /\ ring_empty (mring s) = true.
Proof.
  intros Hc Hn. destruct cap as [|[|cap]]; [lia..|]. destruct n as [|n]; [lia|].
  cbn [newMPSC replicate app pop_call]. unfold mpsc_run, mpsc_turn, newMPSC, new_ring.
  assert (H01 : forall (b : list T) w r, next_pos (mkRing b w r (S (S cap))) 0 = 1%nat).
  { intros b w r. unfold next_pos. simpl ring_capacity_. apply Nat.mod_small. lia. }
  repeat (cbn -[next_pos]; rewrite ?H01).
  unfold store_write. simpl buffer_. by rewrite H01.
Qed.
End Ring.

(** A capacity of 2 holds one item: the second push is refused until the first
    item has been popped. *)
Lemma spsc_queue_is_fifo_witness :
  let ts := replicate 4 (ProducerTurn 7) ++ [ProducerTurn 8; ConsumerTurn; ProducerTurn 8]
            ++ replicate 3 ConsumerTurn in
  let '(s, evs) := spsc_run ts (newSPSC 0 2) in
  (exists l, fifo_trace 2 [] evs l /\ pushed_items evs = popped_items evs ++ l /\
    ring_size (ring s) = length l) /\
  evs = [Pushed 7; PushFull 8; Popped 7].
Proof.
  split; [|by_compute].
  apply (spsc_queue_is_fifo 0 2 (replicate 4 (ProducerTurn 7)
    ++ [ProducerTurn 8; ConsumerTurn; ProducerTurn 8] ++ replicate 3 ConsumerTurn)). lia.
Defined.

Lemma mpsc_pop_reads_unwritten_slot_witness :
  let ts := replicate 4 (MProducerTurn 0 7) ++ pop_call ++ [MProducerTurn 0 7] in
  let '(s, evs) := mpsc_run ts (newMPSC 0 8 2) in
  evs = [Popped 0; Pushed 7] /\ ring_empty (mring s) = true.
Proof. apply (mpsc_pop_reads_unwritten_slot 0 7 8 2); lia. Defined.
