(* ===== verification/HAStateMachine.v ===== *)
(** * HAStateMachine and RecoveryPolicy (src/core/ha/HAStateMachine.{h,cpp},
      RecoveryPolicy.{h,cpp})

    The callbacks act on a state [W] of their own.  Reading the YAML file is
    left out; [loadPolicy] receives the entries the file holds. *)

From S2P Require Import Prelude.

Inductive HAState :=
| HA_NORMAL | HA_DEGRADED | HA_SAFE_MODE | HA_RECOVERY_IN_PROGRESS | HA_MANUAL_INTERVENTION
| HA_SHUTDOWN.

Inductive FailureType :=
| RT_PROCESS_CRASH | DEADLINE_MISS_CONSECUTIVE | ETHERCAT_COMM_FAILURE | SENSOR_FAILURE
| MOTOR_OVERCURRENT | DATASTORE_CORRUPTION | MEMORY_EXHAUSTION | UNKNOWN_FAILURE.

Inductive RecoveryAction :=
| RESTART_RT_PROCESS | ENTER_SAFE_MODE | NOTIFY_AND_WAIT | SHUTDOWN_SYSTEM
| RELOAD_CONFIGURATION | NO_ACTION.

#[export] Instance HAState_eq_dec : EqDecision HAState.
Proof. solve_decision. Defined.
#[export] Instance FailureType_eq_dec : EqDecision FailureType.
Proof. solve_decision. Defined.
#[export] Instance RecoveryAction_eq_dec : EqDecision RecoveryAction.
Proof. solve_decision. Defined.

Definition all_failures : list FailureType :=
  [RT_PROCESS_CRASH; DEADLINE_MISS_CONSECUTIVE; ETHERCAT_COMM_FAILURE; SENSOR_FAILURE;
   MOTOR_OVERCURRENT; DATASTORE_CORRUPTION; MEMORY_EXHAUSTION; UNKNOWN_FAILURE].

Definition failure_val (f : FailureType) : nat :=
  match f with
  | RT_PROCESS_CRASH => 0 | DEADLINE_MISS_CONSECUTIVE => 1 | ETHERCAT_COMM_FAILURE => 2
  | SENSOR_FAILURE => 3 | MOTOR_OVERCURRENT => 4 | DATASTORE_CORRUPTION => 5
  | MEMORY_EXHAUSTION => 6 | UNKNOWN_FAILURE => 7
  end.

#[export] Instance FailureType_countable : Countable FailureType.
Proof.
  refine (inj_countable' failure_val (λ n, default UNKNOWN_FAILURE (all_failures !! n)) _).
  by intros [].
Defined.

Definition HAState_toString (s : HAState) : string :=
  match s with
  | HA_NORMAL => "NORMAL" | HA_DEGRADED => "DEGRADED" | HA_SAFE_MODE => "SAFE_MODE"
  | HA_RECOVERY_IN_PROGRESS => "RECOVERY_IN_PROGRESS"
  | HA_MANUAL_INTERVENTION => "MANUAL_INTERVENTION" | HA_SHUTDOWN => "SHUTDOWN"
  end.

Definition FailureType_toString (f : FailureType) : string :=
  match f with
  | RT_PROCESS_CRASH => "RT_PROCESS_CRASH"
  | DEADLINE_MISS_CONSECUTIVE => "DEADLINE_MISS_CONSECUTIVE"
  | ETHERCAT_COMM_FAILURE => "ETHERCAT_COMM_FAILURE"
  | SENSOR_FAILURE => "SENSOR_FAILURE"
  | MOTOR_OVERCURRENT => "MOTOR_OVERCURRENT"
  | DATASTORE_CORRUPTION => "DATASTORE_CORRUPTION"
  | MEMORY_EXHAUSTION => "MEMORY_EXHAUSTION"
  | UNKNOWN_FAILURE => "UNKNOWN"
  end.

Definition RecoveryAction_toString (a : RecoveryAction) : string :=
  match a with
  | RESTART_RT_PROCESS => "RESTART_RT_PROCESS"
  | ENTER_SAFE_MODE => "ENTER_SAFE_MODE"
  | NOTIFY_AND_WAIT => "NOTIFY_AND_WAIT"
  | SHUTDOWN_SYSTEM => "SHUTDOWN_SYSTEM"
  | RELOAD_CONFIGURATION => "RELOAD_CONFIGURATION"
  | NO_ACTION => "NONE"
  end.

(** ** RecoveryPolicy *)

Abbreviation policies := (gmap FailureType RecoveryAction).

Record RecoveryPolicy := mkRecoveryPolicy {
  policies_ : policies;
  max_recovery_attempts : Z
}.

Definition newRecoveryPolicy : RecoveryPolicy := mkRecoveryPolicy ∅ 3.

Definition parseFailureType (s : string) : FailureType :=
  if String.eqb s "RT_PROCESS_CRASH" then RT_PROCESS_CRASH
  else if String.eqb s "DEADLINE_MISS_CONSECUTIVE" then DEADLINE_MISS_CONSECUTIVE
  else if String.eqb s "ETHERCAT_COMM_FAILURE" then ETHERCAT_COMM_FAILURE
  else if String.eqb s "SENSOR_FAILURE" then SENSOR_FAILURE
  else if String.eqb s "MOTOR_OVERCURRENT" then MOTOR_OVERCURRENT
  else if String.eqb s "DATASTORE_CORRUPTION" then DATASTORE_CORRUPTION
  else if String.eqb s "MEMORY_EXHAUSTION" then MEMORY_EXHAUSTION
  else if String.eqb s "UNKNOWN" then UNKNOWN_FAILURE
  else UNKNOWN_FAILURE.

Definition parseRecoveryAction (s : string) : RecoveryAction :=
  if String.eqb s "RESTART_RT_PROCESS" then RESTART_RT_PROCESS
  else if String.eqb s "ENTER_SAFE_MODE" then ENTER_SAFE_MODE
  else if String.eqb s "NOTIFY_AND_WAIT" then NOTIFY_AND_WAIT
  else if String.eqb s "SHUTDOWN_SYSTEM" then SHUTDOWN_SYSTEM
  else if String.eqb s "RELOAD_CONFIGURATION" then RELOAD_CONFIGURATION
  else if String.eqb s "NONE" then NO_ACTION
  else NOTIFY_AND_WAIT.

(** [loadFromFile] on the contents of a file: the optional maximum and the
    optional [policies] node, a sequence of key and value strings. *)
Definition loadPolicy (max_attempts : option Z) (node : option (list (string * string)))
    (p : RecoveryPolicy) : RecoveryPolicy :=
  let p := match max_attempts with
           | Some n => mkRecoveryPolicy (policies_ p) n
           | None => p
           end in
  match node with
  | None => p
  | Some entries =>
    mkRecoveryPolicy
      (foldl (λ m kv, <[parseFailureType (fst kv) := parseRecoveryAction (snd kv)]> m)
         (policies_ p) entries)
      (max_recovery_attempts p)
  end.

Definition isComplete (p : policies) : bool := forallb (λ f, p.[f]) all_failures.

Definition getDefaultPolicies : policies := list_to_map
  [(RT_PROCESS_CRASH, RESTART_RT_PROCESS); (DEADLINE_MISS_CONSECUTIVE, ENTER_SAFE_MODE);
   (ETHERCAT_COMM_FAILURE, ENTER_SAFE_MODE); (SENSOR_FAILURE, NOTIFY_AND_WAIT);
   (MOTOR_OVERCURRENT, ENTER_SAFE_MODE); (DATASTORE_CORRUPTION, NOTIFY_AND_WAIT);
   (MEMORY_EXHAUSTION, SHUTDOWN_SYSTEM); (UNKNOWN_FAILURE, NOTIFY_AND_WAIT)].

(** ** HAStateMachine *)

Definition ha_isValidTransition (from to : HAState) : bool :=
  if bool_decide (from = to) then true
  else match from with
  | HA_NORMAL => bool_decide (to = HA_DEGRADED) || bool_decide (to = HA_RECOVERY_IN_PROGRESS)
                 || bool_decide (to = HA_SAFE_MODE) || bool_decide (to = HA_SHUTDOWN)
  | HA_DEGRADED => bool_decide (to = HA_NORMAL) || bool_decide (to = HA_RECOVERY_IN_PROGRESS)
                   || bool_decide (to = HA_SHUTDOWN)
  | HA_SAFE_MODE => bool_decide (to = HA_RECOVERY_IN_PROGRESS)
                    || bool_decide (to = HA_MANUAL_INTERVENTION) || bool_decide (to = HA_SHUTDOWN)
  | HA_RECOVERY_IN_PROGRESS => bool_decide (to = HA_NORMAL) || bool_decide (to = HA_SAFE_MODE)
                               || bool_decide (to = HA_MANUAL_INTERVENTION)
                               || bool_decide (to = HA_SHUTDOWN)
  | HA_MANUAL_INTERVENTION => bool_decide (to = HA_NORMAL) || bool_decide (to = HA_SHUTDOWN)
  | HA_SHUTDOWN => false
  end.

Record HAStateMachine (W : Type) := mkHA {
  ha_current_state_ : HAState;
  previous_state_ : HAState;
  recovery_policies_ : policies;
  recovery_attempt_count_ : Z;
  max_recovery_attempts_ : Z;
  state_entered_at_ : Z;
  state_transition_callback_ : option (HAState -> HAState -> FailureType -> W -> W);
  recovery_action_callback_ : option (RecoveryAction -> W -> bool * W);
  ha_world_ : W
}.
Arguments mkHA {W}.
Arguments ha_current_state_ {W} _.
Arguments previous_state_ {W} _.
Arguments recovery_policies_ {W} _.
Arguments recovery_attempt_count_ {W} _.
Arguments max_recovery_attempts_ {W} _.
Arguments state_entered_at_ {W} _.
Arguments state_transition_callback_ {W} _.
Arguments recovery_action_callback_ {W} _.
Arguments ha_world_ {W} _.

Section HAStateMachine.
Context {W : Type}.
Implicit Types (s : HAStateMachine W).

Definition newHAStateMachine (now max_attempts : Z) (w : W) : HAStateMachine W :=
  mkHA HA_NORMAL HA_NORMAL ∅ 0 max_attempts now None None w.

Definition setRecoveryPolicies (p : policies) s :=
  mkHA (ha_current_state_ s) (previous_state_ s) p (recovery_attempt_count_ s)
    (max_recovery_attempts_ s) (state_entered_at_ s) (state_transition_callback_ s)
    (recovery_action_callback_ s) (ha_world_ s).

Definition registerStateTransitionCallback (cb : HAState -> HAState -> FailureType -> W -> W) s :=
  mkHA (ha_current_state_ s) (previous_state_ s) (recovery_policies_ s) (recovery_attempt_count_ s)
    (max_recovery_attempts_ s) (state_entered_at_ s) (Some cb)
    (recovery_action_callback_ s) (ha_world_ s).

Definition registerRecoveryActionCallback (cb : RecoveryAction -> W -> bool * W) s :=
  mkHA (ha_current_state_ s) (previous_state_ s) (recovery_policies_ s) (recovery_attempt_count_ s)
    (max_recovery_attempts_ s) (state_entered_at_ s) (state_transition_callback_ s)
    (Some cb) (ha_world_ s).

Definition set_ha_world (w : W) s :=
  mkHA (ha_current_state_ s) (previous_state_ s) (recovery_policies_ s) (recovery_attempt_count_ s)
    (max_recovery_attempts_ s) (state_entered_at_ s) (state_transition_callback_ s)
    (recovery_action_callback_ s) w.

Definition set_attempts (n : Z) s :=
  mkHA (ha_current_state_ s) (previous_state_ s) (recovery_policies_ s) n
    (max_recovery_attempts_ s) (state_entered_at_ s) (state_transition_callback_ s)
    (recovery_action_callback_ s) (ha_world_ s).

(** [now] is the reading of the steady clock. *)
Definition ha_transitionTo (now : Z) (new_state : HAState) s : bool * HAStateMachine W :=
  let current := ha_current_state_ s in
  if negb (ha_isValidTransition current new_state) then (false, s)
  else
    let w := match state_transition_callback_ s with
             | Some cb => cb current new_state UNKNOWN_FAILURE (ha_world_ s)
             | None => ha_world_ s
             end in
    (true, mkHA new_state current (recovery_policies_ s) (recovery_attempt_count_ s)
             (max_recovery_attempts_ s) now (state_transition_callback_ s)
             (recovery_action_callback_ s) w).

Definition reportRecoverySuccess (now : Z) s : bool * HAStateMachine W :=
  ha_transitionTo now HA_NORMAL (set_attempts 0 s).

Definition reportRecoveryFailure (now : Z) s : bool * HAStateMachine W :=
  let attempts := u32 (recovery_attempt_count_ s + 1) in
  let s := set_attempts attempts s in
  if max_recovery_attempts_ s <=? attempts
  then ha_transitionTo now HA_MANUAL_INTERVENTION (set_attempts 0 s)
  else (true, s).

Definition executeRecoveryAction (a : RecoveryAction) s : bool * HAStateMachine W :=
  match recovery_action_callback_ s with
  | None => (false, s)
  | Some cb => let '(ok, w) := cb a (ha_world_ s) in (ok, set_ha_world w s)
  end.

Definition determineTargetState (f : FailureType) (a : RecoveryAction) : HAState :=
  if bool_decide (f = DEADLINE_MISS_CONSECUTIVE) || bool_decide (f = ETHERCAT_COMM_FAILURE)
     || bool_decide (f = MOTOR_OVERCURRENT) then HA_SAFE_MODE
  else match a with
  | ENTER_SAFE_MODE => HA_SAFE_MODE
  | RESTART_RT_PROCESS | RELOAD_CONFIGURATION => HA_RECOVERY_IN_PROGRESS
  | NOTIFY_AND_WAIT => HA_MANUAL_INTERVENTION
  | SHUTDOWN_SYSTEM => HA_SHUTDOWN
  | NO_ACTION => HA_DEGRADED
  end.

Definition handleFailure (now : Z) (f : FailureType) s : bool * HAStateMachine W :=
  match recovery_policies_ s !! f with
  | None => (false, s)
  | Some action =>
    let '(ok, s) := executeRecoveryAction action s in
    if negb ok then reportRecoveryFailure now s
    else ha_transitionTo now (determineTargetState f action) s
  end.

(** Truncated to milliseconds, as [uint64_t]. *)
Definition getTimeInCurrentState (now : Z) s : Z := u64 (Z.quot (now - state_entered_at_ s) 1000000).

(** *** Runs *)

Inductive HAOp :=
| HandleFailure (now : Z) (f : FailureType)
| TransitionTo (now : Z) (st : HAState)
| ReportSuccess (now : Z)
| ReportFailure (now : Z).

Definition ha_exec (o : HAOp) s : bool * HAStateMachine W :=
  match o with
  | HandleFailure now f => handleFailure now f s
  | TransitionTo now st => ha_transitionTo now st s
  | ReportSuccess now => reportRecoverySuccess now s
  | ReportFailure now => reportRecoveryFailure now s
  end.

Definition ha_run (os : list HAOp) s : HAStateMachine W := foldl (λ s o, snd (ha_exec o s)) s os.

(** *** Every call takes at most one valid transition *)

Definition ha_moves s s' : Prop :=
  (ha_current_state_ s' = ha_current_state_ s /\ previous_state_ s' = previous_state_ s) \/
  (ha_isValidTransition (ha_current_state_ s) (ha_current_state_ s') = true /\
   previous_state_ s' = ha_current_state_ s).

Definition attempts_ok s : Prop := 0 <= recovery_attempt_count_ s < max_recovery_attempts_ s.

Lemma transitionTo_effect now st s :
  let '(ok, s') := ha_transitionTo now st s in
  ok = ha_isValidTransition (ha_current_state_ s) st /\
  ha_current_state_ s' = (if ok then st else ha_current_state_ s) /\
  previous_state_ s' = (if ok then ha_current_state_ s else previous_state_ s) /\
  recovery_attempt_count_ s' = recovery_attempt_count_ s /\
  max_recovery_attempts_ s' = max_recovery_attempts_ s /\
  recovery_policies_ s' = recovery_policies_ s /\
  recovery_action_callback_ s' = recovery_action_callback_ s.
Proof. unfold ha_transitionTo. by destruct (ha_isValidTransition _ st). Qed.

Lemma transitionTo_ok now st s s0 :
  ha_current_state_ s = ha_current_state_ s0 -> previous_state_ s = previous_state_ s0 ->
  max_recovery_attempts_ s = max_recovery_attempts_ s0 -> attempts_ok s ->
  let s' := snd (ha_transitionTo now st s) in
  ha_moves s0 s' /\ attempts_ok s' /\ max_recovery_attempts_ s' = max_recovery_attempts_ s0.
Proof.
  intros Hc Hp Hm Ha. pose proof (transitionTo_effect now st s) as H.
  destruct (ha_transitionTo now st s) as [ok s']. destruct H as (Hok & H1 & H2 & H3 & H4 & _).
  simpl. unfold attempts_ok, ha_moves in *. rewrite H1, H2, H3, H4, Hc, Hp in *.
  split_and!; [|lia|lia|done]. destruct ok; [right|left]; done.
Qed.

Lemma reportFailure_ok now s s0 :
  ha_current_state_ s = ha_current_state_ s0 -> previous_state_ s = previous_state_ s0 ->
  max_recovery_attempts_ s = max_recovery_attempts_ s0 -> max_recovery_attempts_ s < 2 ^ 32 ->
  attempts_ok s ->
  let s' := snd (reportRecoveryFailure now s) in
  ha_moves s0 s' /\ attempts_ok s' /\ max_recovery_attempts_ s' = max_recovery_attempts_ s0.
Proof.
  intros Hc Hp Hm Hb Ha. unfold reportRecoveryFailure, attempts_ok in *.
  rewrite u32_small by (unfold in_u32; lia). cbv zeta. simpl.
  destruct (Z.leb_spec (max_recovery_attempts_ s) (recovery_attempt_count_ s + 1)).
  - apply transitionTo_ok; try done. unfold attempts_ok; simpl. lia.
  - simpl. split_and!; [by left|lia|lia|done].
Qed.

Lemma ha_exec_ok o s :
  max_recovery_attempts_ s < 2 ^ 32 -> attempts_ok s ->
  let s' := snd (ha_exec o s) in
  ha_moves s s' /\ attempts_ok s' /\ max_recovery_attempts_ s' = max_recovery_attempts_ s.
Proof.
  intros Hb Ha. assert (Hrefl : ha_moves s s) by (by left).
  destruct o as [now f|now st|now|now]; simpl.
  - unfold handleFailure. destruct (recovery_policies_ s !! f) as [a|]; [|done].
    unfold executeRecoveryAction. destruct (recovery_action_callback_ s) as [cb|].
    + destruct (cb a (ha_world_ s)) as [ok w]. destruct ok; simpl.
      * by apply transitionTo_ok.
      * by apply reportFailure_ok.
    + by apply reportFailure_ok.
  - by apply transitionTo_ok.
  - apply transitionTo_ok; try done. unfold attempts_ok in *; simpl; lia.
  - by apply reportFailure_ok.
Qed.

Lemma ha_run_ok os s :
  max_recovery_attempts_ s < 2 ^ 32 -> attempts_ok s ->
  attempts_ok (ha_run os s) /\ max_recovery_attempts_ (ha_run os s) = max_recovery_attempts_ s /\
  (ha_current_state_ s = HA_SHUTDOWN -> ha_current_state_ (ha_run os s) = HA_SHUTDOWN).
Proof.
  revert s. induction os as [|o os IH]; intros s Hb Ha; [done|].
  destruct (ha_exec_ok o s Hb Ha) as (Hmv & Ha' & Hm').
  unfold ha_run. cbn [foldl]. fold (ha_run os (snd (ha_exec o s))).
  destruct (IH (snd (ha_exec o s))) as (H1 & H2 & H3); [lia|done|].
  split_and!; [done|lia|]. intros Hs. apply H3.
  destruct Hmv as [[Hc _]|[Hv _]]; [congruence|]. rewrite Hs in Hv.
  unfold ha_isValidTransition in Hv. by case_bool_decide.
Qed.

(** C22: the high-availability state machine stays inside its transition table.
    Starting from a new machine with 1 to 2^32 - 1 recovery attempts, after any
    sequence of calls the attempt counter is below the maximum, the next call
    leaves the states alone or takes one transition of the table and records
    the state it left, and after SHUTDOWN no sequence of calls leaves it. *)
Theorem ha_calls_respect_transition_table now max w p cb os o os' :
  1 <= max < 2 ^ 32 ->
  let s := ha_run os (registerRecoveryActionCallback cb
             (setRecoveryPolicies p (newHAStateMachine now max w))) in
  0 <= recovery_attempt_count_ s < max /\ ha_moves s (snd (ha_exec o s)) /\
  (ha_current_state_ s = HA_SHUTDOWN -> ha_current_state_ (ha_run os' s) = HA_SHUTDOWN).
Proof.
  intros Hmax s.
  destruct (ha_run_ok os (registerRecoveryActionCallback cb
    (setRecoveryPolicies p (newHAStateMachine now max w)))) as (Ha & Hm & _).
  { simpl. lia. }
  { unfold attempts_ok. simpl. lia. }
  fold s in Ha, Hm. simpl in Hm. unfold attempts_ok in Ha.
  split_and!; [lia|lia|apply ha_exec_ok|apply ha_run_ok]; unfold attempts_ok; lia.
Qed.

(** *** Escalation of failed recoveries *)

Definition can_escalate (st : HAState) : bool := ha_isValidTransition st HA_MANUAL_INTERVENTION.

Lemma failures_below_max now n s :
  0 <= recovery_attempt_count_ s -> max_recovery_attempts_ s < 2 ^ 32 ->
  recovery_attempt_count_ s + Z.of_nat n < max_recovery_attempts_ s ->
  ha_run (replicate n (ReportFailure now)) s = set_attempts (recovery_attempt_count_ s + Z.of_nat n) s.
Proof.
  revert s. induction n as [|n IH]; intros s H0 Hb Hlt; cbn [replicate].
  { rewrite Z.add_0_r. by destruct s. }
  unfold ha_run. cbn [foldl]. fold (ha_run (replicate n (ReportFailure now)) (snd (ha_exec (ReportFailure now) s))).
  cbn [ha_exec]. unfold reportRecoveryFailure. rewrite u32_small by (unfold in_u32; lia). cbv zeta.
  simpl max_recovery_attempts_. rewrite (proj2 (Z.leb_gt _ _)) by lia. cbn [snd].
  rewrite IH by (simpl; lia). simpl. unfold set_attempts. simpl. f_equal. lia.
Qed.

(** Repeated recovery failures escalate to manual intervention, from the
    states that allow it.  In SAFE_MODE and RECOVERY_IN_PROGRESS, fewer than
    max reported failures change only the attempt counter, and exactly the
    max-th one moves to MANUAL_INTERVENTION and resets the counter. *)
Theorem recovery_failures_escalate now n s :
  can_escalate (ha_current_state_ s) = true ->
  recovery_attempt_count_ s = 0 -> 1 <= max_recovery_attempts_ s < 2 ^ 32 ->
  Z.of_nat n < max_recovery_attempts_ s ->
  let s1 := ha_run (replicate n (ReportFailure now)) s in
  s1 = set_attempts (Z.of_nat n) s /\
  (Z.of_nat n = max_recovery_attempts_ s - 1 ->
   let s2 := snd (reportRecoveryFailure now s1) in
   ha_current_state_ s2 = HA_MANUAL_INTERVENTION /\ recovery_attempt_count_ s2 = 0).
Proof.
  intros Hesc H0 Hmax Hn. cbv zeta. rewrite failures_below_max by lia. rewrite H0.
  split; [done|]. intros Hlast.
  unfold reportRecoveryFailure. rewrite u32_small by (unfold in_u32; simpl; lia). cbv zeta.
  simpl. rewrite (proj2 (Z.leb_le _ _)) by lia. unfold can_escalate in Hesc.
  unfold ha_transitionTo. simpl. by rewrite Hesc.
Qed.

(** A recovery that reports a failure, directly or from a failing action. *)
Definition failing_op (s : HAStateMachine W) (o : HAOp) : Prop :=
  match o with
  | ReportFailure _ => True
  | HandleFailure _ _ =>
    match recovery_action_callback_ s with
    | None => True
    | Some cb => forall a w, fst (cb a w) = false
    end
  | _ => False
  end.

Lemma failing_op_stuck o s :
  can_escalate (ha_current_state_ s) = false -> failing_op s o ->
  ha_current_state_ (snd (ha_exec o s)) = ha_current_state_ s /\
  recovery_action_callback_ (snd (ha_exec o s)) = recovery_action_callback_ s.
Proof.
  intros Hesc Hop.
  assert (Hrep : forall now s', ha_current_state_ s' = ha_current_state_ s ->
    recovery_action_callback_ s' = recovery_action_callback_ s ->
    ha_current_state_ (snd (reportRecoveryFailure now s')) = ha_current_state_ s /\
    recovery_action_callback_ (snd (reportRecoveryFailure now s')) = recovery_action_callback_ s).
  { intros now s' Hs Hcb. unfold reportRecoveryFailure. cbv zeta. case_match; [|done].
    unfold ha_transitionTo. unfold can_escalate in Hesc.
    match goal with |- context [ha_isValidTransition ?x _] => change x with (ha_current_state_ s') end.
    rewrite Hs, Hesc. done. }
  destruct o as [now f|now st|now|now]; simpl in *; try done; [|by apply Hrep].
  unfold handleFailure. destruct (recovery_policies_ s !! f) as [a|]; [|done].
  unfold executeRecoveryAction. destruct (recovery_action_callback_ s) as [cb|] eqn:Ecb.
  - pose proof (Hop a (ha_world_ s)) as Hf. destruct (cb a (ha_world_ s)) as [ok w]. simpl in Hf. subst ok.
    by apply Hrep.
  - by apply Hrep.
Qed.

(** In NORMAL and DEGRADED, failed recoveries never escalate.  However many
    recovery actions fail, the machine stays where it is, because the table has
    no transition from these states to MANUAL_INTERVENTION, the state that
    exceeding the attempts asks for. *)
Theorem failed_recoveries_stuck_in_normal os s :
  ha_current_state_ s = HA_NORMAL \/ ha_current_state_ s = HA_DEGRADED ->
  Forall (failing_op s) os ->
  ha_current_state_ (ha_run os s) = ha_current_state_ s.
Proof.
  intros Hst Hos. assert (Hesc : can_escalate (ha_current_state_ s) = false) by (by destruct Hst as [-> | ->]).
  clear Hst. revert s Hesc Hos. induction os as [|o os IH]; intros s Hesc Hos; [done|].
  apply Forall_cons in Hos as [Ho Hos]. destruct (failing_op_stuck o s Hesc Ho) as [Hc Hcb].
  unfold ha_run. cbn [foldl]. fold (ha_run os (snd (ha_exec o s))). rewrite IH, Hc; [done|by rewrite Hc|].
  eapply Forall_impl; [exact Hos|]. intros o'. unfold failing_op. by rewrite Hcb.
Qed.

(** *** The default policies *)

Lemma handleFailure_success now f a s cb w :
  recovery_policies_ s !! f = Some a -> recovery_action_callback_ s = Some cb ->
  cb a (ha_world_ s) = (true, w) ->
  fst (handleFailure now f s) =
    ha_isValidTransition (ha_current_state_ s) (determineTargetState f a) /\
  ha_current_state_ (snd (handleFailure now f s)) =
    if ha_isValidTransition (ha_current_state_ s) (determineTargetState f a)
    then determineTargetState f a else ha_current_state_ s.
Proof.
  intros Hp Hcb Hw. unfold handleFailure, executeRecoveryAction. rewrite Hp, Hcb, Hw. cbn [negb].
  pose proof (transitionTo_effect now (determineTargetState f a) (set_ha_world w s)) as H.
  destruct (ha_transitionTo _ _ _) as [ok s']. destruct H as (-> & H & _). split; [done|exact H].
Qed.

(** What the default policies do when the recovery action succeeds.  Every
    failure type is covered.  From NORMAL a process crash starts a recovery,
    the three critical failures enter SAFE_MODE and memory exhaustion shuts
    down; but a sensor failure, a corrupted data store and an unknown failure,
    whose policy is to notify and wait, are answered false and leave the machine
    in NORMAL, and a critical failure in DEGRADED leaves it in DEGRADED. *)
Theorem default_policy_outcomes now f s cb w a :
  isComplete getDefaultPolicies = true /\
  (recovery_policies_ s = getDefaultPolicies -> recovery_action_callback_ s = Some cb ->
   getDefaultPolicies !! f = Some a -> cb a (ha_world_ s) = (true, w) ->
   let r := (fst (handleFailure now f s), ha_current_state_ (snd (handleFailure now f s))) in
   (ha_current_state_ s = HA_NORMAL ->
    r = match f with
        | RT_PROCESS_CRASH => (true, HA_RECOVERY_IN_PROGRESS)
        | DEADLINE_MISS_CONSECUTIVE | ETHERCAT_COMM_FAILURE | MOTOR_OVERCURRENT => (true, HA_SAFE_MODE)
        | MEMORY_EXHAUSTION => (true, HA_SHUTDOWN)
        | SENSOR_FAILURE | DATASTORE_CORRUPTION | UNKNOWN_FAILURE => (false, HA_NORMAL)
        end) /\
   (ha_current_state_ s = HA_DEGRADED ->
    r = match f with
        | RT_PROCESS_CRASH => (true, HA_RECOVERY_IN_PROGRESS)
        | MEMORY_EXHAUSTION => (true, HA_SHUTDOWN)
        | _ => (false, HA_DEGRADED)
        end)).
Proof.
  split; [by_compute|]. intros Hp Hcb Ha Hw r.
  assert (Hpa : recovery_policies_ s !! f = Some a) by (by rewrite Hp).
  destruct (handleFailure_success now f a s cb w Hpa Hcb Hw) as [H1 H2].
  unfold r. rewrite H1, H2. clear r H1 H2 Hp Hpa Hcb Hw.
  split; intros ->; destruct f; vm_compute in Ha; injection Ha as <-; done.
Qed.
End HAStateMachine.

(** ** Policies survive printing and loading *)

Lemma parse_failure_toString f : parseFailureType (FailureType_toString f) = f.
Proof. by destruct f. Qed.

Lemma parse_action_toString a : parseRecoveryAction (RecoveryAction_toString a) = a.
Proof. by destruct a. Qed.

Definition print_policies (m : policies) : list (string * string) :=
  map (λ fa, (FailureType_toString (fst fa), RecoveryAction_toString (snd fa))) (map_to_list m).

Lemma load_entries (l : list (FailureType * RecoveryAction)) (m : policies) :
  NoDup l.*1 ->
  foldl (λ m kv, <[parseFailureType (fst kv) := parseRecoveryAction (snd kv)]> m) m
    (map (λ fa, (FailureType_toString (fst fa), RecoveryAction_toString (snd fa))) l)
  = list_to_map l ∪ m.
Proof.
  revert m. induction l as [|[f a] l IH]; intros m Hnd; simpl.
  { by rewrite (left_id_L ∅ (∪)). }
  apply NoDup_cons in Hnd as [Hf Hnd]. rewrite parse_failure_toString, parse_action_toString, IH by done.
  rewrite <- insert_union_r; [|by apply not_elem_of_list_to_map_1]. by rewrite insert_union_l.
Qed.

(** A recovery policy survives printing and loading: writing every entry
    with toString and loading the result into a new RecoveryPolicy gives back
    exactly the same policies and maximum. *)
Theorem policy_print_load_roundtrip (m : policies) n :
  loadPolicy (Some n) (Some (print_policies m)) newRecoveryPolicy = mkRecoveryPolicy m n.
Proof.
  unfold loadPolicy, print_policies. simpl. rewrite load_entries by apply NoDup_fst_map_to_list.
  by rewrite list_to_map_to_list, (right_id_L ∅ (∪)).
Qed.

(** ** Example runs *)

Module HAExamples.
Definition machine (ok : bool) (st : HAState) : HAStateMachine unit :=
  mkHA st HA_NORMAL getDefaultPolicies 0 3 0 None (Some (λ _ w, (ok, w))) tt.
End HAExamples.
Import HAExamples.

Lemma ha_calls_respect_transition_table_witness :
  let s := ha_run [HandleFailure 1 MEMORY_EXHAUSTION] (registerRecoveryActionCallback (λ _ w, (true, w))
             (setRecoveryPolicies getDefaultPolicies (newHAStateMachine 0 3 tt))) in
  0 <= recovery_attempt_count_ s < 3 /\ ha_moves s (snd (ha_exec (ReportSuccess 2) s)) /\
  (ha_current_state_ s = HA_SHUTDOWN ->
   ha_current_state_ (ha_run [TransitionTo 3 HA_NORMAL] s) = HA_SHUTDOWN).
Proof. apply (ha_calls_respect_transition_table 0 3 tt); lia. Defined.

Lemma recovery_failures_escalate_witness :
  let s1 := ha_run (replicate 2 (ReportFailure 5)) (machine true HA_SAFE_MODE) in
  s1 = set_attempts 2 (machine true HA_SAFE_MODE) /\
  ha_current_state_ (snd (reportRecoveryFailure 5 s1)) = HA_MANUAL_INTERVENTION.
Proof.
  destruct (recovery_failures_escalate 5 2 (machine true HA_SAFE_MODE)) as [H1 H2];
    [reflexivity|reflexivity|simpl; lia|simpl; lia|].
  split; [exact H1|]. by destruct (H2 eq_refl).
Defined.

Lemma failed_recoveries_stuck_in_normal_witness :
  ha_current_state_ (ha_run (replicate 5 (HandleFailure 1 RT_PROCESS_CRASH)) (machine false HA_NORMAL))
    = HA_NORMAL.
Proof.
  apply (failed_recoveries_stuck_in_normal (replicate 5 (HandleFailure 1 RT_PROCESS_CRASH))
    (machine false HA_NORMAL)); [by left|repeat constructor].
Defined.

Lemma default_policy_outcomes_witness :
  (fst (handleFailure 1 SENSOR_FAILURE (machine true HA_NORMAL)),
   ha_current_state_ (snd (handleFailure 1 SENSOR_FAILURE (machine true HA_NORMAL))))
    = (false, HA_NORMAL).
Proof.
  destruct (default_policy_outcomes 1 SENSOR_FAILURE (machine true HA_NORMAL) (λ _ w, (true, w)) tt
    NOTIFY_AND_WAIT) as [_ H].
  destruct H as [H _]; [reflexivity..|]. exact (H eq_refl).
Defined.
