(* ===== verification/Failover.v ===== *)
(** * FailoverManager (src/core/ha/FailoverManager.{h,cpp})

    Restart bookkeeping of a supervised process.  Times are nanoseconds of the
    system clock; each call takes the readings it makes.  The process restart
    itself is a TODO of the code, and loading a checkpoint does not change the
    manager's state. *)

From S2P Require Import Prelude.

Record FailoverPolicy := mkFailoverPolicy {
  process_name : string;
  health_check_interval_ms : Z;
  health_check_timeout_ms : Z;
  failure_threshold : Z;
  restart_delay_ms : Z;
  max_restart_count : Z;
  restart_window_sec : Z;
  enable_state_recovery : bool;
  checkpoint_interval_sec : Z;
  enable_leader_election : bool
}.

Definition defaultFailoverPolicy (name : string) : FailoverPolicy :=
  mkFailoverPolicy name 1000 500 3 100 5 60 true 60 false.

Definition isValid (p : FailoverPolicy) : bool :=
  if health_check_interval_ms p <=? health_check_timeout_ms p then false
  else if failure_threshold p <? 1 then false
  else if max_restart_count p =? 0 then false
  else if enable_state_recovery p && (checkpoint_interval_sec p =? 0) then false
  else true.

Record RestartInfo := mkRestartInfo { restart_count : Z; window_start : Z }.

Record FailoverManager := mkFailover {
  policy_ : FailoverPolicy;
  restart_tracking_ : gmap string RestartInfo;
  fo_running_ : bool
}.

(** The constructor throws on an invalid policy. *)
Definition newFailoverManager (p : FailoverPolicy) : result string FailoverManager :=
  if negb (isValid p) then Throw "Invalid failover policy" else Ok (mkFailover p ∅ false).

Definition window (p : FailoverPolicy) : Z := restart_window_sec p * 1000000000.

Section FailoverManager.
Implicit Types (s : FailoverManager).

Definition set_tracking (m : gmap string RestartInfo) s := mkFailover (policy_ s) m (fo_running_ s).

Definition cleanupRestartTracking (now : Z) s : FailoverManager :=
  set_tracking
    (filter (λ kv, now - window_start (snd kv) <= window (policy_ s)) (restart_tracking_ s)) s.

Definition start s : bool * FailoverManager :=
  if fo_running_ s then (false, s) else (true, mkFailover (policy_ s) (restart_tracking_ s) true).

Definition stop s : FailoverManager :=
  if negb (fo_running_ s) then s else mkFailover (policy_ s) (restart_tracking_ s) false.

Definition canRestart (now : Z) (name : string) s : bool :=
  match restart_tracking_ s !! name with
  | None => true
  | Some info =>
    if window (policy_ s) <? now - window_start info then true
    else restart_count info <? max_restart_count (policy_ s)
  end.

Definition getRestartCount (now : Z) (name : string) s : Z :=
  match restart_tracking_ s !! name with
  | None => 0
  | Some info => if window (policy_ s) <? now - window_start info then 0 else restart_count info
  end.

Definition resetRestartCount (name : string) s : FailoverManager :=
  set_tracking (delete name (restart_tracking_ s)) s.

(** [operator[]] inserts a zero entry whose window starts at the epoch. *)
Definition triggerRestart (now : Z) (name : string) s : bool * FailoverManager :=
  if negb (String.eqb name (process_name (policy_ s))) then (false, s)
  else
    let info := default (mkRestartInfo 0 0) (restart_tracking_ s !! name) in
    let info := if window (policy_ s) <? now - window_start info then mkRestartInfo 0 now else info in
    let info := mkRestartInfo (u32 (restart_count info + 1)) (window_start info) in
    (true, set_tracking (<[name := info]> (restart_tracking_ s)) s).

(** [now1] is read by [canRestart], [now2] by [triggerRestart]; the first
    result says whether a restart was triggered. *)
Definition handleProcessFailure (now1 now2 : Z) (name : string) s : bool * FailoverManager :=
  if negb (fo_running_ s) then (false, s)
  else if negb (String.eqb name (process_name (policy_ s))) then (false, s)
  else if negb (canRestart now1 name s) then (false, s)
  else triggerRestart now2 name s.

(** [loadPolicy] after the JSON has been merged into the old policy: the new
    policy replaces the old one even when it turns out to be invalid. *)
Definition loadPolicy (merged : FailoverPolicy) s : bool * FailoverManager :=
  (isValid merged, mkFailover merged (restart_tracking_ s) (fo_running_ s)).

(** ** Calls of the manager

    [Fails] is a reported failure with the readings of canRestart and of
    triggerRestart, [Triggers] a direct call of the public triggerRestart, which
    does not look at the limit. *)
Inductive Call :=
| Fails (name : string) (now1 now2 : Z)
| Triggers (name : string) (now : Z)
| Starts
| Stops.

(** A restart: whether handleProcessFailure decided it, the start of the window
    that it was counted in, and its time. *)
Record Restart := mkRestart { automatic : bool; counted_in : Z; at_time : Z }.

Definition tracked s : RestartInfo :=
  default (mkRestartInfo 0 0) (restart_tracking_ s !! process_name (policy_ s)).

Definition call (c : Call) s : list Restart * FailoverManager :=
  match c with
  | Fails name now1 now2 =>
    let '(restarted, s) := handleProcessFailure now1 now2 name s in
    (if restarted : bool then [mkRestart true (window_start (tracked s)) now2] else [], s)
  | Triggers name now =>
    let '(restarted, s) := triggerRestart now name s in
    (if restarted : bool then [mkRestart false (window_start (tracked s)) now] else [], s)
  | Starts => ([], snd (start s))
  | Stops => ([], stop s)
  end.

Fixpoint calls (cs : list Call) s : list Restart * FailoverManager :=
  match cs with
  | [] => ([], s)
  | c :: cs => let '(l, s) := call c s in let '(log, s) := calls cs s in (l ++ log, s)
  end.

(** The clock is not set back: the readings do not decrease. *)
Definition call_end (t : Z) (c : Call) : Z :=
  match c with Fails _ _ now2 => now2 | Triggers _ now => now | _ => t end.

Definition call_steady (t : Z) (c : Call) : Prop :=
  match c with Fails _ now1 now2 => t <= now1 <= now2 | Triggers _ now => t <= now | _ => True end.

Fixpoint steady (t : Z) (cs : list Call) : Prop :=
  match cs with
  | [] => True
  | c :: cs => call_steady t c /\ steady (call_end t c) cs
  end.

(** The windows of the automatic restarts. *)
Definition in_window (ws : Z) (log : list (Z * Z)) : nat := count (λ r, fst r =? ws) log.
Definition automatics (log : list Restart) : list (Z * Z) :=
  omap (λ r, if automatic r then Some (counted_in r, at_time r) else None) log.

(** ** The restart budget *)

Record budget_ok (t : Z) s : Prop := {
  b_max : 0 < max_restart_count (policy_ s) < 2 ^ 32;
  b_window : 0 <= window (policy_ s);
  b_count : 0 <= restart_count (tracked s);
  b_start : 0 <= window_start (tracked s) <= t
}.

Lemma budget_later t t' s : t <= t' -> budget_ok t s -> budget_ok t' s.
Proof. intros Ht [? ? ? ?]. constructor; lia. Qed.

(** A counted restart: the count of the current window grows, or a new window
    starts after the old one. *)
Definition counted (now : Z) s s' : Prop :=
  policy_ s' = policy_ s /\ now - window_start (tracked s') <= window (policy_ s) /\
  (window_start (tracked s') = window_start (tracked s) /\
     restart_count (tracked s') = restart_count (tracked s) + 1
   \/ window_start (tracked s') = now /\ restart_count (tracked s') = 1 /\
      window (policy_ s) < now - window_start (tracked s)).

Lemma triggerRestart_counts t now s :
  budget_ok t s -> t <= now -> restart_count (tracked s) + 1 < 2 ^ 32 ->
  let '(restarted, s') := triggerRestart now (process_name (policy_ s)) s in
  restarted = true /\ budget_ok now s' /\ counted now s s'.
Proof.
  intros [Hm Hw Hc Hst] Ht Hwrap. unfold triggerRestart. rewrite String.eqb_refl. simpl negb. cbv iota zeta.
  fold (tracked s). set (i := tracked s) in *. set (s' := set_tracking _ s).
  assert (Hs' : exists x, tracked s' = mkRestartInfo (u32 (restart_count x + 1)) (window_start x) /\
    x = if window (policy_ s) <? now - window_start i then mkRestartInfo 0 now else i).
  { eexists. split; [|reflexivity]. unfold tracked. simpl. by rewrite lookup_insert_eq. }
  assert (Hp' : policy_ s' = policy_ s) by done. clearbody s'. destruct Hs' as (x & Hs' & Hx).
  destruct (Z.ltb_spec (window (policy_ s)) (now - window_start i)) as [Hexp|Hin]; subst x; simpl in Hs'.
  - change (u32 (0 + 1)) with 1 in Hs'. split_and!; [done| |].
    + constructor; rewrite ?Hp', ?Hs'; simpl; try done; lia.
    + split; [done|]. rewrite Hs'. simpl. split; [lia|]. right. fold i. lia.
  - rewrite u32_small in Hs' by (unfold in_u32; lia). split_and!; [done| |].
    + constructor; rewrite ?Hp', ?Hs'; simpl; try done; lia.
    + split; [done|]. rewrite Hs'. simpl. split; [lia|]. left. by fold i.
Qed.

(** A failure restarts the process only within the budget of the window. *)
Lemma handleProcessFailure_budget t now1 now2 name s :
  budget_ok t s -> t <= now1 <= now2 ->
  let '(restarted, s') := handleProcessFailure now1 now2 name s in
  if restarted then
    budget_ok now2 s' /\ counted now2 s s' /\
    (window_start (tracked s') = window_start (tracked s) ->
     restart_count (tracked s) < max_restart_count (policy_ s))
  else s' = s.
Proof.
  intros Hok Ht. unfold handleProcessFailure. destruct (fo_running_ s); [|done]. simpl negb. cbv iota.
  destruct (String.eqb_spec name (process_name (policy_ s))) as [->|]; [|done]. simpl negb. cbv iota.
  destruct (canRestart now1 (process_name (policy_ s)) s) eqn:Hcan; [|done]. simpl negb. cbv iota.
  pose proof Hok as [Hm Hw Hc Hst].
  assert (Hcan' : restart_count (tracked s) < max_restart_count (policy_ s) \/
                  window (policy_ s) < now1 - window_start (tracked s)).
  { unfold canRestart in Hcan. unfold tracked in *. destruct (restart_tracking_ s !! _) as [j|]; simpl in *; [|lia].
    destruct (Z.ltb_spec (window (policy_ s)) (now1 - window_start j)); [by right|]. left. by apply Z.ltb_lt. }
  destruct (Z_lt_le_dec (restart_count (tracked s)) (max_restart_count (policy_ s))) as [Hlt|Hge].
  - pose proof (triggerRestart_counts t now2 s Hok ltac:(lia) ltac:(lia)) as H.
    destruct (triggerRestart _ _ _) as [r s']. destruct H as (-> & Hok' & Hcnt). done.
  - destruct Hcan' as [|Hexp]; [lia|]. unfold triggerRestart. rewrite String.eqb_refl. simpl negb. cbv iota zeta.
    fold (tracked s). rewrite (proj2 (Z.ltb_lt _ _)) by lia. simpl.
    set (s' := set_tracking _ s). assert (Hs' : tracked s' = mkRestartInfo 1 now2)
      by (unfold tracked; simpl; by rewrite lookup_insert_eq).
    assert (Hp' : policy_ s' = policy_ s) by done. clearbody s'. split_and!.
    + constructor; rewrite ?Hp', ?Hs'; simpl; lia.
    + split; [done|]. rewrite Hs'. simpl. split; [lia|]. right. lia.
    + rewrite Hs'. simpl. lia.
Qed.

Lemma handleProcessFailure_policy now1 now2 name s :
  policy_ (snd (handleProcessFailure now1 now2 name s)) = policy_ s.
Proof. unfold handleProcessFailure, triggerRestart. by repeat (case_match; try done). Qed.

(** Starting and stopping keep the table. *)
Lemma start_tracked s : tracked (snd (start s)) = tracked s /\ policy_ (snd (start s)) = policy_ s.
Proof. unfold start. by destruct (fo_running_ s). Qed.
Lemma stop_tracked s : tracked (stop s) = tracked s /\ policy_ (stop s) = policy_ s.
Proof. unfold stop. by destruct (fo_running_ s). Qed.

(** One call: nothing is counted, or one restart is. *)
Lemma call_budget t c s :
  budget_ok t s -> call_steady t c -> restart_count (tracked s) + 1 < 2 ^ 32 ->
  let '(log, s') := call c s in
  budget_ok (call_end t c) s' /\ policy_ s' = policy_ s /\ t <= call_end t c /\
  match log with
  | [] => tracked s' = tracked s
  | [r] => counted_in r = window_start (tracked s') /\ at_time r = call_end t c /\ counted (at_time r) s s' /\
           (automatic r = true -> window_start (tracked s') = window_start (tracked s) ->
            restart_count (tracked s) < max_restart_count (policy_ s))
  | _ => False
  end.
Proof.
  intros Hok Ht Hwrap. destruct c as [name now1 now2|name now| |]; simpl in *.
  - pose proof (handleProcessFailure_budget t now1 now2 name s Hok Ht) as H.
    destruct (handleProcessFailure _ _ _ _) as [[|] s']; [|subst s'].
    + destruct H as (Hok' & Hcnt & Hlt). split_and!; try done; try apply Hcnt; lia.
    + split_and!; try done; try lia. apply (budget_later t); [lia|done].
  - unfold triggerRestart at 1. destruct (String.eqb_spec name (process_name (policy_ s))) as [->|Hne].
    + pose proof (triggerRestart_counts t now s Hok Ht Hwrap) as H. unfold triggerRestart in H.
      rewrite String.eqb_refl in H. simpl negb in *. cbv iota zeta in *. destruct H as (_ & Hok' & Hcnt).
      split_and!; try done; apply Hcnt.
    + simpl. split_and!; try done. by apply (budget_later t).
  - destruct (start_tracked s) as [E1 E2]. split_and!; try done; try lia.
    destruct Hok. constructor; rewrite ?E1, ?E2; done.
  - destruct (stop_tracked s) as [E1 E2]. split_and!; try done; try lia.
    destruct Hok. constructor; rewrite ?E1, ?E2; done.
Qed.

Lemma in_window_none ws b log : Forall (λ r, b <= counted_in r) log -> ws < b -> in_window ws (automatics log) = 0%nat.
Proof.
  intros Hlog Hlt. unfold in_window, automatics. induction Hlog as [|r log Hr _ IH]; [done|]. simpl.
  destruct (automatic r); [|done]. rewrite count_cons. cbn [fst].
  rewrite (proj2 (Z.eqb_neq (counted_in r) ws)) by lia. exact IH.
Qed.

Lemma in_window_cons ws r log :
  in_window ws (automatics (r :: log)) =
    ((if automatic r && (counted_in r =? ws)%Z then 1 else 0) + in_window ws (automatics log))%nat.
Proof.
  unfold in_window, automatics. simpl. destruct (automatic r); [|done]. rewrite count_cons. cbn [fst].
  by destruct (Z.eqb (counted_in r) ws).
Qed.

(** Everything logged from here on lies in the current window or in later ones,
    and the current window has only its remaining budget left. *)
Lemma calls_budget cs t s :
  budget_ok t s -> steady t cs -> restart_count (tracked s) + Z.of_nat (length cs) < 2 ^ 32 ->
  let log := fst (calls cs s) in
  Forall (λ r, window_start (tracked s) <= counted_in r) log /\
  Forall (λ r, counted_in r <= at_time r <= counted_in r + window (policy_ s)) log /\
  (forall ws, window_start (tracked s) < ws ->
     Z.of_nat (in_window ws (automatics log)) <= max_restart_count (policy_ s)) /\
  Z.of_nat (in_window (window_start (tracked s)) (automatics log))
    <= Z.max 0 (max_restart_count (policy_ s) - restart_count (tracked s)).
Proof.
  revert t s. induction cs as [|c cs IH]; intros t s Hok Hst Hlen.
  { simpl. unfold in_window, count. simpl. destruct Hok. split_and!; [constructor|constructor|intros; lia|lia]. }
  destruct Hst as [Ht Hst]. simpl length in Hlen. cbn [calls].
  pose proof (call_budget t c s Hok Ht ltac:(lia)) as H. destruct (call c s) as [l s1]. destruct H as (Hok1 & Hp & Hle & H).
  assert (Hlen1 : restart_count (tracked s1) + Z.of_nat (length cs) < 2 ^ 32).
  { destruct l as [|r [|]]; [rewrite H; lia| |done]. destruct H as (_ & _ & (_ & _ & H) & _). pose proof (b_count _ _ Hok). lia. }
  specialize (IH _ s1 Hok1 Hst Hlen1). cbv zeta in IH |- *. rewrite Hp in IH.
  destruct (calls cs s1) as [log s2]. cbn [fst] in *. destruct IH as (I1 & I2 & I3 & I4).
  destruct l as [|r [|]]; [rewrite H in *; done| |done]. simpl app.
  destruct H as (Hr & Hat & (_ & Hwin & H) & Hauto). pose proof (b_start _ _ Hok1) as Hst1. pose proof Hok as [Hm Hw Hc Hs].
  assert (Hcur : counted_in r <= at_time r <= counted_in r + window (policy_ s)) by lia.
  destruct H as [(Hws & Hrc)|(Hws & Hrc & Hexp)]; split_and!.
  - constructor; [lia|]. eapply Forall_impl; [exact I1|]. simpl. lia.
  - by constructor.
  - intros ws Hgt. rewrite in_window_cons, (proj2 (Z.eqb_neq _ _)), andb_false_r by lia. apply I3. lia.
  - rewrite in_window_cons. rewrite Hws in I4. destruct (automatic r && _) eqn:Ea; [|lia].
    apply andb_true_iff in Ea as [Ea _]. specialize (Hauto Ea Hws). lia.
  - constructor; [lia|]. eapply Forall_impl; [exact I1|]. simpl. lia.
  - by constructor.
  - intros ws Hgt. rewrite in_window_cons. destruct (Z.eqb_spec (counted_in r) ws) as [Heq|Hne].
    + subst ws. rewrite Hr. destruct (automatic r); simpl; lia.
    + rewrite andb_false_r. destruct (Z_lt_le_dec (counted_in r) ws); [apply I3; lia|].
      rewrite (in_window_none ws _ log I1) by lia. lia.
  - rewrite in_window_cons, (proj2 (Z.eqb_neq _ _)), andb_false_r by lia.
    rewrite (in_window_none _ _ log I1) by lia. lia.
Qed.

Lemma new_budget p s :
  newFailoverManager p = Ok s -> 0 <= max_restart_count p < 2 ^ 32 -> 0 <= restart_window_sec p ->
  s = mkFailover p ∅ false /\ forall b, budget_ok 0 (mkFailover p ∅ b).
Proof.
  unfold newFailoverManager. intros Hnew Hmax Hw. destruct (isValid p) eqn:Hv; simpl in Hnew; [|done].
  injection Hnew as <-. split; [done|]. intros b.
  assert (Hm0 : max_restart_count p <> 0).
  { unfold isValid in Hv. repeat (case_match; try done). by apply Z.eqb_neq. }
  constructor; unfold tracked, window; simpl; try done; rewrite ?lookup_empty; simpl; lia.
Qed.

(** C23: the restart budget is kept.  For a manager with a valid policy, any
    sequence of fewer than 2^32 calls (failures of any process, direct calls of
    triggerRestart, starts and stops) and a clock that is not set back during
    it, every restart is counted in a window that contains it, and no window
    counts more than max_restart_count restarts decided by handleProcessFailure,
    however often the process fails; direct calls are not limited, but use up
    the budget. *)
Theorem restarts_within_budget p s cs :
  newFailoverManager p = Ok s -> 0 <= max_restart_count p < 2 ^ 32 -> 0 <= restart_window_sec p ->
  steady 0 cs -> Z.of_nat (length cs) < 2 ^ 32 ->
  let log := fst (calls cs s) in
  Forall (λ r, counted_in r <= at_time r <= counted_in r + window p) log /\
  forall ws, Z.of_nat (in_window ws (automatics log)) <= max_restart_count p.
Proof.
  intros Hnew Hmax Hw Hst Hlen. destruct (new_budget p s Hnew Hmax Hw) as [-> Hok]. specialize (Hok false).
  assert (Htr : tracked (mkFailover p ∅ false) = mkRestartInfo 0 0) by done.
  destruct (calls_budget cs 0 _ Hok Hst Hlen) as (H1 & H2 & H3 & H4). cbv zeta. split; [exact H2|].
  rewrite Htr in *. cbn [window_start restart_count policy_] in *.
  intros ws. destruct (Z.lt_trichotomy 0 ws) as [Hlt|[<-|Hgt]]; [by apply H3| |].
  - lia.
  - rewrite (in_window_none ws _ _ H1) by (simpl; lia). lia.
Qed.
End FailoverManager.

(** ** Deviations *)

Definition seconds (t : Z) : Z := t * 1000000000.

(** Direct calls of [triggerRestart] pass the limit of five. *)
Theorem direct_restarts_pass_the_limit :
  let p := defaultFailoverPolicy "rt" in
  let s := snd (calls (map (λ t, Triggers "rt" (seconds t)) [100; 101; 102; 103; 104; 105]) (mkFailover p ∅ true)) in
  getRestartCount (seconds 106) "rt" s = 6 /\ max_restart_count p = 5.
Proof. cbv zeta. split; by_compute. Qed.

(** With the clock set back between the two readings of a failure, a sixth
    restart is counted in the window. *)
Theorem clock_set_back_passes_the_limit :
  let p := defaultFailoverPolicy "rt" in
  let cs := map (λ t, Fails "rt" (seconds t) (seconds t)) [100; 101; 102; 103; 104]
              ++ [Fails "rt" (seconds 200) (seconds 105)] in
  in_window (seconds 100) (automatics (fst (calls cs (mkFailover p ∅ true)))) = 6%nat.
Proof. by_compute. Qed.

(** Seven failures within one minute, with a direct call between them: five
    restarts, one of them the direct one. *)
Lemma restarts_within_budget_witness :
  let p := defaultFailoverPolicy "rt" in
  let cs := Starts :: Triggers "rt" (seconds 99) ::
              map (λ t, Fails "rt" (seconds t) (seconds t)) [100; 101; 102; 103; 104; 105; 106] in
  let log := fst (calls cs (mkFailover p ∅ false)) in
  (Forall (λ r, counted_in r <= at_time r <= counted_in r + window p) log /\
   forall ws, Z.of_nat (in_window ws (automatics log)) <= 5) /\ length log = 5%nat.
Proof.
  split; [|by_compute].
  apply (restarts_within_budget (defaultFailoverPolicy "rt")); [reflexivity|simpl; lia|simpl; lia| |reflexivity].
  unfold seconds. simpl. lia.
Defined.
