(* ===== verification/Expiration.v ===== *)
(** * ExpirationManager (src/core/datastore/managers/ExpirationManager.{h,cpp})

    Two expiration policies of the DataStore: a time to live per key, kept in a
    map ordered by expiration time and in a map from keys to times, and a
    least-recently-used list with a map from keys to list iterators.  A list
    iterator is the identity of its node, so the list carries node numbers.
    The manager is shown to answer every sequence of calls as a plain table of
    times and a plain list of keys do. *)

From S2P Require Import Prelude.

Record ExpirationManager := mkExpiration {
  expiration_map_ : gmap Z (gset string);
  key_to_expiration_ : gmap string Z;
  lru_list_ : list (nat * string);
  lru_map_ : gmap string nat;
  next_node : nat;                (* fresh node identities *)
  max_lru_capacity_ : nat
}.

Definition newExpirationManager : ExpirationManager := mkExpiration ∅ ∅ [] ∅ 0 1000.

Implicit Types m : ExpirationManager.

(** ** Time to live *)

(** [map_it->second.erase(key)], and the set itself once it is empty. *)
Definition erase_expiration (t : Z) (key : string) (em : gmap Z (gset string)) :
    gmap Z (gset string) :=
  match em !! t with
  | Some keys =>
    let keys := keys ∖ {[key]} in
    if bool_decide (keys = ∅) then delete t em else <[t := keys]> em
  | None => em
  end.

Definition set_ttl (em : gmap Z (gset string)) (ke : gmap string Z) m :=
  mkExpiration em ke (lru_list_ m) (lru_map_ m) (next_node m) (max_lru_capacity_ m).

Definition applyPolicy (key : string) (expiration_time : Z) m : ExpirationManager :=
  let em := match key_to_expiration_ m !! key with
            | Some old_expiration => erase_expiration old_expiration key (expiration_map_ m)
            | None => expiration_map_ m
            end in
  set_ttl (<[expiration_time := default ∅ (em !! expiration_time) ∪ {[key]}]> em)
          (<[key := expiration_time]> (key_to_expiration_ m)) m.

Definition removePolicy (key : string) m : ExpirationManager :=
  match key_to_expiration_ m !! key with
  | None => m
  | Some expiration_time =>
    set_ttl (erase_expiration expiration_time key (expiration_map_ m))
            (delete key (key_to_expiration_ m)) m
  end.

(** Iteration over a [std::map] by time and over a [std::set] by string. *)
Definition time_le (a b : Z * gset string) : Prop := fst a <= fst b.
#[export] Instance time_le_dec : RelDecision time_le := λ a b, Z.le_dec (fst a) (fst b).

Definition set_iter (keys : gset string) : list string := merge_sort String.le (elements keys).
Definition map_iter (em : gmap Z (gset string)) : list (Z * gset string) :=
  merge_sort time_le (map_to_list em).

(** From [begin()] to [upper_bound(now)]. *)
Definition getExpiredKeys (now : Z) m : list string :=
  mjoin (map (λ kv, set_iter (snd kv)) (filter (λ kv, fst kv <= now) (map_iter (expiration_map_ m)))).

Definition hasPolicy (key : string) m : bool := (key_to_expiration_ m).[key].

Definition getExpirationTime (key : string) m : result string Z :=
  match key_to_expiration_ m !! key with
  | Some t => Ok t
  | None => Throw ("Key not found in ExpirationManager: " +:+ key)
  end.

Definition getPolicyCount m : nat := size (key_to_expiration_ m).

(** ** Least recently used *)

Definition set_lru (l : list (nat * string)) (lm : gmap string nat) (next cap : nat) m :=
  mkExpiration (expiration_map_ m) (key_to_expiration_ m) l lm next cap.

(** [capacity] 0 keeps the current capacity. *)
Definition applyLRUPolicy (key : string) (capacity : nat) m : ExpirationManager :=
  if (lru_map_ m).[key] then m
  else
    let cap := if (0 <? capacity)%nat then capacity else max_lru_capacity_ m in
    set_lru ((next_node m, key) :: lru_list_ m) (<[key := next_node m]> (lru_map_ m))
            (S (next_node m)) cap m.

(** [erase(it)] and the node that [splice] moves. *)
Definition is_node (n : nat) (x : nat * string) : bool := bool_decide (fst x = n).
Definition erase_node (n : nat) (l : list (nat * string)) : list (nat * string) :=
  default l (erase_first (is_node n) l).

Definition recordAccess (key : string) m : ExpirationManager :=
  match lru_map_ m !! key with
  | None => m
  | Some n =>
    let l := match list_find (λ x, fst x = n) (lru_list_ m) with
             | Some (_, node) => node :: erase_node n (lru_list_ m)
             | None => lru_list_ m
             end in
    set_lru l (lru_map_ m) (next_node m) (max_lru_capacity_ m) m
  end.

(** The loop that pops [to_remove] nodes from the back. *)
Fixpoint evict_loop (to_remove : nat) (l : list (nat * string)) (lm : gmap string nat) :
    list string * (list (nat * string) * gmap string nat) :=
  match to_remove with
  | O => ([], (l, lm))
  | S i =>
    match last l with
    | None => ([], (l, lm))
    | Some (_, lru_key) =>
      let '(keys, r) := evict_loop i (removelast l) (delete lru_key lm) in (lru_key :: keys, r)
    end
  end.

Definition getExpiredKeysLRU m : list string * ExpirationManager :=
  if (length (lru_list_ m) <=? max_lru_capacity_ m)%nat then ([], m)
  else
    let '(keys, (l, lm)) :=
      evict_loop (length (lru_list_ m) - max_lru_capacity_ m) (lru_list_ m) (lru_map_ m) in
    (keys, set_lru l lm (next_node m) (max_lru_capacity_ m) m).

Definition removeLRUPolicy (key : string) m : ExpirationManager :=
  match lru_map_ m !! key with
  | None => m
  | Some n =>
    set_lru (erase_node n (lru_list_ m)) (delete key (lru_map_ m)) (next_node m) (max_lru_capacity_ m) m
  end.

Definition hasLRUPolicy (key : string) m : bool := (lru_map_ m).[key].
Definition getLRUCapacity m : nat := max_lru_capacity_ m.
Definition getLRUSize m : nat := length (lru_list_ m).

(** ** Specification: a table of times and a list of keys, newest first *)

Record Expiry := mkExpiry { times : gmap string Z; recent : list string; capacity : nat }.

Definition newExpiry : Expiry := mkExpiry ∅ [] 1000.

(** The keys whose time has come, ordered by time and then by key. *)
Definition due_le (a b : Z * string) : Prop :=
  fst a < fst b \/ (fst a = fst b /\ String.le (snd a) (snd b)).
#[export] Instance due_le_dec : RelDecision due_le.
Proof. intros a b. unfold due_le. apply _. Defined.

Definition due (now : Z) (x : Expiry) : list string :=
  map snd (merge_sort due_le
    (filter (λ p, fst p <= now) (map (λ kt, (snd kt, fst kt)) (map_to_list (times x))))).

Inductive ExpOp :=
| ApplyTTL (key : string) (t : Z)
| RemoveTTL (key : string)
| GetExpired (now : Z)
| HasTTL (key : string)
| GetTime (key : string)
| CountTTL
| ApplyLRU (key : string) (cap : nat)
| RecordAccess (key : string)
| EvictLRU
| RemoveLRU (key : string)
| HasLRU (key : string)
| SizeLRU.

Inductive ExpAns :=
| ADone
| AKeys (l : list string)
| ABool (b : bool)
| ATime (t : result string Z)
| ANat (n : nat).

Definition exp_exec (o : ExpOp) m : ExpAns * ExpirationManager :=
  match o with
  | ApplyTTL k t => (ADone, applyPolicy k t m)
  | RemoveTTL k => (ADone, removePolicy k m)
  | GetExpired now => (AKeys (getExpiredKeys now m), m)
  | HasTTL k => (ABool (hasPolicy k m), m)
  | GetTime k => (ATime (getExpirationTime k m), m)
  | CountTTL => (ANat (getPolicyCount m), m)
  | ApplyLRU k c => (ADone, applyLRUPolicy k c m)
  | RecordAccess k => (ADone, recordAccess k m)
  | EvictLRU => let '(l, m) := getExpiredKeysLRU m in (AKeys l, m)
  | RemoveLRU k => (ADone, removeLRUPolicy k m)
  | HasLRU k => (ABool (hasLRUPolicy k m), m)
  | SizeLRU => (ANat (getLRUSize m), m)
  end.

Definition without (key : string) (l : list string) : list string := filter (λ k, k <> key) l.

Definition spec_exec (o : ExpOp) (x : Expiry) : ExpAns * Expiry :=
  match o with
  | ApplyTTL k t => (ADone, mkExpiry (<[k := t]> (times x)) (recent x) (capacity x))
  | RemoveTTL k => (ADone, mkExpiry (delete k (times x)) (recent x) (capacity x))
  | GetExpired now => (AKeys (due now x), x)
  | HasTTL k => (ABool ((times x).[k]), x)
  | GetTime k => (ATime (match times x !! k with
                         | Some t => Ok t
                         | None => Throw ("Key not found in ExpirationManager: " +:+ k)
                         end), x)
  | CountTTL => (ANat (size (times x)), x)
  | ApplyLRU k c =>
    (ADone, if decide (k ∈ recent x) then x
            else mkExpiry (times x) (k :: recent x) (if (0 <? c)%nat then c else capacity x))
  | RecordAccess k =>
    (ADone, if decide (k ∈ recent x)
            then mkExpiry (times x) (k :: without k (recent x)) (capacity x) else x)
  | EvictLRU => (AKeys (reverse (drop (capacity x) (recent x))),
                 mkExpiry (times x) (take (capacity x) (recent x)) (capacity x))
  | RemoveLRU k => (ADone, mkExpiry (times x) (without k (recent x)) (capacity x))
  | HasLRU k => (ABool (bool_decide (k ∈ recent x)), x)
  | SizeLRU => (ANat (length (recent x)), x)
  end.

Fixpoint exp_run (os : list ExpOp) m : list ExpAns * ExpirationManager :=
  match os with
  | [] => ([], m)
  | o :: os => let '(a, m) := exp_exec o m in let '(l, m) := exp_run os m in (a :: l, m)
  end.

Fixpoint spec_run (os : list ExpOp) (x : Expiry) : list ExpAns * Expiry :=
  match os with
  | [] => ([], x)
  | o :: os => let '(a, x) := spec_exec o x in let '(l, x) := spec_run os x in (a :: l, x)
  end.

(** ** Time to live: the two maps agree *)

Definition bucket (em : gmap Z (gset string)) (t : Z) : gset string := default ∅ (em !! t).

Record ttl_ok (em : gmap Z (gset string)) (ke : gmap string Z) : Prop := {
  ttl_sync : forall k t, k ∈ bucket em t <-> ke !! k = Some t;
  ttl_nonempty : forall t, em !! t <> Some ∅
}.

Lemma bucket_erase t k em t' :
  bucket (erase_expiration t k em) t' = if decide (t' = t) then bucket em t' ∖ {[k]} else bucket em t'.
Proof.
  unfold erase_expiration, bucket. destruct (decide (t' = t)) as [->|Hne].
  - destruct (em !! t) as [ks|] eqn:E; [|rewrite E; set_solver].
    case_bool_decide as Hks; [rewrite lookup_delete_eq|rewrite lookup_insert_eq]; set_solver.
  - destruct (em !! t) as [ks|] eqn:E; [|done].
    by case_bool_decide; [rewrite lookup_delete_ne|rewrite lookup_insert_ne].
Qed.

Lemma erase_nonempty t k em :
  (forall t, em !! t <> Some ∅) -> forall t', erase_expiration t k em !! t' <> Some ∅.
Proof.
  intros H t'. unfold erase_expiration. destruct (em !! t) as [ks|]; [|done].
  case_bool_decide as Hks; destruct (decide (t = t')) as [->|Hne];
    rewrite ?lookup_delete_eq, ?lookup_insert_eq; [done| |congruence|];
    rewrite ?lookup_delete_ne, ?lookup_insert_ne by done; done.
Qed.

(** Erasing the key under its current time leaves it in no bucket. *)
Lemma erase_sync em ke k t :
  ttl_ok em ke -> ke !! k = Some t ->
  ttl_ok (erase_expiration t k em) (delete k ke).
Proof.
  intros [Hs Hn] Hk. split; [|by apply erase_nonempty]. intros k' t'. rewrite bucket_erase.
  destruct (decide (k' = k)) as [->|Hne].
  - rewrite lookup_delete_eq. split; [|done]. destruct (decide (t' = t)); [set_solver|].
    intros Hin%Hs. congruence.
  - rewrite lookup_delete_ne, <- Hs by done. destruct (decide (t' = t)); set_solver.
Qed.

Lemma insert_sync em ke k t :
  ttl_ok em ke -> ke !! k = None ->
  ttl_ok (<[t := bucket em t ∪ {[k]}]> em) (<[k := t]> ke).
Proof.
  intros [Hs Hn] Hk. split.
  - intros k' t'. unfold bucket at 1. destruct (decide (t' = t)) as [->|Hne].
    + rewrite lookup_insert_eq. simpl. destruct (decide (k' = k)) as [->|Hk'].
      * rewrite lookup_insert_eq. set_solver.
      * rewrite lookup_insert_ne, <- Hs by done. set_solver.
    + rewrite lookup_insert_ne by done. fold (bucket em t'). rewrite Hs.
      destruct (decide (k' = k)) as [->|Hk']; [|by rewrite lookup_insert_ne].
      rewrite lookup_insert_eq, Hk. split; congruence.
  - intros t'. destruct (decide (t' = t)) as [->|Hne]; [|by rewrite lookup_insert_ne].
    rewrite lookup_insert_eq. intros [=H]. set_solver.
Qed.

Lemma applyPolicy_ok k t m :
  ttl_ok (expiration_map_ m) (key_to_expiration_ m) ->
  ttl_ok (expiration_map_ (applyPolicy k t m)) (key_to_expiration_ (applyPolicy k t m)).
Proof.
  intros Hok. unfold applyPolicy. simpl. fold (bucket (expiration_map_ m) t).
  destruct (key_to_expiration_ m !! k) as [old|] eqn:Hk.
  - rewrite <- (insert_delete_eq (key_to_expiration_ m)).
    apply insert_sync; [by apply erase_sync|by rewrite lookup_delete_eq].
  - by apply insert_sync.
Qed.

Lemma removePolicy_ok k m :
  ttl_ok (expiration_map_ m) (key_to_expiration_ m) ->
  ttl_ok (expiration_map_ (removePolicy k m)) (key_to_expiration_ (removePolicy k m)).
Proof.
  intros Hok. unfold removePolicy. destruct (key_to_expiration_ m !! k) eqn:Hk; [|done].
  by apply erase_sync.
Qed.

(** ** The expired keys in order *)

#[export] Instance due_le_trans : Transitive due_le.
Proof.
  intros [t1 k1] [t2 k2] [t3 k3]. unfold due_le. simpl.
  intros [?|[-> ?]] [?|[-> ?]]; [lia|lia|lia|]. right. split; [done|]. by etrans.
Qed.

#[export] Instance due_le_antisymm : AntiSymm (=) due_le.
Proof.
  intros [t1 k1] [t2 k2]. unfold due_le. simpl. intros [?|[-> ?]] [?|[? ?]]; try lia.
  f_equal. by apply (anti_symm String.le).
Qed.

#[export] Instance due_le_total : Total due_le.
Proof.
  intros [t1 k1] [t2 k2]. unfold due_le. simpl.
  destruct (Z.lt_trichotomy t1 t2) as [|[->|]]; [by left; left| |by right; left].
  destruct (total String.le k1 k2); [left|right]; by right.
Qed.

#[export] Instance time_le_total : Total time_le.
Proof. intros a b. unfold time_le. lia. Qed.
#[export] Instance time_le_trans : Transitive time_le.
Proof. intros a b c. unfold time_le. lia. Qed.

Definition bucket_pairs (kv : Z * gset string) : list (Z * string) :=
  map (fst kv,.) (set_iter (snd kv)).

Lemma bucket_pairs_elem kv t k : (t, k) ∈ bucket_pairs kv <-> t = fst kv /\ k ∈ snd kv.
Proof.
  unfold bucket_pairs, set_iter. split.
  - intros (k' & [= -> ->] & Hin)%list_elem_of_fmap. rewrite merge_sort_Permutation, elem_of_elements in Hin. done.
  - intros [-> Hin]. apply list_elem_of_fmap. exists k. split; [done|]. by rewrite merge_sort_Permutation, elem_of_elements.
Qed.

Lemma bucket_pairs_sorted kv : StronglySorted due_le (bucket_pairs kv).
Proof.
  unfold bucket_pairs, set_iter.
  eapply (StronglySorted_fmap _ String.le due_le); [|apply StronglySorted_merge_sort; apply _].
  intros k1 k2 H. by right.
Qed.

Lemma buckets_sorted l :
  StronglySorted time_le l -> NoDup (map fst l) ->
  StronglySorted due_le (mjoin (map bucket_pairs l)).
Proof.
  induction 1 as [|kv l Hs IH Hall]; intros Hnd; simpl; [constructor|].
  apply NoDup_cons in Hnd as [Hni Hnd]. apply StronglySorted_app_2; [|apply bucket_pairs_sorted|auto].
  intros [t1 k1] [t2 k2] [-> _]%bucket_pairs_elem. intros (l2 & Hin & (kv2 & -> & Hkv2)%list_elem_of_fmap)%list_elem_of_join.
  apply bucket_pairs_elem in Hin as [-> _]. left. simpl.
  rewrite Forall_forall in Hall. specialize (Hall _ Hkv2). unfold time_le in Hall.
  assert (fst kv <> fst kv2); [|lia]. intros Heq. apply Hni. rewrite Heq.
  apply list_elem_of_fmap. eauto.
Qed.

Lemma sorted_filter {A} (R : relation A) (P : A -> Prop) `{!∀ x, Decision (P x)} l :
  StronglySorted R l -> StronglySorted R (filter P l).
Proof.
  induction 1 as [|x l Hs IH Hall]; simpl; [constructor|].
  rewrite filter_cons. destruct (decide (P x)); [|done]. constructor; [done|].
  rewrite Forall_forall in *. intros y [_ Hy]%list_elem_of_filter. by apply Hall.
Qed.

Lemma NoDup_map_filter {A B} (f : A -> B) (P : A -> Prop) `{!∀ x, Decision (P x)} l :
  NoDup (map f l) -> NoDup (map f (filter P l)).
Proof.
  induction l as [|x l IH]; simpl; [done|]. intros [Hni Hnd]%NoDup_cons.
  rewrite filter_cons. destruct (decide (P x)); simpl; [|auto]. apply NoDup_cons. split; [|auto].
  intros (y & Hfy & [_ Hy]%list_elem_of_filter)%list_elem_of_fmap. apply Hni, list_elem_of_fmap. eauto.
Qed.

(** The times with their keys, as a set of pairs, in two presentations. *)
Definition expired_pairs (now : Z) (em : gmap Z (gset string)) : list (Z * string) :=
  mjoin (map bucket_pairs (filter (λ kv, fst kv <= now) (map_iter em))).

Definition due_pairs (now : Z) (ke : gmap string Z) : list (Z * string) :=
  filter (λ p, fst p <= now) (map (λ kt, (snd kt, fst kt)) (map_to_list ke)).

Lemma expired_pairs_elem now em t k :
  (t, k) ∈ expired_pairs now em <-> t <= now /\ k ∈ bucket em t.
Proof.
  unfold expired_pairs, map_iter, bucket. rewrite list_elem_of_join. split.
  - intros (l & Hin & ([t' ks] & -> & [Ht Hkv]%list_elem_of_filter)%list_elem_of_fmap).
    apply bucket_pairs_elem in Hin as [-> Hk]. simpl in *.
    rewrite merge_sort_Permutation, elem_of_map_to_list in Hkv. by rewrite Hkv.
  - intros [Ht Hk]. destruct (em !! t) as [ks|] eqn:E; simpl in Hk; [|set_solver].
    exists (bucket_pairs (t, ks)). split; [by apply bucket_pairs_elem|].
    apply list_elem_of_fmap. exists (t, ks). split; [done|]. apply list_elem_of_filter. split; [done|].
    by rewrite merge_sort_Permutation, elem_of_map_to_list.
Qed.

Lemma due_pairs_elem now ke t k : (t, k) ∈ due_pairs now ke <-> t <= now /\ ke !! k = Some t.
Proof.
  unfold due_pairs. rewrite list_elem_of_filter. simpl. split.
  - intros [Ht ([k' t'] & [= -> ->] & Hin%elem_of_map_to_list)%list_elem_of_fmap]. done.
  - intros [Ht Hk]. split; [done|]. apply list_elem_of_fmap. exists (k, t). split; [done|]. by apply elem_of_map_to_list.
Qed.

Lemma map_iter_NoDup em : NoDup (map fst (map_iter em)).
Proof.
  unfold map_iter. change (NoDup (fst <$> merge_sort time_le (map_to_list em))).
  rewrite merge_sort_Permutation. apply NoDup_fst_map_to_list.
Qed.

Lemma expired_pairs_sorted now em : StronglySorted due_le (expired_pairs now em).
Proof.
  apply buckets_sorted; [|apply NoDup_map_filter, map_iter_NoDup].
  apply sorted_filter, StronglySorted_merge_sort; apply _.
Qed.

Lemma expired_pairs_NoDup now em : NoDup (expired_pairs now em).
Proof.
  unfold expired_pairs. pose proof (NoDup_map_filter fst (λ kv, fst kv <= now) _ (map_iter_NoDup em)) as Hnd.
  induction (filter _ _) as [|kv l IH]; simpl; [constructor|]. apply NoDup_cons in Hnd as [Hni Hnd].
  apply NoDup_app. split_and!; [|intros [t k] Hin|auto].
  - apply NoDup_fmap_2; [intros ? ?; congruence|]. unfold set_iter. rewrite merge_sort_Permutation.
    apply NoDup_elements.
  - apply bucket_pairs_elem in Hin as [-> _].
    intros (l2 & Hin & (kv2 & -> & Hkv2)%list_elem_of_fmap)%list_elem_of_join.
    apply bucket_pairs_elem in Hin as [Heq _]. apply Hni. rewrite Heq. apply list_elem_of_fmap. eauto.
Qed.

Lemma due_pairs_NoDup now ke : NoDup (due_pairs now ke).
Proof.
  apply NoDup_filter, NoDup_fmap_2; [intros [] [] [=]; simpl in *; congruence|]. apply NoDup_map_to_list.
Qed.

Lemma expired_is_due now em ke :
  ttl_ok em ke -> expired_pairs now em = merge_sort due_le (due_pairs now ke).
Proof.
  intros [Hs _]. apply (StronglySorted_unique due_le).
  - apply expired_pairs_sorted.
  - apply StronglySorted_merge_sort; apply _.
  - rewrite merge_sort_Permutation. apply NoDup_Permutation;
      [apply expired_pairs_NoDup|apply due_pairs_NoDup|].
    intros [t k]. by rewrite expired_pairs_elem, due_pairs_elem, Hs.
Qed.

Lemma getExpiredKeys_due now m :
  ttl_ok (expiration_map_ m) (key_to_expiration_ m) ->
  getExpiredKeys now m = map snd (merge_sort due_le (due_pairs now (key_to_expiration_ m))).
Proof.
  intros Hok. rewrite <- (expired_is_due now _ _ Hok). unfold getExpiredKeys, expired_pairs.
  induction (filter _ _) as [|kv l IH]; simpl; [done|]. rewrite map_app, IH. f_equal.
  unfold bucket_pairs. rewrite map_map. simpl. by rewrite map_id.
Qed.

(** ** Least recently used: nodes and keys agree *)

Record lru_ok (l : list (nat * string)) (lm : gmap string nat) (next : nat) : Prop := {
  lru_nodes : NoDup (map fst l);
  lru_keys : NoDup (map snd l);
  lru_sync : forall k n, lm !! k = Some n <-> (n, k) ∈ l;
  lru_fresh : Forall (λ x, fst x < next)%nat l
}.

Lemma lru_key_elem l lm next k : lru_ok l lm next -> is_Some (lm !! k) <-> k ∈ map snd l.
Proof.
  intros [_ _ Hs _]. split.
  - intros [n Hn%Hs]. apply list_elem_of_fmap. by exists (n, k).
  - intros ([n k'] & -> & Hin)%list_elem_of_fmap. exists n. by apply Hs.
Qed.

Lemma lru_known l lm next k b :
  lru_ok l lm next -> bool_decide (is_Some (lm !! k)) = b -> b = bool_decide (k ∈ map snd l).
Proof. intros Hok <-. apply bool_decide_ext. by eapply lru_key_elem. Qed.

Lemma without_absent k l : k ∉ l -> without k l = l.
Proof.
  induction l as [|x l IH]; [done|]. intros [Hx Hl]%not_elem_of_cons. unfold without.
  rewrite filter_cons, decide_True by auto. f_equal. by apply IH.
Qed.

(** The node of a key splits the list, in nodes and in keys. *)
Lemma lru_split l lm next k n :
  lru_ok l lm next -> lm !! k = Some n ->
  exists l1 l2, l = l1 ++ (n, k) :: l2 /\ erase_node n l = l1 ++ l2 /\
    list_find (λ x, fst x = n) l = Some (length l1, (n, k)) /\
    without k (map snd l) = map snd (l1 ++ l2).
Proof.
  intros [Hn Hk Hs _] (l1 & l2 & ->)%Hs%list_elem_of_split. exists l1, l2.
  rewrite map_app in Hn, Hk. simpl in Hn, Hk.
  apply NoDup_app in Hn as (_ & Hn1 & Hn2%NoDup_cons). apply NoDup_app in Hk as (_ & Hk1 & Hk2%NoDup_cons).
  assert (Hne : forall x, x ∈ l1 -> fst x <> n).
  { intros x Hx Heq. apply (Hn1 n); [|by left]. apply list_elem_of_fmap. eauto. }
  split_and!; [done|..].
  - unfold erase_node. rewrite erase_first_app_r.
    + simpl. unfold is_node at 1. simpl. by rewrite bool_decide_true.
    + apply erase_first_None, Forall_forall. intros x Hx. apply bool_decide_eq_false. auto.
  - apply list_find_Some. split_and!; [by apply list_lookup_middle|done|].
    intros j y Hj Hlt. rewrite lookup_app_l in Hj by done. by eapply Hne, list_elem_of_lookup_2.
  - unfold without. rewrite map_app, filter_app. simpl. rewrite filter_cons, decide_False by auto.
    rewrite map_app. f_equal; apply without_absent; [|naive_solver].
    intros Hin. apply (Hk1 k); [done|by left].
Qed.

Lemma lru_ok_perm l l' lm next : l ≡ₚ l' -> lru_ok l lm next -> lru_ok l' lm next.
Proof.
  intros Hp [Hn Hk Hs Hf]. split.
  - revert Hn. apply (NoDup_Permutation_proper (fst <$> l)). by rewrite Hp.
  - revert Hk. apply (NoDup_Permutation_proper (snd <$> l)). by rewrite Hp.
  - intros k n. by rewrite Hs, Hp.
  - by rewrite <- Hp.
Qed.

Lemma lru_ok_delete n k l lm next :
  lru_ok ((n, k) :: l) lm next -> lru_ok l (delete k lm) next.
Proof.
  intros [Hn Hk Hs Hf]. apply NoDup_cons in Hn as [Hni Hn]. apply NoDup_cons in Hk as [Hki Hk].
  inversion Hf; subst. split; try done. intros k' n'. destruct (decide (k' = k)) as [->|Hne].
  - rewrite lookup_delete_eq. split; [done|]. intros Hin. exfalso. apply Hki.
    apply list_elem_of_fmap. by exists (n', k).
  - rewrite lookup_delete_ne, Hs, elem_of_cons by done. naive_solver.
Qed.

Lemma lru_ok_insert k l lm next :
  lru_ok l lm next -> k ∉ map snd l -> lru_ok ((next, k) :: l) (<[k := next]> lm) (S next).
Proof.
  intros [Hn Hk Hs Hf] Hni.
  assert (Hnode : next ∉ map fst l).
  { intros (x & -> & Hx)%list_elem_of_fmap. rewrite Forall_forall in Hf. specialize (Hf x Hx). lia. }
  split; simpl.
  - by constructor.
  - by constructor.
  - intros k' n'. rewrite elem_of_cons. destruct (decide (k' = k)) as [->|Hne].
    + rewrite lookup_insert_eq. split; [intros [= ->]; by left|]. intros [[= ->]|Hin]; [done|].
      exfalso. apply Hni, list_elem_of_fmap. by exists (n', k).
    + rewrite lookup_insert_ne, Hs by done. naive_solver.
  - constructor; [simpl; lia|]. eapply Forall_impl; [exact Hf|]. simpl. lia.
Qed.

Lemma evict_loop_spec i l lm next :
  (i <= length l)%nat -> lru_ok l lm next ->
  let j := (length l - i)%nat in
  exists lm', evict_loop i l lm = (reverse (drop j (map snd l)), (take j l, lm')) /\
    lru_ok (take j l) lm' next.
Proof.
  revert l lm. induction i as [|i IH]; intros l lm Hi Hok; simpl.
  { rewrite Nat.sub_0_r, drop_ge, take_ge by (rewrite ?length_map; lia). by exists lm. }
  destruct l as [|[n k] l _] using rev_ind; [simpl in Hi; lia|].
  rewrite last_snoc, removelast_last. rewrite length_app in *. simpl in *.
  destruct (IH l (delete k lm)) as (lm' & -> & Hok'); [lia| |].
  { eapply lru_ok_delete. eapply lru_ok_perm; [|exact Hok]. symmetry. apply Permutation_cons_append. }
  replace (length l + 1 - S i)%nat with (length l - i)%nat by lia.
  rewrite take_app_le by lia. exists lm'. split; [|done].
  rewrite map_app, drop_app_le by (rewrite length_map; lia). by rewrite reverse_app.
Qed.

(** ** The simulation *)

Record exp_sim m (x : Expiry) : Prop := {
  es_ttl : ttl_ok (expiration_map_ m) (key_to_expiration_ m);
  es_lru : lru_ok (lru_list_ m) (lru_map_ m) (next_node m);
  es_times : times x = key_to_expiration_ m;
  es_recent : recent x = map snd (lru_list_ m);
  es_cap : capacity x = max_lru_capacity_ m
}.

Lemma exp_sim_new : exp_sim newExpirationManager newExpiry.
Proof.
  split; try done; split; simpl; try (by constructor).
  intros k t. unfold bucket. rewrite !lookup_empty. set_solver.
Qed.

Lemma exp_exec_sim o m x :
  exp_sim m x ->
  fst (exp_exec o m) = fst (spec_exec o x) /\ exp_sim (snd (exp_exec o m)) (snd (spec_exec o x)).
Proof.
  intros Hsim. pose proof Hsim as [Ht Hl Et Er Ec].
  destruct o as [k t|k|now|k|k| |k c|k| |k|k| ]; simpl.
  - split; [done|]. split; simpl; [by apply applyPolicy_ok|done|by rewrite Et|done|done].
  - split; [done|]. pose proof (removePolicy_ok k m Ht) as Ht'. unfold removePolicy in *.
    destruct (key_to_expiration_ m !! k) eqn:Hk; split; simpl; try done; rewrite Et; [done|].
    by apply delete_id.
  - split; [|done]. rewrite (getExpiredKeys_due _ _ Ht). unfold due, due_pairs. by rewrite Et.
  - split; [|done]. unfold hasPolicy. by rewrite Et.
  - split; [|done]. unfold getExpirationTime. by rewrite Et.
  - split; [|done]. unfold getPolicyCount. by rewrite Et.
  - split; [done|]. unfold applyLRUPolicy. rewrite (lru_known _ _ _ k _ Hl eq_refl), <- Er.
    destruct (decide (k ∈ recent x)) as [Hin|Hni].
    + by rewrite bool_decide_true.
    + rewrite bool_decide_false by done. rewrite Er in Hni.
      split; simpl; [done|by apply lru_ok_insert|done|by rewrite Er|by rewrite Ec].
  - split; [done|]. unfold recordAccess. pose proof (lru_key_elem _ _ _ k Hl) as Hk.
    destruct (lru_map_ m !! k) as [n|] eqn:En.
    + destruct (lru_split _ _ _ _ _ Hl En) as (l1 & l2 & El & -> & -> & Hw).
      rewrite decide_True by (rewrite Er; by apply Hk). rewrite Er, Hw.
      split; simpl; try done. eapply lru_ok_perm; [|exact Hl]. rewrite El. by rewrite Permutation_middle.
    + rewrite decide_False; [done|]. rewrite Er. intros Hin. by apply Hk in Hin as [? ?].
  - unfold getExpiredKeysLRU. destruct (Nat.leb_spec (length (lru_list_ m)) (max_lru_capacity_ m)).
    + rewrite drop_ge, take_ge by (rewrite Er, length_map; lia). split; [done|]. by split.
    + destruct (evict_loop_spec (length (lru_list_ m) - max_lru_capacity_ m) (lru_list_ m) _ _ ltac:(lia) Hl)
        as (lm' & He & Hok). rewrite He. simpl.
      replace (length (lru_list_ m) - (length (lru_list_ m) - max_lru_capacity_ m))%nat
        with (max_lru_capacity_ m) in * by lia.
      rewrite Ec, Er. split; [done|]. split; simpl; try done. apply firstn_map.
  - split; [done|]. unfold removeLRUPolicy. pose proof (lru_key_elem _ _ _ k Hl) as Hk.
    destruct (lru_map_ m !! k) as [n|] eqn:En.
    + destruct (lru_split _ _ _ _ _ Hl En) as (l1 & l2 & El & -> & _ & Hw).
      rewrite Er, Hw. split; simpl; try done. eapply (lru_ok_delete n), lru_ok_perm; [|exact Hl].
      rewrite El. by rewrite Permutation_middle.
    + rewrite without_absent; [by split|]. rewrite Er. intros Hin. by apply Hk in Hin as [? ?].
  - split; [|done]. unfold hasLRUPolicy. f_equal. rewrite Er. by apply (lru_known _ _ _ k _ Hl).
  - split; [|done]. unfold getLRUSize. by rewrite Er, length_map.
Qed.

(** C26: the two maps and the linked list are a correct representation.  For
    every sequence of calls on a new manager the answers are those of a plain
    table of expiration times and a plain list of keys: getExpiredKeys gives
    exactly the keys whose time is not after now, each once, by time and then by
    name; getExpiredKeysLRU gives the keys beyond the capacity, least recently
    used first, and keeps the others.  A capacity of 0 keeps the last capacity
    that was given, as the code does. *)
Theorem expiration_manager_refines_tables os :
  fst (exp_run os newExpirationManager) = fst (spec_run os newExpiry).
Proof.
  generalize exp_sim_new. generalize newExpirationManager newExpiry.
  induction os as [|o os IH]; intros m x Hsim; [done|]. simpl.
  pose proof (exp_exec_sim o m x Hsim) as [Ha Hs].
  destruct (exp_exec o m) as [a m1], (spec_exec o x) as [a' x1]. simpl in *. subst a'.
  pose proof (IH m1 x1 Hs) as Hrec. destruct (exp_run os m1), (spec_run os x1). simpl in *. by subst.
Qed.

(** ** Invariant and abstraction, for the store that owns a manager *)

Definition exp_abs m : Expiry :=
  mkExpiry (key_to_expiration_ m) (map snd (lru_list_ m)) (max_lru_capacity_ m).

Definition exp_ok m : Prop :=
  ttl_ok (expiration_map_ m) (key_to_expiration_ m) /\ lru_ok (lru_list_ m) (lru_map_ m) (next_node m).

Lemma exp_ok_sim m : exp_ok m <-> exp_sim m (exp_abs m).
Proof. split; [intros [? ?]; by split|intros []; by split]. Qed.

Lemma exp_ok_new : exp_ok newExpirationManager.
Proof. apply exp_ok_sim. apply exp_sim_new. Qed.

Lemma exp_exec_abs o m :
  exp_ok m ->
  exp_ok (snd (exp_exec o m)) /\ fst (exp_exec o m) = fst (spec_exec o (exp_abs m)) /\
  exp_abs (snd (exp_exec o m)) = snd (spec_exec o (exp_abs m)).
Proof.
  intros Hok%exp_ok_sim. destruct (exp_exec_sim o m _ Hok) as [Ha [Ht Hl Et Er Ec]].
  split_and!; [by split|done|]. unfold exp_abs at 1. rewrite <- Et, <- Er, <- Ec.
  by destruct (snd (spec_exec o (exp_abs m))).
Qed.

Lemma due_elem now x k : k ∈ due now x <-> exists t, times x !! k = Some t /\ t <= now.
Proof.
  unfold due. split.
  - intros ([t k'] & -> & Hin)%list_elem_of_fmap. rewrite merge_sort_Permutation in Hin.
    change ((t, k') ∈ due_pairs now (times x)) in Hin. apply due_pairs_elem in Hin. naive_solver.
  - intros (t & Ht & Hle). apply list_elem_of_fmap. exists (t, k). split; [done|].
    rewrite merge_sort_Permutation. by apply (due_pairs_elem now (times x)).
Qed.

(** ** Deviation *)

(** The comment of applyLRUPolicy says that a capacity of 0 stands for the
    default, which is 1000; it stands for the last capacity given. *)
Theorem zero_capacity_is_not_the_default :
  max_lru_capacity_ (applyLRUPolicy "a" 0 newExpirationManager) = 1000%nat /\
  max_lru_capacity_ (applyLRUPolicy "b" 0 (applyLRUPolicy "a" 5 newExpirationManager)) = 5%nat.
Proof. split; by_compute. Qed.
