(* ===== verification/DataStore.v ===== *)
(** * DataStore (src/core/datastore/DataStore.{h,cpp}, MapNotifier.h and the
      managers LogManager, MetricsCollector, AccessControlManager)

    The central store.  A [std::any] is a value tagged with its type;
    [typeid(T).name()] is implementation-defined, so the names are a parameter.
    Observers are weak pointers: whether one is alive and what its callback
    does is the class [Observers] over an outside state [W]; these callbacks do
    not call the store, as DataStoreEventAdapter, the only observer of the
    sources, does not ([StoreCallbacks] treats those that do).  Each call takes
    the clock readings it makes as [clk 0], [clk 1], ... in nanoseconds.  The
    JSON library and the iteration order of the TBB map are the classes [Json]
    and [HashIter]. *)

From S2P Require Import Prelude Interfaces Expiration.

(** ** LogManager *)

Record AccessLogEntry := mkAccessLog {
  al_timestamp : Z; al_operation : string; al_key : string; al_module_id : string
}.

Record ErrorLogEntry := mkErrorLog {
  el_timestamp : Z; el_error_type : string; el_message : string; el_context : string
}.

Record LogManager := mkLogs {
  access_logs_ : list AccessLogEntry;
  error_logs_ : list ErrorLogEntry;
  max_access_logs_ : nat;
  max_error_logs_ : nat
}.

Definition newLogManager (max_access max_error : nat) : LogManager := mkLogs [] [] max_access max_error.

(** [pop_front] of an empty deque (a limit of 0) is undefined; here it does
    nothing. *)
Definition push_bounded {A} (limit : nat) (x : A) (l : list A) : list A :=
  (if (limit <=? length l)%nat then tail l else l) ++ [x].

Definition logAccess (now : Z) (operation key module_id : string) (m : LogManager) : LogManager :=
  mkLogs (push_bounded (max_access_logs_ m) (mkAccessLog now operation key module_id) (access_logs_ m))
         (error_logs_ m) (max_access_logs_ m) (max_error_logs_ m).

Definition logError (now : Z) (error_type message context : string) (m : LogManager) : LogManager :=
  mkLogs (access_logs_ m)
         (push_bounded (max_error_logs_ m) (mkErrorLog now error_type message context) (error_logs_ m))
         (max_access_logs_ m) (max_error_logs_ m).

Definition log_clear (m : LogManager) : LogManager :=
  mkLogs [] [] (max_access_logs_ m) (max_error_logs_ m).

Definition getAccessLogCount (m : LogManager) : nat := length (access_logs_ m).
Definition getErrorLogCount (m : LogManager) : nat := length (error_logs_ m).

(** ** MetricsCollector *)

Record MetricsCollector := mkCollector {
  get_calls_ : Z; set_calls_ : Z; poll_calls_ : Z; delete_calls_ : Z; memory_usage_bytes_ : Z
}.

Definition resetMetrics : MetricsCollector := mkCollector 0 0 0 0 0.

Definition incrementGet (m : MetricsCollector) :=
  mkCollector (u64 (get_calls_ m + 1)) (set_calls_ m) (poll_calls_ m) (delete_calls_ m) (memory_usage_bytes_ m).
Definition incrementSet (m : MetricsCollector) :=
  mkCollector (get_calls_ m) (u64 (set_calls_ m + 1)) (poll_calls_ m) (delete_calls_ m) (memory_usage_bytes_ m).
Definition incrementPoll (m : MetricsCollector) :=
  mkCollector (get_calls_ m) (set_calls_ m) (u64 (poll_calls_ m + 1)) (delete_calls_ m) (memory_usage_bytes_ m).
Definition incrementDelete (m : MetricsCollector) :=
  mkCollector (get_calls_ m) (set_calls_ m) (poll_calls_ m) (u64 (delete_calls_ m + 1)) (memory_usage_bytes_ m).
Definition i64 (x : Z) : Z := wrap 64 (x + 2 ^ 63) - 2 ^ 63.
Definition updateMemoryUsage (delta : Z) (m : MetricsCollector) :=
  mkCollector (get_calls_ m) (set_calls_ m) (poll_calls_ m) (delete_calls_ m)
              (i64 (memory_usage_bytes_ m + delta)).

(** ** AccessControlManager *)

Abbreviation access_policies := (gmap string (gmap string bool)).

Definition acl_setPolicy (key module_id : string) (can_access : bool) (p : access_policies) : access_policies :=
  <[key := <[module_id := can_access]> (default ∅ (p !! key))]> p.

Definition acl_hasAccess (key module_id : string) (p : access_policies) : bool :=
  match p !! key with
  | Some modules => match modules !! module_id with Some b => b | None => false end
  | None => false
  end.

Definition acl_removePolicy (key : string) (p : access_policies) : access_policies := delete key p.

Definition acl_removeModule (key module_id : string) (p : access_policies) : access_policies :=
  match p !! key with
  | None => p
  | Some modules =>
    let modules := delete module_id modules in
    if bool_decide (modules = ∅) then delete key p else <[key := modules]> p
  end.

(** ** Values *)

Inductive TypeId := TInt | TDouble | TFloat | TString | TBool | TLong | TOther (name : string).

#[export] Instance TypeId_eq_dec : EqDecision TypeId.
Proof. solve_decision. Defined.

(** Floating-point numbers are their bit patterns; [AOther] is a value of a type
    the store only passes through. *)
Inductive any (U : Type) :=
| ValInt (v : Z)
| ValDouble (bits : Z)
| ValFloat (bits : Z)
| ValString (v : string)
| ValBool (v : bool)
| ValLong (v : Z)
| ValOther (name : string) (v : U).
Arguments ValInt {U} _.
Arguments ValDouble {U} _.
Arguments ValFloat {U} _.
Arguments ValString {U} _.
Arguments ValBool {U} _.
Arguments ValLong {U} _.
Arguments ValOther {U} _ _.

Definition typeid {U} (v : any U) : TypeId :=
  match v with
  | ValInt _ => TInt | ValDouble _ => TDouble | ValFloat _ => TFloat | ValString _ => TString
  | ValBool _ => TBool | ValLong _ => TLong | ValOther name _ => TOther name
  end.

Definition dt_val (t : DataType) : Z :=
  match t with
  | RobotMode => 0 | InterfaceData => 1 | Config => 2 | Para => 3 | AlarmData => 4 | Event => 5
  | MissionState => 6 | TaskState => 7
  end.

Record SharedData (U : Type) := mkShared {
  sd_id : string;
  sd_type : Z;                     (* the underlying value of the DataType *)
  sd_value : any U;
  sd_timestamp : Z;
  sd_expiration_time : Z
}.
Arguments mkShared {U} _ _ _ _ _.
Arguments sd_id {U} _.
Arguments sd_type {U} _.
Arguments sd_value {U} _.
Arguments sd_timestamp {U} _.
Arguments sd_expiration_time {U} _.

Inductive ExpirationPolicyType := TTL | LRU | NoPolicy.
#[export] Instance ExpirationPolicyType_eq_dec : EqDecision ExpirationPolicyType.
Proof. solve_decision. Defined.

(** [duration] in milliseconds. *)
Record DataExpirationPolicy := mkPolicy { policy_type : ExpirationPolicyType; duration : Z }.

(** ** Observers and MapNotifier *)

(** A weak pointer to an observer is its identity; a callback acts on the world
    outside the store and may throw. *)
Class Observers (U W : Type) := {
  obs_alive : nat -> W -> bool;
  onDataChanged : nat -> SharedData U -> W -> W * option string
}.

Section MapNotifier.
Context {U W : Type} `{!Observers U W}.

Definition mn_subscribe (o : nat) (subs : list nat) : list nat := subs ++ [o].

Definition mn_unsubscribe (w : W) (o : nat) (subs : list nat) : list nat :=
  filter (λ x, obs_alive x w = true /\ x <> o) subs.

(** The loop of [notify]: dead observers are erased as they are met, and an
    exception leaves the rest of the list alone. *)
Fixpoint mn_notify (d : SharedData U) (subs : list nat) (w : W) : list nat * (W * option string) :=
  match subs with
  | [] => ([], (w, None))
  | o :: rest =>
    if obs_alive o w then
      let '(w, ex) := onDataChanged o d w in
      match ex with
      | Some e => (o :: rest, (w, Some e))
      | None => let '(rest, r) := mn_notify d rest w in (o :: rest, r)
      end
    else mn_notify d rest w
  end.
End MapNotifier.

(** ** DataStore *)

Record DataStore (U W : Type) := mkDataStore {
  data_map_ : gmap string (SharedData U);
  version_map_ : gmap string Z;
  notifiers_ : gmap string (list nat);
  expiration_manager_ : ExpirationManager;
  access_control_manager_ : access_policies;
  metrics_collector_ : MetricsCollector;
  log_manager_ : LogManager;
  ds_world : W
}.
Arguments mkDataStore {U W} _ _ _ _ _ _ _ _.
Arguments data_map_ {U W} _.
Arguments version_map_ {U W} _.
Arguments notifiers_ {U W} _.
Arguments expiration_manager_ {U W} _.
Arguments access_control_manager_ {U W} _.
Arguments metrics_collector_ {U W} _.
Arguments log_manager_ {U W} _.
Arguments ds_world {U W} _.

Section DataStore.
Context {U W : Type} `{!Observers U W} (type_name : TypeId -> string).
Implicit Types s : DataStore U W.

Definition newDataStore (w : W) : DataStore U W :=
  mkDataStore ∅ ∅ ∅ newExpirationManager ∅ resetMetrics (newLogManager 1000 1000) w.

Definition set_data (dm : gmap string (SharedData U)) s :=
  mkDataStore dm (version_map_ s) (notifiers_ s) (expiration_manager_ s) (access_control_manager_ s)
    (metrics_collector_ s) (log_manager_ s) (ds_world s).
Definition set_versions (vm : gmap string Z) s :=
  mkDataStore (data_map_ s) vm (notifiers_ s) (expiration_manager_ s) (access_control_manager_ s)
    (metrics_collector_ s) (log_manager_ s) (ds_world s).
Definition set_notifiers (n : gmap string (list nat)) (w : W) s :=
  mkDataStore (data_map_ s) (version_map_ s) n (expiration_manager_ s) (access_control_manager_ s)
    (metrics_collector_ s) (log_manager_ s) w.
Definition set_expiration (e : ExpirationManager) s :=
  mkDataStore (data_map_ s) (version_map_ s) (notifiers_ s) e (access_control_manager_ s)
    (metrics_collector_ s) (log_manager_ s) (ds_world s).
Definition set_access (a : access_policies) s :=
  mkDataStore (data_map_ s) (version_map_ s) (notifiers_ s) (expiration_manager_ s) a
    (metrics_collector_ s) (log_manager_ s) (ds_world s).
Definition set_collector (m : MetricsCollector) s :=
  mkDataStore (data_map_ s) (version_map_ s) (notifiers_ s) (expiration_manager_ s)
    (access_control_manager_ s) m (log_manager_ s) (ds_world s).
Definition set_logs (l : LogManager) s :=
  mkDataStore (data_map_ s) (version_map_ s) (notifiers_ s) (expiration_manager_ s)
    (access_control_manager_ s) (metrics_collector_ s) l (ds_world s).

Definition log_error (now : Z) (ty msg ctx : string) s := set_logs (logError now ty msg ctx (log_manager_ s)) s.
Definition log_access (now : Z) (op id : string) s := set_logs (logAccess now op id "" (log_manager_ s)) s.

Definition subscribe (id : string) (observer : option nat) s : DataStore U W :=
  match observer with
  | None => s
  | Some o =>
    set_notifiers (<[id := mn_subscribe o (default [] (notifiers_ s !! id))]> (notifiers_ s)) (ds_world s) s
  end.

Definition unsubscribe (id : string) (observer : option nat) s : DataStore U W :=
  match observer, notifiers_ s !! id with
  | Some o, Some subs =>
    set_notifiers (<[id := mn_unsubscribe (U := U) (ds_world s) o subs]> (notifiers_ s)) (ds_world s) s
  | _, _ => s
  end.

Definition notifySubscribers (now : Z) (d : SharedData U) s : DataStore U W :=
  match notifiers_ s !! sd_id d with
  | None => s
  | Some subs =>
    let '(subs, (w, ex)) := mn_notify d subs (ds_world s) in
    let s := set_notifiers (<[sd_id d := subs]> (notifiers_ s)) w s in
    match ex with
    | Some e => log_error now "callback_exception" e ("id=" +:+ sd_id d) s
    | None => s
    end
  end.

Definition ms : Z := 1000000.

(** The new record of [set] and [setVersioned]. *)
Definition new_data (now : Z) (id : string) (v : any U) (type : Z) (p : DataExpirationPolicy) : SharedData U :=
  mkShared id type v now (if bool_decide (policy_type p = TTL) then now + duration p * ms else 0).

(** The type tests of [set] against an existing entry: the message of the
    exception, if any. *)
Definition type_clash (id : string) (v : any U) (type : DataType) s : option string :=
  match data_map_ s !! id with
  | None => None
  | Some old =>
    if negb (sd_type old =? dt_val type) then Some ("Data type mismatch for existing ID: " +:+ id)
    else if negb (bool_decide (typeid (sd_value old) = typeid v)) then
      Some ("Value type mismatch for existing ID: " +:+ id +:+ " (expected: " +:+
            type_name (typeid (sd_value old)) +:+ ", got: " +:+ type_name (typeid v) +:+ ")")
    else None
  end.

Definition apply_policy (id : string) (now : Z) (p : DataExpirationPolicy) s : DataStore U W :=
  match policy_type p with
  | TTL => set_expiration (applyPolicy id (now + duration p * ms) (expiration_manager_ s)) s
  | LRU => set_expiration (applyLRUPolicy id (Z.to_nat (u64 (duration p))) (expiration_manager_ s)) s
  | NoPolicy => s
  end.

Definition set (clk : nat -> Z) (id : string) (v : any U) (type : DataType) (p : DataExpirationPolicy) s :
    result string unit * DataStore U W :=
  let d := new_data (clk 0%nat) id v (dt_val type) p in
  match type_clash id v type s with
  | Some e =>
    (Throw e, log_error (clk 2%nat) "set_failed" e ("id=" +:+ id)
                (log_error (clk 1%nat) "type_mismatch" e "" s))
  | None =>
    let s := set_data (<[id := d]> (data_map_ s)) s in
    let s := set_collector (incrementSet (metrics_collector_ s)) s in
    let s := log_access (clk 1%nat) "set" id s in
    let s := apply_policy id (clk 0%nat) p s in
    (Ok tt, notifySubscribers (clk 2%nat) d s)
  end.

(** The common body of [get] and [poll]. *)
Definition read (clk : nat -> Z) (op : string) (count : MetricsCollector -> MetricsCollector)
    (ty : TypeId) (id : string) s : result string (any U) * DataStore U W :=
  let fail kind msg :=
    (Throw msg, log_error (clk 1%nat) (op +:+ "_failed") msg ("id=" +:+ id) (log_error (clk 0%nat) kind msg "" s)) in
  match data_map_ s !! id with
  | None => fail "not_found" ("Data not found for ID: " +:+ id)
  | Some d =>
    if negb (bool_decide (typeid (sd_value d) = ty)) then fail "type_mismatch" ("Type mismatch for ID: " +:+ id)
    else
      let s := set_collector (count (metrics_collector_ s)) s in
      let s := log_access (clk 0%nat) op id s in
      (Ok (sd_value d), set_expiration (recordAccess id (expiration_manager_ s)) s)
  end.

Definition get (clk : nat -> Z) := read clk "get" incrementGet.
Definition poll (clk : nat -> Z) := read clk "poll" incrementPoll.

Record VersionedData := mkVersioned { vd_value : any U; vd_version : Z; vd_timestamp_ns : Z }.

Definition getVersioned (ty : TypeId) (id : string) s : result string VersionedData :=
  match data_map_ s !! id with
  | None => Throw ("DataStore::getVersioned: Key not found: " +:+ id)
  | Some d =>
    if bool_decide (typeid (sd_value d) = ty) then
      Ok (mkVersioned (sd_value d) (default 0 (version_map_ s !! id)) (u64 (sd_timestamp d)))
    else Throw "bad any_cast"
  end.

Definition setVersioned (clk : nat -> Z) (id : string) (v : any U) (type : DataType) s : DataStore U W :=
  let d := new_data (clk 0%nat) id v (dt_val type) (mkPolicy NoPolicy 0) in
  let s := set_data (<[id := d]> (data_map_ s)) s in
  let version := match version_map_ s !! id with None => 1 | Some n => u64 (n + 1) end in
  let s := set_versions (<[id := version]> (version_map_ s)) s in
  notifySubscribers (clk 1%nat) d s.

Definition applyExpirationPolicy (now : Z) (id : string) (p : DataExpirationPolicy) s : DataStore U W :=
  set_expiration (applyPolicy id (now + duration p * ms) (expiration_manager_ s)) s.

Definition removeExpirationPolicy (id : string) s : DataStore U W :=
  set_expiration (removePolicy id (expiration_manager_ s)) s.

Definition erase_ttl (key : string) s : DataStore U W :=
  set_expiration (removeLRUPolicy key (removePolicy key (expiration_manager_ s)))
    (set_data (delete key (data_map_ s)) s).

Definition erase_lru (key : string) s : DataStore U W :=
  set_expiration (removePolicy key (expiration_manager_ s)) (set_data (delete key (data_map_ s)) s).

Definition cleanExpiredData (now : Z) s : DataStore U W :=
  let s := foldl (flip erase_ttl) s (getExpiredKeys now (expiration_manager_ s)) in
  let '(keys, e) := getExpiredKeysLRU (expiration_manager_ s) in
  foldl (flip erase_lru) (set_expiration e s) keys.

Definition getCurrentDataCount s : nat := size (data_map_ s).

Definition setAccessPolicy (id module_id : string) (can_access : bool) s : DataStore U W :=
  set_access (acl_setPolicy id module_id can_access (access_control_manager_ s)) s.

Definition hasAccess (id module_id : string) s : bool := acl_hasAccess id module_id (access_control_manager_ s).

(** *** saveState and loadState *)

(** A field of a JSON object: absent, of another JSON type, or a value. *)
Inductive field (A : Type) := Missing | WrongType | Field (x : A).
Arguments Missing {A}.
Arguments WrongType {A}.
Arguments Field {A} _.

Definition present {A} (f : field A) : bool := match f with Missing => false | _ => true end.

Section Json.
Context {J : Type}.

Record JItem := mkItem {
  item_id : field string;
  item_type : field Z;
  item_value_type : field string;
  item_value : option J
}.

Record JDoc := mkDoc { doc_version : field Z; doc_data : field (list JItem) }.

(** The JSON library: the value made from a C++ value, [get<T>()], and the text
    of a document. *)
Class Json (F : Type) := {
  json_of : any U -> J;
  json_get : TypeId -> J -> result string (any U);
  json_text_ok : J -> bool;      (* finite numbers and valid UTF-8 *)
  dump : JDoc -> F;
  json_parse : F -> result string JDoc
}.

(** What [saveState] can write. *)
Definition type_tag (ty : TypeId) : option string :=
  match ty with
  | TInt => Some "int" | TDouble => Some "double" | TFloat => Some "float" | TString => Some "string"
  | TBool => Some "bool" | TLong => Some "long" | TOther _ => None
  end.

Definition tag_type (s : string) : option TypeId :=
  if bool_decide (s = "int") then Some TInt
  else if bool_decide (s = "double") then Some TDouble
  else if bool_decide (s = "float") then Some TFloat
  else if bool_decide (s = "string") then Some TString
  else if bool_decide (s = "bool") then Some TBool
  else if bool_decide (s = "long") then Some TLong
  else None.

Class JsonLaws (F : Type) `{!Json F} : Prop := {
  json_get_of v tag : type_tag (typeid v) = Some tag -> json_get (typeid v) (json_of v) = Ok v;
  json_parse_dump d :
    match doc_data d with
    | Field l => forallb (λ i, match item_value i with Some j => json_text_ok j | None => true end) l
    | _ => true
    end = true -> json_parse (dump d) = Ok d
}.

(** The iteration order of a TBB hash map. *)
Class HashIter := hash_iter : gmap string (SharedData U) -> list (string * SharedData U).
Class HashIterLaws `{!HashIter} : Prop := hash_iter_perm m : hash_iter m ≡ₚ map_to_list m.

Context {F : Type} `{!Json F} `{!HashIter}.

Definition save_item (d : SharedData U) : option JItem :=
  tag ← type_tag (typeid (sd_value d));
  Some (mkItem (Field (sd_id d)) (Field (sd_type d)) (Field tag) (Some (json_of (sd_value d)))).

Definition state_doc s : JDoc :=
  mkDoc (Field 1) (Field (omap (λ kv, save_item (snd kv)) (hash_iter (data_map_ s)))).

(** Files by path, and what the file system does with the calls of one
    [saveState]. *)
Inductive IoOutcome := OpenFails | WriteFails (partial : F) | RenameFails | IoOk.

Definition saveState (io : IoOutcome) (path : string) (files : gmap string F) s :
    result string unit * gmap string F :=
  let temp := path +:+ ".tmp" in
  let fail why := Throw ("Failed to save DataStore state: " +:+ why) in
  let text := dump (state_doc s) in
  match io with
  | OpenFails =>
    (fail ("Failed to open temporary file for saving state: " +:+ temp), delete temp files)
  | WriteFails partial =>
    (fail ("Failed to write state to temporary file: " +:+ temp), delete temp (<[temp := partial]> files))
  | RenameFails => (fail "rename", delete temp (<[temp := text]> files))
  | IoOk => (Ok tt, <[path := text]> (delete temp files))
  end.

(** One item of the array; [Throw] is an exception that leaves [loadState]. *)
Definition load_item (now : Z) (i : JItem) (dm : gmap string (SharedData U)) :
    result string (gmap string (SharedData U)) :=
  match item_value i with
  | Some j =>
    if present (item_id i) && present (item_type i) && present (item_value_type i) then
      match item_id i, item_type i, item_value_type i with
      | Field id, Field type, Field value_type =>
        match tag_type value_type with
        | None => Ok dm
        | Some ty =>
          match json_get ty j with
          | Ok v => Ok (<[id := mkShared id (i32 type) v now 0]> dm)
          | Throw _ => Ok dm
          end
        end
      | _, _, _ => Throw "type_error"
      end
    else Ok dm
  | None => Ok dm
  end.

Fixpoint load_items (clk : nat -> Z) (l : list JItem) (dm : gmap string (SharedData U)) :
    result string unit * gmap string (SharedData U) :=
  match l with
  | [] => (Ok tt, dm)
  | i :: l =>
    match load_item (clk 0%nat) i dm with
    | Ok dm => load_items (clk ∘ S) l dm
    | Throw e => (Throw e, dm)
    end
  end.

Definition loadState (clk : nat -> Z) (path : string) (files : gmap string F) (version_text : Z -> string) s :
    result string unit * DataStore U W :=
  match files !! path with
  | None => (Throw ("Failed to open file for loading state: " +:+ path), s)
  | Some text =>
    match json_parse text with
    | Throw e => (Throw ("Failed to parse JSON file: " +:+ e), s)
    | Ok doc =>
      match doc_version doc with
      | Field version =>
        if negb (i32 version =? 1) then
          (Throw ("Unsupported state file version: " +:+ version_text (i32 version)), s)
        else
          match doc_data doc with
          | Field items =>
            let '(r, dm) := load_items clk items ∅ in (r, set_data dm s)
          | _ => (Throw "Invalid or missing data array in state file", s)
          end
      | _ => (Throw "Invalid or missing version in state file", s)
      end
    end
  end.
End Json.
End DataStore.

(** ** Runs of the store *)

Section Runs.
Context {U W : Type} `{!Observers U W} (type_name : TypeId -> string).
Implicit Types s : DataStore U W.

Inductive DsOp :=
| SetOp (clk : nat -> Z) (id : string) (v : any U) (type : DataType) (p : DataExpirationPolicy)
| GetOp (clk : nat -> Z) (ty : TypeId) (id : string)
| PollOp (clk : nat -> Z) (ty : TypeId) (id : string)
| SetVersionedOp (clk : nat -> Z) (id : string) (v : any U) (type : DataType)
| SubscribeOp (id : string) (o : option nat)
| UnsubscribeOp (id : string) (o : option nat)
| ApplyExpirationOp (now : Z) (id : string) (p : DataExpirationPolicy)
| RemoveExpirationOp (id : string)
| CleanOp (now : Z)
| SetAccessOp (id module_id : string) (can_access : bool)
| WorldOp (f : W -> W).           (* observers come and go *)

Definition ds_exec (o : DsOp) s : DataStore U W :=
  match o with
  | SetOp clk id v type p => snd (set type_name clk id v type p s)
  | GetOp clk ty id => snd (get clk ty id s)
  | PollOp clk ty id => snd (poll clk ty id s)
  | SetVersionedOp clk id v type => setVersioned clk id v type s
  | SubscribeOp id o => subscribe id o s
  | UnsubscribeOp id o => unsubscribe id o s
  | ApplyExpirationOp now id p => applyExpirationPolicy now id p s
  | RemoveExpirationOp id => removeExpirationPolicy id s
  | CleanOp now => cleanExpiredData now s
  | SetAccessOp id m b => setAccessPolicy id m b s
  | WorldOp f => set_notifiers (notifiers_ s) (f (ds_world s)) s
  end.

Definition ds_run (os : list DsOp) s : DataStore U W := foldl (λ s o, ds_exec o s) s os.

(** *** What the parts of a call leave alone *)

Lemma notify_frame now d s :
  let s' := notifySubscribers now d s in
  data_map_ s' = data_map_ s /\ version_map_ s' = version_map_ s /\
  expiration_manager_ s' = expiration_manager_ s.
Proof.
  unfold notifySubscribers. destruct (notifiers_ s !! sd_id d); [|done].
  destruct (mn_notify d l (ds_world s)) as [subs [w [e|]]]; done.
Qed.

Lemma set_effect clk id v type p s :
  type_clash type_name id v type s = None ->
  let s' := snd (set type_name clk id v type p s) in
  data_map_ s' = <[id := new_data (clk 0%nat) id v (dt_val type) p]> (data_map_ s) /\
  expiration_manager_ s' = expiration_manager_ (apply_policy id (clk 0%nat) p s).
Proof.
  intros Hc. unfold set. rewrite Hc. simpl.
  match goal with |- context [notifySubscribers ?n ?d ?x] => destruct (notify_frame n d x) as (-> & _ & ->) end.
  unfold apply_policy. by destruct (policy_type p).
Qed.

Lemma set_refused clk id v type p s e :
  type_clash type_name id v type s = Some e ->
  let s' := snd (set type_name clk id v type p s) in
  fst (set type_name clk id v type p s) = Throw e /\ data_map_ s' = data_map_ s /\
  expiration_manager_ s' = expiration_manager_ s /\ notifiers_ s' = notifiers_ s /\
  metrics_collector_ s' = metrics_collector_ s /\ ds_world s' = ds_world s.
Proof. intros Hc. unfold set. by rewrite Hc. Qed.

(** The key is free or holds a value of the same types. *)
Definition accepts (id : string) (v : any U) (type : DataType) s : bool :=
  match data_map_ s !! id with
  | Some d => (sd_type d =? dt_val type) && bool_decide (typeid (sd_value d) = typeid v)
  | None => true
  end.

Lemma type_clash_accepts id v type s :
  accepts id v type s = match type_clash type_name id v type s with None => true | Some _ => false end.
Proof.
  unfold accepts, type_clash. destruct (data_map_ s !! id) as [d|]; [|done].
  destruct (sd_type d =? dt_val type); simpl; [|done]. by case_bool_decide.
Qed.

(** C25: the store is type-safe and remembers what it is given.  A set is refused
    exactly when the key holds a value of another DataType or C++ type; then it
    throws and changes nothing but the error log.  Otherwise get and poll with
    the type of the value return exactly the value, with any other type they
    throw, and every other key keeps its entry.  This holds for observers whose
    callbacks do not themselves call the store, whether they throw or not. *)
Theorem set_then_get clk clk' id v type p s :
  let '(r, s') := set type_name clk id v type p s in
  if accepts id v type s then
    r = Ok tt /\ fst (get clk' (typeid v) id s') = Ok v /\ fst (poll clk' (typeid v) id s') = Ok v /\
    (forall ty, ty <> typeid v -> fst (get clk' ty id s') = Throw ("Type mismatch for ID: " +:+ id) /\
                                  fst (poll clk' ty id s') = Throw ("Type mismatch for ID: " +:+ id)) /\
    forall k, k <> id -> data_map_ s' !! k = data_map_ s !! k
  else
    (exists e, r = Throw e) /\ data_map_ s' = data_map_ s /\
    expiration_manager_ s' = expiration_manager_ s /\ notifiers_ s' = notifiers_ s /\
    metrics_collector_ s' = metrics_collector_ s /\ ds_world s' = ds_world s.
Proof.
  rewrite type_clash_accepts. destruct (set type_name clk id v type p s) as [r s'] eqn:Es.
  destruct (type_clash type_name id v type s) as [e|] eqn:Hc.
  - destruct (set_refused clk id v type p s e Hc) as (Hr & H). rewrite Es in Hr, H. simpl in *. eauto.
  - destruct (set_effect clk id v type p s Hc) as [Hd _]. rewrite Es in Hd. simpl in Hd.
    assert (Hr : r = Ok tt) by (unfold set in Es; rewrite Hc in Es; by simplify_eq).
    unfold get, poll, read. rewrite Hd, lookup_insert_eq. simpl. rewrite bool_decide_true by done. simpl.
    split_and!; try done.
    + intros ty Hty. by rewrite bool_decide_false by congruence.
    + intros k Hk. by rewrite lookup_insert_ne.
Qed.

(** *** Cleaning *)

Abbreviation exp_of s := (exp_abs (expiration_manager_ s)).

Lemma erase_ttl_step key s :
  exp_ok (expiration_manager_ s) ->
  exp_ok (expiration_manager_ (erase_ttl key s)) /\
  data_map_ (erase_ttl key s) = delete key (data_map_ s) /\
  exp_of (erase_ttl key s) = mkExpiry (delete key (times (exp_of s))) (without key (recent (exp_of s)))
                                      (capacity (exp_of s)).
Proof.
  intros Hok. destruct (exp_exec_abs (RemoveTTL key) _ Hok) as (Hok1 & _ & Ha1).
  destruct (exp_exec_abs (RemoveLRU key) _ Hok1) as (Hok2 & _ & Ha2).
  split_and!; [done|done|]. cbn [exp_exec spec_exec fst snd] in Ha1, Ha2. rewrite Ha1 in Ha2. exact Ha2.
Qed.

Lemma erase_lru_step key s :
  exp_ok (expiration_manager_ s) ->
  exp_ok (expiration_manager_ (erase_lru key s)) /\
  data_map_ (erase_lru key s) = delete key (data_map_ s) /\
  exp_of (erase_lru key s) = mkExpiry (delete key (times (exp_of s))) (recent (exp_of s)) (capacity (exp_of s)).
Proof. intros Hok. destruct (exp_exec_abs (RemoveTTL key) _ Hok) as (Hok1 & _ & Ha1). done. Qed.

Lemma delete_lookup {A} (k key : string) (m : gmap string A) :
  delete key m !! k = if decide (k = key) then None else m !! k.
Proof.
  destruct (decide (k = key)) as [->|Hne]; [by rewrite lookup_delete_eq|by rewrite lookup_delete_ne].
Qed.

Lemma keep_all (l : list string) : filter (λ k, k ∉ []) l = l.
Proof.
  induction l as [|x l IH]; [done|]. rewrite filter_cons, decide_True by apply not_elem_of_nil.
  by rewrite IH.
Qed.

Lemma erase_ttl_all keys s :
  exp_ok (expiration_manager_ s) ->
  let s' := foldl (flip erase_ttl) s keys in
  exp_ok (expiration_manager_ s') /\
  (forall k, data_map_ s' !! k = if decide (k ∈ keys) then None else data_map_ s !! k) /\
  (forall k, times (exp_of s') !! k = if decide (k ∈ keys) then None else times (exp_of s) !! k) /\
  recent (exp_of s') = filter (λ k, k ∉ keys) (recent (exp_of s)) /\
  capacity (exp_of s') = capacity (exp_of s).
Proof.
  revert s. induction keys as [|key keys IH]; intros s Hok; simpl.
  { split_and!; try done. by rewrite keep_all. }
  change (flip erase_ttl s key) with (erase_ttl key s). destruct (erase_ttl_step key s Hok) as (Hok1 & Hd & He).
  destruct (IH _ Hok1) as (Hok2 & Hd2 & Ht2 & Hr2 & Hc2). clear IH.
  rewrite Hd in Hd2. rewrite He in Ht2, Hr2, Hc2. simpl in *.
  split_and!; [done|..|done].
  - intros k. rewrite Hd2, delete_lookup. repeat case_decide; set_solver.
  - intros k. rewrite Ht2, delete_lookup. repeat case_decide; set_solver.
  - rewrite Hr2. unfold without. rewrite list_filter_filter. apply list_filter_iff.
    intros x. rewrite elem_of_cons. tauto.
Qed.

Lemma erase_lru_all keys s :
  exp_ok (expiration_manager_ s) ->
  let s' := foldl (flip erase_lru) s keys in
  exp_ok (expiration_manager_ s') /\
  (forall k, data_map_ s' !! k = if decide (k ∈ keys) then None else data_map_ s !! k) /\
  (forall k, times (exp_of s') !! k = if decide (k ∈ keys) then None else times (exp_of s) !! k) /\
  recent (exp_of s') = recent (exp_of s).
Proof.
  revert s. induction keys as [|key keys IH]; intros s Hok; simpl; [done|].
  change (flip erase_lru s key) with (erase_lru key s).
  destruct (erase_lru_step key s Hok) as (Hok1 & Hd & He).
  destruct (IH _ Hok1) as (Hok2 & Hd2 & Ht2 & Hr2). clear IH.
  rewrite Hd in Hd2. rewrite He in Ht2, Hr2. simpl in *.
  split_and!; [done|..|done].
  - intros k. rewrite Hd2, delete_lookup. repeat case_decide; set_solver.
  - intros k. rewrite Ht2, delete_lookup. repeat case_decide; set_solver.
Qed.

(** The keys that have expired at [now], and those beyond the LRU capacity once
    the expired ones are gone. *)
Definition is_due (now : Z) (m : ExpirationManager) (k : string) : bool :=
  match getExpirationTime k m with Ok t => t <=? now | Throw _ => false end.

Definition live_keys (now : Z) (m : ExpirationManager) : list string :=
  filter (λ k, is_due now m k = false) (map snd (lru_list_ m)).

Definition is_removed (now : Z) (m : ExpirationManager) (k : string) : bool :=
  is_due now m k || bool_decide (k ∈ drop (getLRUCapacity m) (live_keys now m)).

Lemma is_due_spec now m k : exp_ok m -> is_due now m k = bool_decide (k ∈ getExpiredKeys now m).
Proof.
  intros Hok. destruct (exp_exec_abs (GetExpired now) m Hok) as (_ & [=->] & _).
  symmetry. unfold is_due, getExpirationTime. pose proof (due_elem now (exp_abs m) k) as Hdue. simpl in Hdue.
  destruct (key_to_expiration_ m !! k) as [t|].
  - destruct (Z.leb_spec t now); [apply bool_decide_eq_true, Hdue; eauto|].
    apply bool_decide_eq_false. intros (? & [= <-] & ?)%Hdue. lia.
  - apply bool_decide_eq_false. by intros (? & ? & ?)%Hdue.
Qed.

Lemma clean_spec now s :
  exp_ok (expiration_manager_ s) ->
  let m := expiration_manager_ s in
  let s' := cleanExpiredData now s in
  exp_ok (expiration_manager_ s') /\
  (forall k, data_map_ s' !! k = if is_removed now m k then None else data_map_ s !! k) /\
  (forall k, times (exp_of s') !! k = if is_removed now m k then None else times (exp_of s) !! k) /\
  recent (exp_of s') = take (getLRUCapacity m) (live_keys now m).
Proof.
  intros Hok m s'. subst s'. unfold cleanExpiredData. fold m.
  destruct (erase_ttl_all (getExpiredKeys now m) s Hok) as (Hok1 & Hd1 & Ht1 & Hr1 & Hc1).
  set (s1 := foldl (flip erase_ttl) s (getExpiredKeys now m)) in *.
  destruct (exp_exec_abs EvictLRU _ Hok1) as (Hok2 & Hans & Habs). cbn [exp_exec spec_exec fst snd] in *.
  destruct (getExpiredKeysLRU (expiration_manager_ s1)) as [keys e]. cbn [fst snd] in *. injection Hans as ->.
  destruct (erase_lru_all (reverse (drop (capacity (exp_of s1)) (recent (exp_of s1)))) (set_expiration e s1))
    as (Hok3 & Hd3 & Ht3 & Hr3); [done|]. simpl expiration_manager_ in Ht3, Hr3. rewrite Habs in Ht3, Hr3.
  assert (Hlive : recent (exp_of s1) = live_keys now m).
  { rewrite Hr1. unfold live_keys. apply list_filter_iff. intros k. rewrite is_due_spec by done.
    by rewrite bool_decide_eq_false. }
  assert (Hrem : forall k, is_removed now m k =
    bool_decide (k ∈ getExpiredKeys now m \/ k ∈ reverse (drop (capacity (exp_of s1)) (recent (exp_of s1))))).
  { intros k. unfold is_removed. rewrite is_due_spec by done. rewrite Hc1, Hlive.
    rewrite (bool_decide_ext (_ \/ _) (k ∈ getExpiredKeys now m \/ k ∈ drop (getLRUCapacity m) (live_keys now m)))
      by (rewrite elem_of_reverse; done). by rewrite bool_decide_or. }
  split_and!; [done|..].
  - intros k. rewrite Hd3, Hrem. simpl. rewrite Hd1. repeat case_decide; case_bool_decide; naive_solver.
  - intros k. rewrite Ht3, Hrem. simpl times. rewrite Ht1. repeat case_decide; case_bool_decide; naive_solver.
  - rewrite Hr3. cbn [recent]. by rewrite Hc1, Hlive.
Qed.

(** *** Invariant *)

Record ds_ok s : Prop := {
  d_exp : exp_ok (expiration_manager_ s);
  d_ids : forall k d, data_map_ s !! k = Some d -> sd_id d = k /\ i32 (sd_type d) = sd_type d
}.

Lemma dt_val_i32 t : i32 (dt_val t) = dt_val t.
Proof. by destruct t. Qed.

Lemma ids_insert now id (v : any U) type p (dm : gmap string (SharedData U)) :
  (forall k d, dm !! k = Some d -> sd_id d = k /\ i32 (sd_type d) = sd_type d) ->
  forall k d, <[id := new_data now id v (dt_val type) p]> dm !! k = Some d ->
    sd_id d = k /\ i32 (sd_type d) = sd_type d.
Proof.
  intros H k d [[<- <-]|[_ Hk]]%lookup_insert_Some; [|by apply H].
  simpl. split; [done|]. apply dt_val_i32.
Qed.

Lemma exp_step_ok (o : ExpOp) m : exp_ok m -> exp_ok (snd (exp_exec o m)).
Proof. intros Hok. by apply exp_exec_abs. Qed.

Lemma apply_policy_ok id now p s :
  exp_ok (expiration_manager_ s) -> exp_ok (expiration_manager_ (apply_policy id now p s)).
Proof.
  intros Hok. unfold apply_policy. destruct (policy_type p); simpl; [| |done].
  - by apply (exp_step_ok (ApplyTTL id (now + duration p * ms))).
  - by apply (exp_step_ok (ApplyLRU id (Z.to_nat (u64 (duration p))))).
Qed.

Lemma read_ok clk op count ty id s : ds_ok s -> ds_ok (snd (read clk op count ty id s)).
Proof.
  intros [He Hi]. unfold read. destruct (data_map_ s !! id); [|done].
  destruct (negb _); [done|]. split; [|done]. by apply (exp_step_ok (RecordAccess id)).
Qed.

Lemma ds_exec_ok o s : ds_ok s -> ds_ok (ds_exec o s).
Proof.
  intros Hok. pose proof Hok as [He Hi]. destruct o; cbn [ds_exec].
  - destruct (type_clash type_name id v type s) as [e|] eqn:Hc.
    + destruct (set_refused clk id v type p s e Hc) as (_ & Hd & Hx & _). split; [by rewrite Hx|by rewrite Hd].
    + destruct (set_effect clk id v type p s Hc) as (Hd & Hx).
      split; [rewrite Hx; by apply apply_policy_ok|rewrite Hd; by apply ids_insert].
  - by apply read_ok.
  - by apply read_ok.
  - unfold setVersioned. match goal with |- ds_ok (notifySubscribers ?n ?d ?x) =>
      destruct (notify_frame n d x) as (Hd & _ & Hx) end.
    split; [by rewrite Hx|rewrite Hd; by apply ids_insert].
  - destruct o; by split.
  - unfold unsubscribe. repeat case_match; by split.
  - split; [|done]. by apply (exp_step_ok (ApplyTTL id (now + duration p * ms))).
  - split; [|done]. by apply (exp_step_ok (RemoveTTL id)).
  - destruct (clean_spec now s He) as (He' & Hd & _ & _). split; [done|].
    intros k d. rewrite Hd. destruct (is_removed _ _ _); [done|apply Hi].
  - by split.
  - by split.
Qed.

Lemma ds_run_ok os w : ds_ok (ds_run os (newDataStore w)).
Proof.
  assert (Hnew : ds_ok (newDataStore (U := U) w)) by (split; [apply exp_ok_new|done]).
  revert Hnew. unfold ds_run. generalize (newDataStore (U := U) w).
  induction os as [|o os IH]; intros s Hs; [done|]. by apply IH, ds_exec_ok.
Qed.

(** Cleaning removes exactly what has expired.  In every reachable state,
    cleanExpiredData deletes the keys whose expiration time is not after now and
    the least recently used keys beyond the capacity among the others, and no
    other entry; afterwards no key is expired, the deleted keys have no policy,
    and at most capacity keys are tracked, in their order of use. *)
Theorem clean_removes_exactly_the_expired os w now :
  let s := ds_run os (newDataStore w) in
  let m := expiration_manager_ s in
  let s' := cleanExpiredData now s in
  let m' := expiration_manager_ s' in
  (forall k, data_map_ s' !! k = if is_removed now m k then None else data_map_ s !! k) /\
  getExpiredKeys now m' = [] /\
  (forall k, hasPolicy k m' = negb (is_removed now m k) && hasPolicy k m) /\
  map snd (lru_list_ m') = take (getLRUCapacity m) (live_keys now m).
Proof.
  intros s m s' m'. destruct (ds_run_ok os w) as [He _].
  destruct (clean_spec now s He) as (He' & Hd & Ht & Hr). fold m s' m' in He', Hd, Ht, Hr.
  split_and!; [done| | |done].
  - apply elem_of_nil_inv. intros k Hk. assert (Hdue : is_due now m' k = true).
    { rewrite is_due_spec by done. by apply bool_decide_eq_true. }
    unfold is_due, getExpirationTime in Hdue. change (key_to_expiration_ m' !! k) with (times (exp_abs m') !! k) in Hdue.
    rewrite Ht in Hdue. destruct (is_removed now m k) eqn:Hrem; [done|].
    unfold is_removed in Hrem. apply orb_false_iff in Hrem as [Hnd _].
    unfold is_due, getExpirationTime in Hnd. simpl in Hdue. congruence.
  - intros k. unfold hasPolicy. change (key_to_expiration_ m' !! k) with (times (exp_abs m') !! k).
    rewrite Ht. by destruct (is_removed now m k).
Qed.

(** A set without a policy keeps the expiration time of the value it replaces.
    The new entry itself says that it does not expire ([sd_expiration_time] is
    0), but cleaning after the old time deletes it. *)
Theorem plain_set_keeps_old_expiry os w clk id v type t now :
  let s := ds_run os (newDataStore w) in
  getExpirationTime id (expiration_manager_ s) = Ok t -> accepts id v type s = true -> t <= now ->
  let s' := snd (set type_name clk id v type (mkPolicy NoPolicy 0) s) in
  sd_expiration_time <$> data_map_ s' !! id = Some 0 /\
  data_map_ (cleanExpiredData now s') !! id = None.
Proof.
  intros s Ht Hacc Hle s'. rewrite type_clash_accepts in Hacc.
  destruct (type_clash type_name id v type s) eqn:Hc; [done|].
  destruct (set_effect clk id v type (mkPolicy NoPolicy 0) s Hc) as [Hd Hx]. fold s' in Hd, Hx.
  split; [by rewrite Hd, lookup_insert_eq|].
  destruct (clean_spec now s') as (_ & Hclean & _ & _); [rewrite Hx; apply (d_exp _ (ds_run_ok os w))|].
  rewrite Hclean. unfold is_removed, is_due. rewrite Hx.
  change (apply_policy _ _ _ s) with s. rewrite Ht.
  by replace (t <=? now) with true by (symmetry; by apply Z.leb_le).
Qed.
End Runs.

(** ** Saving and loading *)

Section SaveLoad.
Context {U W : Type} `{!Observers U W} (type_name : TypeId -> string).
Context {J F : Type} `{!Json (U := U) (J := J) F} `{!JsonLaws F} `{!HashIter (U := U)} `{!HashIterLaws (U := U)}.
Implicit Types s : DataStore U W.

(** What survives a restart of an entry: everything but the two times. *)
Definition core (d : SharedData U) : string * Z * any U := (sd_id d, sd_type d, sd_value d).

Definition saved (d : SharedData U) : option (string * Z * any U) :=
  match type_tag (typeid (sd_value d)) with Some _ => Some (core d) | None => None end.

Lemma tag_type_tag ty tag : type_tag ty = Some tag -> tag_type tag = Some ty.
Proof. destruct ty; simpl; by intros [= <-]. Qed.

Lemma load_saved_item now d i dm :
  i32 (sd_type d) = sd_type d -> save_item d = Some i ->
  load_item now i dm = Ok (<[sd_id d := mkShared (sd_id d) (sd_type d) (sd_value d) now 0]> dm).
Proof.
  unfold save_item. intros Ht Hi. destruct (type_tag (typeid (sd_value d))) as [tag|] eqn:Etag; [|done].
  simplify_eq/=. unfold load_item. simpl. rewrite (tag_type_tag _ _ Etag), (json_get_of _ tag) by done.
  by rewrite Ht.
Qed.

Lemma load_saved_items clk (l : list (string * SharedData U)) dm :
  NoDup l.*1 -> Forall (λ kd, sd_id (snd kd) = fst kd /\ i32 (sd_type (snd kd)) = sd_type (snd kd)) l ->
  exists dm', load_items clk (omap (λ kv, save_item (snd kv)) l) dm = (Ok tt, dm') /\
    forall k, core <$> dm' !! k =
      match (list_to_map l : gmap string (SharedData U)) !! k with
      | Some d => match saved d with Some c => Some c | None => core <$> dm !! k end
      | None => core <$> dm !! k
      end.
Proof.
  revert clk dm. induction l as [|[k d] l IH]; intros clk dm Hnd Hall; simpl.
  { exists dm. split; [done|]. intros k. by rewrite lookup_empty. }
  apply NoDup_cons in Hnd as [Hni Hnd]. inversion Hall as [|? ? [Hid Ht] Hall']. simpl in *. subst.
  destruct (save_item d) as [i|] eqn:Ei; simpl.
  - rewrite (load_saved_item _ _ _ _ Ht Ei).
    destruct (IH (clk ∘ S) (<[sd_id d := mkShared (sd_id d) (sd_type d) (sd_value d) (clk 0%nat) 0]> dm) Hnd Hall')
      as (dm' & Heq & Hdm'). exists dm'. split; [exact Heq|]. intros k'. rewrite Hdm'.
    destruct (decide (k' = sd_id d)) as [->|Hne].
    + rewrite lookup_insert_eq, not_elem_of_list_to_map_1, lookup_insert_eq by done.
      unfold saved, save_item in *. by destruct (type_tag _).
    + by rewrite !lookup_insert_ne by done.
  - destruct (IH clk dm Hnd Hall') as (dm' & Heq & Hdm'). exists dm'. split; [exact Heq|]. intros k'. rewrite Hdm'.
    destruct (decide (k' = sd_id d)) as [->|Hne]; [|by rewrite lookup_insert_ne].
    rewrite lookup_insert_eq, not_elem_of_list_to_map_1 by done.
    unfold saved, save_item in *. by destruct (type_tag _).
Qed.

Lemma string_app_ne p : p +:+ ".tmp" <> p.
Proof. induction p as [|c p IH]; simpl; [done|]. intros [= H]. done. Qed.

Lemma state_doc_text s :
  (forall k d, data_map_ s !! k = Some d -> json_text_ok (json_of (sd_value d)) = true) ->
  forallb (λ i, match item_value i with Some j => json_text_ok (Json := Json0) j | None => true end)
    (omap (λ kv, save_item (snd kv)) (hash_iter (data_map_ s))) = true.
Proof.
  intros Hok. apply forallb_forall. intros i (kd & Hin & Hi)%list_elem_of_In%list_elem_of_omap.
  rewrite hash_iter_perm in Hin. destruct kd as [k d]. apply elem_of_map_to_list in Hin.
  unfold save_item in Hi. simpl in Hi. destruct (type_tag _); simplify_eq/=. by eapply Hok.
Qed.

(** The saved state is complete and saving is atomic.  In every reachable
    state whose values can be written as JSON text, loading what saveState wrote
    into any store gives exactly the entries of the six supported types, with
    their identifiers, types and values; entries of other types are left out.
    When writing fails at any point, saveState throws and the file that was
    there before is unchanged. *)
Theorem save_load_roundtrip os w clk path files text s0 :
  let s := ds_run type_name os (newDataStore w) in
  (forall k d, data_map_ s !! k = Some d -> json_text_ok (json_of (sd_value d)) = true) ->
  (let '(r, files') := saveState IoOk path files s in
   let '(r', s') := loadState clk path files' text s0 in
   r = Ok tt /\ r' = Ok tt /\
   forall k, core <$> data_map_ s' !! k = data_map_ s !! k ≫= saved) /\
  (forall io, io <> IoOk ->
   exists e, saveState io path files s = (Throw e, delete (path +:+ ".tmp") files) /\
     delete (path +:+ ".tmp") files !! path = files !! path).
Proof.
  intros s Htext. split.
  - unfold saveState, loadState. rewrite lookup_insert_eq.
    rewrite json_parse_dump by (simpl; by apply state_doc_text). simpl.
    destruct (load_saved_items clk (hash_iter (data_map_ s)) ∅) as (dm' & -> & Hdm').
    + rewrite hash_iter_perm. apply NoDup_fst_map_to_list.
    + rewrite hash_iter_perm. apply Forall_forall. intros [k d] Hin%elem_of_map_to_list. simpl.
      by apply (d_ids _ (ds_run_ok type_name os w)).
    + split_and!; [done|done|]. intros k. simpl. rewrite Hdm', lookup_empty. simpl.
      assert (Hmap : (list_to_map (hash_iter (data_map_ s)) : gmap string (SharedData U)) = data_map_ s).
      { rewrite (list_to_map_proper _ (map_to_list (data_map_ s))).
        - apply list_to_map_to_list.
        - rewrite hash_iter_perm. apply NoDup_fst_map_to_list.
        - apply hash_iter_perm. }
      rewrite Hmap. destruct (data_map_ s !! k); simpl; [|done]. unfold saved. by destruct (type_tag _).
  - intros io Hio. unfold saveState.
    assert (Hdel : delete (path +:+ ".tmp") files !! path = files !! path)
      by (apply lookup_delete_ne, string_app_ne).
    destruct io; [eexists; split; [reflexivity|done]| | |done];
      (eexists; split; [rewrite delete_insert_eq; reflexivity|done]).
Qed.
End SaveLoad.

(** ** Example runs *)

Module DataStoreExamples.
(** Every observer is alive and records what it is told. *)
#[export] Instance recording_observers : Observers unit (list (nat * string)) := {|
  obs_alive _ _ := true;
  onDataChanged o d w := (w ++ [(o, sd_id d)], None)
|}.

(** A JSON library whose text is the document. *)
#[export] Instance tree_json : Json (U := unit) (J := any unit) (JDoc (J := any unit)) := {|
  json_of v := v;
  json_get ty j := if bool_decide (typeid j = ty) then Ok j else Throw "type_error";
  json_text_ok _ := true;
  dump d := d;
  json_parse d := Ok d
|}.

#[export] Instance tree_json_laws : JsonLaws (U := unit) (JDoc (J := any unit)).
Proof. split; [|done]. intros v tag _. simpl. by rewrite bool_decide_true. Defined.

#[export] Instance list_iter : HashIter (U := unit) := map_to_list.
#[export] Instance list_iter_laws : HashIterLaws (U := unit).
Proof. intros m. done. Defined.

Definition empty_store : DataStore unit (list (nat * string)) := newDataStore [].
Definition clk : nat -> Z := λ i, 1000 + Z.of_nat i.
Definition names : TypeId -> string := λ _, "t".

Definition example_ops : list (DsOp (U := unit) (W := list (nat * string))) :=
  [SubscribeOp "mode" (Some 7%nat);
   SetOp clk "mode" (ValInt 3) RobotMode (mkPolicy TTL 5);
   SetOp clk "blob" (ValOther "map" tt) AlarmData (mkPolicy NoPolicy 0)].
End DataStoreExamples.
Import DataStoreExamples.

Example example_store_notifies : ds_world (ds_run names example_ops (newDataStore [])) = [(7%nat, "mode")].
Proof. by_compute. Qed.

Lemma save_load_roundtrip_witness :
  let s := ds_run names example_ops (newDataStore []) in
  let '(r, files') := saveState IoOk "state.json" ∅ s in
  let '(r', s') := loadState clk "state.json" files' (λ _, "") empty_store in
  r = Ok tt /\ r' = Ok tt /\
  forall k, core <$> data_map_ s' !! k = data_map_ s !! k ≫= saved.
Proof.
  apply (save_load_roundtrip names example_ops [] clk "state.json" ∅ (λ _, "") empty_store).
  intros k d _. reflexivity.
Defined.
