(* ===== verification/StoreCallbacks.v ===== *)
(** * Callbacks that call the store (src/core/datastore/DataStore.{h,cpp},
      MapNotifier.h)

    [DataStore] is the store with observers whose callbacks leave it alone, as
    the only observer of the sources does.  An observer of another module may
    call the store from its callback.  Here a callback is a program of calls of
    the store, each continuing with what the call left behind; a nested set
    notifies in its turn.  MapNotifier::notify holds the mutex of the key's
    notifier during the callbacks, so that a nested notification, subscribe or
    unsubscribe for such a key never returns. *)

From S2P Require Import Prelude Interfaces Expiration DataStore.

Section Callbacks.
Context {U W : Type} (type_name : TypeId -> string).

(** A callback: it ends, perhaps with an exception, or calls the store and goes
    on with the exception of that call, if any, and the store after it. *)
Inductive Callback :=
| Done (f : W -> W) (ex : option string)
| Do (o : DsOp (U := U) (W := W)) (k : option string -> DataStore U W -> Callback).

Context (alive : nat -> W -> bool) (callback : nat -> SharedData U -> W -> Callback).

(** For the calls that do not notify. *)
#[local] Instance quiet : Observers U W := {| obs_alive := alive; onDataChanged _ _ w := (w, None) |}.

Implicit Types s : DataStore U W.

Definition change_world (f : W -> W) s := set_notifiers (notifiers_ s) (f (ds_world s)) s.

Section Notify.
(** A nested call: [None] when it does not return. *)
Variable nested : DsOp (U := U) (W := W) -> DataStore U W -> option (option string * DataStore U W).

Fixpoint run_callback (c : Callback) s : option (option string * DataStore U W) :=
  match c with
  | Done f ex => Some (ex, change_world f s)
  | Do o k => '(ex, s) ← nested o s; run_callback (k ex s) s
  end.

(** The loop of MapNotifier::notify over the subscribers of a key. *)
Fixpoint notify_loop (d : SharedData U) (subs : list nat) s : option (list nat * (option string * DataStore U W)) :=
  match subs with
  | [] => Some ([], (None, s))
  | o :: rest =>
    if alive o (ds_world s) then
      '(ex, s) ← run_callback (callback o d (ds_world s)) s;
      match ex with
      | Some e => Some (o :: rest, (Some e, s))
      | None => '(rest, r) ← notify_loop d rest s; Some (o :: rest, r)
      end
    else notify_loop d rest s
  end.
End Notify.

(** notifySubscribers, when the calling thread holds the notifiers of [held]. *)
Definition notifySubscribers_in (nested : list string -> DsOp -> DataStore U W -> option (option string * DataStore U W))
    (held : list string) (now : Z) (d : SharedData U) s : option (DataStore U W) :=
  match notifiers_ s !! sd_id d with
  | None => Some s
  | Some subs =>
    if bool_decide (sd_id d ∈ held) then None
    else
      '(subs, (ex, s)) ← notify_loop (nested (sd_id d :: held)) d subs s;
      let s := set_notifiers (<[sd_id d := subs]> (notifiers_ s)) (ds_world s) s in
      Some match ex with
           | Some e => log_error now "callback_exception" e ("id=" +:+ sd_id d) s
           | None => s
           end
  end.

(** [set] up to the notification. *)
Definition set_entry (clk : nat -> Z) (id : string) (v : any U) (type : DataType) (p : DataExpirationPolicy) s :=
  let s := set_data (<[id := new_data (clk 0%nat) id v (dt_val type) p]> (data_map_ s)) s in
  let s := set_collector (incrementSet (metrics_collector_ s)) s in
  apply_policy id (clk 0%nat) p (log_access (clk 1%nat) "set" id s).

(** [setVersioned] up to the notification. *)
Definition set_entry_versioned (clk : nat -> Z) (id : string) (v : any U) (type : DataType) s :=
  let s := set_data (<[id := new_data (clk 0%nat) id v (dt_val type) (mkPolicy NoPolicy 0)]> (data_map_ s)) s in
  set_versions (<[id := match version_map_ s !! id with None => 1 | Some n => u64 (n + 1) end]> (version_map_ s)) s.

Definition thrown {A} (r : result string A) : option string := match r with Ok _ => None | Throw e => Some e end.

(** A call of the store by a thread that holds the notifiers of [held]; [n]
    bounds the nesting. *)
Fixpoint call_in (n : nat) (held : list string) (o : DsOp (U := U) (W := W)) s : option (option string * DataStore U W) :=
  match n with
  | O => None
  | S n =>
    match o with
    | SetOp clk id v type p =>
      match type_clash type_name id v type s with
      | Some e => Some (Some e, snd (set type_name clk id v type p s))
      | None =>
        s ← notifySubscribers_in (call_in n) held (clk 2%nat) (new_data (clk 0%nat) id v (dt_val type) p)
              (set_entry clk id v type p s);
        Some (None, s)
      end
    | SetVersionedOp clk id v type =>
      s ← notifySubscribers_in (call_in n) held (clk 1%nat) (new_data (clk 0%nat) id v (dt_val type) (mkPolicy NoPolicy 0))
            (set_entry_versioned clk id v type s);
      Some (None, s)
    | SubscribeOp id _ | UnsubscribeOp id _ =>
      if bool_decide (id ∈ held) then None else Some (None, ds_exec type_name o s)
    | GetOp clk ty id => let '(r, s) := get clk ty id s in Some (thrown r, s)
    | PollOp clk ty id => let '(r, s) := poll clk ty id s in Some (thrown r, s)
    | _ => Some (None, ds_exec type_name o s)
    end
  end.

(** ** What nested calls leave alone *)

Variable writable : string -> Prop.

(** The calls that the callbacks make: no cleaning of expired entries, and sets
    of the writable keys only. *)
Definition allowed (o : DsOp (U := U) (W := W)) : Prop :=
  match o with
  | SetOp _ id _ _ _ | SetVersionedOp _ id _ _ => writable id
  | CleanOp _ => False
  | _ => True
  end.

Inductive well_behaved : Callback -> Prop :=
| wb_done f ex : well_behaved (Done f ex)
| wb_do o k : allowed o -> (forall ex s, well_behaved (k ex s)) -> well_behaved (Do o k).

(** The entries of held keys and of keys that are not writable stay, and so do
    the notifiers. *)
Definition leaves (held : list string) s s' : Prop :=
  (forall k, k ∈ held \/ ~ writable k -> data_map_ s' !! k = data_map_ s !! k) /\
  (forall k, is_Some (notifiers_ s !! k) -> is_Some (notifiers_ s' !! k)).

Definition has_notifiers (held : list string) s : Prop := forall k, k ∈ held -> is_Some (notifiers_ s !! k).

Lemma leaves_same held s s' : data_map_ s' = data_map_ s -> notifiers_ s' = notifiers_ s -> leaves held s s'.
Proof. intros Hd Hn. split; intros k; by rewrite ?Hd, ?Hn. Qed.

Lemma leaves_trans held s1 s2 s3 : leaves held s1 s2 -> leaves held s2 s3 -> leaves held s1 s3.
Proof.
  intros [D1 N1] [D2 N2]. split; [intros k Hk; by rewrite D2, D1|intros k Hk; by apply N2, N1].
Qed.

Lemma leaves_held held s s' : leaves held s s' -> has_notifiers held s -> has_notifiers held s'.
Proof. intros [_ N] H k Hk. by apply N, H. Qed.

Definition call_leaves (held : list string) (f : DsOp -> DataStore U W -> option (option string * DataStore U W)) : Prop :=
  forall o s ex s', allowed o -> has_notifiers held s -> f o s = Some (ex, s') -> leaves held s s'.

Lemma run_callback_leaves held f c s ex s' :
  call_leaves held f -> well_behaved c -> has_notifiers held s -> run_callback f c s = Some (ex, s') -> leaves held s s'.
Proof.
  intros Hf Hc. revert s. induction Hc as [g x|o k Ho Hk IH]; intros s Hs; simpl.
  - intros [= <- <-]. by apply leaves_same.
  - destruct (f o s) as [[ex1 s1]|] eqn:E; [|done]. simpl. intros Hr. pose proof (Hf _ _ _ _ Ho Hs E) as H1.
    eapply leaves_trans; [exact H1|]. eapply IH; [by eapply leaves_held|exact Hr].
Qed.

Lemma notify_loop_leaves held f d subs s subs' ex s' :
  (forall o d w, well_behaved (callback o d w)) -> call_leaves held f -> has_notifiers held s ->
  notify_loop f d subs s = Some (subs', (ex, s')) -> leaves held s s'.
Proof.
  intros Hcb Hf. revert s subs'. induction subs as [|o subs IH]; intros s subs' Hs; simpl.
  { intros [= <- <- <-]. by apply leaves_same. }
  destruct (alive o (ds_world s)); [|by eauto].
  destruct (run_callback f _ s) as [[ex1 s1]|] eqn:E; [|done]. simpl.
  pose proof (run_callback_leaves held f _ s ex1 s1 Hf (Hcb _ _ _) Hs E) as H1.
  destruct ex1; [intros [= <- <- <-]; done|].
  destruct (notify_loop f d subs s1) as [[rest [ex2 s2]]|] eqn:E2; [|done]. simpl. intros [= <- <- <-].
  eapply leaves_trans; [exact H1|]. eapply IH; [by eapply leaves_held|exact E2].
Qed.

(** A notification returns only for a key that is not held, and then keeps the
    entry of its own key too. *)
Lemma notify_in_leaves n held now d s s' :
  (forall o d w, well_behaved (callback o d w)) -> (forall held', call_leaves held' (call_in n held')) ->
  has_notifiers held s -> notifySubscribers_in (call_in n) held now d s = Some s' ->
  sd_id d ∉ held /\ leaves (sd_id d :: held) s s' \/ sd_id d ∉ held /\ s' = s.
Proof.
  intros Hcb IH Hs. unfold notifySubscribers_in. destruct (notifiers_ s !! sd_id d) as [subs|] eqn:En.
  2: { intros [= <-]. right. split; [|done]. intros Hin. specialize (Hs _ Hin). rewrite En in Hs. by destruct Hs. }
  case_bool_decide as Hh; [done|]. destruct (notify_loop _ d subs s) as [[subs' [ex s1]]|] eqn:El; [|done]. simpl.
  assert (Hs' : has_notifiers (sd_id d :: held) s) by (intros k [->|Hk]%elem_of_cons; [by rewrite En|by apply Hs]).
  pose proof (notify_loop_leaves _ _ _ _ _ _ _ _ Hcb (IH _) Hs' El) as [D1 N1]. intros [= <-]. left. split; [done|].
  assert (H2 : forall k, is_Some (notifiers_ s1 !! k) -> is_Some (<[sd_id d := subs']> (notifiers_ s1) !! k)).
  { intros k Hk. destruct (decide (k = sd_id d)) as [->|Hne]; [by rewrite lookup_insert_eq|by rewrite lookup_insert_ne]. }
  destruct ex; (split; [exact D1|]; intros k Hk; simpl; by apply H2, N1).
Qed.

Lemma set_entry_parts clk id v type p s :
  data_map_ (set_entry clk id v type p s) = <[id := new_data (clk 0%nat) id v (dt_val type) p]> (data_map_ s) /\
  notifiers_ (set_entry clk id v type p s) = notifiers_ s.
Proof. unfold set_entry, apply_policy. by destruct (policy_type p). Qed.

Lemma set_entry_versioned_parts clk id v type s :
  data_map_ (set_entry_versioned clk id v type s) =
    <[id := new_data (clk 0%nat) id v (dt_val type) (mkPolicy NoPolicy 0)]> (data_map_ s) /\
  notifiers_ (set_entry_versioned clk id v type s) = notifiers_ s.
Proof. done. Qed.

Lemma insert_leaves held id d s s' :
  id ∉ held -> writable id -> data_map_ s' = <[id := d]> (data_map_ s) -> notifiers_ s' = notifiers_ s -> leaves held s s'.
Proof.
  intros Hh Hw Hd Hn. split; intros k Hk; [|by rewrite Hn]. rewrite Hd, lookup_insert_ne; [done|].
  intros <-. by destruct Hk.
Qed.

Lemma leaves_less held id s s' : leaves (id :: held) s s' -> leaves held s s'.
Proof. intros [D N]. split; [|done]. intros k [Hk|Hk]; apply D; [left; by right|by right]. Qed.

Lemma call_in_leaves n held : (forall o d w, well_behaved (callback o d w)) -> call_leaves held (call_in n held).
Proof.
  intros Hcb. revert held. induction n as [|n IH]; intros held o s ex s' Ho Hs; [done|].
  destruct o as [clk id v type p|clk ty id|clk ty id|clk id v type|id o|id o|now id p|id|now|id m b|f]; cbn [call_in].
  - destruct (type_clash _ _ _ _ _) as [e|] eqn:Ec.
    { intros [= <- <-]. destruct (set_refused type_name clk id v type p s e Ec) as (_ & Hd & _ & Hn & _).
      by apply leaves_same. }
    destruct (notifySubscribers_in _ _ _ _ _) as [s1|] eqn:En; [|done]. simpl. intros [= <- <-].
    destruct (set_entry_parts clk id v type p s) as [Hd Hn].
    assert (Hs1 : has_notifiers held (set_entry clk id v type p s)) by (intros k Hk; rewrite Hn; by apply Hs).
    apply (notify_in_leaves n held) in En as [[Hid Hl]|[Hid ->]]; try done; simpl in Hid.
    + eapply leaves_trans; [by eapply insert_leaves|by eapply leaves_less].
    + by eapply insert_leaves.
  - destruct (get clk ty id s) as [r s1] eqn:Eg. intros [= <- <-]. unfold get, read in Eg.
    repeat case_match; simplify_eq; by apply leaves_same.
  - destruct (poll clk ty id s) as [r s1] eqn:Eg. intros [= <- <-]. unfold poll, read in Eg.
    repeat case_match; simplify_eq; by apply leaves_same.
  - destruct (notifySubscribers_in _ _ _ _ _) as [s1|] eqn:En; [|done]. simpl. intros [= <- <-].
    destruct (set_entry_versioned_parts clk id v type s) as [Hd Hn].
    assert (Hs1 : has_notifiers held (set_entry_versioned clk id v type s)) by (intros k Hk; rewrite Hn; by apply Hs).
    apply (notify_in_leaves n held) in En as [[Hid Hl]|[Hid ->]]; try done; simpl in Hid.
    + eapply leaves_trans; [by eapply insert_leaves|by eapply leaves_less].
    + by eapply insert_leaves.
  - case_bool_decide; [done|]. intros [= <- <-]. destruct o as [o|]; [|by apply leaves_same].
    split; [done|]. intros k Hk. simpl. destruct (decide (k = id)) as [->|Hne];
      [by rewrite lookup_insert_eq|by rewrite lookup_insert_ne].
  - case_bool_decide; [done|]. intros [= <- <-]. simpl. unfold unsubscribe.
    destruct o as [o|]; [|by apply leaves_same]. destruct (notifiers_ s !! id) as [subs|]; [|by apply leaves_same].
    split; [done|]. intros k Hk. simpl. destruct (decide (k = id)) as [->|Hne];
      [by rewrite lookup_insert_eq|by rewrite lookup_insert_ne].
  - intros [= <- <-]. by apply leaves_same.
  - intros [= <- <-]. by apply leaves_same.
  - done.
  - intros [= <- <-]. by apply leaves_same.
  - intros [= <- <-]. by apply leaves_same.
Qed.

(** A set survives its own notifications.  Whatever the callbacks do with the
    store, as long as they do not clean expired entries, a set that returns has
    left exactly its value under the key (a nested set of the same key does not
    return), and the keys that no callback writes keep their entries. *)
Theorem set_survives_callbacks n clk id v type p s ex s' :
  (forall o d w, well_behaved (callback o d w)) -> accepts id v type s = true ->
  call_in n [] (SetOp clk id v type p) s = Some (ex, s') ->
  ex = None /\ data_map_ s' !! id = Some (new_data (clk 0%nat) id v (dt_val type) p) /\
  forall k, k <> id -> ~ writable k -> data_map_ s' !! k = data_map_ s !! k.
Proof.
  intros Hcb Hacc. rewrite (type_clash_accepts type_name) in Hacc. destruct n as [|n]; [done|]. cbn [call_in].
  destruct (type_clash _ _ _ _ _); [done|]. destruct (notifySubscribers_in _ _ _ _ _) as [s1|] eqn:En; [|done].
  simpl. intros [= <- <-]. destruct (set_entry_parts clk id v type p s) as [Hd Hn].
  assert (H1 : leaves [id] (set_entry clk id v type p s) s1).
  { apply (notify_in_leaves n []) in En as [[_ Hl]|[_ ->]]; [exact Hl|by apply leaves_same|done| |].
    - intros held. by apply call_in_leaves.
    - by intros k ?%elem_of_nil. }
  destruct H1 as [D _]. split_and!; [done| |].
  - rewrite D by (left; by left). by rewrite Hd, lookup_insert_eq.
  - intros k Hk Hw. rewrite D by (by right). by rewrite Hd, lookup_insert_ne.
Qed.

(** Callbacks that do not call the store: a set is that of [DataStore]. *)
Lemma quiet_callbacks_set `{!Observers U W} n clk id v type p s :
  alive = obs_alive -> (forall o d w, callback o d w = Done (λ _, fst (onDataChanged o d w)) (snd (onDataChanged o d w))) ->
  call_in (S n) [] (SetOp clk id v type p) s =
    let '(r, s') := set type_name clk id v type p s in Some (thrown r, s').
Proof.
  intros Ha Hc. cbn [call_in]. unfold set. destruct (type_clash type_name id v type s); [done|]. cbv zeta.
  fold (set_entry clk id v type p s). set (d := new_data _ _ _ _ _). set (s0 := set_entry _ _ _ _ _ _). clearbody s0.
  unfold notifySubscribers_in, notifySubscribers. destruct (notifiers_ s0 !! sd_id d) as [subs|]; [|done].
  rewrite bool_decide_false by apply not_elem_of_nil.
  assert (H : forall subs s, notify_loop (call_in n [sd_id d]) d subs s =
    let '(subs', (w, ex)) := mn_notify d subs (ds_world s) in Some (subs', (ex, set_notifiers (notifiers_ s) w s))).
  { clear subs s0. intros subs. induction subs as [|o subs IH]; intros s1; simpl.
    { destruct s1; done. }
    rewrite Ha. destruct (obs_alive o (ds_world s1)); [|apply IH]. rewrite Hc. simpl.
    destruct (onDataChanged o d (ds_world s1)) as [w [e|]]; [done|]. simpl. rewrite IH. simpl.
    by destruct (mn_notify d subs w) as [? [? ?]]. }
  rewrite H. destruct (mn_notify d subs (ds_world s0)) as [subs' [w ex]]. simpl. by destruct ex.
Qed.
End Callbacks.

(** ** Examples *)

Module CallbackExamples.
Definition type_names (_ : TypeId) : string := "int".
Definition one : any unit := ValInt 1.
Definition two : any unit := ValInt 2.
Definition keep (_ : nat) : Z := 0.
Definition no_policy : DataExpirationPolicy := mkPolicy NoPolicy 0.
Definition living (_ : nat) (_ : unit) : bool := true.

(** The observer of a key sets [target] when it is called. *)
Definition setter (target : string) (_ : nat) (_ : SharedData unit) (_ : unit) : Callback (U := unit) (W := unit) :=
  Do (SetOp keep target two RobotMode no_policy) (λ ex _, Done id ex).

Definition watched : DataStore unit unit :=
  subscribe "mode" (Some 1%nat) (newDataStore ()).

Definition run_set (target : string) (n : nat) :=
  call_in type_names living (setter target) n [] (SetOp keep "mode" one RobotMode no_policy) watched.
End CallbackExamples.
Import CallbackExamples.

(** A callback that sets the key it is told about never returns. *)
Theorem callback_on_its_own_key_deadlocks n : run_set "mode" n = None.
Proof. destruct n as [|[|n]]; by_compute. Qed.

(** A callback that sets another key changes it; the key that was set keeps its value. *)
Example callback_sets_another_key :
  match run_set "speed" 2 with
  | Some (ex, s) => ex = None /\ (sd_value <$> data_map_ s !! "mode") = Some one /\ (sd_value <$> data_map_ s !! "speed") = Some two
  | None => False
  end.
Proof. vm_compute. done. Qed.
