(* ===== verification/EventAdapter.v ===== *)
(** * DataStoreEventAdapter (src/core/event/adapters/DataStoreEventAdapter.{h,cpp})

    The adapter publishes the changes of the data store on the event bus and
    stores the results of actions and sequences that it hears of on the bus.  It
    is one of the observers of [DataStore]: the world of the store holds the
    state of the adapter, the bus and what the other observers act on. *)

From stdpp Require Import pretty.
From S2P Require Import Prelude Interfaces EventBus DataStore.
#[local] Open Scope Z_scope.

(** The members of the event that the adapter builds. *)
Record DataStoreValueChangedEvent := mkValueChanged {
  vc_key : string;
  vc_oldValue : string;
  vc_newValue : string;
  vc_valueType : string;
  vc_source : string
}.

(** What the subclasses of [EventBase] add, as far as the adapter reads it. *)
Inductive EventDetails :=
| ActionCompleted (actionId actionType : string) (durationMs : Z) (result : string)
| SequenceCompleted (sequenceId sequenceName : string) (completedSteps totalSteps durationMs : Z)
| OtherEvent.

(** The two callbacks the adapter registers. *)
Inductive AdapterCallback :=
| OnActionCompleted (keyPrefix : string)
| OnSequenceCompleted (keyPrefix : string).

(** What the adapter uses of the bus. *)
Class AdapterBus (B : Type) := {
  ab_publish : DataStoreValueChangedEvent -> B -> B * bool;
  ab_subscribe : EventType -> AdapterCallback -> B -> B * string;
  ab_unsubscribe : string -> B -> B * bool
}.

(** [updatingKeys_], [subscriptionIds_], the bus, whether the adapter is still
    alive, and the rest of the world. *)
Record AdapterWorld (B R : Type) := mkAdapter {
  updatingKeys_ : gset string;
  subscriptionIds_ : list string;
  eventBus_ : B;
  alive : bool;
  rest_of_world : R
}.
Arguments mkAdapter {B R}.
Arguments updatingKeys_ {B R} _.
Arguments subscriptionIds_ {B R} _.
Arguments eventBus_ {B R} _.
Arguments alive {B R} _.
Arguments rest_of_world {B R} _.

(** The other observers of the store act on the rest of the world. *)
Class OtherObservers (U R : Type) := {
  other_alive : nat -> R -> bool;
  other_changed : nat -> SharedData U -> R -> R * option string
}.

Section Adapter.
Context {U B R : Type} `{!AdapterBus B} `{!OtherObservers U R}.
Context (me : nat) (fixed2 : Z -> string) (type_name : TypeId -> string).
Abbreviation World := (AdapterWorld B R).
Abbreviation Store := (DataStore U World).
Implicit Types (w : World) (s : Store).

Definition set_updating (k : gset string) w : World :=
  mkAdapter k (subscriptionIds_ w) (eventBus_ w) (alive w) (rest_of_world w).
Definition set_ids (ids : list string) w : World :=
  mkAdapter (updatingKeys_ w) ids (eventBus_ w) (alive w) (rest_of_world w).
Definition set_bus (b : B) w : World :=
  mkAdapter (updatingKeys_ w) (subscriptionIds_ w) b (alive w) (rest_of_world w).
Definition set_rest (r : R) w : World :=
  mkAdapter (updatingKeys_ w) (subscriptionIds_ w) (eventBus_ w) (alive w) r.

(** [fixed2] is the text of a double with two decimals. *)
Definition valueToString (v : any U) : string :=
  match v with
  | ValString v => v
  | ValInt v => pretty v
  | ValDouble bits => fixed2 bits
  | ValBool b => if b then "true" else "false"
  | _ => "<unknown type>"
  end.

Definition dataTypeToString (type : Z) : string :=
  if type =? dt_val RobotMode then "RobotMode"
  else if type =? dt_val InterfaceData then "InterfaceData"
  else if type =? dt_val Config then "Config"
  else if type =? dt_val Para then "Para"
  else if type =? dt_val AlarmData then "Alarm"
  else if type =? dt_val Event then "Event"
  else if type =? dt_val MissionState then "MissionState"
  else if type =? dt_val TaskState then "TaskState"
  else "Unknown".

Definition isCircularUpdate (key : string) w : bool := bool_decide (key ∈ updatingKeys_ w).
Definition markUpdating (key : string) w : World := set_updating ({[key]} ∪ updatingKeys_ w) w.
Definition unmarkUpdating (key : string) w : World := set_updating (updatingKeys_ w ∖ {[key]}) w.

Definition changed_event (d : SharedData U) : DataStoreValueChangedEvent :=
  mkValueChanged (sd_id d) "" (valueToString (sd_value d)) (dataTypeToString (sd_type d)) "datastore".

Definition adapter_onDataChanged (d : SharedData U) w : World :=
  if isCircularUpdate (sd_id d) w then w
  else set_bus (fst (ab_publish (changed_event d) (eventBus_ w))) w.

#[export] Instance adapter_observers : Observers U World := {
  obs_alive o w := if bool_decide (o = me) then alive w else other_alive o (rest_of_world w);
  onDataChanged o d w :=
    if bool_decide (o = me) then (adapter_onDataChanged d w, None)
    else let '(r, ex) := other_changed o d (rest_of_world w) in (set_rest r w, ex)
}.

Definition on_world (f : World -> World) s : Store := set_notifiers (notifiers_ s) (f (ds_world s)) s.

(** The common body of the two callbacks: mark, store, unmark; an exception of
    [set] is caught. *)
Definition store_result (clk : nat -> Z) (key text : string) s : Store :=
  let s := on_world (markUpdating key) s in
  let s := snd (DataStore.set type_name clk key (ValString text) TaskState (mkPolicy NoPolicy 0) s) in
  on_world (unmarkUpdating key) s.

(** A callback of a dead adapter does nothing; casting an event of another class
    is undefined. *)
Definition run_callback (clk : nat -> Z) (cb : AdapterCallback) (e : EventDetails) s : option Store :=
  if negb (alive (ds_world s)) then Some s
  else
    match cb, e with
    | OnActionCompleted keyPrefix, ActionCompleted actionId _ durationMs _ =>
      Some (store_result clk (keyPrefix +:+ actionId) ("completed:" +:+ pretty durationMs +:+ "ms") s)
    | OnSequenceCompleted keyPrefix, SequenceCompleted sequenceId _ completedSteps totalSteps durationMs =>
      Some (store_result clk (keyPrefix +:+ sequenceId)
              ("completed:" +:+ pretty completedSteps +:+ "/" +:+ pretty totalSteps +:+ " (" +:+
               pretty durationMs +:+ "ms)") s)
    | _, _ => None
    end.

Definition subscribe_with (type : EventType) (cb : AdapterCallback) s : Store :=
  on_world (λ w, let '(b, subId) := ab_subscribe type cb (eventBus_ w) in
                 set_ids (subscriptionIds_ w ++ [subId]) (set_bus b w)) s.

Definition subscribeToActionResults (keyPrefix : string) : Store -> Store :=
  subscribe_with ACTION_COMPLETED (OnActionCompleted keyPrefix).
Definition subscribeToSequenceResults (keyPrefix : string) : Store -> Store :=
  subscribe_with SEQUENCE_COMPLETED (OnSequenceCompleted keyPrefix).

Definition startWatching (keyPattern : string) s : Store := DataStore.subscribe keyPattern (Some me) s.
Definition stopWatching (keyPattern : string) s : Store := DataStore.unsubscribe keyPattern (Some me) s.

(** The destructor: no observer pointer can be locked any more. *)
Definition destroy s : Store :=
  on_world (λ w,
    let b := foldl (λ b subId, fst (ab_unsubscribe subId b)) (eventBus_ w) (subscriptionIds_ w) in
    mkAdapter (updatingKeys_ w) (subscriptionIds_ w) b false (rest_of_world w)) s.

(** ** What a notification does to the adapter's part of the world *)

(** The events published by a notification: one per registration of the adapter
    that is reached. *)
Definition bus_after (d : SharedData U) (subs : list nat) w : B := eventBus_ (fst (snd (mn_notify d subs w))).

Lemma notify_updating (d : SharedData U) subs w :
  updatingKeys_ (fst (snd (mn_notify d subs w))) = updatingKeys_ w.
Proof.
  revert w. induction subs as [|o subs IH]; intros w; [done|]. simpl.
  destruct (if bool_decide (o = me) then _ else _); [|apply IH]. case_bool_decide.
  - unfold adapter_onDataChanged. destruct (isCircularUpdate (sd_id d) w);
      match goal with |- context [mn_notify d subs ?x] => specialize (IH x); by destruct (mn_notify d subs x) end.
  - destruct (other_changed o d (rest_of_world w)) as [r [e|]]; [done|].
    specialize (IH (set_rest r w)). by destruct (mn_notify d subs (set_rest r w)).
Qed.

Lemma notify_circular (d : SharedData U) subs w :
  sd_id d ∈ updatingKeys_ w -> bus_after d subs w = eventBus_ w.
Proof.
  unfold bus_after. revert w. induction subs as [|o subs IH]; intros w Hin; [done|]. simpl.
  destruct (if bool_decide (o = me) then _ else _); [|by apply IH]. case_bool_decide.
  - unfold adapter_onDataChanged, isCircularUpdate. rewrite bool_decide_true by done.
    specialize (IH w Hin). by destruct (mn_notify d subs w).
  - destruct (other_changed o d (rest_of_world w)) as [r [e|]]; [done|].
    specialize (IH (set_rest r w) Hin). by destruct (mn_notify d subs (set_rest r w)).
Qed.

Lemma notify_not_watching (d : SharedData U) subs w :
  me ∉ subs -> bus_after d subs w = eventBus_ w.
Proof.
  unfold bus_after. revert w. induction subs as [|o subs IH]; intros w Hin; [done|]. simpl.
  apply not_elem_of_cons in Hin as [Hne Hin]. rewrite !(bool_decide_false (o = me)) by congruence.
  destruct (other_alive o (rest_of_world w)); [|by apply IH].
  destruct (other_changed o d (rest_of_world w)) as [r [e|]]; [done|].
  specialize (IH (set_rest r w) Hin). by destruct (mn_notify d subs (set_rest r w)).
Qed.

(** The world after a [set] is the world after its notification. *)
Lemma set_world clk id v type p s :
  ds_world (snd (DataStore.set type_name clk id v type p s)) =
  match type_clash type_name id v type s, notifiers_ s !! id with
  | None, Some subs => fst (snd (mn_notify (new_data (clk 0%nat) id v (dt_val type) p) subs (ds_world s)))
  | _, _ => ds_world s
  end.
Proof.
  unfold DataStore.set. destruct (type_clash type_name id v type s); [done|]. simpl.
  unfold notifySubscribers. simpl.
  assert (Hn : forall s, notifiers_ (apply_policy id (clk 0%nat) p s) = notifiers_ s /\
                         ds_world (apply_policy id (clk 0%nat) p s) = ds_world s)
    by (intros x; unfold apply_policy; by destruct (policy_type p)).
  match goal with |- context [apply_policy id _ p ?x] => destruct (Hn x) as [-> Hw] end. simpl in *.
  destruct (notifiers_ s !! id) as [subs|]; [|done]. rewrite Hw.
  by destruct (mn_notify _ subs (ds_world s)) as [subs' [w [e|]]].
Qed.

(** The adapter mirrors changes without echoing its own.  A set of a key
    that the adapter alone watches publishes exactly the change event of the new
    value; but when the adapter itself stores the result of a finished action or
    sequence, whoever watches the key, nothing is published on the bus, the
    result is in the store afterwards (unless the key holds another type), and
    the key is no longer marked. *)
Theorem adapter_mirrors_without_echo clk clk' id v type p cb e s :
  alive (ds_world s) = true ->
  (accepts id v type s = true -> notifiers_ s !! id = Some [me] -> id ∉ updatingKeys_ (ds_world s) ->
   eventBus_ (ds_world (snd (DataStore.set type_name clk id v type p s))) =
     fst (ab_publish (mkValueChanged id "" (valueToString v) (dataTypeToString (dt_val type)) "datastore")
            (eventBus_ (ds_world s)))) /\
  match run_callback clk cb e s with
  | None => True
  | Some s' =>
    eventBus_ (ds_world s') = eventBus_ (ds_world s) /\
    exists key text, updatingKeys_ (ds_world s') = updatingKeys_ (ds_world s) ∖ {[key]} /\
      (accepts key (ValString text) TaskState s = true -> fst (get clk' TString key s') = Ok (ValString text))
  end.
Proof.
  intros Ha. split.
  - intros Hacc Hn Hid. rewrite set_world, Hn. rewrite (type_clash_accepts type_name) in Hacc.
    destruct (type_clash type_name id v type s); [done|]. simpl. rewrite bool_decide_true, Ha by done. simpl.
    unfold adapter_onDataChanged, isCircularUpdate. simpl. by rewrite bool_decide_false by done.
  - assert (Hst : forall key text, let s' := store_result clk key text s in
      eventBus_ (ds_world s') = eventBus_ (ds_world s) /\
      exists key text, updatingKeys_ (ds_world s') = updatingKeys_ (ds_world s) ∖ {[key]} /\
        (accepts key (ValString text) TaskState s = true -> fst (get clk' TString key s') = Ok (ValString text))).
    { intros key text s'. unfold s', store_result. set (s1 := on_world (markUpdating key) s).
      pose proof (set_effect type_name clk key (ValString text) TaskState (mkPolicy NoPolicy 0) s1) as Hg.
      pose proof (set_world clk key (ValString text) TaskState (mkPolicy NoPolicy 0) s1) as Hw.
      destruct (DataStore.set type_name clk key _ _ _ s1) as [r s2]. cbn [snd] in Hw.
      assert (Hbus : eventBus_ (ds_world s2) = eventBus_ (ds_world s) /\
                     updatingKeys_ (ds_world s2) = {[key]} ∪ updatingKeys_ (ds_world s)).
      { rewrite Hw. destruct (type_clash _ key _ _ s1); [done|].
        change (notifiers_ s1 !! key) with (notifiers_ s !! key).
        destruct (notifiers_ s !! key) as [subs|]; [|done]. split; [|by rewrite notify_updating].
        etransitivity; [apply notify_circular; simpl; set_solver|done]. }
      destruct Hbus as [Hb Hu]. split; [done|]. exists key, text. split; [simpl; rewrite Hu; set_solver|].
      intros Hacc. change (accepts key (ValString text) TaskState s) with
        (accepts key (ValString text) TaskState s1) in Hacc. rewrite (type_clash_accepts type_name) in Hacc.
      destruct (type_clash type_name key (ValString text) TaskState s1); [done|].
      destruct (Hg eq_refl) as [Hd _]. cbn [snd] in Hd. unfold get, read. simpl. by rewrite Hd, lookup_insert_eq. }
    unfold run_callback. rewrite Ha. simpl. destruct cb, e; try done; apply Hst.
Qed.

(** A pattern is not a pattern: the store notifies the observers registered
    under exactly the key that changed, so an adapter watching "robot.*" hears
    nothing of a change of "robot.mode". *)
Theorem pattern_watch_hears_nothing clk pattern id v type p s :
  id <> pattern -> me ∉ default [] (notifiers_ s !! id) ->
  let s' := startWatching pattern s in
  eventBus_ (ds_world (snd (DataStore.set type_name clk id v type p s'))) = eventBus_ (ds_world s).
Proof.
  intros Hne Hme s'. rewrite set_world. unfold s', startWatching, DataStore.subscribe. simpl.
  rewrite lookup_insert_ne by done. destruct (type_clash _ _ _ _ _); [done|].
  destruct (notifiers_ s !! id) as [subs|]; [|done]. by apply notify_not_watching.
Qed.
End Adapter.

(** ** Example *)

Module AdapterExamples.
#[export] Instance bus : AdapterBus (list DataStoreValueChangedEvent) := {
  ab_publish e b := (b ++ [e], true);
  ab_subscribe _ _ b := (b, "sub_0_00000000");
  ab_unsubscribe _ b := (b, true)
}.
#[export] Instance others : OtherObservers unit unit := {
  other_alive _ _ := true;
  other_changed _ _ r := (r, None)
}.
Definition world : AdapterWorld (list DataStoreValueChangedEvent) unit := mkAdapter ∅ [] [] true tt.
Definition clk : nat -> Z := λ i, Z.of_nat i.
Definition names : TypeId -> string := λ _, "t".
Definition store : DataStore unit (AdapterWorld (list DataStoreValueChangedEvent) unit) :=
  startWatching 7 "action.results.a1" (startWatching 7 "mode" (newDataStore world)).
End AdapterExamples.
Import AdapterExamples.

Lemma adapter_mirrors_without_echo_witness :
  eventBus_ (ds_world (snd (DataStore.set (Observers0 := adapter_observers 7 (λ _, "")) names clk "mode"
    (ValInt 3) RobotMode (mkPolicy NoPolicy 0) store))) =
    [mkValueChanged "mode" "" "3" "RobotMode" "datastore"] /\
  match run_callback 7 (λ _, "") names clk (OnActionCompleted "action.results.")
          (ActionCompleted "a1" "Move" 12 "") store with
  | None => True
  | Some s' => eventBus_ (ds_world s') = []
  end.
Proof.
  destruct (adapter_mirrors_without_echo 7 (λ _, "") names clk clk "mode" (ValInt 3) RobotMode
    (mkPolicy NoPolicy 0) (OnActionCompleted "action.results.") (ActionCompleted "a1" "Move" 12 "") store)
    as [H1 H2]; [reflexivity|].
  split; [apply H1; [reflexivity|reflexivity|apply not_elem_of_empty]|].
  destruct (run_callback _ _ _ _ _ _ store); [apply H2|done].
Defined.

Lemma pattern_watch_hears_nothing_witness :
  eventBus_ (ds_world (snd (DataStore.set (Observers0 := adapter_observers 7 (λ _, "")) names clk "robot.mode"
    (ValInt 3) RobotMode (mkPolicy NoPolicy 0) (startWatching 7 "robot.*" (newDataStore world))))) = [].
Proof.
  apply (pattern_watch_hears_nothing 7 (λ _, "") names clk "robot.*" "robot.mode"); [discriminate|].
  apply not_elem_of_nil.
Defined.
