(* ===== verification/ActionExecutor.v ===== *)
(** * ActionExecutor (src/core/action/core/ActionExecutor.{h,cpp})

    The table of running actions.  An action object is an element of [A]; what
    its methods do is the class [IAction] over an outside state [W], which also
    holds the execution contexts.  [std::async] makes a task whose body runs in
    one step when it finishes ([finish_task]); a future is the number of its
    task.  The timeout monitor's check is a step of its own ([monitor_check]),
    so that cancellations, timeouts and completions can be interleaved in any
    order.  Each step takes the reading of the steady clock it makes (ns).

    [emplace] on a key that is present drops the new entry and with it the
    future, whose destructor waits for the task.  Whether the entry is built
    before the key is looked up is left open by the standard: the parameter
    [builds_first].  If it is, the wait happens under [actionsMutex_], which the
    task needs to record an exception. *)

From S2P Require Import Prelude Interfaces.

Inductive ActionStatus :=
| ACT_PENDING | ACT_RUNNING | ACT_COMPLETED | ACT_FAILED | ACT_CANCELLED | ACT_TIMEOUT.

#[export] Instance ActionStatus_eq_dec : EqDecision ActionStatus.
Proof. solve_decision. Defined.

Definition actionStatusToString (s : ActionStatus) : string :=
  match s with
  | ACT_PENDING => "PENDING" | ACT_RUNNING => "RUNNING" | ACT_COMPLETED => "COMPLETED"
  | ACT_FAILED => "FAILED" | ACT_CANCELLED => "CANCELLED" | ACT_TIMEOUT => "TIMEOUT"
  end.

(** [progress] is the bit pattern of the float; [executionTime] in ms. *)
Record ExecutionResult := mkResult {
  res_actionId : string;
  res_status : ActionStatus;
  res_progress : Z;
  res_errorMessage : string;
  res_executionTime : Z
}.

Definition newResult (id : string) (st : ActionStatus) : ExecutionResult := mkResult id st 0 "" 0.

Definition isSuccessful (r : ExecutionResult) : bool := bool_decide (res_status r = ACT_COMPLETED).
Definition isFailed (r : ExecutionResult) : bool :=
  bool_decide (res_status r = ACT_FAILED) || bool_decide (res_status r = ACT_TIMEOUT).
Definition isCancelled (r : ExecutionResult) : bool := bool_decide (res_status r = ACT_CANCELLED).

Class IAction (A W : Type) := {
  act_id : A -> string;
  act_type : A -> string;
  act_execute : A -> W -> W * option string;    (* with the message of an exception *)
  act_cancel : A -> W -> W;
  act_status : A -> W -> ActionStatus;
  act_progress : A -> W -> Z
}.

Inductive ActionEvent :=
| ActionStartedEvent (id type : string)
| ActionCompletedEvent (id type : string) (ms : Z)
| ActionFailedEvent (id type error : string) (ms : Z)
| ActionTimeoutEvent (id type : string) (timeout ms : Z)
| ActionCancelledEvent (id type : string) (ms : Z).

Record ExecutionState (A : Type) := mkExecState {
  es_action : A;
  es_future : nat;
  es_startTime : Z;
  es_timeout : Z;                     (* ms *)
  es_cancelRequested : bool;
  es_shouldStopMonitoring : bool;
  es_timeoutThread : option (Z * Z);  (* start and timeout captured by a joinable monitor thread *)
  es_exception : option string        (* exceptionOccurred, exceptionMessage *)
}.
Arguments mkExecState {A} _ _ _ _ _ _ _ _.
Arguments es_action {A} _.
Arguments es_future {A} _.
Arguments es_startTime {A} _.
Arguments es_timeout {A} _.
Arguments es_cancelRequested {A} _.
Arguments es_shouldStopMonitoring {A} _.
Arguments es_timeoutThread {A} _.
Arguments es_exception {A} _.

(** A task of [std::async]: what its closure captured, and whether it ended. *)
Record AsyncTask (A : Type) := mkAsync { at_action : A; at_start : Z; at_done : bool }.
Arguments mkAsync {A} _ _ _.
Arguments at_action {A} _.
Arguments at_start {A} _.
Arguments at_done {A} _.

Record ActionExecutor (A W B : Type) := mkExecutor {
  ae_eventBus_ : option B;
  runningActions_ : gmap string (ExecutionState A);
  async_tasks : list (AsyncTask A);
  ae_world : W
}.
Arguments mkExecutor {A W B} _ _ _ _.
Arguments ae_eventBus_ {A W B} _.
Arguments runningActions_ {A W B} _.
Arguments async_tasks {A W B} _.
Arguments ae_world {A W B} _.

(** A call may also never return, or end the process. *)
Inductive outcome (X : Type) :=
| Returns (x : X)
| Deadlocks
| Terminates.
Arguments Returns {X} _.
Arguments Deadlocks {X}.
Arguments Terminates {X}.

Section ActionExecutor.
Context {A W B : Type} `{!IAction A W} `{!IEventBus ActionEvent B} (builds_first : bool).
Implicit Types s : ActionExecutor A W B.

Definition newActionExecutor (eb : option B) (w : W) : ActionExecutor A W B := mkExecutor eb ∅ [] w.

Definition set_running (m : gmap string (ExecutionState A)) s :=
  mkExecutor (ae_eventBus_ s) m (async_tasks s) (ae_world s).
Definition set_async (l : list (AsyncTask A)) s :=
  mkExecutor (ae_eventBus_ s) (runningActions_ s) l (ae_world s).
Definition set_act_world (w : W) s :=
  mkExecutor (ae_eventBus_ s) (runningActions_ s) (async_tasks s) w.

Definition act_publish (e : ActionEvent) s :=
  mkExecutor (eb_publish e <$> ae_eventBus_ s) (runningActions_ s) (async_tasks s) (ae_world s).

(** Updates of single fields of an [ExecutionState]. *)
Definition request_cancel (x : ExecutionState A) : ExecutionState A :=
  mkExecState (es_action x) (es_future x) (es_startTime x) (es_timeout x) true
    (es_shouldStopMonitoring x) (es_timeoutThread x) (es_exception x).
Definition record_exception (e : string) (x : ExecutionState A) : ExecutionState A :=
  mkExecState (es_action x) (es_future x) (es_startTime x) (es_timeout x) (es_cancelRequested x)
    (es_shouldStopMonitoring x) (es_timeoutThread x) (Some e).
Definition start_monitor (start timeout : Z) (x : ExecutionState A) : ExecutionState A :=
  mkExecState (es_action x) (es_future x) (es_startTime x) (es_timeout x) (es_cancelRequested x)
    (es_shouldStopMonitoring x) (Some (start, timeout)) (es_exception x).

Definition elapsed_ms (start now : Z) : Z := Z.quot (now - start) 1000000.

Definition is_done (t : nat) s : bool :=
  match async_tasks s !! t with Some x => at_done x | None => true end.

(** The body of the asynchronous lambda. *)
Definition finish_task (now : Z) (t : nat) s : ActionExecutor A W B :=
  match async_tasks s !! t with
  | None => s
  | Some x =>
    if at_done x then s
    else
      let a := at_action x in
      let '(w, ex) := act_execute a (ae_world s) in
      let s := set_act_world w s in
      let s :=
        match ex with
        | None => act_publish (ActionCompletedEvent (act_id a) (act_type a) (elapsed_ms (at_start x) now)) s
        | Some e =>
          let s := set_running (alter (record_exception e) (act_id a) (runningActions_ s)) s in
          act_publish (ActionFailedEvent (act_id a) (act_type a) e (elapsed_ms (at_start x) now)) s
        end in
      set_async (<[t := mkAsync a (at_start x) true]> (async_tasks s)) s
  end.

(** [early]: the task has already ended when the entry is registered. *)
Definition executeAsync (early : bool) (now : Z) (a : A) (timeout : Z) s :
    outcome (string * ActionExecutor A W B) :=
  let id := act_id a in
  let s := act_publish (ActionStartedEvent id (act_type a)) s in
  let t := length (async_tasks s) in
  let s := set_async (async_tasks s ++ [mkAsync a now false]) s in
  let s := if early then finish_task now t s else s in
  match runningActions_ s !! id with
  | None =>
    let x := mkExecState a t now timeout false false None None in
    let x := if 0 <? timeout then start_monitor now timeout x else x in
    Returns (id, set_running (<[id := x]> (runningActions_ s)) s)
  | Some x =>
    (* the new entry and its future are dropped: wait for the task *)
    if builds_first && negb early && bool_decide (is_Some (snd (act_execute a (ae_world s)))) then Deadlocks
    else
      let s := finish_task now t s in
      if 0 <? timeout then
        (* replacing a joinable std::thread ends the process *)
        match es_timeoutThread x with
        | Some _ => Terminates
        | None => Returns (id, set_running (alter (start_monitor now timeout) id (runningActions_ s)) s)
        end
      else Returns (id, s)
  end.

Definition ae_cancel (id : string) s : ActionExecutor A W B :=
  match runningActions_ s !! id with
  | None => s
  | Some x =>
    let a := es_action x in
    let s := set_running (<[id := request_cancel x]> (runningActions_ s)) s in
    let s := set_act_world (act_cancel a (ae_world s)) s in
    act_publish (ActionCancelledEvent id (act_type a) 0) s
  end.

(** One turn of the monitor's loop. *)
Definition monitor_check (now : Z) (id : string) s : ActionExecutor A W B :=
  match runningActions_ s !! id with
  | None => s
  | Some x =>
    match es_timeoutThread x with
    | None => s
    | Some (start, timeout) =>
      if es_shouldStopMonitoring x then s
      else if (timeout <? elapsed_ms start now) && negb (es_cancelRequested x) then
        let s := set_running (<[id := request_cancel x]> (runningActions_ s)) s in
        let s := act_publish (ActionTimeoutEvent id "" timeout (elapsed_ms start now)) s in
        ae_cancel id s
      else s
    end
  end.

Definition isRunning (id : string) s : bool :=
  match runningActions_ s !! id with
  | None => false
  | Some x => negb (is_done (es_future x) s)
  end.

Definition getResult (now : Z) (id : string) s : ExecutionResult :=
  match runningActions_ s !! id with
  | None => mkResult id ACT_FAILED 0 "Action not found" 0
  | Some x =>
    let progress := act_progress (es_action x) (ae_world s) in
    let time := elapsed_ms (es_startTime x) now in
    if is_done (es_future x) s then
      match es_exception x with
      | Some e => mkResult id ACT_FAILED progress e time
      | None =>
        let st := act_status (es_action x) (ae_world s) in
        if es_cancelRequested x && bool_decide (st = ACT_CANCELLED)
        then mkResult id ACT_TIMEOUT progress "Action exceeded timeout" time
        else mkResult id st progress "" time
      end
    else mkResult id ACT_RUNNING progress "" 0
  end.

Definition waitForCompletion (now : Z) (id : string) s : ActionExecutor A W B :=
  match runningActions_ s !! id with
  | None => s
  | Some x => finish_task now (es_future x) s
  end.

(** [execute], with the steps [env] of other threads before the action ends. *)
Definition execute (early : bool) (env : ActionExecutor A W B -> ActionExecutor A W B) (now1 now2 now3 : Z)
    (a : A) (timeout : Z) s : outcome (ExecutionResult * ActionExecutor A W B) :=
  match executeAsync early now1 a timeout s with
  | Returns (id, s) =>
    let s := waitForCompletion now2 id (env s) in
    let r := getResult now3 id s in
    Returns (r, set_running (delete id (runningActions_ s)) s)
  | Deadlocks => Deadlocks
  | Terminates => Terminates
  end.

Definition finished_status (st : ActionStatus) : bool :=
  match st with
  | ACT_COMPLETED | ACT_FAILED | ACT_CANCELLED | ACT_TIMEOUT => true
  | ACT_PENDING | ACT_RUNNING => false
  end.

Definition clearCompletedActions s : nat * ActionExecutor A W B :=
  let gone := filter (λ kx, is_done (es_future (snd kx)) s = true /\
                            finished_status (act_status (es_action (snd kx)) (ae_world s)) = true)
                     (runningActions_ s) in
  (size gone, set_running (runningActions_ s ∖ gone) s).
End ActionExecutor.

(** ** Steps *)

Section Steps.
Context {A W B : Type} `{!IAction A W} `{!IEventBus ActionEvent B} (builds_first : bool).
Implicit Types s : ActionExecutor A W B.

(** What the threads of the program can do, in any order.  [StepWorld] is
    everything that happens outside the executor. *)
Inductive ExecStep :=
| StepAsync (early : bool) (now : Z) (a : A) (timeout : Z)
| StepFinish (now : Z) (t : nat)
| StepCancel (id : string)
| StepMonitor (now : Z) (id : string)
| StepWait (now : Z) (id : string)
| StepClear
| StepWorld (f : W -> W).

Definition exec_step (o : ExecStep) s : outcome (ActionExecutor A W B) :=
  match o with
  | StepAsync early now a timeout =>
    match executeAsync builds_first early now a timeout s with
    | Returns (_, s) => Returns s
    | Deadlocks => Deadlocks
    | Terminates => Terminates
    end
  | StepFinish now t => Returns (finish_task now t s)
  | StepCancel id => Returns (ae_cancel id s)
  | StepMonitor now id => Returns (monitor_check now id s)
  | StepWait now id => Returns (waitForCompletion now id s)
  | StepClear => Returns (snd (clearCompletedActions s))
  | StepWorld f => Returns (set_act_world (f (ae_world s)) s)
  end.

Fixpoint exec_steps (os : list ExecStep) s : outcome (ActionExecutor A W B) :=
  match os with
  | [] => Returns s
  | o :: os =>
    match exec_step o s with
    | Returns s => exec_steps os s
    | Deadlocks => Deadlocks
    | Terminates => Terminates
    end
  end.

(** *** One action from start to end *)

Lemma finish_last now a start s tasks :
  async_tasks s = tasks ++ [mkAsync a start false] ->
  let '(w, ex) := act_execute a (ae_world s) in
  let s' := finish_task now (length tasks) s in
  async_tasks s' = tasks ++ [mkAsync a start true] /\ ae_world s' = w /\
  runningActions_ s' = match ex with
                       | Some e => alter (record_exception e) (act_id a) (runningActions_ s)
                       | None => runningActions_ s
                       end /\
  ae_eventBus_ s' = eb_publish (match ex with
                                | Some e => ActionFailedEvent (act_id a) (act_type a) e (elapsed_ms start now)
                                | None => ActionCompletedEvent (act_id a) (act_type a) (elapsed_ms start now)
                                end) <$> ae_eventBus_ s.
Proof.
  intros Ht. unfold finish_task. rewrite Ht, list_lookup_middle by done. simpl.
  destruct (act_execute a (ae_world s)) as [w [e|]]; simpl; rewrite Ht;
    split_and!; try done; by rewrite insert_app_r_alt, Nat.sub_diag by lia.
Qed.

(** A synchronous call reports what the action did and leaves no trace.  If
    no action with this id is registered, nothing else interferes and the entry
    is registered before the action ends, execute returns FAILED with the
    message of the exception, or else the status and progress the action itself
    reports; the table of running actions is as before, and exactly a started
    and a completed or failed event are published. *)
Theorem sync_execute_reports_outcome now1 now2 now3 a timeout s :
  runningActions_ s !! act_id a = None ->
  let '(w, ex) := act_execute a (ae_world s) in
  exists s', execute builds_first false (λ s, s) now1 now2 now3 a timeout s =
    Returns (mkResult (act_id a) (match ex with Some _ => ACT_FAILED | None => act_status a w end)
               (act_progress a w) (default "" ex) (elapsed_ms now1 now3), s') /\
    runningActions_ s' = runningActions_ s /\ ae_world s' = w /\
    ae_eventBus_ s' = (λ b, eb_publish
      (match ex with
       | Some e => ActionFailedEvent (act_id a) (act_type a) e (elapsed_ms now1 now2)
       | None => ActionCompletedEvent (act_id a) (act_type a) (elapsed_ms now1 now2)
       end) (eb_publish (ActionStartedEvent (act_id a) (act_type a)) b)) <$> ae_eventBus_ s.
Proof.
  intros Hfree. destruct (act_execute a (ae_world s)) as [w ex] eqn:Eex.
  unfold execute, executeAsync. simpl. rewrite Hfree. unfold waitForCompletion. simpl.
  rewrite lookup_insert_eq.
  set (x := if 0 <? timeout then _ else _).
  assert (Hx : es_future x = length (async_tasks s) /\ es_action x = a /\ es_startTime x = now1 /\
               es_exception x = None /\ es_cancelRequested x = false) by (subst x; by destruct (0 <? timeout)).
  destruct Hx as (Hf & Ha & Hst & Hexc & Hcr). clearbody x. rewrite Hf.
  match goal with |- context [finish_task now2 _ ?s0] => set (s1 := s0) end.
  pose proof (finish_last now2 a now1 s1 (async_tasks s) eq_refl) as Hfin.
  change (ae_world s1) with (ae_world s) in Hfin. rewrite Eex in Hfin. cbv zeta in Hfin. destruct Hfin as (Ht & Hw & Hr & Hb).
  assert (Hr1 : runningActions_ s1 = <[act_id a := x]> (runningActions_ s)) by done.
  assert (Hb1 : ae_eventBus_ s1 = eb_publish (ActionStartedEvent (act_id a) (act_type a)) <$> ae_eventBus_ s) by done.
  clearbody s1. set (s2 := finish_task now2 (length (async_tasks s)) s1) in *. clearbody s2.
  assert (Hd : is_done (length (async_tasks s)) s2 = true)
    by (unfold is_done; by rewrite Ht, list_lookup_middle).
  exists (set_running (delete (act_id a) (runningActions_ s2)) s2). split; [|split_and!; [..|done|]].
  - do 2 f_equal. unfold getResult. rewrite Hr, Hr1. destruct ex as [e|].
    + rewrite lookup_alter_eq, lookup_insert_eq. simpl. by rewrite Hf, Hd, Ha, Hst, Hw.
    + rewrite lookup_insert_eq, Hf, Hd, Hexc, Hcr, Ha, Hst, Hw. done.
  - simpl. rewrite Hr, Hr1. destruct ex; [rewrite delete_alter_eq|]; by apply delete_insert_id.
  - simpl. rewrite Hb, Hb1. by destruct (ae_eventBus_ s).
Qed.

(** *** A failed id stays failed *)

(** Every future is a task that was started. *)
Definition futures_ok s : Prop :=
  forall id x, runningActions_ s !! id = Some x -> (es_future x < length (async_tasks s))%nat.

(** The entry of [id] holds an exception and its task has ended. *)
Definition stuck (id : string) s : Prop :=
  exists x, runningActions_ s !! id = Some x /\ is_Some (es_exception x) /\ is_done (es_future x) s = true.

(** The tables only change in ways that keep futures and exceptions. *)
Definition keeps (x y : ExecutionState A) : Prop :=
  es_future y = es_future x /\ (is_Some (es_exception x) -> is_Some (es_exception y)).

Lemma keeps_refl x : keeps x x.
Proof. done. Qed.

Record extends s s' : Prop := {
  ext_tasks : (length (async_tasks s) <= length (async_tasks s'))%nat;
  ext_done t : (t < length (async_tasks s))%nat -> is_done t s = true -> is_done t s' = true;
  ext_old id x : runningActions_ s !! id = Some x ->
    exists y, runningActions_ s' !! id = Some y /\ keeps x y;
  ext_new id y : runningActions_ s' !! id = Some y ->
    (es_future y < length (async_tasks s'))%nat \/
    exists x, runningActions_ s !! id = Some x /\ keeps x y
}.

Lemma extends_refl s : extends s s.
Proof. split; [done|done|eauto using keeps_refl|eauto using keeps_refl]. Qed.

Lemma extends_trans s1 s2 s3 : extends s1 s2 -> extends s2 s3 -> extends s1 s3.
Proof.
  intros [T1 D1 O1 N1] [T2 D2 O2 N2]. split.
  - lia.
  - intros t Ht Hd. apply D2; [lia|]. by apply D1.
  - intros id x Hx. destruct (O1 id x Hx) as (y & Hy & [K1 K2]). destruct (O2 id y Hy) as (z & Hz & [K3 K4]).
    exists z. split; [done|]. split; [congruence|auto].
  - intros id z Hz. destruct (N2 id z Hz) as [?|(y & Hy & [K3 K4])]; [by left|].
    destruct (N1 id y Hy) as [?|(x & Hx & [K1 K2])]; [left; rewrite K3; lia|].
    right. exists x. split; [done|]. split; [congruence|auto].
Qed.

Lemma extends_futures s s' : futures_ok s -> extends s s' -> futures_ok s'.
Proof.
  intros Hf [T D O N] id y Hy. destruct (N id y Hy) as [?|(x & Hx & [K _])]; [done|].
  rewrite K. pose proof (Hf id x Hx). lia.
Qed.

Lemma extends_stuck id s s' : futures_ok s -> stuck id s -> extends s s' -> stuck id s'.
Proof.
  intros Hf (x & Hx & He & Hd) [T D O N]. destruct (O id x Hx) as (y & Hy & [K1 K2]).
  exists y. split_and!; [done|auto|]. rewrite K1. apply D; [by eapply Hf|done].
Qed.

(** A change of one entry that keeps future and exception, or of the world and
    the bus only. *)
Lemma extends_alter f id s s' :
  (forall x, keeps x (f x)) -> runningActions_ s' = alter f id (runningActions_ s) ->
  async_tasks s' = async_tasks s -> extends s s'.
Proof.
  intros Hf Hr Ht. split.
  - by rewrite Ht.
  - intros t _. unfold is_done. by rewrite Ht.
  - intros id' x Hx. rewrite Hr. destruct (decide (id' = id)) as [->|Hne].
    + rewrite lookup_alter_eq, Hx. simpl. eauto.
    + rewrite lookup_alter_ne by done. eauto using keeps_refl.
  - intros id' y. rewrite Hr. destruct (decide (id' = id)) as [->|Hne].
    + rewrite lookup_alter_eq. destruct (runningActions_ s !! id) as [x|] eqn:Ex; [|done].
      intros [= <-]. right. eauto.
    + rewrite lookup_alter_ne by done. right. eauto using keeps_refl.
Qed.

Lemma extends_same s s' :
  runningActions_ s' = runningActions_ s -> async_tasks s' = async_tasks s -> extends s s'.
Proof.
  intros Hr Ht. apply (extends_alter (λ x, x) ""); [by intros x|by rewrite alter_id|done].
Qed.

Lemma extends_insert f id x s s' :
  (forall x, keeps x (f x)) -> runningActions_ s !! id = Some x ->
  runningActions_ s' = <[id := f x]> (runningActions_ s) -> async_tasks s' = async_tasks s -> extends s s'.
Proof.
  intros Hf Hx Hr Ht. apply (extends_alter f id); [done| |done]. rewrite Hr.
  apply map_eq. intros j. destruct (decide (j = id)) as [->|Hne].
  - by rewrite lookup_insert_eq, lookup_alter_eq, Hx.
  - by rewrite lookup_insert_ne, lookup_alter_ne.
Qed.

Lemma finish_extends now t s : extends s (finish_task now t s).
Proof.
  unfold finish_task. destruct (async_tasks s !! t) as [x|] eqn:Ex; [|apply extends_refl].
  destruct (at_done x) eqn:Ed; [apply extends_refl|].
  destruct (act_execute (at_action x) (ae_world s)) as [w ex].
  match goal with |- extends s (set_async _ ?s1) => apply (extends_trans _ s1) end.
  - destruct ex as [e|]; [|by apply extends_same].
    apply (extends_alter (record_exception e) (act_id (at_action x))); [|done|done].
    intros y. split; [done|]. simpl. eauto.
  - match goal with |- extends ?s1 (set_async _ _) => assert (Ht : async_tasks s1 = async_tasks s) by (by destruct ex);
      revert Ht; generalize s1 end.
    clear ex. intros s1 Ht. split; simpl.
    + by rewrite length_insert.
    + intros t' _. unfold is_done. simpl. rewrite Ht. destruct (decide (t' = t)) as [->|Hne].
      * rewrite Ex, list_lookup_insert_eq by (by eapply lookup_lt_Some). done.
      * by rewrite list_lookup_insert_ne.
    + eauto using keeps_refl.
    + eauto using keeps_refl.
Qed.

Lemma cancel_extends id s : extends s (ae_cancel id s).
Proof.
  unfold ae_cancel. destruct (runningActions_ s !! id) as [x|] eqn:Ex; [|apply extends_refl].
  by apply (extends_insert request_cancel id x).
Qed.

Lemma monitor_extends now id s : extends s (monitor_check now id s).
Proof.
  unfold monitor_check. destruct (runningActions_ s !! id) as [x|] eqn:Ex; [|apply extends_refl].
  destruct (es_timeoutThread x) as [[start timeout]|]; [|apply extends_refl].
  destruct (es_shouldStopMonitoring x); [apply extends_refl|].
  destruct (_ && _); [|apply extends_refl].
  eapply extends_trans; [|apply cancel_extends]. by apply (extends_insert request_cancel id x).
Qed.

Lemma start_extends now a s :
  extends s (set_async (async_tasks s ++ [mkAsync a now false]) (act_publish (ActionStartedEvent (act_id a) (act_type a)) s)).
Proof.
  split; simpl.
  - rewrite length_app. lia.
  - intros t Ht. unfold is_done. simpl. by rewrite lookup_app_l.
  - eauto using keeps_refl.
  - eauto using keeps_refl.
Qed.

Lemma async_extends early now a timeout s id s' :
  executeAsync builds_first early now a timeout s = Returns (id, s') -> extends s s'.
Proof.
  unfold executeAsync. pose proof (start_extends now a s) as H1.
  set (s1 := set_async _ _) in *. simpl length.
  set (s2 := if early then finish_task now (length (async_tasks s)) s1 else s1).
  assert (H2 : extends s s2).
  { subst s2. destruct early; [|done]. eapply extends_trans; [exact H1|apply finish_extends]. }
  assert (Hl : (length (async_tasks s) < length (async_tasks s2))%nat).
  { assert (He : extends s1 s2) by (subst s2; destruct early; [apply finish_extends|apply extends_refl]).
    destruct He as [He _ _ _]. subst s1. simpl in He. rewrite length_app in He. simpl in He. lia. }
  clearbody s2. destruct (runningActions_ s2 !! act_id a) as [x|] eqn:Ex.
  - destruct (_ && _); [done|]. destruct (0 <? timeout).
    + destruct (es_timeoutThread x); [done|]. intros [= <- <-].
      eapply extends_trans; [exact H2|]. eapply extends_trans; [apply finish_extends|].
      by apply (extends_alter (start_monitor now timeout) (act_id a)).
    + intros [= <- <-]. eapply extends_trans; [exact H2|apply finish_extends].
  - intros [= <- <-]. eapply extends_trans; [exact H2|]. split; simpl; [done|done| |].
    + intros id x Hx. rewrite lookup_insert_ne by congruence. eauto using keeps_refl.
    + intros id y [[<- <-]|[_ Hy]]%lookup_insert_Some; [left|right; eauto using keeps_refl].
      by destruct (0 <? timeout).
Qed.

Definition keeps_entries (o : ExecStep) : bool := match o with StepClear => false | _ => true end.

Lemma step_extends o s s' : keeps_entries o = true -> exec_step o s = Returns s' -> extends s s'.
Proof.
  destruct o; simpl; intros Hk Hs; simplify_eq.
  - destruct (executeAsync builds_first early now a timeout s) as [[id s1]| |] eqn:E; simplify_eq.
    by eapply async_extends.
  - apply finish_extends.
  - apply cancel_extends.
  - apply monitor_extends.
  - unfold waitForCompletion. destruct (runningActions_ s !! id); [apply finish_extends|apply extends_refl].
  - by apply extends_same.
Qed.

Lemma step_futures o s s' : futures_ok s -> exec_step o s = Returns s' -> futures_ok s'.
Proof.
  intros Hf Hs. destruct (keeps_entries o) eqn:Hk.
  - eapply extends_futures; [done|]. by eapply step_extends.
  - destruct o; try done. simpl in Hs. simplify_eq. intros id x. simpl.
    intros [Hx _]%lookup_difference_Some. by eapply Hf.
Qed.

Lemma steps_futures os s s' : futures_ok s -> exec_steps os s = Returns s' -> futures_ok s'.
Proof.
  revert s. induction os as [|o os IH]; intros s Hf; simpl; [by intros [= <-]|].
  destruct (exec_step o s) as [s1| |] eqn:E; try done. intros. eapply IH; [|done]. by eapply step_futures.
Qed.

(** Once failed, always failed.  When the recorded attempt of an action id
    has thrown and ended, every later getResult for this id reports FAILED,
    whatever the threads do: new attempts under the same id run, but their
    entries are never stored, so their results are lost until the entry is
    removed. *)
Theorem failed_id_stays_failed os1 os2 eb w s s' id now now' :
  exec_steps os1 (newActionExecutor eb w) = Returns s ->
  (exists x, runningActions_ s !! id = Some x /\ is_Some (es_exception x) /\ is_done (es_future x) s = true) ->
  forallb keeps_entries os2 = true -> exec_steps os2 s = Returns s' ->
  res_status (getResult now id s) = ACT_FAILED /\ res_status (getResult now' id s') = ACT_FAILED.
Proof.
  intros H1 Hst Hk H2.
  assert (Hf : futures_ok s) by (eapply (steps_futures os1); [|exact H1]; intros ? ?; simpl; by rewrite lookup_empty).
  assert (Hres : forall n s, stuck id s -> res_status (getResult n id s) = ACT_FAILED).
  { intros n s0 (x & Hx & [e He] & Hd). unfold getResult. by rewrite Hx, Hd, He. }
  split; [by apply Hres|]. apply Hres. clear H1. revert s Hst Hf H2.
  induction os2 as [|o os2 IH]; intros s Hst Hf; simpl; [by intros [= <-]|].
  simpl in Hk. apply andb_true_iff in Hk as [Ho Hk].
  destruct (exec_step o s) as [s1| |] eqn:E; try done. apply (IH Hk).
  - eapply extends_stuck; [done|done|]. by eapply step_extends.
  - by eapply step_futures.
Qed.

(** *** Cancellation, lost exceptions and repeated timeouts *)

(** A cancelled action is reported as timed out, whoever cancelled it: getResult
    cannot tell the monitor's request from a call of cancel. *)
Theorem cancelled_action_reports_timeout now1 now2 now3 a timeout s :
  runningActions_ s !! act_id a = None ->
  let w := act_execute a (act_cancel a (ae_world s)) in
  snd w = None -> act_status a (fst w) = ACT_CANCELLED ->
  exists s', execute builds_first false (ae_cancel (act_id a)) now1 now2 now3 a timeout s =
    Returns (mkResult (act_id a) ACT_TIMEOUT (act_progress a (fst w)) "Action exceeded timeout"
               (elapsed_ms now1 now3), s').
Proof.
  intros Hfree w Hw Hst. unfold execute, executeAsync. simpl. rewrite Hfree.
  set (x := if 0 <? timeout then _ else _).
  assert (Hx : es_future x = length (async_tasks s) /\ es_action x = a /\ es_startTime x = now1 /\
               es_exception x = None) by (subst x; by destruct (0 <? timeout)).
  destruct Hx as (Hf & Ha & Hs & Hexc). clearbody x.
  unfold ae_cancel. simpl. rewrite lookup_insert_eq. unfold waitForCompletion. simpl.
  rewrite lookup_insert_eq. simpl. rewrite Hf, Ha.
  match goal with |- context [finish_task now2 _ ?s0] => set (s1 := s0) end.
  pose proof (finish_last now2 a now1 s1 (async_tasks s) eq_refl) as Hfin.
  change (ae_world s1) with (act_cancel a (ae_world s)) in Hfin. subst w.
  destruct (act_execute a (act_cancel a (ae_world s))) as [w ex]. simpl in Hw, Hst. subst ex.
  cbv zeta in Hfin. destruct Hfin as (Ht & Hw & Hr & _).
  assert (Hr1 : runningActions_ s1 !! act_id a = Some (request_cancel x)) by (subst s1; apply lookup_insert_eq).
  clearbody s1. set (s2 := finish_task now2 (length (async_tasks s)) s1) in *. clearbody s2.
  eexists. do 2 f_equal. unfold getResult. rewrite Hr, Hr1. simpl. rewrite Hf, Ha, Hs, Hexc, Hw, Hst.
  replace (is_done (length (async_tasks s)) s2) with true
    by (unfold is_done; by rewrite Ht, list_lookup_middle).
  by rewrite bool_decide_true.
Qed.

(** An exception thrown before the entry is registered is lost: the handler finds
    no entry to mark, and getResult reports whatever status the action has. *)
Theorem early_exception_is_lost now1 now2 a timeout s e :
  runningActions_ s !! act_id a = None -> snd (act_execute a (ae_world s)) = Some e ->
  let w := fst (act_execute a (ae_world s)) in
  exists s', executeAsync builds_first true now1 a timeout s = Returns (act_id a, s') /\
    isRunning (act_id a) s' = false /\ res_status (getResult now2 (act_id a) s') = act_status a w.
Proof.
  intros Hfree He w. unfold executeAsync. simpl.
  match goal with |- context [finish_task now1 _ ?s0] => set (s1 := s0) end.
  pose proof (finish_last now1 a now1 s1 (async_tasks s) eq_refl) as Hfin.
  change (ae_world s1) with (ae_world s) in Hfin. subst w.
  destruct (act_execute a (ae_world s)) as [w ex]. simpl in He. subst ex.
  cbv zeta in Hfin. destruct Hfin as (Ht & Hw & Hr & _).
  assert (Hr1 : runningActions_ s1 = runningActions_ s) by done.
  clearbody s1. set (s2 := finish_task now1 (length (async_tasks s)) s1) in *. clearbody s2.
  rewrite Hr1 in Hr. assert (Hn : runningActions_ s2 !! act_id a = None)
    by (by rewrite Hr, lookup_alter_eq, Hfree).
  rewrite Hn. eexists. split; [done|].
  set (x := if 0 <? timeout then _ else _).
  assert (Hx : es_future x = length (async_tasks s) /\ es_action x = a /\
               es_exception x = None /\ es_cancelRequested x = false) by (subst x; by destruct (0 <? timeout)).
  destruct Hx as (Hf & Ha & Hexc & Hcr). clearbody x.
  assert (Hd : is_done (es_future x) (set_running (<[act_id a := x]> (runningActions_ s2)) s2) = true)
    by (rewrite Hf; unfold is_done; simpl; by rewrite Ht, list_lookup_middle).
  split.
  - unfold isRunning. simpl runningActions_. by rewrite lookup_insert_eq, Hd.
  - unfold getResult. simpl runningActions_. rewrite lookup_insert_eq, Hd, Hexc, Hcr, Ha. simpl. by rewrite Hw.
Qed.

(** A second attempt with a timeout, under an id whose first attempt had one,
    ends the process: the joinable monitor thread is overwritten. *)
Theorem repeated_timeout_terminates now a timeout s x m :
  runningActions_ s !! act_id a = Some x -> es_timeoutThread x = Some m -> 0 < timeout ->
  snd (act_execute a (ae_world s)) = None ->
  executeAsync builds_first false now a timeout s = Terminates.
Proof.
  intros Hx Hm Ht He. unfold executeAsync. simpl. rewrite Hx, He, Hm.
  rewrite bool_decide_false by (by intros [? ?]). rewrite andb_false_r.
  by replace (0 <? timeout) with true by (symmetry; by apply Z.ltb_lt).
Qed.
End Steps.

(** ** Example runs *)

Module ActionExamples.
(** An action throws or not; the world says whether it was cancelled. *)
Record Act := mkAct { name : string; throws : bool }.

#[export] Instance example_action : IAction Act bool := {|
  act_id := name;
  act_type _ := "Move";
  act_execute a w := (w, if throws a then Some "motor" else None);
  act_cancel _ _ := true;
  act_status _ w := if w then ACT_CANCELLED else ACT_COMPLETED;
  act_progress _ _ := 0
|}.

Definition fresh : ActionExecutor Act bool (list ActionEvent) := newActionExecutor (Some []) false.
End ActionExamples.
Import ActionExamples.

Lemma sync_execute_reports_outcome_witness :
  exists s', execute true false (λ s, s) 0 5000000 6000000 (mkAct "lift" true) 0 fresh =
    Returns (mkResult "lift" ACT_FAILED 0 "motor" 6, s') /\
    ae_eventBus_ s' = Some [ActionStartedEvent "lift" "Move"; ActionFailedEvent "lift" "Move" "motor" 5].
Proof.
  destruct (sync_execute_reports_outcome true 0 5000000 6000000 (mkAct "lift" true) 0 fresh eq_refl)
    as (s' & He & _ & _ & Hb).
  exists s'. split; [exact He|exact Hb].
Defined.

Lemma failed_id_stays_failed_witness :
  let os1 := [StepAsync false 0 (mkAct "lift" true) 0; StepWait 1 "lift"] in
  let os2 := [StepAsync false 2 (mkAct "lift" false) 0; StepWait 3 "lift"] in
  match exec_steps true os1 fresh with
  | Returns s =>
    match exec_steps true os2 s with
    | Returns s' => res_status (getResult 4 "lift" s') = ACT_FAILED
    | _ => False
    end
  | _ => False
  end.
Proof.
  intros os1 os2. destruct (exec_steps true os1 fresh) as [s| |] eqn:E1; [|vm_compute in E1; discriminate..].
  destruct (exec_steps true os2 s) as [s'| |] eqn:E2.
  - eapply (failed_id_stays_failed true os1 os2 (Some []) false s s' "lift" 4 4);
      [exact E1| |reflexivity|exact E2].
    vm_compute in E1. injection E1 as <-. eexists. split; [vm_compute; reflexivity|].
    split; [eexists; reflexivity|reflexivity].
  - vm_compute in E1. injection E1 as <-. vm_compute in E2. discriminate.
  - vm_compute in E1. injection E1 as <-. vm_compute in E2. discriminate.
Defined.
