(* ===== verification/Condition.v ===== *)
(** * ExecutionContext and ConditionEvaluator
      (src/core/action/util/ExecutionContext.h,
       src/core/sequence/core/ConditionEvaluator.cpp)

    The shared variables and results of the actions of a sequence, and the
    conditions "variable operator value" of its branches.  Reading and printing
    floating-point numbers is the class [Doubles]: what [istringstream], [stod]
    and [to_string] do with doubles depends on the locale. *)

From Stdlib Require Import Ascii.
From stdpp Require Import pretty.
From S2P Require Import Prelude ActionExecutor.

(** The types of [std::any] that getVariableAsString tries. *)
Inductive ctx_value :=
| CInt (v : Z)
| CLong (v : Z)
| CDouble (bits : Z)
| CFloat (bits : Z)
| CBool (v : bool)
| CString (v : string)
| CCString (v : string)
| COther.

Record ExecutionContext := mkContext {
  variables_ : gmap string ctx_value;
  actionResults_ : gmap string ExecutionResult
}.

Definition newContext : ExecutionContext := mkContext ∅ ∅.

Definition setVariable (k : string) (v : ctx_value) (c : ExecutionContext) :=
  mkContext (<[k := v]> (variables_ c)) (actionResults_ c).
Definition getVariable (k : string) (c : ExecutionContext) : option ctx_value := variables_ c !! k.
Definition setActionResult (k : string) (r : ExecutionResult) (c : ExecutionContext) :=
  mkContext (variables_ c) (<[k := r]> (actionResults_ c)).
Definition getActionResult (k : string) (c : ExecutionContext) : option ExecutionResult := actionResults_ c !! k.
Definition ctx_get (k : string) (c : ExecutionContext) : string :=
  match getVariable k c with Some (CString v) => v | _ => "" end.

Class Doubles := {
  double : Type;
  is_number : string -> bool;
  stod : string -> result string double;
  double_text : Z -> string;               (* std::to_string *)
  float_text : Z -> string;
  near : double -> double -> bool;         (* |a - b| < 1e-9 *)
  far : double -> double -> bool;          (* |a - b| >= 1e-9 *)
  dlt : double -> double -> bool;
  dle : double -> double -> bool
}.

(** ** Strings *)

Definition is_blank (c : Ascii.ascii) : bool :=
  bool_decide (c = " "%char \/ c = "009"%char \/ c = "010"%char \/ c = "013"%char).

Fixpoint trim_left (s : string) : string :=
  match s with
  | EmptyString => EmptyString
  | String c s' => if is_blank c then trim_left s' else s
  end.

(** Trailing blanks. *)
Fixpoint trim_right (s : string) : string :=
  match s with
  | EmptyString => EmptyString
  | String c s' =>
    match trim_right s' with
    | EmptyString => if is_blank c then EmptyString else String c EmptyString
    | t => String c t
    end
  end.

(** From the first to the last character that is not blank. *)
Definition trim (s : string) : string := trim_right (trim_left s).

Fixpoint strip_prefix (p s : string) : option string :=
  match p, s with
  | EmptyString, _ => Some s
  | String a p, String b s => if bool_decide (a = b) then strip_prefix p s else None
  | _, _ => None
  end.

(** [find] with the two [substr] around the first occurrence. *)
Fixpoint split_at (sub s : string) : option (string * string) :=
  match strip_prefix sub s with
  | Some rest => Some ("", rest)
  | None =>
    match s with
    | EmptyString => None
    | String c s => '(l, r) ← split_at sub s; Some (String c l, r)
    end
  end.

(** ** Conditions *)

Inductive CmpOp := OpEq | OpNe | OpGe | OpLe | OpGt | OpLt.

Definition op_text (o : CmpOp) : string :=
  match o with OpEq => "==" | OpNe => "!=" | OpGe => ">=" | OpLe => "<=" | OpGt => ">" | OpLt => "<" end.

(** The candidates in the order in which they are tried. *)
Definition candidates : list CmpOp := [OpEq; OpNe; OpGe; OpLe; OpGt; OpLt].

Fixpoint find_op (ops : list CmpOp) (expr : string) : option (CmpOp * string * string) :=
  match ops with
  | [] => None
  | o :: ops =>
    match split_at (op_text o) expr with
    | Some (l, r) => Some (o, l, r)
    | None => find_op ops expr
    end
  end.

Section ConditionEvaluator.
Context `{!Doubles}.

Definition getVariableAsString (name : string) (c : ExecutionContext) : string :=
  match getVariable name c with
  | None => name
  | Some v =>
    match v with
    | CInt v | CLong v => pretty v
    | CDouble b => double_text b
    | CFloat b => float_text b
    | CBool b => if b then "true" else "false"
    | CString s | CCString s => s
    | COther => name
    end
  end.

Definition string_lt (a b : string) : bool := bool_decide (String.le a b) && negb (bool_decide (a = b)).

Definition compareStrings (l : string) (o : CmpOp) (r : string) : bool :=
  match o with
  | OpEq => bool_decide (l = r)
  | OpNe => negb (bool_decide (l = r))
  | OpGt => string_lt r l
  | OpLt => string_lt l r
  | OpGe => bool_decide (String.le r l)
  | OpLe => bool_decide (String.le l r)
  end.

Definition compareNumbers (l : string) (o : CmpOp) (r : string) : result string bool :=
  match stod l, stod r with
  | Ok a, Ok b =>
    Ok (match o with
        | OpEq => near a b
        | OpNe => far a b
        | OpGt => dlt b a
        | OpLt => dlt a b
        | OpGe => dle b a
        | OpLe => dle a b
        end)
  | Throw e, _ | _, Throw e => Throw e
  end.

Definition evaluate (expression : string) (c : ExecutionContext) : result string bool :=
  match find_op candidates (trim expression) with
  | None => Throw ("Invalid condition expression: " +:+ expression)
  | Some (o, l, r) =>
    let left_value := getVariableAsString (trim l) c in
    let right := trim r in
    if is_number left_value && is_number right then compareNumbers left_value o right
    else Ok (compareStrings left_value o right)
  end.
End ConditionEvaluator.

(** ** Conditions are read as they are written *)

Definition op_char (c : ascii) : bool :=
  bool_decide (c = "="%char \/ c = "!"%char \/ c = "<"%char \/ c = ">"%char).

Fixpoint no_ops (s : string) : bool :=
  match s with EmptyString => true | String c s => negb (op_char c) && no_ops s end.

(** A non-empty operand without operator characters and outer blanks. *)
Definition operand (s : string) : bool :=
  no_ops s && bool_decide (trim_left s = s) && bool_decide (trim_right s = s) && negb (bool_decide (s = "")).

Definition starts_with_op (s : string) : bool :=
  match s with String c _ => op_char c | EmptyString => false end.

Lemma append_nil (x : string) : "" +:+ x = x.
Proof. done. Qed.
Lemma append_cons c (a x : string) : String c a +:+ x = String c (a +:+ x).
Proof. done. Qed.

Lemma split_at_skip sub l x :
  starts_with_op sub = true -> no_ops l = true ->
  split_at sub (l +:+ x) = '(a, b) ← split_at sub x; Some (l +:+ a, b).
Proof.
  intros Hsub. induction l as [|c l IH]; intros Hl.
  { rewrite append_nil. by destruct (split_at sub x) as [[? ?]|]. }
  rewrite append_cons. simpl in Hl. apply andb_true_iff in Hl as [Hc Hl]. apply negb_true_iff in Hc.
  destruct sub as [|d sub]; [done|]. simpl in Hsub. simpl.
  rewrite bool_decide_false by congruence. rewrite (IH Hl).
  by destruct (split_at (String d sub) x) as [[? ?]|].
Qed.

Lemma split_at_none sub x :
  starts_with_op sub = true -> no_ops x = true -> split_at sub x = None.
Proof.
  intros Hsub. induction x as [|c x IH]; intros Hx; destruct sub as [|d sub]; simpl in *; try done.
  apply andb_true_iff in Hx as [Hc Hx]. apply negb_true_iff in Hc.
  rewrite bool_decide_false by congruence. by rewrite (IH Hx).
Qed.

Lemma trim_right_app a b : trim_right b <> "" -> trim_right (a +:+ b) = a +:+ trim_right b.
Proof.
  intros Hb. induction a as [|c a IH]; [done|]. rewrite !append_cons. simpl. rewrite IH.
  by destruct a; [destruct (trim_right b)|].
Qed.

Lemma trim_right_blank s : trim_right (s +:+ " ") = trim_right s.
Proof. induction s as [|c s IH]; [done|]. rewrite append_cons. simpl. by rewrite IH. Qed.

Lemma trim_left_app a b : a <> "" -> trim_left a = a -> trim_left (a +:+ b) = a +:+ b.
Proof.
  destruct a as [|c a]; [done|]. rewrite append_cons. simpl. intros _. destruct (is_blank c); [|done].
  intros H. exfalso. assert (Hlen : forall s, (String.length (trim_left s) <= String.length s)%nat).
  { induction s as [|d s IH]; simpl; [lia|]. destruct (is_blank d); simpl; lia. }
  specialize (Hlen a). rewrite H in Hlen. simpl in Hlen. lia.
Qed.

Lemma string_app_assoc (a b c : string) : (a +:+ b) +:+ c = a +:+ (b +:+ c).
Proof. induction a as [|x a IH]; [done|]. rewrite !append_cons. by rewrite IH. Qed.

Definition expression (l : string) (o : CmpOp) (r : string) : string :=
  l +:+ " " +:+ op_text o +:+ " " +:+ r.

Lemma find_op_expression l o r :
  no_ops l = true -> no_ops r = true ->
  find_op candidates (expression l o r) = Some (o, l +:+ " ", " " +:+ r).
Proof.
  intros Hl Hr. unfold expression, candidates, find_op.
  rewrite !(split_at_skip _ l) by done.
  destruct o; simpl; rewrite ?split_at_none by done; done.
Qed.

(** The text is cut at its operator and the operands are found. *)
Lemma evaluate_expression `{!Doubles} l o r c :
  operand l = true -> operand r = true ->
  evaluate (expression l o r) c =
    let v := getVariableAsString l c in
    if is_number v && is_number r then compareNumbers v o r else Ok (compareStrings v o r).
Proof.
  unfold operand. intros Hl Hr. to_prop.
  assert (Ht : trim (expression l o r) = expression l o r).
  { unfold trim, expression. rewrite trim_left_app by done.
    rewrite <- !string_app_assoc. rewrite trim_right_app by congruence. congruence. }
  unfold evaluate. rewrite Ht, find_op_expression by done.
  assert (Hl' : trim (l +:+ " ") = l).
  { unfold trim. rewrite trim_left_app by done. by rewrite trim_right_blank. }
  assert (Hr' : trim (" " +:+ r) = r) by (unfold trim; rewrite append_cons, append_nil; simpl; congruence).
  by rewrite Hl', Hr'.
Qed.

(** ** The meaning of a condition *)

(** Dictionary order on the codes of the characters. *)
Fixpoint before (a b : string) : bool :=
  match a, b with
  | _, EmptyString => false
  | EmptyString, String _ _ => true
  | String x a, String y b =>
    (N_of_ascii x <? N_of_ascii y)%N || ((N_of_ascii x =? N_of_ascii y)%N && before a b)
  end.

Lemma before_compare a b : before a b = match String.compare a b with Lt => true | _ => false end.
Proof.
  revert b. induction a as [|x a IH]; intros [|y b]; try done. cbn [before String.compare]. unfold Ascii.compare.
  rewrite IH. destruct (N.compare_spec (N_of_ascii x) (N_of_ascii y)) as [E|E|E].
  - rewrite E, N.ltb_irrefl, N.eqb_refl. done.
  - apply N.ltb_lt in E as ->. done.
  - rewrite (proj2 (N.ltb_ge _ _)), (proj2 (N.eqb_neq _ _)) by lia. done.
Qed.

Lemma le_before a b : bool_decide (String.le a b) = negb (before b a).
Proof.
  rewrite before_compare, String.compare_antisym. unfold String.le, String.leb.
  destruct (String.compare a b); by case_bool_decide.
Qed.

Lemma compare_refl a : String.compare a a = Eq.
Proof. induction a as [|x a IH]; [done|]. simpl. unfold Ascii.compare. by rewrite N.compare_refl. Qed.

Lemma string_lt_before a b : string_lt a b = before a b.
Proof.
  unfold string_lt. rewrite le_before, !before_compare, (String.compare_antisym b a).
  destruct (String.compare a b) eqn:E; simpl.
  - apply String.compare_eq_iff in E as ->. by rewrite bool_decide_true.
  - rewrite bool_decide_false; [done|]. intros ->. by rewrite compare_refl in E.
  - done.
Qed.

(** What a name stands for: a variable for its value, any other text for itself. *)
Inductive denotes `{!Doubles} (name : string) : option ctx_value -> string -> Prop :=
| den_literal : denotes name None name
| den_int n : denotes name (Some (CInt n)) (pretty n)
| den_long n : denotes name (Some (CLong n)) (pretty n)
| den_double x : denotes name (Some (CDouble x)) (double_text x)
| den_float x : denotes name (Some (CFloat x)) (float_text x)
| den_true : denotes name (Some (CBool true)) "true"
| den_false : denotes name (Some (CBool false)) "false"
| den_string s : denotes name (Some (CString s)) s
| den_cstring s : denotes name (Some (CCString s)) s
| den_other : denotes name (Some COther) name.

(** The six operators: the symbol, its test on numbers and its test on texts. *)
Definition operators `{!Doubles} : list (string * (double -> double -> bool) * (string -> string -> bool)) :=
  [("==", near, λ x y, bool_decide (x = y));
   ("!=", far, λ x y, bool_decide (x <> y));
   ("<", dlt, before);
   ("<=", dle, λ x y, negb (before y x));
   (">", λ x y, dlt y x, λ x y, before y x);
   (">=", λ x y, dle y x, λ x y, negb (before x y))].

Lemma operators_text `{!Doubles} (sym : string) (num : double -> double -> bool) (str : string -> string -> bool) :
  (sym, num, str) ∈ operators ->
  exists o, op_text o = sym /\ (forall x y, compareStrings x o y = str x y) /\
    forall x y a b, stod x = Ok a -> stod y = Ok b -> compareNumbers x o y = Ok (num a b).
Proof.
  assert (Hs : forall x y : string, negb (bool_decide (x = y)) = bool_decide (x <> y)) by
    (intros; repeat case_bool_decide; naive_solver).
  unfold operators. rewrite !elem_of_cons, elem_of_nil. intros Hin.
  destruct_or! Hin; try done; injection Hin as -> -> ->;
    [exists OpEq|exists OpNe|exists OpLt|exists OpLe|exists OpGt|exists OpGe]; simpl;
    (split_and!; [done|intros; unfold compareStrings; by rewrite ?string_lt_before, ?le_before, ?Hs|]);
    intros x y a b Hx Hy; unfold compareNumbers; by rewrite Hx, Hy.
Qed.

(** C20: a condition means what it says.  For operands without operator
    characters and outer blanks, separated by single blanks from one of the six
    operators, "l op r" is evaluated by comparing what l denotes (the value of
    the variable l, or the text l itself when there is no such variable) with r
    under the test that the table [operators] gives to this operator: on the
    numbers that stod reads when both texts are numbers, on the texts in
    dictionary order otherwise. *)
Theorem condition_text_is_evaluated_as_written `{!Doubles} (l sym r v : string) (num : double -> double -> bool)
    (str : string -> string -> bool) (c : ExecutionContext) :
  operand l = true -> operand r = true -> (sym, num, str) ∈ operators -> denotes l (variables_ c !! l) v ->
  (is_number v = true -> is_number r = true ->
   forall x y, stod v = Ok x -> stod r = Ok y ->
     evaluate (l +:+ " " +:+ sym +:+ " " +:+ r) c = Ok (num x y)) /\
  (is_number v && is_number r = false -> evaluate (l +:+ " " +:+ sym +:+ " " +:+ r) c = Ok (str v r)).
Proof.
  intros Hl Hr (o & <- & Hstr & Hnum)%operators_text Hv. change (l +:+ _) with (expression l o r).
  assert (getVariableAsString l c = v) as <-
    by (unfold getVariableAsString, getVariable; by inversion Hv).
  rewrite evaluate_expression by done. cbv zeta. split.
  - intros -> -> x y Hx Hy. simpl. by apply Hnum.
  - intros ->. by rewrite Hstr.
Qed.

(** ** Example *)

Module ConditionExamples.
(** Doubles as integers, for the example. *)
#[export] Instance int_doubles : Doubles := {|
  double := Z;
  is_number s := bool_decide (s = "5" \/ s = "7");
  stod s := if bool_decide (s = "5") then Ok 5 else if bool_decide (s = "7") then Ok 7 else Throw "stod";
  double_text b := pretty b;
  float_text b := pretty b;
  near a b := a =? b;
  far a b := negb (a =? b);
  dlt a b := a <? b;
  dle a b := a <=? b
|}.
End ConditionExamples.
Import ConditionExamples.

Lemma condition_text_is_evaluated_as_written_witness :
  evaluate "speed >= 5" (setVariable "speed" (CInt 7) newContext) = Ok true /\
  evaluate "mode < auto" (setVariable "mode" (CString "test") newContext) = Ok false.
Proof.
  split.
  - apply (condition_text_is_evaluated_as_written "speed" ">=" "5" "7" (λ x y, dle y x) (λ x y, negb (before x y))
      (setVariable "speed" (CInt 7) newContext)) with (x := 7) (y := 5); try reflexivity.
    + unfold operators. rewrite !elem_of_cons. tauto.
    + exact (den_int "speed" 7).
  - apply (condition_text_is_evaluated_as_written "mode" "<" "auto" "test" dlt before
      (setVariable "mode" (CString "test") newContext)); try reflexivity.
    + unfold operators. rewrite !elem_of_cons. tauto.
    + exact (den_string "mode" "test").
Defined.
