(* ===== verification/Sequence.v ===== *)
(** * SequenceEngine (src/core/sequence/core/SequenceEngine.{h,cpp},
      RetryHandler.cpp, src/core/action/core/ActionFactory.cpp)

    Sequential execution of the steps of a sequence with retries, conditional
    branches, pause and cancel.  The engine calls the executor of
    [ActionExecutor]; the calls of other threads while it waits for an action or
    in a pause are given as a list of turns ([interference]), so every
    interleaving at the waits is a list.  [ticks] numbers the readings [clk] of
    the steady clock.  A progress value is the fraction (completed, total)
    whose float division the code stores.  Sleeping between retries
    ([calculateDelay]) changes no state. *)

From stdpp Require Import pretty.
From S2P Require Import Prelude Interfaces ActionExecutor Condition.

Inductive SequenceStatus :=
| SEQ_PENDING | SEQ_RUNNING | SEQ_COMPLETED | SEQ_FAILED | SEQ_CANCELLED | SEQ_PAUSED | SEQ_TIMEOUT.

#[export] Instance SequenceStatus_eq_dec : EqDecision SequenceStatus.
Proof. solve_decision. Defined.

Definition sequenceStatusToString (s : SequenceStatus) : string :=
  match s with
  | SEQ_PENDING => "PENDING" | SEQ_RUNNING => "RUNNING" | SEQ_COMPLETED => "COMPLETED"
  | SEQ_FAILED => "FAILED" | SEQ_CANCELLED => "CANCELLED" | SEQ_PAUSED => "PAUSED" | SEQ_TIMEOUT => "TIMEOUT"
  end.

Record ActionStep := mkStep {
  st_actionId : string;
  st_actionType : string;
  st_parameters : gmap string string;
  st_timeout : Z
}.

Record ConditionalBranch := mkBranch {
  br_condition : string;
  br_trueActions : list string;
  br_falseActions : list string
}.

Record RetryPolicy := mkRetry { maxRetries : Z; retryDelay : Z; exponentialBackoff : bool }.

Definition canRetry (p : RetryPolicy) (currentRetry : Z) : bool := currentRetry <? maxRetries p.

Record SequenceDefinition := mkSeqDef {
  def_id : string;
  def_name : string;
  def_steps : list ActionStep;
  conditionalBranches : gmap string ConditionalBranch;
  retryPolicy : option RetryPolicy
}.

Record SequenceResult := mkSeqResult {
  sr_sequenceId : string;
  sr_status : SequenceStatus;
  sr_progress : Z * Z;
  sr_errorMessage : string;
  sr_completedSteps : Z;
  sr_totalSteps : Z;
  sr_executionTime : Z
}.

Inductive SequenceEvent :=
| SequenceStartedEvent (id name : string) (total : Z)
| SequenceStepStartedEvent (id action type : string) (index total : Z)
| SequenceStepCompletedEvent (id action type : string) (index total : Z)
| SequenceCompletedEvent (id name : string) (completed total ms : Z)
| SequenceFailedEvent (id name error : string) (completed total failed ms : Z)
| SequenceCancelledEvent (id name : string) (completed total ms : Z).

Record SequenceState := mkSeqState {
  ss_status : SequenceStatus;
  ss_progress : Z * Z;
  ss_cancelRequested : bool;
  ss_pauseRequested : bool;
  ss_completedSteps : Z;
  ss_totalSteps : Z;
  ss_currentActionId : string;
  ss_startTime : Z
}.

Definition newSequenceState : SequenceState := mkSeqState SEQ_PENDING (0, 1) false false 0 0 "" 0.

(** The context of the run lives in the world the actions act on. *)
Class HasContext (W : Type) := {
  ctx_of : W -> ExecutionContext;
  ctx_put : ExecutionContext -> W -> W
}.

Section SequenceEngine.
Context {A W B V : Type} `{!IAction A W} `{!IEventBus ActionEvent B} `{!IEventBus SequenceEvent V}
  `{!HasContext W} `{!Doubles} (builds_first : bool) (clk : nat -> Z).

(** *** ActionFactory *)

Abbreviation factory_function := (string -> gmap string string -> W -> result string A * W).

Definition createAction (factories : gmap string factory_function) (type : string)
    (parameters : gmap string string) (w : W) : result string A * W :=
  match factories !! type with
  | None => (Throw ("Unknown Action type: " +:+ type), w)
  | Some f =>
    match parameters !! "id" with
    | None => (Throw "Action parameters must include 'id'", w)
    | Some id => f id parameters w
    end
  end.

Definition registerFactory (type : string) (f : factory_function) (fs : gmap string factory_function) :=
  <[type := f]> fs.

(** *** Calls of other threads *)

Inductive EnvOp :=
| EnvCancelSeq (id : string)
| EnvPause (id : string)
| EnvResume (id : string)
| EnvCancelAction (id : string)
| EnvMonitor (now : Z) (id : string)
| EnvWorld (f : W -> W).

(** What happens while the engine waits once; [t_early]: the action it starts
    then ends before it is registered. *)
Record Turn := mkTurn { t_early : bool; t_ops : list EnvOp }.

Record SequenceEngine := mkEngine {
  factories_ : gmap string factory_function;
  executor_ : ActionExecutor A W B;
  seq_bus_ : option V;
  states_ : gmap string SequenceState;
  interference : list Turn;
  ticks : nat
}.

Implicit Types e : SequenceEngine.

Definition set_executor (x : ActionExecutor A W B) e :=
  mkEngine (factories_ e) x (seq_bus_ e) (states_ e) (interference e) (ticks e).
Definition set_states (m : gmap string SequenceState) e :=
  mkEngine (factories_ e) (executor_ e) (seq_bus_ e) m (interference e) (ticks e).
Definition seq_publish (ev : SequenceEvent) e :=
  mkEngine (factories_ e) (executor_ e) (eb_publish ev <$> seq_bus_ e) (states_ e) (interference e) (ticks e).
Definition upd_state (f : SequenceState -> SequenceState) (id : string) e := set_states (alter f id (states_ e)) e.
Definition seq_world e : W := ae_world (executor_ e).
Definition set_world (w : W) e := set_executor (set_act_world w (executor_ e)) e.

Definition tick e : Z * SequenceEngine :=
  (clk (ticks e), mkEngine (factories_ e) (executor_ e) (seq_bus_ e) (states_ e) (interference e) (S (ticks e))).

Definition next_turn e : Turn * SequenceEngine :=
  match interference e with
  | [] => (mkTurn false [], e)
  | t :: ts => (t, mkEngine (factories_ e) (executor_ e) (seq_bus_ e) (states_ e) ts (ticks e))
  end.

(** *** Control of a sequence *)

Definition with_status (st : SequenceStatus) (x : SequenceState) :=
  mkSeqState st (ss_progress x) (ss_cancelRequested x) (ss_pauseRequested x) (ss_completedSteps x)
    (ss_totalSteps x) (ss_currentActionId x) (ss_startTime x).
Definition with_cancel (x : SequenceState) :=
  mkSeqState (ss_status x) (ss_progress x) true (ss_pauseRequested x) (ss_completedSteps x)
    (ss_totalSteps x) (ss_currentActionId x) (ss_startTime x).
Definition with_pause (b : bool) (st : SequenceStatus) (x : SequenceState) :=
  mkSeqState st (ss_progress x) (ss_cancelRequested x) b (ss_completedSteps x)
    (ss_totalSteps x) (ss_currentActionId x) (ss_startTime x).
Definition with_action (id : string) (x : SequenceState) :=
  mkSeqState (ss_status x) (ss_progress x) (ss_cancelRequested x) (ss_pauseRequested x) (ss_completedSteps x)
    (ss_totalSteps x) id (ss_startTime x).
Definition with_steps (n : Z) (x : SequenceState) :=
  mkSeqState (ss_status x) (ss_progress x) (ss_cancelRequested x) (ss_pauseRequested x)
    (ss_completedSteps x + n) (ss_totalSteps x) (ss_currentActionId x) (ss_startTime x).
Definition with_progress (p : Z * Z) (x : SequenceState) :=
  mkSeqState (ss_status x) p (ss_cancelRequested x) (ss_pauseRequested x) (ss_completedSteps x)
    (ss_totalSteps x) (ss_currentActionId x) (ss_startTime x).

Definition seq_cancel (id : string) e : SequenceEngine :=
  match states_ e !! id with
  | None => e
  | Some x =>
    let e := set_states (<[id := with_cancel x]> (states_ e)) e in
    if bool_decide (ss_currentActionId x = "") then e
    else set_executor (ae_cancel (ss_currentActionId x) (executor_ e)) e
  end.

Definition seq_pause (id : string) e := upd_state (with_pause true SEQ_PAUSED) id e.
Definition seq_resume (id : string) e := upd_state (with_pause false SEQ_RUNNING) id e.

Definition seq_getStatus (id : string) e : SequenceStatus :=
  match states_ e !! id with Some x => ss_status x | None => SEQ_PENDING end.
Definition getProgress (id : string) e : Z * Z :=
  match states_ e !! id with Some x => ss_progress x | None => (0, 1) end.

Definition updateProgress (id : string) (completed total : Z) e :=
  if 0 <? total then upd_state (with_progress (completed, total)) id e else e.

Definition env_step (o : EnvOp) e : SequenceEngine :=
  match o with
  | EnvCancelSeq id => seq_cancel id e
  | EnvPause id => seq_pause id e
  | EnvResume id => seq_resume id e
  | EnvCancelAction id => set_executor (ae_cancel id (executor_ e)) e
  | EnvMonitor now id => set_executor (monitor_check now id (executor_ e)) e
  | EnvWorld f => set_world (f (seq_world e)) e
  end.

Definition env_steps (os : list EnvOp) e : SequenceEngine := foldl (λ e o, env_step o e) e os.

Definition cancel_requested (id : string) e : bool :=
  match states_ e !! id with Some x => ss_cancelRequested x | None => false end.
Definition pause_requested (id : string) e : bool :=
  match states_ e !! id with Some x => ss_pauseRequested x | None => false end.

(** *** Running one action *)

Definition step_params (st : ActionStep) : gmap string string := <["id" := st_actionId st]> (st_parameters st).

(** Create the action, start it, wait for it and fetch its result; [Throw] is an
    exception of the factory. *)
Definition attempt (seq : string) (st : ActionStep) e : outcome (result string ExecutionResult * SequenceEngine) :=
  let '(r, w) := createAction (factories_ e) (st_actionType st) (step_params st) (seq_world e) in
  let e := set_world w e in
  match r with
  | Throw x => Returns (Throw x, e)
  | Ok a =>
    let '(turn, e) := next_turn e in
    let '(now, e) := tick e in
    match executeAsync builds_first (t_early turn) now a (st_timeout st) (executor_ e) with
    | Deadlocks => Deadlocks
    | Terminates => Terminates
    | Returns (id, x) =>
      let e := upd_state (with_action id) seq (set_executor x e) in
      let e := env_steps (t_ops turn) e in
      let '(now, e) := tick e in
      let e := set_executor (waitForCompletion now id (executor_ e)) e in
      let e := upd_state (with_action "") seq e in
      let '(now, e) := tick e in
      Returns (Ok (getResult now id (executor_ e)), e)
    end
  end.

Definition may_retry (d : SequenceDefinition) (retryCount : Z) : bool :=
  match retryPolicy d with Some p => canRetry p retryCount | None => false end.

(** The loop of attempts; [fuel] is at least the number of retries that are
    left ([retry_fuel]). *)
Fixpoint retry_loop (fuel : nat) (d : SequenceDefinition) (i : nat) (st : ActionStep) (retryCount : Z) e :
    outcome (result string (ExecutionResult * Z) * SequenceEngine) :=
  match attempt (def_id d) st e with
  | Deadlocks => Deadlocks
  | Terminates => Terminates
  | Returns (Throw x, e) => Returns (Throw x, e)
  | Returns (Ok r, e) =>
    if isSuccessful r then
      let e := seq_publish (SequenceStepCompletedEvent (def_id d) (st_actionId st) (st_actionType st)
                              (Z.of_nat i) (Z.of_nat (length (def_steps d)))) e in
      Returns (Ok (r, retryCount), e)
    else if may_retry d retryCount then
      match fuel with
      | O => Returns (Ok (r, retryCount), e)
      | S fuel => retry_loop fuel d i st (retryCount + 1) e
      end
    else Returns (Ok (r, retryCount), e)
  end.

Definition retry_fuel (d : SequenceDefinition) : nat :=
  match retryPolicy d with Some p => Z.to_nat (maxRetries p) | None => 0 end.

Definition put_result (id : string) (r : ExecutionResult) e : SequenceEngine :=
  set_world (ctx_put (setActionResult id r (ctx_of (seq_world e))) (seq_world e)) e.

(** *** Conditional branches *)

(** One branch action: skipped, not found, or run once, whatever its result.  The
    number is that of the additional steps. *)
Definition branch_action (d : SequenceDefinition) (id : string) (executed : list string) (added : Z) e :
    outcome (list string * Z * SequenceEngine) :=
  if bool_decide (id ∈ executed) then Returns (executed, added, e)
  else
    match list_find (λ st, st_actionId st = id) (def_steps d) with
    | None => Returns (executed, added, e)
    | Some (_, st) =>
      match attempt (def_id d) st e with
      | Deadlocks => Deadlocks
      | Terminates => Terminates
      | Returns (Throw _, e) => Returns (executed, added, e)
      | Returns (Ok r, e) =>
        Returns (executed ++ [st_actionId st], added + 1, put_result (st_actionId st) r e)
      end
    end.

Fixpoint branch_loop (d : SequenceDefinition) (ids : list string) (executed : list string) (added : Z) e :
    outcome (list string * Z * SequenceEngine) :=
  match ids with
  | [] => Returns (executed, added, e)
  | id :: ids =>
    match branch_action d id executed added e with
    | Returns (executed, added, e) => branch_loop d ids executed added e
    | Deadlocks => Deadlocks
    | Terminates => Terminates
    end
  end.

Definition handleConditionalBranch (d : SequenceDefinition) (actionId : string) (executed : list string) e :
    outcome (list string * Z * SequenceEngine) :=
  match conditionalBranches d !! actionId with
  | None => Returns (executed, 0, e)
  | Some br =>
    match evaluate (br_condition br) (ctx_of (seq_world e)) with
    | Throw _ => Returns (executed, 0, e)
    | Ok b => branch_loop d (if b then br_trueActions br else br_falseActions br) executed 0 e
    end
  end.

(** *** Running the steps *)

(** [while (pauseRequested && !cancelRequested)]: one turn per round; [None] when
    the sequence is still paused at the end of the given turns. *)
Fixpoint pause_loop (fuel : nat) (seq : string) e : option SequenceEngine :=
  if pause_requested seq e && negb (cancel_requested seq e) then
    match fuel, interference e with
    | S fuel, _ :: _ => let '(turn, e) := next_turn e in pause_loop fuel seq (env_steps (t_ops turn) e)
    | _, _ => None
    end
  else Some e.

Definition fail_text (i : nat) (st : ActionStep) (what : string) : string :=
  "Step " +:+ pretty (i + 1)%nat +:+ " (" +:+ st_actionId st +:+ ")" +:+ what.

(** What a step decides: go on, or end with a status and a message. *)
Inductive StepEnd := GoOn | EndWith (st : SequenceStatus) (error : string).

Definition run_step (d : SequenceDefinition) (i : nat) (st : ActionStep) (executed : list string)
    (completed : Z) e : outcome (StepEnd * list string * Z * SequenceEngine) :=
  let total := Z.of_nat (length (def_steps d)) in
  let e := seq_publish (SequenceStepStartedEvent (def_id d) (st_actionId st) (st_actionType st) (Z.of_nat i) total) e in
  match retry_loop (retry_fuel d) d i st 0 e with
  | Deadlocks => Deadlocks
  | Terminates => Terminates
  | Returns (Throw x, e) => Returns (EndWith SEQ_FAILED (fail_text i st (" exception: " +:+ x)), executed, completed, e)
  | Returns (Ok (r, retries), e) =>
    let e := put_result (st_actionId st) r e in
    if isCancelled r || (bool_decide (res_status r = ACT_TIMEOUT) && cancel_requested (def_id d) e) then
      Returns (EndWith SEQ_CANCELLED "", executed, completed, e)
    else if isFailed r then
      Returns (EndWith SEQ_FAILED (fail_text i st (" failed after " +:+ pretty retries +:+ " retries: "
                 +:+ res_errorMessage r)), executed, completed, e)
    else
      let completed := completed + 1 in
      let executed := executed ++ [st_actionId st] in
      let e := updateProgress (def_id d) completed total (upd_state (with_steps 1) (def_id d) e) in
      match handleConditionalBranch d (st_actionId st) executed e with
      | Deadlocks => Deadlocks
      | Terminates => Terminates
      | Returns (executed, branchSteps, e) =>
        let completed := completed + branchSteps in
        let e := upd_state (with_steps branchSteps) (def_id d) e in
        let e := if 0 <? branchSteps then updateProgress (def_id d) completed total e else e in
        Returns (GoOn, executed, completed, e)
      end
  end.

(** The loop over the steps; [None]: paused for good. *)
Fixpoint steps_loop (d : SequenceDefinition) (i : nat) (sts : list ActionStep) (executed : list string)
    (completed : Z) e : outcome (option (StepEnd * list string * Z * SequenceEngine)) :=
  match sts with
  | [] => Returns (Some (GoOn, executed, completed, e))
  | st :: sts =>
    if cancel_requested (def_id d) e then Returns (Some (EndWith SEQ_CANCELLED "", executed, completed, e))
    else
      match pause_loop (length (interference e)) (def_id d) e with
      | None => Returns None
      | Some e =>
        if bool_decide (st_actionId st ∈ executed) then steps_loop d (S i) sts executed completed e
        else
          match run_step d i st executed completed e with
          | Deadlocks => Deadlocks
          | Terminates => Terminates
          | Returns (GoOn, executed, completed, e) => steps_loop d (S i) sts executed completed e
          | Returns (stop, executed, completed, e) => Returns (Some (stop, executed, completed, e))
          end
      end
  end.

Definition executeSequential (d : SequenceDefinition) e :
    outcome (option (SequenceResult * list string * SequenceEngine)) :=
  let total := Z.of_nat (length (def_steps d)) in
  match steps_loop d 0 (def_steps d) [] 0 e with
  | Deadlocks => Deadlocks
  | Terminates => Terminates
  | Returns None => Returns None
  | Returns (Some (stop, executed, completed, e)) =>
    match stop with
    | GoOn =>
      Returns (Some (mkSeqResult (def_id d) SEQ_COMPLETED (1, 1) "" completed total 0, executed,
                     upd_state (with_progress (1, 1) ∘ with_status SEQ_COMPLETED) (def_id d) e))
    | EndWith st err =>
      Returns (Some (mkSeqResult (def_id d) st (0, 1) err completed total 0, executed,
                     upd_state (with_status st) (def_id d) e))
    end
  end.

Definition final_event (d : SequenceDefinition) (r : SequenceResult) : option SequenceEvent :=
  match sr_status r with
  | SEQ_COMPLETED => Some (SequenceCompletedEvent (def_id d) (def_name d) (sr_completedSteps r) (sr_totalSteps r) (sr_executionTime r))
  | SEQ_FAILED => Some (SequenceFailedEvent (def_id d) (def_name d) (sr_errorMessage r) (sr_completedSteps r)
                          (sr_totalSteps r) (sr_completedSteps r) (sr_executionTime r))
  | SEQ_CANCELLED => Some (SequenceCancelledEvent (def_id d) (def_name d) (sr_completedSteps r) (sr_totalSteps r) (sr_executionTime r))
  | _ => None
  end.

(** The result carries the executed action ids, in order, as a ghost value. *)
Definition seq_execute (d : SequenceDefinition) e : outcome (option (SequenceResult * list string * SequenceEngine)) :=
  let total := Z.of_nat (length (def_steps d)) in
  let old := default newSequenceState (states_ e !! def_id d) in
  let '(now, e) := tick e in
  let state := mkSeqState SEQ_RUNNING (ss_progress old) false false 0 total (ss_currentActionId old) now in
  let e := set_states (<[def_id d := state]> (states_ e)) e in
  let e := seq_publish (SequenceStartedEvent (def_id d) (def_name d) total) e in
  match executeSequential d e with
  | Deadlocks => Deadlocks
  | Terminates => Terminates
  | Returns None => Returns None
  | Returns (Some (r, executed, e)) =>
    let '(later, e) := tick e in
    let r := mkSeqResult (sr_sequenceId r) (sr_status r) (sr_progress r) (sr_errorMessage r)
               (sr_completedSteps r) (sr_totalSteps r) (elapsed_ms now later) in
    let e := match final_event d r with Some ev => seq_publish ev e | None => e end in
    Returns (Some (r, executed, e))
  end.

Definition seq_finished (x : SequenceState) : bool :=
  match ss_status x with SEQ_COMPLETED | SEQ_FAILED | SEQ_CANCELLED => true | _ => false end.

Definition clearCompletedSequences e : nat * SequenceEngine :=
  let gone := filter (λ kx, seq_finished (snd kx) = true) (states_ e) in
  (size gone, set_states (states_ e ∖ gone) e).
End SequenceEngine.

(** ** Properties *)

Section Properties.
Context {A W B V : Type} `{!IAction A W} `{!IEventBus ActionEvent B} `{!IEventBus SequenceEvent V}
  `{!HasContext W} `{!Doubles} (builds_first : bool) (clk : nat -> Z).
Abbreviation engine := (SequenceEngine (A := A) (W := W) (B := B) (V := V)).
Implicit Types e : engine.

Definition step_ids (d : SequenceDefinition) : list string := map st_actionId (def_steps d).

(** *** Interference leaves the tasks and the entries *)

Abbreviation exec e := (executor_ e).

Lemma env_step_extends o e : extends (exec e) (exec (env_step o e)).
Proof.
  destruct o; simpl.
  - unfold seq_cancel. destruct (states_ e !! id) as [x|]; [|apply extends_refl].
    case_bool_decide; [apply extends_refl|apply cancel_extends].
  - apply extends_refl.
  - apply extends_refl.
  - apply cancel_extends.
  - apply monitor_extends.
  - by apply extends_same.
Qed.

Lemma env_steps_extends os e : extends (exec e) (exec (env_steps os e)).
Proof.
  revert e. induction os as [|o os IH]; intros e; [apply extends_refl|].
  eapply extends_trans; [apply env_step_extends|apply IH].
Qed.

Lemma next_turn_exec e : exec (snd (next_turn e)) = exec e.
Proof. unfold next_turn. by destruct (interference e). Qed.

(** Actions are created under the id of their step. *)
Definition factories_ok (fs : gmap string (string -> gmap string string -> W -> result string A * W)) : Prop :=
  forall type f id ps w a w', fs !! type = Some f -> f id ps w = (Ok a, w') -> act_id a = id.

Lemma env_steps_factories os e : factories_ (env_steps os e) = factories_ e.
Proof.
  revert e. induction os as [|o os IH]; intros e; [done|]. unfold env_steps in *. simpl. rewrite IH.
  destruct o; simpl; try done. unfold seq_cancel. destruct (states_ e !! id); [|done]. by case_bool_decide.
Qed.

(** *** The tasks of the executor *)

(** A task keeps its action, and stays ended. *)
Definition tasks_grow (s s' : ActionExecutor A W B) : Prop :=
  forall t x, async_tasks s !! t = Some x ->
    exists y, async_tasks s' !! t = Some y /\ at_action y = at_action x /\ (at_done x = true -> at_done y = true).

Lemma tasks_grow_refl s : tasks_grow s s.
Proof. intros t x Hx. eauto. Qed.

Lemma tasks_grow_same s s' : async_tasks s' = async_tasks s -> tasks_grow s s'.
Proof. intros E t x Hx. rewrite E. eauto. Qed.

Lemma tasks_grow_trans s1 s2 s3 : tasks_grow s1 s2 -> tasks_grow s2 s3 -> tasks_grow s1 s3.
Proof.
  intros H1 H2 t x Hx. destruct (H1 t x Hx) as (y & Hy & Ha & Hd). destruct (H2 t y Hy) as (z & Hz & Ha' & Hd').
  exists z. split_and!; [done|congruence|auto].
Qed.

Lemma tasks_grow_length s s' : tasks_grow s s' -> (length (async_tasks s) <= length (async_tasks s'))%nat.
Proof.
  intros G. destruct (decide (length (async_tasks s) <= length (async_tasks s'))%nat) as [|Hlt]; [done|]. exfalso.
  destruct (lookup_lt_is_Some_2 (async_tasks s) (length (async_tasks s'))) as [x Hx]; [lia|].
  destruct (G _ _ Hx) as (y & Hy & _). apply lookup_lt_Some in Hy. lia.
Qed.

(** The end of a task ends that task and no other. *)
Lemma finish_tasks now t s :
  async_tasks (finish_task now t s) = alter (λ x, mkAsync (at_action x) (at_start x) true) t (async_tasks s).
Proof.
  unfold finish_task. destruct (async_tasks s !! t) as [x|] eqn:Ex.
  - assert (E : alter (λ x, mkAsync (at_action x) (at_start x) true) t (async_tasks s) =
                <[t := mkAsync (at_action x) (at_start x) true]> (async_tasks s)).
    { apply list_eq. intros k. destruct (decide (k = t)) as [->|Hne].
      - rewrite list_lookup_alter_eq, list_lookup_insert_eq, Ex by (by eapply lookup_lt_Some). done.
      - by rewrite list_lookup_alter_ne, list_lookup_insert_ne. }
    rewrite E. destruct (at_done x) eqn:Ed.
    + rewrite list_insert_id; [done|]. rewrite Ex. destruct x; simpl in *; by subst.
    + destruct (act_execute _ _) as [w [m|]]; done.
  - apply list_eq. intros k. destruct (decide (k = t)) as [->|Hne];
      [by rewrite list_lookup_alter_eq, Ex|by rewrite list_lookup_alter_ne].
Qed.

Lemma finish_grow now t s : tasks_grow s (finish_task now t s).
Proof.
  intros k x Hx. rewrite finish_tasks. destruct (decide (k = t)) as [->|Hne].
  - rewrite list_lookup_alter_eq, Hx. simpl. eexists. by split_and!.
  - rewrite list_lookup_alter_ne by done. eauto.
Qed.

(** A started action is a new task, which has ended or is in the table. *)
Lemma executeAsync_task early now a timeout s id s' :
  executeAsync builds_first early now a timeout s = Returns (id, s') ->
  id = act_id a /\ tasks_grow s s' /\
  exists b, async_tasks s' !! length (async_tasks s) = Some (mkAsync a now b) /\
    (b = true \/ exists x, runningActions_ s' !! act_id a = Some x /\ es_future x = length (async_tasks s)).
Proof.
  unfold executeAsync. cbv zeta. set (s0 := act_publish _ s). set (t := length (async_tasks s0)).
  set (s1 := set_async (async_tasks s0 ++ [mkAsync a now false]) s0).
  assert (H1 : tasks_grow s s1 /\ async_tasks s1 !! t = Some (mkAsync a now false)).
  { split.
    - intros k x Hx. exists x. split_and!; [|done..]. simpl. rewrite lookup_app_l; [done|]. by eapply lookup_lt_Some.
    - simpl. by rewrite list_lookup_middle. }
  change (length (async_tasks s)) with t. destruct H1 as [G1 L1].
  set (s2 := if early then finish_task now t s1 else s1).
  assert (H2 : tasks_grow s s2 /\ exists b, async_tasks s2 !! t = Some (mkAsync a now b)).
  { subst s2. destruct early; [|by eauto]. split; [eapply tasks_grow_trans; [exact G1|apply finish_grow]|].
    rewrite finish_tasks, list_lookup_alter_eq, L1. simpl. eauto. }
  clearbody s2. destruct H2 as (G2 & b & L2). destruct (runningActions_ s2 !! act_id a) as [x|] eqn:Ex.
  - destruct (_ && _); [done|].
    assert (H3 : tasks_grow s (finish_task now t s2) /\ async_tasks (finish_task now t s2) !! t = Some (mkAsync a now true)).
    { split; [eapply tasks_grow_trans; [exact G2|apply finish_grow]|].
      by rewrite finish_tasks, list_lookup_alter_eq, L2. }
    destruct H3 as [G3 L3]. destruct (0 <? timeout).
    + destruct (es_timeoutThread x); [done|]. intros [= <- <-]. split; [done|]. split; [exact G3|]. eauto.
    + intros [= <- <-]. split; [done|]. split; [exact G3|]. eauto.
  - intros [= <- <-]. split; [done|]. split; [exact G2|]. exists b. split; [exact L2|]. right. simpl.
    rewrite lookup_insert_eq. eexists. split; [done|]. by destruct (0 <? timeout).
Qed.

Lemma env_steps_tasks os e : async_tasks (exec (env_steps os e)) = async_tasks (exec e).
Proof.
  assert (Hc : forall id s, async_tasks (ae_cancel id s) = async_tasks s).
  { intros id s. unfold ae_cancel. by destruct (runningActions_ s !! id). }
  revert e. induction os as [|o os IH]; intros e; [done|]. unfold env_steps in *. simpl. rewrite IH.
  destruct o; simpl; try done.
  - unfold seq_cancel. destruct (states_ e !! id); [|done]. case_bool_decide; [done|]. apply Hc.
  - unfold monitor_check. repeat (case_match; try done). by rewrite Hc.
Qed.

(** What every part of the engine leaves alone. *)
Definition kept e e' : Prop := factories_ e' = factories_ e /\ tasks_grow (exec e) (exec e').

Lemma kept_refl e : kept e e.
Proof. split; [done|apply tasks_grow_refl]. Qed.

Lemma kept_same e e' : factories_ e' = factories_ e -> async_tasks (exec e') = async_tasks (exec e) -> kept e e'.
Proof. intros Hf Ht. split; [done|by apply tasks_grow_same]. Qed.

Lemma kept_trans e1 e2 e3 : kept e1 e2 -> kept e2 e3 -> kept e1 e3.
Proof. intros [F1 G1] [F2 G2]. split; [congruence|by eapply tasks_grow_trans]. Qed.

(** Task [t] of the executor ran, to its end, an action that the factory of the
    type of a step with this id made for it. *)
Definition run_by (d : SequenceDefinition) e (id : string) (t : nat) : Prop :=
  exists st a start w w', st ∈ def_steps d /\ st_actionId st = id /\
    createAction (factories_ e) (st_actionType st) (step_params st) w = (Ok a, w') /\
    async_tasks (exec e) !! t = Some (mkAsync a start true).

Lemma run_by_kept d e e' id t : kept e e' -> run_by d e id t -> run_by d e' id t.
Proof.
  intros [Hf Hg] (st & a & start & w & w' & Hst & Hid & Hc & Ht). destruct (Hg _ _ Ht) as ([a' s' b] & Hy & Ha & Hd).
  simpl in Ha, Hd. rewrite Hd in Hy by done. subst a'. exists st, a, s', w, w'. by rewrite Hf.
Qed.

(** An attempt either fails in the factory or runs one new task to its end. *)
Lemma attempt_runs d st e r e' :
  st ∈ def_steps d -> attempt builds_first clk (def_id d) st e = Returns (r, e') ->
  kept e e' /\
  match r with
  | Ok _ => exists t, (length (async_tasks (exec e)) <= t < length (async_tasks (exec e')))%nat /\
              run_by d e' (st_actionId st) t
  | Throw _ => True
  end.
Proof.
  intros Hst. unfold attempt.
  destruct (createAction (factories_ e) (st_actionType st) (step_params st) (seq_world e)) as [[a|x] w] eqn:Ec.
  2: { intros [= <- <-]. split; [by apply kept_same|done]. }
  destruct (next_turn (set_world w e)) as [turn e1] eqn:Et.
  assert (H1 : factories_ e1 = factories_ e /\ async_tasks (exec e1) = async_tasks (exec e)).
  { pose proof (next_turn_exec (set_world w e)) as Hx. rewrite Et in Hx. simpl in Hx. rewrite Hx. split; [|done].
    unfold next_turn in Et. destruct (interference _); by injection Et as _ <-. }
  destruct H1 as [F1 T1]. cbn [tick].
  destruct (executeAsync _ _ _ _ _ _) as [[id x1]| |] eqn:Ex; try done.
  destruct (executeAsync_task _ _ _ _ _ _ _ Ex) as (-> & G & b & Hb & Hdone). cbn [executor_] in G, Hb, Hdone.
  rewrite T1 in Hb, Hdone.
  match goal with |- context [env_steps _ ?x] => set (e2 := x) end.
  pose proof (env_steps_tasks (t_ops turn) e2) as T2. pose proof (env_steps_extends (t_ops turn) e2) as X2.
  pose proof (env_steps_factories (t_ops turn) e2) as F2. set (e3 := env_steps _ e2) in *. clearbody e3.
  intros [= <- <-]. set (t := length (async_tasks (exec e))) in *.
  set (s4 := waitForCompletion _ _ _).
  assert (H4 : tasks_grow x1 s4 /\ async_tasks s4 !! t = Some (mkAsync a (clk (ticks e1)) true)).
  { change (exec e2) with x1 in T2, X2. subst s4. cbn [executor_]. unfold waitForCompletion.
    destruct Hdone as [->|(y & Hy & Hf)].
    - destruct (runningActions_ (exec e3) !! act_id a) as [y|].
      + split; [eapply tasks_grow_trans; [by apply (tasks_grow_same x1)|apply finish_grow]|].
        destruct (finish_grow (clk (ticks e3)) (es_future y) (exec e3) t (mkAsync a (clk (ticks e1)) true)) as (z & Hz & Ha & Hd);
          [by rewrite T2|]. rewrite finish_tasks in Hz |- *. destruct (decide (t = es_future y)) as [<-|Hne].
        * rewrite list_lookup_alter_eq, T2, Hb in *. done.
        * rewrite list_lookup_alter_ne, T2, Hb in * by done. done.
      + split; [by apply tasks_grow_same|by rewrite T2].
    - destruct (ext_old _ _ X2 _ _ Hy) as (y' & -> & Hk & _). rewrite Hk, Hf.
      split; [eapply tasks_grow_trans; [by apply (tasks_grow_same x1)|apply finish_grow]|].
      by rewrite finish_tasks, list_lookup_alter_eq, T2, Hb. }
  clearbody s4. destruct H4 as [G4 L4]. split.
  - split; [simpl; by rewrite F2; simpl; rewrite F1|]. simpl. eapply tasks_grow_trans; [|exact G4].
    eapply tasks_grow_trans; [|exact G]. by apply tasks_grow_same.
  - exists t. split; [split; [done|]; simpl; by eapply lookup_lt_Some|].
    exists st, a, (clk (ticks e1)), (seq_world e), w. simpl. rewrite F2. simpl. rewrite F1. by split_and!.
Qed.

(** *** The executed actions *)

(** [executed'] extends [executed] by steps of the sequence that were not run,
    each run by a task of its own, in order. *)
Definition ran_more (d : SequenceDefinition) e e' (executed executed' : list string) (n : Z) : Prop :=
  kept e e' /\
  exists more ts, executed' = executed ++ more /\ n = Z.of_nat (length more) /\
    (NoDup executed -> NoDup executed') /\ Forall (.∈ step_ids d) more /\
    Forall2 (run_by d e') more ts /\ StronglySorted lt ts /\
    Forall (λ t, length (async_tasks (exec e)) <= t < length (async_tasks (exec e')))%nat ts.

Lemma ran_more_kept d e e' executed : kept e e' -> ran_more d e e' executed executed 0.
Proof. intros Hk. split; [done|]. exists [], []. rewrite app_nil_r. by split_and!; try constructor. Qed.

Lemma ran_more_trans d e1 e2 e3 l1 l2 l3 n m :
  ran_more d e1 e2 l1 l2 n -> ran_more d e2 e3 l2 l3 m -> ran_more d e1 e3 l1 l3 (n + m).
Proof.
  intros (K1 & m1 & t1 & -> & -> & H1 & F1 & R1 & S1 & B1) (K2 & m2 & t2 & -> & -> & H2 & F2 & R2 & S2 & B2).
  split; [by eapply kept_trans|]. exists (m1 ++ m2), (t1 ++ t2). rewrite app_assoc, length_app.
  pose proof (tasks_grow_length _ _ (proj2 K1)). pose proof (tasks_grow_length _ _ (proj2 K2)).
  split_and!; [done|lia|auto|by apply Forall_app| | |].
  - apply Forall2_app; [|done]. eapply Forall2_impl; [exact R1|]. intros id t. by apply run_by_kept.
  - apply StronglySorted_app_2; [|done|done]. intros x y Hx Hy. rewrite Forall_forall in B1, B2.
    specialize (B1 x Hx). specialize (B2 y Hy). lia.
  - apply Forall_app. split; [eapply Forall_impl; [exact B1|]|eapply Forall_impl; [exact B2|]]; simpl; lia.
Qed.

(** Changes that start no task. *)
Lemma ran_more_then d e1 e2 e3 l1 l2 n : ran_more d e1 e2 l1 l2 n -> kept e2 e3 -> ran_more d e1 e3 l1 l2 n.
Proof. intros R K. rewrite <- (Z.add_0_r n). eapply ran_more_trans; [exact R|by apply ran_more_kept]. Qed.

Lemma ran_more_after d e1 e2 e3 l1 l2 n : kept e1 e2 -> ran_more d e2 e3 l1 l2 n -> ran_more d e1 e3 l1 l2 n.
Proof. intros K R. rewrite <- (Z.add_0_l n). eapply ran_more_trans; [by apply ran_more_kept|exact R]. Qed.

Lemma ran_more_one d e e' executed id t :
  kept e e' -> (length (async_tasks (exec e)) <= t < length (async_tasks (exec e')))%nat -> run_by d e' id t ->
  id ∉ executed -> ran_more d e e' executed (executed ++ [id]) 1.
Proof.
  intros Hk Ht Hr Hni. split; [done|]. exists [id], [t].
  assert (Hin : id ∈ step_ids d).
  { destruct Hr as (st & _ & _ & _ & _ & Hst & <- & _). apply list_elem_of_fmap. eauto. }
  split_and!; [done|done| |by constructor|by repeat constructor|by repeat constructor|by constructor]. intros Hnd.
  apply NoDup_app. split_and!; [done| |apply NoDup_singleton]. intros x Hx ->%list_elem_of_singleton. done.
Qed.

Lemma put_result_kept id r e : kept e (put_result id r e).
Proof. by apply kept_same. Qed.

Lemma updateProgress_kept id c t e : kept e (updateProgress id c t e).
Proof. unfold updateProgress. case_match; by apply kept_same. Qed.

Lemma branch_action_ran d id executed added e executed' added' e' :
  branch_action builds_first clk d id executed added e = Returns (executed', added', e') ->
  exists n, added' = added + n /\ ran_more d e e' executed executed' n.
Proof.
  unfold branch_action. case_bool_decide as Hin.
  { intros [= <- <- <-]. exists 0. split; [lia|apply ran_more_kept, kept_refl]. }
  destruct (list_find _ _) as [[j st]|] eqn:Ef.
  2: { intros [= <- <- <-]. exists 0. split; [lia|apply ran_more_kept, kept_refl]. }
  apply list_find_Some in Ef as (Hj & <- & _). apply list_elem_of_lookup_2 in Hj.
  destruct (attempt builds_first clk (def_id d) st e) as [[[r|x] e1]| |] eqn:Ea; try done; intros [= <- <- <-];
    apply (attempt_runs d) in Ea as [Hk Hr]; try done.
  - destruct Hr as (t & Ht & Hr). exists 1. split; [done|].
    eapply ran_more_then; [by apply (ran_more_one d e e1 executed (st_actionId st) t)|apply put_result_kept].
  - exists 0. split; [lia|by apply ran_more_kept].
Qed.

Lemma branch_loop_ran d ids executed added e executed' added' e' :
  branch_loop builds_first clk d ids executed added e = Returns (executed', added', e') ->
  exists n, added' = added + n /\ ran_more d e e' executed executed' n.
Proof.
  revert executed added e. induction ids as [|id ids IH]; intros executed added e; simpl.
  { intros [= <- <- <-]. exists 0. split; [lia|apply ran_more_kept, kept_refl]. }
  destruct (branch_action builds_first clk d id executed added e) as [[[l n] e1]| |] eqn:Eb; try done.
  intros Hl. destruct (branch_action_ran _ _ _ _ _ _ _ _ Eb) as (n1 & -> & H1).
  destruct (IH _ _ _ Hl) as (n2 & -> & H2). exists (n1 + n2). split; [lia|]. by eapply ran_more_trans.
Qed.

Lemma handle_branch_ran d id executed e executed' n e' :
  handleConditionalBranch builds_first clk d id executed e = Returns (executed', n, e') ->
  ran_more d e e' executed executed' n.
Proof.
  unfold handleConditionalBranch. destruct (conditionalBranches d !! id) as [br|].
  2: { intros [= <- <- <-]. apply ran_more_kept, kept_refl. }
  destruct (evaluate _ _) as [b|x].
  2: { intros [= <- <- <-]. apply ran_more_kept, kept_refl. }
  intros (m & -> & Hran)%branch_loop_ran. exact Hran.
Qed.

(** A step that is retried ends with one more task; the last attempt ran it. *)
Lemma retry_loop_runs fuel d i st n e r e' :
  st ∈ def_steps d -> retry_loop builds_first clk fuel d i st n e = Returns (r, e') ->
  kept e e' /\
  match r with
  | Ok _ => exists t, (length (async_tasks (exec e)) <= t < length (async_tasks (exec e')))%nat /\
              run_by d e' (st_actionId st) t
  | Throw _ => True
  end.
Proof.
  intros Hst. revert n e. induction fuel as [|fuel IH]; intros n e; cbn [retry_loop];
    destruct (attempt builds_first clk (def_id d) st e) as [[[x|m] e1]| |] eqn:Ea; try done;
    apply (attempt_runs d) in Ea as [Hk Hr]; try done; try (by intros [= <- <-]);
    destruct (isSuccessful x); try (by intros [= <- <-]);
    destruct (may_retry d n); try (by intros [= <- <-]).
  intros Hl. destruct (IH _ _ Hl) as [Hk' Hr']. split; [by eapply kept_trans|].
  destruct r; [|done]. destruct Hr' as (t & Ht & Hr'). exists t. split; [|done].
  pose proof (tasks_grow_length _ _ (proj2 Hk)). lia.
Qed.

Lemma run_step_ran d i st executed completed e stop executed' completed' e' :
  st ∈ def_steps d -> st_actionId st ∉ executed ->
  run_step builds_first clk d i st executed completed e = Returns (stop, executed', completed', e') ->
  match stop with
  | GoOn => st_actionId st ∈ executed' /\
            exists n, completed' = completed + n /\ ran_more d e e' executed executed' n
  | EndWith s _ => (s = SEQ_FAILED \/ s = SEQ_CANCELLED) /\ executed' = executed /\ completed' = completed /\ kept e e'
  end.
Proof.
  intros Hin Hni. unfold run_step. cbv zeta. set (e0 := seq_publish _ e).
  assert (K0 : kept e e0) by (by apply kept_same).
  destruct (retry_loop _ _ _ _ _ _ _ _) as [[[[r retries]|x] e1]| |] eqn:El; try done;
    apply retry_loop_runs in El as [K1 Hr]; try done; pose proof (kept_trans _ _ _ K0 K1) as K.
  2: { intros [= <- <- <- <-]. auto. }
  pose proof (kept_trans _ _ _ K (put_result_kept (st_actionId st) r e1)) as K2.
  destruct (_ || _); [intros [= <- <- <- <-]; auto|].
  destruct (isFailed r); [intros [= <- <- <- <-]; auto|].
  destruct (handleConditionalBranch _ _ _ _ _ _) as [[[l n] e2]| |] eqn:Eb; try done.
  intros [= <- <- <- <-]. apply handle_branch_ran in Eb. destruct Hr as (t & Ht & Hr).
  assert (H1 : ran_more d e e1 executed (executed ++ [st_actionId st]) 1).
  { apply (ran_more_one _ _ _ _ _ t); try done. }
  assert (H2 : ran_more d e e2 executed l (1 + n)).
  { eapply ran_more_trans; [exact H1|]. eapply ran_more_after; [|exact Eb].
    eapply kept_trans; [apply put_result_kept|]. eapply kept_trans; [|apply updateProgress_kept]. by apply kept_same. }
  split.
  - destruct Eb as (_ & more & ts & -> & _). set_solver.
  - exists (1 + n). split; [lia|]. eapply ran_more_then; [exact H2|].
    eapply kept_trans; [by apply (kept_same _ (upd_state (with_steps n) (def_id d) e2))|].
    destruct (0 <? n); [apply updateProgress_kept|apply kept_refl].
Qed.

Lemma pause_loop_kept fuel id e e' : pause_loop fuel id e = Some e' -> kept e e'.
Proof.
  revert e. induction fuel as [|fuel IH]; intros e; simpl; destruct (_ && _); try done;
    try (intros [= <-]; apply kept_refl).
  destruct (interference e) as [|t ts] eqn:Ei; [done|]. unfold next_turn. rewrite Ei.
  intros Hp. eapply kept_trans; [|by apply IH].
  apply kept_same; [by rewrite env_steps_factories|by rewrite env_steps_tasks].
Qed.

Lemma steps_loop_ran d i sts executed completed e stop executed' completed' e' :
  (forall st, st ∈ sts -> st ∈ def_steps d) ->
  steps_loop builds_first clk d i sts executed completed e = Returns (Some (stop, executed', completed', e')) ->
  (exists n, completed' = completed + n /\ ran_more d e e' executed executed' n) /\
  match stop with
  | GoOn => forall st, st ∈ sts -> st_actionId st ∈ executed'
  | EndWith s _ => s = SEQ_FAILED \/ s = SEQ_CANCELLED
  end.
Proof.
  revert i executed completed e. induction sts as [|st sts IH]; intros i executed completed e Hin; simpl.
  { intros [= <- <- <- <-]. split; [|set_solver]. exists 0. split; [lia|apply ran_more_kept, kept_refl]. }
  destruct (cancel_requested _ _).
  { intros [= <- <- <- <-]. split; [|auto]. exists 0. split; [lia|apply ran_more_kept, kept_refl]. }
  destruct (pause_loop _ _ _) as [e1|] eqn:Ep; [|done]. apply pause_loop_kept in Ep.
  assert (Hin' : forall st, st ∈ sts -> st ∈ def_steps d) by (intros; apply Hin; by right).
  case_bool_decide as Hex.
  - intros Hl. destruct (IH _ _ _ _ Hin' Hl) as [(n & Hn & Hr) Hall].
    split; [exists n; split; [done|by eapply ran_more_after]|].
    destruct stop; [|done]. intros st' [->|Hst']%elem_of_cons; [|auto].
    destruct Hr as (_ & more & ts & -> & _). set_solver.
  - destruct (run_step builds_first clk d i st executed completed e1) as [[[[stop1 l] n] e2]| |] eqn:Es; try done.
    pose proof (run_step_ran _ _ _ _ _ _ _ _ _ _ (Hin st ltac:(by left)) Hex Es) as Hs.
    destruct stop1 as [|s1 err].
    + destruct Hs as [Hst (n1 & -> & Hr1)]. intros Hl. destruct (IH _ _ _ _ Hin' Hl) as [(n2 & -> & Hr2) Hall].
      split; [exists (n1 + n2); split; [lia|eapply ran_more_after; [exact Ep|by eapply ran_more_trans]]|].
      destruct stop; [|done]. intros st' [->|Hst']%elem_of_cons; [|auto].
      destruct Hr2 as (_ & more & ts & -> & _). set_solver.
    + destruct Hs as (Hs1 & -> & -> & Hk). intros [= <- <- <- <-]. split; [|done].
      exists 0. split; [lia|]. eapply ran_more_kept, kept_trans; done.
Qed.

(** C19: what a sequence reports is what it ran.  For every definition, every
    behaviour of the actions and every interference of other threads at the
    waits, if execute returns then the ids it counted are different ids of
    steps, completedSteps is their number and at most totalSteps, and each was
    run by a task of the executor of its own, started in this call in the order
    of the ids and waited for, whose action the factory made for a step of that
    id; the status is COMPLETED, FAILED or CANCELLED, and COMPLETED means that
    the id of every step was counted (a second step of the same id is not run
    again). *)
Theorem sequence_counts_each_action_once d e r executed e' :
  seq_execute builds_first clk d e = Returns (Some (r, executed, e')) ->
  NoDup executed /\ Forall (.∈ step_ids d) executed /\
  sr_completedSteps r = Z.of_nat (length executed) /\ sr_completedSteps r <= sr_totalSteps r /\
  (exists ts, Forall2 (run_by d e') executed ts /\ StronglySorted lt ts /\
     Forall (λ t, length (async_tasks (executor_ e)) <= t)%nat ts) /\
  (sr_status r = SEQ_FAILED \/ sr_status r = SEQ_CANCELLED \/
   (sr_status r = SEQ_COMPLETED /\ forall id, id ∈ step_ids d -> id ∈ executed)).
Proof.
  unfold seq_execute, executeSequential. cbn [tick].
  match goal with |- context [steps_loop _ _ d 0 _ [] 0 ?x] => set (e0 := x) end.
  assert (T0 : async_tasks (executor_ e0) = async_tasks (executor_ e)) by done. clearbody e0. rewrite <- T0.
  destruct (steps_loop _ _ d 0 (def_steps d) [] 0 e0) as [[[[[stop l] n] e1]|]| |] eqn:El; try done.
  destruct (steps_loop_ran d 0 (def_steps d) [] 0 e0 stop l n e1 ltac:(done) El)
    as [(m & -> & _ & more & ts & -> & -> & Hnd & Hall & Hrun & Hsort & Hts) Hstop].
  simpl app in *. specialize (Hnd ltac:(constructor)).
  assert (Hle : (length more <= length (def_steps d))%nat).
  { rewrite <- (length_map st_actionId (def_steps d)). apply submseteq_length, NoDup_submseteq; [done|].
    rewrite Forall_forall in Hall. done. }
  assert (Hlow : Forall (λ t, length (async_tasks (executor_ e0)) <= t)%nat ts)
    by (eapply Forall_impl; [exact Hts|]; simpl; lia).
  assert (Hby : forall e2, kept e1 e2 -> exists ts, Forall2 (run_by d e2) more ts /\ StronglySorted lt ts /\
     Forall (λ t, length (async_tasks (executor_ e0)) <= t)%nat ts).
  { intros e2 Hk. exists ts. split_and!; [|done..]. eapply Forall2_impl; [exact Hrun|]. intros id t. by apply run_by_kept. }
  destruct stop as [|s err]; cbn [tick]; intros [= <- <- <-]; simpl; split_and!; try done; try lia.
  - apply Hby. by apply kept_same.
  - right. right. split; [done|]. intros id (st & -> & Hst)%list_elem_of_fmap. auto.
  - apply Hby. unfold final_event. simpl. destruct s; by apply kept_same.
  - destruct Hstop as [->| ->]; auto.
Qed.

(** The result of a run has one of the three closing statuses. *)
Lemma sequence_status_closed d e r executed e' :
  seq_execute builds_first clk d e = Returns (Some (r, executed, e')) -> exists ev, final_event d r = Some ev.
Proof.
  unfold seq_execute, executeSequential. cbn [tick].
  match goal with |- context [steps_loop _ _ d 0 _ [] 0 ?x] => generalize x end. intros e0.
  destruct (steps_loop _ _ d 0 (def_steps d) [] 0 e0) as [[[[[stop l] n] e1]|]| |] eqn:El; try done.
  destruct (steps_loop_ran d 0 (def_steps d) [] 0 e0 stop l n e1 ltac:(done) El) as [_ Hstop].
  destruct stop as [|s err]; cbn [tick]; intros [= <- <- <-]; unfold final_event; simpl; [eauto|].
  destruct Hstop as [->| ->]; eauto.
Qed.

(** *** Retries *)

Lemma attempt_effect seq st e r e' :
  factories_ok (factories_ e) ->
  attempt builds_first clk seq st e = Returns (r, e') ->
  extends (exec e) (exec e') /\ factories_ e' = factories_ e /\
  match r with Ok x => exists now, x = getResult now (st_actionId st) (exec e') | Throw _ => True end.
Proof.
  intros Hok. unfold attempt.
  destruct (createAction _ _ _ _) as [[a|x] w] eqn:Ec.
  2: { intros [= <- <-]. split_and!; [by apply extends_same|done|done]. }
  assert (Hid : act_id a = st_actionId st).
  { unfold createAction, step_params in Ec. destruct (factories_ e !! st_actionType st) as [f|] eqn:Ef; [|done].
    rewrite lookup_insert_eq in Ec. by eapply Hok. }
  pose proof (next_turn_exec (set_world w e)) as Hnext.
  assert (Hfac : factories_ (snd (next_turn (set_world w e))) = factories_ e)
    by (unfold next_turn; by destruct (interference (set_world w e))).
  destruct (next_turn (set_world w e)) as [turn e1]. cbn [snd] in *. cbn [tick].
  match goal with |- context [executeAsync _ _ _ _ _ (exec ?x)] => change (exec x) with (exec e1) end.
  destruct (executeAsync builds_first (t_early turn) (clk (ticks e1)) a (st_timeout st) (exec e1))
    as [[id x]| |] eqn:Ex; try done.
  assert (Hid' : id = act_id a).
  { revert Ex. unfold executeAsync. cbv zeta. repeat case_match; congruence. }
  apply async_extends in Ex. rewrite Hnext in Ex.
  intros [= <- <-].
  match goal with |- context [env_steps (t_ops turn) ?y] => set (e2 := y) end.
  pose proof (env_steps_extends (t_ops turn) e2) as He.
  pose proof (env_steps_factories (t_ops turn) e2) as Hf2.
  assert (H2 : exec e2 = x) by done. assert (Hfe2 : factories_ e2 = factories_ e1) by done.
  clearbody e2. split_and!.
  - eapply extends_trans; [|eapply extends_trans; [exact Ex|]]; [by apply extends_same|].
    rewrite H2 in He. eapply extends_trans; [exact He|]. simpl. unfold waitForCompletion.
    destruct (_ !! id); [apply finish_extends|apply extends_refl].
  - simpl. congruence.
  - rewrite Hid', Hid. eexists. simpl. reflexivity.
Qed.

Lemma stuck_result id (x : ActionExecutor A W B) now : stuck id x -> res_status (getResult now id x) = ACT_FAILED.
Proof. intros (y & Hy & [m Hm] & Hd). unfold getResult. by rewrite Hy, Hd, Hm. Qed.

Lemma retry_loop_stuck fuel d i st n e r e' :
  factories_ok (factories_ e) -> futures_ok (exec e) -> stuck (st_actionId st) (exec e) ->
  retry_loop builds_first clk fuel d i st n e = Returns (r, e') ->
  match r with Ok (x, _) => res_status x = ACT_FAILED | Throw _ => True end.
Proof.
  revert n e. induction fuel as [|fuel IH]; intros n e Hok Hf Hst; simpl;
    (destruct (attempt builds_first clk (def_id d) st e) as [[[x|m] e1]| |] eqn:Ea; try done;
     [|by intros [= <- <-]]);
    destruct (attempt_effect _ _ _ _ _ Hok Ea) as (Hext & Hfac & now & Hx);
    assert (Hst1 : stuck (st_actionId st) (exec e1)) by (by eapply extends_stuck);
    assert (Hfail : res_status x = ACT_FAILED) by (rewrite Hx; by apply stuck_result);
    unfold isSuccessful; rewrite Hfail; simpl; destruct (may_retry d n); try (by intros [= <- <-]).
  apply IH; [by rewrite Hfac|by eapply extends_futures|done].
Qed.

(** Retries never help.  When an attempt under the id of a step has thrown
    and its entry is still in the executor's table (after a first failure, or
    from an earlier run of the sequence), a step that returns at all ends the
    sequence with FAILED, however many retries the policy allows and whatever
    the later attempts do. *)
Theorem retries_never_recover d i st executed completed e stop executed' completed' e' :
  factories_ok (factories_ e) ->
  (forall id x, runningActions_ (exec e) !! id = Some x -> (es_future x < length (async_tasks (exec e)))%nat) ->
  (exists x, runningActions_ (exec e) !! st_actionId st = Some x /\ is_Some (es_exception x) /\
             is_done (es_future x) (exec e) = true) ->
  run_step builds_first clk d i st executed completed e = Returns (stop, executed', completed', e') ->
  exists err, stop = EndWith SEQ_FAILED err /\ executed' = executed /\ completed' = completed.
Proof.
  intros Hok Hf Hst. unfold run_step. cbv zeta.
  destruct (retry_loop _ _ _ _ _ _ _ _) as [[r e1]| |] eqn:El; try done.
  apply retry_loop_stuck in El; [|done|done|done].
  destruct r as [[x n]|m]; [|intros [= <- <- <- <-]; eauto].
  unfold isCancelled, isFailed. rewrite El. simpl. intros [= <- <- <- <-]. eauto.
Qed.

(** *** Events *)

Lemma env_steps_bus os e : seq_bus_ (env_steps os e) = seq_bus_ e.
Proof.
  revert e. induction os as [|o os IH]; intros e; [done|]. unfold env_steps in *. simpl. rewrite IH.
  destruct o; simpl; try done. unfold seq_cancel. destruct (states_ e !! id); [|done]. by case_bool_decide.
Qed.

Lemma attempt_bus seq st e r e' :
  attempt builds_first clk seq st e = Returns (r, e') -> seq_bus_ e' = seq_bus_ e.
Proof.
  unfold attempt. destruct (createAction _ _ _ _) as [[a|x] w]; [|by intros [= <- <-]].
  assert (Hbus : seq_bus_ (snd (next_turn (set_world w e))) = seq_bus_ e)
    by (unfold next_turn; by destruct (interference (set_world w e))).
  destruct (next_turn (set_world w e)) as [turn e1]. cbn [snd] in *. cbn [tick].
  destruct (executeAsync _ _ _ _ _ _) as [[id x]| |]; try done. intros [= <- <-].
  simpl. by rewrite env_steps_bus.
Qed.

Definition step_completed (d : SequenceDefinition) (i : nat) (st : ActionStep) : SequenceEvent :=
  SequenceStepCompletedEvent (def_id d) (st_actionId st) (st_actionType st) (Z.of_nat i)
    (Z.of_nat (length (def_steps d))).
Definition step_started (d : SequenceDefinition) (i : nat) (st : ActionStep) : SequenceEvent :=
  SequenceStepStartedEvent (def_id d) (st_actionId st) (st_actionType st) (Z.of_nat i)
    (Z.of_nat (length (def_steps d))).

Lemma retry_loop_bus fuel d i st n e r e' :
  retry_loop builds_first clk fuel d i st n e = Returns (r, e') ->
  seq_bus_ e' = seq_bus_ e \/ seq_bus_ e' = eb_publish (step_completed d i st) <$> seq_bus_ e.
Proof.
  revert n e. induction fuel as [|fuel IH]; intros n e; simpl;
    (destruct (attempt builds_first clk (def_id d) st e) as [[[x|m] e1]| |] eqn:Ea; try done);
    apply attempt_bus in Ea; try (intros [= <- <-]; by left);
    (destruct (isSuccessful x); [intros [= <- <-]; right; simpl; by rewrite Ea|]);
    destruct (may_retry d n); try (intros [= <- <-]; by left).
  rewrite <- Ea. apply IH.
Qed.

Lemma branch_loop_bus d ids executed added e l n e' :
  branch_loop builds_first clk d ids executed added e = Returns (l, n, e') -> seq_bus_ e' = seq_bus_ e.
Proof.
  revert executed added e. induction ids as [|id ids IH]; intros executed added e; simpl; [by intros [= _ _ <-]|].
  destruct (branch_action builds_first clk d id executed added e) as [[[l1 n1] e1]| |] eqn:Eb; try done.
  intros Hl. rewrite (IH _ _ _ Hl). revert Eb. unfold branch_action. case_bool_decide; [by intros [= _ _ <-]|].
  destruct (list_find _ _) as [[j st]|]; [|by intros [= _ _ <-]].
  destruct (attempt _ _ _ _ _) as [[[r|x] e2]| |] eqn:Ea; try done; apply attempt_bus in Ea; by intros [= _ _ <-].
Qed.

Lemma updateProgress_bus id n m e : seq_bus_ (updateProgress id n m e) = seq_bus_ e.
Proof. unfold updateProgress. by destruct (0 <? m). Qed.

Lemma run_step_bus d i st executed completed e x e' :
  run_step builds_first clk d i st executed completed e = Returns (x, e') ->
  let started := eb_publish (step_started d i st) <$> seq_bus_ e in
  seq_bus_ e' = started \/ seq_bus_ e' = eb_publish (step_completed d i st) <$> started.
Proof.
  unfold run_step. cbv zeta. destruct (retry_loop _ _ _ _ _ _ _ _) as [[[[r n]|m] e1]| |] eqn:El; try done;
    apply retry_loop_bus in El; simpl in El; [|by intros [= _ <-]].
  destruct (_ || _); [by intros [= _ <-]|]. destruct (isFailed r); [by intros [= _ <-]|].
  destruct (handleConditionalBranch _ _ _ _ _ _) as [[[l m] e2]| |] eqn:Eb; try done. intros [= _ <-].
  assert (Hb : seq_bus_ e2 = seq_bus_ e1).
  { revert Eb. unfold handleConditionalBranch. destruct (_ !! _); [|intros [= _ _ <-]; by rewrite updateProgress_bus].
    destruct (evaluate _ _); [|intros [= _ _ <-]; by rewrite updateProgress_bus].
    intros ->%branch_loop_bus. by rewrite updateProgress_bus. }
  destruct (0 <? m); rewrite ?updateProgress_bus; simpl; by rewrite Hb.
Qed.

Lemma pause_loop_bus fuel id e e' : pause_loop fuel id e = Some e' -> seq_bus_ e' = seq_bus_ e.
Proof.
  revert e. induction fuel as [|fuel IH]; intros e; simpl; destruct (_ && _); try done; try (by intros [= <-]).
  unfold next_turn. destruct (interference e) as [|t ts] eqn:Ei; [done|].
  intros Hp. rewrite (IH _ Hp). by rewrite env_steps_bus.
Qed.
End Properties.

(** The events of a run, on a bus that records them. *)
Section Recorded.
Context {A W B : Type} `{!IAction A W} `{!IEventBus ActionEvent B} `{!HasContext W} `{!Doubles}
  (builds_first : bool) (clk : nat -> Z).
Abbreviation engine := (SequenceEngine (A := A) (W := W) (B := B) (V := list SequenceEvent)).
Implicit Types e : engine.

(** A step that was run, and whether an attempt succeeded. *)
Definition step_events (d : SequenceDefinition) (p : nat * bool) : list SequenceEvent :=
  match def_steps d !! fst p with
  | Some st => step_started d (fst p) st :: (if snd p then [step_completed d (fst p) st] else [])
  | None => []
  end.

Lemma steps_loop_events d i sts executed completed e x e' log :
  drop i (def_steps d) = sts -> seq_bus_ e = Some log ->
  steps_loop builds_first clk d i sts executed completed e = Returns (Some (x, e')) ->
  exists l, seq_bus_ e' = Some (log ++ flat_map (step_events d) l) /\
    StronglySorted lt (map fst l) /\ Forall (λ p, i <= fst p < length (def_steps d))%nat l.
Proof.
  revert i executed completed e log. induction sts as [|st sts IH]; intros i executed completed e log Hd Hb; simpl.
  { intros [= _ <-]. exists []. simpl. rewrite app_nil_r. split_and!; [done|constructor|constructor]. }
  assert (Hi : def_steps d !! i = Some st /\ drop (S i) (def_steps d) = sts).
  { pose proof (lookup_drop (def_steps d) i 0) as Hl. rewrite Hd, Nat.add_0_r in Hl. split; [done|].
    change (S i) with (1 + i)%nat. rewrite Nat.add_comm, <- drop_drop. by rewrite Hd. }
  destruct Hi as [Hi Hd']. pose proof (lookup_lt_Some _ _ _ Hi) as Hlt.
  assert (Hweak : forall l, Forall (λ p : nat * bool, S i <= fst p < length (def_steps d))%nat l ->
                    Forall (λ p, i <= fst p < length (def_steps d))%nat l).
  { intros l Hl. eapply Forall_impl; [exact Hl|]. simpl. lia. }
  assert (Hnil : exists l, Some log = Some (log ++ flat_map (step_events d) l) /\
    StronglySorted lt (map fst l) /\ Forall (λ p, i <= fst p < length (def_steps d))%nat l).
  { exists []. simpl. rewrite app_nil_r. split_and!; [done|constructor|constructor]. }
  destruct (cancel_requested _ _); [intros [= _ <-]; by rewrite Hb|].
  destruct (pause_loop _ _ e) as [e1|] eqn:Ep; [|done]. apply pause_loop_bus in Ep. rewrite Hb in Ep.
  case_bool_decide.
  { intros Hl. destruct (IH _ _ _ _ _ Hd' Ep Hl) as (l & H1 & H2 & H3). eauto. }
  destruct (run_step builds_first clk d i st executed completed e1) as [[y e2]| |] eqn:Es; try done.
  apply run_step_bus in Es. rewrite Ep in Es. simpl in Es.
  assert (Hc : exists c, seq_bus_ e2 = Some (log ++ step_events d (i, c))).
  { unfold step_events. simpl. rewrite Hi. destruct Es as [->| ->]; [exists false|exists true]; simpl; [done|].
    unfold eb_publish, recording_bus. by rewrite <- app_assoc. }
  destruct Hc as [c Hc]. destruct y as [[stop l1] n1]. destruct stop.
  - intros Hl. destruct (IH _ _ _ _ _ Hd' Hc Hl) as (l & H1 & H2 & H3). exists ((i, c) :: l).
    simpl. rewrite H1, <- app_assoc. split_and!; [done| |constructor; [simpl; lia|auto]].
    constructor; [done|]. apply Forall_map. eapply Forall_impl; [exact H3|]. simpl. lia.
  - intros [= _ <-]. exists [(i, c)]. simpl. rewrite app_nil_r. split_and!; [done| |].
    + constructor; constructor.
    + constructor; [simpl; lia|constructor].
Qed.

(** The published events tell the run in order.  An execution that returns
    publishes the start of the sequence, then for each step it ran, in
    increasing order and at most once, a started event and at most one completed
    event, and then exactly one closing event that matches the result; nothing
    follows. *)
Theorem sequence_events_in_order d e r executed e' log :
  seq_bus_ e = Some log ->
  seq_execute builds_first clk d e = Returns (Some (r, executed, e')) ->
  exists l ev, final_event d r = Some ev /\
    seq_bus_ e' = Some (log ++ SequenceStartedEvent (def_id d) (def_name d) (Z.of_nat (length (def_steps d)))
                          :: flat_map (step_events d) l ++ [ev]) /\
    StronglySorted lt (map fst l) /\ Forall (λ p, fst p < length (def_steps d))%nat l.
Proof.
  intros Hb Hx. destruct (sequence_status_closed _ _ _ _ _ _ _ Hx) as [ev Hev].
  revert Hx. unfold seq_execute, executeSequential. cbn [tick].
  match goal with |- context [steps_loop _ _ d 0 _ [] 0 ?x] => set (e0 := x) end.
  assert (Hb0 : seq_bus_ e0 = Some (log ++ [SequenceStartedEvent (def_id d) (def_name d) (Z.of_nat (length (def_steps d)))]))
    by (subst e0; simpl; by rewrite Hb). clearbody e0.
  destruct (steps_loop _ _ d 0 (def_steps d) [] 0 e0) as [[[[[stop l] n] e1]|]| |] eqn:El; try done.
  destruct (steps_loop_events _ _ _ _ _ _ _ _ _ eq_refl Hb0 El) as (k & H1 & H2 & H3).
  intros Hx. exists k, ev. split; [done|]. split; [|split; [done|]].
  - destruct stop as [|st err]; [|destruct st]; cbn [tick] in Hx; injection Hx as <- <- <-;
      unfold final_event in Hev; simpl in Hev; try done; injection Hev as <-; simpl; rewrite H1; simpl;
      unfold eb_publish, recording_bus; by rewrite <- !app_assoc.
  - eapply Forall_impl; [exact H3|]. simpl. lia.
Qed.
End Recorded.

(** ** Example runs *)

Module SequenceExamples.
Import ConditionExamples.
Record SAct := mkSAct { sa_id : string; sa_bad : bool }.

#[export] Instance seq_action : IAction SAct ExecutionContext := {|
  act_id := sa_id;
  act_type _ := "Move";
  act_execute a w := (w, if sa_bad a then Some "motor" else None);
  act_cancel _ w := w;
  act_status a _ := if sa_bad a then ACT_FAILED else ACT_COMPLETED;
  act_progress _ _ := 0
|}.

#[export] Instance own_context : HasContext ExecutionContext := {| ctx_of w := w; ctx_put c _ := c |}.

Abbreviation example_engine :=
  (SequenceEngine (A := SAct) (W := ExecutionContext) (B := list ActionEvent) (V := list SequenceEvent)).

(** A "Move" works; a "Jam" throws. *)
Definition example_factories : gmap string (string -> gmap string string -> ExecutionContext ->
    result string SAct * ExecutionContext) :=
  <["Move" := λ id _ w, (Ok (mkSAct id false), w)]> {["Jam" := λ id _ w, (Ok (mkSAct id true), w)]}.

Definition example_start : example_engine :=
  mkEngine example_factories (newActionExecutor (Some []) newContext) (Some []) ∅ [] 0.

Definition example_def (type : string) : SequenceDefinition :=
  mkSeqDef "s" "s" [mkStep "a" type ∅ 0; mkStep "b" "Move" ∅ 0; mkStep "c" "Move" ∅ 0]
    {["a" := mkBranch "mode == auto" ["c"] ["c"; "b"]]} (Some (mkRetry 2 0 false)).

Definition example_clk : nat -> Z := λ n, 1000000 * Z.of_nat n.

(** After a first attempt of step a that threw. *)
Definition after_jam : example_engine :=
  match attempt false example_clk "s" (mkStep "a" "Jam" ∅ 0) example_start with
  | Returns (_, e) => e
  | _ => example_start
  end.
End SequenceExamples.
Import SequenceExamples ConditionExamples.

(** The branch runs c and b before their turn. *)
Lemma sequence_counts_each_action_once_witness :
  match seq_execute true example_clk (example_def "Move") example_start with
  | Returns (Some (r, executed, _)) =>
    executed = ["a"; "c"; "b"] /\ NoDup executed /\ sr_completedSteps r = Z.of_nat (length executed)
  | _ => False
  end.
Proof.
  destruct (seq_execute true example_clk (example_def "Move") example_start)
    as [[[[r executed] e']|]| |] eqn:E; [|vm_compute in E; discriminate..].
  destruct (sequence_counts_each_action_once true example_clk _ _ r executed e' E) as (H1 & _ & H2 & _).
  split; [vm_compute in E; injection E as _ <- _; reflexivity|]. split; [exact H1|exact H2].
Defined.

Lemma sequence_events_in_order_witness :
  match seq_execute false example_clk (example_def "Jam") example_start with
  | Returns (Some (r, _, e')) =>
    exists l ev, final_event (example_def "Jam") r = Some ev /\
      seq_bus_ e' = Some ([] ++ SequenceStartedEvent "s" "s" 3 :: flat_map (step_events (example_def "Jam")) l ++ [ev])
  | _ => False
  end.
Proof.
  destruct (seq_execute false example_clk (example_def "Jam") example_start)
    as [[[[r executed] e']|]| |] eqn:E; [|vm_compute in E; discriminate..].
  destruct (sequence_events_in_order false example_clk (example_def "Jam") example_start r executed e' [] eq_refl E) as (l & ev & H1 & H2 & _).
  exists l, ev. split; [exact H1|exact H2].
Defined.

(** When [emplace] builds the entry first, the retry of an action that throws
    again waits for the task under the mutex that the task needs. *)
Example retry_of_throwing_action_deadlocks :
  seq_execute true example_clk (example_def "Jam") example_start = Deadlocks.
Proof. by_compute. Qed.

Lemma retries_never_recover_witness :
  match run_step false example_clk (example_def "Move") 0 (mkStep "a" "Move" ∅ 0) [] 0 after_jam with
  | Returns (stop, _, _, _) => exists err, stop = EndWith SEQ_FAILED err
  | _ => False
  end.
Proof.
  destruct (run_step false example_clk (example_def "Move") 0 (mkStep "a" "Move" ∅ 0) [] 0 after_jam)
    as [[[[stop l] n] e']| |] eqn:Es; [|vm_compute in Es; discriminate..].
  destruct (retries_never_recover false example_clk (example_def "Move") 0 (mkStep "a" "Move" ∅ 0) [] 0
              after_jam stop l n e') as (err & Hstop & _); [| | |exact Es|eauto].
  - assert (Hfs : factories_ after_jam = example_factories) by (vm_compute; reflexivity).
    intros type f id ps w a w' Hf Hc. rewrite Hfs in Hf. unfold example_factories in Hf.
    apply lookup_insert_Some in Hf as [[<- <-]|[_ [<- <-]%lookup_singleton_Some]]; by injection Hc as <- _.
  - assert (Hall : map_Forall (λ _ x, es_future x < length (async_tasks (executor_ after_jam)))%nat
                     (runningActions_ (executor_ after_jam))) by (refine (bool_decide_unpack _ _); vm_compute; exact I).
    intros id x Hx. exact (Hall id x Hx).
  - eexists. split; [vm_compute; reflexivity|]. split; [eexists; reflexivity|reflexivity].
Defined.
