(* ===== verification/TaskExecution.v ===== *)
(** * TaskExecutor (src/core/task/core/TaskExecutor.{h,cpp}, src/core/task/dto)

    The executor runs the work of a task, an action through [ActionExecutor] or
    a sequence through [Sequence], polling every 50 ms until it has ended or the
    task is cancelled.  What other threads do during one sleep is a turn
    ([TaskTurn]): a run takes the list of turns, and gives nothing when it is
    still waiting after the last.  A progress is 0 or 1 (the floats 0.0, 1.0). *)

From stdpp Require Import pretty.
From S2P Require Import Prelude Interfaces Control ActionExecutor Condition Sequence.
#[local] Open Scope Z_scope.

Inductive TaskExecutionMode := TM_ONCE | TM_PERIODIC | TM_TRIGGERED.
Inductive TaskWorkType := WORK_ACTION | WORK_SEQUENCE.

Definition taskExecutionModeToString (m : TaskExecutionMode) : string :=
  match m with TM_ONCE => "ONCE" | TM_PERIODIC => "PERIODIC" | TM_TRIGGERED => "TRIGGERED" end.

Definition taskStatusToString (s : TaskStatus) : string :=
  match s with
  | TS_IDLE => "IDLE" | TS_RUNNING => "RUNNING" | TS_COMPLETED => "COMPLETED" | TS_FAILED => "FAILED"
  | TS_CANCELLED => "CANCELLED" | TS_PAUSED => "PAUSED" | TS_SCHEDULED => "SCHEDULED"
  end.

Definition workTypeToString (w : TaskWorkType) : string :=
  match w with WORK_ACTION => "ACTION" | WORK_SEQUENCE => "SEQUENCE" end.

Record TaskDefinition := mkTaskDef {
  td_id : string;
  td_name : string;
  td_description : string;
  td_executionMode : TaskExecutionMode;
  td_workType : TaskWorkType;
  td_workId : string;
  td_periodicInterval : option Z;
  td_triggerCondition : option string;
  td_timeout : Z
}.

(** The constructor and the fluent setters. *)
Definition newTaskDefinition (taskId taskName : string) : TaskDefinition :=
  mkTaskDef taskId (if bool_decide (taskName = "") then taskId else taskName) "" TM_ONCE WORK_ACTION "" None None 0.

Definition setWork (actionId : string) (d : TaskDefinition) : TaskDefinition :=
  mkTaskDef (td_id d) (td_name d) (td_description d) (td_executionMode d) WORK_ACTION actionId
    (td_periodicInterval d) (td_triggerCondition d) (td_timeout d).
Definition setWorkSequence (sequenceId : string) (d : TaskDefinition) : TaskDefinition :=
  mkTaskDef (td_id d) (td_name d) (td_description d) (td_executionMode d) WORK_SEQUENCE sequenceId
    (td_periodicInterval d) (td_triggerCondition d) (td_timeout d).
Definition setOnceMode (d : TaskDefinition) : TaskDefinition :=
  mkTaskDef (td_id d) (td_name d) (td_description d) TM_ONCE (td_workType d) (td_workId d)
    (td_periodicInterval d) (td_triggerCondition d) (td_timeout d).
Definition setPeriodicMode (interval : Z) (d : TaskDefinition) : TaskDefinition :=
  mkTaskDef (td_id d) (td_name d) (td_description d) TM_PERIODIC (td_workType d) (td_workId d)
    (Some interval) (td_triggerCondition d) (td_timeout d).
Definition setTriggeredMode (condition : string) (d : TaskDefinition) : TaskDefinition :=
  mkTaskDef (td_id d) (td_name d) (td_description d) TM_TRIGGERED (td_workType d) (td_workId d)
    (td_periodicInterval d) (Some condition) (td_timeout d).
Definition setTimeout (ms : Z) (d : TaskDefinition) : TaskDefinition :=
  mkTaskDef (td_id d) (td_name d) (td_description d) (td_executionMode d) (td_workType d) (td_workId d)
    (td_periodicInterval d) (td_triggerCondition d) ms.
Definition setDescription (desc : string) (d : TaskDefinition) : TaskDefinition :=
  mkTaskDef (td_id d) (td_name d) desc (td_executionMode d) (td_workType d) (td_workId d)
    (td_periodicInterval d) (td_triggerCondition d) (td_timeout d).

Record TaskExecution := mkTaskExecution {
  tx_taskId : string;
  tx_executionId : string;
  tx_status : TaskStatus;
  tx_progress : Z;
  tx_errorMessage : string;
  tx_executionTime : Z;
  tx_startTime : Z;
  tx_endTime : Z
}.

Definition task_isSuccessful (r : TaskExecution) : bool := bool_decide (tx_status r = TS_COMPLETED).
Definition task_isFailed (r : TaskExecution) : bool :=
  bool_decide (tx_status r = TS_FAILED) || bool_decide (tx_status r = TS_CANCELLED).
Definition task_isRunning (r : TaskExecution) : bool := bool_decide (tx_status r = TS_RUNNING).

Inductive TaskEvent :=
| TaskStartedEvent (id name mode work : string)
| TaskCompletedEvent (id name : string) (ms percent : Z)
| TaskFailedEvent (id name error : string) (ms percent : Z)
| TaskCancelledEvent (id name : string) (ms percent : Z).

Record TaskState := mkTaskState {
  ts_status : TaskStatus;
  ts_progress : Z;
  ts_cancelRequested : bool;
  ts_pauseRequested : bool;
  ts_startTime : Z
}.

Definition newTaskState : TaskState := mkTaskState TS_IDLE 0 false false 0.

Section TaskExecutor.
Context {A W B V T : Type} `{!IAction A W} `{!IEventBus ActionEvent B} `{!IEventBus SequenceEvent V}
  `{!IEventBus TaskEvent T} `{!HasContext W} {dbl : Doubles} (builds_first : bool) (clk : nat -> Z).
Abbreviation Engine := (SequenceEngine (A := A) (W := W) (B := B) (V := V)).

(** The factory and the action executor are those of the sequence engine. *)
Record TaskExecutor := mkTaskExecutor {
  te_engine : Engine;
  te_eventBus_ : option T;
  te_states_ : gmap string TaskState
}.
Implicit Types s : TaskExecutor.

Definition set_engine (e : Engine) s := mkTaskExecutor e (te_eventBus_ s) (te_states_ s).
Definition set_task_states (m : gmap string TaskState) s := mkTaskExecutor (te_engine s) (te_eventBus_ s) m.
Definition publishEvent (ev : TaskEvent) s :=
  mkTaskExecutor (te_engine s) (eb_publish ev <$> te_eventBus_ s) (te_states_ s).
Definition on_executor (f : ActionExecutor A W B -> ActionExecutor A W B) s :=
  set_engine (set_executor (f (executor_ (te_engine s))) (te_engine s)) s.
Definition task_tick s : Z * TaskExecutor := let '(n, e) := tick clk (te_engine s) in (n, set_engine e s).

(** *** Control *)

Definition request_task_cancel (x : TaskState) : TaskState :=
  mkTaskState (ts_status x) (ts_progress x) true (ts_pauseRequested x) (ts_startTime x).
Definition set_pause (b : bool) (st : TaskStatus) (x : TaskState) : TaskState :=
  mkTaskState st (ts_progress x) (ts_cancelRequested x) b (ts_startTime x).
Definition set_outcome (st : TaskStatus) (progress : Z) (x : TaskState) : TaskState :=
  mkTaskState st progress (ts_cancelRequested x) (ts_pauseRequested x) (ts_startTime x).
Definition set_task_status (st : TaskStatus) (x : TaskState) : TaskState :=
  mkTaskState st (ts_progress x) (ts_cancelRequested x) (ts_pauseRequested x) (ts_startTime x).

Definition task_cancel (taskId : string) s := set_task_states (alter request_task_cancel taskId (te_states_ s)) s.
Definition task_pause (taskId : string) s := set_task_states (alter (set_pause true TS_PAUSED) taskId (te_states_ s)) s.
Definition task_resume (taskId : string) s := set_task_states (alter (set_pause false TS_RUNNING) taskId (te_states_ s)) s.

Definition task_getStatus (taskId : string) s : TaskStatus :=
  match te_states_ s !! taskId with Some x => ts_status x | None => TS_IDLE end.
Definition task_getProgress (taskId : string) s : Z :=
  match te_states_ s !! taskId with Some x => ts_progress x | None => 0 end.

Definition task_finished (x : TaskState) : bool :=
  match ts_status x with TS_COMPLETED | TS_FAILED | TS_CANCELLED => true | _ => false end.
Definition clearCompletedTasks s : nat * TaskExecutor :=
  let gone := filter (λ kx, task_finished (snd kx) = true) (te_states_ s) in
  (base.size gone, set_task_states (te_states_ s ∖ gone) s).

Definition task_cancel_requested (taskId : string) s : bool :=
  match te_states_ s !! taskId with Some x => ts_cancelRequested x | None => false end.

(** *** What other threads do during one sleep *)

Inductive TaskEnvOp :=
| TCancel (id : string)
| TPause (id : string)
| TResume (id : string)
| TEngine (o : EnvOp (W := W))
| TFinish (now : Z) (t : nat).

(** [tt_sequence]: the thread that runs the sequence gets to run. *)
Record TaskTurn := mkTaskTurn { tt_early : bool; tt_sequence : bool; tt_ops : list TaskEnvOp }.

Definition task_env (o : TaskEnvOp) s : TaskExecutor :=
  match o with
  | TCancel id => task_cancel id s
  | TPause id => task_pause id s
  | TResume id => task_resume id s
  | TEngine o => set_engine (env_step o (te_engine s)) s
  | TFinish now t => on_executor (finish_task now t) s
  end.

Definition task_envs (os : list TaskEnvOp) s : TaskExecutor := foldl (λ s o, task_env o s) s os.

(** *** Running an action *)

(** The polling loop; [None]: still waiting.  After a cancellation the loop is
    left at once; the next turn is what others do before the result is read. *)
Fixpoint action_wait (taskId actionId : string) (turns : list TaskTurn) s : option TaskExecutor :=
  if isRunning actionId (executor_ (te_engine s)) then
    match task_cancel_requested taskId s, turns with
    | true, [] => Some (on_executor (ae_cancel actionId) s)
    | true, turn :: _ => Some (task_envs (tt_ops turn) (on_executor (ae_cancel actionId) s))
    | false, [] => None
    | false, turn :: turns => action_wait taskId actionId turns (task_envs (tt_ops turn) s)
    end
  else Some s.

Definition new_execution (sys : nat -> Z) (d : TaskDefinition) : TaskExecution :=
  mkTaskExecution (td_id d) (td_id d +:+ "_exec_" +:+ pretty (sys 0%nat)) TS_RUNNING 0 "" 0 (sys 1%nat) 0.

Definition end_execution (st : TaskStatus) (progress : Z) (err : string) (time : Z) (sys : nat -> Z)
    (r : TaskExecution) : TaskExecution :=
  mkTaskExecution (tx_taskId r) (tx_executionId r) st progress err time (tx_startTime r) (sys 2%nat).

(** The result and the state of the task, from the status of its work. *)
Definition conclude (d : TaskDefinition) (sys : nat -> Z) (cancelled successful : bool) (err : string) (time : Z) s :
    TaskExecution * TaskExecutor :=
  let r := new_execution sys d in
  if cancelled then
    (end_execution TS_CANCELLED 0 "" time sys r,
     set_task_states (alter (set_task_status TS_CANCELLED) (td_id d) (te_states_ s)) s)
  else if successful then
    (end_execution TS_COMPLETED 1 "" time sys r,
     set_task_states (alter (set_outcome TS_COMPLETED 1) (td_id d) (te_states_ s)) s)
  else
    (end_execution TS_FAILED 0 err time sys r,
     set_task_states (alter (set_task_status TS_FAILED) (td_id d) (te_states_ s)) s).

Definition executeAction (sys : nat -> Z) (turns : list TaskTurn) (d : TaskDefinition) s :
    outcome (option (TaskExecution * TaskExecutor)) :=
  let e := te_engine s in
  let '(r, w) := createAction (factories_ e) (td_workId d) {["id" := td_workId d]} (seq_world e) in
  let s := set_engine (set_world w e) s in
  match r with
  | Throw x => Returns (Some (conclude d sys false false x 0 s))
  | Ok a =>
    let '(turn, turns) := match turns with [] => (mkTaskTurn false false [], []) | t :: ts => (t, ts) end in
    let '(now, s) := task_tick s in
    match executeAsync builds_first (tt_early turn) now a 0 (executor_ (te_engine s)) with
    | Deadlocks => Deadlocks
    | Terminates => Terminates
    | Returns (actionId, x) =>
      let s := task_envs (tt_ops turn) (set_engine (set_executor x (te_engine s)) s) in
      match action_wait (td_id d) actionId turns s with
      | None => Returns None
      | Some s =>
        let '(now, s) := task_tick s in
        let res := getResult now actionId (executor_ (te_engine s)) in
        let cancelled := isCancelled res ||
          (bool_decide (res_status res = ACT_TIMEOUT) && task_cancel_requested (td_id d) s) in
        Returns (Some (conclude d sys cancelled (isSuccessful res) (res_errorMessage res) (res_executionTime res) s))
      end
    end
  end.

(** *** Running a sequence *)

(** [SequenceDefinition seqDef(workId, workId)]: a definition without steps. *)
Definition empty_sequence (id : string) : SequenceDefinition := mkSeqDef id id [] ∅ None.

Definition run_sequence (id : string) s : outcome (option (SequenceResult * TaskExecutor)) :=
  match seq_execute builds_first clk (empty_sequence id) (te_engine s) with
  | Deadlocks => Deadlocks
  | Terminates => Terminates
  | Returns None => Returns None
  | Returns (Some (r, _, e)) => Returns (Some (r, set_engine e s))
  end.

(** Poll until the sequence's thread has run; when the task is cancelled, cancel
    the sequence and join the thread. *)
Fixpoint sequence_wait (taskId seqId : string) (turns : list TaskTurn) s :
    outcome (option (SequenceResult * TaskExecutor)) :=
  if task_cancel_requested taskId s then
    run_sequence seqId (set_engine (seq_cancel seqId (te_engine s)) s)
  else
    match turns with
    | [] => run_sequence seqId s
    | turn :: turns =>
      let s := task_envs (tt_ops turn) s in
      if tt_sequence turn then run_sequence seqId s else sequence_wait taskId seqId turns s
    end.

Definition executeSequence (sys : nat -> Z) (turns : list TaskTurn) (d : TaskDefinition) s :
    outcome (option (TaskExecution * TaskExecutor)) :=
  match sequence_wait (td_id d) (td_workId d) turns s with
  | Deadlocks => Deadlocks
  | Terminates => Terminates
  | Returns None => Returns None
  | Returns (Some (r, s)) =>
    Returns (Some (conclude d sys (bool_decide (sr_status r = SEQ_CANCELLED))
                     (bool_decide (sr_status r = SEQ_COMPLETED)) (sr_errorMessage r) (sr_executionTime r) s))
  end.

(** *** The whole execution *)

Definition closing_event (d : TaskDefinition) (ms : Z) (r : TaskExecution) : option TaskEvent :=
  match tx_status r with
  | TS_COMPLETED => Some (TaskCompletedEvent (td_id d) (td_name d) ms (tx_progress r * 100))
  | TS_FAILED => Some (TaskFailedEvent (td_id d) (td_name d) (tx_errorMessage r) ms (tx_progress r * 100))
  | TS_CANCELLED => Some (TaskCancelledEvent (td_id d) (td_name d) ms (tx_progress r * 100))
  | _ => None
  end.

Definition start_task (d : TaskDefinition) s : TaskExecutor :=
  let old := default newTaskState (te_states_ s !! td_id d) in
  let '(now, s) := task_tick s in
  let s := set_task_states
    (<[td_id d := mkTaskState TS_RUNNING (ts_progress old) false false now]> (te_states_ s)) s in
  publishEvent (TaskStartedEvent (td_id d) (td_name d) (taskExecutionModeToString (td_executionMode d))
                  (workTypeToString (td_workType d))) s.

Definition task_execute (sys : nat -> Z) (turns : list TaskTurn) (d : TaskDefinition) s :
    outcome (option (TaskExecution * TaskExecutor)) :=
  let s := start_task d s in
  let '(startTime, s) := task_tick s in
  let work := match td_workType d with
              | WORK_ACTION => executeAction sys turns d s
              | WORK_SEQUENCE => executeSequence sys turns d s
              end in
  match work with
  | Deadlocks => Deadlocks
  | Terminates => Terminates
  | Returns None => Returns None
  | Returns (Some (r, s)) =>
    let '(now, s) := task_tick s in
    Returns (Some (r, match closing_event d (elapsed_ms startTime now) r with
                      | Some ev => publishEvent ev s
                      | None => s
                      end))
  end.

(** ** What the environment and the waits leave alone *)

(** The bus of the tasks, and that a task has an entry. *)
Definition same_bus s s' : Prop :=
  te_eventBus_ s' = te_eventBus_ s /\
  forall id, is_Some (te_states_ s !! id) -> is_Some (te_states_ s' !! id).

Lemma same_bus_refl s : same_bus s s.
Proof. done. Qed.

Lemma same_bus_trans s1 s2 s3 : same_bus s1 s2 -> same_bus s2 s3 -> same_bus s1 s3.
Proof. intros [H1 H2] [H3 H4]. split; [congruence|auto]. Qed.

Lemma same_bus_engine s e : same_bus s (set_engine e s).
Proof. done. Qed.

Lemma same_bus_alter f id s : same_bus s (set_task_states (alter f id (te_states_ s)) s).
Proof.
  split; [done|]. intros id' [x Hx]. simpl. destruct (decide (id' = id)) as [->|].
  - rewrite lookup_alter_eq, Hx. simpl. eauto.
  - rewrite lookup_alter_ne by done. eauto.
Qed.

Lemma task_env_bus o s : same_bus s (task_env o s).
Proof. destruct o; simpl; (apply same_bus_alter || apply same_bus_engine). Qed.

Lemma task_envs_bus os s : same_bus s (task_envs os s).
Proof.
  revert s. induction os as [|o os IH]; intros s; [apply same_bus_refl|].
  eapply same_bus_trans; [apply task_env_bus|apply IH].
Qed.

Lemma action_wait_bus taskId id turns s s' : action_wait taskId id turns s = Some s' -> same_bus s s'.
Proof.
  revert s. induction turns as [|turn turns IH]; intros s; simpl;
    (destruct (isRunning id _); [|intros [= <-]; apply same_bus_refl]);
    destruct (task_cancel_requested taskId s); try done; intros H.
  - injection H as <-. apply same_bus_engine.
  - injection H as <-. eapply same_bus_trans; [apply same_bus_engine|apply task_envs_bus].
  - eapply same_bus_trans; [apply task_envs_bus|by apply IH].
Qed.

Lemma run_sequence_bus id s r s' : run_sequence id s = Returns (Some (r, s')) -> same_bus s s'.
Proof.
  unfold run_sequence. destruct (seq_execute _ _ _ _) as [[[[? ?] ?]|]| |]; try done.
  intros [= <- <-]. apply same_bus_engine.
Qed.

Lemma sequence_wait_bus taskId id turns s r s' :
  sequence_wait taskId id turns s = Returns (Some (r, s')) -> same_bus s s'.
Proof.
  revert s. induction turns as [|turn turns IH]; intros s; simpl;
    (destruct (task_cancel_requested taskId s);
     [intros H%run_sequence_bus; eapply same_bus_trans; [apply same_bus_engine|exact H]|]).
  - apply run_sequence_bus.
  - destruct (tt_sequence turn); intros H; (eapply same_bus_trans; [apply task_envs_bus|]);
      [by eapply run_sequence_bus|by apply IH].
Qed.

(** ** The outcome of an execution *)

(** What [conclude] says, given that the task has an entry. *)
Definition concluded (d : TaskDefinition) (r : TaskExecution) s : Prop :=
  (tx_status r = TS_COMPLETED \/ tx_status r = TS_FAILED \/ tx_status r = TS_CANCELLED) /\
  tx_progress r = (if task_isSuccessful r then 1 else 0) /\ task_getStatus (td_id d) s = tx_status r.

Lemma conclude_concluded d sys c ok err time s :
  is_Some (te_states_ s !! td_id d) ->
  let '(r, s') := conclude d sys c ok err time s in concluded d r s' /\ te_eventBus_ s' = te_eventBus_ s.
Proof.
  intros [x Hx]. unfold conclude, concluded, task_getStatus.
  destruct c; [|destruct ok]; simpl; rewrite lookup_alter_eq, Hx; simpl; by auto 6.
Qed.

Lemma work_concluded sys turns d s r s' :
  is_Some (te_states_ s !! td_id d) ->
  (match td_workType d with
   | WORK_ACTION => executeAction sys turns d s
   | WORK_SEQUENCE => executeSequence sys turns d s
   end) = Returns (Some (r, s')) ->
  concluded d r s' /\ te_eventBus_ s' = te_eventBus_ s.
Proof.
  intros Hs.
  assert (Hc : forall c ok err time s1, same_bus s s1 ->
    Returns (Some (conclude d sys c ok err time s1)) = Returns (Some (r, s')) ->
    concluded d r s' /\ te_eventBus_ s' = te_eventBus_ s).
  { intros c ok err time s1 [Hb Hst] [= Heq].
    pose proof (conclude_concluded d sys c ok err time s1 (Hst _ Hs)) as H.
    rewrite Heq in H. by rewrite <- Hb. }
  destruct (td_workType d).
  - unfold executeAction. destruct (createAction _ _ _ _) as [[a|e] w]; [|by apply Hc].
    destruct (match turns with [] => _ | _ => _ end) as [turn turns']. cbn [task_tick tick].
    destruct (executeAsync _ _ _ _ _ _) as [[id x]| |]; try done.
    destruct (action_wait _ id turns' _) as [s1|] eqn:Ew; [|done]. apply Hc.
    apply action_wait_bus in Ew.
    eapply same_bus_trans; [|eapply same_bus_trans; [exact Ew|done]].
    eapply same_bus_trans; [|apply task_envs_bus]. done.
  - unfold executeSequence. destruct (sequence_wait _ _ turns s) as [[[q s1]|]| |] eqn:Ew; try done.
    apply Hc. by eapply sequence_wait_bus.
Qed.

(** An execution reports its outcome once and consistently.  Whatever the
    work does and other threads do meanwhile, an execution that returns ends in
    COMPLETED, FAILED or CANCELLED, with full progress exactly when COMPLETED;
    getStatus agrees with the result, and on the bus there are exactly a started
    event and the closing event of that outcome. *)
Theorem task_execution_reports_outcome sys turns d s r s' :
  task_execute sys turns d s = Returns (Some (r, s')) ->
  (tx_status r = TS_COMPLETED \/ tx_status r = TS_FAILED \/ tx_status r = TS_CANCELLED) /\
  tx_progress r = (if task_isSuccessful r then 1 else 0) /\ task_getStatus (td_id d) s' = tx_status r /\
  exists ms ev, closing_event d ms r = Some ev /\
    te_eventBus_ s' = (λ b, eb_publish ev (eb_publish
      (TaskStartedEvent (td_id d) (td_name d) (taskExecutionModeToString (td_executionMode d))
         (workTypeToString (td_workType d))) b)) <$> te_eventBus_ s.
Proof.
  unfold task_execute. cbn [task_tick tick]. set (s1 := set_engine _ _).
  assert (Hs1 : is_Some (te_states_ s1 !! td_id d)) by (subst s1; simpl; rewrite lookup_insert_eq; eauto).
  destruct (match td_workType d with WORK_ACTION => _ | WORK_SEQUENCE => _ end)
    as [[[r' s2]|]| |] eqn:Ework; try done.
  destruct (work_concluded _ _ _ _ _ _ Hs1 Ework) as [(Hst & Hp & Hg) Hbus]. cbn [task_tick tick].
  intros [= <- <-]. split; [done|]. split; [done|].
  match goal with |- context [closing_event d ?m r'] => set (ms := m) end.
  assert (Hev : exists ev, closing_event d ms r' = Some ev)
    by (unfold closing_event; destruct Hst as [->|[->| ->]]; eauto).
  destruct Hev as [ev Hev]. rewrite Hev. split; [exact Hg|]. exists ms, ev. split; [done|]. simpl.
  rewrite Hbus. simpl. by destruct (te_eventBus_ s).
Qed.

(** ** A sequence task runs nothing *)

Abbreviation started s := (length (async_tasks (executor_ (te_engine s)))).

Lemma finish_task_count now t (x : ActionExecutor A W B) :
  length (async_tasks (finish_task now t x)) = length (async_tasks x).
Proof.
  unfold finish_task. destruct (async_tasks x !! t) as [y|]; [|done]. destruct (at_done y); [done|].
  destruct (act_execute _ _) as [w [e|]]; simpl; by rewrite length_insert.
Qed.

Lemma cancel_count id (x : ActionExecutor A W B) : async_tasks (ae_cancel id x) = async_tasks x.
Proof. unfold ae_cancel. by destruct (runningActions_ x !! id). Qed.

Lemma seq_cancel_count id (e : Engine) : async_tasks (executor_ (seq_cancel id e)) = async_tasks (executor_ e).
Proof.
  unfold seq_cancel. destruct (Sequence.states_ e !! id); [|done]. case_bool_decide; [done|]. apply cancel_count.
Qed.

Lemma task_envs_count os s : started (task_envs os s) = started s.
Proof.
  revert s. induction os as [|o os IH]; intros s; [done|]. unfold task_envs in *. simpl. rewrite IH.
  destruct o as [| | |o|now t]; try done; [|simpl; apply finish_task_count].
  destruct o; simpl; try done; [by rewrite seq_cancel_count|by rewrite cancel_count|].
  unfold monitor_check. destruct (_ !! id) as [x|]; [|done]. destruct (es_timeoutThread x) as [[? ?]|]; [|done].
  destruct (es_shouldStopMonitoring x); [done|]. destruct (_ && _); [|done]. by rewrite cancel_count.
Qed.

Lemma run_sequence_empty id s :
  exists r e, run_sequence id s = Returns (Some (r, set_engine e s)) /\ sr_status r = SEQ_COMPLETED /\
    async_tasks (executor_ e) = async_tasks (executor_ (te_engine s)).
Proof. eexists _, _. split; [reflexivity|]. split; reflexivity. Qed.

Lemma sequence_wait_empty n taskId id turns s :
  started s = n ->
  exists r s', sequence_wait taskId id turns s = Returns (Some (r, s')) /\ sr_status r = SEQ_COMPLETED /\
    started s' = n.
Proof.
  assert (Hrun : forall s1, started s1 = n -> exists r s',
    run_sequence id s1 = Returns (Some (r, s')) /\ sr_status r = SEQ_COMPLETED /\ started s' = n).
  { intros s1 Hs1. destruct (run_sequence_empty id s1) as (r & e & Hr & Hst & Ha).
    exists r, (set_engine e s1). split_and!; [done|done|]. simpl. by rewrite Ha. }
  assert (Hc : forall s1, started s1 = n -> started (set_engine (seq_cancel id (te_engine s1)) s1) = n)
    by (intros s1 <-; simpl; by rewrite seq_cancel_count).
  revert s. induction turns as [|turn turns IH]; intros s Hs; simpl;
    (destruct (task_cancel_requested taskId s); [by apply Hrun, Hc|]).
  - by apply Hrun.
  - assert (Hs' : started (task_envs (tt_ops turn) s) = n) by (by rewrite task_envs_count).
    destruct (tt_sequence turn); [by apply Hrun|by apply IH].
Qed.

(** A task whose work is a sequence runs none of its steps.  The executor
    builds a sequence definition that has only an id, so, whatever sequence is
    registered under it and whatever other threads do, a cancellation included,
    the execution returns COMPLETED and starts no action. *)
Theorem sequence_task_runs_no_action sys turns d s :
  td_workType d = WORK_SEQUENCE ->
  exists r s', task_execute sys turns d s = Returns (Some (r, s')) /\ tx_status r = TS_COMPLETED /\
    length (async_tasks (executor_ (te_engine s'))) = length (async_tasks (executor_ (te_engine s))).
Proof.
  intros Hw. unfold task_execute. cbn [task_tick tick]. rewrite Hw. unfold executeSequence.
  match goal with |- context [sequence_wait _ _ turns ?x] =>
    destruct (sequence_wait_empty (started s) (td_id d) (td_workId d) turns x eq_refl) as (q & s1 & -> & Hst & Hn) end.
  rewrite Hst. simpl. eexists _, _. split; [reflexivity|]. split; [done|]. exact Hn.
Qed.

(** ** Repeated executions *)

Lemma task_envs_extends os s : extends (executor_ (te_engine s)) (executor_ (te_engine (task_envs os s))).
Proof.
  revert s. induction os as [|o os IH]; intros s; [apply extends_refl|].
  eapply extends_trans; [|apply IH]. destruct o; simpl; try apply extends_refl.
  - apply env_step_extends.
  - apply finish_extends.
Qed.

Lemma action_wait_extends taskId id turns s s' :
  action_wait taskId id turns s = Some s' -> extends (executor_ (te_engine s)) (executor_ (te_engine s')).
Proof.
  revert s. induction turns as [|turn turns IH]; intros s; simpl;
    (destruct (isRunning id _); [|intros [= <-]; apply extends_refl]);
    destruct (task_cancel_requested taskId s); try done; intros Hw.
  - injection Hw as <-. apply cancel_extends.
  - injection Hw as <-. eapply extends_trans; [|apply task_envs_extends]. apply cancel_extends.
  - eapply extends_trans; [apply task_envs_extends|by apply IH].
Qed.

(** A task whose action has failed once never succeeds again.  After an
    attempt under the id of the action has thrown and ended, every later
    execution of the task that returns is FAILED, although the action is run
    anew each time: a periodic task does not recover. *)
Theorem failed_task_never_recovers sys turns d s r s' :
  td_workType d = WORK_ACTION -> factories_ok (factories_ (te_engine s)) ->
  futures_ok (executor_ (te_engine s)) -> stuck (td_workId d) (executor_ (te_engine s)) ->
  task_execute sys turns d s = Returns (Some (r, s')) -> tx_status r = TS_FAILED.
Proof.
  intros Hw Hok Hf Hst. unfold task_execute. cbn [task_tick tick]. rewrite Hw. set (s1 := set_engine _ _).
  assert (He : executor_ (te_engine s1) = executor_ (te_engine s) /\
               factories_ (te_engine s1) = factories_ (te_engine s)) by done.
  clearbody s1. destruct He as [He Hfac]. unfold executeAction.
  destruct (createAction _ _ _ _) as [[a|e] w] eqn:Ec; [|by intros [= <- _]].
  assert (Hid : act_id a = td_workId d).
  { unfold createAction in Ec. rewrite Hfac in Ec.
    destruct (factories_ (te_engine s) !! td_workId d) as [f|] eqn:Ef; [|done].
    rewrite lookup_singleton_eq in Ec. by eapply Hok. }
  destruct (match turns with [] => _ | _ => _ end) as [turn turns']. cbn [task_tick tick].
  destruct (executeAsync _ _ _ a _ _) as [[id x]| |] eqn:Ex; try done.
  assert (Hid' : id = act_id a) by (revert Ex; unfold executeAsync; cbv zeta; repeat case_match; congruence).
  apply async_extends in Ex.
  destruct (action_wait _ id turns' _) as [s2|] eqn:Ew; [|done]. apply action_wait_extends in Ew.
  assert (Hst2 : stuck (td_workId d) (executor_ (te_engine s2))).
  { eapply extends_stuck; [exact Hf|exact Hst|]. rewrite <- He.
    eapply extends_trans; [|eapply extends_trans; [exact Ex|]]; [by apply extends_same|].
    eapply extends_trans; [|exact Ew]. apply (task_envs_extends (tt_ops turn) (set_engine (set_executor x _) _)). }
  cbn [task_tick tick]. rewrite Hid', Hid. unfold isCancelled, isSuccessful.
  rewrite (stuck_result (td_workId d)) by exact Hst2. simpl. by intros [= <- _].
Qed.

(** ** Pausing and cancelling *)

(** A state without its label and its pause flag. *)
Definition unlabelled (x : TaskState) : Z * bool * Z := (ts_progress x, ts_cancelRequested x, ts_startTime x).

(** Equal but for labels and pause flags. *)
Definition alike s s' : Prop :=
  te_engine s' = te_engine s /\ te_eventBus_ s' = te_eventBus_ s /\
  forall id, unlabelled <$> te_states_ s' !! id = unlabelled <$> te_states_ s !! id.

Definition is_pause (o : TaskEnvOp) : bool := match o with TPause _ | TResume _ => true | _ => false end.
Definition unpaused (t : TaskTurn) : TaskTurn :=
  mkTaskTurn (tt_early t) (tt_sequence t) (filter (λ o, is_pause o = false) (tt_ops t)).

Lemma alike_alter f g id s s' :
  (forall x y, unlabelled x = unlabelled y -> unlabelled (f x) = unlabelled (g y)) ->
  alike s s' ->
  alike (set_task_states (alter g id (te_states_ s)) s) (set_task_states (alter f id (te_states_ s')) s').
Proof.
  intros Hfg (He & Hb & Hs). split_and!; [done..|]. intros id'. simpl. specialize (Hs id').
  destruct (decide (id' = id)) as [->|]; [rewrite !lookup_alter_eq|rewrite !lookup_alter_ne by congruence; exact Hs].
  destruct (te_states_ s' !! id), (te_states_ s !! id); try done. apply (inj Some) in Hs.
  by apply (f_equal Some), Hfg.
Qed.

Lemma alike_pause f id s s' :
  (forall x, unlabelled (f x) = unlabelled x) -> alike s s' ->
  alike (set_task_states (alter f id (te_states_ s)) s) s'.
Proof.
  intros Hf (He & Hb & Hs). split_and!; [done..|]. intros id'. simpl. rewrite Hs.
  destruct (decide (id' = id)) as [->|]; [rewrite lookup_alter_eq|rewrite lookup_alter_ne by congruence; done].
  destruct (te_states_ s !! id); [|done]. simpl. by rewrite Hf.
Qed.

Lemma alike_engine f s s' : alike s s' -> alike (set_engine (f (te_engine s)) s) (set_engine (f (te_engine s')) s').
Proof. intros (He & Hb & Hs). split_and!; simpl; [by rewrite He|done..]. Qed.

Lemma alike_envs os s s' : alike s s' -> alike (task_envs os s) (task_envs (filter (λ o, is_pause o = false) os) s').
Proof.
  revert s s'. induction os as [|o os IH]; intros s s' Ha; [done|]. rewrite filter_cons.
  destruct o as [id|id|id|o|now t]; simpl; apply IH.
  - apply alike_alter; [|done]. intros x y [= Hp _ Ht]. unfold unlabelled. simpl. by rewrite Hp, Ht.
  - by apply alike_pause.
  - by apply alike_pause.
  - by apply (alike_engine (env_step o)).
  - by apply (alike_engine (λ e, set_executor (finish_task now t (executor_ e)) e)).
Qed.

Lemma alike_cancel_requested id s s' : alike s s' -> task_cancel_requested id s' = task_cancel_requested id s.
Proof.
  intros (_ & _ & Hs). specialize (Hs id). unfold task_cancel_requested.
  destruct (te_states_ s' !! id), (te_states_ s !! id); by simplify_eq/=.
Qed.

Lemma alike_action_wait taskId id turns s s' s1 :
  alike s s' -> action_wait taskId id turns s = Some s1 ->
  exists s1', action_wait taskId id (map unpaused turns) s' = Some s1' /\ alike s1 s1'.
Proof.
  revert s s'. induction turns as [|turn turns IH]; intros s s' Ha; simpl;
    rewrite (alike_cancel_requested taskId s s' Ha), (proj1 Ha);
    (destruct (isRunning id _); [|intros [= <-]; eauto]); destruct (task_cancel_requested taskId s); try done.
  - intros [= <-]. eexists. split; [done|].
    by apply (alike_engine (λ e, set_executor (ae_cancel id (executor_ e)) e)).
  - intros [= <-]. eexists. split; [done|]. apply alike_envs.
    by apply (alike_engine (λ e, set_executor (ae_cancel id (executor_ e)) e)).
  - apply IH. by apply alike_envs.
Qed.

(** Pausing a running action does nothing.  The pause flag is never read:
    with all the calls of pause and resume taken out of what other threads do,
    the execution of an action returns the same result with the same actions run
    and the same events. *)
Theorem pause_has_no_effect sys turns d s r s' :
  executeAction sys turns d s = Returns (Some (r, s')) ->
  exists s'', executeAction sys (map unpaused turns) d s = Returns (Some (r, s'')) /\
    te_engine s'' = te_engine s' /\ te_eventBus_ s'' = te_eventBus_ s'.
Proof.
  assert (Hc : forall c ok err time s1 s1', alike s1 s1' ->
    Returns (Some (conclude d sys c ok err time s1)) = Returns (Some (r, s')) ->
    exists s'', Returns (Some (conclude d sys c ok err time s1')) = Returns (Some (r, s'')) /\
      te_engine s'' = te_engine s' /\ te_eventBus_ s'' = te_eventBus_ s').
  { intros c ok err time s1 s1' (He & Hb & _) [= Heq]. unfold conclude in *.
    destruct c; [|destruct ok]; simplify_eq/=; eauto. }
  unfold executeAction. destruct (createAction _ _ _ _) as [[a|e] w]; [|by apply Hc].
  replace (match map unpaused turns with [] => _ | t :: ts => _ end) with
    (unpaused (fst (match turns with [] => (mkTaskTurn false false [], []) | t :: ts => (t, ts) end)),
     map unpaused (snd (match turns with [] => (mkTaskTurn false false [], []) | t :: ts => (t, ts) end)))
    by (by destruct turns).
  destruct (match turns with [] => _ | _ => _ end) as [turn turns']. cbn [task_tick tick fst snd].
  change (tt_early (unpaused turn)) with (tt_early turn).
  destruct (executeAsync _ _ _ a _ _) as [[id x]| |]; try done.
  match goal with |- context [action_wait _ id turns' (task_envs _ ?y)] => set (s0 := y) end.
  destruct (action_wait _ id turns' _) as [s1|] eqn:Ew; [|done].
  destruct (alike_action_wait _ _ _ _ (task_envs (tt_ops (unpaused turn)) s0) _
              (alike_envs (tt_ops turn) s0 s0 ltac:(done)) Ew) as (s1' & -> & Ha).
  cbn [task_tick tick]. pose proof (alike_cancel_requested (td_id d) s1 s1' Ha) as Hcr.
  pose proof (proj1 Ha) as He. unfold task_cancel_requested in *. cbn [set_engine te_states_ te_engine executor_].
  rewrite Hcr, He. apply Hc. destruct Ha as (_ & Hb & Hs). done.
Qed.

(** A cancelled task is reported as failed.  The wait loop is left as soon as the
    cancellation has been passed on; if the action has not stopped by the time
    its result is read, the result is RUNNING, which counts as a failure without
    a message. *)
Theorem cancelled_task_reports_failure sys d s a w :
  td_workType d = WORK_ACTION ->
  createAction (factories_ (te_engine s)) (td_workId d) {["id" := td_workId d]} (seq_world (te_engine s)) = (Ok a, w) ->
  runningActions_ (executor_ (te_engine s)) !! act_id a = None ->
  exists r s', task_execute sys [mkTaskTurn false false [TCancel (td_id d)]] d s = Returns (Some (r, s')) /\
    tx_status r = TS_FAILED /\ tx_errorMessage r = "".
Proof.
  intros Hw Hc Hfree. unfold task_execute. cbn [task_tick tick]. rewrite Hw. set (s1 := set_engine _ _).
  assert (Hcr : is_Some (te_states_ s1 !! td_id d)) by (subst s1; simpl; rewrite lookup_insert_eq; eauto).
  assert (He : executor_ (te_engine s1) = executor_ (te_engine s)) by done.
  assert (Hf1 : factories_ (te_engine s1) = factories_ (te_engine s)) by done.
  clearbody s1. unfold executeAction, seq_world. rewrite Hf1, He. unfold seq_world in Hc. rewrite Hc.
  cbn [task_tick tick tt_early tt_ops]. unfold executeAsync. simpl. rewrite He, Hfree. simpl.
  set (x := mkExecState a _ _ _ _ _ _ _).
  unfold isRunning at 1. simpl. rewrite lookup_insert_eq. simpl. unfold is_done at 1. simpl.
  rewrite lookup_app_r, Nat.sub_diag by lia. simpl.
  unfold task_cancel_requested at 1. simpl. rewrite lookup_alter_eq. destruct Hcr as [y ->]. simpl.
  unfold getResult, ae_cancel. simpl. rewrite lookup_insert_eq. simpl. rewrite lookup_insert_eq. simpl.
  unfold is_done. simpl. rewrite lookup_app_r, Nat.sub_diag by lia. simpl.
  eexists _, _. split; [reflexivity|]. done.
Qed.
End TaskExecutor.

(** ** Example runs *)

Module TaskExamples.
Import SequenceExamples ConditionExamples.
Definition start : TaskExecutor (A := SAct) (W := ExecutionContext) (B := list ActionEvent)
    (V := list SequenceEvent) (T := list TaskEvent) :=
  mkTaskExecutor example_start (Some []) ∅.
Definition sys : nat -> Z := λ n, 7 + Z.of_nat n.
Definition move : TaskDefinition := setWork "Move" (newTaskDefinition "t1" "").
Definition jam : TaskDefinition := setPeriodicMode 100 (setWork "Jam" (newTaskDefinition "t2" "jam")).
Definition patrol : TaskDefinition := setWorkSequence "patrol" (newTaskDefinition "t3" "").
(** The action ends during the second sleep, after a pause. *)
Definition turns : list (TaskTurn (W := ExecutionContext)) :=
  [mkTaskTurn false false []; mkTaskTurn false false [TPause "t1"]; mkTaskTurn false false [TFinish 5 0]].
(** After a first execution of [jam] that threw. *)
Definition after_jam_task :=
  match task_execute false example_clk sys [mkTaskTurn false false [TFinish 5 0]] jam start with
  | Returns (Some (_, s)) => s
  | _ => start
  end.
End TaskExamples.
Import TaskExamples SequenceExamples ConditionExamples.

Lemma task_execution_reports_outcome_witness :
  match task_execute false example_clk sys TaskExamples.turns move TaskExamples.start with
  | Returns (Some (r, s')) =>
    tx_status r = TS_COMPLETED /\ task_getStatus "t1" s' = tx_status r /\
    tx_progress r = (if task_isSuccessful r then 1 else 0)
  | _ => False
  end.
Proof.
  destruct (task_execute false example_clk sys TaskExamples.turns move TaskExamples.start)
    as [[[r s']|]| |] eqn:E; [|vm_compute in E; discriminate..].
  destruct (task_execution_reports_outcome false example_clk sys TaskExamples.turns move TaskExamples.start r s' E)
    as (_ & Hp & Hg & _).
  split; [vm_compute in E; by injection E as <- _|]. split; [exact Hg|exact Hp].
Defined.

Lemma sequence_task_runs_no_action_witness :
  exists r s', task_execute false example_clk sys [mkTaskTurn false false [TCancel "t3"]] patrol TaskExamples.start
      = Returns (Some (r, s')) /\ tx_status r = TS_COMPLETED /\
    length (async_tasks (executor_ (te_engine s'))) = 0%nat.
Proof. by apply (sequence_task_runs_no_action false example_clk sys _ patrol TaskExamples.start). Defined.

Lemma failed_task_never_recovers_witness :
  match task_execute false example_clk sys [mkTaskTurn false false [TFinish 9 1]] jam after_jam_task with
  | Returns (Some (r, _)) => tx_status r = TS_FAILED
  | _ => False
  end.
Proof.
  destruct (task_execute false example_clk sys [mkTaskTurn false false [TFinish 9 1]] jam after_jam_task)
    as [[[r s']|]| |] eqn:E; [|vm_compute in E; discriminate..].
  apply (failed_task_never_recovers false example_clk sys [mkTaskTurn false false [TFinish 9 1]] jam after_jam_task r s'); [reflexivity| | | |exact E].
  - assert (Hfs : factories_ (te_engine after_jam_task) = example_factories) by (vm_compute; reflexivity).
    intros type f id ps w a w' Hf Hc. rewrite Hfs in Hf. unfold example_factories in Hf.
    apply lookup_insert_Some in Hf as [[<- <-]|[_ [<- <-]%lookup_singleton_Some]]; by injection Hc as <- _.
  - assert (Hall : map_Forall (λ _ x, es_future x < length (async_tasks (executor_ (te_engine after_jam_task))))%nat
                     (runningActions_ (executor_ (te_engine after_jam_task))))
      by (refine (bool_decide_unpack _ _); vm_compute; exact I).
    intros id x Hx. exact (Hall id x Hx).
  - eexists. split; [vm_compute; reflexivity|]. split; [eexists; reflexivity|reflexivity].
Defined.

Lemma pause_has_no_effect_witness :
  match executeAction false example_clk sys TaskExamples.turns move TaskExamples.start with
  | Returns (Some (r, s')) =>
    exists s'', executeAction false example_clk sys (map unpaused TaskExamples.turns) move TaskExamples.start =
      Returns (Some (r, s'')) /\ te_engine s'' = te_engine s' /\ te_eventBus_ s'' = te_eventBus_ s'
  | _ => False
  end.
Proof.
  destruct (executeAction false example_clk sys TaskExamples.turns move TaskExamples.start)
    as [[[r s']|]| |] eqn:E; [|vm_compute in E; discriminate..].
  by apply (pause_has_no_effect false example_clk sys TaskExamples.turns move TaskExamples.start r s').
Defined.
