(* ===== verification/TaskScheduling.v ===== *)
(** * Scheduling of tasks (src/core/task/core/PeriodicScheduler, TriggerManager,
      TaskMonitor, TaskRegistry)

    The periodic scheduler has one thread per schedule.  [start] and [stop] hold
    the mutex only while they change the table and wait for the old thread
    outside it, so their parts and the turns of the threads are the steps of a
    transition system ([sched_exec]).  The other three components hold their
    mutex for the whole call (the trigger manager calls back outside it). *)

From S2P Require Import Prelude Control Condition TaskExecution.

(** ** PeriodicScheduler *)

Module Periodic.

(** A schedule's thread: at the test of its loop, in the callback, or ended. *)
Inductive ThreadState := AtTest | InCallback | Ended.

#[export] Instance ThreadState_eq_dec : EqDecision ThreadState.
Proof. solve_decision. Defined.

Record ScheduleInfo := mkInfo {
  si_taskId : string;
  si_interval : Z;
  si_running : bool;
  si_executionCount : Z;
  si_thread : ThreadState
}.

Definition stop_running (x : ScheduleInfo) : ScheduleInfo :=
  mkInfo (si_taskId x) (si_interval x) false (si_executionCount x) (si_thread x).
Definition set_thread (t : ThreadState) (x : ScheduleInfo) : ScheduleInfo :=
  mkInfo (si_taskId x) (si_interval x) (si_running x) (si_executionCount x) t.
Definition count_execution (x : ScheduleInfo) : ScheduleInfo :=
  mkInfo (si_taskId x) (si_interval x) (si_running x) (i32 (si_executionCount x + 1)) (si_thread x).

(** A call in progress, with the schedules it has taken out of the table; the
    number of a schedule is its position in [infos]. *)
Inductive Caller :=
| Starting (taskId : string) (interval : Z) (old : option nat)
| Stopping (taskId : string) (i : nat)
| StoppingAll (rest : list nat).

Record PeriodicScheduler := mkSched {
  schedules_ : gmap string nat;
  infos : list ScheduleInfo;
  callers : gmap nat Caller;
  calls : list string;              (* the tasks called back, in order *)
  terminated : bool
}.
Implicit Types s : PeriodicScheduler.

Definition newPeriodicScheduler : PeriodicScheduler := mkSched ∅ [] ∅ [] false.

Definition upd_info (i : nat) (f : ScheduleInfo -> ScheduleInfo) s : PeriodicScheduler :=
  mkSched (schedules_ s) (alter f i (infos s)) (callers s) (calls s) (terminated s).
Definition set_schedules (m : gmap string nat) s : PeriodicScheduler :=
  mkSched m (infos s) (callers s) (calls s) (terminated s).
Definition set_callers (m : gmap nat Caller) s : PeriodicScheduler :=
  mkSched (schedules_ s) (infos s) m (calls s) (terminated s).

(** [stopInternal]: take a schedule out of the table. *)
Definition stopInternal (taskId : string) s : option nat * PeriodicScheduler :=
  match schedules_ s !! taskId with
  | None => (None, s)
  | Some i => (Some i, set_schedules (delete taskId (schedules_ s)) s)
  end.

Definition joinable_done (i : nat) s : bool :=
  match infos s !! i with Some x => bool_decide (si_thread x = Ended) | None => true end.

Definition sched_isRunning (taskId : string) s : bool :=
  match schedules_ s !! taskId ≫= λ i, infos s !! i with Some x => si_running x | None => false end.
Definition getExecutionCount (taskId : string) s : Z :=
  match schedules_ s !! taskId ≫= λ i, infos s !! i with Some x => si_executionCount x | None => 0 end.

Inductive Step :=
| BeginStart (c : nat) (taskId : string) (interval : Z)
| FinishStart (c : nat)
| BeginStop (c : nat) (taskId : string)
| FinishStop (c : nat)
| BeginStopAll (c : nat)
| StopAllNext (c : nat)
| ThreadTest (i : nat)
| ThreadCallback (i : nat) (throws : bool).

(** The table entry of a new schedule; overwriting an entry destroys its thread
    object while it is joinable, which ends the process. *)
Definition new_schedule (taskId : string) (interval : Z) s : PeriodicScheduler :=
  mkSched (<[taskId := length (infos s)]> (schedules_ s))
    (infos s ++ [mkInfo taskId interval true 0 AtTest]) (callers s) (calls s)
    (terminated s || (schedules_ s).[taskId]).

(** [start]: take an old schedule out and tell its thread to stop. *)
Definition begin_start (c : nat) (taskId : string) (interval : Z) s : option PeriodicScheduler :=
  if (callers s).[c] then None
  else
    let '(old, s) := stopInternal taskId s in
    let s := match old with Some i => upd_info i stop_running s | None => s end in
    Some (set_callers (<[c := Starting taskId interval old]> (callers s)) s).

(** Join the old thread and put in the new schedule. *)
Definition finish_start (c : nat) s : option PeriodicScheduler :=
  match callers s !! c with
  | Some (Starting taskId interval old) =>
    if match old with Some i => joinable_done i s | None => true end
    then Some (new_schedule taskId interval (set_callers (delete c (callers s)) s))
    else None
  | _ => None
  end.

(** [stop], up to the join. *)
Definition begin_stop (c : nat) (taskId : string) s : option PeriodicScheduler :=
  if (callers s).[c] then None
  else
    match stopInternal taskId s with
    | (None, s) => Some s
    | (Some i, s) => Some (set_callers (<[c := Stopping taskId i]> (callers s)) (upd_info i stop_running s))
    end.

(** The join of [stop]. *)
Definition finish_stop (c : nat) s : option PeriodicScheduler :=
  match callers s !! c with
  | Some (Stopping _ i) => if joinable_done i s then Some (set_callers (delete c (callers s)) s) else None
  | _ => None
  end.

(** [stopAll]: empty the table and tell the first thread to stop. *)
Definition begin_stop_all (c : nat) s : option PeriodicScheduler :=
  if (callers s).[c] then None
  else
    let all := (key_order (schedules_ s)).*2 in
    let s := set_callers (<[c := StoppingAll all]> (callers s)) (set_schedules ∅ s) in
    Some (match all with i :: _ => upd_info i stop_running s | [] => s end).

(** Join a thread and tell the next one to stop. *)
Definition stop_all_next (c : nat) s : option PeriodicScheduler :=
  match callers s !! c with
  | Some (StoppingAll []) => Some (set_callers (delete c (callers s)) s)
  | Some (StoppingAll (i :: rest)) =>
    if joinable_done i s then
      let s := set_callers (<[c := StoppingAll rest]> (callers s)) s in
      Some (match rest with j :: _ => upd_info j stop_running s | [] => s end)
    else None
  | _ => None
  end.

(** [runSchedule]: the test of the loop. *)
Definition thread_test (i : nat) s : option PeriodicScheduler :=
  match infos s !! i with
  | Some x =>
    match si_thread x with
    | AtTest => Some (upd_info i (set_thread (if si_running x then InCallback else Ended)) s)
    | _ => None
    end
  | None => None
  end.

(** The call of the callback. *)
Definition thread_callback (i : nat) (throws : bool) s : option PeriodicScheduler :=
  match infos s !! i with
  | Some x =>
    match si_thread x with
    | InCallback =>
      let s := upd_info i (set_thread AtTest) s in
      let s := if throws then s else upd_info i count_execution s in
      Some (mkSched (schedules_ s) (infos s) (callers s) (calls s ++ [si_taskId x]) (terminated s))
    | _ => None
    end
  | None => None
  end.

Definition sched_exec (o : Step) s : option PeriodicScheduler :=
  if terminated s then None else
  match o with
  | BeginStart c taskId interval => begin_start c taskId interval s
  | FinishStart c => finish_start c s
  | BeginStop c taskId => begin_stop c taskId s
  | FinishStop c => finish_stop c s
  | BeginStopAll c => begin_stop_all c s
  | StopAllNext c => stop_all_next c s
  | ThreadTest i => thread_test i s
  | ThreadCallback i throws => thread_callback i throws s
  end.

Fixpoint sched_run (os : list Step) s : option PeriodicScheduler :=
  match os with
  | [] => Some s
  | o :: os => sched_exec o s ≫= sched_run os
  end.

(** *** Every thread that has not ended is accounted for *)

Definition holds (x : Caller) : list nat :=
  match x with
  | Starting _ _ old => option_list old
  | Stopping _ i => [i]
  | StoppingAll rest => rest
  end.

Record sched_ok s : Prop := {
  (* entries of the table are schedules of that task *)
  so_table t i : schedules_ s !! t = Some i -> exists x, infos s !! i = Some x /\ si_taskId x = t;
  (* a live thread is in the table or held by a call *)
  so_live i x : infos s !! i = Some x -> si_thread x <> Ended ->
    schedules_ s !! si_taskId x = Some i \/ exists c k, callers s !! c = Some k /\ i ∈ holds k
}.

Definition keeps_task (f : ScheduleInfo -> ScheduleInfo) (x : ScheduleInfo) : Prop :=
  si_taskId (f x) = si_taskId x /\ (si_thread x = Ended -> si_thread (f x) = Ended).

Lemma upd_info_lookup i f s j x :
  infos (upd_info i f s) !! j = Some x ->
  exists y, infos s !! j = Some y /\ x = (if decide (i = j) then f y else y).
Proof.
  simpl. destruct (decide (i = j)) as [->|Hne].
  - rewrite list_lookup_alter_eq. destruct (infos s !! j); intros; simplify_eq/=. eauto.
  - rewrite list_lookup_alter_ne by done. eauto.
Qed.

Lemma upd_info_table i f s j x :
  infos s !! j = Some x -> infos (upd_info i f s) !! j = Some (if decide (i = j) then f x else x).
Proof.
  simpl. intros Hx. case_decide as H; [subst; by rewrite list_lookup_alter_eq, Hx|].
  by rewrite list_lookup_alter_ne.
Qed.

Lemma upd_info_ok i f s :
  (forall x, infos s !! i = Some x -> keeps_task f x) -> sched_ok s -> sched_ok (upd_info i f s).
Proof.
  intros Hf [Ht Hl]. split.
  - intros t j Hj. destruct (Ht t j Hj) as (x & Hx & <-).
    rewrite (upd_info_table _ _ _ _ _ Hx). eexists. split; [done|]. case_decide; [subst; by apply Hf|done].
  - intros j x (y & Hy & ->)%upd_info_lookup Hlive.
    assert (Hy' : si_thread y <> Ended) by (intros E; apply Hlive; case_decide; [subst; by apply Hf|done]).
    replace (si_taskId (if decide (i = j) then f y else y)) with (si_taskId y)
      by (case_decide; [subst; symmetry; by apply Hf|done]).
    by apply (Hl j y).
Qed.

Lemma stop_running_ok i s : sched_ok s -> sched_ok (upd_info i stop_running s).
Proof. by apply upd_info_ok. Qed.

(** The calls in progress change, but every live thread they held is still held
    or in the table. *)
Lemma set_callers_ok m s :
  sched_ok s ->
  (forall c k i x, callers s !! c = Some k -> i ∈ holds k -> infos s !! i = Some x -> si_thread x <> Ended ->
     schedules_ s !! si_taskId x = Some i \/ exists c k, m !! c = Some k /\ i ∈ holds k) ->
  sched_ok (set_callers m s).
Proof.
  intros [Ht Hl] Hm. split; [done|]. intros i x Hx Hlive. simpl in *.
  destruct (Hl i x Hx Hlive) as [?|(c & k & Hc & Hi)]; [by left|]. by eapply Hm.
Qed.

Lemma not_done i s x : joinable_done i s = true -> infos s !! i = Some x -> si_thread x = Ended.
Proof. unfold joinable_done. intros H Hx. rewrite Hx in H. by to_prop. Qed.

(** Taking out a schedule and handing it to a new call. *)
Lemma take_ok c k taskId i s :
  sched_ok s -> callers s !! c = None -> schedules_ s !! taskId = Some i -> i ∈ holds k ->
  sched_ok (set_callers (<[c := k]> (callers s)) (set_schedules (delete taskId (schedules_ s)) s)).
Proof.
  intros [Ht Hl] Hc Hi Hk. split; simpl.
  - intros t j [_ Hj]%lookup_delete_Some. by apply Ht.
  - intros j x Hx Hlive. destruct (Hl j x Hx Hlive) as [Hj|(c' & k' & Hc' & Hj)].
    + destruct (decide (si_taskId x = taskId)) as [E|E].
      * right. exists c, k. rewrite lookup_insert_eq. split; [done|]. congruence.
      * left. rewrite lookup_delete_ne by congruence. done.
    + right. exists c', k'. rewrite lookup_insert_ne by congruence. done.
Qed.

(** A caller that holds nothing comes. *)
Lemma come_ok c k s : sched_ok s -> callers s !! c = None -> sched_ok (set_callers (<[c := k]> (callers s)) s).
Proof.
  intros Hs Hc. apply set_callers_ok; [done|]. intros c' k' i x Hc' Hi _ _. right. exists c', k'.
  by rewrite lookup_insert_ne by congruence.
Qed.

(** A caller whose schedules have all ended goes. *)
Lemma go_ok c k s :
  sched_ok s -> callers s !! c = Some k -> (forall i, i ∈ holds k -> joinable_done i s = true) ->
  sched_ok (set_callers (delete c (callers s)) s).
Proof.
  intros Hs Hc Hk. apply set_callers_ok; [done|]. intros c' k' i x Hc' Hi Hx Hlive.
  destruct (decide (c' = c)) as [->|]; [simplify_eq; by destruct Hlive; eapply not_done; eauto|].
  right. exists c', k'. by rewrite lookup_delete_ne.
Qed.

Lemma new_schedule_ok taskId interval s :
  sched_ok s -> schedules_ s !! taskId = None -> sched_ok (new_schedule taskId interval s).
Proof.
  intros [Ht Hl] Hfree. split; simpl.
  - intros t i [[<- <-]|[_ Hi]]%lookup_insert_Some.
    + rewrite list_lookup_middle by done. eauto.
    + destruct (Ht t i Hi) as (x & Hx & ?). rewrite lookup_app_l by (by eapply lookup_lt_Some). eauto.
  - intros i x Hx Hlive. apply lookup_app_Some in Hx as [Hx|[Hi Hx]].
    + destruct (Hl i x Hx Hlive) as [Hi|?]; [left|by right].
      rewrite lookup_insert_ne; [done|]. congruence.
    + apply list_lookup_singleton_Some in Hx as [Hi' <-]. left. simpl.
      replace i with (length (infos s)) by lia. apply lookup_insert_eq.
Qed.

(** [stopAll] takes every schedule of the table. *)
Lemma take_all_ok c s :
  sched_ok s -> callers s !! c = None ->
  sched_ok (set_callers (<[c := StoppingAll (key_order (schedules_ s)).*2]> (callers s)) (set_schedules ∅ s)).
Proof.
  intros [Ht Hl] Hc. split; simpl; [done|]. intros i x Hx Hlive. right.
  destruct (Hl i x Hx Hlive) as [Hi|(c' & k' & Hc' & Hi)].
  - exists c, (StoppingAll (key_order (schedules_ s)).*2). rewrite lookup_insert_eq. split; [done|]. simpl.
    apply list_elem_of_fmap. exists (si_taskId x, i). split; [done|]. by apply elem_of_key_order.
  - exists c', k'. by rewrite lookup_insert_ne by congruence.
Qed.

Lemma thread_step_ok i f s x :
  sched_ok s -> infos s !! i = Some x -> si_thread x <> Ended -> si_taskId (f x) = si_taskId x ->
  sched_ok (upd_info i f s).
Proof. intros Hs Hx Hlive Hf. apply upd_info_ok; [|done]. intros y Hy. by simplify_eq. Qed.

Lemma sched_ok_calls s l b : sched_ok s -> sched_ok (mkSched (schedules_ s) (infos s) (callers s) l b).
Proof. intros [Ht Hl]. by split. Qed.

Lemma begin_ok c k taskId i s :
  sched_ok s -> callers s !! c = None -> schedules_ s !! taskId = Some i -> i ∈ holds k ->
  sched_ok (set_callers (<[c := k]> (callers s))
    (upd_info i stop_running (set_schedules (delete taskId (schedules_ s)) s))).
Proof.
  intros. pose proof (take_ok c k taskId i s) as H'. apply (stop_running_ok i) in H'; try done.
Qed.

Lemma begin_start_ok c taskId interval s s' :
  sched_ok s -> sched_exec (BeginStart c taskId interval) s = Some s' -> sched_ok s'.
Proof.
  intros Hs. unfold sched_exec, begin_start, finish_start, begin_stop, finish_stop, begin_stop_all, stop_all_next, thread_test, thread_callback. destruct (terminated s); [done|]. destruct (callers s !! c) eqn:Hc; [done|]. simpl.
  unfold stopInternal. destruct (schedules_ s !! taskId) as [i|] eqn:Hi; intros [= <-].
  - apply begin_ok; try done. simpl. by left.
  - by apply come_ok.
Qed.

Lemma finish_start_ok c s s' :
  sched_ok s -> sched_exec (FinishStart c) s = Some s' -> terminated s' = false -> sched_ok s'.
Proof.
  intros Hs. unfold sched_exec, begin_start, finish_start, begin_stop, finish_stop, begin_stop_all, stop_all_next, thread_test, thread_callback. destruct (terminated s); [done|].
  destruct (callers s !! c) as [[taskId interval old| |]|] eqn:Hc; try done.
  destruct (match old with Some i => joinable_done i s | None => true end) eqn:Hold; [|done].
  intros [= <-] Ht. simpl in Ht. apply orb_false_iff in Ht as [_ Ht].
  apply new_schedule_ok; [|simpl; by destruct (schedules_ s !! taskId)].
  eapply go_ok; [done..|]. intros i Hi. simpl in Hi. destruct old; simpl in Hi; [|by apply elem_of_nil in Hi].
  by apply list_elem_of_singleton in Hi as ->.
Qed.

Lemma stop_all_next_ok c s s' :
  sched_ok s -> sched_exec (StopAllNext c) s = Some s' -> sched_ok s'.
Proof.
  intros Hs. unfold sched_exec, begin_start, finish_start, begin_stop, finish_stop, begin_stop_all, stop_all_next, thread_test, thread_callback. destruct (terminated s); [done|].
  destruct (callers s !! c) as [[| |[|i rest]]|] eqn:Hc; try done.
  - intros [= <-]. eapply go_ok; [done..|]. intros i Hi. by apply elem_of_nil in Hi.
  - destruct (joinable_done i s) eqn:Hd; [|done]. intros [= <-].
    assert (sched_ok (set_callers (<[c:=StoppingAll rest]> (callers s)) s)) as Hs'.
    { apply set_callers_ok; [done|]. intros c' k' j x Hc' Hj Hx Hlive. right.
      destruct (decide (c' = c)) as [->|]; [|exists c', k'; by rewrite lookup_insert_ne].
      simplify_eq. exists c, (StoppingAll rest). rewrite lookup_insert_eq. split; [done|].
      apply elem_of_cons in Hj as [->|Hj]; [|done]. destruct Hlive. by eapply not_done. }
    destruct rest; [done|by apply stop_running_ok].
Qed.

Theorem sched_exec_ok o s s' :
  sched_ok s -> sched_exec o s = Some s' -> terminated s' = false -> sched_ok s'.
Proof.
  intros Hs Ho Ht. destruct o.
  - by eapply begin_start_ok.
  - by eapply finish_start_ok.
  - revert Ho. unfold sched_exec, begin_start, finish_start, begin_stop, finish_stop, begin_stop_all, stop_all_next, thread_test, thread_callback. destruct (terminated s); [done|]. destruct (callers s !! c) eqn:Hc; [done|]. simpl.
    unfold stopInternal. destruct (schedules_ s !! taskId) eqn:Hi; intros [= <-]; [|done].
    apply begin_ok; try done. simpl. by left.
  - revert Ho. unfold sched_exec, begin_start, finish_start, begin_stop, finish_stop, begin_stop_all, stop_all_next, thread_test, thread_callback. destruct (terminated s); [done|].
    destruct (callers s !! c) as [[|t i|]|] eqn:Hc; try done.
    destruct (joinable_done i s) eqn:Hd; [|done]. intros [= <-]. eapply go_ok; [done..|].
    intros j Hj. by apply list_elem_of_singleton in Hj as ->.
  - revert Ho. unfold sched_exec, begin_start, finish_start, begin_stop, finish_stop, begin_stop_all, stop_all_next, thread_test, thread_callback. destruct (terminated s); [done|]. destruct (callers s !! c) eqn:Hc; [done|]. simpl.
    intros [= <-]. pose proof (take_all_ok c s Hs Hc) as H. revert H. generalize ((key_order (schedules_ s)).*2).
    intros [|i l]; [done|apply stop_running_ok].
  - by eapply stop_all_next_ok.
  - revert Ho. unfold sched_exec, begin_start, finish_start, begin_stop, finish_stop, begin_stop_all, stop_all_next, thread_test, thread_callback. destruct (terminated s); [done|]. destruct (infos s !! i) as [x|] eqn:Hx; [|done].
    destruct (si_thread x) eqn:Hth; try done. intros [= <-]. eapply thread_step_ok; [done..|congruence|done].
  - revert Ho. unfold sched_exec, begin_start, finish_start, begin_stop, finish_stop, begin_stop_all, stop_all_next, thread_test, thread_callback. destruct (terminated s); [done|]. destruct (infos s !! i) as [x|] eqn:Hx; [|done].
    destruct (si_thread x) eqn:Hth; try done. intros [= <-]. apply sched_ok_calls.
    assert (sched_ok (upd_info i (set_thread AtTest) s)) as H1 by (eapply thread_step_ok; [done..|congruence|done]).
    destruct throws; [done|]. by apply upd_info_ok.
Qed.

Lemma terminated_exec o s s' : sched_exec o s = Some s' -> terminated s = false.
Proof. unfold sched_exec, begin_start, finish_start, begin_stop, finish_stop, begin_stop_all, stop_all_next, thread_test, thread_callback. by destruct (terminated s). Qed.

Lemma sched_run_ok os s s' :
  sched_ok s -> sched_run os s = Some s' -> terminated s' = false -> sched_ok s'.
Proof.
  revert s. induction os as [|o os IH]; simpl; intros s Hs Hrun Ht; [by simplify_eq|].
  apply bind_Some in Hrun as (s1 & Ho & Hrun). eapply IH; [|done|done]. eapply sched_exec_ok; [done..|].
  destruct os; simpl in Hrun; [by simplify_eq|].
  apply bind_Some in Hrun as (s2 & Ho2 & _). by eapply terminated_exec.
Qed.

Lemma new_ok : sched_ok newPeriodicScheduler.
Proof. by split. Qed.

(** *** A stopped task is silent *)

Definition is_starting (t : string) (k : Caller) : bool :=
  match k with Starting t' _ _ => bool_decide (t = t') | _ => false end.

(** No schedule of the task is in the table and no call is busy with it. *)
Definition idle (t : string) s : Prop :=
  schedules_ s !! t = None /\
  forall c k, callers s !! c = Some k ->
    is_starting t k = false /\ forall i x, i ∈ holds k -> infos s !! i = Some x -> si_taskId x <> t.

(** Every thread the task ever had has ended, and no call will start another. *)
Record silent (t : string) s : Prop := {
  sl_threads i x : infos s !! i = Some x -> si_taskId x = t -> si_thread x = Ended;
  sl_callers c k : callers s !! c = Some k -> is_starting t k = false
}.

Lemma idle_silent t s : sched_ok s -> idle t s -> silent t s.
Proof.
  intros [Ht Hl] [Hfree Hcalls]. split; [|intros c k Hk; by apply (Hcalls c k)].
  intros i x Hx Htask. destruct (decide (si_thread x = Ended)) as [?|Hlive]; [done|].
  destruct (Hl i x Hx Hlive) as [Hi|(c & k & Hc & Hi)]; [congruence|].
  by destruct (proj2 (Hcalls c k Hc) i x Hi Hx).
Qed.

Definition starts (t : string) (o : Step) : bool :=
  match o with BeginStart _ t' _ => bool_decide (t = t') | _ => false end.

Definition calls_of (t : string) s : list string := filter (λ t', t' = t) (calls s).

Lemma silent_upd t i f s :
  (forall x, infos s !! i = Some x -> keeps_task f x) -> silent t s -> silent t (upd_info i f s).
Proof.
  intros Hf [Hth Hc]. split; [|done]. intros j x (y & Hy & ->)%upd_info_lookup. case_decide as E; [|by apply (Hth j)].
  subst j. destruct (Hf y Hy) as [-> He]. intros Ht. by apply He, (Hth i y).
Qed.

Lemma silent_stop t i s : silent t s -> silent t (upd_info i stop_running s).
Proof. by apply silent_upd. Qed.

Lemma silent_set_callers t m s :
  (forall c k, m !! c = Some k -> callers s !! c = Some k \/ is_starting t k = false) ->
  silent t s -> silent t (set_callers m s).
Proof. intros Hm [Hth Hc]. split; [done|]. intros c k Hk. destruct (Hm c k Hk); [by eapply Hc|done]. Qed.

Lemma silent_come t c k s : is_starting t k = false -> silent t s -> silent t (set_callers (<[c := k]> (callers s)) s).
Proof.
  intros Hk. apply silent_set_callers. intros c' k' [[_ <-]|[_ ?]]%lookup_insert_Some; [by right|by left].
Qed.

Lemma silent_go t c s : silent t s -> silent t (set_callers (delete c (callers s)) s).
Proof. apply silent_set_callers. intros c' k' [_ ?]%lookup_delete_Some. by left. Qed.

Lemma silent_table t m s : silent t s -> silent t (set_schedules m s).
Proof. intros [Hth Hc]. by split. Qed.

Lemma silent_new t t' interval s : t <> t' -> silent t s -> silent t (new_schedule t' interval s).
Proof.
  intros Hne [Hth Hc]. split; [|done]. simpl. intros i x [Hx|[_ Hx]]%lookup_app_Some; [by eapply Hth|].
  apply list_lookup_singleton_Some in Hx as [_ <-]. simpl. congruence.
Qed.

(** A live thread of a silent task does not exist. *)
Lemma silent_live t s i x : silent t s -> infos s !! i = Some x -> si_thread x <> Ended -> si_taskId x <> t.
Proof. intros [Hth _] Hx Hlive <-. by destruct Hlive; eapply Hth. Qed.

Lemma silent_exec t o s s' :
  silent t s -> starts t o = false -> sched_exec o s = Some s' -> silent t s' /\ calls_of t s' = calls_of t s.
Proof.
  intros Hs Ho. unfold sched_exec, begin_start, finish_start, begin_stop, finish_stop, begin_stop_all, stop_all_next, thread_test, thread_callback. destruct (terminated s); [done|].
  destruct o as [c t' interval|c|c t'|c|c|c|i|i throws].
  - destruct (callers s !! c); [done|]. simpl in *. unfold stopInternal.
    destruct (schedules_ s !! t') as [i|]; intros [= <-]; (split; [|done]).
    + by apply (silent_come t c (Starting t' interval (Some i)) (upd_info i stop_running (set_schedules (delete t' (schedules_ s)) s))), silent_stop, silent_table.
    + by apply silent_come.
  - destruct (callers s !! c) as [[t' interval old| |]|] eqn:Hc; try done.
    destruct (match old with Some i => _ | None => _ end); [|done]. intros [= <-]. split; [|done].
    apply silent_new, silent_go, Hs. apply (sl_callers _ _ Hs) in Hc. simpl in Hc. by to_prop.
  - destruct (callers s !! c); [done|]. simpl. unfold stopInternal.
    destruct (schedules_ s !! t') as [i|]; intros [= <-]; (split; [|done]); [|done].
    by apply (silent_come t c (Stopping t' i) (upd_info i stop_running (set_schedules (delete t' (schedules_ s)) s))), silent_stop, silent_table.
  - destruct (callers s !! c) as [[|t' i|]|]; try done. destruct (joinable_done i s); [|done].
    intros [= <-]. split; [|done]. by apply silent_go.
  - destruct (callers s !! c); [done|]. simpl. generalize ((key_order (schedules_ s)).*2). intros l [= <-].
    assert (silent t (set_callers (<[c := StoppingAll l]> (callers s)) (set_schedules ∅ s)))
      by by apply (silent_come t c (StoppingAll l) (set_schedules ∅ s)), silent_table.
    destruct l; (split; [|done]); [done|by apply silent_stop].
  - destruct (callers s !! c) as [[| |[|i rest]]|]; try done.
    + intros [= <-]. split; [|done]. by apply silent_go.
    + destruct (joinable_done i s); [|done]. intros [= <-].
      assert (silent t (set_callers (<[c := StoppingAll rest]> (callers s)) s)) by by apply silent_come.
      destruct rest; (split; [|done]); [done|by apply silent_stop].
  - destruct (infos s !! i) as [x|] eqn:Hx; [|done]. destruct (si_thread x) eqn:E; try done.
    intros [= <-]. split; [|done]. apply silent_upd; [|done]. intros y Hy. split; [done|congruence].
  - destruct (infos s !! i) as [x|] eqn:Hx; [|done]. destruct (si_thread x) eqn:E; try done. intros [= <-].
    assert (Hne : si_taskId x <> t) by (apply (silent_live t s i); [done..|congruence]).
    assert (silent t (upd_info i (set_thread AtTest) s)) as H1
      by (apply silent_upd; [|done]; intros y Hy; split; [done|congruence]).
    split; [|unfold calls_of; destruct throws; simpl;
             by rewrite filter_app, filter_cons_False, filter_nil, app_nil_r by done].
    assert (silent t (if throws then upd_info i (set_thread AtTest) s
                      else upd_info i count_execution (upd_info i (set_thread AtTest) s))) as [Ha Hb]
      by (destruct throws; [done|by apply silent_upd]).
    by split.
Qed.

Lemma silent_run t os s s' :
  silent t s -> forallb (λ o, negb (starts t o)) os = true -> sched_run os s = Some s' ->
  calls_of t s' = calls_of t s.
Proof.
  revert s. induction os as [|o os IH]; simpl; intros s Hs Hos Hrun; [by simplify_eq|].
  apply andb_prop in Hos as [Ho Hos]. apply bind_Some in Hrun as (s1 & Hx & Hrun).
  destruct (silent_exec t o s s1 Hs) as [Hs1 <-]; [by destruct (starts t o)|done|]. by apply IH.
Qed.

(** C30: whatever the interleaving of calls and threads that led here, once no
    schedule of a task is in the table and no [start], [stop] or [stopAll] is
    still busy with it, the task's callback is never called again until the next
    [start] of that task. *)
Theorem stopped_task_is_silent t os os' s s' :
  sched_run os newPeriodicScheduler = Some s -> idle t s ->
  forallb (λ o, negb (starts t o)) os' = true -> sched_run os' s = Some s' ->
  calls_of t s' = calls_of t s.
Proof.
  intros Hrun Hidle Hos Hrun'. destruct os' as [|o os']; [by simplify_eq/=|].
  eapply silent_run; [|exact Hos|exact Hrun']. apply idle_silent; [|done].
  eapply sched_run_ok; [apply new_ok|done|].
  simpl in Hrun'. apply bind_Some in Hrun' as (s1 & Ho & _). by eapply terminated_exec.
Qed.

Lemma stopped_task_is_silent_witness :
  let os := [BeginStart 0 "a" 10; FinishStart 0; BeginStart 0 "b" 10; FinishStart 0; ThreadTest 0; ThreadTest 1;
             BeginStop 0 "a"; ThreadCallback 0 false; ThreadTest 0; FinishStop 0] in
  let os' := [ThreadCallback 1 false; ThreadTest 1; ThreadCallback 1 true] in
  exists s s', sched_run os newPeriodicScheduler = Some s /\ sched_run os' s = Some s' /\
    calls_of "a" s = ["a"] /\ calls s' = ["a"; "b"; "b"] /\ calls_of "a" s' = calls_of "a" s.
Proof.
  intros os os'. eexists. eexists. split; [vm_compute; reflexivity|].
  split; [vm_compute; reflexivity|]. split; [vm_compute; reflexivity|]. split; [vm_compute; reflexivity|].
  apply (stopped_task_is_silent "a" os os');
    [vm_compute; reflexivity| |vm_compute; reflexivity|vm_compute; reflexivity].
  split; [vm_compute; reflexivity|]. intros c k Hc. vm_compute in Hc. destruct c as [|c]; [discriminate Hc|].
  discriminate Hc.
Defined.

(** *** [stop] returns *)

(** The turns the thread of a schedule takes after [running] was cleared. *)
Definition last_turns (i : nat) (throws : bool) (x : ScheduleInfo) : list Step :=
  match si_thread x with
  | AtTest => [ThreadTest i]
  | InCallback => [ThreadCallback i throws; ThreadTest i]
  | Ended => []
  end.

Lemma exec_test i x s :
  terminated s = false -> infos s !! i = Some x -> si_thread x = AtTest ->
  sched_exec (ThreadTest i) s = Some (upd_info i (set_thread (if si_running x then InCallback else Ended)) s).
Proof. intros Ht Hx E. unfold sched_exec, begin_start, finish_start, begin_stop, finish_stop, begin_stop_all, stop_all_next, thread_test, thread_callback. by rewrite Ht, Hx, E. Qed.

Definition after_callback (throws : bool) (x : ScheduleInfo) : ScheduleInfo :=
  if throws then set_thread AtTest x else count_execution (set_thread AtTest x).

Lemma exec_callback i x throws s :
  terminated s = false -> infos s !! i = Some x -> si_thread x = InCallback ->
  sched_exec (ThreadCallback i throws) s =
  Some (mkSched (schedules_ s) (alter (after_callback throws) i (infos s)) (callers s) (calls s ++ [si_taskId x]) false).
Proof.
  intros Ht Hx E. unfold sched_exec, begin_start, finish_start, begin_stop, finish_stop, begin_stop_all, stop_all_next, thread_test, thread_callback. rewrite Ht, Hx, E. destruct throws; simpl; rewrite Ht; [done|].
  by rewrite list_alter_alter_eq.
Qed.

(** C31: [stop] returns: once it has taken the schedule out of the table, the
    thread ends within two of its own turns (the callback it may be in, then the
    test of its loop), and then the join returns; the task is then not running
    and its schedule is gone, whatever the other calls and threads are doing. *)
Theorem stop_returns c t i x throws s :
  terminated s = false -> callers s !! c = None -> schedules_ s !! t = Some i -> infos s !! i = Some x ->
  exists s', sched_run (BeginStop c t :: last_turns i throws x ++ [FinishStop c]) s = Some s' /\
    sched_isRunning t s' = false /\ schedules_ s' = delete t (schedules_ s) /\ callers s' = callers s /\
    (si_thread <$> infos s' !! i) = Some Ended.
Proof.
  intros Ht Hc Hi Hx. destruct s as [tbl infs cs cl tm]. simpl in Ht, Hc, Hi, Hx. subst tm.
  set (s1 infs cl := mkSched (delete t tbl) infs (<[c := Stopping t i]> cs) cl false).
  assert (sched_exec (BeginStop c t) (mkSched tbl infs cs cl false) = Some (s1 (alter stop_running i infs) cl)) as E1.
  { unfold sched_exec, begin_start, finish_start, begin_stop, finish_stop, begin_stop_all, stop_all_next, thread_test, thread_callback, stopInternal. simpl. rewrite Hc. simpl. by rewrite Hi. }
  assert (Hend : forall infs cl y, infs !! i = Some y -> si_thread y = Ended ->
            exists s', sched_run [FinishStop c] (s1 infs cl) = Some s' /\
              sched_isRunning t s' = false /\ schedules_ s' = delete t tbl /\ callers s' = cs /\
              (si_thread <$> infos s' !! i) = Some Ended).
  { intros infs' cl' y Hy Hthr. eexists. split.
    { simpl. unfold sched_exec, begin_start, finish_start, begin_stop, finish_stop, begin_stop_all, stop_all_next, thread_test, thread_callback. simpl. rewrite lookup_insert_eq. unfold joinable_done. simpl.
      rewrite Hy, Hthr. done. }
    simpl. unfold sched_isRunning. simpl. rewrite lookup_delete_eq, Hy, delete_insert_id by done. simpl. by rewrite Hthr. }
  assert (Htest : forall infs cl y, infs !! i = Some y -> si_thread y = AtTest -> si_running y = false ->
            exists s', sched_run [ThreadTest i; FinishStop c] (s1 infs cl) = Some s' /\
              sched_isRunning t s' = false /\ schedules_ s' = delete t tbl /\ callers s' = cs /\
              (si_thread <$> infos s' !! i) = Some Ended).
  { intros infs' cl' y Hy Hthr Hr.
    destruct (Hend (alter (set_thread Ended) i infs') cl' (set_thread Ended y)) as (s' & Hs' & Hrest);
      [by rewrite list_lookup_alter_eq, Hy|done|]. exists s'. split; [|done]. rewrite <- Hs'.
    cbn [sched_run]. rewrite (exec_test _ y), Hr by done. done. }
  assert (Hx1 : alter stop_running i infs !! i = Some (stop_running x)) by by rewrite list_lookup_alter_eq, Hx.
  cbn [sched_run]. rewrite E1. cbn [mbind option_bind]. unfold last_turns. destruct (si_thread x) eqn:E; cbn [app].
  - by eapply Htest.
  - destruct (Htest (alter (after_callback throws) i (alter stop_running i infs)) (cl ++ [si_taskId x])
      (after_callback throws (stop_running x))) as (s' & Hs' & Hrest);
      [by rewrite list_lookup_alter_eq, Hx1|by destruct throws..|].
    exists s'. split; [|done]. rewrite <- Hs'. cbn [sched_run]. by rewrite (exec_callback _ (stop_running x)).
  - by eapply Hend.
Qed.

Lemma stop_returns_witness :
  exists s s', sched_run [BeginStart 0 "a" 10; FinishStart 0; ThreadTest 0] newPeriodicScheduler = Some s /\
    sched_run [BeginStop 0 "a"; ThreadCallback 0 false; ThreadTest 0; FinishStop 0] s = Some s' /\
    sched_isRunning "a" s = true /\ sched_isRunning "a" s' = false.
Proof.
  eexists. destruct (stop_returns 0 "a" 0 (mkInfo "a" 10 true 0 InCallback) false
    (mkSched {["a" := 0%nat]} [mkInfo "a" 10 true 0 InCallback] ∅ [] false)) as (s' & Hs' & Hr & _);
    [reflexivity|reflexivity|vm_compute; reflexivity|reflexivity|].
  exists s'. split; [vm_compute; reflexivity|]. split; [exact Hs'|]. split; [vm_compute; reflexivity|exact Hr].
Defined.

(** *** Restarting a task from two threads *)

Lemma exec_begin_start c t n s :
  terminated s = false -> callers s !! c = None -> schedules_ s !! t = None ->
  sched_exec (BeginStart c t n) s = Some (set_callers (<[c := Starting t n None]> (callers s)) s).
Proof. intros Ht Hc Hi. unfold sched_exec, begin_start, finish_start, begin_stop, finish_stop, begin_stop_all, stop_all_next, thread_test, thread_callback, stopInternal. by rewrite Ht, Hc, Hi. Qed.

Lemma exec_finish_start c t n s :
  terminated s = false -> callers s !! c = Some (Starting t n None) ->
  sched_exec (FinishStart c) s = Some (new_schedule t n (set_callers (delete c (callers s)) s)).
Proof. intros Ht Hc. unfold sched_exec, begin_start, finish_start, begin_stop, finish_stop, begin_stop_all, stop_all_next, thread_test, thread_callback. by rewrite Ht, Hc. Qed.

(** Two [start]s of one task that overlap: the second to finish overwrites the
    entry of the first, whose thread is joinable, and the process terminates. *)
Theorem overlapping_starts_terminate t n s c c' :
  terminated s = false -> c <> c' -> callers s !! c = None -> callers s !! c' = None -> schedules_ s !! t = None ->
  exists s', sched_run [BeginStart c t n; BeginStart c' t n; FinishStart c; FinishStart c'] s = Some s' /\
    terminated s' = true.
Proof.
  intros Ht Hne Hc Hc' Hfree. destruct s as [tbl infs cs cl tm]. simpl in Ht, Hc, Hc', Hfree. subst tm.
  eexists. split.
  - cbn [sched_run]. rewrite exec_begin_start by done. cbn [mbind option_bind].
    rewrite exec_begin_start; [|done|simpl; by rewrite lookup_insert_ne|done]. cbn [mbind option_bind].
    rewrite (exec_finish_start c t n); [|done|simpl; rewrite lookup_insert_ne by done; apply lookup_insert_eq].
    cbn [mbind option_bind]. erewrite (exec_finish_start c' t n); [reflexivity|simpl; by rewrite Hfree|].
    simpl. rewrite lookup_delete_ne by done. apply lookup_insert_eq.
  - simpl. rewrite lookup_insert_eq. apply orb_true_r.
Qed.
End Periodic.

(** ** TriggerManager

    A callback may do anything, including calling the manager again (it is
    called outside the mutex): [call] is its effect on the world, on the manager
    and on the context all callbacks of one event share, and whether it threw. *)

Module Triggers.
Section Triggers.
Context {C W : Type}.

Record TriggerInfo := mkTrigger {
  ti_taskId : string;
  ti_eventName : string;
  ti_callback : C;
  ti_executionCount : Z
}.

Record TriggerManager := mkTriggers {
  triggers_ : gmap string (list TriggerInfo);
  taskExecutionCounts_ : gmap string Z
}.
Implicit Types m : TriggerManager.

Definition newTriggerManager : TriggerManager := mkTriggers ∅ ∅.

Definition triggers_of (eventName : string) m : list TriggerInfo := default [] (triggers_ m !! eventName).

Definition registerTrigger (taskId eventName : string) (callback : C) m : TriggerManager :=
  mkTriggers (<[eventName := triggers_of eventName m ++ [mkTrigger taskId eventName callback 0]]> (triggers_ m))
    (taskExecutionCounts_ m).

Definition others (taskId : string) (l : list TriggerInfo) : list TriggerInfo :=
  filter (λ x, ti_taskId x <> taskId) l.

Definition unregisterTrigger (taskId eventName : string) m : TriggerManager :=
  if bool_decide (eventName = "")
  then mkTriggers (others taskId <$> triggers_ m) (delete taskId (taskExecutionCounts_ m))
  else
    match triggers_ m !! eventName with
    | None => m
    | Some l =>
      match others taskId l with
      | [] => mkTriggers (delete eventName (triggers_ m)) (taskExecutionCounts_ m)
      | l' => mkTriggers (<[eventName := l']> (triggers_ m)) (taskExecutionCounts_ m)
      end
    end.

Definition getTriggerCount (taskId : string) m : Z := default 0 (taskExecutionCounts_ m !! taskId).

Definition count_trigger (taskId : string) m : TriggerManager :=
  mkTriggers (triggers_ m) (<[taskId := i32 (getTriggerCount taskId m + 1)]> (taskExecutionCounts_ m)).

Definition hasTrigger (taskId eventName : string) m : bool :=
  match triggers_ m !! eventName with
  | None => false
  | Some l => existsb (λ x, bool_decide (ti_taskId x = taskId)) l
  end.

Definition clear m : TriggerManager := newTriggerManager.

(** What a callback does: it threw or not, and the new context, world and
    manager. *)
Definition Call := C -> string -> ExecutionContext -> W -> TriggerManager ->
  bool * ExecutionContext * W * TriggerManager.
Context (call : Call).

(** The loop of [fireEvent] over the copied triggers; [log] is the triggers whose
    callback was entered. *)
Fixpoint fire (eventData : string) (l : list TriggerInfo) (ctx : ExecutionContext) (w : W) m :
    list TriggerInfo * W * TriggerManager :=
  match l with
  | [] => ([], w, m)
  | x :: l =>
    let '(threw, ctx, w, m) := call (ti_callback x) eventData ctx w m in
    let m := if threw then m else count_trigger (ti_taskId x) m in
    let '(log, w, m) := fire eventData l ctx w m in
    (x :: log, w, m)
  end.

Definition fireEvent (eventName eventData : string) (w : W) m : list TriggerInfo * W * TriggerManager :=
  match triggers_of eventName m with
  | [] => ([], w, m)
  | l =>
    let ctx := if bool_decide (eventData = "") then newContext
               else setVariable "event_data" (CString eventData) newContext in
    fire eventData l ctx w m
  end.

(** *** What is registered *)

(** The registrations of every event, each in the order they were made. *)
Lemma register_triggers_of taskId eventName callback m e :
  triggers_of e (registerTrigger taskId eventName callback m) =
  triggers_of e m ++ (if bool_decide (e = eventName) then [mkTrigger taskId eventName callback 0] else []).
Proof.
  unfold triggers_of, registerTrigger. simpl. case_bool_decide as E.
  - subst. by rewrite lookup_insert_eq.
  - by rewrite lookup_insert_ne, app_nil_r.
Qed.

Lemma unregister_triggers_of taskId eventName m e :
  triggers_of e (unregisterTrigger taskId eventName m) =
  (if bool_decide (eventName = "" \/ eventName = e) then others taskId (triggers_of e m) else triggers_of e m).
Proof.
  unfold unregisterTrigger. destruct (decide (eventName = "")) as [->|Hne].
  - rewrite !bool_decide_eq_true_2 by auto. unfold triggers_of. simpl. rewrite lookup_fmap.
    by destruct (triggers_ m !! e).
  - rewrite (bool_decide_eq_false_2 (eventName = "")) by done. unfold triggers_of at 1.
    destruct (decide (eventName = e)) as [->|Hne'].
    + rewrite bool_decide_eq_true_2 by auto. unfold triggers_of. destruct (triggers_ m !! e) as [l|] eqn:E.
      * destruct (others taskId l) eqn:El; simpl; [by rewrite lookup_delete_eq|by rewrite lookup_insert_eq].
      * by rewrite E.
    + rewrite bool_decide_eq_false_2 by (intros [|]; done). unfold triggers_of.
      destruct (triggers_ m !! eventName) as [l|]; [|done].
      destruct (others taskId l); simpl; [by rewrite lookup_delete_ne|by rewrite lookup_insert_ne].
Qed.

Lemma hasTrigger_spec taskId eventName m :
  hasTrigger taskId eventName m = true <-> exists x, x ∈ triggers_of eventName m /\ ti_taskId x = taskId.
Proof.
  unfold hasTrigger, triggers_of. destruct (triggers_ m !! eventName) as [l|]; simpl.
  - rewrite existsb_exists. split; intros (x & Hx & Ht); exists x;
      [split; [by apply list_elem_of_In|by to_prop]|split; [by apply list_elem_of_In|by apply bool_decide_eq_true]].
  - split; [done|]. intros (x & Hx & _). by apply elem_of_nil in Hx.
Qed.

(** Unregistering takes the task out of the named event, or of all, and leaves
    the other tasks' triggers alone. *)
Theorem unregister_forgets taskId eventName m e t :
  hasTrigger t e (unregisterTrigger taskId eventName m) =
  (hasTrigger t e m && negb (bool_decide (t = taskId /\ (eventName = "" \/ eventName = e)))).
Proof.
  apply eq_bool_prop_intro. rewrite !Is_true_true, hasTrigger_spec, andb_true_iff, hasTrigger_spec.
  rewrite unregister_triggers_of, negb_true_iff, bool_decide_eq_false. unfold others.
  case_bool_decide as E.
  - setoid_rewrite list_elem_of_filter. split; [intros (x & [? ?] & ?)|intros [(x & ? & ?) ?]].
    + split; [eauto|]. intros [-> _]. done.
    + exists x. repeat split; try done. intros ?. naive_solver.
  - naive_solver.
Qed.

(** *** Firing an event *)

Lemma fire_log eventData l ctx w m : (fire eventData l ctx w m).1.1 = l.
Proof.
  revert ctx w m. induction l as [|x l IH]; intros ctx w m; simpl; [done|].
  destruct (call _ _ _ _ _) as [[[threw ctx'] w'] m']. specialize (IH ctx' w').
  specialize (IH (if threw then m' else count_trigger (ti_taskId x) m')).
  destruct (fire _ _ _ _ _) as [[log w''] m'']. simpl in *. by subst.
Qed.

(** Whatever the callbacks do (they may throw, and they may register and
    unregister triggers or fire other events), the callbacks entered are the ones
    registered when the event was fired, each once, in registration order. *)
Theorem fire_calls_registered_triggers eventName eventData w m :
  (fireEvent eventName eventData w m).1.1 = triggers_of eventName m.
Proof. unfold fireEvent. destruct (triggers_of eventName m) eqn:E; [done|]. apply fire_log. Qed.
End Triggers.
End Triggers.

(** ** TaskMonitor: a table of what each task is doing.  A progress is a
    [float], of which only 0 and 1 are written here; a time is in nanoseconds. *)

Module Monitor.
Section Monitor.
Context {F : Type} (zero one : F).

Record TaskExecutionInfo := mkTaskInfo {
  ei_taskId : string;
  ei_status : TaskStatus;
  ei_progress : F;
  ei_startTime : Z;
  ei_endTime : Z;
  ei_errorMessage : string;
  ei_retryCount : Z
}.

Abbreviation TaskMonitor := (gmap string TaskExecutionInfo).
Implicit Types m : TaskMonitor.

Definition getElapsedMs (now : Z) (x : TaskExecutionInfo) : Z :=
  let end_ := if bool_decide (ei_status x = TS_RUNNING \/ ei_status x = TS_IDLE) then now else ei_endTime x in
  Z.quot (end_ - ei_startTime x) 1000000.

Definition startTask (taskId : string) (now : Z) m : TaskMonitor :=
  <[taskId := mkTaskInfo taskId TS_RUNNING zero now 0 "" 0]> m.
Definition updateProgress (taskId : string) (progress : F) m : TaskMonitor :=
  alter (λ x, mkTaskInfo (ei_taskId x) (ei_status x) progress (ei_startTime x) (ei_endTime x)
                (ei_errorMessage x) (ei_retryCount x)) taskId m.
Definition updateStatus (taskId : string) (st : TaskStatus) m : TaskMonitor :=
  alter (λ x, mkTaskInfo (ei_taskId x) st (ei_progress x) (ei_startTime x) (ei_endTime x)
                (ei_errorMessage x) (ei_retryCount x)) taskId m.
Definition endTask (taskId : string) (st : TaskStatus) (errorMessage : string) (now : Z) m : TaskMonitor :=
  alter (λ x, mkTaskInfo (ei_taskId x) st (if bool_decide (st = TS_COMPLETED) then one else ei_progress x)
                (ei_startTime x) now errorMessage (ei_retryCount x)) taskId m.
Definition incrementRetryCount (taskId : string) m : TaskMonitor :=
  alter (λ x, mkTaskInfo (ei_taskId x) (ei_status x) (ei_progress x) (ei_startTime x) (ei_endTime x)
                (ei_errorMessage x) (ei_retryCount x + 1)) taskId m.
Definition getTaskInfo (taskId : string) m : option TaskExecutionInfo := m !! taskId.

Definition with_status (st : TaskStatus) m : nat :=
  length (filter (λ kx, ei_status kx.2 = st) (key_order m)).
Definition getRunningTaskCount m : nat := with_status TS_RUNNING m.
Definition getCompletedTaskCount m : nat := with_status TS_COMPLETED m.
Definition getFailedTaskCount m : nat := with_status TS_FAILED m.
Definition clear m : TaskMonitor := ∅.
Definition removeTask (taskId : string) m : TaskMonitor := delete taskId m.

(** The duration of a finished task, and of a running one, is not negative. *)
Theorem elapsed_nonneg taskId st err t0 t1 t2 m x :
  t0 <= t1 -> t1 <= t2 ->
  getTaskInfo taskId (endTask taskId st err t1 (startTask taskId t0 m)) = Some x -> 0 <= getElapsedMs t2 x.
Proof.
  unfold getTaskInfo, endTask, startTask. rewrite lookup_alter_eq, lookup_insert_eq. simpl.
  intros H1 H2 [= <-]. unfold getElapsedMs. simpl. apply Z.quot_pos; [|lia]. case_bool_decide; lia.
Qed.

(** A task whose status is set to PAUSED (or any status but RUNNING and IDLE)
    while it runs is measured against an end time that was never written: the
    duration it reports is the negative of its start time. *)
Theorem paused_task_reports_negative_time taskId t0 now m :
  1000000 <= t0 ->
  exists x, getTaskInfo taskId (updateStatus taskId TS_PAUSED (startTask taskId t0 m)) = Some x /\
    getElapsedMs now x = - (t0 / 1000000) /\ getElapsedMs now x < 0.
Proof.
  intros Ht. unfold getTaskInfo, updateStatus, startTask. rewrite lookup_alter_eq, lookup_insert_eq. simpl.
  eexists. split; [done|]. unfold getElapsedMs. cbn [ei_status ei_endTime ei_startTime].
  rewrite bool_decide_eq_false_2 by (by intros [|]).
  replace (0 - t0) with (- t0) by lia. rewrite Z.quot_opp_l, Z.quot_div_nonneg by lia.
  assert (1 <= t0 / 1000000) by (apply Z.div_le_lower_bound; lia). lia.
Qed.

(** The three counts never overlap: together they count at most the tasks. *)
Theorem task_counts_bounded m :
  (getRunningTaskCount m + getCompletedTaskCount m + getFailedTaskCount m <= base.size m)%nat.
Proof.
  unfold getRunningTaskCount, getCompletedTaskCount, getFailedTaskCount, with_status.
  rewrite <- length_map_to_list, <- (Permutation_length (key_order_perm m)).
  induction (key_order m) as [|[k x] l IH]; [done|]. rewrite !filter_cons. simpl.
  repeat case_decide; simpl in *; try congruence; lia.
Qed.
End Monitor.
End Monitor.

(** ** TaskRegistry: the definitions by id; the logs of the operations are left out. *)

Module Registry.
Abbreviation TaskRegistry := (gmap string TaskDefinition).
Implicit Types r : TaskRegistry.

Definition registerDefinition (d : TaskDefinition) r : TaskRegistry := <[td_id d := d]> r.
Definition getDefinition (id : string) r : option TaskDefinition := r !! id.
Definition hasDefinition (id : string) r : bool := r.[id].
Definition getAllDefinitionIds r : list string := (key_order r).*1.
Definition removeDefinition (id : string) r : bool * TaskRegistry :=
  if r.[id] then (true, delete id r) else (false, r).
Definition clear r : TaskRegistry := ∅.

(** Every definition is registered under its own id. *)
Definition registry_ok r : Prop := forall id d, getDefinition id r = Some d -> td_id d = id.

Lemma register_ok d r : registry_ok r -> registry_ok (registerDefinition d r).
Proof.
  intros H id d'. unfold getDefinition, registerDefinition.
  intros [[<- <-]|[_ ?]]%lookup_insert_Some; [done|by apply H].
Qed.

Lemma remove_ok id r : registry_ok r -> registry_ok (removeDefinition id r).2.
Proof.
  intros H. unfold removeDefinition. destruct (r.[id]); [|done]. unfold registry_ok, getDefinition. simpl.
  intros id' d [_ ?]%lookup_delete_Some. by apply H.
Qed.

(** The ids listed are exactly the ones that can be looked up. *)
Theorem listed_ids_are_registered id r : id ∈ getAllDefinitionIds r <-> hasDefinition id r = true.
Proof.
  unfold getAllDefinitionIds, hasDefinition. rewrite list_elem_of_fmap. split.
  - intros ([k d] & -> & Hk). apply elem_of_key_order in Hk. simpl. by rewrite Hk.
  - destruct (r !! id) as [d|] eqn:E; [|done]. exists (id, d). split; [done|]. by apply elem_of_key_order.
Qed.
End Registry.
