(* ===== verification/Shuttle.v ===== *)
(** * The pallet shuttle: actions, transport sequence and transport task
      (src/robot/pallet_shuttle/actions, sequences/PalletTransportSequence,
      tasks/PalletTransportTask)

    The three actions talk to each other only through the variables of the
    execution context ("picked_pallet_id", "gripper_closed", "current_x", ...).
    An action object is a record; [cancel] may be called from another thread
    while [execute] runs, so an execution takes the number of the first test of
    [cancelled_] that reads true.  A coordinate is the bit pattern of a double,
    a progress the percentage of the float. *)

From stdpp Require Import pretty.
From S2P Require Import Prelude Interfaces Control ActionExecutor Condition Sequence TaskExecution.
#[local] Open Scope Z_scope.

(** ** Actions *)

Inductive ActionKind :=
| MoveToPosition (target_x target_y target_theta : Z)
| PickPallet (pallet_id : string)
| PlacePallet.

Record ShuttleAction := mkAction {
  sa_id : string;
  sa_kind : ActionKind;
  sa_status : ActionStatus;
  sa_progress : Z;
  sa_cancelled : bool
}.

Definition action_type (a : ShuttleAction) : string :=
  match sa_kind a with
  | MoveToPosition _ _ _ => "MoveToPosition"
  | PickPallet _ => "PickPallet"
  | PlacePallet => "PlacePallet"
  end.

(** The constructors. *)
Definition newAction (id : string) (k : ActionKind) : result string ShuttleAction :=
  match k with
  | PickPallet "" => Throw "Pallet ID cannot be empty"
  | _ => Ok (mkAction id k ACT_PENDING 0 false)
  end.

Definition set_status (st : ActionStatus) (a : ShuttleAction) : ShuttleAction :=
  mkAction (sa_id a) (sa_kind a) st (sa_progress a) (sa_cancelled a).
Definition set_progress (p : Z) (a : ShuttleAction) : ShuttleAction :=
  mkAction (sa_id a) (sa_kind a) (sa_status a) p (sa_cancelled a).
Definition action_cancel (a : ShuttleAction) : ShuttleAction :=
  mkAction (sa_id a) (sa_kind a) (sa_status a) (sa_progress a) true.

(** What the [i]-th test of [cancelled_] reads. *)
Definition polled (cancel : option nat) (i : nat) (a : ShuttleAction) : bool :=
  sa_cancelled a || match cancel with Some k => (k <=? i)%nat | None => false end.

Definition ctx_has (k : string) (c : ExecutionContext) : bool := (variables_ c).[k].
Definition ctx_set (k v : string) (c : ExecutionContext) : ExecutionContext := setVariable k (CString v) c.

Section Actions.
Context {dbl : Doubles}.

(** The end of an execution: an exception or none, the object, the context. *)
Abbreviation Ended := (option string * ShuttleAction * ExecutionContext)%type.

(** [std::stod] of a coordinate of the context, if it is there. *)
Definition read_coordinate (k : string) (c : ExecutionContext) : option string :=
  if ctx_has k c then match stod (ctx_get k c) with Ok _ => None | Throw e => Some e end else None.

(** The loop over the eleven simulated steps: the tests made and the object. *)
Fixpoint move_loop (fuel i : nat) (cancel : option nat) (a : ShuttleAction) : nat * ShuttleAction :=
  match fuel with
  | O => (i, a)
  | S fuel => if polled cancel i a then (S i, a)
              else move_loop fuel (S i) cancel (set_progress (10 * Z.of_nat i) a)
  end.

Definition arrive (x y theta : Z) (c : ExecutionContext) : ExecutionContext :=
  ctx_set "current_theta" (double_text theta) (ctx_set "current_y" (double_text y)
    (ctx_set "current_x" (double_text x) c)).

Definition move_execute (cancel : option nat) (x y theta : Z) (a : ShuttleAction) (c : ExecutionContext) : Ended :=
  let a := set_progress 0 (set_status ACT_RUNNING a) in
  match read_coordinate "current_x" c with
  | Some e => (Some e, a, c)
  | None =>
    match read_coordinate "current_y" c with
    | Some e => (Some e, a, c)
    | None =>
      match read_coordinate "current_theta" c with
      | Some e => (Some e, a, c)
      | None =>
        let '(i, a) := move_loop 11 0 cancel a in
        if polled cancel i a then (None, set_status ACT_CANCELLED a, c)
        else (None, set_status ACT_COMPLETED (set_progress 100 a), arrive x y theta c)
      end
    end
  end.

Definition holding (c : ExecutionContext) : string := ctx_get "picked_pallet_id" c.

Definition pick_execute (cancel : option nat) (pallet_id : string) (a : ShuttleAction) (c : ExecutionContext) : Ended :=
  if ctx_has "picked_pallet_id" c && negb (bool_decide (holding c = ""))
  then (Some ("Already holding pallet: " +:+ holding c)%string, a, c)
  else
    let a := set_progress 20 (set_progress 0 (set_status ACT_RUNNING a)) in
    if polled cancel 0 a then (None, set_status ACT_CANCELLED a, c)
    else
      let a := set_progress 50 a in
      if polled cancel 1 a then (None, set_status ACT_CANCELLED a, c)
      else
        let a := set_progress 90 (set_progress 70 a) in
        let c := ctx_set "gripper_closed" "true" (ctx_set "picked_pallet_id" pallet_id c) in
        (None, set_status ACT_COMPLETED (set_progress 100 a), c).

(** The record of where the pallet was put. *)
Definition copy_variable (from to : string) (c : ExecutionContext) : ExecutionContext :=
  if ctx_has from c then ctx_set to (ctx_get from c) c else c.

Definition place_execute (cancel : option nat) (a : ShuttleAction) (c : ExecutionContext) : Ended :=
  if negb (ctx_has "picked_pallet_id" c) || bool_decide (holding c = "")
  then (Some "No pallet held", a, c)
  else
    let a := set_progress 30 (set_progress 0 (set_status ACT_RUNNING a)) in
    if polled cancel 0 a then (None, set_status ACT_CANCELLED a, c)
    else
      let a := set_progress 60 a in
      if polled cancel 1 a then (None, set_status ACT_CANCELLED a, c)
      else
        let a := set_progress 90 a in
        let c := ctx_set "gripper_closed" "false" (ctx_set "picked_pallet_id" "" c) in
        let c := copy_variable "current_y" "last_place_y" (copy_variable "current_x" "last_place_x" c) in
        (None, set_status ACT_COMPLETED (set_progress 100 a), c).

Definition action_execute (cancel : option nat) (a : ShuttleAction) (c : ExecutionContext) : Ended :=
  if negb (bool_decide (sa_status a = ACT_PENDING))
  then (Some ("Action already executed: " +:+ sa_id a)%string, a, c)
  else
    match sa_kind a with
    | MoveToPosition x y theta => move_execute cancel x y theta a c
    | PickPallet pallet_id => pick_execute cancel pallet_id a c
    | PlacePallet => place_execute cancel a c
    end.
End Actions.

(** ** PalletTransportSequence *)

(** [static_cast<int>] of a double within the range of [int]: the mantissa
    shifted by the exponent, towards zero. *)
Definition double_to_int (bits : Z) : Z :=
  let e := Z.land (Z.shiftr bits 52) 2047 in
  let m := Z.land bits (2 ^ 52 - 1) + (if e =? 0 then 0 else 2 ^ 52) in
  let v := Z.shiftl m (Z.max e 1 - 1075) in
  if Z.testbit bits 63 then - v else v.

Definition addParameter (k v : string) (st : ActionStep) : ActionStep :=
  mkStep (st_actionId st) (st_actionType st) (<[k := v]> (st_parameters st)) (st_timeout st).
Definition step_setTimeout (ms : Z) (st : ActionStep) : ActionStep :=
  mkStep (st_actionId st) (st_actionType st) (st_parameters st) ms.
Definition newActionStep (id type : string) : ActionStep := mkStep id type ∅ 0.

Definition move_step (id : string) (x y : Z) : ActionStep :=
  step_setTimeout 30000 (addParameter "target_theta" "0.0" (addParameter "target_y" (pretty (double_to_int y))
    (addParameter "target_x" (pretty (double_to_int x)) (newActionStep id "MoveToPosition")))).

(** The timeout of the whole sequence and the description are left out: the
    engine reads neither. *)
Definition buildDefinition (pickup_x pickup_y place_x place_y : Z) (pallet_id : string) : SequenceDefinition :=
  mkSeqDef "pallet_transport" "Pallet Transport Sequence"
    [move_step "move_to_pickup" pickup_x pickup_y;
     step_setTimeout 10000 (addParameter "pallet_id" pallet_id (newActionStep "pick_pallet" "PickPallet"));
     move_step "move_to_place" place_x place_y;
     step_setTimeout 10000 (newActionStep "place_pallet" "PlacePallet")]
    ∅ (Some (mkRetry 2 5000 false)).

(** ** PalletTransportTask *)

Record TransportTask := mkTransport {
  tt_id : string;
  tt_sequence : SequenceDefinition;
  tt_definition : TaskDefinition;
  tt_status : TaskStatus;
  tt_progress : Z;
  tt_execution_id : string
}.

Definition newTransportTask `{!Doubles} (task_id : string) (pickup_x pickup_y place_x place_y : Z) (pallet_id : string) :
    result string TransportTask :=
  if bool_decide (pallet_id = "") then Throw "Pallet ID cannot be empty"
  else
    let d := setDescription ("Transport pallet " +:+ pallet_id +:+ " from (" +:+ double_text pickup_x +:+ "," +:+
               double_text pickup_y +:+ ") to (" +:+ double_text place_x +:+ "," +:+ double_text place_y +:+ ")")%string
               (newTaskDefinition "PalletTransport" "Pallet Transport Task") in
    Ok (mkTransport task_id (buildDefinition pickup_x pickup_y place_x place_y pallet_id) d TS_IDLE 0 "").

Definition set_task_status (st : TaskStatus) (t : TransportTask) : TransportTask :=
  mkTransport (tt_id t) (tt_sequence t) (tt_definition t) st (tt_progress t) (tt_execution_id t).

(** [now_ms]: the system clock in milliseconds. *)
Definition transport_start (now_ms : Z) (t : TransportTask) : result string string * TransportTask :=
  if negb (bool_decide (tt_status t = TS_IDLE)) then (Throw ("Task already started: " +:+ tt_id t)%string, t)
  else
    let eid := (tt_id t +:+ "_" +:+ pretty now_ms)%string in
    (Ok eid, mkTransport (tt_id t) (tt_sequence t) (tt_definition t) TS_RUNNING 0 eid).

(** [stop], [pause] and [resume]: a status they require, and the one they set. *)
Definition transport_switch (from to : TaskStatus) (text : string) (t : TransportTask) : option string * TransportTask :=
  if negb (bool_decide (tt_status t = from)) then (Some (text +:+ tt_id t)%string, t)
  else (None, set_task_status to t).
Definition transport_stop := transport_switch TS_RUNNING TS_CANCELLED "Task not running: ".
Definition transport_pause := transport_switch TS_RUNNING TS_PAUSED "Task not running: ".
Definition transport_resume := transport_switch TS_PAUSED TS_RUNNING "Task not paused: ".

Inductive TransportOp := TStart (now_ms : Z) | TStop | TPauseOp | TResumeOp.

Definition transport_exec (o : TransportOp) (t : TransportTask) : TransportTask :=
  match o with
  | TStart n => (transport_start n t).2
  | TStop => (transport_stop t).2
  | TPauseOp => (transport_pause t).2
  | TResumeOp => (transport_resume t).2
  end.
Definition transport_run (os : list TransportOp) (t : TransportTask) : TransportTask :=
  foldl (λ t o, transport_exec o t) t os.

(** The sequence is built but never submitted: a transport task is never
    COMPLETED or FAILED and its progress stays 0, whatever is called. *)
Theorem transport_task_never_completes `{!Doubles} id px py qx qy pallet t os :
  newTransportTask id px py qx qy pallet = Ok t ->
  let t' := transport_run os t in
  tt_progress t' = 0 /\ tt_status t' ∈ [TS_IDLE; TS_RUNNING; TS_PAUSED; TS_CANCELLED].
Proof.
  intros Ht. unfold newTransportTask in Ht. case_bool_decide; [done|]. injection Ht as <-.
  apply (foldl_invariant (λ t', tt_progress t' = 0 /\ tt_status t' ∈ [TS_IDLE; TS_RUNNING; TS_PAUSED; TS_CANCELLED])).
  - split; [done|set_solver].
  - intros t o [Hp Hs]. destruct o; unfold transport_exec, transport_start, transport_stop, transport_pause,
      transport_resume, transport_switch; case_bool_decide; simpl; (split; [done|set_solver]).
Qed.

(** A task that was stopped stays stopped. *)
Theorem cancelled_transport_is_final os t :
  tt_status t = TS_CANCELLED -> transport_run os t = t.
Proof.
  intros Ht. induction os as [|o os IH]; [done|]. cbn [transport_run foldl].
  replace (transport_exec o t) with t; [done|].
  destruct o; unfold transport_exec, transport_start, transport_stop, transport_pause, transport_resume,
    transport_switch; by rewrite Ht.
Qed.

(** ** Executions of the actions on one context *)

Section Shuttle.
Context {dbl : Doubles}.

Inductive Effect := Moved (x y : Z) | Picked (pallet : string) | Placed (pallet : string).

(** The action objects, their context, and the completed executions. *)
Record ShuttleWorld := mkWorld {
  actions : list ShuttleAction;
  context : ExecutionContext;
  completed : list (nat * Effect)
}.
Implicit Types w : ShuttleWorld.

Inductive ShuttleStep :=
| Create (id : string) (k : ActionKind)
| Cancel (i : nat)
| Execute (i : nat) (cancel : option nat).

Definition effect_of (a : ShuttleAction) (c : ExecutionContext) : Effect :=
  match sa_kind a with
  | MoveToPosition x y _ => Moved x y
  | PickPallet p => Picked p
  | PlacePallet => Placed (holding c)
  end.

Definition shuttle_exec (o : ShuttleStep) w : ShuttleWorld :=
  match o with
  | Create id k =>
    match newAction id k with
    | Ok a => mkWorld (actions w ++ [a]) (context w) (completed w)
    | Throw _ => w
    end
  | Cancel i => mkWorld (alter action_cancel i (actions w)) (context w) (completed w)
  | Execute i cancel =>
    match actions w !! i with
    | None => w
    | Some a =>
      let '(err, a', c) := action_execute cancel a (context w) in
      mkWorld (<[i := a']> (actions w)) c
        (if bool_decide (err = None /\ sa_status a' = ACT_COMPLETED)
         then completed w ++ [(i, effect_of a (context w))] else completed w)
    end
  end.

Definition shuttle_run (os : list ShuttleStep) w : ShuttleWorld := foldl (λ w o, shuttle_exec o w) w os.

Definition newShuttle : ShuttleWorld := mkWorld [] newContext [].

(** *** The physical reading of the completed executions *)

Record Carry := mkCarry {
  position : option (Z * Z);
  carried : option string;
  last_place : option (Z * Z)
}.

(** A pick needs an empty gripper, a place one that holds that pallet. *)
Definition carry_step (h : Carry) (e : Effect) : option Carry :=
  match e with
  | Moved x y => Some (mkCarry (Some (x, y)) (carried h) (last_place h))
  | Picked p =>
    match carried h with
    | None => if bool_decide (p = "") then None else Some (mkCarry (position h) (Some p) (last_place h))
    | Some _ => None
    end
  | Placed p =>
    if bool_decide (carried h = Some p)
    then Some (mkCarry (position h) None (match position h with Some q => Some q | None => last_place h end))
    else None
  end.

Definition replay (es : list Effect) : option Carry :=
  foldl (λ h e, h ≫= λ h, carry_step h e) (Some (mkCarry None None None)) es.

Lemma replay_snoc es e : replay (es ++ [e]) = replay es ≫= λ h, carry_step h e.
Proof. unfold replay. by rewrite foldl_app. Qed.

(** The variables of the context say where the shuttle is and what it carries. *)
Definition coordinate (k : string) (v : option Z) (c : ExecutionContext) : Prop :=
  variables_ c !! k = (λ x, CString (double_text x)) <$> v.

Record reads (h : Carry) (c : ExecutionContext) : Prop := {
  rd_x : coordinate "current_x" (fst <$> position h) c;
  rd_y : coordinate "current_y" (snd <$> position h) c;
  rd_place_x : coordinate "last_place_x" (fst <$> last_place h) c;
  rd_place_y : coordinate "last_place_y" (snd <$> last_place h) c;
  rd_held : holding c = default "" (carried h);
  rd_named : carried h <> Some "";
  rd_gripper : ctx_get "gripper_closed" c = "true" <-> is_Some (carried h)
}.

Record shuttle_ok w : Prop := {
  sk_reads : exists h, replay (completed w).*2 = Some h /\ reads h (context w);
  sk_once : NoDup (completed w).*1;
  sk_done i : i ∈ (completed w).*1 <-> exists a, actions w !! i = Some a /\ sa_status a = ACT_COMPLETED;
  sk_named i a : actions w !! i = Some a -> sa_kind a <> PickPallet ""
}.

Lemma ctx_set_eq k v c : variables_ (ctx_set k v c) !! k = Some (CString v).
Proof. apply lookup_insert_eq. Qed.
Lemma ctx_set_ne k k' v c : k <> k' -> variables_ (ctx_set k v c) !! k' = variables_ c !! k'.
Proof. apply lookup_insert_ne. Qed.
Lemma ctx_get_set_eq k v c : ctx_get k (ctx_set k v c) = v.
Proof. unfold ctx_get, getVariable. by rewrite ctx_set_eq. Qed.
Lemma ctx_get_set_ne k k' v c : k <> k' -> ctx_get k' (ctx_set k v c) = ctx_get k' c.
Proof. intros. unfold ctx_get, getVariable. by rewrite ctx_set_ne. Qed.

#[local] Ltac ctx := repeat first [rewrite ctx_set_eq | rewrite ctx_set_ne by discriminate
  | rewrite ctx_get_set_eq | rewrite ctx_get_set_ne by discriminate].

Lemma reads_arrive h c x y theta :
  reads h c -> reads (mkCarry (Some (x, y)) (carried h) (last_place h)) (arrive x y theta c).
Proof.
  intros [Hx Hy Hpx Hpy Hh Hn Hg]. unfold arrive, coordinate, holding in *.
  split; simpl; unfold coordinate, holding; ctx; try done.
Qed.

Lemma reads_pick h c p :
  reads h c -> p <> "" ->
  reads (mkCarry (position h) (Some p) (last_place h))
    (ctx_set "gripper_closed" "true" (ctx_set "picked_pallet_id" p c)).
Proof.
  intros [Hx Hy Hpx Hpy Hh Hn Hg] Hp. unfold coordinate, holding in *.
  split; simpl; unfold coordinate, holding; ctx; try done. by intros [= ->].
Qed.

Lemma copy_variable_eq from to v v0 c :
  coordinate from v c -> coordinate to v0 c ->
  coordinate to (match v with Some x => Some x | None => v0 end) (copy_variable from to c).
Proof.
  intros Hf Ht. unfold copy_variable, ctx_has, coordinate in *. rewrite Hf.
  destruct v; simpl; [|done]. rewrite lookup_insert_eq. unfold ctx_get, getVariable. by rewrite Hf.
Qed.

Lemma copy_variable_ne from to k c :
  to <> k -> variables_ (copy_variable from to c) !! k = variables_ c !! k.
Proof. intros. unfold copy_variable. destruct (ctx_has from c); [by apply ctx_set_ne|done]. Qed.

Lemma ctx_get_variables k c c' : variables_ c !! k = variables_ c' !! k -> ctx_get k c = ctx_get k c'.
Proof. unfold ctx_get, getVariable. by intros ->. Qed.

Lemma reads_place h c p :
  reads h c -> carried h = Some p ->
  reads (mkCarry (position h) None (match position h with Some q => Some q | None => last_place h end))
    (copy_variable "current_y" "last_place_y" (copy_variable "current_x" "last_place_x"
       (ctx_set "gripper_closed" "false" (ctx_set "picked_pallet_id" "" c)))).
Proof.
  intros [Hx Hy Hpx Hpy Hh Hn Hg] Hp. set (c1 := ctx_set "gripper_closed" _ _).
  assert (Hx1 : coordinate "current_x" (fst <$> position h) c1) by (unfold coordinate, c1; by ctx).
  assert (Hy1 : coordinate "current_y" (snd <$> position h) c1) by (unfold coordinate, c1; by ctx).
  assert (Hpx1 : coordinate "last_place_x" (fst <$> last_place h) c1) by (unfold coordinate, c1; by ctx).
  assert (Hpy1 : coordinate "last_place_y" (snd <$> last_place h) c1) by (unfold coordinate, c1; by ctx).
  pose proof (copy_variable_eq _ _ _ _ _ Hx1 Hpx1) as Hx2.
  set (c2 := copy_variable "current_x" "last_place_x" c1) in *.
  assert (Hy2 : coordinate "current_y" (snd <$> position h) c2)
    by (unfold coordinate, c2; by rewrite copy_variable_ne by done).
  assert (Hpy2 : coordinate "last_place_y" (snd <$> last_place h) c2)
    by (unfold coordinate, c2; by rewrite copy_variable_ne by done).
  pose proof (copy_variable_eq _ _ _ _ _ Hy2 Hpy2) as Hy3.
  assert (Hget : forall k, k <> "last_place_x" -> k <> "last_place_y" ->
            ctx_get k (copy_variable "current_y" "last_place_y" c2) = ctx_get k c1).
  { intros k ? ?. apply ctx_get_variables. unfold c2. by rewrite !copy_variable_ne by done. }
  split; simpl.
  - unfold coordinate, c2. by rewrite !copy_variable_ne by done.
  - unfold coordinate, c2. by rewrite !copy_variable_ne by done.
  - unfold coordinate. rewrite copy_variable_ne by done. rewrite Hx2. by destruct (position h) as [[]|].
  - rewrite <- Hy3 || unfold coordinate. rewrite Hy3. by destruct (position h) as [[]|].
  - unfold holding. rewrite Hget by done. unfold c1. by ctx.
  - done.
  - rewrite Hget by done. unfold c1. ctx. split; [done|]. by intros [? ?].
Qed.

(** *** Every run *)

Lemma move_loop_keeps fuel i cancel a :
  sa_status (move_loop fuel i cancel a).2 = sa_status a /\ sa_kind (move_loop fuel i cancel a).2 = sa_kind a.
Proof.
  revert i a. induction fuel as [|fuel IH]; intros i a; simpl; [done|].
  destruct (polled cancel i a); [done|]. by destruct (IH (S i) (set_progress (10 * Z.of_nat i) a)).
Qed.

(** An execution changes the context only when it completes, and then as its
    effect says. *)
Definition has_effect (a : ShuttleAction) (c : ExecutionContext) (h : Carry) (r : option string * ShuttleAction * ExecutionContext) :
    Prop :=
  let '(err, a', c') := r in
  sa_kind a' = sa_kind a /\
  if bool_decide (err = None /\ sa_status a' = ACT_COMPLETED)
  then sa_status a = ACT_PENDING /\ exists h', carry_step h (effect_of a c) = Some h' /\ reads h' c'
  else c' = c /\ (sa_status a = ACT_COMPLETED <-> sa_status a' = ACT_COMPLETED).

Lemma throws_effect a a' c h e :
  sa_kind a' = sa_kind a -> (sa_status a = ACT_COMPLETED <-> sa_status a' = ACT_COMPLETED) ->
  has_effect a c h (Some e, a', c).
Proof. intros Hk Hs. split; [done|]. by rewrite bool_decide_eq_false_2 by (by intros [? _]). Qed.

Lemma cancelled_effect a a' c h :
  sa_kind a' = sa_kind a -> sa_status a = ACT_PENDING -> has_effect a c h (None, set_status ACT_CANCELLED a', c).
Proof. intros Hk Hs. split; [done|]. rewrite bool_decide_eq_false_2 by (by intros [_ ?]). by rewrite Hs. Qed.

Lemma completed_effect a a' c c' h h' :
  sa_kind a' = sa_kind a -> sa_status a = ACT_PENDING -> carry_step h (effect_of a c) = Some h' -> reads h' c' ->
  has_effect a c h (None, set_status ACT_COMPLETED a', c').
Proof. intros Hk Hs Hc Hr. split; [done|]. rewrite bool_decide_eq_true_2 by done. eauto. Qed.

Lemma move_effect cancel a c h x y th :
  reads h c -> sa_status a = ACT_PENDING -> sa_kind a = MoveToPosition x y th ->
  has_effect a c h (move_execute cancel x y th a c).
Proof.
  intros Hr Hp Ek. unfold move_execute.
  do 3 (destruct (read_coordinate _ c); [apply throws_effect; [done|by rewrite Hp]|]).
  pose proof (move_loop_keeps 11 0 cancel (set_progress 0 (set_status ACT_RUNNING a))) as [_ Hk1].
  destruct (move_loop 11 0 cancel _) as [i a1]. simpl in Hk1.
  destruct (polled cancel i a1); [by apply cancelled_effect|].
  eapply completed_effect; [done..| |by apply reads_arrive]. unfold effect_of. by rewrite Ek.
Qed.

(** A variable that is missing reads as the empty string. *)
Lemma has_held c : negb (bool_decide (holding c = "")) = true -> ctx_has "picked_pallet_id" c = true.
Proof. unfold ctx_has, holding, ctx_get, getVariable. by destruct (variables_ c !! "picked_pallet_id"). Qed.

Lemma pick_effect cancel a c h p :
  reads h c -> sa_status a = ACT_PENDING -> sa_kind a = PickPallet p -> p <> "" ->
  has_effect a c h (pick_execute cancel p a c).
Proof.
  intros Hr Hp Ek Hne. unfold pick_execute. pose proof (rd_held _ _ Hr) as Hh.
  destruct (_ && _) eqn:Hhas; [by apply throws_effect|].
  assert (Hnone : carried h = None).
  { destruct (carried h) as [q|] eqn:E; [|done]. pose proof (rd_named _ _ Hr) as Hq. simpl in Hh.
    assert (Hq' : negb (bool_decide (holding c = "")) = true) by (rewrite bool_decide_eq_false_2 by congruence; done).
    by rewrite (has_held c Hq'), Hq' in Hhas. }
  destruct (polled cancel 0 _); [by apply cancelled_effect|].
  destruct (polled cancel 1 _); [by apply cancelled_effect|].
  eapply completed_effect; [done..| |by apply reads_pick]. unfold effect_of. rewrite Ek. simpl.
  by rewrite Hnone, bool_decide_eq_false_2.
Qed.

Lemma place_effect cancel a c h :
  reads h c -> sa_status a = ACT_PENDING -> sa_kind a = PlacePallet -> has_effect a c h (place_execute cancel a c).
Proof.
  intros Hr Hp Ek. unfold place_execute. pose proof (rd_held _ _ Hr) as Hh.
  destruct (_ || _) eqn:Hhas; [by apply throws_effect|]. apply orb_false_iff in Hhas as [_ Hhas].
  apply bool_decide_eq_false in Hhas. destruct (carried h) as [p|] eqn:E; [|done]. simpl in Hh.
  destruct (polled cancel 0 _); [by apply cancelled_effect|].
  destruct (polled cancel 1 _); [by apply cancelled_effect|].
  eapply completed_effect; [done..| |by eapply reads_place]. unfold effect_of. rewrite Ek. simpl.
  by rewrite Hh, E, bool_decide_eq_true_2.
Qed.

Lemma execute_effect cancel a c h :
  reads h c -> sa_kind a <> PickPallet "" -> has_effect a c h (action_execute cancel a c).
Proof.
  intros Hr Hk. unfold action_execute. case_bool_decide as Hp; cbn [negb]; [|by apply throws_effect].
  destruct (sa_kind a) eqn:Ek; [by apply move_effect|apply pick_effect; congruence|by apply place_effect].
Qed.

Lemma execute_ok i cancel w a :
  shuttle_ok w -> actions w !! i = Some a -> shuttle_ok (shuttle_exec (Execute i cancel) w).
Proof.
  intros [(h & Hh & Hr) Honce Hdone Hnamed] Ha. cbn [shuttle_exec]. rewrite Ha.
  pose proof (execute_effect cancel a (context w) h Hr (Hnamed _ _ Ha)) as He.
  destruct (action_execute cancel a (context w)) as [[err a'] c']. destruct He as [Hk He].
  assert (Hi : (i < length (actions w))%nat) by by eapply lookup_lt_Some.
  assert (Hnamed' : forall j b, <[i := a']> (actions w) !! j = Some b -> sa_kind b <> PickPallet "").
  { intros j b [(<- & <- & _)|[_ Hb]]%list_lookup_insert_Some; [rewrite Hk|]; by eapply Hnamed. }
  case_bool_decide as E.
  - destruct He as [Hp (h' & Hs & Hr')]. assert (Hnew : i ∉ (completed w).*1).
    { intros (b & Hb & Hst)%Hdone. simplify_eq. congruence. }
    split; simpl.
    + exists h'. rewrite fmap_app. cbn [fmap list_fmap snd]. rewrite replay_snoc, Hh. done.
    + rewrite fmap_app. apply NoDup_app. repeat split; [done|set_solver|apply NoDup_singleton].
    + intros j. rewrite fmap_app, elem_of_app, Hdone. simpl. rewrite list_elem_of_singleton. split.
      * intros [(b & Hb & Hst)| ->]; [|exists a'; rewrite list_lookup_insert_eq by done; naive_solver ].
        exists b. rewrite list_lookup_insert_ne; [done|]. intros ->. apply Hnew, Hdone. eauto.
      * intros (b & Hb & Hst). apply list_lookup_insert_Some in Hb as [(<- & <- & _)|[_ Hb]]; [by right|left; eauto].
    + done.
  - destruct He as [-> Hst]. split; simpl; [eauto|done| |done].
    intros j. rewrite Hdone. split; intros (b & Hb & Hbs).
    + destruct (decide (i = j)) as [->|]; [|exists b; by rewrite list_lookup_insert_ne].
      simplify_eq. exists a'. rewrite list_lookup_insert_eq by done. split; [done|by apply Hst].
    + apply list_lookup_insert_Some in Hb as [(<- & <- & _)|[_ Hb]]; [exists a; split; [done|by apply Hst]|eauto].
Qed.

Lemma shuttle_exec_ok o w : shuttle_ok w -> shuttle_ok (shuttle_exec o w).
Proof.
  intros Hw. destruct o as [id k|i|i cancel].
  - simpl. destruct (newAction id k) as [a|] eqn:Ea; [|done]. destruct Hw as [Hr Honce Hdone Hnamed].
    assert (Hk : sa_kind a = k /\ sa_status a = ACT_PENDING /\ k <> PickPallet "")
      by (unfold newAction in Ea; destruct k as [| [|]|]; simplify_eq/=; done).
    destruct Hk as (Hk & Hs & Hne). split; simpl; [done|done| |].
    + intros j. rewrite Hdone. split; intros (b & Hb & Hbs).
      * exists b. split; [by apply lookup_app_l_Some|done].
      * apply lookup_app_Some in Hb as [Hb|[_ Hb]]; [eauto|].
        apply list_lookup_singleton_Some in Hb as [_ <-]. congruence.
    + intros j b [Hb|[_ Hb]]%lookup_app_Some; [by eapply Hnamed|].
      apply list_lookup_singleton_Some in Hb as [_ <-]. congruence.
  - destruct Hw as [Hr Honce Hdone Hnamed].
    assert (Hl : forall j, alter action_cancel i (actions w) !! j = None /\ actions w !! j = None \/
        exists b b', alter action_cancel i (actions w) !! j = Some b' /\ actions w !! j = Some b /\
          sa_status b' = sa_status b /\ sa_kind b' = sa_kind b).
    { intros j. destruct (decide (i = j)) as [->|]; [rewrite list_lookup_alter_eq|rewrite list_lookup_alter_ne by done];
        destruct (actions w !! j) as [b|]; simpl; eauto 10. }
    split; simpl; [done|done| |].
    + intros j. rewrite Hdone. destruct (Hl j) as [[E1 E2]|(b & b' & E1 & E2 & Es & _)]; rewrite E1, E2; [done|].
      split; intros (x & Hx & Hxs); simplify_eq; eexists; split; try done; congruence.
    + intros j b' Hb'. destruct (Hl j) as [[E1 E2]|(b & b'' & E1 & E2 & _ & Ek)]; [congruence|].
      simplify_eq. rewrite Ek. by eapply Hnamed.
  - destruct (actions w !! i) as [a|] eqn:Ha; [by eapply execute_ok|]. simpl. by rewrite Ha.
Qed.

Lemma reads_new : reads (mkCarry None None None) newContext.
Proof. split; try done. simpl. split; [done|]. by intros []. Qed.

Lemma new_shuttle_ok : shuttle_ok newShuttle.
Proof.
  split; simpl.
  - exists (mkCarry None None None). split; [done|apply reads_new].
  - constructor.
  - intros i. split; [intros H; by apply elem_of_nil in H|]. by intros (a & ? & _).
  - done.
Qed.

(** C18: Whatever actions are created, cancelled and executed, in whatever order
    and however often, the completed executions make physical sense: a pallet is
    only picked with an empty gripper and only the carried pallet is placed, each
    action completes at most once, and the variables of the context agree: what
    is held, whether the gripper is closed, where the shuttle is, and where it was
    when it last placed a pallet. *)
Theorem gripper_picks_and_places_alternate os :
  let w := shuttle_run os newShuttle in
  NoDup (completed w).*1 /\
  exists h, replay (completed w).*2 = Some h /\ reads h (context w).
Proof.
  intros w. assert (Hw : shuttle_ok w).
  { apply (foldl_invariant shuttle_ok); [apply new_shuttle_ok|]. intros w' o. apply shuttle_exec_ok. }
  destruct Hw as [Hr Honce _ _]. done.
Qed.

(** *** The transport *)

Definition transport_script (px py qx qy : Z) (pallet : string) : list ShuttleStep :=
  [Create "move_to_pickup" (MoveToPosition px py 0); Create "pick_pallet" (PickPallet pallet);
   Create "move_to_place" (MoveToPosition qx qy 0); Create "place_pallet" PlacePallet] ++
  [Execute 0 None; Execute 1 None; Execute 2 None; Execute 3 None].

Definition fresh (id : string) (k : ActionKind) : ShuttleAction := mkAction id k ACT_PENDING 0 false.
Definition finished (id : string) (k : ActionKind) : ShuttleAction := mkAction id k ACT_COMPLETED 100 false.

Definition readable (c : ExecutionContext) : Prop :=
  read_coordinate "current_x" c = None /\ read_coordinate "current_y" c = None /\
  read_coordinate "current_theta" c = None.

Lemma move_runs id x y th c :
  readable c -> action_execute None (fresh id (MoveToPosition x y th)) c =
    (None, finished id (MoveToPosition x y th), arrive x y th c).
Proof.
  intros (H1 & H2 & H3). unfold action_execute, move_execute. cbn [sa_kind fresh sa_status].
  by rewrite H1, H2, H3.
Qed.

Lemma pick_runs id p c :
  holding c = "" -> action_execute None (fresh id (PickPallet p)) c =
    (None, finished id (PickPallet p), ctx_set "gripper_closed" "true" (ctx_set "picked_pallet_id" p c)).
Proof. intros H. unfold action_execute, pick_execute. cbn [sa_kind fresh sa_status]. rewrite H. by destruct (ctx_has _ c). Qed.

Lemma place_runs id c :
  holding c <> "" -> action_execute None (fresh id PlacePallet) c =
    (None, finished id PlacePallet, copy_variable "current_y" "last_place_y" (copy_variable "current_x" "last_place_x"
       (ctx_set "gripper_closed" "false" (ctx_set "picked_pallet_id" "" c)))).
Proof.
  intros H. unfold action_execute, place_execute. cbn [sa_kind fresh sa_status].
  rewrite (has_held c) by (by rewrite bool_decide_eq_false_2). by rewrite (bool_decide_eq_false_2 (holding c = "")) by done.
Qed.

Lemma exec_completes i w a a' c' :
  actions w !! i = Some a -> action_execute None a (context w) = (None, a', c') -> sa_status a' = ACT_COMPLETED ->
  shuttle_exec (Execute i None) w =
  mkWorld (<[i := a']> (actions w)) c' (completed w ++ [(i, effect_of a (context w))]).
Proof. intros Ha He Hs. simpl. rewrite Ha, He, bool_decide_eq_true_2 by done. done. Qed.

Lemma readable_arrive x y th c :
  (forall b, exists d, stod (double_text b) = Ok d) -> readable (arrive x y th c).
Proof.
  intros Hd. unfold readable, read_coordinate, ctx_has, arrive. ctx.
  destruct (Hd x) as [? ->], (Hd y) as [? ->], (Hd th) as [? ->]. done.
Qed.

Lemma readable_new : readable newContext.
Proof. by repeat split. Qed.

Lemma readable_other k v c :
  k <> "current_x" -> k <> "current_y" -> k <> "current_theta" -> readable c -> readable (ctx_set k v c).
Proof.
  intros ? ? ? (H1 & H2 & H3). unfold readable, read_coordinate, ctx_has in *.
  by rewrite !ctx_set_ne, !ctx_get_set_ne by done.
Qed.

(** The four actions of the transport sequence, run in its order and not
    cancelled, carry the pallet: each completes, the pallet is picked at the
    pickup position and placed at the place position, and the gripper is empty
    and open afterwards.  (The texts [std::to_string] gives are numbers for
    [std::stod].) *)
Theorem transport_carries_the_pallet px py qx qy pallet :
  pallet <> "" -> (forall b, exists d, stod (double_text b) = Ok d) ->
  let w := shuttle_run (transport_script px py qx qy pallet) newShuttle in
  (completed w).*2 = [Moved px py; Picked pallet; Moved qx qy; Placed pallet] /\
  map sa_status (actions w) = [ACT_COMPLETED; ACT_COMPLETED; ACT_COMPLETED; ACT_COMPLETED] /\
  holding (context w) = "" /\ ctx_get "gripper_closed" (context w) = "false" /\
  ctx_get "last_place_x" (context w) = double_text qx /\ ctx_get "last_place_y" (context w) = double_text qy.
Proof.
  intros Hp Hd. set (k1 := MoveToPosition px py 0). set (k3 := MoveToPosition qx qy 0).
  set (c1 := arrive px py 0 newContext).
  set (c2 := ctx_set "gripper_closed" "true" (ctx_set "picked_pallet_id" pallet c1)).
  set (c3 := arrive qx qy 0 c2).
  set (w0 := mkWorld [fresh "move_to_pickup" k1; fresh "pick_pallet" (PickPallet pallet);
                      fresh "move_to_place" k3; fresh "place_pallet" PlacePallet] newContext []).
  assert (Hw0 : shuttle_run (transport_script px py qx qy pallet) newShuttle =
                shuttle_run [Execute 0 None; Execute 1 None; Execute 2 None; Execute 3 None] w0).
  { unfold shuttle_run, transport_script. rewrite foldl_app. f_equal. by destruct pallet. }
  assert (Hc2 : holding c2 = pallet) by (unfold holding, c2; by ctx).
  assert (Hc3 : holding c3 = pallet) by (unfold holding, c3, arrive; ctx; done).
  rewrite Hw0. cbn [shuttle_run foldl].
  rewrite (exec_completes 0 w0 _ _ _ eq_refl (move_runs _ _ _ _ _ readable_new) eq_refl).
  erewrite (exec_completes 1); [|reflexivity|apply pick_runs; done|done].
  erewrite (exec_completes 2); [|reflexivity|apply move_runs, readable_other, readable_other, readable_arrive; done|done].
  erewrite (exec_completes 3); [|reflexivity|apply place_runs; change (holding c3 <> ""); congruence|done].
  cbn [completed context actions]. fold c1 c2 c3. split; [|split; [done|]].
  - unfold effect_of. cbn [sa_kind fresh k1 k3 fmap list_fmap snd app]. by rewrite Hc3.
  - pose proof (reads_place _ c3 pallet (reads_arrive _ _ qx qy 0 (reads_pick _ _ pallet
      (reads_arrive _ _ px py 0 reads_new) Hp)) eq_refl) as [_ _ Hpx Hpy Hh _ _]. unfold ctx_get at 2 3, getVariable.
    rewrite Hpx, Hpy, Hh. done.
Qed.
End Shuttle.

(** ** Example: the sequence engine runs the transport sequence *)

Module ShuttleExamples.

(** Every text is a number for this [stod]. *)
#[export] Instance any_doubles : Doubles := {|
  double := unit; is_number _ := true; stod _ := Ok tt; double_text b := pretty b; float_text b := pretty b;
  near _ _ := true; far _ _ := false; dlt _ _ := false; dle _ _ := true
|}.

(** An action object as the executor sees it. *)
Record Handle := mkHandle { h_id : string; h_type : string; h_index : nat }.

#[export] Instance shuttle_actions : IAction Handle ShuttleWorld := {|
  act_id := h_id;
  act_type := h_type;
  act_execute h w :=
    match actions w !! h_index h with
    | None => (w, Some "gone")
    | Some a => (shuttle_exec (Execute (h_index h) None) w, (action_execute None a (context w)).1.1)
    end;
  act_cancel h w := shuttle_exec (Cancel (h_index h)) w;
  act_status h w := match actions w !! h_index h with Some a => sa_status a | None => ACT_FAILED end;
  act_progress h w := match actions w !! h_index h with Some a => sa_progress a | None => 0 end
|}.

#[export] Instance shuttle_context : HasContext ShuttleWorld := {|
  ctx_of := context; ctx_put c w := mkWorld (actions w) c (completed w)
|}.

(** The bit patterns of the coordinates of the example. *)
Definition bits_of (text : string) : Z :=
  if bool_decide (text = "1") then 4607182418800017408 else if bool_decide (text = "2") then 4611686018427387904 else 0.

Definition make (k : gmap string string -> ActionKind) (type id : string) (ps : gmap string string) (w : ShuttleWorld) :
    result string Handle * ShuttleWorld :=
  match newAction id (k ps) with
  | Throw e => (Throw e, w)
  | Ok a => (Ok (mkHandle id type (length (actions w))), mkWorld (actions w ++ [a]) (context w) (completed w))
  end.

Definition param (k : string) (ps : gmap string string) : string := default "" (ps !! k).
Definition factories : gmap string (string -> gmap string string -> ShuttleWorld -> result string Handle * ShuttleWorld) :=
  <["MoveToPosition" := make (λ ps, MoveToPosition (bits_of (param "target_x" ps)) (bits_of (param "target_y" ps)) 0)
                          "MoveToPosition"]>
  (<["PickPallet" := make (λ ps, PickPallet (param "pallet_id" ps)) "PickPallet"]>
  {["PlacePallet" := make (λ _, PlacePallet) "PlacePallet"]}).

Abbreviation shuttle_engine :=
  (SequenceEngine (A := Handle) (W := ShuttleWorld) (B := list ActionEvent) (V := list SequenceEvent)).

Definition engine : shuttle_engine :=
  mkEngine factories (newActionExecutor (Some []) newShuttle) (Some []) ∅ [] 0.

(** 1.5 and 2.5, in bits. *)
Definition one_and_a_half : Z := 4609434218613702656.
Definition two_and_a_half : Z := 4612811918334230528.
End ShuttleExamples.
Import ShuttleExamples.

(** From (1.5, 2.5) to (2.5, 1.5): the engine completes the four steps, but the
    steps carry the coordinates cut to integers, so the pallet is taken from
    (1, 2) to (2, 1). *)
Example engine_transports_pallet :
  match seq_execute false (λ n, 1000000 * Z.of_nat n)
          (buildDefinition one_and_a_half two_and_a_half two_and_a_half one_and_a_half "P7") engine with
  | Returns (Some (r, executed, e)) =>
    sr_status r = SEQ_COMPLETED /\
    (completed (seq_world e)).*2 = [Moved (bits_of "1") (bits_of "2"); Picked "P7"; Moved (bits_of "2") (bits_of "1"); Placed "P7"]
  | _ => False
  end.
Proof. vm_compute. by split. Qed.

Lemma transport_carries_the_pallet_witness :
  (completed (shuttle_run (transport_script 1 2 3 4 "P7") newShuttle)).*2 =
    [Moved 1 2; Picked "P7"; Moved 3 4; Placed "P7"].
Proof. apply (transport_carries_the_pallet 1 2 3 4 "P7"); [discriminate|intros b; exists tt; reflexivity]. Defined.
