(* ===== verification/BagIndex.v ===== *)
(** * The index and the footer of a bag file
      (src/core/logging/util/Indexer, dto/IndexEntry.h, dto/BagFooter.h)

    A bag file is the lines of its messages, an index of 16 bytes per entry, and
    a footer of 64 bytes.  A file is the list of its bytes. *)

From S2P Require Import Prelude.

Abbreviation bytes := (list Z).

(** ** Entries and footer *)

Record IndexEntry := mkIndexEntry { ie_timestamp_ns : Z; ie_file_offset : Z }.

Definition entry_lt (a b : IndexEntry) : bool := ie_timestamp_ns a <? ie_timestamp_ns b.

Definition entry_bytes (e : IndexEntry) : bytes := le_bytes 8 (ie_timestamp_ns e) ++ le_bytes 8 (ie_file_offset e).
Definition entry_of_bytes (bs : bytes) : IndexEntry := mkIndexEntry (le_val (take 8 bs)) (le_val (take 8 (drop 8 bs))).

Record BagFooter := mkFooter {
  magic : bytes;
  version : Z;
  data_size : Z;
  index_offset : Z;
  index_count : Z;
  checksum : Z;
  reserved : bytes
}.

(** "MXRCBAG" *)
Definition MAGIC : bytes := [77; 88; 82; 67; 66; 65; 71].

Definition newFooter : BagFooter := mkFooter (MAGIC ++ [0]) 1 0 0 0 0 (replicate 24 0).
Definition createInvalid : BagFooter := mkFooter (replicate 8 0) 0 0 0 0 0 (replicate 24 0).
Definition setDataSize (n : Z) (f : BagFooter) : BagFooter :=
  mkFooter (magic f) (version f) n (index_offset f) (index_count f) (checksum f) (reserved f).
Definition setIndexInfo (offset count : Z) (f : BagFooter) : BagFooter :=
  mkFooter (magic f) (version f) (data_size f) offset count (checksum f) (reserved f).
Definition setChecksum (crc : Z) (f : BagFooter) : BagFooter :=
  mkFooter (magic f) (version f) (data_size f) (index_offset f) (index_count f) crc (reserved f).

(** [strncmp] of seven characters. *)
Definition footer_isValid (f : BagFooter) : bool := bool_decide (take 7 (magic f) = MAGIC).
Definition isSupportedVersion (f : BagFooter) : bool := version f =? 1.

Definition footer_bytes (f : BagFooter) : bytes :=
  magic f ++ le_bytes 4 (version f) ++ le_bytes 8 (data_size f) ++ le_bytes 8 (index_offset f) ++
  le_bytes 8 (index_count f) ++ le_bytes 4 (checksum f) ++ reserved f.
Definition footer_of_bytes (bs : bytes) : BagFooter :=
  mkFooter (take 8 bs) (le_val (take 4 (drop 8 bs))) (le_val (take 8 (drop 12 bs))) (le_val (take 8 (drop 20 bs)))
    (le_val (take 8 (drop 28 bs))) (le_val (take 4 (drop 36 bs))) (take 24 (drop 40 bs)).

Definition sizeof_IndexEntry : nat := 16.
Definition sizeof_BagFooter : nat := 64.

(** ** Indexer *)

Abbreviation Indexer := (list IndexEntry).

Definition addEntry (timestamp_ns file_offset : Z) (ix : Indexer) : Indexer :=
  ix ++ [mkIndexEntry timestamp_ns file_offset].

(** An output stream that appends: its bytes, and how many more the disk takes;
    what does not fit is lost and the stream is no longer good (nor is one that is
    not open). *)
Record OStream := mkOStream { os_bytes : bytes; os_room : nat; os_good : bool }.

Definition os_write (bs : bytes) (o : OStream) : OStream :=
  if negb (os_good o) then o
  else if (length bs <=? os_room o)%nat
  then mkOStream (os_bytes o ++ bs) (os_room o - length bs) true
  else mkOStream (os_bytes o ++ take (os_room o) bs) 0 false.

Definition writeToFile (dataSize : Z) (ix : Indexer) (o : OStream) : bool * OStream :=
  let indexOffset := Z.of_nat (length (os_bytes o)) in
  let o := foldl (λ o e, os_write (entry_bytes e) o) o ix in
  if negb (os_good o) then (false, o)
  else
    let footer := setChecksum 0 (setIndexInfo indexOffset (Z.of_nat (length ix)) (setDataSize dataSize newFooter)) in
    let o := os_write (footer_bytes footer) o in
    (os_good o, o).

(** The loop over the entries: [None] when the file ends too early. *)
Fixpoint read_entries (n : nat) (bs : bytes) : option Indexer :=
  match n with
  | O => Some []
  | S n =>
    if (length bs <? sizeof_IndexEntry)%nat then None
    else (entry_of_bytes (take sizeof_IndexEntry bs) ::.) <$> read_entries n (drop sizeof_IndexEntry bs)
  end.

(** The largest number of entries a vector can reserve; the allocator may refuse
    less ([limit]). *)
Definition max_entries : Z := 2 ^ 59 - 1.

(** A file that cannot be opened is [None].  [entries_.reserve] throws when the
    count of the footer is too large. *)
Definition readFromFile (limit : Z) (file : option bytes) (ix : Indexer) : result string (BagFooter * Indexer) :=
  match file with
  | None => Ok (createInvalid, ix)
  | Some bs =>
    if (length bs <? sizeof_BagFooter)%nat then Ok (createInvalid, ix)
    else
      let footer := footer_of_bytes (drop (length bs - sizeof_BagFooter) bs) in
      if negb (footer_isValid footer) then Ok (createInvalid, ix)
      else if negb (isSupportedVersion footer) then Ok (createInvalid, ix)
      else if index_count footer =? 0 then Ok (footer, ix)
      else if Z.min limit max_entries <? index_count footer then Throw "vector::reserve"
      else
        (* seekg to an offset of 2^63 or more fails, and then every read *)
        let from := if index_offset footer <? 2 ^ 63 then drop (Z.to_nat (index_offset footer)) bs else [] in
        match read_entries (Z.to_nat (index_count footer)) from with
        | Some ix => Ok (footer, ix)
        | None => Ok (createInvalid, [])
        end
  end.

(** [std::lower_bound] as the library does it: the range is halved. *)
Fixpoint lower_bound_loop (fuel : nat) (x : IndexEntry) (ix : Indexer) (first len : nat) : nat :=
  match fuel with
  | O => first
  | S fuel =>
    if (len =? 0)%nat then first
    else
      let half := Nat.div2 len in
      match ix !! (first + half)%nat with
      | Some e => if entry_lt e x then lower_bound_loop fuel x ix (first + half + 1) (len - half - 1)
                  else lower_bound_loop fuel x ix first half
      | None => first
      end
  end.
Definition lower_bound (x : IndexEntry) (ix : Indexer) : nat := lower_bound_loop (length ix) x ix 0 (length ix).

(** The entry, if there is any. *)
Definition findByTimestamp (timestamp_ns : Z) (ix : Indexer) : option IndexEntry :=
  match ix with
  | [] => None
  | _ =>
    let it := lower_bound (mkIndexEntry timestamp_ns 0) ix in
    if (it =? 0)%nat then ix !! it
    else
      match ix !! it with
      | Some e => if ie_timestamp_ns e =? timestamp_ns then Some e else ix !! (it - 1)%nat
      | None => ix !! (it - 1)%nat
      end
  end.

(** ** CRC32 *)

Definition poly : Z := 3988292384.   (* 0xEDB88320 *)
Definition crc_bit (crc : Z) : Z := if Z.testbit crc 0 then Z.lxor (Z.shiftr crc 1) poly else Z.shiftr crc 1.
Definition crc_entry (i : Z) : Z := Nat.iter 8 crc_bit i.
Definition crc_table : list Z := map crc_entry (seqZ 0 256).

Definition crc_byte (crc byte : Z) : Z :=
  Z.lxor (Z.shiftr crc 8) (default 0 (crc_table !! Z.to_nat (Z.land (Z.lxor crc byte) 255))).
Definition crc32 (data : bytes) : Z := Z.lxor (foldl crc_byte (2 ^ 32 - 1) data) (2 ^ 32 - 1).

Definition calculateChecksum (file : option bytes) (dataSize indexSize : Z) : Z :=
  match file with
  | None => 0
  | Some bs =>
    let total := Z.to_nat (u64 (dataSize + indexSize)) in
    if (length bs <? total)%nat then 0 else crc32 (take total bs)
  end.

(** ** What is written can be read back *)

Definition entry_ok (e : IndexEntry) : Prop := in_u64 (ie_timestamp_ns e) /\ in_u64 (ie_file_offset e).

Lemma le_val_u64 v : in_u64 v -> le_val (le_bytes 8 v) = v.
Proof. intros H. rewrite le_val_bytes. apply Z.mod_small, H. Qed.

Lemma entry_bytes_length e : length (entry_bytes e) = 16%nat.
Proof. unfold entry_bytes. by rewrite length_app, !le_bytes_length. Qed.

(** The field after [n] bytes of a concatenation. *)
Lemma drop_prefix (l k : bytes) n : length l = n -> drop n (l ++ k) = k.
Proof. intros <-. apply drop_app_length. Qed.
Lemma take_prefix (l k : bytes) n : length l = n -> take n (l ++ k) = l.
Proof. intros <-. apply take_app_length. Qed.

Lemma entry_roundtrip e : entry_ok e -> entry_of_bytes (entry_bytes e) = e.
Proof.
  intros [H1 H2]. unfold entry_of_bytes, entry_bytes.
  rewrite take_prefix, drop_prefix by apply le_bytes_length.
  rewrite take_ge by (by rewrite le_bytes_length). rewrite !le_val_u64 by done. by destruct e.
Qed.

Record footer_ok (f : BagFooter) : Prop := {
  fo_magic : length (magic f) = 8%nat;
  fo_version : 0 <= version f < 2 ^ 32;
  fo_data : in_u64 (data_size f);
  fo_offset : in_u64 (index_offset f);
  fo_count : in_u64 (index_count f);
  fo_checksum : 0 <= checksum f < 2 ^ 32;
  fo_reserved : length (reserved f) = 24%nat
}.

Lemma footer_bytes_length f : footer_ok f -> length (footer_bytes f) = 64%nat.
Proof. intros []. unfold footer_bytes. rewrite !length_app, !le_bytes_length. lia. Qed.

Lemma footer_roundtrip f : footer_ok f -> footer_of_bytes (footer_bytes f) = f.
Proof.
  intros [Hm Hv Hd Ho Hc Hk Hr]. unfold footer_of_bytes, footer_bytes.
  rewrite take_prefix by done. rewrite (drop_prefix (magic f)) by done.
  rewrite (take_prefix (le_bytes 4 (version f))) by apply le_bytes_length.
  assert (D12 : forall k, drop 12 (magic f ++ le_bytes 4 (version f) ++ k) = k).
  { intros k. rewrite app_assoc. apply drop_prefix. rewrite length_app, le_bytes_length. lia. }
  assert (D20 : forall k, drop 20 (magic f ++ le_bytes 4 (version f) ++ le_bytes 8 (data_size f) ++ k) = k).
  { intros k. change 20%nat with (12 + 8)%nat. rewrite <- drop_drop, D12. apply drop_prefix, le_bytes_length. }
  assert (D28 : forall k, drop 28 (magic f ++ le_bytes 4 (version f) ++ le_bytes 8 (data_size f) ++
            le_bytes 8 (index_offset f) ++ k) = k).
  { intros k. change 28%nat with (20 + 8)%nat. rewrite <- drop_drop, D20. apply drop_prefix, le_bytes_length. }
  assert (D36 : forall k, drop 36 (magic f ++ le_bytes 4 (version f) ++ le_bytes 8 (data_size f) ++
            le_bytes 8 (index_offset f) ++ le_bytes 8 (index_count f) ++ k) = k).
  { intros k. change 36%nat with (28 + 8)%nat. rewrite <- drop_drop, D28. apply drop_prefix, le_bytes_length. }
  rewrite D12, D20, D28, D36. change 40%nat with (36 + 4)%nat. rewrite <- drop_drop, D36.
  rewrite (drop_prefix (le_bytes 4 (checksum f))) by apply le_bytes_length.
  rewrite !take_prefix by apply le_bytes_length. rewrite take_ge by lia. rewrite !le_val_u64 by done.
  rewrite !le_val_bytes. change (2 ^ (8 * Z.of_nat 4)) with (2 ^ 32). rewrite !Z.mod_small by done. by destruct f.
Qed.

Definition index_bytes (ix : Indexer) : bytes := flat_map entry_bytes ix.

Lemma index_bytes_length ix : length (index_bytes ix) = (16 * length ix)%nat.
Proof.
  induction ix as [|e ix IH]; [done|]. cbn [index_bytes flat_map length]. rewrite length_app, entry_bytes_length.
  unfold index_bytes in IH. rewrite IH. lia.
Qed.

Lemma read_entries_index ix rest :
  Forall entry_ok ix -> read_entries (length ix) (index_bytes ix ++ rest) = Some ix.
Proof.
  induction 1 as [|e ix He _ IH]; [done|]. cbn [length read_entries index_bytes flat_map]. fold (index_bytes ix).
  rewrite <- app_assoc.
  rewrite (proj2 (Nat.ltb_ge _ _)) by (rewrite length_app, entry_bytes_length; unfold sizeof_IndexEntry; lia).
  unfold sizeof_IndexEntry. rewrite take_prefix, drop_prefix by apply entry_bytes_length.
  by rewrite entry_roundtrip, IH.
Qed.

(** A stream with enough room takes everything. *)
Lemma os_write_room bs o n :
  os_good o = true -> os_room o = (length bs + n)%nat -> os_write bs o = mkOStream (os_bytes o ++ bs) n true.
Proof.
  intros Hg Hr. unfold os_write. rewrite Hg, Hr, (proj2 (Nat.leb_le _ _)) by lia. simpl. f_equal. lia.
Qed.

Lemma write_entries_room ix o n :
  os_good o = true -> os_room o = (16 * length ix + n)%nat ->
  foldl (λ o e, os_write (entry_bytes e) o) o ix = mkOStream (os_bytes o ++ index_bytes ix) n true.
Proof.
  revert o. induction ix as [|e ix IH]; intros o Hg Hr; simpl in *.
  - unfold index_bytes. simpl. rewrite app_nil_r. destruct o; simpl in *. by f_equal.
  - rewrite (os_write_room _ _ (16 * length ix + n)); [|done|rewrite entry_bytes_length; lia].
    rewrite IH by done. cbn [os_bytes index_bytes flat_map]. by rewrite <- app_assoc.
Qed.

Definition bag_footer (data : bytes) (dataSize : Z) (ix : Indexer) : BagFooter :=
  mkFooter (MAGIC ++ [0]) 1 dataSize (Z.of_nat (length data)) (Z.of_nat (length ix)) 0 (replicate 24 0).

Definition bag_file (data : bytes) (dataSize : Z) (ix : Indexer) : bytes :=
  data ++ index_bytes ix ++ footer_bytes (bag_footer data dataSize ix).

Lemma bag_footer_ok data dataSize ix :
  in_u64 dataSize -> Z.of_nat (length data) < 2 ^ 64 -> Z.of_nat (length ix) < 2 ^ 64 ->
  footer_ok (bag_footer data dataSize ix).
Proof. intros ? ? ?. split; simpl; unfold in_u64 in *; try done; lia. Qed.

Lemma writeToFile_room data dataSize ix n :
  in_u64 dataSize -> Z.of_nat (length data) < 2 ^ 64 -> Z.of_nat (length ix) < 2 ^ 64 ->
  writeToFile dataSize ix (mkOStream data (16 * length ix + 64 + n) true) =
  (true, mkOStream (bag_file data dataSize ix) n true).
Proof.
  intros Hd Hl Hc. unfold writeToFile.
  rewrite (write_entries_room ix _ (64 + n)) by (simpl; lia). cbn [os_good negb os_bytes].
  change (setChecksum 0 _) with (bag_footer data dataSize ix).
  rewrite (os_write_room _ _ n); [|done|cbn [os_room]; by rewrite footer_bytes_length by by apply bag_footer_ok].
  unfold bag_file. by rewrite app_assoc.
Qed.

Lemma read_bag_file data dataSize ix old limit :
  in_u64 dataSize -> Z.of_nat (length data) < 2 ^ 63 -> Z.of_nat (length ix) <= Z.min limit max_entries ->
  Forall entry_ok ix ->
  readFromFile limit (Some (bag_file data dataSize ix)) old =
  Ok (bag_footer data dataSize ix, if bool_decide (ix = []) then old else ix).
Proof.
  intros Hd Hl Hc Hok. unfold max_entries in Hc. unfold readFromFile.
  pose proof (bag_footer_ok data dataSize ix Hd ltac:(lia) ltac:(lia)) as Hf.
  assert (Hlen : length (bag_file data dataSize ix) = (length data + 16 * length ix + 64)%nat).
  { unfold bag_file. rewrite !length_app, index_bytes_length, footer_bytes_length by done. lia. }
  unfold sizeof_BagFooter. rewrite (proj2 (Nat.ltb_ge _ _)) by lia.
  assert (Hdrop : drop (length (bag_file data dataSize ix) - 64) (bag_file data dataSize ix) =
                  footer_bytes (bag_footer data dataSize ix)).
  { unfold bag_file at 2. rewrite app_assoc. apply drop_prefix.
    rewrite length_app, index_bytes_length. lia. }
  rewrite Hdrop, footer_roundtrip by done. change (footer_isValid _) with true. change (isSupportedVersion _) with true.
  cbn [negb index_count index_offset bag_footer].
  destruct ix as [|e ix]; [done|]. rewrite (bool_decide_eq_false_2 (e :: ix = [])) by done.
  rewrite (proj2 (Z.eqb_neq _ _)) by (simpl; lia). rewrite (proj2 (Z.ltb_ge _ _)) by (unfold max_entries; lia).
  rewrite (proj2 (Z.ltb_lt _ _)) by lia. rewrite !Nat2Z.id. unfold bag_file. rewrite drop_app_length.
  by rewrite read_entries_index.
Qed.

Lemma os_write_bad bs o : os_good o = false -> os_write bs o = o.
Proof. intros Ho. unfold os_write. by rewrite Ho. Qed.

Lemma write_entries_bad ix o : os_good o = false -> foldl (λ o e, os_write (entry_bytes e) o) o ix = o.
Proof. intros Ho. induction ix; simpl; [done|]. by rewrite os_write_bad. Qed.

Lemma write_entries_full ix o :
  os_good o = true -> (os_room o < 16 * length ix)%nat -> os_good (foldl (λ o e, os_write (entry_bytes e) o) o ix) = false.
Proof.
  revert o. induction ix as [|e ix IH]; intros o Hg Hr; simpl in *; [lia|].
  unfold os_write at 2. rewrite Hg, entry_bytes_length. cbn [negb].
  destruct (16 <=? os_room o)%nat eqn:E; [|by rewrite write_entries_bad].
  apply Nat.leb_le in E. apply IH; simpl; [done|lia].
Qed.

Lemma writeToFile_full data dataSize ix room :
  in_u64 dataSize -> Z.of_nat (length data) < 2 ^ 64 -> Z.of_nat (length ix) < 2 ^ 64 ->
  (room < 16 * length ix + 64)%nat -> (writeToFile dataSize ix (mkOStream data room true)).1 = false.
Proof.
  intros Hd Hl Hc Hr. unfold writeToFile. destruct (decide (room < 16 * length ix)%nat) as [Hlt|Hge].
  - by rewrite write_entries_full by (simpl; lia || done).
  - rewrite (write_entries_room ix _ (room - 16 * length ix)) by (simpl; lia). cbn [os_good negb].
    change (setChecksum 0 _) with (bag_footer data dataSize ix). unfold os_write. cbn [os_good negb os_room].
    rewrite footer_bytes_length by (apply bag_footer_ok; done || lia).
    by rewrite (proj2 (Nat.leb_gt _ _)) by lia.
Qed.

(** What [writeToFile] appends to a file of message lines, [readFromFile]
    reads back: with room on the disk the write succeeds, and the file then has a
    valid footer of the supported version whose offset and count delimit the index,
    and exactly the entries that were added, in order.  Without room for all of it
    the write says so. *)
Theorem index_survives_the_file data dataSize ix room limit :
  in_u64 dataSize -> Z.of_nat (length data) < 2 ^ 63 -> Z.of_nat (length ix) <= Z.min limit max_entries ->
  Forall entry_ok ix ->
  let '(ok, o) := writeToFile dataSize ix (mkOStream data room true) in
  ok = bool_decide (16 * length ix + 64 <= room)%nat /\
  (ok = true -> exists f, readFromFile limit (Some (os_bytes o)) [] = Ok (f, ix) /\
     footer_isValid f = true /\ isSupportedVersion f = true /\ data_size f = dataSize /\
     take (Z.to_nat (index_offset f)) (os_bytes o) = data).
Proof.
  intros Hd Hl Hc Hok. unfold max_entries in Hc. destruct (decide (16 * length ix + 64 <= room)%nat) as [Hr|Hr].
  - replace room with (16 * length ix + 64 + (room - (16 * length ix + 64)))%nat by lia.
    rewrite writeToFile_room by (done || lia). rewrite bool_decide_eq_true_2 by lia. split; [done|]. intros _.
    exists (bag_footer data dataSize ix). cbn [os_bytes].
    rewrite read_bag_file by (unfold max_entries; done || lia). split; [by destruct ix|].
    repeat split. cbn [index_offset bag_footer]. rewrite Nat2Z.id. unfold bag_file. apply take_app_length.
  - rewrite bool_decide_eq_false_2 by lia. pose proof (writeToFile_full data dataSize ix room) as Hf.
    destruct (writeToFile _ _ _) as [ok o]. simpl in Hf. rewrite Hf by (done || lia). done.
Qed.

Lemma index_survives_the_file_witness :
  let ix := [mkIndexEntry 5 0; mkIndexEntry 9 4] in
  let '(ok, o) := writeToFile 8 ix (mkOStream [123; 125; 32; 10; 123; 125; 32; 10] 200 true) in
  ok = true /\ exists f, readFromFile 1000 (Some (os_bytes o)) [] = Ok (f, ix).
Proof.
  intros ix. pose proof (index_survives_the_file [123; 125; 32; 10; 123; 125; 32; 10] 8 ix 200 1000) as H.
  destruct (writeToFile 8 ix _) as [ok o]. destruct H as [Hok Hread];
    [split; [discriminate|reflexivity]|reflexivity|discriminate| |].
  - repeat constructor; discriminate.
  - split; [exact Hok|]. destruct (Hread Hok) as (f & Hf & _). exists f. exact Hf.
Defined.

(** ** Searching the index *)

Definition by_time (ix : Indexer) : Prop :=
  forall i j e e', (i <= j)%nat -> ix !! i = Some e -> ix !! j = Some e' -> ie_timestamp_ns e <= ie_timestamp_ns e'.

(** [n] separates the entries before [x] from the others. *)
Definition splits (x : IndexEntry) (ix : Indexer) (n : nat) : Prop :=
  (n <= length ix)%nat /\
  (forall i e, (i < n)%nat -> ix !! i = Some e -> entry_lt e x = true) /\
  (forall i e, (n <= i)%nat -> ix !! i = Some e -> entry_lt e x = false).

Lemma lower_bound_loop_spec fuel x ix first len :
  by_time ix -> (len <= fuel)%nat -> (first + len <= length ix)%nat ->
  (forall i e, (i < first)%nat -> ix !! i = Some e -> entry_lt e x = true) ->
  (forall i e, (first + len <= i)%nat -> ix !! i = Some e -> entry_lt e x = false) ->
  splits x ix (lower_bound_loop fuel x ix first len).
Proof.
  intros Hs. revert first len. induction fuel as [|fuel IH]; intros first len Hf Hl Hlo Hhi; simpl.
  { replace (first + len)%nat with first in Hhi by lia. by split; [lia|]. }
  destruct (Nat.eqb_spec len 0) as [->|Hne].
  { replace (first + 0)%nat with first in Hhi by lia. by split; [lia|]. }
  assert (Hd : (Nat.div2 len < len)%nat) by (apply Nat.lt_div2; lia).
  revert Hd. generalize (Nat.div2 len) as half. intros half Hd.
  destruct (lookup_lt_is_Some_2 ix (first + half) ltac:(lia)) as [e He]. rewrite He.
  destruct (entry_lt e x) eqn:E.
  - apply IH; [lia|lia| |intros i e' Hi; apply Hhi; lia].
    intros i e' Hi Hi'. unfold entry_lt in *. apply Z.ltb_lt in E. apply Z.ltb_lt.
    pose proof (Hs i (first + half)%nat e' e ltac:(lia) Hi' He). lia.
  - apply IH; [lia|lia|done|]. intros i e' Hi Hi'. unfold entry_lt in *. apply Z.ltb_ge in E. apply Z.ltb_ge.
    pose proof (Hs (first + half)%nat i e e' ltac:(lia) He Hi'). lia.
Qed.

Lemma lower_bound_splits x ix : by_time ix -> splits x ix (lower_bound x ix).
Proof.
  intros Hs. apply lower_bound_loop_spec; try done; [lia|]. intros i e Hi He.
  apply lookup_lt_Some in He. lia.
Qed.

(** The position [findByTimestamp] returns. *)
Lemma findByTimestamp_spec t ix :
  by_time ix -> ix <> [] ->
  exists i e, findByTimestamp t ix = Some e /\ ix !! i = Some e /\ (i = 0%nat \/ ie_timestamp_ns e <= t) /\
    (forall j e', (j < i)%nat -> ix !! j = Some e' -> ie_timestamp_ns e' < t) /\
    (ie_timestamp_ns e = t \/ forall j e', (i < j)%nat -> ix !! j = Some e' -> t < ie_timestamp_ns e').
Proof.
  intros Hs Hne. unfold findByTimestamp. set (x := mkIndexEntry t 0).
  destruct (lower_bound_splits x ix Hs) as (Hl & Hlo & Hhi). set (n := lower_bound x ix) in *.
  assert (Hpos : (0 < length ix)%nat) by (destruct ix; [done|simpl; lia]).
  replace (match ix with [] => _ | _ => _ end) with
    (if (n =? 0)%nat then ix !! n else match ix !! n with
       | Some e => if ie_timestamp_ns e =? t then Some e else ix !! (n - 1)%nat | None => ix !! (n - 1)%nat end)
    by (by destruct ix).
  unfold entry_lt in *. simpl in Hlo, Hhi.
  assert (Hbefore : forall j e', (j < n)%nat -> ix !! j = Some e' -> ie_timestamp_ns e' < t)
    by (intros j e' Hj He'; by apply Z.ltb_lt, (Hlo j)).
  assert (Hafter : forall j e', (n <= j)%nat -> ix !! j = Some e' -> t <= ie_timestamp_ns e')
    by (intros j e' Hj He'; by apply Z.ltb_ge, (Hhi j)).
  assert (Hat : forall e j e', ix !! n = Some e -> ie_timestamp_ns e <> t -> (n <= j)%nat -> ix !! j = Some e' ->
            t < ie_timestamp_ns e').
  { intros e j e' He Hd Hj He'. pose proof (Hafter n e ltac:(lia) He). pose proof (Hs n j e e' Hj He He'). lia. }
  destruct (Nat.eqb_spec n 0) as [E|E].
  - destruct (lookup_lt_is_Some_2 ix n ltac:(lia)) as [e He]. exists n, e. split_and!; [done|done|by left|done|].
    destruct (decide (ie_timestamp_ns e = t)); [by left|]. right. intros j e' Hj. apply (Hat e); [done|done|lia].
  - destruct (lookup_lt_is_Some_2 ix (n - 1) ltac:(lia)) as [p Hp].
    assert (Hpt : ie_timestamp_ns p < t) by (apply (Hbefore (n - 1)%nat); [lia|done]).
    destruct (ix !! n) as [e|] eqn:He; [destruct (Z.eqb_spec (ie_timestamp_ns e) t) as [Ht|Ht]|].
    + exists n, e. split_and!; [done|done|right; lia|done|by left].
    + exists (n - 1)%nat, p. split_and!; [done|done|right; lia|intros j e' Hj; apply Hbefore; lia|].
      right. intros j e' Hj. apply (Hat e); [done|done|lia].
    + exists (n - 1)%nat, p. split_and!; [done|done|right; lia|intros j e' Hj; apply Hbefore; lia|].
      right. intros j e' Hj He'. apply lookup_lt_Some in He'. apply lookup_ge_None in He. lia.
Qed.

(** On an index in time order [findByTimestamp] returns an entry whenever
    there is one: the first entry if all are later than the timestamp, and
    otherwise a latest entry not later than it. *)
Theorem find_returns_latest_not_after t ix :
  by_time ix -> ix <> [] ->
  exists i e, findByTimestamp t ix = Some e /\ ix !! i = Some e /\
    (i = 0%nat \/ ie_timestamp_ns e <= t) /\
    (forall j e', ix !! j = Some e' -> ie_timestamp_ns e' <= t -> ie_timestamp_ns e' <= ie_timestamp_ns e).
Proof.
  intros Hs Hne. destruct (findByTimestamp_spec t ix Hs Hne) as (i & e & Hf & He & Hi & _ & Hlast).
  exists i, e. split_and!; [done|done|done|]. intros j e' He' Ht. destruct Hlast as [ <-|Hlast]; [done|].
  destruct (decide (i < j)%nat) as [Hj|Hj]; [pose proof (Hlast j e' Hj He'); lia|].
  apply (Hs j i); [lia|done|done].
Qed.

Lemma find_returns_latest_not_after_witness :
  exists i e, findByTimestamp 7 [mkIndexEntry 5 0; mkIndexEntry 9 4] = Some e /\
    [mkIndexEntry 5 0; mkIndexEntry 9 4] !! i = Some e.
Proof.
  destruct (find_returns_latest_not_after 7 [mkIndexEntry 5 0; mkIndexEntry 9 4]) as (i & e & Hf & He & _).
  - intros i j e e' Hij Hi Hj. destruct i as [|[|i]], j as [|[|j]]; simpl in *; try lia; simplify_eq; simpl; lia.
  - discriminate.
  - exists i, e. split; [exact Hf|exact He].
Defined.

(** ** The table-driven CRC is the bit-serial one *)

(** The register of the CRC, one bit of the message at a time. *)
Definition serial_bit (crc : Z) (bit : bool) : Z :=
  let out := xorb (Z.testbit crc 0) bit in
  let crc := Z.shiftr crc 1 in
  if out then Z.lxor crc poly else crc.
Definition byte_bits (byte : Z) : list bool := map (Z.testbit byte) (seqZ 0 8).
Definition crc32_serial (data : bytes) : Z :=
  Z.lxor (foldl serial_bit (2 ^ 32 - 1) (flat_map byte_bits data)) (2 ^ 32 - 1).

Lemma shiftr_lxor a b n : Z.shiftr (Z.lxor a b) n = Z.lxor (Z.shiftr a n) (Z.shiftr b n).
Proof. apply Z.shiftr_lxor. Qed.

Lemma crc_bit_lxor a b : crc_bit (Z.lxor a b) = Z.lxor (crc_bit a) (crc_bit b).
Proof.
  unfold crc_bit. rewrite Z.lxor_spec, shiftr_lxor.
  destruct (Z.testbit a 0), (Z.testbit b 0); cbn [xorb]; apply Z.bits_inj'; intros n Hn; rewrite ?Z.lxor_spec;
    by destruct (Z.testbit (Z.shiftr a 1) n), (Z.testbit (Z.shiftr b 1) n), (Z.testbit poly n).
Qed.

Lemma crc_bits_lxor n a b :
  Nat.iter n crc_bit (Z.lxor a b) = Z.lxor (Nat.iter n crc_bit a) (Nat.iter n crc_bit b).
Proof. induction n as [|n IH]; simpl; [done|]. by rewrite IH, crc_bit_lxor. Qed.

Lemma crc_bit_double h : crc_bit (Z.shiftl h 1) = h.
Proof.
  unfold crc_bit. rewrite Z.shiftl_spec_low by lia. rewrite Z.shiftr_shiftl_l by lia. apply Z.shiftl_0_r.
Qed.

Lemma crc_bits_shift n h : Nat.iter n crc_bit (Z.shiftl h (Z.of_nat n)) = h.
Proof.
  revert h. induction n as [|n IH]; intros h; [apply Z.shiftl_0_r|].
  rewrite Nat.iter_succ_r. replace (Z.of_nat (S n)) with (Z.of_nat n + 1) by lia.
  rewrite <- Z.shiftl_shiftl by lia. by rewrite crc_bit_double.
Qed.

Lemma serial_bit_crc_bit crc bit : serial_bit crc bit = crc_bit (Z.lxor crc (Z.b2z bit)).
Proof.
  unfold serial_bit, crc_bit. rewrite Z.lxor_spec, shiftr_lxor.
  replace (Z.shiftr (Z.b2z bit) 1) with 0 by (by destruct bit). rewrite Z.lxor_0_r. by destruct bit.
Qed.

Lemma crc_entry_lookup i : 0 <= i < 256 -> crc_table !! Z.to_nat i = Some (crc_entry i).
Proof.
  intros Hi. unfold crc_table. rewrite list_lookup_fmap, lookup_seqZ_lt by lia. simpl. do 2 f_equal. lia.
Qed.

(** Eight shifts of the register are one table look-up. *)
Lemma crc_byte_shifts crc byte :
  0 <= byte < 256 -> crc_byte crc byte = Nat.iter 8 crc_bit (Z.lxor crc byte).
Proof.
  intros Hb. unfold crc_byte. set (x := Z.lxor crc byte).
  assert (Hlow : Z.land x 255 = x mod 2 ^ 8) by (change 255 with (Z.ones 8); by rewrite Z.land_ones).
  rewrite crc_entry_lookup by (rewrite Hlow; apply Z.mod_pos_bound; lia). simpl default.
  assert (Hx : x = Z.lxor (Z.shiftl (Z.shiftr x 8) (Z.of_nat 8)) (Z.land x 255)).
  { apply Z.bits_inj'. intros n Hn. rewrite Z.lxor_spec, Z.land_spec, Z.shiftl_spec by done.
    change 255 with (Z.ones 8). change (Z.of_nat 8) with 8. destruct (decide (n < 8)).
    - rewrite (Z.testbit_neg_r _ (n - 8)), Z.ones_spec_low by lia. by destruct (Z.testbit x n).
    - rewrite Z.shiftr_spec, Z.ones_spec_high by lia. replace (n - 8 + 8) with n by lia. by destruct (Z.testbit x n). }
  rewrite Hx at 2. rewrite crc_bits_lxor, crc_bits_shift. f_equal. unfold x. rewrite shiftr_lxor.
  rewrite (Z.shiftr_div_pow2 byte) by lia. rewrite (Z.div_small byte) by done. by rewrite Z.lxor_0_r.
Qed.

Lemma serial_bits_shift n crc byte :
  0 <= byte -> byte < 2 ^ Z.of_nat n ->
  foldl serial_bit crc (map (Z.testbit byte) (seqZ 0 (Z.of_nat n))) = Nat.iter n crc_bit (Z.lxor crc byte).
Proof.
  revert crc byte. induction n as [|n IH]; intros crc byte H0 Hn.
  - simpl in *. replace byte with 0 by lia. by rewrite Z.lxor_0_r.
  - rewrite seqZ_cons by lia. rewrite Nat.iter_succ_r. cbn [map foldl].
    replace (Z.pred (Z.of_nat (S n))) with (Z.of_nat n) by lia.
    assert (Hbits : map (Z.testbit byte) (seqZ (Z.succ 0) (Z.of_nat n)) =
              map (Z.testbit (Z.shiftr byte 1)) (seqZ 0 (Z.of_nat n))).
    { change (Z.succ 0) with (1 + 0). rewrite <- fmap_add_seqZ. change (@map Z bool) with (@fmap list _ Z bool).
      rewrite <- list_fmap_compose. apply list_fmap_ext. intros i z Hz. apply lookup_seqZ in Hz.
      simpl. rewrite Z.shiftr_spec by lia. f_equal. lia. }
    rewrite Hbits, IH, serial_bit_crc_bit.
    + f_equal. rewrite <- (crc_bit_double (Z.shiftr byte 1)) at 1. rewrite <- crc_bit_lxor. f_equal.
      rewrite Z.lxor_assoc. f_equal. apply Z.bits_inj'. intros m Hm.
      rewrite Z.lxor_spec, Z.shiftl_spec by done. destruct (decide (m = 0)) as [->|Hne].
      * rewrite (Z.testbit_neg_r _ (0 - 1)) by lia. rewrite xorb_false_r. by rewrite Z.b2z_bit0.
      * rewrite Z.shiftr_spec by lia. replace (m - 1 + 1) with m by lia.
        replace (Z.testbit (Z.b2z (Z.testbit byte 0)) m) with false; [done|]. symmetry.
        apply Z.bits_above_log2; destruct (Z.testbit byte 0); simpl; lia.
    + by apply Z.shiftr_nonneg.
    + rewrite Z.shiftr_div_pow2 by lia. apply Z.div_lt_upper_bound; [lia|].
      replace (Z.of_nat (S n)) with (1 + Z.of_nat n) in Hn by lia. by rewrite Z.pow_add_r in Hn by lia.
Qed.

(** C29: The table-driven [crc32] of [Indexer.cpp] computes, on every sequence of
    bytes, the checksum of the bit-serial shift register with the reflected
    polynomial 0xEDB88320, starting from all ones and with the final complement. *)
Theorem crc32_is_the_shift_register data :
  Forall (λ b, 0 <= b < 256) data -> crc32 data = crc32_serial data.
Proof.
  intros Hd. unfold crc32, crc32_serial. f_equal. generalize (2 ^ 32 - 1) as crc.
  induction Hd as [|b data Hb _ IH]; intros crc; [done|]. cbn [foldl flat_map]. rewrite foldl_app, IH. f_equal.
  rewrite crc_byte_shifts by done. symmetry. apply (serial_bits_shift 8); lia.
Qed.

Lemma crc32_is_the_shift_register_witness :
  crc32 [49; 50; 51; 52; 53; 54; 55; 56; 57] = 3421780262 /\
  crc32_serial [49; 50; 51; 52; 53; 54; 55; 56; 57] = 3421780262.
Proof.
  split; [|vm_compute; reflexivity]. rewrite crc32_is_the_shift_register; [vm_compute; reflexivity|].
  repeat constructor; discriminate.
Defined.
