(* ===== verification/BagReader.v ===== *)
(** * Bag messages and the bag reader
      (src/core/logging/dto/BagMessage.h, dto/DataType.h, core/BagReader)

    A message is one line of JSON text.  The JSON library is not part of the
    repository: the values, the parser and the printer are a class, and the
    theorems use the laws that library documents.  The input stream keeps its
    position and the two flags the reader depends on. *)

From S2P Require Import Prelude BagIndex.

(** ** Data types *)

Inductive DataType := DT_RobotMode | DT_InterfaceData | DT_Config | DT_Para | DT_Alarm | DT_Event | DT_MissionState | DT_TaskState.

#[export] Instance DataType_eq_dec : EqDecision DataType.
Proof. solve_decision. Defined.

Definition dataTypeToString (t : DataType) : string :=
  match t with
  | DT_RobotMode => "RobotMode"
  | DT_InterfaceData => "InterfaceData"
  | DT_Config => "Config"
  | DT_Para => "Para"
  | DT_Alarm => "Alarm"
  | DT_Event => "Event"
  | DT_MissionState => "MissionState"
  | DT_TaskState => "TaskState"
  end.

Definition stringToDataType (s : string) : result string DataType :=
  if bool_decide (s = "RobotMode") then Ok DT_RobotMode
  else if bool_decide (s = "InterfaceData") then Ok DT_InterfaceData
  else if bool_decide (s = "Config") then Ok DT_Config
  else if bool_decide (s = "Para") then Ok DT_Para
  else if bool_decide (s = "Alarm") then Ok DT_Alarm
  else if bool_decide (s = "Event") then Ok DT_Event
  else if bool_decide (s = "MissionState") then Ok DT_MissionState
  else if bool_decide (s = "TaskState") then Ok DT_TaskState
  else Throw ("Unknown DataType: " +:+ s)%string.

(** ** JSON values *)

(** [json_object4] is the initializer list of [BagMessage::toJson]: an object of
    its members "timestamp", "topic", "type" and "value"; [json_at] is the const
    [operator[]], the other two the conversions. *)
Class Json (J : Type) := {
  json_parse : bytes -> result string J;
  json_dump : J -> result string bytes;
  json_message : Z -> string -> string -> J -> J;
  json_at : string -> J -> result string J;
  json_int64 : J -> result string Z;
  json_string : J -> result string string
}.

(** What the library documents: printed text parses back to the value and holds
    no control character; empty text is a syntax error; a member of an object is
    what was stored there, and an integer or a string converts back; an object
    prints only if its members do. *)
Class JsonLaws (J : Type) `{!Json J} : Prop := {
  parse_dump : forall (j : J) bs, json_dump j = Ok bs -> json_parse bs = Ok j;
  dump_printable : forall (j : J) bs, json_dump j = Ok bs -> Forall (λ b, 32 <= b) bs;
  parse_empty : exists e, json_parse [] = Throw (A := J) e;
  at_timestamp : forall z topic type (v : J), - 2 ^ 63 <= z < 2 ^ 63 ->
    exists j, json_at "timestamp" (json_message z topic type v) = Ok j /\ json_int64 j = Ok z;
  at_topic : forall z topic type (v : J),
    exists j, json_at "topic" (json_message z topic type v) = Ok j /\ json_string j = Ok topic;
  at_type : forall z topic type (v : J),
    exists j, json_at "type" (json_message z topic type v) = Ok j /\ json_string j = Ok type;
  at_value : forall z topic type (v : J), json_at "value" (json_message z topic type v) = Ok v;
  dump_member : forall z topic type (v : J) bs, json_dump (json_message z topic type v) = Ok bs ->
    exists bs', json_dump v = Ok bs'
}.

(** ** Messages *)

Record BagMessage := mkBagMessage {
  timestamp_ns : Z;
  topic : string;
  data_type : DataType;
  serialized_value : bytes
}.

Definition message_isValid (m : BagMessage) : bool :=
  (0 <? timestamp_ns m) && negb (bool_decide (topic m = "")) && (String.length (topic m) <=? 256)%nat &&
  negb (bool_decide (serialized_value m = [])).

(** [try_ r k] runs [k] on a value and passes an exception on. *)
Definition try_ {A B} (r : result string A) (k : A -> result string B) : result string B :=
  match r with Ok a => k a | Throw e => Throw e end.

Section Messages.
Context {J : Type} `{!Json J}.

Definition toJson (m : BagMessage) : result string J :=
  try_ (json_parse (serialized_value m)) (λ v,
  Ok (json_message (timestamp_ns m) (topic m) (dataTypeToString (data_type m)) v)).

Definition fromJson (j : J) : result string BagMessage :=
  try_ (json_at "timestamp" j) (λ t, try_ (json_int64 t) (λ ts,
  try_ (json_at "topic" j) (λ p, try_ (json_string p) (λ tp,
  try_ (json_at "type" j) (λ y, try_ (json_string y) (λ ty,
  try_ (stringToDataType ty) (λ dt,
  try_ (json_at "value" j) (λ v, try_ (json_dump v) (λ sv,
  Ok (mkBagMessage ts tp dt sv)))))))))).

Definition toJsonLine (m : BagMessage) : result string bytes :=
  try_ (toJson m) (λ j, try_ (json_dump j) (λ bs, Ok (bs ++ [10]))).

Definition drop_back (b : Z) (l : bytes) : bytes :=
  match last l with Some x => if x =? b then take (length l - 1) l else l | None => l end.

Definition fromJsonLine (line : bytes) : result string BagMessage :=
  try_ (json_parse (drop_back 13 (drop_back 10 line))) fromJson.
End Messages.

(** ** Input streams *)

Record IStream := mkIStream { is_bytes : bytes; is_pos : nat; is_eof : bool; is_fail : bool }.

Definition is_good (s : IStream) : bool := negb (is_eof s) && negb (is_fail s).

(** The bytes before the first newline, and whether there is one. *)
Fixpoint until_newline (bs : bytes) : bytes * bool :=
  match bs with
  | [] => ([], false)
  | b :: bs => if b =? 10 then ([], true) else let '(l, nl) := until_newline bs in (b :: l, nl)
  end.

(** [std::getline]: a stream that is not good fails; without a newline the rest
    of the file is the line, and the end of the file is noted. *)
Definition getline (s : IStream) : bytes * IStream :=
  if negb (is_good s) then ([], mkIStream (is_bytes s) (is_pos s) (is_eof s) true)
  else
    let '(l, nl) := until_newline (drop (is_pos s) (is_bytes s)) in
    if nl then (l, mkIStream (is_bytes s) (is_pos s + length l + 1) false false)
    else (l, mkIStream (is_bytes s) (is_pos s + length l) true (bool_decide (l = []))).

(** [tellg] as the unsigned number the reader keeps: -1 once the stream is not
    good. *)
Definition tellg (s : IStream) : Z * IStream :=
  if is_good s then (Z.of_nat (is_pos s), s)
  else (2 ^ 64 - 1, mkIStream (is_bytes s) (is_pos s) (is_eof s) true).

(** [seekg] clears the end-of-file flag; a failed stream does not move. *)
Definition seekg (offset : Z) (s : IStream) : IStream :=
  if is_fail s then mkIStream (is_bytes s) (is_pos s) false true
  else if offset <? 2 ^ 63 then mkIStream (is_bytes s) (Z.to_nat offset) false false
  else mkIStream (is_bytes s) (is_pos s) false true.

(** ** BagReader *)

Record BagReader := mkReader {
  br_filepath : string;
  br_ifs : option IStream;
  br_footer : BagFooter;
  br_indexer : Indexer;
  br_topicFilter : string;
  br_currentPosition : Z
}.

Definition newReader : BagReader := mkReader "" None newFooter [] "" 0.

Definition reader_close (r : BagReader) : BagReader := mkReader "" None (br_footer r) [] "" 0.

Definition seekToStart (r : BagReader) : BagReader :=
  match br_ifs r with
  | Some s => mkReader (br_filepath r) (Some (seekg 0 s)) (br_footer r) (br_indexer r) (br_topicFilter r) 0
  | None => r
  end.

(** [file]: the content of the file, if it can be opened; [limit]: how many index
    entries the allocator grants. *)
Definition reader_open (limit : Z) (filepath : string) (file : option bytes) (r : BagReader) :
    result string bool * BagReader :=
  let r := if bool_decide (is_Some (br_ifs r)) then reader_close r else r in
  match file with
  | None => (Ok false, mkReader filepath None (br_footer r) (br_indexer r) (br_topicFilter r) (br_currentPosition r))
  | Some bs =>
    let ifs := Some (mkIStream bs 0 false false) in
    match readFromFile limit (Some bs) (br_indexer r) with
    | Throw e => (Throw e, mkReader filepath ifs (br_footer r) [] (br_topicFilter r) (br_currentPosition r))
    | Ok (footer, ix) =>
      let r := mkReader filepath ifs footer ix (br_topicFilter r) (br_currentPosition r) in
      if negb (footer_isValid footer) then (Ok false, reader_close r)
      else if negb (isSupportedVersion footer) then (Ok false, reader_close r)
      else (Ok true, seekToStart r)
    end
  end.

Definition isInDataArea (r : BagReader) : bool :=
  bool_decide (is_Some (br_ifs r)) && (br_currentPosition r <? index_offset (br_footer r)).

Definition hasNext (r : BagReader) : bool := isInDataArea r.

Definition set_stream (s : IStream) (pos : Z) (r : BagReader) : BagReader :=
  mkReader (br_filepath r) (Some s) (br_footer r) (br_indexer r) (br_topicFilter r) pos.

(** Empty lines are skipped by recursion; every call consumes a byte or leaves
    the data area. *)
Fixpoint readLine (fuel : nat) (r : BagReader) : option bytes * BagReader :=
  match fuel, br_ifs r with
  | S fuel, Some s =>
    if negb (isInDataArea r) then (None, r)
    else
      let '(line, s) := getline s in
      if negb (is_good s) && negb (is_eof s) then (None, set_stream s (br_currentPosition r) r)
      else
        let '(pos, s) := tellg s in
        let r := set_stream s pos r in
        if bool_decide (line = []) then readLine fuel r else (Some line, r)
  | _, _ => (None, r)
  end.

(** Enough calls for any file. *)
Definition reader_fuel (r : BagReader) : nat :=
  match br_ifs r with Some s => length (is_bytes s) + 2 | None => 1 end.

Section Reader.
Context {J : Type} `{!Json J}.

(** The message of a line, unless it does not parse or the filter drops it. *)
Definition accept (filter : string) (line : bytes) : option BagMessage :=
  match fromJsonLine line with
  | Ok m => if negb (bool_decide (filter = "")) && negb (bool_decide (topic m = filter)) then None else Some m
  | Throw _ => None
  end.

Fixpoint readNext_loop (fuel : nat) (r : BagReader) : option BagMessage * BagReader :=
  match fuel with
  | O => (None, r)
  | S fuel =>
    if negb (isInDataArea r) then (None, r)
    else
      match readLine (reader_fuel r) r with
      | (None, r) => (None, r)
      | (Some line, r) =>
        match accept (br_topicFilter r) line with
        | Some m => (Some m, r)
        | None => readNext_loop fuel r
        end
      end
  end.

Definition readNext (r : BagReader) : option BagMessage * BagReader :=
  if negb (hasNext r) then (None, r) else readNext_loop (reader_fuel r) r.

Definition seekToTimestamp (ts : Z) (r : BagReader) : bool * BagReader :=
  match br_ifs r with
  | None => (false, r)
  | Some s =>
    match findByTimestamp ts (br_indexer r) with
    | None => (false, r)
    | Some e =>
      let s := seekg (ie_file_offset e) s in
      if negb (is_good s) then (false, set_stream s (br_currentPosition r) r)
      else (true, set_stream s (ie_file_offset e) r)
    end
  end.

Definition setTopicFilter (t : string) (r : BagReader) : BagReader :=
  mkReader (br_filepath r) (br_ifs r) (br_footer r) (br_indexer r) t (br_currentPosition r).
Definition clearTopicFilter (r : BagReader) : BagReader := setTopicFilter "" r.

Definition getMessageCount (r : BagReader) : nat := length (br_indexer r).
Definition timestamp_found (ts : Z) (r : BagReader) : Z :=
  match findByTimestamp ts (br_indexer r) with Some e => ie_timestamp_ns e | None => 0 end.
Definition getStartTimestamp (r : BagReader) : Z := timestamp_found 0 r.
Definition getEndTimestamp (r : BagReader) : Z := timestamp_found (2 ^ 64 - 1) r.

(** A client that reads until there is nothing left. *)
Fixpoint readAll (fuel : nat) (r : BagReader) : list BagMessage :=
  match fuel with
  | O => []
  | S fuel => match readNext r with (Some m, r) => m :: readAll fuel r | (None, _) => [] end
  end.
End Reader.

(** ** Lines *)

Definition line_ok (l : bytes) : Prop := 10 ∉ l.
Definition text (ls : list bytes) : bytes := flat_map (λ l, l ++ [10]) ls.

Lemma text_app ls ls' : text (ls ++ ls') = text ls ++ text ls'.
Proof. unfold text. by rewrite flat_map_app. Qed.

Lemma until_newline_line l rest : line_ok l -> until_newline (l ++ 10 :: rest) = (l, true).
Proof.
  unfold line_ok. induction l as [|b l IH]; intros H; [done|]. simpl. apply not_elem_of_cons in H as [Hb Hl].
  rewrite (proj2 (Z.eqb_neq b 10)) by done. by rewrite IH.
Qed.

(** The reader stands before the lines [ls] of the data area, in a file that goes
    on with anything. *)
Record reads_lines (bs : bytes) (f : BagFooter) (filter : string) (ls : list bytes) (r : BagReader) : Prop := {
  rl_split : exists pre post, bs = pre ++ text ls ++ post /\ index_offset f = Z.of_nat (length (pre ++ text ls)) /\
    br_ifs r = Some (mkIStream bs (length pre) false false) /\ br_currentPosition r = Z.of_nat (length pre);
  rl_footer : br_footer r = f;
  rl_filter : br_topicFilter r = filter
}.

Lemma reads_lines_area bs f filter ls r :
  reads_lines bs f filter ls r -> isInDataArea r = negb (bool_decide (ls = [])).
Proof.
  intros [(pre & post & _ & Ho & Hi & Hp) Hf _]. unfold isInDataArea. rewrite Hi, Hp, Hf, Ho. simpl.
  rewrite length_app, Nat2Z.inj_add. destruct ls as [|l ls].
  - rewrite bool_decide_eq_true_2 by done. simpl. apply Z.ltb_ge. lia.
  - rewrite bool_decide_eq_false_2 by done. apply Z.ltb_lt. simpl. rewrite !length_app. simpl. lia.
Qed.

(** One step of [readLine] on a line that is there. *)
Lemma readLine_step bs f filter l ls r fuel :
  line_ok l -> reads_lines bs f filter (l :: ls) r ->
  exists r', reads_lines bs f filter ls r' /\
    readLine (S fuel) r = if bool_decide (l = []) then readLine fuel r' else (Some l, r').
Proof.
  intros Hl Hr. pose proof (reads_lines_area _ _ _ _ _ Hr) as Ha. destruct Hr as [(pre & post & Hb & Ho & Hi & Hp) Hf Ht].
  exists (set_stream (mkIStream bs (length (pre ++ l ++ [10])) false false) (Z.of_nat (length (pre ++ l ++ [10]))) r).
  split; [split; [exists (pre ++ l ++ [10]), post; split_and!| |]|]; try done.
  - rewrite Hb. simpl. by rewrite <- !app_assoc.
  - rewrite Ho. simpl. by rewrite <- !app_assoc.
  - simpl. rewrite Hi, Ha. cbn [negb]. unfold getline. cbn [is_good is_eof is_fail negb andb is_pos is_bytes].
    replace (drop (length pre) bs) with (l ++ 10 :: text ls ++ post).
    2: { rewrite Hb. rewrite drop_app_length. simpl. by rewrite <- !app_assoc. }
    rewrite until_newline_line by done. unfold is_good. cbn [is_eof is_fail negb andb].
    unfold tellg. cbn [is_good is_eof is_fail is_pos negb andb].
    replace (length pre + length l + 1)%nat with (length (pre ++ l ++ [10])) by (rewrite !length_app; simpl; lia).
    done.
Qed.

Lemma readLine_end bs f filter r fuel : reads_lines bs f filter [] r -> readLine (S fuel) r = (None, r).
Proof.
  intros Hr. pose proof (reads_lines_area _ _ _ _ _ Hr) as Ha. destruct Hr as [(pre & post & _ & _ & Hi & _) _ _].
  simpl. by rewrite Hi, Ha.
Qed.

(** [readLine] returns the first line that is not empty. *)
Lemma readLine_spec bs f filter ls r fuel :
  Forall line_ok ls -> reads_lines bs f filter ls r -> (length ls < fuel)%nat ->
  (Forall (.= []) ls /\ exists r', readLine fuel r = (None, r') /\ reads_lines bs f filter [] r') \/
  exists es l ls' r', ls = es ++ l :: ls' /\ Forall (.= []) es /\ l <> [] /\
    readLine fuel r = (Some l, r') /\ reads_lines bs f filter ls' r'.
Proof.
  intros Hok. revert r fuel. induction Hok as [|l ls Hl Hls IH]; intros r fuel Hr Hf; (destruct fuel as [|fuel]; [simpl in Hf; lia|]).
  - left. split; [done|]. exists r. split; [by apply (readLine_end bs f filter)|done].
  - destruct (readLine_step bs f filter l ls r fuel Hl Hr) as (r1 & Hr1 & Hstep). rewrite Hstep.
    destruct (decide (l = [])) as [->|Hne].
    + rewrite bool_decide_eq_true_2 by done. simpl in Hf.
      destruct (IH r1 fuel Hr1 ltac:(lia)) as [(He & r' & H1 & H2)|(es & l & ls' & r' & -> & He & Hn & H1 & H2)].
      * left. split; [by constructor|]. eauto.
      * right. exists ([] :: es), l, ls', r'. split_and!; [done|by constructor|done|done|done].
    + rewrite bool_decide_eq_false_2 by done. right. exists [], l, ls, r1. by split_and!.
Qed.

(** ** Reading all messages of a file *)

Section ReadAll.
Context {J : Type} `{!Json J, !JsonLaws J}.

Lemma accept_empty filter : accept (J := J) filter [] = None.
Proof.
  unfold accept, fromJsonLine, try_. change (drop_back 13 (drop_back 10 [])) with (@nil Z). destruct (parse_empty (J := J)) as [e He]. by rewrite He.
Qed.

Lemma omap_empties filter es ls :
  Forall (.= []) es -> omap (accept (J := J) filter) (es ++ ls) = omap (accept (J := J) filter) ls.
Proof. induction 1 as [|e es -> _ IH]; [done|]. simpl. by rewrite accept_empty. Qed.

Lemma omap_line filter l ls :
  omap (accept (J := J) filter) (l :: ls) =
  match accept (J := J) filter l with
  | Some m => m :: omap (accept (J := J) filter) ls
  | None => omap (accept (J := J) filter) ls
  end.
Proof. reflexivity. Qed.

Lemma text_length ls : (length ls <= length (text ls))%nat.
Proof. induction ls as [|l ls IH]; [done|]. simpl. rewrite !length_app. simpl. lia. Qed.

Lemma reader_fuel_enough bs f filter ls r :
  reads_lines bs f filter ls r -> (length ls < reader_fuel r)%nat.
Proof.
  intros [(pre & post & Hb & _ & Hi & _) _ _]. unfold reader_fuel. rewrite Hi. simpl. rewrite Hb, !length_app.
  pose proof (text_length ls). lia.
Qed.

(** What one [readNext] does, in terms of the messages of the lines ahead. *)
Lemma readNext_loop_spec bs f filter ls r fuel :
  Forall line_ok ls -> reads_lines bs f filter ls r -> (length ls < fuel)%nat ->
  match omap (accept (J := J) filter) ls with
  | [] => exists r', readNext_loop (J := J) fuel r = (None, r') /\ reads_lines bs f filter [] r'
  | m :: ms => exists r' ls', readNext_loop (J := J) fuel r = (Some m, r') /\ reads_lines bs f filter ls' r' /\
      ls' `suffix_of` ls /\ (length ls' < length ls)%nat /\ omap (accept (J := J) filter) ls' = ms
  end.
Proof.
  revert ls r. induction fuel as [|fuel IH]; intros ls r Hok Hr Hf; [lia|].
  cbn [readNext_loop]. rewrite (reads_lines_area _ _ _ _ _ Hr).
  destruct (decide (ls = [])) as [->|Hne]; [rewrite bool_decide_eq_true_2 by done; by exists r|].
  rewrite (bool_decide_eq_false_2 (ls = [])) by done. cbn [negb].
  destruct (readLine_spec bs f filter ls r (reader_fuel r) Hok Hr) as
    [(He & r' & Hl & Hr')|(es & l & ls' & r' & -> & He & Hn & Hl & Hr')]; [by eapply reader_fuel_enough| |].
  - rewrite Hl. rewrite <- (app_nil_r ls), omap_empties by done. by exists r'.
  - rewrite Hl, omap_empties by done. rewrite length_app in Hf. simpl in Hf.
    apply Forall_app in Hok as [_ Hok]. inversion Hok as [|? ? _ Hok']; subst.
    rewrite (rl_filter _ _ _ _ _ Hr'), omap_line. destruct (accept (J := J) filter l) as [m|] eqn:Ea.
    + exists r', ls'. split; [done|]. split; [done|]. split; [|split; [rewrite length_app; simpl; lia|done]].
      exists (es ++ [l]). by rewrite <- app_assoc.
    + specialize (IH ls' r' Hok' Hr' ltac:(lia)). destruct (omap _ ls') as [|m ms] eqn:Eo; [done|].
      destruct IH as (r2 & ls2 & H1 & H2 & H3 & H4 & H5). exists r2, ls2. split_and!; try done.
      * etrans; [exact H3|]. exists (es ++ [l]). by rewrite <- app_assoc.
      * rewrite length_app. simpl. lia.
Qed.

Lemma readNext_spec bs f filter ls r :
  Forall line_ok ls -> reads_lines bs f filter ls r ->
  match omap (accept (J := J) filter) ls with
  | [] => exists r', readNext (J := J) r = (None, r') /\ reads_lines bs f filter [] r'
  | m :: ms => exists r' ls', readNext (J := J) r = (Some m, r') /\ reads_lines bs f filter ls' r' /\
      ls' `suffix_of` ls /\ (length ls' < length ls)%nat /\ omap (accept (J := J) filter) ls' = ms
  end.
Proof.
  intros Hok Hr. unfold readNext, hasNext. rewrite (reads_lines_area _ _ _ _ _ Hr).
  destruct (decide (ls = [])) as [->|Hne]; [rewrite bool_decide_eq_true_2 by done; by exists r|].
  rewrite (bool_decide_eq_false_2 (ls = [])) by done. cbn [negb].
  apply readNext_loop_spec; [done|done|by eapply reader_fuel_enough].
Qed.

Lemma readAll_spec bs f filter ls r fuel :
  Forall line_ok ls -> reads_lines bs f filter ls r -> (length ls < fuel)%nat ->
  readAll (J := J) fuel r = omap (accept (J := J) filter) ls.
Proof.
  revert ls r. induction fuel as [|fuel IH]; intros ls r Hok Hr Hf; [lia|]. cbn [readAll].
  pose proof (readNext_spec bs f filter ls r Hok Hr) as H. destruct (omap _ ls) as [|m ms].
  - destruct H as (r' & H & _). by rewrite H.
  - destruct H as (r' & ls' & H1 & H2 & H3 & H4 & H5). rewrite H1, <- H5. f_equal. apply IH; [|done|lia].
    destruct H3 as [k ->]. by apply Forall_app in Hok as [_ Hok].
Qed.
End ReadAll.

(** ** A message survives its line *)

Lemma data_type_roundtrip t : stringToDataType (dataTypeToString t) = Ok t.
Proof. by destruct t. Qed.

Section RoundTrip.
Context {J : Type} `{!Json J, !JsonLaws J}.

(** The value is printed again from the parsed JSON: its spelling may change. *)
Definition normalised (m : BagMessage) : BagMessage :=
  match json_parse (J := J) (serialized_value m) with
  | Ok v => match json_dump v with
            | Ok bs => mkBagMessage (timestamp_ns m) (topic m) (data_type m) bs
            | Throw _ => m
            end
  | Throw _ => m
  end.

Lemma fromJson_toJson z tp dt (v : J) bs :
  - 2 ^ 63 <= z < 2 ^ 63 -> json_dump v = Ok bs ->
  fromJson (json_message z tp (dataTypeToString dt) v) = Ok (mkBagMessage z tp dt bs).
Proof.
  intros Hz Hd. unfold fromJson.
  destruct (at_timestamp z tp (dataTypeToString dt) v Hz) as (j1 & H1 & H1').
  destruct (at_topic z tp (dataTypeToString dt) v) as (j2 & H2 & H2').
  destruct (at_type z tp (dataTypeToString dt) v) as (j3 & H3 & H3').
  rewrite H1. cbn [try_]. rewrite H1'. cbn [try_]. rewrite H2. cbn [try_]. rewrite H2'. cbn [try_]. rewrite H3.
  cbn [try_]. rewrite H3'. cbn [try_]. rewrite data_type_roundtrip. cbn [try_]. rewrite at_value. cbn [try_].
  by rewrite Hd.
Qed.

Lemma printable_not b l : Forall (λ x, 32 <= x) l -> b < 32 -> b ∉ l.
Proof. intros Hl Hb Hin. rewrite Forall_forall in Hl. pose proof (Hl b Hin). simpl in *. lia. Qed.

Lemma drop_back_other b l : b ∉ l -> drop_back b l = l.
Proof.
  intros H. unfold drop_back. destruct (last l) as [x|] eqn:E; [|done]. rewrite (proj2 (Z.eqb_neq _ _)); [done|].
  intros ->. apply H. apply last_Some in E as [l' ->]. set_solver.
Qed.

Lemma line_roundtrip m line :
  - 2 ^ 63 <= timestamp_ns m < 2 ^ 63 -> toJsonLine (J := J) m = Ok line ->
  exists l, line = l ++ [10] /\ line_ok l /\ fromJsonLine (J := J) l = Ok (normalised m).
Proof.
  intros Hz. unfold toJsonLine, toJson. destruct (json_parse (serialized_value m)) as [v|e] eqn:Hp; simpl; [|done].
  destruct (json_dump (json_message _ _ _ v)) as [bs|e] eqn:Hd; simpl; [|done]. intros [= <-]. exists bs.
  pose proof (dump_printable _ _ Hd) as Hpr. split; [done|]. split; [exact (printable_not 10 bs Hpr ltac:(lia))|].
  unfold fromJsonLine. rewrite (drop_back_other 10 bs), (drop_back_other 13 bs) by (by apply printable_not). rewrite (parse_dump _ _ Hd). simpl.
  destruct (dump_member _ _ _ _ _ Hd) as [bs' Hv]. rewrite (fromJson_toJson _ _ _ _ bs') by done.
  unfold normalised. by rewrite Hp, Hv.
Qed.

(** The lines of messages that all print. *)
Definition lines_of (ms : list BagMessage) (lines : list bytes) : Prop :=
  Forall2 (λ m line, - 2 ^ 63 <= timestamp_ns m < 2 ^ 63 /\ toJsonLine (J := J) m = Ok line) ms lines.

Definition wanted (filter : string) (m : BagMessage) : bool :=
  bool_decide (filter = "") || bool_decide (topic m = filter).

Lemma topic_normalised m : topic (normalised m) = topic m.
Proof. unfold normalised. by repeat case_match. Qed.

Lemma timestamp_normalised m : timestamp_ns (normalised m) = timestamp_ns m.
Proof. unfold normalised. by repeat case_match. Qed.

Lemma accept_line filter m l :
  fromJsonLine (J := J) l = Ok (normalised m) ->
  accept (J := J) filter l = if wanted filter m then Some (normalised m) else None.
Proof.
  intros H. unfold accept, wanted. rewrite H, topic_normalised.
  by destruct (bool_decide (filter = "")), (bool_decide (topic m = filter)).
Qed.

Lemma lines_text ms lines :
  lines_of ms lines -> exists ls, text ls = concat lines /\ Forall line_ok ls /\ length ls = length ms /\
    (forall k, length (text (take k ls)) = length (concat (take k lines))) /\
    forall filter k, omap (accept (J := J) filter) (drop k ls) =
                     map normalised (base.filter (λ m, wanted filter m = true) (drop k ms)).
Proof.
  induction 1 as [|m line ms lines [Hz Hm] _ (ls & Ht & Hok & Hlen & Hoff & Hread)].
  - exists []. split_and!; try done. intros k. by rewrite !take_nil. intros f k. by rewrite !drop_nil.
  - destruct (line_roundtrip m line Hz Hm) as (l & -> & Hl & Hfrom). exists (l :: ls). split_and!.
    + simpl. by rewrite Ht.
    + by constructor.
    + simpl. by rewrite Hlen.
    + intros [|k]; [done|]. simpl. rewrite !length_app. by rewrite Hoff.
    + intros filter [|k]; [|apply Hread]. rewrite !drop_0, omap_line, (accept_line filter m) by done.
      specialize (Hread filter 0%nat). rewrite !drop_0 in Hread. rewrite filter_cons.
      destruct (wanted filter m) eqn:E; by rewrite Hread.
Qed.
End RoundTrip.

(** ** Reading a finished bag *)

Lemma reader_open_bag limit path data dataSize ix r :
  in_u64 dataSize -> Z.of_nat (length data) < 2 ^ 63 -> Z.of_nat (length ix) <= Z.min limit max_entries ->
  Forall entry_ok ix ->
  exists ix' filter, (ix <> [] -> ix' = ix) /\
    reader_open limit path (Some (bag_file data dataSize ix)) r =
    (Ok true, mkReader path (Some (mkIStream (bag_file data dataSize ix) 0 false false))
                (bag_footer data dataSize ix) ix' filter 0).
Proof.
  intros Hd Hl Hc Hok. unfold reader_open.
  set (r1 := if bool_decide (is_Some (br_ifs r)) then reader_close r else r).
  exists (if bool_decide (ix = []) then br_indexer r1 else ix), (br_topicFilter r1).
  rewrite read_bag_file by done. split; [|done]. intros Hne. by rewrite bool_decide_eq_false_2.
Qed.

(** The reader after opening a bag and, possibly, moving to a line. *)
Lemma reads_lines_at ls post path ix filter k :
  let bs := text ls ++ post in
  let f := bag_footer (text ls) 0 [] in
  forall footer, index_offset footer = index_offset f ->
  reads_lines bs footer filter (drop k ls)
    (mkReader path (Some (mkIStream bs (length (text (take k ls))) false false)) footer ix filter
       (Z.of_nat (length (text (take k ls))))).
Proof.
  intros bs f footer Hf. split; [|done|done]. exists (text (take k ls)), post.
  rewrite <- text_app, take_drop. rewrite app_assoc, <- text_app, take_drop. by split_and!.
Qed.

Section ReadBack.
Context {J : Type} `{!Json J, !JsonLaws J}.

(** A finished bag, opened and read to its end, gives back exactly the
    messages that were written, in order, restricted to the topic asked for: the
    timestamp, the topic and the type of each, and its value as the JSON library
    prints it.  This holds whatever state the reader was in before. *)
Theorem bag_reads_back limit path ms lines dataSize ix r wanted_topic fuel :
  lines_of (J := J) ms lines -> in_u64 dataSize -> Z.of_nat (length (concat lines)) < 2 ^ 63 ->
  Z.of_nat (length ix) <= Z.min limit max_entries -> Forall entry_ok ix -> (length ms < fuel)%nat ->
  let '(ok, r') := reader_open limit path (Some (bag_file (concat lines) dataSize ix)) r in
  ok = Ok true /\
  readAll (J := J) fuel (setTopicFilter wanted_topic r') =
  map (normalised (J := J)) (filter (λ m, wanted wanted_topic m = true) ms).
Proof.
  intros Hlines Hd Hl Hc Hok Hf.
  destruct (reader_open_bag limit path (concat lines) dataSize ix r Hd Hl Hc Hok) as (ix' & flt & _ & ->).
  split; [done|]. destruct (lines_text ms lines Hlines) as (ls & Ht & Hlok & Hlen & _ & Hread).
  rewrite <- (drop_0 ms), <- (Hread wanted_topic 0%nat), drop_0.
  apply (readAll_spec (bag_file (concat lines) dataSize ix) (bag_footer (concat lines) dataSize ix)); [done| |lia].
  pose proof (reads_lines_at ls (index_bytes ix ++ footer_bytes (bag_footer (concat lines) dataSize ix)) path ix'
    wanted_topic 0 (bag_footer (concat lines) dataSize ix)) as H.
  rewrite Ht, drop_0 in H. by apply H.
Qed.

(** An index with an entry for every message, whose offset is the start of that
    line or of an earlier one. *)
Definition indexes (ms : list BagMessage) (lines : list bytes) (ix : Indexer) : Prop :=
  length ix = length ms /\
  forall i e m, ix !! i = Some e -> ms !! i = Some m ->
    ie_timestamp_ns e = timestamp_ns m /\
    exists k, (k <= i)%nat /\ ie_file_offset e = Z.of_nat (length (concat (take k lines))).

Definition in_time (ms : list BagMessage) : Prop :=
  forall i j m m', (i <= j)%nat -> ms !! i = Some m -> ms !! j = Some m' -> timestamp_ns m <= timestamp_ns m'.

Lemma indexes_by_time ms lines ix : indexes ms lines ix -> in_time ms -> by_time ix.
Proof.
  intros [Hlen Hix] Ht i j e e' Hij Hi Hj.
  destruct (lookup_lt_is_Some_2 ms i) as [m Hm]; [rewrite <- Hlen; by eapply lookup_lt_Some|].
  destruct (lookup_lt_is_Some_2 ms j) as [m' Hm']; [rewrite <- Hlen; by eapply lookup_lt_Some|].
  destruct (Hix i e m Hi Hm) as [-> _]. destruct (Hix j e' m' Hj Hm') as [-> _]. by apply (Ht i j).
Qed.

(** Where a seek leaves a reader of a bag with such an index. *)
Lemma seek_position ms lines ls ix path bs footer flt pos t s :
  in_time ms -> ms <> [] -> indexes ms lines ix -> Z.of_nat (length (concat lines)) < 2 ^ 63 ->
  (forall k, length (text (take k ls)) = length (concat (take k lines))) -> is_fail s = false -> is_bytes s = bs ->
  exists k, (forall j m, (j < k)%nat -> ms !! j = Some m -> timestamp_ns m < t) /\
    seekToTimestamp t (mkReader path (Some s) footer ix flt pos) =
    (true, mkReader path (Some (mkIStream bs (length (text (take k ls))) false false)) footer ix flt
             (Z.of_nat (length (text (take k ls))))).
Proof.
  intros Htime Hne Hix Hl Htext Hfail Hbs.
  assert (Hnil : ix <> []) by (destruct Hix as [Hlen _]; destruct ix, ms; done).
  destruct (findByTimestamp_spec t ix (indexes_by_time _ _ _ Hix Htime) Hnil) as (i & e & Hfind & He & _ & Hbefore & _).
  unfold seekToTimestamp. cbn [br_ifs br_indexer]. rewrite Hfind. destruct Hix as [Hlen Hix].
  destruct (lookup_lt_is_Some_2 ms i) as [m Hm]; [rewrite <- Hlen; by eapply lookup_lt_Some|].
  destruct (Hix i e m He Hm) as (_ & k & Hk & Hoff).
  assert (Hsmall : ie_file_offset e < 2 ^ 63).
  { rewrite Hoff. eapply Z.le_lt_trans; [|exact Hl]. rewrite <- (take_drop k lines) at 2. rewrite concat_app, length_app. lia. }
  unfold seekg. rewrite Hfail, Hbs, (proj2 (Z.ltb_lt _ _) Hsmall). cbn [is_good is_eof is_fail negb andb].
  exists k. split.
  - intros j m' Hj Hm'. destruct (lookup_lt_is_Some_2 ix j) as [e' He']; [rewrite Hlen; by eapply lookup_lt_Some|].
    destruct (Hix j e' m' He' Hm') as [<- _]. apply (Hbefore j e'); [lia|done].
  - rewrite Hoff, Nat2Z.id, <- (Htext k). done.
Qed.

(** Seeking to a timestamp in a finished bag of messages in time order, whose
    index has an entry for each message, succeeds and skips only messages older
    than the timestamp: reading on gives every message from the timestamp on, in
    order. *)
Theorem seek_skips_only_older limit path ms lines dataSize ix r t fuel :
  lines_of (J := J) ms lines -> in_time ms -> ms <> [] -> indexes ms lines ix -> in_u64 dataSize ->
  Z.of_nat (length (concat lines)) < 2 ^ 63 -> Z.of_nat (length ix) <= Z.min limit max_entries ->
  Forall entry_ok ix -> (length ms < fuel)%nat ->
  let '(_, r') := reader_open limit path (Some (bag_file (concat lines) dataSize ix)) r in
  let '(ok, r'') := seekToTimestamp t r' in
  ok = true /\
  exists k, (forall j m, (j < k)%nat -> ms !! j = Some m -> timestamp_ns m < t) /\
    forall tp, readAll (J := J) fuel (setTopicFilter tp r'') =
               map (normalised (J := J)) (filter (λ m, wanted tp m = true) (drop k ms)).
Proof.
  intros Hlines Htime Hne Hix Hd Hl Hc Hok Hf.
  destruct (reader_open_bag limit path (concat lines) dataSize ix r Hd Hl Hc Hok) as (ix' & flt & Hix' & ->).
  assert (Hnil : ix <> []) by (destruct Hix as [Hlen _]; destruct ix, ms; done).
  rewrite (Hix' Hnil). clear Hix'.
  destruct (lines_text ms lines Hlines) as (ls & Ht & Hlok & Hlls & Htext & Hread).
  destruct (seek_position ms lines ls ix path (bag_file (concat lines) dataSize ix) (bag_footer (concat lines) dataSize ix)
    flt 0 t (mkIStream (bag_file (concat lines) dataSize ix) 0 false false) Htime Hne Hix Hl Htext eq_refl eq_refl)
    as (k & Hk & ->).
  split; [done|]. exists k. split; [done|]. intros tp. rewrite <- Hread.
  apply (readAll_spec (bag_file (concat lines) dataSize ix) (bag_footer (concat lines) dataSize ix)).
  - by apply Forall_drop.
  - pose proof (reads_lines_at ls (index_bytes ix ++ footer_bytes (bag_footer (concat lines) dataSize ix)) path ix
      tp k (bag_footer (concat lines) dataSize ix)) as H.
    rewrite Ht in H. by apply H.
  - rewrite length_drop. lia.
Qed.
End ReadBack.

(** ** A JSON library that keeps the laws *)

(** Values are trees of numbers and strings; the text of a value is the binary
    digits of its code. *)
Abbreviation Tree := (gen_tree (Z + string)).

Fixpoint digits (p : positive) : bytes :=
  match p with xH => [49] | xO p => 48 :: digits p | xI p => 49 :: digits p end.
Fixpoint undigits (bs : bytes) : option positive :=
  match bs with
  | [] => None
  | [49] => Some xH
  | 48 :: bs => xO <$> undigits bs
  | 49 :: bs => xI <$> undigits bs
  | _ => None
  end.

Lemma undigits_digits p : undigits (digits p) = Some p.
Proof.
  induction p as [p IH|p IH|]; [|simpl; by rewrite IH|done]. cbn [digits].
  destruct (digits p) as [|b bs] eqn:E; [by destruct p|]. cbn [undigits] in *. by rewrite IH.
Qed.

#[export] Instance binary_json : Json Tree := {|
  json_parse bs := match undigits bs with
                   | Some p => match decode p with Some j => Ok j | None => Throw "parse_error" end
                   | None => Throw "parse_error"
                   end;
  json_dump j := Ok (digits (encode j));
  json_message z tp ty v := GenNode 0 [GenLeaf (inl z); GenLeaf (inr tp); GenLeaf (inr ty); v];
  json_at k j :=
    match j with
    | GenNode _ [t; p; y; v] =>
      if bool_decide (k = "timestamp") then Ok t else if bool_decide (k = "topic") then Ok p
      else if bool_decide (k = "type") then Ok y else if bool_decide (k = "value") then Ok v else Throw "type_error"
    | _ => Throw "type_error"
    end;
  json_int64 j := match j with GenLeaf (inl z) => Ok z | _ => Throw "type_error" end;
  json_string j := match j with GenLeaf (inr s) => Ok s | _ => Throw "type_error" end
|}.

#[export] Instance binary_json_laws : JsonLaws Tree.
Proof.
  split; simpl; try (intros; eexists; by split); eauto.
  - intros j bs [= <-]. by rewrite undigits_digits, decode_encode.
  - intros j bs [= <-]. generalize (encode j) as p.
    induction p as [p IH|p IH|]; simpl; repeat constructor; try done; lia.
Qed.

Definition sample (t : Z) (tp : string) : BagMessage :=
  mkBagMessage t tp DT_Event (digits (encode (GenLeaf (inl t) : Tree))).
Definition sample_line (t : Z) (tp : string) : bytes :=
  default [] (match toJsonLine (J := Tree) (sample t tp) with Ok l => Some l | Throw _ => None end).

Lemma sample_lines :
  lines_of (J := Tree) [sample 5 "x"; sample 9 "y"] [sample_line 5 "x"; sample_line 9 "y"].
Proof. repeat constructor; (discriminate || by vm_compute). Qed.

Lemma bag_reads_back_witness :
  let file := bag_file (concat [sample_line 5 "x"; sample_line 9 "y"]) 7 [] in
  let '(ok, r) := reader_open 100 "a.bag" (Some file) newReader in
  ok = Ok true /\ length (readAll (J := Tree) 9 (setTopicFilter "y" r)) = 1%nat.
Proof.
  intros file. pose proof (bag_reads_back (J := Tree) 100 "a.bag" _ _ 7 [] newReader "y" 9 sample_lines) as H.
  destruct (reader_open 100 "a.bag" _ newReader) as [ok r].
  destruct H as [Hok Hread]; [split; [discriminate|reflexivity]|vm_compute; reflexivity|discriminate|constructor|simpl; lia|].
  split; [exact Hok|]. rewrite Hread. vm_compute. reflexivity.
Defined.

Definition sample_index : Indexer := [mkIndexEntry 5 0; mkIndexEntry 9 (Z.of_nat (length (sample_line 5 "x")))].

Lemma seek_skips_only_older_witness :
  let file := bag_file (concat [sample_line 5 "x"; sample_line 9 "y"]) 7 sample_index in
  let '(_, r) := reader_open 100 "a.bag" (Some file) newReader in
  let '(ok, r') := seekToTimestamp 6 r in
  ok = true /\ exists k, readAll (J := Tree) 9 (setTopicFilter "" r') =
     map (normalised (J := Tree)) (filter (λ m, wanted "" m = true) (drop k [sample 5 "x"; sample 9 "y"])).
Proof.
  intros file. pose proof (seek_skips_only_older (J := Tree) 100 "a.bag" _ _ 7 sample_index newReader 6 9 sample_lines) as H.
  destruct (reader_open 100 "a.bag" _ newReader) as [ok r]. destruct (seekToTimestamp 6 r) as [ok' r'].
  destruct H as (Hok & k & _ & Hread).
  - intros i j m m' Hij Hi Hj. destruct i as [|[|i]], j as [|[|j]]; simpl in *; try lia; simplify_eq; simpl; lia.
  - discriminate.
  - split; [reflexivity|]. intros i e m Hi Hm. destruct i as [|[|i]]; simpl in *; simplify_eq; simpl.
    + split; [reflexivity|]. exists 0%nat. by split.
    + split; [reflexivity|]. exists 1%nat. split; [lia|]. vm_compute. reflexivity.
  - split; [discriminate|reflexivity].
  - vm_compute. reflexivity.
  - vm_compute. discriminate.
  - repeat constructor; (discriminate || vm_compute; (reflexivity || discriminate)).
  - simpl; lia.
  - split; [exact Hok|]. exists k. apply Hread.
Defined.
