(* ===== verification/AsyncWriter.v ===== *)
(** * The background writer of a bag (src/core/logging/core/AsyncWriter)

    The writer thread and its clients interleave: the thread is a program
    counter that moves one step at a time, the steps being what runs between two
    acquisitions of [queueMutex_]; clients push, and [stop] is its three parts
    (the store of [running_], the notification, the join).  The thread keeps the
    mutex from its test of the wait predicate until it is parked. *)

From S2P Require Import Prelude BagIndex BagReader.

(** ** State *)

Inductive WriterPc :=
| W_None                      (* no thread *)
| W_Outer                     (* the test of the outer loop *)
| W_Check                     (* about to lock and test the predicate of the wait *)
| W_Parking                   (* the predicate was false; not yet waiting *)
| W_Blocked                   (* waiting for a notification *)
| W_Writing (m : BagMessage)  (* a message taken off the queue, the mutex released *)
| W_Relock                    (* about to lock and look for the next message *)
| W_Final                     (* after the loops *)
| W_Done.                     (* the thread function has returned *)

Record AsyncWriter := mkAsync {
  aw_filepath : string;
  aw_queueCapacity : nat;
  aw_messageQueue : list BagMessage;
  aw_running : bool;
  aw_ofs : option OStream;
  aw_pc : WriterPc;
  aw_dropped : Z;
  aw_written : Z;
  aw_bytes : Z
}.

Definition newAsyncWriter (filepath : string) (queueCapacity : nat) : AsyncWriter :=
  mkAsync filepath queueCapacity [] false None W_None 0 0 0.

Definition set_pc (pc : WriterPc) (w : AsyncWriter) : AsyncWriter :=
  mkAsync (aw_filepath w) (aw_queueCapacity w) (aw_messageQueue w) (aw_running w) (aw_ofs w) pc
    (aw_dropped w) (aw_written w) (aw_bytes w).
Definition set_queue (q : list BagMessage) (w : AsyncWriter) : AsyncWriter :=
  mkAsync (aw_filepath w) (aw_queueCapacity w) q (aw_running w) (aw_ofs w) (aw_pc w)
    (aw_dropped w) (aw_written w) (aw_bytes w).
Definition set_running (b : bool) (w : AsyncWriter) : AsyncWriter :=
  mkAsync (aw_filepath w) (aw_queueCapacity w) (aw_messageQueue w) b (aw_ofs w) (aw_pc w)
    (aw_dropped w) (aw_written w) (aw_bytes w).

(** ** Operations *)

(** [file]: the stream on the file, if it can be opened. *)
Definition aw_start (file : option OStream) (w : AsyncWriter) : result string unit * AsyncWriter :=
  if aw_running w then (Ok tt, w)
  else
    match file with
    | None => (Throw ("Failed to open file: " +:+ aw_filepath w)%string, w)
    | Some o => (Ok tt, mkAsync (aw_filepath w) (aw_queueCapacity w) (aw_messageQueue w) true (Some o) W_Outer
                          (aw_dropped w) (aw_written w) (aw_bytes w))
    end.

(** The thread has the mutex while it parks. *)
Definition mutex_free (w : AsyncWriter) : bool := match aw_pc w with W_Parking => false | _ => true end.

(** [notify_one], [notify_all]: the only waiter is the writer thread. *)
Definition aw_notify (w : AsyncWriter) : AsyncWriter :=
  match aw_pc w with W_Blocked => set_pc W_Check w | _ => w end.

Definition tryPush (m : BagMessage) (w : AsyncWriter) : bool * AsyncWriter :=
  if (aw_queueCapacity w <=? length (aw_messageQueue w))%nat
  then (false, mkAsync (aw_filepath w) (aw_queueCapacity w) (aw_messageQueue w) (aw_running w) (aw_ofs w) (aw_pc w)
                 (u64 (aw_dropped w + 1)) (aw_written w) (aw_bytes w))
  else (true, aw_notify (set_queue (aw_messageQueue w ++ [m]) w)).

Section Thread.
Context {J : Type} `{!Json J}.

(** A message whose line cannot be made is logged and forgotten. *)
Definition write_message (m : BagMessage) (w : AsyncWriter) : AsyncWriter :=
  match toJsonLine (J := J) m with
  | Throw _ => w
  | Ok line =>
    mkAsync (aw_filepath w) (aw_queueCapacity w) (aw_messageQueue w) (aw_running w) (os_write line <$> aw_ofs w) (aw_pc w)
      (aw_dropped w) (u64 (aw_written w + 1)) (u64 (aw_bytes w + Z.of_nat (length line)))
  end.

(** Take the front of the queue, or go on at [pc]. *)
Definition take_front (pc : WriterPc) (w : AsyncWriter) : AsyncWriter :=
  match aw_messageQueue w with
  | m :: q => set_pc (W_Writing m) (set_queue q w)
  | [] => set_pc pc w
  end.

(** One step of [writerLoop]. *)
Definition thread_step (w : AsyncWriter) : AsyncWriter :=
  match aw_pc w with
  | W_None | W_Blocked | W_Done => w
  | W_Outer => if aw_running w || negb (bool_decide (aw_messageQueue w = [])) then set_pc W_Check w else set_pc W_Final w
  | W_Check =>
    if negb (bool_decide (aw_messageQueue w = [])) || negb (aw_running w)
    then take_front W_Outer w else set_pc W_Parking w
  | W_Parking => set_pc W_Blocked w
  | W_Writing m => set_pc W_Relock (write_message m w)
  | W_Relock => take_front W_Outer w
  | W_Final =>
    (* the messages still queued, with the mutex held throughout *)
    set_pc W_Done (foldl (λ w m, write_message m w) (set_queue [] w) (aw_messageQueue w))
  end.

Definition thread_steps (n : nat) (w : AsyncWriter) : AsyncWriter := Nat.iter n thread_step w.

(** [flush]: for each turn of its loop, how many steps the thread makes while it
    sleeps and the milliseconds elapsed after it, and the steps it makes
    ([after]) before the caller goes on; [None] while it has not returned. *)
Fixpoint aw_flush (timeoutMs : Z) (turns : list (nat * Z)) (after : nat) (w : AsyncWriter) : option (bool * AsyncWriter) :=
  if bool_decide (aw_messageQueue w = []) then Some (true, thread_steps after w)
  else
    match turns with
    | [] => None
    | (n, elapsed) :: turns =>
      let w := thread_steps n w in
      if (0 <? timeoutMs) && (timeoutMs <=? elapsed) then Some (false, thread_steps after w)
      else aw_flush timeoutMs turns after w
    end.

(** [stop]: the steps the thread makes before the store, before the notification
    and until the join; [None] while the thread has not returned.  The file is
    closed with what was written. *)
Definition aw_join (w : AsyncWriter) : option AsyncWriter :=
  match aw_pc w with
  | W_Done => Some (mkAsync (aw_filepath w) (aw_queueCapacity w) (aw_messageQueue w) (aw_running w) None W_None
                      (aw_dropped w) (aw_written w) (aw_bytes w))
  | _ => None
  end.

(** The stopped writer and the content of its file. *)
Definition aw_stop (n1 n2 n3 : nat) (w : AsyncWriter) : option (AsyncWriter * option OStream) :=
  if negb (aw_running w) then Some (w, None)
  else
    let w := set_running false (thread_steps n1 w) in
    let w := thread_steps n3 (aw_notify (thread_steps n2 w)) in
    match aw_join w with Some w' => Some (w', aw_ofs w) | None => None end.

(** ** Interleavings *)

Inductive AStep := APush (m : BagMessage) | AThread | ASpurious | AStopStore | ANotify.

(** A step that is not enabled changes nothing; the second component is the
    messages accepted so far. *)
Definition async_exec (s : AsyncWriter * list BagMessage) (o : AStep) : AsyncWriter * list BagMessage :=
  let '(w, acc) := s in
  match o with
  | APush m => if mutex_free w then let '(ok, w) := tryPush m w in (w, if ok then acc ++ [m] else acc) else s
  | AThread => (thread_step w, acc)
  | ASpurious => (aw_notify w, acc)
  | AStopStore => (set_running false w, acc)
  | ANotify => (aw_notify w, acc)
  end.

Definition async_run (os : list AStep) (s : AsyncWriter * list BagMessage) := foldl async_exec s os.

(** The lines of the messages that print. *)
Definition line_of (m : BagMessage) : option bytes :=
  match toJsonLine (J := J) m with Ok line => Some line | Throw _ => None end.

Definition in_hand (w : AsyncWriter) : list BagMessage := match aw_pc w with W_Writing m => [m] | _ => [] end.

(** The thread went through [handled]: the stream [o] took their lines one after
    another. *)
Definition wrote (o : OStream) (handled : list BagMessage) (w : AsyncWriter) : Prop :=
  aw_ofs w = Some (foldl (λ o l, os_write l o) o (omap line_of handled)) /\
  aw_written w = u64 (Z.of_nat (length (omap line_of handled))) /\
  aw_bytes w = u64 (Z.of_nat (length (concat (omap line_of handled)))).

(** Every message accepted is handled, in hand or queued, in this order. *)
Record async_ok (o : OStream) (cap : nat) (acc : list BagMessage) (w : AsyncWriter) : Prop := {
  ao_cap : aw_queueCapacity w = cap;
  ao_queue : (length (aw_messageQueue w) <= cap)%nat;
  ao_thread : aw_pc w <> W_None;
  ao_handled : exists handled, acc = handled ++ in_hand w ++ aw_messageQueue w /\ wrote o handled w
}.

Lemma u64_add_l a b : u64 (u64 a + b) = u64 (a + b).
Proof. unfold u64, wrap. apply Zplus_mod_idemp_l. Qed.

Lemma wrote_pc o h w pc : wrote o h w -> wrote o h (set_pc pc w).
Proof. done. Qed.
Lemma wrote_queue o h w q : wrote o h w -> wrote o h (set_queue q w).
Proof. done. Qed.

Lemma wrote_write o h m w : wrote o h w -> wrote o (h ++ [m]) (write_message m w).
Proof.
  intros (Ho & Hw & Hb). unfold wrote, write_message. rewrite omap_app. cbn [omap list_omap]. unfold line_of.
  destruct (toJsonLine m) as [line|e]; [|by rewrite app_nil_r].
  rewrite foldl_app, concat_app, !length_app. cbn [aw_ofs aw_written aw_bytes]. rewrite Ho, Hw, Hb, !u64_add_l.
  cbn [concat foldl fmap option_fmap option_map length]. rewrite app_nil_r, !Nat2Z.inj_add. by split.
Qed.

Lemma wrote_all o h ms w : wrote o h w -> wrote o (h ++ ms) (foldl (λ w m, write_message m w) w ms).
Proof.
  revert h w. induction ms as [|m ms IH]; intros h w Hw; simpl; [by rewrite app_nil_r|].
  replace (h ++ m :: ms) with ((h ++ [m]) ++ ms) by (by rewrite <- app_assoc). by apply IH, wrote_write.
Qed.

(** The rest of a writer is left alone by writing. *)
Lemma write_message_frame m w :
  aw_pc (write_message m w) = aw_pc w /\ aw_messageQueue (write_message m w) = aw_messageQueue w /\
  aw_queueCapacity (write_message m w) = aw_queueCapacity w /\ aw_running (write_message m w) = aw_running w.
Proof. unfold write_message. by destruct (toJsonLine m). Qed.

Lemma write_all_frame ms w :
  aw_pc (foldl (λ w m, write_message m w) w ms) = aw_pc w /\
  aw_messageQueue (foldl (λ w m, write_message m w) w ms) = aw_messageQueue w /\
  aw_queueCapacity (foldl (λ w m, write_message m w) w ms) = aw_queueCapacity w /\
  aw_running (foldl (λ w m, write_message m w) w ms) = aw_running w.
Proof.
  revert w. induction ms as [|m ms IH]; intros w; simpl; [done|].
  destruct (IH (write_message m w)) as (-> & -> & -> & ->). apply write_message_frame.
Qed.

Lemma in_hand_pc pc w : (forall m, pc <> W_Writing m) -> in_hand (set_pc pc w) = [].
Proof. intros H. unfold in_hand. simpl. destruct pc; try done. by destruct (H m). Qed.

Lemma async_take_front o cap acc w pc :
  async_ok o cap acc w -> in_hand w = [] -> (forall m, pc <> W_Writing m) -> pc <> W_None ->
  async_ok o cap acc (take_front pc w).
Proof.
  intros [Hc Hq Ht (h & Hacc & Hw)] Hh Hpc Hpc'. rewrite Hh in Hacc. unfold take_front.
  destruct (aw_messageQueue w) as [|m q] eqn:E.
  - split; simpl; [done|rewrite E; simpl; lia|done|]. exists h. split; [|done].
    rewrite in_hand_pc by done. cbn [aw_messageQueue set_pc]. by rewrite E.
  - split; simpl in *; [done|lia|done|]. by exists h.
Qed.

Lemma async_set_pc o cap acc w pc :
  async_ok o cap acc w -> in_hand w = [] -> (forall m, pc <> W_Writing m) -> pc <> W_None -> async_ok o cap acc (set_pc pc w).
Proof.
  intros [Hc Hq Ht (h & Hacc & Hw)] Hh Hpc Hpc'. split; simpl; [done|done|done|]. exists h. split; [|done].
  by rewrite Hacc, Hh, in_hand_pc.
Qed.

Lemma async_thread o cap acc w : async_ok o cap acc w -> async_ok o cap acc (thread_step w).
Proof.
  intros Hok. unfold thread_step. destruct (aw_pc w) as [| | | | |m| | |] eqn:Hpc; try done.
  - by destruct (_ || _); apply async_set_pc; try done; unfold in_hand; rewrite Hpc.
  - destruct (_ || _); [apply async_take_front|apply async_set_pc]; try done; unfold in_hand; by rewrite Hpc.
  - apply async_set_pc; try done. unfold in_hand. by rewrite Hpc.
  - destruct Hok as [Hc Hq Ht (h & Hacc & Hw)]. destruct (write_message_frame m w) as (H1 & H2 & H3 & H4).
    split; simpl; [congruence|by rewrite H2|done|]. exists (h ++ [m]). split; [|by apply wrote_pc, wrote_write].
    rewrite Hacc. unfold in_hand. rewrite Hpc. simpl. by rewrite H2, <- app_assoc.
  - apply async_take_front; try done. unfold in_hand. by rewrite Hpc.
  - destruct Hok as [Hc Hq Ht (h & Hacc & Hw)].
    destruct (write_all_frame (aw_messageQueue w) (set_queue [] w)) as (H1 & H2 & H3 & H4).
    split; simpl; [by rewrite H3|rewrite H2; simpl; lia|done|]. exists (h ++ aw_messageQueue w). split.
    + rewrite Hacc. unfold in_hand. rewrite Hpc. simpl. by rewrite H2, app_nil_r.
    + by apply wrote_pc, wrote_all, wrote_queue.
Qed.

Lemma async_notify o cap acc w : async_ok o cap acc w -> async_ok o cap acc (aw_notify w).
Proof.
  intros Hok. unfold aw_notify. destruct (aw_pc w) eqn:Hpc; try done. apply async_set_pc; try done.
  unfold in_hand. by rewrite Hpc.
Qed.

Lemma async_push o cap acc w m :
  async_ok o cap acc w ->
  let '(ok, w') := tryPush m w in async_ok o cap (if ok then acc ++ [m] else acc) w'.
Proof.
  intros Hok. unfold tryPush. destruct (Nat.leb_spec (aw_queueCapacity w) (length (aw_messageQueue w))) as [Hl|Hl].
  - by destruct Hok.
  - apply async_notify. destruct Hok as [Hc Hq Ht (h & Hacc & Hw)]. split; simpl; [done| |done|].
    + rewrite length_app. simpl. lia.
    + exists h. split; [|done]. rewrite Hacc. unfold in_hand. simpl. by rewrite <- !app_assoc.
Qed.

Lemma async_exec_ok o cap w acc s :
  async_ok o cap acc w -> let '(w', acc') := async_exec (w, acc) s in async_ok o cap acc' w'.
Proof.
  intros Hok. destruct s as [m| | | |]; simpl.
  - destruct (mutex_free w); [|done]. pose proof (async_push o cap acc w m Hok). by destruct (tryPush m w).
  - by apply async_thread.
  - by apply async_notify.
  - by destruct Hok.
  - by apply async_notify.
Qed.

Lemma async_run_ok o cap os s :
  async_ok o cap s.2 s.1 -> async_ok o cap (async_run os s).2 (async_run os s).1.
Proof.
  intros Hs. apply (foldl_invariant (λ s, async_ok o cap s.2 s.1)); [done|]. intros [w acc] x Hok.
  pose proof (async_exec_ok o cap w acc x Hok) as H. by destruct (async_exec (w, acc) x).
Qed.

(** ** Stopping *)

(** The steps the thread still makes once [running_] is false, and the places
    from which it makes them. *)
Definition steps_left (w : AsyncWriter) : nat :=
  match aw_pc w with
  | W_Final => 1
  | W_Outer => match aw_messageQueue w with [] => 2 | q => 2 * length q + 4 end
  | W_Check | W_Relock => 2 * length (aw_messageQueue w) + 3
  | W_Writing _ => 2 * length (aw_messageQueue w) + 4
  | _ => 0
  end.
Definition active (w : AsyncWriter) : bool :=
  match aw_pc w with W_Outer | W_Check | W_Writing _ | W_Relock | W_Final => true | _ => false end.

Lemma thread_step_stopping w :
  aw_running w = false -> active w = true ->
  let w' := thread_step w in
  aw_running w' = false /\ S (steps_left w') = steps_left w /\
  (active w' = true \/ aw_pc w' = W_Done /\ aw_messageQueue w' = []).
Proof.
  intros Hr Ha. unfold thread_step, active, steps_left in *. destruct (aw_pc w) as [| | | | |m| | |] eqn:Hpc; try done.
  - rewrite Hr. simpl. destruct (aw_messageQueue w) as [|m q] eqn:E; simpl; rewrite ?E; simpl; auto with lia.
  - rewrite Hr. rewrite orb_true_r. unfold take_front. destruct (aw_messageQueue w) as [|m q] eqn:E; simpl; rewrite ?E.
    + auto.
    + split; [done|]. split; [lia|by left].
  - destruct (write_message_frame m w) as (H1 & H2 & H3 & H4). simpl. rewrite H2, H4.
    split; [done|]. split; [lia|by left].
  - unfold take_front. destruct (aw_messageQueue w) as [|m q] eqn:E; simpl; rewrite ?E.
    + auto.
    + split; [done|]. split; [lia|by left].
  - destruct (write_all_frame (aw_messageQueue w) (set_queue [] w)) as (H1 & H2 & H3 & H4). simpl. rewrite H2, H4. auto.
Qed.

Lemma thread_finishes w :
  aw_running w = false -> active w = true ->
  aw_pc (thread_steps (steps_left w) w) = W_Done /\ aw_messageQueue (thread_steps (steps_left w) w) = [].
Proof.
  remember (steps_left w) as n eqn:Hn. revert w Hn. induction n as [|n IH]; intros w Hn Hr Ha.
  - destruct (thread_step_stopping w Hr Ha) as (_ & H & _). lia.
  - destruct (thread_step_stopping w Hr Ha) as (Hr' & Hs & Ho). unfold thread_steps. rewrite Nat.iter_succ_r.
    destruct Ho as [Ha'|[Hd Hq]]; [apply IH; [lia|done|done]|].
    assert (n = 0)%nat as -> by (unfold steps_left at 1 in Hs; rewrite Hd in Hs; lia). by split.
Qed.

Lemma async_thread_steps o cap acc n w : async_ok o cap acc w -> async_ok o cap acc (thread_steps n w).
Proof. intros Hok. induction n as [|n IH]; [done|]. by apply async_thread. Qed.

Lemma aw_start_ok o cap path : async_ok o cap [] (aw_start (Some o) (newAsyncWriter path cap)).2.
Proof. split; simpl; [done|lia|done|]. by exists []. Qed.


(** The store of [running_] is made without the mutex: when it falls between the
    thread's test of the wait predicate and the wait, the notification finds
    nobody waiting and [stop] never returns. *)
Theorem stop_can_hang path cap o n :
  aw_stop 2 0 n (aw_start (Some o) (newAsyncWriter path cap)).2 = None.
Proof.
  unfold aw_stop. cbn [aw_running aw_start newAsyncWriter snd negb].
  set (w := aw_notify _). assert (Hw : aw_pc w = W_Parking) by reflexivity. clearbody w.
  assert (Hs : forall n, (n = 0%nat /\ thread_steps n w = w) \/ aw_pc (thread_steps n w) = W_Blocked).
  { intros k. induction k as [|k [[-> IH]|IH]]; [by left| |]; right.
    - change (thread_steps 1 w) with (thread_step w). unfold thread_step. by rewrite Hw.
    - change (thread_steps (S k) w) with (thread_step (thread_steps k w)). unfold thread_step. by rewrite IH. }
  unfold aw_join. destruct (Hs n) as [[_ E]|E]; rewrite E, ?Hw; reflexivity.
Qed.

(** ** One client at a time *)

(** A writer that has not been told to stop. *)
Definition alive (w : AsyncWriter) : Prop :=
  aw_running w = true /\ match aw_pc w with W_None | W_Final | W_Done => False | _ => True end.

Lemma alive_thread w : alive w -> alive (thread_step w).
Proof.
  intros [Hr Hp]. unfold alive, thread_step.
  destruct (aw_pc w) as [| | | | |m| | |] eqn:E; try done; try (by rewrite E).
  - by rewrite Hr.
  - destruct (_ || _); [|done]. unfold take_front. by destruct (aw_messageQueue w).
  - destruct (write_message_frame m w) as (H1 & H2 & H3 & H4). simpl. by rewrite H4.
  - unfold take_front. by destruct (aw_messageQueue w).
Qed.

Lemma alive_steps n w : alive w -> alive (thread_steps n w).
Proof. intros Ha. induction n as [|n IH]; [done|]. by apply alive_thread. Qed.

Lemma alive_push m w : alive w -> alive (tryPush m w).2.
Proof.
  intros [Hr Hp]. unfold tryPush. destruct (_ <=? _)%nat; [done|]. simpl. unfold aw_notify, alive. simpl.
  destruct (aw_pc w) eqn:E; simpl; rewrite ?E; done.
Qed.

Lemma flush_ok o cap acc timeout turns after w r w' :
  async_ok o cap acc w -> alive w -> aw_flush timeout turns after w = Some (r, w') -> async_ok o cap acc w' /\ alive w'.
Proof.
  intros Hok Ha. revert w Hok Ha. induction turns as [|[n t] turns IH]; intros w Hok Ha; simpl; case_bool_decide.
  1, 3: intros [= <- <-]; split; [by apply async_thread_steps|by apply alive_steps].
  1: done.
  assert (Hok' : async_ok o cap acc (thread_steps n w)) by (by apply async_thread_steps).
  assert (Ha' : alive (thread_steps n w)) by (by apply alive_steps). destruct (_ && _).
  - intros [= <- <-]. split; [by apply async_thread_steps|by apply alive_steps].
  - by apply IH.
Qed.

(** A thread told to stop has an empty queue when it returns. *)
Definition ended (w : AsyncWriter) : Prop := aw_pc w = W_Done -> aw_messageQueue w = [].

Lemma ended_thread w : ended w -> ended (thread_step w).
Proof.
  unfold ended, thread_step. intros He. destruct (aw_pc w) as [| | | | |m| | |] eqn:E; try done; try (by rewrite E).
  - by destruct (_ || _).
  - destruct (_ || _); [|done]. unfold take_front. by destruct (aw_messageQueue w).
  - unfold take_front. by destruct (aw_messageQueue w).
  - intros _. simpl. destruct (write_all_frame (aw_messageQueue w) (set_queue [] w)) as (_ & H2 & _). by rewrite H2.
Qed.

Lemma ended_steps n w : ended w -> ended (thread_steps n w).
Proof. intros He. induction n as [|n IH]; [done|]. by apply ended_thread. Qed.

Lemma stop_ok o cap acc n1 n2 n3 w w' f :
  async_ok o cap acc w -> alive w -> aw_stop n1 n2 n3 w = Some (w', f) ->
  f = Some (foldl (λ o l, os_write l o) o (omap line_of acc)).
Proof.
  intros Hok Ha. unfold aw_stop. destruct Ha as [Hr Hp]. rewrite Hr. cbn [negb].
  assert (Ha1 : alive (thread_steps n1 w)) by (by apply alive_steps).
  assert (Hok1 : async_ok o cap acc (set_running false (thread_steps n1 w)))
    by (by destruct (async_thread_steps o cap acc n1 w Hok)).
  assert (He1 : ended (set_running false (thread_steps n1 w))).
  { unfold ended. simpl. destruct Ha1 as [_ Hp1]. by destruct (aw_pc (thread_steps n1 w)). }
  revert Hok1 He1. generalize (set_running false (thread_steps n1 w)). clear -Json0. intros w Hok He.
  set (v := thread_steps n3 (aw_notify (thread_steps n2 w))).
  assert (Hv : async_ok o cap acc v) by (by apply async_thread_steps, async_notify, async_thread_steps).
  assert (Hev : ended v).
  { apply ended_steps. apply (ended_steps n2) in He. revert He. generalize (thread_steps n2 w). intros u He.
    unfold aw_notify, ended in *. by destruct (aw_pc u) eqn:E; rewrite ?E. }
  unfold aw_join. destruct (aw_pc v) eqn:E; try done. intros [= _ <-].
  destruct Hv as [_ _ _ (h & Hacc & Hw)]. unfold in_hand in Hacc. rewrite E, (Hev E), app_nil_r in Hacc. simpl in Hacc.
  subst. by destruct Hw.
Qed.
End Thread.
