(* ===== verification/Retention.v ===== *)
(** * Rotation and retention of bag files
      (src/core/logging/dto/RotationPolicy.h, dto/RetentionPolicy.h,
      util/RetentionManager, the file functions of util/FileUtils it calls)

    The regular files the process can see are a map from paths to contents and
    modification times (in seconds).  [removable] tells which files the system
    lets it delete. *)

From Stdlib Require Import Ascii.
From S2P Require Import Prelude BagIndex.

(** ** Policies *)

Inductive RotationType := R_SIZE | R_TIME.

Record RotationPolicy := mkRotation {
  ro_type : RotationType;
  ro_maxSizeBytes : Z;
  ro_maxDurationSeconds : Z
}.

Definition shouldRotate (currentSizeBytes elapsedSeconds : Z) (p : RotationPolicy) : bool :=
  match ro_type p with
  | R_SIZE => ro_maxSizeBytes p <=? currentSizeBytes
  | R_TIME => ro_maxDurationSeconds p <=? elapsedSeconds
  end.

Definition createSizePolicy (maxSizeMB : Z) : RotationPolicy :=
  mkRotation R_SIZE (u64 (u64 (maxSizeMB * 1024) * 1024)) 3600.
Definition rotation_createTimePolicy (maxDurationSeconds : Z) : RotationPolicy :=
  mkRotation R_TIME (1024 * 1024 * 1024) maxDurationSeconds.

Inductive RetentionType := T_TIME | T_COUNT.

Record RetentionPolicy := mkRetention {
  re_type : RetentionType;
  re_maxAgeDays : Z;
  re_maxFileCount : Z
}.

(** [now_ns]: the clock in nanoseconds; [fileTime]: the time of the file in
    seconds.  The product of days and 24 is made in 32 bits. *)
Definition shouldDelete (now_ns fileTime : Z) (totalFileCount fileIndex : nat) (p : RetentionPolicy) : bool :=
  match re_type p with
  | T_TIME => u32 (re_maxAgeDays p * 24) <=? Z.quot (now_ns - fileTime * 10 ^ 9) (3600 * 10 ^ 9)
  | T_COUNT =>
    (re_maxFileCount p <? Z.of_nat totalFileCount) && (Z.of_nat fileIndex <? Z.of_nat totalFileCount - re_maxFileCount p)
  end.

Definition createTimePolicy (days : Z) : RetentionPolicy := mkRetention T_TIME days 100.
Definition createCountPolicy (count : Z) : RetentionPolicy := mkRetention T_COUNT 7 count.

(** ** Files *)

Record File := mkFile { f_bytes : bytes; f_mtime : Z }.
Abbreviation FS := (gmap string File).

Definition fileExists (path : string) (fs : FS) : bool := fs.[path].

(** The name of a file directly in a directory. *)
Fixpoint has_char (c : ascii) (s : string) : bool :=
  match s with EmptyString => false | String a s => bool_decide (a = c) || has_char c s end.
Definition name_in (dir path : string) : option string :=
  let d := (dir +:+ "/")%string in
  if String.prefix d path
  then let name := String.substring (String.length d) (String.length path) path in
       if has_char "/" name then None else Some name
  else None.

(** [regex_match] of a name with the expression that [listFiles] makes of
    "*.bag", ".*..bag": two or more characters other than line ends, and "bag". *)
Definition line_end (c : ascii) : bool := bool_decide (c = "010"%char) || bool_decide (c = "013"%char).
Definition matches_bag (name : string) : bool :=
  match rev (String.list_ascii_of_string name) with
  | g :: a :: b :: rest =>
    bool_decide ([b; a; g] = ["b"; "a"; "g"]%char) && (2 <=? length rest)%nat && negb (existsb line_end rest)
  | _ => false
  end.

Definition is_bag (dir path : string) : bool :=
  match name_in dir path with Some name => matches_bag name | None => false end.

Definition older (a b : string * File) : Prop := f_mtime a.2 <= f_mtime b.2.
#[export] Instance older_dec (a b : string * File) : Decision (older a b).
Proof. unfold older. apply _. Defined.

(** [listFiles] with "*.bag": by time, the oldest first. *)
Definition bag_files (dir : string) (fs : FS) : list (string * File) :=
  merge_sort older (filter (λ pf, is_bag dir pf.1 = true) (key_order fs)).
Definition listBagFiles (dir : string) (fs : FS) : list string := (bag_files dir fs).*1.

Definition deleteFile (removable : string -> bool) (path : string) (fs : FS) : bool * FS :=
  if fileExists path fs then if removable path then (true, delete path fs) else (false, fs) else (false, fs).

Definition getLastModifiedTime (path : string) (fs : FS) : result string Z :=
  match fs !! path with Some f => Ok (f_mtime f) | None => Throw "File does not exist" end.
Definition getFileSize (path : string) (fs : FS) : result string Z :=
  match fs !! path with Some f => Ok (Z.of_nat (length (f_bytes f))) | None => Throw "File does not exist" end.

(** ** RetentionManager *)

Section Manager.
Context (removable : string -> bool).

Definition delete_one (now_ns : Z) (total : nat) (p : RetentionPolicy) (s : nat * FS) (ip : nat * string) : nat * FS :=
  let '(n, fs) := s in
  let '(i, path) := ip in
  match getLastModifiedTime path fs with
  | Throw _ => (n, fs)
  | Ok t =>
    if shouldDelete now_ns t total i p then
      let '(ok, fs) := deleteFile removable path fs in (if ok then S n else n, fs)
    else (n, fs)
  end.

Definition deleteOldFiles (now_ns : Z) (dir : string) (p : RetentionPolicy) (fs : FS) : nat * FS :=
  let files := listBagFiles dir fs in
  foldl (delete_one now_ns (length files) p) (0%nat, fs) (zip (seq 0 (length files)) files).

(** The loop of [emergencyDeleteOldest]. *)
Fixpoint emergency (requiredBytes freed : Z) (files : list string) (n : nat) (fs : FS) : nat * FS :=
  match files with
  | [] => (n, fs)
  | path :: files =>
    match getFileSize path fs with
    | Throw _ => emergency requiredBytes freed files n fs
    | Ok sz =>
      match deleteFile removable path fs with
      | (false, fs) => emergency requiredBytes freed files n fs
      | (true, fs) =>
        let freed := u64 (freed + sz) in
        if requiredBytes <=? freed then (S n, fs) else emergency requiredBytes freed files (S n) fs
      end
    end
  end.
Definition emergencyDeleteOldest (requiredBytes : Z) (dir : string) (fs : FS) : nat * FS :=
  emergency requiredBytes 0 (listBagFiles dir fs) 0 fs.

Definition getTotalSize (dir : string) (fs : FS) : Z :=
  foldl (λ t path, match getFileSize path fs with Ok sz => u64 (t + sz) | Throw _ => t end) 0 (listBagFiles dir fs).

(** [available]: the free space the system reports for a set of files. *)
Definition ensureDiskSpace (available : FS -> Z) (requiredBytes : Z) (dir : string) (fs : FS) : bool * FS :=
  if requiredBytes <=? available fs then (true, fs)
  else
    let '(_, fs) := emergencyDeleteOldest (u64 (requiredBytes - available fs)) dir fs in
    (requiredBytes <=? available fs, fs).
End Manager.

(** ** The listing *)

#[export] Instance older_trans : Transitive older.
Proof. intros a b c. unfold older. lia. Qed.
#[export] Instance older_total : Total older.
Proof. intros a b. unfold older. lia. Qed.

Lemma elem_of_bag_files dir fs path f :
  (path, f) ∈ bag_files dir fs <-> fs !! path = Some f /\ is_bag dir path = true.
Proof.
  unfold bag_files. rewrite merge_sort_Permutation, list_elem_of_filter, elem_of_key_order. simpl. naive_solver.
Qed.

Lemma bag_files_NoDup dir fs : NoDup (listBagFiles dir fs).
Proof.
  apply NoDup_fmap_fst.
  - intros path f1 f2 H1 H2. apply elem_of_bag_files in H1 as [H1 _]. apply elem_of_bag_files in H2 as [H2 _]. congruence.
  - unfold bag_files. rewrite merge_sort_Permutation. apply NoDup_filter. rewrite key_order_perm. apply NoDup_map_to_list.
Qed.

Lemma listBagFiles_length dir fs : length (listBagFiles dir fs) = length (bag_files dir fs).
Proof. unfold listBagFiles. apply length_fmap. Qed.

(** Deleting a set of paths. *)
Definition without (ps : list string) (fs : FS) : FS := foldr delete fs ps.

Lemma without_lookup ps fs path : without ps fs !! path = if bool_decide (path ∈ ps) then None else fs !! path.
Proof.
  induction ps as [|q ps IH]; simpl; [done|]. destruct (decide (path = q)) as [->|Hne].
  - rewrite lookup_delete_eq, bool_decide_eq_true_2 by set_solver. done.
  - rewrite lookup_delete_ne, IH by done.
    by destruct (decide (path ∈ ps)); [rewrite !bool_decide_eq_true_2 by set_solver|rewrite !bool_decide_eq_false_2 by set_solver].
Qed.

(** ** What [deleteOldFiles] deletes *)

Section Deletion.
Context (removable : string -> bool).

(** The paths of the listing that a run deletes. *)
Definition doomed (now_ns : Z) (total : nat) (p : RetentionPolicy) (fs : FS) (ip : nat * string) : bool :=
  match fs !! ip.2 with
  | Some f => shouldDelete now_ns (f_mtime f) total ip.1 p && removable ip.2
  | None => false
  end.

Lemma without_snoc ps q fs : q ∉ ps -> without (ps ++ [q]) fs = delete q (without ps fs).
Proof.
  intros Hq. apply map_eq. intros k. rewrite without_lookup. destruct (decide (k = q)) as [->|Hne].
  - rewrite lookup_delete_eq, bool_decide_eq_true_2 by set_solver. done.
  - rewrite lookup_delete_ne, without_lookup by done.
    by destruct (decide (k ∈ ps)); [rewrite !bool_decide_eq_true_2 by set_solver|rewrite !bool_decide_eq_false_2 by set_solver].
Qed.

Lemma delete_loop now_ns total p fs ips gone :
  NoDup (gone ++ ips.*2) ->
  foldl (delete_one removable now_ns total p) (length gone, without gone fs) ips =
  let gone' := gone ++ (filter (λ ip, doomed now_ns total p fs ip = true) ips).*2 in
  (length gone', without gone' fs).
Proof.
  revert gone. induction ips as [|[i path] ips IH]; intros gone Hnd; simpl; [by rewrite app_nil_r|].
  assert (Hfresh : path ∉ gone).
  { rewrite fmap_cons in Hnd. apply NoDup_app in Hnd as (_ & Hd & _). intros Hin. specialize (Hd path Hin). set_solver. }
  assert (Hrest : NoDup (gone ++ ips.*2)).
  { eapply sublist_NoDup; [exact Hnd|]. apply sublist_app; [done|]. rewrite fmap_cons. by apply sublist_cons. }
  assert (Hlook : without gone fs !! path = fs !! path) by (rewrite without_lookup, bool_decide_eq_false_2; done).
  unfold getLastModifiedTime. rewrite Hlook, filter_bool_cons.
  assert (Hd : doomed now_ns total p fs (i, path) =
    match fs !! path with Some f => shouldDelete now_ns (f_mtime f) total i p && removable path | None => false end) by done.
  rewrite Hd. clear Hd.
  destruct (fs !! path) as [f|] eqn:Ef; simpl; [|by apply IH].
  destruct (shouldDelete now_ns (f_mtime f) total i p); simpl; [|by apply IH].
  unfold deleteFile, fileExists. rewrite Hlook. simpl. destruct (removable path); simpl; [|by apply IH].
  rewrite <- without_snoc by done. replace (S (length gone)) with (length (gone ++ [path])) by (rewrite length_app; simpl; lia).
  rewrite IH; simpl; [by rewrite <- !app_assoc|]. rewrite <- app_assoc. done.
Qed.

Lemma deleteOldFiles_spec now_ns dir p fs :
  let files := listBagFiles dir fs in
  let gone := (filter (λ ip, doomed now_ns (length files) p fs ip = true) (zip (seq 0 (length files)) files)).*2 in
  deleteOldFiles removable now_ns dir p fs = (length gone, without gone fs).
Proof.
  intros files gone. unfold deleteOldFiles. apply (delete_loop _ _ _ fs _ []). simpl.
  rewrite snd_zip by (rewrite length_seq; done). apply bag_files_NoDup.
Qed.
End Deletion.

Lemma filter_prefix {A} (l : list A) k s n :
  length l = n ->
  (filter (λ ip : nat * A, bool_decide (ip.1 < s + k)%nat = true) (zip (seq s n) l)).*2 = take k l.
Proof.
  intros <-. revert k s. induction l as [|x l IH]; intros k s; simpl; [by rewrite take_nil|].
  rewrite filter_bool_cons. simpl. destruct k as [|k].
  - rewrite bool_decide_eq_false_2 by lia. specialize (IH 0%nat (S s)). rewrite take_0 in *. rewrite <- IH.
    f_equal. apply filter_bool_ext. intros [i y] Hin%elem_of_zip_l. apply elem_of_seq in Hin. simpl.
    rewrite !bool_decide_eq_false_2 by lia. done.
  - rewrite bool_decide_eq_true_2 by lia. simpl. f_equal. rewrite <- (IH k (S s)). f_equal.
    apply filter_bool_ext. intros [i y] _. apply bool_decide_ext. simpl. lia.
Qed.

Lemma listing_elem dir fs ip :
  ip ∈ zip (seq 0 (length (listBagFiles dir fs))) (listBagFiles dir fs) ->
  exists f, fs !! ip.2 = Some f /\ (ip.2, f) ∈ bag_files dir fs.
Proof.
  destruct ip as [i path]. intros Hin%elem_of_zip_r. apply list_elem_of_fmap in Hin as ([q f] & -> & Hin).
  exists f. split; [|done]. by apply elem_of_bag_files in Hin as [? _].
Qed.

Lemma listing_sorted dir fs : StronglySorted older (bag_files dir fs).
Proof. apply StronglySorted_merge_sort; apply _. Qed.

(** The listing after the first [k] files of it are gone. *)
Lemma listing_without dir fs k :
  bag_files dir (without (take k (listBagFiles dir fs)) fs) ≡ₚ drop k (bag_files dir fs).
Proof.
  assert (Hnd : forall fs, NoDup (bag_files dir fs)) by (intros; eapply NoDup_fmap_1, bag_files_NoDup).
  apply NoDup_Permutation; [apply Hnd|eapply sublist_NoDup; [apply (Hnd fs)|apply sublist_drop]|].
  intros [path f]. rewrite elem_of_bag_files, without_lookup.
  pose proof (bag_files_NoDup dir fs) as Hd. rewrite <- (take_drop k (listBagFiles dir fs)) in Hd.
  apply NoDup_app in Hd as (_ & Hdisj & _). split.
  - destruct (decide (path ∈ take k (listBagFiles dir fs))) as [Hin|Hin].
    { rewrite bool_decide_eq_true_2 by done. by intros [? _]. }
    rewrite bool_decide_eq_false_2 by done. intros H. apply elem_of_bag_files in H.
    rewrite <- (take_drop k (bag_files dir fs)) in H. apply elem_of_app in H as [H|H]; [|done]. destruct Hin.
    unfold listBagFiles. rewrite <- fmap_take. apply list_elem_of_fmap. by exists (path, f).
  - intros H. assert (Hf : (path, f) ∈ bag_files dir fs).
    { rewrite <- (take_drop k (bag_files dir fs)). apply elem_of_app. by right. }
    rewrite bool_decide_eq_false_2; [by apply elem_of_bag_files|]. intros Hin. apply (Hdisj path Hin).
    unfold listBagFiles. rewrite <- fmap_drop. apply list_elem_of_fmap. by exists (path, f).
Qed.

(** Under a COUNT policy, and if the system lets the files be deleted,
    [deleteOldFiles] leaves exactly the newest [maxFileCount] bag files: it deletes
    the number in excess, every file it keeps is at least as recent as every file
    it deletes, and files that are not bags of the directory are not touched. *)
Theorem count_retention_keeps_the_newest removable now_ns dir max fs :
  (forall path, removable path = true) -> 0 <= max < 2 ^ 32 ->
  let n := length (listBagFiles dir fs) in
  let '(deleted, fs') := deleteOldFiles removable now_ns dir (createCountPolicy max) fs in
  deleted = (n - Z.to_nat max)%nat /\
  length (listBagFiles dir fs') = Nat.min n (Z.to_nat max) /\
  (forall path, is_bag dir path = false -> fs' !! path = fs !! path) /\
  (forall path f, fs' !! path = Some f -> fs !! path = Some f) /\
  (forall p f q g, is_bag dir p = true -> fs' !! p = Some f -> fs !! q = Some g -> fs' !! q = None ->
     f_mtime g <= f_mtime f).
Proof.
  intros Hrem Hmax n. rewrite deleteOldFiles_spec. fold n. set (k := (n - Z.to_nat max)%nat).
  assert (Hgone : (filter (λ ip, doomed removable now_ns n (createCountPolicy max) fs ip = true)
                     (zip (seq 0 n) (listBagFiles dir fs))).*2 = take k (listBagFiles dir fs)).
  { rewrite <- (filter_prefix (listBagFiles dir fs) k 0 n) by done. f_equal. apply filter_bool_ext.
    intros ip Hip. destruct (listing_elem dir fs ip Hip) as (f & Hf & _). unfold doomed. rewrite Hf, Hrem, andb_true_r.
    unfold shouldDelete. cbn [re_type createCountPolicy re_maxFileCount]. apply eq_true_iff_eq.
    rewrite andb_true_iff, !Z.ltb_lt, bool_decide_eq_true. lia. }
  rewrite Hgone. pose proof (listing_without dir fs k) as Hperm.
  assert (Hlen : length (bag_files dir fs) = n) by (symmetry; apply listBagFiles_length).
  split_and!.
  - rewrite length_take. unfold k, n. lia.
  - rewrite listBagFiles_length, Hperm, length_drop, Hlen. unfold k. lia.
  - intros path Hb. rewrite without_lookup, bool_decide_eq_false_2; [done|]. intros Hin.
    apply elem_of_take in Hin as (i & Hin & _). apply list_elem_of_lookup_2 in Hin.
    apply list_elem_of_fmap in Hin as ([? f] & -> & Hin). apply elem_of_bag_files in Hin as [_ ?]. simpl in *. congruence.
  - intros path f. rewrite without_lookup. by case_bool_decide.
  - intros p f q g Hp Hf Hq Hgq. assert (Hpd : (p, f) ∈ drop k (bag_files dir fs)).
    { rewrite <- Hperm. by apply elem_of_bag_files. }
    assert (Hqt : (q, g) ∈ take k (bag_files dir fs)).
    { rewrite without_lookup in Hgq. case_bool_decide as Hin; [|congruence]. unfold listBagFiles in Hin.
      rewrite <- fmap_take in Hin. apply list_elem_of_fmap in Hin as ([q' g'] & Heq & Hin).
      simpl in Heq. subst q'. assert ((q, g') ∈ bag_files dir fs) as [Hg' _]%elem_of_bag_files.
      { rewrite <- (take_drop k (bag_files dir fs)). apply elem_of_app. by left. }
      simpl in *. by simplify_eq. }
    pose proof (listing_sorted dir fs) as Hs. rewrite <- (take_drop k (bag_files dir fs)) in Hs.
    apply StronglySorted_app in Hs as (Hall & _ & _). exact (Hall (q, g) (p, f) Hqt Hpd).
Qed.

(** Three bags and a file that is none. *)
Definition directory : FS :=
  <["d/a.bag" := mkFile [1] 10]> (<["d/b.bag" := mkFile [2; 2] 30]> (<["d/c.bag" := mkFile [3] 20]>
    (<["d/notes.txt" := mkFile [] 5]> ∅))).

Lemma count_retention_keeps_the_newest_witness :
  (deleteOldFiles (λ _, true) 0 "d" (createCountPolicy 2) directory).1 = 1%nat /\
  (deleteOldFiles (λ _, true) 0 "d" (createCountPolicy 2) directory).2 !! "d/a.bag" = None.
Proof.
  pose proof (count_retention_keeps_the_newest (λ _, true) 0 "d" 2 directory (λ _, eq_refl)) as H.
  split; [|vm_compute; reflexivity].
  destruct (deleteOldFiles _ 0 "d" (createCountPolicy 2) directory) as [n fs]. destruct H as [Hn _]; [lia|].
  cbn [fst]. rewrite Hn. vm_compute. reflexivity.
Defined.

(** ** Emergency deletion *)

Definition sizes (l : list (string * File)) : Z := foldr (λ pf t, Z.of_nat (length (f_bytes pf.2)) + t) 0 l.

Lemma sizes_nonneg l : 0 <= sizes l.
Proof. induction l as [|x l IH]; simpl; lia. Qed.

Lemma emergency_spec removable required l freed n fs :
  (forall path, removable path = true) -> NoDup l.*1 -> (forall pf, pf ∈ l -> fs !! pf.1 = Some pf.2) ->
  0 <= freed -> freed + sizes l < 2 ^ 64 ->
  exists k, (k <= length l)%nat /\
    emergency removable required freed l.*1 n fs = ((n + k)%nat, without (rev (take k l.*1)) fs) /\
    (k = length l \/ required <= freed + sizes (take k l)) /\
    (forall m, (0 < m < k)%nat -> freed + sizes (take m l) < required).
Proof.
  intros Hrem. revert freed n fs. induction l as [|[path f] l IH]; intros freed n fs Hnd Hin H0 Hsum.
  - exists 0%nat. simpl. rewrite Nat.add_0_r. split_and!; [lia|done|by left|lia].
  - rewrite fmap_cons in *. apply NoDup_cons in Hnd as [Hp Hnd]. simpl in Hsum, Hp.
    pose proof (sizes_nonneg l) as Hs. cbn [emergency fst]. unfold getFileSize, deleteFile, fileExists.
    pose proof (Hin (path, f) ltac:(set_solver)) as Hf. simpl in Hf. rewrite Hf, Hrem. rewrite bool_decide_eq_true_2 by eauto.
    rewrite u64_small by (unfold in_u64; lia). destruct (Z.leb_spec required (freed + Z.of_nat (length (f_bytes f)))) as [Hle|Hgt].
    + exists 1%nat. simpl. split_and!; [lia|f_equal; lia|right; simpl; lia|lia].
    + destruct (IH (freed + Z.of_nat (length (f_bytes f))) (S n) (delete path fs)) as (k & Hk & He & Hstop & Hmin); [done| |lia|lia|].
      { intros pf Hpf. rewrite lookup_delete_ne; [apply Hin; set_solver|]. intros ->. apply Hp, list_elem_of_fmap. by exists pf. }
      exists (S k). rewrite He. simpl. split_and!; [lia| | |].
      * f_equal; [lia|]. unfold without. rewrite foldr_app. done.
      * destruct Hstop as [->|Hstop]; [by left|right; simpl; lia].
      * intros [|m] Hm; [lia|]. simpl. destruct m as [|m]; [simpl; lia|]. specialize (Hmin (S m) ltac:(lia)). lia.
Qed.

(** If the system lets the files be deleted, [emergencyDeleteOldest] deletes
    bag files from the oldest on, and no more than it takes: it stops as soon as
    the deleted files amount to the bytes required, or when there is no bag left. *)
Theorem emergency_deletes_oldest_first removable required dir fs :
  (forall path, removable path = true) -> sizes (bag_files dir fs) < 2 ^ 64 ->
  exists k, (k <= length (bag_files dir fs))%nat /\
    emergencyDeleteOldest removable required dir fs = (k, without (rev (take k (listBagFiles dir fs))) fs) /\
    (k = length (bag_files dir fs) \/ required <= sizes (take k (bag_files dir fs))) /\
    (forall m, (0 < m < k)%nat -> sizes (take m (bag_files dir fs)) < required).
Proof.
  intros Hrem Hsum. apply (emergency_spec removable required (bag_files dir fs) 0 0 fs); try done.
  - apply bag_files_NoDup.
  - intros [path f] H. by apply elem_of_bag_files in H as [? _].
Qed.

Lemma emergency_deletes_oldest_first_witness :
  exists k, emergencyDeleteOldest (λ _, true) 2 "d" directory =
    (k, without (rev (take k (listBagFiles "d" directory))) directory) /\ k = 2%nat.
Proof.
  destruct (emergency_deletes_oldest_first (λ _, true) 2 "d" directory (λ _, eq_refl)) as (k & _ & He & _ & _);
    [vm_compute; reflexivity|].
  exists k. split; [exact He|]. apply (f_equal fst) in He. vm_compute in He. symmetry. exact He.
Defined.

(** The pattern "*.bag" becomes a regular expression in which the point stands for
    any character: a file that only ends in "bag" is listed and deleted too. *)
Theorem retention_deletes_a_handbag :
  (deleteOldFiles (λ _, true) 0 "d" (createCountPolicy 0) {["d/handbag" := mkFile [] 1]}).2 = ∅.
Proof. vm_compute. reflexivity. Qed.
