(* ===== verification/BagWriter.v ===== *)
(** * The bag writer (src/core/logging/core/SimpleBagWriter)

    Every client operation holds the mutex of the writer, so clients do not
    interleave with each other; the background thread of the current file does.
    An operation takes what the thread and the system do meanwhile: the steps the
    thread makes ([Waits]), and the clock, the room on the disk and whether a file
    can be opened ([Opens]).  [None] is an operation that has not returned. *)

From S2P Require Import Prelude BagIndex BagReader AsyncWriter Retention.

(** ** State *)

Record SimpleBagWriter := mkBagWriter {
  bw_bagDirectory : string;
  bw_baseFilename : string;
  bw_queueCapacity : nat;
  bw_currentFilePath : string;
  bw_asyncWriter : option AsyncWriter;
  bw_retention : RetentionPolicy;
  bw_indexer : Indexer;
  bw_rotation : RotationPolicy;
  bw_fileStart : Z;
  bw_rotationCount : Z;
  bw_totalWritten : Z;
  bw_totalDropped : Z;
  bw_totalBytes : Z;
  bw_isOpen : bool
}.

Definition newBagWriter (dir base : string) (capacity : nat) : SimpleBagWriter :=
  mkBagWriter dir base capacity "" None (createTimePolicy 7) [] (createSizePolicy 1024) 0 0 0 0 0 false.

Definition set_async (a : option AsyncWriter) (w : SimpleBagWriter) : SimpleBagWriter :=
  mkBagWriter (bw_bagDirectory w) (bw_baseFilename w) (bw_queueCapacity w) (bw_currentFilePath w) a (bw_retention w)
    (bw_indexer w) (bw_rotation w) (bw_fileStart w) (bw_rotationCount w) (bw_totalWritten w) (bw_totalDropped w)
    (bw_totalBytes w) (bw_isOpen w).
Definition set_index (ix : Indexer) (w : SimpleBagWriter) : SimpleBagWriter :=
  mkBagWriter (bw_bagDirectory w) (bw_baseFilename w) (bw_queueCapacity w) (bw_currentFilePath w) (bw_asyncWriter w)
    (bw_retention w) ix (bw_rotation w) (bw_fileStart w) (bw_rotationCount w) (bw_totalWritten w) (bw_totalDropped w)
    (bw_totalBytes w) (bw_isOpen w).
Definition set_file (path : string) (start : Z) (w : SimpleBagWriter) : SimpleBagWriter :=
  mkBagWriter (bw_bagDirectory w) (bw_baseFilename w) (bw_queueCapacity w) path (bw_asyncWriter w)
    (bw_retention w) (bw_indexer w) (bw_rotation w) start (bw_rotationCount w) (bw_totalWritten w) (bw_totalDropped w)
    (bw_totalBytes w) (bw_isOpen w).
Definition set_open (b : bool) (w : SimpleBagWriter) : SimpleBagWriter :=
  mkBagWriter (bw_bagDirectory w) (bw_baseFilename w) (bw_queueCapacity w) (bw_currentFilePath w) (bw_asyncWriter w)
    (bw_retention w) (bw_indexer w) (bw_rotation w) (bw_fileStart w) (bw_rotationCount w) (bw_totalWritten w)
    (bw_totalDropped w) (bw_totalBytes w) b.
Definition setRotationPolicy (p : RotationPolicy) (w : SimpleBagWriter) : SimpleBagWriter :=
  mkBagWriter (bw_bagDirectory w) (bw_baseFilename w) (bw_queueCapacity w) (bw_currentFilePath w) (bw_asyncWriter w)
    (bw_retention w) (bw_indexer w) p (bw_fileStart w) (bw_rotationCount w) (bw_totalWritten w)
    (bw_totalDropped w) (bw_totalBytes w) (bw_isOpen w).
(** The policy of the writer and of its retention manager. *)
Definition setRetentionPolicy (p : RetentionPolicy) (w : SimpleBagWriter) : SimpleBagWriter :=
  mkBagWriter (bw_bagDirectory w) (bw_baseFilename w) (bw_queueCapacity w) (bw_currentFilePath w) (bw_asyncWriter w)
    p (bw_indexer w) (bw_rotation w) (bw_fileStart w) (bw_rotationCount w) (bw_totalWritten w)
    (bw_totalDropped w) (bw_totalBytes w) (bw_isOpen w).
(** The statistics of a writer that is about to go. *)
Definition accumulate (a : AsyncWriter) (w : SimpleBagWriter) : SimpleBagWriter :=
  mkBagWriter (bw_bagDirectory w) (bw_baseFilename w) (bw_queueCapacity w) (bw_currentFilePath w) (bw_asyncWriter w)
    (bw_retention w) (bw_indexer w) (bw_rotation w) (bw_fileStart w) (bw_rotationCount w)
    (u64 (bw_totalWritten w + aw_written a)) (u64 (bw_totalDropped w + aw_dropped a))
    (u64 (bw_totalBytes w + aw_bytes a)) (bw_isOpen w).
Definition count_rotation (w : SimpleBagWriter) : SimpleBagWriter :=
  mkBagWriter (bw_bagDirectory w) (bw_baseFilename w) (bw_queueCapacity w) (bw_currentFilePath w) (bw_asyncWriter w)
    (bw_retention w) (bw_indexer w) (bw_rotation w) (bw_fileStart w) (u64 (bw_rotationCount w + 1)) (bw_totalWritten w)
    (bw_totalDropped w) (bw_totalBytes w) (bw_isOpen w).

(** ** What happens meanwhile *)

(** The turns of a [flush] and the thread's steps after it, and the thread's steps
    during a [stop]. *)
Record Waits := mkWaits { wt_turns : list (nat * Z); wt_after : nat; wt_store : nat; wt_notify : nat; wt_join : nat }.

(** Opening a file: the time in nanoseconds, the room for it, and whether it
    opens. *)
Record Opens := mkOpens { op_now : Z; op_room : nat; op_can : bool }.

(** ** Files *)

Definition content (path : string) (fs : FS) : bytes := default [] (f_bytes <$> fs !! path).

(** A stream that appends to a file; opening creates the file. *)
Definition append_stream (path : string) (e : Opens) (fs : FS) : option OStream :=
  if op_can e then Some (mkOStream (content path fs) (op_room e) true) else None.
Definition create (path : string) (e : Opens) (fs : FS) : FS :=
  if op_can e && negb (fs.[path]) then <[path := mkFile [] (op_now e / 10 ^ 9)]> fs else fs.
(** Closing a stream leaves its bytes in the file. *)
Definition save (path : string) (now : Z) (o : option OStream) (fs : FS) : FS :=
  match o with Some o => <[path := mkFile (os_bytes o) (now / 10 ^ 9)]> fs | None => fs end.

(** [FileUtils::generateTimestampedFilename] and the path of the new bag; [stamp]
    is the local time as text. *)
Definition createNewBagFile (stamp : string) (w : SimpleBagWriter) : string :=
  (bw_bagDirectory w +:+ "/" +:+ bw_baseFilename w +:+ "_" +:+ stamp +:+ ".bag")%string.

Section Writer.
Context {J : Type} `{!Json J} (removable : string -> bool).

Abbreviation World := (SimpleBagWriter * FS)%type.

(** A new [AsyncWriter] on a path, started if the file opens. *)
Definition start_async (path : string) (e : Opens) (w : SimpleBagWriter) (fs : FS) : result string unit * AsyncWriter * FS :=
  let '(r, a) := aw_start (append_stream path e fs) (newAsyncWriter path (bw_queueCapacity w)) in
  (r, a, create path e fs).

Definition bw_open (path : string) (e : Opens) (s : World) : bool * World :=
  let '(w, fs) := s in
  if bw_isOpen w then (false, s)
  else
    let w := set_index [] (set_file path (bw_fileStart w) w) in
    match start_async path e w fs with
    | (Ok _, a, fs) => (true, (set_open true (set_file path (op_now e) (set_async (Some a) w)), fs))
    | (Throw _, _, fs) => (false, (set_async None w, fs))
    end.

(** [start]: the index is not cleared. *)
Definition bw_start (stamp : string) (e : Opens) (s : World) : result string unit * World :=
  let '(w, fs) := s in
  if bw_isOpen w then (Ok tt, s)
  else
    let path := createNewBagFile stamp w in
    let w := set_file path (bw_fileStart w) w in
    match start_async path e w fs with
    | (Ok _, a, fs) => (Ok tt, (set_open true (set_file path (op_now e) (set_async (Some a) w)), fs))
    | (Throw x, _, fs) => (Throw x, (set_async None w, fs))
    end.

(** Flush and stop of the current file's writer; its bytes are in the file then. *)
Definition finish_async (e : Waits) (now : Z) (path : string) (a : AsyncWriter) (fs : FS) :
    option (AsyncWriter * FS) :=
  match aw_flush (J := J) 5000 (wt_turns e) (wt_after e) a with
  | None => None
  | Some (_, a) =>
    match aw_stop (J := J) (wt_store e) (wt_notify e) (wt_join e) a with
    | None => None
    | Some (_, o) => Some (a, save path now o fs)
    end
  end.

Definition bw_close (e : Waits) (x : Opens) (s : World) : option World :=
  let '(w, fs) := s in
  if negb (bw_isOpen w) then Some s
  else
    let path := bw_currentFilePath w in
    let after := match bw_asyncWriter w with
                 | Some a => (λ '(a, fs), (aw_bytes a, fs)) <$> finish_async e (op_now x) path a fs
                 | None => Some (0, fs)
                 end in
    match after with
    | None => None
    | Some (dataSize, fs) =>
      let w := set_async None w in
      let fs := match append_stream path x fs with
                | Some o => save path (op_now x) (Some (writeToFile dataSize (bw_indexer w) o).2) fs
                | None => fs
                end in
      Some (set_open false w, fs)
    end.

Definition bw_stop (e : Waits) (now : Z) (s : World) : option World :=
  let '(w, fs) := s in
  if negb (bw_isOpen w) then Some s
  else
    match bw_asyncWriter w with
    | Some a => match finish_async e now (bw_currentFilePath w) a fs with
                | Some (_, fs) => Some (set_open false (set_async None w), fs)
                | None => None
                end
    | None => Some (set_open false w, fs)
    end.

(** [tryPush] needs the queue mutex: a parking thread must have parked. *)
Definition locked_push (m : BagMessage) (a : AsyncWriter) : bool * AsyncWriter :=
  tryPush m (if mutex_free a then a else thread_step (J := J) a).

Definition bw_appendAsync (m : BagMessage) (s : World) : bool * World :=
  let '(w, fs) := s in
  match bw_asyncWriter w with
  | Some a =>
    if negb (bw_isOpen w) then (false, s)
    else let '(ok, a) := locked_push m a in (ok, (set_async (Some a) w, fs))
  | None => (false, s)
  end.

Definition shouldRotateInternal (now : Z) (w : SimpleBagWriter) : bool :=
  match bw_asyncWriter w with
  | Some a => bw_isOpen w && shouldRotate (aw_bytes a) (u64 (Z.quot (now - bw_fileStart w) (10 ^ 9))) (bw_rotation w)
  | None => false
  end.

(** [rotate]; [stamp] names the new file. *)
Definition rotate (e : Waits) (stamp : string) (x : Opens) (s : World) : option (bool * World) :=
  let '(w, fs) := s in
  match bw_asyncWriter w with
  | Some a =>
    if negb (bw_isOpen w) then Some (false, s)
    else
      match finish_async e (op_now x) (bw_currentFilePath w) a fs with
      | None => None
      | Some (a, fs) =>
        let w := set_async None (accumulate a w) in
        let fs := (deleteOldFiles removable (op_now x) (bw_bagDirectory w) (bw_retention w) fs).2 in
        let path := createNewBagFile stamp w in
        match start_async path x w fs with
        | (Ok _, a, fs) => Some (true, (count_rotation (set_file path (op_now x) (set_async (Some a) w)), fs))
        | (Throw _, a, fs) => Some (false, (set_open false (set_async (Some a) w), fs))
        end
      end
  | None => Some (false, s)
  end.

Definition checkAndRotate (e : Waits) (stamp : string) (x : Opens) (s : World) : option World :=
  if shouldRotateInternal (op_now x) s.1 then snd <$> rotate e stamp x s else Some s.

(** [n]: thread steps between the reading of the offset and the push. *)
Definition bw_append (m : BagMessage) (n : nat) (turns : list (nat * Z)) (after : nat) (e : Waits) (stamp : string) (x : Opens) (s : World) :
    option (bool * World) :=
  let '(w, fs) := s in
  match bw_asyncWriter w with
  | Some a =>
    if negb (bw_isOpen w) then Some (false, s)
    else
      let currentOffset := aw_bytes a in
      match locked_push m (thread_steps (J := J) n a) with
      | (false, a) => Some (false, (set_async (Some a) w, fs))
      | (true, a) =>
        match aw_flush (J := J) 1000 turns after a with
        | None => None
        | Some (flushed, a) =>
          let w := set_async (Some a) w in
          let w := if flushed then set_index (addEntry (u64 (timestamp_ns m)) currentOffset (bw_indexer w)) w else w in
          match checkAndRotate e stamp x (w, fs) with
          | Some s => Some (flushed, s)
          | None => None
          end
        end
      end
  | None => Some (false, s)
  end.

Definition bw_flush (timeoutMs : Z) (turns : list (nat * Z)) (after : nat) (e : Waits) (stamp : string) (x : Opens) (s : World) :
    option (bool * World) :=
  let '(w, fs) := s in
  match bw_asyncWriter w with
  | Some a =>
    if negb (bw_isOpen w) then Some (false, s)
    else
      match aw_flush (J := J) timeoutMs turns after a with
      | None => None
      | Some (flushed, a) =>
        match checkAndRotate e stamp x (set_async (Some a) w, fs) with
        | Some s => Some (flushed, s)
        | None => None
        end
      end
  | None => Some (false, s)
  end.

Record BagWriterStats := mkStats {
  st_messagesWritten : Z;
  st_messagesDropped : Z;
  st_bytesWritten : Z;
  st_rotationCount : Z;
  st_currentFilePath : string;
  st_currentFileSize : Z
}.

Definition getStats (w : SimpleBagWriter) : BagWriterStats :=
  match bw_asyncWriter w with
  | Some a => mkStats (u64 (bw_totalWritten w + aw_written a)) (u64 (bw_totalDropped w + aw_dropped a))
                (u64 (bw_totalBytes w + aw_bytes a)) (bw_rotationCount w) (bw_currentFilePath w) (aw_bytes a)
  | None => mkStats (bw_totalWritten w) (bw_totalDropped w) (bw_totalBytes w) (bw_rotationCount w) (bw_currentFilePath w) 0
  end.

(** The background thread, between two operations. *)
Definition bw_thread (n : nat) (s : World) : World :=
  (set_async (thread_steps (J := J) n <$> bw_asyncWriter s.1) s.1, s.2).
End Writer.

(** ** A recording *)

Inductive BOp :=
| OAppend (m : BagMessage) (n : nat) (turns : list (nat * Z)) (after : nat) (e : Waits) (stamp : string) (x : Opens)
| OAppendAsync (m : BagMessage)
| OFlush (timeoutMs : Z) (turns : list (nat * Z)) (after : nat) (e : Waits) (stamp : string) (x : Opens)
| OThread (n : nat).

Section Recording.
Context {J : Type} `{!Json J} (removable : string -> bool).

Abbreviation World := (SimpleBagWriter * FS)%type.
Abbreviation line_of := (line_of (J := J)).

(** Whether the queue takes the message. *)
Definition takes (m : BagMessage) (n : nat) (w : SimpleBagWriter) : bool :=
  match bw_asyncWriter w with
  | Some a => bw_isOpen w && (locked_push (J := J) m (thread_steps (J := J) n a)).1
  | None => false
  end.

(** The world, the messages accepted so far, and which of them have an index
    entry. *)
Abbreviation Recording := (World * list BagMessage * list nat)%type.

Definition bw_exec (r : Recording) (o : BOp) : option Recording :=
  let '(s, acc, idx) := r in
  match o with
  | OAppend m n turns after e stamp x =>
    let acc' := if takes m n s.1 then acc ++ [m] else acc in
    match bw_append (J := J) removable m n turns after e stamp x s with
    | Some (flushed, s) => Some (s, acc', if flushed then idx ++ [length acc] else idx)
    | None => None
    end
  | OAppendAsync m => Some ((bw_appendAsync (J := J) m s).2, if takes m 0 s.1 then acc ++ [m] else acc, idx)
  | OFlush t turns after e stamp x =>
    match bw_flush (J := J) removable t turns after e stamp x s with
    | Some (_, s) => Some (s, acc, idx)
    | None => None
    end
  | OThread n => Some (bw_thread (J := J) n s, acc, idx)
  end.

Fixpoint bw_run (os : list BOp) (r : Recording) : option Recording :=
  match os with [] => Some r | o :: os => match bw_exec r o with Some r => bw_run os r | None => None end end.

(** The bytes of the lines of messages. *)
Definition data (ms : list BagMessage) : bytes := concat (omap line_of ms).

Lemma data_app ms ms' : data (ms ++ ms') = data ms ++ data ms'.
Proof. unfold data. by rewrite omap_app, concat_app. Qed.

(** An index entry for the message at position [i]: its time, and the start of its
    line or of an earlier one. *)
Definition entry_for (acc : list BagMessage) (i : nat) (e : IndexEntry) : Prop :=
  exists m, acc !! i = Some m /\ ie_timestamp_ns e = u64 (timestamp_ns m) /\
    exists k, (k <= i)%nat /\ ie_file_offset e = u64 (Z.of_nat (length (data (take k acc)))).

Record recording (o : OStream) (path : string) (cap : nat) (limit : Z) (s : World) (acc : list BagMessage)
    (idx : list nat) : Prop := {
  rc_async : exists a, bw_asyncWriter s.1 = Some a /\ async_ok (J := J) o cap acc a /\ alive a;
  rc_open : bw_isOpen s.1 = true;
  rc_path : bw_currentFilePath s.1 = path;
  rc_rotation : ro_type (bw_rotation s.1) = R_SIZE /\ ro_maxSizeBytes (bw_rotation s.1) = limit;
  rc_index : Forall2 (entry_for acc) idx (bw_indexer s.1)
}.

Lemma entry_for_grow acc m i e : entry_for acc i e -> entry_for (acc ++ [m]) i e.
Proof.
  intros (x & Hx & Ht & k & Hk & Ho). exists x. apply lookup_lt_Some in Hx as Hlt.
  rewrite lookup_app_l by done. split_and!; [done|done|]. exists k. split; [done|]. rewrite take_app_le by lia. done.
Qed.

(** What the counter of written bytes shows: the lines of a prefix. *)
Lemma async_bytes o cap acc a :
  async_ok (J := J) o cap acc a -> exists k, (k <= length acc)%nat /\ aw_bytes a = u64 (Z.of_nat (length (data (take k acc)))).
Proof.
  intros [_ _ _ (h & -> & Hw)]. exists (length h). rewrite take_app_length, length_app. split; [lia|]. apply Hw.
Qed.

Lemma data_take_le k ms : (length (data (take k ms)) <= length (data ms))%nat.
Proof. rewrite <- (take_drop k ms) at 2. rewrite data_app, length_app. lia. Qed.

(** Below the limit no check rotates. *)
Lemma recording_no_rotation o path cap limit s acc idx e stamp x :
  recording o path cap limit s acc idx -> Z.of_nat (length (data acc)) < limit -> limit < 2 ^ 64 ->
  checkAndRotate (J := J) removable e stamp x s = Some s.
Proof.
  intros [(a & Ha & Hok & _) _ _ [Hty Hmax] _] Hlt Hlim. unfold checkAndRotate, shouldRotateInternal, shouldRotate.
  rewrite Ha, Hty, Hmax. destruct (async_bytes o cap acc a Hok) as (k & _ & ->). pose proof (data_take_le k acc).
  rewrite u64_small by (unfold in_u64; lia). rewrite (proj2 (Z.leb_gt _ _)) by lia. by rewrite andb_false_r.
Qed.

Lemma locked_push_ok o cap acc m a :
  async_ok (J := J) o cap acc a -> alive a ->
  async_ok (J := J) o cap (if (locked_push (J := J) m a).1 then acc ++ [m] else acc) (locked_push (J := J) m a).2 /\
  alive (locked_push (J := J) m a).2.
Proof.
  intros Hok Ha. unfold locked_push. set (b := if mutex_free a then a else thread_step a).
  assert (Hb : async_ok (J := J) o cap acc b) by (unfold b; destruct (mutex_free a); [done|by apply async_thread]).
  assert (Hab : alive b) by (unfold b; destruct (mutex_free a); [done|by apply alive_thread]).
  pose proof (async_push o cap acc b m Hb) as H. pose proof (alive_push m b Hab). by destruct (tryPush m b).
Qed.

(** A message joins the recording. *)
Lemma recording_grow o path cap limit w fs acc idx a m (b : bool) :
  recording o path cap limit (w, fs) acc idx ->
  async_ok (J := J) o cap (if b then acc ++ [m] else acc) a -> alive a ->
  recording o path cap limit (set_async (Some a) w, fs) (if b then acc ++ [m] else acc) idx.
Proof.
  intros [_ Ho Hp Hr Hi] Hok Ha. split; simpl in *; try done; [by exists a|].
  destruct b; [|done]. eapply Forall2_impl; [exact Hi|]. intros. by apply entry_for_grow.
Qed.

Lemma recording_append o path cap limit w fs acc idx m n turns after e stamp x r s :
  recording o path cap limit (w, fs) acc idx ->
  Z.of_nat (length (data (if takes m n w then acc ++ [m] else acc))) < limit -> limit < 2 ^ 64 ->
  bw_append (J := J) removable m n turns after e stamp x (w, fs) = Some (r, s) ->
  recording o path cap limit s (if takes m n w then acc ++ [m] else acc) (if r then idx ++ [length acc] else idx).
Proof.
  intros Hrec Hlt Hlim. pose proof Hrec as [(a & Ha & Hok & Hal) Ho Hp Hr Hi]. simpl in *.
  unfold bw_append, takes in *. rewrite Ha, Ho in *. cbn [negb andb] in *.
  assert (Hok' : async_ok (J := J) o cap acc (thread_steps n a)) by (by apply async_thread_steps).
  destruct (locked_push_ok o cap acc m (thread_steps n a) Hok' ltac:(by apply alive_steps)) as [Hpush Hpal].
  destruct (locked_push m (thread_steps n a)) as [ok a1] eqn:Epush. cbn [fst snd] in *. destruct ok.
  - destruct (aw_flush 1000 turns after a1) as [[fl a2]|] eqn:Ef; [|done].
    destruct (flush_ok o cap _ _ _ _ _ _ _ Hpush Hpal Ef) as [Hok2 Hal2].
    pose proof (recording_grow o path cap limit w fs acc idx a2 m true Hrec Hok2 Hal2) as Hrec2. simpl in Hrec2.
    destruct (async_bytes o cap acc a Hok) as (k & Hk & Hbytes).
    match goal with |- context [checkAndRotate _ e stamp x (?w', fs)] =>
      assert (Hrec3 : recording o path cap limit (w', fs) (acc ++ [m]) (if fl then idx ++ [length acc] else idx)) end.
    { destruct fl; [|exact Hrec2]. destruct Hrec2 as [H1 H2 H3 H4 H5]. split; try done. simpl in *.
      apply Forall2_app; [done|]. constructor; [|done]. exists m.
      rewrite lookup_app_r, Nat.sub_diag by lia. split_and!; [done|done|]. exists k. split; [done|].
      simpl. rewrite Hbytes, take_app_le by done. done. }
    rewrite (recording_no_rotation o path cap limit _ _ _ e stamp x Hrec3) by done. intros [= <- <-]. exact Hrec3.
  - intros [= <- <-]. exact (recording_grow o path cap limit w fs acc idx a1 m false Hrec Hpush Hpal).
Qed.

Lemma bw_exec_prefix r o r' : bw_exec r o = Some r' -> r.1.2 `prefix_of` r'.1.2.
Proof.
  destruct r as [[s acc] idx]. unfold bw_exec. destruct o as [m n turns after e stamp x|m|t turns after e stamp x|n].
  - destruct (bw_append _ _ _ _ _ _ _ _ _) as [[fl s']|]; [|done]. intros [= <-]. simpl.
    destruct (takes m n s.1); [by exists [m]|done].
  - intros [= <-]. simpl. destruct (takes m 0 s.1); [by exists [m]|done].
  - destruct (bw_flush _ _ _ _ _ _ _ _) as [[fl s']|]; [|done]. by intros [= <-].
  - by intros [= <-].
Qed.

Lemma bw_run_prefix os r r' : bw_run os r = Some r' -> r.1.2 `prefix_of` r'.1.2.
Proof.
  revert r. induction os as [|o os IH]; intros r; simpl; [by intros [= <-]|].
  destruct (bw_exec r o) as [r1|] eqn:E; [|done]. intros H. etrans; [by eapply bw_exec_prefix|by apply IH].
Qed.

Lemma data_prefix ms ms' : ms `prefix_of` ms' -> (length (data ms) <= length (data ms'))%nat.
Proof. intros [k ->]. rewrite data_app, length_app. lia. Qed.

Lemma recording_exec o path cap limit s acc idx op r' :
  recording o path cap limit s acc idx -> bw_exec (s, acc, idx) op = Some r' ->
  Z.of_nat (length (data r'.1.2)) < limit -> limit < 2 ^ 64 ->
  recording o path cap limit r'.1.1 r'.1.2 r'.2.
Proof.
  destruct s as [w fs]. intros Hrec He Hlt Hlim. pose proof Hrec as [(a & Ha & Hok & Hal) Ho _ _ _]. cbn [fst snd] in *.
  destruct op as [m n turns after e stamp x|m|t turns after e stamp x|n].
  - cbn [bw_exec fst] in He. destruct (bw_append removable m n turns after e stamp x (w, fs)) as [[fl s']|] eqn:Ea; [|done].
    injection He as <-. cbn [fst snd] in *. by eapply recording_append.
  - injection He as <-. cbn [fst snd] in *. unfold takes, bw_appendAsync in *. rewrite Ha, Ho in *. cbn [negb andb] in *.
    change (thread_steps 0 a) with a in *. destruct (locked_push_ok o cap acc m a Hok Hal) as [Hp Hpal].
    destruct (locked_push m a) as [ok a1]. cbn [fst snd] in *. by apply recording_grow.
  - cbn [bw_exec] in He. unfold bw_flush in He. rewrite Ha, Ho in He. cbn [negb] in He.
    destruct (aw_flush t turns after a) as [[fl a1]|] eqn:Ef; [|done].
    destruct (flush_ok o cap acc _ _ _ _ _ _ Hok Hal Ef) as [Hok1 Hal1].
    pose proof (recording_grow o path cap limit w fs acc idx a1 (mkBagMessage 0 "" DT_Event []) false Hrec Hok1 Hal1) as Hrec1.
    simpl in Hrec1. destruct (checkAndRotate removable e stamp x (set_async (Some a1) w, fs)) as [s'|] eqn:Ec; [|done].
    injection He as <-. cbn [fst snd] in *. rewrite (recording_no_rotation o path cap limit _ acc idx e stamp x Hrec1) in Ec by done.
    injection Ec as <-. exact Hrec1.
  - injection He as <-. cbn [fst snd] in *. unfold bw_thread. cbn [fst snd]. rewrite Ha. cbn [fmap option_fmap option_map].
    apply (recording_grow o path cap limit w fs acc idx _ (mkBagMessage 0 "" DT_Event []) false Hrec);
      [by apply async_thread_steps|by apply alive_steps].
Qed.

Lemma recording_run o path cap limit os s acc idx r' :
  recording o path cap limit s acc idx -> bw_run os (s, acc, idx) = Some r' ->
  Z.of_nat (length (data r'.1.2)) < limit -> limit < 2 ^ 64 ->
  recording o path cap limit r'.1.1 r'.1.2 r'.2.
Proof.
  revert s acc idx. induction os as [|op os IH]; intros s acc idx Hrec Hrun Hlt Hlim; cbn [bw_run] in Hrun.
  { by injection Hrun as <-. }
  destruct (bw_exec (s, acc, idx) op) as [[[s1 acc1] idx1]|] eqn:E; [|done].
  assert (Hlt1 : Z.of_nat (length (data acc1)) < limit).
  { apply bw_run_prefix, data_prefix in Hrun. simpl in Hrun. lia. }
  apply (IH s1 acc1 idx1); try done. exact (recording_exec o path cap limit s acc idx op _ Hrec E Hlt1 Hlim).
Qed.

Lemma recording_open path x w fs ok s :
  bw_isOpen w = false -> op_can x = true -> ro_type (bw_rotation w) = R_SIZE ->
  bw_open path x (w, fs) = (ok, s) ->
  ok = true /\
  recording (mkOStream (content path fs) (op_room x) true) path (bw_queueCapacity w) (ro_maxSizeBytes (bw_rotation w)) s [] [].
Proof.
  intros Ho Hc Hr. unfold bw_open, start_async, append_stream. rewrite Ho, Hc. simpl. intros [= <- <-]. split; [done|].
  split; simpl; try done. eexists. split; [done|]. split; [apply (aw_start_ok (J := J))|done].
Qed.

(** Lines that fit are appended. *)
Lemma write_lines_room ls o n :
  os_good o = true -> os_room o = (length (concat ls) + n)%nat ->
  foldl (λ o l, os_write l o) o ls = mkOStream (os_bytes o ++ concat ls) n true.
Proof.
  revert o. induction ls as [|l ls IH]; intros o Hg Hr; simpl in *.
  - rewrite app_nil_r. destruct o; simpl in *. by f_equal.
  - rewrite length_app in Hr. rewrite (os_write_room _ _ (length (concat ls) + n)) by (done || lia).
    rewrite IH by done. cbn [os_bytes]. by rewrite <- app_assoc.
Qed.

Lemma recording_close bytes0 room path cap limit s acc idx e x s' :
  recording (mkOStream bytes0 room true) path cap limit s acc idx ->
  bw_close (J := J) e x s = Some s' ->
  (length (data acc) <= room)%nat -> op_can x = true -> (16 * length (bw_indexer s.1) + 64 <= op_room x)%nat ->
  Z.of_nat (length (bytes0 ++ data acc)) < 2 ^ 63 -> Z.of_nat (length (bw_indexer s.1)) < 2 ^ 59 ->
  exists dataSize, in_u64 dataSize /\ bw_isOpen s'.1 = false /\ bw_asyncWriter s'.1 = None /\
    f_bytes <$> s'.2 !! path = Some (bag_file (bytes0 ++ data acc) dataSize (bw_indexer s.1)).
Proof.
  destruct s as [w fs]. intros [(a & Ha & Hok & Hal) Ho Hp _ _] Hclose Hroom Hcan Hfoot Hsmall Hix. simpl in *.
  unfold bw_close in Hclose. rewrite Ho, Ha, Hp in Hclose. cbn [negb] in Hclose. unfold finish_async in Hclose.
  destruct (aw_flush 5000 _ _ a) as [[fl a1]|] eqn:Ef; [|done].
  destruct (flush_ok _ cap acc _ _ _ _ _ _ Hok Hal Ef) as [Hok1 Hal1].
  destruct (aw_stop _ _ _ a1) as [[a2 f]|] eqn:Es; [|done]. simpl in Hclose.
  pose proof (stop_ok _ cap acc _ _ _ _ _ _ Hok1 Hal1 Es) as ->. simpl in Hclose.
  rewrite (write_lines_room _ _ (room - length (data acc))) in Hclose by (simpl; fold (data acc); done || lia).
  cbn [os_bytes] in Hclose. fold (data acc) in Hclose. unfold append_stream, content in Hclose.
  rewrite Hcan, lookup_insert_eq in Hclose. simpl in Hclose.
  assert (Hb : in_u64 (aw_bytes a1)).
  { destruct (async_bytes _ _ _ _ Hok1) as (k & _ & ->). apply u64_bounds. }
  replace (op_room x) with (16 * length (bw_indexer w) + 64 + (op_room x - (16 * length (bw_indexer w) + 64)))%nat in Hclose by lia.
  rewrite writeToFile_room in Hclose by (done || lia). injection Hclose as <-. exists (aw_bytes a1).
  split; [done|]. split; [done|]. split; [done|]. simpl. by rewrite lookup_insert_eq.
Qed.
End Recording.

(** ** A finished recording can be read *)

Section Finished.
Context {J : Type} `{!Json J, !JsonLaws J} (removable : string -> bool).

Abbreviation line_of := (line_of (J := J)).
Abbreviation data := (data (J := J)).

(** A bag opened on a new file, operations that all return, and the closing, with
    room on the disk and fewer bytes than the rotation policy allows. *)
Record finished (w : SimpleBagWriter) (fs : FS) (path : string) (x : Opens) (os : list BOp) (e : Waits) (x' : Opens)
    (acc : list BagMessage) (idx : list nat) (ix : Indexer) (fs' : FS) : Prop := {
  fn_closed : bw_isOpen w = false;
  fn_new : content path fs = [];
  fn_policy : ro_type (bw_rotation w) = R_SIZE;
  fn_limit : Z.of_nat (length (data acc)) < ro_maxSizeBytes (bw_rotation w) <= 2 ^ 63;
  fn_room : op_can x = true /\ (length (data acc) <= op_room x)%nat;
  fn_room' : op_can x' = true /\ (16 * length ix + 64 <= op_room x')%nat;
  fn_index : Z.of_nat (length ix) < 2 ^ 59;
  fn_times : Forall (λ m, - 2 ^ 63 <= timestamp_ns m < 2 ^ 63) acc;
  fn_run : exists s w', bw_run (J := J) removable os ((bw_open path x (w, fs)).2, [], []) = Some (s, acc, idx) /\
    bw_indexer s.1 = ix /\ bw_close (J := J) e x' s = Some (w', fs')
}.

Definition prints (m : BagMessage) : bool := bool_decide (is_Some (line_of m)).

Lemma lines_of_accepted acc :
  Forall (λ m, - 2 ^ 63 <= timestamp_ns m < 2 ^ 63) acc ->
  lines_of (J := J) (filter (λ m, prints m = true) acc) (omap line_of acc).
Proof.
  induction 1 as [|m acc Hm _ IH]; [constructor|]. rewrite filter_bool_cons. unfold prints at 1. cbn [omap list_omap].
  destruct (line_of m) as [l|] eqn:E; simpl; [|done]. constructor; [|done]. split; [done|].
  revert E. unfold AsyncWriter.line_of. destruct (toJsonLine m); congruence.
Qed.

Lemma finished_file w fs path x os e x' acc idx ix fs' :
  finished w fs path x os e x' acc idx ix fs' ->
  exists dataSize, in_u64 dataSize /\ Forall2 (entry_for (J := J) acc) idx ix /\
    f_bytes <$> fs' !! path = Some (bag_file (data acc) dataSize ix).
Proof.
  intros [Hcl Hnew Hpol Hlim [Hcan Hroom] [Hcan' Hroom'] Hix _ (s & w' & Hrun & Hs & Hclose)].
  destruct (bw_open path x (w, fs)) as [ok s0] eqn:Eo.
  destruct (recording_open (J := J) path x w fs ok s0 Hcl Hcan Hpol Eo) as [_ Hrec]. rewrite Hnew in Hrec. simpl in Hrun.
  pose proof (recording_run (J := J) removable _ _ _ _ os s0 [] [] _ Hrec Hrun ltac:(simpl; lia) ltac:(lia)) as Hrec'.
  simpl in Hrec'. subst ix.
  destruct (recording_close (J := J) [] (op_room x) path _ _ s acc idx e x' (w', fs') Hrec' Hclose Hroom Hcan' Hroom'
    ltac:(simpl; lia) Hix) as (ds & Hds & _ & _ & Hf).
  exists ds. split; [done|]. split; [apply Hrec'|]. exact Hf.
Qed.

Lemma entry_for_ok acc idx ix : Forall2 (entry_for (J := J) acc) idx ix -> Forall entry_ok ix.
Proof.
  induction 1 as [|i e idx ix (m & _ & Ht & k & _ & Ho) _ IH]; constructor; [|done]. split; [rewrite Ht|rewrite Ho]; apply u64_bounds.
Qed.


Lemma omap_all (acc : list BagMessage) :
  Forall (λ m, prints m = true) acc -> length (omap line_of acc) = length acc /\
  forall k, take k (omap line_of acc) = omap line_of (take k acc).
Proof.
  induction 1 as [|m acc Hm _ [IH1 IH2]]; [split; [done|by intros [|k]]|].
  unfold prints in Hm. apply bool_decide_eq_true in Hm as [l Hl]. cbn [omap list_omap]. rewrite Hl.
  split; [simpl; by rewrite IH1|]. intros [|k]; [done|]. cbn [take omap list_omap]. rewrite Hl. f_equal. apply IH2.
Qed.

Lemma finished_indexes acc ix :
  Forall2 (entry_for (J := J) acc) (seq 0 (length acc)) ix -> Forall (λ m, prints m = true) acc ->
  Forall (λ m, 0 <= timestamp_ns m < 2 ^ 63) acc -> Z.of_nat (length (data acc)) < 2 ^ 63 ->
  indexes acc (omap line_of acc) ix.
Proof.
  intros Hent Hall Ht Hl. pose proof (Forall2_length _ _ _ Hent) as Hlen. rewrite length_seq in Hlen.
  split; [done|]. intros i en m Hi Hm. destruct (Forall2_lookup_r _ _ _ _ _ Hent Hi) as (j & Hj & m' & Hm' & Hts & k & Hk & Ho).
  apply lookup_seq in Hj as [-> _]. simpl in *. assert (m' = m) as -> by congruence.
  rewrite Forall_forall in Ht. pose proof (Ht m (list_elem_of_lookup_2 _ _ _ Hm)) as Hr. simpl in Hr.
  rewrite Hts, u64_small by (unfold in_u64; lia). split; [done|]. exists k. split; [done|].
  destruct (omap_all acc Hall) as [_ Htake]. rewrite Htake, Ho. pose proof (data_take_le (J := J) k acc).
  unfold BagWriter.data in *. apply u64_small. unfold in_u64. lia.
Qed.

(** If every message of such a recording was appended synchronously and
    acknowledged, its timestamps do not decrease and its value is JSON, then the
    index written at the end makes seeking exact: going to a timestamp succeeds and
    skips only older messages, even though the offset an append records may lag
    behind the thread. *)
Theorem recorded_bag_seeks w fs path x os e x' acc ix fs' limit r t tp fuel :
  finished w fs path x os e x' acc (seq 0 (length acc)) ix fs' -> acc <> [] -> in_time acc ->
  Forall (λ m, prints m = true) acc -> Forall (λ m, 0 <= timestamp_ns m < 2 ^ 63) acc ->
  Z.of_nat (length ix) <= limit -> (length acc < fuel)%nat ->
  exists bs k, f_bytes <$> fs' !! path = Some bs /\
    let '(_, r') := reader_open limit path (Some bs) r in
    let '(ok, r'') := seekToTimestamp t r' in
    ok = true /\ (forall j m, (j < k)%nat -> acc !! j = Some m -> timestamp_ns m < t) /\
    readAll (J := J) fuel (setTopicFilter tp r'') =
    map (normalised (J := J)) (filter (λ m, wanted tp m = true) (drop k acc)).
Proof.
  intros Hfin Hne Htime Hall Hpos Hlim Hf.
  destruct (finished_file _ _ _ _ _ _ _ _ _ _ _ Hfin) as (ds & Hds & Hent & Hfile).
  pose proof (fn_limit _ _ _ _ _ _ _ _ _ _ _ Hfin). pose proof (fn_index _ _ _ _ _ _ _ _ _ _ _ Hfin).
  assert (Hfilter : filter (λ m, prints m = true) acc = acc).
  { clear -Hall. induction Hall as [|m acc Hm _ IH]; [done|]. by rewrite filter_bool_cons, Hm, IH. }
  pose proof (lines_of_accepted acc (fn_times _ _ _ _ _ _ _ _ _ _ _ Hfin)) as Hlines. rewrite Hfilter in Hlines.
  pose proof (seek_skips_only_older limit path acc (omap line_of acc) ds ix r t fuel Hlines Htime Hne
    (finished_indexes acc ix Hent Hall Hpos ltac:(lia)) Hds ltac:(unfold BagWriter.data in *; lia)
    ltac:(unfold max_entries; lia) (entry_for_ok _ _ _ Hent) Hf) as Hseek.
  unfold BagWriter.data in *. set (bs := bag_file _ ds ix) in *.
  destruct (reader_open limit path (Some bs) r) as [ok r'] eqn:Er. destruct (seekToTimestamp t r') as [ok' r''] eqn:Es.
  destruct Hseek as (Hok & k & Hk & Hread). exists bs, k. rewrite Er, Es. by split_and!.
Qed.
End Finished.

(** ** Recordings *)

Definition roomy : Opens := mkOpens 0 2000 true.
Definition patient : Waits := mkWaits [(20%nat, 10)] 20 0 0 20.
Definition two : list BOp :=
  [OAppend (sample 5 "x") 0 [(3%nat, 10)] 0 patient "1" roomy; OAppend (sample 9 "y") 0 [(2%nat, 10)] 0 patient "2" roomy].

Abbreviation demo_run w fs := (bw_run (J := Tree) (λ _, true) two ((bw_open "d/b.bag" roomy (w, fs)).2, [], [])).
Definition demo_world (w : SimpleBagWriter) (fs : FS) : SimpleBagWriter * FS :=
  match demo_run w fs with Some (s, _, _) => s | None => (w, fs) end.
Definition demo_closed (w : SimpleBagWriter) (fs : FS) : FS :=
  match bw_close (J := Tree) patient roomy (demo_world w fs) with Some (_, fs) => fs | None => ∅ end.
Definition fresh_writer : SimpleBagWriter := newBagWriter "d" "b" 4.

Lemma demo_finished :
  finished (J := Tree) (λ _, true) fresh_writer ∅ "d/b.bag" roomy two patient roomy [sample 5 "x"; sample 9 "y"] [0; 1]%nat
    (bw_indexer (demo_world fresh_writer ∅).1) (demo_closed fresh_writer ∅).
Proof.
  split.
  - reflexivity.
  - reflexivity.
  - reflexivity.
  - vm_compute. split; [reflexivity|discriminate].
  - split; [reflexivity|]. apply Nat.leb_le. vm_compute. reflexivity.
  - split; [reflexivity|]. apply Nat.leb_le. vm_compute. reflexivity.
  - vm_compute. reflexivity.
  - repeat constructor; vm_compute; discriminate.
  - exists (demo_world fresh_writer ∅), (set_open false (set_async None (demo_world fresh_writer ∅).1)).
    split; [vm_compute; reflexivity|]. split; [reflexivity|]. vm_compute. reflexivity.
Qed.


Lemma recorded_bag_seeks_witness :
  exists bs k, f_bytes <$> demo_closed fresh_writer ∅ !! "d/b.bag" = Some bs /\
    let '(_, r) := reader_open 100 "d/b.bag" (Some bs) newReader in
    (seekToTimestamp 7 r).1 = true /\
    readAll (J := Tree) 9 (setTopicFilter "" (seekToTimestamp 7 r).2) =
    map (normalised (J := Tree)) (filter (λ m, wanted "" m = true) (drop k [sample 5 "x"; sample 9 "y"])).
Proof.
  destruct (recorded_bag_seeks (J := Tree) (λ _, true) _ _ _ _ _ _ _ _ _ _ 100 newReader 7 "" 9 demo_finished)
    as (bs & k & Hbs & H).
  - discriminate.
  - intros i j m m' Hij Hi Hj. destruct i as [|[|i]], j as [|[|j]]; simpl in *; try lia; simplify_eq; simpl; lia.
  - repeat constructor.
  - repeat constructor; vm_compute; discriminate.
  - vm_compute. discriminate.
  - simpl. lia.
  - exists bs, k. split; [exact Hbs|]. destruct (reader_open 100 "d/b.bag" (Some bs) newReader) as [ok r].
    destruct (seekToTimestamp 7 r) as [ok' r']. destruct H as (Hok & _ & Hread). split; [exact Hok|exact Hread].
Defined.

(** [rotate] closes the file without an index and a footer: a bag that was rotated
    cannot be opened by [BagReader]. *)
Definition rotated : FS :=
  (demo_world (setRetentionPolicy (createCountPolicy 9) (setRotationPolicy (mkRotation R_SIZE 1 0) fresh_writer)) ∅).2.
Definition opens (bs : bytes) : result string bool := (reader_open 100 "d/b.bag" (Some bs) newReader).1.
Theorem rotated_bag_is_unreadable :
  length <$> (f_bytes <$> rotated !! "d/b.bag") <> Some 0%nat /\
  opens <$> (f_bytes <$> rotated !! "d/b.bag") = Some (Ok false).
Proof. split; vm_compute; [discriminate|reflexivity]. Qed.

(** [stop] marks the writer closed without writing the footer, and [close] then
    does nothing: a bag that was stopped cannot be opened either. *)
Definition stopped : FS :=
  match bw_stop (J := Tree) patient 0 (demo_world fresh_writer ∅) with
  | Some s => match bw_close (J := Tree) patient roomy s with Some s => s.2 | None => ∅ end
  | None => ∅
  end.
Theorem stopped_bag_is_unreadable :
  length <$> (f_bytes <$> stopped !! "d/b.bag") <> Some 0%nat /\
  opens <$> (f_bytes <$> stopped !! "d/b.bag") = Some (Ok false).
Proof. split; vm_compute; [discriminate|reflexivity]. Qed.

(** A bag that exists is opened for appending: its footer runs into the first new
    line, which the reader cannot parse, and that message is lost. *)
Definition read_times (bs : bytes) : list Z :=
  timestamp_ns <$> readAll (J := Tree) 9 (reader_open 100 "d/b.bag" (Some bs) newReader).2.
Theorem reopened_bag_loses_a_message :
  read_times <$> (f_bytes <$> demo_closed fresh_writer (demo_closed fresh_writer ∅) !! "d/b.bag") = Some [5; 9; 9].
Proof. vm_compute. reflexivity. Qed.
