(* ===== verification/BagReplay.v ===== *)
(** * Replaying a bag (src/core/logging/core/BagReplayer)

    The replay thread makes one turn of its loop per step; the clients pause,
    resume and stop it in between.  The sleeps between two messages are not part
    of the model: they change when a message is delivered, not which. *)

From S2P Require Import Prelude BagIndex BagReader.

Inductive ReplayThread := RT_None | RT_Running | RT_Ended.   (* ended: not joined yet *)

Record BagReplayer := mkReplayer {
  rp_reader : BagReader;
  rp_callback : bool;
  rp_topicFilter : string;
  rp_startTime : Z;
  rp_endTime : Z;
  rp_thread : ReplayThread;
  rp_isPlaying : bool;
  rp_isPaused : bool;
  rp_shouldStop : bool;
  rp_replayed : Z;
  rp_skipped : Z;
  rp_delivered : list BagMessage   (* the calls of the callback *)
}.

Definition newReplayer : BagReplayer :=
  mkReplayer newReader false "" 0 (2 ^ 64 - 1) RT_None false false false 0 0 [].

Definition set_reader (r : BagReader) (p : BagReplayer) : BagReplayer :=
  mkReplayer r (rp_callback p) (rp_topicFilter p) (rp_startTime p) (rp_endTime p) (rp_thread p) (rp_isPlaying p)
    (rp_isPaused p) (rp_shouldStop p) (rp_replayed p) (rp_skipped p) (rp_delivered p).
Definition set_flags (th : ReplayThread) (playing paused stop : bool) (p : BagReplayer) : BagReplayer :=
  mkReplayer (rp_reader p) (rp_callback p) (rp_topicFilter p) (rp_startTime p) (rp_endTime p) th playing
    paused stop (rp_replayed p) (rp_skipped p) (rp_delivered p).
Definition set_replay_stats (replayed skipped : Z) (ms : list BagMessage) (p : BagReplayer) : BagReplayer :=
  mkReplayer (rp_reader p) (rp_callback p) (rp_topicFilter p) (rp_startTime p) (rp_endTime p) (rp_thread p) (rp_isPlaying p)
    (rp_isPaused p) (rp_shouldStop p) replayed skipped ms.

Definition setMessageCallback (p : BagReplayer) : BagReplayer :=
  mkReplayer (rp_reader p) true (rp_topicFilter p) (rp_startTime p) (rp_endTime p) (rp_thread p) (rp_isPlaying p)
    (rp_isPaused p) (rp_shouldStop p) (rp_replayed p) (rp_skipped p) (rp_delivered p).
Definition replayer_setTopicFilter (t : string) (p : BagReplayer) : BagReplayer :=
  mkReplayer (rp_reader p) (rp_callback p) t (rp_startTime p) (rp_endTime p) (rp_thread p) (rp_isPlaying p)
    (rp_isPaused p) (rp_shouldStop p) (rp_replayed p) (rp_skipped p) (rp_delivered p).
Definition setTimeRange (startTime endTime : Z) (p : BagReplayer) : BagReplayer :=
  mkReplayer (rp_reader p) (rp_callback p) (rp_topicFilter p) startTime endTime (rp_thread p) (rp_isPlaying p)
    (rp_isPaused p) (rp_shouldStop p) (rp_replayed p) (rp_skipped p) (rp_delivered p).

Definition replayer_open (limit : Z) (path : string) (file : option bytes) (p : BagReplayer) :
    result string bool * BagReplayer :=
  if rp_isPlaying p then (Ok false, p)
  else let '(ok, r) := reader_open limit path file (rp_reader p) in (ok, set_reader r p).

(** What [start] does: refuse, start the thread, or terminate the process, which
    is what replacing a thread object that was not joined does. *)
Inductive Started := Refused | Playing | Terminated.

Definition replayer_start (p : BagReplayer) : Started * BagReplayer :=
  if rp_isPlaying p then (Refused, p)
  else if negb (bool_decide (is_Some (br_ifs (rp_reader p)))) then (Refused, p)
  else
    let p := set_replay_stats 0 0 (rp_delivered p) p in
    let r := if 0 <? rp_startTime p then (seekToTimestamp (rp_startTime p) (rp_reader p)).2
             else seekToStart (rp_reader p) in
    let p := set_reader r p in
    match rp_thread p with
    | RT_None => (Playing, set_flags RT_Running true false false p)
    | _ => (Terminated, set_flags (rp_thread p) true false false p)
    end.

Definition replayer_pause (p : BagReplayer) : BagReplayer :=
  if rp_isPlaying p && negb (rp_isPaused p) then set_flags (rp_thread p) (rp_isPlaying p) true (rp_shouldStop p) p else p.
Definition replayer_resume (p : BagReplayer) : BagReplayer :=
  if rp_isPlaying p && rp_isPaused p then set_flags (rp_thread p) (rp_isPlaying p) false (rp_shouldStop p) p else p.

Definition isInTimeRange (p : BagReplayer) (m : BagMessage) : bool :=
  (rp_startTime p <=? u64 (timestamp_ns m)) && (u64 (timestamp_ns m) <=? rp_endTime p).
Definition replays (p : BagReplayer) (m : BagMessage) : bool :=
  (bool_decide (rp_topicFilter p = "") || bool_decide (topic m = rp_topicFilter p)) && isInTimeRange p m.

Section Thread.
Context {J : Type} `{!Json J}.

(** One turn of [replayThread]. *)
Definition replay_step (p : BagReplayer) : BagReplayer :=
  match rp_thread p with
  | RT_None | RT_Ended => p
  | RT_Running =>
    if rp_shouldStop p || negb (hasNext (rp_reader p))
    then set_flags RT_Ended false (rp_isPaused p) (rp_shouldStop p) p
    else if rp_isPaused p then p
    else
      match readNext (J := J) (rp_reader p) with
      | (None, r) => set_reader r p
      | (Some m, r) =>
        let p := set_reader r p in
        if replays p m
        then set_replay_stats (u64 (rp_replayed p + 1)) (rp_skipped p)
               (if rp_callback p then rp_delivered p ++ [m] else rp_delivered p) p
        else set_replay_stats (rp_replayed p) (u64 (rp_skipped p + 1)) (rp_delivered p) p
      end
  end.

Definition replay_steps (n : nat) (p : BagReplayer) : BagReplayer := Nat.iter n replay_step p.

Definition join (p : BagReplayer) : option BagReplayer :=
  match rp_thread p with
  | RT_Running => None
  | _ => Some (set_flags RT_None (rp_isPlaying p) (rp_isPaused p) (rp_shouldStop p) p)
  end.

(** [n]: the turns the thread makes meanwhile; [None]: not returned. *)
Definition waitUntilFinished (n : nat) (p : BagReplayer) : option BagReplayer := join (replay_steps n p).

Definition replayer_stop (n : nat) (p : BagReplayer) : option BagReplayer :=
  if negb (rp_isPlaying p) then Some p
  else
    match join (replay_steps n (set_flags (rp_thread p) (rp_isPlaying p) false true p)) with
    | Some p => Some (set_flags (rp_thread p) false (rp_isPaused p) (rp_shouldStop p) p)
    | None => None
    end.

Definition replayer_close (n : nat) (p : BagReplayer) : option BagReplayer :=
  (λ p, set_reader (reader_close (rp_reader p)) p) <$> replayer_stop n p.

(** ** Interleavings *)

Inductive RStep := RThread | RPause | RResume.
Definition replay_exec (p : BagReplayer) (o : RStep) : BagReplayer :=
  match o with RThread => replay_step p | RPause => replayer_pause p | RResume => replayer_resume p end.
Definition replay_run (os : list RStep) (p : BagReplayer) : BagReplayer := foldl replay_exec p os.
End Thread.

(** ** What a replay delivers *)

Section Replay.
Context {J : Type} `{!Json J, !JsonLaws J}.

(** [todo] are the messages ahead of the reader, [done] those behind it. *)
Record replaying (bs : bytes) (f : BagFooter) (keep : BagMessage -> bool) (done : list BagMessage) (ls : list bytes)
    (p : BagReplayer) : Prop := {
  rg_lines : Forall line_ok ls /\ reads_lines bs f "" ls (rp_reader p);
  rg_keep : rp_callback p = true /\ replays p = keep;
  rg_delivered : rp_delivered p = filter (λ m, keep m = true) done;
  rg_replayed : rp_replayed p = u64 (Z.of_nat (length (filter (λ m, keep m = true) done)));
  rg_skipped : rp_skipped p = u64 (Z.of_nat (length (filter (λ m, keep m = false) done)))
}.

Lemma filter_snoc (keep : BagMessage -> bool) b l m :
  filter (λ m, keep m = b) (l ++ [m]) = filter (λ m, keep m = b) l ++ (if decide (keep m = b) then [m] else []).
Proof. by rewrite filter_app. Qed.

Lemma u64_succ a : u64 (u64 a + 1) = u64 (a + 1).
Proof. unfold u64, wrap. apply Zplus_mod_idemp_l. Qed.

(** A turn of the loop moves some messages from ahead to behind; nobody stopping
    it, the thread ends only when there is nothing ahead, and otherwise, unless
    paused, it moves on. *)
Lemma replay_step_ok bs f keep done ls p :
  replaying bs f keep done ls p ->
  exists more ls', omap (accept (J := J) "") ls = more ++ omap (accept (J := J) "") ls' /\
    replaying bs f keep (done ++ more) ls' (replay_step (J := J) p) /\ (length ls' <= length ls)%nat /\
    (rp_thread p = RT_Running -> rp_shouldStop p = false ->
       (ls = [] /\ rp_thread (replay_step (J := J) p) = RT_Ended /\ rp_isPlaying (replay_step (J := J) p) = false /\
          rp_shouldStop (replay_step (J := J) p) = false) \/
       (rp_thread (replay_step (J := J) p) = RT_Running /\ rp_shouldStop (replay_step (J := J) p) = false /\
          rp_isPlaying (replay_step (J := J) p) = rp_isPlaying p /\
          (rp_isPaused p = false -> (length ls' < length ls)%nat /\ rp_isPaused (replay_step (J := J) p) = false))).
Proof.
  intros Hp. pose proof Hp as [[Hok Hr] [Hcb Hk] Hd Hn Hs].
  unfold replay_step. destruct (rp_thread p) eqn:Et; [| |].
  1, 3: exists [], ls; rewrite (app_nil_r done); by split_and!.
  unfold hasNext. rewrite (reads_lines_area _ _ _ _ _ Hr). rewrite negb_involutive.
  destruct (rp_shouldStop p) eqn:Estop; simpl.
  { exists [], ls. rewrite (app_nil_r done). split_and!; [done|by destruct Hp|lia|done]. }
  destruct (decide (ls = [])) as [->|Hne].
  { rewrite bool_decide_eq_true_2 by done. exists [], []. rewrite (app_nil_r done).
    split_and!; [done|by destruct Hp|done|]. intros _ _. left. by split_and!. }
  rewrite bool_decide_eq_false_2 by done. destruct (rp_isPaused p) eqn:Ep.
  { exists [], ls. rewrite (app_nil_r done), Et, Estop. split_and!; [done|done|done|]. intros _ _. right. by split_and!. }
  pose proof (readNext_spec (J := J) bs f "" ls (rp_reader p) Hok Hr) as Hread.
  destruct (omap (accept (J := J) "") ls) as [|m ms] eqn:Eo.
  - destruct Hread as (r' & -> & Hr'). exists [], []. rewrite (app_nil_r done).
    split_and!; [done|split; [split; [constructor|done]|done..]|simpl; lia|].
    intros _ _. right. simpl. rewrite Et, Estop, Ep. split_and!; try done. intros _. destruct ls; [done|simpl; by split; [lia|]].
  - destruct Hread as (r' & ls' & -> & Hr' & [k Hsuf] & Hlt & Hms). exists [m], ls'. split; [by rewrite Hms|].
    assert (Hok' : Forall line_ok ls') by (rewrite Hsuf in Hok; by apply Forall_app in Hok as [_ ?]).
    change (replays (set_reader r' p) m) with (replays p m). rewrite Hk. split; [|split; [lia|]].
    + destruct (keep m) eqn:Ek; (split; simpl; [done|done|..]); rewrite ?filter_snoc, ?Ek; simpl; rewrite ?app_nil_r;
        rewrite ?Hcb, ?Hd, ?Hn, ?Hs, ?u64_succ, ?length_app; simpl; try done; f_equal; lia.
    + intros _ _. right. by destruct (keep m); simpl; rewrite ?Et, ?Estop, ?Ep; split_and!.
Qed.

(** A replay that nobody stops: it runs, or it has read everything. *)
Definition live (ls : list bytes) (p : BagReplayer) : Prop :=
  rp_shouldStop p = false /\
  ((rp_thread p = RT_Running /\ rp_isPlaying p = true) \/ (rp_thread p = RT_Ended /\ rp_isPlaying p = false /\ ls = [])).

Definition replayed_of (bs : bytes) (f : BagFooter) (keep : BagMessage -> bool) (all : list BagMessage) (n : nat)
    (p : BagReplayer) : Prop :=
  exists done ls, replaying bs f keep done ls p /\ live ls p /\ all = done ++ omap (accept (J := J) "") ls /\
    (length ls <= n)%nat.

Lemma replay_step_all bs f keep all n p :
  replayed_of bs f keep all n p -> replayed_of bs f keep all n (replay_step (J := J) p).
Proof.
  intros (done & ls & Hp & [Hs Hl] & -> & Hn).
  destruct (replay_step_ok bs f keep done ls p Hp) as (more & ls' & Ho & Hp' & Hle & Hprog).
  exists (done ++ more), ls'. split; [done|]. split; [|split; [by rewrite Ho, app_assoc|lia]].
  destruct Hl as [[Ht Hpl]|(Ht & Hpl & ->)].
  - destruct (Hprog Ht Hs) as [(-> & H1 & H2 & H3)|(H1 & H2 & H3 & _)]; (split; [done|]).
    + right. split_and!; [done|done|by destruct ls'; simpl in *; [|lia]].
    + left. split; [done|congruence].
  - destruct ls'; [|simpl in Hle; lia]. unfold replay_step. rewrite Ht. split; [done|]. right. by split_and!.
Qed.

Lemma replay_run_all bs f keep all n os p :
  replayed_of bs f keep all n p -> replayed_of bs f keep all n (replay_run (J := J) os p).
Proof.
  intros Hp. apply (foldl_invariant (replayed_of bs f keep all n)); [done|]. clear p Hp. intros p [| |] Hp; simpl.
  - by apply replay_step_all.
  - destruct Hp as (done & ls & Hp & Hl & Hall). exists done, ls. unfold replayer_pause. destruct (_ && _); [|done].
    split; [by destruct Hp|]. by split.
  - destruct Hp as (done & ls & Hp & Hl & Hall). exists done, ls. unfold replayer_resume. destruct (_ && _); [|done].
    split; [by destruct Hp|]. by split.
Qed.

Lemma replay_steps_S n p : replay_steps (J := J) (S n) p = replay_steps (J := J) n (replay_step (J := J) p).
Proof. apply Nat.iter_succ_r. Qed.

Lemma replay_steps_ended n p : rp_thread p = RT_Ended -> replay_steps (J := J) n p = p.
Proof.
  intros Hp. induction n as [|n IH]; [done|]. rewrite replay_steps_S. unfold replay_step. by rewrite Hp.
Qed.

(** Not paused, the thread reaches the end in a turn per line and one more. *)
Lemma replay_finishes bs f keep all done ls p n :
  replaying bs f keep done ls p -> live ls p -> all = done ++ omap (accept (J := J) "") ls ->
  rp_isPaused p = false \/ rp_thread p = RT_Ended -> (length ls < n)%nat ->
  let p' := replay_steps (J := J) n p in
  rp_thread p' = RT_Ended /\ rp_isPlaying p' = false /\ rp_delivered p' = filter (λ m, keep m = true) all.
Proof.
  revert done ls p. induction n as [|n IH]; intros done ls p Hp [Hs Hl] Hall Hpa Hn; [lia|].
  cbv zeta. rewrite replay_steps_S.
  destruct (replay_step_ok bs f keep done ls p Hp) as (more & ls' & Ho & Hp' & Hnil & Hprog).
  destruct Hl as [[Ht Hpl]|(Ht & Hpl & ->)].
  - destruct (Hprog Ht Hs) as [(-> & H1 & H2 & H3)|(H1 & H2 & H3 & H4)].
    + rewrite replay_steps_ended by done. split_and!; [done|done|]. rewrite (rg_delivered _ _ _ _ _ _ Hp'), Hall, Ho.
      destruct ls'; [by rewrite !app_nil_r|simpl in Hnil; lia].
    + destruct Hpa as [Hpa|]; [|congruence].
      destruct (H4 Hpa) as [Hlt Hpa']. apply (IH (done ++ more) ls'); [done| |by rewrite Hall, Ho, app_assoc|by left|lia].
      split; [done|]. left. split; [done|congruence].
  - assert (Hst : replay_step (J := J) p = p) by (unfold replay_step; by rewrite Ht). rewrite Hst, replay_steps_ended by done.
    split_and!; [done|done|]. rewrite (rg_delivered _ _ _ _ _ _ Hp), Hall. simpl. by rewrite app_nil_r.
Qed.

(** A replayer set up for a topic and a range of times. *)
Definition replayer_for (tp : string) (a b : Z) : BagReplayer :=
  setTimeRange a b (replayer_setTopicFilter tp (setMessageCallback newReplayer)).

Definition in_range (tp : string) (a b : Z) (m : BagMessage) : bool :=
  (bool_decide (tp = "") || bool_decide (topic m = tp)) && ((a <=? u64 (timestamp_ns m)) && (u64 (timestamp_ns m) <=? b)).

Lemma in_range_normalised tp a b (ms : list BagMessage) :
  filter (λ m, in_range tp a b m = true) (map (normalised (J := J)) ms) =
  map (normalised (J := J)) (filter (λ m, in_range tp a b m = true) ms).
Proof.
  induction ms as [|m ms IH]; [done|]. cbn [map]. rewrite !filter_bool_cons, IH.
  replace (in_range tp a b (normalised m)) with (in_range tp a b m)
    by (unfold in_range; by rewrite topic_normalised, timestamp_normalised).
  by destruct (in_range tp a b m).
Qed.

Lemma filter_wanted_all (ms : list BagMessage) : filter (λ m, wanted "" m = true) ms = ms.
Proof. induction ms as [|m ms IH]; [done|]. rewrite filter_bool_cons. simpl. by rewrite IH. Qed.

(** Messages older than the range are not in it. *)
Lemma in_range_drop tp a b k (ms : list BagMessage) :
  Forall (λ m, 0 <= timestamp_ns m < 2 ^ 63) ms ->
  (forall j m, (j < k)%nat -> ms !! j = Some m -> timestamp_ns m < a) ->
  filter (λ m, in_range tp a b m = true) (drop k ms) = filter (λ m, in_range tp a b m = true) ms.
Proof.
  intros Hpos. revert k. induction Hpos as [|m ms Hm _ IH]; intros [|k] Hold; try done. cbn [drop].
  rewrite filter_bool_cons, (IH k) by (intros j m' Hj; apply (Hold (S j)); lia).
  pose proof (Hold 0%nat m ltac:(lia) eq_refl) as Hlt. unfold in_range at 3.
  rewrite u64_small by (unfold in_u64; lia). rewrite (proj2 (Z.leb_gt a _)) by lia. by rewrite andb_false_r.
Qed.

(** The reader of a replayer that was just started on a bag. *)
Lemma start_position limit path ms lines ls dataSize ix tp a b :
  lines_of (J := J) ms lines -> in_time ms -> ms <> [] -> indexes ms lines ix \/ ix = [] -> in_u64 dataSize ->
  Z.of_nat (length (concat lines)) < 2 ^ 63 -> Z.of_nat (length ix) <= Z.min limit max_entries -> Forall entry_ok ix ->
  text ls = concat lines -> (forall k, length (text (take k ls)) = length (concat (take k lines))) ->
  let bs := bag_file (concat lines) dataSize ix in
  exists k p, (forall j m, (j < k)%nat -> ms !! j = Some m -> timestamp_ns m < a) /\
    replayer_open limit path (Some bs) (replayer_for tp a b) = (Ok true, p) /\
    replayer_start p =
      (Playing, mkReplayer (mkReader path (Some (mkIStream bs (length (text (take k ls))) false false))
                              (bag_footer (concat lines) dataSize ix) ix "" (Z.of_nat (length (text (take k ls)))))
                  true tp a b RT_Running true false false 0 0 []).
Proof.
  intros Hlines Htime Hne Hix Hd Hl Hc Hok Ht Htext bs.
  unfold replayer_open, replayer_for. cbn [rp_isPlaying setTimeRange replayer_setTopicFilter setMessageCallback newReplayer rp_reader].
  unfold reader_open. cbn [br_ifs newReader bool_decide]. rewrite bool_decide_eq_false_2 by (by intros [? ?]). cbn [br_indexer].
  unfold bs. rewrite read_bag_file by done. cbn [br_topicFilter br_currentPosition].
  replace (if bool_decide (ix = []) then [] else ix) with ix by (by case_bool_decide; subst).
  change (footer_isValid (bag_footer (concat lines) dataSize ix)) with true.
  change (isSupportedVersion (bag_footer (concat lines) dataSize ix)) with true. cbn [negb].
  unfold seekToStart. cbn [br_ifs br_footer br_indexer br_topicFilter br_filepath].
  set (r := mkReader _ _ _ _ _ _). unfold replayer_start.
  destruct (decide (0 < a)) as [Ha|Ha].
  - destruct Hix as [Hix|Hix].
    + destruct (seek_position ms lines ls ix path bs (bag_footer (concat lines) dataSize ix) "" 0 a
        (mkIStream bs 0 false false) Htime Hne Hix Hl Htext eq_refl eq_refl) as (k & Hk & Hseek).
      exists k. eexists. split; [done|]. split; [reflexivity|].
      cbn [rp_isPlaying set_reader rp_reader set_replay_stats rp_startTime rp_thread setTimeRange replayer_setTopicFilter setMessageCallback newReplayer].
      rewrite bool_decide_eq_true_2 by (by eexists). rewrite (proj2 (Z.ltb_lt 0 a)) by done. cbn [negb].
      change r with (mkReader path (Some (mkIStream bs 0 false false)) (bag_footer (concat lines) dataSize ix) ix "" 0).
      rewrite Hseek. done.
    + exists 0%nat. eexists. split; [lia|]. split; [reflexivity|].
      cbn [rp_isPlaying set_reader rp_reader set_replay_stats rp_startTime rp_thread setTimeRange replayer_setTopicFilter setMessageCallback newReplayer].
      rewrite bool_decide_eq_true_2 by (by eexists). rewrite (proj2 (Z.ltb_lt 0 a)) by done. cbn [negb].
      unfold seekToTimestamp. subst ix. done.
  - exists 0%nat. eexists. split; [lia|]. split; [reflexivity|].
    cbn [rp_isPlaying set_reader rp_reader set_replay_stats rp_startTime rp_thread setTimeRange replayer_setTopicFilter setMessageCallback newReplayer].
    rewrite bool_decide_eq_true_2 by (by eexists). rewrite (proj2 (Z.ltb_ge 0 a)) by lia. done.
Qed.

(** C17: Replaying a finished bag of messages in time order, with an entry for each
    in the index or with none, delivers to the callback, whatever the clients pause
    and resume, a prefix of the messages of the chosen topic and time range, in
    order; and once it is resumed the thread ends after a turn per message and one
    more, having delivered all of them. *)
Theorem replay_delivers_the_range limit path ms lines dataSize ix tp a b os :
  lines_of (J := J) ms lines -> in_time ms -> Forall (λ m, 0 <= timestamp_ns m < 2 ^ 63) ms -> ms <> [] ->
  indexes ms lines ix \/ ix = [] -> in_u64 dataSize -> Z.of_nat (length (concat lines)) < 2 ^ 63 ->
  Z.of_nat (length ix) <= Z.min limit max_entries -> Forall entry_ok ix ->
  let wanted_messages := map (normalised (J := J)) (filter (λ m, in_range tp a b m = true) ms) in
  let '(ok, p1) := replayer_open limit path (Some (bag_file (concat lines) dataSize ix)) (replayer_for tp a b) in
  let '(started, p2) := replayer_start p1 in
  let p := replay_run (J := J) os p2 in
  ok = Ok true /\ started = Playing /\ rp_delivered p `prefix_of` wanted_messages /\
  let p' := replay_steps (J := J) (length ms + 1) (replayer_resume p) in
  rp_thread p' = RT_Ended /\ rp_isPlaying p' = false /\ rp_delivered p' = wanted_messages.
Proof.
  intros Hlines Htime Hpos Hne Hix Hd Hl Hc Hok wm.
  destruct (lines_text ms lines Hlines) as (ls & Ht & Hlok & Hlen & Htext & Hread).
  destruct (start_position limit path ms lines ls dataSize ix tp a b Hlines Htime Hne Hix Hd Hl Hc Hok Ht Htext)
    as (k & p1 & Hold & -> & ->).
  set (bs := bag_file _ _ _). set (f := bag_footer _ _ _). set (p2 := mkReplayer _ _ _ _ _ _ _ _ _ _ _ _).
  assert (Hall : filter (λ m, in_range tp a b m = true) (omap (accept (J := J) "") (drop k ls)) = wm).
  { rewrite Hread, filter_wanted_all, in_range_normalised, in_range_drop by done. done. }
  assert (H2 : replayed_of bs f (in_range tp a b) (omap (accept (J := J) "") (drop k ls)) (length ms) p2).
  { exists [], (drop k ls). split_and!; [|by split; [|left]|done|rewrite length_drop; lia]. split; try done. split; [by apply Forall_drop|].
    pose proof (reads_lines_at ls (index_bytes ix ++ footer_bytes f) path ix "" k f) as H. rewrite Ht in H. by apply H. }
  split; [done|]. split; [done|]. pose proof (replay_run_all _ _ _ _ _ os p2 H2) as Hp. split.
  - destruct Hp as (done & rest & Hp & _ & Hsplit & _). rewrite <- Hall, Hsplit, filter_app.
    rewrite (rg_delivered _ _ _ _ _ _ Hp). by eexists.
  - destruct (replay_run_all _ _ _ _ _ [RResume] _ Hp) as (done & rest & Hp' & Hlive & Hsplit & Hn). simpl in Hp', Hlive.
    rewrite <- Hall. apply (replay_finishes bs f _ _ done rest); try done; [|lia].
    clear -Hlive. unfold replayer_resume in *. destruct (rp_isPlaying _) eqn:E1, (rp_isPaused _) eqn:E2; simpl in *; auto.
    right. destruct Hlive as [_ [[_ ?]|[? _]]]; congruence.
Qed.
End Replay.

Lemma sample_in_time : in_time [sample 5 "x"; sample 9 "y"].
Proof. intros i j m m' Hij Hi Hj. destruct i as [|[|i]], j as [|[|j]]; simpl in *; try lia; simplify_eq; simpl; lia. Qed.

Lemma replay_delivers_the_range_witness :
  let bs := bag_file (concat [sample_line 5 "x"; sample_line 9 "y"]) 7 [] in
  let '(_, p1) := replayer_open 100 "a.bag" (Some bs) (replayer_for "" 6 20) in
  let '(_, p2) := replayer_start p1 in
  rp_delivered (replay_steps (J := Tree) 3 (replayer_resume (replay_run (J := Tree) [RThread; RPause; RThread] p2))) =
  [normalised (J := Tree) (sample 9 "y")].
Proof.
  intros bs. pose proof (replay_delivers_the_range (J := Tree) 100 "a.bag" _ _ 7 [] "" 6 20 [RThread; RPause; RThread]
    sample_lines sample_in_time) as H.
  destruct (replayer_open 100 "a.bag" _ _) as [ok p1]. destruct (replayer_start p1) as [st p2].
  destruct H as (_ & _ & _ & _ & _ & Hd).
  - repeat constructor; vm_compute; discriminate.
  - discriminate.
  - by right.
  - split; [discriminate|reflexivity].
  - vm_compute. reflexivity.
  - discriminate.
  - constructor.
  - exact Hd.
Defined.

(** A replay that has ended by itself and was not waited for leaves a thread
    object that was not joined: the next [start] replaces it and the process is
    terminated. *)
Definition played : BagReplayer :=
  replay_steps (J := Tree) 3
    (replayer_start (replayer_open 100 "a.bag" (Some (bag_file (sample_line 5 "x") 7 [])) (replayer_for "" 0 9)).2).2.
Theorem restart_without_wait_terminates : rp_isPlaying played = false /\ (replayer_start played).1 = Terminated.
Proof. by vm_compute. Qed.

(** [start] ignores a seek that fails: a bag without an index is replayed once for
    a time range, and not at all the second time. *)
Definition replay_again : option BagReplayer :=
  (λ p, replay_steps (J := Tree) 3 (replayer_start p).2) <$>
  waitUntilFinished (J := Tree) 3
    (replayer_start (replayer_open 100 "a.bag" (Some (bag_file (sample_line 5 "x") 7 [])) (replayer_for "" 1 9)).2).2.
Theorem second_replay_delivers_nothing :
  rp_replayed <$> replay_again = Some 0 /\ (length ∘ rp_delivered) <$> replay_again = Some 1%nat.
Proof. by vm_compute. Qed.
