(* ===== verification/BagLogger.v ===== *)
(** * Logging the changes of the data store (src/core/logging/core/DataStoreBagLogger)

    The logger is a subscriber of the event bus that turns each change event into
    a bag message and hands it to [SimpleBagWriter].  The bus is a class; the
    writer is the one of [BagWriter]. *)

From Stdlib Require Import Ascii.
From S2P Require Import Prelude EventAdapter BagIndex BagReader AsyncWriter Retention BagWriter.

(** What the subscription delivers: a change event, or an event of that type of
    another class. *)
Inductive LoggedEvent := Changed (timestamp_ns : Z) (e : DataStoreValueChangedEvent) | Foreign.

Record Logger := mkLogger {
  lg_subscriptionId : string;
  lg_isRunning : bool;
  lg_eventsReceived : Z;
  lg_eventsDropped : Z
}.

Definition newLogger : Logger := mkLogger "" false 0 0.

(** What the logger uses of the bus. *)
Class LoggerBus (B : Type) := {
  lb_subscribe : B -> string * B;
  lb_unsubscribe : string -> B -> B
}.

Definition bytes_of (s : string) : bytes := map (λ c, Z.of_N (N_of_ascii c)) (String.list_ascii_of_string s).

Definition convert_type (valueType : string) : DataType :=
  if bool_decide (valueType = "MissionState") then DT_MissionState
  else if bool_decide (valueType = "TaskState") then DT_TaskState
  else if bool_decide (valueType = "Alarm") then DT_Alarm
  else if bool_decide (valueType = "Event") then DT_Event
  else if bool_decide (valueType = "InterfaceData") then DT_InterfaceData
  else DT_Event.

Definition convertToBagMessage (ts : Z) (e : DataStoreValueChangedEvent) : BagMessage :=
  mkBagMessage ts (vc_key e) (convert_type (vc_valueType e)) (bytes_of (vc_newValue e)).

Section Logger.
Context {J : Type} `{!Json J} (removable : string -> bool) {B : Type} `{!LoggerBus B}.

Abbreviation World := (SimpleBagWriter * FS)%type.

Definition logger_start (stamp : string) (x : Opens) (l : Logger) (b : B) (s : World) :
    result string bool * (Logger * B * World) :=
  if lg_isRunning l then (Ok false, (l, b, s))
  else
    match bw_start stamp x s with
    | (Throw e, s) => (Throw e, (l, b, s))
    | (Ok _, s) =>
      let '(id, b) := lb_subscribe b in
      (Ok true, (mkLogger id true (lg_eventsReceived l) (lg_eventsDropped l), b, s))
    end.

Definition logger_stop (turns : list (nat * Z)) (after : nat) (e : Waits) (stamp : string) (x : Opens) (l : Logger) (b : B)
    (s : World) : option (Logger * B * World) :=
  if negb (lg_isRunning l) then Some (l, b, s)
  else
    let b := if bool_decide (lg_subscriptionId l = "") then b else lb_unsubscribe (lg_subscriptionId l) b in
    match bw_flush (J := J) removable 5000 turns after e stamp x s with
    | None => None
    | Some (_, s) =>
      match bw_stop (J := J) e (op_now x) s with
      | None => None
      | Some s => Some (mkLogger "" false (lg_eventsReceived l) (lg_eventsDropped l), b, s)
      end
    end.

Definition drop_event (l : Logger) : Logger :=
  mkLogger (lg_subscriptionId l) (lg_isRunning l) (lg_eventsReceived l) (u64 (lg_eventsDropped l + 1)).

(** The callback. *)
Definition onDataStoreEvent (ev : LoggedEvent) (l : Logger) (s : World) : Logger * World :=
  let l := mkLogger (lg_subscriptionId l) (lg_isRunning l) (u64 (lg_eventsReceived l + 1)) (lg_eventsDropped l) in
  match ev with
  | Foreign => (drop_event l, s)
  | Changed ts e =>
    let m := convertToBagMessage ts e in
    if negb (message_isValid m) then (drop_event l, s)
    else
      let '(ok, s) := bw_appendAsync (J := J) m s in
      (if ok then l else drop_event l, s)
  end.

Definition logger_getStats (l : Logger) (w : SimpleBagWriter) : BagWriterStats :=
  let st := getStats w in
  mkStats (st_messagesWritten st) (u64 (st_messagesDropped st + lg_eventsDropped l)) (st_bytesWritten st)
    (st_rotationCount st) (st_currentFilePath st) (st_currentFileSize st).

Definition logger_flush (timeoutMs : Z) (turns : list (nat * Z)) (after : nat) (e : Waits) (stamp : string) (x : Opens)
    (l : Logger) (s : World) : option (bool * World) :=
  if negb (lg_isRunning l) then Some (false, s) else bw_flush (J := J) removable timeoutMs turns after e stamp x s.

(** ** Events *)

(** An event, after the writer thread made some steps. *)
Definition event_step (t : Logger * World) (ev : nat * LoggedEvent) : Logger * World :=
  onDataStoreEvent ev.2 t.1 (bw_thread (J := J) ev.1 t.2).
Definition events_run (evs : list (nat * LoggedEvent)) (t : Logger * World) : Logger * World := foldl event_step t evs.

Definition is_message (ev : nat * LoggedEvent) : option BagMessage :=
  match ev.2 with Changed ts e => Some (convertToBagMessage ts e) | Foreign => None end.

(** The messages in the recording are the accepted ones of the events so far. *)
Record logged (o : OStream) (path : string) (cap : nat) (limit : Z) (evs : list (nat * LoggedEvent)) (acc : list BagMessage)
    (t : Logger * World) : Prop := {
  ld_recording : recording (J := J) o path cap limit t.2 acc [];
  ld_sublist : acc `sublist_of` omap is_message evs;
  ld_valid : Forall (λ m, message_isValid m = true) acc;
  ld_received : lg_eventsReceived t.1 = u64 (Z.of_nat (length evs));
  ld_dropped : exists d, lg_eventsDropped t.1 = u64 (Z.of_nat d) /\ (d + length acc = length evs)%nat
}.

Lemma u64_S n : u64 (u64 (Z.of_nat n) + 1) = u64 (Z.of_nat (S n)).
Proof. rewrite u64_add_l. f_equal. lia. Qed.

Lemma recording_thread o path cap limit s acc idx n :
  recording (J := J) o path cap limit s acc idx -> recording (J := J) o path cap limit (bw_thread (J := J) n s) acc idx.
Proof.
  destruct s as [w fs]. intros Hrec. pose proof Hrec as [(a & Ha & Hok & Hal) _ _ _ _]. cbn [fst] in Ha.
  unfold bw_thread. cbn [fst snd]. rewrite Ha. cbn [fmap option_fmap option_map].
  apply (recording_grow o path cap limit w fs acc idx _ (mkBagMessage 0 "" DT_Event []) false Hrec);
    [by apply async_thread_steps|by apply alive_steps].
Qed.

Lemma recording_appendAsync o path cap limit s acc idx m :
  recording (J := J) o path cap limit s acc idx ->
  let '(ok, s') := bw_appendAsync (J := J) m s in
  recording (J := J) o path cap limit s' (if ok then acc ++ [m] else acc) idx.
Proof.
  destruct s as [w fs]. intros Hrec. pose proof Hrec as [(a & Ha & Hok & Hal) Ho _ _ _]. cbn [fst] in *.
  unfold bw_appendAsync. rewrite Ha, Ho. cbn [negb]. destruct (locked_push_ok o cap acc m a Hok Hal) as [Hp Hpal].
  destruct (locked_push m a) as [ok a1]. by apply recording_grow.
Qed.

Lemma event_step_ok o path cap limit evs acc t ev :
  logged o path cap limit evs acc t -> exists acc', logged o path cap limit (evs ++ [ev]) acc' (event_step t ev).
Proof.
  destruct t as [l s], ev as [n ev]. intros [Hrec Hsub Hval Hr (d & Hd & Hn)]. cbn [fst snd] in *.
  apply (recording_thread _ _ _ _ _ _ _ n) in Hrec. unfold event_step, onDataStoreEvent. cbn [fst snd].
  assert (Hr' : u64 (lg_eventsReceived l + 1) = u64 (Z.of_nat (length (evs ++ [(n, ev)])))).
  { rewrite Hr, u64_S, length_app. f_equal. simpl. lia. }
  assert (Hdrop : forall s', recording (J := J) o path cap limit s' acc [] ->
    logged o path cap limit (evs ++ [(n, ev)]) acc
      (drop_event (mkLogger (lg_subscriptionId l) (lg_isRunning l) (u64 (lg_eventsReceived l + 1)) (lg_eventsDropped l)), s')).
  { intros s' Hs'. split; cbn [fst snd lg_eventsReceived lg_eventsDropped drop_event]; try done.
    - rewrite omap_app. by apply sublist_inserts_r.
    - exists (S d). rewrite Hd, u64_S, length_app. split; [done|simpl; lia]. }
  destruct ev as [ts e|]; [|by exists acc; apply Hdrop].
  destruct (message_isValid (convertToBagMessage ts e)) eqn:Ev; cbn [negb]; [|by exists acc; apply Hdrop].
  pose proof (recording_appendAsync o path cap limit _ acc [] (convertToBagMessage ts e) Hrec) as Happ.
  destruct (bw_appendAsync (convertToBagMessage ts e) (bw_thread n s)) as [[|] s']; [|by exists acc; apply Hdrop].
  exists (acc ++ [convertToBagMessage ts e]). split; cbn [fst snd lg_eventsReceived lg_eventsDropped]; try done.
  - rewrite omap_app. by apply sublist_app.
  - apply Forall_app. split; [done|]. by constructor.
  - exists d. rewrite !length_app. split; [done|simpl; lia].
Qed.

Lemma events_run_ok o path cap limit evs0 acc evs t :
  logged o path cap limit evs0 acc t -> exists acc', logged o path cap limit (evs0 ++ evs) acc' (events_run evs t).
Proof.
  revert evs0 acc t. induction evs as [|ev evs IH]; intros evs0 acc t H; [exists acc; by rewrite app_nil_r|].
  destruct (event_step_ok _ _ _ _ _ _ _ ev H) as [acc' H']. simpl.
  replace (evs0 ++ ev :: evs) with ((evs0 ++ [ev]) ++ evs) by (by rewrite <- app_assoc). by eapply IH.
Qed.

Lemma recording_start stamp x w fs s :
  bw_isOpen w = false -> op_can x = true -> ro_type (bw_rotation w) = R_SIZE -> bw_indexer w = [] ->
  bw_start stamp x (w, fs) = (Ok tt, s) ->
  recording (J := J) (mkOStream (content (createNewBagFile stamp w) fs) (op_room x) true) (createNewBagFile stamp w)
    (bw_queueCapacity w) (ro_maxSizeBytes (bw_rotation w)) s [] [].
Proof.
  intros Ho Hc Hr Hi. unfold bw_start, start_async, append_stream. rewrite Ho, Hc. simpl. intros [= <-].
  split; simpl; try done; [|by rewrite Hi]. eexists. split; [done|]. split; [apply (aw_start_ok (J := J))|done].
Qed.

(** From the start of the logger on, whatever the events and the interleaving
    with the writer thread, every event received is counted as dropped or its
    message is accepted by the writer, in the order of the events and only if it
    is valid; and after [stop] the bag file holds, after what it held before, the
    lines of exactly the accepted messages that have a JSON text. *)
Theorem logged_events_reach_the_file stamp x w fs l b evs turns after e stamp' x' :
  bw_isOpen w = false -> op_can x = true -> ro_type (bw_rotation w) = R_SIZE -> bw_indexer w = [] ->
  lg_isRunning l = false -> lg_eventsReceived l = 0 -> lg_eventsDropped l = 0 ->
  let path := createNewBagFile stamp w in
  let '(started, (l1, b1, s1)) := logger_start stamp x l b (w, fs) in
  let '(l2, s2) := events_run evs (l1, s1) in
  started = Ok true /\
  exists acc d, acc `sublist_of` omap is_message evs /\ Forall (λ m, message_isValid m = true) acc /\
    lg_eventsReceived l2 = u64 (Z.of_nat (length evs)) /\ lg_eventsDropped l2 = u64 (Z.of_nat d) /\
    (d + length acc = length evs)%nat /\
    (Z.of_nat (length (data (J := J) acc)) < ro_maxSizeBytes (bw_rotation w) < 2 ^ 64 ->
     (length (data (J := J) acc) <= op_room x)%nat ->
     forall l3 b3 w3 fs3, logger_stop turns after e stamp' x' l2 b1 s2 = Some (l3, b3, (w3, fs3)) ->
       f_bytes <$> fs3 !! path = Some (content path fs ++ data (J := J) acc)).
Proof.
  intros Ho Hc Hty Hix Hl Hr0 Hd0 path. unfold logger_start. rewrite Hl.
  destruct (bw_start stamp x (w, fs)) as [r s1] eqn:Es.
  assert (r = Ok tt) as ->.
  { revert Es. unfold bw_start, start_async, append_stream. rewrite Ho, Hc. simpl. by intros [= <- _]. }
  pose proof (recording_start stamp x w fs s1 Ho Hc Hty Hix Es) as Hrec. fold path in Hrec.
  destruct (lb_subscribe b) as [id b1]. rewrite Hr0, Hd0.
  assert (H0 : logged (mkOStream (content path fs) (op_room x) true) path (bw_queueCapacity w)
                 (ro_maxSizeBytes (bw_rotation w)) [] [] (mkLogger id true 0 0, s1)).
  { split; try done. by exists 0%nat. }
  destruct (events_run_ok _ _ _ _ _ _ evs _ H0) as [acc [Hrec2 Hsub Hval Hr (d & Hd & Hn)]]. simpl in Hsub, Hr, Hn.
  assert (Hrun : lg_isRunning (events_run evs (mkLogger id true 0 0, s1)).1 = true).
  { apply (foldl_invariant (λ t, lg_isRunning t.1 = true)); [done|]. intros [l' s'] [n ev] Hl'.
    unfold event_step, onDataStoreEvent. cbn [fst snd] in *. destruct ev as [ts ev|]; [|done].
    destruct (negb _); [done|]. destruct (bw_appendAsync _ _) as [[|] ?]; done. }
  destruct (events_run evs _) as [l2 s2]. cbn [fst snd] in *. split; [done|]. exists acc, d. split_and!; try done.
  intros Hlim Hroom l3 b3 w3 fs3. unfold logger_stop. rewrite Hrun. cbn [negb].
  destruct (bw_flush removable 5000 turns after e stamp' x' s2) as [[fl s3]|] eqn:Ef; [|done].
  pose proof (recording_exec (J := J) removable _ _ _ _ s2 acc [] (OFlush 5000 turns after e stamp' x') (s3, acc, []) Hrec2) as H3.
  cbn [bw_exec] in H3. rewrite Ef in H3. specialize (H3 eq_refl ltac:(simpl; lia) ltac:(lia)). cbn [fst snd] in H3.
  destruct s3 as [w' fs']. destruct H3 as [(a & Ha & Hok & Hal) Hopen Hpath _ _]. cbn [fst] in *.
  unfold bw_stop. rewrite Hopen, Ha. cbn [negb]. unfold finish_async.
  destruct (aw_flush 5000 _ _ a) as [[fl' a1]|] eqn:Ef'; [|done].
  destruct (flush_ok _ _ _ _ _ _ _ _ _ Hok Hal Ef') as [Hok1 Hal1].
  destruct (aw_stop _ _ _ a1) as [[a2 f]|] eqn:Est; [|done].
  pose proof (stop_ok _ _ _ _ _ _ _ _ _ Hok1 Hal1 Est) as ->. intros [= _ _ _ <-]. rewrite Hpath. simpl.
  rewrite lookup_insert_eq. simpl. f_equal.
  rewrite (write_lines_room _ _ (op_room x - length (data (J := J) acc)));
    [done|done|unfold BagWriter.data in *; simpl; lia].
Qed.
End Logger.

(** A value that is not JSON text is accepted and counted as received, but its
    message has no line: nothing of it reaches the file and no counter shows it. *)
Theorem value_that_is_not_json_is_lost {J} `{!Json J} ts e err (acc : list BagMessage) :
  json_parse (J := J) (bytes_of (vc_newValue e)) = Throw err ->
  data (J := J) (acc ++ [convertToBagMessage ts e]) = data (J := J) acc.
Proof.
  intros Hp. rewrite data_app. unfold BagWriter.data at 2. cbn [omap list_omap]. unfold AsyncWriter.line_of, toJsonLine, toJson.
  cbn [serialized_value convertToBagMessage]. rewrite Hp. simpl. apply app_nil_r.
Qed.

#[export] Instance silent_bus : LoggerBus unit := {| lb_subscribe b := ("sub_1", b); lb_unsubscribe _ b := b |}.

Definition changes : list (nat * LoggedEvent) :=
  [(2%nat, Changed 5 (mkValueChanged "speed" "" "1" "InterfaceData" "datastore")); (0%nat, Foreign);
   (3%nat, Changed 7 (mkValueChanged "" "" "1" "Event" "datastore"))].

Lemma logged_events_reach_the_file_witness :
  let '(started, (l1, b1, s1)) := logger_start (B := unit) "t" roomy newLogger tt (fresh_writer, ∅) in
  let '(l2, s2) := events_run (J := Tree) changes (l1, s1) in
  started = Ok true /\ lg_eventsReceived l2 = 3 /\ exists acc d, lg_eventsDropped l2 = u64 (Z.of_nat d) /\
    (d + length acc = length changes)%nat /\
    (Z.of_nat (length (data (J := Tree) acc)) < 2 ^ 30 < 2 ^ 64 -> (length (data (J := Tree) acc) <= op_room roomy)%nat ->
     forall l3 b3 w3 fs3,
       logger_stop (J := Tree) (B := unit) (λ _, true) [] 0 patient "u" roomy l2 b1 s2 = Some (l3, b3, (w3, fs3)) ->
       f_bytes <$> fs3 !! "d/b_t.bag" = Some (content "d/b_t.bag" ∅ ++ data (J := Tree) acc)).
Proof.
  pose proof (logged_events_reach_the_file (J := Tree) (λ _, true) (B := unit) "t" roomy fresh_writer ∅ newLogger tt changes
    [] 0 patient "u" roomy eq_refl eq_refl eq_refl eq_refl eq_refl eq_refl eq_refl) as H.
  destruct (logger_start (B := unit) "t" roomy newLogger tt (fresh_writer, ∅)) as [started [[l1 b1] s1]].
  destruct (events_run changes (l1, s1)) as [l2 s2].
  destruct H as (Hs & acc & d & _ & _ & Hr & Hd & Hn & Hfile).
  split; [exact Hs|]. split; [rewrite Hr; reflexivity|]. exists acc, d. split; [exact Hd|]. split; [exact Hn|]. exact Hfile.
Defined.
