(* ===== verification/Ieee754.v ===== *)
(** * IEEE-754 numbers

    The [float] and [double] of the sources as bit patterns, with the
    operations the code applies to them: comparison, conversion to and from
    integers and between the two widths, sums, products and quotients, rounded
    to nearest with ties to even. *)

From S2P Require Import Prelude.

Record format := mkFormat { frac_bits : Z; exp_bits : Z }.
Definition binary64 : format := mkFormat 52 11.
Definition binary32 : format := mkFormat 23 8.

(** A finite number is its sign and its magnitude in units of the smallest
    positive number of the format: [2^-1074] for doubles, [2^-149] for floats. *)
Inductive number :=
| NaN
| Infinity (neg : bool)
| Finite (neg : bool) (mag : Z).

Definition decode (f : format) (bits : Z) : number :=
  let neg := Z.testbit bits (frac_bits f + exp_bits f) in
  let e := Z.shiftr bits (frac_bits f) mod 2 ^ exp_bits f in
  let m := bits mod 2 ^ frac_bits f in
  if e =? 2 ^ exp_bits f - 1 then (if m =? 0 then Infinity neg else NaN)
  else if e =? 0 then Finite neg m
  else Finite neg (Z.shiftl (2 ^ frac_bits f + m) (e - 1)).

(** The exponent and fraction fields of a magnitude that has at most
    [frac_bits f + 1] significant bits; too large a magnitude is infinity. *)
Definition encode_mag (f : format) (mag : Z) : Z :=
  if mag <? 2 ^ frac_bits f then mag
  else
    let k := Z.log2 mag - frac_bits f in
    if 2 ^ exp_bits f - 1 <=? k + 1 then (2 ^ exp_bits f - 1) * 2 ^ frac_bits f
    else (k + 1) * 2 ^ frac_bits f + (Z.shiftr mag k - 2 ^ frac_bits f).

Definition sign_bit (f : format) (neg : bool) : Z := if neg then 2 ^ (frac_bits f + exp_bits f) else 0.

(** NaN is the quiet one: the language leaves its other bits open. *)
Definition encode (f : format) (x : number) : Z :=
  match x with
  | NaN => (2 ^ exp_bits f - 1) * 2 ^ frac_bits f + 2 ^ (frac_bits f - 1)
  | Infinity neg => sign_bit f neg + (2 ^ exp_bits f - 1) * 2 ^ frac_bits f
  | Finite neg mag => sign_bit f neg + encode_mag f mag
  end.

(** A magnitude in units [2^k] times smaller than those of the format, rounded
    to nearest, ties to even, to a magnitude of the format. *)
Definition round_mag (f : format) (k mag : Z) : Z :=
  let q := Z.max k (Z.log2 mag - frac_bits f) in
  let r := Z.shiftr mag q in
  let rem := 2 * (mag mod 2 ^ q) in
  let r' := if (2 ^ q <? rem) || ((rem =? 2 ^ q) && Z.odd r) then r + 1 else r in
  Z.shiftl r' (q - k).

Definition signed (neg : bool) (mag : Z) : Z := if neg then - mag else mag.

(** [a <= b] *)
Definition number_le (a b : number) : bool :=
  match a, b with
  | NaN, _ | _, NaN => false
  | Infinity true, _ | _, Infinity false => true
  | Infinity false, _ | _, Infinity true => false
  | Finite na ma, Finite nb mb => signed na ma <=? signed nb mb
  end.

Definition double_le (a b : Z) : bool := number_le (decode binary64 a) (decode binary64 b).

(** [static_cast<double>(n)] for the integers a double represents. *)
Definition double_of_int (n : Z) : Z := encode binary64 (Finite (n <? 0) (Z.abs n * 2 ^ 1074)).

(** [static_cast<intN_t>(d)] truncates; [None] when the result is not a number
    of [w] bits, which the language leaves undefined. *)
Definition double_trunc (bits : Z) : option Z :=
  match decode binary64 bits with
  | Finite neg mag => Some (signed neg (mag / 2 ^ 1074))
  | _ => None
  end.

Definition int_of_double (w : Z) (bits : Z) : option Z :=
  match double_trunc bits with
  | Some n => if (- 2 ^ (w - 1) <=? n) && (n <? 2 ^ (w - 1)) then Some n else None
  | None => None
  end.

Definition number_mul (a b : number) : number :=
  match a, b with
  | NaN, _ | _, NaN => NaN
  | Infinity na, Infinity nb => Infinity (xorb na nb)
  | Infinity na, Finite nb m | Finite nb m, Infinity na => if m =? 0 then NaN else Infinity (xorb na nb)
  | Finite na ma, Finite nb mb => Finite (xorb na nb) (round_mag binary64 1074 (ma * mb))
  end.

Definition double_mul (a b : Z) : Z := encode binary64 (number_mul (decode binary64 a) (decode binary64 b)).

(** [static_cast<double>] of a float and [static_cast<float>] of a double. *)
Definition double_of_float (bits : Z) : Z :=
  match decode binary32 bits with
  | Finite neg mag => encode binary64 (Finite neg (Z.shiftl mag 925))
  | x => encode binary64 x
  end.

Definition float_of_double (bits : Z) : Z :=
  match decode binary64 bits with
  | Finite neg mag => encode binary32 (Finite neg (round_mag binary32 925 mag))
  | x => encode binary32 x
  end.

(** The bit patterns of familiar numbers. *)
Example double_of_10000 : double_of_int 10000 = 0x40C3880000000000.
Proof. vm_compute. reflexivity. Qed.
Example double_of_minus_1 : double_of_int (-1) = 0xBFF0000000000000.
Proof. vm_compute. reflexivity. Qed.
(** 0.1 * 3.0 = 0.30000000000000004 *)
Example double_mul_tenth : double_mul 0x3FB999999999999A (double_of_int 3) = 0x3FD3333333333334.
Proof. vm_compute. reflexivity. Qed.
(** [(float)0.1] and back. *)
Example float_tenth : float_of_double 0x3FB999999999999A = 0x3DCCCCCD /\
  double_of_float 0x3DCCCCCD = 0x3FB99999A0000000.
Proof. vm_compute. done. Qed.

(** ** Bounds *)

Lemma decode_mag_nonneg f bits neg mag :
  0 <= frac_bits f -> 0 <= exp_bits f -> decode f bits = Finite neg mag -> 0 <= mag.
Proof.
  intros Hp Hw. unfold decode. repeat case_match; intros [= _ <-].
  - apply Z.mod_pos_bound. apply Z.pow_pos_nonneg; lia.
  - apply Z.shiftl_nonneg. pose proof (Z.pow_pos_nonneg 2 (frac_bits f)).
    pose proof (Z.mod_pos_bound bits (2 ^ frac_bits f)). lia.
Qed.

Lemma trunc_bound neg mag b u :
  0 <= mag -> 0 < u -> 0 <= b -> - (b * u) <= signed neg mag <= b * u -> - b <= signed neg (mag / u) <= b.
Proof.
  intros Hm Hu Hb H. assert (mag <= b * u) by (destruct neg; simpl in *; lia).
  pose proof (Z.div_pos mag u). pose proof (Z.div_le_upper_bound mag u b). destruct neg; simpl; lia.
Qed.

(** ** Integers are represented exactly *)

Lemma encode_normal m k :
  2 ^ 52 <= m < 2 ^ 53 -> 0 <= k < 2046 ->
  encode_mag binary64 (m * 2 ^ k) = (k + 1) * 2 ^ 52 + (m - 2 ^ 52).
Proof.
  intros Hm Hk. unfold encode_mag. cbn [frac_bits exp_bits binary64].
  pose proof (Z.pow_pos_nonneg 2 k ltac:(lia) ltac:(lia)) as Hp.
  assert (HL : Z.log2 (m * 2 ^ k) = 52 + k).
  { rewrite Z.log2_mul_pow2 by lia. rewrite (Z.log2_unique m 52) by lia. lia. }
  rewrite HL. replace (52 + k - 52) with k by lia.
  rewrite (proj2 (Z.ltb_ge _ _)) by nia. rewrite (proj2 (Z.leb_gt _ _)) by lia.
  rewrite Z.shiftr_div_pow2, Z.div_mul by lia. done.
Qed.

Lemma decode_normal neg e m :
  0 <= m < 2 ^ 52 -> 0 < e < 2047 ->
  decode binary64 (sign_bit binary64 neg + (e * 2 ^ 52 + m)) = Finite neg ((2 ^ 52 + m) * 2 ^ (e - 1)).
Proof.
  intros Hm He. unfold decode, sign_bit. cbn [frac_bits exp_bits binary64]. change (52 + 11) with 63.
  set (s := if neg then 2 ^ 63 else 0).
  assert (Hs : s = (if neg then 2 ^ 11 else 0) * 2 ^ 52) by (subst s; by destruct neg).
  assert (Hq : (s + (e * 2 ^ 52 + m)) / 2 ^ 52 = (if neg then 2 ^ 11 else 0) + e).
  { rewrite Hs. symmetry. apply (Z.div_unique _ _ _ m); [lia|]. lia. }
  rewrite Z.shiftr_div_pow2, Hq by lia.
  assert (He' : ((if neg then 2 ^ 11 else 0) + e) mod 2 ^ 11 = e).
  { symmetry. apply (Z.mod_unique _ _ (if neg then 1 else 0)); destruct neg; lia. }
  rewrite He', (proj2 (Z.eqb_neq e _)), (proj2 (Z.eqb_neq e 0)) by lia.
  assert (Hm' : (s + (e * 2 ^ 52 + m)) mod 2 ^ 52 = m).
  { symmetry. apply (Z.mod_unique _ _ ((if neg then 2 ^ 11 else 0) + e)); [lia|]. rewrite Hs. lia. }
  rewrite Hm', Z.shiftl_mul_pow2 by lia. f_equal.
  rewrite Z.testbit_eqb by lia.
  assert (H63 : (s + (e * 2 ^ 52 + m)) / 2 ^ 63 = if neg then 1 else 0).
  { symmetry. apply (Z.div_unique _ _ _ (e * 2 ^ 52 + m)); [lia|]. subst s. destruct neg; lia. }
  rewrite H63. by destruct neg.
Qed.

Lemma double_of_int_exact n :
  Z.abs n < 2 ^ 53 -> decode binary64 (double_of_int n) = Finite (n <? 0) (Z.abs n * 2 ^ 1074).
Proof.
  intros Hn. destruct (decide (n = 0)) as [-> |Hn0]; [done|].
  unfold double_of_int, encode. set (L := Z.log2 (Z.abs n)).
  assert (HL : 2 ^ L <= Z.abs n < 2 ^ Z.succ L) by (apply Z.log2_spec; lia).
  assert (0 <= L) by apply Z.log2_nonneg.
  assert (L < 53) by (apply Z.log2_lt_pow2; lia).
  assert (Hsplit : Z.abs n * 2 ^ 1074 = (Z.abs n * 2 ^ (52 - L)) * 2 ^ (1022 + L)).
  { rewrite <- Z.mul_assoc, <- Z.pow_add_r by lia. do 2 f_equal. lia. }
  assert (Hm : 2 ^ 52 <= Z.abs n * 2 ^ (52 - L) < 2 ^ 53).
  { replace (2 ^ 52) with (2 ^ L * 2 ^ (52 - L)) by (rewrite <- Z.pow_add_r by lia; f_equal; lia).
    replace (2 ^ 53) with (2 ^ Z.succ L * 2 ^ (52 - L)) by (rewrite <- Z.pow_add_r by lia; f_equal; lia).
    pose proof (Z.pow_pos_nonneg 2 (52 - L)). nia. }
  rewrite Hsplit, encode_normal by lia. rewrite decode_normal by lia.
  f_equal. f_equal; [lia|f_equal; lia].
Qed.

(** Integers that fit a double survive the conversion and back. *)
Lemma int_double_int w n :
  0 < w < 54 -> - 2 ^ (w - 1) <= n < 2 ^ (w - 1) -> int_of_double w (double_of_int n) = Some n.
Proof.
  intros Hw Hn. unfold int_of_double, double_trunc.
  pose proof (Z.pow_le_mono_r 2 (w - 1) 52).
  assert (2 ^ 52 < 2 ^ 53) by lia.
  rewrite double_of_int_exact by lia. rewrite Z.div_mul by lia.
  assert (Hs : signed (n <? 0) (Z.abs n) = n) by (unfold signed; destruct (Z.ltb_spec n 0); lia).
  rewrite Hs, (proj2 (Z.leb_le _ _)), (proj2 (Z.ltb_lt _ _)) by lia. done.
Qed.

Lemma signed_scaled n u : 0 < u -> signed (n <? 0) (Z.abs n * u) = n * u.
Proof. unfold signed. destruct (Z.ltb_spec n 0); lia. Qed.

(** A double between [-b] and [b] truncates to an integer between them. *)
Lemma trunc_in_range w b bits :
  0 <= b < 2 ^ 53 -> b < 2 ^ (w - 1) ->
  double_le (double_of_int (- b)) bits = true -> double_le bits (double_of_int b) = true ->
  exists n, int_of_double w bits = Some n /\ - b <= n <= b.
Proof.
  intros Hb Hw. unfold double_le, int_of_double, double_trunc. rewrite !double_of_int_exact by lia.
  destruct (decode binary64 bits) as [| [] |neg mag] eqn:Hd; [done..|].
  cbn [number_le]. rewrite !signed_scaled by lia. intros H1%Z.leb_le H2%Z.leb_le.
  assert (- b <= signed neg (mag / 2 ^ 1074) <= b).
  { apply trunc_bound; [|lia..]. by eapply decode_mag_nonneg in Hd. }
  rewrite (proj2 (Z.leb_le _ _)), (proj2 (Z.ltb_lt _ _)) by lia. eauto.
Qed.

Lemma double_le_trans a b c : double_le a b = true -> double_le b c = true -> double_le a c = true.
Proof.
  unfold double_le. destruct (decode binary64 a) as [| [] |], (decode binary64 b) as [| [] |],
    (decode binary64 c) as [| [] |]; cbn [number_le]; try done. rewrite !Z.leb_le. lia.
Qed.

(** ** Encodings are 64-bit patterns *)

Lemma encode_mag_bound mag : 0 <= mag -> 0 <= encode_mag binary64 mag < 2 ^ 63.
Proof.
  intros Hm. unfold encode_mag. cbn [frac_bits exp_bits binary64].
  destruct (Z.ltb_spec mag (2 ^ 52)); [lia|]. set (k := Z.log2 mag - 52).
  destruct (Z.leb_spec (2 ^ 11 - 1) (k + 1)); [lia|].
  assert (Hl : 2 ^ Z.log2 mag <= mag < 2 ^ Z.succ (Z.log2 mag)) by (apply Z.log2_spec; lia).
  assert (52 <= Z.log2 mag) by (apply Z.log2_le_pow2; lia).
  assert (Hs : 2 ^ 52 <= Z.shiftr mag k < 2 ^ 53).
  { rewrite Z.shiftr_div_pow2 by lia. pose proof (Z.pow_pos_nonneg 2 k). split.
    - apply Z.div_le_lower_bound; [lia|]. rewrite <- Z.pow_add_r by lia.
      replace (k + 52) with (Z.log2 mag) by lia. lia.
    - apply Z.div_lt_upper_bound; [lia|]. rewrite <- Z.pow_add_r by lia.
      replace (k + 53) with (Z.succ (Z.log2 mag)) by lia. lia. }
  assert (0 <= k) by lia. clearbody k. lia.
Qed.

Lemma round_mag_nonneg f k mag : 0 <= mag -> 0 <= round_mag f k mag.
Proof.
  intros Hm. unfold round_mag. apply Z.shiftl_nonneg.
  assert (0 <= Z.shiftr mag (Z.max k (Z.log2 mag - frac_bits f))) by (by apply Z.shiftr_nonneg).
  destruct (_ || _); lia.
Qed.

Lemma encode_bound x : (forall neg mag, x = Finite neg mag -> 0 <= mag) -> in_u64 (encode binary64 x).
Proof.
  intros Hx. unfold in_u64. destruct x as [|neg|neg mag].
  { vm_compute. split; [discriminate|reflexivity]. }
  { destruct neg; vm_compute; (split; [discriminate|reflexivity]). }
  unfold encode. pose proof (encode_mag_bound mag (Hx neg mag eq_refl)).
  assert (0 <= sign_bit binary64 neg <= 2 ^ 63) by (by destruct neg).
  lia.
Qed.

Lemma double_mul_bound a b : in_u64 (double_mul a b).
Proof.
  apply encode_bound. intros neg mag. unfold number_mul.
  destruct (decode binary64 a) as [| |na ma] eqn:Ha, (decode binary64 b) as [| |nb mb] eqn:Hb; try done;
    try (destruct (_ =? 0); done).
  intros [= _ <-]. apply round_mag_nonneg. apply decode_mag_nonneg in Ha; [|done..].
  apply decode_mag_nonneg in Hb; [|done..]. lia.
Qed.

(** [a < b] *)
Definition double_lt (a b : Z) : bool := double_le a b && negb (double_le b a).

(** ** Sums, differences, quotients *)

Definition number_neg (a : number) : number :=
  match a with NaN => NaN | Infinity n => Infinity (negb n) | Finite n m => Finite (negb n) m end.

(** A sum that is zero is negative only when both terms are. *)
Definition number_add (a b : number) : number :=
  match a, b with
  | NaN, _ | _, NaN => NaN
  | Infinity na, Infinity nb => if eqb na nb then Infinity na else NaN
  | Infinity na, _ | _, Infinity na => Infinity na
  | Finite na ma, Finite nb mb =>
    let s := signed na ma + signed nb mb in
    Finite (if s =? 0 then na && nb else s <? 0) (round_mag binary64 0 (Z.abs s))
  end.

(** The quotient is computed with two more bits than the format has units, and
    a last bit that says whether anything is left. *)
Definition number_div (a b : number) : number :=
  match a, b with
  | NaN, _ | _, NaN | Infinity _, Infinity _ => NaN
  | Infinity na, Finite nb _ => Infinity (xorb na nb)
  | Finite na _, Infinity nb => Finite (xorb na nb) 0
  | Finite na ma, Finite nb mb =>
    if mb =? 0 then (if ma =? 0 then NaN else Infinity (xorb na nb))
    else
      let n := Z.shiftl ma 1076 in
      Finite (xorb na nb) (round_mag binary64 3 (2 * (n / mb) + (if n mod mb =? 0 then 0 else 1)))
  end.

(** The square root, in the same way; of a negative number it is not a number. *)
Definition number_sqrt (a : number) : number :=
  match a with
  | NaN | Infinity true => NaN
  | Infinity false => Infinity false
  | Finite neg m =>
    if m =? 0 then Finite neg 0
    else if neg then NaN
    else
      let n := Z.shiftl m 1078 in
      let r := Z.sqrt n in
      Finite false (round_mag binary64 3 (2 * r + (if r * r =? n then 0 else 1)))
  end.

Definition double_add (a b : Z) : Z := encode binary64 (number_add (decode binary64 a) (decode binary64 b)).
Definition double_sub (a b : Z) : Z :=
  encode binary64 (number_add (decode binary64 a) (number_neg (decode binary64 b))).
Definition double_div (a b : Z) : Z := encode binary64 (number_div (decode binary64 a) (decode binary64 b)).
Definition double_sqrt (a : Z) : Z := encode binary64 (number_sqrt (decode binary64 a)).

(** [static_cast<uint64_t>(d)], undefined out of range. *)
Definition u64_of_double (bits : Z) : option Z :=
  match double_trunc bits with
  | Some n => if (0 <=? n) && (n <? 2 ^ 64) then Some n else None
  | None => None
  end.

(** [static_cast<double>(n)] for any 64-bit integer. *)
Definition double_of_i64 (n : Z) : Z :=
  encode binary64 (Finite (n <? 0) (round_mag binary64 0 (Z.abs n * 2 ^ 1074))).

(** [a == b] *)
Definition double_eq (a b : Z) : bool := double_le a b && double_le b a.

Example double_sqrt_2 : double_sqrt (double_of_int 2) = 0x3FF6A09E667F3BCD.
Proof. vm_compute. reflexivity. Qed.
(** 0.1 + 0.2 = 0.30000000000000004; 1/3; 1 - 0.1; 2^53 + 1 is rounded to even. *)
Example double_add_tenth : double_add 0x3FB999999999999A 0x3FC999999999999A = 0x3FD3333333333334.
Proof. vm_compute. reflexivity. Qed.
Example double_third : double_div (double_of_int 1) (double_of_int 3) = 0x3FD5555555555555.
Proof. vm_compute. reflexivity. Qed.
Example double_nine_tenths : double_sub (double_of_int 1) 0x3FB999999999999A = 0x3FECCCCCCCCCCCCD.
Proof. vm_compute. reflexivity. Qed.
Example double_of_2_53 : double_of_i64 (2 ^ 53 + 1) = double_of_int (2 ^ 53).
Proof. vm_compute. reflexivity. Qed.
