(* ===== verification/Rounding.v ===== *)
(** * Rounded arithmetic

    What the proofs need of the operations of [Ieee754]: numbers that a double
    represents survive encoding, rounding is monotone and exact on them, and
    integer sums and truncated products behave as expected. *)

From S2P Require Import Prelude Ieee754.

(** ** Magnitudes that a double represents *)

Definition representable (mag : Z) : Prop :=
  exists m e, mag = m * 2 ^ e /\ 0 <= m < 2 ^ 53 /\ 0 <= e /\ mag < 2 ^ 2098.

Lemma pow2_pos e : 0 <= e -> 0 < 2 ^ e.
Proof. intros He. by apply Z.pow_pos_nonneg. Qed.

Lemma pow2_split a b : 0 <= a <= b -> 2 ^ b = 2 ^ a * 2 ^ (b - a).
Proof. intros H. rewrite <- Z.pow_add_r by lia. f_equal. lia. Qed.

Lemma decode_subnormal neg m :
  0 <= m < 2 ^ 52 -> decode binary64 (sign_bit binary64 neg + m) = Finite neg m.
Proof.
  intros Hm. unfold decode, sign_bit. cbn [frac_bits exp_bits binary64]. change (52 + 11) with 63.
  set (s := if neg then 2 ^ 63 else 0).
  assert (Hs : s = (if neg then 2 ^ 11 else 0) * 2 ^ 52) by (subst s; by destruct neg).
  assert (Hq : (s + m) / 2 ^ 52 = if neg then 2 ^ 11 else 0).
  { rewrite Hs. symmetry. apply (Z.div_unique _ _ _ m); lia. }
  rewrite Z.shiftr_div_pow2, Hq by lia.
  assert (He : (if neg then 2 ^ 11 else 0) mod 2 ^ 11 = 0) by (by destruct neg).
  rewrite He, (proj2 (Z.eqb_neq 0 _)), Z.eqb_refl by lia.
  assert (Hm' : (s + m) mod 2 ^ 52 = m).
  { symmetry. apply (Z.mod_unique _ _ (if neg then 2 ^ 11 else 0)); lia. }
  rewrite Hm'. f_equal. rewrite Z.testbit_eqb by lia.
  assert (H63 : (s + m) / 2 ^ 63 = if neg then 1 else 0).
  { symmetry. apply (Z.div_unique _ _ _ m); [lia|]. subst s. destruct neg; lia. }
  rewrite H63. by destruct neg.
Qed.

(** The leading bits of a representable magnitude. *)
Lemma representable_normal mag :
  representable mag -> 2 ^ 52 <= mag ->
  exists m k, mag = m * 2 ^ k /\ 2 ^ 52 <= m < 2 ^ 53 /\ 0 <= k < 2046.
Proof.
  intros (m & e & -> & Hm & He & Hb) Hge. pose proof (pow2_pos e He) as Hp.
  assert (Hm0 : 0 < m) by nia.
  assert (HL : Z.log2 (m * 2 ^ e) = Z.log2 m + e) by (rewrite Z.log2_mul_pow2 by lia; lia).
  pose proof (Z.log2_spec m Hm0) as Hl. pose proof (Z.log2_nonneg m).
  assert (Z.log2 m < 53) by (apply Z.log2_lt_pow2; lia).
  assert (52 <= Z.log2 m + e) by (rewrite <- HL; apply Z.log2_le_pow2; lia).
  assert (Z.log2 m + e < 2098) by (rewrite <- HL; apply Z.log2_lt_pow2; lia).
  exists (m * 2 ^ (52 - Z.log2 m)), (Z.log2 m + e - 52). split; [|split; [|lia]].
  - rewrite <- Z.mul_assoc, <- Z.pow_add_r by lia. do 2 f_equal. lia.
  - rewrite (pow2_split (Z.log2 m) 52), (pow2_split (Z.succ (Z.log2 m)) 53) by lia.
    replace (53 - Z.succ (Z.log2 m)) with (52 - Z.log2 m) by lia.
    pose proof (pow2_pos (52 - Z.log2 m)). nia.
Qed.

Lemma decode_encode neg mag : representable mag -> decode binary64 (encode binary64 (Finite neg mag)) = Finite neg mag.
Proof.
  intros Hr. unfold encode. destruct (Z.lt_ge_cases mag (2 ^ 52)) as [Hlt|Hge].
  - unfold encode_mag. cbn [frac_bits binary64]. rewrite (proj2 (Z.ltb_lt _ _)) by done.
    apply decode_subnormal. destruct Hr as (m & e & -> & Hm & He & _). pose proof (pow2_pos e He). nia.
  - destruct (representable_normal mag Hr Hge) as (m & k & -> & Hm & Hk).
    rewrite encode_normal, decode_normal by lia. f_equal. f_equal; [lia|f_equal; lia].
Qed.

(** ** Rounding *)

(** The unit of the last place that is kept. *)
Definition ulp (k mag : Z) : Z := Z.max k (Z.log2 mag - 52).

(** Nearest multiple of [2^q], ties to even, as a multiplier. *)
Definition nearest (q mag : Z) : Z :=
  let rem := 2 * (mag mod 2 ^ q) in
  if (2 ^ q <? rem) || ((rem =? 2 ^ q) && Z.odd (mag / 2 ^ q)) then mag / 2 ^ q + 1 else mag / 2 ^ q.

Lemma round_mag_nearest k mag :
  0 <= k -> round_mag binary64 k mag = nearest (ulp k mag) mag * 2 ^ (ulp k mag - k).
Proof.
  intros Hk. unfold round_mag, nearest, ulp. cbn [frac_bits binary64].
  rewrite Z.shiftl_mul_pow2, Z.shiftr_div_pow2 by lia. done.
Qed.

Lemma nearest_mono q x y : 0 <= q -> 0 <= x <= y -> nearest q x <= nearest q y.
Proof.
  intros Hq Hxy. pose proof (pow2_pos q Hq) as Hp. unfold nearest.
  pose proof (Z.div_le_mono x y (2 ^ q) Hp ltac:(lia)) as Hd.
  destruct (Z.eq_dec (x / 2 ^ q) (y / 2 ^ q)) as [Heq|Hne].
  - assert (Hr : x mod 2 ^ q <= y mod 2 ^ q).
    { pose proof (Z.div_mod x (2 ^ q)). pose proof (Z.div_mod y (2 ^ q)). rewrite Heq in *. lia. }
    rewrite Heq. destruct (Z.ltb_spec (2 ^ q) (2 * (x mod 2 ^ q))), (Z.ltb_spec (2 ^ q) (2 * (y mod 2 ^ q)));
      cbn [orb]; try lia.
    + repeat case_match; lia.
    + destruct (Z.eqb_spec (2 * (x mod 2 ^ q)) (2 ^ q)), (Z.eqb_spec (2 * (y mod 2 ^ q)) (2 ^ q)); cbn [andb]; try lia;
        repeat case_match; lia.
  - repeat case_match; lia.
Qed.

Lemma nearest_le_bound q x b : 0 <= q -> 0 <= x < b * 2 ^ q -> nearest q x <= b.
Proof.
  intros Hq Hx. pose proof (pow2_pos q Hq) as Hp. unfold nearest.
  assert (x / 2 ^ q < b) by (apply Z.div_lt_upper_bound; lia). repeat case_match; lia.
Qed.

Lemma nearest_ge_div q x : 0 <= q -> x / 2 ^ q <= nearest q x.
Proof. intros Hq. unfold nearest. repeat case_match; lia. Qed.

Lemma nearest_exact q m : 0 <= q -> nearest q (m * 2 ^ q) = m.
Proof.
  intros Hq. pose proof (pow2_pos q Hq) as Hp. unfold nearest. rewrite Z.mod_mul, Z.div_mul by lia.
  rewrite (proj2 (Z.ltb_ge _ _)), (proj2 (Z.eqb_neq _ _)) by lia. done.
Qed.

(** At most 53 bits are kept. *)
Lemma below_ulp k mag : 0 <= k -> 0 <= mag -> mag < 2 ^ 53 * 2 ^ ulp k mag.
Proof.
  intros Hk Hm. destruct (Z.eq_dec mag 0) as [-> |Hn]; [apply Z.mul_pos_pos; [done|apply pow2_pos; unfold ulp; lia]|].
  destruct (Z.log2_spec mag) as [_ Hlt]; [lia|]. rewrite <- Z.pow_add_r by (unfold ulp; lia).
  eapply Z.lt_le_trans; [exact Hlt|]. apply Z.pow_le_mono_r; unfold ulp; lia.
Qed.

Lemma round_mag_mono k x y : 0 <= k -> 0 <= x <= y -> round_mag binary64 k x <= round_mag binary64 k y.
Proof.
  intros Hk Hxy. rewrite !round_mag_nearest by done.
  assert (Hq : ulp k x <= ulp k y) by (pose proof (Z.log2_le_mono x y ltac:(lia)); unfold ulp; lia).
  assert (Hx0 : k <= ulp k x) by (unfold ulp; lia).
  pose proof (pow2_pos (ulp k x - k)) as Hpx. pose proof (pow2_pos (ulp k y - k)) as Hpy.
  destruct (Z.eq_dec (ulp k x) (ulp k y)) as [Heq|Hne].
  - rewrite Heq. apply Z.mul_le_mono_nonneg_r; [lia|]. apply nearest_mono; [lia|done].
  - (* x' <= 2^53 units of x <= 2^52 units of y <= y' *)
    transitivity (2 ^ 53 * 2 ^ (ulp k x - k)).
    { apply Z.mul_le_mono_nonneg_r; [lia|]. apply nearest_le_bound; [lia|]. split; [lia|]. apply below_ulp; lia. }
    transitivity (2 ^ 52 * 2 ^ (ulp k y - k)).
    { change (2 ^ 53) with (2 ^ 52 * 2 ^ 1). rewrite <- Z.mul_assoc, <- Z.pow_add_r by lia.
      apply Z.mul_le_mono_nonneg_l; [done|]. apply Z.pow_le_mono_r; lia. }
    apply Z.mul_le_mono_nonneg_r; [lia|]. transitivity (y / 2 ^ ulp k y); [|apply nearest_ge_div; lia].
    assert (Hy : ulp k y = Z.log2 y - 52) by (unfold ulp in *; lia).
    assert (0 < y). { destruct (Z.eq_dec y 0) as [-> |]; [|lia]. cbn in Hy. unfold ulp in *. lia. }
    apply Z.div_le_lower_bound; [apply pow2_pos; lia|]. rewrite Z.mul_comm, <- Z.pow_add_r by lia.
    destruct (Z.log2_spec y) as [Hl _]; [done|]. etransitivity; [|exact Hl]. apply Z.pow_le_mono_r; lia.
Qed.

Lemma round_mag_exact k mag : 0 <= k -> representable mag -> round_mag binary64 k (mag * 2 ^ k) = mag.
Proof.
  intros Hk (m & e & -> & Hm & He & _). rewrite round_mag_nearest by done.
  destruct (Z.eq_dec m 0) as [-> |Hm0].
  { cbn. unfold nearest. rewrite Z.mod_0_l, Z.div_0_l by (pose proof (pow2_pos (ulp k 0)); unfold ulp in *; lia).
    rewrite (proj2 (Z.ltb_ge _ _)), (proj2 (Z.eqb_neq _ _)); [done| |]; pose proof (pow2_pos (ulp k 0)); unfold ulp in *; lia. }
  set (q := ulp k _). assert (Hq : k <= q <= e + k).
  { subst q. unfold ulp. rewrite <- Z.mul_assoc, <- Z.pow_add_r, Z.log2_mul_pow2 by lia.
    assert (Z.log2 m < 53) by (apply Z.log2_lt_pow2; lia). lia. }
  assert (Hx : m * 2 ^ e * 2 ^ k = m * 2 ^ (e + k - q) * 2 ^ q).
  { rewrite <- !Z.mul_assoc, <- !Z.pow_add_r by lia. do 2 f_equal. lia. }
  rewrite Hx, nearest_exact by lia. rewrite <- Z.mul_assoc, <- Z.pow_add_r by lia. do 2 f_equal. lia.
Qed.

Lemma representable_pow2 e : 0 <= e < 2098 -> representable (2 ^ e).
Proof. intros He. exists 1, e. split; [lia|]. split; [done|]. split; [lia|]. apply Z.pow_lt_mono_r; lia. Qed.

Lemma round_mag_representable k mag :
  0 <= k -> 0 <= mag <= 2 ^ (2097 + k) -> representable (round_mag binary64 k mag).
Proof.
  intros Hk Hm.
  assert (Hb : round_mag binary64 k mag <= 2 ^ 2097).
  { rewrite <- (round_mag_exact k (2 ^ 2097)) by (try apply representable_pow2; lia).
    apply round_mag_mono; [done|]. by rewrite <- Z.pow_add_r by lia. }
  assert (H2097 : 2 ^ 2097 < 2 ^ 2098) by (apply Z.pow_lt_mono_r; lia).
  rewrite round_mag_nearest in * by done. set (q := ulp k mag) in *.
  assert (Hq : k <= q) by (unfold q, ulp; lia). pose proof (pow2_pos (q - k)) as Hp.
  assert (Hn : 0 <= nearest q mag).
  { transitivity (mag / 2 ^ q); [|apply nearest_ge_div; lia]. apply Z.div_pos; [lia|]. apply pow2_pos. lia. }
  assert (Hle : nearest q mag <= 2 ^ 53).
  { apply nearest_le_bound; [lia|]. split; [lia|]. apply below_ulp; lia. }
  destruct (Z.eq_dec (nearest q mag) (2 ^ 53)) as [Heq|Hne].
  - exists (2 ^ 52), (q - k + 1). rewrite Heq in *. split; [|split; [done|split; [lia|]]].
    + change (2 ^ 53) with (2 ^ 52 * 2 ^ 1). rewrite <- Z.mul_assoc, <- Z.pow_add_r by lia. do 2 f_equal. lia.
    + lia.
  - exists (nearest q mag), (q - k). repeat split; lia.
Qed.

(** ** Integers *)

Lemma representable_int n : 0 <= n < 2 ^ 53 -> representable (n * 2 ^ 1074).
Proof.
  intros Hn. exists n, 1074. split; [done|]. split; [done|]. split; [lia|].
  change (2 ^ 2098) with (2 ^ 1024 * 2 ^ 1074). apply Z.mul_lt_mono_pos_r; [apply pow2_pos; lia|].
  eapply Z.lt_trans; [apply Hn|]. apply Z.pow_lt_mono_r; lia.
Qed.

Lemma round_int n : 0 <= n < 2 ^ 53 -> round_mag binary64 0 (n * 2 ^ 1074) = n * 2 ^ 1074.
Proof.
  intros Hn. pose proof (round_mag_exact 0 (n * 2 ^ 1074) ltac:(lia) (representable_int n Hn)) as H.
  change (2 ^ 0) with 1 in H. by rewrite Z.mul_1_r in H.
Qed.

Lemma double_of_i64_int n : Z.abs n < 2 ^ 53 -> double_of_i64 n = double_of_int n.
Proof. intros Hn. unfold double_of_i64, double_of_int. by rewrite round_int by lia. Qed.

Lemma double_le_int a b :
  Z.abs a < 2 ^ 53 -> Z.abs b < 2 ^ 53 -> double_le (double_of_int a) (double_of_int b) = (a <=? b).
Proof.
  intros Ha Hb. unfold double_le. rewrite !double_of_int_exact by done. cbn [number_le].
  rewrite !signed_scaled by (apply pow2_pos; lia). pose proof (pow2_pos 1074 ltac:(lia)) as Hp. revert Hp.
  generalize (2 ^ 1074). intros u Hu. destruct (Z.leb_spec a b); [apply Z.leb_le|apply Z.leb_gt]; nia.
Qed.

Lemma double_lt_int a b :
  Z.abs a < 2 ^ 53 -> Z.abs b < 2 ^ 53 -> double_lt (double_of_int a) (double_of_int b) = (a <? b).
Proof.
  intros Ha Hb. unfold double_lt. rewrite !double_le_int by done.
  destruct (Z.leb_spec a b), (Z.leb_spec b a), (Z.ltb_spec a b); (done || lia).
Qed.

Lemma double_add_int a b :
  Z.abs a < 2 ^ 53 -> Z.abs b < 2 ^ 53 -> Z.abs (a + b) < 2 ^ 53 ->
  double_add (double_of_int a) (double_of_int b) = double_of_int (a + b).
Proof.
  intros Ha Hb Hab. unfold double_add. rewrite !double_of_int_exact by done. cbn [number_add].
  pose proof (pow2_pos 1074 ltac:(lia)) as Hp. rewrite !signed_scaled by done.
  rewrite <- Z.mul_add_distr_r, Z.abs_mul, (Z.abs_eq (2 ^ 1074)) by (by apply Z.lt_le_incl).
  rewrite round_int by lia. unfold double_of_int. f_equal. f_equal.
  revert Hp. generalize (2 ^ 1074). intros u Hu.
  destruct (Z.eqb_spec ((a + b) * u) 0) as [H0|H0].
  - assert (a + b = 0) as -> by nia. destruct (Z.ltb_spec a 0), (Z.ltb_spec b 0); (done || lia).
  - destruct (Z.ltb_spec ((a + b) * u) 0), (Z.ltb_spec (a + b) 0); (done || nia).
Qed.

Lemma double_mul_int a b :
  0 <= a < 2 ^ 53 -> 0 <= b < 2 ^ 53 -> a * b < 2 ^ 53 ->
  double_mul (double_of_int a) (double_of_int b) = double_of_int (a * b).
Proof.
  intros Ha Hb Hab. unfold double_mul. rewrite !double_of_int_exact by lia. cbn [number_mul].
  rewrite !(proj2 (Z.ltb_ge _ 0)) by lia. cbn [xorb]. unfold double_of_int.
  rewrite (proj2 (Z.ltb_ge _ 0)), !Z.abs_eq by nia. do 2 f_equal.
  replace (a * 2 ^ 1074 * (b * 2 ^ 1074)) with (a * b * 2 ^ 1074 * 2 ^ 1074) by ring.
  apply round_mag_exact; [lia|]. apply representable_int. nia.
Qed.

(** ** Truncated products with a fraction *)

(** [p] is a double between 0 and 1, of magnitude [m]. *)
Definition fraction (p m : Z) : Prop := decode binary64 p = Finite false m /\ 0 <= m <= 2 ^ 1074.

(** [static_cast<size_t>(p * n)] *)
Definition scaled_index (m n : Z) : Z := round_mag binary64 1074 (m * (n * 2 ^ 1074)) / 2 ^ 1074.

Lemma scaled_index_mono m m' n : 0 <= m <= m' -> 0 <= n -> scaled_index m n <= scaled_index m' n.
Proof.
  intros Hm Hn. pose proof (pow2_pos 1074 ltac:(lia)) as Hp. unfold scaled_index. apply Z.div_le_mono; [done|].
  apply round_mag_mono; [lia|]. revert Hp. generalize (2 ^ 1074). intros u Hu.
  assert (0 <= n * u) by nia. generalize dependent (n * u). intros. nia.
Qed.

Lemma scaled_index_range m n : 0 <= m <= 2 ^ 1074 -> 0 <= n < 2 ^ 53 -> 0 <= scaled_index m n <= n.
Proof.
  intros Hm Hn. pose proof (pow2_pos 1074 ltac:(lia)) as Hp. split.
  - apply Z.div_pos; [|done]. apply round_mag_nonneg. revert Hp Hm. generalize (2 ^ 1074). intros. nia.
  - transitivity (scaled_index (2 ^ 1074) n); [apply scaled_index_mono; lia|].
    unfold scaled_index. rewrite (Z.mul_comm (2 ^ 1074)).
    rewrite round_mag_exact by (try apply representable_int; lia). rewrite Z.div_mul by lia. lia.
Qed.

Lemma u64_of_fraction p m n :
  fraction p m -> 0 <= n < 2 ^ 53 ->
  u64_of_double (double_mul p (double_of_int n)) = Some (scaled_index m n).
Proof.
  intros [Hp Hm] Hn. unfold u64_of_double, double_trunc, double_mul. rewrite Hp, double_of_int_exact by lia.
  cbn [number_mul]. rewrite (proj2 (Z.ltb_ge n 0)), Z.abs_eq by lia. cbn [xorb].
  assert (Hpp : 0 <= m * (n * 2 ^ 1074) <= 2 ^ (2097 + 1074)).
  { pose proof (pow2_pos 1074 ltac:(lia)) as Hu. split; [revert Hu Hm; generalize (2 ^ 1074); intros; nia|].
    transitivity (2 ^ 1074 * (2 ^ 53 * 2 ^ 1074)).
    - apply Z.mul_le_mono_nonneg; [lia|lia| |].
      + revert Hu. generalize (2 ^ 1074). intros. nia.
      + apply Z.mul_le_mono_nonneg_r; lia.
    - rewrite <- !Z.pow_add_r by lia. apply Z.pow_le_mono_r; lia. }
  rewrite decode_encode by (apply round_mag_representable; [lia|exact Hpp]).
  cbn [signed]. fold (scaled_index m n). pose proof (scaled_index_range m n Hm Hn).
  assert (H53 : 2 ^ 53 < 2 ^ 64) by (by apply Z.pow_lt_mono_r).
  rewrite (proj2 (Z.leb_le _ _)), (proj2 (Z.ltb_lt _ _)) by lia. done.
Qed.

(** ** Quotients *)

(** The scaled quotient before rounding, with its sticky bit. *)
Definition quotient (ma mb : Z) : Z :=
  2 * (Z.shiftl ma 1076 / mb) + (if Z.shiftl ma 1076 mod mb =? 0 then 0 else 1).

Lemma quotient_lower ma mb e : 0 <= e -> 0 < mb -> mb * 2 ^ e <= ma * 2 ^ 1074 -> 2 ^ e * 2 ^ 3 <= quotient ma mb.
Proof.
  intros He Hb H. unfold quotient. rewrite Z.shiftl_mul_pow2 by lia.
  assert (Hd : 2 ^ e * 4 <= ma * 2 ^ 1076 / mb).
  { apply Z.div_le_lower_bound; [done|]. change (2 ^ 1076) with (2 ^ 1074 * 4). revert H.
    generalize (2 ^ 1074), (2 ^ e). intros. nia. }
  case_match; lia.
Qed.

Lemma quotient_upper ma mb e :
  0 <= e -> 0 < mb -> ma * 2 ^ 1074 <= mb * 2 ^ e -> quotient ma mb <= 2 ^ e * 2 ^ 3.
Proof.
  intros He Hb H. unfold quotient. rewrite Z.shiftl_mul_pow2 by lia. change (2 ^ 1076) with (2 ^ 1074 * 4).
  set (n := ma * (2 ^ 1074 * 4)). assert (Hn : n <= mb * (2 ^ e * 4)).
  { subst n. revert H. generalize (2 ^ 1074), (2 ^ e). intros. nia. }
  clearbody n. pose proof (Z.div_mod n mb). pose proof (Z.mod_pos_bound n mb).
  destruct (Z.eqb_spec (n mod mb) 0) as [Hz|Hz].
  - assert (n / mb <= 2 ^ e * 4) by (apply Z.div_le_upper_bound; lia). lia.
  - assert (n / mb < 2 ^ e * 4); [|lia].
    apply Z.div_lt_upper_bound; [done|]. destruct (Z.eq_dec n (mb * (2 ^ e * 4))) as [Heq|]; [|lia].
    exfalso. apply Hz. rewrite Heq, Z.mul_comm. apply Z.mod_mul. lia.
Qed.

Lemma quotient_nonneg ma mb : 0 <= ma -> 0 < mb -> 0 <= quotient ma mb.
Proof.
  intros Ha Hb. unfold quotient. rewrite Z.shiftl_mul_pow2 by lia.
  assert (0 <= ma * 2 ^ 1076 / mb).
  { apply Z.div_pos; [|done]. apply Z.mul_nonneg_nonneg; [done|]. apply Z.lt_le_incl, pow2_pos. lia. }
  case_match; lia.
Qed.

(** A quotient of positive doubles that lies below [2^(e - 1074)] is a double
    below it. *)
Lemma double_div_range a b ma mb e :
  decode binary64 a = Finite false ma -> decode binary64 b = Finite false mb -> 0 <= ma -> 0 < mb ->
  0 <= e <= 2097 -> ma * 2 ^ 1074 <= mb * 2 ^ e ->
  exists m, decode binary64 (double_div a b) = Finite false m /\ 0 <= m <= 2 ^ e /\
    (forall e', 0 <= e' <= 2097 -> mb * 2 ^ e' <= ma * 2 ^ 1074 -> 2 ^ e' <= m).
Proof.
  intros Ha Hb Hma Hmb He H. exists (round_mag binary64 3 (quotient ma mb)).
  pose proof (quotient_upper ma mb e ltac:(lia) Hmb H) as Hup. pose proof (quotient_nonneg ma mb Hma Hmb) as Hnn.
  split; [|split; [split|]].
  - unfold double_div. rewrite Ha, Hb. cbn [number_div]. rewrite (proj2 (Z.eqb_neq _ _)) by lia. cbn [xorb].
    fold (quotient ma mb). apply decode_encode, round_mag_representable; [lia|]. split; [done|].
    etransitivity; [exact Hup|]. rewrite <- Z.pow_add_r by lia. apply Z.pow_le_mono_r; lia.
  - by apply round_mag_nonneg.
  - rewrite <- (round_mag_exact 3 (2 ^ e)) by (try apply representable_pow2; lia). by apply round_mag_mono.
  - intros e' He' Hlow. rewrite <- (round_mag_exact 3 (2 ^ e')) by (try apply representable_pow2; lia).
    apply round_mag_mono; [lia|]. split; [|by apply quotient_lower; lia].
    apply Z.mul_nonneg_nonneg; apply Z.lt_le_incl, pow2_pos; lia.
Qed.

Lemma u64_of_magnitude d m e :
  decode binary64 d = Finite false m -> 0 <= m <= 2 ^ e -> e < 1138 ->
  exists n, u64_of_double d = Some n /\ 0 <= n.
Proof.
  intros Hd Hm He. unfold u64_of_double, double_trunc. rewrite Hd. cbn [signed].
  assert (Hp : 0 < 2 ^ 1074) by (apply pow2_pos; lia).
  assert (0 <= m / 2 ^ 1074) by (apply Z.div_pos; lia).
  assert (m / 2 ^ 1074 < 2 ^ 64).
  { apply Z.div_lt_upper_bound; [done|]. rewrite <- Z.pow_add_r by lia. eapply Z.le_lt_trans; [apply Hm|].
    apply Z.pow_lt_mono_r; lia. }
  rewrite (proj2 (Z.leb_le _ _)), (proj2 (Z.ltb_lt _ _)) by done. by eexists.
Qed.
