(* ===== verification/Pdo.v ===== *)
(** * Process data (src/core/ethercat: dto, util/PDOHelper.h, impl)

    The process image of the EtherCAT master is a memory of bytes; the PDO
    mappings of a slave say where in it each object of the slave lies.  The
    sensor manager and the motor manager read and write the image through
    [PDOHelper].  A pointer to the image is the image itself or [None] for
    [nullptr]; a call whose behaviour the language leaves undefined (an access
    outside the image, a shift by more than 31, a conversion out of range) gives
    [None]. *)

From S2P Require Import Prelude Ieee754.

(** ** PDO mappings *)

Inductive PDODirection := INPUT | OUTPUT.
Inductive PDODataType := INT8 | UINT8 | INT16 | UINT16 | INT32 | UINT32 | FLOAT | DOUBLE.

#[export] Instance PDODirection_eq_dec : EqDecision PDODirection.
Proof. solve_decision. Defined.
#[export] Instance PDODataType_eq_dec : EqDecision PDODataType.
Proof. solve_decision. Defined.

Record PDOMapping := mkPDOMapping {
  direction : PDODirection;
  index : Z;
  subindex : Z;
  bit_length : Z;
  data_type : PDODataType;
  offset : Z;
  description : string
}.

#[export] Instance PDOMapping_eq_dec : EqDecision PDOMapping.
Proof. solve_decision. Defined.

Definition is_type (t : PDODataType) (m : PDOMapping) : bool := bool_decide (data_type m = t).

(** The condition the lookups of the managers test. *)
Definition is_object (d : PDODirection) (idx sub : Z) (m : PDOMapping) : bool :=
  bool_decide (direction m = d) && (index m =? idx) && (subindex m =? sub).

Inductive DeviceType := SENSOR | MOTOR | IO_MODULE | UNKNOWN.

Record SlaveConfig := mkSlaveConfig {
  alias : Z;
  position : Z;
  vendor_id : Z;
  product_code : Z;
  device_name : string;
  device_type : DeviceType
}.

(** interfaces/ISlaveConfig.h *)
Record ISlaveConfig := mkISlaveConfig {
  getSlaveConfig : Z -> option SlaveConfig;
  getPDOMappings : Z -> list PDOMapping;
  getSlaveCount : nat
}.

(** ** The process image *)

Abbreviation domain := (list Z).

Definition in_image (off : Z) (n : nat) (dom : domain) : bool :=
  (0 <=? off) && (off + Z.of_nat n <=? Z.of_nat (length dom)).

Definition load (off : Z) (n : nat) (dom : domain) : option (list Z) :=
  if in_image off n dom then Some (take n (drop (Z.to_nat off) dom)) else None.

Definition store (off : Z) (bs : list Z) (dom : domain) : option domain :=
  if in_image off (length bs) dom
  then Some (take (Z.to_nat off) dom ++ bs ++ drop (Z.to_nat off + length bs) dom)
  else None.

Definition u8 (x : Z) : Z := wrap 8 x.
Definition u16 (x : Z) : Z := wrap 16 x.
Definition i8 (x : Z) : Z := wrap 8 (x + 2 ^ 7) - 2 ^ 7.
Definition i16 (x : Z) : Z := wrap 16 (x + 2 ^ 15) - 2 ^ 15.

(** ** PDOHelper: doubles and floats are bit patterns *)

Definition readInt32 (dom : domain) (off : Z) : option Z := (i32 ∘ le_val) <$> load off 4 dom.
Definition readInt16 (dom : domain) (off : Z) : option Z := (i16 ∘ le_val) <$> load off 2 dom.
Definition readUInt16 (dom : domain) (off : Z) : option Z := le_val <$> load off 2 dom.
Definition readUInt8 (dom : domain) (off : Z) : option Z := le_val <$> load off 1 dom.
Definition readDouble (dom : domain) (off : Z) : option Z := le_val <$> load off 8 dom.
Definition readFloat (dom : domain) (off : Z) : option Z := le_val <$> load off 4 dom.

Definition writeInt32 (dom : domain) (off v : Z) : option domain := store off (le_bytes 4 (u32 v)) dom.
Definition writeInt16 (dom : domain) (off v : Z) : option domain := store off (le_bytes 2 (u16 v)) dom.
Definition writeUInt16 (dom : domain) (off v : Z) : option domain := store off (le_bytes 2 v) dom.
Definition writeUInt8 (dom : domain) (off v : Z) : option domain := store off (le_bytes 1 v) dom.
Definition writeDouble (dom : domain) (off bits : Z) : option domain := store off (le_bytes 8 bits) dom.
Definition writeFloat (dom : domain) (off bits : Z) : option domain := store off (le_bytes 4 bits) dom.

(** [readByMapping]: the result and what is stored through [out_value], which
    is null when [out] is false. *)
Definition readByMapping (ptr : option domain) (m : PDOMapping) (out : bool) : option (Z * option Z) :=
  match ptr with
  | None => Some (-1, None)
  | Some dom =>
    if negb out then Some (-1, None)
    else
      v ← match data_type m with
          | INT32 => readInt32 dom (offset m)
          | UINT32 => le_val <$> load (offset m) 4 dom
          | INT16 => readInt16 dom (offset m)
          | UINT16 => readUInt16 dom (offset m)
          | INT8 => (i8 ∘ le_val) <$> load (offset m) 1 dom
          | UINT8 => readUInt8 dom (offset m)
          | FLOAT => readFloat dom (offset m)
          | DOUBLE => readDouble dom (offset m)
          end;
      Some (0, Some v)
  end.

(** ** Sensor data (dto/SensorData.h) *)

Record PositionSensorData := mkPosition {
  p_position : Z; p_velocity : Z; p_timestamp : Z; p_valid : bool; p_slave_id : Z
}.
Definition newPosition : PositionSensorData := mkPosition 0 0 0 false 0.

Record VelocitySensorData := mkVelocity {
  v_velocity : Z; v_acceleration : Z; v_timestamp : Z; v_valid : bool; v_slave_id : Z; v_unit : string
}.
Definition newVelocity : VelocitySensorData := mkVelocity 0 0 0 false 0 "m/s".

Record TorqueSensorData := mkTorque {
  force_x : Z; force_y : Z; force_z : Z; torque_x : Z; torque_y : Z; torque_z : Z;
  t_timestamp : Z; t_valid : bool; t_slave_id : Z
}.
Definition newTorque : TorqueSensorData := mkTorque 0 0 0 0 0 0 0 false 0.

Record DigitalInputData := mkDI {
  di_channel : Z; di_value : bool; di_timestamp : Z; di_valid : bool; di_slave_id : Z
}.
Definition newDI : DigitalInputData := mkDI 0 false 0 false 0.

Record AnalogInputData := mkAI {
  ai_channel : Z; ai_value : Z; ai_unit : string; ai_min_value : Z; ai_max_value : Z;
  ai_timestamp : Z; ai_valid : bool; ai_slave_id : Z
}.
Definition newAI : AnalogInputData := mkAI 0 0 "V" (double_of_int (-10)) (double_of_int 10) 0 false 0.

Record DigitalOutputData := mkDO {
  do_channel : Z; do_value : bool; do_timestamp : Z; do_valid : bool; do_slave_id : Z
}.
Definition newDO : DigitalOutputData := mkDO 0 false 0 false 0.

Record AnalogOutputData := mkAO {
  ao_channel : Z; ao_value : Z; ao_unit : string; ao_min_value : Z; ao_max_value : Z;
  ao_timestamp : Z; ao_valid : bool; ao_slave_id : Z
}.
Definition newAO : AnalogOutputData := mkAO 0 0 "V" (double_of_int (-10)) (double_of_int 10) 0 false 0.

Definition ai_isInRange (d : AnalogInputData) : bool :=
  double_le (ai_min_value d) (ai_value d) && double_le (ai_value d) (ai_max_value d).
Definition ao_isInRange (d : AnalogOutputData) : bool :=
  double_le (ao_min_value d) (ao_value d) && double_le (ao_value d) (ao_max_value d).

(** ** SensorDataManager

    [cfg] is [config_], [ptr] the image at [domain_ptr_], [active] what
    [master_->isActive()] answers, [now] the clock.  A reader gives its result
    and the data object as it leaves it. *)

Section SensorDataManager.
Variable cfg : ISlaveConfig.

(** The offsets of two objects, each the last one listed. *)
Definition last_offsets (idx : Z) (ms : list PDOMapping) : option Z * option Z :=
  foldl (λ acc m,
    if is_object INPUT idx 1 m then (Some (offset m), snd acc)
    else if is_object INPUT idx 2 m then (fst acc, Some (offset m))
    else acc) (None, None) ms.

Definition readPositionSensor (ptr : option domain) (active : bool) (now slave_id : Z)
    (data : PositionSensorData) : option (Z * PositionSensorData) :=
  match ptr with
  | None => Some (-1, data)
  | Some dom =>
    let mappings := getPDOMappings cfg slave_id in
    if bool_decide (mappings = []) then Some (-1, data)
    else
      match last_offsets 0x1A00 mappings with
      | (None, _) => Some (-1, data)
      | (Some pos_offset, vel_offset) =>
        pos ← readInt32 dom pos_offset;
        vel ← match vel_offset with Some o => readInt32 dom o | None => Some 0 end;
        Some (0, mkPosition pos vel now active slave_id)
      end
  end.

Definition readVelocitySensor (ptr : option domain) (active : bool) (now slave_id : Z)
    (data : VelocitySensorData) : option (Z * VelocitySensorData) :=
  match ptr with
  | None => Some (-1, data)
  | Some dom =>
    let mappings := getPDOMappings cfg slave_id in
    if bool_decide (mappings = []) then Some (-1, data)
    else
      match last_offsets 0x1A01 mappings with
      | (None, _) => Some (-1, data)
      | (Some vel_offset, acc_offset) =>
        vel ← readDouble dom vel_offset;
        acc ← match acc_offset with Some o => readDouble dom o | None => Some 0 end;
        Some (0, mkVelocity vel acc now active slave_id (v_unit data))
      end
  end.

(** The [switch] on the axis. *)
Definition set_axis (sub v : Z) (d : TorqueSensorData) : TorqueSensorData :=
  let '(mkTorque fx fy fz tx ty tz ts va sl) := d in
  if sub =? 1 then mkTorque v fy fz tx ty tz ts va sl
  else if sub =? 2 then mkTorque fx v fz tx ty tz ts va sl
  else if sub =? 3 then mkTorque fx fy v tx ty tz ts va sl
  else if sub =? 4 then mkTorque fx fy fz v ty tz ts va sl
  else if sub =? 5 then mkTorque fx fy fz tx v tz ts va sl
  else if sub =? 6 then mkTorque fx fy fz tx ty v ts va sl
  else d.

Fixpoint read_axes (dom : domain) (ms : list PDOMapping) (found : bool) (d : TorqueSensorData) :
    option (bool * TorqueSensorData) :=
  match ms with
  | [] => Some (found, d)
  | m :: ms =>
    if bool_decide (direction m = INPUT) && (index m =? 0x1A02) then
      v ← readDouble dom (offset m); read_axes dom ms true (set_axis (subindex m) v d)
    else read_axes dom ms found d
  end.

Definition readTorqueSensor (ptr : option domain) (active : bool) (now slave_id : Z)
    (data : TorqueSensorData) : option (Z * TorqueSensorData) :=
  match ptr with
  | None => Some (-1, data)
  | Some dom =>
    let mappings := getPDOMappings cfg slave_id in
    if bool_decide (mappings = []) then Some (-1, data)
    else
      '(found_any, d) ← read_axes dom mappings false data;
      if negb found_any then Some (-1, d)
      else
        let '(mkTorque fx fy fz tx ty tz _ _ _) := d in
        Some (0, mkTorque fx fy fz tx ty tz now active slave_id)
  end.

(** [1 << channel], an [int]. *)
Definition channel_mask (channel : Z) : option Z :=
  if channel <? 32 then Some (i32 (Z.shiftl 1 channel)) else None.

(** The bitmap of a digital object; [Some None] when the type is not supported. *)
Definition read_bitmap (dom : domain) (m : PDOMapping) : option (option Z) :=
  if is_type UINT8 m then Some <$> readUInt8 dom (offset m)
  else if is_type UINT16 m then Some <$> readUInt16 dom (offset m)
  else Some None.

Definition readDigitalInput (ptr : option domain) (active : bool) (now slave_id channel : Z)
    (data : DigitalInputData) : option (Z * DigitalInputData) :=
  match ptr with
  | None => Some (-1, data)
  | Some dom =>
    let mappings := getPDOMappings cfg slave_id in
    if bool_decide (mappings = []) then Some (-1, data)
    else
      match List.find (is_object INPUT 0x1A03 1) mappings with
      | None => Some (-1, data)
      | Some m =>
        r ← read_bitmap dom m;
        match r with
        | None => Some (-1, data)
        | Some bitmap =>
          mask ← channel_mask channel;
          Some (0, mkDI channel (negb (Z.land bitmap mask =? 0)) now active slave_id)
        end
      end
  end.

(** The value of an analog object as a double; [Some None] when the type is
    not supported. *)
Definition read_analog (dom : domain) (m : PDOMapping) : option (option Z) :=
  match data_type m with
  | INT16 => (Some ∘ double_of_int) <$> readInt16 dom (offset m)
  | INT32 => (Some ∘ double_of_int) <$> readInt32 dom (offset m)
  | FLOAT => (Some ∘ double_of_float) <$> readFloat dom (offset m)
  | DOUBLE => Some <$> readDouble dom (offset m)
  | _ => Some None
  end.

Definition readAnalogInput (ptr : option domain) (active : bool) (now slave_id channel : Z)
    (data : AnalogInputData) : option (Z * AnalogInputData) :=
  match ptr with
  | None => Some (-1, data)
  | Some dom =>
    let mappings := getPDOMappings cfg slave_id in
    if bool_decide (mappings = []) then Some (-1, data)
    else
      match List.find (is_object INPUT 0x1A04 (u8 (1 + channel))) mappings with
      | None => Some (-1, data)
      | Some m =>
        r ← read_analog dom m;
        let '(mkAI _ v unit lo hi ts va sl) := data in
        match r with
        | None => Some (-1, mkAI channel v unit lo hi ts va sl)
        | Some v => Some (0, mkAI channel v unit lo hi now active slave_id)
        end
      end
  end.

(** The writers give their result and the image. *)
Definition writeDigitalOutput (ptr : option domain) (slave_id channel : Z) (data : DigitalOutputData) :
    option (Z * option domain) :=
  match ptr with
  | None => Some (-1, ptr)
  | Some dom =>
    let mappings := getPDOMappings cfg slave_id in
    if bool_decide (mappings = []) then Some (-1, ptr)
    else
      match List.find (is_object OUTPUT 0x1600 1) mappings with
      | None => Some (-1, ptr)
      | Some m =>
        r ← read_bitmap dom m;
        match r with
        | None => Some (-1, ptr)
        | Some bitmap =>
          mask ← channel_mask channel;
          let bitmap := if do_value data then u16 (Z.lor bitmap mask)
                        else u16 (Z.land bitmap (Z.lnot mask)) in
          dom ← (if is_type UINT8 m then writeUInt8 dom (offset m) (u8 bitmap)
                 else writeUInt16 dom (offset m) bitmap);
          Some (0, Some dom)
        end
      end
  end.

(** Writing a double to an analog object; [Some None] when the type is not
    supported. *)
Definition write_analog (dom : domain) (m : PDOMapping) (v : Z) : option (option domain) :=
  match data_type m with
  | INT16 => n ← int_of_double 16 v; Some <$> writeInt16 dom (offset m) n
  | INT32 => n ← int_of_double 32 v; Some <$> writeInt32 dom (offset m) n
  | FLOAT => Some <$> writeFloat dom (offset m) (float_of_double v)
  | DOUBLE => Some <$> writeDouble dom (offset m) v
  | _ => Some None
  end.

Definition writeAnalogOutput (ptr : option domain) (slave_id channel : Z) (data : AnalogOutputData) :
    option (Z * option domain) :=
  match ptr with
  | None => Some (-1, ptr)
  | Some dom =>
    let mappings := getPDOMappings cfg slave_id in
    if bool_decide (mappings = []) then Some (-1, ptr)
    else
      match List.find (is_object OUTPUT 0x1601 (u8 (1 + channel))) mappings with
      | None => Some (-1, ptr)
      | Some m =>
        if negb (ao_isInRange data) then Some (-1, ptr)
        else
          r ← write_analog dom m (ao_value data);
          match r with
          | None => Some (-1, ptr)
          | Some dom => Some (0, Some dom)
          end
      end
  end.

(** The private helper, which looks at both directions. *)
Definition sensor_findPDOOffset (slave_id idx sub : Z) : option Z :=
  offset <$> List.find (λ m, (index m =? idx) && (subindex m =? sub)) (getPDOMappings cfg slave_id).
End SensorDataManager.

(** ** Motor commands (dto/MotorCommand.h)

    [ControlMode] is an enumeration over [uint8_t]: any value of that type,
    not only the four that have a name. *)

Definition ControlMode : Type := Z.
Definition DISABLED : ControlMode := 0.
Definition POSITION : ControlMode := 1.
Definition VELOCITY : ControlMode := 2.
Definition TORQUE : ControlMode := 3.

Record BLDCMotorCommand := mkBLDC {
  b_slave_id : Z;
  b_target_velocity : Z;
  b_target_torque : Z;
  b_control_mode : ControlMode;
  b_enable : bool;
  b_timestamp : Z
}.
Definition newBLDC : BLDCMotorCommand := mkBLDC 0 0 0 DISABLED false 0.

(** [lo <= x && x <= hi] *)
Definition within (lo hi x : Z) : bool := double_le lo x && double_le x hi.

Definition bldc_isValid (c : BLDCMotorCommand) : bool :=
  if negb (b_enable c) then true
  else if b_control_mode c =? DISABLED then true
  else if b_control_mode c =? VELOCITY then
    within (double_of_int (-10000)) (double_of_int 10000) (b_target_velocity c)
  else if b_control_mode c =? TORQUE then
    within (double_of_int (-100)) (double_of_int 100) (b_target_torque c)
  else false.

Record ServoDriverCommand := mkServo {
  s_slave_id : Z;
  s_target_position : Z;
  s_target_velocity : Z;
  s_target_torque : Z;
  s_control_mode : ControlMode;
  s_max_velocity : Z;
  s_max_torque : Z;
  s_enable : bool;
  s_timestamp : Z
}.
Definition newServo : ServoDriverCommand :=
  mkServo 0 0 0 0 DISABLED (double_of_int 10) (double_of_int 100) false 0.

(** 6.28318530718 *)
Definition TWO_PI : Z := 0x401921FB54442EEA.
Definition minus_TWO_PI : Z := 0xC01921FB54442EEA.

Definition servo_isValid (c : ServoDriverCommand) : bool :=
  if negb (s_enable c) then true
  else if s_control_mode c =? DISABLED then true
  else if s_control_mode c =? POSITION then
    let in_rotation_range := within minus_TWO_PI TWO_PI (s_target_position c) in
    let in_linear_range := within (double_of_int (-10)) (double_of_int 10) (s_target_position c) in
    let velocity_valid := within 0 (s_max_velocity c) (s_target_velocity c) in
    (in_rotation_range || in_linear_range) && velocity_valid
  else if s_control_mode c =? VELOCITY then within 0 (s_max_velocity c) (s_target_velocity c)
  else if s_control_mode c =? TORQUE then within 0 (s_max_torque c) (s_target_torque c)
  else false.

(** ** MotorCommandManager *)

Section MotorCommandManager.
Variable cfg : ISlaveConfig.

Definition findPDOOffset (slave_id idx sub : Z) : option (Z * PDODataType) :=
  (λ m, (offset m, data_type m)) <$> List.find (is_object OUTPUT idx sub) (getPDOMappings cfg slave_id).

Definition writeControlWord (dom : domain) (slave_id control_word : Z) : option (Z * domain) :=
  match findPDOOffset slave_id 0x1602 1 with
  | Some (off, UINT16) => dom ← writeUInt16 dom off control_word; Some (0, dom)
  | _ =>
    match findPDOOffset slave_id 0x1603 1 with
    | Some (off, UINT16) => dom ← writeUInt16 dom off control_word; Some (0, dom)
    | _ => Some (-1, dom)
    end
  end.

Definition bldc_control_word (c : BLDCMotorCommand) : Z :=
  if b_enable c && negb (b_control_mode c =? DISABLED) then
    Z.lor 1 (if b_control_mode c =? VELOCITY then Z.shiftl 2 1
             else if b_control_mode c =? TORQUE then Z.shiftl 3 1 else 0)
  else 0.

(** The part of [writeBLDCCommand] after the control word. *)
Definition write_bldc_target (dom : domain) (c : BLDCMotorCommand) : option (Z * domain) :=
  if b_enable c && (b_control_mode c =? VELOCITY) then
    match findPDOOffset (b_slave_id c) 0x1602 2 with
    | Some (off, INT32) => n ← int_of_double 32 (b_target_velocity c); dom ← writeInt32 dom off n; Some (0, dom)
    | Some _ => Some (-1, dom)
    | None => Some (0, dom)
    end
  else if b_enable c && (b_control_mode c =? TORQUE) then
    match findPDOOffset (b_slave_id c) 0x1602 3 with
    | Some (off, INT16) => n ← int_of_double 16 (b_target_torque c); dom ← writeInt16 dom off n; Some (0, dom)
    | Some (off, DOUBLE) => dom ← writeDouble dom off (b_target_torque c); Some (0, dom)
    | Some _ => Some (-1, dom)
    | None => Some (0, dom)
    end
  else Some (0, dom).

Definition writeBLDCCommand (ptr : option domain) (c : BLDCMotorCommand) : option (Z * option domain) :=
  match ptr with
  | None => Some (-1, ptr)
  | Some dom =>
    if negb (bldc_isValid c) then Some (-1, ptr)
    else if bool_decide (getPDOMappings cfg (b_slave_id c) = []) then Some (-1, ptr)
    else
      '(r, dom) ← writeControlWord dom (b_slave_id c) (bldc_control_word c);
      if negb (r =? 0) then Some (-1, Some dom)
      else '(r, dom) ← write_bldc_target dom c; Some (r, Some dom)
  end.

Definition servo_control_word (c : ServoDriverCommand) : Z :=
  if s_enable c && negb (s_control_mode c =? DISABLED) then
    Z.lor 1 (if s_control_mode c =? POSITION then Z.shiftl 1 1
             else if s_control_mode c =? VELOCITY then Z.shiftl 2 1
             else if s_control_mode c =? TORQUE then Z.shiftl 3 1 else 0)
  else 0.

(** A target of a servo: a double, or -1 for another type; nothing without a
    mapping. *)
Definition write_servo_object (dom : domain) (slave_id sub bits : Z) : option (Z * domain) :=
  match findPDOOffset slave_id 0x1603 sub with
  | Some (off, DOUBLE) => dom ← writeDouble dom off bits; Some (0, dom)
  | Some _ => Some (-1, dom)
  | None => Some (0, dom)
  end.

(** The part of [writeServoCommand] after the control word; a type of the
    maximum velocity that is not supported is not an error. *)
Definition write_servo_target (dom : domain) (c : ServoDriverCommand) : option (Z * domain) :=
  if s_enable c && (s_control_mode c =? POSITION) then
    '(r, dom) ← write_servo_object dom (s_slave_id c) 2 (s_target_position c);
    if negb (r =? 0) then Some (-1, dom)
    else '(_, dom) ← write_servo_object dom (s_slave_id c) 3 (s_max_velocity c); Some (0, dom)
  else if s_enable c && (s_control_mode c =? VELOCITY) then
    write_servo_object dom (s_slave_id c) 4 (s_target_velocity c)
  else if s_enable c && (s_control_mode c =? TORQUE) then
    write_servo_object dom (s_slave_id c) 5 (s_target_torque c)
  else Some (0, dom).

Definition writeServoCommand (ptr : option domain) (c : ServoDriverCommand) : option (Z * option domain) :=
  match ptr with
  | None => Some (-1, ptr)
  | Some dom =>
    if negb (servo_isValid c) then Some (-1, ptr)
    else if bool_decide (getPDOMappings cfg (s_slave_id c) = []) then Some (-1, ptr)
    else
      '(r, dom) ← writeControlWord dom (s_slave_id c) (servo_control_word c);
      if negb (r =? 0) then Some (-1, Some dom)
      else '(r, dom) ← write_servo_target dom c; Some (r, Some dom)
  end.
End MotorCommandManager.

(** ** Loads and stores *)

Lemma in_image_spec off n dom : in_image off n dom = true <-> 0 <= off /\ off + Z.of_nat n <= Z.of_nat (length dom).
Proof. unfold in_image. rewrite andb_true_iff, !Z.leb_le. done. Qed.

Lemma store_length off bs dom dom' : store off bs dom = Some dom' -> length dom' = length dom.
Proof.
  unfold store. destruct (in_image off (length bs) dom) eqn:H; [|done]. intros [= <-].
  apply in_image_spec in H. rewrite !length_app, length_take, length_drop. lia.
Qed.

Lemma load_store_same off bs dom dom' : store off bs dom = Some dom' -> load off (length bs) dom' = Some bs.
Proof.
  intros H. pose proof (store_length _ _ _ _ H) as Hl. unfold store in H.
  destruct (in_image off (length bs) dom) eqn:Hi; [|done]. injection H as <-.
  unfold load, in_image in *. rewrite Hl, Hi. apply in_image_spec in Hi.
  rewrite drop_app_ge by (rewrite length_take; lia). rewrite length_take.
  replace (Z.to_nat off - Z.to_nat off `min` length dom)%nat with 0%nat by lia.
  by rewrite drop_0, take_app_length.
Qed.

Lemma load_store_other off bs dom dom' off2 n :
  store off bs dom = Some dom' ->
  off + Z.of_nat (length bs) <= off2 \/ off2 + Z.of_nat n <= off ->
  load off2 n dom' = load off2 n dom.
Proof.
  intros H Hd. pose proof (store_length _ _ _ _ H) as Hl. unfold store in H.
  destruct (in_image off (length bs) dom) eqn:Hi; [|done]. injection H as <-.
  unfold load, in_image. rewrite Hl. fold (in_image off2 n dom).
  destruct (in_image off2 n dom) eqn:Hi2; [|done]. apply in_image_spec in Hi, Hi2. f_equal.
  apply list_eq. intros i. destruct (decide (i < n)%nat); [|by rewrite !lookup_take_ge by lia].
  rewrite !lookup_take_lt, !lookup_drop by lia. destruct Hd.
  - rewrite app_assoc, lookup_app_r by (rewrite length_app, length_take; lia).
    rewrite lookup_drop, length_app, length_take. f_equal. lia.
  - rewrite lookup_app_l by (rewrite length_take; lia). by rewrite lookup_take_lt by lia.
Qed.

Lemma load_length off n dom bs : load off n dom = Some bs -> length bs = n.
Proof.
  unfold load. destruct (in_image off n dom) eqn:H; [|done]. intros [= <-]. apply in_image_spec in H.
  rewrite length_take, length_drop. lia.
Qed.

(** ** Layouts *)

Definition sizeof (t : PDODataType) : nat :=
  match t with
  | INT8 | UINT8 => 1 | INT16 | UINT16 => 2 | INT32 | UINT32 | FLOAT => 4 | DOUBLE => 8
  end.

(** The bytes of an object in the image. *)
Definition entry (m : PDOMapping) (dom : domain) : option (list Z) :=
  load (offset m) (sizeof (data_type m)) dom.

(** The objects of all slaves lie inside an image of [n] bytes and do not
    overlap. *)
Record layout_ok (cfg : ISlaveConfig) (n : nat) : Prop := {
  layout_inside s m : m ∈ getPDOMappings cfg s ->
    0 <= offset m /\ offset m + Z.of_nat (sizeof (data_type m)) <= Z.of_nat n;
  layout_disjoint s1 m1 s2 m2 : m1 ∈ getPDOMappings cfg s1 -> m2 ∈ getPDOMappings cfg s2 ->
    (s1, m1) <> (s2, m2) ->
    offset m1 + Z.of_nat (sizeof (data_type m1)) <= offset m2 \/
    offset m2 + Z.of_nat (sizeof (data_type m2)) <= offset m1
}.

Lemma entry_inside cfg s m dom :
  layout_ok cfg (length dom) -> m ∈ getPDOMappings cfg s ->
  exists bs, entry m dom = Some bs /\ length bs = sizeof (data_type m).
Proof.
  intros HL Hm. destruct (layout_inside _ _ HL s m Hm) as [H1 H2].
  assert (Hi : in_image (offset m) (sizeof (data_type m)) dom = true) by (by apply in_image_spec).
  unfold entry, load. rewrite Hi. eexists. split; [done|]. rewrite length_take, length_drop. lia.
Qed.

(** A sequence of stores to output objects, each of bytes that satisfy [P]. *)
Inductive writes (cfg : ISlaveConfig) (P : Z -> PDOMapping -> list Z -> Prop) : domain -> domain -> Prop :=
| writes_nil dom : writes cfg P dom dom
| writes_cons s m bs dom dom1 dom2 :
    m ∈ getPDOMappings cfg s -> direction m = OUTPUT -> length bs = sizeof (data_type m) -> P s m bs ->
    store (offset m) bs dom = Some dom1 -> writes cfg P dom1 dom2 -> writes cfg P dom dom2.

Lemma writes_app cfg P d1 d2 d3 : writes cfg P d1 d2 -> writes cfg P d2 d3 -> writes cfg P d1 d3.
Proof. induction 1; intros; [done|]. econstructor; eauto. Qed.

Lemma writes_length cfg P d1 d2 : writes cfg P d1 d2 -> length d2 = length d1.
Proof. induction 1 as [|?????????? Hst _ IH]; [done|]. by rewrite IH, (store_length _ _ _ _ Hst). Qed.

Lemma writes_mono cfg (P Q : Z -> PDOMapping -> list Z -> Prop) d1 d2 :
  (forall s m bs, P s m bs -> Q s m bs) -> writes cfg P d1 d2 -> writes cfg Q d1 d2.
Proof. intros HPQ. induction 1; [constructor|]. econstructor; eauto. Qed.

(** An object keeps its bytes or has those of one of the stores to it. *)
Lemma writes_entry cfg P d1 d2 s m :
  layout_ok cfg (length d1) -> writes cfg P d1 d2 -> m ∈ getPDOMappings cfg s ->
  entry m d2 = entry m d1 \/ exists bs, P s m bs /\ direction m = OUTPUT /\ entry m d2 = Some bs.
Proof.
  intros HL Hw Hm. induction Hw as [|s1 m1 bs d1 d3 d2 Hm1 Hdir Hbs HP Hst Hw IH]; [by left|].
  rewrite <- (store_length _ _ _ _ Hst) in HL at 1. destruct (IH HL) as [Heq|?]; [|by right].
  destruct (decide ((s1, m1) = (s, m))) as [[= -> ->]|Hne].
  - right. exists bs. split_and!; [done..|]. rewrite Heq. unfold entry. rewrite <- Hbs. by eapply load_store_same.
  - left. rewrite Heq. eapply load_store_other; [exact Hst|]. rewrite Hbs.
    rewrite (store_length _ _ _ _ Hst) in HL. exact (layout_disjoint _ _ HL _ _ _ _ Hm1 Hm Hne).
Qed.

Section Defined.
Context (cfg : ISlaveConfig) (P : Z -> PDOMapping -> list Z -> Prop) (dom : domain).
Hypothesis HL : layout_ok cfg (length dom).

Lemma store_object s m bs :
  m ∈ getPDOMappings cfg s -> direction m = OUTPUT -> length bs = sizeof (data_type m) -> P s m bs ->
  exists dom', store (offset m) bs dom = Some dom' /\ writes cfg P dom dom'.
Proof.
  intros Hm Hdir Hlen HP. destruct (layout_inside _ _ HL s m Hm) as [H1 H2]. unfold store.
  assert (Hi : in_image (offset m) (length bs) dom = true) by (apply in_image_spec; lia). rewrite Hi.
  eexists. split; [done|]. eapply (writes_cons _ _ _ m); [done..| |constructor]. unfold store. by rewrite Hi.
Qed.

(** An operation that is defined and only writes objects as [P] allows. *)
Definition writes_only (r : option (Z * domain)) : Prop :=
  exists z dom', r = Some (z, dom') /\ writes cfg P dom dom'.

Lemma writes_only_store s m bs z :
  m ∈ getPDOMappings cfg s -> direction m = OUTPUT -> length bs = sizeof (data_type m) -> P s m bs ->
  writes_only (dom ← store (offset m) bs dom; Some (z, dom)).
Proof.
  intros H1 H2 H3 H4. destruct (store_object s m bs H1 H2 H3 H4) as (dom' & Hst & Hw). rewrite Hst.
  by exists z, dom'.
Qed.

Lemma writes_only_none z : writes_only (Some (z, dom)).
Proof. exists z, dom. split; [done|constructor]. Qed.
End Defined.

Lemma writes_only_bind cfg P dom r (k : Z * domain -> option (Z * domain)) :
  writes_only cfg P dom r ->
  (forall z dom', length dom' = length dom -> writes_only cfg P dom' (k (z, dom'))) ->
  writes_only cfg P dom (r ≫= k).
Proof.
  intros (z & dom1 & -> & Hw) Hk. destruct (Hk z dom1 (writes_length _ _ _ _ Hw)) as (z2 & dom2 & Heq & Hw2).
  exists z2, dom2. split; [exact Heq|]. by eapply writes_app.
Qed.

(** Closes the goals where nothing is written. *)
Ltac no_write :=
  try lazymatch goal with |- writes_only _ _ _ (Some _) => apply writes_only_none end.

Lemma find_object cfg s d idx sub m :
  List.find (is_object d idx sub) (getPDOMappings cfg s) = Some m ->
  m ∈ getPDOMappings cfg s /\ direction m = d /\ index m = idx /\ subindex m = sub.
Proof.
  intros [Hin Hob]%List.find_some. apply list_elem_of_In in Hin. unfold is_object in Hob.
  apply andb_prop in Hob as [[Hd%bool_decide_eq_true Hi%Z.eqb_eq]%andb_prop Hs%Z.eqb_eq]. done.
Qed.

Lemma findPDOOffset_find cfg s idx sub off t :
  findPDOOffset cfg s idx sub = Some (off, t) ->
  exists m, m ∈ getPDOMappings cfg s /\ direction m = OUTPUT /\ index m = idx /\ subindex m = sub /\
    offset m = off /\ data_type m = t.
Proof.
  unfold findPDOOffset. destruct (List.find _ _) as [m|] eqn:Hf; [|done]. intros [= <- <-].
  apply find_object in Hf as (? & ? & ? & ?). by exists m.
Qed.

Lemma decode_mod bits : decode binary64 (bits mod 2 ^ 64) = decode binary64 bits.
Proof.
  assert (Hshift : Z.shiftr (bits mod 2 ^ 64) 52 mod 2 ^ 11 = Z.shiftr bits 52 mod 2 ^ 11).
  { apply Z.bits_inj'. intros i Hi. destruct (Z.lt_ge_cases i 11); [|by rewrite !Z.mod_pow2_bits_high by lia].
    rewrite !Z.mod_pow2_bits_low, !Z.shiftr_spec, Z.mod_pow2_bits_low by lia. done. }
  assert (Hlow : (bits mod 2 ^ 64) mod 2 ^ 52 = bits mod 2 ^ 52).
  { apply Z.mod_mod_divide. exists (2 ^ 12). lia. }
  unfold decode. cbn [frac_bits exp_bits binary64]. rewrite Hshift, Hlow, Z.mod_pow2_bits_low by lia. done.
Qed.

(** Doubles and integers in the image. *)
Lemma within_bytes lo hi bits : within lo hi (le_val (le_bytes 8 bits)) = within lo hi bits.
Proof.
  rewrite le_val_bytes. unfold within, double_le. change (8 * Z.of_nat 8) with 64. by rewrite decode_mod.
Qed.

Lemma i32_bytes n : - 2 ^ 31 <= n < 2 ^ 31 -> i32 (le_val (le_bytes 4 (u32 n))) = n.
Proof.
  intros H. rewrite le_val_bytes. change (8 * Z.of_nat 4) with 32. unfold i32, u32, wrap.
  rewrite Zmod_mod, Zplus_mod_idemp_l, Z.mod_small by lia. lia.
Qed.

Lemma i16_bytes n : - 2 ^ 15 <= n < 2 ^ 15 -> i16 (le_val (le_bytes 2 (u16 n))) = n.
Proof.
  intros H. rewrite le_val_bytes. change (8 * Z.of_nat 2) with 16. unfold i16, u16, wrap.
  rewrite Zmod_mod, Zplus_mod_idemp_l, Z.mod_small by lia. lia.
Qed.

(** ** What may stand in the motors' objects

    [vmax s v] and [tmax s t] say that [v] and [t] are limits some servo of the
    slave [s] was registered with. *)

Section Limits.
Variables vmax tmax : Z -> Z -> Prop.

Definition safe_bytes (s : Z) (m : PDOMapping) (bs : list Z) : Prop :=
  if index m =? 0x1602 then
    (subindex m = 2 -> data_type m = INT32 -> -10000 <= i32 (le_val bs) <= 10000) /\
    (subindex m = 3 -> data_type m = INT16 -> -100 <= i16 (le_val bs) <= 100) /\
    (subindex m = 3 -> data_type m = DOUBLE -> within (double_of_int (-100)) (double_of_int 100) (le_val bs) = true)
  else if index m =? 0x1603 then
    (subindex m = 2 -> data_type m = DOUBLE -> within (double_of_int (-10)) (double_of_int 10) (le_val bs) = true) /\
    (subindex m = 4 -> data_type m = DOUBLE ->
       le_val bs = 0 \/ exists v, vmax s v /\ within 0 v (le_val bs) = true) /\
    (subindex m = 5 -> data_type m = DOUBLE ->
       le_val bs = 0 \/ exists t, tmax s t /\ within 0 t (le_val bs) = true)
  else True.

(** A command to slave [s] writes its control word and otherwise only
    targets within the limits. *)
Definition motor_write (s0 word : Z) (s : Z) (m : PDOMapping) (bs : list Z) : Prop :=
  s = s0 /\ (index m = 0x1602 \/ index m = 0x1603) /\
  (subindex m = 1 -> data_type m = UINT16 -> bs = le_bytes 2 word) /\ safe_bytes s m bs.

(** [safe_bytes] at an object of known index, subindex and type. *)
Ltac safe_target Hi Hs Ht :=
  unfold safe_bytes; rewrite Hi, Hs, Ht; cbn [Z.eqb Pos.eqb];
  split_and!; intros ? ?;
  try match goal with
      | H : _ = _ :> Z |- _ => discriminate H
      | H : _ = _ :> PDODataType |- _ => discriminate H
      end.

Lemma control_word_writes cfg dom s word :
  layout_ok cfg (length dom) ->
  writes_only cfg (motor_write s word) dom (writeControlWord cfg dom s word).
Proof.
  intros HL. unfold writeControlWord, writeUInt16.
  assert (H : forall idx m, idx = 0x1602 \/ idx = 0x1603 -> direction m = OUTPUT ->
    m ∈ getPDOMappings cfg s -> index m = idx -> subindex m = 1 -> data_type m = UINT16 ->
    writes_only cfg (motor_write s word) dom (dom ← store (offset m) (le_bytes 2 word) dom; Some (0, dom))).
  { intros idx m Hidx Hd Hm Hi Hs Ht. apply (writes_only_store _ _ _ HL s); [done..|by rewrite Ht|].
    split_and!; [done| rewrite Hi; tauto|done|].
    unfold safe_bytes. rewrite Hi, Hs. destruct Hidx as [-> | ->]; cbn [Z.eqb Pos.eqb]; done. }
  destruct (findPDOOffset cfg s 0x1602 1) as [[off []]|] eqn:H1.
  4: { apply findPDOOffset_find in H1 as (m & ? & ? & ? & ? & <- & ?). apply (H 0x1602 m); auto. }
  all: destruct (findPDOOffset cfg s 0x1603 1) as [[off2 []]|] eqn:H2; no_write.
  all: apply findPDOOffset_find in H2 as (m & ? & ? & ? & ? & <- & ?); apply (H 0x1603 m); auto.
Qed.

(** Writing a target object of the motor at [idx]:[sub]. *)
Lemma target_writes cfg dom s word m bs :
  layout_ok cfg (length dom) -> m ∈ getPDOMappings cfg s -> direction m = OUTPUT ->
  index m = 0x1602 \/ index m = 0x1603 -> subindex m <> 1 ->
  length bs = sizeof (data_type m) -> safe_bytes s m bs ->
  writes_only cfg (motor_write s word) dom (dom ← store (offset m) bs dom; Some (0, dom)).
Proof. intros HL Hm Hd Hi Hs Hl Hsafe. by apply (writes_only_store _ _ _ HL s). Qed.

Lemma within_trunc w b bits :
  0 <= b < 2 ^ 53 -> b < 2 ^ (w - 1) -> within (double_of_int (- b)) (double_of_int b) bits = true ->
  exists n, int_of_double w bits = Some n /\ - b <= n <= b.
Proof. intros Hb Hw [H1 H2]%andb_prop. by apply trunc_in_range. Qed.

Lemma bldc_target_writes cfg dom c word :
  layout_ok cfg (length dom) -> bldc_isValid c = true ->
  writes_only cfg (motor_write (b_slave_id c) word) dom (write_bldc_target cfg dom c).
Proof.
  intros HL Hv. unfold write_bldc_target. unfold bldc_isValid in Hv.
  destruct (b_enable c); [|apply writes_only_none]. cbn [negb andb] in *.
  destruct (b_control_mode c =? DISABLED) eqn:H0.
  { apply Z.eqb_eq in H0. rewrite H0. apply writes_only_none. }
  destruct (b_control_mode c =? VELOCITY).
  - destruct (findPDOOffset _ _ _ _) as [[off []]|] eqn:Hf; no_write.
    apply findPDOOffset_find in Hf as (m & Hm & Hd & Hi & Hs & <- & Ht).
    destruct (within_trunc 32 10000 _ ltac:(lia) ltac:(lia) Hv) as (n & Hn & Hr). rewrite Hn.
    apply target_writes; rewrite ?Hi, ?Hs, ?Ht; [done..|by left|done|done|].
    safe_target Hi Hs Ht. by rewrite i32_bytes by lia.
  - destruct (b_control_mode c =? TORQUE); [|done].
    destruct (findPDOOffset _ _ _ _) as [[off []]|] eqn:Hf; no_write;
      apply findPDOOffset_find in Hf as (m & Hm & Hd & Hi & Hs & <- & Ht).
    + destruct (within_trunc 16 100 _ ltac:(lia) ltac:(lia) Hv) as (n & Hn & Hr). rewrite Hn.
      apply target_writes; rewrite ?Hi, ?Hs, ?Ht; [done..|by left|done|done|].
      safe_target Hi Hs Ht. by rewrite i16_bytes by lia.
    + apply target_writes; rewrite ?Hi, ?Hs, ?Ht; [done..|by left|done|done|].
      safe_target Hi Hs Ht. by rewrite within_bytes.
Qed.

(** The rotary range is inside the linear one. *)
Lemma servo_position_range bits :
  within minus_TWO_PI TWO_PI bits || within (double_of_int (-10)) (double_of_int 10) bits = true ->
  within (double_of_int (-10)) (double_of_int 10) bits = true.
Proof.
  intros [H|H]%orb_prop; [|done]. unfold within, double_le in *. rewrite !double_of_int_exact by lia.
  assert (Hlo : decode binary64 minus_TWO_PI = Finite true (Z.shiftl 0x1921FB54442EEA 1024)) by (vm_compute; reflexivity).
  assert (Hhi : decode binary64 TWO_PI = Finite false (Z.shiftl 0x1921FB54442EEA 1024)) by (vm_compute; reflexivity).
  assert (Hc : Z.shiftl 0x1921FB54442EEA 1024 < 10 * 2 ^ 1074) by (vm_compute; reflexivity).
  rewrite Hlo, Hhi in H. destruct (decode binary64 bits) as [| [] |neg mag]; [done..|].
  cbn [number_le signed Z.ltb Z.compare Z.abs] in *.
  apply andb_prop in H as [H1%Z.leb_le H2%Z.leb_le]. apply andb_true_intro.
  set (u := 2 ^ 1074) in *. set (q := Z.shiftl _ _) in *. clearbody u q. rewrite !Z.leb_le. cbn [Z.opp Z.abs]. lia.
Qed.

Lemma servo_object_writes cfg dom s word sub bits :
  layout_ok cfg (length dom) -> sub <> 1 ->
  (forall m, index m = 0x1603 -> subindex m = sub -> data_type m = DOUBLE -> safe_bytes s m (le_bytes 8 bits)) ->
  writes_only cfg (motor_write s word) dom (write_servo_object cfg dom s sub bits).
Proof.
  intros HL Hsub Hsafe. unfold write_servo_object, writeDouble.
  destruct (findPDOOffset _ _ _ _) as [[off []]|] eqn:Hf; no_write.
  apply findPDOOffset_find in Hf as (m & Hm & Hd & Hi & Hs & <- & Ht).
  apply target_writes; rewrite ?Hi, ?Hs, ?Ht; auto.
Qed.

Lemma servo_target_writes cfg dom c word :
  layout_ok cfg (length dom) -> servo_isValid c = true ->
  vmax (s_slave_id c) (s_max_velocity c) -> tmax (s_slave_id c) (s_max_torque c) ->
  writes_only cfg (motor_write (s_slave_id c) word) dom (write_servo_target cfg dom c).
Proof.
  intros HL Hv Hvm Htm. unfold write_servo_target. unfold servo_isValid in Hv.
  destruct (s_enable c); [|apply writes_only_none]. cbn [negb andb] in *.
  destruct (s_control_mode c =? DISABLED) eqn:H0.
  { apply Z.eqb_eq in H0. rewrite H0. apply writes_only_none. }
  destruct (s_control_mode c =? POSITION).
  - apply andb_prop in Hv as [Hp%servo_position_range _].
    apply writes_only_bind; [|intros z dom1 Hl; destruct (negb (z =? 0)); [no_write|]].
    { apply servo_object_writes; [done..|]. intros m Hi Hs Ht. safe_target Hi Hs Ht. by rewrite within_bytes. }
    apply writes_only_bind; [|intros; no_write].
    apply servo_object_writes; [by rewrite Hl|done|]. intros m Hi Hs Ht. safe_target Hi Hs Ht.
  - destruct (s_control_mode c =? VELOCITY); [|destruct (s_control_mode c =? TORQUE); [|done]];
      (apply servo_object_writes; [done..|]); intros m Hi Hs Ht; safe_target Hi Hs Ht; right;
      eexists; (split; [eassumption|]); by rewrite within_bytes.
Qed.

(** A command either leaves the image alone, or writes the control word it
    stands for and targets within the limits. *)
Definition command_ok cfg dom s word (r : option (Z * option domain)) : Prop :=
  exists z dom', r = Some (z, Some dom') /\ writes cfg (motor_write s word) dom dom'.

(** The common part of the two commands. *)
Lemma command_writes cfg dom s word (valid : bool) (target : domain -> option (Z * domain)) :
  layout_ok cfg (length dom) ->
  (valid = true -> forall dom1, length dom1 = length dom ->
     writes_only cfg (motor_write s word) dom1 (target dom1)) ->
  command_ok cfg dom s word
    (if negb valid then Some (-1, Some dom)
     else if bool_decide (getPDOMappings cfg s = []) then Some (-1, Some dom)
     else '(r, dom) ← writeControlWord cfg dom s word;
          if negb (r =? 0) then Some (-1, Some dom)
          else '(r, dom) ← target dom; Some (r, Some dom)).
Proof.
  intros HL Ht. assert (Hno : command_ok cfg dom s word (Some (-1, Some dom))).
  { exists (-1), dom. split; [done|constructor]. }
  destruct valid; [|done]. cbn [negb]. case_bool_decide; [done|]. clear Hno.
  destruct (control_word_writes cfg dom s word HL) as (z & dom1 & -> & Hw). cbn [mbind option_bind].
  destruct (negb (z =? 0)); [by exists (-1), dom1|].
  destruct (Ht eq_refl dom1 (writes_length _ _ _ _ Hw)) as (z2 & dom2 & -> & Hw2). cbn [mbind option_bind].
  exists z2, dom2. split; [done|]. by eapply writes_app.
Qed.

Lemma bldc_command_writes cfg dom c :
  layout_ok cfg (length dom) ->
  command_ok cfg dom (b_slave_id c) (bldc_control_word c) (writeBLDCCommand cfg (Some dom) c).
Proof.
  intros HL. apply command_writes; [done|]. intros Hv dom1 Hl. apply bldc_target_writes; [by rewrite Hl|done].
Qed.

Lemma servo_command_writes cfg dom c :
  layout_ok cfg (length dom) ->
  vmax (s_slave_id c) (s_max_velocity c) -> tmax (s_slave_id c) (s_max_torque c) ->
  command_ok cfg dom (s_slave_id c) (servo_control_word c) (writeServoCommand cfg (Some dom) c).
Proof.
  intros HL Hvm Htm. apply command_writes; [done|]. intros Hv dom1 Hl.
  apply servo_target_writes; [by rewrite Hl|done..].
Qed.
End Limits.

(** ** The control word of a slave *)

(** Where [writeControlWord] writes: the BLDC object, or else the servo's. *)
Definition control_object (cfg : ISlaveConfig) (s : Z) : option PDOMapping :=
  let servo :=
    match List.find (is_object OUTPUT 0x1603 1) (getPDOMappings cfg s) with
    | Some m => if is_type UINT16 m then Some m else None
    | None => None
    end in
  match List.find (is_object OUTPUT 0x1602 1) (getPDOMappings cfg s) with
  | Some m => if is_type UINT16 m then Some m else servo
  | None => servo
  end.

Lemma writeControlWord_object cfg dom s word :
  writeControlWord cfg dom s word =
    match control_object cfg s with
    | Some m => dom ← store (offset m) (le_bytes 2 word) dom; Some (0, dom)
    | None => Some (-1, dom)
    end.
Proof.
  unfold writeControlWord, control_object, findPDOOffset, writeUInt16, is_type.
  destruct (List.find (is_object OUTPUT 0x1602 1) _) as [m1|]; [destruct (data_type m1) eqn:H1|];
    destruct (List.find (is_object OUTPUT 0x1603 1) _) as [m2|]; try destruct (data_type m2) eqn:H2;
    cbn [fmap option_fmap option_map]; rewrite ?H1, ?H2; reflexivity.
Qed.

Lemma control_object_in cfg s m :
  control_object cfg s = Some m ->
  m ∈ getPDOMappings cfg s /\ direction m = OUTPUT /\ subindex m = 1 /\ data_type m = UINT16 /\
  (index m = 0x1602 \/ index m = 0x1603).
Proof.
  unfold control_object, is_type. intros H.
  destruct (List.find (is_object OUTPUT 0x1602 1) _) as [m1|] eqn:H1;
    [case_bool_decide; [injection H as <-; apply find_object in H1; naive_solver|]|];
    (destruct (List.find (is_object OUTPUT 0x1603 1) _) as [m2|] eqn:H2; [|done]);
    (case_bool_decide; [|done]); injection H as <-; apply find_object in H2; naive_solver.
Qed.

Section ControlWord.
Context (vmax tmax : Z -> Z -> Prop) (cfg : ISlaveConfig).

(** Later writes of the same command leave the control word in place. *)
Lemma motor_write_keeps_word dom dom' s word m :
  layout_ok cfg (length dom) -> control_object cfg s = Some m ->
  writes cfg (motor_write vmax tmax s word) dom dom' ->
  entry m dom = Some (le_bytes 2 word) -> entry m dom' = Some (le_bytes 2 word).
Proof.
  intros HL Hc Hw He. apply control_object_in in Hc as (Hm & Hd & Hs & Ht & Hi).
  destruct (writes_entry _ _ _ _ s m HL Hw Hm) as [-> |(bs & (_ & _ & Hbs & _) & _ & ->)]; [done|].
  by rewrite (Hbs Hs Ht).
Qed.

(** Commands to other slaves do not touch it. *)
Lemma other_write_keeps_word dom dom' s s' word m :
  layout_ok cfg (length dom) -> control_object cfg s = Some m -> s <> s' ->
  writes cfg (motor_write vmax tmax s' word) dom dom' -> entry m dom' = entry m dom.
Proof.
  intros HL Hc Hne Hw. apply control_object_in in Hc as (Hm & _).
  by destruct (writes_entry _ _ _ _ s m HL Hw Hm) as [-> |(bs & (-> & _) & _)].
Qed.

Lemma command_writes_word dom s word (target : domain -> option (Z * domain)) m z ptr :
  layout_ok cfg (length dom) -> control_object cfg s = Some m ->
  (forall dom1, length dom1 = length dom ->
     writes_only cfg (motor_write vmax tmax s word) dom1 (target dom1)) ->
  (if bool_decide (getPDOMappings cfg s = []) then Some (-1, Some dom)
   else '(r, dom) ← writeControlWord cfg dom s word;
        if negb (r =? 0) then Some (-1, Some dom)
        else '(r, dom) ← target dom; Some (r, Some dom)) = Some (z, ptr) ->
  exists dom', ptr = Some dom' /\ entry m dom' = Some (le_bytes 2 word).
Proof.
  intros HL Hc Ht. pose proof Hc as (Hm & Hd & Hs & Hty & Hi)%control_object_in.
  rewrite bool_decide_eq_false_2 by (intros Hnil; rewrite Hnil in Hm; by apply not_elem_of_nil in Hm).
  rewrite writeControlWord_object, Hc.
  destruct (store_object cfg (λ _ _ _, True) dom HL s m (le_bytes 2 word)) as (dom1 & Hst & _);
    [done..|by rewrite Hty|done|].
  rewrite Hst. cbn [mbind option_bind negb Z.eqb]. pose proof (store_length _ _ _ _ Hst) as Hl.
  destruct (Ht dom1 Hl) as (z2 & dom2 & -> & Hw2). intros [= <- <-]. exists dom2. split; [done|].
  eapply (motor_write_keeps_word dom1); [by rewrite Hl|exact Hc|exact Hw2|].
  unfold entry. rewrite Hty. by eapply (load_store_same _ (le_bytes 2 word)).
Qed.
End ControlWord.

(** ** Outputs *)

Definition output_write (s : Z) (m : PDOMapping) (bs : list Z) : Prop := index m = 0x1600 \/ index m = 0x1601.

Definition output_ok cfg dom (r : option (Z * option domain)) : Prop :=
  exists z dom', r = Some (z, Some dom') /\ writes cfg output_write dom dom'.

Lemma output_none cfg dom z : output_ok cfg dom (Some (z, Some dom)).
Proof. exists z, dom. split; [done|constructor]. Qed.

Lemma output_store cfg dom s m bs :
  layout_ok cfg (length dom) -> m ∈ getPDOMappings cfg s -> direction m = OUTPUT ->
  index m = 0x1600 \/ index m = 0x1601 -> length bs = sizeof (data_type m) ->
  exists dom', store (offset m) bs dom = Some dom' /\ writes cfg output_write dom dom'.
Proof. intros HL Hm Hd Hi Hl. by apply (store_object cfg output_write dom HL s m). Qed.

Lemma read_bitmap_defined cfg s m dom :
  layout_ok cfg (length dom) -> m ∈ getPDOMappings cfg s -> exists r, read_bitmap dom m = Some r.
Proof.
  intros HL Hm. destruct (entry_inside _ _ _ _ HL Hm) as (bs & He & _).
  unfold entry in He. unfold read_bitmap, is_type, readUInt8, readUInt16. destruct (data_type m); simpl in *;
    rewrite ?He; eauto.
Qed.

Lemma digital_output_writes cfg dom s channel data :
  layout_ok cfg (length dom) -> channel < 32 ->
  output_ok cfg dom (writeDigitalOutput cfg (Some dom) s channel data).
Proof.
  intros HL Hch. unfold writeDigitalOutput, channel_mask. case_bool_decide; [apply output_none|].
  destruct (List.find _ _) as [m|] eqn:Hf; [|apply output_none].
  apply find_object in Hf as (Hm & Hd & Hi & _).
  destruct (read_bitmap_defined _ _ _ _ HL Hm) as [[b|] Hb]; rewrite Hb; cbn [mbind option_bind]; [|apply output_none].
  rewrite (proj2 (Z.ltb_lt _ _) Hch). cbn [mbind option_bind].
  unfold read_bitmap, is_type, writeUInt8, writeUInt16 in *.
  case_bool_decide as Ht; [|case_bool_decide as Ht2; [|done]].
  all: match goal with |- context [store _ ?bs _] =>
         destruct (output_store cfg dom s m bs) as (dom' & -> & Hw); rewrite ?Ht, ?Ht2; [by auto..|] end.
  all: by exists 0, dom'.
Qed.

(** A range that 16-bit integers can hold; the default is -10 to 10. *)
Definition range_ok (lo hi : Z) : Prop :=
  double_le (double_of_int (-32767)) lo = true /\ double_le hi (double_of_int 32767) = true.

Lemma range_trunc w lo hi v :
  range_ok lo hi -> 16 <= w -> double_le lo v = true -> double_le v hi = true ->
  exists n, int_of_double w v = Some n.
Proof.
  intros [Hlo Hhi] Hw Hv1 Hv2. pose proof (Z.pow_le_mono_r 2 15 (w - 1)).
  destruct (trunc_in_range w 32767 v) as (n & Hn & _); [lia|lia|by eapply double_le_trans..|eauto].
Qed.

Lemma analog_output_writes cfg dom s channel data :
  layout_ok cfg (length dom) -> range_ok (ao_min_value data) (ao_max_value data) ->
  output_ok cfg dom (writeAnalogOutput cfg (Some dom) s channel data).
Proof.
  intros HL Hr. unfold writeAnalogOutput. case_bool_decide; [apply output_none|].
  destruct (List.find _ _) as [m|] eqn:Hf; [|apply output_none].
  apply find_object in Hf as (Hm & Hd & Hi & _).
  destruct (negb (ao_isInRange data)) eqn:Hrange; [apply output_none|].
  apply negb_false_iff in Hrange. apply andb_prop in Hrange as [H1 H2].
  unfold write_analog, writeInt16, writeInt32, writeFloat, writeDouble.
  destruct (data_type m) eqn:Ht; try apply output_none;
    try (match goal with |- context [int_of_double ?w _] =>
           destruct (range_trunc w _ _ _ Hr ltac:(lia) H1 H2) as [n ->] end; cbn [mbind option_bind]).
  all: match goal with |- context [store _ ?bs _] =>
         destruct (output_store cfg dom s m bs) as (dom' & -> & Hw); rewrite ?Ht; [by auto..|] end.
  all: by exists 0, dom'.
Qed.

Definition bytes_ok (dom : domain) : Prop := Forall (λ b, 0 <= b < 256) dom.

Lemma le_val_bound bs : Forall (λ b, 0 <= b < 256) bs -> 0 <= le_val bs < 2 ^ (8 * Z.of_nat (length bs)).
Proof.
  induction 1 as [|b bs Hb _ IH]; [done|]. cbn [le_val length].
  replace (8 * Z.of_nat (S (length bs))) with (8 + 8 * Z.of_nat (length bs)) by lia.
  rewrite Z.pow_add_r by lia. change (2 ^ 8) with 256. lia.
Qed.

Lemma load_val_bound off n dom bs :
  bytes_ok dom -> load off n dom = Some bs -> 0 <= le_val bs < 2 ^ (8 * Z.of_nat n).
Proof.
  intros Hb Hl. rewrite <- (load_length _ _ _ _ Hl). apply le_val_bound. unfold load in Hl.
  destruct (in_image _ _ _); [|done]. injection Hl as <-. by apply Forall_take, Forall_drop.
Qed.

(** Setting or clearing one bit of a [w]-bit bitmap. *)
Lemma bitmap_bits w b ch (v : bool) i :
  0 <= b < 2 ^ w -> 0 <= ch < w -> 0 <= i ->
  Z.testbit ((if v then Z.lor b (2 ^ ch) else Z.land b (Z.lnot (2 ^ ch))) mod 2 ^ w) i =
    if i =? ch then v else Z.testbit b i.
Proof.
  intros Hb Hch Hi. destruct (Z.lt_ge_cases i w).
  - rewrite Z.mod_pow2_bits_low by lia. destruct (Z.eqb_spec i ch) as [-> |Hne].
    + destruct v; [rewrite Z.lor_spec|rewrite Z.land_spec, Z.lnot_spec by lia];
        rewrite Z.pow2_bits_true by lia; by rewrite ?orb_true_r, ?andb_false_r.
    + destruct v; [rewrite Z.lor_spec|rewrite Z.land_spec, Z.lnot_spec by lia];
        rewrite Z.pow2_bits_false by lia; by rewrite ?orb_false_r, ?andb_true_r.
  - rewrite Z.mod_pow2_bits_high by lia. rewrite (proj2 (Z.eqb_neq _ _)) by lia.
    symmetry. rewrite <- (Z.mod_small b (2 ^ w)) by lia. apply Z.mod_pow2_bits_high. lia.
Qed.

Lemma channel_mask_bit ch : 0 <= ch < 16 -> channel_mask ch = Some (2 ^ ch).
Proof.
  intros H. unfold channel_mask. rewrite (proj2 (Z.ltb_lt _ _)) by lia. f_equal. rewrite Z.shiftl_1_l.
  pose proof (Z.pow_le_mono_r 2 ch 15). pose proof (Z.pow_pos_nonneg 2 ch).
  unfold i32, wrap. rewrite Z.mod_small by lia. lia.
Qed.

Lemma store_others cfg s m bs dom dom' :
  layout_ok cfg (length dom) -> m ∈ getPDOMappings cfg s -> length bs = sizeof (data_type m) ->
  store (offset m) bs dom = Some dom' ->
  forall s' m', m' ∈ getPDOMappings cfg s' -> (s', m') <> (s, m) -> entry m' dom' = entry m' dom.
Proof.
  intros HL Hm Hl Hst s' m' Hm' Hne. eapply load_store_other; [exact Hst|]. rewrite Hl.
  apply (layout_disjoint _ _ HL s m s' m'); congruence.
Qed.

(** Writing a digital output sets exactly the bit of its channel: the other
    channels of the module and every other object of the image keep their
    values. *)
Theorem digital_output_sets_its_bit cfg dom s channel data m b :
  layout_ok cfg (length dom) -> bytes_ok dom ->
  List.find (is_object OUTPUT 0x1600 1) (getPDOMappings cfg s) = Some m ->
  read_bitmap dom m = Some (Some b) -> 0 <= channel < 8 * Z.of_nat (sizeof (data_type m)) ->
  exists dom' b', writeDigitalOutput cfg (Some dom) s channel data = Some (0, Some dom') /\
    read_bitmap dom' m = Some (Some b') /\
    (forall i, 0 <= i -> Z.testbit b' i = if i =? channel then do_value data else Z.testbit b i) /\
    forall s' m', m' ∈ getPDOMappings cfg s' -> (s', m') <> (s, m) -> entry m' dom' = entry m' dom.
Proof.
  intros HL HB Hf Hb Hch. pose proof Hf as (Hm & Hd & Hi & _)%find_object.
  assert (Hne : getPDOMappings cfg s <> []) by (intros E; rewrite E in Hf; done).
  unfold writeDigitalOutput. rewrite bool_decide_eq_false_2, Hf, Hb by done. cbn [mbind option_bind].
  unfold read_bitmap, is_type, readUInt8, readUInt16, writeUInt8, writeUInt16 in *.
  case_bool_decide as Ht; [|case_bool_decide as Ht2; [|done]].
  all: rewrite ?Ht, ?Ht2 in Hch; cbn [sizeof] in Hch; rewrite channel_mask_bit by lia; cbn [mbind option_bind].
  all: destruct (load _ _ _) as [bs|] eqn:Hld; [|done]; injection Hb as <-;
    apply load_val_bound in Hld; [|done].
  all: match goal with |- context [store _ ?x _] =>
         destruct (output_store cfg dom s m x) as (dom' & Hst & _); rewrite ?Ht, ?Ht2; [by auto..|] end.
  all: rewrite Hst; cbn [mbind option_bind]; eexists dom', _;
    (split; [done|]); pose proof (load_store_same _ _ _ _ Hst) as Hsame; rewrite le_bytes_length in Hsame;
    rewrite Hsame; (split; [reflexivity|]).
  all: split; [|eapply store_others; [exact HL|exact Hm| |exact Hst]; by rewrite ?Ht, ?Ht2].
  all: intros i Hi0; rewrite <- (bitmap_bits _ _ channel (do_value data) i Hld) by lia.
  all: f_equal; rewrite le_val_bytes; unfold u8, u16, wrap.
  - change (8 * Z.of_nat 1) with 8. rewrite Zmod_mod. destruct (do_value data); apply Z.mod_mod_divide; by exists (2 ^ 8).
  - change (8 * Z.of_nat 2) with 16. destruct (do_value data); apply Zmod_mod.
Qed.

(** ** Reading is defined

    [readPositionSensor], [readVelocitySensor] and [readTorqueSensor] do not
    look at the type of a mapping: it has to have the width they read. *)

Definition inputs_typed (cfg : ISlaveConfig) : Prop :=
  forall s m, m ∈ getPDOMappings cfg s -> direction m = INPUT ->
    (index m = 0x1A00 -> sizeof (data_type m) = 4%nat) /\
    (index m = 0x1A01 \/ index m = 0x1A02 -> sizeof (data_type m) = 8%nat).

Lemma is_object_spec d idx sub m :
  is_object d idx sub m = true <-> direction m = d /\ index m = idx /\ subindex m = sub.
Proof. unfold is_object. rewrite !andb_true_iff, bool_decide_eq_true, !Z.eqb_eq. tauto. Qed.

(** The offsets found are those of objects of the slave. *)
Lemma last_offsets_spec idx ms o1 o2 :
  last_offsets idx ms = (o1, o2) ->
  (forall o, o1 = Some o -> exists m, m ∈ ms /\ direction m = INPUT /\ index m = idx /\ offset m = o) /\
  (forall o, o2 = Some o -> exists m, m ∈ ms /\ direction m = INPUT /\ index m = idx /\ offset m = o).
Proof.
  unfold last_offsets. revert o1 o2. induction ms as [|m ms IH] using rev_ind; intros o1 o2; [by intros [= <- <-]|].
  rewrite foldl_app. cbn [foldl]. destruct (foldl _ _ ms) as [p1 p2]. destruct (IH p1 p2 eq_refl) as [IH1 IH2].
  assert (Hin : forall o, (exists m', m' ∈ ms /\ direction m' = INPUT /\ index m' = idx /\ offset m' = o) ->
    exists m', m' ∈ ms ++ [m] /\ direction m' = INPUT /\ index m' = idx /\ offset m' = o).
  { intros o (m' & ? & ?). exists m'. split; [by apply elem_of_app; left|done]. }
  assert (Hm : forall sub, is_object INPUT idx sub m = true ->
    exists m', m' ∈ ms ++ [m] /\ direction m' = INPUT /\ index m' = idx /\ offset m' = offset m).
  { intros sub (? & ? & _)%is_object_spec. exists m. split; [apply elem_of_app; right; by apply list_elem_of_singleton|done]. }
  destruct (is_object INPUT idx 1 m) eqn:H1; [|destruct (is_object INPUT idx 2 m) eqn:H2];
    cbn [fst snd]; intros [= <- <-]; split; intros o Ho; eauto; injection Ho as <-; eauto.
Qed.

Section Reading.
Context (cfg : ISlaveConfig) (dom : domain).
Hypothesis HL : layout_ok cfg (length dom).
Hypothesis HT : inputs_typed cfg.

Lemma load_input s m n :
  m ∈ getPDOMappings cfg s -> sizeof (data_type m) = n -> exists bs, load (offset m) n dom = Some bs.
Proof. intros Hm <-. destruct (entry_inside _ _ _ _ HL Hm) as (bs & ? & _). by exists bs. Qed.

Lemma offset_input idx n s o ms :
  (forall m, m ∈ getPDOMappings cfg s -> direction m = INPUT -> index m = idx -> sizeof (data_type m) = n) ->
  ms = getPDOMappings cfg s ->
  (exists m, m ∈ ms /\ direction m = INPUT /\ index m = idx /\ offset m = o) -> exists bs, load o n dom = Some bs.
Proof. intros Hty -> (m & Hm & Hd & Hi & <-). eapply load_input; eauto. Qed.

Lemma readPositionSensor_defined active now s d :
  exists r, readPositionSensor cfg (Some dom) active now s d = Some r.
Proof.
  unfold readPositionSensor, readInt32. case_bool_decide; [by eexists|].
  destruct (last_offsets _ _) as [[o1|] o2] eqn:Ho; [|by eexists]. apply last_offsets_spec in Ho as [H1 H2].
  assert (Hty : forall m, m ∈ getPDOMappings cfg s -> direction m = INPUT -> index m = 0x1A00 -> sizeof (data_type m) = 4%nat).
  { intros m Hm Hd Hi. by apply (HT s m Hm Hd). }
  destruct (offset_input _ _ s o1 _ Hty eq_refl (H1 _ eq_refl)) as [b1 ->].
  destruct o2 as [o2|]; [destruct (offset_input _ _ s o2 _ Hty eq_refl (H2 _ eq_refl)) as [b2 ->]|]; by eexists.
Qed.

Lemma readVelocitySensor_defined active now s d :
  exists r, readVelocitySensor cfg (Some dom) active now s d = Some r.
Proof.
  unfold readVelocitySensor, readDouble. case_bool_decide; [by eexists|].
  destruct (last_offsets _ _) as [[o1|] o2] eqn:Ho; [|by eexists]. apply last_offsets_spec in Ho as [H1 H2].
  assert (Hty : forall m, m ∈ getPDOMappings cfg s -> direction m = INPUT -> index m = 0x1A01 -> sizeof (data_type m) = 8%nat).
  { intros m Hm Hd Hi. apply (HT s m Hm Hd). by left. }
  destruct (offset_input _ _ s o1 _ Hty eq_refl (H1 _ eq_refl)) as [b1 ->].
  destruct o2 as [o2|]; [destruct (offset_input _ _ s o2 _ Hty eq_refl (H2 _ eq_refl)) as [b2 ->]|]; by eexists.
Qed.

Lemma read_axes_defined s ms found d :
  (forall m, m ∈ ms -> m ∈ getPDOMappings cfg s) -> exists r, read_axes dom ms found d = Some r.
Proof.
  revert found d. induction ms as [|m ms IH]; intros found d Hin; cbn [read_axes]; [by eexists|].
  destruct (bool_decide (direction m = INPUT) && (index m =? 0x1A02)) eqn:Hc.
  - apply andb_prop in Hc as [Hd%bool_decide_eq_true Hi%Z.eqb_eq]. unfold readDouble.
    destruct (load_input s m 8) as [b ->]; [apply Hin; by constructor|apply (HT s m); auto; apply Hin; by constructor|].
    apply IH. intros; apply Hin. by constructor.
  - apply IH. intros; apply Hin. by constructor.
Qed.

Lemma readTorqueSensor_defined active now s d :
  exists r, readTorqueSensor cfg (Some dom) active now s d = Some r.
Proof.
  unfold readTorqueSensor. case_bool_decide; [by eexists|].
  destruct (read_axes_defined s (getPDOMappings cfg s) false d ltac:(done)) as [[f d'] ->]. cbn [mbind option_bind].
  destruct f, d'; by eexists.
Qed.

Lemma readDigitalInput_defined active now s ch d :
  ch < 32 -> exists r, readDigitalInput cfg (Some dom) active now s ch d = Some r.
Proof.
  intros Hch. unfold readDigitalInput, channel_mask. case_bool_decide; [by eexists|].
  destruct (List.find _ _) as [m|] eqn:Hf; [|by eexists]. apply find_object in Hf as (Hm & _).
  destruct (read_bitmap_defined _ _ _ _ HL Hm) as [[b|] ->]; [|by eexists]. cbn [mbind option_bind].
  rewrite (proj2 (Z.ltb_lt _ _) Hch). by eexists.
Qed.

Lemma readAnalogInput_defined active now s ch d :
  exists r, readAnalogInput cfg (Some dom) active now s ch d = Some r.
Proof.
  unfold readAnalogInput. case_bool_decide; [by eexists|].
  destruct (List.find _ _) as [m|] eqn:Hf; [|by eexists]. apply find_object in Hf as (Hm & _).
  destruct (entry_inside _ _ _ _ HL Hm) as (bs & He & _). unfold entry in He.
  assert (Hr : exists r, read_analog dom m = Some r).
  { unfold read_analog, readInt16, readInt32, readFloat, readDouble. destruct (data_type m); cbn [sizeof] in He;
      rewrite ?He; by eexists. }
  destruct Hr as [[v|] ->]; cbn [mbind option_bind]; destruct d; by eexists.
Qed.
End Reading.

(** ** Configurations given by a list *)

Definition list_config (es : list (Z * PDOMapping)) : ISlaveConfig :=
  mkISlaveConfig (λ _, None) (λ s, snd <$> filter (λ e, fst e = s) es) 0.

Definition apart (m1 m2 : PDOMapping) : bool :=
  (offset m1 + Z.of_nat (sizeof (data_type m1)) <=? offset m2) ||
  (offset m2 + Z.of_nat (sizeof (data_type m2)) <=? offset m1).

Definition layout_check (es : list (Z * PDOMapping)) (n : nat) : bool :=
  forallb (λ e, (0 <=? offset (snd e)) && (offset (snd e) + Z.of_nat (sizeof (data_type (snd e))) <=? Z.of_nat n)) es &&
  forallb (λ e1, forallb (λ e2, bool_decide (e1 = e2) || apart (snd e1) (snd e2)) es) es.

Lemma list_config_in es s m : m ∈ getPDOMappings (list_config es) s -> (s, m) ∈ es.
Proof.
  cbn. intros (e & -> & He)%list_elem_of_fmap_1. apply list_elem_of_filter in He as [<- He]. by destruct e.
Qed.

Lemma list_config_layout es n : layout_check es n = true -> layout_ok (list_config es) n.
Proof.
  intros [H1 H2]%andb_prop. rewrite forallb_forall in H1, H2. split.
  - intros s m Hm%list_config_in%list_elem_of_In. apply H1 in Hm. cbn in Hm.
    apply andb_prop in Hm as [?%Z.leb_le ?%Z.leb_le]. done.
  - intros s1 m1 s2 m2 Hm1%list_config_in%list_elem_of_In Hm2%list_config_in%list_elem_of_In Hne.
    specialize (H2 _ Hm1). rewrite forallb_forall in H2. specialize (H2 _ Hm2).
    rewrite bool_decide_eq_false_2 in H2 by done. unfold apart in H2. cbn in H2.
    apply orb_prop in H2 as [?%Z.leb_le|?%Z.leb_le]; auto.
Qed.

Lemma list_config_typed es :
  Forall (λ e, direction (snd e) = INPUT ->
    (index (snd e) = 0x1A00 -> sizeof (data_type (snd e)) = 4%nat) /\
    (index (snd e) = 0x1A01 \/ index (snd e) = 0x1A02 -> sizeof (data_type (snd e)) = 8%nat)) es ->
  inputs_typed (list_config es).
Proof. intros H s m Hm%list_config_in. rewrite Forall_forall in H. exact (H _ Hm). Qed.

(** A drive with an encoder (slave 1), a servo (slave 2) and an I/O module
    (slave 3) in an image of 64 bytes. *)
Definition sample_mappings : list (Z * PDOMapping) :=
  [ (1, mkPDOMapping OUTPUT 0x1602 1 16 UINT16 0 "control word");
    (1, mkPDOMapping OUTPUT 0x1602 2 32 INT32 4 "target velocity");
    (1, mkPDOMapping OUTPUT 0x1602 3 16 INT16 8 "target torque");
    (1, mkPDOMapping INPUT 0x1A00 1 32 INT32 12 "position");
    (2, mkPDOMapping OUTPUT 0x1603 1 16 UINT16 16 "control word");
    (2, mkPDOMapping OUTPUT 0x1603 2 64 DOUBLE 24 "target position");
    (2, mkPDOMapping OUTPUT 0x1603 3 64 DOUBLE 32 "max velocity");
    (2, mkPDOMapping OUTPUT 0x1603 4 64 DOUBLE 40 "target velocity");
    (2, mkPDOMapping OUTPUT 0x1603 5 64 DOUBLE 48 "target torque");
    (3, mkPDOMapping OUTPUT 0x1600 1 8 UINT8 56 "outputs");
    (3, mkPDOMapping OUTPUT 0x1601 1 16 INT16 58 "analog output") ].
Definition sample_config : ISlaveConfig := list_config sample_mappings.

Lemma sample_layout : layout_ok sample_config 64.
Proof. apply list_config_layout. vm_compute. reflexivity. Qed.

Lemma sample_typed : inputs_typed sample_config.
Proof. apply list_config_typed. repeat (constructor; [cbn; intuition (done || lia)|]). constructor. Qed.

Definition zeros : domain := replicate 64 0.

Lemma digital_output_sets_its_bit_witness :
  exists dom', writeDigitalOutput sample_config (Some zeros) 3 5 (mkDO 5 true 0 true 3) = Some (0, Some dom') /\
    readUInt8 dom' 56 = Some 32.
Proof.
  destruct (digital_output_sets_its_bit sample_config zeros 3 5 (mkDO 5 true 0 true 3)
    (mkPDOMapping OUTPUT 0x1600 1 8 UINT8 56 "outputs") 0) as (dom' & b' & Hw & _).
  - exact sample_layout.
  - apply Forall_replicate. lia.
  - reflexivity.
  - reflexivity.
  - cbn. lia.
  - exists dom'. split; [exact Hw|]. revert Hw. vm_compute. by intros [= <-].
Defined.

(** A channel beyond the width of the bitmap is reported as written and
    changes nothing. *)
Theorem lost_digital_output :
  writeDigitalOutput sample_config (Some zeros) 3 9 (mkDO 9 true 0 true 3) = Some (0, Some zeros).
Proof. vm_compute. reflexivity. Qed.

(** A target without a mapping is dropped, and the motor enabled all the same. *)
Theorem servo_enabled_without_target :
  let m := mkPDOMapping OUTPUT 0x1603 1 16 UINT16 0 "control word" in
  writeServoCommand (list_config [(1, m)]) (Some [0; 0])
    (mkServo 1 (double_of_int 3) 0 0 POSITION (double_of_int 10) (double_of_int 100) true 0) =
  Some (0, Some [3; 0]).
Proof. vm_compute. reflexivity. Qed.

(** A command that is not valid leaves the previous one in the image: the
    drive stays enabled at its old target. *)
Theorem rejected_command_keeps_the_old_one cfg dom c :
  bldc_isValid c = false -> writeBLDCCommand cfg (Some dom) c = Some (-1, Some dom).
Proof. intros H. unfold writeBLDCCommand. by rewrite H. Qed.

(** The position of a sensor is read with four bytes whatever type its mapping
    has: at the end of the image this reads past it. *)
Theorem position_type_is_not_checked :
  let m := mkPDOMapping INPUT 0x1A00 1 16 INT16 62 "position" in
  layout_ok (list_config [(1, m)]) 64 /\
  readPositionSensor (list_config [(1, m)]) (Some zeros) true 0 1 newPosition = None.
Proof. split; [apply list_config_layout|]; vm_compute; reflexivity. Qed.
