(* ===== verification/EtherCATMaster.v ===== *)
(** * EtherCATMaster, EtherCATDomain (src/core/ethercat/core)

    The wrapper around the IgH EtherCAT library.  The library is the class
    [Ecrt]; the switch [enabled] is ETHERCAT_ENABLE, without which the class is
    a simulation.  A handle of the library is whether its pointer is not null;
    a call that would use a null handle, or index a vector out of range, is
    undefined and gives [None].  No CMake file of the sources defines
    ETHERCAT_ENABLE. *)

From S2P Require Import Prelude Pdo.

(** ** The library *)

(** [L] is its state, [H] the slave configurations it hands out.  The functions
    that can fail say whether they succeeded; [ecrt_domain_process] and
    [ecrt_domain_queue] move data between the frames and the process image.
    [ecrt_domain_reg_pdo_entry_list] takes a pointer to a terminated list of
    registrations (alias, position, vendor, product, index, subindex), [None]
    when it is null, and is undefined ([None]) where the library is. *)
Class Ecrt (L H : Type) := {
  ecrt_request_master : Z -> L -> bool * L;
  ecrt_release_master : L -> L;
  ecrt_master_create_domain : L -> bool * L;
  ecrt_master_state : L -> option Z;               (* slaves_responding *)
  ecrt_master_slave_config : Z -> Z -> Z -> Z -> L -> option H * L;
  ecrt_domain_reg_pdo_entry_list : option (list (Z * Z * Z * Z * Z * Z)) -> L -> option (bool * L);
  ecrt_master_activate : L -> bool * L;
  ecrt_domain_data : L -> bool;
  ecrt_domain_queue : domain -> L -> L;
  ecrt_domain_process : domain -> L -> domain * L;
  ecrt_domain_state : L -> Z;                      (* working_counter *)
  ecrt_master_send : L -> bool * L;
  ecrt_master_receive : L -> bool * L;
  ecrt_slave_config_dc : H -> Z -> Z -> Z -> L -> L
}.

(** ** The class *)

Inductive MasterState := UNINITIALIZED | INITIALIZED | CONFIGURED | ACTIVATED | ERROR.

#[export] Instance MasterState_eq_dec : EqDecision MasterState.
Proof. solve_decision. Defined.

Record DCConfiguration := mkDC {
  dc_enable : bool;
  reference_slave : nat;
  sync0_cycle_time : Z;
  sync0_shift_time : Z;
  sync1_cycle_time : Z
}.
Definition newDC : DCConfiguration := mkDC false 0 10000000 0 0.

Record EtherCATMaster (H : Type) := mkMaster {
  master_index_ : Z;
  config_ : option ISlaveConfig;
  master_ : bool;
  domain_ : bool;
  slave_configs_ : list H;
  state_ : MasterState;
  active_ : bool;
  error_count_ : Z;
  m_total_cycles_ : Z;
  send_error_count_ : Z;
  receive_error_count_ : Z;
  dc_enabled_ : bool;
  dc_system_time_offset_ : Z
}.
Arguments mkMaster {H}.
Arguments master_index_ {H} _.
Arguments config_ {H} _.
Arguments master_ {H} _.
Arguments domain_ {H} _.
Arguments slave_configs_ {H} _.
Arguments state_ {H} _.
Arguments active_ {H} _.
Arguments error_count_ {H} _.
Arguments m_total_cycles_ {H} _.
Arguments send_error_count_ {H} _.
Arguments receive_error_count_ {H} _.
Arguments dc_enabled_ {H} _.
Arguments dc_system_time_offset_ {H} _.

Section Master.
Context {L H : Type} `{HE : !Ecrt L H}.
Variable enabled : bool.
Implicit Types (m : EtherCATMaster H) (l : L).

Definition newEtherCATMaster (master_index : Z) (config : option ISlaveConfig) : EtherCATMaster H :=
  mkMaster master_index config false false [] UNINITIALIZED false 0 0 0 0 false 0.

Definition set_state (st : MasterState) m : EtherCATMaster H :=
  mkMaster (master_index_ m) (config_ m) (master_ m) (domain_ m) (slave_configs_ m) st (active_ m)
    (error_count_ m) (m_total_cycles_ m) (send_error_count_ m) (receive_error_count_ m) (dc_enabled_ m)
    (dc_system_time_offset_ m).
Definition set_handles (mh dh : bool) m : EtherCATMaster H :=
  mkMaster (master_index_ m) (config_ m) mh dh (slave_configs_ m) (state_ m) (active_ m)
    (error_count_ m) (m_total_cycles_ m) (send_error_count_ m) (receive_error_count_ m) (dc_enabled_ m)
    (dc_system_time_offset_ m).
Definition set_configs (cs : list H) m : EtherCATMaster H :=
  mkMaster (master_index_ m) (config_ m) (master_ m) (domain_ m) cs (state_ m) (active_ m)
    (error_count_ m) (m_total_cycles_ m) (send_error_count_ m) (receive_error_count_ m) (dc_enabled_ m)
    (dc_system_time_offset_ m).
Definition set_active (a : bool) m : EtherCATMaster H :=
  mkMaster (master_index_ m) (config_ m) (master_ m) (domain_ m) (slave_configs_ m) (state_ m) a
    (error_count_ m) (m_total_cycles_ m) (send_error_count_ m) (receive_error_count_ m) (dc_enabled_ m)
    (dc_system_time_offset_ m).
Definition set_counts (e t s r : Z) m : EtherCATMaster H :=
  mkMaster (master_index_ m) (config_ m) (master_ m) (domain_ m) (slave_configs_ m) (state_ m) (active_ m)
    e t s r (dc_enabled_ m) (dc_system_time_offset_ m).
Definition set_dc (d : bool) (off : Z) m : EtherCATMaster H :=
  mkMaster (master_index_ m) (config_ m) (master_ m) (domain_ m) (slave_configs_ m) (state_ m) (active_ m)
    (error_count_ m) (m_total_cycles_ m) (send_error_count_ m) (receive_error_count_ m) d off.

Definition initialize m l : Z * EtherCATMaster H * L :=
  if negb enabled then (0, set_state INITIALIZED m, l)
  else
    let '(ok, l) := ecrt_request_master (master_index_ m) l in
    let m := set_handles ok (domain_ m) m in
    if negb ok then (-1, set_state ERROR m, l)
    else
      let '(ok, l) := ecrt_master_create_domain l in
      let m := set_handles (master_ m) ok m in
      if negb ok then (-1, set_state ERROR m, l) else (0, set_state INITIALIZED m, l).

Definition scanSlaves m l : option Z :=
  if negb enabled then Some 0
  else if negb (bool_decide (state_ m = INITIALIZED)) then Some (-1)
  else if negb (master_ m) then None
  else match ecrt_master_state l with None => Some (-1) | Some n => Some n end.

(** The loop over the slaves: those without a configuration, or for which the
    library refuses one, are skipped.  [getPDOMappings] is called only for a
    log message. *)
Fixpoint configure_loop (cfg : ISlaveConfig) (ids : list nat) (cs : list H) l : list H * L :=
  match ids with
  | [] => (cs, l)
  | i :: ids =>
    match getSlaveConfig cfg (u16 (Z.of_nat i)) with
    | None => configure_loop cfg ids cs l
    | Some sc =>
      let '(h, l) := ecrt_master_slave_config (alias sc) (position sc) (vendor_id sc) (product_code sc) l in
      match h with
      | None => configure_loop cfg ids cs l
      | Some h => configure_loop cfg ids (cs ++ [h]) l
      end
    end
  end.

Definition configureSlaves m l : option (Z * EtherCATMaster H * L) :=
  if negb enabled then Some (0, set_state CONFIGURED m, l)
  else if negb (bool_decide (state_ m = INITIALIZED)) then Some (-1, m, l)
  else
    match config_ m with
    | None => Some (-1, m, l)
    | Some cfg =>
      if negb (master_ m && domain_ m) then None
      else
        let '(cs, l) := configure_loop cfg (seq 0 (getSlaveCount cfg)) (slave_configs_ m) l in
        let m := set_configs cs m in
        '(ok, l) ← ecrt_domain_reg_pdo_entry_list None l;
        if negb ok then Some (-1, set_state ERROR m, l) else Some (0, set_state CONFIGURED m, l)
    end.

Definition transitionToPreOp : Z := 0.
Definition transitionToSafeOp : Z := 0.
Definition transitionToOp : Z := 0.

Definition transitionToOP m : Z :=
  if negb enabled then 0
  else if negb (bool_decide (state_ m = CONFIGURED)) then -1
  else if negb (transitionToPreOp =? 0) then -1
  else if negb (transitionToSafeOp =? 0) then -1
  else if negb (transitionToOp =? 0) then -1
  else 0.

Definition activate m l : option (Z * EtherCATMaster H * L) :=
  if negb enabled then Some (0, set_state ACTIVATED (set_active true m), l)
  else if negb (bool_decide (state_ m = CONFIGURED)) then Some (-1, m, l)
  else if negb (master_ m && domain_ m) then None
  else
    let '(ok, l) := ecrt_master_activate l in
    if negb ok then Some (-1, set_state ERROR m, l)
    else if negb (ecrt_domain_data l) then Some (-1, set_state ERROR m, l)
    else Some (0, set_state ACTIVATED (set_active true m), l).

Definition deactivate m : Z * EtherCATMaster H :=
  if negb enabled then (0, set_active false m)
  else if negb (active_ m) then (0, m)
  else (0, set_state CONFIGURED (set_active false m)).

Definition master_send m l (dom : domain) : option (Z * EtherCATMaster H * L) :=
  let sent := set_counts (error_count_ m) (u64 (m_total_cycles_ m + 1)) (send_error_count_ m) (receive_error_count_ m) m in
  if negb enabled then Some (0, sent, l)
  else if negb (active_ m) then Some (-1, m, l)
  else if negb (master_ m && domain_ m) then None
  else
    let l := ecrt_domain_queue dom l in
    let '(ok, l) := ecrt_master_send l in
    if negb ok then
      Some (-1, set_counts (u32 (error_count_ m + 1)) (m_total_cycles_ m) (u64 (send_error_count_ m + 1))
                  (receive_error_count_ m) m, l)
    else Some (0, sent, l).

Definition master_receive m l (dom : domain) : option (Z * EtherCATMaster H * L * domain) :=
  if negb enabled then Some (0, m, l, dom)
  else if negb (active_ m) then Some (-1, m, l, dom)
  else if negb (master_ m && domain_ m) then None
  else
    let '(ok, l) := ecrt_master_receive l in
    if negb ok then
      Some (-1, set_counts (u32 (error_count_ m + 1)) (m_total_cycles_ m) (send_error_count_ m)
                  (u64 (receive_error_count_ m + 1)) m, l, dom)
    else
      let '(dom, l) := ecrt_domain_process dom l in
      let m := if dc_enabled_ m then
                 match ecrt_master_state l with Some _ => set_dc (dc_enabled_ m) 0 m | None => m end
               else m in
      Some (0, m, l, dom).

Definition isActive m : bool := active_ m.
Definition getErrorCount m : Z := error_count_ m.

(** Whether [getDomainData] is not null. *)
Definition getDomainData m l : bool := enabled && domain_ m && ecrt_domain_data l.

Definition configureDC (dc : DCConfiguration) m l : option (Z * EtherCATMaster H * L) :=
  if negb enabled then Some (0, set_dc (dc_enable dc) (dc_system_time_offset_ m) m, l)
  else if negb (dc_enable dc) then Some (0, set_dc false (dc_system_time_offset_ m) m, l)
  else if bool_decide (length (slave_configs_ m) = 0%nat) then Some (-1, m, l)
  else
    ref_sc ← slave_configs_ m !! reference_slave dc;
    let l := ecrt_slave_config_dc ref_sc 0x0300 (sync0_cycle_time dc) (sync0_shift_time dc) l in
    Some (0, set_dc true (dc_system_time_offset_ m) m, l).

(** The destructor. *)
Definition destroy m l : EtherCATMaster H * L :=
  let m := snd (deactivate m) in
  if enabled && master_ m then (set_handles false (domain_ m) m, ecrt_release_master l) else (m, l).

(** [registerPDOEntry]: the registration it fills in, [None] on -1; nothing
    calls it. *)
Definition registerPDOEntry (cfg : ISlaveConfig) (slave_id : Z) (mapping : PDOMapping) :
    option (Z * Z * Z * Z * Z * Z) :=
  sc ← getSlaveConfig cfg slave_id;
  Some (alias sc, position sc, vendor_id sc, product_code sc, index mapping, subindex mapping).

(** ** EtherCATDomain *)

Definition domain_process (handle : bool) (dom : domain) l : domain * L :=
  if enabled && handle then ecrt_domain_process dom l else (dom, l).

Definition domain_queue (handle : bool) (dom : domain) l : L :=
  if enabled && handle then ecrt_domain_queue dom l else l.

Definition domain_getState (handle : bool) l : Z :=
  if negb enabled then 0
  else if negb handle then -1
  else if 0 <? ecrt_domain_state l then 0 else -1.

(** ** Sequences of calls *)

Inductive MasterCall :=
| CInitialize | CScan | CConfigure | CActivate | CDeactivate
| CSend (dom : domain) | CReceive (dom : domain) | CConfigureDC (dc : DCConfiguration).

(** The result and the state after a call. *)
Definition master_call (c : MasterCall) m l : option (Z * EtherCATMaster H * L) :=
  match c with
  | CInitialize => Some (initialize m l)
  | CScan => r ← scanSlaves m l; Some (r, m, l)
  | CConfigure => configureSlaves m l
  | CActivate => activate m l
  | CDeactivate => let '(r, m) := deactivate m in Some (r, m, l)
  | CSend dom => master_send m l dom
  | CReceive dom => '(r, m, l, _) ← master_receive m l dom; Some (r, m, l)
  | CConfigureDC dc => configureDC dc m l
  end.

(** What a caller has to keep to: no second [initialize] while the master is
    active, and a reference slave among those configured. *)
Definition allowed (c : MasterCall) m : Prop :=
  match c with
  | CInitialize => active_ m = false
  | CConfigureDC dc => (0 < length (slave_configs_ m) -> reference_slave dc < length (slave_configs_ m))%nat
  | _ => True
  end.

#[export] Instance allowed_dec c m : Decision (allowed c m).
Proof. destruct c; unfold allowed; apply _. Defined.

(** A sequence of allowed calls. *)
Fixpoint run_calls (cs : list MasterCall) m l : option (EtherCATMaster H * L) :=
  match cs with
  | [] => Some (m, l)
  | c :: cs =>
    if decide (allowed c m) then '(_, m, l) ← master_call c m l; run_calls cs m l else None
  end.

(** The states after a history of allowed calls, most recent last. *)
Inductive reachable (idx : Z) (cfg : option ISlaveConfig) (l0 : L) :
    list MasterCall -> EtherCATMaster H -> L -> Prop :=
| reach_new : reachable idx cfg l0 [] (newEtherCATMaster idx cfg) l0
| reach_call cs c m l r m' l' :
    reachable idx cfg l0 cs m l -> allowed c m -> master_call c m l = Some (r, m', l') ->
    reachable idx cfg l0 (cs ++ [c]) m' l'.

Lemma run_calls_reachable idx cfg l0 cs0 cs m l m' l' :
  reachable idx cfg l0 cs0 m l -> run_calls cs m l = Some (m', l') -> reachable idx cfg l0 (cs0 ++ cs) m' l'.
Proof.
  revert cs0 m l. induction cs as [|c cs IH]; intros cs0 m l Hr; cbn [run_calls].
  { intros [= <- <-]. by rewrite app_nil_r. }
  destruct (decide (allowed c m)) as [Ha|]; [|done].
  destruct (master_call c m l) as [[[r m1] l1]|] eqn:Hc; [|done]. cbn [mbind option_bind]. intros Hrun.
  rewrite (cons_middle c cs0 cs), app_assoc. eapply IH; [|exact Hrun]. by econstructor.
Qed.
End Master.

(** The calls a state needs behind it. *)
Definition calls_before (st : MasterState) : list MasterCall :=
  match st with
  | UNINITIALIZED | ERROR => []
  | INITIALIZED => [CInitialize]
  | CONFIGURED => [CInitialize; CConfigure]
  | ACTIVATED => [CInitialize; CConfigure; CActivate]
  end.

(** The invariant of the build with the library. *)
Record master_ok {H} (cs : list MasterCall) (m : EtherCATMaster H) : Prop := {
  ok_active : active_ m = true <-> state_ m = ACTIVATED;
  ok_handles : state_ m = INITIALIZED \/ state_ m = CONFIGURED \/ state_ m = ACTIVATED ->
    master_ m && domain_ m = true;
  ok_calls : calls_before (state_ m) `sublist_of` cs;
  ok_errors : error_count_ m = u32 (send_error_count_ m + receive_error_count_ m)
}.

Lemma sublist_prefix {A} (l k : list A) c : l `sublist_of` k -> l `sublist_of` k ++ [c].
Proof. intros Hs. by apply sublist_inserts_r. Qed.

Lemma sublist_last {A} (l k : list A) c : l `sublist_of` k -> l ++ [c] `sublist_of` k ++ [c].
Proof. intros Hs. by apply sublist_app. Qed.
#[local] Hint Resolve sublist_prefix : core.

Lemma u32_count a b c : a = u32 (b + c) -> u32 (a + 1) = u32 (u64 (b + 1) + c) /\ u32 (a + 1) = u32 (b + u64 (c + 1)).
Proof.
  intros ->. unfold u32, u64, wrap.
  assert (Hm : forall x, (x mod 2 ^ 64) mod 2 ^ 32 = x mod 2 ^ 32).
  { intros x. apply Z.mod_mod_divide. exists (2 ^ 32). lia. }
  assert (Hp : forall x y, (x mod 2 ^ 64 + y) mod 2 ^ 32 = (x + y) mod 2 ^ 32).
  { intros x y. by rewrite <- Zplus_mod_idemp_l, Hm, Zplus_mod_idemp_l. }
  rewrite (Z.add_comm b ((c + 1) mod _)), !Hp, Zplus_mod_idemp_l. split; f_equal; lia.
Qed.

Section MasterFacts.
Context {L H : Type} `{HE : !Ecrt L H}.
Implicit Types (m : EtherCATMaster H) (l : L).

Lemma initialize_ok cs m l :
  master_ok cs m -> active_ m = false ->
  exists r m' l', initialize true m l = (r, m', l') /\ master_ok (cs ++ [CInitialize]) m'.
Proof.
  intros [Ha Hh Hc He] Hact. unfold initialize. cbn [negb].
  destruct (ecrt_request_master _ l) as [[] l1]; cbn [negb];
    [destruct (ecrt_master_create_domain l1) as [[] l2]; cbn [negb]|];
    eexists _, _, _; (split; [done|]); split; cbn; rewrite ?Hact; try done; try (by split);
    try (intros [?|[?|?]]; done); try apply sublist_nil_l.
  by apply (sublist_last []), sublist_nil_l.
Qed.

(** The only call that depends on the library being defined: [configureSlaves]
    hands it a null list. *)
Definition null_list_defined : Prop := forall l : L, is_Some (ecrt_domain_reg_pdo_entry_list None l).

Lemma configure_ok cs m l :
  master_ok cs m ->
  match configureSlaves true m l with
  | Some (r, m', l') => master_ok (cs ++ [CConfigure]) m'
  | None => ~ null_list_defined
  end.
Proof.
  intros [Ha Hh Hc He]. unfold configureSlaves. cbn [negb]. case_bool_decide as Hs; cbn [negb].
  2: { split; auto. }
  destruct (config_ m) as [cfg|]; [|split; auto].
  rewrite (Hh (or_introl Hs)). cbn [negb]. destruct (configure_loop _ _ _ _) as [cs' l1].
  assert (Hact : active_ m = false).
  { destruct (active_ m); [|done]. destruct Ha as [Ha _]. rewrite (Ha eq_refl) in Hs. done. }
  destruct (ecrt_domain_reg_pdo_entry_list None l1) as [[[] l2]|] eqn:El; cbn [mbind option_bind negb].
  - split; cbn; rewrite ?Hact; try done; try (by split); auto; try (intros [?|[?|?]]; done).
    rewrite Hs in Hc. by apply (sublist_last [CInitialize]).
  - split; cbn; rewrite ?Hact; try done; try (by split); auto; try (intros [?|[?|?]]; done).
    apply sublist_nil_l.
  - intros Hd. specialize (Hd l1). rewrite El in Hd. by destruct Hd.
Qed.

Lemma activate_ok cs m l :
  master_ok cs m ->
  exists r m' l', activate true m l = Some (r, m', l') /\ master_ok (cs ++ [CActivate]) m'.
Proof.
  intros [Ha Hh Hc He]. unfold activate. cbn [negb]. case_bool_decide as Hs; cbn [negb].
  2: { eexists _, _, _; (split; [done|]); split; auto. }
  rewrite Hh by auto. cbn [negb].
  assert (Hact : active_ m = false).
  { destruct (active_ m); [|done]. destruct Ha as [Ha _]. rewrite (Ha eq_refl) in Hs. done. }
  destruct (ecrt_master_activate l) as [[] l1]; cbn [negb]; [destruct (ecrt_domain_data l1); cbn [negb]|];
    eexists _, _, _; (split; [done|]); split; cbn; rewrite ?Hact; try done; try (by split); auto;
    try (intros [?|[?|?]]; done); try apply sublist_nil_l.
  rewrite Hs in Hc. by apply (sublist_last [CInitialize; CConfigure]).
Qed.

Lemma send_ok cs m l dom :
  master_ok cs m ->
  exists r m' l', master_send true m l dom = Some (r, m', l') /\ master_ok (cs ++ [CSend dom]) m'.
Proof.
  intros [Ha Hh Hc He]. unfold master_send. cbn [negb].
  destruct (active_ m) eqn:Hact; cbn [negb]; [|eexists _, _, _; (split; [done|]); split; rewrite ?Hact; auto].
  rewrite Hh by (right; right; by apply Ha). cbn [negb].
  destruct (ecrt_master_send _) as [[] l1]; cbn [negb]; eexists _, _, _; (split; [done|]); split; cbn;
    rewrite ?Hact; auto. by apply u32_count.
Qed.

Lemma receive_ok cs m l dom :
  master_ok cs m ->
  exists r m' l', ('(r, m, l, _) ← master_receive true m l dom; Some (r, m, l)) = Some (r, m', l') /\
    master_ok (cs ++ [CReceive dom]) m'.
Proof.
  intros [Ha Hh Hc He]. unfold master_receive. cbn [negb].
  destruct (active_ m) eqn:Hact; cbn [negb]; [|eexists _, _, _; (split; [done|]); split; rewrite ?Hact; auto].
  rewrite Hh by (right; right; by apply Ha). cbn [negb].
  destruct (ecrt_master_receive l) as [[] l1]; cbn [negb]; [destruct (ecrt_domain_process dom l1) as [dom' l2]|];
    eexists _, _, _; (split; [done|]).
  - destruct (dc_enabled_ m); [destruct (ecrt_master_state l2)|]; split; cbn; rewrite ?Hact; auto.
  - split; cbn; rewrite ?Hact; auto. by apply u32_count.
Qed.

Lemma dc_ok cs dc m l :
  master_ok cs m -> allowed (CConfigureDC dc) m ->
  exists r m' l', configureDC true dc m l = Some (r, m', l') /\ master_ok (cs ++ [CConfigureDC dc]) m'.
Proof.
  intros [Ha Hh Hc He] Hal. unfold configureDC. cbn [negb]. cbn [allowed] in Hal.
  destruct (dc_enable dc); cbn [negb]; [|eexists _, _, _; (split; [done|]); split; auto].
  case_bool_decide; [eexists _, _, _; (split; [done|]); split; auto|].
  destruct (lookup_lt_is_Some_2 (slave_configs_ m) (reference_slave dc)) as [h ->]; [lia|].
  eexists _, _, _; (split; [done|]); split; auto.
Qed.

(** Every other allowed call is defined; all keep the invariant. *)
Lemma master_call_ok cs c m l :
  master_ok cs m -> allowed c m ->
  match master_call true c m l with
  | Some (r, m', l') => master_ok (cs ++ [c]) m'
  | None => c = CConfigure /\ ~ null_list_defined
  end.
Proof.
  intros Hok Hal.
  assert (Hsome : (exists r m' l', master_call true c m l = Some (r, m', l') /\ master_ok (cs ++ [c]) m') ->
    match master_call true c m l with
    | Some (r, m', l') => master_ok (cs ++ [c]) m'
    | None => c = CConfigure /\ ~ null_list_defined
    end) by (intros (r & m' & l' & -> & ?); done).
  destruct c; [| |clear Hsome|..]; try (apply Hsome; clear Hsome); cbn [master_call].
  - destruct (initialize_ok cs m l Hok Hal) as (r & m' & l' & Heq & ?). rewrite Heq. eauto.
  - unfold scanSlaves. cbn [negb]. destruct Hok as [Ha Hh Hc He]. case_bool_decide as Hs; cbn [negb].
    + destruct (andb_prop _ _ (Hh (or_introl Hs))) as [-> _]. cbn [negb].
      destruct (ecrt_master_state l); cbn [mbind option_bind]; eexists _, _, _; (split; [done|]); split; auto.
    + eexists _, _, _; (split; [done|]); split; auto.
  - pose proof (configure_ok cs m l Hok). destruct (configureSlaves true m l) as [[[? ?] ?]|]; [done|by split].
  - by apply activate_ok.
  - destruct Hok as [Ha Hh Hc He]. unfold deactivate. cbn [negb].
    destruct (active_ m) eqn:Hact; cbn [negb]; eexists _, _, _; (split; [reflexivity|]); [|split; rewrite ?Hact; auto].
    destruct Ha as [Ha _]. rewrite (Ha eq_refl) in *. split; cbn; [split; done|auto| |done].
    apply sublist_prefix. etrans; [|exact Hc]. repeat constructor.
  - by apply send_ok.
  - by apply receive_ok.
  - by apply dc_ok.
Qed.

Lemma reachable_ok idx cfg l0 cs m l : reachable true idx cfg l0 cs m l -> master_ok cs m.
Proof.
  induction 1 as [|cs c m l r m' l' _ IH Hal Hc].
  - split; cbn; try done; try (intros [?|[?|?]]; done).
  - pose proof (master_call_ok cs c m l IH Hal) as Hok. by rewrite Hc in Hok.
Qed.

(** Without the library. *)
Lemma simulation_call idx cfg l0 cs m l c :
  reachable false idx cfg l0 cs m l ->
  l = l0 /\ error_count_ m = 0 /\ exists m', master_call false c m l = Some (0, m', l) /\ error_count_ m' = 0.
Proof.
  intros Hr. assert (Hl : l = l0 /\ error_count_ m = 0).
  { induction Hr as [|cs c' m l r m' l' _ [-> IH] _ Hc]; [done|].
    destruct c'; cbn in Hc; by simplify_eq. }
  destruct Hl as [-> He]. split_and!; [done..|]. destruct c; cbn; eauto.
Qed.

(** C32: a master that is used as it is meant to be (no initialize while it is
    active, a reference slave among the configured ones).  With the library it
    never passes it a null handle of the master or the domain, whatever the
    library answers: every call is defined, but for configureSlaves on a library
    that is not defined on the null list it is given there.  The master is active
    exactly in the state ACTIVATED, its error count is the sum of the send and
    receive errors, and it transmits a frame only after an initialisation, a
    configuration and an activation in this order.  In the simulation build every
    call succeeds and counts no error. *)
Theorem master_transmits_only_when_activated (enabled : bool) idx cfg l0 cs m l c :
  reachable enabled idx cfg l0 cs m l -> allowed c m ->
  if enabled then
    match master_call true c m l with
    | Some (r, m', l') =>
      (active_ m' = true <-> state_ m' = ACTIVATED) /\
      error_count_ m' = u32 (send_error_count_ m' + receive_error_count_ m') /\
      ((exists dom, c = CSend dom) -> r = 0 -> [CInitialize; CConfigure; CActivate] `sublist_of` cs)
    | None => c = CConfigure /\ ~ null_list_defined
    end
  else exists m', master_call false c m l = Some (0, m', l) /\ error_count_ m' = 0.
Proof.
  destruct enabled; intros Hr Hal.
  2: { by destruct (simulation_call _ _ _ _ _ _ c Hr) as (_ & _ & ?). }
  pose proof (reachable_ok _ _ _ _ _ _ Hr) as Hok. pose proof (master_call_ok cs c m l Hok Hal) as Hok'.
  destruct (master_call true c m l) as [[[r m'] l']|] eqn:Heq; [|done]. split_and!; [apply Hok'|apply Hok'|].
  intros [dom ->] ->. cbn [master_call] in Heq. unfold master_send in Heq. cbn [negb] in Heq.
  destruct (active_ m) eqn:Hact; [|done]. destruct Hok as [[Ha _] _ Hc _]. by rewrite (Ha Hact) in Hc.
Qed.

(** A library that is not defined on a null list never lets a master be
    configured. *)
Theorem null_list_blocks_configuration idx cfg l0 cs m l :
  (forall l : L, ecrt_domain_reg_pdo_entry_list None l = None) -> reachable true idx cfg l0 cs m l ->
  state_ m <> CONFIGURED /\ active_ m = false.
Proof.
  intros Hnull. induction 1 as [|cs c m l r m' l' Hr [IH1 IH2] Hal Hc]; [done|].
  pose proof (reachable_ok _ _ _ _ _ _ Hr) as Hok.
  destruct c; cbn [master_call] in Hc.
  - unfold initialize in Hc. cbn [negb] in Hc.
    destruct (ecrt_request_master _ _) as [[] ?]; cbn in Hc; [destruct (ecrt_master_create_domain _) as [[] ?]; cbn in Hc|];
      injection Hc as <- <- <-; done.
  - destruct (scanSlaves true m l); [|done]. by injection Hc as <- <- <-.
  - unfold configureSlaves in Hc. cbn [negb] in Hc. case_bool_decide; cbn [negb] in Hc; [|by injection Hc as <- <- <-].
    destruct (config_ m); [|by injection Hc as <- <- <-]. destruct (negb _); [done|].
    destruct (configure_loop _ _ _ _). by rewrite Hnull in Hc.
  - unfold activate in Hc. cbn [negb] in Hc. rewrite bool_decide_false in Hc by done. by injection Hc as <- <- <-.
  - unfold deactivate in Hc. cbn [negb] in Hc. rewrite IH2 in Hc. by injection Hc as <- <- <-.
  - unfold master_send in Hc. cbn [negb] in Hc. rewrite IH2 in Hc. by injection Hc as <- <- <-.
  - unfold master_receive in Hc. cbn [negb] in Hc. rewrite IH2 in Hc. by injection Hc as <- <- <-.
  - unfold configureDC in Hc. cbn [negb] in Hc. destruct (dc_enable dc); cbn [negb] in Hc; [|by injection Hc as <- <- <-].
    case_bool_decide; [by injection Hc as <- <- <-|]. destruct (slave_configs_ m !! _); [|done]. by injection Hc as <- <- <-.
Qed.
End MasterFacts.

(** ** A library for running the model

    The state counts the requests for a master, those after the first fail; a
    slave configuration is its position, a frame is the image. *)

Record TestLib := mkTestLib { lib_requests : nat; lib_frames : list domain }.

#[export] Instance test_ecrt : Ecrt TestLib Z := {|
  ecrt_request_master _ l := (bool_decide (lib_requests l = 0%nat), mkTestLib (S (lib_requests l)) (lib_frames l));
  ecrt_release_master l := l;
  ecrt_master_create_domain l := (true, l);
  ecrt_master_state l := Some 1;
  ecrt_master_slave_config a p v c l := (Some p, l);
  ecrt_domain_reg_pdo_entry_list _ l := Some (true, l);
  ecrt_master_activate l := (true, l);
  ecrt_domain_data l := true;
  ecrt_domain_queue dom l := mkTestLib (lib_requests l) (lib_frames l ++ [dom]);
  ecrt_domain_process dom l := (dom, l);
  ecrt_domain_state l := 1;
  ecrt_master_send l := (true, l);
  ecrt_master_receive l := (true, l);
  ecrt_slave_config_dc h a c s l := l
|}.

Definition one_slave : ISlaveConfig :=
  mkISlaveConfig (λ i, if i =? 0 then Some (mkSlaveConfig 0 0 0x9A 0x30924 "drive" MOTOR) else None) (λ _, []) 1.

Lemma master_transmits_only_when_activated_witness :
  [CInitialize; CConfigure; CActivate] `sublist_of` [CInitialize; CScan; CConfigure; CActivate].
Proof.
  set (l0 := mkTestLib 0 []).
  assert (Hr : exists m l, reachable true 0 (Some one_slave) l0 [CInitialize; CScan; CConfigure; CActivate] m l /\
    master_call true (CSend []) m l = Some (0, set_counts 0 1 0 0 m, mkTestLib 1 [[]])).
  { eexists _, _. split.
    - eapply (run_calls_reachable _ _ _ _ [] _ _ _ _ _ (reach_new _ _ _ _)). vm_compute. reflexivity.
    - reflexivity. }
  destruct Hr as (m & l & Hr & Hs).
  pose proof (master_transmits_only_when_activated true _ _ _ _ m l (CSend []) Hr I) as H.
  cbv iota in H. rewrite Hs in H. apply H; [by exists []|done].
Defined.

(** A second [initialize] of an active master that fails leaves the master
    active with a null handle: the next [send] passes it to the library. *)
Theorem reinitialisation_leaves_null_handle :
  exists m l m' l', reachable true 0 (Some one_slave) (mkTestLib 0 []) [CInitialize; CConfigure; CActivate] m l /\
    initialize true m l = (-1, m', l') /\ state_ m' = ERROR /\ isActive m' = true /\
    master_send true m' l' [] = None.
Proof.
  eexists _, _, _, _. split_and!.
  - eapply (run_calls_reachable _ _ _ _ [] _ _ _ _ _ (reach_new _ _ _ _)). vm_compute. reflexivity.
  - reflexivity.
  - reflexivity.
  - reflexivity.
  - reflexivity.
Qed.

(** Without the library, a deactivated master stays in the state ACTIVATED. *)
Theorem simulation_deactivate_keeps_state {H} (m : EtherCATMaster H) :
  state_ (snd (deactivate false m)) = state_ m /\ isActive (snd (deactivate false m)) = false.
Proof. done. Qed.

(** A reference slave beyond those configured is not checked. *)
Theorem dc_reference_out_of_range :
  exists m, slave_configs_ m = [0] /\
    configureDC true (mkDC true 1 10000000 0 0) m (mkTestLib 1 []) = None.
Proof. by exists (set_configs [0] (newEtherCATMaster 0 (Some one_slave))). Qed.
