(* ===== verification/EtherCATCycle.v ===== *)
(** * RTEtherCATCycle (src/core/ethercat/adapters/RTEtherCATCycle.{h,cpp})

    The EtherCAT part of a real-time cycle: outputs and motor commands go from
    the RTDataStore into the process image, the frame is sent and received, the
    sensors go from the image into the store; too many errors take the
    real-time state machine to SAFE_MODE.  The sensor manager and the motor
    manager share the image.  [None] is undefined behaviour, as in [Pdo]. *)

From stdpp Require Import pretty.
From S2P Require Import Prelude Interfaces RTStateMachine RTDataStore Ieee754 Pdo EtherCATMaster.
#[local] Open Scope Z_scope.

(** interfaces/IEtherCATMaster.h, as the cycle uses it. *)
Class IEtherCATMaster (M : Type) := {
  ec_send : M -> domain -> option (Z * M);
  ec_receive : M -> domain -> option (Z * M * domain);
  ec_isActive : M -> bool
}.

#[export] Instance ethercat_master {L H} `{!Ecrt L H} (enabled : bool) : IEtherCATMaster (EtherCATMaster H * L) := {|
  ec_send m dom := '(r, m', l) ← master_send enabled (fst m) (snd m) dom; Some (r, (m', l));
  ec_receive m dom := '(r, m', l, dom) ← master_receive enabled (fst m) (snd m) dom; Some (r, (m', l), dom);
  ec_isActive m := isActive (fst m)
|}.

(** ** Events (events/EtherCATErrorEvent.h) *)

Inductive EtherCATErrorType :=
| SEND_FAILURE | RECEIVE_FAILURE | LINK_DOWN | SLAVE_NOT_RESPONDING | PDO_MAPPING_ERROR | DC_SYNC_ERROR
| DOMAIN_ERROR | INITIALIZATION_ERROR.

Definition error_type_val (t : EtherCATErrorType) : Z :=
  match t with
  | SEND_FAILURE => 0 | RECEIVE_FAILURE => 1 | LINK_DOWN => 2 | SLAVE_NOT_RESPONDING => 3
  | PDO_MAPPING_ERROR => 4 | DC_SYNC_ERROR => 5 | DOMAIN_ERROR => 6 | INITIALIZATION_ERROR => 7
  end.

Definition getErrorTypeString (t : EtherCATErrorType) : string :=
  match t with
  | SEND_FAILURE => "SEND_FAILURE" | RECEIVE_FAILURE => "RECEIVE_FAILURE" | LINK_DOWN => "LINK_DOWN"
  | SLAVE_NOT_RESPONDING => "SLAVE_NOT_RESPONDING" | PDO_MAPPING_ERROR => "PDO_MAPPING_ERROR"
  | DC_SYNC_ERROR => "DC_SYNC_ERROR" | DOMAIN_ERROR => "DOMAIN_ERROR"
  | INITIALIZATION_ERROR => "INITIALIZATION_ERROR"
  end.

Record EtherCATErrorEvent := mkErrorEvent {
  error_type_ : EtherCATErrorType;
  description_ : string;
  ev_slave_id_ : Z;
  ev_timestamp_ : Z;
  event_id_ : string
}.

(** [ms] is the wall clock in milliseconds. *)
Definition newErrorEvent (t : EtherCATErrorType) (description : string) (ms : Z) : EtherCATErrorEvent :=
  mkErrorEvent t description 0 ms ("ethercat_error_" +:+ pretty ms +:+ "_" +:+ pretty (error_type_val t)).

(** ** State *)

Record SensorInfo := mkSensorInfo {
  si_slave_id : Z;
  si_data_key : nat;
  si_data_key2 : nat;
  sensor_type : string;
  si_channel : Z;
  scale_factor : Z
}.

Record OutputInfo := mkOutputInfo {
  oi_slave_id : Z;
  oi_channel : Z;
  oi_data_key : nat;
  output_type : string;
  oi_min_value : Z;
  oi_max_value : Z
}.

Record MotorInfo := mkMotorInfo {
  mi_slave_id : Z;
  motor_type : string;
  position_key : nat;
  velocity_key : nat;
  torque_key : nat;
  control_mode_key : nat;
  enable_key : nat;
  mi_max_velocity : Z;
  mi_max_torque : Z
}.

Record RTEtherCATCycle := mkCycle {
  sensors_ : list SensorInfo;
  outputs_ : list OutputInfo;
  motors_ : list MotorInfo;
  total_cycles_ : Z;
  cy_error_count_ : Z;
  read_success_count_ : Z;
  write_success_count_ : Z;
  motor_command_count_ : Z
}.
Definition newCycle : RTEtherCATCycle := mkCycle [] [] [] 0 0 0 0 0.

Definition add_sensor (i : SensorInfo) (c : RTEtherCATCycle) : RTEtherCATCycle :=
  mkCycle (sensors_ c ++ [i]) (outputs_ c) (motors_ c) (total_cycles_ c) (cy_error_count_ c)
    (read_success_count_ c) (write_success_count_ c) (motor_command_count_ c).
Definition add_output (i : OutputInfo) (c : RTEtherCATCycle) : RTEtherCATCycle :=
  mkCycle (sensors_ c) (outputs_ c ++ [i]) (motors_ c) (total_cycles_ c) (cy_error_count_ c)
    (read_success_count_ c) (write_success_count_ c) (motor_command_count_ c).
Definition add_motor (i : MotorInfo) (c : RTEtherCATCycle) : RTEtherCATCycle :=
  mkCycle (sensors_ c) (outputs_ c) (motors_ c ++ [i]) (total_cycles_ c) (cy_error_count_ c)
    (read_success_count_ c) (write_success_count_ c) (motor_command_count_ c).
Definition count_total (c : RTEtherCATCycle) : RTEtherCATCycle :=
  mkCycle (sensors_ c) (outputs_ c) (motors_ c) (u64 (total_cycles_ c + 1)) (cy_error_count_ c)
    (read_success_count_ c) (write_success_count_ c) (motor_command_count_ c).
Definition count_error (c : RTEtherCATCycle) : RTEtherCATCycle :=
  mkCycle (sensors_ c) (outputs_ c) (motors_ c) (total_cycles_ c) (u64 (cy_error_count_ c + 1))
    (read_success_count_ c) (write_success_count_ c) (motor_command_count_ c).
Definition count_read (c : RTEtherCATCycle) : RTEtherCATCycle :=
  mkCycle (sensors_ c) (outputs_ c) (motors_ c) (total_cycles_ c) (cy_error_count_ c)
    (u64 (read_success_count_ c + 1)) (write_success_count_ c) (motor_command_count_ c).
Definition count_write (c : RTEtherCATCycle) : RTEtherCATCycle :=
  mkCycle (sensors_ c) (outputs_ c) (motors_ c) (total_cycles_ c) (cy_error_count_ c)
    (read_success_count_ c) (u64 (write_success_count_ c + 1)) (motor_command_count_ c).
Definition count_motor (c : RTEtherCATCycle) : RTEtherCATCycle :=
  mkCycle (sensors_ c) (outputs_ c) (motors_ c) (total_cycles_ c) (cy_error_count_ c)
    (read_success_count_ c) (write_success_count_ c) (u64 (motor_command_count_ c + 1)).

(** ** Registration *)

Definition registerPositionSensor (slave_id : Z) (position_key velocity_key : nat) (scale : Z) :=
  add_sensor (mkSensorInfo slave_id position_key velocity_key "POSITION" 0 scale).
Definition registerSensor (slave_id : Z) (key : nat) (type : string) :=
  add_sensor (mkSensorInfo slave_id key key type 0 (double_of_int 1)).
Definition registerDigitalOutput (slave_id channel : Z) (key : nat) :=
  add_output (mkOutputInfo slave_id channel key "DO" 0 (double_of_int 1)).
Definition registerAnalogOutput (slave_id channel : Z) (key : nat) (min_value max_value : Z) :=
  add_output (mkOutputInfo slave_id channel key "AO" min_value max_value).
Definition registerBLDCMotor (slave_id : Z) (velocity torque mode enable : nat) :=
  add_motor (mkMotorInfo slave_id "BLDC" velocity velocity torque mode enable
               (double_of_int 10000) (double_of_int 100)).
Definition registerServoMotor (slave_id : Z) (pos velocity torque mode enable : nat) (max_velocity max_torque : Z) :=
  add_motor (mkMotorInfo slave_id "SERVO" pos velocity torque mode enable max_velocity max_torque).

(** ** The phases of a cycle

    They act on the cycle's own state, the process image and the store.
    [sensor_domain] says whether the sensor manager's [domain_ptr_] is set,
    [motor_manager] whether there is a motor manager and its pointer is set. *)

Record Io := mkIo { io_cycle : RTEtherCATCycle; io_image : domain; io_store : RTDataStore }.

Definition io_set_image (d : domain) (io : Io) : Io := mkIo (io_cycle io) d (io_store io).
Definition io_set_store (s : RTDataStore) (io : Io) : Io := mkIo (io_cycle io) (io_image io) s.
Definition io_count (f : RTEtherCATCycle -> RTEtherCATCycle) (io : Io) : Io :=
  mkIo (f (io_cycle io)) (io_image io) (io_store io).

(** An undefined read of the store is undefined, a failed one [Some None]. *)
Definition got {A} (r : GetResult A) : option (option A) :=
  match r with Got x => Some (Some x) | GetError => Some None | Undefined => None end.

Definition got_map {A B} (f : A -> B) (r : GetResult A) : option (option B) :=
  match r with Got x => Some (Some (f x)) | GetError => Some None | Undefined => None end.

Section Phases.
Variable cfg : ISlaveConfig.
Variable sensor_domain : bool.
Variable motor_manager : option bool.
Implicit Types (io : Io).

Definition sensor_ptr io : option domain := if sensor_domain then Some (io_image io) else None.

(** The image behind a pointer after a write through it. *)
Definition put_image (ptr : option domain) io : Io :=
  match ptr with Some d => io_set_image d io | None => io end.

Definition readAndWriteOutput (o : OutputInfo) io : option Io :=
  if bool_decide (output_type o = "DO") then
    v ← got (getInt32 (oi_data_key o) (io_store io));
    match v with
    | None => Some io
    | Some value_int =>
      let data := mkDO (oi_channel o) (negb (value_int =? 0)) 0 true (oi_slave_id o) in
      '(r, ptr) ← writeDigitalOutput cfg (sensor_ptr io) (oi_slave_id o) (oi_channel o) data;
      let io := put_image ptr io in
      Some (if r =? 0 then io_count count_write io else io)
    end
  else if bool_decide (output_type o = "AO") then
    v ← got (getDouble (oi_data_key o) (io_store io));
    match v with
    | None => Some io
    | Some value =>
      let data := mkAO (oi_channel o) value "V" (oi_min_value o) (oi_max_value o) 0 true (oi_slave_id o) in
      '(r, ptr) ← writeAnalogOutput cfg (sensor_ptr io) (oi_slave_id o) (oi_channel o) data;
      let io := put_image ptr io in
      Some (if r =? 0 then io_count count_write io else io)
    end
  else Some io.

(** The BLDC command read from the store; [Some None] when a value is missing. *)
Definition bldc_command (mi : MotorInfo) (mode : Z) (enable : bool) (s : RTDataStore) :
    option (option BLDCMotorCommand) :=
  if enable && (mode =? VELOCITY) then
    got_map (λ v, mkBLDC (mi_slave_id mi) v 0 mode enable 0) (getDouble (velocity_key mi) s)
  else if enable && (mode =? TORQUE) then
    got_map (λ t, mkBLDC (mi_slave_id mi) 0 t mode enable 0) (getDouble (torque_key mi) s)
  else Some (Some (mkBLDC (mi_slave_id mi) 0 0 mode enable 0)).

Definition servo_command (mi : MotorInfo) (mode : Z) (enable : bool) (s : RTDataStore) :
    option (option ServoDriverCommand) :=
  let cmd p v t := mkServo (mi_slave_id mi) p v t mode (mi_max_velocity mi) (mi_max_torque mi) enable 0 in
  if enable && (mode =? POSITION) then
    p ← got (getDouble (position_key mi) s);
    match p with
    | None => Some None
    | Some p => v ← got (getDouble (velocity_key mi) s); Some (Some (cmd p (default 0 v) 0))
    end
  else if enable && (mode =? VELOCITY) then
    got_map (λ v, cmd 0 v 0) (getDouble (velocity_key mi) s)
  else if enable && (mode =? TORQUE) then
    got_map (λ t, cmd 0 0 t) (getDouble (torque_key mi) s)
  else Some (Some (cmd 0 0 0)).

Definition readAndWriteMotorCommand (mi : MotorInfo) io : option Io :=
  match motor_manager with
  | None => Some io
  | Some set =>
    let ptr := if set : bool then Some (io_image io) else None in
    mode_int ← got (getInt32 (control_mode_key mi) (io_store io));
    match mode_int with
    | None => Some io
    | Some mode_int =>
      enable_int ← got (getInt32 (enable_key mi) (io_store io));
      match enable_int with
      | None => Some io
      | Some enable_int =>
        let control_mode := u8 mode_int in
        let enable := negb (enable_int =? 0) in
        if bool_decide (motor_type mi = "BLDC") then
          cmd ← bldc_command mi control_mode enable (io_store io);
          match cmd with
          | None => Some io
          | Some cmd =>
            '(r, ptr) ← writeBLDCCommand cfg ptr cmd;
            let io := put_image ptr io in
            Some (if r =? 0 then io_count count_motor io else io)
          end
        else if bool_decide (motor_type mi = "SERVO") then
          cmd ← servo_command mi control_mode enable (io_store io);
          match cmd with
          | None => Some io
          | Some cmd =>
            '(r, ptr) ← writeServoCommand cfg ptr cmd;
            let io := put_image ptr io in
            Some (if r =? 0 then io_count count_motor io else io)
          end
        else Some io
      end
    end
  end.

(** [active] is [master_->isActive()]; [clock] the readings of the clock. *)
Definition readAndStoreSensor (active : bool) (clock : nat -> Z) (s : SensorInfo) io : option Io :=
  let ptr := sensor_ptr io in
  let save io st := Some (io_count count_read (io_set_store st io)) in
  let put key bits n st := snd (setDouble key bits (clock n) st) in
  if bool_decide (sensor_type s = "POSITION") then
    '(r, d) ← readPositionSensor cfg ptr active (clock 0%nat) (si_slave_id s) newPosition;
    if (r =? 0) && p_valid d then
      let st := put (si_data_key s) (double_mul (double_of_int (p_position d)) (scale_factor s)) 1%nat (io_store io) in
      let st := if negb (si_data_key2 s =? si_data_key s)%nat
                then put (si_data_key2 s) (double_mul (double_of_int (p_velocity d)) (scale_factor s)) 2%nat st
                else st in
      save io st
    else Some io
  else if bool_decide (sensor_type s = "VELOCITY") then
    '(r, d) ← readVelocitySensor cfg ptr active (clock 0%nat) (si_slave_id s) newVelocity;
    if (r =? 0) && v_valid d then save io (put (si_data_key s) (v_velocity d) 1%nat (io_store io)) else Some io
  else if bool_decide (sensor_type s = "TORQUE") then
    '(r, d) ← readTorqueSensor cfg ptr active (clock 0%nat) (si_slave_id s) newTorque;
    if (r =? 0) && t_valid d then save io (put (si_data_key s) (torque_z d) 1%nat (io_store io)) else Some io
  else if bool_decide (sensor_type s = "DI") then
    '(r, d) ← readDigitalInput cfg ptr active (clock 0%nat) (si_slave_id s) (si_channel s) newDI;
    if (r =? 0) && di_valid d
    then save io (snd (setInt32 (si_data_key s) (if di_value d then 1 else 0) (clock 1%nat) (io_store io)))
    else Some io
  else if bool_decide (sensor_type s = "AI") then
    '(r, d) ← readAnalogInput cfg ptr active (clock 0%nat) (si_slave_id s) (si_channel s) newAI;
    if (r =? 0) && ai_valid d then save io (put (si_data_key s) (ai_value d) 1%nat (io_store io)) else Some io
  else Some io.

Fixpoint for_each {A} (f : A -> Io -> option Io) (l : list A) io : option Io :=
  match l with
  | [] => Some io
  | x :: l => io ← f x io; for_each f l io
  end.

(** Steps 1 and 1b of [execute]. *)
Definition prepare io : option Io :=
  io ← for_each readAndWriteOutput (outputs_ (io_cycle io)) io;
  for_each readAndWriteMotorCommand (motors_ (io_cycle io)) io.

(** Step 4; [clock i] is the clock while the [i]-th sensor is read. *)
Definition store_sensors (active : bool) (clock : nat -> nat -> Z) io : option Io :=
  let l := sensors_ (io_cycle io) in
  for_each (λ p, readAndStoreSensor active (clock (fst p)) (snd p)) (imap pair l) io.
End Phases.

(** ** The cycle *)

Definition ERROR_THRESHOLD : Z := 10.

Record World (M B W : Type) := mkWorld {
  w_io : Io;
  w_master : M;
  w_bus : option B;
  w_machine : option (RTStateMachine W * W)
}.
Arguments mkWorld {M B W}.
Arguments w_io {M B W} _.
Arguments w_master {M B W} _.
Arguments w_bus {M B W} _.
Arguments w_machine {M B W} _.

Section Cycle.
Context {M B W : Type} `{HM : !IEtherCATMaster M} `{HB : !IEventBus EtherCATErrorEvent B}.
Variable cfg : ISlaveConfig.
Variable sensor_domain : bool.
Variable motor_manager : option bool.
Implicit Types (w : World M B W).

Definition set_io (io : Io) w : World M B W := mkWorld io (w_master w) (w_bus w) (w_machine w).
Definition set_master (m : M) w : World M B W := mkWorld (w_io w) m (w_bus w) (w_machine w).

Definition handleEtherCATError (t : EtherCATErrorType) (message : string) (ms : Z) w : World M B W :=
  let io := io_count count_error (w_io w) in
  let bus := eb_publish (newErrorEvent t message ms) <$> w_bus w in
  let machine :=
    match w_machine w with
    | Some (sm, x) =>
      if ERROR_THRESHOLD <? cy_error_count_ (io_cycle io)
      then Some (snd (handleEvent EV_SAFE_MODE_ENTER sm x))
      else Some (sm, x)
    | None => None
    end in
  mkWorld io (w_master w) bus machine.

(** What a cycle is given: whether the context has a store, the clocks. *)
Record CycleInput := mkCycleInput {
  in_store : bool;
  in_clock : nat -> nat -> Z;
  in_ms : Z
}.

Definition execute (i : CycleInput) w : option (World M B W) :=
  if negb (in_store i) then
    Some (handleEtherCATError INITIALIZATION_ERROR "RTDataStore 없음" (in_ms i) w)
  else
    io ← prepare cfg sensor_domain motor_manager (w_io w);
    let w := set_io io w in
    '(r, m) ← ec_send (w_master w) (io_image io);
    let w := set_master m w in
    if negb (r =? 0) then Some (handleEtherCATError SEND_FAILURE "EtherCAT send 실패" (in_ms i) w)
    else
      '(r, m, dom) ← ec_receive (w_master w) (io_image io);
      let io := io_set_image dom io in
      let w := set_io io (set_master m w) in
      if negb (r =? 0) then Some (handleEtherCATError RECEIVE_FAILURE "EtherCAT receive 실패" (in_ms i) w)
      else
        io ← store_sensors cfg sensor_domain (ec_isActive (w_master w)) (in_clock i) io;
        Some (set_io (io_count count_total io) w).

(** Cycles one after the other; between them other code may change the store. *)
Fixpoint run_cycles (is_ : list (CycleInput * RTDataStore)) w : option (World M B W) :=
  match is_ with
  | [] => Some w
  | (i, s) :: is_ => w ← execute i (set_io (io_set_store s (w_io w)) w); run_cycles is_ w
  end.
End Cycle.

(** The two statistics that are not connected to the master. *)
Definition isDCEnabled (c : RTEtherCATCycle) : bool := false.
Definition getDCSystemTimeOffset (c : RTEtherCATCycle) : Z := 0.

(** ** Errors and SAFE_MODE *)

(** The phases leave the registrations and the counters of cycles and errors
    alone. *)
Definition same_setup (io io' : Io) : Prop :=
  sensors_ (io_cycle io') = sensors_ (io_cycle io) /\ outputs_ (io_cycle io') = outputs_ (io_cycle io) /\
  motors_ (io_cycle io') = motors_ (io_cycle io) /\ total_cycles_ (io_cycle io') = total_cycles_ (io_cycle io) /\
  cy_error_count_ (io_cycle io') = cy_error_count_ (io_cycle io).

#[export] Instance same_setup_preorder : PreOrder same_setup.
Proof. split; [intros a; unfold same_setup; by split_and!|]. intros a b c (?&?&?&?&?) (?&?&?&?&?). split_and!; congruence. Qed.

Lemma for_each_setup {A} (f : A -> Io -> option Io) l io io' :
  (forall x io io', f x io = Some io' -> same_setup io io') -> for_each f l io = Some io' -> same_setup io io'.
Proof.
  intros Hf. revert io. induction l as [|x l IH]; intros io; cbn [for_each].
  { intros [= <-]. done. }
  destruct (f x io) as [io1|] eqn:H1; [|done]. cbn [mbind option_bind]. intros H2.
  etrans; [by eapply Hf|by apply IH].
Qed.

(** Splits a phase along its binds and matches. *)
Ltac phase :=
  repeat match goal with
  | H : Some _ = Some _ |- _ => injection H as <-
  | H : None = Some _ |- _ => discriminate H
  | H : mbind _ ?e = Some _ |- _ => destruct e eqn:?; cbn [mbind option_bind] in H
  | p : _ * _ |- _ => destruct p
  | H : (if ?b then _ else _) = Some _ |- _ => destruct b
  | H : match ?o with Some _ => _ | None => _ end = Some _ |- _ => destruct o
  end.

Lemma put_image_setup ptr io : same_setup io (put_image ptr io).
Proof. by destruct ptr. Qed.

Section Setup.
Context (cfg : ISlaveConfig) (sensor_domain : bool) (motor_manager : option bool).

(** Outputs and motor commands leave the store alone, sensors the image. *)
Lemma output_setup o io io' :
  readAndWriteOutput cfg sensor_domain o io = Some io' -> same_setup io io' /\ io_store io' = io_store io.
Proof.
  unfold readAndWriteOutput, put_image. intros H. phase; repeat case_match; done.
Qed.

Lemma motor_setup mi io io' :
  readAndWriteMotorCommand cfg motor_manager mi io = Some io' -> same_setup io io' /\ io_store io' = io_store io.
Proof.
  unfold readAndWriteMotorCommand, put_image. intros H. phase; repeat case_match; done.
Qed.

Lemma sensor_setup active clock s io io' :
  readAndStoreSensor cfg sensor_domain active clock s io = Some io' -> same_setup io io' /\ io_image io' = io_image io.
Proof. unfold readAndStoreSensor. intros H. phase; done. Qed.

Lemma prepare_setup io io' :
  prepare cfg sensor_domain motor_manager io = Some io' -> same_setup io io'.
Proof.
  unfold prepare. destruct (for_each _ _ io) as [io1|] eqn:H1; [|done]. cbn [mbind option_bind]. intros H2.
  etrans; (eapply for_each_setup; [|eassumption]); intros ? ? ? H.
  - by apply output_setup in H as [? _].
  - by apply motor_setup in H as [? _].
Qed.

Lemma sensors_setup active clock io io' :
  store_sensors cfg sensor_domain active clock io = Some io' -> same_setup io io'.
Proof. apply for_each_setup. by intros ? ? ? [? _]%sensor_setup. Qed.
End Setup.

Section Errors.
Context {M B W : Type} `{HM : !IEtherCATMaster M} `{HB : !IEventBus EtherCATErrorEvent B}.
Context (cfg : ISlaveConfig) (sensor_domain : bool) (motor_manager : option bool).
Implicit Types (w : World M B W).

Definition errors w : Z := cy_error_count_ (io_cycle (w_io w)).
Definition completed w : Z := total_cycles_ (io_cycle (w_io w)).

(** A cycle is completed, or reports one error. *)
Definition cycle_effect w w' : Prop :=
  (completed w' = u64 (completed w + 1) /\ errors w' = errors w /\ w_bus w' = w_bus w /\ w_machine w' = w_machine w) \/
  (exists w1 t msg ms, w' = handleEtherCATError t msg ms w1 /\
     completed w1 = completed w /\ errors w1 = errors w /\ w_bus w1 = w_bus w /\ w_machine w1 = w_machine w).

Lemma cycle_execute_effect i w w' : execute cfg sensor_domain motor_manager i w = Some w' -> cycle_effect w w'.
Proof.
  unfold execute. destruct (in_store i); cbn [negb].
  2: { intros [= <-]. right. by eexists w, _, _, _. }
  destruct (prepare _ _ _ _) as [io|] eqn:Hp; [|done]. cbn [mbind option_bind].
  apply prepare_setup in Hp as (_ & _ & _ & Ht & He).
  destruct (ec_send _ _) as [[r m]|]; [|done]. cbn [mbind option_bind].
  destruct (negb (r =? 0)); [intros [= <-]; right; by eexists (set_master m (set_io io w)), _, _, _|].
  destruct (ec_receive _ _) as [[[r2 m2] dom]|]; [|done]. cbn [mbind option_bind].
  destruct (negb (r2 =? 0)).
  { intros [= <-]. right. by eexists (set_io (io_set_image dom io) (set_master m2 _)), _, _, _. }
  destruct (store_sensors _ _ _ _ _) as [io2|] eqn:Hs; [|done]. intros [= <-].
  apply sensors_setup in Hs as (_ & _ & _ & Ht2 & He2). left. unfold completed, errors in *. cbn in *.
  rewrite Ht2, Ht, He2, He. done.
Qed.

Definition publish_all (evs : list EtherCATErrorEvent) (b : B) : B := foldl (λ b e, eb_publish e b) b evs.

(** The state the errors so far lead to from RUNNING. *)
Definition state_after (n : Z) : RTState := if ERROR_THRESHOLD <? n then RT_SAFE_MODE else RT_RUNNING.

Definition machine_in (st : RTState) w : Prop :=
  exists sm x, w_machine w = Some (sm, x) /\ current_state_ sm = st.

Lemma counter_succ n : 0 <= n -> n + 1 < 2 ^ 64 -> u64 (n + 1) = n + 1.
Proof. intros. unfold u64, wrap. apply Z.mod_small. lia. Qed.

Lemma handle_error_machine t msg ms w :
  0 <= errors w -> errors w + 1 < 2 ^ 64 -> machine_in (state_after (errors w)) w ->
  errors (handleEtherCATError t msg ms w) = errors w + 1 /\
  machine_in (state_after (errors w + 1)) (handleEtherCATError t msg ms w).
Proof.
  intros H0 H1 (sm & x & Hm & Hs). unfold errors in *. cbn. rewrite counter_succ by done. split; [done|].
  unfold handleEtherCATError, machine_in. cbn. rewrite Hm, counter_succ by done. unfold state_after in *.
  destruct (Z.ltb_spec ERROR_THRESHOLD (cy_error_count_ (io_cycle (w_io w)) + 1)) as [Hgt|Hle].
  - destruct (snd (handleEvent EV_SAFE_MODE_ENTER sm x)) as [sm' x'] eqn:Hh. exists sm', x'. split; [done|].
    change sm' with (fst (sm', x')). rewrite <- Hh, handleEvent_state, Hs. by destruct (ERROR_THRESHOLD <? _).
  - exists sm, x. split; [done|]. rewrite Hs. by rewrite (proj2 (Z.ltb_ge _ _)) by lia.
Qed.

Lemma run_cycles_errors inputs w w' :
  0 <= completed w -> 0 <= errors w -> completed w + errors w + Z.of_nat (length inputs) < 2 ^ 64 ->
  machine_in (state_after (errors w)) w ->
  run_cycles cfg sensor_domain motor_manager inputs w = Some w' ->
  0 <= completed w' /\ 0 <= errors w' /\
  completed w' + errors w' = completed w + errors w + Z.of_nat (length inputs) /\
  machine_in (state_after (errors w')) w' /\
  exists evs, w_bus w' = publish_all evs <$> w_bus w /\ Z.of_nat (length evs) = errors w' - errors w.
Proof.
  revert w. induction inputs as [|[i s] inputs IH]; intros w Hc He Hlt Hm; cbn [run_cycles].
  { intros [= <-]. split_and!; [done..|cbn; lia|done|]. exists []. split; [by destruct (w_bus w)|cbn; lia]. }
  set (w1 := set_io _ w). destruct (execute _ _ _ i w1) as [w2|] eqn:Hex; [|done].
  cbn [mbind option_bind]. intros Hrun. cbn [length] in *.
  apply cycle_execute_effect in Hex as [(Hc2 & He2 & Hb2 & Hm2)|(w3 & t & msg & ms & -> & Hc3 & He3 & Hb3 & Hm3)].
  - change (completed w1) with (completed w) in Hc2. change (errors w1) with (errors w) in He2.
    rewrite counter_succ in Hc2 by lia.
    destruct (IH w2) as (? & ? & ? & ? & evs & Hb & Hl); try lia; [|done|].
    { rewrite He2. destruct Hm as (sm & x & Hmx & ?). exists sm, x. by rewrite Hm2. }
    split_and!; [done..|lia|done|]. exists evs. split; [by rewrite Hb, Hb2|lia].
  - change (completed w1) with (completed w) in Hc3. change (errors w1) with (errors w) in He3.
    destruct (handle_error_machine t msg ms w3) as [He4 Hm4]; [lia|lia| |].
    { rewrite He3. destruct Hm as (sm & x & Hmx & ?). exists sm, x. by rewrite Hm3. }
    set (w4 := handleEtherCATError _ _ _ _) in *.
    assert (Hc4 : completed w4 = completed w) by (rewrite <- Hc3; done).
    destruct (IH w4) as (? & ? & ? & ? & evs & Hb & Hl); try lia; [by rewrite He4|done|].
    split_and!; [done..|lia|done|]. exists (newErrorEvent t msg ms :: evs). split; [|cbn [length]; lia].
    rewrite Hb. change (w_bus w4) with (eb_publish (newErrorEvent t msg ms) <$> w_bus w3).
    rewrite Hb3. change (w_bus w1) with (w_bus w). by destruct (w_bus w).
Qed.

(** C11: every cycle is counted once, as completed or as an error; each error is
    published once; and a state machine that was RUNNING is in SAFE_MODE exactly
    when more than ten cycles have failed since the start, whatever happened
    between the failures. *)
Theorem errors_lead_to_safe_mode inputs w w' :
  completed w = 0 -> errors w = 0 -> Z.of_nat (length inputs) < 2 ^ 64 -> machine_in RT_RUNNING w ->
  run_cycles cfg sensor_domain motor_manager inputs w = Some w' ->
  completed w' + errors w' = Z.of_nat (length inputs) /\
  machine_in (if 10 <? errors w' then RT_SAFE_MODE else RT_RUNNING) w' /\
  exists evs, w_bus w' = publish_all evs <$> w_bus w /\ Z.of_nat (length evs) = errors w'.
Proof.
  intros Hc He Hl Hm Hrun. destruct (run_cycles_errors inputs w w') as (_ & _ & Hsum & Hm' & evs & Hb & Hle);
    rewrite ?Hc, ?He; try done; try lia.
  split; [lia|]. split; [done|]. exists evs. split; [done|lia].
Qed.
End Errors.

(** ** What reaches the drives *)

(** The limits the servos of a slave are registered with. *)
Definition servo_vmax (motors : list MotorInfo) (s v : Z) : Prop :=
  exists mi, mi ∈ motors /\ mi_slave_id mi = s /\ motor_type mi = "SERVO" /\ mi_max_velocity mi = v.
Definition servo_tmax (motors : list MotorInfo) (s t : Z) : Prop :=
  exists mi, mi ∈ motors /\ mi_slave_id mi = s /\ motor_type mi = "SERVO" /\ mi_max_torque mi = t.

Definition safe_for (motors : list MotorInfo) := safe_bytes (servo_vmax motors) (servo_tmax motors).

(** A digital channel that [1 << channel] can address, an analog range that a
    16-bit object can hold. *)
Definition output_reg_ok (o : OutputInfo) : Prop :=
  oi_channel o < 32 /\ range_ok (oi_min_value o) (oi_max_value o).

Record io_ok (cfg : ISlaveConfig) (io : Io) : Prop := {
  io_layout : layout_ok cfg (length (io_image io));
  io_store_ok : store_ok (io_store io);
  io_outputs_ok : Forall output_reg_ok (outputs_ (io_cycle io))
}.

Lemma get_entry_defined {A} key ty (f : list Z -> A) s :
  store_ok s -> exists r, got (get_entry key ty f s) = Some r.
Proof.
  intros [_ Hs]. unfold get_entry. destruct (negb (isValidKey key)); [by eexists|].
  destruct (s !! key) as [e|] eqn:He; [|by eexists].
  destruct (Forall_lookup_1 _ _ _ _ Hs He) as (_ & _ & ->). case_bool_decide; by eexists.
Qed.

Lemma got_map_got {A C} (f : A -> C) r x : got r = Some x -> got_map f r = Some (f <$> x).
Proof. destruct r; by intros [= <-]. Qed.

(** A step of a phase: defined, same registrations and store, and the image
    changed only by writes that satisfy [P]. *)
Definition phase_step cfg (P : Z -> PDOMapping -> list Z -> Prop) (io : Io) (r : option Io) : Prop :=
  exists io', r = Some io' /\ same_setup io io' /\ io_store io' = io_store io /\
    writes cfg P (io_image io) (io_image io').

Lemma phase_step_refl cfg P io : phase_step cfg P io (Some io).
Proof. exists io. split_and!; [done..|constructor]. Qed.

Lemma phase_step_io_ok cfg P io io' :
  io_ok cfg io -> same_setup io io' -> io_store io' = io_store io -> writes cfg P (io_image io) (io_image io') ->
  io_ok cfg io'.
Proof.
  intros [HL HS HO] (_ & Ho & _) Hst Hw. split; [by rewrite (writes_length _ _ _ _ Hw)|by rewrite Hst|by rewrite Ho].
Qed.

Lemma for_each_step {A} cfg P (f : A -> Io -> option Io) l io :
  (forall x io1, x ∈ l -> io_ok cfg io1 -> same_setup io io1 -> phase_step cfg P io1 (f x io1)) ->
  io_ok cfg io -> phase_step cfg P io (for_each f l io).
Proof.
  revert io. induction l as [|x l IH]; intros io Hf Hok; cbn [for_each]; [apply phase_step_refl|].
  destruct (Hf x io (list_elem_of_here _ _) Hok ltac:(done)) as (io1 & -> & Hs1 & Hst1 & Hw1). cbn [mbind option_bind].
  destruct (IH io1) as (io2 & -> & Hs2 & Hst2 & Hw2).
  - intros y io2 Hy Hok2 Hs2. apply Hf; [by constructor|done|by etrans].
  - by eapply phase_step_io_ok.
  - exists io2. split_and!; [done|by etrans|congruence|by eapply writes_app].
Qed.

Section Safety.
Context (cfg : ISlaveConfig) (sensor_domain : bool) (motor_manager : option bool).

(** A write through a pointer that may be null. *)
Lemma put_step P io (ptr : bool) (call : option domain -> option (Z * option domain))
    (f : RTEtherCATCycle -> RTEtherCATCycle) :
  (forall io, same_setup io (io_count f io)) ->
  (exists z, call None = Some (z, None)) ->
  (exists z dom', call (Some (io_image io)) = Some (z, Some dom') /\ writes cfg P (io_image io) dom') ->
  phase_step cfg P io
    ('(r, p) ← call (if ptr then Some (io_image io) else None);
     Some (if r =? 0 then io_count f (put_image p io) else put_image p io)).
Proof.
  intros Hf [z0 Hnone] (z & dom' & Hsome & Hw).
  destruct ptr; [rewrite Hsome|rewrite Hnone]; cbn [mbind option_bind put_image].
  - exists (if z =? 0 then io_count f (io_set_image dom' io) else io_set_image dom' io).
    split; [done|]. destruct (z =? 0); (split; [|split; [done|exact Hw]]); [|done].
    exact (Hf (io_set_image dom' io)).
  - exists (if z0 =? 0 then io_count f io else io). split; [done|].
    destruct (z0 =? 0); (split; [|split; [done|constructor]]); [|done]. exact (Hf io).
Qed.

Lemma output_step o io :
  io_ok cfg io -> output_reg_ok o -> phase_step cfg output_write io (readAndWriteOutput cfg sensor_domain o io).
Proof.
  intros [HL HS _] [Hch Hr]. unfold readAndWriteOutput, sensor_ptr.
  case_bool_decide; [|case_bool_decide; [|apply phase_step_refl]].
  - destruct (get_entry_defined (oi_data_key o) DT_INT32 (λ m, i32 (le_val (take 4 m))) (io_store io) HS) as [r Hr'].
    unfold getInt32. rewrite Hr'. cbn [mbind option_bind]. destruct r as [v|]; [|apply phase_step_refl].
    apply (put_step _ io sensor_domain (λ p, writeDigitalOutput cfg p _ _ _)); [done|by eexists|].
    by apply digital_output_writes.
  - destruct (get_entry_defined (oi_data_key o) DT_DOUBLE (λ m, le_val (take 8 m)) (io_store io) HS) as [r Hr'].
    unfold getDouble. rewrite Hr'. cbn [mbind option_bind]. destruct r as [v|]; [|apply phase_step_refl].
    apply (put_step _ io sensor_domain (λ p, writeAnalogOutput cfg p _ _ _)); [done|by eexists|].
    by apply analog_output_writes.
Qed.

Lemma getInt32_defined key s : store_ok s -> exists r, got (getInt32 key s) = Some r.
Proof. apply get_entry_defined. Qed.
Lemma getDouble_defined key s : store_ok s -> exists r, got (getDouble key s) = Some r.
Proof. apply get_entry_defined. Qed.

Lemma bldc_command_defined mi mode enable s :
  store_ok s -> exists c, bldc_command mi mode enable s = Some c /\
    forall x, c = Some x -> b_slave_id x = mi_slave_id mi.
Proof.
  intros HS. unfold bldc_command.
  destruct (getDouble_defined (velocity_key mi) s HS) as [v Hv], (getDouble_defined (torque_key mi) s HS) as [t Ht].
  destruct (enable && (mode =? VELOCITY)); [|destruct (enable && (mode =? TORQUE))];
    rewrite ?(got_map_got _ _ _ Hv), ?(got_map_got _ _ _ Ht); eexists; (split; [done|]).
  - destruct v; by intros ? [= <-].
  - destruct t; by intros ? [= <-].
  - by intros ? [= <-].
Qed.

Lemma servo_command_defined mi mode enable s :
  store_ok s -> exists c, servo_command mi mode enable s = Some c /\
    forall x, c = Some x -> s_slave_id x = mi_slave_id mi /\ s_max_velocity x = mi_max_velocity mi /\
                            s_max_torque x = mi_max_torque mi.
Proof.
  intros HS. unfold servo_command.
  destruct (getDouble_defined (velocity_key mi) s HS) as [v Hv], (getDouble_defined (torque_key mi) s HS) as [t Ht],
    (getDouble_defined (position_key mi) s HS) as [p Hp].
  destruct (enable && (mode =? POSITION));
    [rewrite Hp; destruct p; [rewrite Hv|]|destruct (enable && (mode =? VELOCITY)); [|destruct (enable && (mode =? TORQUE))]];
    rewrite ?(got_map_got _ _ _ Hv), ?(got_map_got _ _ _ Ht); eexists; (split; [done|]);
    try destruct v; try destruct t; by intros ? [= <-].
Qed.

Lemma motor_step motors mi io :
  io_ok cfg io -> mi ∈ motors ->
  exists word, phase_step cfg (motor_write (servo_vmax motors) (servo_tmax motors) (mi_slave_id mi) word) io
                 (readAndWriteMotorCommand cfg motor_manager mi io).
Proof.
  intros [HL HS _] Hmi. unfold readAndWriteMotorCommand.
  destruct motor_manager as [ptr|]; [|exists 0; apply phase_step_refl].
  destruct (getInt32_defined (control_mode_key mi) _ HS) as [[mode|] ->]; cbn [mbind option_bind];
    [|exists 0; apply phase_step_refl].
  destruct (getInt32_defined (enable_key mi) _ HS) as [[en|] ->]; cbn [mbind option_bind];
    [|exists 0; apply phase_step_refl].
  case_bool_decide as HB; [|case_bool_decide as HV; [|exists 0; apply phase_step_refl]].
  - destruct (bldc_command_defined mi (u8 mode) (negb (en =? 0)) _ HS) as ([c|] & -> & Hc); cbn [mbind option_bind];
      [|exists 0; apply phase_step_refl].
    rewrite <- (Hc c eq_refl). exists (bldc_control_word c).
    apply (put_step _ io ptr (λ p, writeBLDCCommand cfg p c) count_motor); [done|by eexists|].
    by apply bldc_command_writes.
  - destruct (servo_command_defined mi (u8 mode) (negb (en =? 0)) _ HS) as ([c|] & -> & Hc); cbn [mbind option_bind];
      [|exists 0; apply phase_step_refl].
    destruct (Hc c eq_refl) as (Hs & Hv & Ht). rewrite <- Hs. exists (servo_control_word c).
    apply (put_step _ io ptr (λ p, writeServoCommand cfg p c) count_motor); [done|by eexists|].
    apply servo_command_writes; [done|by exists mi|by exists mi].
Qed.

Lemma phase_step_mono (P Q : Z -> PDOMapping -> list Z -> Prop) io r :
  (forall s m bs, P s m bs -> Q s m bs) -> phase_step cfg P io r -> phase_step cfg Q io r.
Proof.
  intros HPQ (io' & ? & ? & ? & Hw). exists io'. split_and!; [done..|]. by eapply writes_mono.
Qed.

Lemma output_write_safe motors s m bs : output_write s m bs -> safe_for motors s m bs.
Proof. unfold safe_for, safe_bytes. intros [-> | ->]; done. Qed.

(** Steps 1 and 1b are defined and write only safe bytes. *)
Lemma prepare_step io :
  io_ok cfg io -> phase_step cfg (safe_for (motors_ (io_cycle io))) io (prepare cfg sensor_domain motor_manager io).
Proof.
  intros Hok. unfold prepare.
  destruct (for_each_step cfg (safe_for (motors_ (io_cycle io))) (readAndWriteOutput cfg sensor_domain)
    (outputs_ (io_cycle io)) io) as (io1 & -> & Hs1 & Hst1 & Hw1); [|done|].
  { intros o io1 Ho Hok1 Hs. eapply phase_step_mono; [apply output_write_safe|].
    apply output_step; [done|]. by eapply Forall_forall; [apply Hok|]. }
  cbn [mbind option_bind]. pose proof Hs1 as (_ & _ & Hmot & _). rewrite Hmot.
  destruct (for_each_step cfg (safe_for (motors_ (io_cycle io))) (readAndWriteMotorCommand cfg motor_manager)
    (motors_ (io_cycle io)) io1) as (io2 & -> & Hs2 & Hst2 & Hw2).
  - intros mi io2 Hmi Hok2 Hs. destruct (motor_step (motors_ (io_cycle io)) mi io2 Hok2 Hmi) as [word Hstep].
    eapply phase_step_mono; [|exact Hstep]. by intros ? ? ? (_ & _ & _ & ?).
  - by eapply phase_step_io_ok.
  - exists io2. split_and!; [done|by etrans|congruence|by eapply writes_app].
Qed.

Lemma set_entry_store_ok key bs ty now s :
  (length bs <= 32)%nat -> store_ok s -> store_ok (snd (set_entry key bs ty now s)).
Proof.
  intros Hl Hs. destruct (isValidKey key) eqn:Hk; [|unfold set_entry; by rewrite Hk].
  by destruct (set_entry_ok key bs ty now s Hs Hl Hk) as (e & s' & _ & -> & ? & _).
Qed.

Lemma setDouble_ok key bits now s : store_ok s -> store_ok (snd (setDouble key bits now s)).
Proof. apply set_entry_store_ok. rewrite le_bytes_length. lia. Qed.
Lemma setInt32_ok key v now s : store_ok s -> store_ok (snd (setInt32 key v now s)).
Proof. apply set_entry_store_ok. rewrite le_bytes_length. lia. Qed.

(** Reading a sensor is defined and changes only the store. *)
Lemma sensor_step active clock s io :
  io_ok cfg io -> inputs_typed cfg -> si_channel s < 32 ->
  exists io', readAndStoreSensor cfg sensor_domain active clock s io = Some io' /\
    same_setup io io' /\ io_image io' = io_image io /\ store_ok (io_store io').
Proof.
  intros [HL HS _] HT Hch.
  assert (Hdef : exists io', readAndStoreSensor cfg sensor_domain active clock s io = Some io' /\ store_ok (io_store io')).
  { unfold readAndStoreSensor, sensor_ptr. destruct sensor_domain.
    - destruct (readPositionSensor_defined _ _ HL HT active (clock 0%nat) (si_slave_id s) newPosition) as [[z1 d1] ->],
        (readVelocitySensor_defined _ _ HL HT active (clock 0%nat) (si_slave_id s) newVelocity) as [[z2 d2] ->],
        (readTorqueSensor_defined _ _ HL HT active (clock 0%nat) (si_slave_id s) newTorque) as [[z3 d3] ->],
        (readDigitalInput_defined _ _ HL active (clock 0%nat) (si_slave_id s) (si_channel s) newDI Hch) as [[z4 d4] ->],
        (readAnalogInput_defined _ _ HL active (clock 0%nat) (si_slave_id s) (si_channel s) newAI) as [[z5 d5] ->].
      cbn [mbind option_bind].
      repeat case_match; eexists; (split; [done|]); cbn [io_store io_count io_set_store];
        auto using setDouble_ok, setInt32_ok.
    - cbn [readPositionSensor readVelocitySensor readTorqueSensor readDigitalInput readAnalogInput mbind option_bind].
      repeat case_match; eexists; (split; [done|]); cbn [io_store io_count io_set_store];
        auto using setDouble_ok, setInt32_ok. }
  destruct Hdef as (io' & Hd & Hst). exists io'. destruct (sensor_setup _ _ _ _ _ _ _ Hd). done.
Qed.
End Safety.

(** What holds of the sensors holds of the numbered sensors. *)
Lemma Forall_imap_pair {A} (P : A -> Prop) (f : nat -> nat) l :
  Forall P l -> Forall (λ p, P (snd p)) (imap (λ i, pair (f i)) l).
Proof.
  intros H. revert f. induction H as [|x l Hx _ IH]; intros f; [constructor|].
  cbn [imap]. constructor; [done|]. exact (IH (f ∘ S)).
Qed.

(** Every output object of the image holds bytes that are safe for the motors. *)
Definition image_safe (cfg : ISlaveConfig) (motors : list MotorInfo) (dom : domain) : Prop :=
  forall s m, m ∈ getPDOMappings cfg s -> direction m = OUTPUT ->
    exists bs, entry m dom = Some bs /\ safe_for motors s m bs.

Lemma writes_safe cfg motors d1 d2 :
  layout_ok cfg (length d1) -> writes cfg (safe_for motors) d1 d2 -> image_safe cfg motors d1 -> image_safe cfg motors d2.
Proof.
  intros HL Hw Hs s m Hm Hd. destruct (writes_entry _ _ _ _ s m HL Hw Hm) as [-> |(bs & ? & _ & ?)]; eauto.
Qed.

Lemma safe_for_mono motors motors' s m bs :
  (forall mi, mi ∈ motors -> mi ∈ motors') -> safe_for motors s m bs -> safe_for motors' s m bs.
Proof.
  intros Hsub. unfold safe_for, safe_bytes. destruct (index m =? 0x1602); [intros H; exact H|].
  destruct (index m =? 0x1603); [|intros H; exact H]. intros (H2 & H4 & H5). split; [exact H2|].
  split; intros Hs Ht; [destruct (H4 Hs Ht) as [Hz|(v & (mi & ? & ?) & Hv)]|destruct (H5 Hs Ht) as [Hz|(v & (mi & ? & ?) & Hv)]].
  1, 3: left; exact Hz.
  all: right; exists v; (split; [exists mi; auto|exact Hv]).
Qed.

Lemma le_val_zeros n : le_val (replicate n 0) = 0.
Proof. induction n as [|n IH]; [done|]. cbn [replicate le_val]. by rewrite IH. Qed.

Lemma zero_image_safe cfg motors n : layout_ok cfg n -> image_safe cfg motors (replicate n 0).
Proof.
  intros HL s m Hm Hd. rewrite <- (length_replicate n 0) in HL.
  destruct (entry_inside _ _ _ _ HL Hm) as (bs & He & Hl). exists bs. split; [done|].
  assert (Hz : le_val bs = 0).
  { unfold entry, load in He. destruct (in_image _ _ _); [|done]. injection He as <-.
    rewrite drop_replicate, take_replicate. apply le_val_zeros. }
  unfold safe_for, safe_bytes. rewrite Hz.
  destruct (index m =? 0x1602); [split_and!; intros _ _; vm_compute; intuition discriminate|].
  destruct (index m =? 0x1603); [|done]. split; [intros _ _; vm_compute; reflexivity|]. split; by left.
Qed.

(** What the cycle needs of a master: in the states it may be in, its calls are
    defined, and receiving a frame leaves the output objects as they are (the
    frame brings back what was sent). *)
Class MasterLaws (cfg : ISlaveConfig) (M : Type) `{!IEtherCATMaster M} := {
  m_ok : M -> Prop;
  send_law m dom : m_ok m -> exists r m', ec_send m dom = Some (r, m') /\ m_ok m';
  receive_law m dom : m_ok m -> exists r m' dom', ec_receive m dom = Some (r, m', dom') /\ m_ok m' /\
    length dom' = length dom /\
    forall s mp, mp ∈ getPDOMappings cfg s -> direction mp = OUTPUT -> entry mp dom' = entry mp dom
}.

Section Runs.
Context {M B W : Type} (cfg : ISlaveConfig) `{HM : !IEtherCATMaster M} `{HML : !MasterLaws cfg M}
  `{HB : !IEventBus EtherCATErrorEvent B}.
Context (sensor_domain : bool) (motor_manager : option bool).
Hypothesis HT : inputs_typed cfg.
Implicit Types (w : World M B W).

Abbreviation exec := (execute cfg sensor_domain motor_manager).
Abbreviation prep := (prepare cfg sensor_domain motor_manager).

(** The registrations; outputs have to be representable. *)
Inductive setup : (RTEtherCATCycle -> RTEtherCATCycle) -> Prop :=
| setup_position s k1 k2 f : setup (registerPositionSensor s k1 k2 f)
| setup_sensor s k t : setup (registerSensor s k t)
| setup_do s ch k : ch < 32 -> setup (registerDigitalOutput s ch k)
| setup_ao s ch k lo hi : ch < 32 -> range_ok lo hi -> setup (registerAnalogOutput s ch k lo hi)
| setup_bldc s v t m e : setup (registerBLDCMotor s v t m e)
| setup_servo s p v t m e vm tm : setup (registerServoMotor s p v t m e vm tm).

(** What can happen: registrations, cycles, and changes of the store by others. *)
Inductive run : World M B W -> Prop :=
| run_start n s m bus machine : layout_ok cfg n -> store_ok s -> m_ok m ->
    run (mkWorld (mkIo newCycle (replicate n 0) s) m bus machine)
| run_register f w : run w -> setup f -> run (set_io (io_count f (w_io w)) w)
| run_store s w : run w -> store_ok s -> run (set_io (io_set_store s (w_io w)) w)
| run_execute i w w' : run w -> exec i w = Some w' -> run w'.

Record world_ok w : Prop := {
  wo_io : io_ok cfg (w_io w);
  wo_sensors : Forall (λ s, si_channel s < 32) (sensors_ (io_cycle (w_io w)));
  wo_master : m_ok (w_master w);
  wo_safe : image_safe cfg (motors_ (io_cycle (w_io w))) (io_image (w_io w))
}.

Lemma sensors_step active clock io :
  io_ok cfg io -> Forall (λ s, si_channel s < 32) (sensors_ (io_cycle io)) ->
  exists io', store_sensors cfg sensor_domain active clock io = Some io' /\
    same_setup io io' /\ io_image io' = io_image io /\ store_ok (io_store io').
Proof.
  intros Hok Hs. unfold store_sensors.
  assert (Hall : Forall (λ p, si_channel (snd p) < 32) (imap pair (sensors_ (io_cycle io)))).
  { by apply (Forall_imap_pair (λ s, si_channel s < 32) id). }
  revert Hall. generalize (imap pair (sensors_ (io_cycle io))). intros l Hl. clear Hs.
  revert io Hok. induction Hl as [|p l Hp Hl IH]; intros io Hok; cbn [for_each].
  { exists io. split_and!; try done. apply Hok. }
  destruct (sensor_step cfg sensor_domain active (clock (fst p)) (snd p) io Hok HT Hp) as (io1 & -> & H1 & H2 & H3).
  cbn [mbind option_bind]. destruct Hok as [HL HS HO].
  destruct (IH io1) as (io2 & -> & H4 & H5 & H6).
  - split; [by rewrite H2|done|]. destruct H1 as (_ & -> & _). done.
  - exists io2. split_and!; [done|by etrans|congruence|done].
Qed.

(** An error report changes nothing the invariant speaks of. *)
Lemma handle_error_ok t msg ms w : world_ok w -> world_ok (handleEtherCATError t msg ms w).
Proof. intros [[HL HS HO] Hs Hm Hsafe]. by split; [split|..]. Qed.

(** A cycle is defined; both the image it sends and the one it leaves are safe. *)
Lemma cycle_execute_ok i w :
  world_ok w ->
  exists io1 w', prep (w_io w) = Some io1 /\ exec i w = Some w' /\ world_ok w' /\
    image_safe cfg (motors_ (io_cycle (w_io w))) (io_image io1) /\
    motors_ (io_cycle (w_io w')) = motors_ (io_cycle (w_io w)).
Proof.
  intros Hw. pose proof Hw as [Hio Hs Hm Hsafe].
  destruct (prepare_step cfg sensor_domain motor_manager _ Hio) as (io1 & Hp & Hs1 & Hst1 & Hw1).
  pose proof (writes_safe _ _ _ _ (io_layout _ _ Hio) Hw1 Hsafe) as Hsafe1.
  pose proof (phase_step_io_ok _ _ _ _ Hio Hs1 Hst1 Hw1) as Hio1. pose proof Hs1 as (Hse & _ & Hmo & _).
  exists io1. unfold execute. destruct (in_store i); cbn [negb].
  2: { eexists. split_and!; [done|done|by apply handle_error_ok|done|done]. }
  rewrite Hp. cbn [mbind option_bind w_master set_io].
  destruct (send_law (w_master w) (io_image io1) Hm) as (r & m & -> & Hm1). cbn [mbind option_bind].
  destruct (negb (r =? 0)).
  { eexists. split_and!; [done|done|apply handle_error_ok|done|exact Hmo].
    split; cbn; [done|by rewrite Hse|done|by rewrite Hmo]. }
  cbn [w_master set_master]. destruct (receive_law m (io_image io1) Hm1) as (r2 & m2 & dom & -> & Hm2 & Hlen & Hkeep).
  cbn [mbind option_bind].
  assert (Hio2 : io_ok cfg (io_set_image dom io1)).
  { destruct Hio1 as [HL1 HS1 HO1]. split; cbn; [by rewrite Hlen|done..]. }
  assert (Hsafe2 : image_safe cfg (motors_ (io_cycle (w_io w))) dom).
  { intros s mp Hmp Hd. rewrite (Hkeep s mp Hmp Hd). by apply Hsafe1. }
  destruct (negb (r2 =? 0)).
  { eexists. split_and!; [done|done|apply handle_error_ok|done|exact Hmo].
    split; cbn; [done|by rewrite Hse|done|by rewrite Hmo]. }
  destruct (sensors_step (ec_isActive m2) (in_clock i) (io_set_image dom io1)) as (io3 & Heq & Hs3 & Hi3 & Hst3);
    [done|cbn; by rewrite Hse|].
  cbn [w_master set_io set_master]. rewrite Heq. cbn [mbind option_bind].
  destruct Hs3 as (Hse3 & Hou3 & Hmo3 & _). cbn in Hse3, Hou3, Hmo3, Hi3.
  eexists. split_and!; [done|done| |done|cbn; congruence].
  destruct Hio2 as [HL2 HS2 HO2]. split; cbn; [split; cbn|..].
  - by rewrite Hi3.
  - done.
  - rewrite Hou3. apply Hio1.
  - by rewrite Hse3, Hse.
  - done.
  - by rewrite Hmo3, Hmo, Hi3.
Qed.

Lemma registration_ok f w : setup f -> world_ok w -> world_ok (set_io (io_count f (w_io w)) w).
Proof.
  intros Hf [[HL HS HO] Hs Hm Hsafe].
  assert (Hmono : forall mi, image_safe cfg (motors_ (io_cycle (w_io w)) ++ [mi]) (io_image (w_io w))).
  { intros mi s m Hmp Hd. destruct (Hsafe s m Hmp Hd) as (bs & ? & ?). exists bs. split; [done|].
    eapply safe_for_mono; [|done]. intros ? ?. by apply elem_of_app; left. }
  destruct Hf; (split; [split|..]); cbn; try done; try (apply Forall_app; split; [done|]; apply Forall_singleton);
    try done; try (split; [done|]); try done; try apply Hmono; vm_compute; done.
Qed.

Lemma run_world_ok w : run w -> world_ok w.
Proof.
  induction 1 as [n s m bus machine HL HS Hm|f w _ IH Hf|s w _ IH Hs|i w w' _ IH Hex].
  - split; cbn; [split; cbn; [by rewrite length_replicate|done|done]|done|done|by apply zero_image_safe].
  - by apply registration_ok.
  - destruct IH as [[HL HS HO] ? ? ?]. by split; [split|..].
  - destruct (cycle_execute_ok i w IH) as (io1 & w1 & _ & Heq & ? & _). rewrite Hex in Heq. by injection Heq as ->.
Qed.

(** C9: in every run with a well-formed layout, typed inputs, output channels
    below 32, analog ranges within 16 bits, a well-formed store and a master
    that leaves the outputs alone when it receives, whatever is registered,
    stored and received: every drive target in the image that a cycle sends, and
    in the one it leaves behind, is within the limits: BLDC velocities between -10000 and 10000, BLDC torques between -100
    and 100, servo positions between -10 and 10, servo velocities and torques
    between 0 and a limit registered for the slave; and the cycle is defined. *)
Theorem drive_targets_stay_within_limits i w :
  run w ->
  exists io1 w', prep (w_io w) = Some io1 /\ exec i w = Some w' /\
    image_safe cfg (motors_ (io_cycle (w_io w))) (io_image io1) /\
    image_safe cfg (motors_ (io_cycle (w_io w'))) (io_image (w_io w')).
Proof.
  intros Hr%run_world_ok. destruct (cycle_execute_ok i w Hr) as (io1 & w' & ? & ? & [_ _ _ ?] & ? & _).
  by exists io1, w'.
Qed.
End Runs.

(** ** Control words *)

(** The control word of the complete and valid command the store holds for a
    motor. *)
Definition motor_word (mi : MotorInfo) (s : RTDataStore) : option Z :=
  match getInt32 (control_mode_key mi) s, getInt32 (enable_key mi) s with
  | Got mode, Got en =>
    if bool_decide (motor_type mi = "BLDC") then
      match bldc_command mi (u8 mode) (negb (en =? 0)) s with
      | Some (Some c) => if bldc_isValid c then Some (bldc_control_word c) else None
      | _ => None
      end
    else if bool_decide (motor_type mi = "SERVO") then
      match servo_command mi (u8 mode) (negb (en =? 0)) s with
      | Some (Some c) => if servo_isValid c then Some (servo_control_word c) else None
      | _ => None
      end
    else None
  | _, _ => None
  end.

(** A motor that is not enabled, or whose mode is DISABLED, has the word 0. *)
Lemma disabled_word mi s mode en :
  motor_type mi = "BLDC" \/ motor_type mi = "SERVO" ->
  getInt32 (control_mode_key mi) s = Got mode -> getInt32 (enable_key mi) s = Got en ->
  en = 0 \/ u8 mode = DISABLED -> motor_word mi s = Some 0.
Proof.
  intros Hty Hm He Hoff. unfold motor_word. rewrite Hm, He.
  unfold bldc_command, servo_command, bldc_isValid, servo_isValid, bldc_control_word, servo_control_word.
  destruct Hoff as [-> | ->]; destruct Hty as [-> | ->]; cbn; rewrite ?andb_false_r; cbn; try done.
  all: destruct (negb (en =? 0)); reflexivity.
Qed.

(** The word a drive is to be sent, by the meaning of its bits: bit 0 enables the
    drive, the bits above it are the mode (1 position, 2 velocity, 3 torque), so
    3, 5 and 7; all bits are 0 when the motor is off.  It is given when the
    store has the mode, the enable flag and the target the mode needs, and the
    target is within the limits: BLDC velocities up to 10000 and torques up to
    100 either way, servo positions up to 10 either way, servo velocities and
    torques from 0 to the limits registered for the motor. *)
Definition stored (k : nat) (s : RTDataStore) : option Z :=
  match getDouble k s with Got x => Some x | _ => None end.

Definition between (lo hi x : Z) : bool := double_le lo x && double_le x hi.

Definition commanded_word (mi : MotorInfo) (s : RTDataStore) : option Z :=
  match getInt32 (control_mode_key mi) s, getInt32 (enable_key mi) s with
  | Got mode, Got en =>
    let off := (en =? 0) || (mode mod 256 =? 0) in
    if bool_decide (motor_type mi = "BLDC") then
      if off then Some 0 else
      match mode mod 256 with
      | 2 => v ← stored (velocity_key mi) s;
             if between (double_of_int (-10000)) (double_of_int 10000) v then Some 5 else None
      | 3 => t ← stored (torque_key mi) s;
             if between (double_of_int (-100)) (double_of_int 100) t then Some 7 else None
      | _ => None
      end
    else if bool_decide (motor_type mi = "SERVO") then
      if off then Some 0 else
      match mode mod 256 with
      | 1 => p ← stored (position_key mi) s;
             let v := default 0 (stored (velocity_key mi) s) in
             if between (double_of_int (-10)) (double_of_int 10) p && between 0 (mi_max_velocity mi) v
             then Some 3 else None
      | 2 => v ← stored (velocity_key mi) s; if between 0 (mi_max_velocity mi) v then Some 5 else None
      | 3 => t ← stored (torque_key mi) s; if between 0 (mi_max_torque mi) t then Some 7 else None
      | _ => None
      end
    else None
  | _, _ => None
  end.

Lemma bldc_commanded mi s mode en word :
  store_ok s -> motor_type mi = "BLDC" ->
  getInt32 (control_mode_key mi) s = Got mode -> getInt32 (enable_key mi) s = Got en ->
  commanded_word mi s = Some word -> motor_word mi s = Some word.
Proof.
  intros HS Hty Hm He Hw.
  destruct (decide (en = 0 \/ u8 mode = DISABLED)) as [Hoff|Hon].
  { unfold commanded_word in Hw. rewrite Hm, He, Hty in Hw. cbn in Hw.
    assert ((en =? 0) || (mode mod 256 =? 0) = true) as E.
    { destruct Hoff as [-> |H]; [done|]. apply orb_true_intro. right. by apply Z.eqb_eq. }
    rewrite E in Hw. injection Hw as <-. eapply disabled_word; eauto. }
  assert (Hen : (en =? 0) = false) by (apply Z.eqb_neq; tauto).
  assert (Hmd : (mode mod 256 =? 0) = false) by (apply Z.eqb_neq; intros H; apply Hon; by right).
  unfold commanded_word in Hw. unfold motor_word, u8, wrap. change (2 ^ 8) with 256. rewrite Hm, He, Hty in *.
  rewrite Hen, Hmd in Hw. rewrite Hen. cbn -[Z.modulo] in Hw |- *. unfold stored in Hw.
  set (k := mode mod 256) in *. clearbody k.
  destruct k as [|[[q|q|]|[q|q|]|]|q]; try done; unfold bldc_command; cbn -[getDouble];
    (destruct (getDouble _ s); [|done..]); cbn in Hw |- *; unfold bldc_isValid, within; cbn;
    unfold between in Hw; by destruct (double_le _ _ && double_le _ _).
Qed.

Lemma servo_commanded mi s mode en word :
  store_ok s -> motor_type mi = "SERVO" ->
  getInt32 (control_mode_key mi) s = Got mode -> getInt32 (enable_key mi) s = Got en ->
  commanded_word mi s = Some word -> motor_word mi s = Some word.
Proof.
  intros HS Hty Hm He Hw.
  destruct (decide (en = 0 \/ u8 mode = DISABLED)) as [Hoff|Hon].
  { unfold commanded_word in Hw. rewrite Hm, He, Hty in Hw. cbn in Hw.
    assert ((en =? 0) || (mode mod 256 =? 0) = true) as E.
    { destruct Hoff as [-> |H]; [done|]. apply orb_true_intro. right. by apply Z.eqb_eq. }
    rewrite E in Hw. injection Hw as <-. eapply disabled_word; eauto. }
  assert (Hen : (en =? 0) = false) by (apply Z.eqb_neq; tauto).
  assert (Hmd : (mode mod 256 =? 0) = false) by (apply Z.eqb_neq; intros H; apply Hon; by right).
  destruct (getDouble_defined (velocity_key mi) s HS) as [v Hv].
  unfold commanded_word in Hw. unfold motor_word, u8, wrap. change (2 ^ 8) with 256. rewrite Hm, He, Hty in *.
  rewrite Hen, Hmd in Hw. rewrite Hen.
  rewrite (bool_decide_eq_false_2 ("SERVO" = "BLDC")), bool_decide_eq_true_2 in Hw |- * by done.
  cbn -[Z.modulo double_of_int] in Hw |- *. unfold stored in Hw.
  set (k := mode mod 256) in *. clearbody k. unfold between in Hw.
  destruct k as [|[[q|q|]|[q|q|]|]|q]; try done; unfold servo_command; cbn -[getDouble].
  - destruct (getDouble (torque_key mi) s); [|done..]. cbn in Hw |- *. unfold servo_isValid, within. cbn.
    by destruct (double_le _ _ && double_le _ _).
  - destruct (getDouble (velocity_key mi) s); [|done..]. cbn in Hw |- *. unfold servo_isValid, within. cbn.
    by destruct (double_le _ _ && double_le _ _).
  - destruct (getDouble (position_key mi) s) as [x| |]; [|done..]. cbn -[double_of_int] in Hw |- *. rewrite Hv.
    cbn -[double_of_int].
    assert (default 0 match getDouble (velocity_key mi) s with Got x => Some x | _ => None end = default 0 v) as E
      by (revert Hv; destruct (getDouble (velocity_key mi) s); cbn; by intros [= <-]).
    rewrite E in Hw. unfold servo_isValid, within. cbn -[double_of_int]. clear E Hv. revert Hw.
    generalize (double_of_int (-10)) (double_of_int 10) minus_TWO_PI TWO_PI. intros a b c d.
    destruct (double_le a x && double_le x b); [|done]. rewrite orb_true_r.
    by destruct (double_le 0 _ && double_le _ _).
Qed.

(** The word in the image is the one commanded. *)
Lemma commanded_motor_word mi s word :
  store_ok s -> commanded_word mi s = Some word -> motor_word mi s = Some word.
Proof.
  intros HS Hw. pose proof Hw as Hw'. unfold commanded_word in Hw'.
  destruct (getInt32 (control_mode_key mi) s) as [mode| |] eqn:Hm; try done.
  destruct (getInt32 (enable_key mi) s) as [en| |] eqn:He; try done.
  destruct (bool_decide_reflect (motor_type mi = "BLDC")) as [E|E]; [by eapply bldc_commanded|].
  destruct (bool_decide_reflect (motor_type mi = "SERVO")) as [E2|E2]; [by eapply servo_commanded|done].
Qed.

Section Words.
Context (cfg : ISlaveConfig).
Abbreviation motor_cmd := (readAndWriteMotorCommand cfg (Some true)).

(** The command of a motor puts its word into the image. *)
Lemma motor_step_word mi io io' m word :
  io_ok cfg io -> motor_cmd mi io = Some io' -> control_object cfg (mi_slave_id mi) = Some m ->
  motor_word mi (io_store io) = Some word -> entry m (io_image io') = Some (le_bytes 2 word).
Proof.
  intros [HL HS _] Hex Hc Hw. unfold motor_word in Hw. unfold readAndWriteMotorCommand in Hex.
  destruct (getInt32 (control_mode_key mi) (io_store io)) as [mode| |]; try done.
  destruct (getInt32 (enable_key mi) (io_store io)) as [en| |]; try done.
  cbn [got mbind option_bind] in Hex.
  destruct (bool_decide (motor_type mi = "BLDC")); [|destruct (bool_decide (motor_type mi = "SERVO")); [|done]].
  - destruct (bldc_command_defined mi (u8 mode) (negb (en =? 0)) _ HS) as (c & Heq & Hs). rewrite Heq in *.
    destruct c as [c|]; [|done]. destruct (bldc_isValid c) eqn:Hv; [|done]. injection Hw as <-.
    cbn [mbind option_bind] in Hex. destruct (writeBLDCCommand _ _ _) as [[z ptr]|] eqn:Hcmd; [|done].
    cbn [mbind option_bind] in Hex. unfold writeBLDCCommand in Hcmd. rewrite Hv in Hcmd. cbn [negb] in Hcmd.
    rewrite <- (Hs c eq_refl) in Hc.
    destruct (command_writes_word (servo_vmax []) (servo_tmax []) cfg _ _ _ _ _ _ _ HL Hc
      (fun dom1 Hl => bldc_target_writes _ _ cfg dom1 c _ ltac:(by rewrite Hl) Hv) Hcmd) as (dom' & -> & He).
    injection Hex as <-. by destruct (z =? 0).
  - destruct (servo_command_defined mi (u8 mode) (negb (en =? 0)) _ HS) as (c & Heq & Hs). rewrite Heq in *.
    destruct c as [c|]; [|done]. destruct (servo_isValid c) eqn:Hv; [|done]. injection Hw as <-.
    cbn [mbind option_bind] in Hex. destruct (writeServoCommand _ _ _) as [[z ptr]|] eqn:Hcmd; [|done].
    cbn [mbind option_bind] in Hex. unfold writeServoCommand in Hcmd. rewrite Hv in Hcmd. cbn [negb] in Hcmd.
    rewrite <- (proj1 (Hs c eq_refl)) in Hc.
    destruct (command_writes_word (λ _ v, v = s_max_velocity c) (λ _ t, t = s_max_torque c) cfg _ _ _ _ _ _ _ HL Hc
      (fun dom1 Hl => servo_target_writes _ _ cfg dom1 c _ ltac:(by rewrite Hl) Hv eq_refl eq_refl) Hcmd)
      as (dom' & -> & He).
    injection Hex as <-. by destruct (z =? 0).
Qed.

(** The commands of motors at other slaves leave it there. *)
Lemma motors_keep_word l s m io io' :
  io_ok cfg io -> control_object cfg s = Some m -> Forall (λ x, mi_slave_id x <> s) l ->
  for_each motor_cmd l io = Some io' -> entry m (io_image io') = entry m (io_image io).
Proof.
  intros Hok Hc Hl. revert io Hok. induction Hl as [|x l Hx _ IH]; intros io Hok; cbn [for_each].
  { by intros [= <-]. }
  destruct (motor_step cfg (Some true) [x] x io Hok (list_elem_of_here _ _)) as (word & io1 & -> & Hs & Hst & Hw).
  cbn [mbind option_bind]. intros Hrest. rewrite (IH io1); [|by eapply phase_step_io_ok|done].
  eapply other_write_keeps_word; [apply Hok|exact Hc|by apply not_eq_sym|exact Hw].
Qed.

Lemma motors_word l mi m word io io' :
  io_ok cfg io -> NoDup (mi_slave_id <$> l) -> mi ∈ l -> control_object cfg (mi_slave_id mi) = Some m ->
  motor_word mi (io_store io) = Some word -> for_each motor_cmd l io = Some io' ->
  entry m (io_image io') = Some (le_bytes 2 word).
Proof.
  intros Hok Hnd Hin Hc Hw. revert io Hok Hw. induction l as [|x l IH]; intros io Hok Hw.
  { by apply not_elem_of_nil in Hin. }
  cbn [for_each]. cbn [fmap list_fmap] in Hnd. apply NoDup_cons in Hnd as [Hx Hnd].
  destruct (motor_step cfg (Some true) [x] x io Hok (list_elem_of_here _ _)) as (w1 & io1 & H1 & Hs & Hst & Hw1).
  rewrite H1. cbn [mbind option_bind]. intros Hrest.
  assert (Hok1 : io_ok cfg io1) by (by eapply phase_step_io_ok).
  apply elem_of_cons in Hin as [-> |Hin].
  - rewrite (motors_keep_word l (mi_slave_id x) m io1 io'); [|done..| |done].
    + by apply (motor_step_word x io io1).
    + apply Forall_forall. intros y Hy Heq. apply Hx. rewrite <- Heq. by apply list_elem_of_fmap_2.
  - eapply (IH Hnd Hin io1); [done|by rewrite Hst|done].
Qed.
End Words.


(** ** Sensors *)

Definition sensor_keys (s : SensorInfo) : list nat := [si_data_key s; si_data_key2 s].

Lemma set_entry_lookup key bs ty now s k : k <> key -> snd (set_entry key bs ty now s) !! k = s !! k.
Proof. intros Hne. unfold set_entry. destruct (negb _); [done|]. cbn. by apply list_lookup_alter_ne. Qed.

Lemma getDouble_lookup k s s' : s' !! k = s !! k -> getDouble k s' = getDouble k s.
Proof. intros Heq. unfold getDouble, get_entry. by rewrite Heq. Qed.

Lemma set_get_double key bits now s :
  store_ok s -> isValidKey key = true -> in_u64 bits ->
  getDouble key (snd (setDouble key bits now s)) = Got bits.
Proof.
  intros Hs Hk Hb.
  destruct (set_entry_ok key (le_bytes 8 bits) DT_DOUBLE now s Hs) as (e & s' & He & Heq & [_ Hall] & Hl & _);
    [by rewrite le_bytes_length; lia|done|].
  unfold setDouble. rewrite Heq. cbn [snd]. unfold getDouble, get_entry. rewrite Hk, Hl. cbn [negb].
  destruct (Forall_lookup_1 _ _ _ _ Hall Hl) as (_ & _ & ->). cbn [type write_entry value].
  rewrite bool_decide_eq_true_2 by done. f_equal.
  rewrite take_overwrite by apply le_bytes_length. rewrite le_val_bytes. by apply Z.mod_small.
Qed.

Section Sensors.
Context (cfg : ISlaveConfig).
Hypothesis HT : inputs_typed cfg.

(** A sensor writes only its own keys. *)
Lemma sensor_lookup sd active clock s io io' k :
  readAndStoreSensor cfg sd active clock s io = Some io' -> k ∉ sensor_keys s -> io_store io' !! k = io_store io !! k.
Proof.
  intros H Hk. unfold sensor_keys in Hk.
  assert (H1 : k <> si_data_key s) by set_solver. assert (H2 : k <> si_data_key2 s) by set_solver. clear Hk.
  unfold readAndStoreSensor, setDouble, setInt32 in H. phase; try done;
    cbn [io_store io_count io_set_store]; repeat case_match; rewrite ?set_entry_lookup by done; done.
Qed.

Lemma sensors_lookup sd active (clock : nat -> nat -> Z) l io io' k :
  for_each (λ p, readAndStoreSensor cfg sd active (clock (fst p)) (snd p)) l io = Some io' ->
  Forall (λ p, k ∉ sensor_keys (snd p)) l -> io_store io' !! k = io_store io !! k.
Proof.
  intros H Hl. revert io H. induction Hl as [|p l Hp _ IH]; intros io; cbn [for_each].
  { by intros [= <-]. }
  destruct (readAndStoreSensor _ _ _ _ _ io) as [io1|] eqn:H1; [|done]. cbn [mbind option_bind]. intros H2.
  rewrite (IH io1 H2). by eapply sensor_lookup.
Qed.

(** The position object of a slave, scaled, under the key of its sensor. *)
Lemma position_step active clock s io off vel c :
  io_ok cfg io -> sensor_type s = "POSITION" -> active = true -> isValidKey (si_data_key s) = true ->
  last_offsets 0x1A00 (getPDOMappings cfg (si_slave_id s)) = (Some off, vel) ->
  readInt32 (io_image io) off = Some c ->
  exists io', readAndStoreSensor cfg true active clock s io = Some io' /\
    getDouble (si_data_key s) (io_store io') = Got (double_mul (double_of_int c) (scale_factor s)).
Proof.
  intros Hok Hty -> Hk Ho Hc.
  destruct (readPositionSensor_defined cfg _ (io_layout _ _ Hok) HT true (clock 0%nat) (si_slave_id s) newPosition) as [rd Hrd].
  unfold readAndStoreSensor, sensor_ptr. rewrite bool_decide_eq_true_2 by done. rewrite Hrd.
  unfold readPositionSensor in Hrd. rewrite Ho in Hrd.
  rewrite bool_decide_eq_false_2 in Hrd by (intros Hnil; rewrite Hnil in Ho; done).
  rewrite Hc in Hrd. cbn [mbind option_bind] in Hrd.
  destruct (match vel with Some _ => _ | None => _ end) as [v|]; [|done]. cbn [mbind option_bind] in Hrd.
  injection Hrd as <-. cbn [mbind option_bind p_valid p_position p_velocity Z.eqb andb].
  eexists. split; [done|]. cbn [io_store io_count io_set_store].
  pose proof (set_get_double (si_data_key s) (double_mul (double_of_int c) (scale_factor s)) (clock 1%nat) (io_store io)
    (io_store_ok _ _ Hok) Hk (double_mul_bound _ _)) as Hg.
  destruct (Nat.eqb_spec (si_data_key2 s) (si_data_key s)) as [|Hne]; cbn [negb]; [done|].
  rewrite <- Hg. apply getDouble_lookup. by apply set_entry_lookup, not_eq_sym.
Qed.

Lemma sensors_position active (clock : nat -> nat -> Z) l1 j s l2 io io' off vel c :
  io_ok cfg io -> Forall (λ p, si_channel (snd p) < 32) (l1 ++ (j, s) :: l2) ->
  sensor_type s = "POSITION" -> active = true -> isValidKey (si_data_key s) = true ->
  last_offsets 0x1A00 (getPDOMappings cfg (si_slave_id s)) = (Some off, vel) ->
  readInt32 (io_image io) off = Some c ->
  Forall (λ p, si_data_key s ∉ sensor_keys (snd p)) l2 ->
  for_each (λ p, readAndStoreSensor cfg true active (clock (fst p)) (snd p)) (l1 ++ (j, s) :: l2) io = Some io' ->
  getDouble (si_data_key s) (io_store io') = Got (double_mul (double_of_int c) (scale_factor s)).
Proof.
  intros Hok Hch Hty Hact Hk Ho Hc Hl2. revert io Hok Hc. induction l1 as [|p l1 IH]; intros io Hok Hc;
    cbn [app for_each] in *; apply Forall_cons in Hch as [Hp Hch].
  - destruct (position_step active (clock j) s io off vel c Hok Hty Hact Hk Ho Hc) as (io1 & H1 & Hg).
    cbn [fst snd]. rewrite H1. cbn [mbind option_bind]. intros Hrest. rewrite <- Hg. apply getDouble_lookup.
    by eapply sensors_lookup.
  - destruct (sensor_step cfg true active (clock (fst p)) (snd p) io Hok HT Hp) as (io1 & H1 & Hs1 & Hi1 & Hst1).
    rewrite H1. cbn [mbind option_bind]. apply (IH Hch); [|by rewrite Hi1].
    destruct Hok as [HL HS HO]. split; [by rewrite Hi1|done|]. destruct Hs1 as (_ & -> & _). done.
Qed.
End Sensors.

(** After a cycle that sends and receives, with an active master, the position
    object of a slave stands in the store, scaled, under the key of its sensor,
    unless a later sensor writes the same key. *)
Theorem position_reaches_the_store {M B W} (cfg : ISlaveConfig) `{HM : !IEtherCATMaster M}
    `{HML : !MasterLaws cfg M} `{HB : !IEventBus EtherCATErrorEvent B} motor_manager (w : World M B W)
    i io1 m1 m2 dom sens1 s sens2 off vel c :
  inputs_typed cfg -> run cfg true motor_manager w -> in_store i = true ->
  prepare cfg true motor_manager (w_io w) = Some io1 ->
  ec_send (w_master w) (io_image io1) = Some (0, m1) -> ec_receive m1 (io_image io1) = Some (0, m2, dom) ->
  ec_isActive m2 = true ->
  sensors_ (io_cycle (w_io w)) = sens1 ++ s :: sens2 ->
  sensor_type s = "POSITION" -> isValidKey (si_data_key s) = true ->
  Forall (λ t, si_data_key s ∉ sensor_keys t) sens2 ->
  last_offsets 0x1A00 (getPDOMappings cfg (si_slave_id s)) = (Some off, vel) ->
  readInt32 dom off = Some c ->
  exists w', execute cfg true motor_manager i w = Some w' /\
    getDouble (si_data_key s) (io_store (w_io w')) = Got (double_mul (double_of_int c) (scale_factor s)).
Proof.
  intros HT Hr Hst Hp Hsend Hrecv Hact Hsens Hty Hk Hother Ho Hc.
  apply run_world_ok in Hr as [Hio Hch Hm Hsafe]; [|done].
  destruct (prepare_step cfg true motor_manager _ Hio) as (io1' & Hp' & Hs1 & Hst1 & Hw1).
  rewrite Hp in Hp'. injection Hp' as <-. pose proof (phase_step_io_ok _ _ _ _ Hio Hs1 Hst1 Hw1) as Hio1.
  pose proof Hs1 as (Hse & _). destruct (send_law (w_master w) (io_image io1) Hm) as (r & m1' & Heq & Hm1).
  rewrite Hsend in Heq. injection Heq as <- <-.
  destruct (receive_law m1 (io_image io1) Hm1) as (r & m2' & dom' & Heq & _ & Hlen & _).
  rewrite Hrecv in Heq. injection Heq as <- <- <-.
  assert (Hio2 : io_ok cfg (io_set_image dom io1)).
  { destruct Hio1 as [HL1 HS1 HO1]. split; cbn; [by rewrite Hlen|done..]. }
  destruct (sensors_step cfg true HT true (in_clock i) (io_set_image dom io1)) as (io3 & Heq & _);
    [done|cbn; by rewrite Hse|].
  unfold execute. rewrite Hst, Hp. cbn [negb mbind option_bind w_master set_io]. rewrite Hsend.
  cbn [negb mbind option_bind w_master set_master Z.eqb]. rewrite Hrecv.
  cbn [negb mbind option_bind w_master set_io set_master Z.eqb]. rewrite Hact, Heq. cbn [mbind option_bind].
  eexists. split; [done|]. cbn [w_io set_io io_count io_store].
  unfold store_sensors in Heq. cbn [io_cycle io_set_image] in Heq. rewrite Hse, Hsens, imap_app in Heq.
  cbn [imap] in Heq.
  eapply (sensors_position cfg HT true (in_clock i) _ _ s _ (io_set_image dom io1)); [done| |done..| |exact Heq].
  - rewrite Hsens in Hch. apply Forall_app in Hch as [H1 [H2 H3]%Forall_cons].
    apply Forall_app. split; [by apply (Forall_imap_pair (λ s, si_channel s < 32) id)|].
    constructor; [done|]. by apply (Forall_imap_pair (λ s, si_channel s < 32) (λ n, length sens1 + S n)%nat).
  - by apply (Forall_imap_pair (λ t, si_data_key s ∉ sensor_keys t) (λ n, length sens1 + S n)%nat).
Qed.

(** ** The real master keeps the laws *)

(** What the library promises: processing a received frame leaves the output
    objects as they were sent. *)
Class EcrtLaws (cfg : ISlaveConfig) (L H : Type) `{!Ecrt L H} := process_law :
  forall dom (l : L), length (fst (ecrt_domain_process dom l)) = length dom /\
    forall s mp, mp ∈ getPDOMappings cfg s -> direction mp = OUTPUT ->
      entry mp (fst (ecrt_domain_process dom l)) = entry mp dom.

Lemma receive_image {L H} `{HE : !Ecrt L H} cs m (l : L) dom :
  master_ok cs m -> exists r m' l' dom', master_receive true m l dom = Some (r, m', l', dom') /\
    master_ok (cs ++ [CReceive dom]) m' /\ (dom' = dom \/ exists l1, dom' = fst (ecrt_domain_process dom l1)).
Proof.
  intros Hok. destruct (receive_ok cs m l dom Hok) as (r & m' & l' & Heq & Hok').
  destruct (master_receive true m l dom) as [[[[r1 m1] l1] dom1]|] eqn:Hr; [|done].
  cbn [mbind option_bind] in Heq. injection Heq as <- <- <-. exists r1, m1, l1, dom1. split_and!; [done..|].
  unfold master_receive in Hr. cbn [negb] in Hr.
  destruct (negb (active_ m)); [injection Hr as <- <- <- <-; by left|].
  destruct (negb (master_ m && domain_ m)); [done|].
  destruct (ecrt_master_receive l) as [[] l2]; cbn [negb] in Hr; [|injection Hr as <- <- <- <-; by left].
  destruct (ecrt_domain_process dom l2) as [d3 l3] eqn:Hd. injection Hr as _ _ _ <-. right. exists l2. by rewrite Hd.
Qed.

#[export] Instance ethercat_master_laws {L H} `{HE : !Ecrt L H} cfg `{HL : !EcrtLaws cfg L H} :
  MasterLaws cfg (EtherCATMaster H * L) (IEtherCATMaster0 := ethercat_master true).
Proof.
  refine {| m_ok p := exists cs, master_ok cs (fst p) |}.
  - intros [m l] dom [cs Hok]. destruct (send_ok cs m l dom Hok) as (r & m' & l' & Heq & Hok').
    cbn [ec_send ethercat_master fst snd] in *. rewrite Heq. exists r, (m', l'). split; [done|]. by eexists.
  - intros [m l] dom [cs Hok]. destruct (receive_image cs m l dom Hok) as (r & m' & l' & dom' & Heq & Hok' & Hd).
    cbn [ec_receive ethercat_master fst snd] in *. rewrite Heq. exists r, (m', l'), dom'. split; [done|]. split; [by eexists|].
    destruct Hd as [-> |[l1 ->]]; [done|]. apply process_law.
Defined.

(** ** Runs of the model *)

#[export] Instance test_ecrt_laws cfg : EcrtLaws cfg TestLib Z.
Proof. intros dom l. done. Qed.

(** An active master on the test library. *)
Definition test_calls : list MasterCall := [CInitialize; CConfigure; CActivate].
Definition test_master : EtherCATMaster Z * TestLib :=
  default (newEtherCATMaster 0 None, mkTestLib 0 [])
    (run_calls true test_calls (newEtherCATMaster 0 (Some one_slave)) (mkTestLib 0 [])).

Lemma test_master_ok : exists cs, master_ok cs (fst test_master).
Proof.
  exists test_calls. apply (reachable_ok 0 (Some one_slave) (mkTestLib 0 []) test_calls _ (snd test_master)).
  eapply (run_calls_reachable true 0 (Some one_slave) (mkTestLib 0 []) [] test_calls); [apply reach_new|].
  vm_compute. reflexivity.
Qed.

Abbreviation TestWorld := (World (EtherCATMaster Z * TestLib) (list EtherCATErrorEvent) unit).

(** The velocity 500 for the BLDC drive of slave 1 under keys 0 to 3, and its
    mode and enable flag. *)
Definition test_store (mode enable : Z) : RTDataStore :=
  snd (setInt32 3 enable 0 (snd (setInt32 2 mode 0 (snd (setDouble 0 (double_of_int 500) 0 newRTDataStore))))).

Lemma test_store_ok mode enable : store_ok (test_store mode enable).
Proof. apply setInt32_ok, setInt32_ok, setDouble_ok, new_store_ok. Qed.

Definition test_start : TestWorld :=
  mkWorld (mkIo newCycle (replicate 64 0) newRTDataStore) test_master None None.
Definition test_registered : TestWorld :=
  set_io (io_count (registerBLDCMotor 1 0 1 2 3) (w_io test_start)) test_start.
Definition test_world (mode enable : Z) : TestWorld :=
  set_io (io_set_store (test_store mode enable) (w_io test_registered)) test_registered.

Lemma test_world_run mode enable :
  run sample_config true (Some true) (HM := ethercat_master true) (test_world mode enable).
Proof.
  apply run_store; [|apply test_store_ok]. apply run_register; [|constructor].
  apply run_start; [apply sample_layout|apply new_store_ok|apply test_master_ok].
Qed.

Definition test_input : CycleInput := mkCycleInput true (λ _ _, 0) 0.

Lemma drive_targets_stay_within_limits_witness :
  exists w', execute sample_config true (Some true) (HM := ethercat_master true) test_input (test_world 2 1) = Some w' /\
    readInt32 (io_image (w_io w')) 4 = Some 500 /\
    image_safe sample_config (motors_ (io_cycle (w_io w'))) (io_image (w_io w')).
Proof.
  destruct (drive_targets_stay_within_limits sample_config (HM := ethercat_master true) true (Some true) sample_typed
    test_input (test_world 2 1) (test_world_run 2 1)) as (io1 & w' & _ & Heq & _ & Hsafe).
  exists w'. split; [exact Heq|]. split; [|exact Hsafe].
  assert (Hv : (λ w, readInt32 (io_image (w_io w)) 4) <$>
    execute sample_config true (Some true) (HM := ethercat_master true) test_input (test_world 2 1) = Some (Some 500))
    by (vm_compute; reflexivity).
  rewrite Heq in Hv. by injection Hv.
Defined.


(** A master that fails as told and receives a given encoder count. *)
Record ScriptMaster := mkScript { sc_results : list Z; sc_count : Z }.

#[export] Instance script_master : IEtherCATMaster ScriptMaster := {|
  ec_send m dom := Some (default 0 (head (sc_results m)), mkScript (tail (sc_results m)) (sc_count m));
  ec_receive m dom := Some (0, m, default dom (store 12 (le_bytes 4 (u32 (sc_count m))) dom));
  ec_isActive m := true
|}.

#[export] Instance script_master_laws : MasterLaws sample_config ScriptMaster.
Proof.
  refine {| m_ok m := True |}.
  - intros m dom _. eexists _, _. split; [reflexivity|done].
  - intros m dom _. eexists _, _, _. split; [reflexivity|]. split; [done|].
    destruct (store 12 _ dom) as [dom'|] eqn:Hst; [|done]. cbn [default]. split; [by eapply store_length|].
    intros s mp Hmp Hd. eapply load_store_other; [exact Hst|]. rewrite le_bytes_length.
    destruct (layout_disjoint _ _ sample_layout 1 (mkPDOMapping INPUT 0x1A00 1 32 INT32 12 "position") s mp) as [H|H];
      [apply list_elem_of_here || (apply list_elem_of_In; vm_compute; tauto)|exact Hmp| |by left|by right].
    intros [= <- <-]. done.
Defined.

Abbreviation ScriptWorld := (World ScriptMaster (list EtherCATErrorEvent) unit).

Definition script_world (results : list Z) (count : Z) (st : RTState) : ScriptWorld :=
  mkWorld (mkIo newCycle (replicate 64 0) newRTDataStore) (mkScript results count) (Some [])
    (Some (mkRTStateMachine st None, tt)).

Lemma position_reaches_the_store_witness :
  let w0 := script_world [] (-2500) RT_RUNNING in
  let w := set_io (io_count (registerPositionSensor 1 7 8 (double_of_int 2)) (w_io w0)) w0 in
  exists w', execute sample_config true None test_input w = Some w' /\
    getDouble 7 (io_store (w_io w')) = Got (double_of_int (-5000)).
Proof.
  intros w0 w.
  destruct (position_reaches_the_store sample_config None w test_input (w_io w)
    (mkScript [] (-2500)) (mkScript [] (-2500)) (default zeros (store 12 (le_bytes 4 (u32 (-2500))) zeros))
    [] (mkSensorInfo 1 7 8 "POSITION" 0 (double_of_int 2)) [] 12 None (-2500) sample_typed) as (w' & Hex & Hg).
  - apply run_register; [|constructor]. apply run_start; [apply sample_layout|apply new_store_ok|exact I].
  - reflexivity.
  - reflexivity.
  - reflexivity.
  - reflexivity.
  - reflexivity.
  - reflexivity.
  - reflexivity.
  - reflexivity.
  - constructor.
  - reflexivity.
  - vm_compute. reflexivity.
  - exists w'. split; [exact Hex|]. etransitivity; [exact Hg|]. vm_compute. reflexivity.
Defined.

(** Eleven failures, each followed by a good cycle. *)
Definition scattered : list Z := concat (replicate 11 [-1; 0]).

Lemma errors_lead_to_safe_mode_witness :
  exists w', run_cycles sample_config true None (replicate 22 (test_input, newRTDataStore))
      (script_world scattered 0 RT_RUNNING) = Some w' /\
    errors w' = 11 /\ completed w' = 11 /\ machine_in RT_SAFE_MODE w'.
Proof.
  destruct (run_cycles sample_config true None (replicate 22 (test_input, newRTDataStore))
      (script_world scattered 0 RT_RUNNING)) as [w'|] eqn:Hrun.
  - exists w'. split; [reflexivity|].
    assert (He : (λ w, (errors w, completed w)) <$> run_cycles sample_config true None
      (replicate 22 (test_input, newRTDataStore)) (script_world scattered 0 RT_RUNNING) = Some (11, 11))
      by (vm_compute; reflexivity).
    rewrite Hrun in He. injection He as He Hc. split; [exact He|]. split; [exact Hc|].
    destruct (errors_lead_to_safe_mode sample_config true None (replicate 22 (test_input, newRTDataStore))
      (script_world scattered 0 RT_RUNNING) w') as (_ & Hm & _).
    + reflexivity.
    + reflexivity.
    + reflexivity.
    + exists (mkRTStateMachine RT_RUNNING None), tt. split; reflexivity.
    + exact Hrun.
    + rewrite He in Hm. exact Hm.
  - assert (Hs : is_Some (run_cycles sample_config true None (replicate 22 (test_input, newRTDataStore))
      (script_world scattered 0 RT_RUNNING))) by (vm_compute; by eexists).
    rewrite Hrun in Hs. destruct Hs as [? [=]].
Defined.

(** The mode 258 is read as VELOCITY: the conversion to [uint8_t] keeps eight
    bits. *)
Theorem mode_is_cut_to_eight_bits :
  motor_word (mkMotorInfo 1 "BLDC" 0 0 1 2 3 (double_of_int 10000) (double_of_int 100)) (test_store 258 1) = Some 5.
Proof. vm_compute. reflexivity. Qed.

(** Eleven failed cycles that are not consecutive take the machine to
    SAFE_MODE. *)
Theorem scattered_errors_enter_safe_mode :
  (λ w, (errors w, completed w, current_state_ ∘ fst <$> w_machine w)) <$>
    run_cycles sample_config true None (replicate 22 (test_input, newRTDataStore))
      (script_world scattered 0 RT_RUNNING) = Some (11, 11, Some RT_SAFE_MODE).
Proof. vm_compute. reflexivity. Qed.

(** In the state PAUSED the errors do not lead to SAFE_MODE. *)
Theorem paused_machine_ignores_errors :
  (λ w, (errors w, current_state_ ∘ fst <$> w_machine w)) <$>
    run_cycles sample_config true None (replicate 22 (test_input, newRTDataStore))
      (script_world scattered 0 RT_PAUSED) = Some (11, Some RT_PAUSED).
Proof. vm_compute. reflexivity. Qed.
