(* ===== verification/Text.v ===== *)
(** * Text

    What several components use of the strings of the C++ library: [std::stoul]
    and [std::hex] for hexadecimal numbers, [std::getline] with a separator,
    trimming.  A text is a list of characters where it is taken apart. *)

From Stdlib Require Import Ascii.
From S2P Require Import Prelude.
#[local] Open Scope Z_scope.

Abbreviation chars := (list ascii).
Definition to_chars (s : string) : chars := String.list_ascii_of_string s.
Definition of_chars (l : chars) : string := String.string_of_list_ascii l.

Lemma to_of_chars l : to_chars (of_chars l) = l.
Proof. apply String.list_ascii_of_string_of_list_ascii. Qed.
Lemma of_to_chars s : of_chars (to_chars s) = s.
Proof. apply String.string_of_list_ascii_of_string. Qed.

Lemma to_chars_app a b : to_chars (a +:+ b) = to_chars a ++ to_chars b.
Proof. induction a as [|c a IH]; [done|]. transitivity (c :: to_chars (a +:+ b)); [done|]. by rewrite IH. Qed.

Lemma to_chars_inj a b : to_chars a = to_chars b -> a = b.
Proof. intros H. by rewrite <- (of_to_chars a), H, of_to_chars. Qed.

(** ** std::stoul(s, nullptr, 16) *)

Definition is_space (c : ascii) : bool :=
  let n := N_of_ascii c in (n =? 32)%N || ((9 <=? n)%N && (n <=? 13)%N).

Definition hex_digit (c : ascii) : option Z :=
  let n := Z.of_N (N_of_ascii c) in
  if (48 <=? n) && (n <=? 57) then Some (n - 48)
  else if (65 <=? n) && (n <=? 70) then Some (n - 55)
  else if (97 <=? n) && (n <=? 102) then Some (n - 87)
  else None.

(** The number of the leading digits, and whether there is one. *)
Fixpoint hex_digits (acc : Z) (some : bool) (l : list ascii) : option Z :=
  match l with
  | c :: l =>
    match hex_digit c with
    | Some d => hex_digits (16 * acc + d) true l
    | None => if some then Some acc else None
    end
  | [] => if some then Some acc else None
  end.

Fixpoint skip_spaces (l : list ascii) : list ascii :=
  match l with
  | c :: l' => if is_space c then skip_spaces l' else l
  | [] => []
  end.

(** An optional "0x" in front of a digit is skipped. *)
Definition skip_prefix (l : list ascii) : list ascii :=
  match l with
  | "0"%char :: x :: d :: l' =>
    if (Ascii.eqb x "x" || Ascii.eqb x "X") && bool_decide (is_Some (hex_digit d)) then d :: l' else l
  | _ => l
  end.

Definition stoul16 (s : string) : result string Z :=
  let l := skip_spaces (String.list_ascii_of_string s) in
  let '(neg, l) := match l with
                   | "-"%char :: l => (true, l)
                   | "+"%char :: l => (false, l)
                   | l => (false, l)
                   end in
  match hex_digits 0 false (skip_prefix l) with
  | None => Throw "stoul"
  | Some v => if 2 ^ 64 <=? v then Throw "stoul" else Ok (if neg : bool then u64 (- v) else v)
  end.

Example stoul_index : stoul16 "0x1A00" = Ok 0x1A00 /\ stoul16 "1a02" = Ok 0x1A02 /\ stoul16 "0x" = Ok 0 /\
  stoul16 "x1" = Throw "stoul".
Proof. vm_compute. done. Qed.

(** ** std::stoi and std::stoull in base 10 *)

Definition dec_digit (c : ascii) : option Z :=
  let n := Z.of_N (N_of_ascii c) in if (48 <=? n) && (n <=? 57) then Some (n - 48) else None.

Fixpoint dec_digits (acc : Z) (some : bool) (l : list ascii) : option Z :=
  match l with
  | c :: l =>
    match dec_digit c with
    | Some d => dec_digits (10 * acc + d) true l
    | None => if some then Some acc else None
    end
  | [] => if some then Some acc else None
  end.

(** The sign and the number of the leading digits. *)
Definition parse_dec (s : string) : option (bool * Z) :=
  let l := skip_spaces (to_chars s) in
  let '(neg, l) := match l with
                   | "-"%char :: l => (true, l)
                   | "+"%char :: l => (false, l)
                   | l => (false, l)
                   end in
  pair neg <$> dec_digits 0 false l.

Definition stoi (s : string) : result string Z :=
  match parse_dec s with
  | None => Throw "stoi"
  | Some (neg, v) =>
    let v := if neg : bool then - v else v in
    if (- 2 ^ 31 <=? v) && (v <? 2 ^ 31) then Ok v else Throw "stoi"
  end.

Definition stoull (s : string) : result string Z :=
  match parse_dec s with
  | None => Throw "stoull"
  | Some (neg, v) => if 2 ^ 64 <=? v then Throw "stoull" else Ok (if neg : bool then u64 (- v) else v)
  end.

Example stoi_numbers : stoi "12=3" = Ok 12 /\ stoi "-5" = Ok (-5) /\ stoi "x" = Throw "stoi" /\
  stoull "-1" = Ok (2 ^ 64 - 1).
Proof. vm_compute. done. Qed.

(** ** Words: [stream >> token] until the end *)

Fixpoint words (acc : chars) (l : chars) : list chars :=
  match l with
  | [] => if bool_decide (acc = []) then [] else [acc]
  | c :: l =>
    if is_space c then (if bool_decide (acc = []) then words [] l else acc :: words [] l)
    else words (acc ++ [c]) l
  end.

(** ** std::hex << std::setfill('0') << std::setw(w) *)

Definition hex_char (d : Z) : ascii := ascii_of_N (Z.to_N (if d <? 10 then 48 + d else 87 + d)).

(** The [w] lowest digits, the whole number when it is below [16^w]. *)
Fixpoint hex_fixed (w : nat) (n : Z) : chars :=
  match w with
  | O => []
  | S w => hex_fixed w (n / 16) ++ [hex_char (n mod 16)]
  end.

(** [[0-9a-f]] *)
Definition is_lower_hex (c : ascii) : bool :=
  let n := Z.of_N (N_of_ascii c) in ((48 <=? n) && (n <=? 57)) || ((97 <=? n) && (n <=? 102)).
(** [std::isxdigit] *)
Definition isxdigit (c : ascii) : bool := bool_decide (is_Some (hex_digit c)).

(** ** std::getline(stream, item, sep) until the end of the stream *)

Fixpoint getlines (sep : ascii) (acc : chars) (l : chars) : list chars :=
  match l with
  | [] => if bool_decide (acc = []) then [] else [acc]
  | c :: l => if Ascii.eqb c sep then acc :: getlines sep [] l else getlines sep (acc ++ [c]) l
  end.

(** ** Trimming and searching *)

(** [item.erase(0, item.find_first_not_of(...))] *)
Fixpoint drop_front (p : ascii -> bool) (l : chars) : chars :=
  match l with
  | c :: l' => if p c then drop_front p l' else l
  | [] => []
  end.
(** [item.erase(item.find_last_not_of(...) + 1)] *)
Definition drop_back (p : ascii -> bool) (l : chars) : chars := reverse (drop_front p (reverse l)).

(** The text before and after the first [c]. *)
Fixpoint split_at (c : ascii) (l : chars) : option (chars * chars) :=
  match l with
  | [] => None
  | x :: l =>
    if Ascii.eqb x c then Some ([], l)
    else match split_at c l with Some (a, b) => Some (x :: a, b) | None => None end
  end.

(** ** Facts *)

Lemma hex_fixed_length w n : length (hex_fixed w n) = w.
Proof. revert n. induction w as [|w IH]; intros n; [done|]. cbn [hex_fixed]. rewrite length_app, IH. cbn. lia. Qed.

Lemma hex_char_digit d : 0 <= d < 16 -> hex_digit (hex_char d) = Some d /\ is_lower_hex (hex_char d) = true.
Proof.
  intros H. assert (Hall : forallb (λ d, bool_decide (hex_digit (hex_char d) = Some d) && is_lower_hex (hex_char d))
    (seqZ 0 16) = true) by (vm_compute; reflexivity).
  rewrite forallb_forall in Hall. specialize (Hall d). rewrite <- list_elem_of_In, elem_of_seqZ in Hall.
  apply andb_prop in Hall as [?%bool_decide_eq_true ?]; [done|lia].
Qed.

Lemma hex_fixed_lower w n : Forall (λ c, is_lower_hex c = true) (hex_fixed w n).
Proof.
  revert n. induction w as [|w IH]; intros n; [constructor|]. cbn [hex_fixed]. apply Forall_app. split; [done|].
  apply Forall_singleton, hex_char_digit, Z.mod_pos_bound. lia.
Qed.

Lemma is_lower_hex_xdigit c : is_lower_hex c = true -> isxdigit c = true.
Proof.
  unfold is_lower_hex, isxdigit, hex_digit. intros H. apply bool_decide_eq_true_2.
  destruct ((48 <=? _) && _) eqn:H1; [by eexists|]. rewrite orb_false_l in H. destruct ((65 <=? _) && _); [by eexists|].
  rewrite H. by eexists.
Qed.

(** Items without the separator, none of them empty, are read back. *)
Lemma getlines_item sep acc l :
  sep ∉ l -> l <> [] \/ acc <> [] -> getlines sep acc l = [acc ++ l].
Proof.
  revert acc. induction l as [|c l IH]; intros acc Hs Hne; cbn [getlines].
  { rewrite bool_decide_eq_false_2 by naive_solver. by rewrite app_nil_r. }
  rewrite (proj2 (Ascii.eqb_neq c sep)) by set_solver.
  rewrite IH; [by rewrite <- app_assoc|set_solver|right; by destruct acc].
Qed.

Lemma getlines_sep sep acc l rest :
  sep ∉ l -> getlines sep acc (l ++ sep :: rest) = (acc ++ l) :: getlines sep [] rest.
Proof.
  revert acc. induction l as [|c l IH]; intros acc Hs; cbn [getlines app].
  { by rewrite Ascii.eqb_refl, app_nil_r. }
  rewrite (proj2 (Ascii.eqb_neq c sep)) by set_solver. rewrite IH by set_solver. by rewrite <- app_assoc.
Qed.

(** The items with separators between them. *)
Fixpoint join_with (sep : ascii) (items : list chars) : chars :=
  match items with
  | [] => []
  | [x] => x
  | x :: items => x ++ sep :: join_with sep items
  end.

Lemma getlines_join sep items :
  Forall (λ x, sep ∉ x /\ x <> []) items -> getlines sep [] (join_with sep items) = items.
Proof.
  induction 1 as [|x items [Hs Hx] Hall IH]; [done|]. destruct items as [|y items].
  - cbn [join_with]. rewrite getlines_item by auto. done.
  - change (join_with sep (x :: y :: items)) with (x ++ sep :: join_with sep (y :: items)).
    by rewrite getlines_sep, IH.
Qed.

Lemma drop_front_keep p l : (forall c l', l = c :: l' -> p c = false) -> drop_front p l = l.
Proof. destruct l as [|c l]; [done|]. intros H. cbn. by rewrite (H c l). Qed.

Lemma drop_back_keep p l : (forall c l', l = l' ++ [c] -> p c = false) -> drop_back p l = l.
Proof.
  intros H. unfold drop_back. rewrite drop_front_keep; [by rewrite reverse_involutive|].
  intros c l' Heq. apply (H c (reverse l')). rewrite <- (reverse_involutive l), Heq. by rewrite reverse_cons.
Qed.

Lemma split_at_first c a b : c ∉ a -> split_at c (a ++ c :: b) = Some (a, b).
Proof.
  induction a as [|x a IH]; intros H; cbn [split_at app]; [by rewrite Ascii.eqb_refl|].
  rewrite (proj2 (Ascii.eqb_neq x c)) by set_solver. by rewrite IH by set_solver.
Qed.
