(* ===== verification/Config.v ===== *)
(** * ConfigLoader (src/core/config)

    Configuration documents.  Reading and parsing a file is left to the JSON
    library: a document is what it gives.  A conversion that the language leaves
    undefined (a number that does not fit an [int]) is [None]. *)

From Stdlib Require Import Ascii.
From S2P Require Import Prelude Ieee754 Text.
#[local] Open Scope Z_scope.

(** A JSON value; the members of an object in the order of their keys. *)
Inductive Json :=
| JNull
| JBool (b : bool)
| JInt (n : Z)
| JFloat (bits : Z)
| JString (s : string)
| JArray (l : list Json)
| JObject (l : list (string * Json)).

Fixpoint member (k : string) (l : list (string * Json)) : option Json :=
  match l with
  | [] => None
  | (k', v) :: l => if bool_decide (k = k') then Some v else member k l
  end.

(** [empty()]: null, or a container without elements. *)
Definition json_empty (j : Json) : bool :=
  match j with JNull | JArray [] | JObject [] => true | _ => false end.

(** [get<int>()], [get<bool>()], [get<std::string>()]; they throw on another type. *)
Definition get_int (j : Json) : option (result string Z) :=
  match j with
  | JInt n => Some (Ok (i32 n))
  | JBool b => Some (Ok (if b then 1 else 0))
  | JFloat d => Ok <$> int_of_double 32 d
  | _ => Some (Throw "type must be number")
  end.

Definition get_bool (j : Json) : option (result string bool) :=
  match j with JBool b => Some (Ok b) | _ => Some (Throw "type must be boolean") end.

Definition get_string (j : Json) : option (result string string) :=
  match j with JString s => Some (Ok s) | _ => Some (Throw "type must be string") end.

(** [json.value(key, default)] *)
Definition json_value {T} (get : Json -> option (result string T)) (k : string) (default : T) (j : Json) :
    option (result string T) :=
  match j with
  | JObject l => match member k l with Some v => get v | None => Some (Ok default) end
  | _ => Some (Throw "cannot use value()")
  end.

(** Conversions in sequence: the first that throws ends the function. *)
Definition jbind {A B} (x : option (result string A)) (f : A -> option (result string B)) : option (result string B) :=
  match x with
  | Some (Ok a) => f a
  | Some (Throw e) => Some (Throw e)
  | None => None
  end.
Notation "'let?' x ':=' a 'in' b" := (jbind a (λ x, b)) (at level 10, x name, b at level 200) : mxrc_scope.

(** ** The loader *)

Record ConfigLoader := mkLoader { config_ : Json }.
Definition newConfigLoader : ConfigLoader := mkLoader JNull.

(** A file: missing, unreadable, or read by the library; [partial] is what the
    library leaves behind when it throws. *)
Inductive ConfigFile := NoFile | Unreadable | Parsed (j : Json) | Malformed (partial : Json).

Definition loadFromFile (f : ConfigFile) (l : ConfigLoader) : bool * ConfigLoader :=
  match f with
  | NoFile | Unreadable => (false, l)
  | Parsed j => (true, mkLoader j)
  | Malformed partial => (false, mkLoader partial)
  end.

(** [None] when the library throws. *)
Definition loadFromString (parsed : option Json) (l : ConfigLoader) : bool * ConfigLoader :=
  match parsed with Some j => (true, mkLoader j) | None => (false, l) end.

Fixpoint navigate (keys : list string) (current : Json) : option Json :=
  match keys with
  | [] => Some current
  | k :: keys =>
    match current with
    | JObject l => match member k l with Some v => navigate keys v | None => None end
    | _ => None
    end
  end.

Definition navigateToKey (path : string) (l : ConfigLoader) : option Json :=
  if json_empty (config_ l) then None
  else navigate (of_chars <$> getlines "." [] (to_chars path)) (config_ l).

Definition hasKey (path : string) (l : ConfigLoader) : bool := bool_decide (is_Some (navigateToKey path l)).

Definition getSection (path : string) (l : ConfigLoader) : result string Json :=
  match navigateToKey path l with
  | Some j => Ok j
  | None => Throw ("Configuration key not found: " +:+ path)
  end.

Definition getValue {T} (get : Json -> option (result string T)) (path : string) (default : T) (l : ConfigLoader) :
    option T :=
  match navigateToKey path l with
  | None => Some default
  | Some j => match get j with
              | Some (Ok v) => Some v
              | Some (Throw _) => Some default
              | None => None
              end
  end.

Definition isLoaded (l : ConfigLoader) : bool := negb (json_empty (config_ l)).

(** [json::clear()] keeps the type of the value and empties it. *)
Definition json_clear (j : Json) : Json :=
  match j with
  | JNull => JNull
  | JBool _ => JBool false
  | JInt _ => JInt 0
  | JFloat _ => JFloat 0
  | JString _ => JString ""
  | JArray _ => JArray []
  | JObject _ => JObject []
  end.
Definition clear (l : ConfigLoader) : ConfigLoader := mkLoader (json_clear (config_ l)).

(** ** Paths *)

(** A key can be part of a path if it is not empty and has no dot. *)
Definition path_key (k : string) : Prop := ("." ∉ to_chars k)%char /\ to_chars k <> [].

Definition path_of (keys : list string) : string := of_chars (join_with "." (to_chars <$> keys)).

(** The document that holds [v] under nested objects of one member each. *)
Definition nested (keys : list string) (v : Json) : Json := foldr (λ k j, JObject [(k, j)]) v keys.

Lemma navigate_path keys l :
  Forall path_key keys -> json_empty (config_ l) = false ->
  navigateToKey (path_of keys) l = navigate keys (config_ l).
Proof.
  intros Hk He. unfold navigateToKey, path_of. rewrite He, to_of_chars, getlines_join.
  - f_equal. rewrite <- list_fmap_compose. rewrite <- (list_fmap_id keys) at 2. apply list_fmap_ext.
    intros i k _. apply of_to_chars.
  - apply Forall_fmap. eapply Forall_impl; [exact Hk|]. intros k [H1 H2]. split; done.
Qed.

(** A value is found under the path of its keys, read with its type, and a value
    of another type or a missing key gives the default. *)
Theorem value_under_path {T} (get : Json -> option (result string T)) keys l d :
  Forall path_key keys -> json_empty (config_ l) = false ->
  getValue get (path_of keys) d l =
    match navigate keys (config_ l) with
    | Some j => match get j with Some (Ok v) => Some v | Some (Throw _) => Some d | None => None end
    | None => Some d
    end /\
  (forall v, config_ l = nested keys v -> navigate keys (config_ l) = Some v).
Proof.
  intros Hk He. split; [unfold getValue; by rewrite navigate_path|].
  intros v ->. clear. induction keys as [|k keys IH]; [done|]. cbn. by rewrite bool_decide_eq_true_2.
Qed.

(** The empty path names the whole document; a dot in a key hides it. *)
Theorem dotted_key_is_hidden v : hasKey "a.b" (mkLoader (JObject [("a.b", v)])) = false.
Proof. vm_compute. done. Qed.
