(* ===== verification/YamlConfig.v ===== *)
(** * YAMLConfigParser (src/core/ethercat/util/YAMLConfigParser.{h,cpp})

    The loader of the EtherCAT configuration.  yaml-cpp is the class [Yaml];
    a method that may throw gives the parser it leaves behind with the outcome,
    because what was stored before an exception stays. *)

From S2P Require Import Prelude Text Pdo EtherCATMaster.
#[local] Open Scope Z_scope.

(** ** The library *)

(** [y_get n key] is [n[key]]: [Ok None] for a node that is not defined, a throw
    when [n] has no keys.  [y_items] are the elements [size()] and [n[i]] give.
    The conversions [as<T>] give [None] when they throw. *)
Class Yaml (N : Type) := {
  y_get : N -> string -> result string (option N);
  y_items : N -> list N;
  y_string : N -> option string;
  y_int : N -> option Z;
  y_uint32 : N -> option Z;
  y_uint16 : N -> option Z;
  y_int32 : N -> option Z;
  y_bool : N -> option bool
}.

(** ** The parser *)

Record YAMLConfigParser := mkParser {
  slave_configs : list SlaveConfig;
  pdo_mappings : gmap nat (list PDOMapping);
  dc_config : DCConfiguration;
  y_master_index : Z;
  cycle_time_ns : Z;
  rt_priority : Z;
  cpu_affinity : Z
}.

Definition newParser : YAMLConfigParser := mkParser [] ∅ newDC 0 10000000 99 1.

Definition push_slave (c : SlaveConfig) (p : YAMLConfigParser) : YAMLConfigParser :=
  mkParser (slave_configs p ++ [c]) (pdo_mappings p) (dc_config p) (y_master_index p) (cycle_time_ns p)
    (rt_priority p) (cpu_affinity p).
Definition put_mappings (i : nat) (ms : list PDOMapping) (p : YAMLConfigParser) : YAMLConfigParser :=
  mkParser (slave_configs p) (<[i := ms]> (pdo_mappings p)) (dc_config p) (y_master_index p) (cycle_time_ns p)
    (rt_priority p) (cpu_affinity p).
Definition put_dc (d : DCConfiguration) (p : YAMLConfigParser) : YAMLConfigParser :=
  mkParser (slave_configs p) (pdo_mappings p) d (y_master_index p) (cycle_time_ns p) (rt_priority p) (cpu_affinity p).
Definition put_master (i c r a : Z) (p : YAMLConfigParser) : YAMLConfigParser :=
  mkParser (slave_configs p) (pdo_mappings p) (dc_config p) i c r a.

Definition parseDeviceType (s : string) : DeviceType :=
  if bool_decide (s = "SENSOR") then SENSOR
  else if bool_decide (s = "MOTOR") then MOTOR
  else if bool_decide (s = "IO_MODULE") then IO_MODULE
  else UNKNOWN.

Definition parsePDODirection (s : string) : PDODirection :=
  if bool_decide (s = "INPUT") then INPUT
  else if bool_decide (s = "OUTPUT") then OUTPUT
  else INPUT.

Definition parsePDODataType (s : string) : PDODataType :=
  if bool_decide (s = "INT8") then INT8
  else if bool_decide (s = "UINT8") then UINT8
  else if bool_decide (s = "INT16") then INT16
  else if bool_decide (s = "UINT16") then UINT16
  else if bool_decide (s = "INT32") then INT32
  else if bool_decide (s = "UINT32") then UINT32
  else if bool_decide (s = "FLOAT") then FLOAT
  else if bool_decide (s = "DOUBLE") then DOUBLE
  else UINT8.

(** The [switch] on the data type. *)
Definition type_bits (t : PDODataType) : Z :=
  match t with
  | INT8 | UINT8 => 8
  | INT16 | UINT16 => 16
  | INT32 | UINT32 | FLOAT => 32
  | DOUBLE => 64
  end.

(** Sequencing of expressions that may throw. *)
Definition try {A B} (r : result string A) (k : A -> result string B) : result string B :=
  match r with Ok a => k a | Throw e => Throw e end.
Notation "'let*' x := r 'in' k" := (try r (λ x, k)) (at level 10, x name, r at level 100, k at level 200).

Section Yaml.
Context {N : Type} `{HY : !Yaml N}.

(** [node[key].as<T>()] *)
Definition get_as {A} (conv : N -> option A) (n : N) (key : string) : result string A :=
  let* o := y_get n key in
  match o with
  | None => Throw "InvalidNode"
  | Some n => match conv n with Some a => Ok a | None => Throw "BadConversion" end
  end.

(** [if (node[key]) x = node[key].as<T>();] with the old value [d]. *)
Definition get_or {A} (conv : N -> option A) (n : N) (key : string) (d : A) : result string A :=
  let* o := y_get n key in
  match o with None => Ok d | Some _ => get_as conv n key end.

(** Each field is stored as soon as it is read. *)
Definition parseMasterConfig (n : N) (p : YAMLConfigParser) : YAMLConfigParser * option string :=
  match get_or y_int n "index" (y_master_index p) with
  | Throw e => (p, Some e)
  | Ok i =>
    let p := put_master i (cycle_time_ns p) (rt_priority p) (cpu_affinity p) p in
    match get_or y_uint32 n "cycle_time_ns" (cycle_time_ns p) with
    | Throw e => (p, Some e)
    | Ok c =>
      let p := put_master i c (rt_priority p) (cpu_affinity p) p in
      match get_or y_int n "priority" (rt_priority p) with
      | Throw e => (p, Some e)
      | Ok r =>
        let p := put_master i c r (cpu_affinity p) p in
        match get_or y_int n "cpu_affinity" (cpu_affinity p) with
        | Throw e => (p, Some e)
        | Ok a => (put_master i c r a p, None)
        end
      end
    end
  end.

(** The configuration of one slave. *)
Definition parse_slave (n : N) : result string SlaveConfig :=
  let* alias := get_as y_uint16 n "alias" in
  let* position := get_as y_uint16 n "position" in
  let* vendor_hex := get_as y_string n "vendor_id" in
  let* product_hex := get_as y_string n "product_code" in
  let* vendor := stoul16 vendor_hex in
  let* product := stoul16 product_hex in
  let* name := get_as y_string n "device_name" in
  let* type := get_as y_string n "device_type" in
  Ok (mkSlaveConfig alias position (u32 vendor) (u32 product) name (parseDeviceType type)).

Definition parse_mapping (n : N) : result string PDOMapping :=
  let* dir := get_as y_string n "direction" in
  let* index_hex := get_as y_string n "index" in
  let* idx := stoul16 index_hex in
  let* subindex_hex := get_as y_string n "subindex" in
  let* sub := stoul16 subindex_hex in
  let* type := get_as y_string n "data_type" in
  let* off := get_as y_uint32 n "offset" in
  let* desc := get_as y_string n "description" in
  let type := parsePDODataType type in
  Ok (mkPDOMapping (parsePDODirection dir) (u16 idx) (u8 sub) (type_bits type) type off desc).

Fixpoint parse_mappings (l : list N) : result string (list PDOMapping) :=
  match l with
  | [] => Ok []
  | n :: l => let* m := parse_mapping n in let* ms := parse_mappings l in Ok (m :: ms)
  end.

(** [if (slave["pdo_mappings"])]: the list, if there is one. *)
Definition slave_mappings (n : N) : result string (option (list PDOMapping)) :=
  let* o := y_get n "pdo_mappings" in
  match o with
  | None => Ok None
  | Some l => let* ms := parse_mappings (y_items l) in Ok (Some ms)
  end.

Fixpoint parse_slaves (i : nat) (l : list N) (p : YAMLConfigParser) : YAMLConfigParser * option string :=
  match l with
  | [] => (p, None)
  | n :: l =>
    match parse_slave n with
    | Throw e => (p, Some e)
    | Ok c =>
      let p := push_slave c p in
      match slave_mappings n with
      | Throw e => (p, Some e)
      | Ok None => parse_slaves (S i) l p
      | Ok (Some ms) => parse_slaves (S i) l (put_mappings i ms p)
      end
    end
  end.

Definition parseSlaves (n : N) (p : YAMLConfigParser) : YAMLConfigParser * option string :=
  parse_slaves 0 (y_items n) p.

Definition parseDCConfig (n : N) (p : YAMLConfigParser) : YAMLConfigParser * option string :=
  let d := dc_config p in
  match get_as y_bool n "enable" with
  | Throw e => (p, Some e)
  | Ok en =>
    let d := mkDC en (reference_slave d) (sync0_cycle_time d) (sync0_shift_time d) (sync1_cycle_time d) in
    match get_as y_uint16 n "reference_slave" with
    | Throw e => (put_dc d p, Some e)
    | Ok r =>
      let d := mkDC en (Z.to_nat r) (sync0_cycle_time d) (sync0_shift_time d) (sync1_cycle_time d) in
      match get_as y_uint32 n "sync0_cycle_time" with
      | Throw e => (put_dc d p, Some e)
      | Ok c =>
        let d := mkDC en (Z.to_nat r) c (sync0_shift_time d) (sync1_cycle_time d) in
        match get_as y_int32 n "sync0_shift_time" with
        | Throw e => (put_dc d p, Some e)
        | Ok s =>
          let d := mkDC en (Z.to_nat r) c s (sync1_cycle_time d) in
          match get_or y_uint32 n "sync1_cycle_time" (sync1_cycle_time d) with
          | Throw e => (put_dc d p, Some e)
          | Ok c1 => (put_dc (mkDC en (Z.to_nat r) c s c1) p, None)
          end
        end
      end
    end
  end.

(** One section of the file, if it is there. *)
Definition parse_section (config : N) (key : string)
    (parse : N -> YAMLConfigParser -> YAMLConfigParser * option string) (p : YAMLConfigParser) :
    YAMLConfigParser * option string :=
  match y_get config key with
  | Throw e => (p, Some e)
  | Ok None => (p, None)
  | Ok (Some n) => parse n p
  end.

(** [file] is what [YAML::LoadFile] gives, or throws. *)
Definition loadFromFile (file : result string N) (p : YAMLConfigParser) : Z * YAMLConfigParser :=
  match file with
  | Throw _ => (-1, p)
  | Ok config =>
    match parse_section config "master" parseMasterConfig p with
    | (p, Some _) => (-1, p)
    | (p, None) =>
      match parse_section config "slaves" parseSlaves p with
      | (p, Some _) => (-1, p)
      | (p, None) =>
        match parse_section config "dc_config" parseDCConfig p with
        | (p, Some _) => (-1, p)
        | (p, None) => (0, p)
        end
      end
    end
  end.
End Yaml.

Definition yaml_getSlaveConfig (i : nat) (p : YAMLConfigParser) : option SlaveConfig := slave_configs p !! i.
Definition yaml_getPDOMappings (i : nat) (p : YAMLConfigParser) : list PDOMapping := default [] (pdo_mappings p !! i).
Definition getDCConfig (p : YAMLConfigParser) : Z * DCConfiguration := (0, dc_config p).
Definition yaml_getSlaveCount (p : YAMLConfigParser) : nat := length (slave_configs p).

(** ** What a successful load holds *)

(** The managers rely on these widths. *)
Definition mapping_ok (m : PDOMapping) : Prop :=
  bit_length m = 8 * Z.of_nat (sizeof (data_type m)) /\ 0 <= index m < 2 ^ 16 /\ 0 <= subindex m < 2 ^ 8.

Lemma try_ok {A B} (r : result string A) (k : A -> result string B) b :
  try r k = Ok b -> exists a, r = Ok a /\ k a = Ok b.
Proof. destruct r as [a|e]; [|done]. by exists a. Qed.

Section YamlFacts.
Context {N : Type} `{HY : !Yaml N}.

Lemma parse_mapping_ok (n : N) m : parse_mapping n = Ok m -> mapping_ok m.
Proof.
  unfold parse_mapping. intros H. repeat (apply try_ok in H as (? & _ & H)). injection H as <-.
  split_and!; cbn; try (apply Z.mod_pos_bound; lia). by destruct (parsePDODataType _).
Qed.

Lemma parse_mappings_ok (l : list N) ms : parse_mappings l = Ok ms -> Forall mapping_ok ms.
Proof.
  revert ms. induction l as [|n l IH]; intros ms; cbn [parse_mappings]; [by intros [= <-]|].
  intros (m & Hm & (ms' & Hms & [= <-])%try_ok)%try_ok. constructor; [by eapply parse_mapping_ok|by apply IH].
Qed.

Lemma slave_mappings_ok (n : N) o : slave_mappings n = Ok o -> Forall mapping_ok (default [] o).
Proof.
  unfold slave_mappings. intros ([l|] & _ & H)%try_ok; [|by injection H as <-].
  apply try_ok in H as (ms & Hms & [= <-]). by eapply parse_mappings_ok.
Qed.

(** The loop, started at slave [i] when [i] slaves are stored and none of the
    later ones has mappings. *)
Lemma parse_slaves_spec (l : list N) i p p' :
  parse_slaves i l p = (p', None) -> length (slave_configs p) = i ->
  (forall j, (i <= j)%nat -> pdo_mappings p !! j = None) ->
  length (slave_configs p') = (i + length l)%nat /\
  (forall j, (j < i)%nat -> slave_configs p' !! j = slave_configs p !! j /\ pdo_mappings p' !! j = pdo_mappings p !! j) /\
  forall k n, l !! k = Some n -> exists c o, parse_slave n = Ok c /\ slave_mappings n = Ok o /\
    slave_configs p' !! (i + k)%nat = Some c /\ pdo_mappings p' !! (i + k)%nat = o.
Proof.
  revert i p. induction l as [|n l IH]; intros i p; cbn [parse_slaves].
  { intros [= <-] <- Hnone. split_and!; [cbn; lia|done|done]. }
  destruct (parse_slave n) as [c|] eqn:Hc; [|done]. destruct (slave_mappings n) as [o|] eqn:Ho; [|done].
  intros Hrun Hlen Hnone.
  set (p1 := match o with Some ms => put_mappings i ms (push_slave c p) | None => push_slave c p end).
  assert (Hrun1 : parse_slaves (S i) l p1 = (p', None)) by (by subst p1; destruct o).
  assert (Hsc : slave_configs p1 = slave_configs p ++ [c]) by (by subst p1; destruct o).
  assert (Hpm : forall j, pdo_mappings p1 !! j = if decide (j = i) then o else pdo_mappings p !! j).
  { intros j. subst p1. destruct o as [ms|]; cbn.
    - rewrite lookup_insert. by repeat case_decide; subst.
    - case_decide; [subst; by apply Hnone|done]. }
  destruct (IH (S i) p1 Hrun1) as (Hl & Hlow & Hhigh).
  { rewrite Hsc, length_app. cbn. lia. }
  { intros j Hj. rewrite Hpm. case_decide; [lia|]. apply Hnone. lia. }
  split; [cbn [length]; lia|]. split.
  - intros j Hj. destruct (Hlow j) as [H1 H2]; [lia|]. rewrite H1, H2, Hsc, Hpm, lookup_app_l by lia.
    by case_decide; [lia|].
  - intros [|k] n' Hk; cbn in Hk.
    + injection Hk as <-. exists c, o. destruct (Hlow i) as [H1 H2]; [lia|]. rewrite Nat.add_0_r, H1, H2, Hsc, Hpm.
      split_and!; [done..|by rewrite <- Hlen, list_lookup_middle|by rewrite decide_True].
    + destruct (Hhigh k n' Hk) as (c' & o' & ? & ? & ? & ?). exists c', o'. rewrite <- Nat.add_succ_comm. done.
Qed.

(** What the other sections leave alone. *)
Definition same_slaves (p p' : YAMLConfigParser) : Prop :=
  slave_configs p' = slave_configs p /\ pdo_mappings p' = pdo_mappings p.

Lemma parse_section_same (config : N) key parse p p' r :
  (forall n p p' r, parse n p = (p', r) -> same_slaves p p') -> parse_section config key parse p = (p', r) -> same_slaves p p'.
Proof.
  intros Hp. unfold parse_section. destruct (y_get config key) as [[n|]|]; [apply Hp| |]; by intros [= <- <-].
Qed.

Lemma master_same (n : N) p p' r : parseMasterConfig n p = (p', r) -> same_slaves p p'.
Proof. unfold parseMasterConfig. intros H. repeat case_match; by injection H as <- <-. Qed.

Lemma dc_same (n : N) p p' r : parseDCConfig n p = (p', r) -> same_slaves p p'.
Proof. unfold parseDCConfig. intros H. repeat case_match; by injection H as <- <-. Qed.

(** A file that loads into a new parser is held slave by slave: each listed
    slave has the configuration and the PDO mappings of its own node, at its
    own index, and every mapping has the width of its data type and an index
    and a subindex of 16 and 8 bits. *)
Theorem loaded_configuration_is_the_file (config slaves : N) p :
  loadFromFile (Ok config) newParser = (0, p) -> y_get config "slaves" = Ok (Some slaves) ->
  yaml_getSlaveCount p = length (y_items slaves) /\
  forall i n, y_items slaves !! i = Some n -> exists c o,
    parse_slave n = Ok c /\ yaml_getSlaveConfig i p = Some c /\
    slave_mappings n = Ok o /\ yaml_getPDOMappings i p = default [] o /\ Forall mapping_ok (yaml_getPDOMappings i p).
Proof.
  unfold loadFromFile. intros Hload Hsl.
  destruct (parse_section config "master" _ newParser) as [p1 [e1|]] eqn:H1; [done|].
  destruct (parse_section config "slaves" _ p1) as [p2 [e2|]] eqn:H2; [done|].
  destruct (parse_section config "dc_config" _ p2) as [p3 [e3|]] eqn:H3; [done|]. injection Hload as <-.
  apply parse_section_same in H1 as [Hs1 Hm1]; [|exact master_same].
  apply parse_section_same in H3 as [Hs3 Hm3]; [|exact dc_same].
  unfold parse_section in H2. rewrite Hsl in H2. unfold parseSlaves in H2.
  destruct (parse_slaves_spec _ 0 p1 p2 H2) as (Hl & _ & Hall); [by rewrite Hs1|by rewrite Hm1|].
  unfold yaml_getSlaveCount, yaml_getSlaveConfig, yaml_getPDOMappings. rewrite Hs3, Hm3. split; [done|].
  intros i n Hn. destruct (Hall i n Hn) as (c & o & Hc & Ho & Hi & Hmi). cbn in Hi, Hmi. exists c, o. rewrite Hmi.
  split_and!; [done..|]. by eapply slave_mappings_ok.
Qed.
End YamlFacts.

(** ** A library of trees, for running the loader *)

Inductive YTree :=
| YStr (s : string)
| YNum (v : Z)
| YBool (b : bool)
| YMap (l : list (string * YTree))
| YSeq (l : list YTree).

Definition tree_num (lo hi : Z) (t : YTree) : option Z :=
  match t with YNum v => if (lo <=? v) && (v <=? hi) then Some v else None | _ => None end.

#[export] Instance tree_yaml : Yaml YTree := {|
  y_get t key := match t with
                 | YMap l => Ok (snd <$> List.find (λ e, bool_decide (fst e = key)) l)
                 | _ => Throw "BadSubscript"
                 end;
  y_items t := match t with YSeq l => l | YMap l => snd <$> l | _ => [] end;
  y_string t := match t with YStr s => Some s | _ => None end;
  y_int := tree_num (- 2 ^ 31) (2 ^ 31 - 1);
  y_uint32 := tree_num 0 (2 ^ 32 - 1);
  y_uint16 := tree_num 0 (2 ^ 16 - 1);
  y_int32 := tree_num (- 2 ^ 31) (2 ^ 31 - 1);
  y_bool t := match t with YBool b => Some b | _ => None end
|}.

Definition tree_mapping (dir idx sub type : string) (off : Z) : YTree :=
  YMap [("direction", YStr dir); ("index", YStr idx); ("subindex", YStr sub); ("data_type", YStr type);
        ("offset", YNum off); ("description", YStr "")].
Definition tree_slave (pos : Z) (ms : list YTree) : YTree :=
  YMap [("alias", YNum 0); ("position", YNum pos); ("vendor_id", YStr "0x0000009A"); ("product_code", YStr "0x00030924");
        ("device_name", YStr "drive"); ("device_type", YStr "MOTOR"); ("pdo_mappings", YSeq ms)].
Definition tree_file (slaves : list YTree) : YTree :=
  YMap [("master", YMap [("index", YNum 0); ("cycle_time_ns", YNum 1000000)]); ("slaves", YSeq slaves)].

Definition good_file : YTree :=
  tree_file [tree_slave 0 [tree_mapping "OUTPUT" "0x1602" "0x01" "UINT16" 0; tree_mapping "INPUT" "0x1A00" "0x01" "INT32" 4];
             tree_slave 1 [tree_mapping "OUTPUT" "0x1603" "0x01" "UINT16" 8]].

Lemma loaded_configuration_is_the_file_witness :
  let p := snd (loadFromFile (Ok good_file) newParser) in
  yaml_getSlaveCount p = 2%nat /\
  yaml_getPDOMappings 1 p = [mkPDOMapping OUTPUT 0x1603 1 16 UINT16 8 ""].
Proof.
  intros p.
  destruct (loaded_configuration_is_the_file good_file
    (YSeq [tree_slave 0 [tree_mapping "OUTPUT" "0x1602" "0x01" "UINT16" 0; tree_mapping "INPUT" "0x1A00" "0x01" "INT32" 4];
           tree_slave 1 [tree_mapping "OUTPUT" "0x1603" "0x01" "UINT16" 8]]) p) as [Hc _].
  - vm_compute. reflexivity.
  - reflexivity.
  - split; [exact Hc|]. vm_compute. reflexivity.
Defined.

(** A file whose second slave has a bad mapping fails, and the parser keeps
    the first slave and the second one without mappings. *)
Theorem failed_load_keeps_a_part :
  let bad := tree_file [tree_slave 0 [tree_mapping "OUTPUT" "0x1602" "0x01" "UINT16" 0];
                        tree_slave 1 [tree_mapping "OUTPUT" "index" "0x01" "UINT16" 8]] in
  let '(r, p) := loadFromFile (Ok bad) newParser in
  r = -1 /\ yaml_getSlaveCount p = 2%nat /\ length (yaml_getPDOMappings 0 p) = 1%nat /\ yaml_getPDOMappings 1 p = [].
Proof. vm_compute. done. Qed.

(** A second load appends its slaves but stores their mappings from index 0
    on: the first slave of the first file gets the mappings of another one. *)
Theorem second_load_mixes_mappings :
  let other := tree_file [tree_slave 5 [tree_mapping "INPUT" "0x1A03" "0x01" "UINT8" 3]] in
  let p := snd (loadFromFile (Ok other) (snd (loadFromFile (Ok good_file) newParser))) in
  yaml_getSlaveCount p = 3%nat /\ position <$> yaml_getSlaveConfig 0 p = Some 0 /\
  index <$> yaml_getPDOMappings 0 p = [0x1A03] /\ yaml_getPDOMappings 2 p = [].
Proof. vm_compute. done. Qed.

(** A misspelt type is read as UINT8 and a misspelt direction as INPUT. *)
Theorem unknown_words_are_accepted :
  parse_mapping (tree_mapping "OUT" "0x1602" "0x01" "REAL64" 0) =
  Ok (mkPDOMapping INPUT 0x1602 1 8 UINT8 0 "").
Proof. vm_compute. reflexivity. Qed.
