(* ===== verification/Tracing.v ===== *)
(** * Tracing (src/core/tracing)

    Span contexts and their W3C headers (SpanContext), spans and tracers
    (TracerProvider), the tracers of the real-time cycle (RTCycleTracer) and of
    the event bus (EventBusTracer).  Random numbers and clock readings are
    arguments.  Spans are objects in a heap; a handle is an index into it. *)

From Stdlib Require Import Ascii.
From stdpp Require Import pretty.
From S2P Require Import Prelude Ieee754 Text.
#[local] Open Scope Z_scope.

(** ** Contexts *)

Inductive SpanStatus := UNSET | OK | ERROR.

Definition spanStatusToString (s : SpanStatus) : string :=
  match s with UNSET => "UNSET" | OK => "OK" | ERROR => "ERROR" end.

Record TraceContext := mkTraceContext {
  trace_id : string;
  span_id : string;
  parent_span_id : string;
  trace_flags : Z;
  trace_state : string;
  baggage : gmap string string;
  is_remote : bool
}.

Definition TRACE_FLAG_SAMPLED : Z := 1.
Definition TRACE_ID_LENGTH : nat := 32.
Definition SPAN_ID_LENGTH : nat := 16.
Definition TRACEPARENT_HEADER : string := "traceparent".
Definition TRACESTATE_HEADER : string := "tracestate".
Definition BAGGAGE_HEADER : string := "baggage".

(** [high], [low] and [id] are what the generator gives. *)
Definition generateTraceId (high low : Z) : string := of_chars (hex_fixed 16 high ++ hex_fixed 16 low).
Definition generateSpanId (id : Z) : string := of_chars (hex_fixed 16 id).

Definition valid_id (n : nat) (s : string) : bool :=
  let l := to_chars s in
  if negb (length l =? n)%nat then false
  else if negb (forallb isxdigit l) then false
  else if forallb (λ c, Ascii.eqb c "0") l then false
  else true.

Definition isValidTraceId (s : string) : bool := valid_id TRACE_ID_LENGTH s.
Definition isValidSpanId (s : string) : bool := valid_id SPAN_ID_LENGTH s.
Definition isValidTraceFlags (flags : Z) : bool := Z.land flags (Z.lnot TRACE_FLAG_SAMPLED) =? 0.

(** The groups of the regular expression
    [^00-([0-9a-f]{32})-([0-9a-f]{16})-([0-9a-f]{2})$]. *)
Definition match_traceparent (l : chars) : option (chars * chars * chars) :=
  let t := take 32 (drop 3 l) in
  let s := take 16 (drop 36 l) in
  let f := drop 53 l in
  if bool_decide (length l = 55%nat) && bool_decide (take 3 l = to_chars "00-") &&
     bool_decide (l !! 35%nat = Some "-"%char) && bool_decide (l !! 52%nat = Some "-"%char) &&
     forallb is_lower_hex t && forallb is_lower_hex s && forallb is_lower_hex f
  then Some (t, s, f) else None.

Definition parseTraceparent (traceparent : string) : result string (option TraceContext) :=
  match match_traceparent (to_chars traceparent) with
  | None => Ok None
  | Some (t, s, f) =>
    let t := of_chars t in
    let s := of_chars s in
    if negb (isValidTraceId t) || negb (isValidSpanId s) then Ok None
    else match stoul16 (of_chars f) with
         | Throw e => Throw e
         | Ok flags => Ok (Some (mkTraceContext t s "" (wrap 8 flags) "" ∅ true))
         end
  end.

Definition formatTraceparent (c : TraceContext) : string :=
  "00-" +:+ trace_id c +:+ "-" +:+ span_id c +:+ "-" +:+ of_chars (hex_fixed 2 (trace_flags c)).

Definition parseTracestate (s : string) : string := s.

Definition is_blank2 (c : ascii) : bool := Ascii.eqb c " " || Ascii.eqb c "009".

(** One item of the baggage header, trimmed. *)
Definition parse_item (item : chars) (m : gmap string string) : gmap string string :=
  let item := drop_back is_blank2 (drop_front is_blank2 item) in
  match split_at "=" item with
  | Some (k, v) => <[of_chars k := of_chars v]> m
  | None => m
  end.

Definition parseBaggage (s : string) : gmap string string :=
  foldl (λ m item, parse_item item m) ∅ (getlines "," [] (to_chars s)).

Definition baggage_item (kv : string * string) : chars := to_chars (fst kv) ++ "="%char :: to_chars (snd kv).

Definition formatBaggage (b : gmap string string) : string :=
  of_chars (join_with "," (baggage_item <$> key_order b)).

Definition isValidContext (c : TraceContext) : bool :=
  isValidTraceId (trace_id c) && isValidSpanId (span_id c) && isValidTraceFlags (trace_flags c).

(** [trace_state] and [baggage] keep their default values. *)
Definition invalidContext : TraceContext :=
  mkTraceContext (of_chars (replicate 32 "0"%char)) (of_chars (replicate 16 "0"%char)) "" 0 "" ∅ false.

Definition isSampled (c : TraceContext) : bool := negb (Z.land (trace_flags c) TRACE_FLAG_SAMPLED =? 0).

Abbreviation carrier := (gmap string string).

Definition extractTraceContext (h : carrier) : result string TraceContext :=
  match h !! TRACEPARENT_HEADER with
  | None => Ok invalidContext
  | Some tp =>
    match parseTraceparent tp with
    | Throw e => Throw e
    | Ok None => Ok invalidContext
    | Ok (Some c) =>
      let st := match h !! TRACESTATE_HEADER with Some s => parseTracestate s | None => trace_state c end in
      let bg := match h !! BAGGAGE_HEADER with Some s => parseBaggage s | None => baggage c end in
      Ok (mkTraceContext (trace_id c) (span_id c) (parent_span_id c) (trace_flags c) st bg (is_remote c))
    end
  end.

Definition injectTraceContext (c : TraceContext) (h : carrier) : carrier :=
  if negb (isValidContext c) then h
  else
    let h := <[TRACEPARENT_HEADER := formatTraceparent c]> h in
    let h := if bool_decide (trace_state c = "") then h else <[TRACESTATE_HEADER := trace_state c]> h in
    if bool_decide (baggage c = ∅) then h else <[BAGGAGE_HEADER := formatBaggage (baggage c)]> h.

(** ** Propagation *)

Lemma match_traceparent_parts t s f :
  length t = 32%nat -> length s = 16%nat -> length f = 2%nat ->
  Forall (λ c, is_lower_hex c = true) t -> Forall (λ c, is_lower_hex c = true) s ->
  Forall (λ c, is_lower_hex c = true) f ->
  match_traceparent (to_chars "00-" ++ t ++ "-"%char :: s ++ "-"%char :: f) = Some (t, s, f).
Proof.
  intros Ht Hs Hf Lt Ls Lf. unfold match_traceparent.
  set (l := to_chars "00-" ++ t ++ "-"%char :: s ++ "-"%char :: f).
  assert (D3 : drop 3 l = t ++ "-"%char :: s ++ "-"%char :: f) by done.
  assert (D36 : drop 36 l = s ++ "-"%char :: f).
  { change 36%nat with (3 + 33)%nat. rewrite <- drop_drop, D3. rewrite drop_app_ge by lia.
    by replace (33 - length t)%nat with 1%nat by lia. }
  assert (D53 : drop 53 l = f).
  { change 53%nat with (36 + 17)%nat. rewrite <- drop_drop, D36. rewrite drop_app_ge by lia.
    by replace (17 - length s)%nat with 1%nat by lia. }
  rewrite D3, D36, D53, (take_app_length' t) by done. rewrite (take_app_length' s) by done.
  rewrite !bool_decide_eq_true_2.
  - rewrite (proj2 (forallb_forall _ t)), (proj2 (forallb_forall _ s)), (proj2 (forallb_forall _ f)).
    + done.
    + intros c Hc%list_elem_of_In. by eapply Forall_forall in Lf.
    + intros c Hc%list_elem_of_In. by eapply Forall_forall in Ls.
    + intros c Hc%list_elem_of_In. by eapply Forall_forall in Lt.
  - change (l !! 52%nat) with (l !! (36 + 16)%nat). rewrite <- lookup_drop, D36. by rewrite lookup_app_r, Hs by lia.
  - change (l !! 35%nat) with (l !! (3 + 32)%nat). rewrite <- lookup_drop, D3. by rewrite lookup_app_r, Ht by lia.
  - done.
  - subst l. rewrite !length_app. cbn [length]. rewrite length_app. cbn [length]. rewrite Ht, Hs, Hf. done.
Qed.

(** Identifiers as the headers have them. *)
Definition lower_id (s : string) : Prop := Forall (λ c, is_lower_hex c = true) (to_chars s).

Lemma valid_id_length n s : valid_id n s = true -> length (to_chars s) = n.
Proof. unfold valid_id. destruct (Nat.eqb_spec (length (to_chars s)) n); done. Qed.

Lemma flags_01 f : isValidTraceFlags f = true -> f = 0 \/ f = 1.
Proof.
  unfold isValidTraceFlags, TRACE_FLAG_SAMPLED. intros H%Z.eqb_eq.
  assert (Hd : f / 2 = 0).
  { apply Z.bits_inj'. intros i Hi. rewrite Z.bits_0.
    rewrite <- Z.shiftr_div_pow2 with (n := 1), Z.shiftr_spec by lia.
    apply (f_equal (λ x, Z.testbit x (i + 1))) in H. rewrite Z.land_spec, Z.lnot_spec, Z.bits_0 in H by lia.
    change 1 with (2 ^ 0) in H at 2. rewrite Z.pow2_bits_false in H by lia. by rewrite andb_true_r in H. }
  pose proof (Z.div_mod f 2). pose proof (Z.mod_pos_bound f 2). lia.
Qed.

Lemma parse_format c :
  isValidContext c = true -> lower_id (trace_id c) -> lower_id (span_id c) ->
  parseTraceparent (formatTraceparent c) =
    Ok (Some (mkTraceContext (trace_id c) (span_id c) "" (trace_flags c) "" ∅ true)).
Proof.
  intros Hv Ht Hs. apply andb_prop in Hv as [[Hvt Hvs]%andb_prop Hvf].
  unfold parseTraceparent, formatTraceparent. rewrite !to_chars_app. cbn [to_chars String.list_ascii_of_string app].
  change (to_chars "-" ++ ?x) with ("-"%char :: x). rewrite to_of_chars.
  change ("0"%char :: "0"%char :: "-"%char :: ?x) with (to_chars "00-" ++ x).
  rewrite match_traceparent_parts; [|by apply valid_id_length..|apply hex_fixed_length|done|done|apply hex_fixed_lower].
  rewrite !of_to_chars, Hvt, Hvs. cbn [negb orb].
  apply flags_01 in Hvf as [-> | ->]; vm_compute (stoul16 _); reflexivity.
Qed.

(** Entries that the header can carry: no comma, no equals sign in a key, no
    blank at the start of a key or at the end of a value. *)
Definition baggage_ok (b : gmap string string) : Prop :=
  map_Forall (λ k v,
    ("," ∉ to_chars k)%char /\ ("=" ∉ to_chars k)%char /\ ("," ∉ to_chars v)%char /\
    (forall c l, to_chars k = c :: l -> is_blank2 c = false) /\
    (forall c l, to_chars v = l ++ [c] -> is_blank2 c = false)) b.

Lemma parse_baggage_item b k v m :
  baggage_ok b -> b !! k = Some v -> parse_item (baggage_item (k, v)) m = <[k := v]> m.
Proof.
  intros Hb Hk. destruct (Hb k v Hk) as (_ & Heq & _ & Hfront & Hback). unfold parse_item, baggage_item. cbn [fst snd].
  rewrite drop_front_keep.
  - rewrite drop_back_keep; [by rewrite split_at_first, !of_to_chars|].
    intros c l Hl. destruct (to_chars v) as [|x v' _] eqn:Hv using rev_ind.
    + apply app_inj_tail in Hl as [_ <-]. done.
    + rewrite app_comm_cons, app_assoc in Hl. apply app_inj_tail in Hl as [_ <-]. by eapply Hback.
  - intros c l Hl. destruct (to_chars k) as [|x k'] eqn:Hkk; injection Hl as <- _; [done|]. by eapply Hfront.
Qed.

Lemma foldl_insert_map (l : list (string * string)) (m : gmap string string) :
  NoDup (fst <$> l) -> foldl (λ m kv, <[fst kv := snd kv]> m) m l = list_to_map l ∪ m.
Proof.
  revert m. induction l as [|[k v] l IH]; intros m Hnd; [symmetry; apply (left_id_L ∅ (∪))|].
  cbn in Hnd |- *. apply NoDup_cons in Hnd as [Hk Hnd]. rewrite (IH (<[k := v]> m) Hnd).
  rewrite <- insert_union_l, <- insert_union_r; [done|]. by apply not_elem_of_list_to_map_1.
Qed.

Lemma key_order_map (b : gmap string string) :
  NoDup (fst <$> key_order b) /\ list_to_map (key_order b) = b.
Proof.
  assert (Hnd : NoDup (fst <$> key_order b)).
  { rewrite (key_order_perm b). apply NoDup_fst_map_to_list. }
  split; [done|]. rewrite (list_to_map_proper _ (map_to_list b) Hnd (key_order_perm b)). apply list_to_map_to_list.
Qed.

Lemma baggage_roundtrip b : baggage_ok b -> parseBaggage (formatBaggage b) = b.
Proof.
  intros Hb. unfold parseBaggage, formatBaggage. rewrite to_of_chars, getlines_join.
  - destruct (key_order_map b) as [Hnd Hmap]. rewrite <- (right_id_L ∅ (∪) b) at 2. rewrite <- Hmap at 2.
    rewrite <- (foldl_insert_map (key_order b) ∅ Hnd).
    assert (Hall : Forall (λ kv, b !! fst kv = Some (snd kv)) (key_order b)).
    { apply Forall_forall. intros [k v] Hkv. by apply elem_of_key_order in Hkv. }
    generalize (∅ : gmap string string). clear Hnd Hmap. induction Hall as [|[k v] l Hkv _ IH]; intros m; [done|].
    rewrite fmap_cons. cbn [foldl fst snd]. rewrite (parse_baggage_item b k v m Hb Hkv). apply IH.
  - apply Forall_fmap, Forall_forall. intros [k v] Hkv%elem_of_key_order. destruct (Hb k v Hkv) as (Hk & _ & Hv & _).
    split; unfold baggage_item; cbn [fst snd]; [|by destruct (to_chars k)].
    intros [?|[Hc|?]%elem_of_cons]%elem_of_app; done.
Qed.

(** C33: a valid context with lower-case identifiers and a baggage that the header
    can carry is received as it was sent: injected into a carrier that has no
    older headers for what the context lacks, it is extracted with the same
    identifiers, flags, state and baggage, marked as remote. *)
Theorem context_survives_propagation c h :
  isValidContext c = true -> lower_id (trace_id c) -> lower_id (span_id c) -> baggage_ok (baggage c) ->
  (trace_state c = "" -> h !! TRACESTATE_HEADER = None) -> (baggage c = ∅ -> h !! BAGGAGE_HEADER = None) ->
  extractTraceContext (injectTraceContext c h) =
    Ok (mkTraceContext (trace_id c) (span_id c) "" (trace_flags c) (trace_state c) (baggage c) true).
Proof.
  intros Hv Ht Hs Hb Hst Hbg. unfold injectTraceContext. rewrite Hv. cbn [negb].
  set (h1 := <[TRACEPARENT_HEADER := _]> h).
  set (h2 := if bool_decide (trace_state c = "") then h1 else _).
  set (h3 := if bool_decide (baggage c = ∅) then h2 else _).
  assert (H1 : h3 !! TRACEPARENT_HEADER = Some (formatTraceparent c)).
  { subst h3 h2. do 2 case_bool_decide; rewrite ?lookup_insert_ne by done; apply lookup_insert_eq. }
  assert (H2 : default "" (h3 !! TRACESTATE_HEADER) = trace_state c).
  { subst h3 h2. do 2 case_bool_decide; rewrite ?lookup_insert_ne by done; rewrite ?lookup_insert_eq; try done;
      subst h1; rewrite lookup_insert_ne, Hst by done; done. }
  assert (H3 : match h3 !! BAGGAGE_HEADER with Some s => parseBaggage s | None => ∅ end = baggage c).
  { subst h3 h2. case_bool_decide as Hbe; [|by rewrite lookup_insert_eq, baggage_roundtrip].
    case_bool_decide; rewrite ?lookup_insert_ne by done; subst h1; rewrite lookup_insert_ne, Hbg by done; done. }
  unfold extractTraceContext. rewrite H1, parse_format by done. cbn. unfold parseTracestate. rewrite H3, <- H2.
  by destruct (h3 !! TRACESTATE_HEADER).
Qed.

(** A sampled context with a state and two entries, into an empty carrier. *)
Lemma context_survives_propagation_witness :
  let c := mkTraceContext "0af7651916cd43dd8448eb211c80319c" "b7ad6b7169203331" "" 1 "vendor=x"
             {["user" := "42"; "robot" := "a b"]} false in
  extractTraceContext (injectTraceContext c ∅) =
    Ok (mkTraceContext (trace_id c) (span_id c) "" (trace_flags c) (trace_state c) (baggage c) true).
Proof.
  assert (Hlow : forall s, forallb is_lower_hex (to_chars s) = true -> lower_id s).
  { intros s Hs. apply Forall_forall. intros c Hc%list_elem_of_In. by eapply forallb_forall in Hs. }
  apply context_survives_propagation.
  - vm_compute. reflexivity.
  - apply Hlow. vm_compute. reflexivity.
  - apply Hlow. vm_compute. reflexivity.
  - assert (Hend : forall l l' (c d : ascii), l ++ [c] = l' ++ [d] -> c = d) by (intros; by eapply app_inj_tail).
    cbn [baggage]. intros k v [[<- <-]|[_ [<- <-]%lookup_singleton_Some]]%lookup_insert_Some;
      (split_and!; [by apply (bool_decide_eq_true_1 _)..|intros c l [= <- _]; reflexivity|]); intros c l Hl.
    + change (["4"%char] ++ ["2"%char] = l ++ [c]) in Hl. apply Hend in Hl as <-. reflexivity.
    + change (["a"; " "]%char ++ ["b"%char] = l ++ [c]) in Hl. apply Hend in Hl as <-. reflexivity.
  - done.
  - done.
Defined.

(** An identifier in capitals is valid, but the header made of it is not. *)
Theorem uppercase_identifier_is_lost :
  let c := mkTraceContext "0AF7651916CD43DD8448EB211C80319C" "b7ad6b7169203331" "" 1 "" ∅ false in
  isValidContext c = true /\ extractTraceContext (injectTraceContext c ∅) = Ok invalidContext.
Proof. vm_compute. done. Qed.

(** Injecting into a used carrier leaves the old baggage there, which the
    receiver then takes for the new context's. *)
Theorem stale_baggage_is_received :
  let c := mkTraceContext "0af7651916cd43dd8448eb211c80319c" "b7ad6b7169203331" "" 1 "" ∅ false in
  let h := {[BAGGAGE_HEADER := "user=old"]} in
  (λ r, match r with Ok c => Some (baggage c) | Throw _ => None end) (extractTraceContext (injectTraceContext c h)) =
    Some {["user" := "old"]}.
Proof. vm_compute. reflexivity. Qed.

(** ** Spans *)

Record Span := mkSpan {
  operation_name_ : string;
  context_ : TraceContext;
  start_time_ : Z;
  end_time_ : Z;
  is_recording_ : bool;
  status_ : SpanStatus;
  status_message_ : string;
  attributes_ : gmap string string
}.

Definition newSpan (name : string) (c : TraceContext) (start : Z) : Span := mkSpan name c start 0 true UNSET "" ∅.

(** [end], also what the destructor does. *)
Definition span_end (now : Z) (s : Span) : Span :=
  if negb (is_recording_ s) then s
  else mkSpan (operation_name_ s) (context_ s) (start_time_ s) now false (status_ s) (status_message_ s) (attributes_ s).

Definition span_setStatus (st : SpanStatus) (msg : string) (s : Span) : Span :=
  mkSpan (operation_name_ s) (context_ s) (start_time_ s) (end_time_ s) (is_recording_ s) st msg (attributes_ s).

Definition span_setAttribute (k v : string) (s : Span) : Span :=
  mkSpan (operation_name_ s) (context_ s) (start_time_ s) (end_time_ s) (is_recording_ s) (status_ s)
    (status_message_ s) (<[k := v]> (attributes_ s)).

(** [addEvent] only writes to the log. *)
Definition span_addEvent (name : string) (s : Span) : Span := s.

Abbreviation heap := (list Span).

(** The destructor of a handle that is dropped. *)
Definition release (now : Z) (i : option nat) (h : heap) : heap :=
  match i with Some i => alter (span_end now) i h | None => h end.

(** ** Tracers *)

(** What the generator gives for one span. *)
Record Random := mkRandom { r_high : Z; r_low : Z; r_id : Z }.

Definition add_attributes (l : list (string * string)) (s : Span) : Span :=
  foldl (λ s kv, span_setAttribute (fst kv) (snd kv) s) s l.

(** [startSpan] with an explicit parent. *)
Definition startSpanFrom (name : string) (p : TraceContext) (attrs : list (string * string)) (r : Random) (now : Z)
    (h : heap) : nat * heap :=
  let c := mkTraceContext (trace_id p) (generateSpanId (r_id r)) (span_id p) (trace_flags p) (trace_state p)
             (baggage p) (is_remote p) in
  (length h, h ++ [add_attributes attrs (newSpan name c now)]).

(** [startSpan]: a child of the current span of the thread, or a root. *)
Definition startSpan (current : option nat) (name : string) (attrs : list (string * string)) (r : Random) (now : Z)
    (h : heap) : nat * heap :=
  let c :=
    match current ≫= (h !!.) with
    | Some sp =>
      let p := context_ sp in
      mkTraceContext (trace_id p) (generateSpanId (r_id r)) (span_id p) (trace_flags p) (trace_state p) (baggage p) false
    | None =>
      mkTraceContext (generateTraceId (r_high r) (r_low r)) (generateSpanId (r_id r)) "" TRACE_FLAG_SAMPLED "" ∅ false
    end in
  (length h, h ++ [add_attributes attrs (newSpan name c now)]).

(** The provider keeps one tracer per name; a tracer is a number. *)
Record TracerProvider := mkProvider { tracers_ : gmap string nat; created : nat }.
Definition newProvider : TracerProvider := mkProvider ∅ 0.

Definition getTracer (name : string) (p : TracerProvider) : nat * TracerProvider :=
  match tracers_ p !! name with
  | Some t => (t, p)
  | None => (created p, mkProvider (<[name := created p]> (tracers_ p)) (S (created p)))
  end.
Definition provider_shutdown (p : TracerProvider) : TracerProvider := mkProvider ∅ (created p).
Definition forceFlush (timeout_ms : Z) (p : TracerProvider) : bool := true.
Definition getGlobalTracerProvider (g : option TracerProvider) : TracerProvider := default newProvider g.

(** ** RTCycleTracer *)

Record RTCycleTracer := mkCycleTracer {
  ct_enabled_ : bool;
  sampling_rate_ : Z;
  ct_total_cycles_ : Z;
  sampled_cycles_ : Z;
  current_cycle_span_ : option nat;
  current_cycle_number_ : Z;
  cycle_start_time_ : Z
}.

Definition one : Z := double_of_int 1.
(** 0.1 *)
Definition default_rate : Z := 0x3FB999999999999A.

Definition newRTCycleTracer (rate : Z) : RTCycleTracer :=
  mkCycleTracer true (if double_lt rate 0 || double_lt one rate then default_rate else rate) 0 0 None 0 0.

(** [x] is the number the distribution gives. *)
Definition shouldSample (x : Z) (t : RTCycleTracer) : bool :=
  if double_le one (sampling_rate_ t) then true
  else if double_le (sampling_rate_ t) 0 then false
  else double_lt x (sampling_rate_ t).

Section CycleTracer.
Variable current : option nat.  (* the current span of the thread *)

Definition startCycle (n x : Z) (r : Random) (now : Z) (t : RTCycleTracer) (h : heap) : RTCycleTracer * heap :=
  if negb (ct_enabled_ t) then (t, h)
  else
    let total := u64 (ct_total_cycles_ t + 1) in
    if negb (shouldSample x t) then
      (mkCycleTracer (ct_enabled_ t) (sampling_rate_ t) total (sampled_cycles_ t) None (current_cycle_number_ t)
         (cycle_start_time_ t), release now (current_cycle_span_ t) h)
    else
      let '(i, h) := startSpan current "RT.cycle"
                       [("mxrc.component", "rt_executive"); ("mxrc.cycle_number", pretty n); ("mxrc.operation", "rt_cycle")]
                       r now h in
      (mkCycleTracer (ct_enabled_ t) (sampling_rate_ t) total (u64 (sampled_cycles_ t + 1)) (Some i) n now,
       release now (current_cycle_span_ t) h).

(** [std::chrono::duration_cast<microseconds>] of nanoseconds. *)
Definition micros (ns : Z) : Z := Z.quot ns 1000.

Definition endCycle (success : bool) (now : Z) (t : RTCycleTracer) (h : heap) : RTCycleTracer * heap :=
  match current_cycle_span_ t with
  | Some i =>
    if negb (ct_enabled_ t) then (t, h)
    else
      let f s :=
        let s := span_setAttribute "mxrc.cycle_duration_us" (pretty (micros (now - cycle_start_time_ t))) s in
        let s := if success then span_setStatus OK "" s else span_setStatus ERROR "RT cycle failed" s in
        span_end now s in
      (mkCycleTracer (ct_enabled_ t) (sampling_rate_ t) (ct_total_cycles_ t) (sampled_cycles_ t) None
         (current_cycle_number_ t) (cycle_start_time_ t), alter f i h)
  | None => (t, h)
  end.

Definition recordAction (t : RTCycleTracer) (h : heap) : heap :=
  match current_cycle_span_ t with
  | Some i => if negb (ct_enabled_ t) then h else alter (span_addEvent "action.executed") i h
  | None => h
  end.

(** [static_cast<int64_t>] and 64-bit differences. *)
Definition i64 (x : Z) : Z := wrap 64 (x + 2 ^ 63) - 2 ^ 63.

Definition recordTiming (schedule actual deadline : Z) (t : RTCycleTracer) (h : heap) : heap :=
  match current_cycle_span_ t with
  | Some i =>
    if negb (ct_enabled_ t) then h
    else
      let jitter := i64 (i64 actual - i64 schedule) in
      let slack := i64 (i64 deadline - i64 actual) in
      let f s :=
        let s := add_attributes [("mxrc.schedule_time_us", pretty schedule); ("mxrc.actual_time_us", pretty actual);
                   ("mxrc.deadline_us", pretty deadline); ("mxrc.jitter_us", pretty jitter); ("mxrc.slack_us", pretty slack)] s in
        let s := if 1000 <? Z.abs jitter then span_addEvent "high_jitter_detected" s else s in
        if slack <? 1000 then span_addEvent "low_slack_detected" s else s in
      alter f i h
  | None => h
  end.

Definition ct_setEnabled (e : bool) (t : RTCycleTracer) : RTCycleTracer :=
  mkCycleTracer e (sampling_rate_ t) (ct_total_cycles_ t) (sampled_cycles_ t) (current_cycle_span_ t)
    (current_cycle_number_ t) (cycle_start_time_ t).

Definition setSamplingRate (rate : Z) (t : RTCycleTracer) : RTCycleTracer :=
  if double_lt rate 0 || double_lt one rate then t
  else mkCycleTracer (ct_enabled_ t) rate (ct_total_cycles_ t) (sampled_cycles_ t) (current_cycle_span_ t)
         (current_cycle_number_ t) (cycle_start_time_ t).

(** A call of the tracer, with what it reads from the generators and the clock. *)
Inductive CycleCall :=
| CStart (n x : Z) (r : Random) (now : Z)
| CEnd (success : bool) (now : Z)
| CAction
| CTiming (schedule actual deadline : Z)
| CEnable (e : bool)
| CRate (rate : Z).

Definition cycle_call (c : CycleCall) (th : RTCycleTracer * heap) : RTCycleTracer * heap :=
  let '(t, h) := th in
  match c with
  | CStart n x r now => startCycle n x r now t h
  | CEnd success now => endCycle success now t h
  | CAction => (t, recordAction t h)
  | CTiming s a d => (t, recordTiming s a d t h)
  | CEnable e => (ct_setEnabled e t, h)
  | CRate r => (setSamplingRate r t, h)
  end.
End CycleTracer.

Lemma add_attributes_recording l s : is_recording_ (add_attributes l s) = is_recording_ s.
Proof. revert s. induction l as [|kv l IH]; intros s; [done|]. exact (IH (span_setAttribute (fst kv) (snd kv) s)). Qed.

Lemma span_end_recording now s : is_recording_ (span_end now s) = false.
Proof. unfold span_end. by destruct (is_recording_ s) eqn:H. Qed.

(** The handles that record are given by [P]. *)
Definition recording (P : nat -> Prop) (h : heap) : Prop :=
  forall i s, h !! i = Some s -> is_recording_ s = true <-> P i.

Lemma recording_ext (P Q : nat -> Prop) h :
  (forall i, (i < length h)%nat -> P i <-> Q i) -> recording P h -> recording Q h.
Proof. intros HPQ Hr i s Hi. rewrite (Hr i s Hi). apply HPQ. by eapply lookup_lt_Some. Qed.

(** A change that keeps a span recording. *)
Lemma recording_alter P h f i :
  (forall s, is_recording_ (f s) = is_recording_ s) -> recording P h -> recording P (alter f i h).
Proof.
  intros Hf Hr j s. destruct (decide (j = i)) as [-> |Hne].
  - rewrite list_lookup_alter_eq. intros (s0 & Hs0 & ->)%fmap_Some. rewrite Hf. by apply Hr.
  - rewrite list_lookup_alter_ne by done. apply Hr.
Qed.

(** A change that ends it. *)
Lemma recording_stop P h f i :
  (forall s, is_recording_ (f s) = false) -> recording P h -> recording (λ j, P j /\ j <> i) (alter f i h).
Proof.
  intros Hf Hr j s. destruct (decide (j = i)) as [-> |Hne].
  - rewrite list_lookup_alter_eq. intros (s0 & _ & ->)%fmap_Some. rewrite Hf. naive_solver.
  - rewrite list_lookup_alter_ne by done. intros Hs. rewrite (Hr j s Hs). naive_solver.
Qed.

Lemma recording_new P h s :
  is_recording_ s = true -> recording P h -> recording (λ j, (j < length h)%nat /\ P j \/ j = length h) (h ++ [s]).
Proof.
  intros Hs Hr i s0 Hi. destruct (decide (i < length h)%nat) as [Hlt|Hge].
  - rewrite lookup_app_l in Hi by done. rewrite (Hr i s0 Hi). split; [auto|]. intros [[_ ?]|?]; [done|lia].
  - pose proof (lookup_lt_Some _ _ _ Hi) as Hl. rewrite length_app in Hl. cbn in Hl.
    assert (i = length h) as -> by lia. rewrite lookup_app_r, Nat.sub_diag in Hi by lia. injection Hi as <-.
    split; [by right|done].
Qed.

Lemma release_length now i h : length (release now i h) = length h.
Proof. destruct i; [apply length_alter|done]. Qed.

Lemma startSpan_new cur name attrs r now h :
  exists s, startSpan cur name attrs r now h = (length h, h ++ [s]) /\ is_recording_ s = true.
Proof. unfold startSpan. eexists. split; [reflexivity|]. by rewrite add_attributes_recording. Qed.

Record cycle_ok (bound : Z) (t : RTCycleTracer) (h : heap) : Prop := {
  co_counts : 0 <= sampled_cycles_ t <= ct_total_cycles_ t /\ ct_total_cycles_ t <= bound;
  co_spans : Z.of_nat (length h) = sampled_cycles_ t;
  co_current i : current_cycle_span_ t = Some i -> S i = length h;
  co_recording : recording (λ i, current_cycle_span_ t = Some i) h
}.

Section CycleFacts.
Context (current : option nat).

Lemma startCycle_ok bound n x r now t h :
  cycle_ok bound t h -> bound + 1 < 2 ^ 64 ->
  cycle_ok (bound + 1) (fst (startCycle current n x r now t h)) (snd (startCycle current n x r now t h)).
Proof.
  intros [Hc Hs Hcur Hr] Hb. unfold startCycle.
  destruct (ct_enabled_ t) eqn:He; cbn [negb fst snd]; [|split; [lia|done..]].
  assert (Hu : forall x, 0 <= x <= bound -> u64 (x + 1) = x + 1).
  { intros y Hy. unfold u64, wrap. apply Z.mod_small. lia. }
  assert (Hrel : recording (λ _, False) (release now (current_cycle_span_ t) h)).
  { destruct (current_cycle_span_ t) as [i|]; cbn [release].
    - eapply recording_ext; [|apply recording_stop; [apply span_end_recording|exact Hr]]. naive_solver.
    - eapply recording_ext; [|exact Hr]. naive_solver. }
  destruct (shouldSample x t); cbn [negb].
  - destruct (startSpan_new current "RT.cycle" [("mxrc.component", "rt_executive"); ("mxrc.cycle_number", pretty n);
      ("mxrc.operation", "rt_cycle")] r now h) as (s & -> & Hrec). cbn [fst snd].
    split; cbn [ct_total_cycles_ sampled_cycles_ current_cycle_span_]; rewrite ?Hu by lia.
    + lia.
    + rewrite release_length, length_app. cbn. lia.
    + intros i [= <-]. rewrite release_length, length_app. cbn. lia.
    + assert (Hswap : release now (current_cycle_span_ t) (h ++ [s]) = release now (current_cycle_span_ t) h ++ [s]).
      { destruct (current_cycle_span_ t) as [i|]; [|done]. cbn [release]. apply alter_app_l. rewrite <- (Hcur i eq_refl). lia. }
      rewrite Hswap. eapply recording_ext; [|apply recording_new; [exact Hrec|exact Hrel]].
      intros i _. rewrite release_length. naive_solver.
  - split; cbn [fst snd ct_total_cycles_ sampled_cycles_ current_cycle_span_]; rewrite ?Hu by lia; [lia| |done|].
    + by rewrite release_length.
    + eapply recording_ext; [|exact Hrel]. naive_solver.
Qed.

Lemma recordAction_id t h : recordAction t h = h.
Proof.
  unfold recordAction. destruct (current_cycle_span_ t); [|done]. destruct (negb _); [done|].
  apply list_alter_id. done.
Qed.

Lemma recordTiming_recording s a d t h P :
  recording P h -> length (recordTiming s a d t h) = length h /\ recording P (recordTiming s a d t h).
Proof.
  intros Hr. unfold recordTiming. destruct (current_cycle_span_ t); [|done]. destruct (negb _); [done|].
  rewrite length_alter. split; [done|]. apply recording_alter; [|done].
  intros sp. by destruct (_ <? Z.abs _), (_ <? 1000).
Qed.

Lemma cycle_call_ok bound c t h :
  cycle_ok bound t h -> bound + 1 < 2 ^ 64 ->
  cycle_ok (bound + 1) (fst (cycle_call current c (t, h))) (snd (cycle_call current c (t, h))).
Proof.
  intros Hok Hb. destruct c as [n x r now|success now| |s a d|e|r]; cbn [cycle_call].
  - by apply startCycle_ok.
  - destruct Hok as [Hc Hs Hcur Hr]. unfold endCycle.
    destruct (current_cycle_span_ t) as [i|] eqn:Hi; [|split; cbn [fst snd]; [lia|done|by rewrite Hi|by rewrite Hi]].
    destruct (ct_enabled_ t); cbn [negb]; [|split; cbn [fst snd]; [lia|done|by rewrite Hi|by rewrite Hi]].
    split; cbn [fst snd ct_total_cycles_ sampled_cycles_ current_cycle_span_]; rewrite ?length_alter; [lia|done|done|].
    eapply recording_ext; [|eapply recording_stop; [|exact Hr]].
    + intros j _. cbn. naive_solver.
    + intros sp. destruct success; apply span_end_recording.
  - destruct Hok as [Hc Hs Hcur Hr]. cbn [fst snd]. rewrite recordAction_id. split; [lia|done..].
  - destruct Hok as [Hc Hs Hcur Hr]. cbn [fst snd]. destruct (recordTiming_recording s a d t h _ Hr) as [Hl Hr'].
    split; [lia|by rewrite Hl|by rewrite Hl|done].
  - destruct Hok as [Hc Hs Hcur Hr]. split; [cbn; lia|done..].
  - destruct Hok as [Hc Hs Hcur Hr]. unfold setSamplingRate.
    destruct (_ || _); split; cbn [fst snd ct_total_cycles_ sampled_cycles_]; (lia || done).
Qed.

(** Whatever is sampled, enabled, recorded and left open, the tracer starts
    one span per sampled cycle, never samples more cycles than it counts, and at
    any time the only span that still records is the one of the current cycle. *)
Theorem cycle_tracer_closes_every_span rate calls :
  Z.of_nat (length calls) < 2 ^ 64 ->
  let '(t, h) := foldl (λ th c, cycle_call current c th) (newRTCycleTracer rate, []) calls in
  sampled_cycles_ t <= ct_total_cycles_ t /\ Z.of_nat (length h) = sampled_cycles_ t /\
  recording (λ i, current_cycle_span_ t = Some i) h.
Proof.
  intros Hl.
  assert (Hinv : forall bound th, cycle_ok bound (fst th) (snd th) -> bound + Z.of_nat (length calls) < 2 ^ 64 ->
    exists b, cycle_ok b (fst (foldl (λ th c, cycle_call current c th) th calls))
                (snd (foldl (λ th c, cycle_call current c th) th calls))).
  { clear Hl. induction calls as [|c calls IH]; intros bound th Hok Hb; [by exists bound|]. cbn [foldl length] in *.
    apply (IH (bound + 1)); [|lia]. destruct th as [t h]. apply cycle_call_ok; [done|lia]. }
  destruct (Hinv 0 (newRTCycleTracer rate, [])) as [b Hok].
  - split; [cbn; lia|done|done|]. intros i s Hi. by destruct i.
  - lia.
  - destruct (foldl _ _ calls) as [t h]. cbn [fst snd] in Hok. destruct Hok as [[? _] ? _ ?].
    split; [lia|done].
Qed.
End CycleFacts.

(** A sampled cycle that is closed, one that is left open by the next. *)
Lemma cycle_tracer_closes_every_span_witness :
  let r := mkRandom 1 2 3 in
  let calls := [CStart 1 0 r 10; CEnd true 20; CStart 2 0 r 30; CStart 3 0 r 40] in
  let '(t, h) := foldl (λ th c, cycle_call None c th) (newRTCycleTracer one, []) calls in
  sampled_cycles_ t <= ct_total_cycles_ t /\ Z.of_nat (length h) = sampled_cycles_ t /\
  recording (λ i, current_cycle_span_ t = Some i) h.
Proof. apply (cycle_tracer_closes_every_span None one). vm_compute. reflexivity. Defined.

(** ** EventBusTracer *)

(** What the tracer reads of an event; [thread] is the thread that runs the
    hook, whose maps it uses. *)
Record TracedEvent := mkTracedEvent { te_id : string; te_type : string; te_target : string }.

Record EventBusTracer := mkBusTracer {
  bt_enabled_ : bool;
  publish_spans_ : gmap (nat * string) nat;
  dispatch_spans_ : gmap (nat * string) nat
}.

Definition newEventBusTracer : EventBusTracer := mkBusTracer true ∅ ∅.

Definition event_attributes (operation : string) (e : TracedEvent) : list (string * string) :=
  [("event.id", te_id e); ("event.type", te_type e); ("event.target_id", te_target e);
   ("mxrc.component", "eventbus"); ("mxrc.operation", operation)].

Section BusTracer.
Variable current : nat -> option nat.  (* the current span of each thread *)

(** The span that the assignment replaces is dropped. *)
Definition onBeforePublish (thread : nat) (event : option TracedEvent) (r : Random) (now : Z) (t : EventBusTracer)
    (h : heap) : EventBusTracer * heap :=
  match event with
  | Some e =>
    if negb (bt_enabled_ t) then (t, h)
    else
      let '(i, h) := startSpan (current thread) "EventBus.publish" (event_attributes "publish" e) r now h in
      (mkBusTracer (bt_enabled_ t) (<[(thread, te_id e) := i]> (publish_spans_ t)) (dispatch_spans_ t),
       release now (publish_spans_ t !! (thread, te_id e)) h)
  | None => (t, h)
  end.

Definition onAfterPublish (thread : nat) (event : option TracedEvent) (success : bool) (now : Z) (t : EventBusTracer)
    (h : heap) : EventBusTracer * heap :=
  match event with
  | Some e =>
    if negb (bt_enabled_ t) then (t, h)
    else
      match publish_spans_ t !! (thread, te_id e) with
      | None => (t, h)
      | Some i =>
        let f s :=
          let s := if success then span_setStatus OK "" s else span_setStatus ERROR "Event publish failed" s in
          span_end now (span_addEvent "publish.completed" s) in
        (mkBusTracer (bt_enabled_ t) (delete (thread, te_id e) (publish_spans_ t)) (dispatch_spans_ t), alter f i h)
      end
  | None => (t, h)
  end.

Definition onBeforeDispatch (thread : nat) (event : option TracedEvent) (r : Random) (now : Z) (t : EventBusTracer)
    (h : heap) : EventBusTracer * heap :=
  match event with
  | Some e =>
    if negb (bt_enabled_ t) then (t, h)
    else
      let attrs := event_attributes "dispatch" e in
      let '(i, h) :=
        match publish_spans_ t !! (thread, te_id e) ≫= (h !!.) with
        | Some parent => startSpanFrom "EventBus.dispatch" (context_ parent) attrs r now h
        | None => startSpan (current thread) "EventBus.dispatch" attrs r now h
        end in
      (mkBusTracer (bt_enabled_ t) (publish_spans_ t) (<[(thread, te_id e) := i]> (dispatch_spans_ t)),
       release now (dispatch_spans_ t !! (thread, te_id e)) h)
  | None => (t, h)
  end.

Definition onAfterDispatch (thread : nat) (event : option TracedEvent) (subscriber_count : N) (now : Z)
    (t : EventBusTracer) (h : heap) : EventBusTracer * heap :=
  match event with
  | Some e =>
    if negb (bt_enabled_ t) then (t, h)
    else
      match dispatch_spans_ t !! (thread, te_id e) with
      | None => (t, h)
      | Some i =>
        let f s :=
          let s := span_setAttribute "event.subscriber_count" (pretty subscriber_count) s in
          let s := span_addEvent "dispatch.completed" s in
          span_end now (span_setStatus OK "" s) in
        (mkBusTracer (bt_enabled_ t) (publish_spans_ t) (delete (thread, te_id e) (dispatch_spans_ t)), alter f i h)
      end
  | None => (t, h)
  end.

Definition bt_setEnabled (e : bool) (t : EventBusTracer) : EventBusTracer :=
  mkBusTracer e (publish_spans_ t) (dispatch_spans_ t).

Inductive BusCall :=
| BBeforePublish (thread : nat) (e : option TracedEvent) (r : Random) (now : Z)
| BAfterPublish (thread : nat) (e : option TracedEvent) (success : bool) (now : Z)
| BBeforeDispatch (thread : nat) (e : option TracedEvent) (r : Random) (now : Z)
| BAfterDispatch (thread : nat) (e : option TracedEvent) (count : N) (now : Z)
| BEnable (e : bool).

Definition bus_call (c : BusCall) (th : EventBusTracer * heap) : EventBusTracer * heap :=
  let '(t, h) := th in
  match c with
  | BBeforePublish th e r now => onBeforePublish th e r now t h
  | BAfterPublish th e success now => onAfterPublish th e success now t h
  | BBeforeDispatch th e r now => onBeforeDispatch th e r now t h
  | BAfterDispatch th e count now => onAfterDispatch th e count now t h
  | BEnable e => (bt_setEnabled e t, h)
  end.
End BusTracer.

(** Which spans two maps hold. *)
Definition held (m m' : gmap (nat * string) nat) (i : nat) : Prop :=
  (exists k, m !! k = Some i) \/ (exists k, m' !! k = Some i).

Definition map_inj (m : gmap (nat * string) nat) : Prop :=
  forall k k' i, m !! k = Some i -> m !! k' = Some i -> k = k'.

Record spans_ok (m m' : gmap (nat * string) nat) (h : heap) : Prop := {
  so_inj : map_inj m;
  so_inj' : map_inj m';
  so_disjoint k k' i : m !! k = Some i -> m' !! k' = Some i -> False;
  so_bound i : held m m' i -> (i < length h)%nat;
  so_recording : recording (held m m') h
}.

Lemma spans_sym m m' h : spans_ok m m' h -> spans_ok m' m h.
Proof.
  intros [H1 H2 H3 H4 H5]. split; [done|done|naive_solver| |].
  - intros i Hi. apply H4. unfold held in *. naive_solver.
  - eapply recording_ext; [|exact H5]. unfold held. naive_solver.
Qed.

Lemma spans_close m m' h k i f :
  spans_ok m m' h -> m !! k = Some i -> (forall s, is_recording_ (f s) = false) ->
  spans_ok (delete k m) m' (alter f i h).
Proof.
  intros [H1 H2 H3 H4 H5] Hk Hf.
  assert (Hsub : forall k' j, delete k m !! k' = Some j <-> m !! k' = Some j /\ j <> i).
  { intros k' j. rewrite lookup_delete_Some. split; [|naive_solver]. intros [Hne Hj]. split; [done|].
    intros ->. apply Hne. by eapply H1. }
  split; [|done|..].
  - intros a b j [Ha _]%Hsub [Hb _]%Hsub. by eapply H1.
  - intros a b j [Ha _]%Hsub. by apply (H3 a).
  - intros j Hj. rewrite length_alter. apply H4. destruct Hj as [[a [Ha _]%Hsub]|]; [left; eauto|by right].
  - eapply recording_ext; [|by eapply recording_stop]. intros j _. unfold held. setoid_rewrite Hsub. split.
    + naive_solver.
    + intros [(a & Ha & Hne)|(a & Ha)]; split; [eauto|done|eauto|]. intros ->. by apply (H3 k a i).
Qed.

(** A dropped handle closes its span; the entry can then be reused. *)
Lemma spans_drop m m' h k now :
  spans_ok m m' h -> spans_ok (delete k m) m' (release now (m !! k) h).
Proof.
  intros H. destruct (m !! k) as [i|] eqn:Hk.
  - by apply spans_close; [..|apply span_end_recording].
  - by rewrite delete_id.
Qed.

Lemma spans_new d m' h k s :
  spans_ok d m' h -> d !! k = None -> is_recording_ s = true -> spans_ok (<[k := length h]> d) m' (h ++ [s]).
Proof.
  intros [H1 H2 H3 H4 H5] Hk Hs.
  assert (Hnew : forall k' j, <[k := length h]> d !! k' = Some j -> k' = k /\ j = length h \/ d !! k' = Some j).
  { intros k' j Hj. apply lookup_insert_Some in Hj as [[<- <-]|[_ Hj]]; auto. }
  assert (Hlt : forall k' j, d !! k' = Some j -> (j < length h)%nat) by (intros; apply H4; left; eauto).
  assert (Hlt' : forall k' j, m' !! k' = Some j -> (j < length h)%nat) by (intros; apply H4; right; eauto).
  split; [|done|..].
  - intros a b j [[-> ->]|Ha]%Hnew [[-> ?]|Hb]%Hnew; [done| | |by eapply H1].
    + apply Hlt in Hb. lia.
    + apply Hlt in Ha. lia.
  - intros a b j [[-> ->]|Ha]%Hnew Hb; [apply Hlt' in Hb; lia|by eapply H3].
  - intros j Hj. rewrite length_app. cbn [length]. destruct Hj as [(a & [[-> ->]|Ha]%Hnew)|(a & Ha)]; [lia| |].
    + apply Hlt in Ha. lia.
    + apply Hlt' in Ha. lia.
  - eapply recording_ext; [|by apply recording_new]. intros j _. unfold held. split.
    + intros [[_ [(a & Ha)|(a & Ha)]]| ->];
        [|right; eauto|left; exists k; apply lookup_insert_eq].
      left. exists a. rewrite lookup_insert_ne; [done|]. intros ->. congruence.
    + intros [(a & [[-> ->]|Ha]%Hnew)|(a & Ha)]; [by right|left; eauto..].
Qed.

Lemma spans_open m m' h k s now :
  spans_ok m m' h -> is_recording_ s = true ->
  spans_ok (<[k := length h]> m) m' (release now (m !! k) (h ++ [s])).
Proof.
  intros Hok Hs.
  assert (Hswap : release now (m !! k) (h ++ [s]) = release now (m !! k) h ++ [s]).
  { destruct (m !! k) as [i|] eqn:Hk; [|done]. apply alter_app_l. apply (so_bound _ _ _ Hok). left. eauto. }
  rewrite Hswap, <- (release_length now (m !! k) h), <- insert_delete_eq.
  apply spans_new; [by apply spans_drop|apply lookup_delete_eq|done].
Qed.

Section BusFacts.
Context (current : nat -> option nat).

Lemma bus_call_ok c t h :
  spans_ok (publish_spans_ t) (dispatch_spans_ t) h ->
  let '(t', h') := bus_call current c (t, h) in spans_ok (publish_spans_ t') (dispatch_spans_ t') h'.
Proof.
  intros Hok.
  destruct c as [th [e|] r now|th [e|] success now|th [e|] r now|th [e|] count now|e]; cbn [bus_call]; try done.
  - unfold onBeforePublish. destruct (bt_enabled_ t); [|done].
    destruct (startSpan_new (current th) "EventBus.publish" (event_attributes "publish" e) r now h) as (s & -> & Hs).
    by apply spans_open.
  - unfold onAfterPublish. destruct (bt_enabled_ t); [|done]. cbn [negb].
    destruct (publish_spans_ t !! _) eqn:Hk; [|done]. apply spans_close; [done..|].
    intros sp. apply span_end_recording.
  - unfold onBeforeDispatch. destruct (bt_enabled_ t); [|done]. cbn [negb].
    assert (exists s, is_recording_ s = true /\
      match publish_spans_ t !! (th, te_id e) ≫= (h !!.) with
      | Some parent => startSpanFrom "EventBus.dispatch" (context_ parent) (event_attributes "dispatch" e) r now h
      | None => startSpan (current th) "EventBus.dispatch" (event_attributes "dispatch" e) r now h
      end = (length h, h ++ [s])) as (s & Hs & ->).
    { destruct (_ ≫= _); eexists; (split; [|reflexivity]); by rewrite add_attributes_recording. }
    apply spans_sym, spans_open; [|done]. by apply spans_sym.
  - unfold onAfterDispatch. destruct (bt_enabled_ t); [|done]. cbn [negb].
    destruct (dispatch_spans_ t !! _) eqn:Hk; [|done]. apply spans_sym, spans_close; [by apply spans_sym|done|].
    intros sp. apply span_end_recording.
Qed.

(** Whatever threads publish and dispatch, in any order and with the tracer
    switched on and off in between, a span of the event bus is recording exactly
    as long as one thread's map of open publications or dispatches holds it: no
    span is left open and forgotten, none is closed early. *)
Theorem bus_spans_recorded_while_held calls :
  let '(t, h) := foldl (λ th c, bus_call current c th) (newEventBusTracer, []) calls in
  recording (held (publish_spans_ t) (dispatch_spans_ t)) h.
Proof.
  assert (Hinv : forall t h, spans_ok (publish_spans_ t) (dispatch_spans_ t) h ->
    let '(t, h) := foldl (λ th c, bus_call current c th) (t, h) calls in
    spans_ok (publish_spans_ t) (dispatch_spans_ t) h).
  { induction calls as [|c calls IH]; intros t h Hok; [done|]. cbn [foldl].
    pose proof (bus_call_ok c t h Hok) as Hc. destruct (bus_call current c (t, h)) as [t1 h1]. by apply IH. }
  specialize (Hinv newEventBusTracer []). destruct (foldl _ _ calls) as [t h]. apply Hinv.
  split; try done. intros i [[k Hk]|[k Hk]]; done.
Qed.
End BusFacts.

(** A dispatch on the thread that is still publishing is a child of the
    publication's span. *)
Theorem dispatch_joins_publication current th e r r' now now' t h :
  bt_enabled_ t = true -> publish_spans_ t !! (th, te_id e) = None -> dispatch_spans_ t !! (th, te_id e) = None ->
  let '(t1, h1) := onBeforePublish current th (Some e) r now t h in
  let '(t2, h2) := onBeforeDispatch current th (Some e) r' now' t1 h1 in
  exists p s, h2 = h ++ [p; s] /\ trace_id (context_ s) = trace_id (context_ p) /\
    parent_span_id (context_ s) = span_id (context_ p).
Proof.
  intros He Hp Hd. unfold onBeforePublish. rewrite He, Hp. cbn [negb].
  destruct (startSpan_new (current th) "EventBus.publish" (event_attributes "publish" e) r now h) as (p & -> & _).
  unfold onBeforeDispatch. cbn [bt_enabled_ publish_spans_ dispatch_spans_ release negb].
  rewrite Hd, lookup_insert_eq. cbn [mbind option_bind]. rewrite lookup_app_r, Nat.sub_diag by lia.
  cbn [lookup list_lookup release]. unfold startSpanFrom. eexists p, _. by rewrite <- app_assoc.
Qed.

(** The bus dispatches on a thread of its own, whose maps never hold the
    publication: there the dispatch is the root of a trace of its own. *)
Theorem dispatch_elsewhere_is_a_root current th th' e r r' now now' t h :
  bt_enabled_ t = true -> th <> th' -> current th' = None ->
  publish_spans_ t !! (th, te_id e) = None ->
  publish_spans_ t !! (th', te_id e) = None -> dispatch_spans_ t !! (th', te_id e) = None ->
  let '(t1, h1) := onBeforePublish current th (Some e) r now t h in
  let '(t2, h2) := onBeforeDispatch current th' (Some e) r' now' t1 h1 in
  exists p s, h2 = h ++ [p; s] /\ parent_span_id (context_ s) = "" /\
    trace_id (context_ s) = generateTraceId (r_high r') (r_low r').
Proof.
  intros He Hne Hc Hp Hp' Hd. unfold onBeforePublish. rewrite He, Hp. cbn [negb].
  destruct (startSpan_new (current th) "EventBus.publish" (event_attributes "publish" e) r now h) as (p & -> & _).
  unfold onBeforeDispatch. cbn [bt_enabled_ publish_spans_ dispatch_spans_ release negb].
  rewrite Hd, lookup_insert_ne, Hp' by congruence. cbn [mbind option_bind release]. unfold startSpan. rewrite Hc.
  eexists p, _. by rewrite <- app_assoc.
Qed.
