(* ===== verification/Fieldbus.v ===== *)
(** * Fieldbus (src/core/fieldbus)

    What a fieldbus driver promises ([IFieldbus]), the mock driver, the driver
    around the EtherCAT master, and the factory that creates drivers by the name
    of their protocol.  Vectors of doubles hold their bit patterns; clock
    readings (nanoseconds) are arguments. *)

From stdpp Require Import pretty.
From S2P Require Import Prelude Ieee754 Pdo EtherCATMaster.
#[local] Open Scope Z_scope.

(** ** The interface *)

Inductive FieldbusStatus := FB_UNINITIALIZED | FB_INITIALIZED | FB_RUNNING | FB_ERROR | FB_STOPPED.

#[export] Instance FieldbusStatus_eq_dec : EqDecision FieldbusStatus.
Proof. solve_decision. Defined.

Record FieldbusConfig := mkFieldbusConfig {
  protocol : string;
  config_file : string;
  cycle_time_us : Z;
  enable_diagnostics : bool;
  device_count : nat
}.

Record FieldbusStats := mkFieldbusStats {
  total_cycles : Z;
  missed_cycles : Z;
  communication_errors : Z;
  bytes_sent : Z;
  bytes_received : Z;
  avg_cycle_time_us : Z;
  max_cycle_time_us : Z
}.
Definition newFieldbusStats : FieldbusStats := mkFieldbusStats 0 0 0 0 0 0 0.

Definition status_eqb (a b : FieldbusStatus) : bool := bool_decide (a = b).

Lemma negb_status_eqb a b : negb (status_eqb a b) = false <-> a = b.
Proof. unfold status_eqb. case_bool_decide; naive_solver. Qed.

(** A driver is an object with a status; its calls return [None] where the
    language leaves the result open. [D] is the driver with what it drives. *)
Class IFieldbus (D : Type) := {
  fb_initialize : D -> option (bool * D);
  fb_start : Z -> D -> option (bool * D);
  fb_stop : D -> option (bool * D);
  fb_shutdown : D -> option D;
  fb_readSensors : Z -> list Z -> D -> option (bool * list Z * D);
  fb_writeActuators : list Z -> D -> option (bool * D);
  fb_readDigitalInputs : list bool -> D -> option (bool * list bool * D);
  fb_writeDigitalOutputs : list bool -> D -> option (bool * D);
  fb_getStatus : D -> FieldbusStatus;
  fb_getStatistics : D -> FieldbusStats;
  fb_getProtocolName : D -> string;
  fb_getDeviceCount : D -> nat;
  fb_getLastError : D -> option string;
  fb_emergencyStop : D -> option (bool * D);
  fb_resetErrors : D -> option (bool * D)
}.

(** The calls that change a driver, with what they read, and their results. *)
Inductive ICall :=
| IInitialize | IStart (now : Z) | IStop | IShutdown | IRead (now : Z) (data : list Z) | IWrite (data : list Z)
| IDigitalIn (data : list bool) | IDigitalOut (data : list bool) | IEmergency | IReset.

Definition icall {D} `{!IFieldbus D} (c : ICall) (d : D) : option (bool * D) :=
  match c with
  | IInitialize => fb_initialize d
  | IStart now => fb_start now d
  | IStop => fb_stop d
  | IShutdown => d ← fb_shutdown d; Some (true, d)
  | IRead now data => '(b, _, d) ← fb_readSensors now data d; Some (b, d)
  | IWrite data => fb_writeActuators data d
  | IDigitalIn data => '(b, _, d) ← fb_readDigitalInputs data d; Some (b, d)
  | IDigitalOut data => fb_writeDigitalOutputs data d
  | IEmergency => fb_emergencyStop d
  | IReset => fb_resetErrors d
  end.

(** A session: the calls with their results. *)
Inductive session {D} `{!IFieldbus D} (d0 : D) : list (ICall * bool) -> D -> Prop :=
| session_new : session d0 [] d0
| session_call tr d c b d' : session d0 tr d -> icall c d = Some (b, d') -> session d0 (tr ++ [(c, b)]) d'.

(** What every driver keeps to: the life cycle, and that data only moves while
    the driver runs. *)
Class FieldbusLaws (D : Type) `{!IFieldbus D} := {
  law_initialize d d' :
    fb_initialize d = Some (true, d') -> fb_getStatus d = FB_UNINITIALIZED /\ fb_getStatus d' = FB_INITIALIZED;
  law_start now d d' :
    fb_start now d = Some (true, d') ->
    (fb_getStatus d = FB_INITIALIZED \/ fb_getStatus d = FB_STOPPED) /\ fb_getStatus d' = FB_RUNNING;
  law_stop d d' : fb_stop d = Some (true, d') -> fb_getStatus d = FB_RUNNING /\ fb_getStatus d' = FB_STOPPED;
  law_shutdown d d' : fb_shutdown d = Some d' -> fb_getStatus d' = FB_UNINITIALIZED;
  law_read now data d b data' d' :
    fb_readSensors now data d = Some (b, data', d') ->
    fb_getStatus d' = fb_getStatus d /\ (b = true -> fb_getStatus d = FB_RUNNING) /\ (b = false -> data' = data);
  law_write data d b d' :
    fb_writeActuators data d = Some (b, d') ->
    fb_getStatus d' = fb_getStatus d /\ (b = true -> fb_getStatus d = FB_RUNNING);
  law_digital_out data d b d' :
    fb_writeDigitalOutputs data d = Some (b, d') ->
    fb_getStatus d' = fb_getStatus d /\ (b = true -> fb_getStatus d = FB_RUNNING);
  law_running c d b d' :
    icall c d = Some (b, d') -> fb_getStatus d' = FB_RUNNING ->
    fb_getStatus d = FB_RUNNING \/ (exists now, c = IStart now) /\ b = true
}.

(** Calls that move data. *)
Definition moves_data (c : ICall) : Prop :=
  match c with IRead _ _ | IWrite _ | IDigitalOut _ => True | _ => False end.

Section Client.
Context {D : Type} `{HF : !IFieldbus D} `{HL : !FieldbusLaws D}.

Lemma running_after_start d0 tr d :
  fb_getStatus d0 = FB_UNINITIALIZED -> session d0 tr d -> fb_getStatus d = FB_RUNNING ->
  exists now, (IStart now, true) ∈ tr.
Proof.
  intros H0. induction 1 as [|tr d c b d' _ IH Hc]; intros Hr; [congruence|].
  destruct (law_running _ _ _ _ Hc Hr) as [Hd|[[now ->] ->]].
  - destruct (IH Hd) as [now Hin]. exists now. apply elem_of_app. by left.
  - exists now. apply elem_of_app. right. by left.
Qed.

(** Of any driver that keeps to the laws: a call that moves data succeeds only
    while the driver runs, which needs an earlier successful start, and does not
    change its status. *)
Theorem data_moves_only_after_start d0 tr d c d' :
  fb_getStatus d0 = FB_UNINITIALIZED -> session d0 tr d -> moves_data c -> icall c d = Some (true, d') ->
  (exists now, (IStart now, true) ∈ tr) /\ fb_getStatus d = FB_RUNNING /\ fb_getStatus d' = FB_RUNNING.
Proof.
  intros H0 Hs Hm Hc.
  assert (Hst : fb_getStatus d = FB_RUNNING /\ fb_getStatus d' = FB_RUNNING).
  { destruct c as [|?| | |now data|data|data|data| |]; cbn in Hm, Hc; try done.
    - apply bind_Some in Hc as ([[b data'] e] & Hread & [= -> ->]).
      destruct (law_read _ _ _ _ _ _ Hread) as (-> & Ht & _). auto.
    - destruct (law_write _ _ _ _ Hc) as [-> Ht]. auto.
    - destruct (law_digital_out _ _ _ _ Hc) as [-> Ht]. auto. }
  split; [|done]. eapply running_after_start; [done..|]. apply Hst.
Qed.
End Client.

(** ** MockDriver *)

Module Mock.

Record MockDriver := mkMock {
  config_ : FieldbusConfig;
  device_count_ : nat;
  status_ : FieldbusStatus;
  sensor_data_ : list Z;
  actuator_data_ : list Z;
  digital_inputs_ : list bool;
  digital_outputs_ : list bool;
  stats_ : FieldbusStats;
  last_cycle_time_ : Z;
  last_error_ : option string;
  emergency_stopped_ : bool;
  simulation_tick_ : Z
}.

Definition newMockDriver (c : FieldbusConfig) (n : nat) : MockDriver :=
  mkMock c n FB_UNINITIALIZED (replicate n 0) (replicate n 0) (replicate n false) (replicate n false)
    newFieldbusStats 0 None false 0.

Definition set_status (s : FieldbusStatus) (d : MockDriver) : MockDriver :=
  mkMock (config_ d) (device_count_ d) s (sensor_data_ d) (actuator_data_ d) (digital_inputs_ d) (digital_outputs_ d)
    (stats_ d) (last_cycle_time_ d) (last_error_ d) (emergency_stopped_ d) (simulation_tick_ d).
Definition set_error (e : option string) (d : MockDriver) : MockDriver :=
  mkMock (config_ d) (device_count_ d) (status_ d) (sensor_data_ d) (actuator_data_ d) (digital_inputs_ d)
    (digital_outputs_ d) (stats_ d) (last_cycle_time_ d) e (emergency_stopped_ d) (simulation_tick_ d).
Definition set_emergency (b : bool) (d : MockDriver) : MockDriver :=
  mkMock (config_ d) (device_count_ d) (status_ d) (sensor_data_ d) (actuator_data_ d) (digital_inputs_ d)
    (digital_outputs_ d) (stats_ d) (last_cycle_time_ d) (last_error_ d) b (simulation_tick_ d).
Definition set_data (s a : list Z) (i o : list bool) (d : MockDriver) : MockDriver :=
  mkMock (config_ d) (device_count_ d) (status_ d) s a i o (stats_ d) (last_cycle_time_ d) (last_error_ d)
    (emergency_stopped_ d) (simulation_tick_ d).
Definition set_clock (now tick : Z) (d : MockDriver) : MockDriver :=
  mkMock (config_ d) (device_count_ d) (status_ d) (sensor_data_ d) (actuator_data_ d) (digital_inputs_ d)
    (digital_outputs_ d) (stats_ d) now (last_error_ d) (emergency_stopped_ d) tick.
Definition set_stats (st : FieldbusStats) (d : MockDriver) : MockDriver :=
  mkMock (config_ d) (device_count_ d) (status_ d) (sensor_data_ d) (actuator_data_ d) (digital_inputs_ d)
    (digital_outputs_ d) st (last_cycle_time_ d) (last_error_ d) (emergency_stopped_ d) (simulation_tick_ d).

(** 0.1, 0.01, 1.1 *)
Definition tenth : Z := 0x3FB999999999999A.
Definition hundredth : Z := 0x3F847AE147AE147B.
Definition one_and_tenth : Z := 0x3FF199999999999A.

(** [std::fill] *)
Definition fill {A} (x : A) (l : list A) : list A := (λ _, x) <$> l.

Section Ops.
Variable sin : Z -> Z.  (* std::sin *)

Definition initialize (d : MockDriver) : bool * MockDriver :=
  if negb (status_eqb (status_ d) FB_UNINITIALIZED) then (false, d)
  else
    let s := imap (λ i _, sin (double_mul (double_of_i64 (Z.of_nat i)) tenth)) (sensor_data_ d) in
    (true, set_status FB_INITIALIZED (set_data s (actuator_data_ d) (digital_inputs_ d) (digital_outputs_ d) d)).

Definition start (now : Z) (d : MockDriver) : bool * MockDriver :=
  if negb (status_eqb (status_ d) FB_INITIALIZED) && negb (status_eqb (status_ d) FB_STOPPED) then
    (false, set_error (Some "Cannot start: not initialized or stopped") d)
  else (true, set_emergency false (set_clock now 0 (set_status FB_RUNNING d))).

Definition stop (d : MockDriver) : bool * MockDriver :=
  if negb (status_eqb (status_ d) FB_RUNNING) then (false, d) else (true, set_status FB_STOPPED d).

Definition shutdown (d : MockDriver) : MockDriver :=
  let d := set_data (fill 0 (sensor_data_ d)) (fill 0 (actuator_data_ d)) (fill false (digital_inputs_ d))
             (fill false (digital_outputs_ d)) d in
  set_emergency false (set_error None (set_status FB_UNINITIALIZED d)).

(** The destructor. *)
Definition destroy (d : MockDriver) : MockDriver :=
  if negb (status_eqb (status_ d) FB_UNINITIALIZED) && negb (status_eqb (status_ d) FB_STOPPED) then shutdown d else d.

Definition updateStatistics (us : Z) (d : MockDriver) : MockDriver :=
  let st := stats_ d in
  let avg :=
    if double_eq (avg_cycle_time_us st) 0 then us
    else double_add (double_mul tenth us)
           (double_mul (double_sub (double_of_int 1) tenth) (avg_cycle_time_us st)) in
  let max := if double_lt (max_cycle_time_us st) us then us else max_cycle_time_us st in
  let missed :=
    if double_lt (double_mul (double_of_i64 (cycle_time_us (config_ d))) one_and_tenth) us
    then u64 (missed_cycles st + 1) else missed_cycles st in
  set_stats (mkFieldbusStats (u64 (total_cycles st + 1)) missed (communication_errors st) (bytes_sent st)
    (u64 (bytes_received st + Z.of_nat (device_count_ d) * 8)) avg max) d.

(** One simulated value: the actuator's plus a sine. *)
Definition sensor_value (tick : Z) (i : nat) (a : Z) : Z :=
  double_add a (double_mul tenth
    (sin (double_add (double_mul (double_of_i64 tick) hundredth)
                     (double_mul (double_of_i64 (Z.of_nat i)) tenth)))).

(** [data] is the caller's vector. *)
Definition readSensors (now : Z) (data : list Z) (d : MockDriver) : bool * list Z * MockDriver :=
  if negb (status_eqb (status_ d) FB_RUNNING) then (false, data, set_error (Some "Cannot read: not running") d)
  else if emergency_stopped_ d then (true, replicate (device_count_ d) 0, d)
  else
    let tick := u64 (simulation_tick_ d + 1) in
    let s := imap (sensor_value tick) (actuator_data_ d) in
    let us := double_div (double_of_i64 (now - last_cycle_time_ d)) (double_of_int 1000) in
    let d := set_clock now tick (set_data s (actuator_data_ d) (digital_inputs_ d) (digital_outputs_ d) d) in
    (true, sensor_data_ d, updateStatistics us d).

Definition writeActuators (data : list Z) (d : MockDriver) : bool * MockDriver :=
  if negb (status_eqb (status_ d) FB_RUNNING) then (false, set_error (Some "Cannot write: not running") d)
  else if emergency_stopped_ d then (false, set_error (Some "Cannot write: emergency stopped") d)
  else if negb (length data =? device_count_ d)%nat then
    (false, set_error (Some ("Data size mismatch: expected " +:+ pretty (N.of_nat (device_count_ d)) +:+ ", got " +:+
                             pretty (N.of_nat (length data)))) d)
  else
    let d := set_data (sensor_data_ d) data (digital_inputs_ d) (digital_outputs_ d) d in
    let st := stats_ d in
    (true, set_stats (mkFieldbusStats (total_cycles st) (missed_cycles st) (communication_errors st)
             (u64 (bytes_sent st + Z.of_nat (length data) * 8)) (bytes_received st) (avg_cycle_time_us st)
             (max_cycle_time_us st)) d).

Definition readDigitalInputs (data : list bool) (d : MockDriver) : bool * list bool * MockDriver :=
  if negb (status_eqb (status_ d) FB_RUNNING) then (false, data, d) else (true, digital_inputs_ d, d).

Definition writeDigitalOutputs (data : list bool) (d : MockDriver) : bool * MockDriver :=
  if negb (status_eqb (status_ d) FB_RUNNING) then (false, d)
  else if negb (length data =? device_count_ d)%nat then (false, set_error (Some "Digital output size mismatch") d)
  else (true, set_data (sensor_data_ d) (actuator_data_ d) (digital_inputs_ d) data d).

Definition emergencyStop (d : MockDriver) : bool * MockDriver :=
  (true, set_data (sensor_data_ d) (fill 0 (actuator_data_ d)) (digital_inputs_ d) (fill false (digital_outputs_ d))
           (set_emergency true d)).

Definition resetErrors (d : MockDriver) : bool * MockDriver :=
  if status_eqb (status_ d) FB_ERROR then (true, set_emergency false (set_error None (set_status FB_INITIALIZED d)))
  else (false, d).

Definition setSimulatedError (msg : string) (d : MockDriver) : MockDriver :=
  if bool_decide (msg = "") then
    let d := set_error None d in
    if status_eqb (status_ d) FB_ERROR then set_status FB_INITIALIZED d else d
  else set_status FB_ERROR (set_error (Some msg) d).

(** The calls of a client, with what they read. *)
Inductive Call :=
| KInitialize | KStart (now : Z) | KStop | KShutdown | KRead (now : Z) (data : list Z) | KWrite (data : list Z)
| KDigitalIn (data : list bool) | KDigitalOut (data : list bool) | KEmergency | KReset | KSimulate (msg : string).

Definition call (c : Call) (d : MockDriver) : MockDriver :=
  match c with
  | KInitialize => snd (initialize d)
  | KStart now => snd (start now d)
  | KStop => snd (stop d)
  | KShutdown => shutdown d
  | KRead now data => snd (readSensors now data d)
  | KWrite data => snd (writeActuators data d)
  | KDigitalIn data => snd (readDigitalInputs data d)
  | KDigitalOut data => snd (writeDigitalOutputs data d)
  | KEmergency => snd (emergencyStop d)
  | KReset => snd (resetErrors d)
  | KSimulate msg => setSimulatedError msg d
  end.

Definition run (cs : list Call) (d : MockDriver) : MockDriver := foldl (λ d c, call c d) d cs.
End Ops.

End Mock.

(** ** EtherCATDriver *)

Module Driver.

Record EtherCATDriver (H : Type) := mkDriver {
  config_ : FieldbusConfig;
  master_index_ : Z;
  ethercat_master_ : option (EtherCATMaster H);
  status_ : FieldbusStatus;
  stats_ : FieldbusStats;
  last_error_ : option string;
  device_count_ : nat
}.
Arguments mkDriver {H}.
Arguments config_ {H} _.
Arguments master_index_ {H} _.
Arguments ethercat_master_ {H} _.
Arguments status_ {H} _.
Arguments stats_ {H} _.
Arguments last_error_ {H} _.
Arguments device_count_ {H} _.

Section Ops.
Context {L H : Type} `{HE : !Ecrt L H}.
Variable enabled : bool.
Implicit Types (d : EtherCATDriver H) (m : EtherCATMaster H) (l : L).

Definition newEtherCATDriver (c : FieldbusConfig) (index : Z) : EtherCATDriver H :=
  mkDriver c index None FB_UNINITIALIZED newFieldbusStats None 0.

Definition set_status (s : FieldbusStatus) (e : option string) d : EtherCATDriver H :=
  mkDriver (config_ d) (master_index_ d) (ethercat_master_ d) s (stats_ d) e (device_count_ d).
Definition set_master (m : option (EtherCATMaster H)) d : EtherCATDriver H :=
  mkDriver (config_ d) (master_index_ d) m (status_ d) (stats_ d) (last_error_ d) (device_count_ d).
Definition set_stats (st : FieldbusStats) d : EtherCATDriver H :=
  mkDriver (config_ d) (master_index_ d) (ethercat_master_ d) (status_ d) st (last_error_ d) (device_count_ d).
Definition set_devices (n : nat) d : EtherCATDriver H :=
  mkDriver (config_ d) (master_index_ d) (ethercat_master_ d) (status_ d) (stats_ d) (last_error_ d) n.

(** The destructor of the master that a pointer gives up. *)
Definition drop_master (m : option (EtherCATMaster H)) l : L :=
  match m with Some m => snd (destroy enabled m l) | None => l end.

(** The master is created without a slave configuration. *)
Definition initialize d l : option (bool * EtherCATDriver H * L) :=
  if negb (status_eqb (status_ d) FB_UNINITIALIZED) then
    Some (false, set_status (status_ d) (Some "Driver already initialized") d, l)
  else
    let l := drop_master (ethercat_master_ d) l in
    let '(r, m, l) := EtherCATMaster.initialize enabled (newEtherCATMaster (master_index_ d) None) l in
    if negb (r =? 0) then
      Some (false, set_status FB_ERROR (Some "EtherCAT master initialization failed") (set_master (Some m) d), l)
    else
      count ← scanSlaves enabled m l;
      if count <? 0 then
        Some (false, set_status FB_ERROR (Some "EtherCAT slave scan failed") (set_master (Some m) d), l)
      else
        let d := set_devices (Z.to_nat count) d in
        '(r, m, l) ← configureSlaves enabled m l;
        if negb (r =? 0) then
          Some (false, set_status FB_ERROR (Some "EtherCAT slave configuration failed") (set_master (Some m) d), l)
        else Some (true, set_status FB_INITIALIZED None (set_master (Some m) d), l).

Definition start d l : option (bool * EtherCATDriver H * L) :=
  if negb (status_eqb (status_ d) FB_INITIALIZED) then
    Some (false, set_status (status_ d) (Some "Driver not initialized") d, l)
  else
    m ← ethercat_master_ d;
    if negb (transitionToOP enabled m =? 0) then
      Some (false, set_status FB_ERROR (Some "EtherCAT transition to OP state failed") d, l)
    else
      '(r, m, l) ← activate enabled m l;
      let d := set_master (Some m) d in
      if negb (r =? 0) then Some (false, set_status FB_ERROR (Some "EtherCAT master activation failed") d, l)
      else Some (true, set_status FB_RUNNING None d, l).

Definition stop d : option (bool * EtherCATDriver H) :=
  if negb (status_eqb (status_ d) FB_RUNNING) then
    Some (false, set_status (status_ d) (Some "Driver not running") d)
  else
    m ← ethercat_master_ d;
    let '(r, m) := deactivate enabled m in
    let d := set_master (Some m) d in
    if negb (r =? 0) then Some (false, set_status FB_ERROR (Some "EtherCAT master deactivation failed") d)
    else Some (true, set_status FB_STOPPED None d).

Definition shutdown d l : option (EtherCATDriver H * L) :=
  m ← (if status_eqb (status_ d) FB_RUNNING then
         m ← ethercat_master_ d; Some (Some (snd (deactivate enabled m)))
       else Some (ethercat_master_ d));
  Some (set_status FB_UNINITIALIZED (last_error_ d) (set_master None d), drop_master m l).

Definition count_error d : EtherCATDriver H :=
  let st := stats_ d in
  set_stats (mkFieldbusStats (total_cycles st) (missed_cycles st) (u64 (communication_errors st + 1)) (bytes_sent st)
    (bytes_received st) (avg_cycle_time_us st) (max_cycle_time_us st)) d.

(** The caller's vector is not written. *)
Definition readSensors (data : list Z) d l (dom : domain) : option (bool * EtherCATDriver H * L * domain) :=
  if negb (status_eqb (status_ d) FB_RUNNING) then Some (false, d, l, dom)
  else
    match ethercat_master_ d with
    | None => Some (false, d, l, dom)
    | Some m =>
      '(r, m, l, dom) ← master_receive enabled m l dom;
      let d := set_master (Some m) d in
      if negb (r =? 0) then Some (false, count_error d, l, dom)
      else
        let st := stats_ d in
        Some (true, set_stats (mkFieldbusStats (total_cycles st) (missed_cycles st) (communication_errors st)
                (bytes_sent st) (u64 (bytes_received st + Z.of_nat (length data) * 8)) (avg_cycle_time_us st)
                (max_cycle_time_us st)) d, l, dom)
    end.

Definition writeActuators (data : list Z) d l (dom : domain) : option (bool * EtherCATDriver H * L) :=
  if negb (status_eqb (status_ d) FB_RUNNING) then Some (false, d, l)
  else
    match ethercat_master_ d with
    | None => Some (false, d, l)
    | Some m =>
      '(r, m, l) ← master_send enabled m l dom;
      let d := set_master (Some m) d in
      if negb (r =? 0) then Some (false, count_error d, l)
      else
        let st := stats_ d in
        Some (true, set_stats (mkFieldbusStats (u64 (total_cycles st + 1)) (missed_cycles st) (communication_errors st)
                (u64 (bytes_sent st + Z.of_nat (length data) * 8)) (bytes_received st) (avg_cycle_time_us st)
                (max_cycle_time_us st)) d, l)
    end.

Definition readDigitalInputs (data : list bool) d : bool * list bool := (status_eqb (status_ d) FB_RUNNING, data).
Definition writeDigitalOutputs (data : list bool) d : bool := status_eqb (status_ d) FB_RUNNING.

Definition getStatistics d : FieldbusStats :=
  let st := stats_ d in
  match ethercat_master_ d with
  | Some m => mkFieldbusStats (m_total_cycles_ m) (missed_cycles st)
                (u64 (send_error_count_ m + receive_error_count_ m)) (bytes_sent st) (bytes_received st)
                (avg_cycle_time_us st) (max_cycle_time_us st)
  | None => st
  end.

Definition emergencyStop d : option (bool * EtherCATDriver H) :=
  if negb (status_eqb (status_ d) FB_RUNNING) then Some (false, d) else stop d.

Definition resetErrors d : bool * EtherCATDriver H :=
  if negb (status_eqb (status_ d) FB_ERROR) then (true, d) else (true, set_status FB_INITIALIZED None d).

Definition mapEtherCATState (s : MasterState) : FieldbusStatus :=
  match s with
  | UNINITIALIZED => FB_UNINITIALIZED
  | INITIALIZED | CONFIGURED => FB_INITIALIZED
  | ACTIVATED => FB_RUNNING
  | ERROR => FB_ERROR
  end.

Definition updateStatistics d : EtherCATDriver H := set_stats (getStatistics d) d.

(** The calls that change the driver. *)
Inductive Call :=
| KInitialize | KStart | KStop | KShutdown | KRead (data : list Z) | KWrite (data : list Z)
| KEmergency | KReset.

(** The driver, the library and the process image. *)
Abbreviation bus := (EtherCATDriver H * L * domain)%type.

Definition call (c : Call) (b : bus) : option (bool * bus) :=
  let '(d, l, dom) := b in
  match c with
  | KInitialize => '(r, d, l) ← initialize d l; Some (r, (d, l, dom))
  | KStart => '(r, d, l) ← start d l; Some (r, (d, l, dom))
  | KStop => '(r, d) ← stop d; Some (r, (d, l, dom))
  | KShutdown => '(d, l) ← shutdown d l; Some (true, (d, l, dom))
  | KRead data => '(r, d, l, dom) ← readSensors data d l dom; Some (r, (d, l, dom))
  | KWrite data => '(r, d, l) ← writeActuators data d l dom; Some (r, (d, l, dom))
  | KEmergency => '(r, d) ← emergencyStop d; Some (r, (d, l, dom))
  | KReset => let '(r, d) := resetErrors d in Some (r, (d, l, dom))
  end.

Fixpoint run (cs : list Call) (b : bus) : option bus :=
  match cs with
  | [] => Some b
  | c :: cs => '(_, b) ← call c b; run cs b
  end.
End Ops.

End Driver.

(** ** FieldbusFactory *)

Module Factory.

Section Ops.
Context {D : Type}.

(** A function that makes a driver, gives a null pointer or throws. *)
Abbreviation Creator := (FieldbusConfig -> result string (option D)).

Variables (mock ethercat : FieldbusConfig -> D).

(** The static variables of the file. *)
Record Registry := mkRegistry { s_registry : gmap string Creator; s_initialized : bool }.

Definition newRegistry : Registry := mkRegistry ∅ false.

Definition initializeBuiltInProtocols (r : gmap string Creator) : gmap string Creator :=
  <["EtherCAT" := λ c, Ok (Some (ethercat c))]> (<["Mock" := λ c, Ok (Some (mock c))]> r).

Definition getRegistry (r : Registry) : Registry :=
  if s_initialized r then r else mkRegistry (initializeBuiltInProtocols (s_registry r)) true.

Definition createByName (p : string) (c : FieldbusConfig) (r : Registry) : option D * Registry :=
  let r := getRegistry r in
  match s_registry r !! p with
  | None => (None, r)
  | Some f => (match f c with Ok d => d | Throw _ => None end, r)
  end.

Definition create (c : FieldbusConfig) (r : Registry) : option D * Registry :=
  if bool_decide (protocol c = "") then (None, r) else createByName (protocol c) c r.

Definition registerProtocol (p : string) (creator : option Creator) (r : Registry) : bool * Registry :=
  if bool_decide (p = "") then (false, r)
  else
    match creator with
    | None => (false, r)
    | Some f =>
      let r := getRegistry r in
      if (s_registry r).[p] then (false, r)
      else (true, mkRegistry (<[p := f]> (s_registry r)) (s_initialized r))
    end.

Definition isProtocolSupported (p : string) (r : Registry) : bool * Registry :=
  let r := getRegistry r in ((s_registry r).[p], r).

(** In the order of the map. *)
Definition getSupportedProtocols (r : Registry) : list string * Registry :=
  let r := getRegistry r in ((key_order (s_registry r)).*1, r).

Definition unregisterProtocol (p : string) (r : Registry) : bool * Registry :=
  let r := getRegistry r in
  match s_registry r !! p with
  | None => (false, r)
  | Some _ => (true, mkRegistry (delete p (s_registry r)) (s_initialized r))
  end.

Definition clearProtocols (r : Registry) : Registry := mkRegistry ∅ false.

Inductive Call :=
| KCreate (c : FieldbusConfig) | KRegister (p : string) (f : option Creator) | KSupported (p : string)
| KList | KUnregister (p : string) | KClear.

Definition call (k : Call) (r : Registry) : Registry :=
  match k with
  | KCreate c => snd (create c r)
  | KRegister p f => snd (registerProtocol p f r)
  | KSupported p => snd (isProtocolSupported p r)
  | KList => snd (getSupportedProtocols r)
  | KUnregister p => snd (unregisterProtocol p r)
  | KClear => clearProtocols r
  end.

Definition run (ks : list Call) (r : Registry) : Registry := foldl (λ r k, call k r) r ks.

(** ** The built-in protocols stand *)

Record registry_ok (p : string) (f : Creator) (r : Registry) : Prop := {
  ro_empty : s_initialized r = false -> s_registry r = ∅;
  ro_entry : s_initialized r = true -> s_registry r !! p = Some f
}.

Definition builtin (p : string) (f : Creator) : Prop := initializeBuiltInProtocols ∅ !! p = Some f.

Lemma getRegistry_ok p f r :
  builtin p f -> registry_ok p f r -> s_initialized (getRegistry r) = true /\ s_registry (getRegistry r) !! p = Some f.
Proof.
  intros Hb [He Hi]. unfold getRegistry. destruct (s_initialized r) eqn:Hr; [by rewrite Hr; auto|].
  by rewrite He.
Qed.

Lemma ok_initialized p f r : s_initialized r = true -> s_registry r !! p = Some f -> registry_ok p f r.
Proof. intros Hi Hp. split; [by rewrite Hi|done]. Qed.

Lemma call_keeps_builtin p f k r :
  builtin p f -> k <> KUnregister p -> registry_ok p f r -> registry_ok p f (call k r).
Proof.
  intros Hb Hk Hok. destruct (getRegistry_ok p f r Hb Hok) as [Hi Hp]. pose proof (ok_initialized _ _ _ Hi Hp) as Hg.
  destruct k as [c|q g|q| |q|]; cbn [call].
  - unfold create. case_bool_decide; [done|]. unfold createByName. destruct (s_registry _ !! protocol c); exact Hg.
  - unfold registerProtocol. case_bool_decide; [done|]. destruct g as [g|]; [|done].
    case_bool_decide as Hq; [done|]. apply ok_initialized; cbn; [done|].
    rewrite lookup_insert_ne; [done|]. intros ->. apply Hq. by rewrite Hp.
  - done.
  - done.
  - unfold unregisterProtocol. destruct (s_registry (getRegistry r) !! q); [|done].
    apply ok_initialized; cbn; [done|]. rewrite lookup_delete_ne; [done|congruence].
  - by split.
Qed.

(** Whatever is registered, listed, cleared and created, a built-in protocol
    that is not itself unregistered creates its own driver: registration never
    replaces it and clearing brings it back. *)
Theorem builtin_protocol_stands ks p f c :
  builtin p f -> KUnregister p ∉ ks -> protocol c = p ->
  fst (create c (run ks newRegistry)) = match f c with Ok d => d | Throw _ => None end.
Proof.
  intros Hb Hks Hc.
  assert (Hinv : forall r, registry_ok p f r -> registry_ok p f (run ks r)).
  { clear Hc. induction ks as [|k ks IH]; intros r Hr; [done|]. cbn [run foldl].
    apply not_elem_of_cons in Hks as [Hk Hks]. apply (IH Hks). by apply call_keeps_builtin. }
  destruct (getRegistry_ok p f _ Hb (Hinv newRegistry ltac:(by split))) as [_ Hp].
  unfold create. rewrite bool_decide_eq_false_2; [|intros He; rewrite <- Hc, He in Hb; 
    unfold builtin, initializeBuiltInProtocols in Hb; by rewrite !lookup_insert_ne in Hb by done].
  unfold createByName. by rewrite Hc, Hp.
Qed.
End Ops.

End Factory.

(** ** Facts about the mock driver *)

Module MockFacts.
Import Mock.

Section Facts.
Context (sin : Z -> Z).

Definition sizes_ok (n : nat) (d : MockDriver) : Prop :=
  device_count_ d = n /\ length (sensor_data_ d) = n /\ length (actuator_data_ d) = n /\
  length (digital_inputs_ d) = n /\ length (digital_outputs_ d) = n.

Ltac mock_cases :=
  repeat (case_match; try done); cbn [fst snd device_count_ sensor_data_ actuator_data_ digital_inputs_
    digital_outputs_ set_status set_error set_emergency set_data set_clock set_stats].

(** The vectors keep the size the driver was made with, so that the loops over
    [device_count_] stay inside them. *)
Lemma call_sizes n c d : sizes_ok n d -> sizes_ok n (call sin c d).
Proof.
  intros (Hn & Hs & Ha & Hi & Ho). unfold sizes_ok.
  destruct c as [|now| | |now data|data|data|data| | |msg]; cbn [call];
    unfold initialize, start, stop, shutdown, readSensors, writeActuators, readDigitalInputs, writeDigitalOutputs,
      emergencyStop, resetErrors, setSimulatedError, updateStatistics, fill;
    mock_cases; rewrite ?length_imap, ?length_fmap; repeat split; try done.
  all: match goal with H : negb (_ =? _)%nat = false |- _ => apply negb_false_iff, Nat.eqb_eq in H end; congruence.
Qed.

Theorem mock_vectors_keep_their_size c n cs : sizes_ok n (run sin cs (newMockDriver c n)).
Proof.
  assert (Hinv : forall d, sizes_ok n d -> sizes_ok n (run sin cs d)).
  { induction cs as [|k cs IH]; intros d Hd; [done|]. apply IH. by apply call_sizes. }
  apply Hinv. unfold sizes_ok. cbn. by rewrite !length_replicate.
Qed.

(** No actuator is driven and none can be: the emergency stop holds or the
    driver does not run. *)
Definition halted (d : MockDriver) : Prop :=
  Forall (λ x, x = 0) (actuator_data_ d) /\ (emergency_stopped_ d = true \/ status_ d <> FB_RUNNING).

Lemma fill_zero (l : list Z) : Forall (λ x, x = 0) (fill 0 l).
Proof. apply Forall_fmap, Forall_true. done. Qed.

Lemma call_halted c d : (forall now, c <> KStart now) -> halted d -> halted (call sin c d).
Proof.
  intros Hc [Ha Hh]. unfold halted.
  destruct c as [|now| | |now data|data|data|data| | |msg]; cbn [call]; [|by destruct (Hc now)|..];
    unfold initialize, stop, shutdown, readSensors, writeActuators, readDigitalInputs, writeDigitalOutputs,
      emergencyStop, resetErrors, setSimulatedError, updateStatistics;
    repeat (case_match; try done); cbn; auto using fill_zero.
  all: match goal with H : status_eqb _ _ = _ |- _ => idtac | H : negb (status_eqb _ _) = false |- _ =>
         apply negb_false_iff, bool_decide_eq_true_1 in H end; destruct Hh; naive_solver.
Qed.

(** After an emergency stop every actuator is at zero, and stays there whatever
    is called, until the driver is started again; meanwhile a running driver
    reads zeros. *)
Theorem emergency_stop_holds_until_restart cs d :
  (forall now, KStart now ∉ cs) ->
  let d' := run sin cs (snd (emergencyStop d)) in
  Forall (λ x, x = 0) (actuator_data_ d') /\
  (forall data, fst (writeActuators data d') = false) /\
  (forall now data, status_ d' = FB_RUNNING -> fst (readSensors sin now data d') = (true, replicate (device_count_ d') 0)).
Proof.
  intros Hcs d'.
  assert (Hinv : forall d, halted d -> halted (run sin cs d)).
  { clear d'. induction cs as [|k cs IH]; intros e He; [done|]. apply IH.
    - intros now Hin. apply (Hcs now). by right.
    - apply call_halted; [|done]. intros now ->. apply (Hcs now). by left. }
  assert (Hh : halted d') by (apply Hinv; split; [apply fill_zero|by left]). destruct Hh as [Ha Hs].
  split; [done|]. split.
  - intros data. unfold writeActuators, status_eqb. case_bool_decide; [|done]. cbn [negb].
    destruct Hs as [-> |?]; done.
  - intros now data Hr. unfold readSensors. rewrite (proj2 (negb_status_eqb _ _) Hr). destruct Hs as [-> |?]; done.
Qed.

(** What a client writes comes back in the next reading, each value with the
    sine of its place added, and the reading is counted. *)
Theorem written_actuators_echo data now buf d :
  status_ d = FB_RUNNING -> emergency_stopped_ d = false -> length data = device_count_ d ->
  let '(ok, d1) := writeActuators data d in
  let '(ok', read, d2) := readSensors sin now buf d1 in
  ok = true /\ ok' = true /\ read = imap (sensor_value sin (u64 (simulation_tick_ d + 1))) data /\
  total_cycles (stats_ d2) = u64 (total_cycles (stats_ d) + 1) /\
  bytes_sent (stats_ d2) = u64 (bytes_sent (stats_ d) + 8 * Z.of_nat (length data)).
Proof.
  intros Hr He Hl. apply negb_status_eqb in Hr. unfold writeActuators. rewrite Hr, He, Hl, Nat.eqb_refl. cbn [negb].
  unfold readSensors. cbn [status_ emergency_stopped_ set_stats set_data]. rewrite Hr, He. repeat split.
  cbn. f_equal. lia.
Qed.

(** The mock driver keeps to the interface; its calls always return. *)
#[export] Instance mock_fieldbus : IFieldbus MockDriver := {|
  fb_initialize d := Some (initialize sin d);
  fb_start now d := Some (start now d);
  fb_stop d := Some (stop d);
  fb_shutdown d := Some (shutdown d);
  fb_readSensors now data d := Some (readSensors sin now data d);
  fb_writeActuators data d := Some (writeActuators data d);
  fb_readDigitalInputs data d := Some (readDigitalInputs data d);
  fb_writeDigitalOutputs data d := Some (writeDigitalOutputs data d);
  fb_getStatus := status_;
  fb_getStatistics := stats_;
  fb_getProtocolName _ := "Mock";
  fb_getDeviceCount := device_count_;
  fb_getLastError := last_error_;
  fb_emergencyStop d := Some (emergencyStop d);
  fb_resetErrors d := Some (resetErrors d)
|}.

#[export] Instance mock_laws : FieldbusLaws MockDriver.
Proof.
  split; cbn.
  - intros d d'. unfold initialize. case_match eqn:Hs; [done|]. intros [= <-]. by apply negb_status_eqb in Hs.
  - intros now d d'. unfold start, status_eqb. repeat case_bool_decide; cbn; intros [= <-]; auto.
  - intros d d'. unfold stop. case_match eqn:Hs; [done|]. intros [= <-]. by apply negb_status_eqb in Hs.
  - intros d d' [= <-]. done.
  - intros now data d b data' d'. unfold readSensors. case_match eqn:Hs; [intros [= <- <- <-]; done|].
    apply negb_status_eqb in Hs. case_match; intros [= <- <- <-]; done.
  - intros data d b d'. unfold writeActuators. case_match eqn:Hs; [intros [= <- <-]; done|].
    apply negb_status_eqb in Hs. repeat case_match; intros [= <- <-]; done.
  - intros data d b d'. unfold writeDigitalOutputs. case_match eqn:Hs; [intros [= <- <-]; done|].
    apply negb_status_eqb in Hs. repeat case_match; intros [= <- <-]; done.
  - intros c d b d' Hc Hr.
    destruct c as [|now| | |now data|data|data|data| |]; cbn in Hc; revert Hc Hr.
    + unfold initialize. case_match; intros [= <- <-]; [by left|done].
    + unfold start. case_match; intros [= <- <-]; [by left|by eauto].
    + unfold stop. case_match; intros [= <- <-]; [by left|done].
    + by intros [= <- <-].
    + destruct (readSensors sin now data d) as [[b' data'] e] eqn:Hread. intros [= <- <-] He. left.
      unfold readSensors in Hread. repeat case_match; by simplify_eq.
    + unfold writeActuators. repeat case_match; intros [= <- <-]; by left.
    + destruct (readDigitalInputs data d) as [[b' data'] e] eqn:Hread. intros [= <- <-] He. left.
      unfold readDigitalInputs in Hread. case_match; by simplify_eq.
    + unfold writeDigitalOutputs. repeat case_match; intros [= <- <-]; by left.
    + intros [= <- <-]; by left.
    + unfold resetErrors. case_match; intros [= <- <-]; [done|by left].
Qed.
End Facts.

(** A stop in the middle of a run: an attempt to write, then a reading. *)
Lemma emergency_stop_holds_until_restart_witness :
  let sin := λ _, double_of_int 1 in
  let c := mkFieldbusConfig "Mock" "" 1000 false 2 in
  let d := run sin [KInitialize; KStart 0; KWrite [double_of_int 5; double_of_int 6]] (newMockDriver c 2) in
  let d' := run sin [KWrite [double_of_int 7; double_of_int 8]; KReset] (snd (emergencyStop d)) in
  actuator_data_ d = [double_of_int 5; double_of_int 6] /\ Forall (λ x, x = 0) (actuator_data_ d').
Proof.
  split; [vm_compute; reflexivity|].
  apply (emergency_stop_holds_until_restart (λ _, double_of_int 1) [KWrite [double_of_int 7; double_of_int 8]; KReset]).
  intros now Hin. apply elem_of_cons in Hin as [Hin|Hin]; [discriminate Hin|].
  apply list_elem_of_singleton in Hin. discriminate Hin.
Defined.

(** The digital outputs are cleared too, but nothing keeps them so: they can be
    written while the emergency stop holds. *)
Theorem digital_outputs_escape_the_stop data d :
  status_ d = FB_RUNNING -> length data = device_count_ d ->
  let d1 := snd (emergencyStop d) in
  let '(ok, d2) := writeDigitalOutputs data d1 in
  ok = true /\ digital_outputs_ d2 = data /\ emergency_stopped_ d2 = true.
Proof.
  intros Hr Hl. apply negb_status_eqb in Hr. cbn [emergencyStop snd]. unfold writeDigitalOutputs.
  cbn [status_ set_data set_emergency device_count_]. by rewrite Hr, Hl, Nat.eqb_refl.
Qed.
End MockFacts.

(** ** Facts about the EtherCAT driver *)

Module DriverFacts.
Import Driver.

Section Facts.
Context {L H : Type} `{HE : !Ecrt L H}.
Variable enabled : bool.
Implicit Types (d : EtherCATDriver H) (l : L).

(** The driver with a master has it ready for what its status allows. *)
Definition master_ready d : Prop :=
  match ethercat_master_ d with
  | None => status_ d = FB_UNINITIALIZED
  | Some m => status_ d <> FB_UNINITIALIZED /\ (enabled = true -> status_ d <> FB_RUNNING /\ state_ m <> CONFIGURED)
  end.

Ltac solve_ready :=
  repeat lazymatch goal with |- exists _, _ => eexists end; (split; [reflexivity|]); done.

(** A master without a slave configuration is never configured on hardware. *)
Lemma initialize_ready d l :
  master_ready d -> exists r d' l', initialize enabled d l = Some (r, d', l') /\ master_ready d'.
Proof.
  intros Hr. unfold initialize. destruct (negb _) eqn:Hs; [eexists _, _, _; split; [done|exact Hr]|].
  clear Hr. set (l1 := drop_master _ _ _). clearbody l1. unfold EtherCATMaster.initialize. destruct enabled eqn:Hen.
  - cbn [negb]. destruct (ecrt_request_master _ l1) as [[] l2]; [|solve_ready].
    destruct (ecrt_master_create_domain l2) as [[] l3]; [|solve_ready].
    cbn. destruct (ecrt_master_state l3) as [n|]; [|solve_ready].
    rewrite bool_decide_eq_true_2 by done. cbn. destruct (n <? 0); solve_ready.
  - cbn. eexists _, _, _. split; [reflexivity|].
    split; [done|congruence].
Qed.

Lemma start_ready d l :
  master_ready d -> exists r d' l', start enabled d l = Some (r, d', l') /\ master_ready d'.
Proof.
  intros Hr. unfold start. destruct (negb _) eqn:Hs; [eexists _, _, _; split; [done|exact Hr]|].
  apply negb_status_eqb in Hs. unfold master_ready in *. destruct (ethercat_master_ d) as [m|] eqn:Hm; [|congruence].
  cbn [mbind option_bind]. unfold transitionToOP, activate. destruct Hr as [Hu He]. destruct enabled eqn:Hen.
  - destruct (He eq_refl) as [_ Hc]. rewrite bool_decide_eq_false_2 by done. eexists _, _, _. split; [reflexivity|].
    cbn. rewrite Hm. done.
  - eexists _, _, _. split; [reflexivity|].
    split; [done|congruence].
Qed.

Lemma stop_ready d : master_ready d -> exists r d', stop enabled d = Some (r, d') /\ master_ready d'.
Proof.
  intros Hr. unfold stop. destruct (negb _) eqn:Hs; [eexists _, _; split; [done|exact Hr]|].
  apply negb_status_eqb in Hs. unfold master_ready in *. destruct (ethercat_master_ d) as [m|] eqn:Hm; [|congruence].
  cbn [mbind option_bind]. destruct Hr as [Hu He]. destruct enabled eqn:Hen; [by destruct (He eq_refl)|].
  eexists _, _. split; [reflexivity|].
    split; [done|congruence].
Qed.

Lemma shutdown_ready d l : master_ready d -> exists d' l', shutdown enabled d l = Some (d', l') /\ master_ready d'.
Proof.
  intros Hr. unfold shutdown. destruct (status_eqb _ _) eqn:Hs; [|solve_ready].
  apply bool_decide_eq_true_1 in Hs. unfold master_ready in Hr.
  destruct (ethercat_master_ d) as [m|]; [solve_ready|congruence].
Qed.

Lemma read_ready data d l dom :
  master_ready d -> exists r d' l' dom', readSensors enabled data d l dom = Some (r, d', l', dom') /\ master_ready d'.
Proof.
  intros Hr. unfold readSensors. destruct (negb _) eqn:Hs; [eexists _, _, _, _; split; [done|exact Hr]|].
  apply negb_status_eqb in Hs. unfold master_ready in *. destruct (ethercat_master_ d) as [m|] eqn:Hm; [|congruence].
  destruct Hr as [Hu He]. destruct enabled eqn:Hen; [by destruct (He eq_refl)|].
  eexists _, _, _, _. split; [reflexivity|].
    split; [done|congruence].
Qed.

Lemma write_ready data d l dom :
  master_ready d -> exists r d' l', writeActuators enabled data d l dom = Some (r, d', l') /\ master_ready d'.
Proof.
  intros Hr. unfold writeActuators. destruct (negb _) eqn:Hs; [eexists _, _, _; split; [done|exact Hr]|].
  apply negb_status_eqb in Hs. unfold master_ready in *. destruct (ethercat_master_ d) as [m|] eqn:Hm; [|congruence].
  destruct Hr as [Hu He]. destruct enabled eqn:Hen; [by destruct (He eq_refl)|].
  eexists _, _, _. split; [reflexivity|].
    split; [done|congruence].
Qed.

Lemma reset_ready d : master_ready d -> master_ready (snd (resetErrors d)).
Proof.
  unfold resetErrors, master_ready. destruct (negb _) eqn:Hs; [done|]. apply negb_status_eqb in Hs. cbn.
  destruct (ethercat_master_ d); [naive_solver|congruence].
Qed.

Lemma call_ready c b :
  master_ready (fst (fst b)) -> exists r b', call enabled c b = Some (r, b') /\ master_ready (fst (fst b')).
Proof.
  destruct b as [[d l] dom]. cbn [fst]. intros Hr. destruct c as [| | | |data|data| |]; cbn [call].
  - destruct (initialize_ready d l Hr) as (r & d' & l' & -> & ?). by eexists _, _.
  - destruct (start_ready d l Hr) as (r & d' & l' & -> & ?). by eexists _, _.
  - destruct (stop_ready d Hr) as (r & d' & -> & ?). by eexists _, _.
  - destruct (shutdown_ready d l Hr) as (d' & l' & -> & ?). by eexists _, _.
  - destruct (read_ready data d l dom Hr) as (r & d' & l' & dom' & -> & ?). by eexists _, _.
  - destruct (write_ready data d l dom Hr) as (r & d' & l' & -> & ?). by eexists _, _.
  - unfold emergencyStop. destruct (negb _); [by eexists _, _|].
    destruct (stop_ready d Hr) as (r & d' & -> & ?). by eexists _, _.
  - destruct (resetErrors d) as [r d'] eqn:He. eexists _, _. split; [reflexivity|].
    pose proof (reset_ready d Hr) as Hd. by rewrite He in Hd.
Qed.

Lemma run_ready cs b : master_ready (fst (fst b)) -> exists b', run enabled cs b = Some b' /\ master_ready (fst (fst b')).
Proof.
  revert b. induction cs as [|c cs IH]; intros b Hr; [by exists b|].
  destruct (call_ready c b Hr) as (r & b' & Hc & Hr'). cbn [run]. rewrite Hc. by apply IH.
Qed.
End Facts.

(** No sequence of calls makes the driver use a master it does not have. *)
Theorem driver_never_dereferences_null {L H} `{!Ecrt L H} enabled c index l dom cs :
  is_Some (run enabled cs (newEtherCATDriver (H:=H) c index, l, dom)).
Proof. destruct (run_ready enabled cs (newEtherCATDriver c index, l, dom)) as (b & -> & _); by eexists. Qed.

(** On hardware the driver never runs: it creates the master without a slave
    configuration, which the master refuses to configure. *)
Theorem hardware_driver_never_runs {L H} `{!Ecrt L H} c index l dom cs :
  exists d l' dom', run true cs (newEtherCATDriver (H:=H) c index, l, dom) = Some (d, l', dom') /\
    status_ d <> FB_RUNNING.
Proof.
  destruct (run_ready true cs (newEtherCATDriver c index, l, dom)) as ([[d l'] dom'] & Hrun & Hr); [done|].
  exists d, l', dom'. split; [done|]. unfold master_ready in Hr. cbn [fst] in Hr.
  destruct (ethercat_master_ d); [by destruct Hr as [_ Hr]; apply Hr|congruence].
Qed.

(** ** The EtherCAT driver keeps to the interface *)

Section Instance_.
Context {L H : Type} `{HE : !Ecrt L H}.
Variable enabled : bool.

#[export] Instance ethercat_fieldbus : IFieldbus (EtherCATDriver H * L * domain) := {|
  fb_initialize := call enabled KInitialize;
  fb_start _ := call enabled KStart;
  fb_stop := call enabled KStop;
  fb_shutdown b := '(_, b) ← call enabled KShutdown b; Some b;
  fb_readSensors _ data b := '(r, b) ← call enabled (KRead data) b; Some (r, data, b);
  fb_writeActuators data := call enabled (KWrite data);
  fb_readDigitalInputs data b := let '(r, data) := readDigitalInputs data (fst (fst b)) in Some (r, data, b);
  fb_writeDigitalOutputs data b := Some (writeDigitalOutputs data (fst (fst b)), b);
  fb_getStatus b := status_ (fst (fst b));
  fb_getStatistics b := getStatistics (fst (fst b));
  fb_getProtocolName _ := "EtherCAT";
  fb_getDeviceCount b := device_count_ (fst (fst b));
  fb_getLastError b := last_error_ (fst (fst b));
  fb_emergencyStop := call enabled KEmergency;
  fb_resetErrors := call enabled KReset
|}.

(** The status after a call and its result. *)
Definition status_law (c : Call) (r : bool) (s s' : FieldbusStatus) : Prop :=
  match c with
  | KInitialize => if r then s = FB_UNINITIALIZED /\ s' = FB_INITIALIZED else s' = s \/ s' = FB_ERROR
  | KStart => if r then s = FB_INITIALIZED /\ s' = FB_RUNNING else s' = s \/ s' = FB_ERROR
  | KStop | KEmergency => if r then s = FB_RUNNING /\ s' = FB_STOPPED else s' = s \/ s' = FB_ERROR
  | KShutdown => s' = FB_UNINITIALIZED
  | KRead _ | KWrite _ => s' = s /\ (r = true -> s = FB_RUNNING)
  | KReset => s' = s \/ s' = FB_INITIALIZED
  end.

Lemma stop_law (d : EtherCATDriver H) r d' :
  stop enabled d = Some (r, d') -> if r then status_ d = FB_RUNNING /\ status_ d' = FB_STOPPED
                                   else status_ d' = status_ d \/ status_ d' = FB_ERROR.
Proof.
  unfold stop. destruct (negb _) eqn:Hs; [intros [= <- <-]; by left|]. apply negb_status_eqb in Hs.
  intros (m & _ & Hm)%bind_Some. destruct (deactivate enabled m) as [k m'].
  destruct (negb _); injection Hm as <- <-; cbn; auto.
Qed.

Lemma call_status c (b : EtherCATDriver H * L * domain) r b' :
  call enabled c b = Some (r, b') -> status_law c r (status_ (fst (fst b))) (status_ (fst (fst b'))).
Proof.
  destruct b as [[d l] dom]. cbn [fst]. destruct c as [| | | |data|data| |]; cbn [call status_law].
  - intros ([[k d'] l'] & Hi & [= <- <-])%bind_Some. cbn [fst]. unfold initialize in Hi.
    destruct (negb _) eqn:Hs; [injection Hi as <- <- <-; by left|]. apply negb_status_eqb in Hs.
    destruct (EtherCATMaster.initialize _ _ _) as [[k1 m1] l1].
    destruct (negb _); [injection Hi as <- <- <-; by right|].
    apply bind_Some in Hi as (n & _ & Hi). destruct (n <? 0); [injection Hi as <- <- <-; by right|].
    apply bind_Some in Hi as ([[k2 m2] l2] & _ & Hi). destruct (negb _); injection Hi as <- <- <-; cbn; auto.
  - intros ([[k d'] l'] & Hi & [= <- <-])%bind_Some. cbn [fst]. unfold start in Hi.
    destruct (negb _) eqn:Hs; [injection Hi as <- <- <-; by left|]. apply negb_status_eqb in Hs.
    apply bind_Some in Hi as (m & _ & Hi). destruct (negb _); [injection Hi as <- <- <-; by right|].
    apply bind_Some in Hi as ([[k2 m2] l2] & _ & Hi). destruct (negb _); injection Hi as <- <- <-; cbn; auto.
  - intros ([k d'] & Hi & [= <- <-])%bind_Some. cbn [fst]. by eapply stop_law.
  - intros ([d' l'] & Hi & [= <- <-])%bind_Some. cbn [fst]. unfold shutdown in Hi.
    apply bind_Some in Hi as (m & _ & [= <- _]). done.
  - intros ([[[k d'] l'] dom'] & Hi & [= <- <-])%bind_Some. cbn [fst]. unfold readSensors in Hi.
    destruct (negb _) eqn:Hs; [by injection Hi as <- <- <- <-|]. apply negb_status_eqb in Hs.
    destruct (ethercat_master_ d) as [m|]; [|by injection Hi as <- <- <- <-].
    apply bind_Some in Hi as ([[[k2 m2] l2] dom2] & _ & Hi). destruct (negb _); by injection Hi as <- <- <- <-.
  - intros ([[k d'] l'] & Hi & [= <- <-])%bind_Some. cbn [fst]. unfold writeActuators in Hi.
    destruct (negb _) eqn:Hs; [by injection Hi as <- <- <-|]. apply negb_status_eqb in Hs.
    destruct (ethercat_master_ d) as [m|]; [|by injection Hi as <- <- <-].
    apply bind_Some in Hi as ([[k2 m2] l2] & _ & Hi). destruct (negb _); by injection Hi as <- <- <-.
  - intros ([k d'] & Hi & [= <- <-])%bind_Some. cbn [fst]. unfold emergencyStop in Hi.
    destruct (negb _); [injection Hi as <- <-; by left|]. by eapply stop_law.
  - unfold resetErrors. destruct (negb _); intros [= <- <-]; cbn; auto.
Qed.

#[export] Instance ethercat_laws : FieldbusLaws (EtherCATDriver H * L * domain).
Proof.
  split; cbn [fb_initialize fb_start fb_stop fb_shutdown fb_readSensors fb_writeActuators fb_writeDigitalOutputs
    fb_getStatus ethercat_fieldbus].
  - intros b b' Hc. exact (call_status _ _ _ _ Hc).
  - intros _ b b' Hc. destruct (call_status _ _ _ _ Hc) as [? ?]. auto.
  - intros b b' Hc. exact (call_status _ _ _ _ Hc).
  - intros b b' ([r b2] & Hc & [= ->])%bind_Some. exact (call_status _ _ _ _ Hc).
  - intros _ data b r data' b' ([r2 b2] & Hc & [= -> <- ->])%bind_Some.
    destruct (call_status _ _ _ _ Hc) as [? ?]. auto.
  - intros data b r b' Hc. destruct (call_status _ _ _ _ Hc) as [? ?]. auto.
  - intros data b r b' [= <- <-]. split; [done|]. intros Hr. by apply bool_decide_eq_true_1 in Hr.
  - intros c b r b' Hc Hr. destruct c as [|now| | |now data|data|data|data| |]; cbn [icall] in Hc.
    + apply call_status in Hc. cbn in Hc, Hr. destruct r; naive_solver congruence.
    + apply call_status in Hc. cbn in Hc, Hr. destruct r; [right; eauto|]. naive_solver congruence.
    + apply call_status in Hc. cbn in Hc, Hr. destruct r; naive_solver congruence.
    + apply bind_Some in Hc as (b2 & ([r3 b3] & Hc & [= ->])%bind_Some & [= <- <-]).
      apply call_status in Hc. cbn in Hc, Hr. congruence.
    + apply bind_Some in Hc as ([[r2 data2] b2] & ([r3 b3] & Hc & [= -> _ ->])%bind_Some & [= <- <-]).
      apply call_status in Hc. cbn in Hc, Hr. left. destruct Hc. congruence.
    + apply call_status in Hc. cbn in Hc, Hr. left. destruct Hc. congruence.
    + cbn in Hc. injection Hc as _ <-. by left.
    + injection Hc as _ <-. by left.
    + apply call_status in Hc. cbn in Hc, Hr. destruct r; naive_solver congruence.
    + apply call_status in Hc. cbn in Hc, Hr. naive_solver congruence.
Qed.
End Instance_.

(** An emergency stop takes the driver out of RUNNING but leaves the process
    image, and with it the targets of the drives, as it was. *)
Theorem emergency_stop_keeps_outputs {L H} `{!Ecrt L H} enabled (d d' : EtherCATDriver H) l dom l' dom' :
  call enabled KEmergency (d, l, dom) = Some (true, (d', l', dom')) -> l' = l /\ dom' = dom.
Proof. cbn [call]. intros ([r e] & _ & [= _ _ <- <-])%bind_Some. done. Qed.

(** A stopped driver is only started again through a shutdown. *)
Theorem stopped_driver_does_not_restart {L H} `{!Ecrt L H} enabled (d : EtherCATDriver H) l :
  status_ d = FB_STOPPED ->
  exists d', start enabled d l = Some (false, d', l) /\ status_ d' = FB_STOPPED /\ snd (resetErrors d') = d'.
Proof.
  intros Hs. unfold start, resetErrors. rewrite Hs. eexists. split; [reflexivity|]. done.
Qed.
End DriverFacts.

(** ** Both drivers behind the interface *)

(** The mock driver: initialised, started, written. *)
Lemma data_moves_only_after_start_witness :
  let sin := λ _, double_of_int 1 in
  let c := mkFieldbusConfig "Mock" "" 1000 false 1 in
  let d := Mock.run sin [Mock.KInitialize; Mock.KStart 0] (Mock.newMockDriver c 1) in
  exists now, (IStart now, true) ∈ [(IInitialize, true); (IStart 0, true)] /\ Mock.status_ d = FB_RUNNING.
Proof.
  set (sin := λ _ : Z, double_of_int 1). set (c := mkFieldbusConfig "Mock" "" 1000 false 1). cbv zeta.
  set (d := Mock.run sin _ _). pose (F := MockFacts.mock_fieldbus sin).
  destruct (data_moves_only_after_start (HF := F) (HL := MockFacts.mock_laws sin) (Mock.newMockDriver c 1)
    [(IInitialize, true); (IStart 0, true)] d (IWrite [double_of_int 2])
    (snd (Mock.writeActuators [double_of_int 2] d))) as ((now & Hnow) & Hr & _).
  - reflexivity.
  - apply (session_call (IFieldbus0:=F) _ [(IInitialize, true)] (Mock.run sin [Mock.KInitialize] (Mock.newMockDriver c 1))).
    + apply (session_call (IFieldbus0:=F) _ [] (Mock.newMockDriver c 1)); [apply session_new|reflexivity].
    + reflexivity.
  - exact I.
  - reflexivity.
  - exists now. split; [exact Hnow|exact Hr].
Defined.

(** The factory over the two drivers and an application's own. *)
Lemma builtin_protocol_stands_witness :
  let c := mkFieldbusConfig "Mock" "" 1000 false 1 in
  let mock c := inl (Mock.newMockDriver c (device_count c)) in
  let ethercat c := inr (Driver.newEtherCATDriver (H:=unit) c 0) in
  let calls := [Factory.KRegister "Mock" (Some (λ c, Ok (Some (ethercat c)))); Factory.KClear; Factory.KUnregister "EtherCAT"] in
  fst (Factory.create mock ethercat c (Factory.run mock ethercat calls Factory.newRegistry)) =
    Some (inl (Mock.newMockDriver c 1)).
Proof.
  cbv zeta. apply (Factory.builtin_protocol_stands _ _ _ "Mock"
    (λ c, Ok (Some (inl (Mock.newMockDriver c (device_count c)))))).
  - reflexivity.
  - intros Hin. repeat (apply elem_of_cons in Hin as [Hin|Hin]; [discriminate Hin|]). by apply elem_of_nil in Hin.
  - reflexivity.
Defined.
