(* ===== verification/PerfMonitor.v ===== *)
(** * PerfMonitor (src/core/rt/perf/PerfMonitor)

    Latency statistics of the real-time cycle.  Doubles are bit patterns
    computed as IEEE 754 prescribes; clock readings (nanoseconds) are arguments.
    A call that would index out of range, or convert a double that does not fit,
    is [Undefined]; one that waits for a mutex its own thread holds is a
    [Deadlock]. *)

From Stdlib Require Import Sorting.Sorted.
From S2P Require Import Prelude Ieee754 Rounding Config.
#[local] Open Scope Z_scope.

Record PerfMonitorConfig := mkPerfConfig {
  process_name : string;
  cycle_time_us : Z;
  deadline_us : Z;
  enable_histogram : bool;
  histogram_buckets : Z;
  sample_buffer_size : Z;
  enable_tracing : bool
}.
Definition newPerfConfig : PerfMonitorConfig := mkPerfConfig "" 1000 1000 true 100 10000 false.

Record PerfStats := mkPerfStats {
  min_latency : Z;
  max_latency : Z;
  avg_latency : Z;
  p50_latency : Z;
  p95_latency : Z;
  p99_latency : Z;
  jitter : Z;
  max_jitter : Z;
  total_cycles : Z;
  deadline_misses : Z;
  deadline_miss_rate : Z;
  total_execution_time_us : Z;
  avg_execution_time_us : Z
}.
Definition newPerfStats : PerfStats := mkPerfStats 0 0 0 0 0 0 0 0 0 0 0 0 0.

Record PerfMonitor := mkPerf {
  config_ : PerfMonitorConfig;
  cycle_start_ : Z;
  cycle_end_ : Z;
  latency_samples_ : list Z;
  sample_index_ : nat;
  total_cycles_ : Z;
  deadline_misses_ : Z;
  total_execution_time_us_ : Z;
  min_latency_ : Z;
  max_latency_ : Z;
  sum_latency_ : Z;
  sum_squared_latency_ : Z;
  last_missed_deadline_ : bool;
  histogram_ : list Z
}.

(** [std::numeric_limits<double>::max()] *)
Definition double_max : Z := 0x7FEFFFFFFFFFFFFF.

Definition newPerfMonitor : PerfMonitor :=
  mkPerf newPerfConfig 0 0 [] 0 0 0 0 double_max 0 0 0 false [].

Inductive outcome (A : Type) := Returns (a : A) | Undefined | Deadlock.
Arguments Returns {A} _.
Arguments Undefined {A}.
Arguments Deadlock {A}.

(** [std::vector::resize] *)
Definition vec_resize {A} (n : nat) (x : A) (l : list A) : list A := take n l ++ replicate (n - length l) x.

Definition configure (c : PerfMonitorConfig) (p : PerfMonitor) : bool * PerfMonitor :=
  (true, mkPerf c (cycle_start_ p) (cycle_end_ p)
           (vec_resize (Z.to_nat (sample_buffer_size c)) 0 (latency_samples_ p)) 0
           (total_cycles_ p) (deadline_misses_ p) (total_execution_time_us_ p) (min_latency_ p) (max_latency_ p)
           (sum_latency_ p) (sum_squared_latency_ p) (last_missed_deadline_ p)
           (if enable_histogram c then vec_resize (Z.to_nat (histogram_buckets c)) 0 (histogram_ p) else histogram_ p)).

(** Numbers are read as [int] and then widened. *)
Definition parse_config (j : Json) : option (result string PerfMonitorConfig) :=
  let? name := json_value get_string "process_name" "" j in
  let? cycle := json_value get_int "cycle_time_us" 1000 j in
  let? deadline := json_value get_int "deadline_us" 1000 j in
  let? histogram := json_value get_bool "enable_histogram" true j in
  let? buckets := json_value get_int "histogram_buckets" 100 j in
  let? samples := json_value get_int "sample_buffer_size" 10000 j in
  let? tracing := json_value get_bool "enable_tracing" false j in
  Some (Ok (mkPerfConfig name (u64 cycle) (u64 deadline) histogram (u32 buckets) (u32 samples) tracing)).

Definition loadConfig (f : ConfigFile) (p : PerfMonitor) : outcome (bool * PerfMonitor) :=
  let '(ok, loader) := loadFromFile f newConfigLoader in
  if negb ok then Returns (false, p)
  else
    match parse_config (Config.config_ loader) with
    | None => Undefined
    | Some (Throw _) => Returns (false, p)
    | Some (Ok c) => Returns (configure c p)
    end.

Definition startCycle (now : Z) (p : PerfMonitor) : PerfMonitor :=
  mkPerf (config_ p) now (cycle_end_ p) (latency_samples_ p) (sample_index_ p) (total_cycles_ p) (deadline_misses_ p)
    (total_execution_time_us_ p) (min_latency_ p) (max_latency_ p) (sum_latency_ p) (sum_squared_latency_ p)
    (last_missed_deadline_ p) (histogram_ p).

Definition recordSample (us : Z) (p : PerfMonitor) : option PerfMonitor :=
  let mn := if double_lt us (min_latency_ p) then us else min_latency_ p in
  let mx := if double_lt (max_latency_ p) us then us else max_latency_ p in
  if (sample_index_ p <? length (latency_samples_ p))%nat then
    Some (mkPerf (config_ p) (cycle_start_ p) (cycle_end_ p) (<[sample_index_ p := us]> (latency_samples_ p))
      ((sample_index_ p + 1) mod length (latency_samples_ p))%nat (total_cycles_ p) (deadline_misses_ p)
      (total_execution_time_us_ p) mn mx (double_add (sum_latency_ p) us)
      (double_add (sum_squared_latency_ p) (double_mul us us)) (last_missed_deadline_ p) (histogram_ p))
  else None.

Definition set_counts (total misses time : Z) (last : bool) (h : list Z) (p : PerfMonitor) : PerfMonitor :=
  mkPerf (config_ p) (cycle_start_ p) (cycle_end_ p) (latency_samples_ p) (sample_index_ p) total misses time
    (min_latency_ p) (max_latency_ p) (sum_latency_ p) (sum_squared_latency_ p) last h.

(** [config_.histogram_buckets - 1] in 32 bits. *)
Definition updateHistogram (us : Z) (c : PerfMonitorConfig) (h : list Z) : option (list Z) :=
  let width := double_div (double_of_i64 (deadline_us c)) (double_of_i64 (u32 (histogram_buckets c - 1))) in
  bucket ← u64_of_double (double_div us width);
  let bucket := if Z.of_nat (length h) <=? bucket then u64 (Z.of_nat (length h) - 1) else bucket in
  n ← h !! Z.to_nat bucket;
  Some (<[Z.to_nat bucket := u64 (n + 1)]> h).

(** [a < b] decides the order; equal numbers stay where they are. *)
Definition sort_le (a b : Z) : Prop := double_lt b a = false.
#[export] Instance sort_le_dec a b : Decision (sort_le a b).
Proof. unfold sort_le. apply _. Defined.

Definition calculatePercentile (percentile : Z) (p : PerfMonitor) : option Z :=
  if total_cycles_ p =? 0 then Some 0
  else
    let num := Z.min (total_cycles_ p) (Z.of_nat (length (latency_samples_ p))) in
    let sorted := merge_sort sort_le (take (Z.to_nat num) (latency_samples_ p)) in
    index ← u64_of_double (double_mul percentile (double_of_i64 (u64 (Z.of_nat (length sorted) - 1))));
    sorted !! Z.to_nat index.

Definition calculateJitter (p : PerfMonitor) : Z :=
  if total_cycles_ p <=? 1 then 0
  else
    let n := double_of_i64 (total_cycles_ p) in
    let mean := double_div (sum_latency_ p) n in
    let mean_squared := double_div (sum_squared_latency_ p) n in
    let variance := double_sub mean_squared (double_mul mean mean) in
    double_sqrt (if double_lt 0 variance then variance else 0).

(** 0.5, 0.95, 0.99 *)
Definition half : Z := 0x3FE0000000000000.
Definition p95 : Z := 0x3FEE666666666666.
Definition p99 : Z := 0x3FEFAE147AE147AE.

Definition getStats (p : PerfMonitor) : option PerfStats :=
  if total_cycles_ p =? 0 then Some newPerfStats
  else
    let n := double_of_i64 (total_cycles_ p) in
    let avg := double_div (sum_latency_ p) n in
    a ← calculatePercentile half p;
    b ← calculatePercentile p95 p;
    c ← calculatePercentile p99 p;
    Some (mkPerfStats (min_latency_ p) (max_latency_ p) avg a b c (calculateJitter p)
      (double_sub (max_latency_ p) avg) (total_cycles_ p) (deadline_misses_ p)
      (double_div (double_mul (double_of_i64 (deadline_misses_ p)) (double_of_int 100)) n)
      (total_execution_time_us_ p) (double_div (double_of_i64 (total_execution_time_us_ p)) n)).

(** The latency of a cycle in whole microseconds. *)
Definition latency (p : PerfMonitor) (now : Z) : Z := Z.quot (now - cycle_start_ p) 1000.

(** The part of [endCycle] up to the periodic report. *)
Definition count_cycle (now : Z) (p : PerfMonitor) : option PerfMonitor :=
  let us := double_of_i64 (latency p now) in
  let p := mkPerf (config_ p) (cycle_start_ p) now (latency_samples_ p) (sample_index_ p) (total_cycles_ p)
             (deadline_misses_ p) (total_execution_time_us_ p) (min_latency_ p) (max_latency_ p) (sum_latency_ p)
             (sum_squared_latency_ p) (last_missed_deadline_ p) (histogram_ p) in
  p ← recordSample us p;
  time ← u64_of_double us;
  let missed := double_lt (double_of_i64 (deadline_us (config_ p))) us in
  h ← (if enable_histogram (config_ p) then updateHistogram us (config_ p) (histogram_ p) else Some (histogram_ p));
  Some (set_counts (u64 (total_cycles_ p + 1))
          (if missed then u64 (deadline_misses_ p + 1) else deadline_misses_ p)
          (u64 (total_execution_time_us_ p + time)) missed h p).

(** The report calls [getStats], which locks the mutex that [endCycle] holds. *)
Definition endCycle (now : Z) (p : PerfMonitor) : outcome PerfMonitor :=
  match count_cycle now p with
  | None => Undefined
  | Some p => if enable_tracing (config_ p) && (total_cycles_ p mod 10000 =? 0) then Deadlock else Returns p
  end.

Definition reset (p : PerfMonitor) : PerfMonitor :=
  mkPerf (config_ p) (cycle_start_ p) (cycle_end_ p) ((λ _, 0) <$> latency_samples_ p) 0 0 0 0 double_max 0 0 0 false
    (if enable_histogram (config_ p) then (λ _, 0) <$> histogram_ p else histogram_ p).

Definition didMissDeadline (p : PerfMonitor) : bool := last_missed_deadline_ p.
Definition getHistogram (p : PerfMonitor) : list Z := histogram_ p.

(** A [CycleGuard]: the readings at its construction and at its end. *)
Definition guarded_cycle (c : Z * Z) (p : PerfMonitor) : outcome PerfMonitor :=
  endCycle (snd c) (startCycle (fst c) p).

Fixpoint run_cycles (cs : list (Z * Z)) (p : PerfMonitor) : outcome PerfMonitor :=
  match cs with
  | [] => Returns p
  | c :: cs =>
    match guarded_cycle c p with
    | Returns p => run_cycles cs p
    | o => o
    end
  end.

(** ** What the statistics say *)

Lemma decode_int n : 0 <= n < 2 ^ 53 -> decode binary64 (double_of_i64 n) = Finite false (n * 2 ^ 1074).
Proof.
  intros Hn. rewrite double_of_i64_int, double_of_int_exact by lia.
  by rewrite (proj2 (Z.ltb_ge n 0)), Z.abs_eq by lia.
Qed.

(** A configuration whose histogram has a width that is not too small. *)
Definition config_ok (c : PerfMonitorConfig) : Prop :=
  1 <= deadline_us c < 2 ^ 53 /\ 2 <= histogram_buckets c <= 2 ^ 32 /\ 0 < sample_buffer_size c < 2 ^ 32 /\
  enable_histogram c = true /\ enable_tracing c = false.

Lemma bucket_defined c l :
  config_ok c -> 0 <= l <= 2 ^ 31 ->
  exists n, 0 <= n /\
    u64_of_double (double_div (double_of_i64 l)
      (double_div (double_of_i64 (deadline_us c)) (double_of_i64 (u32 (histogram_buckets c - 1))))) = Some n.
Proof.
  intros (Hd & Hb & _) Hl. assert (H31 : 2 ^ 31 < 2 ^ 53) by done. assert (H32 : 2 ^ 32 < 2 ^ 53) by done.
  unfold u32. rewrite wrap_small by lia. set (b := histogram_buckets c - 1).
  assert (Hu : 0 < 2 ^ 1074) by (apply pow2_pos; lia).
  destruct (double_div_range (double_of_i64 (deadline_us c)) (double_of_i64 b) (deadline_us c * 2 ^ 1074) (b * 2 ^ 1074)
    (53 + 1074)) as (w & Hw & Hwr & Hlow).
  - apply decode_int; lia.
  - apply decode_int; subst b; lia.
  - apply Z.mul_nonneg_nonneg; lia.
  - apply Z.mul_pos_pos; subst b; lia.
  - lia.
  - transitivity (2 ^ 53 * 2 ^ 1074 * 2 ^ 1074).
    + apply Z.mul_le_mono_nonneg_r; [lia|]. apply Z.mul_le_mono_nonneg_r; lia.
    + rewrite Z.pow_add_r by lia. assert (1 <= b) by (subst b; lia). revert Hu. generalize (2 ^ 1074). intros u Hu.
      replace (b * u * (2 ^ 53 * u)) with (b * (2 ^ 53 * u * u)) by ring.
      rewrite <- (Z.mul_1_l (2 ^ 53 * u * u)) at 1. apply Z.mul_le_mono_nonneg_r; [|done].
      apply Z.mul_nonneg_nonneg; lia.
  - assert (Hw' : 2 ^ 1042 <= w).
    { apply Hlow; [lia|]. transitivity (2 ^ 32 * 2 ^ 1074 * 2 ^ 1042).
      - apply Z.mul_le_mono_nonneg_r; [apply Z.lt_le_incl, pow2_pos; lia|]. apply Z.mul_le_mono_nonneg_r; subst b; lia.
      - assert (HU : 2 ^ 32 * 2 ^ 1042 = 2 ^ 1074) by done.
        replace (2 ^ 32 * 2 ^ 1074 * 2 ^ 1042) with (1 * (2 ^ 1074 * (2 ^ 32 * 2 ^ 1042))) by ring.
        rewrite HU, <- Z.mul_assoc. apply Z.mul_le_mono_nonneg_r; [apply Z.mul_nonneg_nonneg|]; lia. }
    destruct (double_div_range (double_of_i64 l) _ (l * 2 ^ 1074) w 1137 ltac:(apply decode_int; lia) Hw)
      as (m & Hm & Hmr & _); [apply Z.mul_nonneg_nonneg; lia| |lia| |].
    + eapply Z.lt_le_trans; [|exact Hw']. apply pow2_pos; lia.
    + transitivity (2 ^ 31 * 2 ^ 1074 * 2 ^ 1074).
      * apply Z.mul_le_mono_nonneg_r; [lia|]. apply Z.mul_le_mono_nonneg_r; lia.
      * replace (2 ^ 31 * 2 ^ 1074 * 2 ^ 1074) with (2 ^ 1042 * 2 ^ 1137) by done.
        apply Z.mul_le_mono_nonneg_r; [apply Z.lt_le_incl, pow2_pos; lia|done].
    + destruct (u64_of_magnitude _ _ _ Hm Hmr ltac:(lia)) as (n & Hn & Hn0). eauto.
Qed.

Lemma updateHistogram_counts c l h :
  config_ok c -> 0 <= l <= 2 ^ 31 -> Z.of_nat (length h) = histogram_buckets c ->
  Forall (λ x, 0 <= x) h -> zsum h + 1 < 2 ^ 64 ->
  exists h', updateHistogram (double_of_i64 l) c h = Some h' /\ length h' = length h /\ Forall (λ x, 0 <= x) h' /\
    zsum h' = zsum h + 1.
Proof.
  intros Hc Hl Hh Hn Hs. destruct (bucket_defined c l Hc Hl) as (n & Hn0 & Hb). unfold updateHistogram.
  rewrite Hb. cbn [mbind option_bind]. destruct Hc as (_ & Hbk & _).
  set (i := if _ <=? n then _ else n). assert (Hi : (Z.to_nat i < length h)%nat).
  { subst i. destruct (Z.leb_spec (Z.of_nat (length h)) n); [|lia]. unfold u64. rewrite wrap_small; lia. }
  apply lookup_lt_is_Some_2 in Hi as [x Hx]. rewrite Hx. cbn [mbind option_bind]. eexists. split; [reflexivity|].
  pose proof (zsum_lookup_le h _ x Hn Hx). pose proof (Forall_lookup_1 _ _ _ _ Hn Hx) as Hx0. cbn in Hx0.
  assert (Hu : u64 (x + 1) = x + 1) by (unfold u64; apply wrap_small; lia). rewrite Hu.
  rewrite length_insert, (zsum_insert _ _ x) by done. split; [done|]. split; [|lia].
  apply Forall_insert; [done|lia].
Qed.

Definition dbl (l : Z) : Z := double_of_int l.

(** The monitor after cycles of latencies [ls]: [n] is the size of the buffer. *)
Record perf_ok (c : PerfMonitorConfig) (n : nat) (ls : list Z) (p : PerfMonitor) : Prop := {
  po_config : config_ p = c;
  po_size : length (latency_samples_ p) = n;
  po_index : sample_index_ p = (length ls mod n)%nat;
  po_samples : drop (sample_index_ p) (latency_samples_ p) ++ take (sample_index_ p) (latency_samples_ p) =
                 lastn n (replicate n 0 ++ (dbl <$> ls));
  po_total : total_cycles_ p = Z.of_nat (length ls);
  po_misses : deadline_misses_ p = Z.of_nat (count (λ l, deadline_us c <? l) ls);
  po_time : total_execution_time_us_ p = zsum ls;
  po_sum : sum_latency_ p = dbl (zsum ls);
  po_min : ls <> [] -> exists m, min_latency_ p = dbl m /\ m ∈ ls /\ Forall (λ x, m <= x) ls;
  po_min0 : ls = [] -> min_latency_ p = double_max;
  po_max : exists m, max_latency_ p = dbl m /\ (if decide (ls = []) then m = 0 else m ∈ ls) /\ Forall (λ x, x <= m) ls;
  po_histogram : Z.of_nat (length (histogram_ p)) = histogram_buckets c /\ Forall (λ x, 0 <= x) (histogram_ p) /\
                   zsum (histogram_ p) = Z.of_nat (length ls)
}.

Lemma dbl_i64 l : 0 <= l < 2 ^ 53 -> double_of_i64 l = dbl l.
Proof. intros Hl. apply double_of_i64_int. lia. Qed.

(** Writing at the index of the ring replaces its oldest sample. *)
Lemma ring_write {A} (l old : list A) (i n : nat) (x : A) :
  length l = n -> (i < n)%nat -> drop i l ++ take i l = lastn n old ->
  let j := ((i + 1) mod n)%nat in
  drop j (<[i := x]> l) ++ take j (<[i := x]> l) = lastn n (old ++ [x]).
Proof.
  intros Hl Hi Hr j.
  assert (Hlen : length (lastn n old) = n).
  { rewrite <- Hr, length_app, length_drop, length_take. lia. }
  assert (Hold : (n <= length old)%nat).
  { unfold lastn in Hlen. rewrite length_drop in Hlen. lia. }
  assert (Hnew : lastn n (old ++ [x]) = drop 1 (drop i l ++ take i l) ++ [x]).
  { rewrite Hr. unfold lastn. rewrite length_app, drop_drop. cbn [length].
    replace (length old + 1 - n)%nat with (length old - n + 1)%nat by lia. rewrite drop_app_le by lia. done. }
  rewrite Hnew. assert (Hd : drop 1 (drop i l ++ take i l) = drop (i + 1) l ++ take i l).
  { rewrite drop_app_le by (rewrite length_drop; lia). by rewrite drop_drop. }
  rewrite Hd. clear Hnew Hd Hr Hold Hlen. subst j.
  assert (Hw : <[i := x]> l = take i l ++ x :: drop (i + 1) l).
  { rewrite insert_take_drop by lia. do 2 f_equal. f_equal. lia. }
  assert (Hti : length (take i l) = i) by (rewrite length_take; lia).
  destruct (decide (i + 1 = n)%nat) as [He|Hne].
  - rewrite He, Nat.Div0.mod_same, drop_0, take_0, app_nil_r, Hw.
    rewrite He, (drop_ge l n) by lia. done.
  - rewrite Nat.mod_small by lia. rewrite Hw.
    rewrite drop_app_ge, take_app_ge by lia. rewrite Hti. replace (i + 1 - i)%nat with 1%nat by lia. cbn.
    rewrite <- !app_assoc. done.
Qed.

Lemma below_double_max l : 0 <= l < 2 ^ 53 -> double_lt (dbl l) double_max = true.
Proof.
  intros Hl. unfold double_lt, double_le, dbl. rewrite double_of_int_exact by lia.
  assert (Hd : decode binary64 double_max = Finite false ((2 ^ 53 - 1) * 2 ^ 2045)) by (vm_compute; reflexivity).
  rewrite Hd. cbn [number_le]. rewrite (proj2 (Z.ltb_ge l 0)), Z.abs_eq by lia. cbn [signed].
  assert (Hlt : l * 2 ^ 1074 < (2 ^ 53 - 1) * 2 ^ 2045).
  { eapply Z.lt_le_trans; [apply Z.mul_lt_mono_pos_r; [apply pow2_pos; lia|apply Hl]|].
    rewrite <- Z.pow_add_r by lia. transitivity (1 * 2 ^ 2045).
    - rewrite Z.mul_1_l. apply Z.pow_le_mono_r; lia.
    - apply Z.mul_le_mono_nonneg_r; [apply Z.lt_le_incl, pow2_pos; lia|lia]. }
  rewrite (proj2 (Z.leb_le _ _)), (proj2 (Z.leb_gt _ _)); [done|exact Hlt|by apply Z.lt_le_incl].
Qed.

Definition cycle_latency (c : Z * Z) : Z := Z.quot (snd c - fst c) 1000.

Lemma new_min c n ls p l :
  perf_ok c n ls p -> 0 <= l < 2 ^ 53 -> Forall (λ x, 0 <= x < 2 ^ 53) ls ->
  exists m, (if double_lt (dbl l) (min_latency_ p) then dbl l else min_latency_ p) = dbl m /\
    m ∈ ls ++ [l] /\ Forall (λ x, m <= x) (ls ++ [l]).
Proof.
  intros Hok Hl Hls. destruct (decide (ls = [])) as [-> |Hne].
  { rewrite (po_min0 _ _ _ _ Hok eq_refl), below_double_max by done. exists l.
    split; [done|]. split; [by left|]. constructor; [lia|constructor]. }
  destruct (po_min _ _ _ _ Hok Hne) as (m & -> & Hm & Hmin).
  assert (0 <= m < 2 ^ 53) by (by apply (proj1 (Forall_forall _ _) Hls m Hm)).
  unfold dbl. rewrite double_lt_int by lia.
  destruct (Z.ltb_spec l m); eexists; (split; [reflexivity|]); rewrite elem_of_app, list_elem_of_singleton, Forall_app,
    Forall_singleton; split; [by right| |by left|]; (split; [|lia]); [|done].
  eapply Forall_impl; [exact Hmin|]. cbn. lia.
Qed.

Lemma new_max c n ls p l :
  perf_ok c n ls p -> 0 <= l < 2 ^ 53 -> Forall (λ x, 0 <= x < 2 ^ 53) ls ->
  exists m, (if double_lt (max_latency_ p) (dbl l) then dbl l else max_latency_ p) = dbl m /\
    m ∈ ls ++ [l] /\ Forall (λ x, x <= m) (ls ++ [l]).
Proof.
  intros Hok Hl Hls. destruct (po_max _ _ _ _ Hok) as (m & -> & Hm & Hmax).
  assert (Hmb : 0 <= m < 2 ^ 53).
  { destruct (decide (ls = [])) as [_|Hne]; [subst m; done|]. by apply (proj1 (Forall_forall _ _) Hls m Hm). }
  unfold dbl. rewrite double_lt_int by lia.
  destruct (Z.ltb_spec m l); eexists; (split; [reflexivity|]);
    rewrite elem_of_app, list_elem_of_singleton, Forall_app, Forall_singleton.
  - split; [by right|]. split; [|lia]. eapply Forall_impl; [exact Hmax|]. cbn. lia.
  - split; [|by split]. destruct (decide (ls = [])) as [_|Hne]; [right; lia|by left].
Qed.

Lemma snoc_nonempty {A} (l : list A) x : l ++ [x] <> [].
Proof. by destruct l. Qed.

(** One cycle adds its latency to everything that is kept. *)
Lemma cycle_ok c n ls p cyc :
  config_ok c -> perf_ok c n ls p -> (0 < n)%nat -> 0 <= cycle_latency cyc <= 2 ^ 31 ->
  Forall (λ x, 0 <= x < 2 ^ 53) ls -> zsum ls + cycle_latency cyc < 2 ^ 53 -> Z.of_nat (length ls) + 1 < 2 ^ 64 ->
  exists p', guarded_cycle cyc p = Returns p' /\ perf_ok c n (ls ++ [cycle_latency cyc]) p'.
Proof.
  intros Hc Hok Hn Hl Hls Hsum Hcnt. destruct cyc as [s e]. unfold guarded_cycle, endCycle, count_cycle. cbn [fst snd].
  change (latency (startCycle s p) e) with (cycle_latency (s, e)). set (l := cycle_latency (s, e)) in *.
  assert (H31 : 2 ^ 31 < 2 ^ 53) by done. assert (H53 : 2 ^ 53 < 2 ^ 64) by done.
  assert (Hs0 : 0 <= zsum ls) by (apply zsum_nonneg; eapply Forall_impl; [exact Hls|]; cbn; lia).
  rewrite dbl_i64 by lia.
  destruct (new_min c n ls p l Hok ltac:(lia) Hls) as (mn & Hmn & Hmn1 & Hmn2).
  destruct (new_max c n ls p l Hok ltac:(lia) Hls) as (mx & Hmx & Hmx1 & Hmx2).
  destruct Hok as [Hcfg Hsz Hidx Hring Htot Hmiss Htime Hsl _ _ _ (Hhl & Hh0 & Hhs)].
  assert (Hidx' : (sample_index_ p < n)%nat) by (rewrite Hidx; apply Nat.mod_upper_bound; lia).
  unfold recordSample. cbn [startCycle latency_samples_ sample_index_ min_latency_ max_latency_].
  rewrite (proj2 (Nat.ltb_lt _ _)) by lia. cbn [mbind option_bind config_ startCycle histogram_].
  assert (Hu : u64_of_double (dbl l) = Some l).
  { unfold u64_of_double, double_trunc, dbl. rewrite double_of_int_exact, (proj2 (Z.ltb_ge l 0)), Z.abs_eq by lia.
    cbn [signed]. rewrite Z.div_mul by (apply Z.pow_nonzero; lia).
    by rewrite (proj2 (Z.leb_le _ _)), (proj2 (Z.ltb_lt _ _)) by lia. }
  rewrite Hu. cbn [mbind option_bind]. destruct (updateHistogram_counts c l (histogram_ p)) as (h' & Hh' & Hhl' & Hh0' & Hhs');
    [done|lia|done|done|lia|].
  rewrite (dbl_i64 l) in Hh' by lia. rewrite Hcfg. pose proof Hc as (Hd & _ & _ & -> & Htr). rewrite Hh'.
  cbn [mbind option_bind]. unfold set_counts.
  cbn [config_ enable_tracing startCycle total_cycles_ deadline_misses_ total_execution_time_us_]. rewrite Htr.
  cbn [andb]. eexists. split; [reflexivity|]. split; cbn [config_ latency_samples_ sample_index_ total_cycles_ deadline_misses_
    total_execution_time_us_ min_latency_ max_latency_ sum_latency_ histogram_ startCycle].
  - done.
  - by rewrite length_insert.
  - rewrite length_app, Hidx, Hsz. cbn [length]. rewrite Nat.Div0.add_mod_idemp_l. done.
  - rewrite Hsz, fmap_app, app_assoc. by apply ring_write.
  - rewrite Htot, length_app. cbn [length]. unfold u64. rewrite wrap_small; lia.
  - rewrite dbl_i64 by lia. unfold dbl. rewrite double_lt_int by lia. rewrite count_app, Hmiss.
    assert (Z.of_nat (count (λ x, deadline_us c <? x) ls) <= Z.of_nat (length ls)) by (apply inj_le, count_le).
    rewrite count_one. destruct (deadline_us c <? l); [|lia]. unfold u64. rewrite wrap_small; lia.
  - rewrite Htime, zsum_app. unfold u64. rewrite wrap_small; cbn; lia.
  - rewrite Hsl, zsum_app. change (zsum [l]) with (l + 0). rewrite Z.add_0_r. unfold dbl. by rewrite double_add_int by lia.
  - intros _. by exists mn.
  - intros H. by apply snoc_nonempty in H.
  - exists mx. by rewrite decide_False by apply snoc_nonempty.
  - rewrite length_app, Hhl', Hhs'. cbn [length]. split; [done|]. split; [done|]. lia.
Qed.

Lemma configured_ok c : config_ok c -> perf_ok c (Z.to_nat (sample_buffer_size c)) [] (snd (configure c newPerfMonitor)).
Proof.
  intros (_ & Hb & Hs & Hh & _). set (n := Z.to_nat (sample_buffer_size c)).
  assert (Hv : forall k, vec_resize k 0 [] = replicate k 0).
  { intros k. unfold vec_resize. by rewrite take_nil, Nat.sub_0_r. }
  unfold configure. cbn [snd]. rewrite Hh, !Hv. split; cbn [config_ latency_samples_ sample_index_ total_cycles_
    deadline_misses_ total_execution_time_us_ min_latency_ max_latency_ sum_latency_ histogram_]; try done.
  - apply length_replicate.
  - by rewrite Nat.Div0.mod_0_l.
  - rewrite drop_0, take_0, !app_nil_r. unfold lastn. by rewrite length_replicate, Nat.sub_diag.
  - exists 0. by repeat split.
  - rewrite length_replicate. split; [lia|]. split; [by apply Forall_replicate|].
    generalize (Z.to_nat (histogram_buckets c)). intros k. unfold zsum. by induction k.
Qed.

Lemma run_cycles_ok c n cs : forall ls p,
  config_ok c -> perf_ok c n ls p -> (0 < n)%nat -> Forall (λ x, 0 <= x <= 2 ^ 31) (cycle_latency <$> cs) ->
  Forall (λ x, 0 <= x < 2 ^ 53) ls -> zsum ls + zsum (cycle_latency <$> cs) < 2 ^ 53 ->
  Z.of_nat (length ls + length cs) < 2 ^ 53 ->
  exists p', run_cycles cs p = Returns p' /\ perf_ok c n (ls ++ (cycle_latency <$> cs)) p'.
Proof.
  induction cs as [|cyc cs IH]; intros ls p Hc Hok Hn Hcs Hls Hsum Hlen.
  { exists p. by rewrite app_nil_r. }
  rewrite fmap_cons in *. apply Forall_cons in Hcs as [Hl Hcs]. cbn [zsum foldr length] in Hsum, Hlen.
  fold (zsum (cycle_latency <$> cs)) in Hsum.
  assert (0 <= zsum (cycle_latency <$> cs)) by (apply zsum_nonneg; eapply Forall_impl; [exact Hcs|]; cbn; lia).
  assert (H31 : 2 ^ 31 < 2 ^ 53) by done.
  destruct (cycle_ok c n ls p cyc Hc Hok Hn Hl Hls) as (p1 & Hp1 & Hok1); [lia|lia|].
  cbn [run_cycles]. rewrite Hp1.
  destruct (IH _ _ Hc Hok1 Hn Hcs) as (p2 & Hp2 & Hok2).
  - apply Forall_app. split; [done|]. constructor; [lia|constructor].
  - rewrite zsum_app. cbn. lia.
  - rewrite length_app. cbn. lia.
  - exists p2. rewrite <- app_assoc in Hok2. done.
Qed.

(** ** Percentiles *)

#[export] Instance sort_le_total : Total sort_le.
Proof.
  intros a b. unfold sort_le, double_lt. destruct (double_le a b), (double_le b a); cbn; auto.
Qed.

Lemma sort_le_dbl a b : 0 <= a < 2 ^ 53 -> 0 <= b < 2 ^ 53 -> sort_le (dbl a) (dbl b) -> a <= b.
Proof. intros Ha Hb. unfold sort_le, dbl. rewrite double_lt_int by lia. apply Z.ltb_ge. Qed.

(** The samples in use are the latest latencies. *)
Lemma samples_in_use c n ls p :
  perf_ok c n ls p -> (0 < n)%nat ->
  take (Z.to_nat (Z.min (total_cycles_ p) (Z.of_nat (length (latency_samples_ p))))) (latency_samples_ p) ≡ₚ
    dbl <$> lastn n ls.
Proof.
  intros Hok Hn. destruct Hok as [_ Hsz Hidx Hring Htot _ _ _ _ _ _ _]. rewrite Htot, Hsz.
  destruct (decide (n <= length ls)%nat) as [Hge|Hlt].
  - replace (Z.to_nat _) with n by lia. rewrite take_ge by lia.
    rewrite <- (take_drop (sample_index_ p) (latency_samples_ p)) at 1. rewrite (Permutation_app_comm (take _ _)), Hring.
    unfold lastn. rewrite length_app, length_replicate, length_fmap, drop_app_ge by (rewrite length_replicate; lia).
    rewrite length_replicate, fmap_drop. by replace (n + length ls - n - n)%nat with (length ls - n)%nat by lia.
  - replace (Z.to_nat _) with (length ls) by lia. rewrite Hidx, Nat.mod_small in Hring by lia.
    assert (Hd : lastn n ls = ls) by (unfold lastn; by replace (length ls - n)%nat with 0%nat by lia).
    rewrite Hd. unfold lastn in Hring. rewrite length_app, length_replicate, length_fmap in Hring.
    replace (n + length ls - n)%nat with (length ls) in Hring by lia.
    rewrite drop_app_le in Hring by (rewrite length_replicate; lia).
    apply app_inj_2 in Hring as [_ ->]; [done|]. rewrite length_take, length_fmap. lia.
Qed.

Lemma sorted_samples c n ls p :
  perf_ok c n ls p -> (0 < n)%nat -> Forall (λ x, 0 <= x < 2 ^ 53) ls ->
  exists xs, merge_sort sort_le (take (Z.to_nat (Z.min (total_cycles_ p) (Z.of_nat (length (latency_samples_ p)))))
               (latency_samples_ p)) = dbl <$> xs /\ xs ≡ₚ lastn n ls /\ StronglySorted Z.le xs.
Proof.
  intros Hok Hn Hls. set (t := take _ _). pose proof (samples_in_use c n ls p Hok Hn) as Hp. fold t in Hp.
  assert (Hm : merge_sort sort_le t ≡ₚ dbl <$> lastn n ls) by (by rewrite merge_sort_Permutation).
  destruct (Permutation_map_inv dbl (lastn n ls) Hm) as (xs & Hxs & Hperm). exists xs.
  split; [exact Hxs|]. split; [by symmetry|].
  assert (Hrng : Forall (λ x, 0 <= x < 2 ^ 53) xs).
  { rewrite <- Hperm. unfold lastn. by apply Forall_drop. }
  apply Sorted_StronglySorted; [intros a b d; apply Z.le_trans|].
  pose proof (Sorted_merge_sort sort_le t) as Hsrt. rewrite Hxs in Hsrt. clear -Hsrt Hrng.
  induction xs as [|x xs IH]; [constructor|]. apply Forall_cons in Hrng as [Hx Hrng].
  cbn [map] in Hsrt. inversion_clear Hsrt as [|? ? Hs Hhd]. constructor; [by apply IH|].
  destruct xs as [|y xs]; constructor. inversion_clear Hhd as [|? ? Hle]. apply Forall_cons in Hrng as [Hy _].
  by apply sort_le_dbl.
Qed.

Definition magnitude (d : Z) : Z := match decode binary64 d with Finite _ m => m | _ => 0 end.

Lemma percentages :
  fraction half (magnitude half) /\ fraction p95 (magnitude p95) /\ fraction p99 (magnitude p99) /\
  magnitude half <= magnitude p95 <= magnitude p99.
Proof.
  repeat split; vm_compute; (reflexivity || discriminate).
Qed.

(** A percentile is the entry of the sorted latencies at its index. *)
Lemma percentile_entry c n ls p pc xs :
  perf_ok c n ls p -> ls <> [] -> fraction pc (magnitude pc) -> Z.of_nat (length xs) < 2 ^ 53 ->
  merge_sort sort_le (take (Z.to_nat (Z.min (total_cycles_ p) (Z.of_nat (length (latency_samples_ p)))))
    (latency_samples_ p)) = dbl <$> xs -> xs <> [] ->
  exists x, xs !! Z.to_nat (scaled_index (magnitude pc) (Z.of_nat (length xs) - 1)) = Some x /\
    calculatePercentile pc p = Some (dbl x).
Proof.
  intros Hok Hne Hf Hlen Hs Hxs.
  assert (Hl1 : 1 <= Z.of_nat (length xs)) by (destruct xs; [done|cbn; lia]).
  assert (H53 : 2 ^ 53 < 2 ^ 64) by done.
  pose proof (scaled_index_range (magnitude pc) (Z.of_nat (length xs) - 1) (proj2 Hf) ltac:(lia)) as Hr.
  destruct (lookup_lt_is_Some_2 xs (Z.to_nat (scaled_index (magnitude pc) (Z.of_nat (length xs) - 1)))) as [x Hx]; [lia|].
  exists x. split; [done|]. unfold calculatePercentile.
  rewrite (po_total _ _ _ _ Hok) at 1. rewrite (proj2 (Z.eqb_neq _ _)) by (destruct ls; [done|cbn; lia]).
  rewrite Hs, length_fmap. unfold u64. rewrite wrap_small by lia. rewrite double_of_i64_int by lia.
  rewrite (u64_of_fraction pc (magnitude pc)) by (try done; lia). cbn [mbind option_bind].
  by rewrite list_lookup_fmap, Hx.
Qed.

Lemma sorted_lookup_le xs i j a b :
  StronglySorted Z.le xs -> xs !! i = Some a -> xs !! j = Some b -> (i <= j)%nat -> a <= b.
Proof.
  intros Hs. revert i j. induction Hs as [|x xs Hs IH Hf]; intros [|i] [|j] Hi Hj Hij; try done; cbn in Hi, Hj.
  - simplify_eq. lia.
  - simplify_eq. by eapply Forall_lookup_1 in Hj.
  - lia.
  - eapply IH; [done..|lia].
Qed.

(** The percentiles are latencies of the latest cycles, in order. *)
Lemma percentiles_ordered c n ls p :
  perf_ok c n ls p -> (0 < n)%nat -> ls <> [] -> Forall (λ x, 0 <= x < 2 ^ 53) ls -> Z.of_nat (length ls) < 2 ^ 53 ->
  exists a b d, calculatePercentile half p = Some (dbl a) /\ calculatePercentile p95 p = Some (dbl b) /\
    calculatePercentile p99 p = Some (dbl d) /\ a <= b <= d /\
    a ∈ lastn n ls /\ b ∈ lastn n ls /\ d ∈ lastn n ls.
Proof.
  intros Hok Hn Hne Hls Hlen. destruct (sorted_samples c n ls p Hok Hn Hls) as (xs & Hxs & Hperm & Hsrt).
  assert (Hlxs : length xs = length (lastn n ls)) by (by rewrite Hperm).
  unfold lastn in Hlxs. rewrite length_drop in Hlxs.
  assert (xs <> []) by (destruct xs; [|done]; destruct ls; [done|cbn in Hlxs; lia]).
  destruct percentages as (Hf1 & Hf2 & Hf3 & Hmono).
  assert (Hx0 : 0 <= Z.of_nat (length xs) - 1) by (destruct xs; [done|cbn; lia]).
  destruct (percentile_entry c n ls p half xs) as (a & Ha & ->); [done..|lia|done|done|].
  destruct (percentile_entry c n ls p p95 xs) as (b & Hb & ->); [done..|lia|done|done|].
  destruct (percentile_entry c n ls p p99 xs) as (d & Hd & ->); [done..|lia|done|done|].
  exists a, b, d. split; [done|]. split; [done|]. split; [done|]. rewrite <- Hperm. split.
  - pose proof (proj1 (proj2 Hf1)). pose proof (proj1 (proj2 Hf2)).
    split; eapply sorted_lookup_le; [exact Hsrt|exact Ha|exact Hb| |exact Hsrt|exact Hb|exact Hd|];
      apply Z2Nat.inj_le; try (apply scaled_index_mono; lia);
      apply scaled_index_range; try lia; apply Hf1 || apply Hf2 || apply Hf3.
  - split; [|split]; by eapply list_elem_of_lookup_2.
Qed.

(** What the statistics say of cycles of latencies [ls] with a buffer of [n]. *)
Definition describes (deadline : Z) (n : nat) (ls : list Z) (st : PerfStats) : Prop :=
  total_cycles st = Z.of_nat (length ls) /\
  deadline_misses st = Z.of_nat (count (λ l, deadline <? l) ls) /\
  total_execution_time_us st = zsum ls /\
  avg_latency st = double_div (dbl (zsum ls)) (dbl (Z.of_nat (length ls))) /\
  (exists lo hi, min_latency st = dbl lo /\ max_latency st = dbl hi /\ lo ∈ ls /\ hi ∈ ls /\
     Forall (λ x, lo <= x <= hi) ls) /\
  (exists a b d, p50_latency st = dbl a /\ p95_latency st = dbl b /\ p99_latency st = dbl d /\
     a <= b <= d /\ a ∈ lastn n ls /\ b ∈ lastn n ls /\ d ∈ lastn n ls).

(** After any cycles of at most 2^31 microseconds the monitor has counted them
    and their deadline misses, has their sum, extremes and average as if it had
    kept them all, its percentiles are ordered and taken from the latest ones,
    and every cycle is in one bucket of the histogram. *)
Theorem statistics_describe_the_cycles c cs :
  config_ok c -> cs <> [] -> Forall (λ x, 0 <= x <= 2 ^ 31) (cycle_latency <$> cs) ->
  zsum (cycle_latency <$> cs) < 2 ^ 53 -> Z.of_nat (length cs) < 2 ^ 53 ->
  exists p st, run_cycles cs (snd (configure c newPerfMonitor)) = Returns p /\ getStats p = Some st /\
    describes (deadline_us c) (Z.to_nat (sample_buffer_size c)) (cycle_latency <$> cs) st /\
    zsum (getHistogram p) = Z.of_nat (length cs).
Proof.
  intros Hc Hne Hcs Hsum Hlen. set (n := Z.to_nat (sample_buffer_size c)). set (ls := cycle_latency <$> cs) in *.
  assert (Hn : (0 < n)%nat) by (destruct Hc as (_ & _ & Hs & _); lia).
  destruct (run_cycles_ok c n cs [] (snd (configure c newPerfMonitor)) Hc (configured_ok c Hc) Hn Hcs) as (p & Hrun & Hok);
    [constructor|done|done|]. fold ls in Hok. cbn [app] in Hok.
  assert (Hlls : length ls = length cs) by apply length_fmap.
  assert (Hls : Forall (λ x, 0 <= x < 2 ^ 53) ls).
  { assert (2 ^ 31 < 2 ^ 53) by done. eapply Forall_impl; [exact Hcs|]. cbn. lia. }
  assert (Hnel : ls <> []) by (intros He; apply Hne; destruct cs; done).
  destruct (percentiles_ordered c n ls p Hok Hn Hnel Hls) as (a & b & d & Ha & Hb & Hd & Hord); [lia|].
  destruct (po_min _ _ _ _ Hok Hnel) as (lo & Hlo & Hlo1 & Hlo2).
  destruct (po_max _ _ _ _ Hok) as (hi & Hhi & Hhi1 & Hhi2). rewrite decide_False in Hhi1 by done.
  assert (Ht : total_cycles_ p = Z.of_nat (length ls)) by apply (po_total _ _ _ _ Hok).
  assert (Ht0 : total_cycles_ p <> 0) by (destruct ls; [done|cbn in Ht; lia]).
  eexists p, _. split; [exact Hrun|]. unfold getStats. rewrite (proj2 (Z.eqb_neq _ _)) by done.
  rewrite Ha, Hb, Hd. cbn [mbind option_bind]. split; [reflexivity|].
  split; [|rewrite <- Hlls; apply (po_histogram _ _ _ _ Hok)].
  unfold describes. cbn [total_cycles deadline_misses total_execution_time_us avg_latency min_latency max_latency
    p50_latency p95_latency p99_latency]. rewrite (po_sum _ _ _ _ Hok), Ht, dbl_i64 by lia.
  split; [done|]. split; [apply (po_misses _ _ _ _ Hok)|]. split; [apply (po_time _ _ _ _ Hok)|]. split; [done|]. split.
  - exists lo, hi. do 4 (split; [done|]). apply Forall_forall. intros x Hx.
    split; [by apply (proj1 (Forall_forall _ _) Hlo2)|by apply (proj1 (Forall_forall _ _) Hhi2)].
  - by exists a, b, d.
Qed.

(** Four cycles with a buffer of three, one beyond the deadline. *)
Lemma statistics_describe_the_cycles_witness :
  let c := mkPerfConfig "rt" 1000 1000 true 100 3 false in
  let cs := [(0, 500000); (0, 1200000); (0, 300999); (0, 999999)] in
  exists p st, run_cycles cs (snd (configure c newPerfMonitor)) = Returns p /\ getStats p = Some st /\
    describes 1000 3 [500; 1200; 300; 999] st /\ zsum (getHistogram p) = 4.
Proof.
  apply (statistics_describe_the_cycles (mkPerfConfig "rt" 1000 1000 true 100 3 false)
    [(0, 500000); (0, 1200000); (0, 300999); (0, 999999)]).
  - unfold config_ok. cbn. repeat split; (lia || reflexivity).
  - discriminate.
  - repeat constructor; vm_compute; discriminate.
  - vm_compute. reflexivity.
  - vm_compute. reflexivity.
Defined.

(** ** Deviations *)

(** With tracing enabled, the cycle whose number is a multiple of 10000 never
    ends: the report locks the mutex that the thread holds. *)
Theorem tracing_deadlocks now p p' :
  count_cycle now p = Some p' -> enable_tracing (config_ p') = true -> total_cycles_ p' mod 10000 = 0 ->
  endCycle now p = Deadlock.
Proof. intros Hc Ht Hm. unfold endCycle. by rewrite Hc, Ht, Hm. Qed.

(** The 10000th cycle, from a monitor that has counted 9999. *)
Example ten_thousandth_cycle :
  let c := mkPerfConfig "rt" 1000 1000 true 100 1 true in
  let p := set_counts 9999 0 0 false (histogram_ (snd (configure c newPerfMonitor))) (snd (configure c newPerfMonitor)) in
  guarded_cycle (0, 500000) p = Deadlock.
Proof. vm_compute. reflexivity. Qed.

(** A monitor that was not configured writes outside its empty buffer. *)
Theorem unconfigured_cycle_is_undefined c : guarded_cycle c newPerfMonitor = Undefined.
Proof. done. Qed.

(** A clock that is set back during a cycle gives a negative latency, which is
    converted to an unsigned number. *)
Theorem clock_set_back_is_undefined :
  guarded_cycle (5000000, 1000000) (snd (configure newPerfConfig newPerfMonitor)) = Undefined.
Proof. vm_compute. reflexivity. Qed.

(** Configured again with a larger buffer, the monitor takes the unused entries
    for cycles of latency 0. *)
Theorem enlarged_buffer_counts_zeros :
  let c n := mkPerfConfig "rt" 1000 1000 true 100 n false in
  match run_cycles [(0, 500000); (0, 500000); (0, 500000)] (snd (configure (c 1) newPerfMonitor)) with
  | Returns p => (λ st, (min_latency st, p50_latency st)) <$> getStats (snd (configure (c 3) p))
  | _ => None
  end = Some (double_of_int 500, 0).
Proof. vm_compute. reflexivity. Qed.

(** A document with the default values configures the monitor as by default;
    one with a value of another type changes nothing. *)
Theorem empty_document_gives_defaults p :
  loadConfig (Parsed (JObject [])) p = Returns (configure newPerfConfig p) /\
  loadConfig (Parsed (JObject [("deadline_us", JString "1 ms")])) p = Returns (false, p).
Proof. done. Qed.

(** A deadline in microseconds of more than 35 minutes is cut to 32 bits. *)
Theorem long_deadline_is_cut p :
  loadConfig (Parsed (JObject [("deadline_us", JInt (2 ^ 32 + 5))])) p =
    Returns (configure (mkPerfConfig "" 1000 5 true 100 10000 false) p).
Proof. done. Qed.
