(* ===== verification/ExecutivePerf.v ===== *)
(** * The executive with its performance monitor (src/core/rt/RTExecutive.cpp,
      src/core/rt/perf/PerfMonitor.cpp)

    [RTExecutive] is written against an interface whose calls may be undefined;
    here the monitor of [PerfMonitor] stands behind it, as in the constructor of
    the executive.  The metrics are a sink [M] of statistics and deadline misses
    ([RTMetrics] has the gauges and counters behind it). *)

From S2P Require Import Prelude Interfaces RTSchedule RTStateMachine RTExecutive Ieee754 Rounding Config PerfMonitor.
#[local] Open Scope Z_scope.

(** [updatePerfPercentiles], [updatePerfJitter], [updatePerfDeadlineMissRate] and
    [updateNUMAStats] with the statistics; [incrementPerfDeadlineMisses]. *)
Class MetricsSink (M : Type) := {
  show_stats : PerfStats -> M -> M;
  count_miss : M -> M
}.

Definition returned {A} (o : outcome A) : option A := match o with Returns a => Some a | _ => None end.

#[export] Instance monitor_perf : IPerf PerfMonitor := {|
  new_perf := newPerfMonitor;
  RTExecutive.startCycle := PerfMonitor.startCycle;
  RTExecutive.endCycle now p := returned (PerfMonitor.endCycle now p);
  RTExecutive.didMissDeadline := PerfMonitor.didMissDeadline
|}.

#[export] Instance monitor_metrics {M} `{!MetricsSink M} : IPerfMetrics PerfMonitor M := {|
  metrics_update p m := (λ st, show_stats st m) <$> getStats p;
  incrementPerfDeadlineMisses := count_miss
|}.

Section Executive.
Context {B M : Type} `{!IEventBus RTBusEvent B} `{!MetricsSink M}.
Abbreviation executive := (RTExecutive (list log_entry) B PerfMonitor M).

(** The latencies, in whole microseconds, the monitor measures in the cycles. *)
Definition latencies (inps : list CycleInput) : list Z :=
  (λ i, cycle_latency (in_perf_start i, in_perf_end i)) <$> inps.

(** A monitor that has counted cycles has statistics. *)
Lemma stats_defined c n ls p :
  perf_ok c n ls p -> (0 < n)%nat -> ls <> [] -> Forall (λ x, 0 <= x < 2 ^ 53) ls -> Z.of_nat (length ls) < 2 ^ 53 ->
  is_Some (getStats p).
Proof.
  intros Hok Hn Hne Hls Hlen.
  destruct (percentiles_ordered c n ls p Hok Hn Hne Hls Hlen) as (a & b & d & Ha & Hb & Hd & _).
  unfold getStats. case_match; [by eexists|]. rewrite Ha, Hb, Hd. by eexists.
Qed.

Lemma configured_defined c n inps : forall count ls p,
  config_ok c -> perf_ok c n ls p -> (0 < n)%nat -> Forall (λ x, 0 <= x <= 2 ^ 31) (latencies inps) ->
  Forall (λ x, 0 <= x < 2 ^ 53) ls -> zsum ls + zsum (latencies inps) < 2 ^ 53 ->
  Z.of_nat (length ls + length inps) < 2 ^ 53 ->
  perf_defined (M := M) count inps p.
Proof.
  induction inps as [|i inps IH]; intros count ls p Hc Hok Hn Hcs Hls Hsum Hlen; [done|].
  unfold latencies in *. rewrite fmap_cons in *. apply Forall_cons in Hcs as [Hl Hcs]. cbn [zsum foldr length] in Hsum, Hlen.
  set (l := cycle_latency (in_perf_start i, in_perf_end i)) in *. fold (latencies inps) in *.
  fold (zsum (latencies inps)) in Hsum.
  assert (0 <= zsum (latencies inps)) by (apply zsum_nonneg; eapply Forall_impl; [exact Hcs|]; cbn; lia).
  assert (H31 : 2 ^ 31 < 2 ^ 53) by done.
  destruct (cycle_ok c n ls p (in_perf_start i, in_perf_end i) Hc Hok Hn Hl Hls) as (p1 & Hp1 & Hok1); [fold l; lia|lia|].
  assert (Hls1 : Forall (λ x, 0 <= x < 2 ^ 53) (ls ++ [l])) by (apply Forall_app; split; [done|]; constructor; [lia|constructor]).
  assert (Hlen1 : Z.of_nat (length (ls ++ [l]) + length inps) < 2 ^ 53) by (rewrite length_app; cbn; lia).
  exists p1. unfold guarded_cycle in Hp1. cbn [fst snd] in Hp1. cbn. rewrite Hp1. split; [done|]. split.
  - intros _ m. destruct (stats_defined c n _ p1 Hok1 Hn (snoc_nonempty ls l) Hls1) as [st ->]; [|by eexists].
    rewrite length_app in *. cbn [length] in *. lia.
  - eapply IH; [exact Hc|exact Hok1|done..|rewrite zsum_app; cbn; lia|done].
Qed.


(** The executive as it is constructed has a monitor with an empty buffer, and
    [configurePerfMonitor] does not change that: the first cycle is undefined,
    whatever is registered. *)
Theorem unconfigured_executive_is_undefined minor major (eb : option B) w path inp inps t :
  let e : executive := newRTExecutive minor major eb w in
  run_loop (inp :: inps) t (run_start (snd (configurePerfMonitor path e))) = None.
Proof.
  cbn [configurePerfMonitor snd]. set (e := newRTExecutive minor major eb w).
  assert (Hpm : perf_monitor_ e = newPerfMonitor)
    by (unfold e, newRTExecutive, machine_event; by destruct (snd _) as [sm eb']).
  destruct (run_start_frame e) as (_ & _ & _ & _ & R5 & _ & _ & R8).
  rewrite Hpm in R8. set (e' := run_start e) in *. clearbody e'. clear Hpm e.
  cbn [run_loop]. rewrite R5. unfold run_cycle. cbv zeta. set (e1 := set_context _ _ _).
  pose proof (checkHeartbeat_perf (in_now inp) (in_nonrt_heartbeat inp) e1) as H1.
  set (e2 := checkHeartbeat _ _ e1) in *. pose proof (executeSlot_perf (current_slot_ e2) e2) as H2.
  rewrite H1 in H2. set (e3 := executeSlot _ e2) in *. clearbody e3. clear H1 e2.
  unfold perf_frame in H2. subst e1. simpl in H2. injection H2 as Hp3 _ _.
  unfold perf_end. by rewrite Hp3, R8.
Qed.
End Executive.

(** ** Example runs *)

Module ExecutivePerfExamples.
#[export] Instance no_metrics : MetricsSink unit := {| show_stats _ m := m; count_miss m := m |}.

(** Cycles that take half a millisecond. *)
Definition quiet_cycles (n : nat) : list CycleInput := replicate n (mkCycleInput 0 0 0 500000 false).
Definition perf_config : PerfMonitorConfig := mkPerfConfig "rt" 10000 10000 true 100 10 false.
End ExecutivePerfExamples.
Import ExecutivePerfExamples.

