(* ===== verification/Affinity.v ===== *)
(** * CPU affinity and NUMA binding (src/core/rt/perf)

    CPUAffinityManager and NUMABinding with their guards.  The calls of the
    operating system are the class [Kernel]; sets of cores and nodes are what
    they are for it. *)

From Stdlib Require Import Ascii.
From S2P Require Import Prelude Ieee754 Text Config.
#[local] Open Scope Z_scope.

(** ** The operating system *)

Class Kernel (K : Type) := {
  pthread_setaffinity : gset Z -> K -> bool * K;
  pthread_getaffinity : K -> option (gset Z);
  pthread_setschedparam : Z -> Z -> K -> bool * K;     (* policy, priority *)
  cmdline_line : K -> option string;                  (* first line of /proc/cmdline *)
  cpuset_line : K -> option string;                   (* of /sys/fs/cgroup/cpuset/cpuset.cpus *)
  numa_available : K -> bool;
  numa_max_node : K -> Z;
  set_mempolicy : Z -> option Z -> K -> bool * K;      (* mode, node mask *)
  get_mempolicy : K -> option (Z * Z);
  numa_maps : Z -> K -> option (list string)          (* lines of /proc/<pid>/numa_maps *)
}.

(** ** CPUAffinityManager *)

Module Cpu.

Inductive IsolationMode := NONE | ISOLCPUS | CGROUPS | HYBRID.
Inductive SchedPolicy := OTHER | FIFO | RR | DEADLINE.

#[export] Instance IsolationMode_eq_dec : EqDecision IsolationMode.
Proof. solve_decision. Defined.

Definition isolationModeToString (m : IsolationMode) : string :=
  match m with NONE => "NONE" | ISOLCPUS => "ISOLCPUS" | CGROUPS => "CGROUPS" | HYBRID => "HYBRID" end.
Definition schedPolicyToString (p : SchedPolicy) : string :=
  match p with OTHER => "SCHED_OTHER" | FIFO => "SCHED_FIFO" | RR => "SCHED_RR" | DEADLINE => "SCHED_DEADLINE" end.

Record CPUAffinityConfig := mkCpuConfig {
  process_name : string;
  thread_name : string;
  cpu_cores : list Z;
  isolation_mode : IsolationMode;
  is_exclusive : bool;
  priority : Z;
  policy : SchedPolicy
}.
Definition newCpuConfig : CPUAffinityConfig := mkCpuConfig "" "" [] NONE true 80 FIFO.

(** The manager is its [config_]. *)

Definition parse_isolation (s : string) : IsolationMode :=
  if bool_decide (s = "ISOLCPUS") then ISOLCPUS
  else if bool_decide (s = "CGROUPS") then CGROUPS
  else if bool_decide (s = "HYBRID") then HYBRID
  else NONE.

Definition parse_policy (s : string) : SchedPolicy :=
  if bool_decide (s = "SCHED_OTHER") then OTHER
  else if bool_decide (s = "SCHED_FIFO") then FIFO
  else if bool_decide (s = "SCHED_RR") then RR
  else if bool_decide (s = "SCHED_DEADLINE") then DEADLINE
  else FIFO.

(** The cores read before the first that is not a number. *)
Fixpoint read_cores (l : list Json) : option (list Z * bool) :=
  match l with
  | [] => Some ([], true)
  | j :: l =>
    match get_int j with
    | None => None
    | Some (Throw _) => Some ([], false)
    | Some (Ok n) => '(ns, ok) ← read_cores l; Some (n :: ns, ok)
    end
  end.

(** [json.contains(k) && json[k].is_array()] *)
Definition array_member (k : string) (j : Json) : option (list Json) :=
  match j with
  | JObject m => match member k m with Some (JArray l) => Some l | _ => None end
  | _ => None
  end.

(** A step of [loadConfig]: it sets a member, or throws and leaves the rest. *)
Definition field {A C} (x : option (result string A)) (set : A -> C -> C) (k : C -> option (bool * C)) (c : C) :
    option (bool * C) :=
  match x with
  | None => None
  | Some (Throw _) => Some (false, c)
  | Some (Ok a) => k (set a c)
  end.

Definition parse_fields (j : Json) (c : CPUAffinityConfig) : option (bool * CPUAffinityConfig) :=
  field (json_value get_string "process_name" "" j)
    (λ x c, mkCpuConfig x (thread_name c) (cpu_cores c) (isolation_mode c) (is_exclusive c) (priority c) (policy c))
  (field (json_value get_string "thread_name" "" j)
    (λ x c, mkCpuConfig (process_name c) x (cpu_cores c) (isolation_mode c) (is_exclusive c) (priority c) (policy c))
  (λ c,
    '(c, ok) ← match array_member "cpu_cores" j with
               | Some l => '(ns, ok) ← read_cores l;
                   Some (mkCpuConfig (process_name c) (thread_name c) ns (isolation_mode c) (is_exclusive c) (priority c)
                           (policy c), ok)
               | None => Some (c, true)
               end;
    if negb ok then Some (false, c)
    else
      field (json_value get_string "isolation_mode" "NONE" j)
        (λ x c, mkCpuConfig (process_name c) (thread_name c) (cpu_cores c) (parse_isolation x) (is_exclusive c)
                  (priority c) (policy c))
      (field (json_value get_bool "is_exclusive" true j)
        (λ x c, mkCpuConfig (process_name c) (thread_name c) (cpu_cores c) (isolation_mode c) x (priority c) (policy c))
      (field (json_value get_int "priority" 80 j)
        (λ x c, mkCpuConfig (process_name c) (thread_name c) (cpu_cores c) (isolation_mode c) (is_exclusive c) x (policy c))
      (field (json_value get_string "policy" "SCHED_FIFO" j)
        (λ x c, mkCpuConfig (process_name c) (thread_name c) (cpu_cores c) (isolation_mode c) (is_exclusive c)
                  (priority c) (parse_policy x))
      (λ c, Some (true, c))))) c)) c.

Definition loadConfig (f : ConfigFile) (c : CPUAffinityConfig) : option (bool * CPUAffinityConfig) :=
  let '(ok, loader) := loadFromFile f newConfigLoader in
  if negb ok then Some (false, c) else parse_fields (config_ loader) c.

(** [CPU_SETSIZE] *)
Definition CPU_SETSIZE : nat := 1024.

(** [CPU_SET] ignores a core outside the set. *)
Definition cpu_set (cores : list Z) : gset Z :=
  list_to_set (filter (λ c, 0 <= c < Z.of_nat CPU_SETSIZE) cores).

Section Ops.
Context {K : Type} `{HK : !Kernel K}.

Definition setCPUAffinity (cores : list Z) (k : K) : bool * K := pthread_setaffinity (cpu_set cores) k.

Definition SCHED_OTHER : Z := 0.
Definition SCHED_FIFO : Z := 1.
Definition SCHED_RR : Z := 2.
Definition SCHED_DEADLINE : Z := 6.

Definition setSchedulingPolicy (p : SchedPolicy) (prio : Z) (k : K) : bool * K :=
  let '(n, prio) := match p with
                    | OTHER => (SCHED_OTHER, 0)
                    | FIFO => (SCHED_FIFO, prio)
                    | RR => (SCHED_RR, prio)
                    | DEADLINE => (SCHED_DEADLINE, prio)
                    end in
  pthread_setschedparam n prio k.

Definition getCurrentAffinity (k : K) : list Z :=
  match pthread_getaffinity k with
  | None => []
  | Some s => filter (λ i, i ∈ s) (seqZ 0 (Z.of_nat CPU_SETSIZE))
  end.

(** [find("isolcpus=")] *)
Fixpoint contains_text (t l : chars) : bool :=
  bool_decide (take (length t) l = t) || match l with [] => false | _ :: l => contains_text t l end.

Definition checkIsolcpus (k : K) : bool :=
  match cmdline_line k with
  | None => false
  | Some line => contains_text (to_chars "isolcpus=") (to_chars line)
  end.

Definition checkCgroups (k : K) : bool :=
  match cpuset_line k with
  | None => false
  | Some line => negb (bool_decide (line = ""))
  end.

Definition verifyIsolation (c : CPUAffinityConfig) (k : K) : bool :=
  match isolation_mode c with
  | ISOLCPUS => checkIsolcpus k
  | CGROUPS => checkCgroups k
  | HYBRID => checkIsolcpus k && checkCgroups k
  | NONE => true
  end.

(** The verification only gives a warning. *)
Definition apply (c : CPUAffinityConfig) (k : K) : bool * CPUAffinityConfig * K :=
  match cpu_cores c with
  | [] => (false, c, k)
  | _ =>
    let '(ok, k) := setCPUAffinity (cpu_cores c) k in
    if negb ok then (false, c, k)
    else
      let '(ok, k) := setSchedulingPolicy (policy c) (priority c) k in
      (ok, c, k)
  end.

(** The guard: its construction, and what its destructor does. *)
Record CPUAffinityGuard := mkGuard { original_affinity_ : list Z; restore_on_destroy_ : bool }.

Definition newGuard (c : CPUAffinityConfig) (k : K) : CPUAffinityGuard * CPUAffinityConfig * K :=
  let original := getCurrentAffinity k in
  let '(ok, c, k) := apply c k in
  (mkGuard original ok, c, k).

Definition destroyGuard (g : CPUAffinityGuard) (k : K) : K :=
  if restore_on_destroy_ g && negb (bool_decide (original_affinity_ g = [])) then
    snd (pthread_setaffinity (cpu_set (original_affinity_ g)) k)
  else k.
End Ops.
End Cpu.

(** ** NUMABinding *)

Module Numa.

Inductive MemoryPolicy := DEFAULT | BIND | PREFERRED | INTERLEAVE | LOCAL.

Definition memoryPolicyToString (p : MemoryPolicy) : string :=
  match p with
  | DEFAULT => "DEFAULT" | BIND => "BIND" | PREFERRED => "PREFERRED" | INTERLEAVE => "INTERLEAVE" | LOCAL => "LOCAL"
  end.

Record NUMABindingConfig := mkNumaConfig {
  process_name : string;
  numa_node : Z;
  memory_policy : MemoryPolicy;
  strict_binding : bool;
  migrate_pages : bool;
  cpu_cores_hint : list Z
}.
Definition newNumaConfig : NUMABindingConfig := mkNumaConfig "" 0 LOCAL true false [].

Definition parse_memory_policy (s : string) : MemoryPolicy :=
  if bool_decide (s = "DEFAULT") then DEFAULT
  else if bool_decide (s = "BIND") then BIND
  else if bool_decide (s = "PREFERRED") then PREFERRED
  else if bool_decide (s = "INTERLEAVE") then INTERLEAVE
  else if bool_decide (s = "LOCAL") then LOCAL
  else LOCAL.

Definition parse_fields (j : Json) (c : NUMABindingConfig) : option (bool * NUMABindingConfig) :=
  Cpu.field (json_value get_string "process_name" "" j)
    (λ x c, mkNumaConfig x (numa_node c) (memory_policy c) (strict_binding c) (migrate_pages c) (cpu_cores_hint c))
  (Cpu.field (json_value get_int "numa_node" 0 j)
    (λ x c, mkNumaConfig (process_name c) x (memory_policy c) (strict_binding c) (migrate_pages c) (cpu_cores_hint c))
  (Cpu.field (json_value get_string "memory_policy" "LOCAL" j)
    (λ x c, mkNumaConfig (process_name c) (numa_node c) (parse_memory_policy x) (strict_binding c) (migrate_pages c)
              (cpu_cores_hint c))
  (Cpu.field (json_value get_bool "strict_binding" true j)
    (λ x c, mkNumaConfig (process_name c) (numa_node c) (memory_policy c) x (migrate_pages c) (cpu_cores_hint c))
  (Cpu.field (json_value get_bool "migrate_pages" false j)
    (λ x c, mkNumaConfig (process_name c) (numa_node c) (memory_policy c) (strict_binding c) x (cpu_cores_hint c))
  (λ c,
    match Cpu.array_member "cpu_cores_hint" j with
    | Some l => '(ns, ok) ← Cpu.read_cores l;
        Some (ok, mkNumaConfig (process_name c) (numa_node c) (memory_policy c) (strict_binding c) (migrate_pages c) ns)
    | None => Some (true, c)
    end))))) c.

Definition loadConfig (f : ConfigFile) (c : NUMABindingConfig) : option (bool * NUMABindingConfig) :=
  let '(ok, loader) := loadFromFile f newConfigLoader in
  if negb ok then Some (false, c) else parse_fields (config_ loader) c.

Definition MPOL_DEFAULT : Z := 0.
Definition MPOL_PREFERRED : Z := 1.
Definition MPOL_BIND : Z := 2.
Definition MPOL_INTERLEAVE : Z := 3.
Definition MPOL_LOCAL : Z := 4.

Definition mode_of (p : MemoryPolicy) : Z :=
  match p with
  | DEFAULT => MPOL_DEFAULT | BIND => MPOL_BIND | PREFERRED => MPOL_PREFERRED
  | INTERLEAVE => MPOL_INTERLEAVE | LOCAL => MPOL_LOCAL
  end.

(** The switch of the constructor of the guard. *)
Definition policy_of (mode : Z) : MemoryPolicy :=
  if mode =? MPOL_DEFAULT then DEFAULT
  else if mode =? MPOL_BIND then BIND
  else if mode =? MPOL_PREFERRED then PREFERRED
  else if mode =? MPOL_INTERLEAVE then INTERLEAVE
  else if mode =? MPOL_LOCAL then LOCAL
  else DEFAULT.

Record NUMAStats := mkNumaStats { total_pages : Z; local_pages : Z; remote_pages : Z; local_access_percent : Z }.

Section Ops.
Context {K : Type} `{HK : !Kernel K}.
Variable have_numa : bool.  (* HAVE_NUMA *)

Definition isAvailable (k : K) : bool := have_numa && numa_available k.

Definition getNumNodes (k : K) : Z := if isAvailable k then numa_max_node k + 1 else 1.

(** [1UL << node] is undefined from 64 on. *)
Definition set_policy (node : Z) (p : MemoryPolicy) (k : K) : option (bool * K) :=
  if (0 <=? node) && (node <? 64) then
    Some (match p with
          | DEFAULT | LOCAL => set_mempolicy (mode_of p) None k
          | BIND | PREFERRED | INTERLEAVE => set_mempolicy (mode_of p) (Some (2 ^ node)) k
          end)
  else None.

Definition setMemoryPolicy (node : Z) (p : MemoryPolicy) (k : K) : option (bool * K) :=
  if negb have_numa then Some (false, k) else set_policy node p k.

Definition migratePages (node : Z) : bool := have_numa.

Definition apply (c : NUMABindingConfig) (k : K) : option (bool * NUMABindingConfig * K) :=
  if negb have_numa then Some (false, c, k)
  else if negb (isAvailable k) then Some (false, c, k)
  else if (numa_node c <? 0) || (numa_max_node k <? numa_node c) then Some (false, c, k)
  else
    '(ok, k) ← setMemoryPolicy (numa_node c) (memory_policy c) k;
    Some (ok, c, k).

Definition verifyBinding (c : NUMABindingConfig) (k : K) : bool :=
  if negb have_numa then false
  else if negb (isAvailable k) then false
  else match get_mempolicy k with
       | None => false
       | Some (mode, _) => mode =? mode_of (memory_policy c)
       end.

(** One token of a line: [N<node>=<pages>]. *)
Definition parse_token (node : Z) (tok : chars) (s : NUMAStats) : result string NUMAStats :=
  match tok with
  | "N"%char :: rest =>
    match split_at "=" rest with
    | None => Ok s
    | Some (a, b) =>
      match stoi (of_chars a) with
      | Throw e => Throw e
      | Ok n =>
        match stoull (of_chars b) with
        | Throw e => Throw e
        | Ok pages =>
          Ok (if n =? node
              then mkNumaStats (u64 (total_pages s + pages)) (u64 (local_pages s + pages)) (remote_pages s)
                     (local_access_percent s)
              else mkNumaStats (u64 (total_pages s + pages)) (local_pages s) (u64 (remote_pages s + pages))
                     (local_access_percent s))
        end
      end
    end
  | _ => Ok s
  end.

Fixpoint parse_tokens (node : Z) (toks : list chars) (s : NUMAStats) : result string NUMAStats :=
  match toks with
  | [] => Ok s
  | t :: toks => match parse_token node t s with Ok s => parse_tokens node toks s | Throw e => Throw e end
  end.

Definition percent (s : NUMAStats) : NUMAStats :=
  if 0 <? total_pages s then
    mkNumaStats (total_pages s) (local_pages s) (remote_pages s)
      (double_div (double_mul (double_of_i64 (local_pages s)) (double_of_int 100)) (double_of_i64 (total_pages s)))
  else s.

(** [config_.numa_node] is taken for the local node. *)
Definition parseNumaMaps (c : NUMABindingConfig) (pid : Z) (k : K) : result string NUMAStats :=
  match numa_maps pid k with
  | None => Ok (mkNumaStats 0 0 0 0)
  | Some lines =>
    match parse_tokens (numa_node c) (concat (words [] ∘ to_chars <$> lines)) (mkNumaStats 0 0 0 0) with
    | Ok s => Ok (percent s)
    | Throw e => Throw e
    end
  end.

(** [self] is what [getpid()] gives. *)
Definition getStats (c : NUMABindingConfig) (self pid : Z) (k : K) : result string NUMAStats :=
  parseNumaMaps c (if pid =? 0 then self else pid) k.

(** ** The guard *)

Record NUMABindingGuard := mkGuard {
  original_node_ : Z;
  original_policy_ : MemoryPolicy;
  restore_on_destroy_ : bool
}.

(** The first bit of the mask among 64. *)
Fixpoint first_bit (fuel : nat) (i mask : Z) : option Z :=
  match fuel with
  | O => None
  | S fuel => if Z.testbit mask i then Some i else first_bit fuel (i + 1) mask
  end.

Definition newGuard (c : NUMABindingConfig) (k : K) : option (NUMABindingGuard * NUMABindingConfig * K) :=
  let '(node, p) :=
    if have_numa then
      match get_mempolicy k with
      | Some (mode, mask) => (default 0 (first_bit 64 0 mask), policy_of mode)
      | None => (0, DEFAULT)
      end
    else (0, DEFAULT) in
  '(ok, c, k) ← apply c k;
  Some (mkGuard node p ok, c, k).

Definition destroyGuard (g : NUMABindingGuard) (k : K) : option K :=
  if have_numa && restore_on_destroy_ g then '(_, k) ← set_policy (original_node_ g) (original_policy_ g) k; Some k
  else Some k.
End Ops.
End Numa.

(** ** What the operating system promises *)

(** [online] are the cores a thread can be given. Setting an affinity gives the
    thread those of them that were asked for, if any. *)
Class KernelLaws (K : Type) `{!Kernel K} := {
  online : K -> gset Z;
  law_online_range k c : c ∈ online k -> 0 <= c < 1024;
  law_setaffinity s k : s ∩ online k <> ∅ ->
    exists k', pthread_setaffinity s k = (true, k') /\ pthread_getaffinity k' = Some (s ∩ online k) /\
      online k' = online k;
  law_setaffinity_empty s k : s ∩ online k = ∅ -> pthread_setaffinity s k = (false, k);
  law_getaffinity k s : pthread_getaffinity k = Some s -> s ⊆ online k /\ s <> ∅;
  law_sched p prio k b k' : pthread_setschedparam p prio k = (b, k') ->
    pthread_getaffinity k' = pthread_getaffinity k /\ online k' = online k;
  law_mempolicy mode mask k b k' : set_mempolicy mode mask k = (b, k') ->
    b = true -> get_mempolicy k' = Some (mode, default 0 mask);
  law_numa_stable mode mask k b k' : set_mempolicy mode mask k = (b, k') ->
    numa_available k' = numa_available k /\ numa_max_node k' = numa_max_node k
}.

Section Facts.
Context {K : Type} `{HK : !Kernel K} `{HL : !KernelLaws K}.

Lemma cpu_set_current (k : K) s :
  pthread_getaffinity k = Some s -> Cpu.cpu_set (Cpu.getCurrentAffinity k) = s.
Proof.
  intros Hs. destruct (law_getaffinity k s Hs) as [Hsub _]. unfold Cpu.cpu_set, Cpu.getCurrentAffinity. rewrite Hs.
  apply set_eq. intros c. rewrite elem_of_list_to_set, list_elem_of_filter, list_elem_of_filter, elem_of_seqZ.
  split; [naive_solver|]. intros Hc. pose proof (law_online_range k c (Hsub c Hc)).
  change (Z.of_nat Cpu.CPU_SETSIZE) with 1024. split; [lia|]. split; [done|lia].
Qed.

Lemma current_nonempty (k : K) s : pthread_getaffinity k = Some s -> Cpu.getCurrentAffinity k <> [].
Proof.
  intros Hs He. pose proof (cpu_set_current k s Hs) as Hset. rewrite He in Hset.
  destruct (law_getaffinity k s Hs) as [_ Hne]. by apply Hne.
Qed.

(** A guard that was applied gives the thread the cores it asked for, and at its
    end the cores it had, whatever was done to the thread's cores meanwhile. *)
Theorem guard_restores_affinity c (k k1 k2 : K) g c' s :
  pthread_getaffinity k = Some s -> Cpu.newGuard c k = (g, c', k1) -> Cpu.restore_on_destroy_ g = true ->
  online k2 = online k ->
  pthread_getaffinity k1 = Some (Cpu.cpu_set (Cpu.cpu_cores c) ∩ online k) /\
  pthread_getaffinity (Cpu.destroyGuard g k2) = Some s.
Proof.
  intros Hs Hg Hr Ho. unfold Cpu.newGuard, Cpu.apply in Hg.
  destruct (Cpu.cpu_cores c) as [|core cores] eqn:Hc; [injection Hg as <- _ _; discriminate Hr|].
  destruct (Cpu.setCPUAffinity (core :: cores) k) as [ok ka] eqn:Ha.
  destruct ok; cbn [negb] in Hg; [|injection Hg as <- _ _; discriminate Hr].
  destruct (Cpu.setSchedulingPolicy (Cpu.policy c) (Cpu.priority c) ka) as [ok kb] eqn:Hb. injection Hg as <- _ <-.
  cbn in Hr. subst ok. split.
  - assert (Hk1 : pthread_getaffinity kb = pthread_getaffinity ka).
    { unfold Cpu.setSchedulingPolicy in Hb. destruct (Cpu.policy c); by apply law_sched in Hb as [? _]. }
    rewrite Hk1. unfold Cpu.setCPUAffinity in Ha.
    destruct (decide (Cpu.cpu_set (core :: cores) ∩ online k = ∅)) as [He|Hne].
    + rewrite law_setaffinity_empty in Ha by done. discriminate Ha.
    + destruct (law_setaffinity _ _ Hne) as (k' & Hk' & Hget & _). rewrite Hk' in Ha. by injection Ha as ->.
  - unfold Cpu.destroyGuard. cbn [Cpu.restore_on_destroy_ Cpu.original_affinity_].
    rewrite bool_decide_eq_false_2 by (by eapply current_nonempty). cbn [andb negb].
    rewrite (cpu_set_current k s Hs). destruct (law_getaffinity k s Hs) as [Hsub Hne].
    assert (Hi : s ∩ online k2 = s) by (rewrite Ho; set_solver).
    destruct (law_setaffinity s k2) as (k' & -> & Hget & _); [by rewrite Hi|]. cbn [snd]. by rewrite Hget, Hi.
Qed.

(** When the scheduling policy is refused after the cores were set, the guard
    counts as not applied and leaves the thread on the new cores. *)
Theorem refused_policy_keeps_new_cores c (k ka kb : K) s :
  pthread_getaffinity k = Some s -> Cpu.cpu_cores c <> [] ->
  Cpu.setCPUAffinity (Cpu.cpu_cores c) k = (true, ka) ->
  Cpu.setSchedulingPolicy (Cpu.policy c) (Cpu.priority c) ka = (false, kb) ->
  let '(g, _, k1) := Cpu.newGuard c k in
  pthread_getaffinity (Cpu.destroyGuard g k1) = Some (Cpu.cpu_set (Cpu.cpu_cores c) ∩ online k).
Proof.
  intros Hs Hc Ha Hb. unfold Cpu.newGuard, Cpu.apply. destruct (Cpu.cpu_cores c) as [|core cores]; [done|].
  rewrite Ha. cbn [negb]. rewrite Hb. unfold Cpu.destroyGuard. cbn [Cpu.restore_on_destroy_ andb].
  assert (Hk1 : pthread_getaffinity kb = pthread_getaffinity ka).
  { unfold Cpu.setSchedulingPolicy in Hb. destruct (Cpu.policy c); by apply law_sched in Hb as [? _]. }
  rewrite Hk1. unfold Cpu.setCPUAffinity in Ha.
  destruct (decide (Cpu.cpu_set (core :: cores) ∩ online k = ∅)) as [He|Hne].
  - rewrite law_setaffinity_empty in Ha by done. discriminate Ha.
  - destruct (law_setaffinity _ _ Hne) as (k' & Hk' & Hget & _). rewrite Hk' in Ha. by injection Ha as ->.
Qed.

(** ** NUMA *)

Lemma first_bit_pow2 n : 0 <= n < 64 -> Numa.first_bit 64 0 (2 ^ n) = Some n.
Proof.
  intros Hn.
  assert (Hall : forallb (λ n, bool_decide (Numa.first_bit 64 0 (2 ^ n) = Some n)) (seqZ 0 64) = true)
    by (vm_compute; reflexivity).
  rewrite forallb_forall in Hall. specialize (Hall n). rewrite <- list_elem_of_In, elem_of_seqZ in Hall.
  eapply bool_decide_eq_true_1, Hall. lia.
Qed.

(** What a guard remembers of a policy over one node, or over none. *)
Definition simple_policy (mode mask : Z) : Prop :=
  (mode = Numa.MPOL_DEFAULT \/ mode = Numa.MPOL_LOCAL) /\ mask = 0 \/
  (mode = Numa.MPOL_BIND \/ mode = Numa.MPOL_PREFERRED \/ mode = Numa.MPOL_INTERLEAVE) /\
    exists n, 0 <= n < 64 /\ mask = 2 ^ n.

(** A guard restores a memory policy that names at most one node. *)
Theorem guard_restores_simple_policy c (k k1 k2 k3 : K) g c' mode mask :
  get_mempolicy k = Some (mode, mask) -> simple_policy mode mask ->
  Numa.newGuard true c k = Some (g, c', k1) -> Numa.restore_on_destroy_ g = true ->
  Numa.set_policy (Numa.original_node_ g) (Numa.original_policy_ g) k2 = Some (true, k3) ->
  Numa.destroyGuard true g k2 = Some k3 /\ get_mempolicy k3 = Some (mode, mask).
Proof.
  intros Hk Hm Hg Hr Hs. unfold Numa.destroyGuard. rewrite Hr, Hs. split; [done|].
  unfold Numa.newGuard in Hg. rewrite Hk in Hg. remember (Numa.first_bit 64 0 mask) as fb eqn:Hfb.
  apply bind_Some in Hg as ([[ok c1] k1'] & _ & [= <- _ _]).
  cbn [Numa.original_node_ Numa.original_policy_] in Hs. unfold Numa.set_policy in Hs.
  destruct Hm as [[Hmode ->]|[Hmode (n & Hn & ->)]].
  - destruct (_ && _); [|done]. destruct Hmode as [-> | ->]; injection Hs as Hs; apply law_mempolicy in Hs; done.
  - rewrite first_bit_pow2 in Hfb by done. subst fb. change (default 0 (Some n)) with n in Hs.
    rewrite (proj2 (Z.leb_le 0 n)), (proj2 (Z.ltb_lt n 64)) in Hs by lia.
    destruct Hmode as [-> |[-> | ->]]; injection Hs as Hs; apply law_mempolicy in Hs; done.
Qed.

(** Of a policy over several nodes only the first is kept. *)
Theorem guard_narrows_interleaving c (k : K) :
  get_mempolicy k = Some (Numa.MPOL_INTERLEAVE, 3) ->
  forall g c' k1, Numa.newGuard true c k = Some (g, c', k1) ->
  Numa.original_policy_ g = Numa.INTERLEAVE /\ Numa.original_node_ g = 0.
Proof.
  intros Hk g c' k1 Hg. unfold Numa.newGuard in Hg. rewrite Hk in Hg.
  apply bind_Some in Hg as ([[ok c1] k1'] & _ & [= <- _ _]). done.
Qed.
End Facts.

(** Every page that is read is either local or remote. *)
Lemma tokens_balance node toks : forall s s',
  Numa.parse_tokens node toks s = Ok s' ->
  Numa.total_pages s = u64 (Numa.local_pages s + Numa.remote_pages s) ->
  Numa.total_pages s' = u64 (Numa.local_pages s' + Numa.remote_pages s').
Proof.
  induction toks as [|t toks IH]; intros s s'; cbn [Numa.parse_tokens]; [by intros [= <-]|].
  destruct (Numa.parse_token node t s) as [s1|] eqn:Ht; [|done]. intros Hs' Hs. apply (IH s1); [done|].
  clear IH Hs'. revert Ht. unfold Numa.parse_token. destruct t as [|c t]; [by intros [= <-]|].
  assert (Hu : forall a b x, u64 (u64 (a + b) + x) = u64 (u64 (a + x) + b) /\ u64 (u64 (a + b) + x) = u64 (a + u64 (b + x))).
  { intros a b x. unfold u64, wrap. rewrite !Zplus_mod_idemp_l, Zplus_mod_idemp_r. split; f_equal; lia. }
  repeat case_match; intros [= <-]; try done; cbn; rewrite Hs; apply Hu.
Qed.

Theorem numa_pages_are_local_or_remote {K} `{!Kernel K} c self pid (k : K) s :
  Numa.getStats c self pid k = Ok s -> Numa.total_pages s = u64 (Numa.local_pages s + Numa.remote_pages s).
Proof.
  unfold Numa.getStats, Numa.parseNumaMaps. destruct (numa_maps _ k) as [lines|]; [|by intros [= <-]].
  destruct (Numa.parse_tokens _ _ _) as [s1|] eqn:Ht; [|done]. intros [= <-].
  apply tokens_balance in Ht; [|done]. unfold Numa.percent. by case_match.
Qed.

(** Two mappings on two nodes, three quarters of the pages local. *)
Example numa_maps_example :
  Numa.parse_tokens 0 (concat (words [] ∘ to_chars <$> ["7f00 default anon=4 N0=2 N1=1"; "7f10 bind:0 N0=1"]))
    (Numa.mkNumaStats 0 0 0 0) = Ok (Numa.mkNumaStats 4 3 1 0).
Proof. vm_compute. reflexivity. Qed.

(** ** A kernel *)

Record TestKernel := mkTestKernel { tk_affinity : gset Z; tk_sched : Z * Z; tk_policy : Z * Z }.

Definition tk_online : gset Z := {[0; 1; 2; 3]}.

#[export] Instance test_kernel : Kernel TestKernel := {|
  pthread_setaffinity s k :=
    let s' := s ∩ tk_online in
    if bool_decide (s' = ∅) then (false, k) else (true, mkTestKernel s' (tk_sched k) (tk_policy k));
  pthread_getaffinity k := if bool_decide (tk_affinity k ⊆ tk_online /\ tk_affinity k <> ∅) then Some (tk_affinity k) else None;
  pthread_setschedparam p prio k := (true, mkTestKernel (tk_affinity k) (p, prio) (tk_policy k));
  cmdline_line _ := Some "quiet isolcpus=2,3";
  cpuset_line _ := None;
  numa_available _ := true;
  numa_max_node _ := 1;
  set_mempolicy mode mask k := (true, mkTestKernel (tk_affinity k) (tk_sched k) (mode, default 0 mask));
  get_mempolicy k := Some (tk_policy k);
  numa_maps _ _ := None
|}.

#[export] Instance test_kernel_laws : KernelLaws TestKernel.
Proof.
  refine {| online _ := tk_online |}; cbn.
  - intros k c. unfold tk_online. set_unfold. lia.
  - intros s k Hne. rewrite bool_decide_eq_false_2 by done. eexists. split; [reflexivity|]. cbn. split; [|done].
    rewrite bool_decide_eq_true_2; [done|]. split; [set_solver|done].
  - intros s k He. by rewrite bool_decide_eq_true_2.
  - intros k s. case_bool_decide; [|done]. intros [= <-]. done.
  - intros p prio k b k' [= <- <-]. done.
  - intros mode mask k b k' [= <- <-] _. done.
  - intros mode mask k b k' [= <- <-]. done.
Defined.

(** A thread on all cores, bound to the isolated ones for a while. *)
Lemma guard_restores_affinity_witness :
  let c := Cpu.mkCpuConfig "rt" "main" [2; 3; 5000] Cpu.ISOLCPUS true 80 Cpu.FIFO in
  let k := mkTestKernel tk_online (0, 0) (0, 0) in
  let '(g, _, k1) := Cpu.newGuard c k in
  pthread_getaffinity k1 = Some (Cpu.cpu_set [2; 3; 5000] ∩ tk_online) /\
  pthread_getaffinity (Cpu.destroyGuard g k1) = Some tk_online.
Proof.
  cbv zeta. set (c := Cpu.mkCpuConfig _ _ _ _ _ _ _). set (k := mkTestKernel _ _ _).
  destruct (Cpu.newGuard c k) as [[g c'] k1] eqn:Hg.
  assert (Hr : Cpu.restore_on_destroy_ g = true) by (vm_compute in Hg; by injection Hg as <- _ _).
  exact (guard_restores_affinity (HL := test_kernel_laws) c k k1 k1 g c' tk_online eq_refl Hg Hr eq_refl).
Defined.
