(* ===== verification/Metrics.v ===== *)
(** * Metrics (src/core/monitoring/MetricsCollector)

    Counters, gauges and histograms, the registry that hands out shared
    pointers to them ([MetricsCollector]) and its Prometheus text.  A metric is
    an object in a heap; a shared pointer is an index into it.  Doubles are bit
    patterns. *)

From Stdlib Require Import Ascii.
From stdpp Require Import pretty.
From S2P Require Import Prelude Ieee754 Text.
#[local] Open Scope Z_scope.

(** ** Histogram *)

Record Histogram := mkHistogram {
  sum_ : Z;
  count_ : Z;
  buckets_ : list Z;
  bucket_counts_ : list Z
}.

(** [std::sort] by [operator<] *)
Definition not_above (a b : Z) : Prop := double_lt b a = false.
#[export] Instance not_above_dec a b : Decision (not_above a b).
Proof. unfold not_above. apply _. Defined.

Definition newHistogram (bs : list Z) : Histogram :=
  mkHistogram 0 0 (merge_sort not_above bs) (replicate (length bs + 1) 0).

(** The index of the first bound that is not below the value, 0 without one. *)
Fixpoint first_bucket (i : nat) (v : Z) (bs : list Z) : nat :=
  match bs with
  | [] => 0
  | b :: bs => if double_le v b then i else first_bucket (S i) v bs
  end.

Definition bucket_of (v : Z) (bs : list Z) (back : Z) : nat :=
  let i := first_bucket 0 v bs in
  if double_lt back v then length bs else i.

(** [None] where [back()] of an empty vector is read. *)
Definition observe (v : Z) (h : Histogram) : option Histogram :=
  back ← last (buckets_ h);
  Some (mkHistogram (double_add (sum_ h) v) (u64 (count_ h + 1)) (buckets_ h)
          (alter (λ n, u64 (n + 1)) (bucket_of v (buckets_ h) back) (bucket_counts_ h))).

(** ** Shared objects by name and labels *)

(** The members of a [std::map] in the order of its keys. *)
Abbreviation Labels := (list (string * string)).

Record registry (A : Type) := mkRegistry { table : gmap string (gmap Labels nat); objects : list A }.
Arguments mkRegistry {A}.
Arguments table {A} _.
Arguments objects {A} _.

Definition handle {A} (name : string) (l : Labels) (r : registry A) : option nat :=
  m ← table r !! name; m !! l.

Definition value_at {A} (name : string) (l : Labels) (r : registry A) : option A :=
  i ← handle name l r; objects r !! i.

(** The shared pointer for a name and labels, to a new object if there is none;
    whether it is new. *)
Definition get_or_create {A} (name : string) (l : Labels) (x : A) (r : registry A) : nat * bool * registry A :=
  let m := default ∅ (table r !! name) in
  match m !! l with
  | Some i => (i, false, mkRegistry (<[name := m]> (table r)) (objects r))
  | None =>
    let i := length (objects r) in
    (i, true, mkRegistry (<[name := <[l := i]> m]> (table r)) (objects r ++ [x]))
  end.

Definition modify {A} (i : nat) (f : A -> A) (r : registry A) : registry A :=
  mkRegistry (table r) (alter f i (objects r)).

(** The table is cleared; objects stay with whoever still points to them. *)
Definition clear_table {A} (r : registry A) : registry A := mkRegistry ∅ (objects r).

(** ** MetricsCollector *)

Record MetricsCollector := mkCollector {
  counters_ : registry Z;
  gauges_ : registry Z;
  histograms_ : registry Histogram;
  help_texts_ : gmap string string
}.

Definition newCollector : MetricsCollector := mkCollector (mkRegistry ∅ []) (mkRegistry ∅ []) (mkRegistry ∅ []) ∅.

Definition add_help (created : bool) (name help : string) (h : gmap string string) : gmap string string :=
  if created && negb (bool_decide (help = "")) then <[name := help]> h else h.

Definition getOrCreateCounter (name : string) (l : Labels) (help : string) (c : MetricsCollector) : nat * MetricsCollector :=
  let '(i, new, r) := get_or_create name l 0 (counters_ c) in
  (i, mkCollector r (gauges_ c) (histograms_ c) (add_help new name help (help_texts_ c))).

Definition getOrCreateGauge (name : string) (l : Labels) (help : string) (c : MetricsCollector) : nat * MetricsCollector :=
  let '(i, new, r) := get_or_create name l 0 (gauges_ c) in
  (i, mkCollector (counters_ c) r (histograms_ c) (add_help new name help (help_texts_ c))).

Definition getOrCreateHistogram (name : string) (l : Labels) (bs : list Z) (help : string) (c : MetricsCollector) :
    nat * MetricsCollector :=
  let '(i, new, r) := get_or_create name l (newHistogram bs) (histograms_ c) in
  (i, mkCollector (counters_ c) (gauges_ c) r (add_help new name help (help_texts_ c))).

(** The methods of the objects. *)
Definition counter_increment (i : nat) (delta : Z) (c : MetricsCollector) : MetricsCollector :=
  mkCollector (modify i (λ v, u64 (v + delta)) (counters_ c)) (gauges_ c) (histograms_ c) (help_texts_ c).

Definition gauge_set (i : nat) (v : Z) (c : MetricsCollector) : MetricsCollector :=
  mkCollector (counters_ c) (modify i (λ _, v) (gauges_ c)) (histograms_ c) (help_texts_ c).

(** [get] and [set]: not one atomic step. *)
Definition gauge_increment (i : nat) (delta : Z) (c : MetricsCollector) : MetricsCollector :=
  match objects (gauges_ c) !! i with
  | Some v => gauge_set i (double_add v delta) c
  | None => c
  end.
Definition gauge_decrement (i : nat) (delta : Z) (c : MetricsCollector) : MetricsCollector :=
  match objects (gauges_ c) !! i with
  | Some v => gauge_set i (double_sub v delta) c
  | None => c
  end.

Definition histogram_observe (i : nat) (v : Z) (c : MetricsCollector) : option MetricsCollector :=
  h ← objects (histograms_ c) !! i;
  h' ← observe v h;
  Some (mkCollector (counters_ c) (gauges_ c) (modify i (λ _, h') (histograms_ c)) (help_texts_ c)).

Definition incrementCounter (name : string) (l : Labels) (delta : Z) (c : MetricsCollector) : MetricsCollector :=
  let '(i, c) := getOrCreateCounter name l "" c in counter_increment i delta c.

Definition setGauge (name : string) (v : Z) (l : Labels) (c : MetricsCollector) : MetricsCollector :=
  let '(i, c) := getOrCreateGauge name l "" c in gauge_set i v c.

(** 0.001, 0.005, 0.01, 0.05, 0.1, 0.5, 1.0, 5.0, 10.0 *)
Definition default_buckets : list Z :=
  [0x3F50624DD2F1A9FC; 0x3F747AE147AE147B; 0x3F847AE147AE147B; 0x3FA999999999999A; 0x3FB999999999999A;
   0x3FE0000000000000; 0x3FF0000000000000; 0x4014000000000000; 0x4024000000000000].

Definition observeHistogram (name : string) (v : Z) (l : Labels) (c : MetricsCollector) : option MetricsCollector :=
  let '(i, c) := getOrCreateHistogram name l default_buckets "" c in histogram_observe i v c.

(** Counters are set to 0, gauges and histograms forgotten. *)
Definition table_handles (t : gmap string (gmap Labels nat)) : list nat :=
  concat ((λ kv, (map_to_list (snd kv)).*2) <$> map_to_list t).

Definition reset (c : MetricsCollector) : MetricsCollector :=
  mkCollector
    (mkRegistry (table (counters_ c))
       (foldl (λ o i, alter (λ _, 0) i o) (objects (counters_ c)) (table_handles (table (counters_ c)))))
    (clear_table (gauges_ c)) (clear_table (histograms_ c)) (help_texts_ c).

(** A [ScopedTimer]: the readings at its construction and at its end, in
    nanoseconds; 10^9 is 0x41CDCD6500000000. *)
Definition scoped_timer (i : nat) (start finish : Z) (c : MetricsCollector) : option MetricsCollector :=
  histogram_observe i (double_div (double_of_i64 (finish - start)) (double_of_int 1000000000)) c.

(** ** The Prometheus text *)

Definition dquote : string := String (ascii_of_nat 34) "".
Definition newline : string := String (ascii_of_nat 10) "".

Fixpoint join (sep : string) (l : list string) : string :=
  match l with
  | [] => ""
  | [x] => x
  | x :: l => x +:+ sep +:+ join sep l
  end.

Definition labelsToString (l : Labels) : string :=
  if bool_decide (l = []) then ""
  else "{" +:+ join "," ((λ kv, fst kv +:+ "=" +:+ dquote +:+ snd kv +:+ dquote) <$> l) +:+ "}".

(** [std::fixed << std::setprecision(6)], also [std::to_string]: the exact
    value rounded to six decimals, ties to even. *)
Definition round_even (a b : Z) : Z :=
  let q := a / b in
  let r := 2 * (a mod b) in
  if (b <? r) || ((r =? b) && Z.odd q) then q + 1 else q.

Definition pad6 (s : string) : string :=
  of_chars (replicate (6 - length (to_chars s)) "0"%char) +:+ s.

Definition fixed6 (d : Z) : string :=
  let sign := if Z.testbit d 63 then "-" else "" in
  match decode binary64 d with
  | NaN => sign +:+ "nan"
  | Infinity _ => sign +:+ "inf"
  | Finite _ m =>
    let n := round_even (m * 10 ^ 6) (2 ^ 1074) in
    sign +:+ pretty (n / 10 ^ 6) +:+ "." +:+ pad6 (pretty (n mod 10 ^ 6))
  end.

(** [labels["le"] = v] *)
Fixpoint label_set (k v : string) (l : Labels) : Labels :=
  match l with
  | [] => [(k, v)]
  | (k', v') :: l' =>
    if bool_decide (k = k') then (k, v) :: l'
    else if String.leb k k' then (k, v) :: l
    else (k', v') :: label_set k v l'
  end.

(** [operator<] on maps: lexicographic on their members. *)
Fixpoint labels_leb (a b : Labels) : bool :=
  match a, b with
  | [], _ => true
  | _, [] => false
  | (k, v) :: a, (k', v') :: b =>
    if bool_decide (k = k') then
      if bool_decide (v = v') then labels_leb a b else String.leb v v'
    else String.leb k k'
  end.
Definition labels_le {A} (a b : Labels * A) : Prop := labels_leb (fst a) (fst b) = true.
#[export] Instance labels_le_dec {A} (a b : Labels * A) : Decision (labels_le a b).
Proof. unfold labels_le. apply _. Defined.

Definition label_order {A} (m : gmap Labels A) : list (Labels * A) := merge_sort labels_le (map_to_list m).

(** A block of the text: the header of a name and the lines of its objects. *)
Definition block {A} (kind : string) (lines : string -> Labels -> A -> list string) (help : gmap string string)
    (r : registry A) : list string :=
  concat ((λ '(name, m),
    match help !! name with Some h => ["# HELP " +:+ name +:+ " " +:+ h] | None => [] end ++
    ["# TYPE " +:+ name +:+ " " +:+ kind] ++
    concat ((λ '(l, i), match objects r !! i with Some x => lines name l x | None => [] end) <$> label_order m))
    <$> key_order (table r)).

(** The counts of the buckets added up. *)
Fixpoint cumulate (acc : Z) (l : list Z) : list Z :=
  match l with
  | [] => []
  | n :: l => u64 (acc + n) :: cumulate (u64 (acc + n)) l
  end.

Definition histogram_lines (name : string) (l : Labels) (h : Histogram) : list string :=
  zip_with (λ le n, name +:+ "_bucket" +:+ labelsToString (label_set "le" le l) +:+ " " +:+ pretty n)
    ((fixed6 <$> buckets_ h) ++ ["+Inf"]) (cumulate 0 (bucket_counts_ h)) ++
  [name +:+ "_sum" +:+ labelsToString l +:+ " " +:+ fixed6 (sum_ h);
   name +:+ "_count" +:+ labelsToString l +:+ " " +:+ pretty (count_ h)].

Definition exportPrometheus (c : MetricsCollector) : string :=
  let lines :=
    block "counter" (λ n l v, [n +:+ labelsToString l +:+ " " +:+ pretty v]) (help_texts_ c) (counters_ c) ++
    block "gauge" (λ n l v, [n +:+ labelsToString l +:+ " " +:+ fixed6 v]) (help_texts_ c) (gauges_ c) ++
    block "histogram" histogram_lines (help_texts_ c) (histograms_ c) in
  join "" ((λ s, s +:+ newline) <$> lines).

Example fixed6_numbers :
  fixed6 0x3FB999999999999A = "0.100000" /\ fixed6 (double_of_int (-3)) = "-3.000000" /\
  fixed6 0x3E7AD7F29ABCAF48 = "0.000000" /\ fixed6 0x3F50624DD2F1A9FC = "0.001000".
Proof. vm_compute. done. Qed.

(** ** Histograms count what they observe *)

Definition is_nan (d : Z) : Prop := decode binary64 d = NaN.

Lemma le_or_lt a b : ~ is_nan a -> ~ is_nan b -> double_le a b = negb (double_lt b a).
Proof.
  unfold is_nan, double_lt, double_le. intros Ha Hb.
  destruct (decode binary64 a) as [| [] |na ma], (decode binary64 b) as [| [] |nb mb]; try done; cbn.
  destruct (Z.leb_spec (signed na ma) (signed nb mb)), (Z.leb_spec (signed nb mb) (signed na ma)); cbn; (done || lia).
Qed.

Lemma first_bucket_least i v bs j b :
  bs !! j = Some b -> double_le v b = true ->
  exists k c, first_bucket i v bs = (i + k)%nat /\ bs !! k = Some c /\ double_le v c = true /\
    forall k' c', (k' < k)%nat -> bs !! k' = Some c' -> double_le v c' = false.
Proof.
  revert i j. induction bs as [|x bs IH]; intros i j Hj Hv; [done|]. cbn [first_bucket].
  destruct (double_le v x) eqn:Hx.
  { exists 0%nat, x. split; [lia|]. split; [done|]. split; [done|]. lia. }
  destruct j as [|j]; [cbn in Hj; congruence|].
  destruct (IH (S i) j Hj Hv) as (k & c & Hk & Hc & Hvc & Hleast). exists (S k), c.
  split; [lia|]. split; [done|]. split; [done|]. intros [|k'] c' Hlt Hc'; [cbn in Hc'; congruence|].
  apply (Hleast k'); [lia|done].
Qed.

Definition sorted_bounds (bs : list Z) : Prop :=
  (forall i j a b, (i <= j)%nat -> bs !! i = Some a -> bs !! j = Some b -> double_le a b = true) /\
  Forall (λ b, ~ is_nan b) bs.

(** A value goes to a bucket up to [i] exactly when it is not above its bound. *)
Lemma bucket_of_spec v bs back i b :
  sorted_bounds bs -> ~ is_nan v -> last bs = Some back -> bs !! i = Some b ->
  (bucket_of v bs back <= i)%nat <-> double_le v b = true.
Proof.
  intros [Hs Hn] Hv Hb Hi. pose proof (lookup_lt_Some _ _ _ Hi) as Hlen. rewrite last_lookup in Hb.
  assert (Hbn : ~ is_nan b) by exact (Forall_lookup_1 _ _ _ _ Hn Hi).
  assert (Hbk : ~ is_nan back) by exact (Forall_lookup_1 _ _ _ _ Hn Hb).
  unfold bucket_of. destruct (double_lt back v) eqn:Hlt.
  - assert (Hbb : double_le b back = true) by (eapply (Hs i); [|exact Hi|exact Hb]; lia).
    split; [lia|]. intros Hle. exfalso. pose proof (double_le_trans _ _ _ Hle Hbb) as Hvb.
    rewrite (le_or_lt v back) in Hvb by done. by rewrite Hlt in Hvb.
  - assert (Hvb : double_le v back = true) by (rewrite le_or_lt by done; by rewrite Hlt).
    destruct (first_bucket_least 0 v bs _ _ Hb Hvb) as (k & c & -> & Hc & Hvc & Hleast). cbn [Nat.add]. split.
    + intros Hk. eapply double_le_trans; [exact Hvc|]. by eapply (Hs k i).
    + intros Hle. destruct (decide (k <= i)%nat) as [|Hgt]; [done|].
      rewrite (Hleast i b) in Hle by (done || lia). discriminate Hle.
Qed.

Lemma bucket_of_bound v bs back :
  sorted_bounds bs -> ~ is_nan v -> last bs = Some back -> (bucket_of v bs back <= length bs)%nat.
Proof.
  intros Hs Hv Hb. unfold bucket_of. destruct (double_lt back v) eqn:Hlt; [done|].
  rewrite last_lookup in Hb. assert (Hvb : double_le v back = true).
  { rewrite le_or_lt; [by rewrite Hlt|done|]. destruct Hs as [_ Hn]. exact (Forall_lookup_1 _ _ _ _ Hn Hb). }
  destruct (first_bucket_least 0 v bs _ _ Hb Hvb) as (k & c & -> & Hc & _). apply lookup_lt_Some in Hc. lia.
Qed.

(** The histogram after observing [vs], oldest first. *)
Record histogram_ok (bs vs : list Z) (h : Histogram) : Prop := {
  ho_buckets : buckets_ h = bs;
  ho_length : length (bucket_counts_ h) = (length bs + 1)%nat;
  ho_nonneg : Forall (λ n, 0 <= n) (bucket_counts_ h);
  ho_count : count_ h = Z.of_nat (length vs);
  ho_total : zsum (bucket_counts_ h) = Z.of_nat (length vs);
  ho_prefix i b : bs !! i = Some b ->
    zsum (take (S i) (bucket_counts_ h)) = Z.of_nat (count (λ v, double_le v b) vs)
}.

(** Counting up one entry counts up the prefixes that contain it. *)
Lemma zsum_take_bump (l : list Z) k n j :
  l !! k = Some n -> zsum (take j (<[k := n + 1]> l)) = zsum (take j l) + (if decide (k < j)%nat then 1 else 0).
Proof.
  intros Hk. destruct (decide (k < j)%nat) as [Hlt|Hge].
  - rewrite take_insert_lt by done. rewrite <- (take_drop_middle (take j l) k n) at 2 by (by rewrite lookup_take_lt).
    rewrite insert_take_drop by (rewrite length_take; apply lookup_lt_Some in Hk; lia). rewrite !zsum_app. cbn. lia.
  - rewrite take_insert_ge by lia. lia.
Qed.

Lemma observe_ok bs vs h v :
  histogram_ok bs vs h -> sorted_bounds bs -> bs <> [] -> ~ is_nan v -> Z.of_nat (length vs) + 1 < 2 ^ 64 ->
  exists h', observe v h = Some h' /\ histogram_ok bs (vs ++ [v]) h'.
Proof.
  intros [Hb Hl Hn Hc Ht Hp] Hs Hne Hv Hlen. unfold observe. rewrite Hb.
  destruct (last bs) as [back|] eqn:Hback; [|by apply last_None in Hback]. cbn [mbind option_bind].
  set (k := bucket_of v bs back). assert (Hk : (k <= length bs)%nat) by (by apply bucket_of_bound).
  destruct (lookup_lt_is_Some_2 (bucket_counts_ h) k) as [n Hkn]; [lia|].
  assert (Hnn : 0 <= n <= zsum (bucket_counts_ h)).
  { split; [exact (Forall_lookup_1 _ _ _ _ Hn Hkn)|]. rewrite <- (take_drop_middle _ _ _ Hkn), zsum_app. cbn.
    assert (0 <= zsum (take k (bucket_counts_ h))) by (apply zsum_nonneg; by apply Forall_take).
    assert (0 <= zsum (drop (S k) (bucket_counts_ h))) by (apply zsum_nonneg; by apply Forall_drop).
    unfold zsum in *. lia. }
  assert (Halt : alter (λ n, u64 (n + 1)) k (bucket_counts_ h) = <[k := n + 1]> (bucket_counts_ h)).
  { apply list_eq. intros j. destruct (decide (j = k)) as [-> |Hj].
    - rewrite list_lookup_alter_eq, Hkn, list_lookup_insert_eq by lia. cbn. f_equal. unfold u64. apply wrap_small. lia.
    - by rewrite list_lookup_alter_ne, list_lookup_insert_ne. }
  rewrite Halt. eexists. split; [reflexivity|]. rewrite Ht in Hnn.
  split; cbn [buckets_ bucket_counts_ count_].
  - done.
  - by rewrite length_insert.
  - apply Forall_insert; [done|lia].
  - rewrite Hc, length_app. unfold u64. rewrite wrap_small; cbn; lia.
  - pose proof (zsum_take_bump (bucket_counts_ h) k n (length (bucket_counts_ h)) Hkn) as H.
    rewrite !take_ge in H by (rewrite ?length_insert; lia). rewrite decide_True in H by lia.
    rewrite H, Ht, length_app. cbn. lia.
  - intros i b Hi. rewrite (zsum_take_bump _ _ _ _ Hkn), (Hp i b Hi), count_app, count_one.
    pose proof (bucket_of_spec v bs back i b Hs Hv Hback Hi) as Hspec. fold k in Hspec.
    destruct (double_le v b).
    + rewrite decide_True by (apply Nat.lt_succ_r; by apply Hspec). lia.
    + rewrite decide_False; [lia|]. intros Hlt%Nat.lt_succ_r%Hspec. done.
Qed.

Fixpoint observe_all (vs : list Z) (h : Histogram) : option Histogram :=
  match vs with
  | [] => Some h
  | v :: vs => h ← observe v h; observe_all vs h
  end.

Lemma observe_all_ok bs vs : forall old h,
  histogram_ok bs old h -> sorted_bounds bs -> bs <> [] -> Forall (λ v, ~ is_nan v) vs ->
  Z.of_nat (length old + length vs) < 2 ^ 64 ->
  exists h', observe_all vs h = Some h' /\ histogram_ok bs (old ++ vs) h'.
Proof.
  induction vs as [|v vs IH]; intros old h Hok Hs Hne Hn Hlen.
  { exists h. by rewrite app_nil_r. }
  apply Forall_cons in Hn as [Hv Hn]. cbn [length] in Hlen.
  destruct (observe_ok bs old h v Hok Hs Hne Hv) as (h1 & Hh1 & Hok1); [lia|].
  destruct (IH (old ++ [v]) h1 Hok1 Hs Hne Hn) as (h2 & Hh2 & Hok2); [rewrite length_app; cbn; lia|].
  exists h2. cbn [observe_all]. rewrite Hh1. rewrite <- app_assoc in Hok2. done.
Qed.

#[export] Instance not_above_total : Total not_above.
Proof. intros a b. unfold not_above, double_lt. destruct (double_le a b), (double_le b a); cbn; auto. Qed.

Lemma sorted_lookup bs :
  Sorted not_above bs -> Forall (λ b, ~ is_nan b) bs ->
  forall i j a b, (i <= j)%nat -> bs !! i = Some a -> bs !! j = Some b -> double_le a b = true.
Proof.
  intros Hs Hn. induction bs as [|x bs IH]; [done|]. apply Forall_cons in Hn as [Hx Hn].
  inversion_clear Hs as [|? ? Hs' Hhd]. specialize (IH Hs' Hn).
  assert (Hrefl : double_le x x = true).
  { rewrite le_or_lt by done. unfold double_lt. by destruct (double_le x x). }
  intros [|i] [|j] a b Hij Ha Hb; try lia; cbn in Ha, Hb; [by simplify_eq| |by eapply (IH i j); [lia|..]].
  injection Ha as <-. destruct bs as [|y bs]; [done|]. inversion_clear Hhd as [|? ? Hle].
  apply Forall_cons in Hn as [Hy _].
  eapply (double_le_trans x y); [rewrite le_or_lt by done; by rewrite Hle|]. apply (IH 0%nat j); [lia|done|done].
Qed.

Lemma newHistogram_ok bs :
  Forall (λ b, ~ is_nan b) bs ->
  histogram_ok (merge_sort not_above bs) [] (newHistogram bs) /\ sorted_bounds (merge_sort not_above bs).
Proof.
  intros Hn. assert (Hp : merge_sort not_above bs ≡ₚ bs) by apply merge_sort_Permutation.
  assert (Hz : forall k, zsum (replicate k 0) = 0) by (intros k; unfold zsum; by induction k).
  split; [split; cbn [newHistogram buckets_ bucket_counts_ count_]|split].
  - done.
  - by rewrite length_replicate, Hp.
  - by apply Forall_replicate.
  - done.
  - apply Hz.
  - intros i b _. rewrite take_replicate. apply Hz.
  - apply sorted_lookup; [apply Sorted_merge_sort, _|by rewrite Hp].
  - by rewrite Hp.
Qed.

Lemma cumulate_lookup l : forall acc i,
  Forall (λ n, 0 <= n) l -> 0 <= acc -> acc + zsum l < 2 ^ 64 -> (i < length l)%nat ->
  cumulate acc l !! i = Some (acc + zsum (take (S i) l)).
Proof.
  induction l as [|n l IH]; intros acc i Hn Ha Hs Hi; [cbn in Hi; lia|]. apply Forall_cons in Hn as [Hn0 Hn].
  pose proof (zsum_nonneg l Hn). change (zsum (n :: l)) with (n + zsum l) in Hs. cbn [cumulate].
  assert (Hu : u64 (acc + n) = acc + n) by (unfold u64; apply wrap_small; lia). rewrite Hu. destruct i as [|i].
  - change (zsum (take 1 (n :: l))) with (n + 0). by rewrite Z.add_0_r.
  - change ((acc + n :: cumulate (acc + n) l) !! S i) with (cumulate (acc + n) l !! i).
    cbn [length] in Hi. rewrite IH by (done || lia). change (zsum (take (S (S i)) (n :: l))) with (n + zsum (take (S i) l)).
    f_equal. lia.
Qed.

(** A histogram exports, for every bound, the number of observations that are
    not above it, and in the end the number of all. *)
Theorem histogram_counts_observations bs vs :
  bs <> [] -> Forall (λ b, ~ is_nan b) bs -> Forall (λ v, ~ is_nan v) vs -> Z.of_nat (length vs) < 2 ^ 64 ->
  exists h, observe_all vs (newHistogram bs) = Some h /\ count_ h = Z.of_nat (length vs) /\
    (forall i b, buckets_ h !! i = Some b ->
       cumulate 0 (bucket_counts_ h) !! i = Some (Z.of_nat (count (λ v, double_le v b) vs))) /\
    cumulate 0 (bucket_counts_ h) !! length (buckets_ h) = Some (Z.of_nat (length vs)).
Proof.
  intros Hne Hb Hv Hlen. destruct (newHistogram_ok bs Hb) as [Hok Hs].
  assert (Hne' : merge_sort not_above bs <> []).
  { intros He. pose proof (merge_sort_Permutation not_above bs) as Hp. rewrite He in Hp. by apply Permutation_nil_l in Hp. }
  destruct (observe_all_ok _ vs [] _ Hok Hs Hne' Hv Hlen) as (h & Hh & [Hbk Hl Hn Hc Ht Hp]). cbn [app length] in *.
  exists h. split; [done|]. split; [done|]. rewrite Hbk. split.
  - intros i b Hi. rewrite cumulate_lookup by (done || (apply lookup_lt_Some in Hi; lia)). by rewrite (Hp i b Hi).
  - rewrite cumulate_lookup by (done || lia). rewrite take_ge by lia. by rewrite Ht.
Qed.

Lemma histogram_counts_observations_witness :
  let bs := [double_of_int 5; double_of_int 1] in
  let vs := [double_of_int 1; double_of_int 3; double_of_int 7; double_of_int 0] in
  exists h, observe_all vs (newHistogram bs) = Some h /\ count_ h = 4 /\
    (forall i b, buckets_ h !! i = Some b ->
       cumulate 0 (bucket_counts_ h) !! i = Some (Z.of_nat (count (λ v, double_le v b) vs))) /\
    cumulate 0 (bucket_counts_ h) !! length (buckets_ h) = Some 4.
Proof.
  apply (histogram_counts_observations [double_of_int 5; double_of_int 1]
    [double_of_int 1; double_of_int 3; double_of_int 7; double_of_int 0]).
  - discriminate.
  - repeat constructor; unfold is_nan; vm_compute; discriminate.
  - repeat constructor; unfold is_nan; vm_compute; discriminate.
  - vm_compute. reflexivity.
Defined.

(** A value that is not a number is counted in the lowest bucket, as if it were
    below every bound. *)
Theorem nan_counts_as_lowest :
  let nan := 0x7FF8000000000000 in
  (bucket_counts_ <$> observe nan (newHistogram [double_of_int 1; double_of_int 2])) = Some [1; 0; 0].
Proof. vm_compute. reflexivity. Qed.

(** ** The collector is a table of values *)

Record reg_ok {A} (r : registry A) : Prop := {
  ro_range n l i : handle n l r = Some i -> (i < length (objects r))%nat;
  ro_inj n l n' l' i : handle n l r = Some i -> handle n' l' r = Some i -> (n, l) = (n', l')
}.

Lemma handle_insert {A} n m (r : registry A) (o : list A) n' l' :
  table r !! n = m ->
  handle n' l' (mkRegistry (<[n := default ∅ m]> (table r)) o) = handle n' l' r.
Proof.
  intros Hm. unfold handle. cbn [table]. destruct (decide (n = n')) as [<- |Hne].
  - rewrite lookup_insert_eq, Hm. by destruct m.
  - by rewrite lookup_insert_ne.
Qed.

Lemma handle_new {A} n l i (r : registry A) (o : list A) n' l' :
  handle n' l' (mkRegistry (<[n := <[l := i]> (default ∅ (table r !! n))]> (table r)) o) =
    if decide ((n, l) = (n', l')) then Some i else handle n' l' r.
Proof.
  unfold handle. cbn [table]. destruct (decide (n = n')) as [<- |Hne].
  - rewrite lookup_insert_eq. cbn [mbind option_bind]. destruct (decide (l = l')) as [<- |Hl].
    + by rewrite lookup_insert_eq, decide_True.
    + rewrite lookup_insert_ne, decide_False by congruence. by destruct (table r !! n).
  - by rewrite lookup_insert_ne, decide_False by congruence.
Qed.

(** A table of values that a registry holds. *)
Abbreviation values A := (gmap (string * Labels) A).
Definition agrees {A} (t : values A) (r : registry A) : Prop := forall n l, t !! (n, l) = value_at n l r.

(** What a call does to a table. *)
Definition touch {A} (k : string * Labels) (x : A) (t : values A) : values A := <[k := default x (t !! k)]> t.

Lemma get_or_create_ok {A} n l (x : A) (r : registry A) t :
  reg_ok r -> agrees t r ->
  let '(i, _, r') := get_or_create n l x r in
  reg_ok r' /\ agrees (touch (n, l) x t) r' /\ handle n l r' = Some i.
Proof.
  intros Hok Ht. unfold get_or_create. destruct (default ∅ (table r !! n) !! l) as [i|] eqn:Hi.
  - assert (Hh : handle n l r = Some i) by (unfold handle; by destruct (table r !! n)).
    assert (Hsame : forall n' l', handle n' l' (mkRegistry (<[n := default ∅ (table r !! n)]> (table r)) (objects r)) =
      handle n' l' r) by (intros; by apply handle_insert).
    split; [split; cbn [objects]|split].
    + intros n' l' j. rewrite Hsame. apply Hok.
    + intros n1 l1 n2 l2 j. rewrite !Hsame. apply Hok.
    + intros n' l'. unfold value_at. rewrite Hsame. cbn [objects]. fold (value_at n' l' r). rewrite <- Ht.
      unfold touch. destruct (decide ((n, l) = (n', l'))) as [<- |Hne]; [|by rewrite lookup_insert_ne].
      rewrite lookup_insert_eq. rewrite Ht. unfold value_at. rewrite Hh. cbn [mbind option_bind].
      destruct (lookup_lt_is_Some_2 (objects r) i) as [y ->]; [by eapply Hok|]. done.
    + by rewrite Hsame.
  - assert (Hh : handle n l r = None) by (unfold handle; by destruct (table r !! n)).
    split; [split; cbn [objects]|split].
    + intros n' l' j. rewrite handle_new, length_app. case_decide; [intros [= <-]; cbn; lia|].
      intros Hj%(ro_range _ Hok). lia.
    + intros n1 l1 n2 l2 j. rewrite !handle_new. do 2 case_decide; [congruence| | |apply Hok].
      * intros [= <-] Hj%(ro_range _ Hok). lia.
      * intros Hj%(ro_range _ Hok) [= <-]. lia.
    + intros n' l'. unfold value_at. rewrite handle_new. unfold touch. case_decide as Hd.
      * rewrite <- Hd, lookup_insert_eq, Ht. unfold value_at. rewrite Hh. cbn [mbind option_bind objects default].
        by rewrite lookup_app_r, Nat.sub_diag by lia.
      * rewrite lookup_insert_ne, Ht by done. unfold value_at. destruct (handle n' l' r) as [j|] eqn:Hj; [|done].
        cbn [mbind option_bind objects]. rewrite lookup_app_l by (by eapply Hok). done.
    + rewrite handle_new. by rewrite decide_True.
Qed.

Lemma modify_ok {A} n l i (f : A -> A) (r : registry A) t x :
  reg_ok r -> agrees t r -> handle n l r = Some i -> t !! (n, l) = Some x ->
  reg_ok (modify i f r) /\ agrees (<[(n, l) := f x]> t) (modify i f r).
Proof.
  intros Hok Ht Hi Hx. split.
  - split; cbn [modify objects]; [|apply Hok]. intros n' l' j Hj. rewrite length_alter. by eapply Hok.
  - assert (Hh : forall n l, handle n l (modify i f r) = handle n l r) by done.
    intros n' l'. unfold value_at. rewrite Hh. cbn [modify objects].
    destruct (decide ((n, l) = (n', l'))) as [[= <- <-]|Hne].
    + rewrite lookup_insert_eq, Hi. cbn [mbind option_bind]. rewrite list_lookup_alter_eq.
      pose proof (Ht n l) as H. rewrite Hx in H. unfold value_at in H. rewrite Hi in H. cbn in H. by rewrite <- H.
    + rewrite lookup_insert_ne, Ht by done. unfold value_at. destruct (handle n' l' r) as [j|] eqn:Hj; [|done].
      cbn [mbind option_bind]. rewrite list_lookup_alter_ne; [done|]. intros ->. apply Hne. by eapply Hok.
Qed.

Lemma clear_ok {A} (r : registry A) : reg_ok (clear_table r) /\ agrees ∅ (clear_table r).
Proof. by repeat split. Qed.

(** Counting from zero again. *)
Lemma zero_all (hs : list nat) (o : list Z) i :
  foldl (λ o i, alter (λ _, 0) i o) o hs !! i = if decide (i ∈ hs) then (λ _, 0) <$> o !! i else o !! i.
Proof.
  revert o. induction hs as [|h hs IH]; intros o; [done|]. cbn [foldl]. rewrite IH.
  destruct (decide (i = h)) as [-> |Hne].
  - rewrite list_lookup_alter_eq, (decide_True (P := h ∈ h :: hs)) by left. case_decide; by destruct (o !! h).
  - rewrite list_lookup_alter_ne by done. repeat case_decide; set_solver.
Qed.

Lemma handle_listed {A} n l i (r : registry A) : handle n l r = Some i -> i ∈ table_handles (table r).
Proof.
  unfold handle, table_handles. intros (m & Hm & Hi)%bind_Some. apply list_elem_of_In, in_concat.
  exists (map_to_list m).*2. split; apply list_elem_of_In.
  - apply list_elem_of_fmap_2' with (n, m); [by apply elem_of_map_to_list|done].
  - apply list_elem_of_fmap_2' with (l, i); [by apply elem_of_map_to_list|done].
Qed.

Lemma reset_counters_ok (r : registry Z) t :
  reg_ok r -> agrees t r ->
  let r' := mkRegistry (table r) (foldl (λ o i, alter (λ _, 0) i o) (objects r) (table_handles (table r))) in
  reg_ok r' /\ agrees ((λ _, 0) <$> t) r'.
Proof.
  intros Hok Ht r'. assert (Hh : forall n l, handle n l r' = handle n l r) by done.
  assert (Hlen : forall hs (o : list Z), length (foldl (λ o i, alter (λ _, 0) i o) o hs) = length o).
  { intros hs. induction hs as [|h hs IH]; intros o; [done|]. cbn [foldl]. by rewrite IH, length_alter. }
  split.
  - split; [|apply Hok]. intros n l i Hi. subst r'. cbn [objects]. rewrite Hlen. by eapply Hok.
  - intros n l. rewrite lookup_fmap, Ht. unfold value_at. rewrite Hh. destruct (handle n l r) as [i|] eqn:Hi; [|done].
    cbn [mbind option_bind]. subst r'. cbn [objects]. rewrite zero_all, decide_True; [done|by eapply handle_listed].
Qed.

(** The calls of a client. *)
Inductive MCall :=
| MCounter (n : string) (l : Labels) (help : string)
| MGauge (n : string) (l : Labels) (help : string)
| MHistogram (n : string) (l : Labels) (bs : list Z) (help : string)
| MIncrement (n : string) (l : Labels) (delta : Z)
| MSet (n : string) (v : Z) (l : Labels)
| MObserve (n : string) (v : Z) (l : Labels)
| MReset.

Definition mcall (k : MCall) (c : MetricsCollector) : option MetricsCollector :=
  match k with
  | MCounter n l help => Some (snd (getOrCreateCounter n l help c))
  | MGauge n l help => Some (snd (getOrCreateGauge n l help c))
  | MHistogram n l bs help => Some (snd (getOrCreateHistogram n l bs help c))
  | MIncrement n l delta => Some (incrementCounter n l delta c)
  | MSet n v l => Some (setGauge n v l c)
  | MObserve n v l => observeHistogram n v l c
  | MReset => Some (reset c)
  end.

(** The specification: three tables of values. *)
Record Tables := mkTables { t_counters : values Z; t_gauges : values Z; t_histograms : values Histogram }.

Definition tcall (k : MCall) (t : Tables) : option Tables :=
  match k with
  | MCounter n l _ => Some (mkTables (touch (n, l) 0 (t_counters t)) (t_gauges t) (t_histograms t))
  | MGauge n l _ => Some (mkTables (t_counters t) (touch (n, l) 0 (t_gauges t)) (t_histograms t))
  | MHistogram n l bs _ => Some (mkTables (t_counters t) (t_gauges t) (touch (n, l) (newHistogram bs) (t_histograms t)))
  | MIncrement n l delta =>
    Some (mkTables (<[(n, l) := u64 (default 0 (t_counters t !! (n, l)) + delta)]> (t_counters t)) (t_gauges t)
            (t_histograms t))
  | MSet n v l => Some (mkTables (t_counters t) (<[(n, l) := v]> (t_gauges t)) (t_histograms t))
  | MObserve n v l =>
    h ← observe v (default (newHistogram default_buckets) (t_histograms t !! (n, l)));
    Some (mkTables (t_counters t) (t_gauges t) (<[(n, l) := h]> (t_histograms t)))
  | MReset => Some (mkTables ((λ _, 0) <$> t_counters t) ∅ ∅)
  end.

Record collector_ok (t : Tables) (c : MetricsCollector) : Prop := {
  mo_counters : reg_ok (counters_ c) /\ agrees (t_counters t) (counters_ c);
  mo_gauges : reg_ok (gauges_ c) /\ agrees (t_gauges t) (gauges_ c);
  mo_histograms : reg_ok (histograms_ c) /\ agrees (t_histograms t) (histograms_ c)
}.

Lemma touch_lookup {A} k (x : A) t : touch k x t !! k = Some (default x (t !! k)).
Proof. apply lookup_insert_eq. Qed.

Lemma touch_insert {A} k (x y : A) t : <[k := y]> (touch k x t) = <[k := y]> t.
Proof. unfold touch. by rewrite insert_insert_eq. Qed.

Lemma mcall_ok k t c :
  collector_ok t c ->
  match mcall k c, tcall k t with
  | Some c', Some t' => collector_ok t' c'
  | None, None => True
  | _, _ => False
  end.
Proof.
  intros [[Hc1 Hc2] [Hg1 Hg2] [Hh1 Hh2]]. destruct k as [n l help|n l help|n l bs help|n l delta|n v l|n v l|]; cbn [mcall tcall].
  - unfold getOrCreateCounter. pose proof (get_or_create_ok n l 0 _ _ Hc1 Hc2) as H.
    destruct (get_or_create n l 0 (counters_ c)) as [[i b] r]. destruct H as (H1 & H2 & _). by split.
  - unfold getOrCreateGauge. pose proof (get_or_create_ok n l 0 _ _ Hg1 Hg2) as H.
    destruct (get_or_create n l 0 (gauges_ c)) as [[i b] r]. destruct H as (H1 & H2 & _). by split.
  - unfold getOrCreateHistogram. pose proof (get_or_create_ok n l (newHistogram bs) _ _ Hh1 Hh2) as H.
    destruct (get_or_create n l (newHistogram bs) (histograms_ c)) as [[i b] r]. destruct H as (H1 & H2 & _). by split.
  - unfold incrementCounter, getOrCreateCounter. pose proof (get_or_create_ok n l 0 _ _ Hc1 Hc2) as H.
    destruct (get_or_create n l 0 (counters_ c)) as [[i b] r]. destruct H as (H1 & H2 & H3).
    destruct (modify_ok n l i (λ v, u64 (v + delta)) r _ _ H1 H2 H3 (touch_lookup _ _ _)) as [H4 H5].
    rewrite touch_insert in H5. by split.
  - unfold setGauge, getOrCreateGauge. pose proof (get_or_create_ok n l 0 _ _ Hg1 Hg2) as H.
    destruct (get_or_create n l 0 (gauges_ c)) as [[i b] r]. destruct H as (H1 & H2 & H3).
    destruct (modify_ok n l i (λ _, v) r _ _ H1 H2 H3 (touch_lookup _ _ _)) as [H4 H5].
    rewrite touch_insert in H5. by split.
  - unfold observeHistogram, getOrCreateHistogram.
    pose proof (get_or_create_ok n l (newHistogram default_buckets) _ _ Hh1 Hh2) as H.
    destruct (get_or_create n l (newHistogram default_buckets) (histograms_ c)) as [[i b] r].
    destruct H as (H1 & H2 & H3). unfold histogram_observe. cbn [histograms_ counters_ gauges_ help_texts_].
    pose proof (H2 n l) as H4. rewrite touch_lookup in H4. unfold value_at in H4. rewrite H3 in H4.
    cbn [mbind option_bind] in H4. rewrite <- H4. cbn [mbind option_bind].
    destruct (observe v _) as [h'|]; [|done]. cbn [mbind option_bind].
    destruct (modify_ok n l i (λ _, h') r _ _ H1 H2 H3 (touch_lookup _ _ _)) as [H5 H6].
    rewrite touch_insert in H6. by split.
  - split; [by apply reset_counters_ok|apply clear_ok|apply clear_ok].
Qed.

Fixpoint mrun (ks : list MCall) (c : MetricsCollector) : option MetricsCollector :=
  match ks with [] => Some c | k :: ks => c ← mcall k c; mrun ks c end.
Fixpoint trun (ks : list MCall) (t : Tables) : option Tables :=
  match ks with [] => Some t | k :: ks => t ← tcall k t; trun ks t end.

Definition newTables : Tables := mkTables ∅ ∅ ∅.

Lemma mrun_tables ks : forall t c, collector_ok t c ->
  match mrun ks c, trun ks t with Some c', Some t' => collector_ok t' c' | None, None => True | _, _ => False end.
Proof.
  induction ks as [|k ks IH]; intros t c Hok; [done|]. cbn [mrun trun]. pose proof (mcall_ok k t c Hok) as Hk.
  destruct (mcall k c), (tcall k t); try done. by apply IH.
Qed.

Lemma new_collector_ok : collector_ok newTables newCollector.
Proof. by repeat split. Qed.

(** C34: through any calls of the collector, every counter, gauge and histogram has
    the value of a plain table: counters add up until a reset sets them to zero,
    a gauge has the last value set, a histogram its observations, and both are
    gone after a reset. *)
Theorem collector_refines_tables ks :
  match mrun ks newCollector, trun ks newTables with
  | Some c, Some t =>
    (forall n l, value_at n l (counters_ c) = t_counters t !! (n, l)) /\
    (forall n l, value_at n l (gauges_ c) = t_gauges t !! (n, l)) /\
    (forall n l, value_at n l (histograms_ c) = t_histograms t !! (n, l))
  | None, None => True
  | _, _ => False
  end.
Proof.
  pose proof (mrun_tables ks _ _ new_collector_ok) as Hok.
  destruct (mrun ks newCollector), (trun ks newTables); try done.
  destruct Hok as [[_ Hc] [_ Hg] [_ Hh]]. by repeat split; intros; symmetry.
Qed.
