(* ===== verification/RTMetrics.v ===== *)
(** * RTMetrics (src/core/rt/RTMetrics)

    The metrics of the real-time process, which are shared pointers into a
    [MetricsCollector]. *)

From S2P Require Import Prelude Ieee754 Metrics RTStateMachine.
#[local] Open Scope Z_scope.

(** ** RTMetrics *)

Record RTMetrics := mkRTMetrics {
  cycle_duration_minor_ : nat;
  cycle_duration_major_ : nat;
  cycle_jitter_ : nat;
  deadline_misses_ : nat;
  current_state_ : nat;
  state_transitions_ : nat;
  safe_mode_entries_ : nat;
  nonrt_heartbeat_alive_ : nat;
  nonrt_heartbeat_timeout_seconds_ : nat;
  numa_local_pages_ : nat;
  numa_remote_pages_ : nat;
  numa_local_access_percent_ : nat;
  perf_latency_ : nat;
  perf_p50_latency_ : nat;
  perf_p95_latency_ : nat;
  perf_p99_latency_ : nat;
  perf_jitter_ : nat;
  perf_deadline_misses_ : nat;
  perf_deadline_miss_rate_ : nat
}.

(** 0.0001, 0.0002, 0.0005, 0.001, 0.002, 0.005, 0.01 *)
Definition minor_buckets : list Z :=
  [0x3F1A36E2EB1C432D; 0x3F2A36E2EB1C432D; 0x3F40624DD2F1A9FC; 0x3F50624DD2F1A9FC; 0x3F60624DD2F1A9FC;
   0x3F747AE147AE147B; 0x3F847AE147AE147B].
(** 0.001, 0.005, 0.01, 0.05, 0.1, 0.5, 1.0 *)
Definition major_buckets : list Z :=
  [0x3F50624DD2F1A9FC; 0x3F747AE147AE147B; 0x3F847AE147AE147B; 0x3FA999999999999A; 0x3FB999999999999A;
   0x3FE0000000000000; 0x3FF0000000000000].
(** 0.00001, 0.00005, 0.0001, 0.0005, 0.001, 0.005, 0.01 *)
Definition fine_buckets : list Z :=
  [0x3EE4F8B588E368F1; 0x3F0A36E2EB1C432D; 0x3F1A36E2EB1C432D; 0x3F40624DD2F1A9FC; 0x3F50624DD2F1A9FC;
   0x3F747AE147AE147B; 0x3F847AE147AE147B].

Definition newRTMetrics (c : MetricsCollector) : RTMetrics * MetricsCollector :=
  let '(minor, c) := getOrCreateHistogram "rt_cycle_duration_seconds" [("type", "minor")] minor_buckets
                       "RT minor cycle execution duration in seconds" c in
  let '(major, c) := getOrCreateHistogram "rt_cycle_duration_seconds" [("type", "major")] major_buckets
                       "RT major cycle execution duration in seconds" c in
  let '(jitter, c) := getOrCreateHistogram "rt_cycle_jitter_seconds" [] fine_buckets
                        "RT cycle jitter (standard deviation) in seconds" c in
  let '(misses, c) := getOrCreateCounter "rt_deadline_misses_total" [] "Total number of RT deadline misses" c in
  let '(state, c) := getOrCreateGauge "rt_state" []
                       "Current RT state (0=INIT, 1=READY, 2=RUNNING, 3=SAFE_MODE, 4=SHUTDOWN)" c in
  let '(trans, c) := getOrCreateCounter "rt_state_transitions_total" [] "Total number of RT state transitions" c in
  let '(safe, c) := getOrCreateCounter "rt_safe_mode_entries_total" [] "Total number of SAFE_MODE entries" c in
  let '(alive, c) := getOrCreateGauge "rt_nonrt_heartbeat_alive" [] "Non-RT heartbeat status (0=lost, 1=alive)" c in
  let '(timeout, c) := getOrCreateGauge "rt_nonrt_heartbeat_timeout_seconds" []
                         "Non-RT heartbeat timeout in seconds" c in
  let '(local, c) := getOrCreateGauge "rt_numa_local_pages" [] "Number of pages allocated on local NUMA node" c in
  let '(remote, c) := getOrCreateGauge "rt_numa_remote_pages" [] "Number of pages allocated on remote NUMA nodes" c in
  let '(percent, c) := getOrCreateGauge "rt_numa_local_access_percent" []
                         "Percentage of memory accesses to local NUMA node" c in
  let '(latency, c) := getOrCreateHistogram "rt_perf_latency_seconds" [] fine_buckets
                         "RT performance monitoring latency distribution in seconds" c in
  let '(p50, c) := getOrCreateGauge "rt_perf_p50_latency_seconds" [] "RT performance P50 (median) latency in seconds" c in
  let '(p95, c) := getOrCreateGauge "rt_perf_p95_latency_seconds" [] "RT performance P95 latency in seconds" c in
  let '(p99, c) := getOrCreateGauge "rt_perf_p99_latency_seconds" [] "RT performance P99 latency in seconds" c in
  let '(pjitter, c) := getOrCreateGauge "rt_perf_jitter_seconds" []
                         "RT performance jitter (standard deviation) in seconds" c in
  let '(pmisses, c) := getOrCreateCounter "rt_perf_deadline_misses_total" []
                         "Total number of performance deadline misses" c in
  let '(prate, c) := getOrCreateGauge "rt_perf_deadline_miss_rate_percent" []
                       "Percentage of cycles that missed deadline" c in
  (mkRTMetrics minor major jitter misses state trans safe alive timeout local remote percent latency p50 p95 p99
     pjitter pmisses prate, c).

Definition state_number (s : RTState) : Z :=
  match s with
  | RT_INIT => 0 | RT_READY => 1 | RT_RUNNING => 2 | RT_PAUSED => 3 | RT_SAFE_MODE => 4 | RT_ERROR => 5 | RT_SHUTDOWN => 6
  end.

Section Methods.
Variable m : RTMetrics.
Implicit Types c : MetricsCollector.

Definition recordMinorCycleDuration (d : Z) c : option MetricsCollector := histogram_observe (cycle_duration_minor_ m) d c.
Definition recordMajorCycleDuration (d : Z) c : option MetricsCollector := histogram_observe (cycle_duration_major_ m) d c.
Definition recordCycleJitter (d : Z) c : option MetricsCollector := histogram_observe (cycle_jitter_ m) d c.
Definition incrementDeadlineMisses c : MetricsCollector := counter_increment (deadline_misses_ m) 1 c.
Definition updateState (s : RTState) c : MetricsCollector :=
  gauge_set (current_state_ m) (double_of_int (state_number s)) c.
Definition incrementStateTransitions c : MetricsCollector := counter_increment (state_transitions_ m) 1 c.
Definition incrementSafeModeEntries c : MetricsCollector := counter_increment (safe_mode_entries_ m) 1 c.
Definition updateNonRTHeartbeatAlive (alive : bool) c : MetricsCollector :=
  gauge_set (nonrt_heartbeat_alive_ m) (if alive then double_of_int 1 else 0) c.
Definition updateNonRTHeartbeatTimeout (d : Z) c : MetricsCollector :=
  gauge_set (nonrt_heartbeat_timeout_seconds_ m) d c.
Definition incrementDataStoreWrites (key : string) c : MetricsCollector :=
  incrementCounter "rt_datastore_writes_total" [("key", key)] 1 c.
Definition incrementDataStoreReads (key : string) c : MetricsCollector :=
  incrementCounter "rt_datastore_reads_total" [("key", key)] 1 c.
Definition incrementDataStoreSeqlockRetries (key : string) c : MetricsCollector :=
  incrementCounter "rt_datastore_seqlock_retries_total" [("key", key)] 1 c.
Definition updateNUMAStats (local remote percent : Z) c : MetricsCollector :=
  let c := gauge_set (numa_local_pages_ m) (double_of_i64 local) c in
  let c := gauge_set (numa_remote_pages_ m) (double_of_i64 remote) c in
  gauge_set (numa_local_access_percent_ m) percent c.
Definition recordPerfLatency (d : Z) c : option MetricsCollector := histogram_observe (perf_latency_ m) d c.
Definition updatePerfPercentiles (p50 p95 p99 : Z) c : MetricsCollector :=
  let c := gauge_set (perf_p50_latency_ m) p50 c in
  let c := gauge_set (perf_p95_latency_ m) p95 c in
  gauge_set (perf_p99_latency_ m) p99 c.
Definition updatePerfJitter (d : Z) c : MetricsCollector := gauge_set (perf_jitter_ m) d c.
Definition incrementPerfDeadlineMisses c : MetricsCollector := counter_increment (perf_deadline_misses_ m) 1 c.
Definition updatePerfDeadlineMissRate (d : Z) c : MetricsCollector := gauge_set (perf_deadline_miss_rate_ m) d c.
End Methods.

(** ** A client of the collector *)

Inductive RCall :=
| RMinor (d : Z) | RMajor (d : Z) | RJitter (d : Z) | RMiss | RState (s : RTState) | RTransition | RSafeMode
| RAlive (b : bool) | RTimeout (d : Z) | RWrites (key : string) | RReads (key : string) | RRetries (key : string)
| RNuma (local remote percent : Z) | RLatency (d : Z) | RPercentiles (p50 p95 p99 : Z) | RPerfJitter (d : Z)
| RPerfMiss | RMissRate (d : Z).

Definition rcall (m : RTMetrics) (k : RCall) (c : MetricsCollector) : option MetricsCollector :=
  match k with
  | RMinor d => recordMinorCycleDuration m d c
  | RMajor d => recordMajorCycleDuration m d c
  | RJitter d => recordCycleJitter m d c
  | RMiss => Some (incrementDeadlineMisses m c)
  | RState s => Some (updateState m s c)
  | RTransition => Some (incrementStateTransitions m c)
  | RSafeMode => Some (incrementSafeModeEntries m c)
  | RAlive b => Some (updateNonRTHeartbeatAlive m b c)
  | RTimeout d => Some (updateNonRTHeartbeatTimeout m d c)
  | RWrites key => Some (incrementDataStoreWrites key c)
  | RReads key => Some (incrementDataStoreReads key c)
  | RRetries key => Some (incrementDataStoreSeqlockRetries key c)
  | RNuma a b p => Some (updateNUMAStats m a b p c)
  | RLatency d => recordPerfLatency m d c
  | RPercentiles a b d => Some (updatePerfPercentiles m a b d c)
  | RPerfJitter d => Some (updatePerfJitter m d c)
  | RPerfMiss => Some (incrementPerfDeadlineMisses m c)
  | RMissRate d => Some (updatePerfDeadlineMissRate m d c)
  end.

(** The calls of the collector that a call amounts to. *)
Definition meaning (k : RCall) : list MCall :=
  match k with
  | RMinor d => [MObserve "rt_cycle_duration_seconds" d [("type", "minor")]]
  | RMajor d => [MObserve "rt_cycle_duration_seconds" d [("type", "major")]]
  | RJitter d => [MObserve "rt_cycle_jitter_seconds" d []]
  | RMiss => [MIncrement "rt_deadline_misses_total" [] 1]
  | RState s => [MSet "rt_state" (double_of_int (state_number s)) []]
  | RTransition => [MIncrement "rt_state_transitions_total" [] 1]
  | RSafeMode => [MIncrement "rt_safe_mode_entries_total" [] 1]
  | RAlive b => [MSet "rt_nonrt_heartbeat_alive" (if b then double_of_int 1 else 0) []]
  | RTimeout d => [MSet "rt_nonrt_heartbeat_timeout_seconds" d []]
  | RWrites key => [MIncrement "rt_datastore_writes_total" [("key", key)] 1]
  | RReads key => [MIncrement "rt_datastore_reads_total" [("key", key)] 1]
  | RRetries key => [MIncrement "rt_datastore_seqlock_retries_total" [("key", key)] 1]
  | RNuma a b p => [MSet "rt_numa_local_pages" (double_of_i64 a) []; MSet "rt_numa_remote_pages" (double_of_i64 b) [];
                    MSet "rt_numa_local_access_percent" p []]
  | RLatency d => [MObserve "rt_perf_latency_seconds" d []]
  | RPercentiles a b d => [MSet "rt_perf_p50_latency_seconds" a []; MSet "rt_perf_p95_latency_seconds" b [];
                           MSet "rt_perf_p99_latency_seconds" d []]
  | RPerfJitter d => [MSet "rt_perf_jitter_seconds" d []]
  | RPerfMiss => [MIncrement "rt_perf_deadline_misses_total" [] 1]
  | RMissRate d => [MSet "rt_perf_deadline_miss_rate_percent" d []]
  end.

(** Under which names the pointers were obtained. *)
Definition gauge_names (m : RTMetrics) : list (string * Labels * nat) :=
  [("rt_state", [], current_state_ m); ("rt_nonrt_heartbeat_alive", [], nonrt_heartbeat_alive_ m);
   ("rt_nonrt_heartbeat_timeout_seconds", [], nonrt_heartbeat_timeout_seconds_ m);
   ("rt_numa_local_pages", [], numa_local_pages_ m); ("rt_numa_remote_pages", [], numa_remote_pages_ m);
   ("rt_numa_local_access_percent", [], numa_local_access_percent_ m);
   ("rt_perf_p50_latency_seconds", [], perf_p50_latency_ m); ("rt_perf_p95_latency_seconds", [], perf_p95_latency_ m);
   ("rt_perf_p99_latency_seconds", [], perf_p99_latency_ m); ("rt_perf_jitter_seconds", [], perf_jitter_ m);
   ("rt_perf_deadline_miss_rate_percent", [], perf_deadline_miss_rate_ m)].
Definition counter_names (m : RTMetrics) : list (string * Labels * nat) :=
  [("rt_deadline_misses_total", [], deadline_misses_ m); ("rt_state_transitions_total", [], state_transitions_ m);
   ("rt_safe_mode_entries_total", [], safe_mode_entries_ m);
   ("rt_perf_deadline_misses_total", [], perf_deadline_misses_ m)].
Definition histogram_names (m : RTMetrics) : list (string * Labels * nat) :=
  [("rt_cycle_duration_seconds", [("type", "minor")], cycle_duration_minor_ m);
   ("rt_cycle_duration_seconds", [("type", "major")], cycle_duration_major_ m);
   ("rt_cycle_jitter_seconds", [], cycle_jitter_ m); ("rt_perf_latency_seconds", [], perf_latency_ m)].

Definition points_to {A} (ns : list (string * Labels * nat)) (r : registry A) : Prop :=
  forall n l i, (n, l, i) ∈ ns -> handle n l r = Some i.

Record bound (m : RTMetrics) (c : MetricsCollector) : Prop := {
  bd_gauges : points_to (gauge_names m) (gauges_ c);
  bd_counters : points_to (counter_names m) (counters_ c);
  bd_histograms : points_to (histogram_names m) (histograms_ c)
}.

(** A pointer that is in the table is the one the collector would give. *)
Lemma get_existing {A} n l i (x : A) (r : registry A) :
  handle n l r = Some i -> get_or_create n l x r = (i, false, r).
Proof.
  unfold handle, get_or_create. intros (t & Ht & Hi)%bind_Some. rewrite Ht. change (default ∅ (Some t)) with t. rewrite Hi.
  rewrite insert_id by done. by destruct r.
Qed.

Lemma get_keeps {A} ns n l (x : A) (r : registry A) :
  points_to ns r -> points_to ns (snd (get_or_create n l x r)).
Proof.
  intros Hp n' l' i Hin. specialize (Hp n' l' i Hin). unfold get_or_create.
  destruct (default ∅ (table r !! n) !! l) as [j|] eqn:Hj; cbn [snd].
  - by rewrite handle_insert.
  - rewrite handle_new, decide_False; [done|]. intros [= -> ->]. unfold handle in Hp.
    destruct (table r !! n'); cbn in *; congruence.
Qed.

Lemma set_meaning n i v c : handle n [] (gauges_ c) = Some i -> mcall (MSet n v []) c = Some (gauge_set i v c).
Proof.
  intros Hi. cbn [mcall]. unfold setGauge, getOrCreateGauge. rewrite (get_existing _ _ _ _ _ Hi). by destruct c.
Qed.

Lemma increment_meaning n i v c :
  handle n [] (counters_ c) = Some i -> mcall (MIncrement n [] v) c = Some (counter_increment i v c).
Proof.
  intros Hi. cbn [mcall]. unfold incrementCounter, getOrCreateCounter. rewrite (get_existing _ _ _ _ _ Hi). by destruct c.
Qed.

Lemma observe_meaning n l i v c :
  handle n l (histograms_ c) = Some i -> mcall (MObserve n v l) c = histogram_observe i v c.
Proof.
  intros Hi. cbn [mcall]. unfold observeHistogram, getOrCreateHistogram. rewrite (get_existing _ _ _ _ _ Hi). by destruct c.
Qed.

Ltac listed := unfold gauge_names, counter_names, histogram_names; set_solver.

Lemma gauge_set_bound m i v c : bound m c -> bound m (gauge_set i v c).
Proof. intros [Hg Hc Hh]. by split. Qed.

Lemma mrun_one k c : mrun [k] c = mcall k c.
Proof. cbn [mrun]. by destruct (mcall k c). Qed.

(** A call through a pointer is the call of the collector under its name. *)
Lemma rcall_meaning m k c : bound m c -> rcall m k c = mrun (meaning k) c.
Proof.
  intros Hb. pose proof Hb as [Hg Hc Hh].
  assert (Hset : forall c' n v i, bound m c' -> (n, [], i) ∈ gauge_names m ->
    mcall (MSet n v []) c' = Some (gauge_set i v c')).
  { intros c' n v i Hb' Hin. by apply set_meaning, (bd_gauges _ _ Hb'). }
  destruct k; cbn [rcall meaning]; rewrite ?mrun_one; symmetry.
  all: try (apply observe_meaning, Hh; listed).
  all: try (apply increment_meaning, Hc; listed).
  all: try (apply (Hset c); [done|listed]).
  all: try reflexivity.
  - cbn [mrun]. rewrite (Hset c _ _ (numa_local_pages_ m)) by (done || listed). cbn [mbind option_bind].
    rewrite (Hset _ _ _ (numa_remote_pages_ m)) by (by apply gauge_set_bound || listed). cbn [mbind option_bind].
    by rewrite (Hset _ _ _ (numa_local_access_percent_ m)) by (by do 2 apply gauge_set_bound || listed).
  - cbn [mrun]. rewrite (Hset c _ _ (perf_p50_latency_ m)) by (done || listed). cbn [mbind option_bind].
    rewrite (Hset _ _ _ (perf_p95_latency_ m)) by (by apply gauge_set_bound || listed). cbn [mbind option_bind].
    by rewrite (Hset _ _ _ (perf_p99_latency_ m)) by (by do 2 apply gauge_set_bound || listed).
Qed.

(** The pointers stay those of their names until the collector is reset. *)
Lemma mcall_bound m k c c' : bound m c -> k <> MReset -> mcall k c = Some c' -> bound m c'.
Proof.
  intros [Hg Hc Hh] Hk.
  assert (Hgc : forall n l (x : Z), points_to (counter_names m) (snd (get_or_create n l x (counters_ c)))) by (intros; by apply get_keeps).
  assert (Hgg : forall n l (x : Z), points_to (gauge_names m) (snd (get_or_create n l x (gauges_ c)))) by (intros; by apply get_keeps).
  assert (Hgh : forall n l x, points_to (histogram_names m) (snd (get_or_create n l x (histograms_ c)))) by (intros; by apply get_keeps).
  destruct k as [n l help|n l help|n l bs help|n l delta|n v l|n v l|]; cbn [mcall]; [..|done].
  - intros [= <-]. unfold getOrCreateCounter. specialize (Hgc n l 0). by destruct (get_or_create _ _ _ _) as [[i b] r].
  - intros [= <-]. unfold getOrCreateGauge. specialize (Hgg n l 0). by destruct (get_or_create _ _ _ _) as [[i b] r].
  - intros [= <-]. unfold getOrCreateHistogram. specialize (Hgh n l (newHistogram bs)).
    by destruct (get_or_create _ _ _ _) as [[i b] r].
  - intros [= <-]. unfold incrementCounter, getOrCreateCounter. specialize (Hgc n l 0).
    by destruct (get_or_create _ _ _ _) as [[i b] r].
  - intros [= <-]. unfold setGauge, getOrCreateGauge. specialize (Hgg n l 0).
    by destruct (get_or_create _ _ _ _) as [[i b] r].
  - unfold observeHistogram, getOrCreateHistogram. specialize (Hgh n l (newHistogram default_buckets)).
    destruct (get_or_create _ _ _ _) as [[i b] r]. unfold histogram_observe.
    intros (h & _ & (h' & _ & [= <-])%bind_Some)%bind_Some. by split.
Qed.

Lemma mrun_bound m ks : forall c c', bound m c -> MReset ∉ ks -> mrun ks c = Some c' -> bound m c'.
Proof.
  induction ks as [|k ks IH]; intros c c' Hb Hks; cbn [mrun]; [by intros [= <-]|].
  apply not_elem_of_cons in Hks as [Hk Hks]. intros (c1 & Hc1 & Hrun)%bind_Some.
  eapply IH; [|done|exact Hrun]. eapply mcall_bound; [done| |exact Hc1]. congruence.
Qed.

Lemma mrun_app a b c : mrun (a ++ b) c = c' ← mrun a c; mrun b c'.
Proof. revert c. induction a as [|k a IH]; intros c; [done|]. cbn [mrun app]. destruct (mcall k c); [apply IH|done]. Qed.

Lemma meaning_no_reset k : MReset ∉ meaning k.
Proof. destruct k; cbn; set_solver. Qed.

Fixpoint rrun (m : RTMetrics) (ks : list RCall) (c : MetricsCollector) : option MetricsCollector :=
  match ks with [] => Some c | k :: ks => c ← rcall m k c; rrun m ks c end.

Lemma rrun_meaning m ks : forall c, bound m c -> rrun m ks c = mrun (concat (meaning <$> ks)) c.
Proof.
  induction ks as [|k ks IH]; intros c Hb; [done|]. cbn [rrun]. rewrite fmap_cons. cbn [concat]. rewrite mrun_app.
  rewrite rcall_meaning by done. destruct (mrun (meaning k) c) as [c1|] eqn:Hc1; [|done]. cbn [mbind option_bind].
  apply IH. eapply mrun_bound; [done|apply meaning_no_reset|done].
Qed.

(** What the constructor asks the collector for. *)
Definition creation : list MCall :=
  [MHistogram "rt_cycle_duration_seconds" [("type", "minor")] minor_buckets "RT minor cycle execution duration in seconds";
   MHistogram "rt_cycle_duration_seconds" [("type", "major")] major_buckets "RT major cycle execution duration in seconds";
   MHistogram "rt_cycle_jitter_seconds" [] fine_buckets "RT cycle jitter (standard deviation) in seconds";
   MCounter "rt_deadline_misses_total" [] "Total number of RT deadline misses";
   MGauge "rt_state" [] "Current RT state (0=INIT, 1=READY, 2=RUNNING, 3=SAFE_MODE, 4=SHUTDOWN)";
   MCounter "rt_state_transitions_total" [] "Total number of RT state transitions";
   MCounter "rt_safe_mode_entries_total" [] "Total number of SAFE_MODE entries";
   MGauge "rt_nonrt_heartbeat_alive" [] "Non-RT heartbeat status (0=lost, 1=alive)";
   MGauge "rt_nonrt_heartbeat_timeout_seconds" [] "Non-RT heartbeat timeout in seconds";
   MGauge "rt_numa_local_pages" [] "Number of pages allocated on local NUMA node";
   MGauge "rt_numa_remote_pages" [] "Number of pages allocated on remote NUMA nodes";
   MGauge "rt_numa_local_access_percent" [] "Percentage of memory accesses to local NUMA node";
   MHistogram "rt_perf_latency_seconds" [] fine_buckets "RT performance monitoring latency distribution in seconds";
   MGauge "rt_perf_p50_latency_seconds" [] "RT performance P50 (median) latency in seconds";
   MGauge "rt_perf_p95_latency_seconds" [] "RT performance P95 latency in seconds";
   MGauge "rt_perf_p99_latency_seconds" [] "RT performance P99 latency in seconds";
   MGauge "rt_perf_jitter_seconds" [] "RT performance jitter (standard deviation) in seconds";
   MCounter "rt_perf_deadline_misses_total" [] "Total number of performance deadline misses";
   MGauge "rt_perf_deadline_miss_rate_percent" [] "Percentage of cycles that missed deadline"].

Lemma creation_run c : mrun creation c = Some (snd (newRTMetrics c)).
Proof.
  unfold newRTMetrics, creation. cbn [mrun mcall mbind option_bind].
  do 19 (match goal with |- context [match ?e with pair _ _ => _ end] => destruct e end; cbn [snd]). reflexivity.
Qed.

Lemma new_metrics_bound : bound (fst (newRTMetrics newCollector)) (snd (newRTMetrics newCollector)).
Proof.
  assert (Hall : forall A (ns : list (string * Labels * nat)) (r : registry A),
    forallb (λ '(n, l, i), bool_decide (handle n l r = Some i)) ns = true -> points_to ns r).
  { intros A ns r Hns n l i Hin. rewrite forallb_forall in Hns. apply list_elem_of_In in Hin.
    by apply Hns, bool_decide_eq_true_1 in Hin. }
  split; apply Hall; vm_compute; reflexivity.
Qed.

(** ** What the exported values say *)

(** The last state reported, INIT before the first. *)
Definition last_state (ks : list RCall) : Z :=
  foldl (λ v k, match k with RState s => double_of_int (state_number s) | _ => v end) 0 ks.

Definition count_calls (p : RCall -> bool) (ks : list RCall) : Z := Z.of_nat (count p ks).
Definition is_safe_mode (k : RCall) : bool := match k with RSafeMode => true | _ => false end.
Definition is_miss (k : RCall) : bool := match k with RMiss => true | _ => false end.
Definition is_perf_miss (k : RCall) : bool := match k with RPerfMiss => true | _ => false end.

(** The tables as far as they are followed here. *)
Definition shows (v safe miss perf : Z) (t : Tables) : Prop :=
  t_gauges t !! ("rt_state", []) = Some v /\
  t_counters t !! ("rt_safe_mode_entries_total", []) = Some safe /\
  t_counters t !! ("rt_deadline_misses_total", []) = Some miss /\
  t_counters t !! ("rt_perf_deadline_misses_total", []) = Some perf.

#[local] Instance shows_dec v safe miss perf t : Decision (shows v safe miss perf t).
Proof. unfold shows. apply _. Defined.

Definition bump (b : bool) (n : Z) : Z := if b then u64 (n + 1) else n.

Lemma meaning_shows k v safe miss perf t t' :
  shows v safe miss perf t -> trun (meaning k) t = Some t' ->
  shows (match k with RState s => double_of_int (state_number s) | _ => v end)
    (bump (is_safe_mode k) safe) (bump (is_miss k) miss) (bump (is_perf_miss k) perf) t'.
Proof.
  intros (H1 & H2 & H3 & H4) Ht. unfold shows.
  destruct k; cbn [meaning trun tcall mbind option_bind] in Ht;
    repeat match goal with
           | H : mbind _ _ = Some _ |- _ => apply bind_Some in H as (? & ? & ?)
           end; simplify_eq; cbn [t_gauges t_counters is_safe_mode is_miss is_perf_miss bump];
    split_and!; repeat rewrite lookup_insert_ne by (intros [=]); rewrite ?lookup_insert_eq, ?H1, ?H2, ?H3, ?H4; done.
Qed.

Lemma trun_app a b t : trun (a ++ b) t = t' ← trun a t; trun b t'.
Proof. revert t. induction a as [|k a IH]; intros t; [done|]. cbn [trun app]. destruct (tcall k t); [apply IH|done]. Qed.

Lemma bump_count p (k : RCall) ks n :
  bump (p k) (u64 n) = u64 (n + (if p k then 1 else 0)) /\
  count_calls p (k :: ks) = (if p k then 1 else 0) + count_calls p ks.
Proof.
  unfold bump, count_calls. rewrite count_cons. split; destruct (p k); [|by rewrite Z.add_0_r|lia..].
  unfold u64, wrap. by rewrite Zplus_mod_idemp_l.
Qed.

Lemma calls_show ks : forall v safe miss perf t t',
  shows v (u64 safe) (u64 miss) (u64 perf) t -> trun (concat (meaning <$> ks)) t = Some t' ->
  shows (foldl (λ v k, match k with RState s => double_of_int (state_number s) | _ => v end) v ks)
    (u64 (safe + count_calls is_safe_mode ks)) (u64 (miss + count_calls is_miss ks))
    (u64 (perf + count_calls is_perf_miss ks)) t'.
Proof.
  induction ks as [|k ks IH]; intros v safe miss perf t t' Hs.
  { intros [= <-]. unfold count_calls. cbn. by rewrite !Z.add_0_r. }
  rewrite fmap_cons. cbn [concat foldl]. rewrite trun_app. intros (t1 & Ht1 & Ht')%bind_Some.
  pose proof (meaning_shows k _ _ _ _ _ _ Hs Ht1) as Hs1.
  destruct (bump_count is_safe_mode k ks safe) as [Hb1 Hc1], (bump_count is_miss k ks miss) as [Hb2 Hc2],
    (bump_count is_perf_miss k ks perf) as [Hb3 Hc3]. rewrite Hb1, Hb2, Hb3 in Hs1. rewrite Hc1, Hc2, Hc3.
  rewrite !Z.add_assoc. exact (IH _ _ _ _ _ _ Hs1 Ht').
Qed.

(** The histograms of the process have buckets, so that every observation
    finds one. *)
Definition histogram_keys : list (string * Labels) :=
  [("rt_cycle_duration_seconds", [("type", "minor")]); ("rt_cycle_duration_seconds", [("type", "major")]);
   ("rt_cycle_jitter_seconds", []); ("rt_perf_latency_seconds", [])].
Definition observable (t : Tables) : Prop :=
  Forall (λ k, exists h, t_histograms t !! k = Some h /\ buckets_ h <> []) histogram_keys.
Definition observable_b (t : Tables) : bool :=
  forallb (λ k, match t_histograms t !! k with
                | Some h => match buckets_ h with [] => false | _ => true end
                | None => false
                end) histogram_keys.

Lemma observe_total v h : buckets_ h <> [] -> exists h', observe v h = Some h' /\ buckets_ h' <> [].
Proof.
  intros Hne. unfold observe. destruct (last (buckets_ h)) as [b|] eqn:Hl; [|by apply last_None in Hl].
  cbn [mbind option_bind]. by eexists.
Qed.

Lemma tobserve_total n l v t :
  observable t -> (exists h, t_histograms t !! (n, l) = Some h /\ buckets_ h <> []) ->
  exists t', tcall (MObserve n v l) t = Some t' /\ observable t'.
Proof.
  intros Ho (h & Hh & Hne). destruct (observe_total v h Hne) as (h' & Hh' & Hne'). cbn [tcall]. rewrite Hh.
  change (default _ (Some h)) with h. rewrite Hh'. eexists. split; [reflexivity|]. unfold observable in *.
  eapply Forall_impl; [exact Ho|]. intros k (g & Hg & Hgne). cbn [t_histograms].
  destruct (decide (k = (n, l))) as [->|Hk]; [rewrite lookup_insert_eq|rewrite lookup_insert_ne by done]; eauto.
Qed.

Lemma meaning_total k t : observable t -> exists t', trun (meaning k) t = Some t' /\ observable t'.
Proof.
  intros Ho. assert (Hone : forall c, trun [c] t = tcall c t) by (intros c; cbn [trun]; by destruct (tcall c t)).
  pose proof Ho as Hall. unfold observable, histogram_keys in Hall. rewrite !Forall_cons in Hall. destruct Hall as (H1 & H2 & H3 & H4 & _).
  destruct k; cbn [meaning]; rewrite ?Hone;
    lazymatch goal with
    | |- context [tcall (MObserve _ _ _) _] => apply tobserve_total; assumption
    | _ => cbn [trun tcall mbind option_bind]; eexists; (split; [reflexivity|exact Ho])
    end.
Qed.

Lemma calls_total ks : forall t, observable t -> exists t', trun (concat (meaning <$> ks)) t = Some t'.
Proof.
  induction ks as [|k ks IH]; intros t Ho; [by eexists|]. rewrite fmap_cons. cbn [concat]. rewrite trun_app.
  destruct (meaning_total k t Ho) as (t' & -> & Ho'). exact (IH t' Ho').
Qed.

(** What the tables hold after the constructor. *)
Lemma creation_tables : exists t, trun creation newTables = Some t /\ shows 0 0 0 0 t /\ observable t.
Proof.
  assert (Hc : match trun creation newTables with
               | Some t => bool_decide (shows 0 0 0 0 t) && observable_b t
               | None => false
               end = true) by (vm_compute; reflexivity).
  destruct (trun creation newTables) as [t|]; [|done]. apply andb_true_iff in Hc as [Hs%bool_decide_eq_true_1 Ho].
  exists t. split; [done|]. split; [done|]. apply Forall_forall. intros k Hk. unfold observable_b in Ho.
  rewrite forallb_forall in Ho. specialize (Ho k (proj1 (list_elem_of_In _ _) Hk)).
  destruct (t_histograms t !! k) as [h|]; [|done]. exists h. split; [done|]. by intros He; rewrite He in Ho.
Qed.

(** Whatever the real-time process reports, every report is recorded; the
    exported gauge then holds the last state it reported, and the exported
    counters the numbers of SAFE_MODE entries and of missed deadlines. *)
Theorem rt_metrics_show_the_process ks :
  let '(m, c0) := newRTMetrics newCollector in
  exists c, rrun m ks c0 = Some c /\
    value_at "rt_state" [] (gauges_ c) = Some (last_state ks) /\
    value_at "rt_safe_mode_entries_total" [] (counters_ c) = Some (u64 (count_calls is_safe_mode ks)) /\
    value_at "rt_deadline_misses_total" [] (counters_ c) = Some (u64 (count_calls is_miss ks)) /\
    value_at "rt_perf_deadline_misses_total" [] (counters_ c) = Some (u64 (count_calls is_perf_miss ks)).
Proof.
  pose proof new_metrics_bound as Hb. pose proof (creation_run newCollector) as Hc.
  destruct (newRTMetrics newCollector) as [m c0]. cbn [fst snd] in Hb, Hc.
  rewrite rrun_meaning by done. pose proof (mrun_tables creation _ _ new_collector_ok) as Ht. rewrite Hc in Ht.
  destruct creation_tables as (t0 & Ht0 & Hs0 & Ho). rewrite Ht0 in Ht. clear Ht0 Hc.
  pose proof (mrun_tables (concat (meaning <$> ks)) _ _ Ht) as Ht'. destruct (calls_total ks t0 Ho) as (t & Htk).
  rewrite Htk in Ht'. destruct (mrun _ c0) as [c|]; [|done]. exists c. split; [done|].
  destruct (calls_show ks 0 0 0 0 t0 t Hs0 Htk) as (H1 & H2 & H3 & H4).
  destruct Ht' as [[_ Ha] [_ Hg] _]. rewrite !Z.add_0_l in *. rewrite <- !Ha, <- !Hg. done.
Qed.

(** Resetting the collector drops the gauges and histograms from its tables,
    while RTMetrics keeps its pointers: no state reported afterwards is
    exported. *)
Theorem state_is_lost_after_reset s :
  let '(m, c0) := newRTMetrics newCollector in
  value_at "rt_state" [] (gauges_ (updateState m s (Metrics.reset c0))) = None.
Proof. vm_compute. reflexivity. Qed.
