(* ===== verification/Calendar.v ===== *)
(** * Calendar times: gmtime, mktime, put_time and get_time

    What the code uses of the library to write points in time as ISO 8601 text
    ("%Y-%m-%dT%H:%M:%SZ") and to read them back.  Times are seconds since the
    epoch; days are counted in the Gregorian calendar, whose years are taken to
    begin in March so that the leap day comes last. *)

From Stdlib Require Import Ascii.
From stdpp Require Import pretty.
From S2P Require Import Prelude Text.
#[local] Open Scope Z_scope.

(** ** Dates *)

(** The year since 1900 and the month since January, as in [std::tm]. *)
Record Tm := mkTm { tm_year : Z; tm_mon : Z; tm_mday : Z; tm_hour : Z; tm_min : Z; tm_sec : Z }.
Definition newTm : Tm := mkTm 0 0 0 0 0 0.

(** From 1 March of year 0 to 1 January 1970. *)
Definition epoch_days : Z := 719468.

Definition year_of_era (doe : Z) : Z := (doe - doe / 1460 + doe / 36524 - doe / 146096) / 365.
Definition year_days (yoe : Z) : Z := 365 * yoe + yoe / 4 - yoe / 100.
Definition month_days (mp : Z) : Z := (153 * mp + 2) / 5.

Definition gmtime (t : Z) : Tm :=
  let z := t / 86400 + epoch_days in
  let s := t mod 86400 in
  let era := z / 146097 in
  let doe := z mod 146097 in
  let yoe := year_of_era doe in
  let doy := doe - year_days yoe in
  let mp := (5 * doy + 2) / 153 in
  let mon := if mp <? 10 then mp + 2 else mp - 10 in
  mkTm (yoe + era * 400 + (if mon <=? 1 then 1 else 0) - 1900) mon (doy - month_days mp + 1)
    (s / 3600) (s / 60 mod 60) (s mod 60).

(** The inverse; days, hours, minutes and seconds may be out of range. *)
Definition timegm (tm : Tm) : Z :=
  let y := tm_year tm + 1900 - (if tm_mon tm <=? 1 then 1 else 0) in
  let mp := if tm_mon tm <=? 1 then tm_mon tm + 10 else tm_mon tm - 2 in
  let days := y / 400 * 146097 + year_days (y mod 400) + month_days mp + tm_mday tm - 1 - epoch_days in
  days * 86400 + tm_hour tm * 3600 + tm_min tm * 60 + tm_sec tm.

(** Local time in a zone [offset] seconds east of Greenwich. *)
Definition mktime (offset : Z) (tm : Tm) : Z := timegm tm - offset.

Lemma year_of_era_bound doe : 0 <= doe < 146097 -> 0 <= year_of_era doe < 400.
Proof.
  intros H. unfold year_of_era. pose proof (Z.div_mod doe 1460 ltac:(lia)). pose proof (Z.div_mod doe 36524 ltac:(lia)).
  pose proof (Z.div_mod doe 146096 ltac:(lia)). pose proof (Z.mod_pos_bound doe 1460 ltac:(lia)).
  pose proof (Z.mod_pos_bound doe 36524 ltac:(lia)). pose proof (Z.mod_pos_bound doe 146096 ltac:(lia)).
  split; [apply Z.div_pos|apply Z.div_lt_upper_bound]; lia.
Qed.

Lemma div_bounds a b : 0 < b -> b * (a / b) <= a < b * (a / b) + b.
Proof. intros Hb. pose proof (Z.div_mod a b ltac:(lia)). pose proof (Z.mod_pos_bound a b Hb). lia. Qed.

Lemma day_of_year_bound doe : 0 <= doe < 146097 -> 0 <= doe - year_days (year_of_era doe) <= 365.
Proof.
  intros H. destruct (decide (doe = 146096)) as [->|Hne]; [vm_compute; split; discriminate|].
  unfold year_days, year_of_era. rewrite (Z.div_small doe 146096) by lia.
  pose proof (div_bounds doe 36524 ltac:(lia)) as Hb. pose proof (div_bounds doe 1460 ltac:(lia)) as Ha.
  set (b := doe / 36524) in *. set (a := doe / 1460) in *.
  pose proof (div_bounds (doe - a + b - 0) 365 ltac:(lia)) as Hy. set (y := (doe - a + b - 0) / 365) in *.
  pose proof (div_bounds y 4 ltac:(lia)) as Hq. pose proof (div_bounds y 100 ltac:(lia)) as Hr.
  set (q := y / 4) in *. set (r := y / 100) in *. clearbody b a y q r.
  assert (Hb' : b = 0 \/ b = 1 \/ b = 2 \/ b = 3) by lia. destruct Hb' as [-> | [-> | [-> | ->]]]; lia.
Qed.

Lemma month_bound doy :
  0 <= doy <= 365 -> let mp := (5 * doy + 2) / 153 in 0 <= mp < 12 /\ 1 <= doy - month_days mp + 1 <= 31.
Proof.
  intros H mp. unfold month_days. pose proof (div_bounds (5 * doy + 2) 153 ltac:(lia)) as Hm. fold mp in Hm.
  pose proof (div_bounds (153 * mp + 2) 5 ltac:(lia)) as Hd. set (d := (153 * mp + 2) / 5) in *. clearbody mp d. lia.
Qed.

Lemma era_bound z : 0 <= z mod 146097 < 146097.
Proof. apply Z.mod_pos_bound. lia. Qed.

Record tm_ok (tm : Tm) : Prop := {
  tk_mon : 0 <= tm_mon tm < 12;
  tk_mday : 1 <= tm_mday tm <= 31;
  tk_hour : 0 <= tm_hour tm < 24;
  tk_min : 0 <= tm_min tm < 60;
  tk_sec : 0 <= tm_sec tm < 60
}.

Lemma gmtime_ok t : tm_ok (gmtime t).
Proof.
  pose proof (month_bound _ (day_of_year_bound _ (era_bound (t / 86400 + epoch_days)))) as H.
  cbv zeta in H.
  pose proof (Z.mod_pos_bound t 86400 ltac:(lia)) as Hs. unfold gmtime.
  set (doe := (t / 86400 + epoch_days) mod 146097) in *. set (doy := doe - year_days (year_of_era doe)) in *.
  set (mp := (5 * doy + 2) / 153) in *. set (s := t mod 86400) in *.
  split; cbn [tm_mon tm_mday tm_hour tm_min tm_sec]; [destruct (Z.ltb_spec mp 10); lia|lia| | |].
  - split; [apply Z.div_pos|apply Z.div_lt_upper_bound]; lia.
  - apply Z.mod_pos_bound. lia.
  - apply Z.mod_pos_bound. lia.
Qed.

Lemma timegm_gmtime t : timegm (gmtime t) = t.
Proof.
  pose proof (month_bound _ (day_of_year_bound _ (era_bound (t / 86400 + epoch_days)))) as H.
  cbv zeta in H.
  pose proof (year_of_era_bound _ (era_bound (t / 86400 + epoch_days))) as Hy.
  unfold timegm, gmtime. cbn [tm_year tm_mon tm_mday tm_hour tm_min tm_sec].
  pose proof (Z.div_mod (t / 86400 + epoch_days) 146097 ltac:(lia)) as Hz.
  set (z := t / 86400 + epoch_days) in *. set (doe := z mod 146097) in *. set (yoe := year_of_era doe) in *.
  set (doy := doe - year_days yoe) in *. set (mp := (5 * doy + 2) / 153) in *. set (s := t mod 86400) in *.
  set (mon := if mp <? 10 then mp + 2 else mp - 10).
  assert (Hmp : (if mon <=? 1 then mon + 10 else mon - 2) = mp).
  { unfold mon. destruct (Z.ltb_spec mp 10).
    - rewrite (proj2 (Z.leb_gt _ _)) by lia. lia.
    - rewrite (proj2 (Z.leb_le _ _)) by lia. lia. }
  rewrite Hmp.
  replace (yoe + z / 146097 * 400 + (if mon <=? 1 then 1 else 0) - 1900 + 1900 - (if mon <=? 1 then 1 else 0))
    with (yoe + z / 146097 * 400) by lia.
  rewrite Z.div_add, Z.mod_add, Z.div_small, Z.mod_small by lia.
  assert (Hs : s / 3600 * 3600 + s / 60 mod 60 * 60 + s mod 60 = s).
  { replace (s / 3600) with (s / 60 / 60) by (rewrite Z.div_div by lia; reflexivity).
    pose proof (Z.div_mod s 60 ltac:(lia)). pose proof (Z.div_mod (s / 60) 60 ltac:(lia)). lia. }
  assert (Hd : (0 + z / 146097) * 146097 + year_days yoe + month_days mp + (doy - month_days mp + 1) - 1 - epoch_days = t / 86400).
  { subst doy. lia. }
  rewrite Hd. pose proof (Z.div_mod t 86400 ltac:(lia)) as Ht. fold s in Ht. lia.
Qed.

(** ** Text *)

Definition dec_char (d : Z) : ascii := ascii_of_N (Z.to_N (48 + d)).

Fixpoint dec_fixed (w : nat) (n : Z) : chars :=
  match w with
  | O => []
  | S w => dec_fixed w (n / 10) ++ [dec_char (n mod 10)]
  end.

Definition put_year (y : Z) : chars := if (1000 <=? y) && (y <=? 9999) then dec_fixed 4 y else to_chars (pretty y).

Definition put_time (tm : Tm) : chars :=
  put_year (tm_year tm + 1900) ++ "-"%char :: dec_fixed 2 (tm_mon tm + 1) ++ "-"%char :: dec_fixed 2 (tm_mday tm) ++
  "T"%char :: dec_fixed 2 (tm_hour tm) ++ ":"%char :: dec_fixed 2 (tm_min tm) ++ ":"%char :: dec_fixed 2 (tm_sec tm) ++
  ["Z"%char].

(** At most [w] digits. *)
Fixpoint read_digits (w : nat) (acc : Z) (some : bool) (l : chars) : option (Z * chars) :=
  match w, l with
  | S w', c :: l' =>
    match dec_digit c with
    | Some d => read_digits w' (10 * acc + d) true l'
    | None => if some then Some (acc, l) else None
    end
  | _, _ => if some then Some (acc, l) else None
  end.

Definition read_num (w : nat) (lo hi : Z) (l : chars) : option (Z * chars) :=
  match read_digits w 0 false l with
  | Some (n, l) => if (lo <=? n) && (n <=? hi) then Some (n, l) else None
  | None => None
  end.

Definition expect (c : ascii) (l : chars) : option chars :=
  match l with c' :: l' => if bool_decide (c = c') then Some l' else None | [] => None end.

(** [get_time] stops at the first thing that does not fit; what it has read
    stays in the structure. *)
Definition get_time (l : chars) (tm : Tm) : Tm :=
  match read_num 4 0 9999 l with None => tm | Some (y, l) =>
  let tm := mkTm (y - 1900) (tm_mon tm) (tm_mday tm) (tm_hour tm) (tm_min tm) (tm_sec tm) in
  match l ← expect "-"%char l; read_num 2 1 12 l with None => tm | Some (m, l) =>
  let tm := mkTm (tm_year tm) (m - 1) (tm_mday tm) (tm_hour tm) (tm_min tm) (tm_sec tm) in
  match l ← expect "-"%char l; read_num 2 1 31 l with None => tm | Some (d, l) =>
  let tm := mkTm (tm_year tm) (tm_mon tm) d (tm_hour tm) (tm_min tm) (tm_sec tm) in
  match l ← expect "T"%char l; read_num 2 0 23 l with None => tm | Some (h, l) =>
  let tm := mkTm (tm_year tm) (tm_mon tm) (tm_mday tm) h (tm_min tm) (tm_sec tm) in
  match l ← expect ":"%char l; read_num 2 0 59 l with None => tm | Some (mi, l) =>
  let tm := mkTm (tm_year tm) (tm_mon tm) (tm_mday tm) (tm_hour tm) mi (tm_sec tm) in
  match l ← expect ":"%char l; read_num 2 0 60 l with None => tm | Some (s, l) =>
  mkTm (tm_year tm) (tm_mon tm) (tm_mday tm) (tm_hour tm) (tm_min tm) s
  end end end end end end.

Lemma dec_char_digit d : 0 <= d < 10 -> dec_digit (dec_char d) = Some d.
Proof.
  intros H. assert (Hd : d ∈ [0; 1; 2; 3; 4; 5; 6; 7; 8; 9]) by (repeat (rewrite elem_of_cons; try lia)).
  repeat (apply elem_of_cons in Hd as [->|Hd]; [reflexivity|]). by apply elem_of_nil in Hd.
Qed.

Lemma dec_fixed_length w n : length (dec_fixed w n) = w.
Proof. revert n. induction w as [|w IH]; intros n; [done|]. cbn. rewrite length_app, IH. cbn. lia. Qed.

(** What is written with a fixed width is read with it. *)
Lemma read_fixed w : forall v k n acc some rest,
  0 <= n < 10 ^ Z.of_nat w -> read_digits (w + v) acc some (dec_fixed w n ++ k ++ rest) =
  match w with O => read_digits v acc some (k ++ rest) | _ => read_digits v (acc * 10 ^ Z.of_nat w + n) true (k ++ rest) end.
Proof.
  induction w as [|w IH]; intros v k n acc some rest Hn; [done|]. cbn [dec_fixed]. rewrite <- app_assoc.
  rewrite Nat2Z.inj_succ, Z.pow_succ_r in Hn by lia. cbn [app].
  assert (Hdiv : 0 <= n / 10 < 10 ^ Z.of_nat w) by (split; [apply Z.div_pos; lia|apply Z.div_lt_upper_bound; lia]).
  pose proof (IH (S v) (dec_char (n mod 10) :: k) (n / 10) acc some rest Hdiv) as H. cbn [app] in H.
  replace (S w + v)%nat with (w + S v)%nat by lia. rewrite H. pose proof (Z.div_mod n 10 ltac:(lia)).
  assert (Hstep : forall a b, read_digits (S v) a b (dec_char (n mod 10) :: k ++ rest) =
    read_digits v (10 * a + n mod 10) true (k ++ rest)).
  { intros a b. cbn [read_digits]. by rewrite dec_char_digit by (apply Z.mod_pos_bound; lia). }
  rewrite Nat2Z.inj_succ, Z.pow_succ_r by lia. destruct w as [|w]; rewrite Hstep; f_equal.
  - change (10 ^ Z.of_nat 0) with 1 in Hdiv |- *. lia.
  - lia.
Qed.

Lemma read_num_fixed w lo hi n rest :
  (0 < w)%nat -> 0 <= n < 10 ^ Z.of_nat w -> lo <= n <= hi -> read_num w lo hi (dec_fixed w n ++ rest) = Some (n, rest).
Proof.
  intros Hw Hn Hr. unfold read_num. pose proof (read_fixed w 0 [] n 0 false rest Hn) as H. cbn [app] in H.
  rewrite Nat.add_0_r in H. rewrite H. destruct w as [|w]; [lia|]. cbn [read_digits].
  rewrite Z.mul_0_l, Z.add_0_l. destruct rest; by rewrite !(proj2 (Z.leb_le _ _)) by lia.
Qed.

Lemma get_put_time tm : tm_ok tm -> 1000 <= tm_year tm + 1900 <= 9999 -> get_time (put_time tm) newTm = tm.
Proof.
  intros [Hm Hd Hh Hi Hs] Hy. unfold put_time, put_year. rewrite !(proj2 (Z.leb_le _ _)) by lia. cbn [andb]. unfold get_time.
  repeat (rewrite read_num_fixed by (lia || (cbn; lia)); cbn [expect mbind option_bind bool_decide];
    rewrite ?bool_decide_true by done; cbn [mbind option_bind]).
  destruct tm as [y m d h mi s]. cbn. f_equal; lia.
Qed.
