(* ===== verification/Checkpoint.v ===== *)
(** * StateCheckpointManager (src/core/ha/StateCheckpoint)

    Checkpoints of a process as JSON files of a directory.  A path is its
    directory and its file name; identifiers contain no separator.  The file
    system says when files can be opened for writing and removed, and how much
    of a text it has taken, which the code does not ask.  The JSON library says
    which values it can print (it refuses text that is not UTF-8), prints a
    number that is not finite as null, and gives the values back that it
    printed.  Times are nanoseconds of the system clock, and [offset] is how many
    seconds the local zone is east of Greenwich. *)

From Stdlib Require Import Ascii.
From S2P Require Import Prelude Ieee754 Text Config Calendar.
#[local] Open Scope Z_scope.

Abbreviation Path := (string * string)%type.

Record StateCheckpoint := mkCheckpoint {
  checkpoint_id : string;
  process_name : string;
  timestamp : Z;
  rt_state : Json;
  datastore_snapshot : Json;
  eventbus_queue_snapshot : list string;
  checkpoint_size_bytes : Z;
  is_complete : bool;
  file_path : Path
}.

Inductive CheckpointState := CREATING | COMPLETE | LOADED | EXPIRED.

Definition checkpointStateToString (s : CheckpointState) : string :=
  match s with
  | CREATING => "CREATING" | COMPLETE => "COMPLETE" | LOADED => "LOADED" | EXPIRED => "EXPIRED"
  end.

Record StateCheckpointManager := mkManager {
  process_name_ : string;
  checkpoint_dir_ : string;
  max_checkpoints_ : nat;
  retention_hours_ : nat
}.

(** ** The files *)

Record CFile := mkCFile { regular : bool; content : ConfigFile; size : Z; mtime : Z }.
Abbreviation Files := (gmap Path CFile).

Definition json_ext : chars := [".";"j";"s";"o";"n"]%char.

(** The stem of a file name whose extension is ".json". *)
Definition json_stem (name : string) : option string :=
  let l := to_chars name in
  let n := (length l - length json_ext)%nat in
  if bool_decide (drop n l = json_ext) && (0 <? n)%nat then Some (of_chars (take n l)) else None.

(** ** Identifiers *)

(** The digits of an identifier, from numbers below 16. *)
Fixpoint id_chars (i : nat) (draws : list Z) : chars :=
  match draws with
  | [] => []
  | d :: draws =>
    (if bool_decide (i ∈ [8; 12; 16; 20]%nat) then ["-"%char] else []) ++
    (if bool_decide (i = 12%nat) then "4"%char
     else if bool_decide (i = 16%nat) then hex_char (Z.lor (Z.land d 3) 8)
     else hex_char d) :: id_chars (S i) draws
  end.

(** One number for each place; the one at the place of the version is not used. *)
Definition generateCheckpointId (draws : list Z) : string := of_chars (id_chars 0 (take 32 draws)).

(** ** Printing *)

(** The exponent of a double is not all ones. *)
Definition finite (bits : Z) : bool := negb (Z.land (Z.shiftr bits 52) 2047 =? 2047).

(** The value whose text [dump] prints. *)
Fixpoint printed (j : Json) : Json :=
  match j with
  | JFloat d => if finite d then JFloat d else JNull
  | JArray l => JArray (map printed l)
  | JObject l => JObject (map (λ kv, (fst kv, printed (snd kv))) l)
  | _ => j
  end.

(** What becomes of a text that is written: all of it, or a part, from which the
    parser would get as far as [partial]. *)
Inductive Written := Complete | Cut (partial : Json).

Definition file_text (w : Written) (j : Json) : ConfigFile :=
  match w with Complete => Parsed (printed j) | Cut partial => Malformed partial end.

Section Manager.
Implicit Types (m : StateCheckpointManager) (fs : Files).

Definition getCheckpointPath (id : string) m : Path := (checkpoint_dir_ m, id +:+ ".json").

Definition createCheckpoint (draws : list Z) (now : Z) m : StateCheckpoint :=
  let id := generateCheckpointId draws in
  mkCheckpoint id (process_name_ m) now JNull JNull [] 0 false (getCheckpointPath id m).

(** The members of the JSON value, in the order of their keys. *)
Definition to_json (c : StateCheckpoint) : Json :=
  JObject [("checkpoint_id", JString (checkpoint_id c));
           ("checkpoint_size_bytes", JInt (checkpoint_size_bytes c));
           ("datastore_snapshot", datastore_snapshot c);
           ("eventbus_queue_snapshot", JArray (JString <$> eventbus_queue_snapshot c));
           ("is_complete", JBool (is_complete c));
           ("process_name", JString (process_name c));
           ("rt_state", rt_state c);
           ("timestamp", JString (of_chars (put_time (gmtime (Z.quot (timestamp c) 1000000000)))))].

(** [j[key]] of a value that is not constant. *)
Definition json_at (k : string) (j : Json) : result string Json :=
  match j with
  | JObject l => Ok (default JNull (member k l))
  | JNull => Ok JNull
  | _ => Throw "cannot use operator[]"
  end.

Definition contains (k : string) (j : Json) : bool :=
  match j with JObject l => bool_decide (is_Some (member k l)) | _ => false end.

Definition at_as {T} (get : Json -> option (result string T)) (k : string) (j : Json) : option (result string T) :=
  match json_at k j with Ok v => get v | Throw e => Some (Throw e) end.

Definition get_json (j : Json) : option (result string Json) := Some (Ok j).

Definition get_u64 (j : Json) : option (result string Z) :=
  match j with
  | JInt n => Some (Ok (u64 n))
  | JBool b => Some (Ok (if b then 1 else 0))
  | JFloat d => Ok <$> u64_of_double d
  | _ => Some (Throw "type must be number")
  end.

Fixpoint get_strings (l : list Json) : option (result string (list string)) :=
  match l with
  | [] => Some (Ok [])
  | j :: l => let? s := get_string j in let? ss := get_strings l in Some (Ok (s :: ss))
  end.
Definition get_string_vector (j : Json) : option (result string (list string)) :=
  match j with JArray l => get_strings l | _ => Some (Throw "type must be array") end.

Section System.
Variable offset : Z.
Variable dumpable : Json -> bool.
Variable writable : Path -> bool.
Variable removable : Path -> bool.

(** The fields of a checkpoint that has been parsed. *)
Definition from_json (path : Path) (j : Json) : option (result string StateCheckpoint) :=
  let? id := at_as get_string "checkpoint_id" j in
  let? name := at_as get_string "process_name" j in
  let? ts := at_as get_string "timestamp" j in
  let time := mktime offset (get_time (to_chars ts) newTm) * 1000000000 in
  let? state := at_as get_json "rt_state" j in
  let? data := (if contains "datastore_snapshot" j then at_as get_json "datastore_snapshot" j else Some (Ok JNull)) in
  let? queue := (if contains "eventbus_queue_snapshot" j then at_as get_string_vector "eventbus_queue_snapshot" j
                 else Some (Ok [])) in
  let? sz := at_as get_u64 "checkpoint_size_bytes" j in
  let? complete := at_as get_bool "is_complete" j in
  Some (Ok (mkCheckpoint id name time state data queue sz complete path)).

Definition loadCheckpoint (id : string) m fs : option (result string StateCheckpoint) :=
  let path := getCheckpointPath id m in
  match fs !! path with
  | None => Some (Throw "Checkpoint file not found")
  | Some f =>
    match content f with
    | NoFile | Unreadable => Some (Throw "Failed to open checkpoint file")
    | Malformed _ => Some (Throw "parse error")
    | Parsed j => from_json path j
    end
  end.

(** Oldest first; the order of files of the same time is left open. *)
Definition older (a b : string * Z) : Prop := snd a <= snd b.
#[export] Instance older_dec a b : Decision (older a b).
Proof. unfold older. apply _. Defined.

Definition listed m (pf : Path * CFile) : option (string * Z) :=
  let '(dir, name, f) := pf in
  if bool_decide (dir = checkpoint_dir_ m) && regular f then
    (λ id, (id, mtime f)) <$> json_stem name
  else None.

Definition listing m fs : list (string * Z) := merge_sort older (omap (listed m) (map_to_list fs)).
Definition listCheckpoints m fs : list string := fst <$> listing m fs.

Definition deleteCheckpoint (id : string) m fs : bool * Files :=
  let path := getCheckpointPath id m in
  match fs !! path with
  | None => (false, fs)
  | Some _ => if removable path then (true, delete path fs) else (false, fs)
  end.

Definition delete_all (ids : list string) m fs : Files := foldl (λ fs id, snd (deleteCheckpoint id m fs)) fs ids.

Definition saveCheckpoint (w : Written) (now len : Z) (c : StateCheckpoint) m fs : bool * Files :=
  let j := to_json c in
  if negb (writable (file_path c)) then (false, fs)
  else if negb (dumpable j) then (false, <[file_path c := mkCFile true (Malformed JNull) 0 now]> fs)
  else
    let fs := <[file_path c := mkCFile true (file_text w j) len now]> fs in
    let ids := listCheckpoints m fs in
    if (max_checkpoints_ m <? length ids)%nat
    then (true, delete_all (take (length ids - max_checkpoints_ m) ids) m fs)
    else (true, fs).

(** Comparing an age with hours multiplies them out to nanoseconds. *)
Definition older_than (hours age : Z) : option bool :=
  let ns := hours * 3600 * 1000000000 in
  if (- 2 ^ 63 <=? ns) && (ns <? 2 ^ 63) then Some (ns <? age) else None.

Fixpoint cleanup (now hours : Z) (ids : list string) (n : nat) m fs : option (nat * Files) :=
  match ids with
  | [] => Some (n, fs)
  | id :: ids =>
    c ← loadCheckpoint id m fs;
    match c with
    | Throw _ => cleanup now hours ids n m fs
    | Ok c =>
      expired ← older_than hours (now - timestamp c);
      if expired : bool then
        let '(ok, fs) := deleteCheckpoint id m fs in cleanup now hours ids (if ok : bool then S n else n) m fs
      else cleanup now hours ids n m fs
    end
  end.
Definition cleanupExpiredCheckpoints (now hours : Z) m fs : option (nat * Files) :=
  cleanup now hours (listCheckpoints m fs) 0 m fs.

Definition verifyCheckpoint (id : string) m fs : option bool :=
  match fs !! getCheckpointPath id m with
  | None => Some false
  | Some f =>
    match content f with
    | Parsed j =>
      if negb (contains "checkpoint_id" j) || negb (contains "process_name" j) || negb (contains "timestamp" j) ||
         negb (contains "is_complete" j)
      then Some false
      else
        match at_as get_u64 "checkpoint_size_bytes" j with
        | Some (Ok recorded) => Some true
        | Some (Throw _) => Some false
        | None => None
        end
    | _ => Some false
    end
  end.
End System.
End Manager.

(** ** The listing *)

Lemma json_stem_spec name id : json_stem name = Some id <-> name = (id +:+ ".json") /\ id <> "".
Proof.
  unfold json_stem. split.
  - case_bool_decide as Hd; [|done]. destruct (Nat.ltb_spec 0 (length (to_chars name) - length json_ext)) as [Hn|]; [|done].
    cbn [andb]. set (n := (length (to_chars name) - length json_ext)%nat) in *. intros [= <-]. split.
    + apply to_chars_inj. rewrite to_chars_app, to_of_chars. rewrite <- (take_drop n (to_chars name)) at 1. by rewrite Hd.
    + intros He. apply (f_equal to_chars) in He. rewrite to_of_chars in He. apply (f_equal length) in He.
      rewrite length_take in He. cbn in He. lia.
  - intros [-> Hne]. rewrite to_chars_app, length_app. change (to_chars ".json") with json_ext.
    replace (length (to_chars id) + length json_ext - length json_ext)%nat with (length (to_chars id)) by lia.
    rewrite drop_app_length, take_app_length, bool_decide_true by done. cbn [andb].
    assert (Hlt : (0 <? length (to_chars id))%nat = true) by (by destruct id). by rewrite Hlt, of_to_chars.
Qed.

Lemma path_inj id id' m : getCheckpointPath id m = getCheckpointPath id' m -> id = id'.
Proof.
  unfold getCheckpointPath. intros [= H]. apply to_chars_inj.
  apply (f_equal to_chars) in H. rewrite !to_chars_app in H. by apply app_inv_tail in H.
Qed.

#[export] Instance older_trans : Transitive older.
Proof. intros a b c. unfold older. lia. Qed.
#[export] Instance older_total : Total older.
Proof. intros a b. unfold older. lia. Qed.

Lemma elem_of_listing m fs id t :
  (id, t) ∈ listing m fs <->
  exists f, fs !! getCheckpointPath id m = Some f /\ regular f = true /\ mtime f = t /\ id <> "".
Proof.
  unfold listing. rewrite merge_sort_Permutation, list_elem_of_omap. unfold getCheckpointPath. split.
  - intros ([[dir name] f] & Hin & Hl). apply elem_of_map_to_list in Hin. unfold listed in Hl.
    case_bool_decide as Hdir; [|done]. destruct (regular f) eqn:Hr; [|done]. cbn [andb] in Hl.
    apply fmap_Some in Hl as (id' & Hs & [= -> ->]). apply json_stem_spec in Hs as [-> Hne]. subst dir. eauto.
  - intros (f & Hf & Hr & <- & Hne). exists (checkpoint_dir_ m, id +:+ ".json", f). split; [by apply elem_of_map_to_list|].
    unfold listed. rewrite bool_decide_true, Hr by done. cbn [andb].
    assert (Hs : json_stem (id +:+ ".json") = Some id) by (by apply json_stem_spec). by rewrite Hs.
Qed.

Lemma NoDup_omap {A B} (f : A -> option B) l :
  NoDup l -> (forall x y z, x ∈ l -> y ∈ l -> f x = Some z -> f y = Some z -> x = y) -> NoDup (omap f l).
Proof.
  induction 1 as [|x l Hx _ IH]; intros Hinj; [constructor|].
  assert (Hl : NoDup (omap f l)) by (apply IH; intros y y' z Hy Hy'; apply Hinj; by right).
  cbn. destruct (f x) as [z|] eqn:Hfx; [|done]. constructor; [|done].
  intros (y & Hy & Hfy)%list_elem_of_omap. apply Hx. rewrite (Hinj x y z); [done|by left|by right|done|done].
Qed.

Lemma listCheckpoints_NoDup m fs : NoDup (listCheckpoints m fs).
Proof.
  unfold listCheckpoints, listing. rewrite merge_sort_Permutation, list_fmap_omap. apply NoDup_omap; [apply NoDup_map_to_list|].
  intros [[d1 n1] f1] [[d2 n2] f2] id H1 H2. rewrite elem_of_map_to_list in H1, H2. unfold listed, compose.
  case_bool_decide; [|done]. destruct (regular f1); [|done]. case_bool_decide; [|intros _; done].
  destruct (regular f2); [|intros _; done]. cbn [andb].
  destruct (json_stem n1) as [i1|] eqn:Hs1; [|done]. destruct (json_stem n2) as [i2|] eqn:Hs2; [|done].
  intros [= ->] [= ->]. apply json_stem_spec in Hs1 as [-> _]. apply json_stem_spec in Hs2 as [-> _]. by simplify_eq.
Qed.

Lemma checkpoints_sorted m fs : StronglySorted older (listing m fs).
Proof. apply StronglySorted_merge_sort; apply _. Qed.

(** ** Deleting the oldest *)

Lemma delete_all_lookup removable ids m fs p :
  (forall q, removable q = true) ->
  delete_all removable ids m fs !! p = if bool_decide (p ∈ (λ id, getCheckpointPath id m) <$> ids) then None else fs !! p.
Proof.
  intros Hrem. unfold delete_all. revert fs. induction ids as [|id ids IH]; intros fs; cbn [foldl].
  { rewrite bool_decide_false; [done|]. apply not_elem_of_nil. }
  rewrite IH, fmap_cons. clear IH.
  assert (Hd : snd (deleteCheckpoint removable id m fs) !! p = if bool_decide (p = getCheckpointPath id m) then None else fs !! p).
  { unfold deleteCheckpoint. rewrite Hrem. case_bool_decide as Hp.
    - subst p. destruct (fs !! getCheckpointPath id m) eqn:Hl; cbn [snd]; [apply lookup_delete_eq|done].
    - destruct (fs !! getCheckpointPath id m); cbn [snd]; [by apply lookup_delete_ne|done]. }
  rewrite Hd. repeat case_bool_decide; try done; set_solver.
Qed.

(** The listing after its first [k] checkpoints are gone. *)
Lemma checkpoints_without removable k m fs :
  (forall q, removable q = true) ->
  listing m (delete_all removable (take k (listCheckpoints m fs)) m fs) ≡ₚ drop k (listing m fs).
Proof.
  intros Hrem. assert (Hnd : forall fs, NoDup (listing m fs)) by (intros; eapply NoDup_fmap_1, listCheckpoints_NoDup).
  apply NoDup_Permutation; [apply Hnd|eapply sublist_NoDup; [apply (Hnd fs)|apply sublist_drop]|].
  intros [id t]. rewrite elem_of_listing.
  assert (Hin : getCheckpointPath id m ∈ (λ id, getCheckpointPath id m) <$> take k (listCheckpoints m fs) <->
                id ∈ take k (listCheckpoints m fs)).
  { rewrite list_elem_of_fmap. split; [by intros (id' & <-%path_inj & ?)|eauto]. }
  rewrite delete_all_lookup by done. rewrite (bool_decide_ext _ _ Hin). clear Hin.
  pose proof (listCheckpoints_NoDup m fs) as Hd. rewrite <- (take_drop k (listCheckpoints m fs)) in Hd.
  apply NoDup_app in Hd as (_ & Hdisj & _). split.
  - intros (f & Hf & H). case_bool_decide as Hin; [done|].
    assert (Hl : (id, t) ∈ listing m fs) by (apply elem_of_listing; eauto).
    rewrite <- (take_drop k (listing m fs)) in Hl. apply elem_of_app in Hl as [Hl|Hl]; [|done]. destruct Hin.
    unfold listCheckpoints. rewrite <- fmap_take. apply list_elem_of_fmap. by exists (id, t).
  - intros H. assert (Hl : (id, t) ∈ listing m fs).
    { rewrite <- (take_drop k (listing m fs)). apply elem_of_app. by right. }
    apply elem_of_listing in Hl as (f & Hf & Hr). exists f. rewrite bool_decide_false; [done|]. intros Hin.
    apply (Hdisj id Hin). unfold listCheckpoints. rewrite <- fmap_drop. apply list_elem_of_fmap. by exists (id, t).
Qed.

(** ** Saving and loading *)

(** A checkpoint as it is read back: its time in whole seconds and, because it
    is written in universal time and read as local time, shifted by the zone;
    numbers that are not finite are null. *)
Definition restored (offset : Z) (c : StateCheckpoint) : StateCheckpoint :=
  mkCheckpoint (checkpoint_id c) (process_name c) ((Z.quot (timestamp c) 1000000000 - offset) * 1000000000)
    (printed (rt_state c)) (printed (datastore_snapshot c)) (eventbus_queue_snapshot c) (checkpoint_size_bytes c)
    (is_complete c) (file_path c).

Record well_formed (c : StateCheckpoint) : Prop := {
  wf_year : 1000 <= tm_year (gmtime (Z.quot (timestamp c) 1000000000)) + 1900 <= 9999;
  wf_size : 0 <= checkpoint_size_bytes c < 2 ^ 64;
  wf_id : checkpoint_id c <> ""
}.

Lemma get_strings_fmap l : get_strings (JString <$> l) = Some (Ok l).
Proof. induction l as [|s l IH]; [done|]. rewrite fmap_cons. cbn [get_strings get_string jbind]. by rewrite IH. Qed.

Lemma printed_strings l : map printed (JString <$> l) = JString <$> l.
Proof. induction l as [|s l IH]; [done|]. cbn. by f_equal. Qed.

(** The text of a checkpoint in terms of that of its time. *)
Definition printed_checkpoint (c : StateCheckpoint) (time : string) : Json :=
  JObject [("checkpoint_id", JString (checkpoint_id c));
           ("checkpoint_size_bytes", JInt (checkpoint_size_bytes c));
           ("datastore_snapshot", printed (datastore_snapshot c));
           ("eventbus_queue_snapshot", JArray (JString <$> eventbus_queue_snapshot c));
           ("is_complete", JBool (is_complete c));
           ("process_name", JString (process_name c));
           ("rt_state", printed (rt_state c));
           ("timestamp", JString time)].

Lemma printed_to_json c :
  printed (to_json c) = printed_checkpoint c (of_chars (put_time (gmtime (Z.quot (timestamp c) 1000000000)))).
Proof.
  unfold to_json, printed_checkpoint. generalize (of_chars (put_time (gmtime (Z.quot (timestamp c) 1000000000)))). intros ts.
  cbn [printed map fst snd]. by rewrite printed_strings.
Qed.

Lemma from_to_json offset c :
  well_formed c -> from_json offset (file_path c) (printed (to_json c)) = Some (Ok (restored offset c)).
Proof.
  intros [Hy Hs _]. unfold from_json. set (ts := of_chars (put_time (gmtime (Z.quot (timestamp c) 1000000000)))).
  rewrite printed_to_json. fold ts. assert (Hts : to_chars ts = put_time (gmtime (Z.quot (timestamp c) 1000000000)))
    by apply to_of_chars. clearbody ts. set (j := printed_checkpoint c ts).
  assert (H1 : at_as get_string "checkpoint_id" j = Some (Ok (checkpoint_id c))) by reflexivity.
  assert (H2 : at_as get_string "process_name" j = Some (Ok (process_name c))) by reflexivity.
  assert (H3 : at_as get_string "timestamp" j = Some (Ok ts)) by reflexivity.
  assert (H4 : at_as get_json "rt_state" j = Some (Ok (printed (rt_state c)))) by reflexivity.
  assert (H5 : contains "datastore_snapshot" j = true) by reflexivity.
  assert (H6 : at_as get_json "datastore_snapshot" j = Some (Ok (printed (datastore_snapshot c)))) by reflexivity.
  assert (H7 : contains "eventbus_queue_snapshot" j = true) by reflexivity.
  assert (H8 : at_as get_string_vector "eventbus_queue_snapshot" j = get_strings (JString <$> eventbus_queue_snapshot c))
    by reflexivity.
  assert (H9 : at_as get_u64 "checkpoint_size_bytes" j = Some (Ok (u64 (checkpoint_size_bytes c)))) by reflexivity.
  assert (H10 : at_as get_bool "is_complete" j = Some (Ok (is_complete c))) by reflexivity.
  rewrite H1. cbn [jbind]. rewrite H2. cbn [jbind]. rewrite H3. cbn [jbind]. rewrite H4. cbn [jbind].
  rewrite H5, H6. cbn [jbind]. rewrite H7, H8, get_strings_fmap. cbn [jbind]. rewrite H9. cbn [jbind]. rewrite H10. cbn [jbind].
  unfold mktime, restored. rewrite Hts, get_put_time, timegm_gmtime by (apply gmtime_ok || done).
  unfold u64. by rewrite wrap_small.
Qed.

(** A successful save in terms of the files it leaves. *)
Lemma save_files dumpable writable removable w now len c m fs fs' :
  saveCheckpoint dumpable writable removable w now len c m fs = (true, fs') ->
  let fs1 := <[file_path c := mkCFile true (file_text w (to_json c)) len now]> fs in
  fs' = delete_all removable (take (length (listCheckpoints m fs1) - max_checkpoints_ m) (listCheckpoints m fs1)) m fs1.
Proof.
  unfold saveCheckpoint. destruct (writable _); [|done]. destruct (dumpable _); [|done]. cbn [negb].
  destruct (Nat.ltb_spec (max_checkpoints_ m) 
    (length (listCheckpoints m (<[file_path c := mkCFile true (file_text w (to_json c)) len now]> fs)))).
  - by intros [= <-].
  - intros [= <-]. cbv zeta. by replace (_ - _)%nat with 0%nat by lia.
Qed.

(** The newest checkpoint is not among the oldest ones unless all are. *)
Lemma newest_kept m fs id t k :
  (id, t) ∈ listing m fs -> (forall id' t', (id', t') ∈ listing m fs -> id' <> id -> t' < t) ->
  (k < length (listing m fs))%nat -> id ∉ take k (listCheckpoints m fs).
Proof.
  intros Hin Hnew Hk Hid. unfold listCheckpoints in Hid. rewrite <- fmap_take in Hid.
  apply list_elem_of_fmap in Hid as ([id1 t1] & -> & Ht). cbn [fst] in *.
  destruct (drop k (listing m fs)) as [|[id2 t2] rest] eqn:Hd.
  { apply (f_equal length) in Hd. rewrite length_drop in Hd. cbn in Hd. lia. }
  assert (H2 : (id2, t2) ∈ drop k (listing m fs)) by (rewrite Hd; left).
  pose proof (checkpoints_sorted m fs) as Hs. pose proof (listCheckpoints_NoDup m fs) as Hnd. unfold listCheckpoints in Hnd.
  rewrite <- (take_drop k (listing m fs)) in Hs, Hnd, Hin, Hnew. apply StronglySorted_app in Hs as (Hall & _ & _).
  specialize (Hall _ _ Ht H2). unfold older in Hall. cbn [snd] in Hall.
  rewrite fmap_app in Hnd. apply NoDup_app in Hnd as (Hnd1 & Hdisj & _).
  assert (Hne : id2 <> id1).
  { intros ->. apply (Hdisj id1); apply list_elem_of_fmap; [by exists (id1, t1)|by exists (id1, t2)]. }
  assert (Hlt : t2 < t) by (apply (Hnew id2); [apply elem_of_app; by right|done]).
  assert (t1 = t); [|lia]. apply elem_of_app in Hin as [Hin|Hin].
  - destruct (decide (t1 = t)) as [|Hneq]; [done|]. exfalso.
    apply list_elem_of_lookup in Ht as (i & Hi), Hin as (j & Hj).
    assert (i = j) as ->; [|congruence].
    apply (NoDup_lookup (fst <$> take k (listing m fs)) i j id1); [done|by rewrite list_lookup_fmap, Hi|by rewrite list_lookup_fmap, Hj].
  - exfalso. apply (Hdisj id1); apply list_elem_of_fmap; [by exists (id1, t1)|by exists (id1, t)].
Qed.

(** C35: a checkpoint that is saved under its own path, with max_checkpoints
    positive, when every other file is older, the system lets files be removed
    and takes the whole text, is loaded again: as it was, but for its time, which
    is in whole seconds and shifted by the offset of the local zone, and for
    numbers that are not finite, which are null.  The directory then holds at
    most max_checkpoints checkpoints, each at least as recent as every one that
    was removed. *)
Theorem saved_checkpoint_is_restored offset dumpable writable removable now len c m fs fs' :
  (forall q, removable q = true) -> well_formed c -> file_path c = getCheckpointPath (checkpoint_id c) m ->
  (0 < max_checkpoints_ m)%nat -> (forall p f, fs !! p = Some f -> p <> file_path c -> mtime f < now) ->
  saveCheckpoint dumpable writable removable Complete now len c m fs = (true, fs') ->
  loadCheckpoint offset (checkpoint_id c) m fs' = Some (Ok (restored offset c)) /\
  (length (listCheckpoints m fs') <= max_checkpoints_ m)%nat /\
  (forall id t p f, (id, t) ∈ listing m fs' -> fs !! p = Some f -> p <> file_path c -> fs' !! p = None -> mtime f <= t).
Proof.
  intros Hrem Hwf Hpath Hmax Hold Hsave. apply save_files in Hsave. cbv zeta in Hsave.
  set (fs1 := <[file_path c := mkCFile true (file_text Complete (to_json c)) len now]> fs) in *.
  set (k := (length (listCheckpoints m fs1) - max_checkpoints_ m)%nat) in *.
  assert (Hlen : length (listCheckpoints m fs1) = length (listing m fs1)) by apply length_fmap.
  pose proof (checkpoints_without removable k m fs1 Hrem) as Hperm. rewrite <- Hsave in Hperm.
  assert (Hnew : (checkpoint_id c, now) ∈ listing m fs1).
  { apply elem_of_listing. rewrite <- Hpath. exists (mkCFile true (file_text Complete (to_json c)) len now).
    unfold fs1. rewrite lookup_insert_eq. split_and!; try done. apply Hwf. }
  assert (Hkeep : checkpoint_id c ∉ take k (listCheckpoints m fs1)).
  { apply (newest_kept m fs1 _ now); [done| |].
    - intros id' t' (f & Hf & _ & <- & _)%elem_of_listing Hne. unfold fs1 in Hf. rewrite lookup_insert_ne in Hf.
      + apply (Hold (getCheckpointPath id' m) f Hf). rewrite Hpath. intros Heq%path_inj. congruence.
      + rewrite Hpath. intros Heq%path_inj. congruence.
    - apply list_elem_of_lookup in Hnew as (i & Hi). apply lookup_lt_Some in Hi. unfold k. lia. }
  assert (Hlook : forall p, fs' !! p = if bool_decide (p ∈ (λ id, getCheckpointPath id m) <$> take k (listCheckpoints m fs1))
                                       then None else fs1 !! p) by (intros p; rewrite Hsave; by apply delete_all_lookup).
  split_and!.
  - unfold loadCheckpoint. rewrite <- Hpath, Hlook, bool_decide_false.
    + unfold fs1. rewrite lookup_insert_eq. cbn [content]. by apply from_to_json.
    + intros (id' & Heq & Hin)%list_elem_of_fmap. rewrite Hpath in Heq. apply path_inj in Heq. congruence.
  - unfold listCheckpoints at 1. rewrite length_fmap, Hperm, length_drop, <- Hlen. unfold k. lia.
  - intros id t p f Hin Hf Hp Hgone. rewrite Hlook in Hgone.
    case_bool_decide as Hdel; [|unfold fs1 in Hgone; rewrite lookup_insert_ne in Hgone; congruence].
    apply list_elem_of_fmap in Hdel as (id' & -> & Hdel). unfold listCheckpoints in Hdel. rewrite <- fmap_take in Hdel.
    apply list_elem_of_fmap in Hdel as ([id1 t1] & -> & Hdel). cbn [fst] in *.
    assert (Hin1 : (id1, t1) ∈ listing m fs1) by (rewrite <- (take_drop k (listing m fs1)); apply elem_of_app; by left).
    apply elem_of_listing in Hin1 as (f1 & Hf1 & _ & <- & _). unfold fs1 in Hf1. rewrite lookup_insert_ne in Hf1 by congruence.
    assert (f1 = f) as -> by congruence. rewrite Hperm in Hin.
    pose proof (checkpoints_sorted m fs1) as Hs. rewrite <- (take_drop k (listing m fs1)) in Hs.
    apply StronglySorted_app in Hs as (Hall & _ & _). exact (Hall _ _ Hdel Hin).
Qed.

(** ** Cleaning up *)

Section Cleanup.
Context (offset : Z) (removable : Path -> bool) (now hours : Z) (m : StateCheckpointManager) (fs0 : Files).
Hypothesis Hrem : forall q, removable q = true.
Hypothesis Hhours : 0 <= hours < 2562047.
Hypothesis Hload : forall id, loadCheckpoint offset id m fs0 <> None.

(** A checkpoint that can be read and is older than the limit. *)
Definition expired (id : string) : bool :=
  match loadCheckpoint offset id m fs0 with
  | Some (Ok c) => hours * 3600 * 1000000000 <? now - timestamp c
  | _ => false
  end.

Lemma load_same id fs : fs !! getCheckpointPath id m = fs0 !! getCheckpointPath id m ->
  loadCheckpoint offset id m fs = loadCheckpoint offset id m fs0.
Proof. unfold loadCheckpoint. by intros ->. Qed.

Lemma cleanup_loop ids : forall n fs,
  NoDup ids -> (forall id, id ∈ ids -> fs !! getCheckpointPath id m = fs0 !! getCheckpointPath id m) ->
  (forall id, id ∈ ids -> is_Some (fs0 !! getCheckpointPath id m)) ->
  cleanup offset removable now hours ids n m fs =
  Some ((n + count expired ids)%nat, delete_all removable (filter (λ id, expired id = true) ids) m fs).
Proof.
  induction ids as [|id ids IH]; intros n fs Hnd Hsame Hex; [cbn; by rewrite Nat.add_0_r|].
  apply NoDup_cons in Hnd as [Hid Hnd]. cbn [cleanup]. rewrite load_same by (apply Hsame; by left).
  rewrite count_cons, filter_bool_cons. specialize (Hload id).
  assert (Hexp : expired id = match loadCheckpoint offset id m fs0 with
                              | Some (Ok c) => hours * 3600 * 1000000000 <? now - timestamp c | _ => false end) by done.
  destruct (loadCheckpoint offset id m fs0) as [[c|e]|]; [| |done]; cbn [mbind option_bind].
  2:{ rewrite Hexp, IH; [done|done|intros; apply Hsame; by right|intros; apply Hex; by right]. }
  unfold older_than. rewrite (proj2 (Z.leb_le _ _)), (proj2 (Z.ltb_lt _ _)) by lia. cbn [andb mbind option_bind].
  rewrite <- Hexp. destruct (expired id) eqn:He.
  2:{ rewrite IH; [done|done|intros; apply Hsame; by right|intros; apply Hex; by right]. }
  assert (Hdel : deleteCheckpoint removable id m fs = (true, delete (getCheckpointPath id m) fs)).
  { unfold deleteCheckpoint. rewrite (Hsame id) by (by left). destruct (Hex id) as [f Hf]; [by left|]. by rewrite Hf, Hrem. }
  rewrite Hdel, IH; [|done| |intros; apply Hex; by right].
  - unfold delete_all. cbn [foldl]. rewrite Hdel. f_equal. f_equal. lia.
  - intros id' Hid'. rewrite lookup_delete_ne; [apply Hsame; by right|]. intros Heq%path_inj. congruence.
Qed.

(** [cleanupExpiredCheckpoints] removes exactly the checkpoints that can be
    read and are older than the limit, and counts them; all other files stay. *)
Theorem cleanup_removes_exactly_the_expired :
  exists fs', cleanupExpiredCheckpoints offset removable now hours m fs0 =
    Some (count expired (listCheckpoints m fs0), fs') /\
  forall p, fs' !! p = if bool_decide (p ∈ (λ id, getCheckpointPath id m) <$> filter (λ id, expired id = true) (listCheckpoints m fs0))
                       then None else fs0 !! p.
Proof.
  unfold cleanupExpiredCheckpoints. rewrite cleanup_loop; [|apply listCheckpoints_NoDup|done|].
  - eexists. split; [reflexivity|]. intros p. by apply delete_all_lookup.
  - intros id Hid. apply list_elem_of_fmap in Hid as ([id' t] & -> & (f & Hf & _)%elem_of_listing). by exists f.
Qed.
End Cleanup.

(** ** Identifiers *)

Lemma id_chars_length ds : forall i,
  length (id_chars i ds) = (length ds + count (λ k, bool_decide (k ∈ [8; 12; 16; 20]%nat)) (seq i (length ds)))%nat.
Proof.
  induction ds as [|d ds IH]; intros i; [done|]. cbn [id_chars length seq]. rewrite count_cons, length_app. cbn [length].
  rewrite IH. destruct (bool_decide (i ∈ [8; 12; 16; 20]%nat)); cbn [length]; lia.
Qed.

(** A generated identifier has the 36 characters of a UUID of version 4. *)
Theorem generated_id_is_a_uuid draws :
  (32 <= length draws)%nat -> Forall (λ d, 0 <= d < 16) draws ->
  let id := to_chars (generateCheckpointId draws) in
  length id = 36%nat /\ id !! 14%nat = Some "4"%char /\
  (forall i, i ∈ [8; 13; 18; 23]%nat -> id !! i = Some "-"%char) /\
  exists v, id !! 19%nat = Some v /\ v ∈ ["8"; "9"; "a"; "b"]%char.
Proof.
  intros Hlen Hd id. subst id. unfold generateCheckpointId. rewrite to_of_chars.
  assert (Hl : length (take 32 draws) = 32%nat) by (rewrite length_take; lia).
  assert (Hf : Forall (λ d, 0 <= d < 16) (take 32 draws)) by (by apply Forall_take).
  rewrite id_chars_length, Hl. split; [reflexivity|]. clear Hlen Hd. revert Hl Hf. generalize (take 32 draws). intros l Hl Hf.
  do 32 (destruct l as [|? l]; [done|]). destruct l; [|done]. split; [reflexivity|]. split.
  - intros i Hi. repeat (apply elem_of_cons in Hi as [->|Hi]; [reflexivity|]). by apply elem_of_nil in Hi.
  - eexists. split; [reflexivity|]. do 16 apply Forall_cons in Hf as [_ Hf]. apply Forall_cons in Hf as [Hf _].
    match type of Hf with 0 <= ?d < 16 => assert (Hc : Z.lor (Z.land d 3) 8 ∈ [8; 9; 10; 11]) end.
    { match type of Hf with 0 <= ?d < 16 => assert (Hin : d ∈ [0;1;2;3;4;5;6;7;8;9;10;11;12;13;14;15]) by (rewrite !elem_of_cons; lia) end.
      clear -Hin. repeat (apply elem_of_cons in Hin as [->|Hin]; [vm_compute; set_solver|]). by apply elem_of_nil in Hin. }
    set (w := Z.lor _ 8) in *. clearbody w. clear -Hc.
    repeat (apply elem_of_cons in Hc as [->|Hc]; [vm_compute; set_solver|]). by apply elem_of_nil in Hc.
Qed.

(** ** Deviations *)

Definition sample (id : string) (t : Z) : StateCheckpoint :=
  mkCheckpoint id "rt" t (JObject [("task", JString "lift")]) JNull ["e1"; "e2"] 0 true ("d", id +:+ ".json").

Definition all_yes {A} (x : A) : bool := true.

(** Half an hour old by the clock, a checkpoint is nine and a half hours old
    once it has been read in a zone nine hours east of Greenwich. *)
Theorem zone_ages_checkpoints :
  let m := mkManager "rt" "d" 10 24 in
  let t := 1735689600 * 1000000000 in
  let fs := snd (saveCheckpoint all_yes all_yes all_yes Complete t 100 (sample "a" t) m ∅) in
  let now := t + 1800 * 1000000000 in
  fst <$> cleanupExpiredCheckpoints 0 all_yes now 1 m fs = Some 0%nat /\
  fst <$> cleanupExpiredCheckpoints 32400 all_yes now 1 m fs = Some 1%nat.
Proof. cbv zeta. split; by_compute. Qed.

(** The checkpoints of all processes share a directory, and saving one of a
    process removes the oldest of any. *)
Theorem saving_removes_those_of_others :
  let other := mkManager "nonrt" "d" 1 24 in
  let m := mkManager "rt" "d" 1 24 in
  let fs := snd (saveCheckpoint all_yes all_yes all_yes Complete 1 100 (sample "a" 1) other ∅) in
  listCheckpoints other fs = ["a"] /\
  listCheckpoints other (snd (saveCheckpoint all_yes all_yes all_yes Complete 2 100 (sample "b" 2) m fs)) = ["b"].
Proof. cbv zeta. split; by_compute. Qed.

(** A value that cannot be printed leaves an empty file, which is listed as a
    checkpoint and never expires. *)
Theorem failed_save_leaves_a_file :
  let m := mkManager "rt" "d" 10 24 in
  let '(ok, fs) := saveCheckpoint (λ _, false) all_yes all_yes Complete 1 100 (sample "a" 1) m ∅ in
  ok = false /\ listCheckpoints m fs = ["a"] /\
  fst <$> cleanupExpiredCheckpoints 0 all_yes (2 ^ 60) 24 m fs = Some 0%nat.
Proof. cbv [saveCheckpoint negb]. split_and!; by_compute. Qed.

(** A text that the disk does not take whole is reported as saved, and the good
    checkpoint before it is removed. *)
Theorem truncated_save_loses_the_good_checkpoint :
  let m := mkManager "rt" "d" 1 24 in
  let fs := snd (saveCheckpoint all_yes all_yes all_yes Complete 1 100 (sample "a" 1) m ∅) in
  let '(ok, fs') := saveCheckpoint all_yes all_yes all_yes (Cut JNull) 2 10 (sample "b" 2) m fs in
  ok = true /\ loadCheckpoint 0 "a" m fs = Some (Ok (restored 0 (sample "a" 1))) /\
  listCheckpoints m fs' = ["b"] /\ loadCheckpoint 0 "b" m fs' = Some (Throw "parse error").
Proof. cbv zeta. vm_compute. done. Qed.

(** The size that a checkpoint records is not compared with its file's. *)
Theorem verify_ignores_the_size m fs id len len' j mt :
  fs !! getCheckpointPath id m = Some (mkCFile true (Parsed j) len mt) ->
  verifyCheckpoint id m (<[getCheckpointPath id m := mkCFile true (Parsed j) len' mt]> fs) = verifyCheckpoint id m fs.
Proof. intros Hf. unfold verifyCheckpoint. by rewrite lookup_insert_eq, Hf. Qed.

(** ** Instances *)

Lemma saved_checkpoint_is_restored_witness :
  let m := mkManager "rt" "d" 2 24 in
  let c := sample "new" (1735689600 * 1000000000 + 5) in
  let fs : Files := <[("d", "a.json") := mkCFile true Unreadable 1 1]> (<[("d", "b.json") := mkCFile true Unreadable 1 2]> ∅) in
  let fs' := snd (saveCheckpoint all_yes all_yes all_yes Complete 10 100 c m fs) in
  (loadCheckpoint 3600 "new" m fs' = Some (Ok (restored 3600 c)) /\ (length (listCheckpoints m fs') <= 2)%nat /\
   (forall id t p f, (id, t) ∈ listing m fs' -> fs !! p = Some f -> p <> file_path c -> fs' !! p = None -> mtime f <= t)) /\
  fs' !! ("d", "a.json") = None.
Proof.
  intros m c fs fs'. split; [|by_compute].
  apply (saved_checkpoint_is_restored 3600 all_yes all_yes all_yes 10 100 c m fs fs');
    [done|split; [vm_compute; split; discriminate|cbn; lia|done]|reflexivity|cbn; lia| |].
  - intros p f Hf _. unfold fs in Hf. apply lookup_insert_Some in Hf as [[_ <-]|[_ Hf]]; [cbn; lia|].
    apply lookup_insert_Some in Hf as [[_ <-]|[_ Hf]]; [cbn; lia|]. by rewrite lookup_empty in Hf.
  - unfold fs'. apply injective_projections; [by_compute|reflexivity].
Defined.
