(* ===== verification/ProcessMonitor.v ===== *)
(** * ProcessMonitor (src/core/ha/ProcessMonitor, src/core/ha/HealthCheck.h)

    The monitor of a process: its owner starts and stops it, its thread takes
    the metrics over and checks the health, and any number of other threads
    report metrics, heartbeats and errors.  The threads interleave; what one of
    them does under the status mutex is seen by the others at once.  Failures
    are handed to the [Failover] manager.  Doubles are bit patterns; the clocks
    are nanoseconds. *)

From S2P Require Import Prelude Ieee754 Failover.
#[local] Open Scope Z_scope.

(** ** Data *)

Inductive HealthStatus := HEALTHY | DEGRADED | UNHEALTHY | STARTING | STOPPING | STOPPED.

#[export] Instance HealthStatus_eq_dec : EqDecision HealthStatus.
Proof. solve_decision. Defined.

Definition healthStatusToString (s : HealthStatus) : string :=
  match s with
  | HEALTHY => "HEALTHY" | DEGRADED => "DEGRADED" | UNHEALTHY => "UNHEALTHY"
  | STARTING => "STARTING" | STOPPING => "STOPPING" | STOPPED => "STOPPED"
  end.

Record ProcessHealthStatus := mkHealth {
  process_name : string;
  pid : Z;
  status : HealthStatus;
  last_heartbeat : Z;
  response_time_ms : Z;
  cpu_usage_percent : Z;
  memory_usage_mb : Z;
  deadline_miss_count : Z;
  error_message : string;
  restart_count : Z
}.

Record ProcessMonitorConfig := mkMonitorConfig {
  c_process_name : string;
  health_check_interval_ms : Z;
  health_check_timeout_ms : Z;
  cpu_threshold_percent : Z;
  memory_threshold_mb : Z;
  deadline_miss_threshold : Z;
  enable_systemd_watchdog : bool
}.

Definition newMonitorConfig : ProcessMonitorConfig := mkMonitorConfig "" 1000 500 90 2048 100 false.

Record ProcessMonitor := mkMonitor {
  config_ : ProcessMonitorConfig;
  failover_manager_ : option FailoverManager;
  current_status_ : ProcessHealthStatus;
  running_ : bool;
  current_cpu_usage_ : Z;
  current_memory_usage_ : Z;
  current_deadline_misses_ : Z;
  consecutive_failures_ : Z;
  last_health_check_ : Z
}.

Definition newProcessMonitor (c : ProcessMonitorConfig) (f : option FailoverManager) (p now1 now2 : Z) : ProcessMonitor :=
  mkMonitor c f (mkHealth (c_process_name c) p STOPPED now1 0 0 0 0 "" 0) false 0 0 0 0 now2.

Section Setters.
Implicit Types (h : ProcessHealthStatus) (m : ProcessMonitor).
Definition set_status v h := mkHealth (process_name h) (pid h) v (last_heartbeat h) (response_time_ms h)
  (cpu_usage_percent h) (memory_usage_mb h) (deadline_miss_count h) (error_message h) (restart_count h).
Definition set_heartbeat v h := mkHealth (process_name h) (pid h) (status h) v (response_time_ms h)
  (cpu_usage_percent h) (memory_usage_mb h) (deadline_miss_count h) (error_message h) (restart_count h).
Definition set_response v h := mkHealth (process_name h) (pid h) (status h) (last_heartbeat h) v
  (cpu_usage_percent h) (memory_usage_mb h) (deadline_miss_count h) (error_message h) (restart_count h).
Definition set_cpu v h := mkHealth (process_name h) (pid h) (status h) (last_heartbeat h) (response_time_ms h)
  v (memory_usage_mb h) (deadline_miss_count h) (error_message h) (restart_count h).
Definition set_memory v h := mkHealth (process_name h) (pid h) (status h) (last_heartbeat h) (response_time_ms h)
  (cpu_usage_percent h) v (deadline_miss_count h) (error_message h) (restart_count h).
Definition set_misses v h := mkHealth (process_name h) (pid h) (status h) (last_heartbeat h) (response_time_ms h)
  (cpu_usage_percent h) (memory_usage_mb h) v (error_message h) (restart_count h).
Definition set_message v h := mkHealth (process_name h) (pid h) (status h) (last_heartbeat h) (response_time_ms h)
  (cpu_usage_percent h) (memory_usage_mb h) (deadline_miss_count h) v (restart_count h).

Definition on_status (f : ProcessHealthStatus -> ProcessHealthStatus) m :=
  mkMonitor (config_ m) (failover_manager_ m) (f (current_status_ m)) (running_ m) (current_cpu_usage_ m)
    (current_memory_usage_ m) (current_deadline_misses_ m) (consecutive_failures_ m) (last_health_check_ m).
Definition set_running b m :=
  mkMonitor (config_ m) (failover_manager_ m) (current_status_ m) b (current_cpu_usage_ m)
    (current_memory_usage_ m) (current_deadline_misses_ m) (consecutive_failures_ m) (last_health_check_ m).
Definition set_metrics cpu mem miss m :=
  mkMonitor (config_ m) (failover_manager_ m) (current_status_ m) (running_ m) cpu mem miss
    (consecutive_failures_ m) (last_health_check_ m).
Definition set_failures n f m :=
  mkMonitor (config_ m) f (current_status_ m) (running_ m) (current_cpu_usage_ m)
    (current_memory_usage_ m) (current_deadline_misses_ m) n (last_health_check_ m).
Definition set_checked now m :=
  mkMonitor (config_ m) (failover_manager_ m) (current_status_ m) (running_ m) (current_cpu_usage_ m)
    (current_memory_usage_ m) (current_deadline_misses_ m) (consecutive_failures_ m) now.
End Setters.

(** ** The IHealthCheck interface *)

Definition getHealthStatus (m : ProcessMonitor) : ProcessHealthStatus := current_status_ m.
Definition isHealthy (m : ProcessMonitor) : bool := bool_decide (status (current_status_ m) = HEALTHY).
Definition isReady (m : ProcessMonitor) : bool :=
  bool_decide (status (current_status_ m) = HEALTHY) || bool_decide (status (current_status_ m) = DEGRADED).
Definition isAlive (m : ProcessMonitor) : bool :=
  negb (bool_decide (status (current_status_ m) = STOPPED)) && negb (bool_decide (status (current_status_ m) = STOPPING)).

Definition recordHeartbeat (now : Z) (m : ProcessMonitor) : ProcessMonitor :=
  let m := on_status (set_heartbeat now) m in
  if bool_decide (status (current_status_ m) = STARTING) then on_status (set_status HEALTHY) m else m.

Definition setError (msg : string) (m : ProcessMonitor) : ProcessMonitor :=
  on_status (set_status UNHEALTHY) (on_status (set_message msg) m).

(** The three stores of [updateStatus], which takes no lock. *)
Definition store_cpu (v : Z) (m : ProcessMonitor) := set_metrics v (current_memory_usage_ m) (current_deadline_misses_ m) m.
Definition store_memory (v : Z) (m : ProcessMonitor) := set_metrics (current_cpu_usage_ m) v (current_deadline_misses_ m) m.
Definition store_misses (v : Z) (m : ProcessMonitor) := set_metrics (current_cpu_usage_ m) (current_memory_usage_ m) v m.
Definition updateStatus (cpu mem miss : Z) (m : ProcessMonitor) : ProcessMonitor :=
  store_misses miss (store_memory mem (store_cpu cpu m)).

(** ** What the monitor's thread does *)

Definition determineHealthStatus (c : ProcessMonitorConfig) (h : ProcessHealthStatus) : HealthStatus :=
  if bool_decide (status h = STARTING) || bool_decide (status h = STOPPING) || bool_decide (status h = STOPPED)
  then status h
  else if negb (String.eqb (error_message h) "") then UNHEALTHY
  else
    let cpu_high := double_lt (double_of_int (cpu_threshold_percent c)) (cpu_usage_percent h) in
    let memory_high := memory_threshold_mb c <? memory_usage_mb h in
    let deadline_misses_high := deadline_miss_threshold c <? deadline_miss_count h in
    if cpu_high || memory_high || deadline_misses_high then DEGRADED else HEALTHY.

(** The whole of [updateHealthStatus] when no metric is stored meanwhile. *)
Definition updateHealthStatus (now : Z) (m : ProcessMonitor) : ProcessMonitor :=
  let m := on_status (set_cpu (current_cpu_usage_ m)) m in
  let m := on_status (set_memory (current_memory_usage_ m)) m in
  let m := on_status (set_misses (current_deadline_misses_ m)) m in
  let m := on_status (set_heartbeat now) m in
  on_status (λ h, set_status (determineHealthStatus (config_ m) h) h) m.

(** A duration of the steady clock in milliseconds. *)
Definition milliseconds (start finish : Z) : Z := double_div (double_of_i64 (finish - start)) (double_of_int 1000000).

(** [performHealthCheck] after [running_] has been read. *)
Definition finish_check (alive : bool) (rt now : Z) (m : ProcessMonitor) : bool * ProcessMonitor :=
  let m := on_status (set_response rt) m in
  if double_lt (double_of_int (health_check_timeout_ms (config_ m))) rt then (false, m)
  else (alive, set_checked now m).

(** After a check: the counter and the failover manager; whether it was called
    and whether it restarted the process. *)
Definition after_check (passed : bool) (now1 now2 : Z) (m : ProcessMonitor) : (bool * bool) * ProcessMonitor :=
  if passed then ((false, false), set_failures 0 (failover_manager_ m) m)
  else
    let n := u32 (consecutive_failures_ m + 1) in
    match failover_manager_ m with
    | None => ((false, false), set_failures n None m)
    | Some f =>
      if failure_threshold (policy_ f) <=? n then
        let '(restarted, f) := handleProcessFailure now1 now2 (c_process_name (config_ m)) f in
        ((true, restarted), set_failures n (Some f) m)
      else ((false, false), set_failures n (Some f) m)
    end.

(** ** The threads *)

(** Where the monitor's thread is.  Between [T_Cpu] and [T_Set] it holds the
    mutex. *)
Inductive Thread :=
| T_None | T_While | T_Lock | T_Cpu | T_Mem | T_Miss | T_Set | T_Check
| T_Response (alive : bool) (rt : Z) | T_Verdict (passed : bool) | T_Notify (passed : bool) | T_Ended.

(** Where the owner is in [start] or [stop]. *)
Inductive Owner := O_Idle | O_Starting | O_Run | O_Stopping | O_Join | O_Stopped.

Inductive Entry :=
| Checked (passed triggered restarted : bool) (ws now : Z)
| Ready
| Watchdog.

Record System := mkSystem { monitor : ProcessMonitor; thread : Thread; owner : Owner; log : list Entry }.

Definition holds_mutex (t : Thread) : bool :=
  match t with T_Cpu | T_Mem | T_Miss | T_Set => true | _ => false end.

(** Readings of the clocks during a step. *)
Record Clocks := mkClocks { sys_now : Z; check_start : Z; check_end : Z; fo_now1 : Z; fo_now2 : Z }.

Inductive Event :=
| OStart (watchdog : Z)          (* start() is called; what sd_watchdog_enabled answers *)
| OStop                          (* stop() is called *)
| OStep                          (* the owner goes on *)
| TStep (c : Clocks)             (* the monitor's thread goes on *)
| EHeartbeat (now : Z)
| EError (msg : string)
| ECpu (v : Z) | EMemory (v : Z) | EMisses (v : Z).

Section Steps.
(** HAS_SYSTEMD *)
Variable has_systemd : bool.

Definition setupSystemdWatchdog (enabled : Z) : bool * list Entry :=
  if negb has_systemd then (false, [])
  else if enabled <? 0 then (false, [])
  else if enabled =? 0 then (false, [])
  else (true, [Ready]).

Definition notifySystemdWatchdog : list Entry := if has_systemd then [Watchdog] else [].

(** The window that a restart is counted in. *)
Definition window_of (m : ProcessMonitor) : Z :=
  match failover_manager_ m with Some f => window_start (tracked f) | None => 0 end.

Definition owner_step (s : System) : option System :=
  let 'mkSystem m t o l := s in
  match o with
  | O_Idle => None
  | O_Starting => if holds_mutex t then None else Some (mkSystem (on_status (set_status STARTING) m) t O_Run l)
  | O_Run => Some (mkSystem (set_running true m) T_While O_Idle l)
  | O_Stopping => if holds_mutex t then None else Some (mkSystem (on_status (set_status STOPPING) m) t O_Join l)
  | O_Join => match t with
              | T_None | T_Ended => Some (mkSystem m T_None O_Stopped l)
              | _ => None
              end
  | O_Stopped => if holds_mutex t then None else Some (mkSystem (on_status (set_status STOPPED) m) t O_Idle l)
  end.

Definition start (watchdog : Z) (s : System) : option System :=
  let 'mkSystem m t o l := s in
  match o with
  | O_Idle =>
    if running_ m then Some s
    else
      let l := if enable_systemd_watchdog (config_ m) then l ++ snd (setupSystemdWatchdog watchdog) else l in
      Some (mkSystem m t O_Starting l)
  | _ => None
  end.

Definition stop (s : System) : option System :=
  let 'mkSystem m t o l := s in
  match o with
  | O_Idle => if negb (running_ m) then Some s else Some (mkSystem (set_running false m) t O_Stopping l)
  | _ => None
  end.

(** One step of [monitorLoop]. *)
Definition thread_step (c : Clocks) (s : System) : option System :=
  let 'mkSystem m t o l := s in
  match t with
  | T_None | T_Ended => None
  | T_While => Some (mkSystem m (if running_ m then T_Lock else T_Ended) o l)
  | T_Lock => Some (mkSystem m T_Cpu o l)
  | T_Cpu => Some (mkSystem (on_status (set_cpu (current_cpu_usage_ m)) m) T_Mem o l)
  | T_Mem => Some (mkSystem (on_status (set_memory (current_memory_usage_ m)) m) T_Miss o l)
  | T_Miss => Some (mkSystem (on_status (set_misses (current_deadline_misses_ m)) m) T_Set o l)
  | T_Set =>
    let m := on_status (set_heartbeat (sys_now c)) m in
    let m := on_status (λ h, set_status (determineHealthStatus (config_ m) h) h) m in
    Some (mkSystem m T_Check o l)
  | T_Check => Some (mkSystem m (T_Response (running_ m) (milliseconds (check_start c) (check_end c))) o l)
  | T_Response alive rt =>
    let '(passed, m) := finish_check alive rt (sys_now c) m in
    Some (mkSystem m (T_Verdict passed) o l)
  | T_Verdict passed =>
    let '((triggered, restarted), m) := after_check passed (fo_now1 c) (fo_now2 c) m in
    Some (mkSystem m (T_Notify passed) o (l ++ [Checked passed triggered restarted (window_of m) (fo_now2 c)]))
  | T_Notify passed =>
    let l := if enable_systemd_watchdog (config_ m) && passed then l ++ notifySystemdWatchdog else l in
    Some (mkSystem m T_While o l)
  end.

Definition step (e : Event) (s : System) : option System :=
  let 'mkSystem m t o l := s in
  match e with
  | OStart w => start w s
  | OStop => stop s
  | OStep => owner_step s
  | TStep c => thread_step c s
  | EHeartbeat now => if holds_mutex t then None else Some (mkSystem (recordHeartbeat now m) t o l)
  | EError msg => if holds_mutex t then None else Some (mkSystem (setError msg m) t o l)
  | ECpu v => Some (mkSystem (store_cpu v m) t o l)
  | EMemory v => Some (mkSystem (store_memory v m) t o l)
  | EMisses v => Some (mkSystem (store_misses v m) t o l)
  end.

(** Events that cannot happen yet are skipped. *)
Fixpoint run (es : list Event) (s : System) : System :=
  match es with
  | [] => s
  | e :: es => run es (default s (step e s))
  end.
End Steps.

Definition initial (m : ProcessMonitor) : System := mkSystem m T_None O_Idle [].

(** ** Failover only after repeated failures, within the budget *)

(** The failed checks since the last one that passed. *)
Definition trailing (l : list Entry) : Z :=
  foldl (λ n e, match e with Checked true _ _ _ _ => 0 | Checked false _ _ _ _ => n + 1 | _ => n end) 0 l.

(** The restarts, each with its window. *)
Definition restarts (l : list Entry) : list (Z * Z) :=
  omap (λ e, match e with Checked _ _ true ws now => Some (ws, now) | _ => None end) l.

(** A check calls the failover manager exactly when it is a failure and the
    failures in a row have reached the threshold. *)
Definition justified (threshold : Z) (l : list Entry) : Prop :=
  forall l1 passed triggered restarted ws now l2,
    l = l1 ++ Checked passed triggered restarted ws now :: l2 ->
    triggered = negb passed && (threshold <=? u32 (trailing (l1 ++ [Checked passed triggered restarted ws now]))) /\
    (restarted = true -> triggered = true).

(** The clocks that the failover manager reads do not run backwards. *)
Fixpoint clocks_ok (t : Z) (es : list Event) : Prop :=
  match es with
  | [] => True
  | TStep c :: es => t <= fo_now1 c <= fo_now2 c /\ clocks_ok (fo_now2 c) es
  | _ :: es => clocks_ok t es
  end.

Record within_budget (t : Z) (p : FailoverPolicy) (f : FailoverManager) (rs : list (Z * Z)) : Prop := {
  wb_ok : budget_ok t f;
  wb_policy : policy_ f = p;
  wb_past : Forall (λ r, fst r <= window_start (tracked f) /\ True) rs;
  wb_current : Z.of_nat (in_window (window_start (tracked f)) rs) <= Failover.restart_count (tracked f);
  wb_max : forall ws, Z.of_nat (in_window ws rs) <= max_restart_count p
}.

(** [K]: the clock has not been set back. *)
Record monitor_ok (K : Prop) (t : Z) (p : FailoverPolicy) (s : System) : Prop := {
  mo_count : consecutive_failures_ (monitor s) = u32 (trailing (log s));
  mo_just : justified (failure_threshold p) (log s);
  mo_budget : exists f, failover_manager_ (monitor s) = Some f /\ policy_ f = p /\
                (K -> within_budget t p f (restarts (log s)))
}.

Lemma trailing_snoc l e :
  trailing (l ++ [e]) =
  match e with Checked true _ _ _ _ => 0 | Checked false _ _ _ _ => trailing l + 1 | _ => trailing l end.
Proof. unfold trailing. by rewrite foldl_app. Qed.

Lemma justified_snoc thr l e :
  justified thr l ->
  match e with
  | Checked passed triggered restarted ws now =>
    triggered = negb passed && (thr <=? u32 (trailing (l ++ [e]))) /\ (restarted = true -> triggered = true)
  | _ => True
  end -> justified thr (l ++ [e]).
Proof.
  intros Hl He l1 p tr r ws now l2 Heq. apply snoc_split in Heq as [(-> & -> & <-)|(l2' & -> & Heq)]; [done|].
  by apply (Hl l1 p tr r ws now l2').
Qed.

Lemma in_window_snoc ws rs r : in_window ws (rs ++ [r]) = (in_window ws rs + if (fst r =? ws)%Z then 1 else 0)%nat.
Proof. unfold in_window. by rewrite count_app, count_one. Qed.

Lemma in_window_past ws b rs : Forall (λ r, fst r <= b /\ True) rs -> b < ws -> in_window ws rs = 0%nat.
Proof.
  intros Hrs Hlt. unfold in_window, count. induction Hrs as [|r rs [Hr _] _ IH]; [done|].
  rewrite filter_cons_False; [done|]. rewrite Z.eqb_eq. lia.
Qed.

(** A failure that is handed on keeps the budget. *)
Lemma handle_within_budget t p f rs now1 now2 name :
  within_budget t p f rs -> t <= now1 <= now2 ->
  let '(restarted, f') := handleProcessFailure now1 now2 name f in
  within_budget now2 p f' (rs ++ if restarted then [(window_start (tracked f'), now2)] else []).
Proof.
  intros [Hok Hp Hpast Hcur Hmax] Ht. pose proof Hok as [Hm Hw Hc Hst].
  pose proof (handleProcessFailure_budget t now1 now2 name f Hok Ht) as H.
  destruct (handleProcessFailure _ _ _ _) as [restarted f'].
  destruct restarted; [|subst f'; rewrite app_nil_r; split; try done; apply (budget_later t); [lia|done]].
  destruct H as (Hok' & (Hp' & Hle & H) & Hlt). rewrite Hp in *.
  destruct H as [(Hws & Hrc)|(Hws & Hrc & Hexp)]; (split; [done|congruence|..]).
  - apply Forall_app. rewrite Forall_singleton. rewrite Hws. split; [done|]. cbn. lia.
  - rewrite in_window_snoc. cbn [fst]. rewrite Z.eqb_refl. rewrite Hws at 1. lia.
  - intros ws. rewrite in_window_snoc. cbn [fst]. specialize (Hmax ws). destruct (Z.eqb_spec (window_start (tracked f')) ws); [|lia].
    assert (Hin : in_window ws rs = in_window (window_start (tracked f)) rs) by congruence. specialize (Hlt Hws). lia.
  - apply Forall_app. rewrite Forall_singleton. split; [|cbn; lia]. eapply Forall_impl; [exact Hpast|]. cbn. lia.
  - rewrite in_window_snoc. cbn [fst]. rewrite Z.eqb_refl. rewrite (in_window_past _ _ rs Hpast) by lia. lia.
  - intros ws. rewrite in_window_snoc. cbn [fst]. specialize (Hmax ws). destruct (Z.eqb_spec (window_start (tracked f')) ws) as [<-|]; [|lia].
    rewrite (in_window_past _ _ rs Hpast) by lia. lia.
Qed.

(** A step that is not the verdict of a check leaves the counter and the
    manager alone, and adds no check to the log. *)
Definition is_check (e : Entry) : bool := match e with Checked _ _ _ _ _ => true | _ => false end.

Lemma quiet_entries thr l k :
  Forall (λ e, is_check e = false) k ->
  trailing (l ++ k) = trailing l /\ restarts (l ++ k) = restarts l /\ (justified thr l -> justified thr (l ++ k)).
Proof.
  induction k as [|e k IH] using rev_ind; [by rewrite app_nil_r|]. intros [Hk He]%Forall_app.
  rewrite Forall_singleton in He. destruct (IH Hk) as (H1 & H2 & H3). rewrite app_assoc, trailing_snoc.
  unfold restarts in *. rewrite omap_app, H2. destruct e; cbn in He; [discriminate He|..]; cbn;
    (split; [done|split; [by rewrite app_nil_r|]]; intros Hj; apply justified_snoc; [by apply H3|exact I]).
Qed.

Lemma quiet_step K t p m m' th th' o o' l k :
  monitor_ok K t p (mkSystem m th o l) -> Forall (λ e, is_check e = false) k ->
  consecutive_failures_ m' = consecutive_failures_ m -> failover_manager_ m' = failover_manager_ m ->
  monitor_ok K t p (mkSystem m' th' o' (l ++ k)).
Proof.
  intros [Hc Hj Hb] Hk Hm1 Hm2. cbn [monitor log] in *. destruct (quiet_entries (failure_threshold p) l k Hk) as (H1 & H2 & H3).
  split; cbn [monitor log]; [by rewrite H1, Hm1|by apply H3|by rewrite Hm2, H2].
Qed.

Lemma monitor_ok_later (K : Prop) t t' p s : (K -> t <= t') -> monitor_ok K t p s -> monitor_ok K t' p s.
Proof.
  intros Ht [Hc Hj (f & Hf & Hp & Hb)]. split; [done..|]. exists f. split_and!; [done..|]. intros k.
  destruct (Hb k) as [Hok _ Hpast Hcur Hmax]. split; try done. apply (budget_later t); auto.
Qed.

Lemma verdict_ok (K : Prop) t p m th o o' l passed now1 now2 b m' th' :
  monitor_ok K t p (mkSystem m th o l) -> (K -> t <= now1 <= now2) -> after_check passed now1 now2 m = (b, m') ->
  monitor_ok K now2 p (mkSystem m' th' o' (l ++ [Checked passed (fst b) (snd b) (window_of m') now2])).
Proof.
  intros Hok Ht. pose proof Hok as [Hc Hj (f & Hf & Hp & Hwb)]. cbn [monitor log] in *.
  pose proof (monitor_ok_later K t now2 p _ ltac:(intros k; specialize (Ht k); lia) Hok) as [_ _ (f' & Hf' & _ & Hwb')].
  cbn [monitor log] in *. rewrite Hf in Hf'. injection Hf' as <-.
  assert (Hrs : forall a r ws, restarts (l ++ [Checked passed a r ws now2]) = restarts l ++ if r then [(ws, now2)] else []).
  { intros a r ws. unfold restarts. rewrite omap_app. by destruct r. }
  unfold after_check. rewrite Hf, Hc, Hp, u32_succ. destruct passed.
  { intros [= <- <-]. cbn [fst snd]. split; cbn [monitor log].
    - by rewrite trailing_snoc.
    - apply justified_snoc; [done|]. by rewrite trailing_snoc.
    - exists f. rewrite Hrs, app_nil_r. done. }
  destruct (Z.leb_spec (failure_threshold p) (u32 (trailing l + 1))) as [Hle|Hgt].
  2:{ intros [= <- <-]. cbn [fst snd]. split; cbn [monitor log].
      - by rewrite trailing_snoc.
      - apply justified_snoc; [done|]. rewrite trailing_snoc. split; [|done]. cbn. by rewrite (proj2 (Z.leb_gt _ _)).
      - exists f. rewrite Hrs, app_nil_r. done. }
  pose proof (λ k, handle_within_budget t p f (restarts l) now1 now2 (c_process_name (config_ m)) (Hwb k) (Ht k)) as H.
  pose proof (handleProcessFailure_policy now1 now2 (c_process_name (config_ m)) f) as Hpol.
  destruct (handleProcessFailure _ _ _ _) as [restarted f'']. cbn [snd] in Hpol. intros [= <- <-]. cbn [fst snd]. split; cbn [monitor log].
  - by rewrite trailing_snoc.
  - apply justified_snoc; [done|]. rewrite trailing_snoc. split; [|done]. cbn. by rewrite (proj2 (Z.leb_le _ _)).
  - exists f''. split_and!; [done|congruence|]. by rewrite Hrs.
Qed.

Lemma step_monitor_ok hs (K : Prop) t p e s s' :
  monitor_ok K t p s -> (K -> clocks_ok t [e]) -> step hs e s = Some s' ->
  monitor_ok K (match e with TStep c => fo_now2 c | _ => t end) p s'.
Proof.
  destruct s as [m th o l]. intros Hok Ht Hs.
  assert (Hq : forall m' th' o', consecutive_failures_ m' = consecutive_failures_ m ->
    failover_manager_ m' = failover_manager_ m -> monitor_ok K t p (mkSystem m' th' o' l)).
  { intros m' th' o' H1 H2. rewrite <- (app_nil_r l). by eapply quiet_step. }
  destruct e as [w| | |c|now|msg|v|v|v]; cbn [step] in Hs.
  - unfold start in Hs. destruct o; try done. destruct (running_ m); simplify_eq; [done|].
    destruct (enable_systemd_watchdog _); [|by apply Hq]. eapply quiet_step; [exact Hok| |done|done].
    unfold setupSystemdWatchdog. repeat case_match; simpl; auto.
  - unfold stop in Hs. destruct o; try done. destruct (running_ m); cbn [negb] in Hs; simplify_eq; [|done]. by apply Hq.
  - unfold owner_step in Hs. destruct o; try done; repeat case_match; simplify_eq; by apply Hq.
  - assert (Ht' : K -> t <= fo_now1 c <= fo_now2 c) by (intros k; apply (Ht k)).
    assert (Hlate : K -> t <= fo_now2 c) by (intros k; specialize (Ht' k); lia).
    assert (Hl : forall m' th' o', consecutive_failures_ m' = consecutive_failures_ m ->
      failover_manager_ m' = failover_manager_ m -> monitor_ok K (fo_now2 c) p (mkSystem m' th' o' l)).
    { intros m' th' o' H1 H2. apply (monitor_ok_later K t); [done|]. by apply Hq. }
    destruct th; cbn [thread_step] in Hs; try done; try (simplify_eq; by apply Hl).
    + unfold finish_check in Hs. destruct (double_lt _ _); simplify_eq; by apply Hl.
    + destruct (after_check _ _ _ m) as [[tr rs] m'] eqn:Ha. simplify_eq.
      exact (verdict_ok K t p m _ o o l passed _ _ (tr, rs) m' _ Hok Ht' Ha).
    + simplify_eq. apply (monitor_ok_later K t); [done|]. case_match; [|by apply Hq].
      eapply quiet_step; [exact Hok| |done|done]. unfold notifySystemdWatchdog. case_match; auto.
  - case_match; simplify_eq. apply Hq; unfold recordHeartbeat; by case_match.
  - case_match; simplify_eq. by apply Hq.
  - simplify_eq. by apply Hq.
  - simplify_eq. by apply Hq.
  - simplify_eq. by apply Hq.
Qed.

Lemma run_monitor_ok hs (K : Prop) p es : forall t s,
  monitor_ok K t p s -> (K -> clocks_ok t es) -> exists t', monitor_ok K t' p (run hs es s).
Proof.
  induction es as [|e es IH]; intros t s Hok Ht; [by exists t|]. cbn [run].
  assert (H : (K -> clocks_ok t [e]) /\ (K -> clocks_ok (match e with TStep c => fo_now2 c | _ => t end) es))
    by (destruct e; cbn in *; tauto).
  destruct H as [Ht1 Ht2]. eapply IH; [|exact Ht2]. destruct (step hs e s) as [s'|] eqn:Hs; cbn [default id].
  - by eapply step_monitor_ok.
  - eapply monitor_ok_later; [|exact Hok]. intros k. specialize (Ht1 k). destruct e; cbn in Ht1; lia.
Qed.

(** C24: the monitor under every interleaving of its owner, its thread and the
    threads that report metrics, heartbeats and errors, with a failover manager
    of its own.  Whatever the clocks do, a check hands a failure to the manager
    exactly when it failed and the failed checks in a row have reached the
    manager's threshold, and a restart follows only then.  While the system
    clock that the manager reads is not set back, no restart window counts more
    restarts than the policy allows. *)
Theorem monitor_failover_is_justified hs c p f es pid now1 now2 :
  newFailoverManager p = Ok f -> 0 <= max_restart_count p < 2 ^ 32 -> 0 <= restart_window_sec p ->
  let s := run hs es (initial (newProcessMonitor c (Some (snd (Failover.start f))) pid now1 now2)) in
  justified (failure_threshold p) (log s) /\
  (clocks_ok 0 es -> forall ws, Z.of_nat (in_window ws (restarts (log s))) <= max_restart_count p).
Proof.
  intros Hnew Hmax Hw s. destruct (new_budget p f Hnew Hmax Hw) as [-> Hb]. cbn [Failover.start fo_running_ snd] in s.
  assert (Hok : monitor_ok (clocks_ok 0 es) 0 p (initial (newProcessMonitor c (Some (mkFailover p ∅ true)) pid now1 now2))).
  { split; [done| |].
    - intros l1 a b r ws n l2 Heq. by destruct l1.
    - exists (mkFailover p ∅ true). split_and!; [done..|]. intros _. split; cbn; try done; lia. }
  destruct (run_monitor_ok hs _ p es 0 _ Hok ltac:(done)) as (t' & [_ Hj (f & _ & _ & Hwb)]).
  split; [exact Hj|]. intros k. apply (Hwb k).
Qed.

(** ** Stopping *)

Definition rank (t : Thread) : nat :=
  match t with
  | T_None | T_Ended => 0 | T_While => 1 | T_Notify _ => 2 | T_Verdict _ => 3 | T_Response _ _ => 4 | T_Check => 5
  | T_Set => 6 | T_Miss => 7 | T_Mem => 8 | T_Cpu => 9 | T_Lock => 10
  end.

Definition is_tstep (e : Event) : bool := match e with TStep _ => true | _ => false end.
Definition is_call (e : Event) : bool := match e with OStart _ | OStop => true | _ => false end.

(** The owner is in [stop] or has left it. *)
Definition stopping (s : System) : Prop :=
  running_ (monitor s) = false /\
  (owner s = O_Idle /\ thread s = T_None \/ owner s = O_Stopping \/ owner s = O_Join \/
   owner s = O_Stopped /\ thread s = T_None).

Lemma stopping_step hs e s s' :
  stopping s -> is_call e = false -> step hs e s = Some s' ->
  stopping s' /\ (if is_tstep e then rank (thread s') < rank (thread s) else rank (thread s') <= rank (thread s))%nat.
Proof.
  destruct s as [m th o l]. intros [Hr Ho] He Hs. unfold stopping in *. cbn [monitor thread owner] in *.
  destruct e as [w| | |c|now|msg|v|v|v]; cbn [step] in Hs; try done.
  - destruct Ho as [[-> ->]|[->|[->|[-> ->]]]]; cbn [owner_step holds_mutex] in Hs; try done;
      repeat case_match; simplify_eq; cbn; (split; [split; [done|]|lia]); tauto.
  - destruct th; cbn [thread_step] in Hs; rewrite ?Hr in Hs; simplify_eq; cbn [monitor thread owner is_tstep rank];
      try (by (split; [split; [done|naive_solver]|lia])).
    + unfold finish_check in Hs. destruct (double_lt _ _); simplify_eq; cbn; (split; [split; [done|naive_solver]|lia]).
    + destruct (after_check _ _ _ m) as [[tr rs] m'] eqn:Ha. simplify_eq. cbn. split; [|lia]. split; [|naive_solver].
      rewrite <- Hr. unfold after_check in Ha. repeat case_match; by simplify_eq.
  - case_match; simplify_eq; cbn. split; [|lia]. split; [|done]. unfold recordHeartbeat. by case_match.
  - case_match; simplify_eq; cbn. by split; [|lia].
  - simplify_eq; cbn. by split; [|lia].
  - simplify_eq; cbn. by split; [|lia].
  - simplify_eq; cbn. by split; [|lia].
Qed.

Lemma tstep_enabled hs c s : (0 < rank (thread s))%nat -> is_Some (step hs (TStep c) s).
Proof.
  destruct s as [m th o l]. cbn [step thread]. destruct th; cbn [rank thread_step]; intros H; try (by eexists); try lia.
  - destruct (finish_check alive rt (sys_now c) m) as [b m']. by eexists.
  - destruct (after_check passed (fo_now1 c) (fo_now2 c) m) as [[tr rs] m']. by eexists.
Qed.

Lemma stopping_run hs es : forall s,
  stopping s -> Forall (λ e, is_call e = false) es ->
  stopping (run hs es s) /\ (rank (thread (run hs es s)) <= rank (thread s) - count is_tstep es)%nat.
Proof.
  induction es as [|e es IH]; intros s Hs Hes; [by cbn [run]; split; [|change (count is_tstep []) with 0%nat; lia]|].
  apply Forall_cons in Hes as [He Hes]. cbn [run]. rewrite count_cons. destruct (step hs e s) as [s'|] eqn:Hstep; cbn [default id].
  - destruct (stopping_step _ _ _ _ Hs He Hstep) as [Hs' Hr]. destruct (IH s' Hs' Hes) as [H1 H2]. split; [done|].
    destruct (is_tstep e); lia.
  - destruct (IH s Hs Hes) as [H1 H2]. split; [done|]. destruct e; cbn [is_tstep]; try lia.
    destruct (decide (0 < rank (thread s))%nat) as [Hpos|]; [|lia].
    destruct (tstep_enabled hs c s Hpos) as [? ?]. congruence.
Qed.

Lemma monitor_run_app hs a b s : run hs (a ++ b) s = run hs b (run hs a s).
Proof. revert s. induction a as [|e a IH]; intros s; [done|]. cbn. apply IH. Qed.

(** [stop] returns.  From any state of a running monitor, once its thread has
    taken ten steps of its own and the owner has then been given three, the
    call has returned and the thread is joined, whatever the reporting threads
    do meanwhile and however the steps interleave. *)
Theorem monitor_stop_returns hs es s :
  owner s = O_Idle -> running_ (monitor s) = true ->
  Forall (λ e, is_call e = false) es -> (10 <= count is_tstep es)%nat ->
  let s' := run hs (OStop :: es ++ [OStep; OStep; OStep]) s in
  owner s' = O_Idle /\ thread s' = T_None /\ running_ (monitor s') = false.
Proof.
  destruct s as [m th o l]. cbn [owner monitor]. intros -> Hr Hes Hn. cbn [run step stop]. rewrite Hr. cbn [negb default id].
  rewrite monitor_run_app.
  assert (Hs : stopping (mkSystem (set_running false m) th O_Stopping l)) by (split; [done|cbn; tauto]).
  destruct (stopping_run hs es _ Hs Hes) as [[Hr' Ho] Hk]. cbn [thread] in Hk.
  destruct (run hs es _) as [m1 th1 o1 l1]. cbn [monitor owner thread] in *.
  assert (Hth : th1 = T_None \/ th1 = T_Ended).
  { assert (rank th <= 10)%nat by (destruct th; cbn; lia). destruct th1; cbn in Hk; auto; lia. }
  destruct Ho as [[-> ->]|[->|[->|[-> ->]]]]; [done|destruct Hth as [-> | ->]; done..|done].
Qed.

(** ** Readiness *)

Definition reports (e : Event) : bool := match e with EHeartbeat _ | EError _ => true | _ => false end.
Definition waiting (h : HealthStatus) : Prop := h = STARTING \/ h = STOPPING \/ h = STOPPED.

Lemma waiting_kept c h : waiting (status h) -> determineHealthStatus c h = status h.
Proof. unfold determineHealthStatus. by intros [-> | [-> | ->]]. Qed.

Lemma waiting_step hs e s s' :
  waiting (status (current_status_ (monitor s))) -> reports e = false -> step hs e s = Some s' ->
  waiting (status (current_status_ (monitor s'))).
Proof.
  destruct s as [m th o l]. cbn [monitor]. intros Hw He Hs.
  destruct e as [w| | |c|now|msg|v|v|v]; cbn [step] in Hs; try done; try (by simplify_eq).
  - unfold start in Hs. repeat case_match; by simplify_eq.
  - unfold stop in Hs. repeat case_match; by simplify_eq.
  - unfold owner_step in Hs. repeat case_match; simplify_eq; try done; cbn; unfold waiting; tauto.
  - destruct th; cbn [thread_step] in Hs; simplify_eq; try done.
    + cbn. rewrite waiting_kept; [|done]. done.
    + unfold finish_check in Hs. destruct (double_lt _ _); by simplify_eq.
    + destruct (after_check _ _ _ m) as [[tr rs] m'] eqn:Ha. simplify_eq. cbn.
      unfold after_check in Ha. repeat case_match; by simplify_eq.
Qed.

Lemma waiting_run hs es : forall s,
  Forall (λ e, reports e = false) es -> waiting (status (current_status_ (monitor s))) ->
  waiting (status (current_status_ (monitor (run hs es s)))).
Proof.
  induction es as [|e es IH]; intros s Hes Hs; [done|]. apply Forall_cons in Hes as [He Hes]. cbn [run]. apply IH; [done|].
  destruct (step hs e s) eqn:Hstep; cbn [default id]; [|done]. by eapply waiting_step.
Qed.

(** Without a heartbeat the process never counts as ready: as long as neither a
    heartbeat nor an error is reported, the status only follows [start] and
    [stop], and [isHealthy] and [isReady] stay false. *)
Lemma not_ready_without_heartbeat hs es c f pid now1 now2 :
  Forall (λ e, reports e = false) es ->
  let m := monitor (run hs es (initial (newProcessMonitor c f pid now1 now2))) in
  isReady m = false /\ isHealthy m = false.
Proof.
  intros Hes m. assert (Hw : waiting (status (current_status_ m))).
  { apply waiting_run; [done|]. cbn. unfold waiting. tauto. }
  unfold isReady, isHealthy. destruct Hw as [-> | [-> | ->]]; done.
Qed.

(** ** Deviations *)

Definition tick (t : Z) : Event := TStep (mkClocks t 0 1000 t t).

Definition strict_policy : FailoverPolicy := mkFailoverPolicy "rt" 1000 500 1 100 5 60 true 60 false.
Definition strict_config : ProcessMonitorConfig := mkMonitorConfig "rt" 1000 500 90 2048 100 false.
Definition strict_monitor : ProcessMonitor :=
  newProcessMonitor strict_config (Some (mkFailover strict_policy ∅ true)) 1 0 0.
Definition started : list Event := [OStart 0; OStep; OStep; EHeartbeat 1].

(** An orderly [stop] that falls between two steps of a check makes the check
    fail, and with a threshold of one the process is restarted. *)
Theorem stop_can_trigger_failover :
  let s := run true (started ++ replicate 6 (tick 100000000000) ++ [OStop] ++ replicate 4 (tick 100000000000))
             (initial strict_monitor) in
  log s = [Checked false true true 100000000000 100000000000] /\ error_message (current_status_ (monitor s)) = "".
Proof. cbv zeta. split; by_compute. Qed.

(** An error reported after [stop] makes the stopped process alive. *)
Theorem error_after_stop_revives :
  let s := run true (started ++ [OStop] ++ replicate 10 (tick 5) ++ [OStep; OStep; OStep]) (initial strict_monitor) in
  isAlive (monitor s) = false /\ isAlive (monitor (run true [EError "late"] s)) = true.
Proof. cbv zeta. split; by_compute. Qed.

(** The thread itself renews the time of the last heartbeat, so that a process
    that has gone silent keeps a fresh one and stays healthy. *)
Theorem silence_is_not_noticed :
  let s := run true (started ++ replicate 10 (tick 2) ++ replicate 20 (tick 3600000000000)) (initial strict_monitor) in
  last_heartbeat (current_status_ (monitor s)) = 3600000000000 /\ isHealthy (monitor s) = true.
Proof. cbv zeta. split; by_compute. Qed.

(** ** Instances of the theorems *)

(** Three checks in a row that take too long, with the usual policy: the third
    restarts the process. *)
Lemma monitor_failover_is_justified_witness :
  let slow := TStep (mkClocks 5 0 1000000000 100000000000 100000000000) in
  let s := run true (started ++ replicate 30 slow)
             (initial (newProcessMonitor strict_config (Some (mkFailover (defaultFailoverPolicy "rt") ∅ true)) 1 0 0)) in
  (justified 3 (log s) /\ forall ws, Z.of_nat (in_window ws (restarts (log s))) <= 5) /\
  length (restarts (log s)) = 1%nat.
Proof.
  split; [|by_compute].
  destruct (monitor_failover_is_justified true strict_config (defaultFailoverPolicy "rt") (mkFailover (defaultFailoverPolicy "rt") ∅ false)
    (started ++ replicate 30 (TStep (mkClocks 5 0 1000000000 100000000000 100000000000))) 1 0 0) as [H1 H2];
    [reflexivity|cbn; lia|cbn; lia|].
  split; [exact H1|]. apply H2. cbn [started app replicate clocks_ok fo_now1 fo_now2]. lia.
Defined.

Lemma monitor_stop_returns_witness :
  let s := run true started (initial strict_monitor) in
  running_ (monitor s) = true /\
  let s' := run true (OStop :: (EHeartbeat 4 :: replicate 10 (tick 5)) ++ [OStep; OStep; OStep]) s in
  owner s' = O_Idle /\ thread s' = T_None /\ running_ (monitor s') = false.
Proof.
  split; [reflexivity|]. apply (monitor_stop_returns true (EHeartbeat 4 :: replicate 10 (tick 5)));
    [reflexivity|reflexivity| |vm_compute; lia].
  repeat (constructor; [reflexivity|]). constructor.
Defined.
