(* ===== verification/HealthServer.v ===== *)
(** * HealthCheckServer (src/core/ha/HealthCheckServer)

    The HTTP endpoints of a process's health.  What the server asks the health
    check is a class, of which the [ProcessMonitor] is an instance; each of its
    getters takes the status mutex by itself, so that the state may change
    between two of them: the [i]-th getter of a request reads the state
    [snap i].  Printing a JSON value and the value of a double in it are left to
    the JSON library ([dump]). *)

From Stdlib Require Import Ascii.
From stdpp Require Import pretty.
From S2P Require Import Prelude Text Config Calendar ProcessMonitor.
#[local] Open Scope Z_scope.

Class IHealthCheck (H : Type) := {
  hc_status : H -> ProcessHealthStatus;
  hc_healthy : H -> bool;
  hc_ready : H -> bool;
  hc_alive : H -> bool
}.

(** What the interface documents. *)
Class HealthLaws (H : Type) `{!IHealthCheck H} := {
  hl_healthy h : hc_healthy h = bool_decide (status (hc_status h) = HEALTHY);
  hl_ready h : hc_ready h = true -> hc_alive h = true
}.

#[export] Instance monitor_health : IHealthCheck ProcessMonitor :=
  {| hc_status := getHealthStatus; hc_healthy := isHealthy; hc_ready := isReady; hc_alive := isAlive |}.

#[export] Instance monitor_health_laws : HealthLaws ProcessMonitor.
Proof.
  split; [done|]. intros m. cbn. unfold isReady, isAlive. by destruct (status (current_status_ m)).
Qed.

(** ** Values *)

(** [j[key] = v] in the order of the keys. *)
Fixpoint json_set (k : string) (v : Json) (l : list (string * Json)) : list (string * Json) :=
  match l with
  | [] => [(k, v)]
  | (k', v') :: l' =>
    if bool_decide (k = k') then (k, v) :: l'
    else if String.leb k k' then (k, v) :: (k', v') :: l' else (k', v') :: json_set k v l'
  end.
Definition json_object (l : list (string * Json)) : Json := JObject (foldl (λ o kv, json_set (fst kv) (snd kv) o) [] l).

Definition unless_empty (k s : string) : list (string * Json) := if String.eqb s "" then [] else [(k, JString s)].

Definition iso_time (ns : Z) : string := of_chars (put_time (gmtime (Z.quot ns 1000000000))).

(** ** Texts *)

Definition dq : string := String (ascii_of_nat 34) "".
Definition crlf : string := String (ascii_of_nat 13) (String (ascii_of_nat 10) "").
Definition lf : string := String (ascii_of_nat 10) "".
Definition quoted (s : string) : string := dq +:+ s +:+ dq.

Definition link (path text : string) : string :=
  "<li><a href=" +:+ quoted path +:+ ">" +:+ path +:+ "</a> - " +:+ text +:+ "</li>" +:+ lf.

Definition guide : string :=
  lf +:+ "<html>" +:+ lf +:+ "<head><title>MXRC Health Check</title></head>" +:+ lf +:+ "<body>" +:+ lf +:+
  "<h1>MXRC Health Check Endpoints</h1>" +:+ lf +:+ "<ul>" +:+ lf +:+
  link "/health" "Overall health status" +:+ link "/health/ready" "Readiness probe (Kubernetes)" +:+
  link "/health/live" "Liveness probe (Kubernetes)" +:+ link "/health/details" "Detailed diagnostics" +:+
  "</ul>" +:+ lf +:+ "</body>" +:+ lf +:+ "</html>" +:+ lf.

Definition error_body (error key value : string) : string :=
  "{" +:+ quoted "error" +:+ ":" +:+ quoted error +:+ "," +:+ quoted key +:+ ":" +:+ quoted value +:+ "}".

Definition response_head (code : Z) (text ctype : string) (len : nat) : string :=
  "HTTP/1.1 " +:+ pretty code +:+ " " +:+ text +:+ crlf +:+ "Content-Type: " +:+ ctype +:+ crlf +:+
  "Content-Length: " +:+ pretty (N.of_nat len) +:+ crlf +:+ "Connection: close" +:+ crlf.

Definition buildHttpResponse (body ctype : string) (code : Z) (text : string) : string :=
  response_head code text ctype (String.length body) +:+ crlf +:+ body.

Section Server.
Context {H : Type} `{!IHealthCheck H} (dump : Json -> string).
Implicit Types snap : nat -> H.

Definition handleHealthEndpoint (h : H) : Json :=
  let s := hc_status h in
  json_object ([("status", JString (healthStatusToString (status s)));
                ("process_name", JString (process_name s));
                ("pid", JInt (pid s));
                ("last_heartbeat", JString (iso_time (last_heartbeat s)));
                ("response_time_ms", JFloat (response_time_ms s));
                ("cpu_usage_percent", JFloat (cpu_usage_percent s));
                ("memory_usage_mb", JInt (memory_usage_mb s));
                ("deadline_miss_count", JInt (deadline_miss_count s));
                ("restart_count", JInt (restart_count s))] ++ unless_empty "error_message" (error_message s)).

Definition handleReadyEndpoint (h1 h2 : H) : Json :=
  let ready := hc_ready h1 in
  let s := hc_status h2 in
  json_object ([("ready", JBool ready); ("status", JString (healthStatusToString (status s)));
                ("process_name", JString (process_name s))] ++
    if ready then []
    else ("reason", JString "Process not ready to accept requests") :: unless_empty "error" (error_message s)).

Definition handleLiveEndpoint (h1 h2 : H) : Json :=
  let alive := hc_alive h1 in
  let s := hc_status h2 in
  json_object ([("alive", JBool alive); ("status", JString (healthStatusToString (status s)));
                ("process_name", JString (process_name s)); ("pid", JInt (pid s))] ++
    if alive then [] else ("reason", JString "Process not responding") :: unless_empty "error" (error_message s)).

Definition assessment (s : HealthStatus) : Json :=
  let '(level, message) :=
    match s with
    | HEALTHY => ("good", "Process is operating normally")
    | DEGRADED => ("warning", "Process is experiencing performance degradation")
    | UNHEALTHY => ("critical", "Process is unhealthy and may require restart")
    | STARTING => ("info", "Process is starting up")
    | STOPPING => ("info", "Process is shutting down")
    | STOPPED => ("info", "Process is stopped")
    end in
  json_object [("level", JString level); ("message", JString message)].

Definition handleDetailsEndpoint (h1 h2 h3 h4 : H) : Json :=
  let s := hc_status h1 in
  json_object ([("process_name", JString (process_name s)); ("pid", JInt (pid s));
                ("status", JString (healthStatusToString (status s)));
                ("is_healthy", JBool (hc_healthy h2)); ("is_ready", JBool (hc_ready h3)); ("is_alive", JBool (hc_alive h4));
                ("last_heartbeat", JString (iso_time (last_heartbeat s)));
                ("performance", json_object [("response_time_ms", JFloat (response_time_ms s));
                                             ("cpu_usage_percent", JFloat (cpu_usage_percent s));
                                             ("memory_usage_mb", JInt (memory_usage_mb s));
                                             ("deadline_miss_count", JInt (deadline_miss_count s))]);
                ("restart", json_object [("restart_count", JInt (restart_count s))])] ++
    unless_empty "error_message" (error_message s) ++ [("assessment", assessment (status s))]).

Definition ok_or_unavailable (b : bool) : Z := if b then 200 else 503.
Definition ok_text (b : bool) : string := if b then "OK" else "Service Unavailable".

(** The answer to a request: the code, its text, the type and the body. *)
Definition route (method path : string) snap : Z * string * string * string :=
  if String.eqb method "GET" then
    if String.eqb path "/health" then
      let b := bool_decide (status (hc_status (snap 1%nat)) = HEALTHY) in
      (ok_or_unavailable b, ok_text b, "application/json", dump (handleHealthEndpoint (snap 0%nat)))
    else if String.eqb path "/health/ready" then
      (ok_or_unavailable (hc_ready (snap 2%nat)), ok_text (hc_ready (snap 3%nat)), "application/json",
       dump (handleReadyEndpoint (snap 0%nat) (snap 1%nat)))
    else if String.eqb path "/health/live" then
      (ok_or_unavailable (hc_alive (snap 2%nat)), ok_text (hc_alive (snap 3%nat)), "application/json",
       dump (handleLiveEndpoint (snap 0%nat) (snap 1%nat)))
    else if String.eqb path "/health/details" then
      (200, "OK", "application/json", dump (handleDetailsEndpoint (snap 0%nat) (snap 1%nat) (snap 2%nat) (snap 3%nat)))
    else if String.eqb path "/" then (200, "OK", "text/html", guide)
    else (404, "Not Found", "application/json", error_body "Not Found" "path" path)
  else (405, "Method Not Allowed", "application/json", error_body "Method Not Allowed" "method" method).

(** A C string ends at its first null character. *)
Fixpoint c_string (l : chars) : chars :=
  match l with [] => [] | c :: l => if bool_decide (c = "000"%char) then [] else c :: c_string l end.

Definition word (i : nat) (l : chars) : string := default "" (of_chars <$> words [] l !! i).

(** [received] is what [recv] delivers, [None] when it fails; the response, if
    one is sent. *)
Definition handleClient (received : option chars) snap : option string :=
  match received with
  | None => None
  | Some bytes =>
    let request := c_string (take 4095 bytes) in
    let '(code, text, ctype, body) := route (word 0 request) (word 1 request) snap in
    Some (buildHttpResponse body ctype code text)
  end.

(** ** The server *)

Record HealthCheckServer := mkServer { port_ : Z; hs_running_ : bool; server_socket_ : bool }.
Definition newServer (port : Z) : HealthCheckServer := mkServer port false false.

(** Whether the socket can be created, bound and listened on. *)
Definition hs_start (created bound listening : bool) (s : HealthCheckServer) : bool * HealthCheckServer :=
  if hs_running_ s then (false, s)
  else if negb created then (false, mkServer (port_ s) false false)
  else if negb bound then (false, mkServer (port_ s) false false)
  else if negb listening then (false, mkServer (port_ s) false false)
  else (true, mkServer (port_ s) true true).

Definition hs_stop (s : HealthCheckServer) : HealthCheckServer :=
  if negb (hs_running_ s) then s else mkServer (port_ s) false false.

(** The loop of the server's thread over what [accept] gives: a client with its
    request and the states read meanwhile, or a failure. *)
Fixpoint serverLoop (accepted : list (option (option chars * (nat -> H)))) : list (option string) :=
  match accepted with
  | [] => []
  | None :: _ => []
  | Some (received, snap) :: accepted => handleClient received snap :: serverLoop accepted
  end.
End Server.

(** ** Framing *)

Definition cr : ascii := ascii_of_nat 13.

(** The lines of a head up to the empty one, and what follows it. *)
Fixpoint read_head (fuel : nat) (l : chars) : option (list chars * chars) :=
  match fuel with
  | O => None
  | S fuel =>
    match split_at cr l with
    | Some (line, nl :: rest) =>
      if negb (bool_decide (nl = ascii_of_nat 10)) then None
      else if bool_decide (line = []) then Some ([], rest)
      else r ← read_head fuel rest; Some (line :: fst r, snd r)
    | _ => None
    end
  end.

Lemma read_head_line fuel a rest :
  cr ∉ a -> a <> [] ->
  read_head (S fuel) (a ++ to_chars crlf ++ rest) = r ← read_head fuel rest; Some (a :: fst r, snd r).
Proof.
  intros Ha Hne. cbn [read_head]. change (to_chars crlf ++ rest) with (cr :: ascii_of_nat 10 :: rest).
  rewrite split_at_first by done. rewrite bool_decide_true by done. cbn [negb]. by rewrite bool_decide_false.
Qed.

Lemma pretty_no_cr (n : N) : cr ∉ to_chars (pretty n).
Proof.
  assert (Hc : forall k, pretty_N_char k <> cr).
  { intros k. unfold pretty_N_char, cr. repeat case_match; done. }
  assert (Hgo : forall x s, cr ∉ to_chars s -> cr ∉ to_chars (pretty_N_go x s)).
  { intros x. induction (N.lt_wf_0 x) as [x _ IH]. intros s Hs.
    assert (x = 0 \/ 0 < x)%N as [->|Hx] by lia; [by rewrite pretty_N_go_0|].
    rewrite pretty_N_go_step by done. apply IH; [by apply N.div_lt|].
    cbn [to_chars String.list_ascii_of_string]. apply not_elem_of_cons. split; [|done]. intros He. by apply (Hc (x `mod` 10)%N). }
  unfold pretty, pretty_N. case_decide; [by vm_compute; set_solver|]. apply Hgo. cbn. set_solver.
Qed.

(** Codes, texts and types that the server uses. *)
Definition plain (s : string) : Prop := cr ∉ to_chars s.

(** Whoever reads a response finds the head's lines and, after the first empty
    line, exactly the body, whose length the head announces. *)
Lemma response_framed body ctype code text :
  plain (pretty code) -> plain text -> plain ctype ->
  read_head 5 (to_chars (buildHttpResponse body ctype code text)) =
  Some ([to_chars ("HTTP/1.1 " +:+ pretty code +:+ " " +:+ text); to_chars ("Content-Type: " +:+ ctype);
         to_chars ("Content-Length: " +:+ pretty (N.of_nat (String.length body))); to_chars "Connection: close"],
        to_chars body).
Proof.
  intros Hc Ht Hy. unfold plain, buildHttpResponse, response_head in *.
  rewrite !to_chars_app, <- !app_assoc. pose proof (pretty_no_cr (N.of_nat (String.length body))) as Hn.
  assert (Hlit : forall s, bool_decide (cr ∈ to_chars s) = false -> cr ∉ to_chars s) by (intros s Hs; by apply bool_decide_eq_false_1 in Hs).
  assert (H1 : cr ∉ to_chars "HTTP/1.1 ") by (by apply Hlit). assert (H2 : cr ∉ to_chars " ") by (by apply Hlit).
  assert (H3 : cr ∉ to_chars "Content-Type: ") by (by apply Hlit). assert (H4 : cr ∉ to_chars "Content-Length: ") by (by apply Hlit).
  assert (H5 : cr ∉ to_chars "Connection: close") by (by apply Hlit).
  set (h := to_chars "HTTP/1.1 ") in *. set (t := to_chars "Content-Type: ") in *. set (n := to_chars "Content-Length: ") in *.
  set (c := to_chars "Connection: close") in *. set (sp := to_chars " ") in *.
  replace (h ++ to_chars (pretty code) ++ sp ++ to_chars text ++ to_chars crlf ++ t ++ to_chars ctype ++ to_chars crlf ++
           n ++ to_chars (pretty (N.of_nat (String.length body))) ++ to_chars crlf ++ c ++ to_chars crlf ++ to_chars crlf ++ to_chars body)
    with ((h ++ to_chars (pretty code) ++ sp ++ to_chars text) ++ to_chars crlf ++ (t ++ to_chars ctype) ++ to_chars crlf ++
          (n ++ to_chars (pretty (N.of_nat (String.length body)))) ++ to_chars crlf ++ c ++ to_chars crlf ++ to_chars crlf ++ to_chars body)
    by (by rewrite <- !app_assoc).
  rewrite !read_head_line by (rewrite ?elem_of_app; tauto || done). reflexivity.
Qed.

(** ** What the probes say *)

(** The probe of a monitor that has not seen a heartbeat answers 503. *)
Theorem probe_waits_for_heartbeat hs es c f pid now1 now2 dump :
  Forall (λ e, reports e = false) es ->
  let m := monitor (run hs es (initial (newProcessMonitor c f pid now1 now2))) in
  forall bytes, word 0 (c_string (take 4095 bytes)) = "GET" -> word 1 (c_string (take 4095 bytes)) = "/health/ready" ->
  exists lines body, handleClient dump (Some bytes) (λ _, m) = Some body /\
    read_head 5 (to_chars body) = Some (to_chars "HTTP/1.1 503 Service Unavailable" :: lines, to_chars (dump (handleReadyEndpoint m m))).
Proof.
  intros Hes m bytes Hg Hp. unfold handleClient. rewrite Hg, Hp. unfold route. change (String.eqb "GET" "GET") with true.
  change (String.eqb "/health/ready" "/health") with false. change (String.eqb "/health/ready" "/health/ready") with true. cbv beta iota.
  assert (Hr : hc_ready m = false) by (by apply not_ready_without_heartbeat).
  rewrite !Hr. do 2 eexists. split; [reflexivity|].
  rewrite response_framed; [reflexivity|..]; apply (bool_decide_eq_false_1 (cr ∈ _)); by vm_compute.
Qed.

(** ** Deviations *)

(** The body and the code come from two readings of the status: a change in
    between gives a body that says HEALTHY under the code 503. *)
Theorem body_and_code_may_disagree dump (h1 h2 : ProcessMonitor) :
  status (current_status_ h1) = HEALTHY -> status (current_status_ h2) = UNHEALTHY ->
  exists text ctype, route dump "GET" "/health" (λ i, if bool_decide (i = 0%nat) then h1 else h2) =
    (503, text, ctype, dump (handleHealthEndpoint h1)) /\
    exists l, handleHealthEndpoint h1 = JObject l /\ member "status" l = Some (JString "HEALTHY").
Proof.
  intros H1 H2. do 2 eexists. unfold route. change (String.eqb "GET" "GET") with true.
  change (String.eqb "/health" "/health") with true. cbv beta iota.
  change (bool_decide (1%nat = 0%nat)) with false. change (bool_decide (0%nat = 0%nat)) with true. cbv iota.
  cbn [hc_status monitor_health]. unfold getHealthStatus. rewrite H2. split; [reflexivity|].
  unfold handleHealthEndpoint. cbn [hc_status monitor_health]. unfold getHealthStatus. rewrite H1. unfold unless_empty.
  destruct (String.eqb _ _); eexists; split; reflexivity.
Qed.

(** One connection that cannot be accepted ends the service. *)
Theorem failed_accept_ends_service {H} `{!IHealthCheck H} dump before (after : list (option (option chars * (nat -> H)))) :
  serverLoop dump (before ++ None :: after) = serverLoop dump before.
Proof. induction before as [|[[r s]|] before IH]; cbn [serverLoop app]; [done|by rewrite IH|done]. Qed.
