(* ===== verification/NonRT.v ===== *)
(** * SharedMemoryRegion, NonRTExecutive (src/core/rt/ipc, src/core/nonrt)

    The memory that the two processes share, and the process that is not
    real-time: it connects to the memory, and while it runs one of its threads
    renews its heartbeat there and another copies the status of the real-time
    process into the [DataStore].  Its owner, which calls init and stop, the
    thread that is in run, the two threads that run starts and the other process
    interleave; each access to the shared memory, and each of the stores with
    which run starts the threads, is a step of its own.  The kernel keeps the
    objects of shared memory and may refuse its calls.  run is called by one
    thread at a time. *)

From S2P Require Import Prelude Interfaces Expiration DataStore.
#[local] Open Scope Z_scope.

(** ** The shared memory *)

Record RTToNonRT := mkRTToNonRT {
  robot_mode : Z; position_x : Z; position_y : Z; velocity : Z; timestamp_ns : Z; sequence : Z
}.

Record NonRTToRT := mkNonRTToRT {
  max_velocity : Z; pid_kp : Z; pid_ki : Z; pid_kd : Z; n_timestamp_ns : Z; n_sequence : Z
}.

Record SharedMemoryData := mkShm {
  rt_to_nonrt : RTToNonRT;
  nonrt_to_rt : NonRTToRT;
  shm_rt_heartbeat_ns : Z;
  shm_nonrt_heartbeat_ns : Z
}.

Definition zero_shm : SharedMemoryData := mkShm (mkRTToNonRT 0 0 0 0 0 0) (mkNonRTToRT 0 0 0 0 0 0) 0 0.

Definition store_heartbeat (now : Z) (m : SharedMemoryData) : SharedMemoryData :=
  mkShm (rt_to_nonrt m) (nonrt_to_rt m) (shm_rt_heartbeat_ns m) now.

(** An object of the kernel: its size and what it holds. *)
Record Segment := mkSegment { seg_size : Z; seg_mem : SharedMemoryData }.
Record Kernel := mkKernel { names : gmap string nat; objects : list Segment }.

(** Which of its calls the kernel grants. *)
Record Grants := mkGrants { g_open : bool; g_size : bool; g_map : bool }.
Definition all_granted : Grants := mkGrants true true true.

Definition set_memory (o : nat) (f : SharedMemoryData -> SharedMemoryData) (k : Kernel) : Kernel :=
  mkKernel (names k) (alter (λ s, mkSegment (seg_size s) (f (seg_mem s))) o (objects k)).

(** [shm_open], which makes an empty object when it may and there is none. *)
Definition shm_open (create granted : bool) (name : string) (k : Kernel) : option nat * Kernel :=
  if negb granted then (None, k)
  else match names k !! name with
       | Some o => (Some o, k)
       | None =>
         if create then (Some (length (objects k)),
                         mkKernel (<[name := length (objects k)]> (names k)) (objects k ++ [mkSegment 0 zero_shm]))
         else (None, k)
       end.

Definition ftruncate (o : nat) (size : Z) (k : Kernel) : Kernel :=
  mkKernel (names k) (alter (λ s, mkSegment size (seg_mem s)) o (objects k)).

(** A mapping of length zero is refused. *)
Definition can_map (granted : bool) (size : Z) : bool := granted && negb (size =? 0).

Record SharedMemoryRegion := mkRegion { ptr_ : option nat; size_ : Z; fd_ : option nat; name_ : string }.
Definition newRegion : SharedMemoryRegion := mkRegion None 0 None "".

Definition create (g : Grants) (name : string) (size : Z) (r : SharedMemoryRegion) (k : Kernel) :
    Z * SharedMemoryRegion * Kernel :=
  match ptr_ r with
  | Some _ => (-1, r, k)
  | None =>
    match shm_open true (g_open g) name k with
    | (None, k) => (-1, mkRegion None size None name, k)
    | (Some o, k) =>
      if negb (g_size g) then (-1, mkRegion None size None name, k)
      else
        let k := ftruncate o size k in
        if negb (can_map (g_map g) size) then (-1, mkRegion None size None name, k)
        else (0, mkRegion (Some o) size (Some o) name, set_memory o (λ _, zero_shm) k)
    end
  end.

Definition open (g : Grants) (name : string) (r : SharedMemoryRegion) (k : Kernel) : Z * SharedMemoryRegion :=
  match ptr_ r with
  | Some _ => (-1, r)
  | None =>
    match fst (shm_open false (g_open g) name k) with
    | None => (-1, mkRegion None (size_ r) None name)
    | Some o =>
      match objects k !! o with
      | None => (-1, mkRegion None (size_ r) None name)
      | Some s =>
        if negb (g_size g) then (-1, mkRegion None (size_ r) None name)
        else if negb (can_map (g_map g) (seg_size s)) then (-1, mkRegion None (seg_size s) None name)
        else (0, mkRegion (Some o) (seg_size s) (Some o) name)
      end
    end
  end.

Definition close (r : SharedMemoryRegion) : SharedMemoryRegion := mkRegion None 0 None (name_ r).

Definition unlink (granted : bool) (name : string) (k : Kernel) : Z * Kernel :=
  if granted && bool_decide (is_Some (names k !! name)) then (0, mkKernel (delete name (names k)) (objects k)) else (-1, k).

(** ** The executive *)

(** Where the heartbeat thread and the synchronising thread are: the second
    has done some of its loads. *)
Inductive HbThread := H_None | H_While | H_Test | H_Clock | H_Store (now : Z).
Inductive SyncThread := S_None | S_While | S_Test | S_Load (done : list Z) | S_Store (done : list Z).
Inductive Owner := O_Idle | O_Init (attempt : nat) | O_JoinHb | O_JoinSync | O_Free | O_Null.

(** Where the thread in [run] is: before the store to [running_], before and
    after the creation of each thread, whose handle is stored after it, and in
    the loop that waits for [stop]. *)
Inductive Runner := R_Idle | R_Flag | R_NewHb | R_StoreHb | R_NewSync | R_StoreSync | R_Loop.

Record NonRTExecutive (U W : Type) := mkNonRT {
  shm_name_ : string;
  datastore_ : option (DataStore U W);
  shm_region_ : option SharedMemoryRegion;
  shm_data_ : option nat;
  running_ : bool;
  heartbeat_thread_ : HbThread;
  sync_thread_ : SyncThread;
  hb_joinable : bool;            (* the handle heartbeat_thread_ *)
  sync_joinable : bool;          (* the handle sync_thread_ *)
  runner : Runner;
  owner : Owner;
  bus_running : bool;
  init_result : option Z;        (* what the last call of init returned *)
  fault : bool                   (* memory was accessed that is not mapped, or a handle
                                    that is joinable was assigned to *)
}.
Arguments mkNonRT {U W}. Arguments shm_name_ {U W} _. Arguments datastore_ {U W} _. Arguments shm_region_ {U W} _.
Arguments shm_data_ {U W} _. Arguments running_ {U W} _. Arguments heartbeat_thread_ {U W} _.
Arguments sync_thread_ {U W} _. Arguments hb_joinable {U W} _. Arguments sync_joinable {U W} _.
Arguments runner {U W} _. Arguments owner {U W} _. Arguments bus_running {U W} _.
Arguments init_result {U W} _. Arguments fault {U W} _.

Section Executive.
Context {U W : Type} `{!Observers U W} (type_name : TypeId -> string) (of_u64 : Z -> U).
Abbreviation Exec := (NonRTExecutive U W).
Implicit Types (n : Exec) (k : Kernel).

Definition newNonRT (name : string) (ds : option (DataStore U W)) : Exec :=
  mkNonRT name ds None None false H_None S_None false false R_Idle O_Idle false None false.

Definition set_shm (r : option SharedMemoryRegion) (d : option nat) n : Exec :=
  mkNonRT (shm_name_ n) (datastore_ n) r d (running_ n) (heartbeat_thread_ n) (sync_thread_ n)
    (hb_joinable n) (sync_joinable n) (runner n) (owner n) (bus_running n) (init_result n) (fault n).
Definition set_owner (o : Owner) n : Exec :=
  mkNonRT (shm_name_ n) (datastore_ n) (shm_region_ n) (shm_data_ n) (running_ n) (heartbeat_thread_ n) (sync_thread_ n)
    (hb_joinable n) (sync_joinable n) (runner n) o (bus_running n) (init_result n) (fault n).
Definition set_result (z : Z) n : Exec :=
  mkNonRT (shm_name_ n) (datastore_ n) (shm_region_ n) (shm_data_ n) (running_ n) (heartbeat_thread_ n) (sync_thread_ n)
    (hb_joinable n) (sync_joinable n) (runner n) (owner n) (bus_running n) (Some z) (fault n).
Definition set_running (b bus : bool) n : Exec :=
  mkNonRT (shm_name_ n) (datastore_ n) (shm_region_ n) (shm_data_ n) b (heartbeat_thread_ n) (sync_thread_ n)
    (hb_joinable n) (sync_joinable n) (runner n) (owner n) bus (init_result n) (fault n).
Definition set_threads (h : HbThread) (s : SyncThread) n : Exec :=
  mkNonRT (shm_name_ n) (datastore_ n) (shm_region_ n) (shm_data_ n) (running_ n) h s
    (hb_joinable n) (sync_joinable n) (runner n) (owner n) (bus_running n) (init_result n) (fault n).
Definition set_handles (h s : bool) n : Exec :=
  mkNonRT (shm_name_ n) (datastore_ n) (shm_region_ n) (shm_data_ n) (running_ n) (heartbeat_thread_ n) (sync_thread_ n)
    h s (runner n) (owner n) (bus_running n) (init_result n) (fault n).
Definition set_runner (r : Runner) n : Exec :=
  mkNonRT (shm_name_ n) (datastore_ n) (shm_region_ n) (shm_data_ n) (running_ n) (heartbeat_thread_ n) (sync_thread_ n)
    (hb_joinable n) (sync_joinable n) r (owner n) (bus_running n) (init_result n) (fault n).
Definition set_datastore (ds : option (DataStore U W)) n : Exec :=
  mkNonRT (shm_name_ n) ds (shm_region_ n) (shm_data_ n) (running_ n) (heartbeat_thread_ n) (sync_thread_ n)
    (hb_joinable n) (sync_joinable n) (runner n) (owner n) (bus_running n) (init_result n) (fault n).
Definition set_fault n : Exec :=
  mkNonRT (shm_name_ n) (datastore_ n) (shm_region_ n) (shm_data_ n) (running_ n) (heartbeat_thread_ n) (sync_thread_ n)
    (hb_joinable n) (sync_joinable n) (runner n) (owner n) (bus_running n) (init_result n) true.

(** A mapping covers whole pages, and the structure is smaller than a page. *)
Definition mapped (o : nat) n : bool :=
  match shm_region_ n with Some r => bool_decide (ptr_ r = Some o) | None => false end.

(** An access through [shm_data_]: what it does to the kernel's objects, and
    whether the memory is mapped. *)
Definition access (f : SharedMemoryData -> SharedMemoryData) n k : Exec * Kernel :=
  match shm_data_ n with
  | Some o => if mapped o n then (n, set_memory o f k) else (set_fault n, k)
  | None => (set_fault n, k)
  end.

Definition MAX_RETRIES : nat := 50.

(** One round of the loop of [init]; [now] is the first heartbeat. *)
Definition init_attempt (g : Grants) (now : Z) (attempt : nat) n k : Exec * Kernel :=
  match shm_region_ n with
  | None => (n, k)
  | Some r =>
    let '(rc, r) := open g (shm_name_ n) r k in
    let n := set_shm (Some r) (shm_data_ n) n in
    if rc =? 0 then
      let n := set_shm (Some r) (ptr_ r) n in
      let '(n, k) := access (store_heartbeat now) n k in
      (set_owner O_Idle (set_result 0 n), k)
    else if (S attempt <? MAX_RETRIES)%nat then (set_owner (O_Init (S attempt)) n, k)
    else (set_owner O_Idle (set_result (-1) n), k)
  end.

(** The start of [init]: the region it had is closed. *)
Definition init n : Exec := set_owner (O_Init 0) (set_shm (Some newRegion) (shm_data_ n) n).

(** [run] up to the start of the event bus. *)
Definition run n : Exec :=
  if running_ n then n else set_runner R_Flag (set_running (running_ n) true n).

(** The next step of [run]: the store to [running_], then for each thread its
    creation and the store of its handle, and the loop.  A second thread beside
    one that has not ended is not modelled. *)
Definition run_step n : option Exec :=
  match runner n with
  | R_Idle => None
  | R_Flag => Some (set_runner R_NewHb (set_running true (bus_running n) n))
  | R_NewHb => match heartbeat_thread_ n with
               | H_None => Some (set_runner R_StoreHb (set_threads H_While (sync_thread_ n) n))
               | _ => None
               end
  | R_StoreHb => if hb_joinable n then Some (set_fault n)
                 else Some (set_runner R_NewSync (set_handles true (sync_joinable n) n))
  | R_NewSync => match sync_thread_ n with
                 | S_None => Some (set_runner R_StoreSync (set_threads (heartbeat_thread_ n) S_While n))
                 | _ => None
                 end
  | R_StoreSync => if sync_joinable n then Some (set_fault n)
                   else Some (set_runner R_Loop (set_handles (hb_joinable n) true n))
  | R_Loop => Some (if running_ n then n else set_runner R_Idle n)
  end.

Definition stop n : Exec :=
  if negb (running_ n) then n else set_owner O_JoinHb (set_running false (bus_running n) n).

(** What remains of [stop]: a thread is joined if its handle is joinable, then
    the event bus stops, the region is unmapped and the pointer cleared. *)
Definition stop_step n : option Exec :=
  match owner n with
  | O_JoinHb =>
    if hb_joinable n then
      match heartbeat_thread_ n with
      | H_None => Some (set_owner O_JoinSync (set_handles false (sync_joinable n) n))
      | _ => None
      end
    else Some (set_owner O_JoinSync n)
  | O_JoinSync =>
    if sync_joinable n then
      match sync_thread_ n with
      | S_None => Some (set_owner O_Free (set_running (running_ n) false (set_handles (hb_joinable n) false n)))
      | _ => None
      end
    else Some (set_owner O_Free (set_running (running_ n) false n))
  | O_Free => Some (set_owner O_Null (set_shm None (shm_data_ n) n))
  | O_Null => Some (set_owner O_Idle (set_shm (shm_region_ n) None n))
  | _ => None
  end.

Definition heartbeat_step (now : Z) n k : option (Exec * Kernel) :=
  match heartbeat_thread_ n with
  | H_None => None
  | H_While => Some (set_threads (if running_ n then H_Test else H_None) (sync_thread_ n) n, k)
  | H_Test => Some (set_threads (match shm_data_ n with Some _ => H_Clock | None => H_While end) (sync_thread_ n) n, k)
  | H_Clock => Some (set_threads (H_Store now) (sync_thread_ n) n, k)
  | H_Store t => let '(n, k) := access (store_heartbeat t) n k in Some (set_threads H_While (sync_thread_ n) n, k)
  end.

(** The loads of [syncRTStatus], in order: the sequence number twice. *)
Definition load (i : nat) (m : SharedMemoryData) : Z :=
  let d := rt_to_nonrt m in
  match i with
  | 0 => sequence d | 1 => robot_mode d | 2 => position_x d | 3 => position_y d | 4 => velocity d | 5 => timestamp_ns d
  | _ => sequence d
  end%nat.

Definition no_policy : DataExpirationPolicy := mkPolicy NoPolicy 0.

(** The stores into the data store; the first that throws ends them. *)
Fixpoint set_all (clk : nat -> nat -> Z) (i : nat) (kvs : list (string * any U)) (s : DataStore U W) : DataStore U W :=
  match kvs with
  | [] => s
  | (key, v) :: kvs =>
    match set type_name (clk i) key v RobotMode no_policy s with
    | (Ok _, s) => set_all clk (S i) kvs s
    | (Throw _, s) => s
    end
  end.

Definition status_values (mode x y vel ts : Z) : list (string * any U) :=
  [("rt.robot_mode", ValInt mode); ("rt.position_x", ValFloat x); ("rt.position_y", ValFloat y);
   ("rt.velocity", ValFloat vel); ("rt.timestamp_ns", ValOther "m" (of_u64 ts))].

Definition store_status (clk : nat -> nat -> Z) (loaded : list Z) (s : DataStore U W) : DataStore U W :=
  match loaded with
  | [seq_before; mode; x; y; vel; ts; seq_after] =>
    if negb (seq_before =? seq_after) then s else set_all clk 0 (status_values mode x y vel ts) s
  | _ => s
  end.

Definition sync_step (clk : nat -> nat -> Z) n k : option (Exec * Kernel) :=
  match sync_thread_ n with
  | S_None => None
  | S_While => Some (set_threads (heartbeat_thread_ n) (if running_ n then S_Test else S_None) n, k)
  | S_Test =>
    Some (set_threads (heartbeat_thread_ n)
            (match shm_data_ n, datastore_ n with Some _, Some _ => S_Load [] | _, _ => S_While end) n, k)
  | S_Load l =>
    match shm_data_ n with
    | Some o =>
      if mapped o n then
        match objects k !! o with
        | Some s =>
          let l := l ++ [load (length l) (seg_mem s)] in
          Some (set_threads (heartbeat_thread_ n) (if (length l =? 7)%nat then S_Store l else S_Load l) n, k)
        | None => Some (set_fault n, k)
        end
      else Some (set_fault n, k)
    | None => Some (set_fault n, k)
    end
  | S_Store l =>
    Some (set_threads (heartbeat_thread_ n) S_While (set_datastore (store_status clk l <$> datastore_ n) n), k)
  end.

(** ** Runs *)

Inductive Event :=
| EInit                              (* init() is called *)
| EAttempt (g : Grants) (now : Z)    (* the next attempt of init() *)
| ERun | ERunner                     (* run() is called, and what remains of it *)
| EStop | EOwner                     (* stop() is called, and what remains of it *)
| EHeartbeat (now : Z)               (* a step of the heartbeat thread *)
| ESync (clk : nat -> nat -> Z)      (* a step of the synchronising thread *)
| EOther (k : Kernel).               (* the other process: any new state of the kernel
                                        in which the objects are still there *)

Definition idle n : bool := match owner n with O_Idle => true | _ => false end.

Definition step (e : Event) n k : option (Exec * Kernel) :=
  match e with
  | EInit => if idle n then Some (init n, k) else None
  | EAttempt g now => match owner n with O_Init a => Some (init_attempt g now a n k) | _ => None end
  | ERun => match runner n with R_Idle => Some (run n, k) | _ => None end
  | ERunner => n' ← run_step n; Some (n', k)
  | EStop => if idle n then Some (stop n, k) else None
  | EOwner => n' ← stop_step n; Some (n', k)
  | EHeartbeat now => heartbeat_step now n k
  | ESync clk => sync_step clk n k
  | EOther k' => if (length (objects k) <=? length (objects k'))%nat then Some (n, k') else None
  end.

(** Events that cannot happen yet are skipped. *)
Fixpoint exec (es : list Event) (n : Exec) (k : Kernel) : Exec * Kernel :=
  match es with
  | [] => (n, k)
  | e :: es => match step e n k with Some (n, k) => exec es n k | None => exec es n k end
  end.
End Executive.

(** ** No access to memory that is not mapped *)

Section Mapped.
Context {U W : Type} `{!Observers U W} (type_name : TypeId -> string) (of_u64 : Z -> U).
Abbreviation Exec := (NonRTExecutive U W).
Implicit Types (n : Exec) (k : Kernel).

Definition stopping (o : Owner) : bool :=
  match o with O_JoinHb | O_JoinSync | O_Free | O_Null => true | _ => false end.

(** [run] is between the store to [running_] and that of the second handle. *)
Definition starting (r : Runner) : bool :=
  match r with R_NewHb | R_StoreHb | R_NewSync | R_StoreSync => true | _ => false end.

(** [init] is called without a connection, [run] not during [stop], and [stop]
    not while [run] starts its threads. *)
Definition meant (e : Event) n : Prop :=
  match e with
  | EInit => shm_data_ n = None
  | ERun => stopping (owner n) = false
  | EStop => starting (runner n) = false
  | _ => True
  end.

Fixpoint used_as_meant (es : list Event) n k : Prop :=
  match es with
  | [] => True
  | e :: es =>
    meant e n /\
    match step type_name of_u64 e n k with
    | Some (n, k) => used_as_meant es n k
    | None => used_as_meant es n k
    end
  end.

Definition hb_holds (t : HbThread) : bool := match t with H_Clock | H_Store _ => true | _ => false end.
Definition sync_holds (t : SyncThread) : bool := match t with S_Load _ => true | _ => false end.

(** No thread is there and no handle joinable. *)
Definition quiet n : Prop :=
  heartbeat_thread_ n = H_None /\ sync_thread_ n = S_None /\ hb_joinable n = false /\ sync_joinable n = false.

(** How far [run] has come. *)
Definition runner_ok n : Prop :=
  match runner n with
  | R_Idle | R_Flag => running_ n = false
  | R_NewHb => running_ n = true /\ quiet n
  | R_StoreHb => running_ n = true /\ hb_joinable n = false /\ sync_joinable n = false /\ sync_thread_ n = S_None
  | R_NewSync => running_ n = true /\ hb_joinable n = true /\ sync_joinable n = false /\ sync_thread_ n = S_None
  | R_StoreSync => running_ n = true /\ hb_joinable n = true /\ sync_joinable n = false
  | R_Loop => running_ n = true -> hb_joinable n = true /\ sync_joinable n = true
  end.

(** How far [stop] has come: it joins every thread that is there. *)
Definition owner_ok n : Prop :=
  match owner n with
  | O_Idle | O_Init _ => running_ n = false -> quiet n
  | O_JoinHb => (hb_joinable n = false -> heartbeat_thread_ n = H_None) /\
                (sync_joinable n = false -> sync_thread_ n = S_None)
  | O_JoinSync => heartbeat_thread_ n = H_None /\ hb_joinable n = false /\
                  (sync_joinable n = false -> sync_thread_ n = S_None)
  | O_Free | O_Null => quiet n
  end.

Record nonrt_ok n k : Prop := {
  no_fault : fault n = false;
  no_data : forall o, shm_data_ n = Some o -> owner n <> O_Null -> mapped o n = true /\ (o < length (objects k))%nat;
  no_hb : hb_holds (heartbeat_thread_ n) = true -> is_Some (shm_data_ n);
  no_sync : sync_holds (sync_thread_ n) = true -> is_Some (shm_data_ n);
  no_runner : runner_ok n;
  no_owner : owner_ok n;
  no_stopping : stopping (owner n) = true -> running_ n = false /\ (runner n = R_Idle \/ runner n = R_Loop);
  no_init : forall a, owner n = O_Init a -> shm_data_ n = None /\ shm_region_ n <> None
}.

(** Fields that a step does not touch. *)
Ltac kept :=
  cbn;
  repeat match goal with
         | H : heartbeat_thread_ ?n = _ |- context [heartbeat_thread_ ?n] => rewrite H
         | H : sync_thread_ ?n = _ |- context [sync_thread_ ?n] => rewrite H
         end;
  try done; first
  [ by auto
  | intros; congruence
  | let Hx := fresh in intros Hx; match goal with H : _ |- _ => by specialize (H Hx) end
  | by intros; simplify_eq; eauto ].

Lemma set_memory_length o f k : length (objects (set_memory o f k)) = length (objects k).
Proof. apply length_alter. Qed.

(** An access that is allowed. *)
Lemma access_ok f n k o :
  shm_data_ n = Some o -> mapped o n = true -> access f n k = (n, set_memory o f k).
Proof. unfold access. by intros -> ->. Qed.

Lemma open_maps g name r k r' :
  open g name r k = (0, r') -> exists o, ptr_ r' = Some o /\ (o < length (objects k))%nat.
Proof.
  unfold open. destruct (ptr_ r); [done|]. destruct (fst (shm_open false (g_open g) name k)) as [o|]; [|done].
  destruct (objects k !! o) as [s|] eqn:Ho; [|done]. destruct (negb (g_size g)); [done|].
  destruct (negb (can_map _ _)); [done|]. intros [= <-]. exists o. split; [done|]. by apply lookup_lt_Some in Ho.
Qed.

Lemma open_code g name r k : fst (open g name r k) = 0 \/ fst (open g name r k) = -1.
Proof. unfold open. repeat case_match; cbn; auto. Qed.

Lemma init_attempt_ok g now a n k n' k' :
  nonrt_ok n k -> owner n = O_Init a -> init_attempt g now a n k = (n', k') -> nonrt_ok n' k'.
Proof.
  intros [Hf Hd Hh Hs Hr Ho Hst Hi] Eo. destruct (Hi a Eo) as [Hnone Hreg]. unfold init_attempt.
  destruct (shm_region_ n) as [r|]; [|done]. pose proof (open_maps g (shm_name_ n) r k) as Hopen.
  destruct (open g (shm_name_ n) r k) as [rc r'].
  assert (Hnh : hb_holds (heartbeat_thread_ n) = false).
  { destruct (hb_holds _); [|done]. destruct Hh as [? ?]; [done|congruence]. }
  assert (Hns : sync_holds (sync_thread_ n) = false).
  { destruct (sync_holds _); [|done]. destruct Hs as [? ?]; [done|congruence]. }
  assert (Ho' : running_ n = false -> quiet n) by (unfold owner_ok in Ho; by rewrite Eo in Ho).
  destruct (Z.eqb_spec rc 0) as [->|].
  - destruct (Hopen r') as (o & Hptr & Hlt); [done|].
    rewrite (access_ok _ _ _ o); [|done|cbn; by rewrite bool_decide_true]. intros [= <- <-].
    split; try kept; cbn; rewrite ?Hnh, ?Hns; try done.
    intros o' Ho1. rewrite length_alter. assert (o' = o) as -> by congruence. by rewrite bool_decide_true.
  - destruct (S a <? MAX_RETRIES)%nat; intros [= <- <-]; (split; kept).
Qed.

(** The steps of [run]. *)
Lemma run_step_ok n k n' : nonrt_ok n k -> run_step n = Some n' -> nonrt_ok n' k.
Proof.
  intros [Hf Hd Hh Hs Hr Ho Hst Hi]. unfold run_step, runner_ok in *.
  assert (Hns : runner n <> R_Idle -> runner n <> R_Loop -> stopping (owner n) = false).
  { intros E1 E2. destruct (stopping (owner n)); [|done]. destruct Hst as [_ [?|?]]; done. }
  assert (Hidle : stopping (owner n) = false -> owner_ok n = (running_ n = false -> quiet n)) by
    (unfold owner_ok; by destruct (owner n)).
  destruct (runner n) eqn:Er; [done|..].
  - rewrite Hidle in Ho by auto. specialize (Hns ltac:(done) ltac:(done)). intros [= <-]. split; cbn; try done.
    + by split; [|apply Ho].
    + unfold owner_ok. cbn. by destruct (owner n).
    + congruence.
  - destruct Hr as [Hrun (Q1 & Q2 & Q3 & Q4)]. specialize (Hns ltac:(done) ltac:(done)). rewrite Q1. intros [= <-].
    split; cbn; try done; try congruence. unfold owner_ok. cbn. destruct (owner n); try done; congruence.
  - destruct Hr as (Hrun & Q1 & Q2 & Q3). specialize (Hns ltac:(done) ltac:(done)). rewrite Q1. intros [= <-].
    split; cbn; try done; try congruence. unfold owner_ok. cbn. destruct (owner n); try done; congruence.
  - destruct Hr as (Hrun & Q1 & Q2 & Q3). specialize (Hns ltac:(done) ltac:(done)). rewrite Q3. intros [= <-].
    split; cbn; try done; try congruence. unfold owner_ok. cbn. destruct (owner n); try done; congruence.
  - destruct Hr as (Hrun & Q1 & Q2). specialize (Hns ltac:(done) ltac:(done)). rewrite Q2. intros [= <-].
    split; cbn; try done; try congruence. unfold owner_ok. cbn. destruct (owner n); try done; congruence.
  - destruct (running_ n) eqn:Hrun; intros [= <-].
    + split; try done; [unfold runner_ok; rewrite Er; auto|by rewrite Hrun, Er].
    + split; cbn; try done. intros Hx. split; [done|by left].
Qed.

(** The steps of [stop]. *)
Lemma stop_step_ok n k n' : nonrt_ok n k -> stop_step n = Some n' -> nonrt_ok n' k.
Proof.
  intros [Hf Hd Hh Hs Hr Ho Hst Hi]. unfold stop_step, owner_ok in *.
  assert (Hrest : forall m : Exec, stopping (owner n) = true -> runner m = runner n -> running_ m = running_ n -> runner_ok m).
  { intros m Es E1 E2. destruct (Hst Es) as [Hrun Hx]. unfold runner_ok. rewrite E1, E2, Hrun. by destruct Hx as [-> | ->]. }
  destruct (owner n) eqn:Eo; try done; specialize (Hst eq_refl) as Hst'.
  all: assert (Hdat : forall o, shm_data_ n = Some o -> owner n <> O_Null -> mapped o n = true /\ (o < length (objects k))%nat)
    by (by rewrite Eo).
  - destruct Ho as [H1 H2].
    destruct (hb_joinable n) eqn:Ej; [destruct (heartbeat_thread_ n) eqn:Et; try done|]; intros [= <-]; split;
      first [done|by apply Hrest|cbn; by rewrite Et|unfold owner_ok; cbn; rewrite ?Ej, ?Et; by auto|
             intros o Ho _; apply Hdat; [done|congruence]].
  - destruct Ho as (H1 & H2 & H3).
    destruct (sync_joinable n) eqn:Ej; [destruct (sync_thread_ n) eqn:Et; try done|]; intros [= <-]; split;
      first [done|by apply Hrest|cbn; by rewrite Et|unfold owner_ok, quiet; cbn; rewrite ?Ej, ?Et; by auto|
             intros o Ho _; apply Hdat; [done|congruence]].
  - intros [= <-]. destruct Ho as (Q1 & Q2 & Q3 & Q4).
    split; cbn; rewrite ?Q1, ?Q2; try done; by apply Hrest.
  - intros [= <-]. pose proof Ho as (Q1 & Q2 & Q3 & Q4).
    split; cbn; rewrite ?Q1, ?Q2; try done; by apply Hrest.
Qed.

(** A step of a thread keeps the handles, and ends the thread only when it is
    told to. *)
Lemma executive_thread_ok h t n k n' k' :
  nonrt_ok n k -> fault n' = false -> owner n' = owner n -> runner n' = runner n -> running_ n' = running_ n ->
  hb_joinable n' = hb_joinable n -> sync_joinable n' = sync_joinable n ->
  shm_data_ n' = shm_data_ n -> shm_region_ n' = shm_region_ n -> (length (objects k) <= length (objects k'))%nat ->
  heartbeat_thread_ n' = h -> sync_thread_ n' = t ->
  (heartbeat_thread_ n = H_None -> h = H_None) -> (sync_thread_ n = S_None -> t = S_None) ->
  (hb_holds h = true -> is_Some (shm_data_ n)) -> (sync_holds t = true -> is_Some (shm_data_ n)) ->
  nonrt_ok n' k'.
Proof.
  intros [Hf Hd Hh Hs Hr Ho Hst Hi] E1 E2 E3 E4 E5 E6 E7 E8 Hk Eh Et Hh0 Ht0 Hh1 Ht1.
  assert (Hq : quiet n -> quiet n') by (unfold quiet; rewrite E5, E6, Eh, Et; naive_solver).
  split.
  - done.
  - intros o. rewrite E7, E2. intros Ho1 Ho2. destruct (Hd o Ho1 Ho2) as [Hm Hl]. unfold mapped in *. rewrite E8. split; [done|lia].
  - by rewrite Eh, E7.
  - by rewrite Et, E7.
  - unfold runner_ok in *. rewrite E3, E4, E5, E6, Et. destruct (runner n); naive_solver.
  - unfold owner_ok in *. rewrite E2, E4, E5, E6, Eh, Et. destruct (owner n); naive_solver.
  - by rewrite E2, E3, E4.
  - rewrite E2, E7, E8. done.
Qed.

(** A thread that is there keeps [stop] from unmapping. *)
Lemma live_mapped n k o :
  nonrt_ok n k -> heartbeat_thread_ n <> H_None \/ sync_thread_ n <> S_None -> shm_data_ n = Some o ->
  mapped o n = true /\ (o < length (objects k))%nat.
Proof.
  intros [Hf Hd Hh Hs Hr Ho Hst Hi] Hl Hdat. apply Hd; [done|]. intros E. unfold owner_ok in Ho. rewrite E in Ho.
  destruct Ho as (? & ? & _). naive_solver.
Qed.

Ltac thread_keeps H :=
  eapply executive_thread_ok; [exact H|..]; cbn; try done; try (by intros; congruence);
  repeat case_match; try done; eauto.

Lemma heartbeat_step_ok now n k n' k' :
  nonrt_ok n k -> heartbeat_step now n k = Some (n', k') -> nonrt_ok n' k'.
Proof.
  intros Hok Hs. pose proof Hok as [Hf _ Hh Hsy _ _ _ _]. unfold heartbeat_step in Hs.
  destruct (heartbeat_thread_ n) eqn:Hb; try done.
  - injection Hs as <- <-. thread_keeps Hok.
  - injection Hs as <- <-. thread_keeps Hok.
  - injection Hs as <- <-. thread_keeps Hok.
  - destruct (Hh eq_refl) as [o Ho]. destruct (live_mapped n k o) as [Hm Hlt]; [done|left; congruence|done|].
    rewrite (access_ok _ _ _ o) in Hs by done. injection Hs as <- <-.
    eapply executive_thread_ok; [exact Hok|..]; try done; try (by intros; congruence). by rewrite set_memory_length.
Qed.

Lemma sync_step_ok clk n k n' k' :
  nonrt_ok n k -> sync_step type_name of_u64 clk n k = Some (n', k') -> nonrt_ok n' k'.
Proof.
  intros Hok Hs. pose proof Hok as [Hf _ Hh Hsy _ _ _ _]. unfold sync_step in Hs.
  destruct (sync_thread_ n) as [| | |l|l] eqn:Hb; try done.
  - injection Hs as <- <-. thread_keeps Hok.
  - injection Hs as <- <-. thread_keeps Hok.
  - destruct (Hsy eq_refl) as [o Ho]. destruct (live_mapped n k o) as [Hm Hlt]; [done|right; congruence|done|].
    rewrite Ho, Hm in Hs. apply lookup_lt_is_Some_2 in Hlt as [s Hlk]. rewrite Hlk in Hs. injection Hs as <- <-.
    thread_keeps Hok.
  - injection Hs as <- <-. thread_keeps Hok.
Qed.

Lemma step_nonrt_ok e n k n' k' :
  nonrt_ok n k -> meant e n -> step type_name of_u64 e n k = Some (n', k') -> nonrt_ok n' k'.
Proof.
  intros Hok He Hs. pose proof Hok as [Hf Hd Hh Hsy Hr Ho Hst Hi]. destruct e; cbn [step meant] in *.
  - unfold idle in Hs. destruct (owner n) eqn:Eo; try done. simplify_eq.
    split; try kept. unfold owner_ok in *. by rewrite Eo in Ho.
  - destruct (owner n) as [|a| | | |] eqn:Eo; try done. injection Hs as Hs. by eapply init_attempt_ok.
  - destruct (runner n) eqn:Er; try done. simplify_eq. unfold run. destruct (running_ n) eqn:Hrun; [done|].
    split; cbn; try done; [|congruence]. unfold owner_ok in *. cbn. rewrite Hrun in *. done.
  - destruct (run_step n) as [n1|] eqn:E; [|done]. cbn in Hs. simplify_eq. by eapply run_step_ok.
  - unfold idle in Hs. destruct (owner n) eqn:Eo; try done. simplify_eq. unfold stop.
    destruct (running_ n) eqn:Hrun; cbn [negb]; [|done].
    assert (Hrest : runner n = R_Loop) by (unfold runner_ok in Hr; destruct (runner n); try done; congruence).
    unfold runner_ok in Hr. rewrite Hrest in Hr. destruct (Hr Hrun) as [Hj1 Hj2].
    split; cbn; try done; try (intros; by auto).
    + intros o Hdat _. by apply Hd; [|congruence].
    + unfold runner_ok. cbn. by rewrite Hrest.
    + unfold owner_ok. cbn. split; congruence.
  - destruct (stop_step n) as [n1|] eqn:E; [|done]. cbn in Hs. simplify_eq. by eapply stop_step_ok.
  - by eapply heartbeat_step_ok.
  - by eapply sync_step_ok.
  - destruct (Nat.leb_spec (length (objects k)) (length (objects k0))); simplify_eq.
    split; try done. intros o Hdat Hne. destruct (Hd o Hdat Hne). split; [done|lia].
Qed.

(** C36: as long as init is only called without a connection, run not during a
    stop, and stop not while run starts its threads, no thread of the executive
    ever accesses shared memory that is not mapped, and no joinable handle is
    overwritten, however the owner, the thread in run, the threads it has started
    and the other process interleave and whatever the kernel refuses. *)
Theorem nonrt_accesses_mapped_memory es name ds k :
  used_as_meant es (newNonRT name ds) k -> fault (fst (exec type_name of_u64 es (newNonRT name ds) k)) = false.
Proof.
  assert (Hgen : forall es n k, nonrt_ok n k -> used_as_meant es n k -> fault (fst (exec type_name of_u64 es n k)) = false).
  { clear es name ds k. intros es. induction es as [|e es IH]; intros n k Hok Hu; [apply Hok|]. destruct Hu as [He Hu].
    cbn [exec]. destruct (step type_name of_u64 e n k) as [[n' k']|] eqn:Hs; [|by apply IH].
    apply IH; [|done]. by eapply step_nonrt_ok. }
  apply Hgen. split; kept.
Qed.
End Mapped.

(** ** Connecting *)

Section Init.
Context {U W : Type} `{!Observers U W} (type_name : TypeId -> string) (of_u64 : Z -> U).
Abbreviation Exec := (NonRTExecutive U W).
Implicit Types (n : Exec) (k : Kernel).

(** The object that an attempt finds: it must have a size by then. *)
Definition connects (g : Grants) (name : string) k : option nat :=
  o ← names k !! name; s ← objects k !! o;
  if g_open g && g_size g && can_map (g_map g) (seg_size s) then Some o else None.

(** The other process leaves a kernel, then an attempt is made. *)
Definition attempts (l : list (Kernel * Grants * Z)) : list Event :=
  concat ((λ '(k, g, now), [EOther k; EAttempt g now]) <$> l).

Fixpoint growing (len : nat) (l : list (Kernel * Grants * Z)) : Prop :=
  match l with [] => True | (k, _, _) :: l => (len <= length (objects k))%nat /\ growing (length (objects k)) l end.

Lemma open_connects g name k r :
  ptr_ r = None ->
  match connects g name k with
  | Some o => exists s, objects k !! o = Some s /\ open g name r k = (0, mkRegion (Some o) (seg_size s) (Some o) name)
  | None => exists r', open g name r k = (-1, r') /\ ptr_ r' = None
  end.
Proof.
  intros Hp. unfold connects, open, shm_open. rewrite Hp. destruct (g_open g); cbn [negb andb fst].
  2:{ destruct (names k !! name) as [o|]; cbn; [|by eexists]. destruct (objects k !! o); cbn; by eexists. }
  destruct (names k !! name) as [o|]; cbn [fst mbind option_bind]; [|by eexists].
  destruct (objects k !! o) as [s|] eqn:Hs; cbn [mbind option_bind]; [|by eexists].
  destruct (g_size g); cbn [negb andb]; [|by eexists]. destruct (can_map _ _); cbn [negb]; [|by eexists]. by exists s.
Qed.

Record waiting (name : string) (a : nat) n : Prop := {
  wt_owner : owner n = O_Init a;
  wt_name : shm_name_ n = name;
  wt_region : exists r, shm_region_ n = Some r /\ ptr_ r = None
}.

Lemma exec_attempt k g now l n k0 a :
  owner n = O_Init a -> (length (objects k0) <= length (objects k))%nat ->
  exec type_name of_u64 (attempts ((k, g, now) :: l)) n k0 =
  (let '(n, k) := init_attempt g now a n k in exec type_name of_u64 (attempts l) n k).
Proof.
  intros Ho Hlen. unfold attempts. rewrite fmap_cons. cbn [concat app exec step].
  rewrite (proj2 (Nat.leb_le _ _) Hlen), Ho. done.
Qed.

Lemma attempt_fails g now a name n k :
  waiting name a n -> connects g name k = None ->
  exists n', init_attempt g now a n k = (n', k) /\
    if (S a <? MAX_RETRIES)%nat then waiting name (S a) n' else owner n' = O_Idle /\ init_result n' = Some (-1).
Proof.
  intros [Ho Hn (r & Hr & Hp)] Hc. pose proof (open_connects g name k r Hp) as H. rewrite Hc in H.
  destruct H as (r' & Hopen & Hp'). unfold init_attempt. rewrite Hr, Hn, Hopen. cbn [Z.eqb].
  destruct (S a <? MAX_RETRIES)%nat; eexists; (split; [reflexivity|]); [|done]. split; cbn; eauto.
Qed.

Lemma attempts_fail name l : forall a n k tail,
  waiting name a n -> growing (length (objects k)) l -> Forall (λ '(k, g, _), connects g name k = None) l ->
  (a + length l < 50)%nat ->
  exists n' k', exec type_name of_u64 (attempts (l ++ tail)) n k = exec type_name of_u64 (attempts tail) n' k' /\
    waiting name (a + length l) n' /\ length (objects k') = length (objects (default k ((λ x, fst (fst x)) <$> last l))).
Proof.
  induction l as [|[[k1 g1] now1] l IH]; intros a n k tail Hw Hg Hf Hlen.
  { exists n, k. cbn [length app]. rewrite Nat.add_0_r. done. }
  cbn [app length] in *. destruct Hg as [Hle Hg]. apply Forall_cons in Hf as [Hc Hf].
  rewrite (exec_attempt _ _ _ _ _ _ a) by (done || apply Hw).
  destruct (attempt_fails g1 now1 a name n k1 Hw Hc) as (n1 & -> & Hn1).
  rewrite (proj2 (Nat.ltb_lt _ _)) in Hn1 by (unfold MAX_RETRIES; lia).
  destruct (IH (S a) n1 k1 tail Hn1 Hg Hf ltac:(lia)) as (n' & k' & He & Hw' & Hl').
  exists n', k'. split; [done|]. split; [by replace (a + S (length l))%nat with (S a + length l)%nat by lia|].
  rewrite Hl'. destruct l as [|x l]; [done|]. rewrite last_cons_cons.
  destruct (last (x :: l)) eqn:Hlast; [done|by apply last_None in Hlast].
Qed.

Lemma growing_snoc l k g now : forall k0,
  growing (length (objects k0)) (l ++ [(k, g, now)]) ->
  growing (length (objects k0)) l /\
  (length (objects (default k0 ((λ x, fst (fst x)) <$> last l))) <= length (objects k))%nat.
Proof.
  induction l as [|[[k1 g1] n1] l IH]; intros k0 Hg; cbn [app growing] in *; [split; [done|apply Hg]|].
  destruct Hg as [H1 H2]. destruct (IH k1 H2) as [H3 H4]. split; [done|]. destruct l as [|x l]; [done|]. rewrite last_cons_cons.
  destruct (last (x :: l)) eqn:Hlast; [done|by apply last_None in Hlast].
Qed.

Lemma waiting_new name ds : waiting name 0 (init (newNonRT name ds : Exec)).
Proof. split; cbn; eauto. Qed.

(** [init] connects at the first of its fifty attempts that finds the object
    with a size; it then returns 0 and its heartbeat is in the memory. *)
Theorem init_connects name ds k0 l k g now o :
  growing (length (objects k0)) (l ++ [(k, g, now)]) -> Forall (λ '(k, g, _), connects g name k = None) l ->
  (length l < 50)%nat -> connects g name k = Some o ->
  exists n k', exec type_name of_u64 (EInit :: attempts (l ++ [(k, g, now)])) (newNonRT name ds) k0 = (n, k') /\
    init_result n = Some 0 /\ owner n = O_Idle /\ shm_data_ n = Some o /\ mapped o n = true /\
    (λ s, shm_nonrt_heartbeat_ns (seg_mem s)) <$> objects k' !! o = Some now.
Proof.
  intros Hg Hf Hlen Hc. cbn [exec step idle owner newNonRT].
  destruct (growing_snoc _ _ _ _ _ Hg) as [Hg1 Hle].
  destruct (attempts_fail name l 0 _ k0 [(k, g, now)] (waiting_new name ds) Hg1 Hf Hlen) as (n' & k' & -> & Hw & Hl').
  rewrite (exec_attempt _ _ _ _ _ _ (0 + length l)) by (apply Hw || lia).
  destruct Hw as [Ho Hn (r & Hr & Hp)]. pose proof (open_connects g name k r Hp) as H. rewrite Hc in H.
  destruct H as (s & Hs & Hopen). unfold init_attempt. rewrite Hr, Hn, Hopen. cbn [Z.eqb ptr_].
  rewrite (access_ok _ _ _ o); [|done|cbn; by rewrite bool_decide_true]. cbn [attempts concat fmap list_fmap exec].
  do 2 eexists. split; [reflexivity|]. split_and!; try done.
  - cbn. by rewrite bool_decide_true.
  - cbn [objects set_memory]. rewrite list_lookup_alter_eq, Hs. done.
Qed.

(** When all fifty fail it returns -1. *)
Theorem init_gives_up name ds k0 l :
  growing (length (objects k0)) l -> Forall (λ '(k, g, _), connects g name k = None) l -> length l = 50%nat ->
  let n := fst (exec type_name of_u64 (EInit :: attempts l) (newNonRT name ds) k0) in
  init_result n = Some (-1) /\ owner n = O_Idle.
Proof.
  intros Hg Hf Hlen. destruct l as [|[[k g] now] l _] using rev_ind; [done|].
  rewrite length_app in Hlen. cbn in Hlen. apply Forall_app in Hf as [Hf [Hc _]%Forall_cons].
  cbn [exec step idle owner newNonRT].
  destruct (growing_snoc _ _ _ _ _ Hg) as [Hg1 Hle].
  destruct (attempts_fail name l 0 _ k0 [(k, g, now)] (waiting_new name ds) Hg1 Hf ltac:(lia)) as (n' & k' & -> & Hw & Hl').
  rewrite (exec_attempt _ _ _ _ _ _ (0 + length l)) by (apply Hw || lia).
  destruct (attempt_fails g now (0 + length l) name n' k Hw Hc) as (n1 & -> & Hn1).
  rewrite (proj2 (Nat.ltb_ge _ _)) in Hn1 by (unfold MAX_RETRIES; lia). cbn. tauto.
Qed.
End Init.

(** ** Copying the status *)

Section Sync.
Context {U W : Type} `{!Observers U W} (type_name : TypeId -> string) (of_u64 : Z -> U).
Abbreviation Exec := (NonRTExecutive U W).
Implicit Types (n : Exec) (k : Kernel) (s : DataStore U W).

Definition holds s (key : string) (v : any U) : Prop := sd_value <$> data_map_ s !! key = Some v.

Lemma set_all_effect clk kvs : forall i s,
  NoDup (fst <$> kvs) -> Forall (λ kv, accepts (fst kv) (snd kv) RobotMode s = true) kvs ->
  let s' := set_all type_name clk i kvs s in
  Forall (λ kv, holds s' (fst kv) (snd kv)) kvs /\ forall key, key ∉ fst <$> kvs -> data_map_ s' !! key = data_map_ s !! key.
Proof.
  induction kvs as [|[key v] kvs IH]; intros i s Hnd Hacc; [done|]. cbn [set_all fmap list_fmap fst] in *.
  apply NoDup_cons in Hnd as [Hkey Hnd]. apply Forall_cons in Hacc as [Ha Hacc]. cbn [fst snd] in Ha.
  rewrite (type_clash_accepts type_name) in Ha.
  destruct (type_clash type_name key v RobotMode s) as [e|] eqn:Hc; [done|].
  destruct (set_effect type_name (clk i) key v RobotMode no_policy s Hc) as [Hd _].
  assert (Hok : fst (set type_name (clk i) key v RobotMode no_policy s) = Ok tt) by (unfold set; by rewrite Hc).
  destruct (set type_name (clk i) key v RobotMode no_policy s) as [r s1]. cbn [fst snd] in *. subst r.
  assert (Hacc1 : Forall (λ kv, accepts (fst kv) (snd kv) RobotMode s1 = true) kvs).
  { apply Forall_forall. intros [key' v'] Hin. rewrite Forall_forall in Hacc. specialize (Hacc _ Hin). cbn [fst snd] in *.
    unfold accepts in *. rewrite Hd, lookup_insert_ne; [done|]. intros ->. apply Hkey. by apply (list_elem_of_fmap_2 fst _ _ Hin). }
  destruct (IH (S i) s1 Hnd Hacc1) as [H1 H2]. split.
  - constructor; [|done]. cbn [fst snd]. unfold holds. rewrite H2 by done. rewrite Hd, lookup_insert_eq. done.
  - intros key' Hk. apply not_elem_of_cons in Hk as [Hne Hk]. rewrite H2, Hd, lookup_insert_ne; done.
Qed.

(** The loads of a round, when the memory does not change. *)
Lemma loads_done clk j : forall l n k o seg,
  (0 < j)%nat -> (length l + j = 7)%nat -> sync_thread_ n = S_Load l -> shm_data_ n = Some o -> mapped o n = true ->
  objects k !! o = Some seg ->
  exec type_name of_u64 (replicate j (ESync clk)) n k =
  (set_threads (heartbeat_thread_ n) (S_Store (l ++ ((λ i, load i (seg_mem seg)) <$> seq (length l) j))) n, k).
Proof.
  induction j as [|j IH]; intros l n k o seg Hj Hlen Ht Hd Hm Ho; [lia|].
  cbn [replicate exec step]. unfold sync_step. rewrite Ht, Hd, Hm, Ho. cbn [seq fmap list_fmap].
  rewrite length_app. cbn [length]. destruct j as [|j].
  - rewrite (proj2 (Nat.eqb_eq _ _)) by lia. done.
  - rewrite (proj2 (Nat.eqb_neq _ _)) by lia.
    rewrite (IH (l ++ [load (length l) (seg_mem seg)]) _ k o seg);
      [|lia|rewrite length_app; cbn [length]; lia|done|done|exact Hm|done].
    rewrite length_app, <- app_assoc. cbn [length app]. by rewrite Nat.add_1_r.
Qed.

Definition status_of (m : SharedMemoryData) : list (string * any U) :=
  let d := rt_to_nonrt m in
  status_values of_u64 (robot_mode d) (position_x d) (position_y d) (velocity d) (timestamp_ns d).

(** A round of the synchronising thread during which the status does not change
    leaves exactly that status in the data store, if the store accepts its
    types, and touches no other key. *)
Theorem sync_copies_the_status clk n k o s seg :
  sync_thread_ n = S_Test -> shm_data_ n = Some o -> mapped o n = true -> datastore_ n = Some s -> objects k !! o = Some seg ->
  Forall (λ kv, accepts (fst kv) (snd kv) RobotMode s = true) (status_of (seg_mem seg)) ->
  exists n' s', exec type_name of_u64 (replicate 9 (ESync clk)) n k = (n', k) /\ sync_thread_ n' = S_While /\
    datastore_ n' = Some s' /\ Forall (λ kv, holds s' (fst kv) (snd kv)) (status_of (seg_mem seg)) /\
    forall key, key ∉ fst <$> status_of (seg_mem seg) -> data_map_ s' !! key = data_map_ s !! key.
Proof.
  intros Ht Hd Hm Hs Ho Hacc.
  assert (Hloads : exists n1, exec type_name of_u64 (replicate 8 (ESync clk)) n k = (n1, k) /\
    sync_thread_ n1 = S_Store ((λ i, load i (seg_mem seg)) <$> seq 0 7) /\ datastore_ n1 = Some s).
  { change (replicate 8 (ESync clk)) with (ESync clk :: replicate 7 (ESync clk)).
    generalize (loads_done clk 7). generalize (replicate 7 (ESync clk)). intros es Hes.
    cbn [exec step]. unfold sync_step at 1. rewrite Ht, Hd, Hs.
    rewrite (Hes [] _ k o seg); [|lia|done..]. eexists. split; [reflexivity|]. done. }
  destruct Hloads as (n1 & He & Ht1 & Hs1).
  change (replicate 9 (ESync clk)) with (replicate 8 (ESync clk) ++ [ESync clk]).
  assert (Happ : forall a b n k, exec type_name of_u64 (a ++ b) n k =
    (let '(n, k) := exec type_name of_u64 a n k in exec type_name of_u64 b n k)).
  { intros a. induction a as [|e a IH]; intros b n0 k0; [done|]. cbn [exec app]. destruct (step _ _ e n0 k0) as [[? ?]|]; apply IH. }
  rewrite Happ, He. cbn [exec step]. unfold sync_step. rewrite Ht1. do 2 eexists. split; [reflexivity|]. split; [done|].
  split; [cbn; rewrite Hs1; reflexivity|]. cbn [fmap list_fmap seq store_status load]. rewrite Z.eqb_refl. cbn [negb].
  apply set_all_effect; [|done]. apply (bool_decide_unpack _). by vm_compute.
Qed.
End Sync.

(** ** Deviations *)

Section Deviations.
Abbreviation Exec := (NonRTExecutive Z (list (nat * string))).

#[local] Instance silent : Observers Z (list (nat * string)) := {|
  obs_alive _ _ := true;
  onDataChanged o d w := (w ++ [(o, sd_id d)], None)
|}.
Definition z_names : TypeId -> string := λ _, "t".
Definition z_clk : nat -> nat -> Z := λ _ _, 0.
Definition a_kernel : Kernel := mkKernel (<["/mxrc" := 0%nat]> ∅) [mkSegment 256 zero_shm].
Definition with_status (x y sq : Z) : Kernel :=
  mkKernel (<["/mxrc" := 0%nat]> ∅) [mkSegment 256 (mkShm (mkRTToNonRT 1 x y 0 0 sq) (nonrt_to_rt zero_shm) 0 0)].
Definition a_process : Exec := newNonRT "/mxrc" (Some (newDataStore [])).
(** A whole start of [run]. *)
Definition start_up : list Event := ERun :: replicate 5 ERunner.
Abbreviation runs es := (exec z_names (λ x, x) es a_process a_kernel).

(** The reader only compares two readings of the sequence number.  A writer
    that stores the fields and then counts up is not noticed when the whole
    reading falls between two of its stores: the stored position is neither
    the old nor the new one. *)
Theorem torn_status_is_stored :
  let es := [EInit; EAttempt all_granted 5] ++ start_up ++ [ESync z_clk; ESync z_clk; EOther (with_status 20 10 1)] ++
            replicate 8 (ESync z_clk) ++ [EOther (with_status 20 20 1); EOther (with_status 20 20 2)] in
  let s := default (newDataStore []) (datastore_ (fst (exec z_names (λ x, x) es a_process (with_status 10 10 1)))) in
  sd_value <$> data_map_ s !! "rt.position_x" = Some (ValFloat 20) /\
  sd_value <$> data_map_ s !! "rt.position_y" = Some (ValFloat 10).
Proof. cbv zeta. split; by_compute. Qed.

(** A second [init] while the executive runs closes the region that its threads
    still use. *)
Theorem init_while_running_is_a_fault :
  fault (fst (runs ([EInit; EAttempt all_granted 5] ++ start_up ++ [EHeartbeat 6; EHeartbeat 6; EHeartbeat 6; EInit; EHeartbeat 7]))) = true.
Proof. by_compute. Qed.

(** A [stop] between the creation of the second thread and the store of its
    handle does not join it, and unmaps the memory that it reads. *)
Theorem stop_during_start_is_a_fault :
  fault (fst (runs ([EInit; EAttempt all_granted 5; ERun] ++ replicate 4 ERunner ++ [ESync z_clk; ESync z_clk; EStop;
                     EHeartbeat 6; EOwner; EOwner; EOwner; ESync z_clk]))) = true.
Proof. by_compute. Qed.

(** [create] clears memory that the other process may already use: a heartbeat
    stored before is lost. *)
Theorem create_clears_a_heartbeat :
  let '(n, k) := runs [EInit; EAttempt all_granted 5] in
  let '(rc, _, k') := create all_granted "/mxrc" 256 newRegion k in
  rc = 0 /\ (λ s, shm_nonrt_heartbeat_ns (seg_mem s)) <$> objects k !! 0%nat = Some 5 /\
  (λ s, shm_nonrt_heartbeat_ns (seg_mem s)) <$> objects k' !! 0%nat = Some 0.
Proof. cbv [create]. vm_compute. repeat split. Qed.

(** [open] accepts an object that is too small for the data. *)
Theorem open_ignores_the_size :
  let k := mkKernel (<["/mxrc" := 0%nat]> ∅) [mkSegment 1 zero_shm] in
  fst (open all_granted "/mxrc" newRegion k) = 0.
Proof. by_compute. Qed.

(** ** Instances *)

Lemma nonrt_accesses_mapped_memory_witness :
  let es := [EInit; EAttempt all_granted 5; ERun] ++ replicate 3 ERunner ++ replicate 4 (EHeartbeat 6) ++
            replicate 2 ERunner ++ replicate 9 (ESync z_clk) ++
            [EStop; EHeartbeat 7; ESync z_clk; ESync z_clk; EOwner; EOwner; EOwner; EOwner; ERunner] in
  fault (fst (runs es)) = false /\ shm_data_ (fst (runs es)) = None /\ owner (fst (runs es)) = O_Idle /\
  runner (fst (runs es)) = R_Idle.
Proof.
  cbv zeta. split; [|split_and!; by_compute]. apply (nonrt_accesses_mapped_memory z_names (λ x, x)). vm_compute. tauto.
Defined.

Lemma init_connects_witness :
  exists n k', exec z_names (λ x, x) (EInit :: attempts ([(mkKernel ∅ [], all_granted, 1)] ++ [(a_kernel, all_granted, 101)]))
      a_process (mkKernel ∅ []) = (n, k') /\
    init_result n = Some 0 /\ owner n = O_Idle /\ shm_data_ n = Some 0%nat /\ mapped 0 n = true /\
    (λ s, shm_nonrt_heartbeat_ns (seg_mem s)) <$> objects k' !! 0%nat = Some 101.
Proof.
  apply (init_connects z_names (λ x, x) "/mxrc" (Some (newDataStore [])) (mkKernel ∅ []) [(mkKernel ∅ [], all_granted, 1)]
           a_kernel all_granted 101 0);
    [cbn; lia|repeat constructor|cbn; lia|by_compute].
Defined.
End Deviations.
