(* ===== verification/AtomicMetrics.v ===== *)
(** * Lock-free metrics (src/core/monitoring/metrics)

    The counters that any thread updates without a lock.  Each access to an
    atomic variable is a step; the threads interleave freely, and a weak
    compare-and-exchange may fail without reason.  Doubles are bit patterns. *)

From S2P Require Import Prelude Ieee754.
#[local] Open Scope Z_scope.

Definition UINT64_MAX : Z := 2 ^ 64 - 1.

(** 0.9 and 0.1 *)
Definition d09 : Z := 0x3FECCCCCCCCCCCCD.
Definition d01 : Z := 0x3FB999999999999A.

(** [static_cast<uint64_t>(0.9 * current + 0.1 * value)]; undefined when the
    result does not fit. *)
Definition moving_average (current value : Z) : option Z :=
  u64_of_double (double_add (double_mul d09 (double_of_i64 current)) (double_mul d01 (double_of_i64 value))).

(** ** The metrics of the real-time process *)

Module Rt.

Record RTMetrics := mkRt {
  cycle_time_us : Z; cycle_time_min_us : Z; cycle_time_max_us : Z; cycle_time_avg_us : Z; cycle_jitter_us : Z;
  deadline_misses_total : Z; deadline_misses_consecutive : Z; cycles_total : Z;
  fieldbus_errors_total : Z; fieldbus_wkc_errors_total : Z; fieldbus_bytes_sent : Z; fieldbus_bytes_received : Z;
  cpu_utilization_percent : Z; memory_usage_bytes : Z; thread_priority : Z;
  datastore_gets_total : Z; datastore_sets_total : Z; datastore_hit_rate_percent : Z
}.

Definition newRTMetrics : RTMetrics := mkRt 0 UINT64_MAX 0 0 0 0 0 0 0 0 0 0 0 0 0 0 0 0.

Definition set_cycle (last mn mx avg : Z) (m : RTMetrics) : RTMetrics :=
  mkRt last mn mx avg (cycle_jitter_us m) (deadline_misses_total m) (deadline_misses_consecutive m) (cycles_total m)
    (fieldbus_errors_total m) (fieldbus_wkc_errors_total m) (fieldbus_bytes_sent m) (fieldbus_bytes_received m)
    (cpu_utilization_percent m) (memory_usage_bytes m) (thread_priority m) (datastore_gets_total m)
    (datastore_sets_total m) (datastore_hit_rate_percent m).
Definition set_misses (total consecutive : Z) (m : RTMetrics) : RTMetrics :=
  mkRt (cycle_time_us m) (cycle_time_min_us m) (cycle_time_max_us m) (cycle_time_avg_us m) (cycle_jitter_us m)
    total consecutive (cycles_total m)
    (fieldbus_errors_total m) (fieldbus_wkc_errors_total m) (fieldbus_bytes_sent m) (fieldbus_bytes_received m)
    (cpu_utilization_percent m) (memory_usage_bytes m) (thread_priority m) (datastore_gets_total m)
    (datastore_sets_total m) (datastore_hit_rate_percent m).

Definition recordDeadlineMiss (m : RTMetrics) : RTMetrics :=
  set_misses (u64 (deadline_misses_total m + 1)) (u32 (deadline_misses_consecutive m + 1)) m.
Definition resetConsecutiveMisses (m : RTMetrics) : RTMetrics := set_misses (deadline_misses_total m) 0 m.
Definition reset (m : RTMetrics) : RTMetrics := newRTMetrics.

Section Setters.
Implicit Type m : RTMetrics.
Definition store_last v m := set_cycle v (cycle_time_min_us m) (cycle_time_max_us m) (cycle_time_avg_us m) m.
Definition store_min v m := set_cycle (cycle_time_us m) v (cycle_time_max_us m) (cycle_time_avg_us m) m.
Definition store_max v m := set_cycle (cycle_time_us m) (cycle_time_min_us m) v (cycle_time_avg_us m) m.
Definition store_avg v m := set_cycle (cycle_time_us m) (cycle_time_min_us m) (cycle_time_max_us m) v m.
End Setters.

(** Where a call of [updateCycleTime] is; [cur] is what it read last. *)
Inductive Update :=
| U_Store | U_LoadMin | U_TestMin (cur : Z) | U_CasMin (cur : Z) | U_LoadMax | U_TestMax (cur : Z) | U_CasMax (cur : Z)
| U_LoadAvg | U_StoreAvg (cur : Z) | U_Done.

(** One access of the call with the measurement [v]; [None] when the average
    cannot be converted. *)
Definition update_step (weak : bool) (v : Z) (u : Update) (m : RTMetrics) : option (Update * RTMetrics) :=
  match u with
  | U_Store => Some (U_LoadMin, store_last v m)
  | U_LoadMin => Some (U_TestMin (cycle_time_min_us m), m)
  | U_TestMin cur => Some (if v <? cur then U_CasMin cur else U_LoadMax, m)
  | U_CasMin cur =>
    if (cycle_time_min_us m =? cur) && negb weak then Some (U_LoadMax, store_min v m)
    else Some (U_TestMin (cycle_time_min_us m), m)
  | U_LoadMax => Some (U_TestMax (cycle_time_max_us m), m)
  | U_TestMax cur => Some (if cur <? v then U_CasMax cur else U_LoadAvg, m)
  | U_CasMax cur =>
    if (cycle_time_max_us m =? cur) && negb weak then Some (U_LoadAvg, store_max v m)
    else Some (U_TestMax (cycle_time_max_us m), m)
  | U_LoadAvg => Some (U_StoreAvg (cycle_time_avg_us m), m)
  | U_StoreAvg cur => a ← moving_average cur v; Some (U_Done, store_avg a m)
  | U_Done => Some (U_Done, m)
  end.

(** Threads, each with its measurement and where it is. *)
Record Pool := mkPool { calls : list (Z * Update); metrics : RTMetrics }.

Definition pool_step (i : nat) (weak : bool) (p : Pool) : option Pool :=
  '(v, u) ← calls p !! i; '(u, m) ← update_step weak v u (metrics p);
  Some (mkPool (<[i := (v, u)]> (calls p)) m).

(** A step that cannot be taken is skipped. *)
Fixpoint pool_run (es : list (nat * bool)) (p : Pool) : Pool :=
  match es with [] => p | (i, weak) :: es => pool_run es (default p (pool_step i weak p)) end.

Definition start_pool (vs : list Z) (m : RTMetrics) : Pool := mkPool ((λ v, (v, U_Store)) <$> vs) m.

Definition all_done (p : Pool) : Prop := Forall (λ c, snd c = U_Done) (calls p).

(** ** Extremes *)

(** What a call has established when it is at [u]. *)
Definition call_ok (m : RTMetrics) (c : Z * Update) : Prop :=
  let '(v, u) := c in
  let mn := cycle_time_min_us m in let mx := cycle_time_max_us m in
  match u with
  | U_Store | U_LoadMin => True
  | U_TestMin cur => mn <= cur
  | U_CasMin cur => mn <= cur /\ v < cur
  | U_LoadMax => mn <= v
  | U_TestMax cur => mn <= v /\ cur <= mx
  | U_CasMax cur => mn <= v /\ cur <= mx /\ cur < v
  | U_LoadAvg | U_StoreAvg _ | U_Done => mn <= v /\ v <= mx
  end.

Definition widens (m m' : RTMetrics) : Prop :=
  cycle_time_min_us m' <= cycle_time_min_us m /\ cycle_time_max_us m <= cycle_time_max_us m'.

Lemma call_ok_widens m m' c : widens m m' -> call_ok m c -> call_ok m' c.
Proof. destruct c as [v u]. unfold widens, call_ok. destruct u; lia. Qed.

Lemma update_step_ok weak v u m u' m' :
  update_step weak v u m = Some (u', m') -> call_ok m (v, u) ->
  widens m m' /\ call_ok m' (v, u') /\
  (cycle_time_min_us m' = cycle_time_min_us m \/ cycle_time_min_us m' = v) /\
  (cycle_time_max_us m' = cycle_time_max_us m \/ cycle_time_max_us m' = v).
Proof.
  unfold widens, update_step. generalize moving_average. intros avg.
  destruct u; [..|destruct (avg cur v)|]; cbn [mbind option_bind]; intros Hs Hc;
    repeat (case_match; [..|idtac]); try discriminate; injection Hs as <- <-;
    cbn [call_ok store_last store_min store_max store_avg set_cycle cycle_time_min_us cycle_time_max_us] in *; lia.
Qed.

Definition largest (vs : list Z) : Z := foldr Z.max 0 vs.
Definition smallest (vs : list Z) : Z := foldr Z.min UINT64_MAX vs.

Record pool_ok (vs : list Z) (p : Pool) : Prop := {
  pk_vs : fst <$> calls p = vs;
  pk_calls : Forall (call_ok (metrics p)) (calls p);
  pk_min : cycle_time_min_us (metrics p) = UINT64_MAX \/ cycle_time_min_us (metrics p) ∈ vs;
  pk_max : cycle_time_max_us (metrics p) = 0 \/ cycle_time_max_us (metrics p) ∈ vs
}.

Lemma pool_step_ok vs i weak p p' : pool_step i weak p = Some p' -> pool_ok vs p -> pool_ok vs p'.
Proof.
  intros Hs [Hv Hc Hmn Hmx]. unfold pool_step in Hs.
  destruct (calls p !! i) as [[v u]|] eqn:Hi; [|discriminate]. cbn in Hs.
  destruct (update_step weak v u (metrics p)) as [[u' m']|] eqn:Hu; [|discriminate]. simplify_eq Hs; intros <-.
  pose proof (Forall_lookup_1 _ _ _ _ Hc Hi) as Hok.
  destruct (update_step_ok _ _ _ _ _ _ Hu Hok) as (Hw & Hok' & Hn & Hx).
  assert (v ∈ vs) as Hin by (rewrite <- Hv; apply list_elem_of_fmap; exists (v, u); split; [done|]; by eapply list_elem_of_lookup_2).
  split; cbn.
  - rewrite list_fmap_insert, Hv. apply list_insert_id. cbn. rewrite <- Hv, list_lookup_fmap, Hi. reflexivity.
  - apply Forall_insert; [|exact Hok'].
    eapply Forall_impl; [exact Hc|]. intros c. by apply call_ok_widens.
  - destruct Hn as [-> | ->]; auto.
  - destruct Hx as [-> | ->]; auto.
Qed.

Lemma pool_run_ok vs es p : pool_ok vs p -> pool_ok vs (pool_run es p).
Proof.
  revert p. induction es as [|[i weak] es IH]; intros p Hp; [exact Hp|]. cbn [pool_run]. apply IH.
  destruct (pool_step i weak p) eqn:E; [by eapply pool_step_ok|exact Hp].
Qed.

Lemma start_pool_ok vs : pool_ok vs (start_pool vs newRTMetrics).
Proof.
  split; cbn; [|by apply Forall_fmap, Forall_true|by left|by left].
  rewrite <- list_fmap_compose. apply list_fmap_id.
Qed.

Lemma foldr_max_spec vs b x : (x = b \/ x ∈ vs) -> b <= x -> Forall (λ v, v <= x) vs -> foldr Z.max b vs = x.
Proof.
  intros Hx Hb Hall. assert (foldr Z.max b vs <= x) as Hle.
  { clear Hx. induction Hall; cbn; lia. }
  assert (x <= foldr Z.max b vs); [|lia]. clear Hle Hall.
  destruct Hx as [->|Hx]; [clear Hb; induction vs; cbn; lia|].
  induction Hx; cbn; lia.
Qed.

Lemma foldr_min_spec vs b x : (x = b \/ x ∈ vs) -> x <= b -> Forall (λ v, x <= v) vs -> foldr Z.min b vs = x.
Proof.
  intros Hx Hb Hall. assert (x <= foldr Z.min b vs) as Hle.
  { clear Hx. induction Hall; cbn; lia. }
  assert (foldr Z.min b vs <= x); [|lia]. clear Hle Hall.
  destruct Hx as [->|Hx]; [clear Hb; induction vs; cbn; lia|].
  induction Hx; cbn; lia.
Qed.

(** C37: however the threads that call [updateCycleTime] interleave, and however
    often the weak exchanges fail for no reason, once every call has returned
    the minimum and the maximum are those of the measurements. *)
Theorem extremes_are_exact (vs : list Z) (es : list (nat * bool)) (p : Pool) :
  Forall (λ v, 0 <= v < 2 ^ 64) vs ->
  pool_run es (start_pool vs newRTMetrics) = p -> all_done p ->
  cycle_time_min_us (metrics p) = smallest vs /\ cycle_time_max_us (metrics p) = largest vs.
Proof.
  intros Hr Hp Hd. pose proof (pool_run_ok vs es _ (start_pool_ok vs)) as Hok. rewrite Hp in Hok.
  destruct Hok as [Hv Hc Hmn Hmx].
  assert (Forall (λ v, cycle_time_min_us (metrics p) <= v <= cycle_time_max_us (metrics p)) vs) as Hb.
  { rewrite <- Hv. apply Forall_fmap. unfold all_done in Hd. rewrite Forall_forall in Hc, Hd |- *.
    intros [v u] Hin. specialize (Hc _ Hin). specialize (Hd _ Hin). cbn in Hd. subst u. exact Hc. }
  assert (forall x, x ∈ vs -> 0 <= x <= UINT64_MAX) as Hx.
  { intros x Hin. rewrite Forall_forall in Hr. specialize (Hr x Hin). unfold UINT64_MAX. lia. }
  split; symmetry.
  - apply foldr_min_spec; [exact Hmn| |]; [destruct Hmn as [->|H]; [lia|by apply Hx]|].
    eapply Forall_impl; [exact Hb|]. cbn. lia.
  - apply foldr_max_spec; [exact Hmx| |]; [destruct Hmx as [->|H]; [lia|by apply Hx]|].
    eapply Forall_impl; [exact Hb|]. cbn. lia.
Qed.

(** Three calls, two of which race for the minimum. *)
Lemma extremes_are_exact_witness :
  let es := [(0%nat, false); (1%nat, false); (0%nat, false); (1%nat, false); (0%nat, false); (1%nat, false); (0%nat, true); (1%nat, false); (0%nat, false);
             (0%nat, false); (2%nat, false)] ++ replicate 7 (0%nat, false) ++ replicate 6 (1%nat, false) ++ replicate 9 (2%nat, false) in
  let p := pool_run es (start_pool [950; 1000; 1200] newRTMetrics) in
  all_done p /\ cycle_time_min_us (metrics p) = 950 /\ cycle_time_max_us (metrics p) = 1200.
Proof.
  intros es p. assert (all_done p) as Hd.
  { unfold all_done. assert (snd <$> calls p = [U_Done; U_Done; U_Done]) as H by (vm_compute; reflexivity).
    rewrite <- (Forall_fmap snd (λ u, u = U_Done)), H. repeat constructor. }
  split; [exact Hd|].
  assert (Forall (λ v, 0 <= v < 2 ^ 64) [950; 1000; 1200]) as Hr by (repeat constructor; lia).
  exact (extremes_are_exact [950; 1000; 1200] es p Hr eq_refl Hd).
Defined.

(** A call that runs alone, without spurious failures, returns after nine
    accesses. *)
Lemma lone_update_returns v m :
  is_Some (moving_average (cycle_time_avg_us m) v) ->
  exists m', pool_run (replicate 9 (0%nat, false)) (start_pool [v] m) = mkPool [(v, U_Done)] m'.
Proof.
  intros [a Ha]. unfold start_pool. cbn -[moving_average Z.ltb].
  destruct (v <? cycle_time_min_us m) eqn:E1; cbn -[moving_average Z.ltb];
    rewrite ?Z.eqb_refl; cbn -[moving_average Z.ltb].
  all: destruct (cycle_time_max_us m <? v) eqn:E2; cbn -[moving_average Z.ltb];
    rewrite ?Z.eqb_refl; cbn -[moving_average Z.ltb]; rewrite ?Ha; eexists; reflexivity.
Qed.
End Rt.

(** ** The metrics of the process without deadlines *)

Module NonRt.

Record NonRTMetrics := mkNonRt {
  eventbus_queue_depth : Z; eventbus_queue_depth_max : Z; events_published_total : Z; events_processed_total : Z;
  events_dropped_total : Z; events_expired_total : Z; events_coalesced_total : Z; event_latency_avg_us : Z;
  tasks_started_total : Z; tasks_completed_total : Z; tasks_failed_total : Z; tasks_running : Z; task_duration_avg_ms : Z;
  sequences_started_total : Z; sequences_completed_total : Z; actions_executed_total : Z; action_retries_total : Z;
  datastore_gets_total : Z; datastore_sets_total : Z; datastore_latency_avg_us : Z;
  cpu_utilization_percent : Z; memory_usage_bytes : Z; threads_active : Z;
  logs_written_total : Z; log_queue_depth : Z; logs_dropped_total : Z
}.

Definition newNonRTMetrics : NonRTMetrics := mkNonRt 0 0 0 0 0 0 0 0 0 0 0 0 0 0 0 0 0 0 0 0 0 0 0 0 0 0.
Definition reset (m : NonRTMetrics) : NonRTMetrics := newNonRTMetrics.

Definition set_depth (depth peak : Z) (m : NonRTMetrics) : NonRTMetrics :=
  mkNonRt depth peak (events_published_total m) (events_processed_total m)
    (events_dropped_total m) (events_expired_total m) (events_coalesced_total m) (event_latency_avg_us m)
    (tasks_started_total m) (tasks_completed_total m) (tasks_failed_total m) (tasks_running m) (task_duration_avg_ms m)
    (sequences_started_total m) (sequences_completed_total m) (actions_executed_total m) (action_retries_total m)
    (datastore_gets_total m) (datastore_sets_total m) (datastore_latency_avg_us m)
    (cpu_utilization_percent m) (memory_usage_bytes m) (threads_active m)
    (logs_written_total m) (log_queue_depth m) (logs_dropped_total m).
Definition set_tasks (completed failed avg : Z) (m : NonRTMetrics) : NonRTMetrics :=
  mkNonRt (eventbus_queue_depth m) (eventbus_queue_depth_max m) (events_published_total m) (events_processed_total m)
    (events_dropped_total m) (events_expired_total m) (events_coalesced_total m) (event_latency_avg_us m)
    (tasks_started_total m) completed failed (tasks_running m) avg
    (sequences_started_total m) (sequences_completed_total m) (actions_executed_total m) (action_retries_total m)
    (datastore_gets_total m) (datastore_sets_total m) (datastore_latency_avg_us m)
    (cpu_utilization_percent m) (memory_usage_bytes m) (threads_active m)
    (logs_written_total m) (log_queue_depth m) (logs_dropped_total m).

(** The loop that raises the peak.  [others] are the values that other threads
    have left in the variable before each attempt of this one ([None]: the
    exchange fails for no reason); the thread gives its last value up when the
    list ends. *)
Fixpoint raise_peak (depth current_max : Z) (others : list (option Z)) (m : NonRTMetrics) : option NonRTMetrics :=
  if negb (current_max <? depth) then Some m
  else match others with
       | [] => None
       | o :: others =>
         match o with
         | None => raise_peak depth (eventbus_queue_depth_max m) others m
         | Some x =>
           let m := set_depth (eventbus_queue_depth m) x m in
           if x =? current_max then Some (set_depth (eventbus_queue_depth m) depth m)
           else raise_peak depth x others m
         end
       end.

Definition updateQueueDepth (depth : Z) (others : list (option Z)) (m : NonRTMetrics) : option NonRTMetrics :=
  let m := set_depth depth (eventbus_queue_depth_max m) m in
  raise_peak depth (eventbus_queue_depth_max m) others m.

(** Run without interference; [None] when the average cannot be converted. *)
Definition recordTaskCompletion (success : bool) (duration_ms : Z) (m : NonRTMetrics) : option NonRTMetrics :=
  let m := if success then set_tasks (u64 (tasks_completed_total m + 1)) (tasks_failed_total m) (task_duration_avg_ms m) m
           else set_tasks (tasks_completed_total m) (u64 (tasks_failed_total m + 1)) (task_duration_avg_ms m) m in
  new_avg ← moving_average (task_duration_avg_ms m) duration_ms;
  Some (set_tasks (tasks_completed_total m) (tasks_failed_total m) new_avg m).

(** Run alone, the call records the depth and the larger of the depth and the
    peak, in one attempt. *)
Lemma updateQueueDepth_alone depth m :
  updateQueueDepth depth [Some (eventbus_queue_depth_max m)] m =
  Some (set_depth depth (Z.max depth (eventbus_queue_depth_max m)) m).
Proof.
  unfold updateQueueDepth. cbn [raise_peak eventbus_queue_depth_max set_depth eventbus_queue_depth].
  destruct (Z.ltb_spec (eventbus_queue_depth_max m) depth); cbn [negb].
  - rewrite Z.eqb_refl. cbn [eventbus_queue_depth set_depth]. f_equal. rewrite Z.max_l by lia. reflexivity.
  - rewrite Z.max_r by lia. reflexivity.
Qed.

Lemma raise_peak_covers depth others cur m m' :
  cur <= eventbus_queue_depth_max m ->
  raise_peak depth cur others m = Some m' -> depth <= eventbus_queue_depth_max m'.
Proof.
  revert cur m. induction others as [|o others IH]; intros cur m Hc; cbn [raise_peak];
    (destruct (Z.ltb_spec cur depth) as [Hlt|Hge]; cbn [negb];
     [|intros Hs; injection Hs as <-; lia]); [discriminate|].
  destruct o as [x|].
  - destruct (x =? cur); [intros Hs; injection Hs as <-; cbn; lia|]. apply IH. cbn. lia.
  - apply IH. lia.
Qed.

(** Whatever the other threads store meanwhile, when the call returns the peak
    is at least the depth it reported. *)
Lemma updateQueueDepth_covers depth others m m' :
  updateQueueDepth depth others m = Some m' -> depth <= eventbus_queue_depth_max m'.
Proof. apply raise_peak_covers. cbn. lia. Qed.

(** A completed task is counted once, in the counter of its outcome. *)
Lemma recordTaskCompletion_counts success duration m m' :
  recordTaskCompletion success duration m = Some m' ->
  tasks_completed_total m' = (if success then u64 (tasks_completed_total m + 1) else tasks_completed_total m) /\
  tasks_failed_total m' = (if success then tasks_failed_total m else u64 (tasks_failed_total m + 1)).
Proof.
  unfold recordTaskCompletion. generalize moving_average. intros avg Hs. revert Hs.
  destruct success; cbn [task_duration_avg_ms set_tasks]; (destruct (avg _ duration); [|discriminate]);
    intros Hs; injection Hs as <-; split; reflexivity.
Qed.

Lemma moving_average_nine : moving_average 0 9 = Some 0.
Proof. by_compute. Qed.

(** DEVIATION: the average is truncated to an integer at every update, so it
    sticks below the values: after any number of tasks of nine milliseconds
    each it is still zero. *)
Theorem average_of_nines_is_zero n :
  (Z.of_nat n < 2 ^ 64) ->
  Nat.iter n (λ a, a ≫= λ m, recordTaskCompletion true 9 m) (Some newNonRTMetrics) =
  Some (set_tasks (Z.of_nat n) 0 0 newNonRTMetrics).
Proof.
  induction n as [|n IH]; intros Hn; [reflexivity|]. rewrite Nat.iter_succ, IH by lia. cbn [mbind option_bind].
  unfold recordTaskCompletion. cbn [task_duration_avg_ms set_tasks tasks_completed_total tasks_failed_total].
  rewrite moving_average_nine, u64_small by (unfold in_u64; lia). cbn [mbind option_bind].
  replace (Z.of_nat (S n)) with (Z.of_nat n + 1) by lia. reflexivity.
Qed.

End NonRt.
