(* ===== verification/Accessors.v ===== *)
(** * Typed accessors of the data store (src/core/datastore/core/VersionedData.h, impl, interfaces)

    Values with a version and a time stamp, and the three accessors that give
    each of their keys a C++ type.  The accessors hold a reference to the data
    store, so their methods are functions of its state. *)

From S2P Require Import Prelude Interfaces Ieee754 Expiration DataStore.
#[local] Open Scope Z_scope.

(** ** VersionedData *)

Module Versioned.

Record VersionedData (T : Type) := mkVd { value : T; version : Z; timestamp_ns : Z }.
Arguments mkVd {T} _ _ _.
Arguments value {T} _.
Arguments version {T} _.
Arguments timestamp_ns {T} _.

Section Methods.
Context {T : Type}.
Implicit Types a b : VersionedData T.

(** [now] is what the steady clock reads. *)
Definition fresh (now : Z) (v : T) : VersionedData T := mkVd v 1 (u64 now).
Definition update (now : Z) (v : T) a : VersionedData T := mkVd v (u64 (version a + 1)) (u64 now).
Definition isConsistentWith a b : bool := version a =? version b.
Definition isNewerThan a b : bool := version b <? version a.
Definition getVersion a : Z := version a.
Definition getTimestampNs a : Z := timestamp_ns a.
Definition isModified a : bool := 0 <? version a.

(** An update makes the data newer, until the 64-bit version starts again. *)
Lemma update_is_newer now v a :
  0 <= version a < 2 ^ 64 - 1 ->
  isNewerThan (update now v a) a = true /\ isConsistentWith (update now v a) a = false /\
  isModified (update now v a) = true.
Proof.
  intros Hv. unfold isNewerThan, isConsistentWith, isModified, update. cbn [version].
  rewrite u64_small by (unfold in_u64; lia). lia.
Qed.
End Methods.

(** *** [tryOptimisticRead] beside a writer

    A value of several words, each access a step.  [update] stores the words,
    then adds one to the version, then stores the time stamp. *)

Inductive Access := WriteWord (i : nat) (w : Z) | AddVersion | WriteStamp (now : Z).

Definition write (x : Access) (a : VersionedData (list Z)) : VersionedData (list Z) :=
  match x with
  | WriteWord i w => mkVd (<[i := w]> (value a)) (version a) (timestamp_ns a)
  | AddVersion => mkVd (value a) (u64 (version a + 1)) (timestamp_ns a)
  | WriteStamp now => mkVd (value a) (version a) (u64 now)
  end.

Definition update_accesses (now : Z) (v : list Z) : list Access :=
  imap WriteWord v ++ [AddVersion; WriteStamp now].

(** What the reader does between two accesses of the writer: [R_Word] copies
    the next word. *)
Inductive Reader := R_Start | R_Words (v1 : Z) (copied : list Z) | R_End (v1 : Z) (copied : list Z) (v2 : Z).

Definition read_step (a : VersionedData (list Z)) (r : Reader) : Reader :=
  match r with
  | R_Start => R_Words (getVersion a) []
  | R_Words v1 copied =>
    match value a !! length copied with
    | Some w => R_Words v1 (copied ++ [w])
    | None => R_End v1 copied (getVersion a)
    end
  | R_End _ _ _ => r
  end.

Definition verdict (r : Reader) : option (bool * list Z) :=
  match r with R_End v1 copied v2 => Some (v1 =? v2, copied) | _ => None end.

(** A schedule: [None] is a step of the reader. *)
Fixpoint interleave (es : list (option Access)) (a : VersionedData (list Z)) (r : Reader) : VersionedData (list Z) * Reader :=
  match es with
  | [] => (a, r)
  | None :: es => interleave es a (read_step a r)
  | Some x :: es => interleave es (write x a) r
  end.

Lemma write_words vs : forall pre post ver ts,
  length vs = length post ->
  foldl (λ a x, write x a) (mkVd (pre ++ post) ver ts) (imap (λ i w, WriteWord (length pre + i) w) vs) =
  mkVd (pre ++ vs) ver ts.
Proof.
  induction vs as [|w vs IH]; intros pre [|p post] ver ts Hl; try discriminate; [reflexivity|].
  cbn [imap foldl]. rewrite Nat.add_0_r. cbn [write value version timestamp_ns].
  rewrite insert_app_r_alt, Nat.sub_diag by lia. cbn [insert list_insert].
  replace (pre ++ w :: post) with ((pre ++ [w]) ++ post) by (rewrite <- app_assoc; reflexivity).
  injection Hl as Hl.
  replace (pre ++ w :: vs) with ((pre ++ [w]) ++ vs) by (rewrite <- app_assoc; reflexivity).
  rewrite <- (IH (pre ++ [w]) post ver ts Hl). f_equal. apply imap_ext. intros i x _. cbn.
  rewrite length_app. cbn. f_equal. lia.
Qed.

(** Run alone, the writer's accesses are [update]. *)
Lemma update_alone now v a :
  length v = length (value a) -> foldl (λ a x, write x a) a (update_accesses now v) = update now v a.
Proof.
  intros Hl. destruct a as [old ver ts]. cbn [value] in Hl. unfold update_accesses. rewrite foldl_app.
  pose proof (write_words v [] old ver ts Hl) as Hw. cbn [app length] in Hw.
  erewrite (imap_ext _ (λ i w, WriteWord (0 + i) w)) by reflexivity. rewrite Hw. reflexivity.
Qed.

Lemma read_words a v1 n : (n <= length (value a))%nat ->
  Nat.iter n (read_step a) (R_Words v1 []) = R_Words v1 (take n (value a)).
Proof.
  induction n as [|n IH]; intros Hn; [reflexivity|]. rewrite Nat.iter_succ, IH by lia. cbn [read_step].
  rewrite length_take, Nat.min_l by lia.
  destruct (lookup_lt_is_Some_2 (value a) n) as [w Hw]; [lia|]. rewrite Hw. by rewrite (take_S_r _ _ w).
Qed.

(** Run alone, the reader accepts, and has the value. *)
Lemma read_alone a :
  verdict (Nat.iter (2 + length (value a)) (read_step a) R_Start) = Some (true, value a).
Proof.
  replace (2 + length (value a))%nat with (S (length (value a) + 1))%nat by lia.
  rewrite Nat.iter_succ, Nat.iter_add.
  change (Nat.iter 1 (read_step a) R_Start) with (R_Words (getVersion a) []). rewrite read_words, firstn_all by lia.
  cbn [read_step]. rewrite (lookup_ge_None_2 (value a)) by lia. cbn. by rewrite Z.eqb_refl.
Qed.

(** DEVIATION: the version changes only after the value, so a reader between
    the two stores of an update accepts half of each value. *)
Theorem torn_read_is_accepted :
  let a := fresh 5 [1; 1] in
  let '(_, r) := interleave [Some (WriteWord 0 2); None; None; None; None; Some (WriteWord 1 2); Some AddVersion] a R_Start in
  update_accesses 9 [2; 2] = [WriteWord 0 2; WriteWord 1 2; AddVersion; WriteStamp 9] /\
  verdict r = Some (true, [2; 1]).
Proof. cbv zeta. split; by_compute. Qed.
End Versioned.

(** ** The values the accessors store *)

Record Vector3d := mkVec { x : Z; y : Z; z : Z }.

Definition vec_eq (a b : Vector3d) : bool :=
  double_eq (x a) (x b) && double_eq (y a) (y b) && double_eq (z a) (z b).
Definition vec_ne (a b : Vector3d) : bool := negb (vec_eq a b).

Module TaskStatus.
Inductive TaskState := IDLE | RUNNING | PAUSED | COMPLETED | FAILED.
Definition taskStateToString (s : TaskState) : string :=
  match s with
  | IDLE => "IDLE" | RUNNING => "RUNNING" | PAUSED => "PAUSED" | COMPLETED => "COMPLETED" | FAILED => "FAILED"
  end.
End TaskStatus.

Inductive Other := OVector3d (v : Vector3d) | OVector (l : list Z) | OTaskState (t : TaskStatus.TaskState).

(** A C++ type of values the store can hold. *)
Record CppType (T : Type) := mkType { type_id : TypeId; wrap_any : T -> any Other; any_cast : any Other -> option T }.
Arguments mkType {T} _ _ _.
Arguments type_id {T} _.
Arguments wrap_any {T} _ _.
Arguments any_cast {T} _ _.

Definition t_double : CppType Z := mkType TDouble ValDouble (λ a, match a with ValDouble v => Some v | _ => None end).
Definition t_int : CppType Z := mkType TInt ValInt (λ a, match a with ValInt v => Some v | _ => None end).
Definition t_vector3d : CppType Vector3d :=
  mkType (TOther "Vector3d") (λ v, ValOther "Vector3d" (OVector3d v))
    (λ a, match a with ValOther _ (OVector3d v) => Some v | _ => None end).
Definition t_vector : CppType (list Z) :=
  mkType (TOther "vector<double>") (λ l, ValOther "vector<double>" (OVector l))
    (λ a, match a with ValOther _ (OVector l) => Some l | _ => None end).
Definition t_task_state : CppType TaskStatus.TaskState :=
  mkType (TOther "TaskState") (λ t, ValOther "TaskState" (OTaskState t))
    (λ a, match a with ValOther _ (OTaskState t) => Some t | _ => None end).

Record is_type {T} (t : CppType T) : Prop := {
  ty_id : forall v, typeid (wrap_any t v) = type_id t;
  ty_cast : forall v, any_cast t (wrap_any t v) = Some v
}.

Lemma t_double_ok : is_type t_double. Proof. by split. Qed.
Lemma t_int_ok : is_type t_int. Proof. by split. Qed.
Lemma t_vector3d_ok : is_type t_vector3d. Proof. by split. Qed.
Lemma t_vector_ok : is_type t_vector. Proof. by split. Qed.
Lemma t_task_state_ok : is_type t_task_state. Proof. by split. Qed.

(** ** The accessors *)

Definition sensor_KEYS : list string :=
  ["sensor.temperature"; "sensor.pressure"; "sensor.humidity"; "sensor.vibration"; "sensor.current"].
Definition robot_KEYS : list string :=
  ["robot_state.position"; "robot_state.velocity"; "robot_state.joint_angles"; "robot_state.joint_velocities"].
Definition task_KEYS : list string := ["task_status.state"; "task_status.progress"; "task_status.error_code"].

Definition sensor_getDomain : string := "sensor".
Definition robot_getDomain : string := "robot_state".
Definition task_getDomain : string := "task_status".

Definition KEY (ks : list string) (i : nat) : string := nth i ks "".

Section Accessors.
Context {W : Type} `{!Observers Other W} (to_string : Z -> string).
Implicit Types s : DataStore Other W.

(** [getVersioned<T>] and [setVersioned<T>] *)
Definition get_typed {T} (t : CppType T) (key : string) s : result string (Versioned.VersionedData T) :=
  match getVersioned (type_id t) key s with
  | Throw e => Throw e
  | Ok d =>
    match any_cast t (vd_value d) with
    | Some v => Ok (Versioned.mkVd v (vd_version d) (vd_timestamp_ns d))
    | None => Throw "bad any_cast"
    end
  end.
Definition set_typed {T} (t : CppType T) (clk : nat -> Z) (key : string) (v : T) (type : DataType) s : DataStore Other W :=
  setVersioned clk key (wrap_any t v) type s.

Definition getTemperature := get_typed t_double (KEY sensor_KEYS 0).
Definition getPressure := get_typed t_double (KEY sensor_KEYS 1).
Definition getHumidity := get_typed t_double (KEY sensor_KEYS 2).
Definition getVibration := get_typed t_double (KEY sensor_KEYS 3).
Definition getCurrent := get_typed t_double (KEY sensor_KEYS 4).
Definition setTemperature clk v := set_typed t_double clk (KEY sensor_KEYS 0) v RobotMode.
Definition setPressure clk v := set_typed t_double clk (KEY sensor_KEYS 1) v RobotMode.
Definition setHumidity clk v := set_typed t_double clk (KEY sensor_KEYS 2) v RobotMode.
Definition setVibration clk v := set_typed t_double clk (KEY sensor_KEYS 3) v RobotMode.
Definition setCurrent clk v := set_typed t_double clk (KEY sensor_KEYS 4) v RobotMode.

Definition getPosition := get_typed t_vector3d (KEY robot_KEYS 0).
Definition getVelocity := get_typed t_vector3d (KEY robot_KEYS 1).
Definition getJointAngles := get_typed t_vector (KEY robot_KEYS 2).
Definition getJointVelocities := get_typed t_vector (KEY robot_KEYS 3).
Definition setPosition clk v := set_typed t_vector3d clk (KEY robot_KEYS 0) v RobotMode.
Definition setVelocity clk v := set_typed t_vector3d clk (KEY robot_KEYS 1) v RobotMode.
Definition setJointAngles clk v := set_typed t_vector clk (KEY robot_KEYS 2) v RobotMode.
Definition setJointVelocities clk v := set_typed t_vector clk (KEY robot_KEYS 3) v RobotMode.

Definition getTaskState := get_typed t_task_state (KEY task_KEYS 0).
Definition getProgress := get_typed t_double (KEY task_KEYS 1).
Definition getErrorCode := get_typed t_int (KEY task_KEYS 2).
Definition setTaskState clk v := set_typed t_task_state clk (KEY task_KEYS 0) v TaskState.
Definition out_of_range (v : Z) : bool := double_lt v (double_of_int 0) || double_lt (double_of_int 1) v.
Definition setProgress (clk : nat -> Z) (v : Z) s : result string unit * DataStore Other W :=
  if out_of_range v then
    (Throw ("TaskStatusAccessor::setProgress: value must be in range [0.0, 1.0], got " +:+ to_string v), s)
  else (Ok tt, set_typed t_double clk (KEY task_KEYS 1) v TaskState s).
Definition setErrorCode clk v := set_typed t_int clk (KEY task_KEYS 2) v TaskState.

(** *** Runs *)

Inductive SetOp :=
| SetTemperature (v : Z) | SetPressure (v : Z) | SetHumidity (v : Z) | SetVibration (v : Z) | SetCurrent (v : Z)
| SetPosition (v : Vector3d) | SetVelocity (v : Vector3d) | SetJointAngles (v : list Z) | SetJointVelocities (v : list Z)
| SetTaskState (v : TaskStatus.TaskState) | SetProgress (v : Z) | SetErrorCode (v : Z).

Definition set_exec (c : (nat -> Z) * SetOp) s : DataStore Other W :=
  let '(clk, o) := c in
  match o with
  | SetTemperature v => setTemperature clk v s | SetPressure v => setPressure clk v s
  | SetHumidity v => setHumidity clk v s | SetVibration v => setVibration clk v s | SetCurrent v => setCurrent clk v s
  | SetPosition v => setPosition clk v s | SetVelocity v => setVelocity clk v s
  | SetJointAngles v => setJointAngles clk v s | SetJointVelocities v => setJointVelocities clk v s
  | SetTaskState v => setTaskState clk v s | SetProgress v => snd (setProgress clk v s)
  | SetErrorCode v => setErrorCode clk v s
  end.

Definition set_run (l : list ((nat -> Z) * SetOp)) s : DataStore Other W := foldl (λ s c, set_exec c s) s l.

(** *** The registers an accessor promises

    [sel] picks the writes of one register out of the calls; a read gives the
    last one, the number of them and the time of the last. *)
Definition writes {T} (sel : SetOp -> option T) (l : list ((nat -> Z) * SetOp)) : list (T * Z) :=
  omap (λ c, (λ v, (v, c.1 0%nat)) <$> sel c.2) l.

Definition reads_last {T} (sel : SetOp -> option T) (key : string) (l : list ((nat -> Z) * SetOp))
    (r : result string (Versioned.VersionedData T)) : Prop :=
  r = match last (writes sel l) with
      | None => Throw ("DataStore::getVersioned: Key not found: " +:+ key)
      | Some (v, now) => Ok (Versioned.mkVd v (u64 (Z.of_nat (length (writes sel l)))) (u64 now))
      end.

(** The entry an accepted call writes. *)
Definition effect (o : SetOp) : option (string * any Other) :=
  match o with
  | SetTemperature v => Some (KEY sensor_KEYS 0, ValDouble v)
  | SetPressure v => Some (KEY sensor_KEYS 1, ValDouble v)
  | SetHumidity v => Some (KEY sensor_KEYS 2, ValDouble v)
  | SetVibration v => Some (KEY sensor_KEYS 3, ValDouble v)
  | SetCurrent v => Some (KEY sensor_KEYS 4, ValDouble v)
  | SetPosition v => Some (KEY robot_KEYS 0, wrap_any t_vector3d v)
  | SetVelocity v => Some (KEY robot_KEYS 1, wrap_any t_vector3d v)
  | SetJointAngles v => Some (KEY robot_KEYS 2, wrap_any t_vector v)
  | SetJointVelocities v => Some (KEY robot_KEYS 3, wrap_any t_vector v)
  | SetTaskState v => Some (KEY task_KEYS 0, wrap_any t_task_state v)
  | SetProgress v => if out_of_range v then None else Some (KEY task_KEYS 1, ValDouble v)
  | SetErrorCode v => Some (KEY task_KEYS 2, ValInt v)
  end.

Definition to_key (key : string) (o : SetOp) : option (any Other) :=
  match effect o with Some (k, v) => if bool_decide (k = key) then Some v else None | None => None end.

Lemma setVersioned_effect clk key v type s :
  let s' := setVersioned clk key v type s in
  data_map_ s' = <[key := new_data (clk 0%nat) key v (dt_val type) (mkPolicy NoPolicy 0)]> (data_map_ s) /\
  version_map_ s' = <[key := match version_map_ s !! key with None => 1 | Some n => u64 (n + 1) end]> (version_map_ s).
Proof.
  unfold setVersioned. cbv zeta.
  match goal with |- context [notifySubscribers ?n ?d ?x] => destruct (notify_frame n d x) as (-> & -> & _) end.
  split; reflexivity.
Qed.

Lemma set_exec_effect clk o s :
  match effect o with
  | None => set_exec (clk, o) s = s
  | Some (k, v) => exists type, set_exec (clk, o) s = setVersioned clk k v type s
  end.
Proof.
  unfold effect. destruct o; [.. | unfold set_exec, setProgress; destruct (out_of_range v); [reflexivity|] |].
  all: first [exists RobotMode; reflexivity | exists TaskState; reflexivity].
Qed.

Lemma set_run_snoc l c s : set_run (l ++ [c]) s = set_exec c (set_run l s).
Proof. unfold set_run. by rewrite foldl_app. Qed.

Lemma writes_snoc {T} (sel : SetOp -> option T) l clk o :
  writes sel (l ++ [(clk, o)]) = writes sel l ++ match sel o with Some v => [(v, clk 0%nat)] | None => [] end.
Proof. unfold writes. rewrite omap_app. cbn. by destruct (sel o). Qed.

Definition versions (n : nat) : option Z := match n with O => None | S _ => Some (u64 (Z.of_nat n)) end.

Lemma run_writes key w l :
  let s := set_run l (newDataStore w) in
  (λ d, (sd_value d, sd_timestamp d)) <$> data_map_ s !! key = last (writes (to_key key) l) /\
  version_map_ s !! key = versions (length (writes (to_key key) l)).
Proof.
  cbv zeta. induction l as [|[clk o] l IH] using rev_ind; [split; reflexivity|].
  rewrite set_run_snoc, writes_snoc. destruct IH as [IHd IHv].
  pose proof (set_exec_effect clk o (set_run l (newDataStore w))) as He. unfold to_key at 2 4.
  destruct (effect o) as [[k v]|]; [|rewrite He, app_nil_r; split; assumption].
  destruct He as [type ->]. destruct (setVersioned_effect clk k v type (set_run l (newDataStore w))) as [-> ->].
  case_bool_decide as Hk.
  - subst k. rewrite !lookup_insert_eq, IHv, last_snoc, length_app. split; [reflexivity|].
    cbn [length]. rewrite Nat.add_comm. cbn [versions Nat.add].
    destruct (length (writes (to_key key) l)) as [|n]; cbn [versions]; [reflexivity|].
    f_equal. unfold u64, wrap. rewrite Zplus_mod_idemp_l. f_equal. lia.
  - rewrite !lookup_insert_ne, app_nil_r by done. split; assumption.
Qed.

Lemma writes_fmap {T} (t : CppType T) (sel : SetOp -> option T) key l :
  (forall o, to_key key o = wrap_any t <$> sel o) ->
  writes (to_key key) l = (λ p, (wrap_any t p.1, p.2)) <$> writes sel l.
Proof.
  intros Hsel. unfold writes. rewrite list_fmap_omap. apply list_omap_ext.
  apply Forall_Forall2_diag, Forall_true. intros [clk o]. cbn. rewrite Hsel. by destruct (sel o).
Qed.

Lemma get_typed_reads_last {T} (t : CppType T) (sel : SetOp -> option T) key w l :
  is_type t -> (forall o, to_key key o = wrap_any t <$> sel o) ->
  reads_last sel key l (get_typed t key (set_run l (newDataStore w))).
Proof.
  intros Ht Hsel. unfold reads_last, get_typed, getVersioned.
  destruct (run_writes key w l) as [Hd Hv]. rewrite Hv. clear Hv.
  rewrite (writes_fmap t sel key l Hsel), fmap_last in Hd. rewrite (writes_fmap t sel key l Hsel), length_fmap.
  destruct (data_map_ (set_run l (newDataStore w)) !! key) as [d|]; cbn [fmap option_fmap option_map] in Hd.
  - destruct (last (writes sel l)) as [[v now]|] eqn:Hl; [|discriminate]. cbn in Hd. injection Hd as Hdv Hdt.
    rewrite Hdv, (ty_id t Ht), bool_decide_true by done. cbn [vd_value vd_version vd_timestamp_ns].
    rewrite (ty_cast t Ht), Hdt. destruct (writes sel l) as [|p l']; [discriminate|]. reflexivity.
  - destruct (last (writes sel l)) as [[v now]|]; [discriminate|reflexivity].
Qed.

(** C38: on a new data store that nobody else writes, the three accessors are
    twelve independent typed registers.  After any calls of their setters, each getter gives the value of the last accepted
    call of its own setter with the number of those calls as the version and
    the time of the last; before the first it throws.  [setProgress] accepts
    no number outside 0 to 1. *)
Theorem accessors_are_registers (w : W) (l : list ((nat -> Z) * SetOp)) :
  let s := set_run l (newDataStore w) in
  reads_last (λ o, match o with SetTemperature v => Some v | _ => None end) "sensor.temperature" l (getTemperature s) /\
  reads_last (λ o, match o with SetPressure v => Some v | _ => None end) "sensor.pressure" l (getPressure s) /\
  reads_last (λ o, match o with SetHumidity v => Some v | _ => None end) "sensor.humidity" l (getHumidity s) /\
  reads_last (λ o, match o with SetVibration v => Some v | _ => None end) "sensor.vibration" l (getVibration s) /\
  reads_last (λ o, match o with SetCurrent v => Some v | _ => None end) "sensor.current" l (getCurrent s) /\
  reads_last (λ o, match o with SetPosition v => Some v | _ => None end) "robot_state.position" l (getPosition s) /\
  reads_last (λ o, match o with SetVelocity v => Some v | _ => None end) "robot_state.velocity" l (getVelocity s) /\
  reads_last (λ o, match o with SetJointAngles v => Some v | _ => None end) "robot_state.joint_angles" l (getJointAngles s) /\
  reads_last (λ o, match o with SetJointVelocities v => Some v | _ => None end) "robot_state.joint_velocities" l
    (getJointVelocities s) /\
  reads_last (λ o, match o with SetTaskState v => Some v | _ => None end) "task_status.state" l (getTaskState s) /\
  reads_last (λ o, match o with SetProgress v => if out_of_range v then None else Some v | _ => None end)
    "task_status.progress" l (getProgress s) /\
  reads_last (λ o, match o with SetErrorCode v => Some v | _ => None end) "task_status.error_code" l (getErrorCode s).
Proof.
  cbv zeta.
  repeat match goal with |- _ /\ _ => split end;
    (apply get_typed_reads_last;
     [first [apply t_double_ok | apply t_vector3d_ok | apply t_vector_ok | apply t_task_state_ok | apply t_int_ok]
     |intros []; try reflexivity; unfold to_key, effect; by destruct (out_of_range v)]).
Qed.
End Accessors.

(** Every key of an accessor is in its domain, and no two are the same. *)
Lemma keys_in_domains :
  NoDup (sensor_KEYS ++ robot_KEYS ++ task_KEYS) /\
  Forall (λ k, String.prefix (sensor_getDomain +:+ ".") k = true) sensor_KEYS /\
  Forall (λ k, String.prefix (robot_getDomain +:+ ".") k = true) robot_KEYS /\
  Forall (λ k, String.prefix (task_getDomain +:+ ".") k = true) task_KEYS.
Proof.
  split; [apply (bool_decide_unpack _); vm_compute; exact I|]. repeat split; repeat constructor.
Qed.

#[export] Instance no_observers : Observers Other unit :=
  {| obs_alive _ _ := false; onDataChanged _ _ w := (w, None) |}.

Definition clock_at (t : Z) : nat -> Z := λ _, t.
Definition double_nan : Z := 0x7FF8000000000000.

(** DEVIATION: [setProgress] is to take numbers between 0 and 1 and accepts a
    NaN, which is neither below 0 nor above 1. *)
Theorem nan_progress_is_accepted :
  let r := setProgress (λ _, "nan"%string) (clock_at 7) double_nan (newDataStore tt) in
  fst r = Ok tt /\ getProgress (snd r) = Ok (Versioned.mkVd double_nan 1 7).
Proof. cbv zeta. split; by_compute. Qed.

(** DEVIATION: the contract of the accessors gives the progress as 0 to 100;
    [setProgress] refuses everything above 1. *)
Theorem progress_in_percent_is_refused :
  exists e, setProgress (λ _, "50.000000"%string) (clock_at 7) (double_of_int 50) (newDataStore tt) = (Throw e, newDataStore tt).
Proof. eexists. vm_compute. reflexivity. Qed.

(** DEVIATION: [DataStore::set] replaces the value of an accessor's key and
    leaves the version: a reader that compares versions misses the change. *)
Theorem plain_set_keeps_the_version :
  let s := setTemperature (clock_at 1) (double_of_int 20) (newDataStore tt : DataStore Other unit) in
  let s' := snd (set (λ _, "d"%string) (clock_at 2) "sensor.temperature" (ValDouble (double_of_int 90)) RobotMode
                   (mkPolicy NoPolicy 0) s) in
  exists a b, getTemperature s = Ok a /\ getTemperature s' = Ok b /\
    Versioned.value b <> Versioned.value a /\ Versioned.isNewerThan b a = false.
Proof.
  exists (Versioned.mkVd (double_of_int 20) 1 1), (Versioned.mkVd (double_of_int 90) 1 2).
  split; [by_compute|]. split; [by_compute|]. split; [vm_compute; congruence|by_compute].
Qed.
