(* ===== verification/HotKeys.v ===== *)
(** * Hot keys (src/core/datastore/hotkey)

    The loader of the hot-key list and the cache for those keys.  yaml-cpp is
    the class [Yaml] of the EtherCAT loader with the pairs of a map added, and
    folly's AtomicHashMap is a finite map whose [insert] may throw. *)

From stdpp Require Import pretty.
From Stdlib Require Import Ascii.
From S2P Require Import Prelude Text Pdo EtherCATMaster YamlConfig.
#[local] Open Scope Z_scope.

(** ** HotKeyConfig *)

Record HotKeyInfo := mkInfo { key_name : string; type : string; description : string; estimated_size_bytes : Z }.

Record HotKeyConfig := mkConfig {
  hot_keys_ : list HotKeyInfo;
  total_memory_usage_ : Z;
  errors_ : list string;
  warnings_ : list string
}.

Definition newConfig : HotKeyConfig := mkConfig [] 0 [] [].

Definition MAX_HOT_KEYS : nat := 32.
Definition MAX_HOT_KEY_SIZE_BYTES : Z := 512.
Definition MAX_TOTAL_MEMORY_BYTES : Z := 10 * 1024 * 1024.

Definition push_error (e : string) (c : HotKeyConfig) : HotKeyConfig :=
  mkConfig (hot_keys_ c) (total_memory_usage_ c) (errors_ c ++ [e]) (warnings_ c).
Definition push_warning (e : string) (c : HotKeyConfig) : HotKeyConfig :=
  mkConfig (hot_keys_ c) (total_memory_usage_ c) (errors_ c) (warnings_ c ++ [e]).
Definition push_key (i : HotKeyInfo) (c : HotKeyConfig) : HotKeyConfig :=
  mkConfig (hot_keys_ c ++ [i]) (u64 (total_memory_usage_ c + estimated_size_bytes i)) (errors_ c) (warnings_ c).

Definition type_sizes (t : string) : option Z :=
  if bool_decide (t = "double") then Some 8 else if bool_decide (t = "float") then Some 4
  else if bool_decide (t = "int32_t") then Some 4 else if bool_decide (t = "uint32_t") then Some 4
  else if bool_decide (t = "int64_t") then Some 8 else if bool_decide (t = "uint64_t") then Some 8
  else if bool_decide (t = "bool") then Some 1 else if bool_decide (t = "string") then Some 256
  else if bool_decide (t = "Vector3d") then Some 24 else None.

Definition is_word (c : ascii) : bool :=
  let n := Z.of_N (N_of_ascii c) in
  ((48 <=? n) && (n <=? 57)) || ((65 <=? n) && (n <=? 90)) || ((97 <=? n) && (n <=? 122)) || (n =? 95).
Definition is_digit (c : ascii) : bool := bool_decide (is_Some (dec_digit c)).

(** The longest prefix of characters in a class, and the rest. *)
Fixpoint span (p : ascii -> bool) (l : chars) : chars * chars :=
  match l with
  | c :: l' => if p c then let '(a, b) := span p l' in (c :: a, b) else ([], l)
  | [] => ([], [])
  end.

(** A whole match of [array<(\w+),\s*(\d+)>]: the two groups.  The class of
    each repetition excludes the character after it, so the longest run is the
    only one that can match. *)
Definition array_pattern (s : string) : option (string * string) :=
  let l := to_chars s in
  let p := to_chars "array<" in
  if bool_decide (take 6 l = p) then
    let '(elem, l) := span is_word (drop 6 l) in
    match l with
    | c :: l =>
      if bool_decide (c = ","%char) then
        let '(count, rest) := span is_digit (snd (span is_space l)) in
        if bool_decide (elem <> [] /\ count <> [] /\ rest = [">"%char]) then Some (of_chars elem, of_chars count)
        else None
      else None
    | [] => None
    end
  else None.

Definition estimateTypeSize (t : string) : result string Z :=
  match type_sizes t with
  | Some n => Ok n
  | None =>
    match array_pattern t with
    | Some (elem, count) =>
      match stoull count with
      | Throw e => Throw e
      | Ok count => Ok (u64 (default 8 (type_sizes elem) * count))
      end
    | None => Ok 8
    end
  end.

Definition isHotKey (key : string) (c : HotKeyConfig) : bool :=
  existsb (λ i, bool_decide (key_name i = key)) (hot_keys_ c).

(** The loop over the sizes; gives the errors it appends. *)
Definition size_errors (keys : list HotKeyInfo) : list string :=
  omap (λ i, if MAX_HOT_KEY_SIZE_BYTES <? estimated_size_bytes i then
               Some ("Hot Key '" +:+ key_name i +:+ "' size exceeds limit: " +:+ pretty (estimated_size_bytes i) +:+
                     " > " +:+ pretty MAX_HOT_KEY_SIZE_BYTES +:+ " bytes")
             else None) keys.

Definition validateConstraints (c : HotKeyConfig) : bool * HotKeyConfig :=
  let too_many := bool_decide (MAX_HOT_KEYS < length (hot_keys_ c))%nat in
  let c1 := if too_many
            then push_error ("Hot Key count exceeds limit: " +:+ pretty (length (hot_keys_ c)) +:+ " > " +:+ pretty MAX_HOT_KEYS) c
            else c in
  let sizes := size_errors (hot_keys_ c) in
  let c2 := foldl (λ c e, push_error e c) c1 sizes in
  let c3 := if MAX_TOTAL_MEMORY_BYTES <? total_memory_usage_ c
            then push_warning ("Total Hot Key memory usage: " +:+ pretty (total_memory_usage_ c) +:+ " bytes (target: < " +:+
                               pretty MAX_TOTAL_MEMORY_BYTES +:+ " bytes)") c2
            else c2 in
  (negb too_many && bool_decide (sizes = []), c3).

(** ** Loading *)

(** The pairs a range-for over a node visits. *)
Class YamlPairs (N : Type) := y_pairs : N -> list (N * N).

(** What is thrown: by yaml-cpp, or by something else. *)
Inductive Thrown := YamlException (what : string) | StdException (what : string).

Section Load.
Context {N : Type} `{!Yaml N, !YamlPairs N}.

Definition yaml {A} (r : result string A) : result Thrown A :=
  match r with Ok a => Ok a | Throw e => Throw (YamlException e) end.
Definition std {A} (r : result string A) : result Thrown A :=
  match r with Ok a => Ok a | Throw e => Throw (StdException e) end.
Definition bind {A B} (r : result Thrown A) (k : A -> result Thrown B) : result Thrown B :=
  match r with Ok a => k a | Throw e => Throw e end.

(** [key_spec["hot_key"] && key_spec["hot_key"].as<bool>()] *)
Definition is_hot (spec : N) : result string bool :=
  match y_get spec "hot_key" with
  | Throw e => Throw e
  | Ok None => Ok false
  | Ok (Some _) => get_as y_bool spec "hot_key"
  end.

(** One pair of the map: the information of a hot key, if it is one. *)
Definition parse_key (kv : N * N) : result Thrown (option HotKeyInfo) :=
  bind (yaml (match y_string kv.1 with Some k => Ok k | None => Throw "bad conversion" end)) (λ name,
  bind (yaml (is_hot kv.2)) (λ hot,
  if negb hot then Ok None
  else
    bind (yaml (get_as y_string kv.2 "type")) (λ ty,
    bind (yaml (get_or y_string kv.2 "description" "")) (λ descr,
    bind (std (estimateTypeSize ty)) (λ size, Ok (Some (mkInfo name ty descr size))))))).

(** The loop: what it stored before an exception stays. *)
Fixpoint parse_keys (l : list (N * N)) (c : HotKeyConfig) : HotKeyConfig * option Thrown :=
  match l with
  | [] => (c, None)
  | kv :: l =>
    match parse_key kv with
    | Throw e => (c, Some e)
    | Ok None => parse_keys l c
    | Ok (Some i) => parse_keys l (push_key i c)
    end
  end.

(** The file: not there, refused by [YAML::LoadFile], or a document. *)
Inductive SchemaFile := NoFile | BadFile (e : Thrown) | Schema (n : N).

Definition caught (e : Thrown) (c : HotKeyConfig) : bool * HotKeyConfig :=
  (false, push_error (match e with
                      | YamlException w => "YAML parsing error: " +:+ w
                      | StdException w => "Error loading schema: " +:+ w
                      end) c).

Definition loadFromSchema (path : string) (file : SchemaFile) (c : HotKeyConfig) : bool * HotKeyConfig :=
  let c := newConfig in
  match file with
  | NoFile => (false, push_error ("Schema file not found: " +:+ path) c)
  | BadFile e => caught e c
  | Schema schema =>
    match y_get schema "datastore_keys" with
    | Throw e => caught (YamlException e) c
    | Ok None => (false, push_error "Missing 'datastore_keys' section in schema" c)
    | Ok (Some keys) =>
      match parse_keys (y_pairs keys) c with
      | (c, Some e) => caught e c
      | (c, None) => validateConstraints c
      end
    end
  end.
End Load.
Arguments SchemaFile N : clear implicits.

(** ** HotKeyCache *)

(** A slot is a [std::any]: empty, or a [VersionedValue<T>] of the type named. *)
Inductive Slot (V : Type) := Empty | Holds (ty : string) (version : Z) (value : V).
Arguments Empty {V}.
Arguments Holds {V} _ _ _.

Record HotKeyCache (V : Type) := mkCache {
  capacity_ : nat;
  hot_key_count_ : nat;
  cache_ : gmap string (Slot V);
  read_count_ : Z;
  write_count_ : Z;
  retry_count_ : Z
}.
Arguments mkCache {V} _ _ _ _ _ _.
Arguments capacity_ {V} _.
Arguments hot_key_count_ {V} _.
Arguments cache_ {V} _.
Arguments read_count_ {V} _.
Arguments write_count_ {V} _.
Arguments retry_count_ {V} _.

Section Cache.
Context {V : Type}.
Implicit Types c : HotKeyCache V.

Definition newCache (capacity : nat) : HotKeyCache V := mkCache capacity 0 ∅ 0 0 0.

Definition MAX_READ_RETRIES : nat := 10.

Definition set_slots (n : nat) (m : gmap string (Slot V)) c : HotKeyCache V :=
  mkCache (capacity_ c) n m (read_count_ c) (write_count_ c) (retry_count_ c).
Definition set_counts (r w t : Z) c : HotKeyCache V := mkCache (capacity_ c) (hot_key_count_ c) (cache_ c) r w t.

(** [throws]: the map has no room. *)
Definition registerHotKey (throws : bool) (key : string) c : bool * HotKeyCache V :=
  if bool_decide (capacity_ c <= hot_key_count_ c)%nat then (false, c)
  else if throws then (false, c)
  else match cache_ c !! key with
       | None => (true, set_slots (S (hot_key_count_ c)) (<[key := Empty]> (cache_ c)) c)
       | Some _ => (true, c)
       end.

Definition cache_isHotKey (key : string) c : bool := bool_decide (is_Some (cache_ c !! key)).
Definition getHotKeyCount c : nat := hot_key_count_ c.
Definition getMetrics c : gmap string Z :=
  <["read_count" := read_count_ c]> (<["write_count" := write_count_ c]> (<["retry_count" := retry_count_ c]>
    (<["hot_key_count" := Z.of_nat (hot_key_count_ c)]> (<["capacity" := Z.of_nat (capacity_ c)]> ∅)))).

(** [set<T>], run without interference. *)
Definition set (ty key : string) (v : V) c : bool * HotKeyCache V :=
  let c := set_counts (read_count_ c) (u64 (write_count_ c + 1)) (retry_count_ c) c in
  match cache_ c !! key with
  | None => (false, c)
  | Some slot =>
    match slot with
    | Holds ty' ver _ =>
      if bool_decide (ty' = ty) then
        (true, set_slots (hot_key_count_ c) (<[key := Holds ty (u64 (u64 (ver + 1) + 1)) v]> (cache_ c)) c)
      else (false, c)
    | Empty => (false, c)
    end
  end.

(** The attempts of [get<T>]; each sees the version, the value and the version
    again, which a writer may change between the loads.  Gives the value and
    the number of retries. *)
Fixpoint read_loop (n : nat) (seen : nat -> Z * V * Z) (i : nat) : option V * nat :=
  match n with
  | O => (None, O)
  | S n =>
    let '(before, v, after) := seen i in
    if negb (before mod 2 =? 0) || negb (before =? after)
    then let '(r, k) := read_loop n seen (S i) in (r, S k)
    else (Some v, O)
  end.

(** [get<T>]; [writers] is what the attempts see when there is a value. *)
Definition get (writers : Z -> V -> nat -> Z * V * Z) (ty key : string) c : option V * HotKeyCache V :=
  let c := set_counts (u64 (read_count_ c + 1)) (write_count_ c) (retry_count_ c) c in
  match cache_ c !! key with
  | None => (None, c)
  | Some slot =>
    match slot with
    | Holds ty' ver v =>
      if bool_decide (ty' = ty) then
        let '(r, k) := read_loop MAX_READ_RETRIES (writers ver v) 0 in
        (r, set_counts (read_count_ c) (write_count_ c) (u64 (retry_count_ c + Z.of_nat k)) c)
      else (None, c)
    | Empty => (None, c)
    end
  end.

(** Nobody writes. *)
Definition quiet (ver : Z) (v : V) : nat -> Z * V * Z := λ _, (ver, v, ver).

(** *** Runs *)

Inductive CacheOp :=
| RegisterOp (throws : bool) (key : string)
| SetOp (ty key : string) (v : V)
| GetOp (writers : Z -> V -> nat -> Z * V * Z) (ty key : string).

Definition cache_exec (o : CacheOp) c : HotKeyCache V :=
  match o with
  | RegisterOp throws key => snd (registerHotKey throws key c)
  | SetOp ty key v => snd (set ty key v c)
  | GetOp wr ty key => snd (get wr ty key c)
  end.

Definition cache_run (os : list CacheOp) c : HotKeyCache V := foldl (λ c o, cache_exec o c) c os.

(** The count is the number of keys, within the capacity; no slot holds a value. *)
Record cache_ok (n : nat) c : Prop := {
  ck_capacity : capacity_ c = n;
  ck_count : hot_key_count_ c = size (cache_ c);
  ck_room : (hot_key_count_ c <= n)%nat;
  ck_empty : forall k slot, cache_ c !! k = Some slot -> slot = Empty
}.

Lemma set_fails n ty key v c : cache_ok n c ->
  set ty key v c = (false, set_counts (read_count_ c) (u64 (write_count_ c + 1)) (retry_count_ c) c).
Proof.
  intros Hc. unfold set. cbn [cache_ set_counts]. destruct (cache_ c !! key) as [slot|] eqn:E; [|reflexivity].
  by rewrite (ck_empty n c Hc key slot E).
Qed.

Lemma get_fails n wr ty key c : cache_ok n c ->
  get wr ty key c = (None, set_counts (u64 (read_count_ c + 1)) (write_count_ c) (retry_count_ c) c).
Proof.
  intros Hc. unfold get. cbn [cache_ set_counts]. destruct (cache_ c !! key) as [slot|] eqn:E; [|reflexivity].
  by rewrite (ck_empty n c Hc key slot E).
Qed.

Lemma hotkey_register_ok n throws key c : cache_ok n c -> cache_ok n (snd (registerHotKey throws key c)).
Proof.
  intros Hc. unfold registerHotKey. case_bool_decide as Hfull; [exact Hc|]. destruct throws; [exact Hc|].
  destruct (cache_ c !! key) eqn:E; [exact Hc|]. destruct Hc as [Hn Hs Hr He]. split; cbn.
  - exact Hn.
  - rewrite map_size_insert_None by done. by rewrite Hs.
  - lia.
  - intros k slot [[_ <-]|[_ Hk]]%lookup_insert_Some; [reflexivity|by eapply He].
Qed.

Lemma set_counts_ok n r w t c : cache_ok n c -> cache_ok n (set_counts r w t c).
Proof. intros [??? He]. by split. Qed.

Lemma cache_run_ok n os : cache_ok n (cache_run os (newCache n)).
Proof.
  unfold cache_run. apply foldl_invariant; [split; cbn; [done|by rewrite map_size_empty|lia|intros k slot H; by rewrite lookup_empty in H]|].
  intros c [throws key|ty key v|wr ty key] Hc; cbn [cache_exec].
  - by apply hotkey_register_ok.
  - rewrite (set_fails n) by done. by apply set_counts_ok.
  - rewrite (get_fails n) by done. by apply set_counts_ok.
Qed.

(** The number of keys is the number registered, and never more than the
    capacity, whatever is done to the cache. *)
Theorem hot_keys_within_capacity n os :
  let c := cache_run os (newCache n) in
  getHotKeyCount c = size (cache_ c) /\ (getHotKeyCount c <= n)%nat.
Proof. destruct (cache_run_ok n os) as [_ Hs Hr _]. split; [exact Hs|exact Hr]. Qed.

(** DEVIATION: registration puts an empty [std::any] in the slot and nothing
    ever puts a [VersionedValue] there, so every write is refused and every
    read misses, for registered keys too. *)
Theorem hot_key_cache_never_hits n os wr ty key v :
  let c := cache_run os (newCache n) in
  fst (set ty key v c) = false /\ fst (get wr ty key c) = None.
Proof.
  cbv zeta. pose proof (cache_run_ok n os) as Hc. by rewrite (set_fails n), (get_fails n) by done.
Qed.

(** On a slot that did hold a value of the type, a read after a write gives it
    back, without retries. *)
Lemma set_then_get_held ty key v ver old c :
  cache_ c !! key = Some (Holds ty ver old) -> 0 <= ver < 2 ^ 64 -> ver mod 2 = 0 ->
  fst (set ty key v c) = true /\ fst (get quiet ty key (snd (set ty key v c))) = Some v.
Proof.
  intros Hk Hv He. unfold set. cbn [cache_ set_counts]. rewrite Hk, bool_decide_true by done.
  split; [reflexivity|]. cbn [snd]. unfold get. cbn [cache_ set_counts set_slots]. rewrite lookup_insert_eq, bool_decide_true by done.
  cbn [read_loop MAX_READ_RETRIES quiet]. rewrite Z.eqb_refl.
  assert (u64 (u64 (ver + 1) + 1) mod 2 = 0) as ->; [|reflexivity].
  unfold u64, wrap. rewrite Zplus_mod_idemp_l, Z.mod_mod_divide by (by exists (2 ^ 63)).
  replace (ver + 1 + 1) with (ver + 1 * 2) by lia. by rewrite Z_mod_plus_full.
Qed.

(** At most ten attempts. *)
Lemma read_loop_retries n seen i : (snd (read_loop n seen i) <= n)%nat.
Proof.
  revert i. induction n as [|n IH]; intros i; cbn [read_loop]; [done|].
  destruct (seen i) as [[before v] after]. destruct (_ || _); cbn; [|lia].
  specialize (IH (S i)). destruct (read_loop n seen (S i)). cbn in *. lia.
Qed.
End Cache.

(** ** What a loaded configuration satisfies *)

Definition sizes (c : HotKeyConfig) : list Z := estimated_size_bytes <$> hot_keys_ c.

Record tallied (c : HotKeyConfig) : Prop := {
  tl_total : total_memory_usage_ c = u64 (zsum (sizes c));
  tl_sizes : Forall in_u64 (sizes c);
  tl_errors : errors_ c = [] /\ warnings_ c = []
}.

Lemma type_sizes_small t n : type_sizes t = Some n -> 0 <= n <= 256.
Proof. unfold type_sizes. repeat case_bool_decide; intros [= <-]; lia. Qed.

Lemma estimateTypeSize_u64 t n : estimateTypeSize t = Ok n -> in_u64 n.
Proof.
  unfold estimateTypeSize. destruct (type_sizes t) as [m|] eqn:E.
  - intros [= <-]. apply type_sizes_small in E. unfold in_u64. lia.
  - destruct (array_pattern t) as [[el ct]|]; [|intros [= <-]; unfold in_u64; lia].
    destruct (stoull ct); [|discriminate]. intros [= <-]. apply u64_bounds.
Qed.

Lemma bind_ok {A B} (r : result Thrown A) (k : A -> result Thrown B) b :
  bind r k = Ok b -> exists a, r = Ok a /\ k a = Ok b.
Proof. destruct r; [eauto|discriminate]. Qed.

Section Loaded.
Context {N : Type} `{!Yaml N, !YamlPairs N}.

Lemma parse_key_u64 (kv : N * N) i : parse_key kv = Ok (Some i) -> in_u64 (estimated_size_bytes i).
Proof.
  unfold parse_key. intros (name & _ & H)%bind_ok. apply bind_ok in H as (hot & _ & H).
  destruct hot; [|discriminate]. cbn [negb] in H.
  apply bind_ok in H as (ty & _ & H). apply bind_ok in H as (descr & _ & H). apply bind_ok in H as (sz & Hs & H).
  injection H as <-. cbn. unfold std in Hs. destruct (estimateTypeSize ty) eqn:E; [|discriminate].
  injection Hs as <-. by eapply estimateTypeSize_u64.
Qed.

Lemma parse_keys_tallied (l : list (N * N)) : forall c c' e,
  tallied c -> parse_keys l c = (c', e) -> tallied c'.
Proof.
  induction l as [|kv l IH]; intros c c' e Hc; cbn [parse_keys]; [by intros [= <- _]|].
  destruct (parse_key kv) as [[i|]|e'] eqn:E; [|by apply IH|by intros [= <- _]].
  apply IH. destruct Hc as [Ht Hs He]. split; cbn [push_key total_memory_usage_ hot_keys_ errors_ warnings_].
  - unfold sizes. cbn [push_key hot_keys_]. rewrite fmap_app, zsum_app, Ht. unfold u64, wrap.
    rewrite Zplus_mod_idemp_l. cbn. f_equal. unfold sizes. lia.
  - unfold sizes. cbn [push_key hot_keys_]. rewrite fmap_app. apply Forall_app. split; [exact Hs|].
    constructor; [by eapply parse_key_u64|constructor].
  - exact He.
Qed.

Lemma size_errors_nil keys : size_errors keys = [] <-> Forall (λ i, estimated_size_bytes i <= MAX_HOT_KEY_SIZE_BYTES) keys.
Proof.
  unfold size_errors. induction keys as [|i keys IH]; [split; [constructor|reflexivity]|].
  rewrite Forall_cons, <- IH. cbn -[MAX_HOT_KEY_SIZE_BYTES].
  destruct (Z.ltb_spec MAX_HOT_KEY_SIZE_BYTES (estimated_size_bytes i)); cbn -[MAX_HOT_KEY_SIZE_BYTES].
  - split; [discriminate|]. intros [? _]. lia.
  - intuition.
Qed.

Lemma zsum_bound (l : list Z) b : 0 <= b -> Forall (λ x, x <= b) l -> zsum l <= Z.of_nat (length l) * b.
Proof. intros Hb. induction 1 as [|x l Hx Hl IH]; cbn [zsum foldr length] in *; unfold zsum in *; lia. Qed.

Lemma validate_true c c' : tallied c -> validateConstraints c = (true, c') ->
  c' = c /\ (length (hot_keys_ c) <= MAX_HOT_KEYS)%nat /\
  Forall (λ i, estimated_size_bytes i <= MAX_HOT_KEY_SIZE_BYTES) (hot_keys_ c) /\
  total_memory_usage_ c = zsum (sizes c) /\ zsum (sizes c) <= MAX_TOTAL_MEMORY_BYTES.
Proof.
  intros Hc H. unfold validateConstraints in H. injection H as Hb Hc'.
  apply andb_true_iff in Hb as [Hn Hs]. apply negb_true_iff in Hn. rewrite Hn in Hc'.
  apply bool_decide_eq_false in Hn. apply bool_decide_eq_true in Hs. rewrite Hs in Hc'. cbn [foldl] in Hc'.
  apply size_errors_nil in Hs. destruct Hc as [Ht Hu He].
  assert (zsum (sizes c) <= 32 * 512) as Hz.
  { pose proof (zsum_bound (sizes c) 512 ltac:(lia)) as Hz. unfold sizes in Hz. rewrite length_fmap in Hz.
    unfold sizes, MAX_HOT_KEYS in *. rewrite Forall_fmap in Hz. specialize (Hz Hs). lia. }
  assert (0 <= zsum (sizes c)) as Hp.
  { apply zsum_nonneg. eapply Forall_impl; [exact Hu|]. unfold in_u64. lia. }
  rewrite u64_small in Ht by (unfold in_u64; lia). unfold MAX_TOTAL_MEMORY_BYTES in *.
  destruct (Z.ltb_spec (10 * 1024 * 1024) (total_memory_usage_ c)); [lia|].
  split_and!; [done|lia|exact Hs|exact Ht|lia].
Qed.

Lemma load_within path (file : SchemaFile N) c0 c :
  loadFromSchema path file c0 = (true, c) ->
  (length (hot_keys_ c) <= 32)%nat /\
  Forall (λ i, estimated_size_bytes i <= 512) (hot_keys_ c) /\
  total_memory_usage_ c = zsum (estimated_size_bytes <$> hot_keys_ c) /\ total_memory_usage_ c <= 10485760 /\
  errors_ c = [] /\ warnings_ c = [].
Proof.
  intros H. unfold loadFromSchema in H. destruct file as [|e|schema]; [discriminate..|].
  destruct (y_get schema "datastore_keys") as [[keys|]|e]; [|discriminate..].
  destruct (parse_keys (y_pairs keys) newConfig) as [c1 [e|]] eqn:E; [discriminate|].
  assert (tallied c1) as Hc1.
  { eapply parse_keys_tallied; [|exact E]. split; [reflexivity|constructor|split; reflexivity]. }
  destruct (validate_true c1 c Hc1 H) as (-> & Hn & Hs & Ht & Hz). destruct Hc1 as [_ _ [He Hw]].
  split_and!; try assumption. rewrite Ht. exact Hz.
Qed.
End Loaded.

(** ** The sizes *)

(** The size of a type, as a number that does not wrap. *)
Definition exact_size (t : string) : result string Z :=
  match type_sizes t with
  | Some n => Ok n
  | None =>
    match array_pattern t with
    | Some (elem, count) =>
      match stoull count with Ok count => Ok (default 8 (type_sizes elem) * count) | Throw e => Throw e end
    | None => Ok 8
    end
  end.

Lemma dec_digits_nonneg l : forall acc some v, 0 <= acc -> dec_digits acc some l = Some v -> 0 <= v.
Proof.
  induction l as [|x l IH]; intros acc some v Ha; cbn [dec_digits]; [destruct some; [by intros [= <-]|discriminate]|].
  unfold dec_digit. destruct (Z.leb_spec 48 (Z.of_N (N_of_ascii x))); cbn [andb]; [|destruct some; [by intros [= <-]|discriminate]].
  destruct (Z.of_N (N_of_ascii x) <=? 57); [|destruct some; [by intros [= <-]|discriminate]]. apply IH. lia.
Qed.

Lemma stoull_nonneg t n : stoull t = Ok n -> 0 <= n.
Proof.
  unfold stoull, parse_dec. match goal with |- context [let '(_, _) := ?x in _] => destruct x as [neg l] end.
  destruct (dec_digits 0 false l) as [v|] eqn:E; cbn; [|discriminate]. apply dec_digits_nonneg in E; [|done].
  destruct (2 ^ 64 <=? v); [discriminate|]. intros [= <-]. destruct neg; [|done]. apply u64_bounds.
Qed.

(** The estimate is the size, unless it wraps. *)
Lemma estimate_exact t n :
  estimateTypeSize t = Ok n -> exists m, exact_size t = Ok m /\ (m < 2 ^ 64 -> n = m).
Proof.
  unfold estimateTypeSize, exact_size. destruct (type_sizes t) as [k|]; [intros [= <-]; eauto|].
  destruct (array_pattern t) as [[el ct]|]; [|intros [= <-]; eauto].
  destruct (stoull ct) as [k|] eqn:Ec; [|discriminate]. intros [= <-]. eexists. split; [reflexivity|]. intros Hm.
  rewrite u64_small; [done|]. unfold in_u64. split; [|exact Hm]. apply Z.mul_nonneg_nonneg.
  - destruct (type_sizes el) as [x|] eqn:Ex; [|done]. simpl. pose proof (type_sizes_small _ _ Ex). lia.
  - by eapply stoull_nonneg.
Qed.

Lemma parse_key_estimate {N} `{!Yaml N, !YamlPairs N} (kv : N * N) i :
  parse_key kv = Ok (Some i) -> estimateTypeSize (type i) = Ok (estimated_size_bytes i).
Proof.
  unfold parse_key. intros (name & _ & H)%bind_ok. apply bind_ok in H as (hot & _ & H).
  destruct hot; [|discriminate]. cbn [negb] in H.
  apply bind_ok in H as (ty & _ & H). apply bind_ok in H as (descr & _ & H). apply bind_ok in H as (sz & Hs & H).
  injection H as <-. cbn. unfold std in Hs. destruct (estimateTypeSize ty); [|discriminate]. by injection Hs as <-.
Qed.

Lemma parse_keys_estimates {N} `{!Yaml N, !YamlPairs N} (l : list (N * N)) : forall c c' e,
  Forall (λ i, estimateTypeSize (type i) = Ok (estimated_size_bytes i)) (hot_keys_ c) ->
  parse_keys l c = (c', e) ->
  Forall (λ i, estimateTypeSize (type i) = Ok (estimated_size_bytes i)) (hot_keys_ c').
Proof.
  induction l as [|kv l IH]; intros c c' e Hc; cbn [parse_keys]; [by intros [= <- _]|].
  destruct (parse_key kv) as [[i|]|e'] eqn:E; [|by apply IH|by intros [= <- _]].
  apply IH. cbn [push_key hot_keys_]. apply Forall_app. split; [exact Hc|].
  constructor; [by eapply parse_key_estimate|constructor].
Qed.

Lemma load_estimates {N} `{!Yaml N, !YamlPairs N} path (file : SchemaFile N) c0 c :
  loadFromSchema path file c0 = (true, c) ->
  Forall (λ i, estimateTypeSize (type i) = Ok (estimated_size_bytes i)) (hot_keys_ c).
Proof.
  intros H. unfold loadFromSchema in H. destruct file as [|e|schema]; [discriminate..|].
  destruct (y_get schema "datastore_keys") as [[keys|]|e]; [|discriminate..].
  destruct (parse_keys (y_pairs keys) newConfig) as [c1 [e|]] eqn:E; [discriminate|].
  assert (hot_keys_ c = hot_keys_ c1) as ->; [|by eapply parse_keys_estimates; [|exact E]; constructor].
  injection H as Hb <-.
  assert (Hpush : forall l x, hot_keys_ (foldl (λ c e, push_error e c) x l) = hot_keys_ x)
    by (intros l; induction l as [|a l IH]; intros x; [done|]; simpl; by rewrite IH).
  repeat case_match; cbn [push_warning push_error hot_keys_]; rewrite ?Hpush; done.
Qed.

(** ** Registering what was loaded *)

(** The loop that registers each key, with what every call returned; [throws i]:
    the insertion of the i-th key throws. *)
Fixpoint register_all {V} (throws : nat -> bool) (i : nat) (ks : list string) (c : HotKeyCache V) :
    list bool * HotKeyCache V :=
  match ks with
  | [] => ([], c)
  | k :: ks =>
    let '(r, c) := registerHotKey (throws i) k c in
    let '(rs, c) := register_all throws (S i) ks c in (r :: rs, c)
  end.

Lemma register_grows {V} n throws k (c : HotKeyCache V) :
  cache_ok n c -> (hot_key_count_ c < n)%nat ->
  let '(r, c') := registerHotKey throws k c in
  r = negb throws /\ cache_ok n c' /\ (hot_key_count_ c' <= S (hot_key_count_ c))%nat /\
  (throws = false -> cache_ c' !! k <> None) /\ (forall k', cache_ c !! k' <> None -> cache_ c' !! k' <> None).
Proof.
  intros Hc Hr. pose proof (hotkey_register_ok n throws k c Hc) as Hok. revert Hok. unfold registerHotKey.
  rewrite bool_decide_false by (rewrite (ck_capacity n c Hc); lia). destruct throws.
  { intros Hok. split_and!; try done; cbn; lia. }
  destruct (cache_ c !! k) eqn:E; cbn [snd]; intros Hok; split_and!; try done; cbn; try lia; try congruence.
  - rewrite lookup_insert_eq. done.
  - intros k' Hk'. destruct (decide (k = k')) as [->|Hn]; [by rewrite lookup_insert_eq|by rewrite lookup_insert_ne].
Qed.

Lemma hotkey_register_all_ok {V} n throws ks : forall i (c : HotKeyCache V),
  cache_ok n c -> (hot_key_count_ c + length ks <= n)%nat ->
  let '(rs, c') := register_all throws i ks c in
  rs = (λ j, negb (throws j)) <$> seq i (length ks) /\ cache_ok n c' /\
  (forall j k, ks !! j = Some k -> throws (i + j)%nat = false -> cache_ c' !! k <> None) /\
  (forall k, cache_ c !! k <> None -> cache_ c' !! k <> None).
Proof.
  induction ks as [|k ks IH]; intros i c Hc Hl; cbn [register_all].
  - split_and!; done.
  - cbn [length] in Hl. pose proof (register_grows n (throws i) k c Hc ltac:(lia)) as Hg.
    destruct (registerHotKey (throws i) k c) as [r c1]. destruct Hg as (-> & Hc1 & Hn & Hk & Hkeep).
    specialize (IH (S i) c1 Hc1 ltac:(lia)). destruct (register_all throws (S i) ks c1) as [rs c2].
    destruct IH as (-> & Hc2 & Hall & Hold). split_and!; [done|exact Hc2| |auto].
    intros [|j] k' Hj Ht; simpl in Hj.
    + injection Hj as <-. rewrite Nat.add_0_r in Ht. auto.
    + apply (Hall j); [done|]. by replace (S i + j)%nat with (i + S j)%nat by lia.
Qed.

(** C40: a schema is accepted only within the limits, and then the cache takes
    it.  When loadFromSchema returns true there are at most 32 keys, whose
    estimated sizes are at most 512 bytes each (and so are their sizes, for every
    key whose size does not pass 2^64, where the estimate wraps), the total is
    the exact sum of the estimates, and neither errors nor warnings are left (the
    warning about the total can only come with a rejection).  Registering the
    keys in a new cache of 32 never fails for want of capacity: a call returns
    true unless folly's insertion throws, and a key whose insertion does not
    throw is then a hot key. *)
Theorem loaded_keys_fit_the_cache {N V} `{!Yaml N, !YamlPairs N} path (file : SchemaFile N) c0 c throws :
  loadFromSchema path file c0 = (true, c) ->
  ((length (hot_keys_ c) <= 32)%nat /\
   Forall (λ i, estimated_size_bytes i <= 512 /\
                exists m, exact_size (type i) = Ok m /\ (m < 2 ^ 64 -> m <= 512)) (hot_keys_ c) /\
   total_memory_usage_ c = zsum (estimated_size_bytes <$> hot_keys_ c) /\ total_memory_usage_ c <= 10485760 /\
   errors_ c = [] /\ warnings_ c = []) /\
  let '(results, cache) := register_all throws 0 (key_name <$> hot_keys_ c) (newCache 32 : HotKeyCache V) in
  results = (λ j, negb (throws j)) <$> seq 0 (length (hot_keys_ c)) /\
  forall j i, hot_keys_ c !! j = Some i -> throws j = false -> cache_isHotKey (key_name i) cache = true.
Proof.
  intros H. pose proof (load_estimates _ _ _ _ H) as He. apply load_within in H as (Hn & Hs & Ht & Hm & Hw). split.
  { split_and!; try apply Hw; try done. apply Forall_forall. intros i Hi. rewrite Forall_forall in He, Hs. split; [by apply Hs|].
    destruct (estimate_exact _ _ (He i Hi)) as (m & Hx & Hle). exists m. split; [done|]. intros Hlt.
    rewrite <- (Hle Hlt). by apply Hs. }
  pose proof (hotkey_register_all_ok 32 throws (key_name <$> hot_keys_ c) 0 (newCache 32 : HotKeyCache V) (cache_run_ok 32 [])) as Hr.
  rewrite length_fmap in Hr. specialize (Hr Hn).
  destruct (register_all throws 0 (key_name <$> hot_keys_ c) (newCache 32)) as [r cache]. destruct Hr as (-> & _ & Hall & _).
  split; [done|]. intros j i Hj Hthr. apply bool_decide_eq_true, not_eq_None_Some. apply (Hall j); [|done].
  by rewrite list_lookup_fmap, Hj.
Qed.

(** *** On documents *)

#[export] Instance tree_pairs : YamlPairs YTree :=
  λ t, match t with YMap l => (λ e, (YStr (fst e), snd e)) <$> l | YSeq l => (λ e, (e, e)) <$> l | _ => [] end.

Definition key_spec (name ty : string) (hot : bool) : string * YTree :=
  (name, YMap [("type", YStr ty); ("hot_key", YBool hot); ("description", YStr "")]).
Definition schema_of (l : list (string * YTree)) : SchemaFile YTree := Schema (YMap [("datastore_keys", YMap l)]).

Lemma loaded_keys_fit_the_cache_witness :
  let file := schema_of [key_spec "robot_position" "Vector3d" true; key_spec "ethercat_position" "array<double, 64>" true;
                         key_spec "log_level" "string" false] in
  let c := snd (loadFromSchema "schema.yaml" file newConfig) in
  estimated_size_bytes <$> hot_keys_ c = [24; 512] /\ total_memory_usage_ c = 536 /\
  fst (register_all (λ _, false) 0 (key_name <$> hot_keys_ c) (newCache 32 : HotKeyCache Z)) = [true; true] /\
  snd (register_all (λ _, false) 0 (key_name <$> hot_keys_ c) (newCache 32 : HotKeyCache Z)) =
    mkCache 32 2 (<["ethercat_position" := Empty]> (<["robot_position" := Empty]> ∅)) 0 0 0.
Proof.
  intros file c. assert (estimated_size_bytes <$> hot_keys_ c = [24; 512]) as Hs by by_compute.
  split; [exact Hs|].
  destruct (loaded_keys_fit_the_cache (V := Z) "schema.yaml" file newConfig c (λ _, false)) as [(_ & _ & Ht & _) Hr]; [by_compute|].
  split; [rewrite Ht, Hs; reflexivity|]. split; [|by_compute].
  destruct (register_all (λ _, false) 0 (key_name <$> hot_keys_ c) (newCache 32)) as [rs cache]. destruct Hr as [-> _]. by_compute.
Defined.

(** DEVIATION: the size of an array is a product of 64-bit numbers that starts
    again at 0, so a huge array passes the test of 512 bytes. *)
Theorem huge_array_is_accepted :
  estimateTypeSize "array<double, 2305843009213693952>" = Ok 0 /\
  fst (loadFromSchema "schema.yaml" (schema_of [key_spec "k" "array<double, 2305843009213693952>" true]) newConfig) = true.
Proof. split; by_compute. Qed.

Example type_size_cases :
  estimateTypeSize "array<Pose,8>" = Ok 64 /\ estimateTypeSize "array<double,  >" = Ok 8 /\
  estimateTypeSize "array<double, 64> " = Ok 8 /\ estimateTypeSize "array<double, 99999999999999999999>" = Throw "stoull".
Proof. repeat split; by_compute. Qed.
