(* ===== verification/StructLog.v ===== *)
(** * StructuredLogger (src/core/monitoring/StructuredLogger)

    Log events as JSON lines, the trace context of each thread, the formatter
    with its labels and the logger.  spdlog is the class [Spdlog]; printing a
    JSON value is a parameter, which fails on text that is not UTF-8. *)

From stdpp Require Import pretty.
From Stdlib Require Import Ascii.
From S2P Require Import Prelude Ieee754 Text Config Calendar ProcessMonitor HealthServer.
#[local] Open Scope Z_scope.

(** ** Levels and times *)

Inductive Level := trace | debug | info | warn | err | critical | off.

Definition level_val (l : Level) : Z :=
  match l with trace => 0 | debug => 1 | info => 2 | warn => 3 | err => 4 | critical => 5 | off => 6 end.

Definition levelToString (l : Level) : string :=
  match l with
  | trace => "trace" | debug => "debug" | info => "info" | warn => "warn" | err => "error"
  | critical => "critical" | off => "unknown"
  end.

(** [ns] of the system clock, after 1970. *)
Definition getIso8601Timestamp (ns : Z) : string :=
  let t := put_time (gmtime (Z.quot ns 1000000000)) in
  of_chars (take (length t - 1) t) +:+ "." +:+ pretty (Z.rem (Z.quot ns 1000000) 1000) +:+ "Z".

(** ** Events *)

Record StructuredLogEvent := mkEvent {
  timestamp : string; log_level : string; log_logger : string; process_name : string; process_pid : Z;
  thread_id : Z; thread_name : string; message : string; ecs_version : string;
  labels : gmap string string;
  trace_id : string; span_id : string;
  mxrc_task_id : string; mxrc_sequence_id : string; mxrc_action_id : string; mxrc_cycle_time_us : Z
}.

(** [j[k1][k2]... = v] on null or an object. *)
Definition members (j : Json) : list (string * Json) := match j with JObject l => l | _ => [] end.
Fixpoint put (path : list string) (v : Json) (j : Json) : Json :=
  match path with
  | [] => v
  | k :: ks => JObject (json_set k (put ks v (default JNull (member k (members j)))) (members j))
  end.

Definition filled (s : string) (path : list string) : list (list string * Json) :=
  if String.eqb s "" then [] else [(path, JString s)].

(** The assignments of [toJson], in order. *)
Definition assignments (e : StructuredLogEvent) : list (list string * Json) :=
  [(["@timestamp"], JString (timestamp e)); (["log"; "level"], JString (log_level e));
   (["log"; "logger"], JString (log_logger e)); (["process"; "name"], JString (process_name e));
   (["process"; "pid"], JInt (process_pid e)); (["process"; "thread"; "id"], JInt (thread_id e))] ++
  filled (thread_name e) ["process"; "thread"; "name"] ++
  [(["message"], JString (message e)); (["ecs"; "version"], JString (ecs_version e))] ++
  filled (trace_id e) ["trace"; "id"] ++ filled (span_id e) ["span"; "id"] ++
  filled (mxrc_task_id e) ["mxrc"; "task_id"] ++ filled (mxrc_sequence_id e) ["mxrc"; "sequence_id"] ++
  filled (mxrc_action_id e) ["mxrc"; "action_id"] ++
  (if double_lt (double_of_int 0) (mxrc_cycle_time_us e) then [(["mxrc"; "cycle_time_us"], JFloat (mxrc_cycle_time_us e))]
   else []) ++
  (if bool_decide (labels e = ∅) then []
   else [(["labels"], JObject ((λ kv, (fst kv, JString (snd kv))) <$> key_order (labels e)))]).

Definition toJson (e : StructuredLogEvent) : Json := foldl (λ j a, put (fst a) (snd a) j) JNull (assignments e).

Definition is_nonempty (s : string) : bool := negb (String.eqb s "").

Definition isValid (e : StructuredLogEvent) : bool :=
  is_nonempty (timestamp e) && is_nonempty (log_level e) && is_nonempty (log_logger e) && is_nonempty (message e) &&
  is_nonempty (ecs_version e) &&
  negb (is_nonempty (trace_id e) && negb (String.length (trace_id e) =? 32)%nat) &&
  negb (is_nonempty (span_id e) && negb (String.length (span_id e) =? 16)%nat).

(** ** Threads, the formatter and the logger *)

Record LogTraceContext := mkTrace { tc_trace_id : string; tc_span_id : string }.

(** The contexts of the threads. *)
Definition Traces := gmap nat LogTraceContext.
Definition getThreadTraceContext (me : nat) (t : Traces) : LogTraceContext := default (mkTrace "" "") (t !! me).
Definition setThreadTraceContext (me : nat) (trace_id span_id : string) (t : Traces) : Traces :=
  <[me := mkTrace trace_id span_id]> t.
Definition clearThreadTraceContext (me : nat) (t : Traces) : Traces := <[me := mkTrace "" ""]> t.

(** spdlog's record of a message. *)
Record LogMsg := mkMsg { msg_level : Level; msg_logger : string; msg_thread : Z; msg_payload : string }.

Record EcsJsonFormatter := mkFormatter { f_process_name : string; f_process_pid : Z; f_labels : gmap string string }.

Definition newFormatter (name : string) (pid : Z) : EcsJsonFormatter := mkFormatter name pid ∅.
Definition addLabel (k v : string) (f : EcsJsonFormatter) : EcsJsonFormatter :=
  mkFormatter (f_process_name f) (f_process_pid f) (<[k := v]> (f_labels f)).
Definition removeLabel (k : string) (f : EcsJsonFormatter) : EcsJsonFormatter :=
  mkFormatter (f_process_name f) (f_process_pid f) (delete k (f_labels f)).

(** [format]: the event of a message; [name] is what the system calls the thread,
    if it says. *)
Definition format_event (ns : Z) (me : nat) (name : option string) (msg : LogMsg) (t : Traces) (f : EcsJsonFormatter) :
    StructuredLogEvent :=
  let c := getThreadTraceContext me t in
  mkEvent (getIso8601Timestamp ns) (levelToString (msg_level msg)) (msg_logger msg) (f_process_name f) (f_process_pid f)
    (msg_thread msg) (default "" name) (msg_payload msg) "8.11" (f_labels f) (tc_trace_id c) (tc_span_id c) "" "" "" 0.

(** What the logger uses of spdlog. *)
Class Spdlog (L : Type) := {
  sp_name : L -> string;
  sp_level : L -> Level;
  sp_set_level : Level -> L -> L;
  sp_log : Level -> string -> L -> L;
  sp_flush : L -> L;
  sp_lines : L -> list string
}.

(** With the pattern "%v" a message of at least the logger's level is one line. *)
Class SpdlogLaws (L : Type) `{!Spdlog L} := {
  sl_log lv s (l : L) :
    sp_lines (sp_log lv s l) = sp_lines l ++ (if level_val (sp_level l) <=? level_val lv then [s] else []);
  sl_log_level lv s (l : L) : sp_level (sp_log lv s l) = sp_level l;
  sl_log_name lv s (l : L) : sp_name (sp_log lv s l) = sp_name l;
  sl_set lv (l : L) : sp_level (sp_set_level lv l) = lv;
  sl_set_lines lv (l : L) : sp_lines (sp_set_level lv l) = sp_lines l
}.

Section Logger.
Context {L : Type} `{!Spdlog L} (dump : Json -> result string string).

Record StructuredLogger := mkLogger { logger_ : L; formatter_ : EcsJsonFormatter }.

Definition level_of (s : string) : Level :=
  if String.eqb s "trace" then trace else if String.eqb s "debug" then debug else if String.eqb s "info" then info
  else if String.eqb s "warn" then warn else if String.eqb s "error" then err
  else if String.eqb s "critical" then critical else info.

(** [log(event)]; throws when the value cannot be printed. *)
Definition log (e : StructuredLogEvent) (g : StructuredLogger) : result string unit * StructuredLogger :=
  if negb (isValid e) then (Ok tt, g)
  else match dump (toJson e) with
       | Throw x => (Throw x, g)
       | Ok s => (Ok tt, mkLogger (sp_log (level_of (log_level e)) s (logger_ g)) (formatter_ g))
       end.

(** The event of [log(level, message, context)]. *)
Definition message_event (ns pid hash : Z) (me : nat) (lv : Level) (msg : string) (context : gmap string string)
    (t : Traces) (g : StructuredLogger) : StructuredLogEvent :=
  let c := getThreadTraceContext me t in
  mkEvent (getIso8601Timestamp ns) (levelToString lv) (sp_name (logger_ g)) "mxrc" pid hash "" msg "8.11" context
    (tc_trace_id c) (tc_span_id c) "" "" "" 0.

Definition log_message (ns pid hash : Z) (me : nat) (lv : Level) (msg : string) (context : gmap string string)
    (t : Traces) (g : StructuredLogger) : result string unit * StructuredLogger :=
  log (message_event ns pid hash me lv msg context t g) g.

Definition setFormatter (f : EcsJsonFormatter) (g : StructuredLogger) : StructuredLogger := mkLogger (logger_ g) f.
Definition flush (g : StructuredLogger) : StructuredLogger := mkLogger (sp_flush (logger_ g)) (formatter_ g).
Definition setLevel (lv : Level) (g : StructuredLogger) : StructuredLogger := mkLogger (sp_set_level lv (logger_ g)) (formatter_ g).
Definition getLevel (g : StructuredLogger) : Level := sp_level (logger_ g).

(** [createStructuredLogger]: [made] is the spdlog logger with its file sink, or
    what its construction throws; its level is then set. *)
Definition createStructuredLogger (pid : Z) (made : result string L) : result string StructuredLogger :=
  match made with
  | Throw x => Throw ("Failed to create structured logger: " +:+ x)
  | Ok l => Ok (mkLogger (sp_set_level info l) (newFormatter "mxrc" pid))
  end.
End Logger.
Arguments StructuredLogger L : clear implicits.

(** ** What the line holds *)

Lemma member_set_eq k v l : member k (json_set k v l) = Some v.
Proof.
  induction l as [|[k' v'] l IH]; cbn [json_set member]; [by rewrite bool_decide_true|].
  case_bool_decide as Hk; [cbn [member]; by rewrite bool_decide_true|].
  destruct (String.leb k k'); cbn [member]; [by rewrite bool_decide_true|]. by rewrite bool_decide_false.
Qed.

Lemma member_set_ne k k' v l : k' <> k -> member k' (json_set k v l) = member k' l.
Proof.
  intros Hn. induction l as [|[k1 v1] l IH]; cbn [json_set member]; [by rewrite bool_decide_false|].
  case_bool_decide as Hk; [subst; cbn [member]; by rewrite !bool_decide_false|].
  destruct (String.leb k k1); cbn [member]; [by rewrite (bool_decide_false (k' = k))|]. by rewrite IH.
Qed.

(** The value under a path, if there is one. *)
Fixpoint under (path : list string) (j : Json) : option Json :=
  match path with
  | [] => Some j
  | k :: ks => match j with JObject l => match member k l with Some v => under ks v | None => None end | _ => None end
  end.

(** Neither path is a prefix of the other. *)
Fixpoint diverge (p q : list string) : bool :=
  match p, q with
  | k :: p, k' :: q => if bool_decide (k = k') then diverge p q else true
  | _, _ => false
  end.

Lemma under_put p v j : under p (put p v j) = Some v.
Proof. revert j. induction p as [|k p IH]; intros j; [reflexivity|]. cbn [put under]. by rewrite member_set_eq. Qed.

Lemma under_put_diverge p q v : forall j, diverge p q = true -> under p (put q v j) = under p j.
Proof.
  revert q. induction p as [|k p IH]; intros [|k' q] j Hd; try discriminate. cbn [put under]. cbn [diverge] in Hd.
  case_bool_decide as Hk.
  - subst k'. rewrite member_set_eq, IH by done.
    destruct j; cbn [members member default]; try (destruct p; [discriminate|reflexivity]).
    destruct (member k l); [reflexivity|]. destruct p; [discriminate|reflexivity].
  - rewrite member_set_ne by done. by destruct j.
Qed.

Lemma under_puts_other l p : forall j,
  forallb (λ a, diverge p (fst a)) l = true -> under p (foldl (λ j a, put (fst a) (snd a) j) j l) = under p j.
Proof.
  induction l as [|[q v] l IH]; intros j Hl; [reflexivity|]. cbn [forallb fst] in Hl.
  apply andb_true_iff in Hl as [Hd Hl]. cbn [foldl fst snd]. rewrite IH by exact Hl. by apply under_put_diverge.
Qed.

Lemma under_puts l1 p v l2 j :
  forallb (λ a, diverge p (fst a)) l2 = true ->
  under p (foldl (λ j a, put (fst a) (snd a) j) j (l1 ++ (p, v) :: l2)) = Some v.
Proof. intros Hl. rewrite foldl_app. cbn [foldl fst snd]. rewrite under_puts_other by exact Hl. apply under_put. Qed.

(** The value a list of assignments leaves under a path. *)
Fixpoint assigned (p : list string) (l : list (list string * Json)) : option Json :=
  match l with
  | [] => None
  | (q, v) :: l => match assigned p l with
                   | Some x => Some x
                   | None => if bool_decide (p = q) then Some v else None
                   end
  end.

Lemma assigned_app p l1 l2 :
  assigned p (l1 ++ l2) = match assigned p l2 with Some x => Some x | None => assigned p l1 end.
Proof. induction l1 as [|[q v] l1 IH]; cbn; [by destruct (assigned p l2)|]. rewrite IH. by destruct (assigned p l2). Qed.

(** Paths that are equal or diverge. *)
Definition apart (p q : list string) : bool := bool_decide (p = q) || diverge p q.

Lemma under_assigned p l : p <> [] ->
  forallb (λ a, apart p (fst a)) l = true ->
  under p (foldl (λ j a, put (fst a) (snd a) j) JNull l) = assigned p l.
Proof.
  intros Hp. induction l as [|[q v] l IH] using rev_ind; intros Hl; [by destruct p|].
  rewrite forallb_app in Hl. apply andb_true_iff in Hl as [Hl Hq]. cbn [forallb fst] in Hq. rewrite andb_true_r in Hq.
  rewrite foldl_app, assigned_app. cbn [foldl assigned fst snd]. unfold apart in Hq.
  case_bool_decide as Hpq; [subst q; apply under_put|]. cbn [orb] in Hq.
  rewrite under_put_diverge by exact Hq. by apply IH.
Qed.

Definition paths : list (list string) :=
  [["@timestamp"]; ["log"; "level"]; ["log"; "logger"]; ["process"; "name"]; ["process"; "pid"];
   ["process"; "thread"; "id"]; ["process"; "thread"; "name"]; ["message"]; ["ecs"; "version"]; ["trace"; "id"];
   ["span"; "id"]; ["mxrc"; "task_id"]; ["mxrc"; "sequence_id"]; ["mxrc"; "action_id"]; ["mxrc"; "cycle_time_us"];
   ["labels"]].

Lemma assignments_paths e : Forall (λ a, fst a ∈ paths) (assignments e).
Proof.
  unfold assignments, filled.
  repeat first [apply Forall_app; split | apply Forall_cons; split | apply Forall_nil; exact I | case_match];
    apply (bool_decide_unpack _); exact I.
Qed.

Lemma under_toJson e p : p ∈ paths -> under p (toJson e) = assigned p (assignments e).
Proof.
  intros Hp. assert (forallb (λ p, bool_decide (p <> []) && forallb (apart p) paths) paths = true) as Ht by by_compute.
  rewrite forallb_forall in Ht. apply list_elem_of_In in Hp. specialize (Ht p Hp).
  apply andb_true_iff in Ht as [Hne Hall]. apply bool_decide_eq_true in Hne.
  apply under_assigned; [exact Hne|]. apply forallb_forall. intros a Ha.
  rewrite forallb_forall in Hall. apply Hall. apply list_elem_of_In.
  pose proof (assignments_paths e) as Hf. rewrite Forall_forall in Hf. apply Hf. by apply list_elem_of_In.
Qed.

(** An optional text: nothing when it is empty. *)
Definition optional (s : string) : option Json := if String.eqb s "" then None else Some (JString s).

Lemma assigned_filled p s q : assigned p (filled s q) = if bool_decide (p = q) then optional s else None.
Proof. unfold filled, optional. destruct (String.eqb s ""); cbn; by case_bool_decide. Qed.

(** The JSON value of a log event carries the event.  The required fields
    are under their names of the common schema; the name of the thread, the
    trace and span, and the identifiers of task, sequence and action are there
    exactly when they are not empty; the cycle time exactly when it is
    positive, and the labels exactly when there are some. *)
Theorem log_line_carries_the_event (e : StructuredLogEvent) :
  let j := toJson e in
  under ["@timestamp"] j = Some (JString (timestamp e)) /\
  under ["log"; "level"] j = Some (JString (log_level e)) /\
  under ["log"; "logger"] j = Some (JString (log_logger e)) /\
  under ["process"; "name"] j = Some (JString (process_name e)) /\
  under ["process"; "pid"] j = Some (JInt (process_pid e)) /\
  under ["process"; "thread"; "id"] j = Some (JInt (thread_id e)) /\
  under ["process"; "thread"; "name"] j = optional (thread_name e) /\
  under ["message"] j = Some (JString (message e)) /\
  under ["ecs"; "version"] j = Some (JString (ecs_version e)) /\
  under ["trace"; "id"] j = optional (trace_id e) /\
  under ["span"; "id"] j = optional (span_id e) /\
  under ["mxrc"; "task_id"] j = optional (mxrc_task_id e) /\
  under ["mxrc"; "sequence_id"] j = optional (mxrc_sequence_id e) /\
  under ["mxrc"; "action_id"] j = optional (mxrc_action_id e) /\
  under ["mxrc"; "cycle_time_us"] j =
    (if double_lt (double_of_int 0) (mxrc_cycle_time_us e) then Some (JFloat (mxrc_cycle_time_us e)) else None) /\
  under ["labels"] j =
    (if bool_decide (labels e = ∅) then None
     else Some (JObject ((λ kv, (fst kv, JString (snd kv))) <$> key_order (labels e)))).
Proof.
  cbv zeta. repeat match goal with |- _ /\ _ => split end;
    (rewrite under_toJson by (apply (bool_decide_unpack _); exact I));
    unfold assignments; generalize (double_lt (double_of_int 0) (mxrc_cycle_time_us e));
    generalize (bool_decide (labels e = ∅)); intros nolabels timed;
    rewrite !assigned_app, !assigned_filled;
    repeat match goal with |- context [bool_decide ?P] =>
      let b := eval vm_compute in (bool_decide P) in change (bool_decide P) with b end;
    destruct nolabels, timed; cbn; try reflexivity; by destruct (optional _).
Qed.

(** ** What is written *)

Lemma level_round_trip lv : lv <> off -> level_of (levelToString lv) = lv.
Proof. by destruct lv. Qed.

Lemma timestamp_nonempty ns : is_nonempty (getIso8601Timestamp ns) = true.
Proof. unfold getIso8601Timestamp. cbv zeta. by destruct (of_chars _). Qed.

(** The identifiers a thread may have for its messages to be written. *)
Definition good_context (c : LogTraceContext) : bool :=
  (String.eqb (tc_trace_id c) "" || (String.length (tc_trace_id c) =? 32)%nat) &&
  (String.eqb (tc_span_id c) "" || (String.length (tc_span_id c) =? 16)%nat).

Section Written.
Context {L : Type} `{!Spdlog L, !SpdlogLaws L} (dump : Json -> result string string).
Implicit Type g : StructuredLogger L.

Lemma message_event_valid ns pid hash me lv msg ctx t g :
  isValid (message_event ns pid hash me lv msg ctx t g) =
  is_nonempty (sp_name (logger_ g)) && is_nonempty msg && good_context (getThreadTraceContext me t).
Proof.
  unfold isValid, message_event, good_context.
  cbn [timestamp log_level log_logger message ecs_version trace_id span_id].
  rewrite timestamp_nonempty. replace (is_nonempty (levelToString lv)) with true by (by destruct lv).
  replace (is_nonempty "8.11") with true by reflexivity. cbn [andb]. unfold is_nonempty.
  by destruct (String.eqb (sp_name _) ""), (String.eqb msg ""), (String.eqb (tc_trace_id _) ""), (String.eqb (tc_span_id _) ""),
    (String.length (tc_trace_id _) =? 32)%nat, (String.length (tc_span_id _) =? 16)%nat.
Qed.

(** A message makes one line or none.  It is written, as the JSON text of
    its event and at its own level, exactly when the logger has a name, the
    message is not empty, the identifiers of the calling thread's context are
    empty or of the right length, the value can be printed, and the level is
    not below the logger's; the level and the formatter stay as they were. *)
Theorem message_is_logged ns pid hash me lv msg ctx t g :
  lv <> off ->
  let e := message_event ns pid hash me lv msg ctx t g in
  let g' := snd (log_message dump ns pid hash me lv msg ctx t g) in
  sp_lines (logger_ g') = sp_lines (logger_ g) ++
    (if is_nonempty (sp_name (logger_ g)) && is_nonempty msg && good_context (getThreadTraceContext me t) &&
        (level_val (getLevel g) <=? level_val lv)
     then match dump (toJson e) with Ok s => [s] | Throw _ => [] end else []) /\
  getLevel g' = getLevel g /\ formatter_ g' = formatter_ g.
Proof.
  intros Hlv. cbv zeta. unfold log_message, log, getLevel. rewrite message_event_valid.
  destruct (is_nonempty (sp_name (logger_ g)) && is_nonempty msg && good_context (getThreadTraceContext me t));
    cbn [negb andb]; [|by rewrite app_nil_r].
  destruct (dump _) as [s|x]; cbn [snd logger_ formatter_].
  - rewrite sl_log, sl_log_level. cbn [log_level message_event]. rewrite level_round_trip by done.
    split; [reflexivity|]. split; reflexivity.
  - split; [|split; reflexivity]. destruct (_ <=? _); by rewrite app_nil_r.
Qed.

(** DEVIATION: a formatter is to add its labels to all the logs that follow; the
    logger never asks it, so no formatter changes what is written. *)
Theorem formatter_has_no_effect e f g :
  sp_lines (logger_ (snd (log dump e (setFormatter f g)))) = sp_lines (logger_ (snd (log dump e g))).
Proof. unfold log, setFormatter. destruct (isValid e); [|reflexivity]. by destruct (dump (toJson e)). Qed.
End Written.

(** A logger that keeps its lines. *)
Record Lines := mkLines { ln_name : string; ln_level : Level; ln_lines : list string }.
#[export] Instance lines_spdlog : Spdlog Lines := {|
  sp_name := ln_name; sp_level := ln_level;
  sp_set_level lv l := mkLines (ln_name l) lv (ln_lines l);
  sp_log lv s l := mkLines (ln_name l) (ln_level l)
                     (ln_lines l ++ if level_val (ln_level l) <=? level_val lv then [s] else []);
  sp_flush l := l; sp_lines := ln_lines |}.
#[export] Instance lines_laws : SpdlogLaws Lines.
Proof. by split. Qed.

Definition show_message (j : Json) : result string string :=
  match under ["message"] j with Some (JString s) => Ok s | _ => Throw "dump" end.
Definition a_logger : StructuredLogger Lines := mkLogger (mkLines "mxrc.rt" info []) (newFormatter "mxrc" 7).

Lemma message_is_logged_witness :
  let t := setThreadTraceContext 1 "0123456789abcdef0123456789abcdef" "0123456789abcdef" ∅ in
  warn <> off /\
  ln_lines (logger_ (snd (log_message show_message 5000000 7 11 1 warn "late" ∅ t a_logger))) = ["late"].
Proof.
  intros t. assert (warn <> off) as Hw by discriminate. split; [exact Hw|].
  destruct (message_is_logged show_message 5000000 7 11 1 warn "late" ∅ t a_logger Hw) as [Hl _].
  etransitivity; [exact Hl|]. by_compute.
Defined.

(** DEVIATION: the milliseconds are not padded, so five milliseconds after a
    second read as half a second, and the texts are not in the order of time. *)
Theorem milliseconds_are_not_padded :
  getIso8601Timestamp 1000005000000 = "1970-01-01T00:16:40.5Z" /\
  getIso8601Timestamp 1000500000000 = "1970-01-01T00:16:40.500Z" /\
  String.ltb (getIso8601Timestamp 1000010000000) (getIso8601Timestamp 1000009000000) = true.
Proof. split; [by_compute|]. split; by_compute. Qed.

(** DEVIATION: a trace identifier is to be 32 hexadecimal digits; any 32
    characters are accepted. *)
Theorem any_32_characters_are_a_trace :
  isValid (mkEvent "t" "info" "l" "p" 1 1 "" "m" "8.11" ∅ "zzzzzzzzzzzzzzzzzzzzzzzzzzzzzzzz" "" "" "" "" 0) = true.
Proof. reflexivity. Qed.
