(* ===== verification/Systemd.v ===== *)
(** * systemd (src/core/systemd, src/systemd)

    The notifications to systemd, the timer that sends them, the queries of
    service properties and the journal.  [sd_notify], [popen] and the journal
    are parameters: the state of the system is what they are given. *)

From stdpp Require Import pretty.
From Stdlib Require Import Ascii.
From S2P Require Import Prelude Text.
#[local] Open Scope Z_scope.

(** ** SdNotifyWatchdog *)

Module Notify.

(** The environment variable, the messages sent, and what [sd_notify] returns
    for each. *)
Record Env := mkEnv { notify_socket : option string; sent : list string; sd_notify : string -> Z }.

Definition isSystemdAvailable (e : Env) : bool :=
  match notify_socket e with Some s => negb (String.eqb s "") | None => false end.

Definition sendNotification (state : string) (e : Env) : bool * Env :=
  if negb (isSystemdAvailable e) then (true, e)
  else (0 <=? sd_notify e state, mkEnv (notify_socket e) (sent e ++ [state]) (sd_notify e)).

Definition sendWatchdog : Env -> bool * Env := sendNotification "WATCHDOG=1".
Definition sendReady : Env -> bool * Env := sendNotification "READY=1".
Definition sendStatus (status : string) : Env -> bool * Env := sendNotification ("STATUS=" +:+ status).

(** Outside systemd nothing is sent and every notification succeeds. *)
Lemma silent_outside_systemd state e : isSystemdAvailable e = false -> sendNotification state e = (true, e).
Proof. intros He. unfold sendNotification. by rewrite He. Qed.
End Notify.

(** ** WatchdogTimer

    Threads that call [start] and [stop], and the timer threads.  Each access
    to the shared members is a step. *)

Module Watchdog.

(** Where a caller is: before the thread of a start is stored, or joining and
    releasing the thread of a stop. *)
Inductive Caller := C_Idle | C_Assign | C_Join | C_Reset.
(** Where a timer thread is. *)
Inductive Timer := T_Test | T_Send | T_Sleep | T_Done.

#[export] Instance Timer_eq_dec : EqDecision Timer.
Proof. solve_decision. Defined.

Record WatchdogTimer := mkTimer {
  running_ : bool;
  timerThread_ : option nat;          (* the thread it owns *)
  threads : list (Timer * bool);      (* each thread, and whether it is joinable *)
  callers : list Caller;
  notified : nat;                     (* calls of sendWatchdog *)
  terminated : bool                   (* a joinable thread was destroyed *)
}.

Definition newTimer (n : nat) : WatchdogTimer := mkTimer false None [] (replicate n C_Idle) 0 false.

Implicit Type w : WatchdogTimer.

Definition set_caller (i : nat) (c : Caller) w : WatchdogTimer :=
  mkTimer (running_ w) (timerThread_ w) (threads w) (<[i := c]> (callers w)) (notified w) (terminated w).
Definition set_running (b : bool) w : WatchdogTimer :=
  mkTimer b (timerThread_ w) (threads w) (callers w) (notified w) (terminated w).

Definition joinable (t : nat) w : bool := match threads w !! t with Some (_, j) => j | None => false end.

(** [timerThread_] gets a new value: the old thread is destroyed. *)
Definition replace (new : option nat) w : WatchdogTimer :=
  mkTimer (running_ w) new (threads w) (callers w) (notified w)
    (terminated w || match timerThread_ w with Some t => joinable t w | None => false end).

Definition spawn w : nat * WatchdogTimer :=
  (length (threads w),
   mkTimer (running_ w) (timerThread_ w) (threads w ++ [(T_Test, true)]) (callers w) (notified w) (terminated w)).

(** [start] and [stop] up to their exchange; the result when they return there. *)
Definition start (i : nat) w : option bool * WatchdogTimer :=
  if running_ w then (Some false, w) else (None, set_caller i C_Assign (set_running true w)).
Definition stop (i : nat) w : option bool * WatchdogTimer :=
  if running_ w then (None, set_caller i C_Join (set_running false w)) else (Some false, w).

(** The rest of the calls; [None] when the caller has nothing to do or waits. *)
Definition caller_step (i : nat) w : option WatchdogTimer :=
  match callers w !! i with
  | Some C_Assign => let '(t, w) := spawn w in Some (set_caller i C_Idle (replace (Some t) w))
  | Some C_Join =>
    match timerThread_ w with
    | Some t =>
      match threads w !! t with
      | Some (T_Done, true) =>
        Some (set_caller i C_Reset (mkTimer (running_ w) (timerThread_ w) (<[t := (T_Done, false)]> (threads w)) (callers w)
                (notified w) (terminated w)))
      | Some (_, true) => None
      | _ => Some (set_caller i C_Reset w)
      end
    | None => Some (set_caller i C_Reset w)
    end
  | Some C_Reset => Some (set_caller i C_Idle (replace None w))
  | _ => None
  end.

Definition isRunning w : bool := running_ w.

Definition set_thread (t : nat) (x : Timer) (j : bool) (n : nat) w : WatchdogTimer :=
  mkTimer (running_ w) (timerThread_ w) (<[t := (x, j)]> (threads w)) (callers w) n (terminated w).

(** [timerLoop] *)
Definition timer_step (t : nat) w : option WatchdogTimer :=
  match threads w !! t with
  | Some (T_Test, j) => Some (set_thread t (if running_ w then T_Send else T_Done) j (notified w) w)
  | Some (T_Send, j) => Some (set_thread t T_Sleep j (S (notified w)) w)
  | Some (T_Sleep, j) => Some (set_thread t T_Test j (notified w) w)
  | _ => None
  end.

(** *** Runs *)

Inductive Event := Start (i : nat) | Stop (i : nat) | Caller_Step (i : nat) | Timer_Step (t : nat).

Definition is_idle (c : Caller) : bool := match c with C_Idle => true | _ => false end.

(** A caller that is busy cannot call. *)
Definition step (e : Event) w : option WatchdogTimer :=
  match e with
  | Start i => match callers w !! i with Some C_Idle => Some (snd (start i w)) | _ => None end
  | Stop i => match callers w !! i with Some C_Idle => Some (snd (stop i w)) | _ => None end
  | Caller_Step i => caller_step i w
  | Timer_Step t => timer_step t w
  end.

Fixpoint run (es : list Event) w : WatchdogTimer :=
  match es with [] => w | e :: es => run es (default w (step e w)) end.

(** Calls do not overlap. *)
Fixpoint one_at_a_time (es : list Event) w : bool :=
  match es with
  | [] => true
  | e :: es =>
    match e with Start _ | Stop _ => forallb is_idle (callers w) | _ => true end && one_at_a_time es (default w (step e w))
  end.

(** *** One caller at a time *)

Definition finished : Timer * bool := (T_Done, false).
(** Every thread but [o] has ended and was joined. *)
Definition all_finished_but (o : option nat) w : Prop :=
  forall t x, threads w !! t = Some x -> Some t <> o -> x = finished.

Definition phase_ok (c : Caller) w : Prop :=
  match c with
  | C_Idle =>
    if running_ w then exists t x, timerThread_ w = Some t /\ threads w !! t = Some (x, true) /\ x <> T_Done /\ all_finished_but (Some t) w
    else timerThread_ w = None /\ all_finished_but None w
  | C_Assign => running_ w = true /\ timerThread_ w = None /\ all_finished_but None w
  | C_Join => running_ w = false /\ exists t x, timerThread_ w = Some t /\ threads w !! t = Some (x, true) /\ all_finished_but (Some t) w
  | C_Reset => running_ w = false /\ all_finished_but None w
  end.

Definition quiet_but (i : nat) w : Prop := forall j c, callers w !! j = Some c -> j <> i -> c = C_Idle.

Record watch_ok (i : nat) w : Prop := {
  wk_quiet : quiet_but i w;
  wk_phase : phase_ok (default C_Idle (callers w !! i)) w;
  wk_alive : terminated w = false
}.

Lemma quiet_set i c w j : quiet_but i w -> j = i -> quiet_but i (set_caller j c w).
Proof.
  intros Hq -> k c' Hk Hn. cbn in Hk. rewrite list_lookup_insert_ne in Hk by done. by eapply Hq.
Qed.

Lemma all_idle_quiet w i : forallb is_idle (callers w) = true -> quiet_but i w /\ default C_Idle (callers w !! i) = C_Idle.
Proof.
  intros Hf. rewrite forallb_forall in Hf.
  assert (forall j c, callers w !! j = Some c -> c = C_Idle) as Hc.
  { intros j c Hj. specialize (Hf c). destruct c; [done|..]; exfalso;
      (assert (false = true) by (apply Hf, list_elem_of_In; by eapply list_elem_of_lookup_2); discriminate). }
  split; [intros j c Hj _; by eapply Hc|]. destruct (callers w !! i) eqn:E; [by eapply Hc|done].
Qed.

Lemma phase_caller i c c' w :
  callers w !! i = Some c -> phase_ok c' w -> phase_ok (default C_Idle (callers (set_caller i c' w) !! i)) (set_caller i c' w).
Proof.
  intros Hi Hp. cbn [callers set_caller]. rewrite list_lookup_insert_eq by (by eapply lookup_lt_Some).
  cbn [default id]. exact Hp.
Qed.

Lemma call_ok i w e :
  forallb is_idle (callers w) = true -> (exists j, watch_ok j w) -> e = Start i \/ e = Stop i ->
  exists j, watch_ok j (default w (step e w)).
Proof.
  intros Hf [j Hok] He. destruct (all_idle_quiet w i Hf) as [Hq Hi]. destruct (all_idle_quiet w j Hf) as [_ Hj].
  destruct Hok as [Hqj Hp Ha]. rewrite Hj in Hp.
  assert (watch_ok i w) as Hsame by (split; [done|by rewrite Hi|done]).
  destruct (callers w !! i) as [c|] eqn:Hci.
  2: { exists i. destruct He as [-> | ->]; cbn [step]; rewrite Hci; exact Hsame. }
  cbn in Hi. subst c. exists i. destruct He as [-> | ->]; cbn [step]; rewrite Hci; cbn [default id]; unfold start, stop;
    cbn [phase_ok] in Hp; destruct (running_ w) eqn:Hr; cbn [snd]; try exact Hsame.
  - split; [by apply quiet_set| |exact Ha]. eapply phase_caller; [exact Hci|]. split; [done|]. exact Hp.
  - split; [by apply quiet_set| |exact Ha]. eapply phase_caller; [exact Hci|]. split; [done|].
    destruct Hp as (t & x & Ht & Hx & _ & Hall). exists t, x. split_and!; done.
Qed.

Lemma finished_insert o t x w n :
  all_finished_but o w -> o = Some t -> all_finished_but o (set_thread t x true n w).
Proof.
  intros Hall -> k y Hk Hn. cbn in Hk. rewrite list_lookup_insert_ne in Hk by congruence. by eapply Hall.
Qed.

Lemma caller_ok i w w' : (exists j, watch_ok j w) -> caller_step i w = Some w' -> exists j, watch_ok j w'.
Proof.
  intros [j [Hq Hp Ha]] Hs. unfold caller_step in Hs.
  destruct (callers w !! i) as [c|] eqn:Hi; [|discriminate].
  assert (c = C_Idle \/ i = j) as [-> | ->]; [|discriminate|].
  { destruct (decide (i = j)); [by right|left; by eapply Hq]. }
  rewrite Hi in Hp. cbn [default id] in Hp. exists j. destruct c; [discriminate|..]; cbn [phase_ok] in Hp.
  - destruct Hp as (Hr & Ht & Hall). cbn in Hs. injection Hs as <-. split.
    + intros k c Hk Hn. cbn in Hk. rewrite list_lookup_insert_ne in Hk by done. by eapply Hq.
    + cbn. rewrite list_lookup_insert_eq by (by eapply lookup_lt_Some). cbn. rewrite Hr.
      exists (length (threads w)), T_Test. split_and!; [done|by rewrite lookup_app_r, Nat.sub_diag by lia|done|].
      intros t x Hx Hn. cbn in Hx. apply lookup_app_Some in Hx as [Hx|[Hl Hx]]; [by eapply Hall|].
      exfalso. apply Hn. f_equal. destruct (t - length (threads w))%nat eqn:E; [lia|]. by destruct n.
    + cbn. by rewrite Ha, Ht.
  - destruct Hp as (Hr & t & x & Ht & Hx & Hall). rewrite Ht, Hx in Hs.
    assert (x = T_Done) as -> by (destruct x; congruence). injection Hs as <-. split.
    + intros k c Hk Hn. cbn in Hk. rewrite list_lookup_insert_ne in Hk by done. by eapply Hq.
    + cbn. rewrite list_lookup_insert_eq by (by eapply lookup_lt_Some). cbn. split; [done|].
      intros t' y Hy _. cbn in Hy. destruct (decide (t' = t)) as [->|Hn].
      * rewrite list_lookup_insert_eq in Hy by (by eapply lookup_lt_Some). by injection Hy as <-.
      * rewrite list_lookup_insert_ne in Hy by done. eapply Hall; [exact Hy|congruence].
    + exact Ha.
  - destruct Hp as (Hr & Hall). injection Hs as <-. split.
    + intros k c Hk Hn. cbn in Hk. rewrite list_lookup_insert_ne in Hk by done. by eapply Hq.
    + cbn. rewrite list_lookup_insert_eq by (by eapply lookup_lt_Some). cbn. rewrite Hr. split; [done|]. exact Hall.
    + cbn. rewrite Ha. destruct (timerThread_ w) as [t|]; [|done]. cbn. unfold joinable.
      destruct (threads w !! t) as [[x b]|] eqn:E; [|done]. by injection (Hall t _ E ltac:(done)) as -> ->.
Qed.

Lemma timer_ok t w w' : (exists j, watch_ok j w) -> timer_step t w = Some w' -> exists j, watch_ok j w'.
Proof.
  intros [j [Hq Hp Ha]] Hs. unfold timer_step in Hs.
  destruct (threads w !! t) as [[x b]|] eqn:Ht; [|discriminate].
  exists j.
  assert (exists o, timerThread_ w = Some o /\ o = t /\ b = true /\ all_finished_but (Some t) w /\
            (default C_Idle (callers w !! j) = C_Idle /\ running_ w = true \/
             default C_Idle (callers w !! j) = C_Join /\ running_ w = false)) as (o & Ho & -> & -> & Hall & Hc).
  { destruct (default C_Idle (callers w !! j)) eqn:Hd; cbn [phase_ok] in Hp; [destruct (running_ w) eqn:Hr|..].
    - destruct Hp as (o & y & Ho & Hy & Hny & Hall). destruct (decide (t = o)) as [->|Hn].
      + exists o. rewrite Ht in Hy. injection Hy as -> ->. split_and!; auto.
      + injection (Hall t _ Ht ltac:(congruence)) as -> ->. discriminate.
    - destruct Hp as [_ Hall]. injection (Hall t _ Ht ltac:(done)) as -> ->. discriminate.
    - destruct Hp as (_ & _ & Hall). injection (Hall t _ Ht ltac:(done)) as -> ->. discriminate.
    - destruct Hp as (Hr & o & y & Ho & Hy & Hall). destruct (decide (t = o)) as [->|Hn].
      + exists o. rewrite Ht in Hy. injection Hy as -> ->. split_and!; auto.
      + injection (Hall t _ Ht ltac:(congruence)) as -> ->. discriminate.
    - destruct Hp as [_ Hall]. injection (Hall t _ Ht ltac:(done)) as -> ->. discriminate. }
  assert (exists y n, w' = set_thread t y true n w /\ (running_ w = true -> y <> T_Done)) as (y & n & -> & Hy).
  { destruct x; [..|discriminate]; injection Hs as <-; do 2 eexists; (split; [reflexivity|]); [by intros ->|done|done]. }
  split; [exact Hq| |exact Ha]. cbn [callers set_thread].
  assert (threads (set_thread t y true n w) !! t = Some (y, true)) as Hl
    by (cbn; apply list_lookup_insert_eq; by eapply lookup_lt_Some).
  destruct Hc as [[-> Hr]|[-> Hr]]; cbn [phase_ok running_ set_thread]; rewrite Hr.
  - exists t, y. split_and!; [exact Ho|exact Hl|by apply Hy|by apply finished_insert].
  - split; [done|]. exists t, y. split_and!; [exact Ho|exact Hl|by apply finished_insert].
Qed.

Lemma run_watch_ok es : forall w, (exists j, watch_ok j w) -> one_at_a_time es w = true -> exists j, watch_ok j (run es w).
Proof.
  induction es as [|e es IH]; intros w Hw Ho; [exact Hw|]. cbn [run one_at_a_time] in *.
  apply andb_true_iff in Ho as [He Ho]. apply IH; [|exact Ho]. clear IH Ho. destruct e as [i|i|i|t].
  - eapply (call_ok i); eauto.
  - eapply (call_ok i); eauto.
  - cbn [step]. destruct (caller_step i w) eqn:E; [by eapply caller_ok|exact Hw].
  - cbn [step]. destruct (timer_step t w) eqn:E; [by eapply timer_ok|exact Hw].
Qed.

Lemma new_watch_ok n : exists j, watch_ok j (newTimer n).
Proof.
  exists 0%nat. split; [intros j c Hj _; by apply lookup_replicate in Hj as [-> _]| |reflexivity].
  assert (default C_Idle (callers (newTimer n) !! 0%nat) = C_Idle) as -> by (by destruct n). cbn. split; [done|].
  intros t x Hx. done.
Qed.

(** C39: when calls of [start] and [stop] do not overlap, at every moment at
    most one timer thread lives and none is destroyed unjoined; between calls
    there is a live timer thread exactly when [isRunning] says so. *)
Theorem one_timer_thread n es :
  one_at_a_time es (newTimer n) = true ->
  let w := run es (newTimer n) in
  terminated w = false /\
  (forall t1 t2 x1 x2, threads w !! t1 = Some x1 -> threads w !! t2 = Some x2 -> x1.1 <> T_Done -> x2.1 <> T_Done -> t1 = t2) /\
  (forallb is_idle (callers w) = true -> isRunning w = true <-> exists t x, threads w !! t = Some x /\ x.1 <> T_Done).
Proof.
  intros Ho w. destruct (run_watch_ok es _ (new_watch_ok n) Ho) as [j [Hq Hp Ha]]. fold w in Hq, Hp, Ha.
  split; [exact Ha|].
  assert (exists o, all_finished_but o w) as [o Hall].
  { destruct (default C_Idle (callers w !! j)); cbn [phase_ok] in Hp; [destruct (running_ w)|..];
      repeat match goal with H : exists _, _ |- _ => destruct H | H : _ /\ _ |- _ => destruct H end; eauto. }
  assert (forall t x, threads w !! t = Some x -> x.1 <> T_Done -> o = Some t) as Hone.
  { intros t x Ht Hx. destruct (decide (Some t = o)) as [<-|Hn]; [done|]. rewrite (Hall t x Ht Hn) in Hx. done. }
  split.
  - intros t1 t2 x1 x2 H1 H2 N1 N2. pose proof (Hone t1 x1 H1 N1). pose proof (Hone t2 x2 H2 N2). congruence.
  - intros Hf. destruct (all_idle_quiet w j Hf) as [_ Hj]. rewrite Hj in Hp. cbn [phase_ok] in Hp. unfold isRunning.
    destruct (running_ w).
    + split; [|done]. intros _. destruct Hp as (t & x & _ & Ht & Hx & _). by exists t, (x, true).
    + split; [done|]. intros (t & x & Ht & Hx). destruct Hp as [_ Hp]. by rewrite (Hp t x Ht ltac:(done)) in Hx.
Qed.

Definition next (b : bool) (x : Timer) : Timer :=
  match x with T_Test => if b then T_Send else T_Done | T_Send => T_Sleep | T_Sleep => T_Test | T_Done => T_Done end.

Lemma run_timer t x j es w :
  threads w !! t = Some (x, j) -> exists n, run (Timer_Step t :: es) w = run es (set_thread t (next (running_ w) x) j n w).
Proof.
  intros Hx. cbn [run step]. unfold timer_step. rewrite Hx. destruct x; [eexists; reflexivity..|].
  exists (notified w). f_equal. destruct w. cbn in *. unfold set_thread. cbn. by rewrite list_insert_id.
Qed.

Lemma set_thread_lookup t x y j k n w :
  threads w !! t = Some (x, k) -> threads (set_thread t y j n w) !! t = Some (y, j).
Proof. intros Hx. cbn. apply list_lookup_insert_eq. by eapply lookup_lt_Some. Qed.

(** [stop] returns: once its exchange is done, three steps of the timer thread
    let the join and the release go through. *)
Lemma watchdog_stop_returns i t x w :
  running_ w = false -> callers w !! i = Some C_Join -> timerThread_ w = Some t -> threads w !! t = Some (x, true) ->
  let w' := run [Timer_Step t; Timer_Step t; Timer_Step t; Caller_Step i; Caller_Step i] w in
  callers w' !! i = Some C_Idle /\ timerThread_ w' = None /\ threads w' !! t = Some finished.
Proof.
  intros Hr Hi Ht Hx. cbv zeta.
  edestruct run_timer as [n1 ->]; [exact Hx|]. eapply set_thread_lookup in Hx. rewrite Hr.
  edestruct run_timer as [n2 ->]; [exact Hx|]. eapply set_thread_lookup in Hx. cbn [running_ set_thread]. rewrite Hr.
  edestruct run_timer as [n3 ->]; [exact Hx|]. eapply set_thread_lookup in Hx. cbn [running_ set_thread]. rewrite Hr.
  replace (next false (next false (next false x))) with T_Done by (by destruct x).
  match goal with |- context [run _ ?w0] =>
    assert (threads w0 !! t = Some (T_Done, true)) as Hd by exact Hx; set (w1 := w0) in *;
    assert (callers w1 !! i = Some C_Join) as Hi1 by exact Hi; assert (timerThread_ w1 = Some t) as Ht1 by exact Ht end.
  clearbody w1. clear -Hd Hi1 Ht1.
  assert (i < length (callers w1))%nat by (by eapply lookup_lt_Some).
  assert (t < length (threads w1))%nat by (by eapply lookup_lt_Some).
  cbn [run step].
  assert (exists w2, caller_step i w1 = Some w2 /\ callers w2 !! i = Some C_Reset /\ threads w2 !! t = Some finished) as (w2 & -> & Hc2 & Ht2).
  { unfold caller_step. rewrite Hi1, Ht1, Hd. eexists. split; [reflexivity|]. cbn. by rewrite !list_lookup_insert_eq. }
  assert (i < length (callers w2))%nat by (by eapply lookup_lt_Some). cbn [default id].
  unfold caller_step. rewrite Hc2. cbn. by rewrite list_lookup_insert_eq.
Qed.

Lemma one_timer_thread_witness :
  let es := [Start 0; Caller_Step 0; Timer_Step 0; Timer_Step 0; Stop 0; Timer_Step 0; Timer_Step 0; Caller_Step 0; Caller_Step 0;
             Start 1; Caller_Step 1] in
  one_at_a_time es (newTimer 2) = true /\ threads (run es (newTimer 2)) = [finished; (T_Test, true)] /\
  terminated (run es (newTimer 2)) = false.
Proof.
  intros es. assert (one_at_a_time es (newTimer 2) = true) as Ho by reflexivity. split; [exact Ho|]. split; [reflexivity|].
  exact (proj1 (one_timer_thread 2 es Ho)).
Defined.

(** DEVIATION: the timer is to be safe for concurrent calls of [start] and
    [stop]; a start while another thread is in [stop] destroys the thread that
    is being joined, which ends the process. *)
Theorem overlapping_calls_terminate :
  terminated (run [Start 0; Caller_Step 0; Stop 0; Start 1; Caller_Step 1] (newTimer 2)) = true.
Proof. reflexivity. Qed.
End Watchdog.

(** ** SystemdUtil and SystemdMetricsCollector *)

Module Services.

Definition nl : ascii := ascii_of_nat 10.
Definition eq_sign : ascii := "="%char.

(** [std::getline], [find('=')] and the two parts of each line, in a map. *)
Definition parse_line (m : gmap string string) (line : chars) : gmap string string :=
  match split_at eq_sign line with Some (k, v) => <[of_chars k := of_chars v]> m | None => m end.
Definition parseSystemctlShow (output : string) : gmap string string :=
  foldl parse_line ∅ (getlines nl [] (to_chars output)).

(** The machine: whether systemd runs, the environment variable, and what a
    command prints; [None] when it cannot be started. *)
Record Machine := mkMachine { systemd_dir : bool; notify_socket : option string; popen : string -> option string }.

Definition checkSystemdAvailable (m : Machine) : bool := systemd_dir m.
Definition executeCommand (command : string) (m : Machine) : option string := popen m command.

Definition show (service properties : string) : string := "systemctl show " +:+ service +:+ " --property=" +:+ properties.

Definition getServiceProperty (service property : string) (m : Machine) : option string :=
  if negb (checkSystemdAvailable m) then None
  else output ← executeCommand (show service property) m; parseSystemctlShow output !! property.

Fixpoint comma_list (acc : string) (ps : list string) : string :=
  match ps with
  | [] => acc
  | p :: ps => comma_list ((if String.eqb acc "" then acc else acc +:+ ",") +:+ p) ps
  end.

Definition getServiceProperties (service : string) (ps : list string) (m : Machine) : gmap string string :=
  if negb (checkSystemdAvailable m) || bool_decide (ps = []) then ∅
  else match executeCommand (show service (comma_list "" ps)) m with
       | None => ∅
       | Some output => parseSystemctlShow output
       end.

Definition isServiceActive (service : string) (m : Machine) : bool :=
  bool_decide (getServiceProperty service "ActiveState" m = Some "active").

Definition restartService (service : string) (m : Machine) : bool :=
  if negb (checkSystemdAvailable m) then false
  else bool_decide (is_Some (executeCommand ("systemctl restart " +:+ service) m)).

Definition isRunningAsService (m : Machine) : bool := bool_decide (is_Some (notify_socket m)).

(** *** The collector *)

Definition collector_executeCommand (command : string) (m : Machine) : result string string :=
  match popen m command with Some o => Ok o | None => Throw ("Failed to execute command: " +:+ command) end.

(** One newline at the end is dropped. *)
Definition chop (v : chars) : chars :=
  match last v with Some c => if bool_decide (c = nl) then take (length v - 1) v else v | None => v end.

Definition executeSystemctl (service property : string) (m : Machine) : result string string :=
  match collector_executeCommand (show service property) m with
  | Throw e => Throw e
  | Ok output => match split_at eq_sign (to_chars output) with
                 | None => Ok ""
                 | Some (_, v) => Ok (of_chars (chop v))
                 end
  end.

Definition getServiceState (service : string) (m : Machine) : result string string := executeSystemctl service "ActiveState" m.

(** The number of a property; 0 when it is not set or not a number. *)
Definition number (narrow : Z -> Z) (service property : string) (m : Machine) : result string Z :=
  match executeSystemctl service property m with
  | Throw e => Throw e
  | Ok v =>
    if String.eqb v "" || String.eqb v "[not set]" then Ok 0
    else match stoull v with Ok n => Ok (narrow n) | Throw _ => Ok 0 end
  end.

Definition getCpuUsageNanoseconds (service : string) : Machine -> result string Z := number id service "CPUUsageNSec".
Definition getMemoryUsageBytes (service : string) : Machine -> result string Z := number id service "MemoryCurrent".
Definition getRestartCount (service : string) : Machine -> result string Z := number u32 service "NRestarts".

Definition getAllMetrics (service : string) (m : Machine) : result string (gmap string string) :=
  match collector_executeCommand (show service "ActiveState,SubState,CPUUsageNSec,MemoryCurrent,NRestarts") m with
  | Throw e => Throw e
  | Ok output => Ok (parseSystemctlShow output)
  end.

(** The loop of [collectMetrics]; an exception ends it. *)
Fixpoint collect (services : list string) (acc : gmap string (gmap string string)) (m : Machine) :
    result string (gmap string (gmap string string)) :=
  match services with
  | [] => Ok acc
  | s :: services => match getAllMetrics s m with Throw e => Throw e | Ok x => collect services (<[s := x]> acc) m end
  end.
Definition collectMetrics (services : list string) (m : Machine) : result string (gmap string (gmap string string)) :=
  collect services ∅ m.

(** *** Reading back what systemctl prints *)

(** Names without an equal sign and values on one line. *)
Definition printable (kv : string * string) : Prop :=
  eq_sign ∉ to_chars kv.1 /\ nl ∉ to_chars kv.1 /\ nl ∉ to_chars kv.2.

Definition print_property (kv : string * string) : chars := to_chars kv.1 ++ eq_sign :: to_chars kv.2 ++ [nl].
Definition print_properties (l : list (string * string)) : string := of_chars (concat (print_property <$> l)).

Lemma parse_print_line m kv rest :
  printable kv ->
  foldl parse_line m (getlines nl [] (print_property kv ++ rest)) =
  foldl parse_line (<[kv.1 := kv.2]> m) (getlines nl [] rest).
Proof.
  intros (He & Hk & Hv). unfold print_property.
  replace ((to_chars kv.1 ++ eq_sign :: to_chars kv.2 ++ [nl]) ++ rest)
    with ((to_chars kv.1 ++ eq_sign :: to_chars kv.2) ++ nl :: rest) by (rewrite <- !app_assoc; cbn; by rewrite <- app_assoc).
  rewrite getlines_sep.
  - cbn [app foldl]. f_equal. unfold parse_line. rewrite split_at_first by done. by rewrite !of_to_chars.
  - rewrite elem_of_app, elem_of_cons. intros [H|[H|H]]; [done|discriminate|done].
Qed.

(** What systemctl prints is read back.  For properties whose names have no
    equal sign and whose values are on one line, the parsed output is the map
    of the properties, the last of equal names winning; a query of one of them
    through either class gives its value. *)
Theorem systemctl_output_is_read_back (l : list (string * string)) :
  Forall printable l ->
  parseSystemctlShow (print_properties l) = list_to_map (reverse l) /\
  forall m service k v, l = [(k, v)] -> systemd_dir m = true -> popen m (show service k) = Some (print_properties l) ->
    getServiceProperty service k m = Some v /\ executeSystemctl service k m = Ok v.
Proof.
  intros Hl. split.
  - unfold parseSystemctlShow, print_properties. rewrite to_of_chars.
    assert (forall m, foldl parse_line m (getlines nl [] (concat (print_property <$> l))) =
                      foldl (λ m kv, <[kv.1 := kv.2]> m) m l) as ->.
    { induction Hl as [|kv l Hkv Hl IH]; intros m; [reflexivity|]. cbn [fmap list_fmap concat foldl].
      rewrite parse_print_line by done. apply IH. }
    clear Hl. induction l as [|kv l IH] using rev_ind; [reflexivity|].
    rewrite foldl_app, IH, reverse_app. cbn. by destruct kv.
  - intros m service k v -> Hs Hp. apply Forall_cons_1 in Hl as [Hkv _]. cbn in Hkv.
    unfold getServiceProperty, executeSystemctl, collector_executeCommand, executeCommand, checkSystemdAvailable.
    rewrite Hs, Hp. cbn [negb mbind option_bind]. split.
    + unfold parseSystemctlShow, print_properties. rewrite to_of_chars. cbn [fmap list_fmap concat].
      rewrite parse_print_line by done. cbn. apply lookup_insert_eq.
    + unfold print_properties. rewrite to_of_chars. cbn [fmap list_fmap concat]. rewrite app_nil_r.
      unfold print_property. cbn [fst snd]. rewrite split_at_first by apply Hkv. unfold chop.
      rewrite last_snoc, bool_decide_true by done. rewrite length_app. cbn [length].
      rewrite take_app_length' by lia. by rewrite of_to_chars.
Qed.

Definition a_machine : Machine :=
  mkMachine true None (λ c, if String.eqb c (show "mxrc-rt" "ActiveState") then Some (print_properties [("ActiveState", "active")])
                            else if String.eqb c "systemctl restart no-such-unit" then Some "" else None).

Lemma systemctl_output_is_read_back_witness :
  let l := [("ActiveState", "active")] in
  Forall printable l /\ getServiceProperty "mxrc-rt" "ActiveState" a_machine = Some "active" /\
  isServiceActive "mxrc-rt" a_machine = true.
Proof.
  intros l. assert (Forall printable l) as Hl.
  { constructor; [|constructor]. split_and!; apply (bool_decide_unpack _); exact I. }
  split; [exact Hl|].
  destruct (proj2 (systemctl_output_is_read_back l Hl) a_machine "mxrc-rt" "ActiveState" "active" eq_refl eq_refl ltac:(by_compute))
    as [Hg _].
  split; [exact Hg|]. unfold isServiceActive. by rewrite Hg.
Defined.

(** DEVIATION: [restartService] is to return true on success; it does so whenever
    the command could be started, though systemctl refused to restart a service
    that does not exist. *)
Theorem failed_restart_is_success : restartService "no-such-unit" a_machine = true.
Proof. reflexivity. Qed.

End Services.

(** ** JournaldLogger

    An entry of the journal is the fields of one [sd_journal_send]. *)

Module Journal.

Inductive LogLevel := TRACE | DEBUG | INFO | WARN | ERROR | CRITICAL.
Record LogMetadata := mkMeta { trace_id : string; span_id : string; component : string; custom_fields : gmap string string }.
Definition no_metadata : LogMetadata := mkMeta "" "" "" ∅.

Definition toPriority (l : LogLevel) : Z :=
  match l with TRACE => 7 | DEBUG => 7 | INFO => 6 | WARN => 4 | ERROR => 3 | CRITICAL => 2 end.

Definition Entry := list (string * string).

Definition sendToJournal (priority : Z) (message : string) (md : LogMetadata) (journal : list Entry) : list Entry :=
  let base := [("MESSAGE", message); ("PRIORITY", pretty priority)] in
  let given s := negb (String.eqb s "") in
  journal ++
    [if given (trace_id md) && given (span_id md) && given (component md) then
       base ++ [("TRACE_ID", trace_id md); ("SPAN_ID", span_id md); ("COMPONENT", component md)]
     else if given (component md) then base ++ [("COMPONENT", component md)]
     else base].

Definition log (l : LogLevel) (message : string) (md : LogMetadata) : list Entry -> list Entry :=
  sendToJournal (toPriority l) message md.
Definition log_plain (l : LogLevel) (message : string) : list Entry -> list Entry := log l message no_metadata.
Definition trace := log TRACE.
Definition debug := log DEBUG.
Definition info := log INFO.
Definition warn := log WARN.
Definition error := log ERROR.
Definition critical := log CRITICAL.

Definition value_of (k : string) (e : Entry) : option string := list_to_map (M := gmap string string) e !! k.

(** Every call makes one entry with the message and a priority between 2 and 7
    that is no less urgent for a higher level. *)
Lemma log_makes_an_entry l message md journal :
  exists e, log l message md journal = journal ++ [e] /\
    value_of "MESSAGE" e = Some message /\ value_of "PRIORITY" e = Some (pretty (toPriority l)) /\ 2 <= toPriority l <= 7.
Proof.
  eexists. split; [reflexivity|].
  split; [|split; [|by destruct l; cbn; lia]]; unfold value_of; repeat case_match; by cbn.
Qed.

(** DEVIATION: the trace of a message is to be in the journal; without a
    component, or without a span, it is left out. *)
Theorem trace_without_component_is_lost :
  let '(m, t) := ("stopped", "0af7651916cd43dd8448eb211c80319c") in
  error m (mkMeta t "b7ad6b7169203331" "" ∅) [] = error m no_metadata [] /\
  error m (mkMeta t "" "task" ∅) [] = error m (mkMeta "" "" "task" ∅) [].
Proof. split; reflexivity. Qed.
End Journal.
