(* ===== verification/MetricsHttp.v ===== *)
(** * MetricsServer (src/core/monitoring/MetricsServer)

    The HTTP server of the metrics: its socket and thread, the requests it
    answers, and the text it sends.  A request is what [recv] delivers; the
    collector answers with what [exportPrometheus] prints at that moment. *)

From stdpp Require Import pretty.
From Stdlib Require Import Ascii.
From S2P Require Import Prelude Text Ieee754 Metrics ProcessMonitor HealthServer.
#[local] Open Scope Z_scope.

Definition dquoted (s : string) : string := dquote +:+ s +:+ dquote.

Definition metrics_page : string :=
  lf +:+ "<html>" +:+ lf +:+ "<head><title>MXRC Metrics</title></head>" +:+ lf +:+ "<body>" +:+ lf +:+
  "<h1>MXRC Metrics Exporter</h1>" +:+ lf +:+
  "<p>Metrics are available at <a href=" +:+ dquoted "/metrics" +:+ ">/metrics</a></p>" +:+ lf +:+
  "</body>" +:+ lf +:+ "</html>" +:+ lf.

(** The default type is text/plain. *)
Definition ms_buildHttpResponse (body content_type : string) : string :=
  "HTTP/1.1 200 OK" +:+ crlf +:+ "Content-Type: " +:+ content_type +:+ crlf +:+
  "Content-Length: " +:+ pretty (N.of_nat (String.length body)) +:+ crlf +:+ "Connection: close" +:+ crlf +:+ crlf +:+ body.

Definition not_found : string :=
  let body := "404 Not Found" +:+ lf in
  "HTTP/1.1 404 Not Found" +:+ crlf +:+ "Content-Type: text/plain" +:+ crlf +:+
  "Content-Length: " +:+ pretty (N.of_nat (String.length body)) +:+ crlf +:+ "Connection: close" +:+ crlf +:+ crlf +:+ body.

(** The response to what was received, [None] when [recv] fails. *)
Definition ms_handleClient (received : option chars) (c : MetricsCollector) : option string :=
  match received with
  | None => None
  | Some bytes =>
    let request := c_string (take 4095 bytes) in
    let method := word 0 request in
    let path := word 1 request in
    Some (if String.eqb method "GET" && String.eqb path "/metrics" then ms_buildHttpResponse (exportPrometheus c) "text/plain"
          else if String.eqb method "GET" && String.eqb path "/" then ms_buildHttpResponse metrics_page "text/html"
          else not_found)
  end.

(** ** The server *)

(** Where the server's thread is: [L_Accept] waits for a connection. *)
Inductive Loop := L_None | L_Test | L_Accept | L_Done.

Record MetricsServer := mkMs {
  ms_port : Z; ms_running_ : bool; ms_socket : bool; ms_loop : Loop;
  ms_joinable : bool; ms_terminated : bool;   (* a joinable thread was overwritten *)
  ms_responses : list (option string)
}.
Definition newMetricsServer (port : Z) : MetricsServer := mkMs port false false L_None false false [].

Implicit Type s : MetricsServer.

Definition ms_start (created bound listening : bool) s : bool * MetricsServer :=
  if ms_running_ s then (false, s)
  else if negb created || negb bound || negb listening then
    (false, mkMs (ms_port s) false false (ms_loop s) (ms_joinable s) (ms_terminated s) (ms_responses s))
  else (true, mkMs (ms_port s) true true L_Test true (ms_terminated s || ms_joinable s) (ms_responses s)).

(** [stop] up to the join, and the join once the thread has ended. *)
Definition ms_stop s : MetricsServer :=
  if negb (ms_running_ s) then s
  else mkMs (ms_port s) false false (ms_loop s) (ms_joinable s) (ms_terminated s) (ms_responses s).
Definition ms_join s : option MetricsServer :=
  if ms_joinable s then
    match ms_loop s with
    | L_Done => Some (mkMs (ms_port s) (ms_running_ s) (ms_socket s) L_Done false (ms_terminated s) (ms_responses s))
    | _ => None
    end
  else Some s.

Definition set_loop (l : Loop) (r : list (option string)) s : MetricsServer :=
  mkMs (ms_port s) (ms_running_ s) (ms_socket s) l (ms_joinable s) (ms_terminated s) (ms_responses s ++ r).

(** A step of [serverLoop].  [connection] is what [accept] gives: a client, or a
    failure, which is all it gives once the socket is closed. *)
Definition ms_loop_step (connection : option (option chars)) (c : MetricsCollector) s : MetricsServer :=
  match ms_loop s with
  | L_Test => set_loop (if ms_running_ s then L_Accept else L_Done) [] s
  | L_Accept =>
    match connection with
    | Some received => if ms_socket s then set_loop L_Test [ms_handleClient received c] s else set_loop L_Done [] s
    | None => set_loop L_Done [] s
    end
  | _ => s
  end.

(** ** What a scrape gets *)

Lemma ms_response_is body ctype : ms_buildHttpResponse body ctype = buildHttpResponse body ctype 200 "OK".
Proof.
  unfold ms_buildHttpResponse, buildHttpResponse, response_head. apply to_chars_inj.
  rewrite !to_chars_app, <- !app_assoc. reflexivity.
Qed.

(** A scrape gets the metrics.  Whoever reads the response to a GET of
    /metrics finds the status 200, the length, and after the empty line exactly
    what the collector prints; another path than / gets the status 404. *)
Theorem scrape_gets_the_metrics bytes c :
  let request := c_string (take 4095 bytes) in
  exists text head body, ms_handleClient (Some bytes) c = Some text /\
    read_head 5 (to_chars text) = Some (head, body) /\
    (word 0 request = "GET" -> word 1 request = "/metrics" ->
     head = [to_chars "HTTP/1.1 200 OK"; to_chars "Content-Type: text/plain";
             to_chars ("Content-Length: " +:+ pretty (N.of_nat (String.length (exportPrometheus c)))); to_chars "Connection: close"] /\
     body = to_chars (exportPrometheus c)) /\
    (word 0 request <> "GET" \/ (word 1 request <> "/metrics" /\ word 1 request <> "/") ->
     take 1 head = [to_chars "HTTP/1.1 404 Not Found"]).
Proof.
  cbv zeta. unfold ms_handleClient. generalize (exportPrometheus c). intros e.
  generalize (word 0 (c_string (take 4095 bytes))), (word 1 (c_string (take 4095 bytes))). intros method path.
  assert (plain (pretty 200) /\ plain "OK" /\ plain "text/plain" /\ plain "text/html") as (P1 & P2 & P3 & P4).
  { unfold plain. split_and!; apply (bool_decide_unpack _); exact I. }
  destruct (String.eqb_spec method "GET") as [->|Hm]; [destruct (String.eqb_spec path "/metrics") as [->|Hp];
    [|destruct (String.eqb_spec path "/") as [->|Hr]]|]; cbn [andb]; do 3 eexists; (split; [reflexivity|]).
  - rewrite ms_response_is. split; [by apply response_framed|]. split; [done|]. intros [?|[? _]]; done.
  - rewrite ms_response_is. split; [by apply response_framed|]. split; [done|]. intros [?|[_ ?]]; done.
  - split; [vm_compute; reflexivity|]. split; [done|]. reflexivity.
  - split; [vm_compute; reflexivity|]. split; [done|]. reflexivity.
Qed.

(** [stop] ends: once it has closed the socket, two steps of the loop reach its
    end, whatever [accept] gives, and the thread can be joined. *)
Lemma stop_ends_the_loop s k1 k2 c1 c2 :
  ms_running_ s = true -> ms_joinable s = true -> ms_loop s <> L_None ->
  exists s', ms_join (ms_loop_step k2 c2 (ms_loop_step k1 c1 (ms_stop s))) = Some s' /\ ms_running_ s' = false /\
    ms_joinable s' = false /\ ms_responses s' = ms_responses s.
Proof.
  intros Hr Hj Hl. unfold ms_stop. rewrite Hr. cbn [negb].
  destruct (ms_loop s) eqn:E; [done|..]; unfold ms_loop_step, ms_join, set_loop; cbn; try rewrite Hj; try destruct k1; cbn;
    rewrite ?E, ?Hj; cbn; rewrite ?app_nil_r; eexists; split_and!; reflexivity.
Qed.

(** DEVIATION: a connection that cannot be accepted ends the service; the server
    goes on saying that it runs and refuses to be started again. *)
Theorem failed_accept_leaves_it_running c :
  let s := ms_loop_step None c (ms_loop_step None c (snd (ms_start true true true (newMetricsServer 9100)))) in
  ms_loop s = L_Done /\ ms_running_ s = true /\ ms_start true true true s = (false, s).
Proof. split_and!; reflexivity. Qed.
