(* ===== verification/Serializer.v ===== *)
(** * Serializer (src/core/logging/util/Serializer)

    Values of the data store as JSON.  Parsing and printing JSON text is the
    class [JsonText]: [parse] gives nothing on text that is not JSON, [dump]
    throws on text that is not UTF-8. *)

From S2P Require Import Prelude Interfaces Ieee754 Expiration DataStore Text Config.
#[local] Open Scope Z_scope.

Class JsonText := { parse : string -> option Json; dump : Json -> result string string }.
(** Values that are printed exactly are read back. *)
Class JsonTextLaws `{!JsonText} := {
  exact : Json -> Prop;
  parse_dump j : exact j -> exists s, dump j = Ok s /\ parse s = Some j
}.

Section Serializer.
Context {U : Type} `{!JsonText}.
Implicit Type v : any U.

Definition one (k : string) (x : Json) : Json := JObject [(k, x)].

(** What a helper throws: [bad_any_cast], or a parse error. *)
Inductive Failure := BadAnyCast | ParseError.

Definition serializeRobotMode v : result Failure Json :=
  match v with
  | ValInt n => Ok (one "mode" (JInt n))
  | ValString s => Ok (one "mode" (JString s))
  | _ => Throw BadAnyCast
  end.

Definition serializeInterfaceData v : result Failure Json :=
  match v with
  | ValString s => match parse s with Some j => Ok j | None => Throw ParseError end
  | ValDouble d => Ok (one "value" (JFloat d))
  | _ => Throw BadAnyCast
  end.

(** Text that is JSON stands for itself, other text is kept under a key. *)
Definition text_or (k s : string) : Json := match parse s with Some j => j | None => one k (JString s) end.

Definition serializeConfig v : result Failure Json :=
  match v with ValString s => Ok (text_or "value" s) | _ => Throw BadAnyCast end.

Definition serializePara v : result Failure Json :=
  match v with
  | ValString s => Ok (one "parameter" (JString s))
  | ValDouble d => Ok (one "parameter" (JFloat d))
  | ValInt n => Ok (one "parameter" (JInt n))
  | _ => Throw BadAnyCast
  end.

Definition serializeAlarm v : result Failure Json :=
  match v with ValString s => Ok (text_or "message" s) | _ => Throw BadAnyCast end.
Definition serializeEvent v : result Failure Json :=
  match v with ValString s => Ok (text_or "event" s) | _ => Throw BadAnyCast end.
Definition serializeMissionState v : result Failure Json :=
  match v with
  | ValString s => Ok (text_or "state" s)
  | ValInt n => Ok (one "state" (JInt n))
  | _ => Throw BadAnyCast
  end.
Definition serializeTaskState v : result Failure Json :=
  match v with ValString s => Ok (text_or "task_state" s) | _ => Throw BadAnyCast end.

(** Only [bad_any_cast] is caught. *)
Definition serialize v (type : DataType) : result Failure Json :=
  let r := match type with
           | RobotMode => serializeRobotMode v
           | InterfaceData => serializeInterfaceData v
           | Interfaces.Config => serializeConfig v
           | Para => serializePara v
           | AlarmData => serializeAlarm v
           | Event => serializeEvent v
           | MissionState => serializeMissionState v
           | TaskState => serializeTaskState v
           end in
  match r with
  | Throw BadAnyCast => Ok (one "error" (JString "type_mismatch"))
  | _ => r
  end.

(** [json.contains(k)], then [json[k]]. *)
Definition contained (k : string) (j : Json) : option Json := match j with JObject l => member k l | _ => None end.

(** [None]: a number that does not fit an [int]. *)
Definition deserializeRobotMode (j : Json) : option (result string (any U)) :=
  match contained "mode" j with
  | Some (JInt n) => Some (Ok (ValInt (i32 n)))
  | Some (JFloat d) => (λ n, Ok (ValInt n)) <$> int_of_double 32 d
  | Some (JString s) => Some (Ok (ValString s))
  | _ => Some (Throw "Invalid RobotMode JSON")
  end.

Definition deserializePara (j : Json) : option (result string (any U)) :=
  match contained "parameter" j with
  | Some (JFloat d) => Some (Ok (ValDouble d))
  | Some (JInt n) => Some (Ok (ValInt (i32 n)))
  | Some (JString s) => Some (Ok (ValString s))
  | _ => Some (Throw "Invalid Para JSON")
  end.

(** [json.dump()] *)
Definition deserializeText (j : Json) : option (result string (any U)) :=
  Some (match dump j with Ok s => Ok (ValString s) | Throw e => Throw e end).

Definition deserializeInterfaceData := deserializeText.
Definition deserializeConfig := deserializeText.
Definition deserializeAlarm := deserializeText.
Definition deserializeEvent := deserializeText.
Definition deserializeMissionState := deserializeText.
Definition deserializeTaskState := deserializeText.

Definition deserialize (j : Json) (type : DataType) : option (result string (any U)) :=
  match type with
  | RobotMode => deserializeRobotMode j
  | InterfaceData => deserializeInterfaceData j
  | Interfaces.Config => deserializeConfig j
  | Para => deserializePara j
  | AlarmData => deserializeAlarm j
  | Event => deserializeEvent j
  | MissionState => deserializeMissionState j
  | TaskState => deserializeTaskState j
  end.

(** The values a type is meant for. *)
Definition meant_for (type : DataType) v : bool :=
  match type, v with
  | RobotMode, (ValInt _ | ValString _) => true
  | InterfaceData, (ValString _ | ValDouble _) => true
  | Para, (ValInt _ | ValDouble _ | ValString _) => true
  | MissionState, (ValInt _ | ValString _) => true
  | (Interfaces.Config | AlarmData | Event | TaskState), ValString _ => true
  | _, _ => false
  end.

(** A value of another C++ type gives the error object, and never an exception. *)
Lemma mismatch_is_an_error_object v type :
  meant_for type v = false -> serialize v type = Ok (one "error" (JString "type_mismatch")).
Proof. by destruct type, v. Qed.

(** Serialized values are read back.  Robot modes and parameters are
    restored exactly, with their C++ type; for the six types that are kept as
    text, what is read is text that serializes to the same JSON. *)
Theorem serialized_values_are_read_back `{!JsonTextLaws} :
  (forall v type, type = RobotMode \/ type = Para -> meant_for type v = true ->
     (forall n, v = ValInt n -> - 2 ^ 31 <= n < 2 ^ 31) ->
     exists j, serialize v type = Ok j /\ deserialize j type = Some (Ok v)) /\
  (forall j type, type <> RobotMode -> type <> Para -> exact j ->
     exists v, deserialize j type = Some (Ok v) /\ serialize v type = Ok j).
Proof.
  split.
  - intros v type Ht Hm Hn.
    assert (forall n, v = ValInt n -> i32 n = n) as Hi.
    { intros n Hv. specialize (Hn n Hv). unfold i32, wrap. rewrite Z.mod_small; lia. }
    destruct Ht as [-> | ->], v; try discriminate; eexists; (split; [reflexivity|]); cbn -[i32]; try reflexivity;
      unfold deserializeRobotMode, deserializePara; cbn [contained one member];
      rewrite bool_decide_true by done; by rewrite (Hi _ eq_refl).
  - intros j type Hr Hp Hx. destruct (parse_dump j Hx) as (s & Hd & Hs). exists (ValString s).
    assert (deserialize j type = deserializeText j) as -> by (by destruct type).
    unfold deserializeText. rewrite Hd. split; [reflexivity|].
    destruct type; try done; unfold serialize; cbn; unfold text_or; by rewrite Hs.
Qed.

(** DEVIATION: text that is not JSON is kept under a key for every type but
    interface data, where the parse error escapes. *)
Theorem plain_text_throws_for_interface_data s :
  parse s = None ->
  serialize (ValString s) InterfaceData = Throw ParseError /\
  serialize (ValString s) Interfaces.Config = Ok (one "value" (JString s)).
Proof. intros Hs. unfold serialize. cbn. unfold text_or. by rewrite Hs. Qed.

(** DEVIATION: an integer mission state comes back as text. *)
Theorem mission_state_changes_its_type n s :
  dump (one "state" (JInt n)) = Ok s ->
  exists j, serialize (ValInt n) MissionState = Ok j /\ deserialize j MissionState = Some (Ok (ValString s)).
Proof. intros Hd. eexists. split; [reflexivity|].
  unfold deserialize, deserializeMissionState, deserializeText. by rewrite Hd. Qed.
End Serializer.

(** ** A text form *)

(** Values that are texts, printed as they are. *)
Definition plain_text : JsonText :=
  {| parse s := if String.eqb s "" then None else Some (JString s);
     dump j := match j with JString s => Ok s | _ => Throw "dump" end |}.
Definition plain_laws : @JsonTextLaws plain_text.
Proof.
  refine (@Build_JsonTextLaws plain_text (λ j, match j with JString s => s <> ""%string | _ => False end) _).
  intros [| | | |s| |] Hj; try done. exists s. split; [reflexivity|]. cbn. by destruct (String.eqb_spec s "").
Defined.

Lemma serialized_values_are_read_back_witness :
  (exists j, @serialize unit plain_text (ValInt 3) Para = Ok j /\ @deserialize unit plain_text j Para = Some (Ok (ValInt 3))) /\
  (exists v, @deserialize unit plain_text (JString "a") Event = Some (Ok v) /\ @serialize unit plain_text v Event = Ok (JString "a")).
Proof.
  destruct (@serialized_values_are_read_back unit plain_text plain_laws) as [H1 H2]. split.
  - apply H1; [by right|reflexivity|]. intros n Hn. injection Hn as <-. lia.
  - by apply H2.
Defined.
