(* ===== verification/BuiltinActions.v ===== *)
(** * Built-in actions and registries
      (src/core/action/impl, src/core/action/core/ActionRegistry,
       src/core/sequence/core/SequenceRegistry)

    The delay and the move, whose execution another thread may cancel between
    any two accesses, and the two registries of definitions: one hands out
    copies, the other its own objects. *)

From S2P Require Import Prelude Ieee754 ActionExecutor Condition Sequence.
#[local] Open Scope Z_scope.

(** ** DelayAction and MoveAction *)

Module Stepped.

Inductive Kind := Delay (ms : Z) | Move (targetX targetY targetZ : Z).

(** Variables and results are [std::any]. *)
Record Context := mkCtx { vars : gmap string ctx_value; results : gmap string ctx_value }.

(** [progress_] is the bit pattern of a float. *)
Record Action := mkAct { id_ : string; kind : Kind; status_ : ActionStatus; progress_ : Z; cancelled_ : bool }.

Definition newDelay (id : string) (ms : Z) : Action := mkAct id (Delay ms) ACT_PENDING 0 false.
Definition newMove (id : string) (x y z : Z) : Action := mkAct id (Move x y z) ACT_PENDING 0 false.

Definition getId (a : Action) : string := id_ a.
Definition getType (a : Action) : string := match kind a with Delay _ => "Delay" | Move _ _ _ => "Move" end.
Definition getStatus (a : Action) : ActionStatus := status_ a.
Definition getProgress (a : Action) : Z := progress_ a.

Definition set_status (s : ActionStatus) (a : Action) : Action := mkAct (id_ a) (kind a) s (progress_ a) (cancelled_ a).
Definition set_progress (p : Z) (a : Action) : Action := mkAct (id_ a) (kind a) (status_ a) p (cancelled_ a).
Definition set_cancelled (b : bool) (a : Action) : Action := mkAct (id_ a) (kind a) (status_ a) (progress_ a) b.
Definition cancel : Action -> Action := set_cancelled true.

(** The number of steps; [None] when the distance does not fit an [int]. *)
Definition distance (x y z : Z) : Z :=
  double_sqrt (double_add (double_add (double_mul x x) (double_mul y y)) (double_mul z z)).
Definition steps (k : Kind) : option Z :=
  match k with
  | Delay _ => Some 10
  | Move x y z => n ← int_of_double 32 (double_mul (distance x y z) (double_of_int 10)); Some (if n <? 1 then 1 else n)
  end.

(** [static_cast<float>(i + 1) / steps]: the quotient of floats, rounded once. *)
Definition float_of_int (n : Z) : Z := float_of_double (double_of_int n).
Definition ratio (i n : Z) : Z :=
  float_of_double (double_div (double_of_float (float_of_int (i + 1))) (double_of_float (float_of_int n))).
Definition float_one : Z := 0x3F800000.

(** Where the executing thread is; [i] counts the steps done. *)
Inductive Pc :=
| E_Running | E_Zero | E_Clear | E_Test (i : Z) | E_Progress (i : Z) | E_Decide
| E_Cancelled | E_Completed | E_Full | E_Result | E_Done.

Record Run := mkRun { action : Action; context : Context; pc : Pc }.

Definition store_result (a : Action) (c : Context) : Context :=
  match kind a with
  | Delay ms => mkCtx (vars c) (<[id_ a := CLong ms]> (results c))
  | Move _ _ _ => c
  end.
Definition store_position (a : Action) (c : Context) : Context :=
  match kind a with
  | Delay _ => c
  | Move x y z =>
    mkCtx (<["last_position_z" := CDouble z]> (<["last_position_y" := CDouble y]>
            (<["last_position_x" := CDouble x]> (vars c)))) (results c)
  end.

(** One access of [execute]; [n] is the number of steps. *)
Definition step (n : Z) (r : Run) : Run :=
  let a := action r in let c := context r in
  match pc r with
  | E_Running => mkRun (set_status ACT_RUNNING a) c E_Zero
  | E_Zero => mkRun (set_progress 0 a) c E_Clear
  | E_Clear => mkRun (set_cancelled false a) c (E_Test 0)
  | E_Test i => mkRun a c (if (i <? n) && negb (cancelled_ a) then E_Progress i else E_Decide)
  | E_Progress i => mkRun (set_progress (ratio i n) a) c (E_Test (i + 1))
  | E_Decide => mkRun a c (if cancelled_ a then E_Cancelled else E_Completed)
  | E_Cancelled => mkRun (set_status ACT_CANCELLED a) c E_Result
  | E_Completed => mkRun (set_status ACT_COMPLETED a) c E_Full
  | E_Full => mkRun (set_progress float_one a) (store_position a c) E_Result
  | E_Result => mkRun a (store_result a c) E_Done
  | E_Done => r
  end.

Inductive Event := Step | Cancel.

Definition exec (n : Z) (r : Run) (e : Event) : Run :=
  match e with Step => step n r | Cancel => mkRun (cancel (action r)) (context r) (pc r) end.
Definition run (n : Z) (es : list Event) (r : Run) : Run := foldl (exec n) r es.

Definition execute (a : Action) (c : Context) : Run := mkRun a c E_Running.

Definition is_step (e : Event) : bool := match e with Step => true | Cancel => false end.

(** Accesses left. *)
Definition left (n : Z) (p : Pc) : nat :=
  match p with
  | E_Running => 8 + 2 * Z.to_nat n | E_Zero => 7 + 2 * Z.to_nat n | E_Clear => 6 + 2 * Z.to_nat n
  | E_Test i => 5 + 2 * Z.to_nat (n - i) | E_Progress i => 6 + 2 * Z.to_nat (n - i - 1) | E_Decide => 4
  | E_Cancelled => 2 | E_Completed => 3 | E_Full => 2 | E_Result => 1 | E_Done => 0
  end.

Lemma exec_left n r e : (left n (pc (exec n r e)) <= left n (pc r) - (if is_step e then 1 else 0))%nat.
Proof.
  destruct e; cbn [exec is_step pc]; [|lia]. unfold step. destruct (pc r) eqn:E; cbn [pc left]; try lia.
  - destruct ((i <? n) && negb (cancelled_ (action r))) eqn:Ht; cbn [left]; [|lia].
    apply andb_true_iff in Ht as [Hi _]. lia.
  - destruct (cancelled_ (action r)); cbn [left]; lia.
  - rewrite E. cbn [left]. lia.
Qed.

Lemma run_left n es : forall r, (left n (pc (run n es r)) <= left n (pc r) - count is_step es)%nat.
Proof.
  induction es as [|e es IH]; intros r; [cbn; lia|]. cbn [run foldl]. fold (run n es (exec n r e)).
  pose proof (IH (exec n r e)). pose proof (exec_left n r e). rewrite count_cons. destruct (is_step e); lia.
Qed.

Lemma left_done n p : left n p = 0%nat -> p = E_Done.
Proof. by destruct p. Qed.

(** Whether the run is bound to end cancelled, from context [c0] on. *)
Definition doomed (c0 : Context) (r : Run) : Prop :=
  match pc r with
  | E_Test _ | E_Progress _ | E_Decide => cancelled_ (action r) = true /\ vars (context r) = vars c0
  | E_Cancelled => vars (context r) = vars c0
  | E_Result | E_Done => status_ (action r) = ACT_CANCELLED /\ vars (context r) = vars c0
  | _ => False
  end.

Lemma doomed_exec c0 n r e : doomed c0 r -> doomed c0 (exec n r e).
Proof.
  unfold doomed. destruct e; cbn [exec pc action context cancelled_ status_ cancel set_cancelled].
  - unfold step. destruct (pc r) eqn:E; cbn; try tauto.
    + intros [Hc Hv]. rewrite Hc, andb_false_r. done.
    + intros [Hc Hv]. rewrite Hc. done.
    + intros [Hs Hv]. split; [done|]. rewrite <- Hv. unfold store_result. by destruct (kind (action r)).
    + by rewrite E.
  - destruct (pc r); tauto.
Qed.

Lemma doomed_run c0 n es : forall r, doomed c0 r -> doomed c0 (run n es r).
Proof. induction es as [|e es IH]; intros r Hr; [done|]. cbn [run foldl]. by apply IH, doomed_exec. Qed.

(** What a run without cancellation establishes. *)
Definition undisturbed (a0 : Action) (c0 : Context) (r : Run) : Prop :=
  id_ (action r) = id_ a0 /\ kind (action r) = kind a0 /\
  match pc r with
  | E_Running | E_Zero | E_Clear => context r = c0
  | E_Test _ | E_Progress _ | E_Decide | E_Completed => cancelled_ (action r) = false /\ context r = c0
  | E_Full => status_ (action r) = ACT_COMPLETED /\ context r = c0
  | E_Result => status_ (action r) = ACT_COMPLETED /\ progress_ (action r) = float_one /\ context r = store_position a0 c0
  | E_Done => status_ (action r) = ACT_COMPLETED /\ progress_ (action r) = float_one /\
              context r = store_result a0 (store_position a0 c0)
  | E_Cancelled => False
  end.

Lemma undisturbed_step a0 c0 n r : undisturbed a0 c0 r -> undisturbed a0 c0 (step n r).
Proof.
  intros (Hi & Hk & Hr). unfold undisturbed, step. destruct (pc r) eqn:E; cbn; try tauto.
  - split; [done|]. split; [done|]. by destruct ((i <? n) && _).
  - destruct Hr as [Hc Hv]. by rewrite Hc.
  - destruct Hr as [Hs ->]. split_and!; try done. unfold store_position. by rewrite Hk.
  - destruct Hr as (Hs & Hp & ->). split_and!; try done. unfold store_result. by rewrite Hk, Hi.
  - by rewrite E.
Qed.

Lemma undisturbed_run a0 c0 n es : forall r,
  Forall (λ e, e = Step) es -> undisturbed a0 c0 r -> undisturbed a0 c0 (run n es r).
Proof.
  induction es as [|e es IH]; intros r Hes Hr; [done|]. apply Forall_cons in Hes as [-> Hes].
  cbn [run foldl exec]. apply IH; [done|]. by apply undisturbed_step.
Qed.

(** The context is as it was until the result is stored. *)
Definition untouched (c0 : Context) (r : Run) : Prop :=
  match pc r with E_Result | E_Done => True | _ => context r = c0 end.

Lemma untouched_run c0 n es : forall r, untouched c0 r -> untouched c0 (run n es r).
Proof.
  induction es as [|e es IH]; intros r Hr; [done|]. cbn [run foldl]. apply IH. revert Hr. unfold untouched.
  destruct e; cbn [exec pc context]; [|done]. unfold step. destruct (pc r) eqn:E; cbn; try done.
  - by destruct ((i <? n) && _).
  - by destruct (cancelled_ _).
  - by rewrite E.
Qed.

(** Where a cancellation still counts. *)
Definition cancellable (p : Pc) : bool := match p with E_Test _ | E_Progress _ | E_Decide => true | _ => false end.

(** Execution of a built-in action ends after at most [8 + 2n] accesses of its
    thread, whenever it is cancelled.  Not cancelled, it is COMPLETED with full
    progress and has stored its result or position; cancelled between the
    clearing of the flag and its last test, it is CANCELLED and leaves the
    variables of the context alone. *)
Theorem builtin_action_ends (a : Action) (c : Context) (n : Z) (es : list Event) :
  steps (kind a) = Some n ->
  (8 + 2 * Z.to_nat n <= count is_step es)%nat ->
  let r := run n es (execute a c) in
  pc r = E_Done /\
  (Forall (λ e, e = Step) es ->
   getStatus (action r) = ACT_COMPLETED /\ getProgress (action r) = float_one /\
   context r = store_result a (store_position a c)) /\
  (forall before after, es = before ++ Cancel :: after ->
   cancellable (pc (run n before (execute a c))) = true ->
   getStatus (action r) = ACT_CANCELLED /\ vars (context r) = vars c).
Proof.
  intros _ Hn r.
  assert (pc r = E_Done) as Hd.
  { apply (left_done n). pose proof (run_left n es (execute a c)) as Hl. cbn [pc execute left] in Hl. fold r in Hl. lia. }
  split; [exact Hd|]. split.
  - intros Hes. assert (undisturbed a c r) as (_ & _ & Hr) by (apply undisturbed_run; [done|by split_and!]).
    rewrite Hd in Hr. exact Hr.
  - intros before after -> Hc. unfold r, run in *. rewrite foldl_app in *. cbn [foldl] in *.
    fold (run n before (execute a c)) in *. set (r1 := run n before (execute a c)) in *.
    assert (context r1 = c) as Hv.
    { pose proof (untouched_run c n before (execute a c) eq_refl) as Hu. fold r1 in Hu. unfold untouched in Hu.
      by destruct (pc r1). }
    assert (doomed c (run n after (exec n r1 Cancel))) as Hdm.
    { apply doomed_run. unfold doomed. cbn. rewrite Hv. by destruct (pc r1). }
    unfold doomed in Hdm. unfold run in Hdm. rewrite Hd in Hdm. exact Hdm.
Qed.

Lemma builtin_action_ends_witness :
  let a := newDelay "wait" 100 in
  let es := replicate 9 Step ++ Cancel :: replicate 19 Step in
  (28 <= count is_step es)%nat /\ getStatus (action (run 10 es (execute a (mkCtx ∅ ∅)))) = ACT_CANCELLED.
Proof.
  intros a es. assert (28 <= count is_step es)%nat as Hn by (vm_compute; lia). split; [exact Hn|].
  destruct (builtin_action_ends a (mkCtx ∅ ∅) 10 es eq_refl Hn) as (_ & _ & Hc).
  apply (Hc (replicate 9 Step) (replicate 19 Step) eq_refl). vm_compute. reflexivity.
Defined.

(** DEVIATION: execution clears the flag, so a cancellation that comes before is
    lost and the action runs to its end. *)
Theorem early_cancellation_is_lost :
  status_ (action (run 10 (replicate 28 Step) (execute (cancel (newDelay "wait" 100)) (mkCtx ∅ ∅)))) = ACT_COMPLETED.
Proof. by_compute. Qed.

(** DEVIATION: the number of steps of a long move does not fit an [int]. *)
Theorem long_move_is_undefined : steps (Move (double_of_int 1000000000) 0 0) = None.
Proof. by_compute. Qed.
End Stepped.

(** ** ActionRegistry *)

Module Actions.

Record ActionDefinition := mkDefinition {
  def_id : string; def_type : string; def_parameters : gmap string string; def_timeout : Z; def_description : string
}.
Definition newDefinition (id type : string) : ActionDefinition := mkDefinition id type ∅ 0 "".
Definition addParameter (k v : string) (d : ActionDefinition) : ActionDefinition :=
  mkDefinition (def_id d) (def_type d) (<[k := v]> (def_parameters d)) (def_timeout d) (def_description d).
Definition setTimeout (ms : Z) (d : ActionDefinition) : ActionDefinition :=
  mkDefinition (def_id d) (def_type d) (def_parameters d) ms (def_description d).

Record ActionRegistry := mkRegistry { definitions_ : gmap string ActionDefinition; typeDescriptions_ : gmap string string }.
Definition newRegistry : ActionRegistry := mkRegistry ∅ ∅.

Definition registerDefinition (d : ActionDefinition) (r : ActionRegistry) : ActionRegistry :=
  mkRegistry (<[def_id d := d]> (definitions_ r)) (typeDescriptions_ r).
(** A copy. *)
Definition getDefinition (id : string) (r : ActionRegistry) : option ActionDefinition := definitions_ r !! id.
Definition registerType (type description : string) (r : ActionRegistry) : ActionRegistry :=
  mkRegistry (definitions_ r) (<[type := description]> (typeDescriptions_ r)).
Definition hasType (type : string) (r : ActionRegistry) : bool := bool_decide (is_Some (typeDescriptions_ r !! type)).
Definition hasDefinition (id : string) (r : ActionRegistry) : bool := bool_decide (is_Some (definitions_ r !! id)).
Definition getAllDefinitionIds (r : ActionRegistry) : list string := fst <$> key_order (definitions_ r).
Definition getAllTypes (r : ActionRegistry) : list string := fst <$> key_order (typeDescriptions_ r).

(** After registrations, each identifier has the definition registered last,
    and the list of identifiers holds each once. *)
Lemma registrations_are_kept ds id :
  let r := foldl (λ r d, registerDefinition d r) newRegistry ds in
  getDefinition id r = last (filter (λ d, def_id d = id) ds) /\
  NoDup (getAllDefinitionIds r) /\ (id ∈ getAllDefinitionIds r <-> hasDefinition id r = true).
Proof.
  cbv zeta. split; [|split].
  - induction ds as [|d ds IH] using rev_ind; [reflexivity|]. rewrite foldl_app, filter_app. cbn [foldl].
    unfold getDefinition, registerDefinition in *. cbn [definitions_]. rewrite filter_cons, filter_nil.
    destruct (decide (def_id d = id)) as [<-|Hn].
    + by rewrite lookup_insert_eq, last_snoc.
    + by rewrite lookup_insert_ne, app_nil_r.
  - unfold getAllDefinitionIds. rewrite key_order_perm. apply NoDup_fst_map_to_list.
  - unfold getAllDefinitionIds, hasDefinition. rewrite bool_decide_eq_true, list_elem_of_fmap. split.
    + intros ([k d] & -> & Hk). apply elem_of_key_order in Hk. by exists d.
    + intros [d Hd]. exists (id, d). split; [done|]. by apply elem_of_key_order.
Qed.
End Actions.

(** ** SequenceRegistry

    The registry and its clients share the objects: a definition is a place in
    a store. *)

Module Sequences.

Record SequenceRegistry := mkSeqRegistry { table : gmap string nat; store : list SequenceDefinition }.
Definition newSeqRegistry : SequenceRegistry := mkSeqRegistry ∅ [].

Definition registerDefinition (d : SequenceDefinition) (r : SequenceRegistry) : SequenceRegistry :=
  mkSeqRegistry (<[def_id d := length (store r)]> (table r)) (store r ++ [d]).
(** The object itself. *)
Definition getDefinition (id : string) (r : SequenceRegistry) : option nat := table r !! id.
Definition hasDefinition (id : string) (r : SequenceRegistry) : bool := bool_decide (is_Some (table r !! id)).
Definition getAllDefinitionIds (r : SequenceRegistry) : list string := fst <$> key_order (table r).
Definition removeDefinition (id : string) (r : SequenceRegistry) : bool * SequenceRegistry :=
  match table r !! id with
  | Some _ => (true, mkSeqRegistry (delete id (table r)) (store r))
  | None => (false, r)
  end.
Definition clear (r : SequenceRegistry) : SequenceRegistry := mkSeqRegistry ∅ (store r).

(** What a client's pointer shows, and a client that changes the object. *)
Definition deref (p : nat) (r : SequenceRegistry) : option SequenceDefinition := store r !! p.
Definition addStep (st : ActionStep) (d : SequenceDefinition) : SequenceDefinition :=
  mkSeqDef (def_id d) (def_name d) (def_steps d ++ [st]) (conditionalBranches d) (retryPolicy d).
Definition modify (p : nat) (f : SequenceDefinition -> SequenceDefinition) (r : SequenceRegistry) : SequenceRegistry :=
  mkSeqRegistry (table r) (alter f p (store r)).

(** A pointer that was handed out stays valid, and shows the definition it was
    given for, whatever is registered, removed or cleared afterwards. *)
Inductive RegOp := RegisterOp (d : SequenceDefinition) | RemoveOp (id : string) | ClearOp.
Definition reg_exec (r : SequenceRegistry) (o : RegOp) : SequenceRegistry :=
  match o with
  | RegisterOp d => registerDefinition d r
  | RemoveOp id => snd (removeDefinition id r)
  | ClearOp => clear r
  end.

Lemma pointer_stays os : forall p d r, deref p r = Some d -> deref p (foldl reg_exec r os) = Some d.
Proof.
  unfold deref. induction os as [|o os IH]; intros p d r Hp; [done|]. cbn [foldl]. apply IH. destruct o; cbn.
  - by apply lookup_app_l_Some.
  - unfold removeDefinition. by destruct (table r !! id).
  - done.
Qed.

(** DEVIATION: the registry hands out its own object where the registry of
    actions gives a copy: a client that adds a step changes the registered
    definition for every other client, outside the lock. *)
Theorem client_changes_the_registered_definition d st :
  let r := registerDefinition d newSeqRegistry in
  exists p, getDefinition (def_id d) r = Some p /\
    deref p (modify p (addStep st) r) = Some (addStep st d) /\ getDefinition (def_id d) (modify p (addStep st) r) = Some p.
Proof. exists 0%nat. split; [apply lookup_insert_eq|]. split; [reflexivity|apply lookup_insert_eq]. Qed.
End Sequences.
