(* ===== verification/AlarmLoad.v ===== *)
(** * Loading the alarm configuration (src/core/alarm/impl/AlarmConfiguration.cpp)

    The configuration file as yaml-cpp gives it, and what the table holds when
    loading succeeds and when it does not. *)

From S2P Require Import Prelude Text Pdo EtherCATMaster YamlConfig Alarm.
#[local] Open Scope Z_scope.

(** Whether a node is a sequence. *)
Class YamlSequence (N : Type) := y_is_sequence : N -> bool.

Section Load.
Context {N : Type} `{!Yaml N, !YamlSequence N}.

(** An optional field of the text type. *)
Definition optional_field {A} (conv : N -> option A) (n : N) (key : string) : result string (option A) :=
  match y_get n key with
  | Throw e => Throw e
  | Ok None => Ok None
  | Ok (Some _) => match get_as conv n key with Ok a => Ok (Some a) | Throw e => Throw e end
  end.

Definition parseAlarmConfig (n : N) : result string AlarmConfig :=
  let* code := get_as y_string n "code" in
  let* name := get_as y_string n "name" in
  let* severity := get_as y_string n "severity" in
  let* descr := get_or y_string n "description" "" in
  let* action := optional_field y_string n "recommended_action" in
  let* window := get_or y_int n "recurrence_window" 60 in
  let* threshold := get_or y_uint32 n "recurrence_threshold" 3 in
  let* reset := get_or y_bool n "auto_reset" false in
  Ok (mkAlarmConfig code name (parseSeverity severity) descr action window threshold reset).

(** The loop over the alarms: an exception or a code that is there already ends
    it, and what was stored stays. *)
Fixpoint load_alarms (l : list N) (cs : AlarmConfiguration) : bool * AlarmConfiguration :=
  match l with
  | [] => (true, cs)
  | n :: l =>
    match parseAlarmConfig n with
    | Throw _ => (false, cs)
    | Ok c => if cs.[cfg_code c] then (false, cs) else load_alarms l (<[cfg_code c := c]> cs)
    end
  end.

(** [file] is what [YAML::LoadFile] gives, or throws. *)
Definition load_config (file : result string N) (cs : AlarmConfiguration) : bool * AlarmConfiguration :=
  match file with
  | Throw _ => (false, cs)
  | Ok config =>
    match y_get config "version" with
    | Throw _ | Ok None => (false, cs)
    | Ok (Some _) =>
      match get_as y_string config "version" with
      | Throw _ => (false, cs)
      | Ok _ =>
        match y_get config "alarms" with
        | Throw _ | Ok None => (false, cs)
        | Ok (Some alarms) => if negb (y_is_sequence alarms) then (false, cs) else load_alarms (y_items alarms) ∅
        end
      end
    end
  end.

Lemma load_alarms_table l : forall cs cs',
  load_alarms l cs = (true, cs') ->
  exists parsed, Forall2 (λ n c, parseAlarmConfig n = Ok c) l parsed /\ NoDup (cfg_code <$> parsed) /\
    (forall c, c ∈ parsed -> cs !! cfg_code c = None) /\
    cs' = foldl (λ cs c, <[cfg_code c := c]> cs) cs parsed.
Proof.
  induction l as [|n l IH]; intros cs cs'; cbn [load_alarms].
  - intros [= <-]. exists []. split_and!; [constructor|constructor| |reflexivity]. intros c Hc. by apply not_elem_of_nil in Hc.
  - destruct (parseAlarmConfig n) as [c|e] eqn:E; [|discriminate].
    destruct (cs.[cfg_code c]) eqn:Hk; [discriminate|]. intros H.
    apply bool_decide_eq_false in Hk. apply eq_None_not_Some in Hk.
    destruct (IH _ _ H) as (parsed & Hf & Hn & Hfree & ->).
    exists (c :: parsed). split_and!; [by constructor| | |reflexivity].
    + rewrite fmap_cons. constructor; [|exact Hn]. intros (d & Hd & Hin)%list_elem_of_fmap.
      specialize (Hfree d Hin). rewrite <- Hd, lookup_insert_eq in Hfree. discriminate.
    + intros d [->|Hin]%elem_of_cons; [exact Hk|]. specialize (Hfree d Hin).
      by apply lookup_insert_None in Hfree as [? _].
Qed.

Lemma insert_all_lookup parsed : forall (cs : AlarmConfiguration) k,
  NoDup (cfg_code <$> parsed) ->
  foldl (λ cs c, <[cfg_code c := c]> cs) cs parsed !! k =
  match List.find (λ c, bool_decide (cfg_code c = k)) parsed with Some c => Some c | None => cs !! k end.
Proof.
  induction parsed as [|c parsed IH]; intros cs k Hn; [reflexivity|]. rewrite fmap_cons in Hn.
  apply NoDup_cons in Hn as [Hc Hn]. cbn [foldl List.find]. rewrite IH by done. case_bool_decide as Hk.
  - destruct (List.find _ parsed) as [d|] eqn:E; [|subst; apply lookup_insert_eq].
    apply List.find_some in E as [Hd He]. apply bool_decide_eq_true in He. exfalso. apply Hc.
    rewrite Hk, <- He. apply list_elem_of_fmap_2. by apply list_elem_of_In.
  - destruct (List.find _ parsed); [done|]. by rewrite lookup_insert_ne.
Qed.

(** A file that loads gives exactly its alarms: they parse, their codes are
    different, and the table holds each of them under its code and nothing
    else. *)
Theorem loaded_alarms_are_the_file config alarms cs cs' :
  y_get config "alarms" = Ok (Some alarms) ->
  load_config (Ok config) cs = (true, cs') ->
  exists parsed, Forall2 (λ n c, parseAlarmConfig n = Ok c) (y_items alarms) parsed /\ NoDup (cfg_code <$> parsed) /\
    (forall k c, getAlarmConfig k cs' = Some c <-> c ∈ parsed /\ cfg_code c = k).
Proof.
  intros Ha H. unfold load_config in H. rewrite Ha in H. repeat case_match; try discriminate.
  destruct (load_alarms_table _ _ _ H) as (parsed & Hf & Hn & _ & ->). exists parsed. split_and!; [done|done|].
  intros k c. unfold getAlarmConfig. rewrite insert_all_lookup, lookup_empty by done. split.
  - destruct (List.find _ parsed) as [d|] eqn:E; [|discriminate]. intros [= <-].
    apply List.find_some in E as [Hd He]. apply bool_decide_eq_true in He. split; [by apply list_elem_of_In|done].
  - intros [Hin <-]. destruct (List.find _ parsed) as [d|] eqn:E.
    + apply List.find_some in E as [Hd He]. apply bool_decide_eq_true in He. f_equal.
      apply list_elem_of_In in Hd. destruct (list_elem_of_lookup_1 _ _ Hd) as [i Hi].
      destruct (list_elem_of_lookup_1 _ _ Hin) as [j Hj].
      assert (i = j) as ->; [|congruence].
      eapply NoDup_lookup; [exact Hn|..]; rewrite list_lookup_fmap; [by rewrite Hi|by rewrite Hj, He].
    + exfalso. apply list_elem_of_In in Hin. pose proof (List.find_none _ _ E c Hin) as Hf'.
      apply bool_decide_eq_false in Hf'. done.
Qed.
End Load.

#[export] Instance tree_sequence : YamlSequence YTree := λ t, match t with YSeq _ => true | _ => false end.

Definition alarm_node (code severity : string) : YTree :=
  YMap [("code", YStr code); ("name", YStr "n"); ("severity", YStr severity)].
Definition alarm_file (l : list YTree) : YTree := YMap [("version", YStr "1.0"); ("alarms", YSeq l)].

Lemma loaded_alarms_are_the_file_witness :
  let nodes := [alarm_node "E001" "CRITICAL"; alarm_node "W001" "WARNING"] in
  let cs := snd (load_config (Ok (alarm_file nodes)) ∅) in
  getAlarmConfig "E001" cs = Some (mkAlarmConfig "E001" "n" CRITICAL "" None 60 3 false) /\
  exists parsed, Forall2 (λ n c, parseAlarmConfig n = Ok c) nodes parsed /\
    forall k c, getAlarmConfig k cs = Some c <-> c ∈ parsed /\ cfg_code c = k.
Proof.
  intros nodes cs. split; [by_compute|].
  destruct (loaded_alarms_are_the_file (alarm_file nodes) (YSeq nodes) ∅ cs) as (parsed & Hf & _ & Hk);
    [reflexivity|by_compute|by exists parsed].
Defined.

(** DEVIATION: the table is cleared before the alarms are read, so a file with an
    error replaces the configuration in use by the part before the error,
    though loading reports failure. *)
Theorem failed_load_replaces_the_table :
  let old := snd (load_config (Ok (alarm_file [alarm_node "E001" "CRITICAL"; alarm_node "E002" "CRITICAL"])) ∅) in
  let '(ok, cs) := load_config (Ok (alarm_file [alarm_node "W001" "WARNING"; YMap [("code", YStr "E001")]])) old in
  ok = false /\ hasAlarmConfig "E001" old = true /\ hasAlarmConfig "E001" cs = false /\ hasAlarmConfig "W001" cs = true.
Proof. cbv zeta. repeat split; by_compute. Qed.
