(* ===== verification/Shutdown.v ===== *)
(** * Destruction of the executor and the engine, and the waits of a retry
      (src/core/action/core/ActionExecutor.cpp, src/core/sequence/core/
      SequenceEngine.cpp, src/core/sequence/core/RetryHandler.cpp,
      src/core/sequence/dto/RetryPolicy.h)

    The executor is owned by shared pointers.  A task of [executeAsync] and a
    timeout monitor each take one when they start ([weak_self.lock()]) and keep
    it until they return, so the destructor runs in the thread that lets go of
    the last one: the owner's, a task's at the end of its lambda, or a monitor's.
    While it runs every task that has not begun finds the pointer expired and
    returns without touching its action ([abort_task]). *)

From S2P Require Import Prelude Interfaces ActionExecutor Condition Sequence Ieee754 Rounding.

(** ** ~ActionExecutor *)

(** The thread that dropped the last shared pointer. *)
Inductive Holder :=
| HolderOwner
| HolderTask (t : nat)
| HolderMonitor (id : string).

#[export] Instance Holder_eq_dec : EqDecision Holder.
Proof. solve_decision. Defined.

Section ExecutorDestructor.
Context {A W B : Type} `{!IAction A W} `{!IEventBus ActionEvent B}.
Implicit Types s : ActionExecutor A W B.
Implicit Types x : ExecutionState A.

Definition stop_monitoring x : ExecutionState A :=
  match es_timeoutThread x with
  | None => x
  | Some _ =>
    mkExecState (es_action x) (es_future x) (es_startTime x) (es_timeout x) (es_cancelRequested x)
      true (es_timeoutThread x) (es_exception x)
  end.

Definition request_stops s : ActionExecutor A W B := set_running (stop_monitoring <$> runningActions_ s) s.

Definition cancel_all (ids : list string) s : ActionExecutor A W B := foldl (λ s id, ae_cancel id s) s ids.

(** The lambda of a task that begins when the executor has expired. *)
Definition abort_task (t : nat) s : ActionExecutor A W B :=
  set_async (alter (λ k, mkAsync (at_action k) (at_start k) true) t (async_tasks s)) s.

(** [runningActions_.clear()] destroys the futures one by one; each waits for
    its task, and a thread that waits for itself does not get further. *)
Fixpoint wait_futures (h : Holder) (ts : list nat) s : outcome (ActionExecutor A W B) :=
  match ts with
  | [] => Returns s
  | t :: ts => if decide (h = HolderTask t) then Deadlocks else wait_futures h ts (abort_task t s)
  end.

Definition monitored (m : gmap string (ExecutionState A)) : list string :=
  fst <$> filter (λ kx, bool_decide (is_Some (es_timeoutThread (snd kx))) = true) (key_order m).

(** Joining oneself throws, and a destructor that throws ends the process. *)
Definition destroyExecutor (h : Holder) s : outcome (ActionExecutor A W B) :=
  let ids := fst <$> key_order (runningActions_ s) in
  let s := request_stops s in
  let s := cancel_all ids s in
  let threadsToJoin := monitored (runningActions_ s) in
  match wait_futures h ((λ kx, es_future (snd kx)) <$> key_order (runningActions_ s)) s with
  | Returns s =>
    let s := set_running ∅ s in
    if bool_decide (Exists (λ id, h = HolderMonitor id) threadsToJoin) then Terminates else Returns s
  | Deadlocks => Deadlocks
  | Terminates => Terminates
  end.

(** *** What cancelling keeps *)

(** Same action, future and monitor. *)
Definition alike x y : Prop :=
  es_action y = es_action x /\ es_future y = es_future x /\ es_timeoutThread y = es_timeoutThread x.

Definition table_alike s s' : Prop :=
  async_tasks s' = async_tasks s /\
  forall id, option_Forall2 alike (runningActions_ s !! id) (runningActions_ s' !! id).

Lemma alike_refl x : alike x x.
Proof. done. Qed.

Lemma stop_monitoring_alike x : alike x (stop_monitoring x).
Proof. unfold stop_monitoring, alike. by destruct (es_timeoutThread x) eqn:E. Qed.

Lemma table_alike_trans s1 s2 s3 : table_alike s1 s2 -> table_alike s2 s3 -> table_alike s1 s3.
Proof.
  intros [T1 M1] [T2 M2]. split; [congruence|]. intros id. specialize (M1 id). specialize (M2 id).
  destruct M1 as [x y Hxy|]; inversion M2; subst; constructor. unfold alike in *. intuition congruence.
Qed.

Lemma request_stops_alike s : table_alike s (request_stops s).
Proof.
  split; [done|]. intros id. unfold request_stops. simpl. rewrite lookup_fmap.
  destruct (runningActions_ s !! id); constructor. apply stop_monitoring_alike.
Qed.

Lemma cancel_alike id s : table_alike s (ae_cancel id s).
Proof.
  unfold ae_cancel. destruct (runningActions_ s !! id) as [x|] eqn:E; (split; [done|]); intros id'; simpl.
  - destruct (decide (id' = id)) as [->|Hne].
    + rewrite lookup_insert_eq, E. by constructor.
    + rewrite lookup_insert_ne by done. destruct (runningActions_ s !! id'); constructor. apply alike_refl.
  - destruct (runningActions_ s !! id'); constructor. apply alike_refl.
Qed.

Lemma table_alike_refl s : table_alike s s.
Proof. split; [done|]. intros id. destruct (runningActions_ s !! id); constructor. apply alike_refl. Qed.

Lemma cancel_all_alike ids s : table_alike s (cancel_all ids s).
Proof.
  unfold cancel_all. apply (foldl_invariant (table_alike s)); [apply table_alike_refl|].
  intros s1 id H. eapply table_alike_trans; [exact H|apply cancel_alike].
Qed.

Lemma before_clear_alike ids s : table_alike s (cancel_all ids (request_stops s)).
Proof. eapply table_alike_trans; [apply request_stops_alike|apply cancel_all_alike]. Qed.

(** An entry of the one table is an entry of the other. *)
Lemma table_alike_entry s s' id x :
  table_alike s s' -> runningActions_ s !! id = Some x ->
  exists y, runningActions_ s' !! id = Some y /\ alike x y.
Proof. intros [_ M] E. specialize (M id). rewrite E in M. inversion M; subst; eauto. Qed.

Lemma table_alike_entry_back s s' id y :
  table_alike s s' -> runningActions_ s' !! id = Some y ->
  exists x, runningActions_ s !! id = Some x /\ alike x y.
Proof. intros [_ M] E. specialize (M id). rewrite E in M. inversion M; subst; eauto. Qed.

(** Cancelling a list of entries that are in the table calls each action once, in
    order, and publishes one event for each. *)
Lemma cancel_all_effect (l : list (string * ExecutionState A)) s :
  (forall id x, (id, x) ∈ l -> exists y, runningActions_ s !! id = Some y /\ alike x y) ->
  let s' := cancel_all (fst <$> l) s in
  ae_world s' = foldl (λ w kx, act_cancel (es_action (snd kx)) w) (ae_world s) l /\
  ae_eventBus_ s' =
    (λ b, foldl (λ b kx, eb_publish (ActionCancelledEvent (fst kx) (act_type (es_action (snd kx))) 0) b) b l)
      <$> ae_eventBus_ s.
Proof.
  revert s. induction l as [|[id x] l IH]; intros s Hin.
  - simpl. split; [done|]. by destruct (ae_eventBus_ s).
  - destruct (Hin id x) as (y & Hy & Ha & _); [set_solver|].
    destruct (IH (ae_cancel id s)) as [Hw Hb].
    { intros id' x' Hin'. destruct (Hin id' x') as (y' & Hy' & H1 & H2 & H3); [set_solver|].
      destruct (table_alike_entry _ _ _ _ (cancel_alike id s) Hy') as (z & Hz & Z1 & Z2 & Z3).
      exists z. split; [done|]. unfold alike. intuition congruence. }
    change (cancel_all (fst <$> (id, x) :: l) s) with (cancel_all (fst <$> l) (ae_cancel id s)).
    cbv zeta. rewrite Hw, Hb. unfold ae_cancel. rewrite Hy. simpl. rewrite Ha.
    split; [done|]. by destruct (ae_eventBus_ s).
Qed.

(** *** Waiting for the futures *)

Definition abort_all (ts : list nat) s : ActionExecutor A W B := foldl (λ s t, abort_task t s) s ts.

Lemma wait_futures_spec h ts s :
  wait_futures h ts s = if bool_decide (Exists (λ t, h = HolderTask t) ts) then Deadlocks
                        else Returns (abort_all ts s).
Proof.
  revert s. induction ts as [|t ts IH]; intros s; cbn [wait_futures].
  - rewrite bool_decide_eq_false_2 by (rewrite Exists_nil; tauto). done.
  - destruct (decide (h = HolderTask t)) as [E|E].
    + rewrite bool_decide_eq_true_2 by (rewrite Exists_cons; tauto). done.
    + rewrite IH. erewrite (bool_decide_ext (Exists _ (t :: ts))); [done|]. rewrite Exists_cons. tauto.
Qed.

Lemma abort_all_keeps ts s :
  let s' := abort_all ts s in
  ae_world s' = ae_world s /\ ae_eventBus_ s' = ae_eventBus_ s /\ runningActions_ s' = runningActions_ s.
Proof. unfold abort_all. apply foldl_invariant; [done|]. intros s1 t (? & ? & ?). done. Qed.

Lemma abort_task_done t t' s : is_done t s = true -> is_done t (abort_task t' s) = true.
Proof.
  unfold is_done, abort_task. simpl. destruct (decide (t = t')) as [->|Hne].
  - rewrite list_lookup_alter_eq. by destruct (async_tasks s !! t').
  - by rewrite list_lookup_alter_ne.
Qed.

Lemma abort_all_done ts t s : t ∈ ts -> is_done t (abort_all ts s) = true.
Proof.
  unfold abort_all. revert s. induction ts as [|t' ts IH]; intros s Hin; [set_solver|]. simpl.
  apply elem_of_cons in Hin as [<-|Hin]; [|by apply IH].
  apply (foldl_invariant (λ s, is_done t s = true)); [|intros; by apply abort_task_done].
  unfold is_done, abort_task. simpl. rewrite list_lookup_alter_eq. by destruct (async_tasks s !! t).
Qed.

Lemma elem_of_monitored m id :
  id ∈ monitored m <-> exists x, m !! id = Some x /\ is_Some (es_timeoutThread x).
Proof.
  unfold monitored. rewrite list_elem_of_fmap. setoid_rewrite list_elem_of_filter.
  setoid_rewrite bool_decide_eq_true. split.
  - intros ([k x] & -> & Ht & Hin). apply elem_of_key_order in Hin. eauto.
  - intros (x & Hx & Ht). exists (id, x). by rewrite elem_of_key_order.
Qed.

Lemma elem_of_futures (m : gmap string (ExecutionState A)) t :
  t ∈ ((λ kx, es_future (snd kx)) <$> key_order m) <-> exists id x, m !! id = Some x /\ es_future x = t.
Proof.
  rewrite list_elem_of_fmap. split.
  - intros ([k x] & -> & Hin). apply elem_of_key_order in Hin. eauto.
  - intros (id & x & Hx & <-). exists (id, x). by rewrite elem_of_key_order.
Qed.

(** The thread of a task whose future is in the table, or of a monitor whose
    thread object is. *)
Definition registered (h : Holder) s : Prop :=
  match h with
  | HolderOwner => False
  | HolderTask t => exists id x, runningActions_ s !! id = Some x /\ es_future x = t
  | HolderMonitor id => exists x, runningActions_ s !! id = Some x /\ is_Some (es_timeoutThread x)
  end.

(** What the destructor does before it clears the table. *)
Definition before_clear s : ActionExecutor A W B :=
  cancel_all (fst <$> key_order (runningActions_ s)) (request_stops s).

Lemma registered_alike h s s' : table_alike s s' -> registered h s <-> registered h s'.
Proof.
  intros HT. destruct h as [|t|id]; simpl; [done|..]; split.
  - intros (id & x & Hx & <-). destruct (table_alike_entry _ _ _ _ HT Hx) as (y & Hy & _ & ? & _). eauto.
  - intros (id & x & Hx & <-). destruct (table_alike_entry_back _ _ _ _ HT Hx) as (y & Hy & _ & ? & _). eauto.
  - intros (x & Hx & Ht). destruct (table_alike_entry _ _ _ _ HT Hx) as (y & Hy & _ & _ & E).
    exists y. by rewrite E.
  - intros (x & Hx & Ht). destruct (table_alike_entry_back _ _ _ _ HT Hx) as (y & Hy & _ & _ & E).
    exists y. by rewrite <- E.
Qed.

Lemma destroy_cases h s :
  let ts := (λ kx, es_future (snd kx)) <$> key_order (runningActions_ (before_clear s)) in
  match h with
  | HolderOwner => destroyExecutor h s = Returns (set_running ∅ (abort_all ts (before_clear s)))
  | HolderTask t => registered h s -> destroyExecutor h s = Deadlocks
  | HolderMonitor id => registered h s -> destroyExecutor h s = Terminates
  end /\
  (~ registered h s -> destroyExecutor h s = Returns (set_running ∅ (abort_all ts (before_clear s)))).
Proof.
  intros ts. assert (HT : table_alike s (before_clear s)) by apply before_clear_alike.
  assert (E : destroyExecutor h s =
    if bool_decide (Exists (λ t, h = HolderTask t) ts) then Deadlocks
    else if bool_decide (Exists (λ id, h = HolderMonitor id) (monitored (runningActions_ (before_clear s))))
         then Terminates else Returns (set_running ∅ (abort_all ts (before_clear s)))).
  { unfold destroyExecutor. fold (before_clear s). rewrite wait_futures_spec. fold ts. by case_bool_decide. }
  assert (Ht : Exists (λ t, h = HolderTask t) ts <-> exists t, h = HolderTask t /\ registered h s).
  { rewrite Exists_exists. setoid_rewrite (registered_alike h s _ HT). split.
    - intros (t & Hin & ->). exists t. split; [done|]. by apply elem_of_futures.
    - intros (t & -> & Hr). exists t. split; [by apply elem_of_futures|done]. }
  assert (Hm : Exists (λ id, h = HolderMonitor id) (monitored (runningActions_ (before_clear s))) <->
               exists id, h = HolderMonitor id /\ registered h s).
  { rewrite Exists_exists. setoid_rewrite (registered_alike h s _ HT). split.
    - intros (id & Hin & ->). exists id. split; [done|]. by apply elem_of_monitored.
    - intros (id & -> & Hr). exists id. split; [by apply elem_of_monitored|done]. }
  rewrite E. clear E. split.
  - destruct h as [|t|id]; try intros Hr; repeat case_bool_decide; naive_solver.
  - intros Hr. repeat case_bool_decide; naive_solver.
Qed.

(** The destructor returns exactly when it does not run in the thread of a task
    or monitor that is still registered.  It then has cancelled every registered
    action once, in the order of the ids, published one event for each, run no
    action, left no entry, and no task of an entry is pending. *)
Theorem executor_destruction h s :
  match destroyExecutor h s with
  | Returns s' =>
    ~ registered h s /\
    runningActions_ s' = ∅ /\
    ae_world s' = foldl (λ w kx, act_cancel (es_action (snd kx)) w) (ae_world s) (key_order (runningActions_ s)) /\
    ae_eventBus_ s' =
      fmap (λ b, foldl (λ b kx, eb_publish (ActionCancelledEvent (fst kx) (act_type (es_action (snd kx))) 0) b) b
                   (key_order (runningActions_ s))) (ae_eventBus_ s) /\
    (forall id x, runningActions_ s !! id = Some x -> is_done (es_future x) s' = true)
  | Deadlocks => exists t, h = HolderTask t /\ registered h s
  | Terminates => exists id, h = HolderMonitor id /\ registered h s
  end.
Proof.
  destruct (destroy_cases h s) as [Hc Hn].
  assert (D : registered h s \/ ~ registered h s).
  { assert (HT : table_alike s (before_clear s)) by apply before_clear_alike.
    destruct h as [|t|id]; [right; intros []|..]; rewrite (registered_alike _ _ _ HT); simpl.
    - rewrite <- elem_of_futures. destruct (decide (t ∈ ((λ kx, es_future (snd kx)) <$>
        key_order (runningActions_ (before_clear s))))); tauto.
    - rewrite <- elem_of_monitored. destruct (decide (id ∈ monitored (runningActions_ (before_clear s)))); tauto. }
  destruct D as [D|D]; [destruct h as [|t|id]; [done|rewrite (Hc D); eauto..]|].
  rewrite (Hn D). clear Hc Hn. split; [done|]. split; [done|]. simpl.
  destruct (abort_all_keeps ((λ kx, es_future (snd kx)) <$> key_order (runningActions_ (before_clear s))) (before_clear s))
    as (Hw & Hb & _). rewrite Hw, Hb.
  destruct (cancel_all_effect (key_order (runningActions_ s)) (request_stops s)) as [Ew Eb].
  { intros id x Hin%elem_of_key_order. by apply (table_alike_entry _ _ _ _ (request_stops_alike s)). }
  split; [exact Ew|]. split; [exact Eb|]. intros id x Hx.
  destruct (table_alike_entry _ _ id x (before_clear_alike (fst <$> key_order (runningActions_ s)) s) Hx) as (y & Hy & _ & Hf & _).
  rewrite <- Hf. unfold is_done. simpl. apply abort_all_done, elem_of_futures. eauto.
Qed.

(** An action that outlives its owner: the owner has let go of the executor while
    the action runs, so the destructor runs at the end of the action's own task
    and waits for that task. *)
Theorem outliving_action_deadlocks builds_first now now2 a timeout s id s1 :
  runningActions_ s !! act_id a = None ->
  executeAsync builds_first false now a timeout s = Returns (id, s1) ->
  let t := length (async_tasks s) in
  destroyExecutor (HolderTask t) (finish_task now2 t s1) = Deadlocks.
Proof.
  intros Hfree He t. unfold executeAsync in He. cbn in He. rewrite Hfree in He. injection He as <- <-.
  destruct (destroy_cases (HolderTask t) (finish_task now2 t
    (set_running (<[act_id a := (if 0 <? timeout then start_monitor now timeout
       (mkExecState a t now timeout false false None None) else mkExecState a t now timeout false false None None)]>
       (runningActions_ s)) (set_async (async_tasks s ++ [mkAsync a now false])
         (act_publish (ActionStartedEvent (act_id a) (act_type a)) s))))) as [Hc _].
  apply Hc. clear Hc. simpl.
  match goal with |- context [finish_task now2 t ?s0] => set (s1 := s0) end.
  destruct (ext_old _ _ (finish_extends now2 t s1) (act_id a)
    (if 0 <? timeout then start_monitor now timeout (mkExecState a t now timeout false false None None)
     else mkExecState a t now timeout false false None None)) as (y & Hy & Hf & _).
  { subst s1. simpl. apply lookup_insert_eq. }
  exists (act_id a), y. split; [exact Hy|]. rewrite Hf. by destruct (0 <? timeout).
Qed.
End ExecutorDestructor.

(** ** ~SequenceEngine *)

Section EngineDestructor.
Context {A W B V : Type} `{!IAction A W} `{!IEventBus ActionEvent B} `{!IEventBus SequenceEvent V}
  `{!HasContext W}.
Implicit Types e : SequenceEngine (A := A) (W := W) (B := B) (V := V).

Definition running_sequences e : list (string * SequenceState) :=
  filter (λ kx, bool_decide (ss_status (snd kx) = SEQ_RUNNING) = true) (key_order (states_ e)).

Definition destroyEngine e : SequenceEngine :=
  foldl (λ e id, seq_cancel id e) e (fst <$> running_sequences e).

(** Only the executor and the flags change. *)
Lemma seq_cancel_states id e :
  states_ (seq_cancel id e) = alter with_cancel id (states_ e).
Proof.
  unfold seq_cancel. destruct (states_ e !! id) as [x|] eqn:E.
  - transitivity (<[id := with_cancel x]> (states_ e)); [by case_bool_decide|].
    apply map_eq. intros j. destruct (decide (j = id)) as [->|Hne].
    + by rewrite lookup_insert_eq, lookup_alter_eq, E.
    + by rewrite lookup_insert_ne, lookup_alter_ne.
  - apply map_eq. intros j. destruct (decide (j = id)) as [->|Hne].
    + by rewrite lookup_alter_eq, E.
    + by rewrite lookup_alter_ne.
Qed.

Lemma cancel_list_states ids e id :
  states_ (foldl (λ e id, seq_cancel id e) e ids) !! id =
  (λ x, if bool_decide (id ∈ ids) then with_cancel x else x) <$> states_ e !! id.
Proof.
  revert e. induction ids as [|i ids IH]; intros e.
  - rewrite bool_decide_eq_false_2 by set_solver. simpl. by destruct (states_ e !! id).
  - simpl. rewrite IH, seq_cancel_states. destruct (decide (id = i)) as [->|Hne].
    + rewrite lookup_alter_eq, (bool_decide_eq_true_2 (i ∈ i :: ids)) by set_solver.
      destruct (states_ e !! i); simpl; [|done]. by case_bool_decide.
    + rewrite lookup_alter_ne by done. erewrite (bool_decide_ext (id ∈ i :: ids)); [done|]. set_solver.
Qed.

(** The destructor asks every running sequence to stop and no other: a sequence
    that is paused keeps its flags, so its call of execute goes on waiting. *)
Theorem engine_destruction_flags e :
  states_ (destroyEngine e) =
  (λ x, if bool_decide (ss_status x = SEQ_RUNNING) then with_cancel x else x) <$> states_ e.
Proof.
  apply map_eq. intros id. unfold destroyEngine. rewrite cancel_list_states, lookup_fmap.
  destruct (states_ e !! id) as [x|] eqn:E; [|done]. simpl. f_equal.
  erewrite (bool_decide_ext (id ∈ _)); [done|]. unfold running_sequences.
  rewrite list_elem_of_fmap. setoid_rewrite list_elem_of_filter. setoid_rewrite bool_decide_eq_true. split.
  - intros ([k y] & -> & Hs & Hin%elem_of_key_order). simpl in *. by rewrite E in Hin; injection Hin as <-.
  - intros Hs. exists (id, x). by rewrite elem_of_key_order.
Qed.

(** The executor cancels the current action of each running sequence that has one. *)
Theorem engine_destruction_cancels e :
  executor_ (destroyEngine e) =
  cancel_all (omap (λ kx, if bool_decide (ss_currentActionId (snd kx) = "") then None
                          else Some (ss_currentActionId (snd kx))) (running_sequences e)) (executor_ e).
Proof.
  unfold destroyEngine. assert (H : forall id x, (id, x) ∈ running_sequences e ->
    exists y, states_ e !! id = Some y /\ ss_currentActionId y = ss_currentActionId x).
  { intros id x. unfold running_sequences. rewrite list_elem_of_filter. intros [_ Hin%elem_of_key_order]. eauto. }
  generalize (running_sequences e) H. clear H. intros l. revert e.
  induction l as [|[id x] l IH]; intros e H; [done|]. simpl.
  destruct (H id x) as (y & Hy & Ha); [set_solver|].
  rewrite IH.
  - unfold seq_cancel. rewrite Hy, Ha. by case_bool_decide.
  - intros id' x' Hin. destruct (H id' x') as (y' & Hy' & Ha'); [set_solver|].
    rewrite seq_cancel_states. destruct (decide (id' = id)) as [->|Hne].
    + rewrite lookup_alter_eq, Hy'. simpl. eauto.
    + rewrite lookup_alter_ne by done. eauto.
Qed.
End EngineDestructor.

(** ** The waits between retries *)

Section Backoff.
(** [std::pow] of a double (its bits) and an int. *)
Variable pow : Z -> Z -> Z.

(** [None]: the product is no [long], which the cast leaves undefined. *)
Definition calculateDelay (backoffMultiplier : Z) (p : RetryPolicy) (retryCount : Z) : option Z :=
  if exponentialBackoff p
  then int_of_double 64 (double_mul (double_of_i64 (retryDelay p)) (pow backoffMultiplier retryCount))
  else Some (retryDelay p).

(** The milliseconds that the thread sleeps. *)
Definition waitBeforeRetry (backoffMultiplier : Z) (p : RetryPolicy) (currentRetry : Z) : option Z :=
  delay ← calculateDelay backoffMultiplier p currentRetry;
  Some (if 0 <? delay then delay else 0).

(** All waits of a step that fails every time: the engine counts retries from 0
    while [canRetry]. *)
Definition all_waits (backoffMultiplier : Z) (p : RetryPolicy) : option Z :=
  foldl (λ acc k, t ← acc; w ← waitBeforeRetry backoffMultiplier p (Z.of_nat k); Some (t + w)) (Some 0)
    (seq 0 (Z.to_nat (maxRetries p))).

Definition two : Z := double_of_int 2.

Hypothesis pow_two : forall k, 0 <= k < 53 -> pow two k = double_of_int (2 ^ k).

Lemma int64_of_int n : Z.abs n < 2 ^ 53 -> int_of_double 64 (double_of_int n) = Some n.
Proof.
  intros Hn. unfold int_of_double, double_trunc. rewrite double_of_int_exact by done. rewrite Z.div_mul by lia.
  assert (Hs : signed (n <? 0) (Z.abs n) = n) by (unfold signed; destruct (Z.ltb_spec n 0); lia).
  rewrite Hs, (proj2 (Z.leb_le _ _)), (proj2 (Z.ltb_lt _ _)) by lia. done.
Qed.

Lemma exponential_delay m d k :
  0 < d -> 0 <= k -> d * 2 ^ k < 2 ^ 53 -> waitBeforeRetry two (mkRetry m d true) k = Some (d * 2 ^ k).
Proof.
  intros Hd Hk Hb. pose proof (pow2_pos k Hk) as Hp.
  assert (k < 53) by (apply (Z.pow_lt_mono_r_iff 2); nia).
  assert (2 ^ k < 2 ^ 53) by (apply Z.pow_lt_mono_r; lia).
  unfold waitBeforeRetry, calculateDelay. simpl exponentialBackoff. simpl retryDelay. cbv iota.
  rewrite pow_two, double_of_i64_int, double_mul_int, int64_of_int by nia. cbn.
  by rewrite (proj2 (Z.ltb_lt _ _)) by nia.
Qed.

(** With the default multiplier the waits double and add up to a geometric sum. *)
Theorem backoff_total m d :
  0 < d -> 0 <= m -> d * 2 ^ m < 2 ^ 53 ->
  all_waits two (mkRetry m d true) = Some (d * (2 ^ m - 1)).
Proof.
  intros Hd Hm Hb. unfold all_waits. simpl maxRetries.
  assert (G : forall n, Z.of_nat n <= m ->
    foldl (λ acc k, t ← acc; w ← waitBeforeRetry two (mkRetry m d true) (Z.of_nat k); Some (t + w)) (Some 0) (seq 0 n)
    = Some (d * (2 ^ Z.of_nat n - 1))).
  { induction n as [|n IH]; intros Hn; [simpl; f_equal; lia|].
    rewrite seq_S, foldl_app, IH by lia. cbn [foldl Nat.add].
    assert (2 ^ Z.of_nat n <= 2 ^ m) by (apply Z.pow_le_mono_r; lia).
    cbn -[waitBeforeRetry Z.pow Z.mul Z.sub Z.of_nat]. rewrite exponential_delay by nia.
    cbn -[Z.pow Z.mul Z.sub Z.of_nat]. f_equal. rewrite Nat2Z.inj_succ, Z.pow_succ_r by lia. ring. }
  rewrite G by lia. by rewrite Z2Nat.id by lia.
Qed.
End Backoff.

(** ** Example runs *)

Module ShutdownExamples.
Import ActionExamples.

Definition exact_pow (_ k : Z) : Z := double_of_int (2 ^ k).

(** A wait of one millisecond cannot be doubled 63 times. *)
Example backoff_overflows : calculateDelay exact_pow two (mkRetry 100 1 true) 63 = None.
Proof. vm_compute. reflexivity. Qed.

Definition two_actions : outcome (ActionExecutor Act bool (list ActionEvent)) :=
  exec_steps true [StepAsync false 0 (mkAct "lift" true) 0; StepAsync false 1 (mkAct "drive" false) 50] fresh.

Definition destroy_after (h : Holder) :=
  match two_actions with
  | Returns s => match destroyExecutor h s with
                 | Returns s => Some (ae_eventBus_ s, at_done <$> async_tasks s)
                 | _ => None
                 end
  | _ => None
  end.

Example owner_cancels_both :
  destroy_after HolderOwner =
  Some (Some [ActionStartedEvent "lift" "Move"; ActionStartedEvent "drive" "Move";
              ActionCancelledEvent "drive" "Move" 0; ActionCancelledEvent "lift" "Move" 0], [true; true]).
Proof. vm_compute. reflexivity. Qed.

Example monitor_ends_the_process :
  match two_actions with Returns s => destroyExecutor (HolderMonitor "drive") s | _ => Deadlocks end = Terminates.
Proof. vm_compute. reflexivity. Qed.
End ShutdownExamples.
Import ActionExamples ShutdownExamples.

Lemma backoff_total_witness : all_waits exact_pow two (mkRetry 10 100 true) = Some 102300.
Proof. apply (backoff_total exact_pow (λ k _, eq_refl) 10 100); lia. Defined.

Lemma outliving_action_deadlocks_witness :
  match executeAsync true false 0 (mkAct "lift" true) 50 fresh with
  | Returns (_, s) => destroyExecutor (HolderTask 0) (finish_task 7 0 s) = Deadlocks
  | _ => False
  end.
Proof.
  destruct (executeAsync true false 0 (mkAct "lift" true) 50 fresh) as [[id s]| |] eqn:E; [|discriminate..].
  exact (outliving_action_deadlocks true 0 7 (mkAct "lift" true) 50 fresh id s eq_refl E).
Defined.
