(* ===== verification/ScheduleTools.v ===== *)
(** * The schedule validator (tools/validate_schedule.cpp)

    The tool that checks a configuration of the real-time executive before it
    is used.  A configuration is the document of [Config]; what is printed is
    left out, the exit code and the two flags are not.  [None] stands for a
    conversion that the language leaves undefined. *)

From S2P Require Import Prelude Ieee754 Text Config RTSchedule.
#[local] Open Scope Z_scope.

(** 0.70 *)
Definition MAX_CPU_UTILIZATION : Z := 0x3FE6666666666666.
Definition WARNING_MAJOR_CYCLE_MS : Z := 1000.

(** [contains]: only an object has members. *)
Definition json_find (k : string) (j : Json) : option Json :=
  match j with JObject l => member k l | _ => None end.

(** [get<uint32_t>()] *)
Definition get_u32 (j : Json) : option (result string Z) :=
  match j with
  | JInt n => Some (Ok (u32 n))
  | JBool b => Some (Ok (if b then 1 else 0))
  | JFloat d =>
    match double_trunc d with
    | Some n => if (0 <=? n) && (n <? 2 ^ 32) then Some (Ok n) else None
    | None => None
    end
  | _ => Some (Throw "type must be number")
  end.

(** [get<std::vector<uint32_t>>()] of an array *)
Fixpoint get_u32s (l : list Json) : option (result string (list Z)) :=
  match l with
  | [] => Some (Ok [])
  | j :: l => jbind (get_u32 j) (λ n, jbind (get_u32s l) (λ ns, Some (Ok (n :: ns))))
  end.

Record Totals := mkTotals { has_error : bool; total_utilization : Z }.

Definition utilization_of (wcet_us period_ms : Z) : Z :=
  double_div (double_div (double_of_int wcet_us) (double_of_int 1000)) (double_of_int period_ms).

(** One turn of the loop over the actions. *)
Definition check_action (params : ScheduleParams) (t : Totals) (action : Json) : option (result string Totals) :=
  match json_find "name" action, json_find "period_ms" action, json_find "wcet_us" action with
  | Some n, Some p, Some w =>
    jbind (get_string n) (λ _, jbind (get_u32 p) (λ period_ms, jbind (get_u32 w) (λ wcet_us,
      let late := u32 (period_ms * 1000) <? wcet_us in
      let off := negb (period_ms mod minor_cycle_ms params =? 0) in
      Some (Ok (mkTotals (has_error t || late || off)
                  (double_add (total_utilization t) (utilization_of wcet_us period_ms)))))))
  | _, _, _ => Some (Ok (mkTotals true (total_utilization t)))
  end.

Fixpoint check_actions (params : ScheduleParams) (t : Totals) (l : list Json) : option (result string Totals) :=
  match l with
  | [] => Some (Ok t)
  | a :: l => jbind (check_action params t a) (λ t, check_actions params t l)
  end.

(** What is printed at the end; the first is exit code 1, the others 0. *)
Inductive Verdict := Failed | ValidWithWarnings | Valid.

Definition exit_code (v : Verdict) : Z := match v with Failed => 1 | _ => 0 end.

Definition verdict (err warn : bool) : Verdict := if err then Failed else if warn then ValidWithWarnings else Valid.

(** The body of the [try] block, from the parsed document. *)
Definition validate_config (config : Json) : option (result string Verdict) :=
  match json_find "periods_ms" config with
  | Some (JArray ps) =>
    jbind (get_u32s ps) (λ periods_ms,
      if bool_decide (periods_ms = []) then Some (Ok Failed)
      else
        match calculate periods_ms with
        | Throw _ => Some (Ok Failed)
        | Ok params =>
          let has_warning := WARNING_MAJOR_CYCLE_MS <? major_cycle_ms params in
          match json_find "actions" config with
          | Some (JArray actions) =>
            jbind (check_actions params (mkTotals false (double_of_int 0)) actions) (λ t,
              let over := double_lt MAX_CPU_UTILIZATION (total_utilization t) in
              Some (Ok (verdict (has_error t || over) has_warning)))
          | _ => Some (Ok (verdict false true))
          end
        end)
  | _ => Some (Ok Failed)
  end.

(** [main], once the command line is right: every exception ends in exit code 1. *)
Definition validate_main (f : ConfigFile) : option Verdict :=
  match f with
  | NoFile | Unreadable | Malformed _ => Some Failed
  | Parsed config =>
    match validate_config config with
    | Some (Ok v) => Some v
    | Some (Throw _) => Some Failed
    | None => None
    end
  end.

(** ** What an accepted configuration has *)

Lemma get_u32_range j n : get_u32 j = Some (Ok n) -> in_u32 n.
Proof.
  unfold get_u32, in_u32. destruct j as [|b|m|d| | |]; try done.
  - intros [= <-]. destruct b; lia.
  - intros [= <-]. unfold u32, wrap. apply Z.mod_pos_bound. lia.
  - destruct (double_trunc d) as [m|]; [|done]. destruct (_ && _) eqn:E; [|done]. intros [= <-].
    apply andb_prop in E as [E1 E2]. lia.
Qed.

Lemma get_u32s_range l ns : get_u32s l = Some (Ok ns) -> Forall in_u32 ns.
Proof.
  revert ns. induction l as [|j l IH]; intros ns; simpl; [intros [= <-]; constructor|].
  destruct (get_u32 j) as [[n|]|] eqn:Ej; try done. simpl.
  destruct (get_u32s l) as [[ms|]|]; try done. simpl. intros [= <-].
  constructor; [by eapply get_u32_range|by apply IH].
Qed.

(** An action the loop passed without an error. *)
Record action_ok (minor : Z) (action : Json) (period wcet : Z) : Prop := {
  ak_name : exists n, json_find "name" action = Some (JString n);
  ak_period : json_find "period_ms" action ≫= get_u32 = Some (Ok period);
  ak_wcet : json_find "wcet_us" action ≫= get_u32 = Some (Ok wcet);
  ak_range : in_u32 period /\ in_u32 wcet;
  ak_fits : wcet <= 1000 * period;
  ak_aligned : period mod minor = 0
}.

Lemma check_action_ok params t action t' :
  check_action params t action = Some (Ok t') -> has_error t' = false ->
  has_error t = false /\
  exists p w, action_ok (minor_cycle_ms params) action p w /\
    total_utilization t' = double_add (total_utilization t) (utilization_of w p).
Proof.
  unfold check_action. intros H He.
  destruct (json_find "name" action) as [n|] eqn:En; [|by injection H as <-].
  destruct (json_find "period_ms" action) as [p|] eqn:Ep; [|by injection H as <-].
  destruct (json_find "wcet_us" action) as [w|] eqn:Ew; [|by injection H as <-].
  destruct n as [| | | |nm| |]; try done. simpl in H.
  destruct (get_u32 p) as [[pv|]|] eqn:Gp; try done. simpl in H.
  destruct (get_u32 w) as [[wv|]|] eqn:Gw; try done. injection H as <-. simpl in He.
  apply orb_false_iff in He as [[He Hl]%orb_false_iff Ho]. split; [done|]. exists pv, wv. split; [|done].
  pose proof (get_u32_range _ _ Gp) as Rp. pose proof (get_u32_range _ _ Gw) as Rw.
  apply Z.ltb_ge in Hl. apply negb_false_iff, Z.eqb_eq in Ho.
  assert (u32 (pv * 1000) <= pv * 1000) by (unfold u32, wrap, in_u32 in *; apply Z.mod_le; lia).
  constructor; rewrite ?En, ?Ep, ?Ew; simpl; [eauto|done..|lia|done].
Qed.

Lemma check_actions_ok params l t t' :
  check_actions params t l = Some (Ok t') -> has_error t' = false ->
  has_error t = false /\
  exists pws, Forall2 (λ a pw, action_ok (minor_cycle_ms params) a (fst pw) (snd pw)) l pws /\
    total_utilization t' = foldl (λ u pw, double_add u (utilization_of (snd pw) (fst pw))) (total_utilization t) pws.
Proof.
  revert t. induction l as [|a l IH]; intros t H He; simpl in H.
  - injection H as <-. split; [done|]. exists []. by split; [constructor|].
  - destruct (check_action params t a) as [[t1|]|] eqn:E1; try done. simpl in H.
    destruct (IH t1 H He) as (He1 & pws & Hf & Ht).
    destruct (check_action_ok _ _ _ _ E1 He1) as (He0 & p & w & Ha & Hu). split; [done|].
    exists ((p, w) :: pws). split; [by constructor|]. simpl. by rewrite <- Hu.
Qed.

(** A configuration that the tool accepts has 32-bit periods with a schedule, and
    if it has actions, each is named, takes no longer than its period, has a
    period that is a multiple of the minor cycle, and their utilizations, added
    in doubles, are not above 0.7. *)
Theorem accepted_schedule_is_sound config v :
  validate_main (Parsed config) = Some v -> exit_code v = 0 ->
  exists periods params,
    (exists ps, json_find "periods_ms" config = Some (JArray ps) /\ get_u32s ps = Some (Ok periods)) /\
    Forall in_u32 periods /\ calculate periods = Ok params /\
    (v = Valid -> exists actions, json_find "actions" config = Some (JArray actions) /\ major_cycle_ms params <= 1000) /\
    forall actions, json_find "actions" config = Some (JArray actions) ->
      exists pws, Forall2 (λ a pw, action_ok (minor_cycle_ms params) a (fst pw) (snd pw)) actions pws /\
        double_lt MAX_CPU_UTILIZATION
          (foldl (λ u pw, double_add u (utilization_of (snd pw) (fst pw))) (double_of_int 0) pws) = false.
Proof.
  unfold validate_main, validate_config. intros H Hc.
  destruct (json_find "periods_ms" config) as [[| | | | |ps|]|]; try (injection H as <-; discriminate).
  destruct (get_u32s ps) as [[ns|]|] eqn:Eg; try done; [|simpl in H; injection H as <-; discriminate].
  cbn [jbind] in H. case_bool_decide; [injection H as <-; discriminate|].
  destruct (calculate ns) as [params|] eqn:Ec; [|injection H as <-; discriminate].
  exists ns, params. split; [eauto|]. split; [by eapply get_u32s_range|]. split; [done|].
  destruct (json_find "actions" config) as [[| | | | |acts|]|];
    try (injection H as <-; split; [discriminate|]; intros actions Ha; discriminate).
  destruct (check_actions _ _ acts) as [[t|]|] eqn:Et; try done; [|simpl in H; injection H as <-; discriminate].
  cbn [jbind] in H. injection H as <-. unfold verdict in *.
  destruct (has_error t || _) eqn:Ee; [discriminate|]. apply orb_false_iff in Ee as [Ee Eo].
  destruct (check_actions_ok _ _ _ _ Et Ee) as (_ & pws & Hf & Hu). split.
  - intros Hv. exists acts. split; [done|]. destruct (Z.ltb_spec WARNING_MAJOR_CYCLE_MS (major_cycle_ms params)); [done|].
    unfold WARNING_MAJOR_CYCLE_MS in *. lia.
  - intros actions [= <-]. exists pws. split; [done|]. by rewrite Hu in Eo.
Qed.

(** ** Examples *)

Module ScheduleExamples.
Definition action (name : string) (period wcet : Z) : Json :=
  JObject [("name", JString name); ("period_ms", JInt period); ("wcet_us", JInt wcet)].

Definition doc (periods : list Z) (actions : list Json) : Json :=
  JObject [("actions", JArray actions); ("periods_ms", JArray (JInt <$> periods))].

(** The actions of config/rt_schedule.json that run every millisecond. *)
Definition shipped : Json :=
  doc [1; 5; 10; 20; 50; 100] [action "sensor_read" 1 50; action "motor_control" 1 80].

Example overload_is_rejected :
  validate_main (Parsed (doc [10] [action "a" 10 4000; action "b" 10 4000])) = Some Failed.
Proof. vm_compute. reflexivity. Qed.

(** An action with period 0 makes the total no number: no load is too high. *)
Example zero_period_hides_overload :
  validate_main (Parsed (doc [10] [action "a" 10 9000; action "b" 10 9000; action "z" 0 0])) = Some Valid.
Proof. vm_compute. reflexivity. Qed.

(** A period is only compared with the minor cycle. *)
Example period_beyond_the_major_cycle_is_accepted :
  validate_main (Parsed (doc [10] [action "a" 30 10])) = Some Valid /\
  calculate [10] = Ok (mkScheduleParams 10 10 1).
Proof. vm_compute. split; reflexivity. Qed.

(** The product of the period and 1000 wraps: a long period is refused. *)
Example long_period_is_refused :
  validate_main (Parsed (doc [10] [action "a" 4294970 3000])) = Some Failed.
Proof. vm_compute. reflexivity. Qed.
End ScheduleExamples.
Import ScheduleExamples.

Lemma accepted_schedule_is_sound_witness :
  exists periods params, Forall in_u32 periods /\ calculate periods = Ok params /\ minor_cycle_ms params = 1.
Proof.
  destruct (accepted_schedule_is_sound shipped Valid ltac:(vm_compute; reflexivity) eq_refl)
    as (periods & params & (ps & H1 & H2) & Hr & Hc & _).
  exists periods, params. split; [exact Hr|]. split; [exact Hc|].
  vm_compute in H1. injection H1 as <-. vm_compute in H2. injection H2 as <-.
  vm_compute in Hc. injection Hc as <-. reflexivity.
Defined.
